(* ===== verification/_CoqProject ===== *)
-Q . S2P
Prelude.v
PgBitmap.v
Pgalloc.v
PgGeom.v
PgallocInv.v
PgallocProps.v
PageIface.v
PgallocRun.v
PgallocThms.v
Mem.v
Cstring.v
Strtoul.v
StringThms.v
Memalloc.v
MemallocInv.v
MemallocProps.v
MemallocThms.v
Sched.v
SchedInv.v
SchedProps.v
SchedSwitch.v
SchedMach.v
SchedSafe.v
SchedExit.v
SchedThms.v
SchedIface.v
Synch.v
SynchInv.v
SynchProps.v
SynchMach.v
SynchStep.v
SynchResume.v
SynchThms.v
Printf.v
PrintfProps.v
PrintfSim.v
PrintfThms.v
Jsmn.v
JsmnProps.v
JsmnThms.v
RumpuserMem.v
RumpuserBase.v
Calendar.v
X86Clock.v
Intr.v
Mman.v
Lwp.v
Parseargs.v
Xencons.v
XenconsThms.v
Gnttab.v
Sel4Dma.v
Sel4Cons.v
Sel4Intr.v
Sel4IntrThms.v
Config.v
ConfigJson.v
ConfigThms.v
Count.v
SpWire.v
SpWireThms.v
SpServ.v
SpServInv.v
SpServStep.v
SpServSafe.v
SpServThms.v
SpErrThms.v
SpUrl.v
Rumprun.v
XenRing.v
Xenbus.v
XenbusThms.v
XenbusSafe.v
Multiboot.v
HwDev.v
Blkfront.v
BlkfrontThms.v
Queue.v
Busdev.v
BusdevThms.v
