(* ===== verification/Prelude.v ===== *)
(** * rumprun: a verification library

    Rumprun runs unmodified POSIX programs on top of a NetBSD rump kernel
    without an operating system below: on hardware, on Xen and on seL4.  This
    library models the parts of it that carry logic of their own, as executable
    definitions translated from the C sources under src/, and proves what makes
    them correct.

    ** The program and its parts

    At the bottom is the "bare metal kernel" (lib/libbmk_core): a buddy page
    allocator, a malloc on top of it, a cooperative thread scheduler, string
    routines, printf, number parsing and a JSON tokenizer, and the linked lists
    of include/bmk-core/queue.h that all of them use.  The rump kernel
    reaches it through the hypercalls of lib/libbmk_rumpuser: memory,
    parameters, time, and locks and condition variables built on the
    scheduler.  lib/librumprun_base and lib/librumpkern_mman give programs
    light-weight processes, mmap, the configuration of what to run, their
    start and end, and a server that runs system calls for remote clients.  The
    platforms (platform/hw, platform/xen, platform/sel4) supply boot
    information, interrupts, clocks, consoles, PCI, grant tables, the store of
    the hypervisor, block devices and DMA memory.

    ** Files

    - [Prelude]: outcomes of C code, machine-width arithmetic, lists; [Count]:
      counting the elements of a list.
    - Page allocator, libbmk_core/pgalloc.c: [PgBitmap] and [Pgalloc] are the
      code ([map_alloc], [map_free], [bmk_pgalloc_loadmem],
      [bmk_pgalloc_align], [bmk_pgfree]); [PgGeom] the arithmetic of aligned
      blocks; [PgallocInv], [PgallocProps], [PgallocRun], [PgallocThms] the
      invariant, the operations, runs and theorems.  [PageIface] is the class
      [PageAllocator] that its clients are verified against.
    - [Mem], [Cstring], [Strtoul], [StringThms]: byte memory, bmk_string.c and
      strtoul.c.
    - malloc, libbmk_core/memalloc.c: [Memalloc] the code, over any
      [PageAllocator]; [MemallocInv], [MemallocProps], [MemallocThms].
    - Scheduler, libbmk_core/sched.c: [Sched] the code, cut at the context
      switch; [SchedInv], [SchedProps], [SchedSwitch], [SchedMach],
      [SchedSafe], [SchedExit], [SchedThms]; [SchedIface] is the class
      [Scheduler] that its clients use.
    - Locks, libbmk_rumpuser/rumpuser_synch.c: [Synch] the code, over any
      [Scheduler]; [SynchInv], [SynchProps], [SynchMach], [SynchStep],
      [SynchResume], [SynchThms].
    - printf, libbmk_core/subr_prf.c: [Printf], [PrintfProps], [PrintfSim],
      [PrintfThms].
    - JSON tokenizer, libbmk_core/jsmn.c: [Jsmn], [JsmnProps], [JsmnThms].
    - Linked lists, include/bmk-core/queue.h: [Queue], a module for each of the
      five families of macros, on a memory of pointer cells.
    - [RumpuserMem], [RumpuserBase]: rumpuser_mem.c, rumpuser_base.c and
      rumpuser_clock.c of libbmk_rumpuser.
    - Hardware platform: [Calendar]: hw/clock_subr.c; [X86Clock]:
      hw/arch/x86/clock.c and hypervisor.c; [Intr]: hw/intr.c and
      hw/arch/x86/cpu_subr.c; [Multiboot]: hw/multiboot.c and
      libbmk_core/init.c; [HwDev]: the consoles (hw/arch/x86/vgacons.c,
      serialcons.c, cons.c) and hw/pci.
    - [Mman]: librumpkern_mman/sys_mman.c and librumprun_base/syscall_mman.c.
    - [Lwp]: librumprun_base/_lwp.c, over any [Scheduler].
    - [Parseargs]: librumprun_base/parseargs.c; [Config], [ConfigJson],
      [ConfigThms]: librumprun_base/config.c, on top of the tokenizer and the
      splitting of command lines.
    - System call proxy, librumprun_base/sysproxy.c: [SpWire], [SpWireThms] the
      messages on a connection; [SpServ] the server, with its receiver,
      workers, clients and processes, [SpServInv], [SpServStep], [SpServSafe],
      [SpServThms]; [SpErrThms] its refusals; [SpUrl] addresses.
    - [Rumprun]: the life cycle of programs, librumprun_base/rumprun.c and
      main.c.
    - Xen platform: [Xencons], [XenconsThms]: xen/console/console.c and
      xencons_ring.c; [Gnttab]: xen/gnttab.c; [XenRing], [Xenbus],
      [XenbusThms], [XenbusSafe]: the client of the store, xen/xenbus/xenbus.c;
      [Busdev], [BusdevThms]: the device that gives processes the store,
      librumpxen_xendev/busdev.c and busdev_user.c; [Blkfront],
      [BlkfrontThms]: block devices, xen/blkfront.c and rumphyper_bio.c.
    - seL4 platform: [Sel4Dma], [Sel4Cons]: sel4/pci/rumpdma.c and sel4/cons.c;
      [Sel4Intr], [Sel4IntrThms]: the interrupts, sel4/intr.c, kernel.c,
      entry.c and clock.c.

    ** How the code is translated

    Definitions keep the names of the functions.  A call returns an [outcome]:
    a value, a halt (a failed assertion or [bmk_platform_halt], with its
    message), or undefined behaviour, which covers every access outside an
    object; safety theorems say that only the first happens.  The static data
    of a file is a record that is passed through.  Integers are [Z], with the
    wrap to 64, 32 or 16 bits and the conversion to signed characters written
    out.  Linked lists are lists of addresses ([Queue] shows that the macros
    implement them), or links in an array where the code has them there
    ([gnttab_list]); headers that the code keeps inside free memory are maps
    from addresses, and a store into memory destroys what it overlaps.

    Code that other code can interleave with is cut at the points where that
    may happen, and a machine runs the pieces in every order: the scheduler at
    the context switch ([SchedMach]), the locks at the calls that give up the
    CPU ([SynchMach]), interrupts between the steps of their thread ([Intr],
    [Sel4Intr]), the threads of the proxy server at its locks and waits
    ([SpServ]), programs at the calls that wait ([Rumprun]), the Xen console,
    grant tables, store client and block devices between accesses to shared
    pages and where they wait ([console_run], [gnt_run], [xb_run],
    [blk_event]).  What lies outside the sources (hardware, the
    hypervisor, the rump kernel, platform libraries) is an argument: a list of
    answers, the events of the machine, or a class ([XenWire], [XsProto], the
    rings of [Blkfront]) with an instance in the witnesses.

    ** What the theorems show

    - Page allocator: an allocation is aligned, free before, and exactly its
      pages are marked; freeing merges fully; loading memory makes exactly the
      given pages available; allocating and freeing restores the state; no run
      of operations fails an assertion; the debug check of the code holds.
    - malloc: no run fails; objects are disjoint, aligned, large enough, keep
      their contents across calloc and realloc; freeing restores.  The same
      holds for the hypercalls that mix it with page allocations.
    - Scheduler: the comments at the top of sched.c as an invariant kept by
      every event; timeouts are honoured; the run queue is first in first out;
      the reaper frees what exited.
    - Locks: no run fails; mutual exclusion; no lost wake-up; the count of
      waiters is exact; signal and broadcast wake whom they should.
    - Linked lists: every sequence of operations of a family implements the
      operations on sequences, with no access outside the elements.
    - printf: it terminates for every format, the buffer versions store what
      the console version prints, numbers are read back by strtoul.
    - JSON: the counting pass and the storing pass agree; tokens are typed and
      nest.  Command lines: the same two-pass agreement, and the language they
      accept; what [write_args] writes is read back.  Configuration: the
      three composed, from a JSON text to the calls made and the programs to
      run with their arguments.
    - Clocks: the calendar conversion against a day count, the arithmetic
      bounds of the time conversion, the consistency of the shared time page.
    - Interrupts: every interrupt noted is delivered, on hardware and on seL4,
      where the masking of the interrupt thread is shown to be enough.
    - Boot: every combination the loader may leave is refused with its message
      or leads to memory and configuration set up as they should be.  The text
      screen shows the last rows of an unbounded terminal.
    - mmap as a set of pages; the registry of processes; DMA addresses.
    - Programs: the main thread fails no check, and when it reboots each program
      that was started has been waited for once; it always gets there if the
      programs end.
    - Proxy server: messages are read back as sent however the stream is cut;
      no interleaving of clients and workers fails a check or uses a freed
      object; requests taken are served; malformed ones are refused.
    - Xen console: the backend reads the text, with its line ends converted,
      for every interleaving.  Grant tables: references are exclusive and no
      entry gives access once its grant has ended.  Store client: each call
      gets the answer to its own request.  Store device: no request of a
      process is lost or answered twice.  Block devices: each transfer is
      completed once, and nobody sleeps without an event to come.

    ** Fuel

    Loops that are not structural carry fuel: the size of the memory for loops
    over strings (a string cannot be longer), the number of free-list levels,
    queue lengths, the length of the text for the tokenizer, the bytes of a
    read or write, the size of the ring.  The theorems about results are stated
    for the definitions with their fuel filled in, so running out of it would
    refute them.

    ** Not modelled

    Assembler, context switches and thread-local storage of the CPUs, page
    tables (xen/arch/x86/mm.c) and device registers; the start-up code of the
    platforms; event channels, the network and PCI front-ends and the other
    devices of Xen, and stdio and PCI of seL4, whose code mostly calls interfaces of
    the hypervisor, the rump kernel or platform libraries that are not in the
    sources; connecting and disconnecting a block device through the store,
    and the operations of the store client that only build requests from
    strings; wrappers and stubs of libc; the tools and build scripts. *)

From stdpp Require Export base gmap list strings sorting.
From Stdlib Require Export ZArith Lia Znumtheory.
Global Open Scope Z_scope.

(** ** Outcomes of C code

    A call either returns ([Done]), stops the machine through
    [bmk_platform_halt] or a failed [bmk_assert] ([Halt], with the message),
    or runs into behaviour the C standard leaves undefined, such as an access
    outside an array ([Undef]). *)
Inductive outcome (A : Type) : Type :=
  | Done (a : A)
  | Halt (why : string)
  | Undef (why : string).
Arguments Done {A} _.
Arguments Halt {A} _.
Arguments Undef {A} _.

Global Instance outcome_ret : MRet outcome := fun A a => Done a.
Global Instance outcome_bind : MBind outcome := fun A B f m =>
  match m with
  | Done a => f a
  | Halt w => Halt w
  | Undef w => Undef w
  end.

(** [bmk_assert(x)] of include/bmk-core/core.h. *)
Definition bmk_assert (x : bool) (what : string) : outcome () :=
  if x then Done () else Halt what.

Definition of_option {A} (what : string) (o : option A) : outcome A :=
  match o with Some a => Done a | None => Undef what end.

Lemma bind_Done {A B} (m : outcome A) (f : A -> outcome B) b :
  m ≫= f = Done b <-> exists a, m = Done a /\ f a = Done b.
Proof. destruct m; cbn; split; naive_solver. Qed.

Lemma bmk_assert_Done x what u : bmk_assert x what = Done u <-> x = true.
Proof. destruct x, u; cbn; naive_solver. Qed.

Lemma of_option_Done {A} what (o : option A) a :
  of_option what o = Done a <-> o = Some a.
Proof. destruct o; cbn; naive_solver. Qed.

(** Running a computation forward, one rewriting step at a time: the equations
    keep the kernel from comparing large unfolded programs. *)
Lemma Done_bind {A B} (a : A) (f : A -> outcome B) : Done a ≫= f = f a.
Proof. reflexivity. Qed.
Lemma bmk_assert_true what : bmk_assert true what = Done ().
Proof. reflexivity. Qed.
Lemma of_option_Some {A} what (a : A) : of_option what (Some a) = Done a.
Proof. reflexivity. Qed.

Create Rewrite HintDb outcome.
#[export] Hint Rewrite @Done_bind bmk_assert_true @of_option_Some : outcome.
Ltac outcome_run := repeat (progress (autorewrite with outcome; cbv beta zeta)).

(** Peels the binds, assertions and lookups of a hypothesis [... = Done _]. *)
Ltac outcome_inv :=
  repeat match goal with
  | H : Done _ = Done _ |- _ => injection H; clear H; intros; subst
  | H : Halt _ = Done _ |- _ => discriminate H
  | H : Undef _ = Done _ |- _ => discriminate H
  | H : mret _ = Done _ |- _ => injection H; clear H; intros; subst
  | H : _ ≫= _ = Done _ |- _ =>
      apply bind_Done in H;
      let a := fresh "r" in let H1 := fresh "H" in let H2 := fresh "H" in
      destruct H as (a & H1 & H2)
  | H : bmk_assert _ _ = Done ?u |- _ =>
      apply bmk_assert_Done in H; try (destruct u)
  | H : of_option _ _ = Done _ |- _ => apply of_option_Done in H
  end.

(** ** Lists *)

Lemma filter_all {A} (Q : A -> Prop) `{!forall x, Decision (Q x)} l : Forall Q l -> filter Q l = l.
Proof.
  induction 1 as [| x l Hx Hl IH]; [done |]. by rewrite filter_cons_True, IH.
Qed.

Lemma filter_none {A} (Q : A -> Prop) `{!forall x, Decision (Q x)} l :
  Forall (fun x => ~ Q x) l -> filter Q l = [].
Proof.
  induction 1 as [| x l Hx Hl IH]; [done |]. by rewrite filter_cons_False, IH.
Qed.

(** ** Machine integers (LP64)

    [unsigned long] and pointers are integers in [0, 2^64); arithmetic on them
    wraps.  [int] values are integers in [-2^31, 2^31). *)
Definition W64 : Z := 2 ^ 64.
Definition wrap64 (z : Z) : Z := z mod W64.
Definition wrap32 (z : Z) : Z := z mod 2 ^ 32.
Definition s32 (z : Z) : Z := (z + 2 ^ 31) mod 2 ^ 32 - 2 ^ 31.
Definition s64 (z : Z) : Z := (z + 2 ^ 63) mod 2 ^ 64 - 2 ^ 63.
Definition wadd (a b : Z) : Z := wrap64 (a + b).
Definition wsub (a b : Z) : Z := wrap64 (a - b).
Definition wmul (a b : Z) : Z := wrap64 (a * b).
(** [~x] and [-x] on [unsigned long]. *)
Definition wnot (a : Z) : Z := W64 - 1 - a.
Definition wneg (a : Z) : Z := wrap64 (- a).

Definition u64 (z : Z) : Prop := 0 <= z < W64.

Lemma W64_pos : 0 < W64.
Proof. reflexivity. Qed.

Lemma wrap64_small z : u64 z -> wrap64 z = z.
Proof. apply Z.mod_small. Qed.

Lemma wrap64_u64 z : u64 (wrap64 z).
Proof. apply Z.mod_pos_bound, W64_pos. Qed.

Lemma wadd_small a b : u64 (a + b) -> wadd a b = a + b.
Proof. apply Z.mod_small. Qed.

Lemma wsub_small a b : u64 (a - b) -> wsub a b = a - b.
Proof. apply Z.mod_small. Qed.

Lemma s32_small z : - 2 ^ 31 <= z < 2 ^ 31 -> s32 z = z.
Proof. intros H. unfold s32. rewrite Z.mod_small; lia. Qed.

Lemma s64_small z : - 2 ^ 63 <= z < 2 ^ 63 -> s64 z = z.
Proof. intros H. unfold s64. rewrite Z.mod_small; lia. Qed.

(** [__builtin_ctzl] and [__builtin_clzl], for non-zero arguments. *)
Fixpoint ctz_pos (p : positive) : Z :=
  match p with
  | xO q => 1 + ctz_pos q
  | _ => 0
  end.
Definition ctzl (z : Z) : Z :=
  match z with Zpos p => ctz_pos p | _ => 64 end.
Definition clzl (z : Z) : Z := 63 - Z.log2 z.

Lemma ctz_pos_nonneg p : 0 <= ctz_pos p.
Proof. induction p; cbn [ctz_pos]; lia. Qed.

(** Every power of two dividing [p] has an exponent of at most [ctz_pos p],
    and [2 ^ ctz_pos p] divides it. *)
Lemma ctz_pos_divide p k : 0 <= k -> (2 ^ k | Zpos p) <-> k <= ctz_pos p.
Proof.
  revert k; induction p as [p IH | p IH |]; intros k Hk; cbn [ctz_pos].
  - split; intros H; [| assert (k = 0) as -> by lia; apply Z.divide_1_l].
    destruct (Z.eq_dec k 0) as [-> | Hne]; [lia |].
    exfalso. assert (2 | Zpos p~1) as [q Hq]; [| lia].
    transitivity (2 ^ k); [| done].
    exists (2 ^ (k - 1)). rewrite Z.mul_comm, <- Z.pow_succ_r by lia. f_equal; lia.
  - destruct (Z.eq_dec k 0) as [-> | Hne].
    + split; intros _; [pose proof (ctz_pos_nonneg p); lia | apply Z.divide_1_l].
    + replace k with (Z.succ (k - 1)) by lia.
      rewrite Z.pow_succ_r by lia. rewrite (Pos2Z.inj_xO p).
      rewrite Z.mul_divide_cancel_l by lia. rewrite IH by lia. lia.
  - split; intros H; [| assert (k = 0) as -> by lia; apply Z.divide_1_l].
    destruct (Z.eq_dec k 0) as [-> | Hne]; [lia |].
    exfalso. apply Z.divide_1_r_nonneg in H; [| lia].
    pose proof (Z.pow_gt_1 2 k); lia.
Qed.

Lemma ctzl_divide z k : 0 < z -> 0 <= k -> (2 ^ k | z) <-> k <= ctzl z.
Proof. destruct z; try lia. intros _. apply ctz_pos_divide. Qed.

Lemma ctzl_nonneg z : 0 < z -> 0 <= ctzl z.
Proof. destruct z; try lia. intros _. apply ctz_pos_nonneg. Qed.

Lemma ctzl_divides z : 0 < z -> (2 ^ ctzl z | z).
Proof. intros H. apply ctzl_divide; [done | by apply ctzl_nonneg | lia]. Qed.

Lemma ctzl_le_log2 z : 0 < z -> ctzl z <= Z.log2 z.
Proof.
  intros H. apply Z.log2_le_pow2; [done |].
  by apply Z.divide_pos_le, ctzl_divides.
Qed.

(** ** Powers of two as masks *)

Lemma land_pow2_eqb a n : 0 <= n -> (Z.land a (2 ^ n) =? 0) = negb (Z.testbit a n).
Proof.
  intros Hn. destruct (Z.testbit a n) eqn:Ht; cbn.
  - apply Z.eqb_neq. intros E.
    assert (Z.testbit (Z.land a (2 ^ n)) n = true) as Hb
      by (rewrite Z.land_spec, Ht, Z.pow2_bits_true; done).
    rewrite E, Z.bits_0 in Hb. done.
  - apply Z.eqb_eq, Z.bits_inj'. intros j Hj.
    rewrite Z.land_spec, Z.bits_0, Z.pow2_bits_eqb by lia.
    destruct (Z.eqb_spec n j); [subst; by rewrite Ht | by rewrite andb_false_r].
Qed.

(** [x & (x-1)] is zero exactly for powers of two. *)
Lemma land_pred_pow2 a : 0 < a -> Z.land a (a - 1) = 0 <-> a = 2 ^ Z.log2 a.
Proof.
  intros Ha. pose proof (Z.log2_spec a Ha) as [Hlo Hhi].
  pose proof (Z.log2_nonneg a) as Hnn. split.
  - intros H. destruct (Z.eq_dec a (2 ^ Z.log2 a)) as [? | Hne]; [done |].
    exfalso. assert (Z.log2 (a - 1) = Z.log2 a) as E.
    { apply Z.log2_unique; lia. }
    assert (Z.testbit (Z.land a (a - 1)) (Z.log2 a) = true) as Hb.
    { rewrite Z.land_spec, Z.bit_log2 by lia. rewrite <- E.
      rewrite Z.bit_log2; [done |]. pose proof (Z.pow_pos_nonneg 2 (Z.log2 a)). lia. }
    rewrite H, Z.bits_0 in Hb. done.
  - intros ->. set (k := Z.log2 a) in *. replace (2 ^ k - 1) with (Z.ones k)
      by (rewrite Z.ones_equiv; lia).
    rewrite Z.land_ones by lia. by apply Z.mod_same, Z.pow_nonzero.
Qed.

Lemma land_mask_divide p k : 0 <= k -> Z.land p (2 ^ k - 1) = 0 <-> (2 ^ k | p).
Proof.
  intros Hk. replace (2 ^ k - 1) with (Z.ones k) by (rewrite Z.ones_equiv; lia).
  rewrite Z.land_ones by done. apply Z.mod_divide. by apply Z.pow_nonzero.
Qed.

Lemma divide_pow2_le j k : 0 <= j <= k -> (2 ^ j | 2 ^ k).
Proof.
  intros H. exists (2 ^ (k - j)). rewrite <- Z.pow_add_r by lia. f_equal; lia.
Qed.

(** Rounding down by clearing the low [k] bits of a word. *)
Lemma land_wnot_ones p k : u64 p -> 0 <= k <= 64 ->
  Z.land p (wnot (2 ^ k - 1)) = p - p mod 2 ^ k.
Proof.
  intros Hp Hk. rewrite <- Z.land_ones by lia.
  assert (Z.land p (wnot (2 ^ k - 1)) = Z.ldiff p (Z.ones k)) as ->.
  { apply Z.bits_inj'. intros j Hj. rewrite Z.land_spec, Z.ldiff_spec.
    replace (wnot (2 ^ k - 1)) with (Z.ldiff (Z.ones 64) (Z.ones k)).
    - rewrite Z.ldiff_spec. destruct (Z.ltb_spec j 64).
      + by rewrite Z.ones_spec_low, andb_true_l by lia.
      + rewrite (Z.ones_spec_high 64) by lia. cbn. rewrite andb_false_r.
        symmetry. apply andb_false_intro1.
        destruct (Z.eq_dec p 0) as [-> | Hne]; [apply Z.bits_0 |].
        unfold u64, W64 in Hp. apply Z.bits_above_log2; [lia |].
        assert (Z.log2 p < 64) by (apply Z.log2_lt_pow2; lia). lia.
    - rewrite <- Z.sub_nocarry_ldiff.
      + rewrite !Z.ones_equiv. unfold wnot, W64. lia.
      + apply Z.bits_inj'. intros i Hi. rewrite Z.ldiff_spec, Z.bits_0.
        destruct (Z.ltb_spec i k); [rewrite (Z.ones_spec_low 64) by lia; cbn; apply andb_false_r |].
        by rewrite Z.ones_spec_high by lia. }
  rewrite (Z.sub_nocarry_ldiff p (Z.land p (Z.ones k))).
  - apply Z.bits_inj'. intros j Hj. rewrite !Z.ldiff_spec, Z.land_spec.
    by destruct (Z.testbit p j), (Z.testbit (Z.ones k) j).
  - apply Z.bits_inj'. intros j Hj. rewrite Z.ldiff_spec, Z.land_spec, Z.bits_0.
    by destruct (Z.testbit p j), (Z.testbit (Z.ones k) j).
Qed.
