(* ===== verification/PgBitmap.v ===== *)
(** * The page allocation bitmap (lib/libbmk_core/pgalloc.c)

    One bit per managed page, set when the page is allocated, stored in an
    array of [unsigned long].  [map_alloc] and [map_free] update whole runs of
    pages with masks on the first and last word and full words in between; the
    theorems here show that they set, respectively clear, exactly the bits of
    the run and stay inside the array. *)

From S2P Require Import Prelude.

Definition PAGES_PER_MAPWORD : Z := 64.

(** [alloc_bitmap[idx]], read and written inside the array only. *)
Definition bm_read (bm : list Z) (idx : Z) : outcome Z :=
  of_option "alloc_bitmap" (bm !! Z.to_nat idx).
Definition bm_write (bm : list Z) (idx v : Z) : outcome (list Z) :=
  _ ← bm_read bm idx; Done (<[Z.to_nat idx := v]> bm).
Definition bm_modify (bm : list Z) (idx : Z) (f : Z -> Z) : outcome (list Z) :=
  w ← bm_read bm idx; bm_write bm idx (f w).

(** The test of [allocated_in_map], on a page number. *)
Definition page_allocated (bm : list Z) (pagenum : Z) : outcome bool :=
  w ← bm_read bm (pagenum / PAGES_PER_MAPWORD);
  Done (negb (Z.land w (Z.shiftl 1 (Z.land pagenum (PAGES_PER_MAPWORD - 1))) =? 0)).

(** The four values [PAGES_TO_MAPOPVARS] computes. *)
Record mapopvars := MapOpVars { mo_curr : Z; mo_start : Z; mo_end_idx : Z; mo_end : Z }.
Definition PAGES_TO_MAPOPVARS (first_page nr_pages : Z) : mapopvars :=
  {| mo_curr := first_page / PAGES_PER_MAPWORD;
     mo_start := Z.land first_page (PAGES_PER_MAPWORD - 1);
     mo_end_idx := wadd first_page nr_pages / PAGES_PER_MAPWORD;
     mo_end := Z.land (wadd first_page nr_pages) (PAGES_PER_MAPWORD - 1) |}.

(** [while (++curr_idx < end_idx) alloc_bitmap[curr_idx] = ~0UL;] with the
    value of [curr_idx] at the exit. *)
Fixpoint map_fill_lt (fuel : nat) (curr end_idx v : Z) (bm : list Z)
    : outcome (Z * list Z) :=
  match fuel with
  | O => Undef "fuel"
  | S fuel =>
      let curr := wadd curr 1 in
      if curr <? end_idx then
        bm ← bm_write bm curr v; map_fill_lt fuel curr end_idx v bm
      else Done (curr, bm)
  end.

(** [while (++curr_idx != end_idx) alloc_bitmap[curr_idx] = 0;] *)
Fixpoint map_fill_ne (fuel : nat) (curr end_idx v : Z) (bm : list Z)
    : outcome (Z * list Z) :=
  match fuel with
  | O => Undef "fuel"
  | S fuel =>
      let curr := wadd curr 1 in
      if curr =? end_idx then Done (curr, bm)
      else bm ← bm_write bm curr v; map_fill_ne fuel curr end_idx v bm
  end.

Definition fill_fuel (o : mapopvars) : nat := S (Z.to_nat (mo_end_idx o - mo_curr o)).

Definition map_alloc (bm : list Z) (first_page nr_pages : Z) : outcome (list Z) :=
  let o := PAGES_TO_MAPOPVARS first_page nr_pages in
  let below_end := wsub (Z.shiftl 1 (mo_end o)) 1 in
  let from_start := wneg (Z.shiftl 1 (mo_start o)) in
  if mo_curr o =? mo_end_idx o then
    bm_modify bm (mo_curr o) (fun w => Z.lor w (Z.land below_end from_start))
  else
    bm ← bm_modify bm (mo_curr o) (fun w => Z.lor w from_start);
    '(curr, bm) ← map_fill_lt (fill_fuel o) (mo_curr o) (mo_end_idx o) (wnot 0) bm;
    bm_modify bm curr (fun w => Z.lor w below_end).

Definition map_free (bm : list Z) (first_page nr_pages : Z) : outcome (list Z) :=
  let o := PAGES_TO_MAPOPVARS first_page nr_pages in
  let from_end := wneg (Z.shiftl 1 (mo_end o)) in
  let below_start := wsub (Z.shiftl 1 (mo_start o)) 1 in
  if mo_curr o =? mo_end_idx o then
    bm_modify bm (mo_curr o) (fun w => Z.land w (Z.lor from_end below_start))
  else
    bm ← bm_modify bm (mo_curr o) (fun w => Z.land w below_start);
    '(curr, bm) ← map_fill_ne (fill_fuel o) (mo_curr o) (mo_end_idx o) 0 bm;
    bm_modify bm curr (fun w => Z.land w from_end).

(** ** The bitmap as a predicate on page numbers *)

Definition bm_bit (bm : list Z) (i : Z) : bool :=
  match bm !! Z.to_nat (i / 64) with
  | Some w => Z.testbit w (i mod 64)
  | None => false
  end.

(** Page numbers the array has a bit for. *)
Definition bm_has (bm : list Z) (i : Z) : Prop := 0 <= i < 64 * Z.of_nat (length bm).

(** ** Words *)

Lemma land_63 n : Z.land n 63 = n mod 64.
Proof. change 63 with (Z.ones 6). by rewrite Z.land_ones. Qed.

Lemma mask_below e j : 0 <= e < 64 -> 0 <= j ->
  Z.testbit (wsub (Z.shiftl 1 e) 1) j = (j <? e).
Proof.
  intros He Hj. rewrite Z.shiftl_1_l. unfold wsub.
  assert (0 < 2 ^ e < W64).
  { split; [apply Z.pow_pos_nonneg; lia |].
    change W64 with (2 ^ 64). apply Z.pow_lt_mono_r; lia. }
  rewrite wrap64_small by (unfold u64; lia).
  replace (2 ^ e - 1) with (Z.ones e) by (rewrite Z.ones_equiv; lia).
  destruct (Z.ltb_spec j e); [apply Z.ones_spec_low | apply Z.ones_spec_high]; lia.
Qed.

Lemma mask_from s j : 0 <= s < 64 -> 0 <= j ->
  Z.testbit (wneg (Z.shiftl 1 s)) j = (s <=? j) && (j <? 64).
Proof.
  intros Hs Hj. rewrite Z.shiftl_1_l. unfold wneg, wrap64, W64.
  rewrite <- Z.land_ones, Z.land_spec by lia.
  replace (- 2 ^ s) with (Z.lnot (Z.ones s)) by (rewrite Z.ones_equiv; unfold Z.lnot; lia).
  rewrite Z.lnot_spec by lia.
  assert (forall n, 0 <= n -> Z.testbit (Z.ones n) j = (j <? n)) as Hones.
  { intros n Hn. destruct (Z.ltb_spec j n);
      [apply Z.ones_spec_low | apply Z.ones_spec_high]; lia. }
  rewrite !Hones by lia. rewrite <- Z.leb_antisym. done.
Qed.

Lemma testbit_wnot0 j : 0 <= j -> Z.testbit (wnot 0) j = (j <? 64).
Proof.
  intros Hj. replace (wnot 0) with (Z.ones 64) by reflexivity.
  destruct (Z.ltb_spec j 64); [apply Z.ones_spec_low | apply Z.ones_spec_high]; lia.
Qed.

Lemma u64_testbit w : 0 <= w -> (forall j, 64 <= j -> Z.testbit w j = false) -> u64 w.
Proof.
  intros H0 H. split; [done |]. destruct (Z.eq_dec w 0) as [-> | Hne]; [reflexivity |].
  change W64 with (2 ^ 64). apply Z.log2_lt_pow2; [lia |].
  destruct (Z.lt_ge_cases (Z.log2 w) 64) as [? | Hge]; [done |].
  specialize (H _ Hge). rewrite Z.bit_log2 in H by lia. done.
Qed.

Lemma u64_high w j : u64 w -> 64 <= j -> Z.testbit w j = false.
Proof.
  intros [H0 H1] Hj. destruct (Z.eq_dec w 0) as [-> | Hne]; [apply Z.bits_0 |].
  apply Z.bits_above_log2; [done |].
  change W64 with (2 ^ 64) in H1. apply Z.log2_lt_pow2 in H1; lia.
Qed.

Lemma u64_lor a b : u64 a -> u64 b -> u64 (Z.lor a b).
Proof.
  intros Ha Hb. apply u64_testbit.
  - apply Z.lor_nonneg. unfold u64 in *. lia.
  - intros j Hj. by rewrite Z.lor_spec, !u64_high.
Qed.

Lemma u64_land a b : u64 a -> u64 b -> u64 (Z.land a b).
Proof.
  intros Ha Hb. apply u64_testbit.
  - apply Z.land_nonneg. unfold u64 in *. lia.
  - intros j Hj. by rewrite Z.land_spec, !u64_high.
Qed.

Create HintDb u64 discriminated.
#[export] Hint Resolve wrap64_u64 u64_lor u64_land : u64.
#[export] Hint Extern 1 (u64 (wsub _ _)) => apply wrap64_u64 : u64.
#[export] Hint Extern 1 (u64 (wneg _)) => apply wrap64_u64 : u64.

(** ** Array accesses *)

Lemma bm_read_Done bm idx w :
  bm_read bm idx = Done w <-> bm !! Z.to_nat idx = Some w.
Proof. apply of_option_Done. Qed.

Lemma bm_modify_Done bm idx f w :
  bm !! Z.to_nat idx = Some w ->
  bm_modify bm idx f = Done (<[Z.to_nat idx := f w]> bm).
Proof. intros H. unfold bm_modify, bm_write, bm_read. by rewrite H. Qed.

Lemma page_allocated_bit bm i :
  bm_has bm i -> page_allocated bm i = Done (bm_bit bm i).
Proof.
  intros [H0 H1]. unfold page_allocated, bm_bit, PAGES_PER_MAPWORD.
  change (64 - 1) with 63. rewrite land_63.
  assert (0 <= i mod 64 < 64) by (apply Z.mod_pos_bound; lia).
  destruct (bm !! Z.to_nat (i / 64)) as [w |] eqn:Hw.
  - apply bm_read_Done in Hw. rewrite Hw. cbn. f_equal.
    rewrite Z.shiftl_1_l, land_pow2_eqb by lia. apply negb_involutive.
  - exfalso. apply lookup_ge_None in Hw.
    assert (i / 64 < Z.of_nat (length bm)) by (apply Z.div_lt_upper_bound; lia). lia.
Qed.

(** ** The word loops *)

Lemma map_fill_lt_spec fuel curr e v bm :
  0 <= curr < e -> e < W64 -> e <= Z.of_nat (length bm) ->
  (Z.to_nat (e - curr) <= fuel)%nat ->
  exists bm', map_fill_lt fuel curr e v bm = Done (e, bm') /\
    length bm' = length bm /\
    forall k : nat, bm' !! k = if decide (curr < Z.of_nat k < e) then Some v else bm !! k.
Proof.
  revert curr bm. induction fuel as [| fuel IH]; intros curr bm Hc He Hl Hf; [lia |].
  cbn [map_fill_lt]. rewrite wadd_small by (unfold u64; lia).
  destruct (Z.ltb_spec (curr + 1) e) as [Hlt | Hge].
  - destruct (lookup_lt_is_Some_2 bm (Z.to_nat (curr + 1))) as [w Hw]; [lia |].
    unfold bm_write, bm_read. rewrite Hw. cbn.
    destruct (IH (curr + 1) (<[Z.to_nat (curr + 1):=v]> bm)) as (bm' & -> & Hlen & Hk);
      [lia | lia | rewrite length_insert; lia | lia |].
    exists bm'. split; [done |]. rewrite length_insert in Hlen. split; [done |].
    intros k. rewrite Hk. destruct (decide (k = Z.to_nat (curr + 1))) as [-> | Hne].
    + rewrite list_lookup_insert_eq by lia.
      rewrite decide_False by lia. rewrite decide_True by lia. done.
    + rewrite list_lookup_insert_ne by done. repeat case_decide; try done; lia.
  - assert (e = curr + 1) as -> by lia. exists bm. split; [done |]. split; [done |].
    intros k. rewrite decide_False by lia. done.
Qed.

(** On the indices the callers use, the two loop conditions agree. *)
Lemma map_fill_ne_lt fuel curr e v bm :
  0 <= curr < e -> e < W64 -> map_fill_ne fuel curr e v bm = map_fill_lt fuel curr e v bm.
Proof.
  revert curr bm. induction fuel as [| fuel IH]; intros curr bm Hc He; [done |].
  cbn [map_fill_lt map_fill_ne]. rewrite wadd_small by (unfold u64; lia).
  destruct (Z.ltb_spec (curr + 1) e), (Z.eqb_spec (curr + 1) e); try lia; [| done].
  destruct (bm_write bm (curr + 1) v); cbn; [apply IH; lia | done | done].
Qed.

(** ** Runs of pages *)

Definition in_run (first n i : Z) : bool := (first <=? i) && (i <? first + n).

Lemma in_run_true first n i : in_run first n i = true <-> first <= i < first + n.
Proof. unfold in_run. rewrite andb_true_iff, Z.leb_le, Z.ltb_lt. lia. Qed.

(** [upd] rewrites each word [k] to one whose bits are [f] of the old bit and
    of whether page [64 k + j] is in the run. *)
Definition run_update (f : bool -> bool -> bool) (first n : Z) (bm bm' : list Z) : Prop :=
  length bm' = length bm /\
  forall (k : nat) w, bm !! k = Some w -> exists w', bm' !! k = Some w' /\ u64 w' /\
    forall j, 0 <= j < 64 ->
      Z.testbit w' j = f (Z.testbit w j) (in_run first n (64 * Z.of_nat k + j)).

Lemma run_update_bit f first n bm bm' i :
  run_update f first n bm bm' -> bm_has bm i ->
  bm_bit bm' i = f (bm_bit bm i) (in_run first n i).
Proof.
  intros [Hl H] [H0 H1]. unfold bm_bit.
  destruct (lookup_lt_is_Some_2 bm (Z.to_nat (i / 64))) as [w Hw].
  { assert (i / 64 < Z.of_nat (length bm)) by (apply Z.div_lt_upper_bound; lia). lia. }
  destruct (H _ _ Hw) as (w' & Hw' & _ & Hb). rewrite Hw, Hw', Hb
    by (apply Z.mod_pos_bound; lia).
  do 2 f_equal. assert (0 <= i / 64) by (apply Z.div_pos; lia).
  rewrite Z2Nat.id by done. symmetry. apply Z.div_mod. lia.
Qed.

Lemma run_update_u64 f first n bm bm' :
  run_update f first n bm bm' -> Forall u64 bm'.
Proof.
  intros [Hl H]. apply Forall_lookup_2. intros k w' Hk.
  destruct (lookup_lt_is_Some_2 bm k) as [w Hw]; [rewrite <- Hl; by eapply lookup_lt_Some |].
  destruct (H _ _ Hw) as (w2 & Hw2 & Hu & _). congruence.
Qed.

Ltac bits_lia :=
  unfold in_run in *;
  repeat match goal with
  | |- context [Z.leb ?a ?b] => destruct (Z.leb_spec a b)
  | |- context [Z.ltb ?a ?b] => destruct (Z.ltb_spec a b)
  end; cbn; try lia; rewrite ?orb_true_r, ?orb_false_r, ?andb_true_r, ?andb_false_r; try done.

Section Runs.
Variables (bm : list Z) (first n : Z).
Hypothesis Hu : Forall u64 bm.
Hypothesis Hfirst : 0 <= first.
Hypothesis Hn : 0 <= n.
Hypothesis Hfit : (first + n) / 64 < Z.of_nat (length bm).
Hypothesis Hword : first + n < W64.

Let cu := first / 64.
Let st := first mod 64.
Let ei := (first + n) / 64.
Let en := (first + n) mod 64.

Lemma run_coords :
  first = 64 * cu + st /\ first + n = 64 * ei + en /\ 0 <= st < 64 /\ 0 <= en < 64 /\
  0 <= cu /\ cu <= ei < Z.of_nat (length bm) /\ ei < W64.
Proof.
  unfold cu, st, ei, en in *.
  pose proof (Z.div_mod first 64). pose proof (Z.div_mod (first + n) 64).
  pose proof (Z.mod_pos_bound first 64). pose proof (Z.mod_pos_bound (first + n) 64).
  assert (0 <= first / 64) by (apply Z.div_pos; lia). lia.
Qed.

Lemma run_vars : PAGES_TO_MAPOPVARS first n = MapOpVars cu st ei en.
Proof.
  unfold PAGES_TO_MAPOPVARS, PAGES_PER_MAPWORD. change (64 - 1) with 63.
  rewrite wadd_small by (unfold u64; lia). by rewrite !land_63.
Qed.

Lemma run_word k : (k < length bm)%nat -> exists w, bm !! k = Some w /\ u64 w.
Proof.
  intros [w Hw]%lookup_lt_is_Some_2. exists w. split; [done |].
  by eapply Forall_lookup_1 in Hu.
Qed.

(** The three-part update (first word, full words, last word) as a run. *)
Lemma run_update_three f g1 g2 v w1 w2 bm2 :
  cu < ei ->
  bm !! Z.to_nat cu = Some w1 -> bm !! Z.to_nat ei = Some w2 ->
  length bm2 = length bm ->
  (forall k : nat, bm2 !! k = if decide (cu < Z.of_nat k < ei) then Some v
     else <[Z.to_nat cu := g1 w1]> bm !! k) ->
  u64 v -> u64 (g1 w1) -> u64 (g2 w2) ->
  (forall b, f b false = b) ->
  (forall j, 0 <= j < 64 -> Z.testbit (g1 w1) j = f (Z.testbit w1 j) (st <=? j)) ->
  (forall j b, 0 <= j < 64 -> Z.testbit v j = f b true) ->
  (forall j, 0 <= j < 64 -> Z.testbit (g2 w2) j = f (Z.testbit w2 j) (j <? en)) ->
  run_update f first n bm (<[Z.to_nat ei := g2 w2]> bm2).
Proof.
  intros Hlt Hw1 Hw2 Hlen Hk Hv Hg1 Hg2 Hid Hb1 Hbv Hb2.
  destruct run_coords as (E1 & E2 & Hst & Hen & Hcu & Hei & _).
  split; [by rewrite length_insert |]. intros k w Hw.
  assert (k < length bm)%nat by (by eapply lookup_lt_Some).
  destruct (decide (k = Z.to_nat ei)) as [-> | Hne1].
  { rewrite list_lookup_insert_eq by lia. eexists. split; [done |]. split; [done |].
    rewrite Hw in Hw2. injection Hw2 as ->.
    intros j Hj. rewrite Hb2 by done. f_equal. bits_lia. }
  rewrite list_lookup_insert_ne, Hk by done.
  destruct (decide (k = Z.to_nat cu)) as [-> | Hne2].
  { rewrite decide_False by lia. rewrite list_lookup_insert_eq by lia.
    eexists. split; [done |]. split; [done |]. rewrite Hw in Hw1. injection Hw1 as ->.
    intros j Hj. rewrite Hb1 by done. f_equal. bits_lia. }
  rewrite list_lookup_insert_ne by done. case_decide.
  - eexists. split; [done |]. split; [done |]. intros j Hj. rewrite (Hbv j (Z.testbit w j)) by done.
    f_equal. bits_lia.
  - exists w. split; [done |]. split; [by eapply Forall_lookup_1 in Hu |].
    intros j Hj. rewrite <- (Hid (Z.testbit w j)) at 1. f_equal. bits_lia.
Qed.

Lemma run_update_one f g w :
  cu = ei -> bm !! Z.to_nat cu = Some w -> u64 (g w) ->
  (forall b, f b false = b) ->
  (forall j, 0 <= j < 64 ->
     Z.testbit (g w) j = f (Z.testbit w j) ((st <=? j) && (j <? en))) ->
  run_update f first n bm (<[Z.to_nat cu := g w]> bm).
Proof.
  intros Heq Hw Hg Hid Hb.
  destruct run_coords as (E1 & E2 & Hst & Hen & Hcu & Hei & _).
  split; [by rewrite length_insert |]. intros k w' Hw'.
  destruct (decide (k = Z.to_nat cu)) as [-> | Hne].
  - rewrite list_lookup_insert_eq by lia. eexists. split; [done |]. split; [done |].
    rewrite Hw in Hw'. injection Hw' as <-.
    intros j Hj. rewrite Hb by done. f_equal. bits_lia.
  - rewrite list_lookup_insert_ne by done. exists w'. split; [done |].
    split; [by eapply Forall_lookup_1 in Hu |].
    intros j Hj. rewrite <- (Hid (Z.testbit w' j)) at 1. f_equal. bits_lia.
Qed.
End Runs.

(** ** [map_alloc] and [map_free] *)

Definition run_ok (bm : list Z) (first n : Z) : Prop :=
  Forall u64 bm /\ 0 <= first /\ 0 <= n /\
  (first + n) / 64 < Z.of_nat (length bm) /\ first + n < W64.

Lemma map_alloc_run bm first n :
  run_ok bm first n ->
  exists bm', map_alloc bm first n = Done bm' /\ run_update orb first n bm bm'.
Proof.
  intros (Hu & H1 & H2 & H3 & H4).
  destruct (run_coords bm first n) as (E1 & E2 & Hst & Hen & Hcu & Hei & Hw64); try done.
  unfold map_alloc. rewrite run_vars by done.
  cbn [mo_curr mo_start mo_end_idx mo_end fill_fuel].
  destruct (run_word bm Hu (Z.to_nat (first / 64))) as (w1 & Hw1 & Hu1); [lia |].
  destruct (run_word bm Hu (Z.to_nat ((first + n) / 64))) as (w2 & Hw2 & Hu2); [lia |].
  destruct (Z.eqb_spec (first / 64) ((first + n) / 64)) as [Heq | Hne].
  - erewrite bm_modify_Done by done. eexists. split; [done |].
    apply (run_update_one bm first n Hu H1 H2 H3 H4 orb
      (fun w => Z.lor w (Z.land _ _)) w1); auto with u64; [by intros [] |].
    intros j Hj. rewrite Z.lor_spec, Z.land_spec, mask_below, mask_from by lia.
    destruct (Z.testbit w1 j); bits_lia.
  - erewrite bm_modify_Done by done. cbn [mbind outcome_bind].
    destruct (map_fill_lt_spec (fill_fuel (MapOpVars (first / 64) (first mod 64)
      ((first + n) / 64) ((first + n) mod 64))) (first / 64) ((first + n) / 64) (wnot 0)
      (<[Z.to_nat (first / 64) := Z.lor w1 (wneg (Z.shiftl 1 (first mod 64)))]> bm))
      as (bm2 & -> & Hlen & Hk);
      [lia | lia | rewrite length_insert; lia | unfold fill_fuel; cbn; lia |].
    rewrite length_insert in Hlen. cbn [mbind outcome_bind].
    rewrite (bm_modify_Done _ _ _ w2).
    2: { rewrite Hk, decide_False by lia. by rewrite list_lookup_insert_ne by lia. }
    eexists. split; [done |].
    apply (run_update_three bm first n Hu H1 H2 H3 H4 orb
      (fun w => Z.lor w (wneg (Z.shiftl 1 (first mod 64))))
      (fun w => Z.lor w (wsub (Z.shiftl 1 ((first + n) mod 64)) 1)) (wnot 0) w1 w2 bm2);
      auto with u64; try (by intros []); try lia; try done.
    + intros j Hj. rewrite Z.lor_spec, mask_from by lia. destruct (Z.testbit w1 j); bits_lia.
    + intros j b Hj. rewrite testbit_wnot0, orb_true_r by lia. bits_lia.
    + intros j Hj. rewrite Z.lor_spec, mask_below by lia. done.
Qed.

Definition clear_run (b r : bool) : bool := b && negb r.

Lemma map_free_run bm first n :
  run_ok bm first n ->
  exists bm', map_free bm first n = Done bm' /\ run_update clear_run first n bm bm'.
Proof.
  intros (Hu & H1 & H2 & H3 & H4).
  destruct (run_coords bm first n) as (E1 & E2 & Hst & Hen & Hcu & Hei & Hw64); try done.
  unfold map_free. rewrite run_vars by done.
  cbn [mo_curr mo_start mo_end_idx mo_end fill_fuel].
  destruct (run_word bm Hu (Z.to_nat (first / 64))) as (w1 & Hw1 & Hu1); [lia |].
  destruct (run_word bm Hu (Z.to_nat ((first + n) / 64))) as (w2 & Hw2 & Hu2); [lia |].
  destruct (Z.eqb_spec (first / 64) ((first + n) / 64)) as [Heq | Hne].
  - erewrite bm_modify_Done by done. eexists. split; [done |].
    apply (run_update_one bm first n Hu H1 H2 H3 H4 clear_run
      (fun w => Z.land w (Z.lor _ _)) w1); auto with u64; [by intros [] |].
    intros j Hj. rewrite Z.land_spec, Z.lor_spec, mask_below, mask_from by lia.
    unfold clear_run. destruct (Z.testbit w1 j); bits_lia.
  - erewrite bm_modify_Done by done. cbn [mbind outcome_bind].
    rewrite map_fill_ne_lt by lia.
    destruct (map_fill_lt_spec (fill_fuel (MapOpVars (first / 64) (first mod 64)
      ((first + n) / 64) ((first + n) mod 64))) (first / 64) ((first + n) / 64) 0
      (<[Z.to_nat (first / 64) := Z.land w1 (wsub (Z.shiftl 1 (first mod 64)) 1)]> bm))
      as (bm2 & -> & Hlen & Hk);
      [lia | lia | rewrite length_insert; lia | unfold fill_fuel; cbn; lia |].
    rewrite length_insert in Hlen. cbn [mbind outcome_bind].
    rewrite (bm_modify_Done _ _ _ w2).
    2: { rewrite Hk, decide_False by lia. by rewrite list_lookup_insert_ne by lia. }
    eexists. split; [done |].
    apply (run_update_three bm first n Hu H1 H2 H3 H4 clear_run
      (fun w => Z.land w (wsub (Z.shiftl 1 (first mod 64)) 1))
      (fun w => Z.land w (wneg (Z.shiftl 1 ((first + n) mod 64)))) 0 w1 w2 bm2);
      auto with u64; try (by intros []); try lia; try done; unfold clear_run.
    + intros j Hj. rewrite Z.land_spec, mask_below by lia. destruct (Z.testbit w1 j); bits_lia.
    + intros j b Hj. by rewrite Z.bits_0, andb_false_r.
    + intros j Hj. rewrite Z.land_spec, mask_from by lia. destruct (Z.testbit w2 j); bits_lia.
Qed.
