(* ===== verification/Pgalloc.v ===== *)
(** * The buddy page allocator (lib/libbmk_core/pgalloc.c)

    The state is the static data of the file: the managed address range, the
    allocation bitmap, the free lists (one list of chunk addresses per level,
    head first), the [level] and [magic] words of the chunk headers kept in
    free memory, and the two statistics counters. *)

From S2P Require Import Prelude PgBitmap.

Definition BMK_PCPU_PAGE_SHIFT : Z := 12.
Definition BMK_PCPU_PAGE_SIZE : Z := 4096.
Definition FREELIST_LEVELS : Z := 8 * 8 - BMK_PCPU_PAGE_SHIFT.
Definition CHUNKMAGIC : Z := 285344279. (* 0x11020217 *)
Definition order2size (order : Z) : Z := Z.shiftl 1 (order + BMK_PCPU_PAGE_SHIFT).

Record pgstate := PgState {
  pg_called : bool;
  minpage_addr : Z;
  maxpage_addr : Z;
  alloc_bitmap : list Z;
  freelist : list (list Z);
  ch_level : gmap Z Z;
  ch_magic : gmap Z Z;
  pgalloc_totalkb : Z;
  pgalloc_usedkb : Z;
}.

Definition set_bitmap (bm : list Z) (s : pgstate) : pgstate :=
  PgState (pg_called s) (minpage_addr s) (maxpage_addr s) bm (freelist s)
    (ch_level s) (ch_magic s) (pgalloc_totalkb s) (pgalloc_usedkb s).
Definition set_freelist (fl : list (list Z)) (s : pgstate) : pgstate :=
  PgState (pg_called s) (minpage_addr s) (maxpage_addr s) (alloc_bitmap s) fl
    (ch_level s) (ch_magic s) (pgalloc_totalkb s) (pgalloc_usedkb s).
Definition set_level (a v : Z) (s : pgstate) : pgstate :=
  PgState (pg_called s) (minpage_addr s) (maxpage_addr s) (alloc_bitmap s) (freelist s)
    (<[a := v]> (ch_level s)) (ch_magic s) (pgalloc_totalkb s) (pgalloc_usedkb s).
Definition set_magic (a v : Z) (s : pgstate) : pgstate :=
  PgState (pg_called s) (minpage_addr s) (maxpage_addr s) (alloc_bitmap s) (freelist s)
    (ch_level s) (<[a := v]> (ch_magic s)) (pgalloc_totalkb s) (pgalloc_usedkb s).
Definition set_usedkb (v : Z) (s : pgstate) : pgstate :=
  PgState (pg_called s) (minpage_addr s) (maxpage_addr s) (alloc_bitmap s) (freelist s)
    (ch_level s) (ch_magic s) (pgalloc_totalkb s) v.

(** ** Lookups *)

Definition va_to_pg (s : pgstate) (x : Z) : Z :=
  Z.shiftr (wsub x (minpage_addr s)) BMK_PCPU_PAGE_SHIFT.

Definition addr_is_managed (s : pgstate) (addr : Z) : bool :=
  (minpage_addr s <=? addr) && (addr <? maxpage_addr s).

Definition allocated_in_map (s : pgstate) (addr : Z) : outcome bool :=
  _ ← bmk_assert (addr_is_managed s addr) "addr_is_managed(addr)";
  page_allocated (alloc_bitmap s) (va_to_pg s addr).

Definition chunklevel (s : pgstate) (ch : Z) : outcome Z :=
  magic ← of_option "ch->magic" (ch_magic s !! ch);
  _ ← bmk_assert (magic =? CHUNKMAGIC) "ch->magic == CHUNKMAGIC";
  of_option "ch->level" (ch_level s !! ch).

(** [&freelist[order]] for an order inside the array. *)
Definition freelist_at (s : pgstate) (order : Z) : outcome (list Z) :=
  if order <? 0 then Undef "freelist" else
  of_option "freelist" (freelist s !! Z.to_nat order).

Definition freechunk_link (s : pgstate) (addr order : Z) : outcome pgstate :=
  l ← freelist_at s order;
  Done (set_freelist (<[Z.to_nat order := addr :: l]> (freelist s))
    (set_magic addr CHUNKMAGIC (set_level addr order s))).

(** [LIST_REMOVE(ch, entries)]: unlinks the chunk from the list it is on. *)
Definition LIST_REMOVE (s : pgstate) (ch : Z) : outcome pgstate :=
  if existsb (fun l => bool_decide (ch ∈ l)) (freelist s)
  then Done (set_freelist (map (filter (fun c => c <> ch)) (freelist s)) s)
  else Undef "LIST_REMOVE".

(** The debug check of BMK_PGALLOC_DEBUG builds. *)
Definition sanity_check (s : pgstate) : bool :=
  forallb (fun l => forallb (fun head =>
    match allocated_in_map s head with Done b => negb b | _ => false end &&
    match ch_magic s !! head with Some m => m =? CHUNKMAGIC | None => false end) l)
    (freelist s).

(** ** Carving a range into aligned chunks *)

Fixpoint carverange_loop (fuel : nat) (s : pgstate) (addr range : Z) : outcome pgstate :=
  match fuel with
  | O => Undef "fuel"
  | S fuel =>
      if range =? 0 then Done s else
      if addr =? 0 then Undef "__builtin_ctzl(0)" else
      let i := ctzl addr in
      let r := 64 - (clzl range + 1) in
      let i := if i >? r then r else i in
      let i := i - BMK_PCPU_PAGE_SHIFT in
      s ← freechunk_link s addr i;
      carverange_loop fuel s (wadd addr (order2size i)) (wsub range (order2size i))
  end.

(** At most 64 chunks of growing and 64 of shrinking size, and one more test
    of the loop condition. *)
Definition carverange (s : pgstate) (addr range : Z) : outcome pgstate :=
  carverange_loop 129 s addr range.

(** ** Entry points *)

Definition bmk_round_page (p : Z) : Z :=
  Z.land (wadd p (BMK_PCPU_PAGE_SIZE - 1)) (wnot (BMK_PCPU_PAGE_SIZE - 1)).
Definition bmk_trunc_page (p : Z) : Z := Z.land p (wnot (BMK_PCPU_PAGE_SIZE - 1)).

Definition pg_initial : pgstate := PgState false 0 0 [] [] ∅ ∅ 0 0.

Definition bmk_pgalloc_loadmem (s : pgstate) (min max : Z) : outcome pgstate :=
  if pg_called s then Halt "bmk_pgalloc_loadmem called more than once" else
  _ ← bmk_assert (min <? max) "max > min";
  let min := bmk_round_page min in
  let max := bmk_trunc_page max in
  let bitmap_size := wadd (Z.shiftr (wsub max min) (BMK_PCPU_PAGE_SHIFT + 3)) 1 in
  let bitmap_size := bmk_round_page bitmap_size in
  let min := wadd min bitmap_size in
  let range := wsub max min in
  let all_ones := replicate (Z.to_nat (bitmap_size / 8)) (wnot 0) in
  let s := PgState true min max all_ones
    (replicate (Z.to_nat FREELIST_LEVELS) []) (ch_level s) (ch_magic s)
    (Z.shiftr range 10) 0 in
  bm ← map_free (alloc_bitmap s) (va_to_pg s min) (Z.shiftr range BMK_PCPU_PAGE_SHIFT);
  carverange (set_bitmap bm s) min range.

(** The first chunk of level [i] that starts at a multiple of [align]. *)
Definition satisfies_p (s : pgstate) (i align : Z) : outcome (option Z) :=
  l ← freelist_at s i;
  Done (List.find (fun p => Z.land p (wsub align 1) =? 0) l).

(** [for (bucket = order; bucket < FREELIST_LEVELS; bucket++)] *)
Fixpoint find_bucket (fuel : nat) (s : pgstate) (bucket align : Z)
    : outcome (option (Z * Z)) :=
  match fuel with
  | O => Done None
  | S fuel =>
      if bucket <? FREELIST_LEVELS then
        alloc_ch ← satisfies_p s bucket align;
        match alloc_ch with
        | Some ch => Done (Some (bucket, ch))
        | None => find_bucket fuel s (bucket + 1) align
        end
      else Done None
  end.

(** The result is the address, 0 for a request that cannot be handled. *)
Definition bmk_pgalloc_align (s : pgstate) (order align : Z) : outcome (Z * pgstate) :=
  _ ← bmk_assert ((BMK_PCPU_PAGE_SIZE <=? align) && (Z.land align (wsub align 1) =? 0))
        "align >= BMK_PCPU_PAGE_SIZE && (align & (align-1)) == 0";
  _ ← bmk_assert (wrap32 order <? FREELIST_LEVELS) "(unsigned)order < FREELIST_LEVELS";
  found ← find_bucket (Z.to_nat (FREELIST_LEVELS - order)) s order align;
  match found with
  | None => Done (0, s)
  | Some (bucket, alloc_ch) =>
      s ← LIST_REMOVE s alloc_ch;
      magic ← of_option "alloc_ch->magic" (ch_magic s !! alloc_ch);
      _ ← bmk_assert (magic =? CHUNKMAGIC) "alloc_ch->magic == CHUNKMAGIC";
      let s := set_magic alloc_ch 0 s in
      let len := order2size order in
      let p := alloc_ch in
      s ← carverange s (wadd p len) (wsub (order2size bucket) len);
      bm ← map_alloc (alloc_bitmap s) (va_to_pg s alloc_ch) (Z.shiftl 1 order);
      let s := set_bitmap bm s in
      let s := set_usedkb (wadd (pgalloc_usedkb s) (Z.shiftr len 10)) s in
      _ ← bmk_assert (Z.land alloc_ch (wsub align 1) =? 0)
            "((unsigned long)alloc_ch & (align-1)) == 0";
      Done (alloc_ch, s)
  end.

Definition bmk_pgalloc (s : pgstate) (order : Z) : outcome (Z * pgstate) :=
  bmk_pgalloc_align s order BMK_PCPU_PAGE_SIZE.

(** The condition under which [bmk_pgfree] stops merging with [to_merge_ch]. *)
Definition cannot_merge (s : pgstate) (to_merge_ch order : Z) : outcome bool :=
  if negb (addr_is_managed s to_merge_ch) then Done true else
  allocated ← allocated_in_map s to_merge_ch;
  if (allocated : bool) then Done true else
  level ← chunklevel s to_merge_ch;
  Done (negb (level =? order)).

Fixpoint pgfree_merge (fuel : nat) (s : pgstate) (freed_ch order : Z)
    : outcome (pgstate * Z * Z) :=
  match fuel with
  | O => Undef "fuel"
  | S fuel =>
      if wrap32 order <? FREELIST_LEVELS then
        let mask := order2size order in
        let odd := negb (Z.land freed_ch mask =? 0) in
        let to_merge_ch := if odd then wsub freed_ch mask else wadd freed_ch mask in
        stop ← cannot_merge s to_merge_ch order;
        if (stop : bool) then Done (s, freed_ch, order) else
        let s := set_magic freed_ch 0 s in
        let freed_ch := if odd then to_merge_ch else freed_ch in
        let s := set_magic to_merge_ch 0 s in
        s ← LIST_REMOVE s to_merge_ch;
        pgfree_merge fuel s freed_ch (order + 1)
      else Done (s, freed_ch, order)
  end.

Definition bmk_pgfree (s : pgstate) (pointer order : Z) : outcome pgstate :=
  bm ← map_free (alloc_bitmap s) (va_to_pg s pointer) (Z.shiftl 1 order);
  let s := set_bitmap bm s in
  let s := set_usedkb (wsub (pgalloc_usedkb s) (Z.shiftr (order2size order) 10)) s in
  '(s, freed_ch, order) ← pgfree_merge 53 s pointer order;
  freechunk_link s freed_ch order.
