(* ===== verification/PgGeom.v ===== *)
(** * Geometry of buddy blocks

    Arithmetic of naturally aligned power-of-two blocks: nesting, buddies and
    the greedy decomposition that [carverange] computes. *)

From S2P Require Import Prelude PgBitmap Pgalloc.

(** The size in bytes of a block of order [o]. *)
Definition bsize (o : Z) : Z := 2 ^ (o + 12).

Lemma order2size_bsize o : order2size o = bsize o.
Proof. unfold order2size, BMK_PCPU_PAGE_SHIFT, bsize. by rewrite Z.shiftl_1_l. Qed.

Lemma bsize_pos o : 0 <= o -> 4096 <= bsize o.
Proof. intros H. unfold bsize. change 4096 with (2 ^ 12). apply Z.pow_le_mono_r; lia. Qed.

Lemma bsize_succ o : 0 <= o -> bsize (o + 1) = 2 * bsize o.
Proof. intros H. unfold bsize. rewrite <- Z.pow_succ_r by lia. f_equal; lia. Qed.

Lemma bsize_divide o o' : 0 <= o <= o' -> (bsize o | bsize o').
Proof. intros H. apply divide_pow2_le. lia. Qed.

Lemma bsize_split o o' : 0 <= o <= o' -> exists v, 1 <= v /\ bsize o' = v * bsize o.
Proof.
  intros H. exists (2 ^ (o' - o)). split; [pose proof (Z.pow_pos_nonneg 2 (o' - o)); lia |].
  unfold bsize. rewrite <- Z.pow_add_r by lia. f_equal; lia.
Qed.

Lemma bsize_lt o o' : 0 <= o < o' -> 2 * bsize o <= bsize o'.
Proof.
  intros H. rewrite <- bsize_succ by lia. apply Z.pow_le_mono_r; lia.
Qed.

Lemma bsize_lt_inv o o' : 0 <= o -> 0 <= o' -> bsize o < bsize o' -> o < o'.
Proof. intros ? ? H. apply Z.pow_lt_mono_r_iff in H; lia. Qed.

Lemma page_divide_bsize o : 0 <= o -> (4096 | bsize o).
Proof. intros H. change 4096 with (bsize 0). apply bsize_divide; lia. Qed.

Lemma bsize_kb o : 0 <= o -> Z.shiftr (bsize o) 10 = 4 * 2 ^ o.
Proof.
  intros H. rewrite Z.shiftr_div_pow2 by lia. unfold bsize.
  replace (o + 12) with (o + 2 + 10) by lia. rewrite Z.pow_add_r, Z.div_mul by (try lia; done).
  rewrite Z.pow_add_r by lia. lia.
Qed.

Lemma bsize_pages o : 0 <= o -> bsize o = 4096 * 2 ^ o.
Proof. intros H. unfold bsize. rewrite Z.pow_add_r by lia. lia. Qed.

(** Two aligned blocks are disjoint or the smaller is inside the larger. *)
Lemma aligned_nested o1 o2 a c :
  0 <= o1 <= o2 -> (bsize o1 | a) -> (bsize o2 | c) ->
  a + bsize o1 <= c \/ c + bsize o2 <= a \/ (c <= a /\ a + bsize o1 <= c + bsize o2).
Proof.
  intros Ho [q ->] [r ->]. destruct (bsize_split o1 o2 Ho) as (v & Hv & ->).
  pose proof (bsize_pos o1). set (u := bsize o1) in *.
  destruct (Z.lt_ge_cases q (r * v)); [left; nia |]. right.
  destruct (Z.lt_ge_cases q (r * v + v)); [right; nia | left; nia].
Qed.

(** An address inside an aligned block, itself aligned at least as much,
    starts the block. *)
Lemma aligned_start o a c :
  0 <= o -> (bsize o | a) -> (bsize o | c) -> c <= a < c + bsize o -> a = c.
Proof.
  intros Ho [q ->] [r ->] H. pose proof (bsize_pos o Ho). f_equal. nia.
Qed.

(** ** Buddies *)

Definition buddy (o a : Z) : Z :=
  if Z.testbit a (o + 12) then a - bsize o else a + bsize o.
(** The lower of the two buddies: where their union starts. *)
Definition pair_base (o a : Z) : Z :=
  if Z.testbit a (o + 12) then a - bsize o else a.

Lemma testbit_aligned o q : 0 <= o -> Z.testbit (q * bsize o) (o + 12) = Z.odd q.
Proof.
  intros Ho. rewrite Z.testbit_odd, Z.shiftr_div_pow2 by lia.
  unfold bsize. by rewrite Z.div_mul by (apply Z.pow_nonzero; lia).
Qed.

Lemma odd_split q : Z.odd q = true /\ (exists r, q = 2 * r + 1) \/
  Z.odd q = false /\ (exists r, q = 2 * r).
Proof.
  destruct (Z.odd q) eqn:E; [left | right]; split; try done.
  - apply Z.odd_spec in E as [r Hr]. by exists r.
  - assert (Z.even q = true) as E2 by (by rewrite <- Z.negb_odd, E).
    apply Z.even_spec in E2 as [r Hr]. by exists r.
Qed.

(** The facts about a block and its buddy that the allocator relies on. *)
Lemma buddy_facts o a : 0 <= o -> (bsize o | a) ->
  (bsize o | buddy o a) /\ (bsize (o + 1) | pair_base o a) /\
  buddy o (buddy o a) = a /\
  (a = pair_base o a /\ buddy o a = a + bsize o \/
   buddy o a = pair_base o a /\ a = buddy o a + bsize o).
Proof.
  intros Ho [q ->]. unfold buddy, pair_base. rewrite !testbit_aligned by done.
  rewrite bsize_succ by done. pose proof (bsize_pos o Ho) as Hp.
  destruct (odd_split q) as [[-> [r ->]] | [-> [r ->]]].
  - replace ((2 * r + 1) * bsize o - bsize o) with (2 * r * bsize o) by lia.
    rewrite testbit_aligned, Z.odd_mul by done. cbn [Z.odd andb].
    split; [by exists (2 * r) |]. split; [exists r; lia |]. split; [lia | right; lia].
  - replace (2 * r * bsize o + bsize o) with ((2 * r + 1) * bsize o) by lia.
    rewrite testbit_aligned, Z.odd_add, Z.odd_mul by done. cbn [Z.odd andb xorb].
    split; [by exists (2 * r + 1) |]. split; [exists r; lia |]. split; [lia | left; lia].
Qed.

Lemma buddy_ne o a : 0 <= o -> buddy o a <> a.
Proof. intros Ho. pose proof (bsize_pos o Ho). unfold buddy. destruct (Z.testbit _ _); lia. Qed.

Lemma pair_base_nonneg o a : 0 <= o -> (bsize o | a) -> 0 <= a -> 0 <= pair_base o a.
Proof.
  intros Ho [q ->] H. pose proof (bsize_pos o Ho). unfold pair_base.
  rewrite testbit_aligned by done. destruct (odd_split q) as [[-> [r ->]] | [-> _]]; [| lia].
  assert (0 <= r) by (destruct (Z.lt_ge_cases r 0); [nia | done]). nia.
Qed.

(** A proper sub-block of an aligned block has its buddy inside it too. *)
Lemma buddy_inside o o' a c :
  0 <= o < o' -> (bsize o | a) -> (bsize o' | c) -> c <= a < c + bsize o' ->
  c <= buddy o a /\ buddy o a + bsize o <= c + bsize o'.
Proof.
  intros Ho Ha Hc Hin. destruct (buddy_facts o a ltac:(lia) Ha) as (_ & Hb & _ & Hcase).
  pose proof (bsize_pos o ltac:(lia)).
  destruct (aligned_nested (o + 1) o' (pair_base o a) c ltac:(lia) Hb Hc) as [H1 | [H1 | H1]];
    rewrite ?bsize_succ in H1 by lia; lia.
Qed.

(** ** The greedy step of [carverange] *)

(** The order of the next chunk of a range. *)
Definition carve_order (addr range : Z) : Z := Z.min (ctzl addr) (Z.log2 range) - 12.

Definition page_aligned (a : Z) : Prop := (4096 | a).

Lemma page_aligned_pos_ge a : page_aligned a -> 0 < a -> 4096 <= a.
Proof. intros H Ha. by apply Z.divide_pos_le. Qed.

(** Decreases with each chunk: first the alignment of the address grows up to
    the size of the range, then the size of the range shrinks. *)
Definition carve_measure (a r : Z) : Z :=
  if r =? 0 then 0 else if ctzl a <=? Z.log2 r then 128 - ctzl a else Z.log2 r + 1.

Section CarveStep.
Variables addr range : Z.
Hypothesis Ha : 0 < addr.
Hypothesis Hap : page_aligned addr.
Hypothesis Hr : 0 < range.
Hypothesis Hrp : page_aligned range.

Let o := carve_order addr range.

Lemma carve_order_nonneg : 0 <= o.
Proof.
  unfold o, carve_order.
  assert (12 <= ctzl addr) by (apply ctzl_divide; [done | lia | exact Hap]).
  assert (12 <= Z.log2 range).
  { apply Z.log2_le_pow2; [done |]. by apply page_aligned_pos_ge. }
  lia.
Qed.

Lemma carve_order_aligned : (bsize o | addr).
Proof.
  pose proof carve_order_nonneg as H. apply ctzl_divide; [done | lia |].
  unfold o, carve_order in *. lia.
Qed.

Lemma carve_order_fits : bsize o <= range.
Proof.
  pose proof carve_order_nonneg as H. unfold bsize, o, carve_order in *.
  transitivity (2 ^ Z.log2 range); [apply Z.pow_le_mono_r; lia |].
  apply Z.log2_spec; done.
Qed.

Lemma carve_rest_aligned : page_aligned (addr + bsize o) /\ page_aligned (range - bsize o).
Proof.
  pose proof (page_divide_bsize o carve_order_nonneg).
  split; [apply Z.divide_add_r | apply Z.divide_sub_r]; done.
Qed.

(** If the next chunk could be followed by its buddy, the range would have
    admitted a larger chunk. *)
Lemma carve_no_buddy : Z.testbit addr (o + 12) = false -> range < 2 * bsize o.
Proof.
  intros Hb. pose proof carve_order_nonneg as Hnn.
  destruct carve_order_aligned as [q Hq]. rewrite Hq, testbit_aligned in Hb by done.
  destruct (odd_split q) as [[E _] | [_ [r Hr2]]]; [congruence |].
  assert (o + 1 + 12 <= ctzl addr).
  { apply ctzl_divide; [done | lia |]. fold (bsize (o + 1)).
    rewrite bsize_succ, Hq, Hr2 by done. exists r. lia. }
  assert (o = Z.log2 range - 12) as E by (unfold o, carve_order in *; lia).
  rewrite <- bsize_succ by done. unfold bsize.
  replace (o + 1 + 12) with (Z.succ (Z.log2 range)) by lia.
  by apply Z.log2_spec.
Qed.

Hypothesis Hend : addr + range <= W64.

Lemma carve_bounds : ctzl addr < 64 /\ Z.log2 range < 64.
Proof.
  unfold W64 in Hend. split.
  - pose proof (ctzl_le_log2 addr Ha).
    assert (Z.log2 addr < 64) by (apply Z.log2_lt_pow2; lia). lia.
  - apply Z.log2_lt_pow2; lia.
Qed.

Lemma carve_measure_decreases :
  0 <= carve_measure (addr + bsize o) (range - bsize o) < carve_measure addr range.
Proof.
  pose proof carve_bounds as [Hb1 Hb2]. pose proof carve_order_nonneg as Hnn.
  pose proof carve_order_fits as Hfit. pose proof (bsize_pos o Hnn) as Hps.
  pose proof (ctzl_nonneg addr Ha). pose proof (Z.log2_nonneg range).
  unfold carve_measure.
  destruct (Z.eqb_spec range 0); [lia |].
  destruct (Z.eqb_spec (range - bsize o) 0) as [E | Hne].
  { destruct (Z.leb_spec (ctzl addr) (Z.log2 range)); lia. }
  assert (Z.log2 (range - bsize o) <= Z.log2 range) by (apply Z.log2_le_mono; lia).
  pose proof (Z.log2_nonneg (range - bsize o)).
  pose proof (ctzl_nonneg (addr + bsize o) ltac:(lia)).
  destruct (Z.leb_spec (ctzl addr) (Z.log2 range)) as [HA | HB].
  - (* growing phase: the alignment strictly increases *)
    assert (o + 12 = ctzl addr) as Eo by (unfold o, carve_order; lia).
    assert (ctzl addr + 1 <= ctzl (addr + bsize o)).
    { apply ctzl_divide; [lia | lia |]. replace (ctzl addr + 1) with (o + 1 + 12) by lia.
      fold (bsize (o + 1)). rewrite bsize_succ by done.
      destruct carve_order_aligned as [q Hq]. rewrite Hq.
      destruct (odd_split q) as [[_ [r ->]] | [_ [r Hr2]]].
      - exists (r + 1). lia.
      - exfalso. assert (o + 1 + 12 <= ctzl addr); [| lia].
        apply ctzl_divide; [done | lia |]. fold (bsize (o + 1)).
        rewrite bsize_succ, Hq, Hr2 by done. exists r. lia. }
    destruct (Z.leb_spec (ctzl (addr + bsize o)) (Z.log2 (range - bsize o))); lia.
  - (* shrinking phase: the top bit of the range goes *)
    assert (o + 12 = Z.log2 range) as Eo by (unfold o, carve_order; lia).
    assert (Z.log2 (range - bsize o) < Z.log2 range).
    { apply Z.log2_lt_pow2; [lia |]. unfold bsize. rewrite Eo.
      pose proof (proj2 (Z.log2_spec range Hr)) as Hs. rewrite Z.pow_succ_r in Hs by lia. lia. }
    assert (Z.log2 range <= ctzl (addr + bsize o)).
    { apply ctzl_divide; [lia | lia |]. rewrite <- Eo. fold (bsize o).
      apply Z.divide_add_r; [apply carve_order_aligned | apply Z.divide_refl]. }
    destruct (Z.leb_spec (ctzl (addr + bsize o)) (Z.log2 (range - bsize o))); lia.
Qed.
End CarveStep.
