(* ===== verification/PgallocInv.v ===== *)
(** * Invariants of the page allocator

    [wf_fl] is the part of the invariant about the free lists and the chunk
    headers; [pg_wf] adds the bitmap, the accounting and full coalescing.  The
    lemmas give the effect of the list operations and of [carverange] on the
    set of free chunks. *)

From S2P Require Import Prelude PgBitmap Pgalloc PgGeom.

(** A chunk of order [o] at address [a] is on the free list of its order. *)
Definition is_free (s : pgstate) (o a : Z) : Prop :=
  0 <= o /\ exists l, freelist s !! Z.to_nat o = Some l /\ a ∈ l.

(** The byte address [x] is inside some free chunk. *)
Definition free_byte (s : pgstate) (x : Z) : Prop :=
  exists o c, is_free s o c /\ c <= x < c + bsize o.

Definition chunk_ok (s : pgstate) (o a : Z) : Prop :=
  o < FREELIST_LEVELS /\ (bsize o | a) /\
  minpage_addr s <= a /\ a + bsize o <= maxpage_addr s /\
  ch_level s !! a = Some o /\ ch_magic s !! a = Some CHUNKMAGIC.

Record wf_range (s : pgstate) : Prop := {
  wf_min_pos : 0 < minpage_addr s;
  wf_min_max : minpage_addr s <= maxpage_addr s;
  wf_max_word : maxpage_addr s < W64;
  wf_min_aligned : page_aligned (minpage_addr s);
  wf_max_aligned : page_aligned (maxpage_addr s);
}.

Record wf_fl (s : pgstate) : Prop := {
  wf_fl_range : wf_range s;
  wf_fl_levels : length (freelist s) = Z.to_nat FREELIST_LEVELS;
  wf_fl_nodup : forall o l, freelist s !! o = Some l -> NoDup l;
  wf_fl_chunk : forall o a, is_free s o a -> chunk_ok s o a;
  wf_fl_disj : forall o1 a1 o2 a2, is_free s o1 a1 -> is_free s o2 a2 ->
    (o1 = o2 /\ a1 = a2) \/ a1 + bsize o1 <= a2 \/ a2 + bsize o2 <= a1;
}.

(** Free chunks avoid the addresses [lo, hi). *)
Definition clear_of (s : pgstate) (lo hi : Z) : Prop :=
  forall o a, is_free s o a -> a + bsize o <= lo \/ hi <= a.

(** [s'] differs from [s] in its free lists and chunk headers only. *)
Definition same_frame (s s' : pgstate) : Prop :=
  pg_called s' = pg_called s /\
  minpage_addr s' = minpage_addr s /\ maxpage_addr s' = maxpage_addr s /\
  alloc_bitmap s' = alloc_bitmap s /\
  pgalloc_totalkb s' = pgalloc_totalkb s /\ pgalloc_usedkb s' = pgalloc_usedkb s.

Global Instance same_frame_preorder : PreOrder same_frame.
Proof.
  split; unfold same_frame; [intros s; repeat split; reflexivity |].
  intros s1 s2 s3 H1 H2. destruct_and!. repeat split; congruence.
Qed.

Lemma wf_range_frame s s' : same_frame s s' -> wf_range s -> wf_range s'.
Proof. intros (_ & H1 & H2 & _) []. split; congruence. Qed.

Lemma is_free_nonneg s o a : is_free s o a -> 0 <= o.
Proof. by intros []. Qed.

Lemma is_free_lookup s o l a : freelist s !! o = Some l -> a ∈ l -> is_free s (Z.of_nat o) a.
Proof. intros H1 H2. split; [lia |]. exists l. by rewrite Nat2Z.id. Qed.

Section FreeLists.
Context (s : pgstate) (Hwf : wf_fl s).

Lemma free_same_addr o1 o2 a : is_free s o1 a -> is_free s o2 a -> o1 = o2.
Proof.
  intros H1 H2. destruct (wf_fl_disj _ Hwf _ _ _ _ H1 H2) as [[? _] | H]; [done |].
  pose proof (bsize_pos o1 (is_free_nonneg _ _ _ H1)).
  pose proof (bsize_pos o2 (is_free_nonneg _ _ _ H2)). lia.
Qed.

Lemma freelist_at_Done o : 0 <= o < FREELIST_LEVELS ->
  exists l, freelist_at s o = Done l /\ freelist s !! Z.to_nat o = Some l.
Proof.
  intros Ho. destruct (lookup_lt_is_Some_2 (freelist s) (Z.to_nat o)) as [l Hl].
  { rewrite (wf_fl_levels _ Hwf). lia. }
  exists l. split; [| done]. unfold freelist_at. rewrite Hl.
  by destruct (Z.ltb_spec o 0); [lia |].
Qed.

(** *** [freechunk_link] *)

Definition linked (o a : Z) (l : list Z) : pgstate :=
  set_freelist (<[Z.to_nat o := a :: l]> (freelist s))
    (set_magic a CHUNKMAGIC (set_level a o s)).

Lemma is_free_linked o a l o' a' :
  0 <= o < FREELIST_LEVELS -> freelist s !! Z.to_nat o = Some l ->
  is_free (linked o a l) o' a' <-> (o' = o /\ a' = a) \/ is_free s o' a'.
Proof.
  intros Ho Hl. unfold is_free, linked. cbn.
  assert (Z.to_nat o < length (freelist s))%nat by (by eapply lookup_lt_Some).
  destruct (decide (Z.to_nat o' = Z.to_nat o)) as [E | Hne].
  - rewrite E, list_lookup_insert_eq by done. split.
    + intros (Hnn & ? & [= <-] & Hin). apply elem_of_cons in Hin as [-> | Hin].
      * left. split; [lia | done].
      * right. split; [done |]. by exists l.
    + intros [[-> ->] | (Hnn & l' & Hl' & Hin)]; (split; [lia |]); eexists; (split; [done |]).
      * by left.
      * right. congruence.
  - rewrite list_lookup_insert_ne by done. split; [by right |].
    intros [[-> ->] | ?]; [lia | done].
Qed.

Lemma link_spec o a :
  0 <= o < FREELIST_LEVELS -> (bsize o | a) ->
  minpage_addr s <= a -> a + bsize o <= maxpage_addr s ->
  clear_of s a (a + bsize o) ->
  exists s', freechunk_link s a o = Done s' /\ wf_fl s' /\ same_frame s s' /\
    (forall o' a', is_free s' o' a' <-> (o' = o /\ a' = a) \/ is_free s o' a').
Proof.
  intros Ho Hal Hlo Hhi Hclear. destruct (freelist_at_Done o Ho) as (l & E & Hl).
  exists (linked o a l). unfold freechunk_link. rewrite E. cbn [mbind outcome_bind].
  pose proof (is_free_linked o a l) as Hfree. specialize (fun o' a' => Hfree o' a' Ho Hl).
  pose proof (bsize_pos o ltac:(lia)) as Hsz.
  assert (forall o1 a1, is_free s o1 a1 -> a1 <> a) as Hfresh.
  { intros o1 a1 H1 ->. pose proof (bsize_pos o1 (is_free_nonneg _ _ _ H1)).
    destruct (Hclear _ _ H1); lia. }
  split; [done |]. split; [| split; [done | done]]. split.
  - eapply wf_range_frame; [| by apply wf_fl_range]. done.
  - cbn. rewrite length_insert. apply (wf_fl_levels _ Hwf).
  - intros o' l' Hl'. cbn in Hl'. apply list_lookup_insert_Some in Hl'
      as [(<- & <- & _) | [_ Hl']]; [| by eapply (wf_fl_nodup _ Hwf)].
    apply NoDup_cons. split; [| by eapply (wf_fl_nodup _ Hwf)].
    intros Hin. apply (Hfresh o a); [| done]. split; [lia |]. by exists l.
  - intros o' a' [[-> ->] | H']%Hfree; unfold chunk_ok; cbn.
    + rewrite !lookup_insert_eq. repeat split; try done; lia.
    + destruct (wf_fl_chunk _ Hwf _ _ H') as (? & ? & ? & ? & ? & ?).
      rewrite !lookup_insert_ne by (apply not_eq_sym; eauto). done.
  - intros o1 a1 o2 a2 [[-> ->] | H1]%Hfree [[-> ->] | H2]%Hfree; [by left | | |].
    + destruct (Hclear _ _ H2); lia.
    + destruct (Hclear _ _ H1); lia.
    + by apply (wf_fl_disj _ Hwf).
Qed.

(** *** [LIST_REMOVE] *)

Lemma remove_spec o a :
  is_free s o a ->
  exists s', LIST_REMOVE s a = Done s' /\ wf_fl s' /\ same_frame s s' /\
    ch_magic s' = ch_magic s /\ clear_of s' a (a + bsize o) /\
    (forall o' a', is_free s' o' a' <-> is_free s o' a' /\ a' <> a).
Proof.
  intros Hf. destruct Hf as (Hnn & l & Hl & Hin) eqn:EHf. clear EHf.
  eexists. unfold LIST_REMOVE.
  assert (existsb (fun l => bool_decide (a ∈ l)) (freelist s) = true) as ->.
  { apply existsb_exists. exists l. split; [| by apply bool_decide_eq_true].
    apply list_elem_of_In. by eapply list_elem_of_lookup_2. }
  split; [reflexivity |].
  set (s' := set_freelist _ s).
  assert (forall o' a', is_free s' o' a' <-> is_free s o' a' /\ a' <> a) as Hfree.
  { intros o' a'. unfold is_free, s'. cbn. rewrite list_lookup_fmap. split.
    - intros (Ho' & l' & Hl' & Hin'). apply fmap_Some in Hl' as (l0 & Hl0 & ->).
      apply list_elem_of_filter in Hin' as [? ?]. split; [| done]. split; [done |]. by exists l0.
    - intros ((Ho' & l' & Hl' & Hin') & Hne). split; [done |]. rewrite Hl'. eexists.
      split; [done |]. by apply list_elem_of_filter. }
  assert (is_free s o a) as Hfoa by (split; [done | by exists l]).
  split; [| split; [done |]].
  2: { split; [done |]. split; [| done]. intros o' a' [H1 H2]%Hfree.
       destruct (wf_fl_disj _ Hwf _ _ _ _ H1 Hfoa) as [[_ ?] | ?]; [done | lia]. }
  split.
  - eapply wf_range_frame; [| by apply wf_fl_range]. done.
  - cbn. rewrite length_map. apply (wf_fl_levels _ Hwf).
  - intros o' l' Hl'. cbn in Hl'. rewrite list_lookup_fmap in Hl'.
    apply fmap_Some in Hl' as (l0 & Hl0 & ->). by eapply NoDup_filter, (wf_fl_nodup _ Hwf).
  - intros o' a' [H1 H2]%Hfree. by apply (wf_fl_chunk _ Hwf).
  - intros o1 a1 o2 a2 [H1 _]%Hfree [H2 _]%Hfree. by apply (wf_fl_disj _ Hwf).
Qed.

(** Writing a header outside the free chunks. *)
Lemma set_magic_spec a m :
  (forall o, is_free s o a -> False) ->
  wf_fl (set_magic a m s) /\ same_frame s (set_magic a m s) /\
  (forall o' a', is_free (set_magic a m s) o' a' <-> is_free s o' a').
Proof.
  intros Hno. split; [| split; done]. split.
  - eapply wf_range_frame; [| by apply wf_fl_range]. done.
  - apply (wf_fl_levels _ Hwf).
  - apply (wf_fl_nodup _ Hwf).
  - intros o' a' H'. destruct (wf_fl_chunk _ Hwf _ _ H') as (? & ? & ? & ? & ? & ?).
    unfold chunk_ok. cbn. rewrite lookup_insert_ne; [done |]. intros ->. by eapply Hno.
  - apply (wf_fl_disj _ Hwf).
Qed.
End FreeLists.

(** ** [carverange] *)

Lemma free_byte_linked s s' o a x :
  0 <= o ->
  (forall o' a', is_free s' o' a' <-> (o' = o /\ a' = a) \/ is_free s o' a') ->
  free_byte s' x <-> free_byte s x \/ a <= x < a + bsize o.
Proof.
  intros Ho H. unfold free_byte. split.
  - intros (o' & c & [[-> ->] | ?]%H & Hx); [by right | left; eauto].
  - intros [(o' & c & Hf & Hx) | Hx].
    + exists o', c. rewrite H. auto.
    + exists o, a. rewrite H. auto.
Qed.

(** What [carverange] achieves on [addr, addr+range): exactly those bytes
    become free, and no new chunk is the buddy of another new chunk. *)
Record carved (s s' : pgstate) (addr range : Z) : Prop := {
  carved_wf : wf_fl s';
  carved_frame : same_frame s s';
  carved_old : forall o c, is_free s o c -> is_free s' o c;
  carved_new : forall o c, is_free s' o c -> is_free s o c \/
    (addr <= c /\ c + bsize o <= addr + range /\
     (is_free s' o (buddy o c) -> is_free s o (buddy o c)));
  carved_bytes : forall x, free_byte s' x <-> free_byte s x \/ addr <= x < addr + range;
}.

Lemma carved_nil s addr : wf_fl s -> carved s s addr 0.
Proof. intros H. split; try done; [by left | intros x; split; [by left | intros [? | ?]; [done | lia]]]. Qed.

Lemma carved_cons s s1 s' o addr range :
  0 <= o -> (bsize o | addr) ->
  (Z.testbit addr (o + 12) = false -> range < 2 * bsize o) ->
  bsize o <= range ->
  same_frame s s1 ->
  (forall o' a', is_free s1 o' a' <-> (o' = o /\ a' = addr) \/ is_free s o' a') ->
  carved s1 s' (addr + bsize o) (range - bsize o) ->
  carved s s' addr range.
Proof.
  intros Ho Hal Hnb Hfit Hfr Hlink [Hwf Hfr' Hold Hnew Hby].
  pose proof (bsize_pos o Ho) as Hps.
  assert (addr + bsize o <= buddy o addr -> buddy o addr + bsize o <= addr + range -> False) as Hb.
  { unfold buddy. destruct (Z.testbit addr (o + 12)); [lia |]. specialize (Hnb eq_refl). lia. }
  split; [done | by transitivity s1 | | |].
  - intros o' c H. apply Hold, Hlink. by right.
  - intros o' c H. destruct (Hnew _ _ H) as [[[-> ->] | ?]%Hlink | (H1 & H2 & H3)].
    + right. split; [lia |]. split; [lia |]. intros Hf.
      destruct (Hnew _ _ Hf) as [[[_ E] | ?]%Hlink | (H4 & H5 & _)]; [| done | exfalso; apply Hb; lia].
      by destruct (buddy_ne o addr Ho).
    + by left.
    + right. split; [lia |]. split; [lia |]. intros Hf.
      destruct (proj1 (Hlink _ _) (H3 Hf)) as [[-> E] | ?]; [| done].
      exfalso. destruct (wf_fl_chunk _ Hwf _ _ H) as (_ & Hc & _).
      destruct (buddy_facts o c Ho Hc) as (_ & _ & Hinv & _).
      rewrite E in Hinv. apply Hb; rewrite Hinv; lia.
  - intros x. rewrite Hby, (free_byte_linked s s1 o addr x Ho Hlink). intuition lia.
Qed.

Lemma carverange_loop_spec fuel : forall s addr range,
  wf_fl s -> page_aligned addr -> page_aligned range -> 0 <= range ->
  minpage_addr s <= addr -> addr + range <= maxpage_addr s ->
  clear_of s addr (addr + range) ->
  carve_measure addr range < Z.of_nat fuel ->
  exists s', carverange_loop fuel s addr range = Done s' /\ carved s s' addr range.
Proof.
  induction fuel as [| fuel IH]; intros s addr range Hwf Hap Hrp Hr Hlo Hhi Hclear Hfuel.
  { exfalso. unfold carve_measure in Hfuel. pose proof (Z.log2_nonneg range).
    destruct (Z.eqb_spec range 0); [lia |].
    destruct (Z.leb_spec (ctzl addr) (Z.log2 range)); [| lia].
    pose proof (wf_fl_range _ Hwf) as []. pose proof (carve_bounds addr range). lia. }
  cbn [carverange_loop]. destruct (Z.eqb_spec range 0) as [-> | Hne].
  { eexists. split; [done |]. by apply carved_nil. }
  pose proof (wf_fl_range _ Hwf) as [Hmin Hmm Hmax _ _].
  assert (0 < addr) as Ha by lia. assert (0 < range) as Hr' by lia.
  destruct (Z.eqb_spec addr 0); [lia |].
  set (o := carve_order addr range).
  replace ((if ctzl addr >? 64 - (clzl range + 1) then 64 - (clzl range + 1) else ctzl addr)
    - BMK_PCPU_PAGE_SHIFT) with o.
  2: { unfold o, carve_order, clzl, BMK_PCPU_PAGE_SHIFT.
       destruct (Z.gtb_spec (ctzl addr) (64 - (63 - Z.log2 range + 1))); lia. }
  pose proof (carve_order_nonneg addr range Ha Hap Hr' Hrp) as Ho.
  pose proof (carve_order_aligned addr range Ha Hap Hr' Hrp) as Hal.
  pose proof (carve_order_fits addr range Ha Hap Hr' Hrp) as Hfit.
  pose proof (carve_rest_aligned addr range Ha Hap Hr' Hrp) as [Hap' Hrp'].
  pose proof (carve_measure_decreases addr range Ha Hap Hr' Hrp ltac:(lia)) as Hdec.
  pose proof (carve_bounds addr range Ha Hr' ltac:(lia)) as Hbd.
  pose proof (carve_no_buddy addr range Ha Hap Hr' Hrp) as Hnb.
  fold o in Ho, Hal, Hfit, Hap', Hrp', Hdec, Hnb.
  pose proof (bsize_pos o Ho) as Hps.
  destruct (link_spec s Hwf o addr) as (s1 & -> & Hwf1 & Hfr1 & Hlink).
  { unfold o, carve_order in *. unfold FREELIST_LEVELS, BMK_PCPU_PAGE_SHIFT. lia. }
  { done. } { done. } { lia. }
  { intros o' a' H'. destruct (Hclear _ _ H'); lia. }
  cbn [mbind outcome_bind]. rewrite order2size_bsize.
  rewrite wadd_small by (unfold u64; lia). rewrite wsub_small by (unfold u64; lia).
  destruct Hfr1 as (F1 & F2 & F3 & F4) eqn:EF. clear EF.
  destruct (IH s1 (addr + bsize o) (range - bsize o)) as (s' & -> & Hcarved); try done.
  { lia. } { rewrite F2. lia. } { rewrite F3. lia. }
  { intros o' a' [[-> ->] | H']%Hlink; [lia |]. destruct (Hclear _ _ H'); lia. }
  { lia. }
  exists s'. split; [done |]. by eapply carved_cons.
Qed.

Lemma carve_measure_bound addr range : 0 < addr -> carve_measure addr range < 129 \/ 64 <= Z.log2 range.
Proof.
  intros Ha. unfold carve_measure. pose proof (ctzl_nonneg addr Ha).
  destruct (Z.eqb_spec range 0); [lia |].
  destruct (Z.leb_spec (ctzl addr) (Z.log2 range)); lia.
Qed.

Lemma carverange_spec s addr range :
  wf_fl s -> page_aligned addr -> page_aligned range -> 0 <= range ->
  minpage_addr s <= addr -> addr + range <= maxpage_addr s ->
  clear_of s addr (addr + range) ->
  exists s', carverange s addr range = Done s' /\ carved s s' addr range.
Proof.
  intros Hwf Hap Hrp Hr Hlo Hhi Hclear. apply carverange_loop_spec; try done.
  pose proof (wf_fl_range _ Hwf) as [Hmin Hmm Hmax _ _].
  destruct (carve_measure_bound addr range ltac:(lia)) as [H | H]; [lia |].
  exfalso. assert (Z.log2 range < 64); [| lia].
  destruct (Z.eq_dec range 0) as [-> | ?]; [done |]. apply Z.log2_lt_pow2; unfold W64 in *; lia.
Qed.
