(* ===== verification/PgallocProps.v ===== *)
(** * Correctness of the page allocator

    The invariant of the whole allocator state, the specifications of
    [bmk_pgalloc_loadmem], [bmk_pgalloc_align] and [bmk_pgfree] in terms of the
    set of free bytes, the absence of assertion failures over every sequence of
    operations, and the canonical form of the free lists. *)

From S2P Require Import Prelude PgBitmap Pgalloc PgGeom PgallocInv.

(** ** Counting pages *)

Definition count_bits (f : Z -> bool) (n : Z) : Z :=
  Z.of_nat (length (List.filter f (seqZ 0 n))).

Lemma filter_len_ext (f g : Z -> bool) m k :
  (forall i, m <= i < m + k -> f i = g i) ->
  length (List.filter f (seqZ m k)) = length (List.filter g (seqZ m k)).
Proof.
  intros H. f_equal. apply List.filter_ext_in. intros i Hi.
  apply H. apply list_elem_of_In, elem_of_seqZ in Hi. lia.
Qed.

Lemma count_run (f g : Z -> bool) a k n :
  0 <= a -> 0 <= k -> a + k <= n ->
  (forall i, 0 <= i < n -> in_run a k i = false -> g i = f i) ->
  (forall i, in_run a k i = true -> f i = false /\ g i = true) ->
  count_bits g n = count_bits f n + k.
Proof.
  intros Ha Hk Hn Hout Hin. unfold count_bits.
  replace n with (a + (k + (n - a - k))) by lia.
  rewrite !seqZ_app by lia. rewrite !List.filter_app, !length_app.
  assert (forall h : Z -> bool, (forall i, 0 + a <= i < 0 + a + k -> h i = true) ->
    length (List.filter h (seqZ (0 + a) k)) = Z.to_nat k) as Hfull.
  { intros h Hh. rewrite (filter_len_ext h (fun _ => true)) by done.
    by rewrite List.filter_true, length_seqZ. }
  rewrite (Hfull g) by (intros i Hi; apply Hin; bits_lia).
  rewrite (filter_len_ext f (fun _ => false) (0 + a)) by (intros i Hi; apply Hin; bits_lia).
  rewrite List.filter_false.
  rewrite (filter_len_ext g f 0) by (intros i Hi; apply Hout; [lia | bits_lia]).
  rewrite (filter_len_ext g f (0 + a + k)) by (intros i Hi; apply Hout; [lia | bits_lia]).
  cbn [length]. lia.
Qed.

(** ** The invariant *)

Definition npages (s : pgstate) : Z := (maxpage_addr s - minpage_addr s) / 4096.
Definition page_addr (s : pgstate) (i : Z) : Z := minpage_addr s + 4096 * i.

Record pg_wf (s : pgstate) : Prop := {
  wf_lists : wf_fl s;
  wf_words : Forall u64 (alloc_bitmap s);
  wf_room : npages s / 64 < Z.of_nat (length (alloc_bitmap s));
  wf_bits : forall i, 0 <= i < npages s ->
    bm_bit (alloc_bitmap s) i = false <-> free_byte s (page_addr s i);
  wf_coalesced : forall o a, is_free s o a -> ~ is_free s o (buddy o a);
  wf_used : pgalloc_usedkb s = 4 * count_bits (bm_bit (alloc_bitmap s)) (npages s);
  wf_total : pgalloc_totalkb s = 4 * npages s;
}.

Definition in_block (p o x : Z) : Prop := p <= x < p + bsize o.
Definition managed_block (s : pgstate) (p o : Z) : Prop :=
  0 <= o < FREELIST_LEVELS /\ (bsize o | p) /\
  minpage_addr s <= p /\ p + bsize o <= maxpage_addr s.

Section Blocks.
Context (s : pgstate) (Hr : wf_range s).

Lemma npages_spec : maxpage_addr s = minpage_addr s + 4096 * npages s /\ 0 <= npages s.
Proof.
  destruct Hr as [H1 H2 H3 [a H4] [b H5]]. unfold npages.
  replace (maxpage_addr s - minpage_addr s) with ((b - a) * 4096) by lia.
  rewrite Z.div_mul by done. lia.
Qed.

Lemma npages_word : npages s < W64.
Proof. pose proof npages_spec. destruct Hr. unfold W64 in *. lia. Qed.

(** The run of page numbers a managed block covers. *)
Lemma block_run p o : managed_block s p o ->
  let i0 := va_to_pg s p in
  0 <= i0 /\ i0 + 2 ^ o <= npages s /\ p = page_addr s i0 /\
  (forall i, in_run i0 (2 ^ o) i = true <-> in_block p o (page_addr s i)).
Proof.
  intros (Ho & Hal & Hlo & Hhi). pose proof npages_spec as [Hn _].
  destruct Hr as [H1 H2 H3 Hma _].
  assert (page_aligned p) as [q Hq] by (eapply Z.divide_trans; [apply (page_divide_bsize o); lia | done]).
  destruct Hma as [m Hm]. unfold va_to_pg, BMK_PCPU_PAGE_SHIFT.
  pose proof (bsize_pos o ltac:(lia)).
  rewrite wsub_small by (unfold u64, W64 in *; lia).
  rewrite Z.shiftr_div_pow2 by lia. change (2 ^ 12) with 4096.
  replace (p - minpage_addr s) with ((q - m) * 4096) by lia. rewrite Z.div_mul by done.
  unfold page_addr. rewrite bsize_pages in * by lia.
  pose proof (Z.pow_pos_nonneg 2 o).
  split; [lia |]. split; [lia |]. split; [lia |].
  intros i. unfold in_run, in_block. rewrite bsize_pages by lia.
  rewrite andb_true_iff, Z.leb_le, Z.ltb_lt. lia.
Qed.

Lemma block_run_ok bm p o :
  Forall u64 bm -> npages s / 64 < Z.of_nat (length bm) -> managed_block s p o ->
  run_ok bm (va_to_pg s p) (2 ^ o).
Proof.
  intros Hu Hroom Hb. destruct (block_run p o Hb) as (H1 & H2 & _).
  destruct Hb as (Ho & _). pose proof (Z.pow_pos_nonneg 2 o).
  pose proof npages_word.
  split; [done |]. split; [done |]. split; [lia |]. split; [| lia].
  eapply Z.le_lt_trans; [| exact Hroom]. apply Z.div_le_mono; lia.
Qed.

Lemma bm_has_page bm i :
  npages s / 64 < Z.of_nat (length bm) -> 0 <= i < npages s -> bm_has bm i.
Proof.
  intros Hroom Hi. split; [lia |].
  pose proof (Z.div_mod (npages s) 64). pose proof (Z.mod_pos_bound (npages s) 64). lia.
Qed.
End Blocks.

(** A free byte of a page means the whole page is free. *)
Lemma free_chunk_block s o a : wf_fl s -> is_free s o a -> managed_block s a o.
Proof.
  intros Hwf H. destruct (wf_fl_chunk _ Hwf _ _ H) as (? & ? & ? & ? & _).
  pose proof (is_free_nonneg _ _ _ H). repeat split; done.
Qed.

Lemma free_block_bits s p o :
  pg_wf s -> managed_block s p o ->
  (forall x, in_block p o x -> free_byte s x) \/ (forall x, in_block p o x -> ~ free_byte s x) ->
  forall i, in_run (va_to_pg s p) (2 ^ o) i = true ->
    bm_bit (alloc_bitmap s) i = false <-> (forall x, in_block p o x -> free_byte s x).
Proof.
  intros Hwf Hb Hor i Hi. pose proof (wf_fl_range _ (wf_lists _ Hwf)) as Hr.
  destruct (block_run s Hr p o Hb) as (H1 & H2 & _ & H3).
  assert (0 <= i < npages s) as Hi' by (apply in_run_true in Hi; lia).
  apply H3 in Hi. rewrite (wf_bits _ Hwf) by done. split; [| by auto].
  intros Hf. destruct Hor as [? | Hno]; [done |]. by destruct (Hno _ Hi).
Qed.

(** ** Searching the free lists *)

Lemma satisfies_p_spec s b k :
  wf_fl s -> 0 <= b < FREELIST_LEVELS -> 12 <= k < 64 ->
  exists r, satisfies_p s b (2 ^ k) = Done r /\
    match r with
    | Some ch => is_free s b ch /\ (2 ^ k | ch)
    | None => forall c, is_free s b c -> ~ (2 ^ k | c)
    end.
Proof.
  intros Hwf Hb Hk. destruct (freelist_at_Done s Hwf b Hb) as (l & E & Hl).
  unfold satisfies_p. rewrite E. cbn [mbind outcome_bind]. eexists. split; [done |].
  assert (0 < 2 ^ k < W64).
  { split; [apply Z.pow_pos_nonneg; lia |]. apply Z.pow_lt_mono_r; lia. }
  rewrite wsub_small by (unfold u64; lia).
  destruct (List.find _ l) as [ch |] eqn:Hfind.
  - apply List.find_some in Hfind as [Hin Hmask]. apply Z.eqb_eq, land_mask_divide in Hmask; [| lia].
    split; [| done]. split; [lia |]. exists l. split; [done |]. by apply list_elem_of_In.
  - intros c (_ & l' & Hl' & Hin) Hdiv. rewrite Hl in Hl'. injection Hl' as <-.
    pose proof (List.find_none _ _ Hfind c) as Hn.
    apply land_mask_divide in Hdiv; [| lia]. cbv beta in Hn. rewrite Hdiv in Hn.
    by apply list_elem_of_In, Hn in Hin.
Qed.

(** The search takes the first fitting chunk of the smallest fitting order. *)
Lemma find_bucket_spec s k : wf_fl s -> 12 <= k < 64 ->
  forall fuel b, 0 <= b -> b + Z.of_nat fuel = FREELIST_LEVELS ->
  exists r, find_bucket fuel s b (2 ^ k) = Done r /\
    match r with
    | Some (b', ch) => b <= b' /\ is_free s b' ch /\ (2 ^ k | ch) /\
        (forall o c, b <= o < b' -> is_free s o c -> ~ (2 ^ k | c))
    | None => forall o c, b <= o -> is_free s o c -> ~ (2 ^ k | c)
    end.
Proof.
  intros Hwf Hk. induction fuel as [| fuel IH]; intros b Hb Hf; cbn [find_bucket].
  - eexists. split; [done |]. intros o c Ho Hfree.
    destruct (wf_fl_chunk _ Hwf _ _ Hfree). lia.
  - destruct (Z.ltb_spec b FREELIST_LEVELS); [| lia].
    destruct (satisfies_p_spec s b k Hwf) as ([ch |] & -> & Hr); [lia | done | |]; cbn.
    + eexists. split; [done |]. destruct Hr. split; [lia |]. split; [done |]. split; [done |]. lia.
    + destruct (IH (b + 1)) as (r & -> & Hr'); [lia | lia |]. exists r. split; [done |].
      destruct r as [[b' ch] |].
      * destruct Hr' as (H1 & H2 & H3 & H4). split; [lia |]. split; [done |]. split; [done |].
        intros o c Ho. destruct (Z.eq_dec o b) as [-> | ?]; [apply Hr | apply H4; lia].
      * intros o c Ho. destruct (Z.eq_dec o b) as [-> | ?]; [apply Hr | apply Hr'; lia].
Qed.

(** ** Allocation *)

Lemma wf_fl_set_bitmap bm s : wf_fl s -> wf_fl (set_bitmap bm s).
Proof. intros [[] H1 H2 H3 H4]. split; [by split | done..]. Qed.
Lemma wf_fl_set_usedkb v s : wf_fl s -> wf_fl (set_usedkb v s).
Proof. intros [[] H1 H2 H3 H4]. split; [by split | done..]. Qed.

Lemma removed_bytes s s' o a x :
  wf_fl s -> is_free s o a ->
  (forall o' a', is_free s' o' a' <-> is_free s o' a' /\ a' <> a) ->
  free_byte s' x <-> free_byte s x /\ ~ in_block a o x.
Proof.
  intros Hwf Ha H. unfold free_byte, in_block. split.
  - intros (o' & c & [Hf Hne]%H & Hx). split; [eauto |].
    destruct (wf_fl_disj _ Hwf _ _ _ _ Hf Ha) as [[_ ?] | ?]; [done | lia].
  - intros [(o' & c & Hf & Hx) Hnot]. exists o', c. split; [| done]. apply H. split; [done |].
    intros ->. rewrite (free_same_addr s Hwf o' o a Hf Ha) in Hx. done.
Qed.

(** What a successful allocation of [bsize order] bytes at [p] means. *)
Record allocated (s s' : pgstate) (p order align : Z) : Prop := {
  al_block : managed_block s p order;
  al_aligned : (align | p);
  al_was_free : forall x, in_block p order x -> free_byte s x;
  al_bytes : forall x, free_byte s' x <-> free_byte s x /\ ~ in_block p order x;
  al_wf : pg_wf s';
  al_used : pgalloc_usedkb s' = pgalloc_usedkb s + 4 * 2 ^ order;
  al_range : minpage_addr s' = minpage_addr s /\ maxpage_addr s' = maxpage_addr s;
}.

(** The state after the lists have been updated, completed by the bitmap. *)
Lemma allocated_finish s s3 p order align :
  pg_wf s -> managed_block s p order -> (align | p) ->
  (forall x, in_block p order x -> free_byte s x) ->
  wf_fl s3 -> same_frame s s3 ->
  (forall x, free_byte s3 x <-> free_byte s x /\ ~ in_block p order x) ->
  (forall o a, is_free s3 o a -> ~ is_free s3 o (buddy o a)) ->
  exists bm, map_alloc (alloc_bitmap s3) (va_to_pg s3 p) (2 ^ order) = Done bm /\
    allocated s (set_usedkb (wadd (pgalloc_usedkb s3) (4 * 2 ^ order)) (set_bitmap bm s3))
      p order align.
Proof.
  intros Hwf Hb Hal Hwas Hwf3 (F0 & F1 & F2 & F3 & F4 & F5) Hbytes Hcoal.
  pose proof (wf_fl_range _ (wf_lists _ Hwf)) as Hr.
  destruct (block_run s Hr p order Hb) as (Hi0 & Hi1 & Hp & Hrun).
  assert (va_to_pg s3 p = va_to_pg s p) as -> by (unfold va_to_pg; by rewrite F1).
  rewrite F3, F5.
  destruct (map_alloc_run (alloc_bitmap s) (va_to_pg s p) (2 ^ order)) as (bm & -> & Hupd).
  { apply block_run_ok; try done; apply Hwf. }
  exists bm. split; [done |].
  assert (npages s3 = npages s) as Hnp by (unfold npages; by rewrite F1, F2).
  assert (forall i, 0 <= i < npages s -> bm_bit bm i =
    bm_bit (alloc_bitmap s) i || in_run (va_to_pg s p) (2 ^ order) i) as Hbit.
  { intros i Hi. eapply run_update_bit; [done |]. eapply bm_has_page; [apply (wf_room _ Hwf) | done]. }
  assert (count_bits (bm_bit bm) (npages s) =
    count_bits (bm_bit (alloc_bitmap s)) (npages s) + 2 ^ order) as Hcount.
  { eapply count_run with (a := va_to_pg s p); try lia.
    - intros i Hi E. rewrite Hbit, E, orb_false_r; done.
    - intros i E. assert (0 <= i < npages s) by (apply in_run_true in E; lia).
      rewrite Hbit, E, orb_true_r by done. split; [| done].
      eapply free_block_bits; eauto. }
  assert (0 <= count_bits (bm_bit bm) (npages s) <= npages s) as Hcb.
  { unfold count_bits. pose proof (List.filter_length_le (bm_bit bm) (seqZ 0 (npages s))) as H.
    rewrite length_seqZ in H. lia. }
  pose proof (npages_spec s Hr) as [Hn1 Hn2]. pose proof (wf_max_word _ Hr).
  pose proof (wf_min_pos _ Hr).
  assert (wadd (pgalloc_usedkb s) (4 * 2 ^ order) =
    4 * count_bits (bm_bit bm) (npages s)) as Hused.
  { rewrite (wf_used _ Hwf), wadd_small by (unfold u64; lia). lia. }
  split; try done.
  - split.
    + by apply wf_fl_set_usedkb, wf_fl_set_bitmap.
    + by eapply run_update_u64.
    + unfold npages. cbn. rewrite F1, F2. destruct Hupd as [-> _]. apply Hwf.
    + intros i Hi. unfold npages in Hi. cbn in Hi. rewrite F1, F2 in Hi. fold (npages s) in Hi.
      unfold page_addr. cbn. rewrite F1, Hbit by done. rewrite orb_false_iff, (wf_bits _ Hwf) by done.
      transitivity (free_byte s3 (page_addr s i)); [| done]. rewrite Hbytes, <- Hrun.
      by rewrite not_true_iff_false.
    + exact Hcoal.
    + unfold npages. cbn. rewrite F1, F2. exact Hused.
    + unfold npages. cbn. rewrite F1, F2, F4. apply Hwf.
  - cbn. rewrite Hused, Hcount, (wf_used _ Hwf). lia.
Qed.

(** Splitting the chunk [(b, p)]: the first [bsize order] bytes leave the free
    lists, the rest is carved back into them. *)
Lemma split_chunk s p b order :
  pg_wf s -> is_free s b p -> 0 <= order <= b ->
  exists s1 s3, LIST_REMOVE s p = Done s1 /\ ch_magic s1 !! p = Some CHUNKMAGIC /\
    carverange (set_magic p 0 s1) (p + bsize order) (bsize b - bsize order) = Done s3 /\
    wf_fl s3 /\ same_frame s s3 /\
    (forall x, free_byte s3 x <-> free_byte s x /\ ~ in_block p order x) /\
    (forall o a, is_free s3 o a -> ~ is_free s3 o (buddy o a)).
Proof.
  intros Hwf Hf Ho. pose proof (wf_lists _ Hwf) as Hfl.
  destruct (wf_fl_chunk _ Hfl _ _ Hf) as (Hb & Hal & Hlo & Hhi & _ & Hmagic).
  destruct (remove_spec s Hfl b p Hf) as (s1 & E1 & Hwf1 & Hfr1 & Hm1 & Hclear & Hfree1).
  destruct (set_magic_spec s1 Hwf1 p 0) as (Hwf2 & Hfr2 & Hfree2).
  { intros o [_ Hne]%Hfree1. done. }
  set (s2 := set_magic p 0 s1) in *.
  assert (same_frame s s2) as Hfr12 by (by transitivity s1).
  assert (forall o c, is_free s2 o c <-> is_free s o c /\ c <> p) as Hs2.
  { intros o c. rewrite Hfree2. apply Hfree1. }
  assert (bsize order <= bsize b) as Hle by (apply Z.pow_le_mono_r; lia).
  pose proof (bsize_pos order ltac:(lia)) as Hps.
  destruct Hfr12 as (F0 & F1 & F2 & Frest) eqn:EF; clear EF.
  destruct (carverange_spec s2 (p + bsize order) (bsize b - bsize order)) as (s3 & E3 & Hc).
  { done. }
  { apply Z.divide_add_r; [| apply page_divide_bsize; lia].
    eapply Z.divide_trans; [apply (page_divide_bsize b); lia | done]. }
  { apply Z.divide_sub_r; apply page_divide_bsize; lia. }
  { lia. } { rewrite F1. lia. } { rewrite F2. lia. }
  { intros o c H. apply Hfree2 in H. destruct (Hclear _ _ H); lia. }
  exists s1, s3. rewrite Hm1. split; [done |]. split; [done |]. split; [exact E3 |].
  destruct Hc as [Hwf3 Hfr3 Hold Hnew Hby].
  split; [done |]. split; [by transitivity s2 |]. split.
  { intros x. rewrite Hby, (removed_bytes s s2 b p x Hfl Hf Hs2). unfold in_block.
    split; [| intros [H1 H2]; destruct (decide (p <= x < p + bsize b)); [right; lia | by left]].
    intros [[? ?] | ?]; [split; [done | lia] |]. split; [| lia].
    exists b, p. split; [done | lia]. }
  (* a chunk carved from the rest has its buddy inside the split block *)
  assert (forall o c, is_free s3 o c -> p + bsize order <= c ->
    c + bsize o <= p + bsize b -> ~ is_free s2 o (buddy o c)) as Hout.
  { intros o c H H1 H2 Hb2. pose proof (is_free_nonneg _ _ _ H) as Ho'.
    destruct (wf_fl_chunk _ Hwf3 _ _ H) as (_ & Hcal & _).
    pose proof (bsize_pos o Ho') as Hpo.
    assert (o < b) as Hob by (apply bsize_lt_inv; lia).
    destruct (buddy_inside o b c p) as [H3 H4]; [lia | done | done | lia |].
    apply Hfree2 in Hb2. destruct (Hclear _ _ Hb2); lia. }
  intros o c H Hbud. pose proof (is_free_nonneg _ _ _ H) as Ho'.
  destruct (wf_fl_chunk _ Hwf3 _ _ H) as (_ & Hcal & _).
  destruct (buddy_facts o c Ho' Hcal) as (_ & _ & Hinv & _).
  destruct (Hnew _ _ H) as [Hc2 | (H1 & H2 & H3)]; [| eapply (Hout o c); [done | lia | lia | by apply H3]].
  destruct (Hnew _ _ Hbud) as [Hb2 | (H1 & H2 & H3)].
  - apply Hs2 in Hc2 as [Hc2 _]. apply Hs2 in Hb2 as [Hb2 _]. exact (wf_coalesced _ Hwf _ _ Hc2 Hb2).
  - eapply (Hout o (buddy o c)); [done | lia | lia |]. by rewrite Hinv.
Qed.

(** On a well-formed allocator every valid request returns.  It either
    yields a block of [2^order] pages that is aligned as asked, lies in the
    managed range and was entirely free, and removes exactly those bytes from
    the free memory, keeping the invariant; or it returns NULL and leaves the
    state alone, in which case no free chunk of at least that order has the
    alignment. *)
Lemma pgalloc_align_spec s order k :
  pg_wf s -> 0 <= order < FREELIST_LEVELS -> 12 <= k < 64 ->
  exists p s', bmk_pgalloc_align s order (2 ^ k) = Done (p, s') /\
    (p <> 0 /\ allocated s s' p order (2 ^ k) \/
     p = 0 /\ s' = s /\
       forall o c, order <= o -> is_free s o c -> ~ (2 ^ k | c)).
Proof.
  intros Hwf Ho Hk. pose proof (wf_lists _ Hwf) as Hfl.
  assert (4096 <= 2 ^ k < W64).
  { split; [change 4096 with (2 ^ 12); apply Z.pow_le_mono_r; lia |].
    apply Z.pow_lt_mono_r; lia. }
  unfold bmk_pgalloc_align. rewrite wsub_small by (unfold u64; lia).
  assert (Z.land (2 ^ k) (2 ^ k - 1) = 0) as ->
    by (apply land_pred_pow2; [lia |]; by rewrite Z.log2_pow2 by lia).
  unfold BMK_PCPU_PAGE_SIZE. destruct (Z.leb_spec 4096 (2 ^ k)); [| lia].
  unfold wrap32. rewrite Z.mod_small
    by (unfold FREELIST_LEVELS, BMK_PCPU_PAGE_SHIFT in *; lia).
  destruct (Z.ltb_spec order FREELIST_LEVELS); [| lia].
  cbn [andb Z.eqb]. outcome_run.
  destruct (find_bucket_spec s k Hfl Hk (Z.to_nat (FREELIST_LEVELS - order)) order)
    as ([[b p] |] & -> & Hr); [lia | lia | |]; outcome_run.
  2: { exists 0, s. split; [done |]. right. done. }
  destruct Hr as (Hob & Hf & Hal & _).
  destruct (split_chunk s p b order Hwf Hf) as (s1 & s3 & -> & Hm & Hcarve & Hwf3 & Hfr & Hby & Hco);
    [lia |].
  destruct (wf_fl_chunk _ Hfl _ _ Hf) as (Hb & Hbal & Hlo & Hhi & _ & _).
  pose proof (wf_fl_range _ Hfl) as [Hmin _ Hmax _ _].
  assert (bsize order <= bsize b) as Hle by (apply Z.pow_le_mono_r; lia).
  pose proof (bsize_pos order ltac:(lia)) as Hps.
  outcome_run. rewrite Hm, of_option_Some. outcome_run.
  rewrite !order2size_bsize.
  rewrite wadd_small, wsub_small by (unfold u64; lia). rewrite Hcarve. outcome_run.
  rewrite Z.shiftl_1_l, bsize_kb by lia.
  destruct (allocated_finish s s3 p order (2 ^ k)) as (bm & -> & Halloc); try done.
  { split; [done |]. split; [| lia]. eapply Z.divide_trans; [| exact Hbal]. apply bsize_divide; lia. }
  { intros x Hx. exists b, p. split; [done |]. unfold in_block in Hx. lia. }
  outcome_run.
  apply land_mask_divide in Hal; [| lia]. rewrite Hal.
  outcome_run.
  eexists p, _. split; [done |]. left. split; [lia | exact Halloc].
Qed.

(** ** Freeing *)

(** The bitmap describes the free chunks together with the block [(f, o)],
    which is being freed and is not on a list yet. *)
Record freeing (s : pgstate) (f o : Z) : Prop := {
  fr_lists : wf_fl s;
  fr_room : npages s / 64 < Z.of_nat (length (alloc_bitmap s));
  fr_block : managed_block s f o;
  fr_clear : clear_of s f (f + bsize o);
  fr_bits : forall i, 0 <= i < npages s ->
    bm_bit (alloc_bitmap s) i = false <->
    free_byte s (page_addr s i) \/ in_block f o (page_addr s i);
  fr_coalesced : forall o a, is_free s o a -> ~ is_free s o (buddy o a);
}.

Lemma to_merge_buddy s f o : wf_range s -> managed_block s f o ->
  (if negb (Z.land f (order2size o) =? 0) then wsub f (order2size o)
   else wadd f (order2size o)) = buddy o f /\
  negb (Z.land f (order2size o) =? 0) = Z.testbit f (o + 12).
Proof.
  intros [Hmin _ Hmax _ _] (Ho & Hal & Hlo & Hhi). rewrite order2size_bsize.
  unfold bsize at 1 4. rewrite land_pow2_eqb, negb_involutive by lia. split; [| done].
  pose proof (bsize_pos o ltac:(lia)). unfold buddy. destruct (Z.testbit f (o + 12)) eqn:Hb.
  - assert (bsize o <= f) by (apply Z.divide_pos_le; [lia | done]).
    apply wsub_small. unfold u64. lia.
  - apply wadd_small. unfold u64. lia.
Qed.

(** A page of the buddy that is free lies in the chunk that starts there. *)
Lemma free_buddy_chunk s f o o' c :
  freeing s f o -> is_free s o' c -> c <= buddy o f < c + bsize o' ->
  c = buddy o f /\ o' <= o.
Proof.
  intros Hfr Hc Hin. destruct (fr_block _ _ _ Hfr) as (Ho & Hal & _).
  pose proof (is_free_nonneg _ _ _ Hc) as Ho'.
  destruct (wf_fl_chunk _ (fr_lists _ _ _ Hfr) _ _ Hc) as (_ & Hcal & _).
  destruct (buddy_facts o f ltac:(lia) Hal) as (Hbal & Hpb & _ & Hcase).
  pose proof (bsize_pos o ltac:(lia)) as Hps.
  destruct (Z.le_gt_cases o' o) as [Hle | Hgt].
  - split; [| done]. symmetry. apply (aligned_start o'); try done.
    eapply Z.divide_trans; [| exact Hbal]. apply bsize_divide; lia.
  - exfalso. pose proof (fr_clear _ _ _ Hfr _ _ Hc) as Hcl.
    destruct (aligned_nested (o + 1) o' (pair_base o f) c ltac:(lia) Hpb Hcal) as [H1 | [H1 | H1]];
      rewrite ?bsize_succ in H1 by lia; lia.
Qed.

Lemma cannot_merge_spec s f o : freeing s f o ->
  exists stop, cannot_merge s (buddy o f) o = Done stop /\
    (if (stop : bool) then ~ is_free s o (buddy o f) else is_free s o (buddy o f)).
Proof.
  intros Hfr. pose proof (fr_lists _ _ _ Hfr) as Hfl. pose proof (wf_fl_range _ Hfl) as Hr.
  destruct (fr_block _ _ _ Hfr) as (Ho & Hal & _).
  destruct (buddy_facts o f ltac:(lia) Hal) as (Hbal & _ & _ & Hcase).
  pose proof (bsize_pos o ltac:(lia)) as Hps. set (b := buddy o f) in *.
  unfold cannot_merge.
  destruct (addr_is_managed s b) eqn:Hman; cbn [negb].
  2: { exists true. split; [done |]. intros Hb. destruct (wf_fl_chunk _ Hfl _ _ Hb) as (_ & _ & ? & ? & _).
       unfold addr_is_managed in Hman. destruct (Z.leb_spec (minpage_addr s) b), (Z.ltb_spec b (maxpage_addr s));
       try discriminate Hman; lia. }
  assert (minpage_addr s <= b < maxpage_addr s) as Hbm.
  { unfold addr_is_managed in Hman. apply andb_prop in Hman as [?%Z.leb_le ?%Z.ltb_lt]. lia. }
  assert (managed_block s b 0) as Hb0.
  { split; [unfold FREELIST_LEVELS, BMK_PCPU_PAGE_SHIFT; lia |].
    assert (bsize 0 | b) as Hd by (eapply Z.divide_trans; [| exact Hbal]; apply bsize_divide; lia).
    split; [done |]. split; [lia |]. destruct Hr as [_ _ _ _ [m Hm]].
    destruct Hd as [q Hq]. change (bsize 0) with 4096 in *. lia. }
  destruct (block_run s Hr b 0 Hb0) as (Hi0 & Hi1 & Hbi & _). change (2 ^ 0) with 1 in Hi1.
  unfold allocated_in_map. rewrite Hman, bmk_assert_true, Done_bind.
  rewrite page_allocated_bit by (eapply bm_has_page; [apply Hfr | lia]). rewrite Done_bind.
  pose proof (fr_bits _ _ _ Hfr (va_to_pg s b) ltac:(lia)) as Hbit. rewrite <- Hbi in Hbit.
  destruct (bm_bit (alloc_bitmap s) (va_to_pg s b)).
  - exists true. split; [done |]. intros Hb. enough (true = false) by done. apply Hbit.
    left. exists o, b. split; [done | lia].
  - destruct (proj1 Hbit eq_refl) as [(o' & c & Hc & Hin) | Hin]; [| unfold in_block in Hin; lia].
    destruct (free_buddy_chunk s f o o' c Hfr Hc Hin) as [E Hle]. fold b in E. subst c.
    destruct (wf_fl_chunk _ Hfl _ _ Hc) as (_ & _ & _ & _ & Hlev & Hmag).
    unfold chunklevel. rewrite Hlev, Hmag, !of_option_Some, Done_bind, Z.eqb_refl,
      bmk_assert_true, Done_bind, Done_bind.
    eexists. split; [done |]. destruct (Z.eqb_spec o' o) as [-> | Hne]; cbn; [done |].
    intros Hb. apply Hne. by eapply free_same_addr.
Qed.

Lemma LIST_REMOVE_set_magic a m s ch :
  LIST_REMOVE (set_magic a m s) ch = (s' ← LIST_REMOVE s ch; Done (set_magic a m s')).
Proof. unfold LIST_REMOVE. cbn. by destruct (existsb _ _). Qed.

Lemma merged_block s f o : wf_range s -> managed_block s f o -> is_free s o (buddy o f) ->
  chunk_ok s o (buddy o f) -> managed_block s (pair_base o f) (o + 1).
Proof.
  intros Hr (Ho & Hal & Hlo & Hhi) Hb (_ & _ & Hblo & Hbhi & _).
  destruct (buddy_facts o f ltac:(lia) Hal) as (_ & Hpb & _ & Hcase).
  pose proof (bsize_pos o ltac:(lia)). destruct Hr as [Hmin _ Hmax _ _].
  assert (minpage_addr s <= pair_base o f /\ pair_base o f + bsize (o + 1) <= maxpage_addr s) as [? ?]
    by (rewrite bsize_succ by lia; lia).
  split; [| done]. split; [lia |].
  assert (bsize (o + 1) < bsize 52) as Hlt by (unfold bsize, W64 in *; change (52 + 12) with 64; lia).
  apply bsize_lt_inv in Hlt; unfold FREELIST_LEVELS, BMK_PCPU_PAGE_SHIFT; lia.
Qed.

(** The bytes free or about to be: those of the lists and of the block. *)
Definition covered (s : pgstate) (f o x : Z) : Prop := free_byte s x \/ in_block f o x.

Lemma merge_step s f o : freeing s f o -> is_free s o (buddy o f) ->
  exists s', LIST_REMOVE (set_magic (buddy o f) 0 (set_magic f 0 s)) (buddy o f) = Done s' /\
    same_frame s s' /\ freeing s' (pair_base o f) (o + 1) /\
    forall x, covered s' (pair_base o f) (o + 1) x <-> covered s f o x.
Proof.
  intros Hfr Hb. pose proof (fr_lists _ _ _ Hfr) as Hfl. pose proof (wf_fl_range _ Hfl) as Hr.
  pose proof (fr_block _ _ _ Hfr) as (Ho & Hal & Hlo & Hhi).
  destruct (buddy_facts o f ltac:(lia) Hal) as (Hbal & Hpb & _ & Hcase).
  pose proof (bsize_pos o ltac:(lia)) as Hps.
  destruct (remove_spec s Hfl o _ Hb) as (s1 & E1 & Hwf1 & Hfr1 & _ & Hcl1 & Hfree1).
  assert (forall o', ~ is_free s1 o' f) as Hnof.
  { intros o' [H _]%Hfree1. destruct (fr_clear _ _ _ Hfr _ _ H); [| lia].
    pose proof (bsize_pos o' (is_free_nonneg _ _ _ H)). lia. }
  destruct (set_magic_spec s1 Hwf1 f 0) as (Hwf2 & Hfr2 & Hfree2); [intros o'; apply Hnof |].
  destruct (set_magic_spec _ Hwf2 (buddy o f) 0) as (Hwf3 & Hfr3 & Hfree3).
  { intros o' H%Hfree2. by apply Hfree1 in H as [_ ?]. }
  rewrite !LIST_REMOVE_set_magic, E1, !Done_bind. eexists. split; [done |].
  set (s3 := set_magic (buddy o f) 0 (set_magic f 0 s1)) in *.
  assert (same_frame s s3) as Hframe by (etransitivity; [exact Hfr1 |]; by etransitivity).
  assert (forall o' a', is_free s3 o' a' <-> is_free s o' a' /\ a' <> buddy o f) as Hfree.
  { intros o' a'. rewrite Hfree3, Hfree2. apply Hfree1. }
  split; [done |].
  destruct (merged_block s f o) as (Ho1 & Hal1 & Hlo1 & Hhi1); try done.
  { by apply wf_fl_chunk. }
  assert (forall x, covered s3 (pair_base o f) (o + 1) x <-> covered s f o x) as Hcov.
  { intros x. unfold covered. rewrite (removed_bytes s s3 o (buddy o f) x Hfl Hb Hfree).
    unfold in_block. rewrite bsize_succ by lia. split.
    - intros [[? _] | Hx]; [by left |]. destruct (decide (f <= x < f + bsize o)); [by right |].
      left. exists o, (buddy o f). split; [done | lia].
    - intros [Hx | Hx]; [| right; lia].
      destruct (decide (buddy o f <= x < buddy o f + bsize o)); [right; lia | by left]. }
  split; [| done]. destruct Hframe as (F0 & F1 & F2 & F3 & F4 & F5). split.
  - done.
  - unfold npages. rewrite F1, F2, F3. apply Hfr.
  - unfold managed_block. rewrite F1, F2. done.
  - rewrite bsize_succ by lia. intros o' a' [H Hne]%Hfree.
    pose proof (fr_clear _ _ _ Hfr _ _ H).
    destruct (wf_fl_disj _ Hfl _ _ _ _ H Hb) as [[_ ?] | ?]; [done |].
    pose proof (bsize_pos o' (is_free_nonneg _ _ _ H)). lia.
  - intros i Hi. unfold npages in Hi. rewrite F1, F2 in Hi. unfold page_addr. rewrite F1, F3.
    rewrite (fr_bits _ _ _ Hfr) by done. symmetry. apply Hcov.
  - intros o' a' [H1 _]%Hfree [H2 _]%Hfree. by eapply (fr_coalesced _ _ _ Hfr o' a').
Qed.

Lemma pgfree_merge_spec fuel : forall s f o,
  freeing s f o -> FREELIST_LEVELS - o < Z.of_nat fuel ->
  exists s' f' o', pgfree_merge fuel s f o = Done (s', f', o') /\ same_frame s s' /\
    freeing s' f' o' /\ ~ is_free s' o' (buddy o' f') /\
    forall x, covered s' f' o' x <-> covered s f o x.
Proof.
  induction fuel as [| fuel IH]; intros s f o Hfr Hfuel.
  { destruct (fr_block _ _ _ Hfr). lia. }
  pose proof (wf_fl_range _ (fr_lists _ _ _ Hfr)) as Hr.
  pose proof (proj1 (fr_block _ _ _ Hfr)) as Ho.
  destruct (to_merge_buddy s f o Hr (fr_block _ _ _ Hfr)) as [Etm Eodd].
  cbn [pgfree_merge]. cbv zeta. unfold wrap32.
  rewrite Z.mod_small by (unfold FREELIST_LEVELS, BMK_PCPU_PAGE_SHIFT in *; lia).
  destruct (Z.ltb_spec o FREELIST_LEVELS); [| lia].
  rewrite Etm, Eodd. destruct (cannot_merge_spec s f o Hfr) as (stop & -> & Hstop).
  rewrite Done_bind. destruct stop.
  { exists s, f, o. split; [done |]. split; [done |]. split; [done |]. split; [done |]. done. }
  destruct (merge_step s f o Hfr Hstop) as (s1 & -> & Hf1 & Hfr1 & Hcov1). rewrite Done_bind.
  replace (if Z.testbit f (o + 12) then buddy o f else f) with (pair_base o f)
    by (unfold buddy, pair_base; by destruct (Z.testbit f (o + 12))).
  destruct (IH s1 (pair_base o f) (o + 1) Hfr1) as (s' & f' & o' & -> & Hf2 & Hfr2 & Hno & Hcov2); [lia |].
  exists s', f', o'. split; [done |]. split; [by transitivity s1 |]. split; [done |]. split; [done |].
  intros x. by rewrite Hcov2.
Qed.

(** What freeing [bsize order] bytes at [p] means. *)
Record freed (s s' : pgstate) (p order : Z) : Prop := {
  fd_bytes : forall x, free_byte s' x <-> free_byte s x \/ in_block p order x;
  fd_wf : pg_wf s';
  fd_used : pgalloc_usedkb s' = pgalloc_usedkb s - 4 * 2 ^ order;
  fd_range : minpage_addr s' = minpage_addr s /\ maxpage_addr s' = maxpage_addr s;
}.

(** The bitmap and the counter after the first half of [bmk_pgfree]. *)
Lemma pgfree_mark s p order :
  pg_wf s -> managed_block s p order -> (forall x, in_block p order x -> ~ free_byte s x) ->
  exists bm, map_free (alloc_bitmap s) (va_to_pg s p) (2 ^ order) = Done bm /\
    Forall u64 bm /\ freeing (set_bitmap bm s) p order /\
    wsub (pgalloc_usedkb s) (4 * 2 ^ order) = 4 * count_bits (bm_bit bm) (npages s) /\
    wsub (pgalloc_usedkb s) (4 * 2 ^ order) = pgalloc_usedkb s - 4 * 2 ^ order.
Proof.
  intros Hwf Hb Hnf. pose proof (wf_lists _ Hwf) as Hfl. pose proof (wf_fl_range _ Hfl) as Hr.
  destruct (block_run s Hr p order Hb) as (Hi0 & Hi1 & Hp & Hrun).
  destruct (map_free_run (alloc_bitmap s) (va_to_pg s p) (2 ^ order)) as (bm & -> & Hupd).
  { apply block_run_ok; try done; apply Hwf. }
  exists bm. split; [done |]. split; [by eapply run_update_u64 |].
  assert (forall i, 0 <= i < npages s -> bm_bit bm i =
    clear_run (bm_bit (alloc_bitmap s) i) (in_run (va_to_pg s p) (2 ^ order) i)) as Hbit.
  { intros i Hi. eapply run_update_bit; [done |]. eapply bm_has_page; [apply (wf_room _ Hwf) | done]. }
  assert (count_bits (bm_bit (alloc_bitmap s)) (npages s) =
    count_bits (bm_bit bm) (npages s) + 2 ^ order) as Hcount.
  { eapply count_run with (a := va_to_pg s p); try lia.
    - intros i Hi E. rewrite Hbit, E by done. unfold clear_run. by rewrite andb_true_r.
    - intros i E. assert (0 <= i < npages s) as Hi by (apply in_run_true in E; lia).
      rewrite Hbit, E by done. unfold clear_run. rewrite andb_false_r. split; [done |].
      apply Hrun, Hnf in E. apply not_false_is_true. by rewrite (wf_bits _ Hwf). }
  assert (0 <= count_bits (bm_bit bm) (npages s)) by (unfold count_bits; lia).
  assert (count_bits (bm_bit (alloc_bitmap s)) (npages s) <= npages s).
  { unfold count_bits. pose proof (List.filter_length_le (bm_bit (alloc_bitmap s)) (seqZ 0 (npages s))) as H'.
    rewrite length_seqZ in H'. pose proof (npages_spec s Hr). lia. }
  pose proof (npages_spec s Hr) as [Hn1 Hn2]. destruct Hr as [Hmin _ Hmax _ _].
  rewrite (wf_used _ Hwf), wsub_small by (unfold u64; lia).
  split; [| lia]. split; try done.
  - by apply wf_fl_set_bitmap.
  - unfold npages. cbn. destruct Hupd as [-> _]. apply Hwf.
  - intros o a Ha. destruct (decide (a + bsize o <= p)); [by left |].
    destruct (decide (p + bsize order <= a)); [by right |]. exfalso.
    pose proof (bsize_pos o (is_free_nonneg _ _ _ Ha)).
    destruct Hb as (Ho & _). pose proof (bsize_pos order ltac:(lia)).
    apply (Hnf (Z.max a p)); [unfold in_block; lia |]. exists o, a. split; [done | lia].
  - intros i Hi. change (npages (set_bitmap bm s)) with (npages s) in Hi.
    change (page_addr (set_bitmap bm s) i) with (page_addr s i). cbn [alloc_bitmap set_bitmap].
    rewrite Hbit by done. unfold clear_run. rewrite andb_false_iff, (wf_bits _ Hwf) by done.
    rewrite negb_false_iff, Hrun. done.
  - apply (wf_coalesced _ Hwf).
Qed.

Lemma freeing_usedkb v s f o : freeing s f o -> freeing (set_usedkb v s) f o.
Proof. intros [H1 H2 H3 H4 H5 H6]. split; try done. by apply wf_fl_set_usedkb. Qed.

(** Freeing an allocated, naturally aligned block never trips an
    assertion or follows a stale header: it returns with exactly the block's
    bytes added to the free memory, the counter reduced by its size, and the
    invariant, including full coalescing, intact. *)
Lemma pgfree_spec s p order :
  pg_wf s -> managed_block s p order -> (forall x, in_block p order x -> ~ free_byte s x) ->
  exists s', bmk_pgfree s p order = Done s' /\ freed s s' p order.
Proof.
  intros Hwf Hb Hnf. pose proof (proj1 Hb) as Ho.
  destruct (pgfree_mark s p order Hwf Hb Hnf) as (bm & Emap & Hu & Hfr & Hcnt & Hused).
  unfold bmk_pgfree. rewrite Z.shiftl_1_l, Emap, Done_bind. cbv zeta.
  rewrite order2size_bsize, bsize_kb by lia.
  change (pgalloc_usedkb (set_bitmap bm s)) with (pgalloc_usedkb s).
  set (s1 := set_usedkb _ (set_bitmap bm s)).
  destruct (pgfree_merge_spec 53 s1 p order) as (s2 & f & o & -> & Hframe & Hfr2 & Hno & Hcov).
  { by apply freeing_usedkb. } { unfold FREELIST_LEVELS, BMK_PCPU_PAGE_SHIFT in *. lia. }
  rewrite Done_bind.
  pose proof (fr_block _ _ _ Hfr2) as (Ho2 & Hal2 & Hlo2 & Hhi2).
  destruct (link_spec s2 (fr_lists _ _ _ Hfr2) o f Ho2 Hal2 Hlo2 Hhi2 (fr_clear _ _ _ Hfr2))
    as (s3 & -> & Hwf3 & Hframe3 & Hlink).
  exists s3. split; [done |].
  assert (same_frame s1 s3) as (F0 & F1 & F2 & F3 & F4 & F5) by (by transitivity s2).
  change (minpage_addr s1) with (minpage_addr s) in F1.
  change (maxpage_addr s1) with (maxpage_addr s) in F2.
  change (alloc_bitmap s1) with bm in F3. change (pgalloc_totalkb s1) with (pgalloc_totalkb s) in F4.
  assert (forall x, free_byte s3 x <-> free_byte s x \/ in_block p order x) as Hbytes.
  { intros x. rewrite (free_byte_linked s2 s3 o f x ltac:(lia) Hlink). apply (Hcov x). }
  assert (npages s3 = npages s) as Hnp by (unfold npages; by rewrite F1, F2).
  split; try done; [| by rewrite F5]. split; try done.
  - by rewrite F3.
  - rewrite Hnp, F3. apply (fr_room _ _ _ Hfr).
  - intros i. rewrite Hnp. unfold page_addr. rewrite F1, F3. intros Hi.
    rewrite (fr_bits _ _ _ Hfr) by done. symmetry. apply Hbytes.
  - intros o' a' [[-> ->] | H1]%Hlink [[E1 E2] | H2]%Hlink; try done.
    + by destruct (buddy_ne o f ltac:(lia)).
    + subst o'. apply Hno. rewrite <- E2.
      destruct (wf_fl_chunk _ (fr_lists _ _ _ Hfr2) _ _ H1) as (_ & Ha' & _).
      by destruct (buddy_facts o a' ltac:(lia) Ha') as (_ & _ & -> & _).
    + exact (fr_coalesced _ _ _ Hfr2 _ _ H1 H2).
  - rewrite F5, F3, Hnp. exact Hcnt.
  - rewrite F4, Hnp. apply Hwf.
Qed.

(** ** The canonical form of the free lists *)

(** In a coalesced allocator no chunk smaller than an entirely free aligned
    block lies inside that block. *)
Lemma coalesced_no_smaller s o c :
  pg_wf s -> (bsize o | c) -> (forall x, in_block c o x -> free_byte s x) ->
  forall o' c', is_free s o' c' -> o' < o -> c <= c' < c + bsize o -> False.
Proof.
  intros Hwf Hal Hfree o' c' Hf. pose proof (wf_lists _ Hwf) as Hfl.
  pose proof (is_free_nonneg _ _ _ Hf) as Ho'. revert c' Hf.
  (* by induction on the order, smallest first *)
  pattern o'. apply Z_lt_induction; [| done]. clear o' Ho'. intros o' IH c' Hf Hlt Hin.
  pose proof (is_free_nonneg _ _ _ Hf) as Ho'.
  destruct (wf_fl_chunk _ Hfl _ _ Hf) as (_ & Hal' & _).
  destruct (buddy_facts o' c' Ho' Hal') as (Hbal & _ & _ & Hcase).
  pose proof (bsize_pos o' Ho') as Hps.
  destruct (buddy_inside o' o c' c ltac:(lia) Hal' Hal Hin) as [Hb1 Hb2].
  destruct (Hfree (buddy o' c')) as (o2 & c2 & Hf2 & Hin2); [unfold in_block; lia |].
  pose proof (is_free_nonneg _ _ _ Hf2) as Ho2.
  destruct (wf_fl_chunk _ Hfl _ _ Hf2) as (_ & Hal2 & _).
  destruct (Z.lt_trichotomy o2 o') as [H | [-> | H]].
  - apply (IH o2 ltac:(lia) c2 Hf2); [lia |].
    assert (buddy o' c' = c2) as E.
    { apply (aligned_start o2); try done. eapply Z.divide_trans; [| exact Hbal].
      apply bsize_divide; lia. }
    lia.
  - assert (buddy o' c' = c2) as E by (by apply (aligned_start o')).
    subst c2. exact (wf_coalesced _ Hwf _ _ Hf Hf2).
  - destruct (wf_fl_disj _ Hfl _ _ _ _ Hf Hf2) as [[? _] | Hd]; [lia |].
    destruct (buddy_inside o' o2 (buddy o' c') c2 ltac:(lia) Hbal Hal2 Hin2) as [H3 H4].
    destruct (buddy_facts o' c' Ho' Hal') as (_ & _ & Hinv & _). rewrite Hinv in H3, H4. lia.
Qed.

Lemma coalesced_covers s1 s2 o c :
  pg_wf s1 -> pg_wf s2 -> (forall x, free_byte s1 x -> free_byte s2 x) ->
  is_free s1 o c -> exists o' c', is_free s2 o' c' /\ o <= o' /\ c' <= c /\
    c + bsize o <= c' + bsize o'.
Proof.
  intros H1 H2 Hsub Hf. destruct (wf_fl_chunk _ (wf_lists _ H1) _ _ Hf) as (_ & Hal & _).
  pose proof (is_free_nonneg _ _ _ Hf) as Ho. pose proof (bsize_pos o Ho).
  assert (forall x, in_block c o x -> free_byte s2 x) as Hall.
  { intros x Hx. apply Hsub. by exists o, c. }
  destruct (Hall c) as (o' & c' & Hf' & Hin); [unfold in_block; lia |].
  destruct (wf_fl_chunk _ (wf_lists _ H2) _ _ Hf') as (_ & Hal' & _).
  exists o', c'. split; [done |].
  destruct (Z.lt_ge_cases o' o) as [Hlt | Hge].
  - exfalso. pose proof (is_free_nonneg _ _ _ Hf') as Ho'. pose proof (bsize_pos o' Ho').
    assert (c = c').
    { apply (aligned_start o'); try done. eapply Z.divide_trans; [| exact Hal].
      apply bsize_divide; lia. }
    subst c'. eapply (coalesced_no_smaller s2 o c); eauto. lia.
  - destruct (aligned_nested o o' c c' ltac:(lia) Hal Hal') as [? | [? | ?]]; lia.
Qed.

(** The free lists are canonical: two well-formed states with the same
    free bytes have the same chunks on the same lists.  So no sequence of
    allocations and frees can fragment the memory it gives back. *)
Lemma freelists_unique s1 s2 :
  pg_wf s1 -> pg_wf s2 -> (forall x, free_byte s1 x <-> free_byte s2 x) ->
  forall o c, is_free s1 o c <-> is_free s2 o c.
Proof.
  assert (forall s1 s2, pg_wf s1 -> pg_wf s2 -> (forall x, free_byte s1 x <-> free_byte s2 x) ->
    forall o c, is_free s1 o c -> is_free s2 o c) as Hone.
  { clear. intros s1 s2 H1 H2 Heq o c Hf.
    destruct (coalesced_covers s1 s2 o c H1 H2) as (o2 & c2 & Hf2 & Ho2 & Hc2 & He2); [apply Heq | done |].
    destruct (coalesced_covers s2 s1 o2 c2 H2 H1) as (o3 & c3 & Hf3 & Ho3 & Hc3 & He3); [apply Heq | done |].
    pose proof (bsize_pos o (is_free_nonneg _ _ _ Hf)).
    destruct (wf_fl_disj _ (wf_lists _ H1) _ _ _ _ Hf Hf3) as [[-> ->] | ?]; [| lia].
    assert (o2 = o3) as -> by lia. assert (c2 = c3) as -> by lia. done. }
  intros H1 H2 Heq o c. split; apply Hone; done.
Qed.

(** Allocating a block and freeing it again restores the free lists: the
    same chunks are on the same lists as before, and the counters agree. *)
Lemma pgalloc_pgfree s order k p s1 :
  pg_wf s -> 0 <= order < FREELIST_LEVELS -> 12 <= k < 64 ->
  bmk_pgalloc_align s order (2 ^ k) = Done (p, s1) -> p <> 0 ->
  exists s2, bmk_pgfree s1 p order = Done s2 /\
    (forall o c, is_free s2 o c <-> is_free s o c) /\
    pgalloc_usedkb s2 = pgalloc_usedkb s /\ pg_wf s2.
Proof.
  intros Hwf Ho Hk E Hp.
  destruct (pgalloc_align_spec s order k Hwf Ho Hk) as (p' & s' & E' & Hcase).
  rewrite E in E'. injection E' as <- <-. destruct Hcase as [[_ Hal] | [? _]]; [| done].
  destruct Hal as [Hb _ Hwas Hby Hwf1 Hused [Hr1 Hr2]].
  destruct (pgfree_spec s1 p order Hwf1) as (s2 & -> & [Hby2 Hwf2 Hused2 _]).
  { unfold managed_block. by rewrite Hr1, Hr2. }
  { intros x Hx H%Hby. by destruct H. }
  exists s2. split; [done |]. split; [| split; [lia | done]].
  apply freelists_unique; try done. intros x. rewrite Hby2, Hby.
  split; [intros [[? _] | ?]; auto |]. intros Hx.
  destruct (decide (p <= x < p + bsize order)); [by right | by left].
Qed.

(** ** Loading memory *)

Lemma trunc_page_spec p : u64 p ->
  page_aligned (bmk_trunc_page p) /\ bmk_trunc_page p <= p < bmk_trunc_page p + 4096 /\
  0 <= bmk_trunc_page p.
Proof.
  intros Hp. assert (bmk_trunc_page p = p - p mod 4096) as ->
    by (apply (land_wnot_ones p 12); [done | lia]).
  pose proof (Z.mod_pos_bound p 4096 ltac:(lia)). pose proof (Z.mod_le p 4096).
  unfold u64 in Hp. split; [| lia]. exists (p / 4096). pose proof (Z.div_mod p 4096). lia.
Qed.

Lemma round_page_spec p : 0 <= p <= W64 - 4096 ->
  page_aligned (bmk_round_page p) /\ p <= bmk_round_page p < p + 4096.
Proof.
  intros Hp. unfold bmk_round_page, BMK_PCPU_PAGE_SIZE.
  rewrite wadd_small by (unfold u64; lia).
  destruct (trunc_page_spec (p + (4096 - 1))) as (H1 & H2 & _); [unfold u64; lia |].
  unfold bmk_trunc_page, BMK_PCPU_PAGE_SIZE in *. split; [done | lia].
Qed.

Definition loadmem_bitmap_size (min max : Z) : Z :=
  bmk_round_page (Z.shiftr (max - min) 15 + 1).

(** The bitmap has a bit for every page, and fits the memory it describes. *)
Lemma bitmap_size_spec min max :
  page_aligned min -> page_aligned max -> 0 <= min < max -> max < W64 ->
  let b := loadmem_bitmap_size min max in
  page_aligned b /\ 4096 <= b <= max - min /\ (max - min - b) / 4096 / 64 < b / 8.
Proof.
  intros [m ->] [n ->] Hlt Hmax. unfold loadmem_bitmap_size.
  replace (n * 4096 - m * 4096) with ((n - m) * 4096) by lia.
  rewrite Z.shiftr_div_pow2 by lia. change (2 ^ 15) with (8 * 4096).
  rewrite Z.div_mul_cancel_r by lia.
  set (q := (n - m) / 8). assert (0 <= q) by (apply Z.div_pos; lia).
  pose proof (Z.div_mod (n - m) 8 ltac:(lia)) as Hdm. fold q in Hdm.
  pose proof (Z.mod_pos_bound (n - m) 8 ltac:(lia)) as Hmb.
  destruct (round_page_spec (q + 1)) as ([b Hb] & Hr); [unfold W64 in *; lia |].
  cbv zeta. rewrite Hb in *. split; [by exists b |]. split; [lia |].
  replace ((n - m) * 4096 - b * 4096) with ((n - m - b) * 4096) by lia.
  rewrite Z.div_mul by lia. replace (b * 4096) with (b * 512 * 8) by lia. rewrite Z.div_mul by lia.
  apply Z.div_lt_upper_bound; lia.
Qed.

Lemma count_none f n : (forall i, 0 <= i < n -> f i = false) -> count_bits f n = 0.
Proof.
  intros H. unfold count_bits. rewrite (filter_len_ext f (fun _ => false)) by (intros; apply H; lia).
  by rewrite List.filter_false.
Qed.

Lemma bm_bit_ones n i : bm_has (replicate n (wnot 0)) i -> bm_bit (replicate n (wnot 0)) i = true.
Proof.
  intros [H0 H1]. rewrite length_replicate in H1. unfold bm_bit.
  rewrite lookup_replicate_2.
  - rewrite testbit_wnot0; [| apply Z.mod_pos_bound; lia]. apply Z.ltb_lt, Z.mod_pos_bound; lia.
  - assert (i / 64 < Z.of_nat n) by (apply Z.div_lt_upper_bound; lia). lia.
Qed.

(** What loading the page-aligned range [min, max) means: the first pages hold
    the bitmap, everything else is free. *)
Record loaded (s : pgstate) (min max : Z) : Prop := {
  ld_wf : pg_wf s;
  ld_min : minpage_addr s = min + 8 * Z.of_nat (length (alloc_bitmap s));
  ld_max : maxpage_addr s = max;
  ld_bytes : forall x, free_byte s x <-> minpage_addr s <= x < maxpage_addr s;
  ld_used : pgalloc_usedkb s = 0;
}.

Lemma loadmem_finish s min max b bm :
  let s0 := PgState true (min + b) max bm (replicate (Z.to_nat FREELIST_LEVELS) [])
    (ch_level s) (ch_magic s) (Z.shiftr (max - (min + b)) 10) 0 in
  page_aligned min -> page_aligned max -> page_aligned b -> 0 <= min -> 4096 <= b -> min + b <= max < W64 ->
  Forall u64 bm -> 8 * Z.of_nat (length bm) = b -> npages s0 / 64 < Z.of_nat (length bm) ->
  (forall i, 0 <= i < npages s0 -> bm_bit bm i = false) ->
  exists s', carverange s0 (min + b) (max - (min + b)) = Done s' /\ loaded s' min max.
Proof.
  intros s0 Hmin Hmax Hb Hmin0 Hb0 Hfit Hu Hlen Hroom Hbits.
  assert (forall o a, ~ is_free s0 o a) as Hnone.
  { intros o a (_ & l & Hl & Hin). apply lookup_replicate in Hl as [-> _]. by apply not_elem_of_nil in Hin. }
  assert (wf_fl s0) as Hfl.
  { split; [split; cbn; try done; try lia; by apply Z.divide_add_r | apply length_replicate | | |].
    - intros o l Hl. apply lookup_replicate in Hl as [-> _]. apply NoDup_nil_2.
    - intros o a H. by destruct (Hnone o a).
    - intros o1 a1 o2 a2 H. by destruct (Hnone o1 a1). }
  destruct (carverange_spec s0 (min + b) (max - (min + b))) as (s' & -> & [Hwf' Hframe _ Hnew Hby]);
    try done; try lia.
  { by apply Z.divide_add_r. } { apply Z.divide_sub_r; [done |]. by apply Z.divide_add_r. }
  { cbn. lia. } { intros o a H. by destruct (Hnone o a). }
  exists s'. split; [done |]. destruct Hframe as (F0 & F1 & F2 & F3 & F4 & F5). cbn in F1, F2, F3, F4, F5.
  assert (npages s' = npages s0) as Hnp by (unfold npages; rewrite F1, F2; done).
  assert (forall x, free_byte s' x <-> min + b <= x < max) as Hbytes.
  { intros x. rewrite Hby. split; [intros [(o & c & H & _) | H]; [by destruct (Hnone o c) | lia] |].
    right. lia. }
  pose proof (npages_spec s0 (wf_fl_range _ Hfl)) as [Hn1 Hn2]. cbn [minpage_addr maxpage_addr s0] in Hn1.
  split; [split; try done | rewrite F1, F3; lia | done | by rewrite F1, F2 | done].
  - by rewrite F3.
  - by rewrite Hnp, F3.
  - intros i Hi. rewrite Hnp in Hi. rewrite F3, Hbits by done. split; [intros _ | done].
    apply Hbytes. unfold page_addr. rewrite F1. lia.
  - intros o a H Hbud. destruct (Hnew _ _ H) as [? | (_ & _ & H3)]; [by destruct (Hnone o a) |].
    by destruct (Hnone _ _ (H3 Hbud)).
  - rewrite F5, F3, Hnp. by rewrite count_none.
  - rewrite F4, Hnp. rewrite Z.shiftr_div_pow2 by lia. change (2 ^ 10) with 1024.
    replace (max - (min + b)) with (4 * npages s0 * 1024) by lia. by rewrite Z.div_mul.
Qed.

(** Loading memory from the initial state: the range is rounded to whole pages,
    of which there must be at least one. *)
Lemma loadmem_spec s min max :
  pg_called s = false -> 0 <= min <= W64 - 4096 -> u64 max ->
  bmk_round_page min < bmk_trunc_page max ->
  exists s', bmk_pgalloc_loadmem s min max = Done s' /\
    loaded s' (bmk_round_page min) (bmk_trunc_page max).
Proof.
  intros Hcalled Hmin Hmax Hpage.
  destruct (round_page_spec min Hmin) as [Hal1 Hb1].
  destruct (trunc_page_spec max Hmax) as (Hal2 & Hb2 & Hb3).
  unfold u64 in Hmax. unfold bmk_pgalloc_loadmem. rewrite Hcalled.
  destruct (Z.ltb_spec min max); [| lia]. rewrite bmk_assert_true, Done_bind. cbv zeta.
  set (mn := bmk_round_page min) in *. set (mx := bmk_trunc_page max) in *.
  destruct (bitmap_size_spec mn mx) as (HB1 & HB2 & HB3); try done; try lia.
  rewrite (wsub_small mx mn) by (unfold u64; lia).
  change (BMK_PCPU_PAGE_SHIFT + 3) with 15.
  rewrite (wadd_small (Z.shiftr (mx - mn) 15) 1).
  2: { rewrite Z.shiftr_div_pow2 by lia.
       assert (0 <= (mx - mn) / 2 ^ 15) by (apply Z.div_pos; lia).
       assert ((mx - mn) / 2 ^ 15 <= 2 ^ 49) by (apply Z.div_le_upper_bound; unfold W64 in *; lia).
       unfold u64, W64. lia. }
  fold (loadmem_bitmap_size mn mx) in *. set (b := loadmem_bitmap_size mn mx) in *.
  rewrite (wadd_small mn b) by (unfold u64; lia). rewrite (wsub_small mx (mn + b)) by (unfold u64; lia).
  set (ones := replicate (Z.to_nat (b / 8)) (wnot 0)).
  set (s0 := PgState true _ _ ones _ _ _ _ _). cbn [alloc_bitmap s0].
  assert (8 * Z.of_nat (length ones) = b) as Hlen.
  { unfold ones. rewrite length_replicate, Z2Nat.id by (apply Z.div_pos; lia).
    destruct HB1 as [q Hq]. fold b in Hq. rewrite Hq. replace (q * 4096) with (q * 512 * 8) by lia.
    rewrite Z.div_mul; lia. }
  assert (npages s0 = Z.shiftr (mx - (mn + b)) BMK_PCPU_PAGE_SHIFT) as Hnp
    by (by rewrite Z.shiftr_div_pow2).
  assert (va_to_pg s0 (mn + b) = 0) as ->.
  { unfold va_to_pg. cbn [minpage_addr s0]. unfold wsub. by rewrite Z.sub_diag. }
  assert (npages s0 / 64 < Z.of_nat (length ones)) as Hroom.
  { unfold npages. cbn [minpage_addr maxpage_addr s0]. replace (mx - (mn + b)) with (mx - mn - b) by lia.
    rewrite <- Hlen in HB3 at 2. by rewrite Z.mul_comm, Z.div_mul in HB3. }
  rewrite <- Hnp.
  assert (Forall u64 ones) as Hones by (apply Forall_replicate; split; [done | reflexivity]).
  assert (0 <= npages s0 < W64) as Hn0.
  { unfold npages. cbn [minpage_addr maxpage_addr s0]. split; [apply Z.div_pos; lia |].
    apply Z.div_lt_upper_bound; unfold W64 in *; lia. }
  destruct (map_free_run ones 0 (npages s0)) as (bm & -> & Hupd).
  { repeat split; try done; lia. }
  rewrite Done_bind. pose proof (proj1 Hupd) as Hl2.
  apply (loadmem_finish s mn mx b bm); try done; try lia.
  - by eapply run_update_u64.
  - rewrite Hl2. exact Hroom.
  - intros i Hi. change (npages (PgState _ _ _ _ _ _ _ _ _)) with (npages s0) in Hi.
    assert (bm_has ones i) as Hhas by (by apply (bm_has_page s0)).
    rewrite (run_update_bit _ _ _ _ _ _ Hupd Hhas). unfold ones. rewrite bm_bit_ones by done.
    unfold clear_run. cbn. apply negb_false_iff, in_run_true. lia.
Qed.
