(* ===== verification/PageIface.v ===== *)
(** * What a page allocator promises its clients

    Clients of [bmk_pgalloc]/[bmk_pgfree] (the malloc of memalloc.c, the thread
    stacks of sched.c) only rely on this interface: blocks handed out are
    aligned, lie in the address space and never overlap, and every block given
    out can be given back.  PgallocRun.v proves that the buddy allocator
    implements it. *)

From S2P Require Import Prelude Pgalloc PgGeom.

(** A block: its address and order. *)
Abbreviation block := (Z * Z)%type.

Definition blocks_disjoint (b1 b2 : block) : Prop :=
  b1.1 + bsize b1.2 <= b2.1 \/ b2.1 + bsize b2.2 <= b1.1.

Fixpoint separated (bs : list block) : Prop :=
  match bs with
  | [] => True
  | b :: bs => Forall (blocks_disjoint b) bs /\ separated bs
  end.

Global Instance blocks_disjoint_sym : Symmetric blocks_disjoint.
Proof. intros b1 b2. unfold blocks_disjoint. tauto. Qed.

Global Instance separated_perm : Proper ((≡ₚ) ==> iff) separated.
Proof.
  intros l1 l2 H. induction H as [| b l1 l2 H IH | b1 b2 l | l1 l2 l3 _ IH1 _ IH2]; cbn.
  - done.
  - by rewrite IH, H.
  - rewrite !Forall_cons. split; intros ((Hd & ?) & ? & ?); repeat split; try done; by symmetry.
  - by rewrite IH1.
Qed.

Lemma separated_elem b bs : separated (b :: bs) -> forall b', b' ∈ bs -> blocks_disjoint b b'.
Proof. intros [H _] b' Hb'. by eapply Forall_forall in H. Qed.

Class PageAllocator (S : Type) := {
  page_alloc : S -> Z -> outcome (Z * S);
  page_free : S -> Z -> Z -> outcome S;
  (** The allocator is consistent and the blocks of the list are allocated. *)
  page_inv : S -> list block -> Prop;
  (** The memory the allocator manages. *)
  page_managed : S -> Z -> Prop;
  page_inv_perm s l1 l2 : l1 ≡ₚ l2 -> page_inv s l1 -> page_inv s l2;
  page_inv_separated s l : page_inv s l -> separated l;
  page_inv_block s l p o : page_inv s l -> (p, o) ∈ l ->
    0 < p /\ 0 <= o < FREELIST_LEVELS /\ (bsize o | p) /\ p + bsize o < W64;
  page_inv_managed s l p o a : page_inv s l -> (p, o) ∈ l -> p <= a < p + bsize o ->
    page_managed s a;
  page_alloc_ok s l o : page_inv s l -> 0 <= o < FREELIST_LEVELS ->
    exists p s', page_alloc s o = Done (p, s') /\
      (forall a, page_managed s' a <-> page_managed s a) /\
      (p = 0 /\ s' = s \/ p <> 0 /\ page_inv s' ((p, o) :: l));
  page_free_ok s l p o : page_inv s ((p, o) :: l) ->
    exists s', page_free s p o = Done s' /\ page_inv s' l /\
      (forall a, page_managed s' a <-> page_managed s a);
}.
