(* ===== verification/PgallocRun.v ===== *)
(** * Sequences of page allocator operations

    The buddy allocator as an instance of [PageAllocator], and the safety of
    every run: allocations, frees of live blocks and arbitrary writes of the
    owners into their blocks. *)

From S2P Require Import Prelude PgBitmap Pgalloc PgGeom PgallocInv PgallocProps PageIface.

Definition live_ok (s : pgstate) (b : block) : Prop :=
  managed_block s b.1 b.2 /\ forall x, in_block b.1 b.2 x -> ~ free_byte s x.

(** The invariant with the live blocks: they are disjoint, not free, and
    together with the free chunks make up the managed memory. *)
Record pg_inv (s : pgstate) (live : list block) : Prop := {
  pi_wf : pg_wf s;
  pi_live : Forall (live_ok s) live;
  pi_sep : separated live;
  pi_cover : forall x, minpage_addr s <= x < maxpage_addr s ->
    free_byte s x \/ Exists (fun b => in_block b.1 b.2 x) live;
}.

Lemma pg_inv_perm s l1 l2 : l1 ≡ₚ l2 -> pg_inv s l1 -> pg_inv s l2.
Proof.
  intros Hp [H1 H2 H3 H4]. split; [done | by rewrite <- Hp | by rewrite <- Hp |].
  intros x Hx. destruct (H4 x Hx); [by left | right]. by rewrite <- Hp.
Qed.

Lemma pg_inv_alloc s live order k :
  pg_inv s live -> 0 <= order < FREELIST_LEVELS -> 12 <= k < 64 ->
  exists p s', bmk_pgalloc_align s order (2 ^ k) = Done (p, s') /\
    (minpage_addr s' = minpage_addr s /\ maxpage_addr s' = maxpage_addr s) /\
    (p = 0 /\ s' = s \/ p <> 0 /\ (2 ^ k | p) /\ pg_inv s' ((p, order) :: live)).
Proof.
  intros [Hwf Hlive Hsep Hcov] Ho Hk.
  destruct (pgalloc_align_spec s order k Hwf Ho Hk) as (p & s' & E & [[Hp Hal] | (-> & -> & _)]);
    exists p, s' || exists 0, s; (split; [exact E |]); [| split; [done | by left]].
  destruct Hal as [Hb Hal Hwas Hby Hwf' _ [Hr1 Hr2]].
  split; [done |]. right. split; [done |]. split; [done |]. split; [done | | |].
  - constructor.
    + split; cbn; [unfold managed_block in *; by rewrite Hr1, Hr2 |].
      intros x Hx [_ Hn]%Hby. done.
    + eapply Forall_impl; [exact Hlive |]. intros b [H1 H2]. split.
      * unfold managed_block in *. by rewrite Hr1, Hr2.
      * intros x Hx [Hf _]%Hby. by eapply H2.
  - split; [| done]. eapply Forall_impl; [exact Hlive |]. intros [q o'] [Hb' H2]. unfold blocks_disjoint. cbn in *.
    destruct Hb as (Ho1 & _), Hb' as (Ho2 & _).
    pose proof (bsize_pos order ltac:(lia)). pose proof (bsize_pos o' ltac:(lia)).
    destruct (decide (p + bsize order <= q)); [by left |].
    destruct (decide (q + bsize o' <= p)); [by right |]. exfalso.
    apply (H2 (Z.max p q)); [unfold in_block; lia |]. apply Hwas. unfold in_block. lia.
  - intros x Hx. rewrite Hr1, Hr2 in Hx. rewrite Exists_cons. cbn. rewrite Hby.
    destruct (decide (p <= x < p + bsize order)); [by right; left |].
    destruct (Hcov x Hx); [by left | by right; right].
Qed.

Lemma pg_inv_free s live p order :
  pg_inv s ((p, order) :: live) -> exists s', bmk_pgfree s p order = Done s' /\ pg_inv s' live /\
    (minpage_addr s' = minpage_addr s /\ maxpage_addr s' = maxpage_addr s).
Proof.
  intros [Hwf Hlive [Hd Hsep] Hcov]. apply Forall_cons in Hlive as [[Hb Hn] Hlive].
  destruct (pgfree_spec s p order Hwf Hb Hn) as (s' & -> & [Hby Hwf' _ [Hr1 Hr2]]).
  exists s'. split; [done |]. split; [| done]. split; [done | | done |].
  - apply Forall_forall. intros b Hin. eapply Forall_forall in Hlive as [H1 H2]; [| done].
    eapply Forall_forall in Hd; [| done]. split; [unfold managed_block in *; by rewrite Hr1, Hr2 |].
    intros x Hx [Hf | Hf]%Hby; [by eapply H2 |]. unfold blocks_disjoint, in_block in *. cbn in *. lia.
  - intros x Hx. rewrite Hr1, Hr2 in Hx. rewrite Hby. destruct (Hcov x Hx) as [? | H]; [by left; left |].
    apply Exists_cons in H as [? | ?]; [by left; right | by right].
Qed.

(** The buddy allocator behind the interface, with page-sized alignment. *)
Global Program Instance buddy_pages : PageAllocator pgstate := {|
  page_alloc := bmk_pgalloc;
  page_free := bmk_pgfree;
  page_inv := pg_inv;
  page_managed s a := minpage_addr s <= a < maxpage_addr s;
|}.
Next Obligation. intros. by eapply pg_inv_perm. Qed.
Next Obligation. intros s l H. apply H. Qed.
Next Obligation.
  intros s l p o [Hwf Hlive _ _] Hin. eapply Forall_forall in Hlive as [(Ho & Hal & Hlo & Hhi) _]; [| done].
  destruct (wf_fl_range _ (wf_lists _ Hwf)) as [? _ ? _ _]. cbn in *. repeat split; try done; lia.
Qed.
Next Obligation.
  intros s l p o a [_ Hlive _ _] Hin Ha.
  eapply Forall_forall in Hlive as [(_ & _ & ? & ?) _]; [| done]. cbn in *. lia.
Qed.
Next Obligation.
  intros s l o Hinv Ho. destruct (pg_inv_alloc s l o 12 Hinv Ho) as (p & s' & E & [E1 E2] & H); [lia |].
  exists p, s'. split; [exact E |]. split; [intros a; cbn; by rewrite E1, E2 |]. destruct H as [? | (? & _ & ?)]; [by left | by right].
Qed.
Next Obligation.
  intros s l p o H. destruct (pg_inv_free s l p o H) as (s' & E & H' & E1 & E2).
  exists s'. split; [done |]. split; [done |]. intros a. cbn. by rewrite E1, E2.
Qed.

(** ** Runs *)

Inductive pgop :=
  | OpAlloc (order align_log : Z)
  | OpFree (i : nat)
  | OpScribble (i : nat) (off level magic : Z).

Definition pgop_valid (op : pgop) : Prop :=
  match op with
  | OpAlloc order k => 0 <= order < FREELIST_LEVELS /\ 12 <= k < 64
  | _ => True
  end.

(** One operation on the allocator and the list of live blocks.  A scribble is
    the owner of the [i]-th block writing the words where a chunk header would
    be, at some offset in the block. *)
Definition pg_exec (op : pgop) (st : pgstate * list block) : outcome (pgstate * list block) :=
  let '(s, live) := st in
  match op with
  | OpAlloc order k =>
      '(p, s) ← bmk_pgalloc_align s order (2 ^ k);
      Done (s, if p =? 0 then live else (p, order) :: live)
  | OpFree i =>
      match live !! i with
      | Some (p, order) => s ← bmk_pgfree s p order; Done (s, delete i live)
      | None => Done st
      end
  | OpScribble i off level magic =>
      match live !! i with
      | Some (p, order) =>
          if (0 <=? off) && (off <? bsize order)
          then Done (set_magic (p + off) magic (set_level (p + off) level s), live)
          else Done st
      | None => Done st
      end
  end.

Fixpoint pg_run (ops : list pgop) (st : pgstate * list block) : outcome (pgstate * list block) :=
  match ops with
  | [] => Done st
  | op :: ops => st ← pg_exec op st; pg_run ops st
  end.

(** Headers outside the free chunks do not matter. *)
Lemma pg_inv_scribble s live a lev m :
  pg_inv s live -> ~ free_byte s a -> pg_inv (set_magic a m (set_level a lev s)) live.
Proof.
  intros [[[[] H2 H3 H4 H5] H6 H7 H8 H9 H10 H11] Hl Hs Hc] Ha.
  split; [| done | done | done]. split; try done. split; try done.
  intros o c Hf. pose proof (H4 o c Hf) as (? & ? & ? & ? & ? & ?). unfold chunk_ok. cbn.
  rewrite !lookup_insert_ne; [done | |]; intros ->; apply Ha; exists o, c;
    (split; [exact Hf |]); pose proof (bsize_pos o (is_free_nonneg _ _ _ Hf)); lia.
Qed.

Lemma pg_exec_inv op s live :
  pg_inv s live -> pgop_valid op ->
  exists s' live', pg_exec op (s, live) = Done (s', live') /\ pg_inv s' live'.
Proof.
  intros Hinv Hv. destruct op as [order k | i | i off lev m]; cbn [pg_exec].
  - destruct Hv as [Ho Hk]. destruct (pg_inv_alloc s live order k Hinv Ho Hk) as (p & s' & -> & _ & H).
    rewrite Done_bind. eexists _, _. split; [done |].
    destruct H as [[-> ->] | (Hp & _ & H)]; [done |]. by destruct (Z.eqb_spec p 0).
  - destruct (live !! i) as [[p order] |] eqn:E; [| eexists _, _; done].
    destruct (pg_inv_free s (delete i live) p order) as (s' & -> & H & _).
    { eapply pg_inv_perm; [| exact Hinv]. by apply delete_Permutation. }
    rewrite Done_bind. eexists _, _. done.
  - destruct (live !! i) as [[p order] |] eqn:E; [| eexists _, _; done].
    destruct ((0 <=? off) && (off <? bsize order)) eqn:Hoff; [| eexists _, _; done].
    eexists _, _. split; [done |]. apply pg_inv_scribble; [done |].
    apply andb_prop in Hoff as [?%Z.leb_le ?%Z.ltb_lt].
    destruct (Forall_lookup_1 _ _ _ _ (pi_live _ _ Hinv) E) as [_ Hn]. apply Hn.
    unfold in_block. cbn. lia.
Qed.

Lemma pg_run_inv ops : forall s live,
  pg_inv s live -> Forall pgop_valid ops ->
  exists s' live', pg_run ops (s, live) = Done (s', live') /\ pg_inv s' live'.
Proof.
  induction ops as [| op ops IH]; intros s live Hinv Hv; [eexists _, _; done |].
  apply Forall_cons in Hv as [Hv1 Hv2].
  destruct (pg_exec_inv op s live Hinv Hv1) as (s1 & l1 & E & Hinv1).
  cbn [pg_run]. rewrite E, Done_bind. by apply IH.
Qed.

Lemma loaded_inv s min max : loaded s min max -> pg_inv s [].
Proof.
  intros [Hwf _ _ Hby _]. split; [done | done | done |]. intros x Hx. left. by apply Hby.
Qed.

Lemma pg_exec_range op s live s' live' :
  pg_inv s live -> pgop_valid op -> pg_exec op (s, live) = Done (s', live') ->
  minpage_addr s' = minpage_addr s /\ maxpage_addr s' = maxpage_addr s.
Proof.
  intros Hinv Hv. destruct op as [order k | i | i off lev m]; cbn [pg_exec].
  - destruct Hv as [Ho Hk].
    destruct (pgalloc_align_spec s order k (pi_wf _ _ Hinv) Ho Hk) as (p & s1 & -> & H).
    rewrite Done_bind. intros [= <- _]. destruct H as [[_ []] | (_ & -> & _)]; done.
  - destruct (live !! i) as [[p order] |] eqn:E; [| by intros [= <- _]].
    destruct (Forall_lookup_1 _ _ _ _ (pi_live _ _ Hinv) E) as [Hb Hn].
    destruct (pgfree_spec s p order (pi_wf _ _ Hinv) Hb Hn) as (s1 & -> & []).
    rewrite Done_bind. by intros [= <- _].
  - destruct (live !! i) as [[p order] |]; [| by intros [= <- _]].
    destruct (_ && _); by intros [= <- _].
Qed.

Lemma pg_run_range ops : forall s live s' live',
  pg_inv s live -> Forall pgop_valid ops -> pg_run ops (s, live) = Done (s', live') ->
  minpage_addr s' = minpage_addr s /\ maxpage_addr s' = maxpage_addr s.
Proof.
  induction ops as [| op ops IH]; intros s live s' live' Hinv Hv; [by intros [= <- _] |].
  apply Forall_cons in Hv as [Hv1 Hv2].
  destruct (pg_exec_inv op s live Hinv Hv1) as (s1 & l1 & E & Hinv1).
  cbn [pg_run]. rewrite E, Done_bind. intros E2.
  destruct (pg_exec_range _ _ _ _ _ Hinv Hv1 E), (IH _ _ _ _ Hinv1 Hv2 E2). split; congruence.
Qed.
