(* ===== verification/PgallocThms.v ===== *)
(** * Theorems about the page allocator

    The properties of pgalloc.c that the rest of the system relies on, each
    with a concrete instance. *)

From S2P Require Import Prelude PgBitmap Pgalloc PgGeom PgallocInv PgallocProps PageIface PgallocRun.

(** An allocator loaded with [0x1001, 1000000]: pages 0x3000 to 0xf3fff. *)
Definition demo_pg : pgstate :=
  match bmk_pgalloc_loadmem pg_initial 4097 1000000 with Done s => s | _ => pg_initial end.

Lemma demo_loaded : loaded demo_pg 8192 999424.
Proof.
  destruct (loadmem_spec pg_initial 4097 1000000) as (s & E & H).
  - done.
  - unfold W64; lia.
  - split; [lia | reflexivity].
  - reflexivity.
  - unfold demo_pg. rewrite E. exact H.
Qed.

Lemma demo_wf : pg_wf demo_pg.
Proof. apply demo_loaded. Qed.

(** C1.  On a well-formed allocator every valid request returns.  It either
    yields a block of [2^order] pages that is aligned as asked, lies in the
    managed range and was entirely free, removes exactly those bytes from the
    free memory, adds their size to the usage counter and keeps the invariant;
    or it returns NULL with the state unchanged, and then no free chunk of at
    least that order has the alignment. *)
Theorem bmk_pgalloc_align_correct s order k :
  pg_wf s -> 0 <= order < FREELIST_LEVELS -> 12 <= k < 64 ->
  exists p s', bmk_pgalloc_align s order (2 ^ k) = Done (p, s') /\
    (p <> 0 /\ allocated s s' p order (2 ^ k) \/
     p = 0 /\ s' = s /\
       forall o c, order <= o -> is_free s o c -> ~ (2 ^ k | c)).
Proof. apply pgalloc_align_spec. Qed.

Lemma bmk_pgalloc_align_correct_witness :
  exists p s', bmk_pgalloc_align demo_pg 1 (2 ^ 13) = Done (p, s') /\
    (p <> 0 /\ allocated demo_pg s' p 1 (2 ^ 13) \/
     p = 0 /\ s' = demo_pg /\
       forall o c, 1 <= o -> is_free demo_pg o c -> ~ (2 ^ 13 | c)).
Proof.
  apply (bmk_pgalloc_align_correct demo_pg 1 13);
    [exact demo_wf | unfold FREELIST_LEVELS, BMK_PCPU_PAGE_SHIFT; lia | lia].
Defined.

(** The concrete request succeeds. *)
Example demo_alloc : exists s', bmk_pgalloc_align demo_pg 1 (2 ^ 13) = Done (983040, s').
Proof. eexists. vm_compute. reflexivity. Qed.

(** C2.  Freeing an allocated, naturally aligned block never trips an
    assertion or follows a stale header: it returns with exactly the block's
    bytes added to the free memory, the usage counter reduced by its size, and
    the invariant, including full coalescing of buddies, intact. *)
Theorem bmk_pgfree_correct s p order :
  pg_wf s -> managed_block s p order -> (forall x, in_block p order x -> ~ free_byte s x) ->
  exists s', bmk_pgfree s p order = Done s' /\ freed s s' p order.
Proof. apply pgfree_spec. Qed.

(** The block handed out by [demo_alloc], ready to be freed. *)
Definition demo_pg1 : pgstate :=
  match bmk_pgalloc_align demo_pg 1 (2 ^ 13) with Done (_, s) => s | _ => pg_initial end.

Lemma demo_pg1_block :
  pg_wf demo_pg1 /\ managed_block demo_pg1 983040 1 /\
  (forall x, in_block 983040 1 x -> ~ free_byte demo_pg1 x).
Proof.
  destruct (pgalloc_align_spec demo_pg 1 13) as (p & s' & E & H);
    [exact demo_wf | unfold FREELIST_LEVELS, BMK_PCPU_PAGE_SHIFT; lia | lia |].
  destruct demo_alloc as [s2 E2]. rewrite E2 in E. injection E as <- <-.
  unfold demo_pg1. rewrite E2. clear E2. generalize dependent demo_pg. intros s.
  intros [[_ [Hb _ _ Hby Hwf _ [Hr1 Hr2]]] | [H0 _]]; [| discriminate H0].
  split; [done |]. split; [unfold managed_block in *; by rewrite Hr1, Hr2 |].
  intros x Hx [_ Hn]%Hby. done.
Qed.

Lemma bmk_pgfree_correct_witness :
  exists s', bmk_pgfree demo_pg1 983040 1 = Done s' /\ freed demo_pg1 s' 983040 1.
Proof.
  apply (bmk_pgfree_correct demo_pg1 983040 1); apply demo_pg1_block.
Defined.

(**  Loading memory: when the range, rounded inwards to pages, holds at
    least one page, the allocator starts well-formed, the bitmap occupies the
    first pages and every byte after it up to the end is free. *)
Theorem bmk_pgalloc_loadmem_correct s min max :
  pg_called s = false -> 0 <= min <= W64 - 4096 -> u64 max ->
  bmk_round_page min < bmk_trunc_page max ->
  exists s', bmk_pgalloc_loadmem s min max = Done s' /\
    loaded s' (bmk_round_page min) (bmk_trunc_page max).
Proof. apply loadmem_spec. Qed.

Lemma bmk_pgalloc_loadmem_correct_witness :
  exists s', bmk_pgalloc_loadmem pg_initial 4097 1000000 = Done s' /\ loaded s' 8192 999424.
Proof.
  apply (bmk_pgalloc_loadmem_correct pg_initial 4097 1000000);
    [reflexivity | unfold W64; lia | split; [lia | reflexivity] | reflexivity].
Defined.

(**  Allocating a block and freeing it again restores the free lists: the
    same chunks are on the same lists as before, and the counters agree. *)
Theorem pgalloc_pgfree_roundtrip s order k p s1 :
  pg_wf s -> 0 <= order < FREELIST_LEVELS -> 12 <= k < 64 ->
  bmk_pgalloc_align s order (2 ^ k) = Done (p, s1) -> p <> 0 ->
  exists s2, bmk_pgfree s1 p order = Done s2 /\
    (forall o c, is_free s2 o c <-> is_free s o c) /\
    pgalloc_usedkb s2 = pgalloc_usedkb s /\ pg_wf s2.
Proof. apply pgalloc_pgfree. Qed.

Lemma pgalloc_pgfree_roundtrip_witness :
  exists s2, bmk_pgfree demo_pg1 983040 1 = Done s2 /\
    (forall o c, is_free s2 o c <-> is_free demo_pg o c) /\
    pgalloc_usedkb s2 = pgalloc_usedkb demo_pg /\ pg_wf s2.
Proof.
  apply (pgalloc_pgfree_roundtrip demo_pg 1 13);
    [exact demo_wf | unfold FREELIST_LEVELS, BMK_PCPU_PAGE_SHIFT; lia | lia | | lia].
  destruct demo_alloc as [s2 E2]. unfold demo_pg1. rewrite E2. reflexivity.
Defined.

(** C3.  From a loaded allocator, every sequence of valid allocations, frees of
    live blocks and writes of owners into their own blocks runs to completion:
    no assertion fails and no stale header or out-of-range word is touched.
    The live blocks are aligned and pairwise disjoint and with the free chunks
    make up the managed memory; once every block has been freed, the free
    lists hold the chunks they held at the start. *)
Theorem pg_run_safe s min max ops :
  loaded s min max -> Forall pgop_valid ops ->
  exists s' live, pg_run ops (s, []) = Done (s', live) /\ pg_inv s' live /\
    (live = [] -> forall o c, is_free s' o c <-> is_free s o c).
Proof.
  intros Hld Hv. pose proof (loaded_inv _ _ _ Hld) as Hinv.
  destruct (pg_run_inv ops s [] Hinv Hv) as (s' & live & E & Hinv').
  exists s', live. split; [done |]. split; [done |]. intros ->.
  destruct (pg_run_range _ _ _ _ _ Hinv Hv E) as [Hr1 Hr2].
  apply freelists_unique; [apply Hinv' | apply Hinv |]. intros x.
  rewrite (ld_bytes _ _ _ Hld), <- Hr1, <- Hr2. split.
  - intros (o & c & Hf & Hx).
    destruct (wf_fl_chunk _ (wf_lists _ (pi_wf _ _ Hinv')) _ _ Hf) as (_ & _ & ? & ? & _). lia.
  - intros Hx. destruct (pi_cover _ _ Hinv' x Hx) as [? | H]; [done |]. by apply Exists_nil in H.
Qed.

Lemma pg_run_safe_witness :
  exists s' live, pg_run [OpAlloc 1 13; OpScribble 0 0 7 CHUNKMAGIC; OpAlloc 0 12; OpFree 1; OpFree 0]
      (demo_pg, []) = Done (s', live) /\ pg_inv s' live /\
    (live = [] -> forall o c, is_free s' o c <-> is_free demo_pg o c).
Proof.
  apply (pg_run_safe demo_pg 8192 999424); [exact demo_loaded |].
  repeat constructor; unfold FREELIST_LEVELS, BMK_PCPU_PAGE_SHIFT; lia.
Defined.

(**  [map_alloc] and [map_free] stay inside the bitmap and change exactly
    the bits of the run: those become set, respectively clear, and the bits of
    all other pages keep their value. *)
Theorem map_alloc_free_exact bm first n :
  run_ok bm first n ->
  (exists bm', map_alloc bm first n = Done bm' /\ length bm' = length bm /\
    forall i, bm_has bm i ->
      page_allocated bm' i = Done (bm_bit bm i || in_run first n i)) /\
  (exists bm', map_free bm first n = Done bm' /\ length bm' = length bm /\
    forall i, bm_has bm i ->
      page_allocated bm' i = Done (bm_bit bm i && negb (in_run first n i))).
Proof.
  intros Hok.
  assert (forall f bm', run_update f first n bm bm' -> length bm' = length bm /\
    forall i, bm_has bm i -> page_allocated bm' i = Done (f (bm_bit bm i) (in_run first n i))) as Hrun.
  { intros f bm' Hupd. split; [apply Hupd |]. intros i Hi. rewrite page_allocated_bit.
    - f_equal. by eapply run_update_bit.
    - unfold bm_has in *. by rewrite (proj1 Hupd). }
  split.
  - destruct (map_alloc_run bm first n Hok) as (bm' & -> & Hupd). exists bm'.
    split; [done |]. by apply Hrun.
  - destruct (map_free_run bm first n Hok) as (bm' & -> & Hupd). exists bm'.
    split; [done |]. by apply (Hrun clear_run).
Qed.

Lemma map_alloc_free_exact_witness :
  (exists bm', map_alloc [0; 5; 0] 60 70 = Done bm' /\ length bm' = 3%nat /\
    forall i, bm_has [0; 5; 0] i ->
      page_allocated bm' i = Done (bm_bit [0; 5; 0] i || in_run 60 70 i)) /\
  (exists bm', map_free [0; 5; 0] 60 70 = Done bm' /\ length bm' = 3%nat /\
    forall i, bm_has [0; 5; 0] i ->
      page_allocated bm' i = Done (bm_bit [0; 5; 0] i && negb (in_run 60 70 i))).
Proof.
  apply (map_alloc_free_exact [0; 5; 0] 60 70). split; [| split; [lia | split; [lia |]]].
  - repeat constructor; unfold u64, W64; lia.
  - split; reflexivity.
Defined.

(**  The consistency check of debug builds succeeds in every well-formed
    state: the head page of each chunk on a free list is clear in the bitmap
    and its header carries the magic number. *)
Theorem sanity_check_holds s : pg_wf s -> sanity_check s = true.
Proof.
  intros Hwf. pose proof (wf_lists _ Hwf) as Hfl. unfold sanity_check.
  apply forallb_forall. intros l [o Hl]%list_elem_of_In%list_elem_of_lookup. apply forallb_forall.
  intros c Hc%list_elem_of_In. pose proof (is_free_lookup _ _ _ _ Hl Hc) as Hf.
  destruct (wf_fl_chunk _ Hfl _ _ Hf) as (Hlt & Hal & Hlo & Hhi & _ & ->).
  rewrite Z.eqb_refl, andb_true_r. pose proof (bsize_pos (Z.of_nat o) ltac:(lia)).
  destruct (block_run s (wf_fl_range _ Hfl) c (Z.of_nat o)) as (H1 & H2 & H3 & _);
    [by apply free_chunk_block |].
  pose proof (Z.pow_pos_nonneg 2 (Z.of_nat o)).
  unfold allocated_in_map, addr_is_managed. rewrite (proj2 (Z.leb_le _ _)), (proj2 (Z.ltb_lt _ _)) by lia.
  cbn [andb]. rewrite bmk_assert_true, Done_bind.
  rewrite page_allocated_bit by (eapply bm_has_page; [apply (wf_room _ Hwf) | lia]).
  rewrite (proj2 (wf_bits _ Hwf (va_to_pg s c) ltac:(lia))); [done |].
  exists (Z.of_nat o), c. split; [done |]. rewrite <- H3. lia.
Qed.

Lemma sanity_check_holds_witness : sanity_check demo_pg = true.
Proof. exact (sanity_check_holds demo_pg demo_wf). Defined.
