(* ===== verification/Mem.v ===== *)
(** * Byte-addressed memory

    The objects the C code reaches through [char *] pointers: a finite map
    from addresses to bytes.  An access to an address that belongs to no
    object is undefined.  Strings are lists of bytes; [cstr_at] says that a
    NUL-terminated string lies at an address.  Plain [char] is signed, as on
    the x86 targets of the sources. *)

From S2P Require Import Prelude.

Abbreviation mem := (gmap Z Z).

Definition byte (b : Z) : Prop := 0 <= b < 256.
Definition schar (b : Z) : Z := if b <? 128 then b else b - 256.

Definition load8 (m : mem) (p : Z) : outcome Z :=
  of_option "load outside every object" (m !! p).
Definition store8 (m : mem) (p v : Z) : outcome mem :=
  match m !! p with
  | Some _ => Done (<[p := v mod 256]> m)
  | None => Undef "store outside every object"
  end.

(** The bytes [l] lie at [p]. *)
Fixpoint bytes_at (m : mem) (p : Z) (l : list Z) : Prop :=
  match l with
  | [] => True
  | b :: l => m !! p = Some b /\ bytes_at m (p + 1) l
  end.

(** The [n] bytes at [p] belong to objects. *)
Definition mapped (m : mem) (p : Z) (n : nat) : Prop :=
  forall i, (i < n)%nat -> is_Some (m !! (p + Z.of_nat i)).

Fixpoint mem_write (m : mem) (p : Z) (l : list Z) : mem :=
  match l with
  | [] => m
  | b :: l => mem_write (<[p := b]> m) (p + 1) l
  end.

(** [s] is a C string at [p]: no NUL inside, a NUL after it. *)
Definition cstr_at (m : mem) (p : Z) (s : list Z) : Prop :=
  Forall (fun b => 0 < b < 256) s /\ bytes_at m p (s ++ [0]).

Global Instance bytes_at_dec m p l : Decision (bytes_at m p l).
Proof.
  revert p. induction l as [| b l IH]; intros p; cbn; [left; done |].
  destruct (decide (m !! p = Some b)); [| right; tauto].
  destruct (IH (p + 1)); [left | right]; tauto.
Defined.
Global Instance cstr_at_dec m p s : Decision (cstr_at m p s).
Proof. apply and_dec; [apply Forall_dec; intros b; apply _ | apply _]. Defined.

Definition bytes_of (s : string) : list Z :=
  map (fun a => Z.of_N (Ascii.N_of_ascii a)) (String.list_ascii_of_string s).
Definition cstring (s : string) : list Z := bytes_of s ++ [0].

Lemma bytes_at_app m p l1 l2 :
  bytes_at m p (l1 ++ l2) <->
  bytes_at m p l1 /\ bytes_at m (p + Z.of_nat (length l1)) l2.
Proof.
  revert p. induction l1 as [| b l1 IH]; intros p; cbn [bytes_at app length].
  - rewrite Z.add_0_r. tauto.
  - rewrite IH. replace (p + 1 + Z.of_nat (length l1)) with (p + Z.of_nat (S (length l1))) by lia.
    tauto.
Qed.

Lemma bytes_at_lookup m p l :
  bytes_at m p l <-> forall i b, l !! i = Some b -> m !! (p + Z.of_nat i) = Some b.
Proof.
  revert p. induction l as [| b l IH]; intros p; cbn [bytes_at].
  - split; [| done]. intros _ i b H. by rewrite lookup_nil in H.
  - rewrite IH. split.
    + intros [H1 H2] [| i] c Hc; cbn in Hc; simplify_eq.
      * by rewrite Z.add_0_r.
      * replace (p + Z.of_nat (S i)) with (p + 1 + Z.of_nat i) by lia. auto.
    + intros H. split; [specialize (H 0%nat b); rewrite Z.add_0_r in H; auto |].
      intros i c Hc. replace (p + 1 + Z.of_nat i) with (p + Z.of_nat (S i)) by lia. auto.
Qed.

Lemma bytes_at_ext m m' p l :
  (forall a, p <= a < p + Z.of_nat (length l) -> m' !! a = m !! a) ->
  bytes_at m p l -> bytes_at m' p l.
Proof.
  rewrite !bytes_at_lookup. intros He H i b Hb.
  rewrite He; [by apply H |]. apply lookup_lt_Some in Hb. lia.
Qed.

Lemma mem_write_lookup m p l a :
  mem_write m p l !! a =
  if bool_decide (p <= a < p + Z.of_nat (length l)) then l !! Z.to_nat (a - p) else m !! a.
Proof.
  revert m p. induction l as [| b l IH]; intros m p; cbn [mem_write length].
  - rewrite bool_decide_false by lia. done.
  - rewrite IH. destruct (decide (a = p)) as [-> | Hne].
    + rewrite bool_decide_false, bool_decide_true by lia.
      rewrite lookup_insert_eq, Z.sub_diag. done.
    + rewrite lookup_insert_ne by done. case_bool_decide; case_bool_decide; try lia; try done.
      by replace (Z.to_nat (a - p)) with (S (Z.to_nat (a - (p + 1)))) by lia.
Qed.

Lemma mem_write_in m p l i b : l !! i = Some b -> mem_write m p l !! (p + Z.of_nat i) = Some b.
Proof.
  intros H. pose proof (lookup_lt_Some _ _ _ H). rewrite mem_write_lookup.
  rewrite bool_decide_true by lia. by replace (Z.to_nat (p + Z.of_nat i - p)) with i by lia.
Qed.

Lemma mem_write_out m p l a :
  a < p \/ p + Z.of_nat (length l) <= a -> mem_write m p l !! a = m !! a.
Proof. intros H. rewrite mem_write_lookup, bool_decide_false; [done | lia]. Qed.

Lemma bytes_at_write m p l : bytes_at (mem_write m p l) p l.
Proof. apply bytes_at_lookup. intros i b. apply mem_write_in. Qed.

Lemma mem_write_app m p l1 l2 :
  mem_write m p (l1 ++ l2) = mem_write (mem_write m p l1) (p + Z.of_nat (length l1)) l2.
Proof.
  revert m p. induction l1 as [| b l1 IH]; intros m p; cbn [mem_write app length].
  - by rewrite Z.add_0_r.
  - rewrite IH. f_equal. lia.
Qed.

Lemma bytes_at_mapped m p l : bytes_at m p l -> mapped m p (length l).
Proof.
  rewrite bytes_at_lookup. intros H i Hi.
  destruct (lookup_lt_is_Some_2 l i Hi) as [b Hb]. rewrite (H i b Hb). done.
Qed.

Lemma mapped_mono m p n k : (k <= n)%nat -> mapped m p n -> mapped m p k.
Proof. intros Hk H i Hi. apply H. lia. Qed.

Lemma mapped_S m p n : mapped m p (S n) <-> is_Some (m !! p) /\ mapped m (p + 1) n.
Proof.
  split.
  - intros H. split; [rewrite <- (Z.add_0_r p); apply (H 0%nat); lia |].
    intros i Hi. replace (p + 1 + Z.of_nat i) with (p + Z.of_nat (S i)) by lia. apply H. lia.
  - intros [H0 H] [| i] Hi; [by rewrite Z.add_0_r |].
    replace (p + Z.of_nat (S i)) with (p + 1 + Z.of_nat i) by lia. apply H. lia.
Qed.

Lemma mapped_insert m p n a v : mapped m p n -> mapped (<[a := v]> m) p n.
Proof.
  intros H i Hi. destruct (decide (a = p + Z.of_nat i)) as [-> | Hne].
  - rewrite lookup_insert_eq. done.
  - rewrite lookup_insert_ne by done. auto.
Qed.

Lemma mapped_write m q l p n : mapped m p n -> mapped (mem_write m q l) p n.
Proof.
  revert m q. induction l as [| b l IH]; intros m q H; cbn; [done |].
  by apply IH, mapped_insert.
Qed.

(** A run of mapped bytes is no longer than the memory: loops that walk
    memory until they meet a NUL have at most [size m] bytes to visit. *)
Lemma mapped_size m p n : mapped m p n -> (n <= size m)%nat.
Proof.
  intros H.
  assert (list_to_set ((fun i => p + Z.of_nat i) <$> seq 0 n) ⊆ dom m) as Hsub.
  { intros a. rewrite elem_of_list_to_set, list_elem_of_fmap. intros (i & -> & Hi).
    apply elem_of_seq in Hi. apply elem_of_dom, H. lia. }
  apply subseteq_size in Hsub. rewrite size_dom in Hsub.
  rewrite size_list_to_set in Hsub.
  - by rewrite length_fmap, length_seq in Hsub.
  - apply NoDup_fmap_2; [intros i j Hij; lia | apply NoDup_seq].
Qed.

Lemma cstr_at_size m p s : cstr_at m p s -> (length s < size m)%nat.
Proof.
  intros [_ H]. apply bytes_at_mapped, mapped_size in H.
  rewrite length_app in H. cbn in H. lia.
Qed.

Lemma load8_Some m p b : m !! p = Some b -> load8 m p = Done b.
Proof. intros H. unfold load8. by rewrite H. Qed.

Lemma store8_mapped m p v : is_Some (m !! p) -> store8 m p v = Done (<[p := v mod 256]> m).
Proof. intros [b H]. unfold store8. by rewrite H. Qed.

(** The next byte of a string, and its tail. *)
Lemma cstr_at_cons m p b s : cstr_at m p (b :: s) <->
  m !! p = Some b /\ 0 < b < 256 /\ cstr_at m (p + 1) s.
Proof. unfold cstr_at. cbn. rewrite Forall_cons. tauto. Qed.

Lemma cstr_at_nil m p : cstr_at m p [] <-> m !! p = Some 0.
Proof. unfold cstr_at. cbn. split; [tauto |]. intros H. split; [constructor | done]. Qed.

Lemma cstr_at_drop m p s i : (i <= length s)%nat -> cstr_at m p s ->
  cstr_at m (p + Z.of_nat i) (drop i s).
Proof.
  revert p s. induction i as [| i IH]; intros p s Hi H.
  - by rewrite drop_0, Z.add_0_r.
  - destruct s as [| b s]; cbn in Hi; [lia |]. apply cstr_at_cons in H as (_ & _ & H).
    cbn [drop]. replace (p + Z.of_nat (S i)) with (p + 1 + Z.of_nat i) by lia.
    apply IH; [lia | done].
Qed.
