(* ===== verification/Cstring.v ===== *)
(** * String and memory routines (lib/libbmk_core/bmk_string.c)

    Loops bounded by a length argument recurse on it; loops that run until a
    NUL carry the size of the memory as fuel, which no run of mapped bytes can
    exceed ([mapped_size]). *)

From S2P Require Import Prelude Mem.

(** [while ( *str++) rv++;] *)
Fixpoint strlen_loop (fuel : nat) (m : mem) (str rv : Z) : outcome Z :=
  match fuel with
  | O => Undef "strlen: out of fuel"
  | S fuel =>
      c ← load8 m str;
      if c =? 0 then Done rv else strlen_loop fuel m (str + 1) (wadd rv 1)
  end.
Definition bmk_strlen (m : mem) (str : Z) : outcome Z :=
  strlen_loop (S (size m)) m str 0.

(** [while ( *a && *a++ == *b++) continue;] returns both pointers. *)
Fixpoint strcmp_loop (fuel : nat) (m : mem) (a b : Z) : outcome (Z * Z) :=
  match fuel with
  | O => Undef "strcmp: out of fuel"
  | S fuel =>
      ca ← load8 m a;
      if ca =? 0 then Done (a, b)
      else
        cb ← load8 m b;
        if ca =? cb then strcmp_loop fuel m (a + 1) (b + 1) else Done (a + 1, b + 1)
  end.
Definition bmk_strcmp (m : mem) (a b : Z) : outcome Z :=
  '(a, b) ← strcmp_loop (S (size m)) m a b;
  c ← load8 m a;
  let '(a, b) := if c =? 0 then (a, b) else (a - 1, b - 1) in
  x ← load8 m a;
  y ← load8 m b;
  Done (schar x - schar y).

Fixpoint strncmp_loop (n : nat) (m : mem) (a b : Z) : outcome Z :=
  match n with
  | O => Done 0
  | S n =>
      u1 ← load8 m a;
      u2 ← load8 m b;
      if negb (u1 =? u2) then Done (u1 - u2)
      else if u1 =? 0 then Done 0
      else strncmp_loop n m (a + 1) (b + 1)
  end.
Definition bmk_strncmp (m : mem) (a b n : Z) : outcome Z :=
  strncmp_loop (Z.to_nat n) m a b.

(** [while (( *d++ = *s++) != '\0') continue;] *)
Fixpoint strcpy_loop (fuel : nat) (m : mem) (d s : Z) : outcome mem :=
  match fuel with
  | O => Undef "strcpy: out of fuel"
  | S fuel =>
      c ← load8 m s;
      m ← store8 m d c;
      if c =? 0 then Done m else strcpy_loop fuel m (d + 1) (s + 1)
  end.
Definition bmk_strcpy (m : mem) (d s : Z) : outcome (Z * mem) :=
  m ← strcpy_loop (S (size m)) m d s;
  Done (d, m).

Fixpoint memset_loop (n : nat) (m : mem) (v c : Z) : outcome mem :=
  match n with
  | O => Done m
  | S n => m ← store8 m v c; memset_loop n m (v + 1) c
  end.
Definition bmk_memset (m : mem) (b c n : Z) : outcome (Z * mem) :=
  m ← memset_loop (Z.to_nat n) m b c;
  Done (b, m).

(** [while (n && ( *d++ = *s++)) n--;]: the copying half of [bmk_strncpy],
    returning [n] and [d] as the loop leaves them. *)
Fixpoint strncpy_copy (n : nat) (m : mem) (d s : Z) : outcome (nat * Z * mem) :=
  match n with
  | O => Done (O, d, m)
  | S n' =>
      c ← load8 m s;
      m ← store8 m d c;
      if c =? 0 then Done (n, d + 1, m) else strncpy_copy n' m (d + 1) (s + 1)
  end.
Definition bmk_strncpy (m : mem) (d s n : Z) : outcome (Z * mem) :=
  '(n, d', m) ← strncpy_copy (Z.to_nat n) m d s;
  m ← memset_loop n m d' 0;
  Done (d, m).

Fixpoint memcpy_loop (n : nat) (m : mem) (dp sp : Z) : outcome mem :=
  match n with
  | O => Done m
  | S n =>
      c ← load8 m sp;
      m ← store8 m dp c;
      memcpy_loop n m (dp + 1) (sp + 1)
  end.
Definition bmk_memcpy (m : mem) (d src n : Z) : outcome (Z * mem) :=
  m ← memcpy_loop (Z.to_nat n) m d src;
  Done (d, m).

(** The search loops; [step] is [p++] of [bmk_memchr], [p--] of
    [bmk_memrchr].  [None] is NULL. *)
Fixpoint memchr_loop (step : Z) (n : nat) (m : mem) (p c : Z) : outcome (option Z) :=
  match n with
  | O => Done None
  | S n =>
      b ← load8 m p;
      if b =? c mod 256 then Done (Some p) else memchr_loop step n m (p + step) c
  end.
Definition bmk_memchr (m : mem) (d c n : Z) : outcome (option Z) :=
  memchr_loop 1 (Z.to_nat n) m d c.
Definition bmk_memrchr (m : mem) (d c n : Z) : outcome (option Z) :=
  memchr_loop (-1) (Z.to_nat n) m d c.

(** ** Lengths *)

Lemma strlen_loop_spec s : forall fuel m p rv,
  cstr_at m p s -> (length s < fuel)%nat -> 0 <= rv -> rv + Z.of_nat (length s) < W64 ->
  strlen_loop fuel m p rv = Done (rv + Z.of_nat (length s)).
Proof.
  induction s as [| c s IH]; intros fuel m p rv Hs Hf Hrv Hw;
    (destruct fuel as [| fuel]; [cbn in Hf; lia |]); cbn [strlen_loop length] in *.
  - apply cstr_at_nil in Hs. rewrite (load8_Some _ _ _ Hs), Done_bind. cbn. f_equal. lia.
  - apply cstr_at_cons in Hs as (Hc & Hb & Hs). rewrite (load8_Some _ _ _ Hc), Done_bind.
    rewrite (proj2 (Z.eqb_neq c 0)) by lia.
    rewrite wadd_small by (unfold u64; lia). rewrite IH; [f_equal | ..]; try done; lia.
Qed.

Lemma strlen_spec m p s : cstr_at m p s -> Z.of_nat (length s) < W64 ->
  bmk_strlen m p = Done (Z.of_nat (length s)).
Proof.
  intros Hs Hw. unfold bmk_strlen. rewrite (strlen_loop_spec s); try done; try lia.
  pose proof (cstr_at_size _ _ _ Hs). lia.
Qed.

(** ** Comparison

    [common s t] is the length of the longest common prefix. *)
Fixpoint common (s t : list Z) : nat :=
  match s, t with
  | a :: s, b :: t => if a =? b then S (common s t) else O
  | _, _ => O
  end.

Lemma common_le_l s t : (common s t <= length s)%nat.
Proof. revert t; induction s as [| a s IH]; intros [| b t]; cbn; try lia. case_match; [specialize (IH t) |]; lia. Qed.

(** The byte of the string [s] at [i], its terminator included. *)
Definition cbyte (s : list Z) (i : nat) : Z := default 0 (s !! i).

(** Where the scan of [bmk_strcmp] stops: at the end of [s] when [s] is a
    prefix of [t], otherwise one past the first difference. *)
Lemma strcmp_loop_spec s : forall t fuel m a b,
  cstr_at m a s -> cstr_at m b t -> (length s < fuel)%nat ->
  let k := Z.of_nat (common s t) in
  strcmp_loop fuel m a b =
    if (length s =? common s t)%nat then Done (a + k, b + k) else Done (a + k + 1, b + k + 1).
Proof.
  induction s as [| x s IH]; intros t fuel m a b Hs Ht Hf;
    (destruct fuel as [| fuel]; [cbn in Hf; lia |]); cbn [strcmp_loop length] in *.
  - apply cstr_at_nil in Hs. rewrite (load8_Some _ _ _ Hs), Done_bind. cbn.
    by rewrite !Z.add_0_r.
  - apply cstr_at_cons in Hs as (Hx & Hxb & Hs). rewrite (load8_Some _ _ _ Hx), Done_bind.
    rewrite (proj2 (Z.eqb_neq x 0)) by lia.
    destruct t as [| y t].
    + apply cstr_at_nil in Ht. rewrite (load8_Some _ _ _ Ht), Done_bind.
      rewrite (proj2 (Z.eqb_neq x 0)) by lia. cbn. by rewrite !Z.add_0_r.
    + apply cstr_at_cons in Ht as (Hy & Hyb & Ht). rewrite (load8_Some _ _ _ Hy), Done_bind.
      cbn [common]. destruct (Z.eqb_spec x y) as [-> | Hne].
      * rewrite (IH t fuel m (a + 1) (b + 1)) by (done || lia). cbn [Nat.eqb].
        rewrite Nat2Z.inj_succ.
        destruct (_ =? _)%nat; f_equal; f_equal; lia.
      * cbn. by rewrite !Z.add_0_r.
Qed.

Lemma cstr_byte m p s i : cstr_at m p s -> (i <= length s)%nat ->
  m !! (p + Z.of_nat i) = Some (cbyte s i).
Proof.
  intros [_ H] Hi. apply (proj1 (bytes_at_lookup _ _ _) H). unfold cbyte.
  destruct (decide (i = length s)) as [-> | Hne].
  - rewrite lookup_app_r, Nat.sub_diag by lia. cbn.
    by rewrite lookup_ge_None_2 by lia.
  - rewrite lookup_app_l by lia. destruct (lookup_lt_is_Some_2 s i) as [c Hc]; [lia |].
    by rewrite Hc.
Qed.

Lemma common_le_r s t : (common s t <= length t)%nat.
Proof. revert t; induction s as [| a s IH]; intros [| b t]; cbn; try lia. case_match; [specialize (IH t) |]; lia. Qed.

(** The result of [bmk_strcmp] on two strings, with [k] their first
    difference: the difference of the bytes there when [s] is a prefix of [t]
    or goes on for at least one byte after [k].  When [k] is the last byte of
    [s] the loop leaves [a] on the terminator and does not step back, and the
    value is minus the byte of memory that follows position [k] of [t]. *)
Lemma strcmp_spec m a b s t : cstr_at m a s -> cstr_at m b t ->
  let k := common s t in
  bmk_strcmp m a b =
    if (length s =? S k)%nat
    then y ← load8 m (b + Z.of_nat (S k)); Done (0 - schar y)
    else Done (schar (cbyte s k) - schar (cbyte t k)).
Proof.
  intros Hs Ht k. pose proof (common_le_l s t) as Hl. pose proof (common_le_r s t) as Hr.
  unfold bmk_strcmp. rewrite (strcmp_loop_spec s t) by
    (done || (pose proof (cstr_at_size _ _ _ Hs); lia)).
  fold k in Hl, Hr |- *. cbv zeta. destruct (Nat.eqb_spec (length s) k) as [Hk | Hk].
  - rewrite (proj2 (Nat.eqb_neq (length s) (S k))) by lia. rewrite Done_bind.
    assert (cbyte s k = 0) as Hz by (unfold cbyte; by rewrite lookup_ge_None_2 by lia).
    pose proof (cstr_byte m a s k Hs Hl) as Ha. pose proof (cstr_byte m b t k Ht Hr) as Hb.
    rewrite Hz in *. rewrite (load8_Some _ _ _ Ha), Done_bind. cbn -[load8].
    rewrite (load8_Some _ _ _ Ha), (load8_Some _ _ _ Hb). done.
  - rewrite Done_bind. pose proof (cstr_byte m a s (S k) Hs ltac:(lia)) as Ha.
    replace (a + Z.of_nat (S k)) with (a + Z.of_nat k + 1) in Ha by lia.
    rewrite (load8_Some _ _ _ Ha), Done_bind.
    destruct (Nat.eqb_spec (length s) (S k)) as [Hk1 | Hk1].
    + assert (cbyte s (S k) = 0) as Hz by (unfold cbyte; by rewrite lookup_ge_None_2 by lia).
      rewrite Hz. cbn -[load8 Z.of_nat]. rewrite Hz in Ha. rewrite (load8_Some _ _ _ Ha), Done_bind.
      by replace (b + Z.of_nat (S k)) with (b + Z.of_nat k + 1) by lia.
    + assert (cbyte s (S k) <> 0) as Hnz.
      { unfold cbyte. destruct (lookup_lt_is_Some_2 s (S k)) as [c Hc]; [lia |].
        rewrite Hc. destruct Hs as [Hs _]. eapply Forall_lookup_1 in Hs; [| done]. cbn in *. lia. }
      rewrite (proj2 (Z.eqb_neq _ _) Hnz).
      rewrite !Z.add_simpl_r.
      rewrite (load8_Some _ _ _ (cstr_byte m a s k Hs Hl)), Done_bind.
      by rewrite (load8_Some _ _ _ (cstr_byte m b t k Ht Hr)), Done_bind.
Qed.

(** [bmk_strncmp]: the first difference within [n] bytes, as unsigned
    characters. *)
Lemma strncmp_spec n : forall m a b s t, cstr_at m a s -> cstr_at m b t ->
  strncmp_loop n m a b =
    Done (if (common s t <? n)%nat then cbyte s (common s t) - cbyte t (common s t) else 0).
Proof.
  induction n as [| n IH]; intros m a b s t Hs Ht; cbn [strncmp_loop].
  - done.
  - pose proof (cstr_byte m a s 0 Hs ltac:(lia)) as Ha.
    pose proof (cstr_byte m b t 0 Ht ltac:(lia)) as Hb. rewrite Z.add_0_r in Ha, Hb.
    rewrite (load8_Some _ _ _ Ha), Done_bind, (load8_Some _ _ _ Hb), Done_bind.
    destruct s as [| x s], t as [| y t]; unfold cbyte in *; cbn -[Z.eqb] in Ha, Hb |- *; try done.
    + apply cstr_at_cons in Ht as (_ & Hy & _). by rewrite (proj2 (Z.eqb_neq _ _)) by lia.
    + apply cstr_at_cons in Hs as (_ & Hx & _). by rewrite (proj2 (Z.eqb_neq x 0)) by lia.
    + apply cstr_at_cons in Hs as (_ & Hx & Hs). apply cstr_at_cons in Ht as (_ & Hy & Ht).
      destruct (Z.eqb_spec x y) as [-> | Hne]; cbn [negb].
      * rewrite (proj2 (Z.eqb_neq y 0)) by lia. by rewrite (IH _ _ _ s t).
      * done.
Qed.

(** ** Filling and copying *)

Lemma memset_spec n : forall m v c, mapped m v n ->
  memset_loop n m v c = Done (mem_write m v (replicate n (c mod 256))).
Proof.
  induction n as [| n IH]; intros m v c Hm; cbn [memset_loop replicate mem_write]; [done |].
  apply mapped_S in Hm as [H0 Hm]. rewrite (store8_mapped _ _ _ H0), Done_bind.
  by apply IH, mapped_insert.
Qed.

(** A forward copy is right unless the destination starts inside the source. *)
Definition copy_safe (d s : Z) (n : nat) : Prop := d <= s \/ s + Z.of_nat n <= d.

Lemma copy_safe_S d s n : copy_safe d s (S n) -> copy_safe (d + 1) (s + 1) n.
Proof. unfold copy_safe. lia. Qed.

Lemma bytes_at_insert_other m s l a v :
  a < s \/ s + Z.of_nat (length l) <= a -> bytes_at m s l -> bytes_at (<[a := v]> m) s l.
Proof.
  intros Ha. apply bytes_at_ext. intros x Hx. apply lookup_insert_ne. lia.
Qed.

Lemma bytes_at_copy_step m d s c l v : copy_safe d s (S (length l)) ->
  bytes_at m s (c :: l) -> bytes_at (<[d := v]> m) (s + 1) l.
Proof.
  intros Hsafe [_ H]. apply bytes_at_insert_other; [| done]. unfold copy_safe in Hsafe. lia.
Qed.

Lemma memcpy_spec l : forall m d s,
  Forall byte l -> bytes_at m s l -> mapped m d (length l) -> copy_safe d s (length l) ->
  memcpy_loop (length l) m d s = Done (mem_write m d l).
Proof.
  induction l as [| c l IH]; intros m d s Hl Hs Hd Hsafe; cbn [memcpy_loop length mem_write]; [done |].
  apply Forall_cons in Hl as [Hc Hl]. apply mapped_S in Hd as [H0 Hd].
  rewrite (load8_Some _ _ _ (proj1 Hs)), Done_bind, (store8_mapped _ _ _ H0), Done_bind.
  rewrite Z.mod_small by done. apply IH; [done | | by apply mapped_insert | by apply copy_safe_S].
  by eapply bytes_at_copy_step.
Qed.

Lemma strcpy_spec s : forall fuel m d p,
  cstr_at m p s -> mapped m d (S (length s)) -> copy_safe d p (S (length s)) ->
  (length s < fuel)%nat ->
  strcpy_loop fuel m d p = Done (mem_write m d (s ++ [0])).
Proof.
  induction s as [| c s IH]; intros fuel m d p Hs Hd Hsafe Hf;
    (destruct fuel as [| fuel]; [cbn in Hf; lia |]);
    cbn [strcpy_loop mem_write app length] in *; apply mapped_S in Hd as [H0 Hd].
  - apply cstr_at_nil in Hs. by rewrite (load8_Some _ _ _ Hs), Done_bind, (store8_mapped _ _ _ H0).
  - destruct Hs as [Hall Hb]. apply Forall_cons in Hall as [Hc Hall].
    rewrite (load8_Some _ _ _ (proj1 Hb)), Done_bind, (store8_mapped _ _ _ H0), Done_bind.
    rewrite Z.mod_small by lia. rewrite (proj2 (Z.eqb_neq c 0)) by lia.
    apply IH; [| by apply mapped_insert | by apply copy_safe_S | lia].
    split; [done |]. eapply bytes_at_copy_step; [| exact Hb].
    rewrite length_app. cbn. by rewrite Nat.add_1_r.
Qed.

(** The copying half of [bmk_strncpy]: a string shorter than [n] is copied
    with its terminator, and [n] still counts the terminator. *)
Lemma strncpy_copy_spec s : forall n m d p,
  cstr_at m p s -> mapped m d (n `min` S (length s)) -> copy_safe d p (S (length s)) ->
  strncpy_copy n m d p =
    Done (if (length s <? n)%nat
          then ((n - length s)%nat, d + Z.of_nat (length s) + 1, mem_write m d (s ++ [0]))
          else (O, d + Z.of_nat n, mem_write m d (take n s))).
Proof.
  induction s as [| c s IH]; intros n m d p Hs Hd Hsafe; destruct n as [| n];
    cbn [strncpy_copy mem_write app length take] in *; try (rewrite Z.add_0_r; done);
    cbn [Nat.min] in Hd; apply mapped_S in Hd as [H0 Hd].
  - apply cstr_at_nil in Hs. rewrite (load8_Some _ _ _ Hs), Done_bind, (store8_mapped _ _ _ H0).
    cbn. by rewrite Z.add_0_r.
  - destruct Hs as [Hall Hb]. apply Forall_cons in Hall as [Hc Hall].
    rewrite (load8_Some _ _ _ (proj1 Hb)), Done_bind, (store8_mapped _ _ _ H0), Done_bind.
    rewrite Z.mod_small by lia. rewrite (proj2 (Z.eqb_neq c 0)) by lia.
    rewrite IH; [| | by apply mapped_insert | by apply copy_safe_S].
    + change (S (length s) <? S n)%nat with (length s <? n)%nat.
      destruct (length s <? n)%nat; do 2 f_equal; f_equal; lia.
    + split; [done |]. eapply bytes_at_copy_step; [| exact Hb].
      rewrite length_app. cbn. by rewrite Nat.add_1_r.
Qed.

(** [bmk_strncpy] as it is: a string of at least [n] bytes is truncated
    without a terminator, a shorter one is followed by zeros up to and
    including position [n], one byte more than the [n] of the caller. *)
Lemma strncpy_spec m d p s n : 0 <= n -> cstr_at m p s -> copy_safe d p (S (length s)) ->
  let len := Z.of_nat (length s) in
  (if len <? n then mapped m d (Z.to_nat n + 1) else mapped m d (Z.to_nat n)) ->
  bmk_strncpy m d p n = Done (d, mem_write m d
    (if len <? n then s ++ replicate (Z.to_nat (n - len) + 1) 0 else take (Z.to_nat n) s)).
Proof.
  intros Hn Hs Hsafe len Hd. unfold bmk_strncpy.
  destruct (Z.ltb_spec len n) as [Hlt | Hge].
  - rewrite (strncpy_copy_spec s); [| done | eapply mapped_mono; [| exact Hd]; lia | done].
    rewrite (proj2 (Nat.ltb_lt _ _)) by lia. rewrite Done_bind.
    rewrite memset_spec.
    + rewrite Done_bind. do 2 f_equal.
      replace (Z.to_nat (n - len) + 1)%nat with (1 + (Z.to_nat n - length s))%nat by lia.
      rewrite replicate_add, app_assoc, (mem_write_app m d (s ++ _)), length_app.
      cbn [replicate length]. f_equal. lia.
    + intros i Hi. replace (d + Z.of_nat (length s) + 1 + Z.of_nat i)
        with (d + Z.of_nat (length s + 1 + i)) by lia.
      apply (mapped_write _ _ _ _ _ Hd). lia.
  - rewrite (strncpy_copy_spec s); [| done | eapply mapped_mono; [| exact Hd]; lia | done].
    rewrite (proj2 (Nat.ltb_ge _ _)) by lia. done.
Qed.

(** ** Searching *)

Lemma memchr_loop_up l : forall m p c, bytes_at m p l ->
  memchr_loop 1 (length l) m p c =
    Done ((fun i => p + Z.of_nat i) <$> (fst <$> list_find (eq (c mod 256)) l)).
Proof.
  induction l as [| b l IH]; intros m p c Hl; cbn [memchr_loop length list_find]; [done |].
  destruct Hl as [Hb Hl]. rewrite (load8_Some _ _ _ Hb), Done_bind.
  destruct (Z.eqb_spec b (c mod 256)) as [-> | Hne].
  - rewrite decide_True by done. cbn. by rewrite Z.add_0_r.
  - rewrite decide_False by done. rewrite IH by done. f_equal.
    destruct (list_find _ l) as [[i x] |]; cbn; [f_equal; lia | done].
Qed.

(** The backward search looks at the bytes up to and including [p]. *)
Lemma memchr_loop_down l : forall m p c, bytes_at m (p + 1 - Z.of_nat (length l)) (reverse l) ->
  memchr_loop (-1) (length l) m p c =
    Done ((fun i => p - Z.of_nat i) <$> (fst <$> list_find (eq (c mod 256)) l)).
Proof.
  induction l as [| b l IH]; intros m p c Hl; cbn [memchr_loop length list_find]; [done |].
  rewrite reverse_cons in Hl. apply bytes_at_app in Hl as [Hl Hb]. cbn [bytes_at length] in Hb.
  rewrite length_reverse in Hb. destruct Hb as [Hb _].
  replace (p + 1 - Z.of_nat (S (length l)) + Z.of_nat (length l)) with p in Hb by lia.
  rewrite (load8_Some _ _ _ Hb), Done_bind.
  destruct (Z.eqb_spec b (c mod 256)) as [-> | Hne].
  - rewrite decide_True by done. cbn. by rewrite Z.sub_0_r.
  - rewrite decide_False by done. rewrite IH.
    + f_equal. destruct (list_find _ l) as [[i x] |]; cbn; [f_equal; lia | done].
    + cbn [length] in Hl. by replace (p + -1 + 1 - Z.of_nat (length l)) with (p + 1 - Z.of_nat (S (length l))) by lia.
Qed.
