(* ===== verification/Strtoul.v ===== *)
(** * Number parsing (lib/libbmk_core/strtoul.c)

    The function template is instantiated for [unsigned long].  Characters
    are unsigned bytes; the pointer [s] always points one past the character
    in [c], as in the source. *)

From S2P Require Import Prelude Mem.

Definition UINT_MAX : Z := W64 - 1.

(** [c == ' ' || (c >= '\t' && c <= '\r')] *)
Definition is_white (c : Z) : bool := (c =? 32) || ((9 <=? c) && (c <=? 13)).

(** [do { c = *s++; } while (white);] *)
Fixpoint skip_white (fuel : nat) (m : mem) (s : Z) : outcome (Z * Z) :=
  match fuel with
  | O => Undef "strtoul: out of fuel"
  | S fuel =>
      c ← load8 m s;
      if is_white c then skip_white fuel m (s + 1) else Done (c, s + 1)
  end.

(** The value of a digit or letter, the [if]/[else if] chain of the loop. *)
Definition digit_of (c : Z) : option Z :=
  if (48 <=? c) && (c <=? 57) then Some (c - 48)
  else if (97 <=? c) && (c <=? 122) then Some (c - 97 + 10)
  else if (65 <=? c) && (c <=? 90) then Some (c - 65 + 10)
  else None.

(** The conversion loop: [acc], [any], and the pointer [s] when it ends. *)
Fixpoint strtoul_digits (fuel : nat) (m : mem) (base c s acc any : Z) : outcome (Z * Z * Z) :=
  match fuel with
  | O => Undef "strtoul: out of fuel"
  | S fuel =>
      match digit_of c with
      | None => Done (acc, any, s)
      | Some i =>
          if base <=? i then Done (acc, any, s)
          else if any <? 0 then
            c ← load8 m s; strtoul_digits fuel m base c (s + 1) acc any
          else
            let cutoff := UINT_MAX / base in
            let cutlim := UINT_MAX mod base in
            if (cutoff <? acc) || ((acc =? cutoff) && (cutlim <? i)) then Done (UINT_MAX, 0, s)
            else
              c ← load8 m s;
              strtoul_digits fuel m base c (s + 1) (wadd (wmul acc base) i) 1
      end
  end.

(** The sign: [neg], and the next character. *)
Definition strtoul_sign (m : mem) (c s : Z) : outcome (bool * Z * Z) :=
  if c =? 45 (* '-' *) then c ← load8 m s; Done (true, c, s + 1)
  else if c =? 43 (* '+' *) then c ← load8 m s; Done (false, c, s + 1)
  else Done (false, c, s).

(** The [0x] prefix and the default base. *)
Definition strtoul_base (m : mem) (base c s : Z) : outcome (Z * Z * Z) :=
  '(base, c, s) ←
    (if ((base =? 0) || (base =? 16)) && (c =? 48 (* '0' *)) then
       x ← load8 m s;
       if (x =? 120 (* 'x' *)) || (x =? 88 (* 'X' *))
       then c ← load8 m (s + 1); Done (16, c, s + 2)
       else Done (base, c, s)
     else Done (base, c, s));
  Done (if base =? 0 then (if c =? 48 then 8 else 10) else base, c, s).

(** Returns the value and what [*endptr] is set to. *)
Definition bmk_strtoul (m : mem) (nptr base : Z) : outcome (Z * Z) :=
  if negb (base =? 0) && ((base <? 2) || (36 <? base)) then Halt "invalid base to strtoul"
  else
    '(c, s) ← skip_white (S (size m)) m nptr;
    '(neg, c, s) ← strtoul_sign m c s;
    '(base, c, s) ← strtoul_base m base c s;
    '(acc, any, s) ← strtoul_digits (S (size m)) m base c s 0 0;
    Done (if neg && (0 <? any) then wneg acc else acc,
          if any =? 0 then nptr else s - 1).

(** ** What a run of digits means *)

Definition is_digit (base c : Z) : Prop := exists i, digit_of c = Some i /\ i < base.
Global Instance is_digit_dec base c : Decision (is_digit base c).
Proof.
  destruct (digit_of c) as [i |] eqn:E.
  - destruct (decide (i < base)) as [H | H]; [left | right].
    + by exists i.
    + intros (j & Hj & Hlt). rewrite Hj in E. simplify_eq. lia.
  - right. intros (j & Hj & _). rewrite Hj in E. done.
Defined.

Definition digits_value (base : Z) (acc : Z) (ds : list Z) : Z :=
  fold_left (fun acc c => acc * base + default 0 (digit_of c)) ds acc.

Lemma digit_of_nonneg c i : digit_of c = Some i -> 0 <= i.
Proof. unfold digit_of. repeat case_match; intros; simplify_eq; lia. Qed.

Lemma digits_value_mono base ds : forall acc,
  2 <= base -> 0 <= acc -> Forall (is_digit base) ds -> acc <= digits_value base acc ds.
Proof.
  induction ds as [| c ds IH]; intros acc Hb Ha Hds; cbn; [lia |].
  apply Forall_cons in Hds as [(i & Hi & Hlt) Hds]. rewrite Hi. cbn.
  pose proof (digit_of_nonneg _ _ Hi). etrans; [| apply IH; try done; nia]. nia.
Qed.

Lemma digits_value_cons base acc d ds i : digit_of d = Some i ->
  digits_value base acc (d :: ds) = digits_value base (acc * base + i) ds.
Proof. intros Hi. unfold digits_value. cbn [fold_left]. by rewrite Hi. Qed.

Lemma wadd_wmul_small a b i : 0 <= a -> 0 < b -> 0 <= i -> a * b + i < W64 ->
  wadd (wmul a b) i = a * b + i.
Proof.
  intros Ha Hb Hi Hlt. assert (0 <= a * b) by nia. unfold wadd, wmul.
  rewrite (wrap64_small (a * b)) by (unfold u64; lia). apply wrap64_small. unfold u64. lia.
Qed.

(** [acc > cutoff || (acc == cutoff && i > cutlim)] detects exactly the steps
    that would exceed the limit. *)
Lemma cutoff_spec base acc i : 2 <= base -> 0 <= acc -> 0 <= i < base ->
  (UINT_MAX / base <? acc) || ((acc =? UINT_MAX / base) && (UINT_MAX mod base <? i)) =
  (UINT_MAX <? acc * base + i).
Proof.
  intros Hb Ha Hi. pose proof (Z.div_mod UINT_MAX base ltac:(lia)) as Hdm.
  pose proof (Z.mod_pos_bound UINT_MAX base ltac:(lia)) as Hm.
  set (q := UINT_MAX / base) in *. set (r := UINT_MAX mod base) in *. clearbody q r.
  destruct (Z.ltb_spec q acc), (Z.eqb_spec acc q), (Z.ltb_spec r i);
    destruct (Z.ltb_spec UINT_MAX (acc * base + i)); cbn; nia.
Qed.

(** The character after the [k]-th one. *)
Lemma digits_loop_spec base ds : forall fuel m c0 c s acc any rest,
  2 <= base -> 0 <= acc <= UINT_MAX -> 0 <= any ->
  Forall (is_digit base) ds -> ~ is_digit base c ->
  bytes_at m s (tail (ds ++ [c]) ++ rest) -> c0 = default c (head ds) ->
  (length ds < fuel)%nat -> digits_value base acc ds <= UINT_MAX ->
  strtoul_digits fuel m base c0 s acc any =
    Done (digits_value base acc ds, if decide (ds = []) then any else 1,
          s + Z.of_nat (length ds)).
Proof.
  induction ds as [| d ds IH]; intros fuel m c0 c s acc any rest Hb Ha Hany Hds Hc Hm -> Hf Hv;
    (destruct fuel as [| fuel]; [cbn in Hf; lia |]);
    cbn [strtoul_digits head default tail app length] in *.
  - cbn. rewrite Z.add_0_r. destruct (digit_of c) as [i |] eqn:Hi; [| done].
    rewrite (proj2 (Z.leb_le base i)); [done |].
    destruct (Z.le_gt_cases base i); [done |]. exfalso. apply Hc. exists i. split; [done | lia].
  - change (id d) with d.
    apply Forall_cons in Hds as [(i & Hi & Hlt) Hds]. rewrite Hi.
    pose proof (digit_of_nonneg _ _ Hi) as Hi0.
    rewrite (proj2 (Z.leb_gt base i)) by lia. rewrite (proj2 (Z.ltb_ge any 0)) by lia.
    cbv zeta. rewrite cutoff_spec by lia.
    rewrite (digits_value_cons _ _ _ _ i Hi) in Hv |- *.
    assert (0 <= acc * base + i) as Hnn by nia.
    pose proof (digits_value_mono base ds (acc * base + i) Hb Hnn Hds) as Hmono.
    rewrite (proj2 (Z.ltb_ge _ _)) by lia.
    assert (exists c1, c1 = default c (head ds) /\ m !! s = Some c1 /\
      bytes_at m (s + 1) (tail (ds ++ [c]) ++ rest)) as (c1 & Hc1 & Hl & Hm').
    { destruct ds as [| d' ds']; cbn in Hm |- *; destruct Hm as [Hm1 Hm2]; eauto. }
    rewrite (load8_Some _ _ _ Hl), Done_bind.
    assert (wadd (wmul acc base) i = acc * base + i) as ->.
    { unfold UINT_MAX in *. apply wadd_wmul_small; lia. }
    rewrite (IH fuel m c1 c (s + 1) (acc * base + i) 1 rest) by (done || lia).
    rewrite (decide_False (P := d :: ds = [])) by done.
    f_equal. f_equal; [| lia]. f_equal. by destruct (decide (ds = [])).
Qed.

(** A run of digits whose value exceeds the limit is cut short there. *)
Lemma digits_loop_overflow base ds : forall fuel m c0 c s acc any rest,
  2 <= base -> 0 <= acc <= UINT_MAX -> 0 <= any ->
  Forall (is_digit base) ds -> bytes_at m s (tail (ds ++ [c]) ++ rest) ->
  c0 = default c (head ds) -> (length ds < fuel)%nat -> UINT_MAX < digits_value base acc ds ->
  exists s', strtoul_digits fuel m base c0 s acc any = Done (UINT_MAX, 0, s').
Proof.
  induction ds as [| d ds IH]; intros fuel m c0 c s acc any rest Hb Ha Hany Hds Hm -> Hf Hv;
    (destruct fuel as [| fuel]; [cbn in Hf; lia |]);
    cbn [strtoul_digits head default tail app length] in *.
  - cbn in Hv. lia.
  - change (id d) with d.
    apply Forall_cons in Hds as [(i & Hi & Hlt) Hds]. rewrite Hi.
    pose proof (digit_of_nonneg _ _ Hi) as Hi0.
    rewrite (proj2 (Z.leb_gt base i)) by lia. rewrite (proj2 (Z.ltb_ge any 0)) by lia.
    cbv zeta. rewrite cutoff_spec by lia. destruct (Z.ltb_spec UINT_MAX (acc * base + i)) as [Hov | Hfit].
    { by eexists. }
    rewrite (digits_value_cons _ _ _ _ i Hi) in Hv.
    assert (exists c1, c1 = default c (head ds) /\ m !! s = Some c1 /\
      bytes_at m (s + 1) (tail (ds ++ [c]) ++ rest)) as (c1 & Hc1 & Hl & Hm').
    { destruct ds as [| d' ds']; cbn in Hm |- *; destruct Hm as [Hm1 Hm2]; eauto. }
    rewrite (load8_Some _ _ _ Hl), Done_bind.
    assert (wadd (wmul acc base) i = acc * base + i) as ->.
    { unfold UINT_MAX in *. apply wadd_wmul_small; lia. }
    apply (IH _ _ _ c _ _ _ rest); try done; try lia; nia.
Qed.

Lemma skip_white_spec ws : forall fuel m p c rest,
  Forall (fun w => is_white w = true) ws -> is_white c = false ->
  bytes_at m p (ws ++ c :: rest) -> (length ws < fuel)%nat ->
  skip_white fuel m p = Done (c, p + Z.of_nat (length ws) + 1).
Proof.
  induction ws as [| w ws IH]; intros fuel m p c rest Hws Hc Hm Hf;
    (destruct fuel as [| fuel]; [cbn in Hf; lia |]); cbn [skip_white app length bytes_at] in *.
  - rewrite (load8_Some _ _ _ (proj1 Hm)), Done_bind, Hc. do 2 f_equal. lia.
  - apply Forall_cons in Hws as [Hw Hws]. destruct Hm as [Hm0 Hm].
    rewrite (load8_Some _ _ _ Hm0), Done_bind, Hw.
    rewrite (IH _ _ _ c rest) by (done || lia). do 2 f_equal. lia.
Qed.

(** ** The whole function

    The text of a number is white space, an optional sign, an optional [0x],
    digits, and a character that is no digit. *)
Definition sign_ok (sgn : list Z) : Prop := sgn = [] \/ sgn = [43] \/ sgn = [45].

Definition effective_base (base : Z) (pre ds : list Z) : Z :=
  if decide (pre = []) then
    if base =? 0 then (if default 0 (head ds) =? 48 then 8 else 10) else base
  else 16.

(** [pre] is what the code takes as a base prefix of the digits [ds]
    followed by [c]. *)
Definition prefix_ok (base : Z) (pre ds : list Z) (c : Z) : Prop :=
  match pre with
  | [] => (base = 0 \/ base = 16) -> ds = [48] -> c <> 120 /\ c <> 88
  | _ => (base = 0 \/ base = 16) /\ (pre = [48; 120] \/ pre = [48; 88])
  end.

Lemma is_digit_not_special base c : is_digit base c ->
  is_white c = false /\ c <> 43 /\ c <> 45.
Proof.
  intros (i & Hi & _). unfold digit_of in Hi. unfold is_white.
  repeat case_match; simplify_eq; lia.
Qed.

Lemma sign_spec m sgn c s rest : sign_ok sgn -> c <> 43 -> c <> 45 ->
  bytes_at m s (tail (sgn ++ [c]) ++ rest) ->
  strtoul_sign m (default c (head sgn)) s =
    Done (bool_decide (sgn = [45]), c, s + Z.of_nat (length sgn)).
Proof.
  intros Hs H1 H2 Hm. unfold strtoul_sign. destruct Hs as [-> | [-> | ->]]; cbn -[Z.eqb] in *.
  - rewrite !(proj2 (Z.eqb_neq _ _)) by done. by rewrite Z.add_0_r.
  - rewrite (load8_Some _ _ _ (proj1 Hm)). done.
  - rewrite (load8_Some _ _ _ (proj1 Hm)). done.
Qed.

Lemma base_spec m base pre d ds c s rest :
  prefix_ok base pre (d :: ds) c -> Forall (is_digit (effective_base base pre (d :: ds))) (d :: ds) ->
  bytes_at m s (tail (pre ++ d :: ds ++ [c]) ++ rest) ->
  strtoul_base m base (default d (head pre)) s =
    Done (effective_base base pre (d :: ds), d, s + Z.of_nat (length pre)).
Proof.
  intros Hp Hds Hm. unfold strtoul_base, effective_base in *. destruct pre as [| p0 pre].
  - cbn [head default length] in *. change (default d (head [])) with d.
    rewrite (decide_True (P := @nil Z = [])) in Hds |- * by done.
    change (default 0 (head (d :: ds))) with d in Hds |- *. cbn [app tail] in Hm.
    assert (((base =? 0) || (base =? 16)) && (d =? 48) = true ->
      exists x, m !! s = Some x /\ (x =? 120) || (x =? 88) = false) as Hx.
    { intros Hc. apply andb_true_iff in Hc as [Hb Hd].
      assert (base = 0 \/ base = 16) as Hb' by lia. apply Z.eqb_eq in Hd as ->.
      destruct ds as [| d2 ds]; cbn in Hm; destruct Hm as [Hm _].
      - exists c. split; [done |]. destruct (Hp Hb' eq_refl). lia.
      - exists d2. split; [done |]. apply Forall_cons in Hds as [_ Hds].
        apply Forall_cons in Hds as [(i & Hi & Hlt) _]. unfold digit_of in Hi.
        destruct Hb' as [-> | ->]; cbn in Hlt; repeat case_match; simplify_eq; lia. }
    change (from_option id d None) with d.
    destruct (((base =? 0) || (base =? 16)) && (d =? 48)) eqn:E.
    + destruct (Hx eq_refl) as (x & Hl & Hne). rewrite (load8_Some _ _ _ Hl), Done_bind, Hne.
      rewrite Done_bind. by rewrite Z.add_0_r.
    + rewrite Done_bind. by rewrite Z.add_0_r.
  - destruct Hp as [Hb Hpre].
    assert (((base =? 0) || (base =? 16)) = true) as Hb' by lia.
    destruct Hpre as [E | E]; injection E as -> ->; cbn -[Z.eqb load8 Z.of_nat] in *;
      rewrite Hb'; cbn [andb Z.eqb Pos.eqb]; destruct Hm as (Hm1 & Hm2 & _);
      rewrite (load8_Some _ _ _ Hm1); cbn -[load8 Z.of_nat];
      rewrite (load8_Some _ _ _ Hm2); cbn -[Z.of_nat]; done.
Qed.

Lemma effective_base_ge base pre ds : base = 0 \/ 2 <= base <= 36 ->
  2 <= effective_base base pre ds.
Proof. intros H. unfold effective_base. repeat case_match; lia. Qed.

Lemma text_head (sgn pre : list Z) (d : Z) ds c rest : exists h t,
  sgn ++ pre ++ (d :: ds) ++ c :: rest = h :: t /\
  h = default (default d (head pre)) (head sgn).
Proof. destruct sgn, pre; cbn; eauto. Qed.

Lemma tail_app_cons {A} (l : list A) x r : tail (l ++ [x]) ++ r = tail (l ++ x :: r).
Proof. destruct l; cbn; [done |]. by rewrite <- app_assoc. Qed.

Lemma strtoul_spec m nptr base ws sgn pre ds c rest :
  base = 0 \/ 2 <= base <= 36 ->
  Forall (fun w => is_white w = true) ws -> sign_ok sgn -> prefix_ok base pre ds c -> ds <> [] ->
  let b := effective_base base pre ds in
  Forall (is_digit b) ds -> ~ is_digit b c ->
  bytes_at m nptr (ws ++ sgn ++ pre ++ ds ++ c :: rest) ->
  let v := digits_value b 0 ds in
  bmk_strtoul m nptr base =
    Done (if UINT_MAX <? v then (UINT_MAX, nptr)
          else (if bool_decide (sgn = [45]) then wneg v else v,
                nptr + Z.of_nat (length (ws ++ sgn ++ pre ++ ds)))).
Proof.
  intros Hbase Hws Hsgn Hpre Hne b Hds Hc Hm v. destruct ds as [| d ds]; [done |].
  pose proof (Forall_inv Hds) as Hd. destruct (is_digit_not_special _ _ Hd) as (Hdw & Hd1 & Hd2).
  pose proof (bytes_at_mapped _ _ _ Hm) as Hsize. apply mapped_size in Hsize.
  rewrite !length_app in Hsize.
  set (h := default d (head pre)).
  assert (is_white h = false /\ h <> 43 /\ h <> 45) as (Hhw & Hh1 & Hh2).
  { subst h. destruct pre as [| p0 pre]; [done |]. destruct Hpre as [_ [E | E]]; injection E as -> ->; done. }
  unfold bmk_strtoul.
  rewrite (proj2 (andb_false_iff _ _)) by (destruct Hbase as [-> | ?]; [by left | right; lia]).
  destruct (text_head sgn pre d ds c rest) as (h0 & t0 & Ht & Hh0). fold h in Hh0.
  pose proof Hm as Hm0. rewrite Ht in Hm0.
  rewrite (skip_white_spec ws _ m nptr h0 t0);
    [| done | subst h0; destruct Hsgn as [-> | [-> | ->]]; done | done | lia].
  rewrite Done_bind. apply bytes_at_app in Hm as [_ Hm].
  set (p := nptr + Z.of_nat (length ws)) in *.
  assert (bytes_at m (p + 1) (tail (sgn ++ pre ++ (d :: ds) ++ c :: rest))) as Hm1.
  { rewrite Ht in *. exact (proj2 Hm). }
  assert (exists t, pre ++ (d :: ds) ++ c :: rest = h :: t) as [t Hpt]
    by (subst h; destruct pre; cbn; eauto).
  rewrite Hh0, (sign_spec m sgn h (p + 1) t), Done_bind; [| done | done | done |].
  2: { rewrite tail_app_cons, <- Hpt. done. }
  set (q := p + 1 + Z.of_nat (length sgn)).
  assert (bytes_at m q (tail (pre ++ (d :: ds) ++ c :: rest))) as Hm2.
  { subst q. destruct sgn as [| x sgn]; cbn [app tail] in Hm1.
    - by rewrite Z.add_0_r.
    - apply bytes_at_app in Hm1 as [_ Hm1]. change (d :: ds ++ c :: rest) with ((d :: ds) ++ c :: rest) in Hm1. rewrite Hpt in Hm1 |- *. destruct Hm1 as [_ Hm1].
      cbn [length tail]. by replace (p + 1 + Z.of_nat (S (length sgn))) with (p + 1 + Z.of_nat (length sgn) + 1) by lia. }
  unfold h. rewrite (base_spec m base pre d ds c q rest), Done_bind; [| done | done |].
  2: { cbn [app] in Hm2. rewrite <- tail_app_cons in Hm2. rewrite app_comm_cons.
       rewrite app_assoc, tail_app_cons, <- app_assoc. rewrite tail_app_cons in Hm2. exact Hm2. }
  fold b. set (r := q + Z.of_nat (length pre)).
  assert (bytes_at m r (tail ((d :: ds) ++ [c]) ++ rest)) as Hm3.
  { rewrite tail_app_cons. subst r. destruct pre as [| x pre]; cbn [app tail length] in *.
    - by rewrite Z.add_0_r.
    - apply bytes_at_app in Hm2 as [_ [_ Hm2]].
      by replace (q + Z.of_nat (S (length pre))) with (q + Z.of_nat (length pre) + 1) by lia. }
  pose proof (effective_base_ge base pre (d :: ds) Hbase) as Hb2. fold b in Hb2.
  destruct (Z.ltb_spec UINT_MAX v) as [Hov | Hfit].
  - destruct (digits_loop_overflow b (d :: ds) (S (size m)) m d c r 0 0 rest) as [s' Hs'];
      [done | done | done | done | done | done | cbn in *; lia | done |].
    rewrite Hs', Done_bind. by rewrite andb_false_r.
  - rewrite (digits_loop_spec b (d :: ds) (S (size m)) m d c r 0 0 rest), Done_bind;
      [| done | done | done | done | done | done | done | cbn in *; lia | done].
    rewrite (decide_False (P := d :: ds = [])) by done. fold v.
    rewrite andb_true_r. f_equal. f_equal. cbn [Z.eqb]. rewrite !length_app.
    unfold r, q, p. lia.
Qed.
