(* ===== verification/StringThms.v ===== *)
(** * Properties of the string routines and of [bmk_strtoul] *)

From S2P Require Import Prelude Mem Cstring Strtoul.

Lemma schar_inj x y : byte x -> byte y -> schar x = schar y -> x = y.
Proof. unfold byte, schar. intros. repeat case_match; lia. Qed.

Lemma cbyte_byte s i : Forall (fun b => 0 < b < 256) s -> byte (cbyte s i).
Proof.
  intros H. unfold cbyte, byte. destruct (s !! i) as [b |] eqn:E; cbn; [| lia].
  eapply Forall_lookup_1 in H; [| done]. cbn in H. lia.
Qed.

(** Two strings agree at their first difference only if they are equal. *)
Lemma common_diff s : forall t,
  Forall (fun b => 0 < b < 256) s -> Forall (fun b => 0 < b < 256) t ->
  cbyte s (common s t) = cbyte t (common s t) <-> s = t.
Proof.
  unfold cbyte. induction s as [| x s IH]; intros [| y t] Hs Ht; cbn; try done.
  - apply Forall_cons in Ht as [Hy _]. split; [lia | done].
  - apply Forall_cons in Hs as [Hx _]. split; [lia | done].
  - apply Forall_cons in Hs as [Hx Hs]. apply Forall_cons in Ht as [Hy Ht].
    destruct (Z.eqb_spec x y) as [-> | Hne]; cbn; [rewrite IH by done |]; naive_solver.
Qed.

Lemma common_take s : forall t n,
  (common s t < n)%nat -> s <> t -> take n s <> take n t.
Proof.
  induction s as [| x s IH]; intros [| y t] [| n] Hc Hne; cbn in *; try lia; try done.
  destruct (Z.eqb_spec x y) as [-> | Hxy]; [| naive_solver].
  intros E. injection E as E. apply (IH t n); [lia | naive_solver | done].
Qed.

Lemma common_take_eq s : forall t n, (n <= common s t)%nat -> take n s = take n t.
Proof.
  induction s as [| x s IH]; intros [| y t] [| n] Hc; cbn in *; try lia; try done.
  destruct (Z.eqb_spec x y) as [-> | Hxy]; [| lia]. f_equal. apply IH. lia.
Qed.

Lemma common_app p : forall x y s t, x <> y -> common (p ++ x :: s) (p ++ y :: t) = length p.
Proof.
  induction p as [| c p IH]; intros x y s t Hne; cbn.
  - by rewrite (proj2 (Z.eqb_neq x y)).
  - rewrite Z.eqb_refl. by rewrite IH.
Qed.

(** [bmk_strcmp] on two C strings whose first difference is not the last
    byte of the first one: the result is the difference of the (signed)
    characters at the first position where the strings differ, and it is zero
    exactly when the strings are equal.  The scan needs no more steps than
    the memory has bytes. *)
Theorem bmk_strcmp_correct m a b s t :
  cstr_at m a s -> cstr_at m b t -> length s <> S (common s t) ->
  exists r, bmk_strcmp m a b = Done r /\
    r = schar (cbyte s (common s t)) - schar (cbyte t (common s t)) /\
    (r = 0 <-> s = t).
Proof.
  intros Hs Ht Hne. eexists. rewrite (strcmp_spec m a b s t Hs Ht).
  rewrite (proj2 (Nat.eqb_neq _ _) Hne). split; [done |]. split; [done |].
  destruct Hs as [Hs _], Ht as [Ht _]. rewrite <- common_diff by done. split; intros E.
  - apply schar_inj; [by apply cbyte_byte .. | lia].
  - rewrite E. lia.
Qed.

Definition two_strings (s t : string) : mem :=
  mem_write (mem_write ∅ 100 (cstring s)) 200 (cstring t).

Lemma bmk_strcmp_correct_witness :
  exists r, bmk_strcmp (two_strings "abcx" "abd") 100 200 = Done r /\ r = -1.
Proof.
  destruct (bmk_strcmp_correct (two_strings "abcx" "abd") 100 200 (bytes_of "abcx") (bytes_of "abd"))
    as (r & Hr & Hv & _).
  - by apply (bool_decide_unpack _); vm_compute.
  - by apply (bool_decide_unpack _); vm_compute.
  - vm_compute. discriminate.
  - exists r. split; [exact Hr | rewrite Hv; vm_compute; reflexivity].
Defined.

(** When the only difference is the last byte, [bmk_strcmp] reports the
    strings as equal: the loop has already stepped past the mismatch onto the
    terminator of [a], and the correction [if ( *a) { a--; b--; }] does not
    apply there. *)
Theorem bmk_strcmp_last_byte m a b p x y :
  x <> y -> cstr_at m a (p ++ [x]) -> cstr_at m b (p ++ [y]) ->
  bmk_strcmp m a b = Done 0.
Proof.
  intros Hne Hs Ht. rewrite (strcmp_spec m a b _ _ Hs Ht), common_app by done.
  rewrite length_app, Nat.add_1_r, Nat.eqb_refl.
  rewrite (load8_Some m _ (cbyte (p ++ [y]) (S (length p)))).
  - unfold cbyte. rewrite lookup_ge_None_2 by (rewrite length_app; cbn; lia). done.
  - apply cstr_byte; [done |]. rewrite length_app. cbn. lia.
Qed.

Lemma bmk_strcmp_last_byte_witness :
  bmk_strcmp (two_strings "ab" "ac") 100 200 = Done 0.
Proof.
  apply (bmk_strcmp_last_byte _ _ _ (bytes_of "a") 98 99).
  - discriminate.
  - by apply (bool_decide_unpack _); vm_compute.
  - by apply (bool_decide_unpack _); vm_compute.
Defined.

(** [bmk_strncmp] compares at most [n] bytes as unsigned characters: the
    result is zero exactly when the first [n] bytes agree, and otherwise the
    difference at the first position where they differ; [bmk_strlen] returns
    the number of bytes before the terminator. *)
Theorem bmk_strncmp_correct m a b s t n :
  0 <= n -> cstr_at m a s -> cstr_at m b t -> Z.of_nat (length s) < W64 ->
  bmk_strlen m a = Done (Z.of_nat (length s)) /\
  exists r, bmk_strncmp m a b n = Done r /\
    (r = 0 <-> take (Z.to_nat n) s = take (Z.to_nat n) t) /\
    (r <> 0 -> r = cbyte s (common s t) - cbyte t (common s t)).
Proof.
  intros Hn Hs Ht Hw. split; [by apply strlen_spec |].
  eexists. unfold bmk_strncmp. rewrite (strncmp_spec _ m a b s t Hs Ht). split; [done |].
  destruct Hs as [Hs _], Ht as [Ht _]. pose proof (common_diff s t Hs Ht) as Hd.
  destruct (Nat.ltb_spec (common s t) (Z.to_nat n)) as [Hlt | Hge]; [| split; [| done]].
  - split; [| done]. destruct (decide (s = t)) as [-> | Hne].
    + split; [done |]. intros _. lia.
    + split; [intros E; exfalso; apply Hne, Hd; lia | intros E; exfalso].
      by eapply common_take.
  - split; [intros _; by apply common_take_eq | done].
Qed.

Lemma bmk_strncmp_correct_witness :
  exists r, bmk_strncmp (two_strings "dev/sda1" "dev/vda") 100 200 5 = Done r /\ r <> 0.
Proof.
  destruct (bmk_strncmp_correct (two_strings "dev/sda1" "dev/vda") 100 200
    (bytes_of "dev/sda1") (bytes_of "dev/vda") 5) as (_ & r & Hr & Heq & _).
  - lia.
  - by apply (bool_decide_unpack _); vm_compute.
  - by apply (bool_decide_unpack _); vm_compute.
  - reflexivity.
  - exists r. split; [exact Hr |]. intros E. apply Heq in E. discriminate E.
Defined.

(** [bmk_memcpy], [bmk_strcpy] and [bmk_memset] write exactly the bytes
    they should: given a readable source and a writable destination that does
    not start inside the source, the memory afterwards is the old one with the
    source bytes at the destination, and every other byte is unchanged. *)
Theorem bmk_copy_correct m d p l s c n :
  0 <= n ->
  (bytes_at m p l /\ Forall byte l /\ mapped m d (length l) /\ copy_safe d p (length l) ->
     bmk_memcpy m d p (Z.of_nat (length l)) = Done (d, mem_write m d l)) /\
  (cstr_at m p s /\ mapped m d (S (length s)) /\ copy_safe d p (S (length s)) ->
     bmk_strcpy m d p = Done (d, mem_write m d (s ++ [0])) /\
     cstr_at (mem_write m d (s ++ [0])) d s) /\
  (mapped m d (Z.to_nat n) ->
     bmk_memset m d c n = Done (d, mem_write m d (replicate (Z.to_nat n) (c mod 256)))) /\
  (forall a, a < d \/ d + Z.of_nat (length l) <= a -> mem_write m d l !! a = m !! a).
Proof.
  intros Hn. split; [| split; [| split]].
  - intros (Hp & Hl & Hd & Hs). unfold bmk_memcpy. rewrite Nat2Z.id.
    by rewrite (memcpy_spec l).
  - intros (Hp & Hd & Hs). unfold bmk_strcpy.
    rewrite (strcpy_spec s) by (done || (pose proof (cstr_at_size _ _ _ Hp); lia)).
    split; [done |]. split; [apply Hp | apply bytes_at_write].
  - intros Hd. unfold bmk_memset. by rewrite memset_spec.
  - intros a Ha. by apply mem_write_out.
Qed.

Lemma bmk_copy_correct_witness :
  bmk_strcpy (two_strings "rumprun" "0123456789") 200 100 =
    Done (200, mem_write (two_strings "rumprun" "0123456789") 200 (cstring "rumprun")).
Proof.
  destruct (bmk_copy_correct (two_strings "rumprun" "0123456789") 200 100 []
    (bytes_of "rumprun") 0 0) as (_ & H & _); [lia |].
  apply H. split; [by apply (bool_decide_unpack _); vm_compute |]. split.
  - apply (mapped_mono _ _ (length (cstring "0123456789"))); [cbn; lia |].
    apply bytes_at_mapped. by apply (bool_decide_unpack _); vm_compute.
  - right. vm_compute. discriminate.
Defined.

(** [bmk_strncpy] of a string shorter than [n] stores [n + 1] bytes: the
    copying loop leaves without counting the terminator, so the padding loop
    runs once too often.  A string of at least [n] bytes is cut to [n] bytes
    and gets no terminator. *)
Theorem bmk_strncpy_extent m d p s n :
  0 <= n -> cstr_at m p s -> copy_safe d p (S (length s)) -> mapped m d (Z.to_nat n + 1) ->
  let out := if Z.of_nat (length s) <? n
             then s ++ replicate (Z.to_nat (n - Z.of_nat (length s)) + 1) 0
             else take (Z.to_nat n) s in
  bmk_strncpy m d p n = Done (d, mem_write m d out) /\
  Z.of_nat (length out) = if Z.of_nat (length s) <? n then n + 1 else n.
Proof.
  intros Hn Hs Hsafe Hd out. split.
  - apply strncpy_spec; try done. destruct (_ <? _); [done | eapply mapped_mono; [| done]; lia].
  - subst out. destruct (Z.ltb_spec (Z.of_nat (length s)) n).
    + rewrite length_app, length_replicate. lia.
    + rewrite length_take. lia.
Qed.

Lemma bmk_strncpy_extent_witness : exists m',
  bmk_strncpy (two_strings "vif" "XXXXXXXX") 200 100 7 = Done (200, m') /\
  m' !! 207 = Some 0 /\ two_strings "vif" "XXXXXXXX" !! 207 = Some 88.
Proof.
  eexists. split; [| split].
  - apply (bmk_strncpy_extent _ 200 100 (bytes_of "vif") 7).
    + lia.
    + by apply (bool_decide_unpack _); vm_compute.
    + right. vm_compute. discriminate.
    + apply (mapped_mono _ _ (length (cstring "XXXXXXXX"))); [cbn; lia |].
      apply bytes_at_mapped. by apply (bool_decide_unpack _); vm_compute.
  - vm_compute. reflexivity.
  - vm_compute. reflexivity.
Defined.

(** [bmk_memchr] returns the address of the first byte equal to
    [(unsigned char)c] among the [n] bytes at [d], or NULL; [bmk_memrchr]
    returns the last one among the [n] bytes that end at [d] itself. *)
Theorem bmk_memchr_correct m d c l :
  (bytes_at m d l ->
     bmk_memchr m d c (Z.of_nat (length l)) =
       Done ((fun i => d + Z.of_nat i) <$> (fst <$> list_find (eq (c mod 256)) l))) /\
  (bytes_at m (d + 1 - Z.of_nat (length l)) (reverse l) ->
     bmk_memrchr m d c (Z.of_nat (length l)) =
       Done ((fun i => d - Z.of_nat i) <$> (fst <$> list_find (eq (c mod 256)) l))).
Proof.
  unfold bmk_memchr, bmk_memrchr. rewrite Nat2Z.id.
  split; [apply memchr_loop_up | apply memchr_loop_down].
Qed.

Lemma bmk_memchr_correct_witness :
  bmk_memchr (two_strings "a/b/c" "") 100 47 5 = Done (Some 101) /\
  bmk_memrchr (two_strings "a/b/c" "") 104 47 5 = Done (Some 103).
Proof.
  split.
  - apply (proj1 (bmk_memchr_correct (two_strings "a/b/c" "") 100 47 (bytes_of "a/b/c"))).
    by apply (bool_decide_unpack _); vm_compute.
  - apply (proj2 (bmk_memchr_correct (two_strings "a/b/c" "") 104 47 (reverse (bytes_of "a/b/c")))).
    by apply (bool_decide_unpack _); vm_compute.
Defined.

(** C7. [bmk_strtoul] on white space, an optional sign, an optional base
    prefix, at least one digit of the effective base and a terminating
    non-digit: if the value fits [unsigned long] it is returned (negated
    modulo 2^64 after a minus sign) with [*endptr] just after the digits;
    otherwise the result is [ULONG_MAX] and [*endptr] is set back to [nptr].
    Base 0 selects 16 after [0x], 8 after a leading [0] and 10 otherwise. *)
Theorem bmk_strtoul_correct m nptr base ws sgn pre ds c rest :
  base = 0 \/ 2 <= base <= 36 ->
  Forall (fun w => is_white w = true) ws -> sign_ok sgn -> prefix_ok base pre ds c -> ds <> [] ->
  Forall (is_digit (effective_base base pre ds)) ds -> ~ is_digit (effective_base base pre ds) c ->
  bytes_at m nptr (ws ++ sgn ++ pre ++ ds ++ c :: rest) ->
  let v := digits_value (effective_base base pre ds) 0 ds in
  bmk_strtoul m nptr base =
    Done (if UINT_MAX <? v then (UINT_MAX, nptr)
          else (if bool_decide (sgn = [45]) then wneg v else v,
                nptr + Z.of_nat (length (ws ++ sgn ++ pre ++ ds)))).
Proof. intros. by eapply strtoul_spec. Qed.

Lemma bmk_strtoul_correct_witness :
  bmk_strtoul (two_strings "  0x1fG" "") 100 0 = Done (31, 106) /\
  bmk_strtoul (two_strings "18446744073709551616" "") 100 10 = Done (UINT_MAX, 100).
Proof.
  split.
  - apply (bmk_strtoul_correct _ 100 0 [32; 32] [] (bytes_of "0x") (bytes_of "1f") 71 [0]).
    + by left.
    + repeat constructor.
    + by left.
    + split; [by left | left; reflexivity].
    + discriminate.
    + by apply (bool_decide_unpack _); vm_compute.
    + intros H. apply (bool_decide_pack _) in H. vm_compute in H. exact H.
    + by apply (bool_decide_unpack _); vm_compute.
  - apply (bmk_strtoul_correct _ 100 10 [] [] [] (bytes_of "18446744073709551616") 0 []).
    + right; lia.
    + constructor.
    + by left.
    + intros [? | ?]; discriminate.
    + discriminate.
    + by apply (bool_decide_unpack _); vm_compute.
    + intros H. apply (bool_decide_pack _) in H. vm_compute in H. exact H.
    + by apply (bool_decide_unpack _); vm_compute.
Defined.
