(* ===== verification/Memalloc.v ===== *)
(** * The bucket malloc (lib/libbmk_core/memalloc.c)

    The state: the page allocator below (any [PageAllocator]), the free lists
    and counters of the buckets, the allocation headers by their address, and
    the bytes of memory.  A store into memory destroys the headers it
    overlaps ([clobber]), so that the safety of the headers is a theorem and
    not an assumption; the link words that the free lists keep inside free
    blocks count as such stores. *)

From S2P Require Import Prelude Mem Cstring Pgalloc PgGeom PageIface.

Inductive bmk_memwho := BMK_MEMWHO_WIREDBMK | BMK_MEMWHO_RUMPKERN | BMK_MEMWHO_USER.
Global Instance bmk_memwho_eq_dec : EqDecision bmk_memwho.
Proof. solve_decision. Defined.

Record memalloc_hdr := Hdr {
  mh_alignpad : Z;   (* uint32_t *)
  mh_magic : Z;      (* uint16_t *)
  mh_index : Z;      (* uint8_t *)
  mh_who : bmk_memwho;
}.

Definition MAGIC : Z := 239. (* 0xef *)
Definition MINSHIFT : Z := 5.
Definition LOCALBUCKETS : Z := BMK_PCPU_PAGE_SHIFT - MINSHIFT.
Definition MINALIGN : Z := 16.
(** [sizeof(struct memalloc_hdr)] and [sizeof(struct memalloc_freeblk)]. *)
Definition HDRSIZE : Z := 8.
Definition FREEBLKSIZE : Z := 16.

Record mstate (P : Type) := MState {
  m_pages : P;
  freebuckets : list (list Z);
  nmalloc : list Z;
  m_hdrs : gmap Z memalloc_hdr;
  m_ram : mem;
}.
Arguments MState {P} _ _ _ _ _.
Arguments m_pages {P} _.
Arguments freebuckets {P} _.
Arguments nmalloc {P} _.
Arguments m_hdrs {P} _.
Arguments m_ram {P} _.

(** The header at [h] shares a byte with the [n] bytes at [a]. *)
Definition overlaps (a n h : Z) : bool := (a <? h + HDRSIZE) && (h <? a + n).
Definition clobber (a n : Z) (hs : gmap Z memalloc_hdr) : gmap Z memalloc_hdr :=
  filter (fun kv => overlaps a n kv.1 = false) hs.

Section Memalloc.
Context {P : Type} `{!PageAllocator P}.
Implicit Types s : mstate P.

Definition with_pages (p : P) s : mstate P :=
  MState p (freebuckets s) (nmalloc s) (m_hdrs s) (m_ram s).
Definition with_hdrs (h : gmap Z memalloc_hdr) s : mstate P :=
  MState (m_pages s) (freebuckets s) (nmalloc s) h (m_ram s).
Definition with_ram (m : mem) s : mstate P :=
  MState (m_pages s) (freebuckets s) (nmalloc s) (m_hdrs s) m.
Definition with_buckets (f : list (list Z)) s : mstate P :=
  MState (m_pages s) f (nmalloc s) (m_hdrs s) (m_ram s).
Definition with_nmalloc (n : list Z) s : mstate P :=
  MState (m_pages s) (freebuckets s) n (m_hdrs s) (m_ram s).

(** [freebuckets[bucket]] *)
Definition bucket_at s (bucket : Z) : outcome (list Z) :=
  of_option "freebuckets" (freebuckets s !! Z.to_nat bucket).

(** [LIST_INSERT_HEAD(&freebuckets[bucket], frb, entries)] *)
Definition bucket_insert s (bucket frb : Z) : outcome (mstate P) :=
  l ← bucket_at s bucket;
  Done (with_hdrs (clobber frb FREEBLKSIZE (m_hdrs s))
    (with_buckets (<[Z.to_nat bucket := frb :: l]> (freebuckets s)) s)).

(** [while (--nblks) { p += sz; LIST_INSERT_HEAD(...); }], with [n] the value
    of [nblks] after its first decrement. *)
Fixpoint morecore_loop (n : nat) s (bucket p sz : Z) : outcome (mstate P) :=
  match n with
  | O => Done s
  | S n =>
      let p := wadd p sz in
      s ← bucket_insert s bucket p;
      morecore_loop n s bucket p sz
  end.

Definition morecore s (bucket : Z) : outcome (Z * mstate P) :=
  let sz := Z.shiftl 1 (bucket + MINSHIFT) in
  let nblks := BMK_PCPU_PAGE_SIZE / sz in
  _ ← bmk_assert (1 <? nblks) "nblks > 1";
  '(rv, pages) ← page_alloc (m_pages s) 0;
  let s := with_pages pages s in
  if rv =? 0 then Done (0, s)
  else
    s ← morecore_loop (Z.to_nat (nblks - 1)) s bucket rv sz;
    Done (rv, s).

Definition bmk_memalloc_init s : outcome (mstate P) :=
  _ ← bmk_assert (0 <? BMK_PCPU_PAGE_SIZE) "BMK_PCPU_PAGE_SIZE > 0";
  Done (with_buckets (replicate (Z.to_nat LOCALBUCKETS) []) s).

(** [nmalloc[bucket] += d], an [unsigned] counter. *)
Definition nmalloc_add s (bucket d : Z) : outcome (mstate P) :=
  n ← of_option "nmalloc" (nmalloc s !! Z.to_nat bucket);
  Done (with_nmalloc (<[Z.to_nat bucket := wrap32 (n + d)]> (nmalloc s)) s).

Definition bucketalloc s (bucket : Z) : outcome (Z * mstate P) :=
  l ← bucket_at s bucket;
  '(frb, s) ←
    match l with
    | [] => morecore s bucket
    | frb :: l => Done (frb, with_buckets (<[Z.to_nat bucket := l]> (freebuckets s)) s)
    end;
  if frb =? 0 then Done (0, s)
  else s ← nmalloc_add s bucket 1; Done (frb, s).

(** [x & ~(align-1)] with [align] a power of two. *)
Definition roundup (x align : Z) : Z :=
  Z.land (wsub (wadd x align) 1) (wnot (wsub align 1)).

(** The bytes needed with header and alignment, and the bucket for them. *)
Definition memalloc_size (nbytes align : Z) : Z :=
  wadd nbytes (Z.land (wadd HDRSIZE (wsub align 1)) (wnot (wsub align 1))).
Definition memalloc_bucket (allocbytes : Z) : Z :=
  if allocbytes <? Z.shiftl 1 MINSHIFT then 0
  else
    let bucket := 8 * 8 - clzl (Z.shiftr allocbytes MINSHIFT) in
    if Z.land allocbytes (wsub allocbytes 1) =? 0 then bucket - 1 else bucket.

Definition bmk_memalloc s (nbytes align : Z) (who : bmk_memwho) : outcome (Z * mstate P) :=
  if negb (Z.land align (wsub align 1) =? 0) then Done (0, s)
  else
    let align := if align <? MINALIGN then MINALIGN else align in
    _ ← bmk_assert (align <=? Z.shiftl 1 31) "align <= (1UL<<31)";
    let bucket := memalloc_bucket (memalloc_size nbytes align) in
    '(hdr, s) ←
      (if LOCALBUCKETS <=? bucket then
         '(hdr, pages) ← page_alloc (m_pages s) (bucket + MINSHIFT - BMK_PCPU_PAGE_SHIFT);
         Done (hdr, with_pages pages s)
       else bucketalloc s bucket);
    if hdr =? 0 then Done (0, s)
    else
      let rv := roundup (wadd hdr HDRSIZE) align in
      let alignpad := wsub rv hdr in
      let h := wsub rv HDRSIZE in
      Done (rv, with_hdrs (<[h := Hdr (wrap32 alignpad) MAGIC (bucket mod 256) who]>
                             (clobber h HDRSIZE (m_hdrs s))) s).

Definition bmk_xmalloc_bmk s (howmuch : Z) : outcome (Z * mstate P) :=
  '(rv, s) ← bmk_memalloc s howmuch 0 BMK_MEMWHO_WIREDBMK;
  if rv =? 0 then Halt "xmalloc failed" else Done (rv, s).

Definition bmk_memcalloc s (n size : Z) (who : bmk_memwho) : outcome (Z * mstate P) :=
  let tot := wmul n size in
  if negb (size =? 0) && negb (tot / size =? n) then Done (0, s)
  else
    '(v, s) ← bmk_memalloc s tot MINALIGN who;
    if v =? 0 then Done (v, s)
    else
      '(_, ram) ← bmk_memset (m_ram s) v 0 tot;
      Done (v, with_hdrs (clobber v tot (m_hdrs s)) (with_ram ram s)).

(** A pointer without the magic number is reported and ignored; one that
    belongs to another allocator level halts.  The console output of both is
    not part of the state. *)
Definition bmk_memfree s (cp : Z) (who : bmk_memwho) : outcome (mstate P) :=
  if cp =? 0 then Done s
  else
    hdr ← of_option "hdr" (m_hdrs s !! wsub cp HDRSIZE);
    if negb (mh_magic hdr =? MAGIC) then Done s
    else if negb (bool_decide (mh_who hdr = who)) then Halt "bmk_memalloc error"
    else
      let index := mh_index hdr in
      let origp := wsub cp (mh_alignpad hdr) in
      if LOCALBUCKETS <=? index then
        let order := index + MINSHIFT - BMK_PCPU_PAGE_SHIFT in
        pages ← page_free (m_pages s) origp order;
        Done (with_hdrs (clobber origp (order2size order) (m_hdrs s)) (with_pages pages s))
      else
        s ← bucket_insert s index origp;
        nmalloc_add s index (-1).

(** [(1<<(size+MINSHIFT)) - alignpad]: the shift is an [int] one, the
    subtraction is done in [unsigned long]. *)
Definition realloc_room (size alignpad : Z) : outcome Z :=
  if 31 <=? size + MINSHIFT then Undef "1 << 31"
  else Done (wsub (Z.shiftl 1 (size + MINSHIFT)) alignpad).

Definition bmk_memrealloc_user s (cp nbytes : Z) : outcome (Z * mstate P) :=
  if cp =? 0 then bmk_memalloc s nbytes MINALIGN BMK_MEMWHO_USER
  else if nbytes =? 0 then s ← bmk_memfree s cp BMK_MEMWHO_USER; Done (0, s)
  else
    hdr ← of_option "hdr" (m_hdrs s !! wsub cp HDRSIZE);
    room ← realloc_room (mh_index hdr) (mh_alignpad hdr);
    if nbytes <=? room then Done (cp, s)
    else
      '(np, s) ← bmk_memalloc s nbytes 8 BMK_MEMWHO_USER;
      if np =? 0 then Done (0, s)
      else
        '(_, ram) ← bmk_memcpy (m_ram s) np cp room;
        let s := with_hdrs (clobber np room (m_hdrs s)) (with_ram ram s) in
        s ← bmk_memfree s cp BMK_MEMWHO_USER;
        Done (np, s).

(** The totals of the last line of the statistics, in kB: memory in use, and
    memory in the free lists. *)
Definition bmk_memalloc_printstats s : Z * Z :=
  let size (i : nat) := Z.shiftl 1 (Z.of_nat i + MINSHIFT) in
  let totfree := foldl (fun t x => wadd t (wrap32 (x.2 * size x.1))) 0
                   (imap (fun i l => (i, Z.of_nat (length l))) (freebuckets s)) in
  let totused := foldl (fun t x => wadd t (wrap32 (x.2 * size x.1))) 0
                   (imap pair (nmalloc s)) in
  (totused / 1024, totfree / 1024).
End Memalloc.
