(* ===== verification/MemallocInv.v ===== *)
(** * The invariant of the malloc

    Every block the malloc handles, free or handed out, is a pair of an
    address and an order as in [PageIface], with the size [bsize]; the blocks
    of the buckets have negative orders ([bucket - LOCALBUCKETS]).  The
    invariant says that the free blocks and the held small blocks are together
    exactly the slots of the pages obtained for the buckets, and that those
    pages and the held large blocks are what the page allocator handed out. *)

From S2P Require Import Prelude Mem Cstring Pgalloc PgGeom PageIface Memalloc.

(** ** Slots of a page *)

Definition slab_slots (sl : block) : list block :=
  (fun k => (sl.1 + k * bsize sl.2, sl.2)) <$> seqZ 0 (2 ^ (- sl.2)).

Definition small_order (o : Z) : Prop := - LOCALBUCKETS <= o < 0.

Lemma small_order_bounds o : small_order o -> -7 <= o < 0.
Proof. unfold small_order, LOCALBUCKETS, BMK_PCPU_PAGE_SHIFT, MINSHIFT. lia. Qed.

Lemma bsize_ge32 o : -7 <= o -> 32 <= bsize o.
Proof. intros H. unfold bsize. change 32 with (2 ^ 5). apply Z.pow_le_mono_r; lia. Qed.

Lemma slab_total o : small_order o -> 2 ^ (- o) * bsize o = 4096.
Proof.
  intros H%small_order_bounds. unfold bsize. rewrite <- Z.pow_add_r by lia.
  by replace (- o + (o + 12)) with 12 by lia.
Qed.

(** [b] lies inside [c]. *)
Definition inside (c b : block) : Prop := c.1 <= b.1 /\ b.1 + bsize b.2 <= c.1 + bsize c.2.

Lemma slab_slots_inside p o : small_order o -> Forall (inside (p, 0)) (slab_slots (p, o)).
Proof.
  intros H. apply Forall_fmap, Forall_forall. intros k Hk%elem_of_seqZ.
  pose proof (slab_total o H) as Ht. apply small_order_bounds in H.
  pose proof (bsize_ge32 o ltac:(lia)) as Hb. cbn in Hk. unfold inside. cbn. change (bsize 0) with 4096. nia.
Qed.

Lemma separated_app l1 l2 : separated (l1 ++ l2) <->
  separated l1 /\ separated l2 /\ forall b c, b ∈ l1 -> c ∈ l2 -> blocks_disjoint b c.
Proof.
  induction l1 as [| b l1 IH]; cbn.
  - split; [intros H; split; [done |]; split; [done |] | by intros (_ & ? & _)].
    intros b c Hb. by apply elem_of_nil in Hb.
  - rewrite IH, Forall_app, !Forall_forall. setoid_rewrite elem_of_cons. split.
    + intros ([H1 H2] & H3 & H4 & H5). repeat split; try done. intros x c [-> | Hx] Hc; auto.
    + intros ((H1 & H3) & H4 & H5). repeat split; try done; intros; apply H5; auto.
Qed.

Lemma slab_slots_separated p o : small_order o -> separated (slab_slots (p, o)).
Proof.
  intros H%small_order_bounds. pose proof (bsize_ge32 o ltac:(lia)) as Hb. unfold slab_slots. cbn.
  assert (0 <= 2 ^ (- o)) as Hn by (apply Z.pow_nonneg; lia).
  generalize (2 ^ (- o)) Hn. clear Hn. intros n Hn.
  pattern n. apply natlike_ind; [done | clear n Hn; intros n Hn IH | done].
  unfold Z.succ. rewrite seqZ_app by lia. rewrite fmap_app. apply separated_app. split; [done |].
  change (seqZ (0 + n) 1) with [0 + n]. split; [by cbn |].
  intros b c. rewrite !list_elem_of_fmap. intros (j & -> & Hj%elem_of_seqZ) (k & -> & Hk).
  apply list_elem_of_singleton in Hk as ->. left. cbn. nia.
Qed.

(** A block of a separated list may be replaced by separated parts of it. *)
Lemma separated_refine b bs l :
  separated (b :: l) -> separated bs -> Forall (inside b) bs -> separated (bs ++ l).
Proof.
  intros [Hd Hs] Hbs Hin. apply separated_app. repeat split; [done | done |].
  intros x y Hx Hy. eapply Forall_forall in Hin; [| done]. eapply Forall_forall in Hd; [| done].
  unfold inside, blocks_disjoint in *. lia.
Qed.

Lemma separated_slabs slabs l : Forall (fun sl => small_order sl.2) slabs ->
  separated (((fun sl => (sl.1, 0)) <$> slabs) ++ l) -> separated ((slabs ≫= slab_slots) ++ l).
Proof.
  revert l. induction slabs as [| [p o] slabs IH]; intros l Hsm Hs; [done |].
  apply Forall_cons in Hsm as [Ho Hsm]. cbn [fmap list_fmap app] in Hs.
  rewrite bind_cons, <- app_assoc.
  assert (separated (slab_slots (p, o) ++ (((fun sl => (sl.1, 0)) <$> slabs) ++ l))) as H1.
  { eapply separated_refine; [exact Hs | by apply slab_slots_separated | by apply slab_slots_inside]. }
  rewrite app_assoc, (Permutation_app_comm _ (slabs ≫= _)), <- app_assoc.
  apply IH; [done |]. by rewrite app_assoc, (Permutation_app_comm _ (slab_slots _)), <- app_assoc.
Qed.

(** ** The core invariant *)

(** The blocks of the free lists, the first list holding order [k]. *)
Fixpoint free_blks_from (k : Z) (fb : list (list Z)) : list block :=
  match fb with
  | [] => []
  | l :: fb => ((fun a => (a, k)) <$> l) ++ free_blks_from (k + 1) fb
  end.
Definition free_blks : list (list Z) -> list block := free_blks_from (- LOCALBUCKETS).

Definition small (bs : list block) : list block := filter (fun b => b.2 < 0) bs.
Definition large (bs : list block) : list block := filter (fun b => 0 <= b.2) bs.

Lemma free_blks_from_insert fb : forall k i a l, fb !! i = Some l ->
  free_blks_from k (<[i := a :: l]> fb) ≡ₚ (a, k + Z.of_nat i) :: free_blks_from k fb.
Proof.
  induction fb as [| l0 fb IH]; intros k i a l Hi; [by rewrite lookup_nil in Hi |].
  destruct i as [| i]; cbn -[Z.of_nat] in Hi |- *; simplify_eq.
  - by rewrite Z.add_0_r.
  - rewrite (IH (k + 1) i a l Hi), <- Permutation_middle.
    by replace (k + 1 + Z.of_nat i) with (k + Z.of_nat (S i)) by lia.
Qed.

Lemma free_blks_insert fb i a l : fb !! i = Some l ->
  free_blks (<[i := a :: l]> fb) ≡ₚ (a, Z.of_nat i - LOCALBUCKETS) :: free_blks fb.
Proof.
  intros H. replace (Z.of_nat i - LOCALBUCKETS) with (- LOCALBUCKETS + Z.of_nat i) by lia.
  by apply free_blks_from_insert.
Qed.

Lemma free_blks_pop fb i a l : fb !! i = Some (a :: l) ->
  free_blks fb ≡ₚ (a, Z.of_nat i - LOCALBUCKETS) :: free_blks (<[i := l]> fb).
Proof.
  intros H. rewrite <- (free_blks_insert _ i a l).
  - rewrite list_insert_insert_eq, list_insert_id; done.
  - rewrite list_lookup_insert_eq; [done |]. by eapply lookup_lt_Some.
Qed.

Section Core.
Context {P : Type} `{!PageAllocator P}.
Implicit Types s : mstate P.

(** [held] are the blocks taken out of the free lists or the page allocator. *)
Record core s (held : list block) (slabs : list block) : Prop := {
  co_len : length (freebuckets s) = Z.to_nat LOCALBUCKETS;
  co_slabs : Forall (fun sl => small_order sl.2) slabs;
  co_blocks : free_blks (freebuckets s) ++ small held ≡ₚ slabs ≫= slab_slots;
  co_pages : page_inv (m_pages s) (((fun sl => (sl.1, 0)) <$> slabs) ++ large held);
  co_ram : forall a, page_managed (m_pages s) a -> is_Some (m_ram s !! a);
}.

Definition holds s (held : list block) : Prop := exists slabs, core s held slabs.

Lemma small_large (held : list block) : held ≡ₚ small held ++ large held.
Proof.
  unfold small, large. induction held as [| b held IH]; [done |]. rewrite !filter_cons.
  destruct (decide (b.2 < 0)), (decide (0 <= b.2)); try lia; cbn; [by f_equiv |].
  rewrite <- Permutation_middle. by f_equiv.
Qed.

(** Everything the malloc handles is pairwise disjoint. *)
Lemma holds_separated s held : holds s held -> separated (free_blks (freebuckets s) ++ held).
Proof.
  intros (slabs & [_ Hsm Hb Hp _]). rewrite (small_large held), app_assoc, Hb.
  apply separated_slabs; [done |]. by eapply page_inv_separated.
Qed.

Definition block_ok (b : block) : Prop :=
  0 < b.1 /\ - LOCALBUCKETS <= b.2 < FREELIST_LEVELS /\ (bsize b.2 | b.1) /\ b.1 + bsize b.2 < W64.

Lemma slab_slot_ok s held slabs b : core s held slabs -> b ∈ slabs ≫= slab_slots ->
  block_ok b /\ b.2 < 0 /\ forall a, b.1 <= a < b.1 + bsize b.2 -> page_managed (m_pages s) a.
Proof.
  intros [_ Hsm _ Hp _] (sl & Hb & Hsl)%list_elem_of_bind.
  eapply Forall_forall in Hsm; [| done]. destruct sl as [p o]. cbn in Hsm.
  assert ((p, 0) ∈ ((fun sl => (sl.1, 0)) <$> slabs) ++ large held) as Hin.
  { apply elem_of_app. left. apply list_elem_of_fmap. by exists (p, o). }
  destruct (page_inv_block _ _ _ _ Hp Hin) as (Hpos & _ & Hal & Hend).
  pose proof (slab_slots_inside p o Hsm) as Hins. eapply Forall_forall in Hins; [| done].
  apply list_elem_of_fmap in Hb as (k & -> & Hk%elem_of_seqZ). unfold inside in Hins. cbn in *.
  change (bsize 0) with 4096 in *. pose proof (small_order_bounds o Hsm).
  pose proof (bsize_ge32 o ltac:(lia)). split; [| split].
  - unfold block_ok. cbn. repeat split; try (unfold small_order, FREELIST_LEVELS, BMK_PCPU_PAGE_SHIFT in *; nia).
    apply Z.divide_add_r; [| apply Z.divide_factor_r].
    etrans; [| exact Hal]. exists (2 ^ (- o)). symmetry. by apply slab_total.
  - lia.
  - intros a Ha. eapply page_inv_managed; [exact Hp | exact Hin |].
    change (bsize 0) with 4096. nia.
Qed.

Lemma holds_block_ok s held b : holds s held -> b ∈ free_blks (freebuckets s) ++ held ->
  block_ok b /\ forall a, b.1 <= a < b.1 + bsize b.2 -> page_managed (m_pages s) a.
Proof.
  intros (slabs & Hc) Hb. rewrite (small_large held), app_assoc in Hb.
  apply elem_of_app in Hb as [Hb | Hb].
  - rewrite (co_blocks _ _ _ Hc) in Hb.
    destruct (slab_slot_ok _ _ _ _ Hc Hb) as (? & _ & ?). done.
  - assert (b ∈ ((fun sl => (sl.1, 0)) <$> slabs) ++ large held) as Hin
      by (apply elem_of_app; by right).
    destruct b as [p o]. pose proof (co_pages _ _ _ Hc) as Hp.
    destruct (page_inv_block _ _ _ _ Hp Hin) as (? & ? & ? & ?). split.
    + unfold block_ok, LOCALBUCKETS, BMK_PCPU_PAGE_SHIFT, MINSHIFT in *. cbn in *. repeat split; lia || done.
    + intros a. by apply (page_inv_managed _ _ _ _ _ Hp).
Qed.

(** The headers inside the block [b] are the same in both maps. *)
Definition same_hdrs (h h' : gmap Z memalloc_hdr) (b : block) : Prop :=
  forall a, b.1 <= a -> a + HDRSIZE <= b.1 + bsize b.2 -> h' !! a = h !! a.

Lemma clobber_lookup a n hs h : overlaps a n h = false -> clobber a n hs !! h = hs !! h.
Proof.
  intros H. unfold clobber. destruct (hs !! h) as [x |] eqn:E.
  - by apply map_lookup_filter_Some.
  - apply map_lookup_filter_None. by left.
Qed.

Lemma clobber_same c n hs b : c.1 <= n -> forall len, n + len <= c.1 + bsize c.2 ->
  blocks_disjoint c b -> same_hdrs hs (clobber n len hs) b.
Proof.
  intros H1 len H2 Hd a Ha1 Ha2. apply clobber_lookup.
  unfold overlaps, blocks_disjoint, HDRSIZE in *. lia.
Qed.

(** ** Moving blocks between the free lists and their holders *)

Lemma bucket_index o : small_order o -> Z.of_nat (Z.to_nat (o + LOCALBUCKETS)) - LOCALBUCKETS = o.
Proof. unfold small_order, LOCALBUCKETS, BMK_PCPU_PAGE_SHIFT, MINSHIFT. lia. Qed.

Lemma bucket_list s held o : holds s held -> small_order o ->
  exists l, freebuckets s !! Z.to_nat (o + LOCALBUCKETS) = Some l.
Proof.
  intros (slabs & Hc) Ho. apply lookup_lt_is_Some_2. rewrite (co_len _ _ _ Hc).
  unfold small_order, LOCALBUCKETS, BMK_PCPU_PAGE_SHIFT, MINSHIFT in *. lia.
Qed.

Lemma holds_pop s held o frb l : holds s held -> small_order o ->
  freebuckets s !! Z.to_nat (o + LOCALBUCKETS) = Some (frb :: l) ->
  holds (with_buckets (<[Z.to_nat (o + LOCALBUCKETS) := l]> (freebuckets s)) s) ((frb, o) :: held).
Proof.
  intros (slabs & [Hlen Hsm Hb Hp Hr]) Ho Hl. exists slabs. split; cbn -[small large]; try done.
  - by rewrite length_insert.
  - unfold small. rewrite filter_cons_True by (cbn; unfold small_order in Ho; lia).
    rewrite <- Permutation_middle, <- Hb. rewrite (free_blks_pop _ _ _ _ Hl).
    by rewrite bucket_index.
  - unfold large. rewrite filter_cons_False; [done |]. cbn. unfold small_order in Ho. lia.
Qed.

Lemma bucket_insert_holds s held frb o : holds s ((frb, o) :: held) -> small_order o ->
  exists s', bucket_insert s (o + LOCALBUCKETS) frb = Done s' /\ holds s' held /\
    m_ram s' = m_ram s /\ m_pages s' = m_pages s /\ nmalloc s' = nmalloc s /\
    m_hdrs s' = clobber frb FREEBLKSIZE (m_hdrs s).
Proof.
  intros Hh Ho. destruct (bucket_list _ _ _ Hh Ho) as [l Hl].
  unfold bucket_insert, bucket_at. rewrite Hl. cbn. eexists. split; [done |].
  split; [| done]. destruct Hh as (slabs & [Hlen Hsm Hb Hp Hr]). exists slabs. split; cbn -[small large]; try done.
  - by rewrite length_insert.
  - rewrite (free_blks_insert _ _ _ _ Hl), bucket_index by done. rewrite <- Hb.
    unfold small. rewrite (filter_cons_True _ (frb, o)) by (cbn; unfold small_order in Ho; lia).
    by rewrite <- Permutation_middle.
  - unfold large in *. rewrite filter_cons_False in Hp; [done |]. cbn. unfold small_order in Ho. lia.
Qed.

(** Inserting the blocks of a list one after the other, as [morecore] does
    for the blocks [p + sz], [p + 2 sz], ... *)
Fixpoint slots_after (n : nat) (p o : Z) : list block :=
  match n with
  | O => []
  | S n => (p + bsize o, o) :: slots_after n (p + bsize o) o
  end.

Lemma slots_after_seqZ n : forall p o,
  (p, o) :: slots_after n p o = (fun k => (p + k * bsize o, o)) <$> seqZ 0 (Z.of_nat n + 1).
Proof.
  induction n as [| n IH]; intros p o.
  - change (seqZ 0 (Z.of_nat 0 + 1)) with [0]. cbn [fmap list_fmap slots_after].
    do 2 f_equal. lia.
  - cbn [slots_after]. rewrite IH. rewrite (seqZ_cons 0 (Z.of_nat (S n) + 1)) by lia. cbn [fmap list_fmap].
    rewrite Z.mul_0_l, Z.add_0_r. f_equal. replace (Z.pred (Z.of_nat (S n) + 1)) with (Z.of_nat n + 1) by lia.
    change (Z.succ 0) with (0 + 1). rewrite <- (fmap_add_seqZ 1 0), <- list_fmap_compose.
    apply list_fmap_ext. intros i k _. cbn -[Z.add Z.mul]. f_equal. lia.
Qed.

Lemma morecore_loop_holds n : forall s held p o,
  holds s (slots_after n p o ++ held) -> small_order o -> 0 <= p ->
  exists s', morecore_loop n s (o + LOCALBUCKETS) p (bsize o) = Done s' /\ holds s' held /\
    m_ram s' = m_ram s /\ m_pages s' = m_pages s /\ nmalloc s' = nmalloc s /\
    forall b, Forall (fun c => blocks_disjoint c b) (slots_after n p o) ->
      same_hdrs (m_hdrs s) (m_hdrs s') b.
Proof.
  induction n as [| n IH]; intros s held p o Hh Ho Hp; cbn [morecore_loop slots_after] in *.
  - exists s. by repeat split.
  - pose proof (small_order_bounds o Ho). pose proof (bsize_ge32 o ltac:(lia)) as Hb.
    destruct (holds_block_ok _ _ (p + bsize o, o) Hh) as [(_ & _ & _ & Hend) _]; [set_solver |].
    cbn in Hend. cbv zeta. rewrite wadd_small by (unfold u64; lia).
    destruct (bucket_insert_holds s _ _ _ Hh Ho) as (s1 & -> & Hh1 & R1 & P1 & N1 & E1).
    rewrite Done_bind.
    destruct (IH s1 held (p + bsize o) o Hh1 Ho ltac:(lia)) as (s2 & -> & Hh2 & R2 & P2 & N2 & E2).
    exists s2. split; [done |]. split; [done |]. repeat split; try congruence.
    intros b Hd. apply Forall_cons in Hd as [Hd1 Hd2]. intros a Ha1 Ha2.
    rewrite (E2 b Hd2 a Ha1 Ha2), E1.
    apply (clobber_same (p + bsize o, o) _ _ b); cbn; try done; unfold FREEBLKSIZE; lia.
Qed.

Lemma morecore_nblks o : small_order o ->
  Z.shiftl 1 (o + LOCALBUCKETS + MINSHIFT) = bsize o /\ BMK_PCPU_PAGE_SIZE / bsize o = 2 ^ (- o).
Proof.
  intros Ho. rewrite Z.shiftl_1_l. split.
  - unfold bsize, LOCALBUCKETS, BMK_PCPU_PAGE_SHIFT, MINSHIFT. f_equal. lia.
  - pose proof (small_order_bounds o Ho). pose proof (bsize_ge32 o ltac:(lia)).
    change BMK_PCPU_PAGE_SIZE with 4096. rewrite <- (slab_total o Ho). apply Z.div_mul. lia.
Qed.

(** The block a caller gets is the result of an operation that either gave
    nothing and changed nothing, or took the block. *)
Definition took s s' (held : list block) (p o : Z) : Prop :=
  holds s' ((p, o) :: held) /\ m_ram s' = m_ram s /\
  Forall (same_hdrs (m_hdrs s) (m_hdrs s')) held.

Lemma holds_page_alloc s held o : holds s held -> 0 <= o < FREELIST_LEVELS ->
  exists p pages, page_alloc (m_pages s) o = Done (p, pages) /\
    (p = 0 /\ pages = m_pages s \/ p <> 0 /\ holds (with_pages pages s) ((p, o) :: held)).
Proof.
  intros (slabs & [Hlen Hsm Hb Hp Hr]) Ho.
  destruct (page_alloc_ok _ _ o Hp Ho) as (p & pages & -> & Hm & H). exists p, pages.
  split; [done |]. destruct H as [? | [Hne H]]; [by left | right]. split; [done |].
  exists slabs. split; cbn -[small large]; try done.
  - unfold small. rewrite filter_cons_False; [done |]. cbn. lia.
  - unfold large. rewrite filter_cons_True by (cbn; lia).
    eapply page_inv_perm; [| exact H]. by rewrite <- Permutation_middle.
  - intros a Ha. apply Hr, Hm, Ha.
Qed.

(** A page taken for a bucket becomes the slots of that bucket. *)
Lemma holds_split_page s held p o : holds s ((p, 0) :: held) -> small_order o ->
  holds s (slab_slots (p, o) ++ held).
Proof.
  intros (slabs & [Hlen Hsm Hb Hp Hr]) Ho. exists ((p, o) :: slabs).
  assert (small (slab_slots (p, o)) = slab_slots (p, o) /\ large (slab_slots (p, o)) = []) as [E1 E2].
  { unfold small, large, slab_slots, small_order in *. cbn in *. split.
    - apply filter_all, Forall_forall. intros b (k & -> & _)%list_elem_of_fmap. cbn. lia.
    - apply filter_none, Forall_forall. intros b (k & -> & _)%list_elem_of_fmap. cbn. lia. }
  split; try done; unfold small, large in *.
  - by constructor.
  - rewrite filter_app, E1, bind_cons, <- Hb. rewrite filter_cons_False by (cbn; lia).
    rewrite !app_assoc. f_equiv. apply Permutation_app_comm.
  - rewrite filter_app, E2. rewrite filter_cons_True in Hp by (cbn; lia).
    eapply page_inv_perm; [| exact Hp]. cbn. by rewrite <- Permutation_middle.
Qed.
End Core.
