(* ===== verification/MemallocProps.v ===== *)
(** * Correctness of the malloc

    The specifications of the operations of memalloc.c against the interface
    of the page allocator: what [bmk_memalloc] returns, what [bmk_memfree]
    restores, and that [bmk_memcalloc] and [bmk_memrealloc_user] keep the
    contents they should. *)

From S2P Require Import Prelude Mem Cstring Pgalloc PgGeom PageIface Memalloc MemallocInv.

(** An allocation: its block, the distance of the pointer from the start of
    the block, and the request. *)
Record alloc := Alloc {
  al_blk : block;
  al_pad : Z;
  al_bytes : Z;
  al_who : bmk_memwho;
}.
Definition al_ptr (a : alloc) : Z := (al_blk a).1 + al_pad a.

Definition alloc_ok (a : alloc) : Prop :=
  (exists k, 4 <= k <= 31 /\ al_pad a = 2 ^ k) /\ 0 <= al_bytes a /\
  al_pad a + al_bytes a <= bsize (al_blk a).2.

Definition hdr_of (a : alloc) : memalloc_hdr :=
  Hdr (al_pad a) MAGIC ((al_blk a).2 + LOCALBUCKETS) (al_who a).

Lemma alloc_pad_bounds a : alloc_ok a -> 16 <= al_pad a <= 2 ^ 31.
Proof.
  intros ((k & Hk & ->) & _). split.
  - change 16 with (2 ^ 4). apply Z.pow_le_mono_r; lia.
  - apply Z.pow_le_mono_r; lia.
Qed.

(** ** Sizes *)

Lemma pow2_split k : 0 <= k <= 63 -> 0 < 2 ^ k < W64.
Proof.
  intros H. split; [apply Z.pow_pos_nonneg; lia |]. unfold W64. apply Z.pow_lt_mono_r; lia.
Qed.

(** Rounding up past the header from a multiple of the alignment. *)
Lemma roundup_hdr p k : 4 <= k <= 31 -> (2 ^ k | p) -> 0 <= p -> p + 2 ^ k < W64 ->
  roundup (wadd p HDRSIZE) (2 ^ k) = p + 2 ^ k.
Proof.
  intros Hk [q ->] Hp Hlt. pose proof (pow2_split k ltac:(lia)).
  assert (16 <= 2 ^ k) by (change 16 with (2 ^ 4); apply Z.pow_le_mono_r; lia).
  assert (W64 = 2 ^ (64 - k) * 2 ^ k) as EW by (rewrite <- Z.pow_add_r by lia; f_equal; lia).
  assert (q * 2 ^ k + 2 ^ k + 2 ^ k <= W64) as Hend.
  { rewrite EW in *. assert (q + 1 < 2 ^ (64 - k)) by nia. nia. }
  clear EW.
  unfold roundup. rewrite (wadd_small _ HDRSIZE) by (unfold u64, HDRSIZE; lia).
  rewrite wadd_small by (unfold u64, HDRSIZE; lia).
  rewrite !wsub_small by (unfold u64, HDRSIZE; lia).
  rewrite land_wnot_ones by (unfold u64, HDRSIZE; lia).
  replace (q * 2 ^ k + HDRSIZE + 2 ^ k - 1) with ((HDRSIZE - 1) + (q + 1) * 2 ^ k) by lia.
  rewrite Z.mod_add by lia. rewrite Z.mod_small by (unfold HDRSIZE; lia). lia.
Qed.

Lemma memalloc_size_spec nbytes k : 4 <= k <= 31 -> 0 <= nbytes -> nbytes + 2 ^ k < W64 ->
  memalloc_size nbytes (2 ^ k) = nbytes + 2 ^ k.
Proof.
  intros Hk Hn Hend. pose proof (pow2_split k ltac:(lia)).
  assert (16 <= 2 ^ k) by (change 16 with (2 ^ 4); apply Z.pow_le_mono_r; lia).
  assert (2 ^ k <= 2 ^ 31) by (apply Z.pow_le_mono_r; lia).
  unfold memalloc_size. rewrite wsub_small by (unfold u64; lia).
  rewrite (wadd_small HDRSIZE) by (unfold u64, HDRSIZE, W64; lia).
  rewrite land_wnot_ones by (unfold u64, HDRSIZE, W64; lia).
  replace (HDRSIZE + (2 ^ k - 1)) with ((HDRSIZE - 1) + 1 * 2 ^ k) by lia.
  rewrite Z.mod_add by lia. rewrite Z.mod_small by (unfold HDRSIZE; lia).
  rewrite wadd_small by (unfold u64; lia). lia.
Qed.

(** The chosen bucket is the smallest that is large enough. *)
Lemma memalloc_bucket_spec ab : 0 < ab <= 2 ^ 63 ->
  let b := memalloc_bucket ab in
  0 <= b <= 58 /\ ab <= 2 ^ (b + 5) /\ (b = 0 \/ 2 ^ (b + 4) < ab).
Proof.
  intros Hab. unfold memalloc_bucket, MINSHIFT. change (Z.shiftl 1 5) with 32.
  destruct (Z.ltb_spec ab 32) as [Hlt | Hge].
  { cbn. split; [lia |]. split; [lia | by left]. }
  unfold clzl. rewrite Z.log2_shiftr by lia.
  assert (5 <= Z.log2 ab <= 63) as Hl.
  { rewrite <- (Z.log2_pow2 5), <- (Z.log2_pow2 63) at 1 by lia.
    split; apply Z.log2_le_mono; lia. }
  rewrite Z.max_r by lia. pose proof (Z.log2_spec ab ltac:(lia)) as [Hlo Hhi].
  rewrite wsub_small by (unfold u64, W64; lia).
  pose proof (land_pred_pow2 ab ltac:(lia)) as Hpow.
  destruct (Z.eqb_spec (Z.land ab (ab - 1)) 0) as [E | E]; cbv zeta.
  - apply Hpow in E. replace (8 * 8 - (63 - (Z.log2 ab - 5)) - 1 + 5) with (Z.log2 ab) by lia.
    replace (8 * 8 - (63 - (Z.log2 ab - 5)) - 1 + 4) with (Z.log2 ab - 1) by lia.
    split; [lia |]. split; [lia |]. right. rewrite E at 2. apply Z.pow_lt_mono_r; lia.
  - assert (2 ^ Z.log2 ab < ab) by (assert (ab <> 2 ^ Z.log2 ab) by (intros ?; apply E; by apply Hpow); lia).
    assert (Z.log2 ab < 63).
    { destruct (Z.eq_dec (Z.log2 ab) 63) as [E63 | ?]; [| lia]. rewrite E63 in *. lia. }
    replace (8 * 8 - (63 - (Z.log2 ab - 5)) + 5) with (Z.succ (Z.log2 ab)) by lia.
    replace (8 * 8 - (63 - (Z.log2 ab - 5)) + 4) with (Z.log2 ab) by lia.
    split; [lia |]. split; [lia | by right].
Qed.

Section Props.
Context {P : Type} `{!PageAllocator P}.
Implicit Types s : mstate P.

Lemma with_pages_id s : with_pages (m_pages s) s = s.
Proof. by destruct s. Qed.

Lemma small_order_bucket o : small_order o -> o + LOCALBUCKETS < LOCALBUCKETS.
Proof. unfold small_order. lia. Qed.

(** ** Taking a block *)

Lemma morecore_spec s held o : holds s held -> small_order o ->
  exists rv s', morecore s (o + LOCALBUCKETS) = Done (rv, s') /\ nmalloc s' = nmalloc s /\
    (rv = 0 /\ s' = s \/ rv <> 0 /\ took s s' held rv o).
Proof.
  intros Hh Ho. pose proof (small_order_bounds o Ho). destruct (morecore_nblks o Ho) as [E1 E2].
  unfold morecore. rewrite E1, E2.
  assert (1 < 2 ^ (- o)) as Hn by (apply Z.pow_gt_1; lia).
  rewrite (proj2 (Z.ltb_lt _ _) Hn). rewrite bmk_assert_true, Done_bind.
  destruct (holds_page_alloc s held 0 Hh) as (p & pages & -> & H1); [done |].
  rewrite Done_bind. destruct H1 as [[-> ->] | [Hne Hh1]].
  { rewrite with_pages_id. eexists _, _. split; [done |]. split; [done | by left]. }
  rewrite (proj2 (Z.eqb_neq p 0)) by done.
  destruct (holds_block_ok _ _ (p, 0) Hh1) as [(Hpos & _) _]; [set_solver |]. cbn in Hpos.
  pose proof (holds_separated _ _ Hh1) as Hsep. apply separated_app in Hsep as (_ & Hsep & _).
  pose proof (holds_split_page _ _ _ o Hh1 Ho) as Hh2.
  assert (slab_slots (p, o) = (p, o) :: slots_after (Z.to_nat (2 ^ (- o) - 1)) p o) as Es.
  { rewrite slots_after_seqZ. unfold slab_slots. cbn. do 2 f_equal. lia. }
  rewrite Es in Hh2. cbn [app] in Hh2.
  assert (holds (with_pages pages s) (slots_after (Z.to_nat (2 ^ (- o) - 1)) p o ++ (p, o) :: held)) as Hh3.
  { destruct Hh2 as (slabs & [? ? Hb Hp ?]). exists slabs. split; try done.
    - rewrite <- Hb. f_equiv. apply filter_Permutation. by rewrite <- Permutation_middle.
    - eapply page_inv_perm; [| exact Hp]. f_equiv. apply filter_Permutation. by rewrite <- Permutation_middle. }
  destruct (morecore_loop_holds _ _ _ _ _ Hh3 Ho ltac:(lia)) as (s' & -> & Hh4 & R & _ & N & Hs).
  rewrite Done_bind. exists p, s'. split; [done |]. split; [done |]. right. split; [done |].
  split; [done |]. split; [done |]. apply Forall_forall. intros b Hb. apply Hs.
  pose proof (slab_slots_inside p o Ho) as Hin. rewrite Es in Hin. apply Forall_cons in Hin as [_ Hin].
  eapply Forall_impl; [exact Hin |]. intros c Hc. pose proof (separated_elem _ _ Hsep b Hb) as Hd.
  unfold inside, blocks_disjoint in *. lia.
Qed.

Lemma bucketalloc_spec s held o : holds s held -> small_order o ->
  length (nmalloc s) = Z.to_nat LOCALBUCKETS ->
  exists rv s', bucketalloc s (o + LOCALBUCKETS) = Done (rv, s') /\
    (rv = 0 /\ s' = s \/
     rv <> 0 /\ took s s' held rv o /\
     exists n, nmalloc s !! Z.to_nat (o + LOCALBUCKETS) = Some n /\
       nmalloc s' = <[Z.to_nat (o + LOCALBUCKETS) := wrap32 (n + 1)]> (nmalloc s)).
Proof.
  intros Hh Ho Hlen. destruct (bucket_list _ _ _ Hh Ho) as [l Hl].
  assert (exists n, nmalloc s !! Z.to_nat (o + LOCALBUCKETS) = Some n) as [n Hn].
  { apply lookup_lt_is_Some_2. rewrite Hlen.
    unfold small_order, LOCALBUCKETS, BMK_PCPU_PAGE_SHIFT, MINSHIFT in *. lia. }
  unfold bucketalloc, bucket_at. rewrite Hl, of_option_Some, Done_bind.
  assert (exists rv s', (match l with
      | [] => morecore s (o + LOCALBUCKETS)
      | frb :: l => Done (frb, with_buckets (<[Z.to_nat (o + LOCALBUCKETS) := l]> (freebuckets s)) s)
      end) = Done (rv, s') /\ nmalloc s' = nmalloc s /\
      (rv = 0 /\ s' = s \/ rv <> 0 /\ took s s' held rv o)) as (rv & s' & -> & N & H).
  { destruct l as [| frb l]; [by apply morecore_spec |].
    pose proof (holds_pop s held o frb l Hh Ho Hl) as Hh'. eexists _, _. split; [done |]. split; [done |].
    right. destruct (holds_block_ok _ _ (frb, o) Hh') as [(Hpos & _) _]; [set_solver |].
    cbn in Hpos. split; [lia |]. split; [done |]. split; [done |].
    apply Forall_forall. intros b _ a _ _. done. }
  rewrite Done_bind. destruct H as [[-> ->] | [Hne Ht]].
  { eexists _, _. split; [done |]. by left. }
  rewrite (proj2 (Z.eqb_neq rv 0)) by done. unfold nmalloc_add. rewrite N, Hn, of_option_Some, !Done_bind.
  eexists _, _. split; [done |]. right. split; [done |]. split; [| by exists n].
  destruct Ht as ((slabs & []) & ? & ?). split; [by exists slabs | done].
Qed.

(** ** The invariant with the live allocations *)

Definition bucket_count (i : nat) (live : list alloc) : Z :=
  Z.of_nat (length (filter (fun a => (al_blk a).2 = Z.of_nat i - LOCALBUCKETS) live)).

Record mem_inv s (live : list alloc) : Prop := {
  mi_holds : holds s (al_blk <$> live);
  mi_ok : Forall alloc_ok live;
  mi_hdrs : Forall (fun a => m_hdrs s !! (al_ptr a - HDRSIZE) = Some (hdr_of a)) live;
  mi_len : length (nmalloc s) = Z.to_nat LOCALBUCKETS;
  mi_count : forall i n, nmalloc s !! i = Some n -> n = wrap32 (bucket_count i live);
}.

Lemma mem_inv_perm s l1 l2 : l1 ≡ₚ l2 -> mem_inv s l1 -> mem_inv s l2.
Proof.
  intros Hp [(slabs & [? ? Hb Hpg ?]) Hok Hh Hl Hc]. split; [| by rewrite <- Hp | by rewrite <- Hp | done |].
  - exists slabs. split; try done.
    + rewrite <- Hb. f_equiv. apply filter_Permutation. by rewrite Hp.
    + eapply page_inv_perm; [| exact Hpg]. f_equiv. apply filter_Permutation. by rewrite Hp.
  - intros i n Hn. rewrite (Hc i n Hn). unfold bucket_count. do 2 f_equal.
    apply Permutation_length, filter_Permutation, Hp.
Qed.

(** The header of an allocation lies inside its block. *)
Lemma hdr_inside a : alloc_ok a -> (al_blk a).1 <= al_ptr a - HDRSIZE /\
  al_ptr a - HDRSIZE + HDRSIZE <= (al_blk a).1 + bsize (al_blk a).2.
Proof.
  intros Ha. pose proof (alloc_pad_bounds a Ha). destruct Ha as (_ & ? & ?).
  unfold al_ptr, HDRSIZE. lia.
Qed.

(** The block of a new allocation, with its header in place. *)
Lemma mem_inv_new s s' live a :
  mem_inv s live -> took s s' (al_blk <$> live) (al_blk a).1 (al_blk a).2 -> alloc_ok a ->
  length (nmalloc s') = Z.to_nat LOCALBUCKETS ->
  (forall i n, nmalloc s' !! i = Some n -> n = wrap32 (bucket_count i (a :: live))) ->
  mem_inv (with_hdrs (<[al_ptr a - HDRSIZE := hdr_of a]>
    (clobber (al_ptr a - HDRSIZE) HDRSIZE (m_hdrs s'))) s') (a :: live).
Proof.
  intros [Hh Hok Hhd Hlen Hc] ((slabs & Hcore) & R & Hs) Ha Hlen' Hc'.
  destruct (hdr_inside a Ha) as [Hi1 Hi2].
  assert (separated ((al_blk a) :: (al_blk <$> live))) as [Hsep _].
  { assert (holds s' ((al_blk a) :: (al_blk <$> live))) as Hh' by (exists slabs; by destruct (al_blk a)).
    apply holds_separated, separated_app in Hh' as (_ & ? & _). done. }
  split; cbn [m_hdrs nmalloc with_hdrs]; try done.
  - exists slabs. destruct Hcore. destruct (al_blk a) as [p o] eqn:E. split; cbn -[small large]; rewrite ?E; done.
  - by constructor.
  - constructor; [apply lookup_insert_eq |]. apply Forall_forall. intros b Hb.
    assert (al_blk b ∈ al_blk <$> live) as Hbl by (apply list_elem_of_fmap; by exists b).
    eapply Forall_forall in Hsep; [| exact Hbl]. eapply Forall_forall in Hs; [| exact Hbl].
    eapply Forall_forall in Hhd; [| exact Hb]. eapply Forall_forall in Hok; [| exact Hb].
    destruct (hdr_inside b Hok) as [Hj1 Hj2].
    assert (HDRSIZE = 8) as E8 by done.
    rewrite lookup_insert_ne by (unfold blocks_disjoint in Hsep; lia).
    rewrite clobber_lookup by (unfold overlaps; unfold blocks_disjoint in Hsep; lia).
    rewrite Hs by lia. done.
Qed.

Lemma bucket_count_cons i a live : bucket_count i (a :: live) =
  bucket_count i live + (if decide ((al_blk a).2 = Z.of_nat i - LOCALBUCKETS) then 1 else 0).
Proof.
  unfold bucket_count. rewrite filter_cons. destruct (decide _); cbn [length]; lia.
Qed.

Lemma wrap32_add a b : wrap32 (wrap32 a + b) = wrap32 (a + b).
Proof. unfold wrap32. by rewrite Zplus_mod_idemp_l. Qed.

(** [nmalloc[o]] moves by [d] when the live list changes by one block. *)
Lemma counts_insert s o n d (live live' : list alloc) : small_order o ->
  nmalloc s !! Z.to_nat (o + LOCALBUCKETS) = Some n ->
  (forall i n, nmalloc s !! i = Some n -> n = wrap32 (bucket_count i live)) ->
  (forall i, bucket_count i live' = bucket_count i live +
     (if decide (o = Z.of_nat i - LOCALBUCKETS) then d else 0)) ->
  forall i n', <[Z.to_nat (o + LOCALBUCKETS) := wrap32 (n + d)]> (nmalloc s) !! i = Some n' ->
    n' = wrap32 (bucket_count i live').
Proof.
  intros Ho Hn Hc Hd i n' Hi. rewrite Hd. pose proof (bucket_index o Ho).
  apply list_lookup_insert_Some in Hi as [(<- & <- & _) | [Hne Hi]].
  - rewrite decide_True by lia. rewrite (Hc _ _ Hn). apply wrap32_add.
  - rewrite decide_False by lia. rewrite Z.add_0_r. by apply Hc.
Qed.

(** The alignments [bmk_memalloc] accepts: zero or a power of two up to
    2^31; it uses at least 16. *)
Definition align_ok (align : Z) : Prop := align = 0 \/ exists j, 0 <= j <= 31 /\ align = 2 ^ j.

Lemma align_ok_spec align : align_ok align ->
  Z.land align (wsub align 1) = 0 /\
  exists k, 4 <= k <= 31 /\ (if align <? MINALIGN then MINALIGN else align) = 2 ^ k /\
    2 ^ k = Z.max MINALIGN align.
Proof.
  intros [-> | (j & Hj & ->)]; [split; [done | exists 4; split; [lia | done]] |].
  pose proof (pow2_split j ltac:(lia)) as Hp. split.
  - rewrite wsub_small by (unfold u64; lia). apply land_pred_pow2; [lia |]. by rewrite Z.log2_pow2 by lia.
  - unfold MINALIGN. destruct (Z.ltb_spec (2 ^ j) 16) as [Hlt | Hge].
    + exists 4. change (2 ^ 4) with 16. lia.
    + exists j. split; [| split; [done | lia]]. split; [| lia].
      destruct (Z.le_gt_cases 4 j); [done |]. assert (2 ^ j < 2 ^ 4) by (apply Z.pow_lt_mono_r; lia). lia.
Qed.

(** The memory taken for a request: a block of the chosen size. *)
Definition taken (s : mstate P) (bucket : Z) : outcome (Z * mstate P) :=
  if LOCALBUCKETS <=? bucket then
    '(hdr, pages) ← page_alloc (m_pages s) (bucket + MINSHIFT - BMK_PCPU_PAGE_SHIFT);
    Done (hdr, with_pages pages s)
  else bucketalloc s bucket.

Lemma taken_spec s live bucket : mem_inv s live -> 0 <= bucket <= 58 ->
  exists p s', taken s bucket = Done (p, s') /\
    (p = 0 /\ s' = s \/
     p <> 0 /\ took s s' (al_blk <$> live) p (bucket - LOCALBUCKETS) /\
     length (nmalloc s') = Z.to_nat LOCALBUCKETS /\
     forall a, (al_blk a).2 = bucket - LOCALBUCKETS ->
       forall i n, nmalloc s' !! i = Some n -> n = wrap32 (bucket_count i (a :: live))).
Proof.
  intros [Hh Hok Hhd Hlen Hc] Hb. unfold taken.
  assert (LOCALBUCKETS = 7) as E7 by done.
  destruct (Z.leb_spec LOCALBUCKETS bucket) as [Hge | Hlt].
  - replace (bucket + MINSHIFT - BMK_PCPU_PAGE_SHIFT) with (bucket - LOCALBUCKETS)
      by (unfold LOCALBUCKETS; lia).
    destruct (holds_page_alloc s _ (bucket - LOCALBUCKETS) Hh) as (p & pages & -> & H).
    { unfold FREELIST_LEVELS, BMK_PCPU_PAGE_SHIFT. lia. }
    rewrite Done_bind. eexists _, _. split; [done |].
    destruct H as [[-> ->] | [Hne Hh']]; [left; by rewrite with_pages_id | right].
    split; [done |]. split; [| split; [done |]].
    + split; [done |]. split; [done |]. apply Forall_forall. by intros b _ a _ _.
    + intros a Ha i n Hn. rewrite bucket_count_cons, decide_False.
      * rewrite Z.add_0_r. by apply Hc.
      * apply lookup_lt_Some in Hn. cbn in Hn. rewrite Hlen in Hn. lia.
  - assert (small_order (bucket - LOCALBUCKETS)) as Ho by (unfold small_order; lia).
    destruct (bucketalloc_spec s _ _ Hh Ho Hlen) as (p & s' & E & H).
    replace (bucket - LOCALBUCKETS + LOCALBUCKETS) with bucket in * by lia.
    rewrite E. eexists _, _. split; [done |].
    destruct H as [? | (Hne & Ht & n & Hn & EN)]; [by left | right].
    split; [done |]. split; [done |]. split; [by rewrite EN, length_insert |].
    intros a Ha. rewrite EN.
    rewrite <- (Z.sub_add LOCALBUCKETS bucket) in Hn |- *.
    apply (counts_insert s _ n 1 live); try done.
    intros i. by rewrite bucket_count_cons, Ha.
Qed.

Lemma memalloc_unfold s nbytes align who :
  bmk_memalloc s nbytes align who =
    if negb (Z.land align (wsub align 1) =? 0) then Done (0, s)
    else
      let align := if align <? MINALIGN then MINALIGN else align in
      _ ← bmk_assert (align <=? Z.shiftl 1 31) "align <= (1UL<<31)";
      let bucket := memalloc_bucket (memalloc_size nbytes align) in
      '(hdr, s) ← taken s bucket;
      if hdr =? 0 then Done (0, s)
      else
        let rv := roundup (wadd hdr HDRSIZE) align in
        let h := wsub rv HDRSIZE in
        Done (rv, with_hdrs (<[h := Hdr (wrap32 (wsub rv hdr)) MAGIC (bucket mod 256) who]>
                               (clobber h HDRSIZE (m_hdrs s))) s).
Proof. reflexivity. Qed.

Lemma memalloc_spec s live nbytes align who :
  mem_inv s live -> align_ok align -> 0 <= nbytes -> nbytes + Z.max MINALIGN align <= 2 ^ 63 ->
  exists rv s', bmk_memalloc s nbytes align who = Done (rv, s') /\
    (rv = 0 /\ s' = s \/
     exists a, rv = al_ptr a /\ rv <> 0 /\ al_bytes a = nbytes /\ al_who a = who /\
       (Z.max MINALIGN align | rv) /\ mem_inv s' (a :: live) /\ m_ram s' = m_ram s /\
       (bsize (al_blk a).2 = 32 \/ bsize (al_blk a).2 < 2 * (nbytes + Z.max MINALIGN align))).
Proof.
  intros Hinv Hal Hn Hfit. destruct (align_ok_spec align Hal) as (E1 & k & Hk & E2 & E3).
  rewrite memalloc_unfold. rewrite (proj2 (Z.eqb_eq _ _) E1). cbn [negb]. rewrite E2. cbv zeta.
  rewrite <- E3 in *. pose proof (pow2_split k ltac:(lia)) as Hp.
  rewrite (proj2 (Z.leb_le (2 ^ k) (Z.shiftl 1 31)))
    by (rewrite Z.shiftl_1_l; apply Z.pow_le_mono_r; lia).
  rewrite bmk_assert_true, Done_bind.
  rewrite memalloc_size_spec by (done || (unfold W64; lia)).
  destruct (memalloc_bucket_spec (nbytes + 2 ^ k)) as (Hb & Hsz & Hmin); [lia |].
  set (bucket := memalloc_bucket (nbytes + 2 ^ k)) in *. clearbody bucket.
  destruct (taken_spec s live bucket Hinv Hb) as (p & s' & -> & H). rewrite Done_bind.
  destruct H as [[-> ->] | (Hne & Ht & Hlen & Hcnt)]; [eexists _, _; split; [done |]; by left |].
  rewrite (proj2 (Z.eqb_neq p 0)) by done.
  assert (bsize (bucket - LOCALBUCKETS) = 2 ^ (bucket + 5)) as Ebs.
  { unfold bsize, LOCALBUCKETS, BMK_PCPU_PAGE_SHIFT, MINSHIFT. f_equal. lia. }
  destruct (holds_block_ok _ _ (p, bucket - LOCALBUCKETS) (proj1 Ht)) as [(Hpos & _ & Hdiv & Hend) _]; [set_solver |].
  cbn in Hpos, Hdiv, Hend. rewrite Ebs in Hdiv, Hend.
  assert (k <= bucket + 5) as Hkb.
  { apply (Z.pow_le_mono_r_iff 2); lia. }
  assert ((2 ^ k | p)) as Hdk by (etrans; [apply (divide_pow2_le k (bucket + 5)); lia | done]).
  rewrite roundup_hdr by (done || lia).
  assert (2 ^ k <= 2 ^ 31) by (apply Z.pow_le_mono_r; lia).
  assert (16 <= 2 ^ k) by (change 16 with (2 ^ 4); apply Z.pow_le_mono_r; lia).
  rewrite (wsub_small _ HDRSIZE) by (unfold u64, HDRSIZE; lia).
  rewrite wsub_small by (unfold u64; lia).
  replace (p + 2 ^ k - p) with (2 ^ k) by lia.
  replace (wrap32 (2 ^ k)) with (2 ^ k) by (unfold wrap32; rewrite Z.mod_small; lia).
  rewrite (Z.mod_small bucket) by lia.
  set (a := Alloc (p, bucket - LOCALBUCKETS) (2 ^ k) nbytes who).
  eexists _, _. split; [done |]. right. exists a.
  split; [done |]. split; [lia |]. split; [done |]. split; [done |].
  split; [by apply Z.divide_add_r |]. split; [| split].
  - replace (Hdr (2 ^ k) MAGIC bucket who) with (hdr_of a)
      by (unfold hdr_of; cbn; f_equal; lia).
    apply (mem_inv_new s s' live a); try done.
    + split; [by exists k | cbn; split; [done | lia]].
    + by apply Hcnt.
  - apply Ht.
  - cbn. rewrite Ebs. destruct Hmin as [-> | Hmin]; [by left | right].
    replace (bucket + 5) with (Z.succ (bucket + 4)) by lia. rewrite Z.pow_succ_r by lia. lia.
Qed.

(** ** Giving a block back *)

Lemma holds_page_free s held p o : holds s ((p, o) :: held) -> 0 <= o ->
  exists pages, page_free (m_pages s) p o = Done pages /\ holds (with_pages pages s) held.
Proof.
  intros (slabs & [Hlen Hsm Hb Hp Hr]) Ho. unfold small, large in *.
  rewrite filter_cons_False in Hb by (cbn; lia). rewrite filter_cons_True in Hp by (cbn; lia).
  destruct (page_free_ok (m_pages s) (((fun sl => (sl.1, 0)) <$> slabs) ++ large held) p o)
    as (pages & -> & Hp' & Hm).
  { eapply page_inv_perm; [| exact Hp]. unfold large. by rewrite <- Permutation_middle. }
  exists pages. split; [done |]. exists slabs. split; try done.
  intros a Ha. apply Hr, Hm, Ha.
Qed.

Lemma mem_inv_sep s a live : mem_inv s (a :: live) ->
  forall b, b ∈ live -> blocks_disjoint (al_blk a) (al_blk b).
Proof.
  intros [Hh _ _ _ _] b Hb. apply holds_separated, separated_app in Hh as (_ & Hh & _).
  eapply separated_elem; [exact Hh |]. apply list_elem_of_fmap. by exists b.
Qed.

(** Stores into the block of [a] leave the other headers alone. *)
Lemma hdrs_clobber s a live x n : mem_inv s (a :: live) ->
  (al_blk a).1 <= x -> x + n <= (al_blk a).1 + bsize (al_blk a).2 ->
  Forall (fun b => clobber x n (m_hdrs s) !! (al_ptr b - HDRSIZE) = Some (hdr_of b)) live.
Proof.
  intros Hinv Hx Hn. pose proof (mem_inv_sep _ _ _ Hinv) as Hsep. destruct Hinv as [_ Hok Hhd _ _].
  apply Forall_cons in Hok as [Ha Hok]. apply Forall_cons in Hhd as [_ Hhd].
  apply Forall_forall. intros b Hb. specialize (Hsep b Hb).
  eapply Forall_forall in Hok; [| exact Hb]. eapply Forall_forall in Hhd; [| exact Hb].
  destruct (hdr_inside b Hok). rewrite clobber_lookup; [done |].
  assert (HDRSIZE = 8) as E8 by done. unfold overlaps, blocks_disjoint in *. lia.
Qed.

Lemma block_order_small o : - LOCALBUCKETS <= o -> o < 0 -> small_order o.
Proof. done. Qed.

(** [bmk_memfree] of a live object finds its header. *)
Lemma memfree_unfold s a live who : mem_inv s (a :: live) ->
  bmk_memfree s (al_ptr a) who =
    if negb (bool_decide (al_who a = who)) then Halt "bmk_memalloc error"
    else if LOCALBUCKETS <=? (al_blk a).2 + LOCALBUCKETS then
      pages ← page_free (m_pages s) (al_blk a).1 (al_blk a).2;
      Done (with_hdrs (clobber (al_blk a).1 (bsize (al_blk a).2) (m_hdrs s)) (with_pages pages s))
    else
      s ← bucket_insert s ((al_blk a).2 + LOCALBUCKETS) (al_blk a).1;
      nmalloc_add s ((al_blk a).2 + LOCALBUCKETS) (-1).
Proof.
  intros [Hh Hok Hhd _ _]. cbn [fmap list_fmap] in Hh.
  apply Forall_cons in Hok as [Ha _]. apply Forall_cons in Hhd as [Hha _].
  destruct (holds_block_ok _ _ (al_blk a) Hh) as [(Hpos & _ & _ & Hend) _]; [set_solver |].
  pose proof (alloc_pad_bounds a Ha) as Hpad. destruct (hdr_inside a Ha) as [Hi1 Hi2].
  assert (HDRSIZE = 8) as E8 by done. assert (al_ptr a = (al_blk a).1 + al_pad a) as Ep by done.
  unfold bmk_memfree. rewrite (proj2 (Z.eqb_neq (al_ptr a) 0)) by lia.
  rewrite wsub_small by (unfold u64; lia). rewrite Hha, of_option_Some, Done_bind.
  cbn [hdr_of mh_magic mh_who mh_index mh_alignpad]. rewrite Z.eqb_refl. cbn [negb]. cbv zeta.
  rewrite wsub_small by (unfold u64; lia). replace (al_ptr a - al_pad a) with (al_blk a).1 by lia.
  replace ((al_blk a).2 + LOCALBUCKETS + MINSHIFT - BMK_PCPU_PAGE_SHIFT) with (al_blk a).2 by (unfold LOCALBUCKETS; lia).
  by rewrite order2size_bsize.
Qed.

(** Where the block of a freed object goes. *)
Definition block_returned s a s' : Prop :=
  if decide (0 <= (al_blk a).2)
  then page_free (m_pages s) (al_blk a).1 (al_blk a).2 = Done (m_pages s') /\ freebuckets s' = freebuckets s
  else m_pages s' = m_pages s /\ exists l, freebuckets s !! Z.to_nat ((al_blk a).2 + LOCALBUCKETS) = Some l /\
    freebuckets s' = <[Z.to_nat ((al_blk a).2 + LOCALBUCKETS) := (al_blk a).1 :: l]> (freebuckets s).

Lemma memfree_returned s a live s' : mem_inv s (a :: live) ->
  bmk_memfree s (al_ptr a) (al_who a) = Done s' -> block_returned s a s'.
Proof.
  intros Hinv. rewrite (memfree_unfold s a live _ Hinv), bool_decide_true by done. cbn [negb]. unfold block_returned.
  destruct (Z.leb_spec LOCALBUCKETS ((al_blk a).2 + LOCALBUCKETS)); [rewrite decide_True by lia | rewrite decide_False by lia].
  - rewrite bind_Done. by intros (pages & E & [= <-]).
  - unfold bucket_insert, nmalloc_add, bucket_at. intros E. outcome_inv. cbn. eauto.
Qed.

Lemma memfree_spec s a live : mem_inv s (a :: live) ->
  exists s', bmk_memfree s (al_ptr a) (al_who a) = Done s' /\ mem_inv s' live /\ m_ram s' = m_ram s.
Proof.
  intros Hinv. pose proof Hinv as [Hh Hok Hhd Hlen Hc]. cbn [fmap list_fmap] in Hh.
  apply Forall_cons in Hok as [Ha Hok]. apply Forall_cons in Hhd as [Hha Hhd].
  destruct (holds_block_ok _ _ (al_blk a) Hh) as [(Hpos & Ho & _ & Hend) _]; [set_solver |].
  pose proof (alloc_pad_bounds a Ha) as Hpad. destruct (hdr_inside a Ha) as [Hi1 Hi2].
  assert (HDRSIZE = 8) as E8 by done. assert (LOCALBUCKETS = 7) as E7 by done.
  assert (al_ptr a = (al_blk a).1 + al_pad a) as Ep by done.
  rewrite (memfree_unfold s a live _ Hinv), bool_decide_true by done. cbn [negb].
  destruct (Z.leb_spec LOCALBUCKETS ((al_blk a).2 + LOCALBUCKETS)) as [Hge | Hlt].
  - destruct (holds_page_free s (al_blk <$> live) (al_blk a).1 (al_blk a).2) as (pages & -> & Hh');
      [by destruct (al_blk a) | lia |].
    rewrite Done_bind. eexists. split; [done |]. split; [| done]. split; try done.
    + destruct Hh' as (slabs & []). by exists slabs.
    + eapply (hdrs_clobber s a live); [done | lia | lia].
    + intros i n Hn. rewrite (Hc i n Hn), bucket_count_cons, decide_False; [by rewrite Z.add_0_r |].
      apply lookup_lt_Some in Hn. cbn in Hn. lia.
  - assert (small_order (al_blk a).2) as Hso by (unfold small_order; lia).
    destruct (bucket_insert_holds s (al_blk <$> live) (al_blk a).1 (al_blk a).2)
      as (s1 & -> & Hh1 & R1 & P1 & N1 & E1); [by destruct (al_blk a) | done |].
    rewrite Done_bind. unfold nmalloc_add. rewrite N1.
    assert (exists n, nmalloc s !! Z.to_nat ((al_blk a).2 + LOCALBUCKETS) = Some n) as [n Hn].
    { apply lookup_lt_is_Some_2. rewrite Hlen. lia. }
    rewrite Hn, of_option_Some, Done_bind. eexists. split; [done |]. split; [| done].
    pose proof (bsize_ge32 (al_blk a).2 ltac:(lia)).
    split; cbn [m_hdrs nmalloc with_nmalloc].
    + destruct Hh1 as (slabs & []). by exists slabs.
    + done.
    + rewrite E1. eapply (hdrs_clobber s a live); [done | lia | unfold FREEBLKSIZE; lia].
    + by rewrite length_insert.
    + apply (counts_insert s _ n (-1) (a :: live)); try done.
      intros i. rewrite bucket_count_cons. destruct (decide _); lia.
Qed.

(** ** The contents of allocations *)

(** The owner of [a] stores [n] bytes at [x], between its pointer and the end
    of its block. *)
Lemma mem_inv_user_write s a live x n ram :
  mem_inv s (a :: live) -> al_ptr a <= x -> x + n <= (al_blk a).1 + bsize (al_blk a).2 ->
  (forall y, is_Some (m_ram s !! y) -> is_Some (ram !! y)) ->
  mem_inv (with_hdrs (clobber x n (m_hdrs s)) (with_ram ram s)) (a :: live).
Proof.
  intros Hinv Hx Hn Hram. pose proof Hinv as [(slabs & [? ? ? ? Hr]) Hok Hhd Hlen Hc].
  split; try done.
  - exists slabs. split; try done. intros y Hy. by apply Hram, Hr.
  - apply Forall_cons in Hhd as [Hha _]. pose proof (Forall_inv Hok) as Ha.
    pose proof (alloc_pad_bounds a Ha). constructor.
    + cbn. rewrite clobber_lookup; [done |]. unfold overlaps, al_ptr, HDRSIZE in *. lia.
    + eapply (hdrs_clobber s a live); [done | unfold al_ptr in *; lia | lia].
Qed.

Lemma alloc_mapped s a live : mem_inv s (a :: live) -> forall n x,
  (al_blk a).1 <= x -> x + Z.of_nat n <= (al_blk a).1 + bsize (al_blk a).2 ->
  mapped (m_ram s) x n.
Proof.
  intros [Hh _ _ _ _] n x Hx Hn i Hi. pose proof Hh as (slabs & Hc).
  destruct (holds_block_ok _ _ (al_blk a) Hh) as [_ Hm]; [set_solver |].
  apply (co_ram _ _ _ Hc), Hm. lia.
Qed.

Lemma mem_write_mapped m p l y : is_Some (m !! y) -> is_Some (mem_write m p l !! y).
Proof.
  intros H. assert (mapped m y 1) as Hm.
  { intros i Hi. by replace (y + Z.of_nat i) with y by lia. }
  apply (mapped_write _ p l) in Hm. specialize (Hm 0%nat ltac:(lia)). by rewrite Z.add_0_r in Hm.
Qed.

Lemma memcalloc_spec s live n size who :
  mem_inv s live -> u64 n -> u64 size -> n * size + MINALIGN <= 2 ^ 63 ->
  exists v s', bmk_memcalloc s n size who = Done (v, s') /\
    (v = 0 /\ s' = s \/
     exists a, v = al_ptr a /\ v <> 0 /\ al_bytes a = n * size /\ al_who a = who /\
       mem_inv s' (a :: live) /\
       m_ram s' = mem_write (m_ram s) v (replicate (Z.to_nat (n * size)) 0) /\
       (bsize (al_blk a).2 = 32 \/ bsize (al_blk a).2 < 2 * (n * size + MINALIGN))).
Proof.
  intros Hinv [Hn0 Hn] [Hs0 Hs] Hfit. assert (0 <= n * size) by nia. unfold MINALIGN in *.
  unfold bmk_memcalloc, wmul. rewrite wrap64_small by (unfold u64, W64; lia). cbv zeta.
  assert (negb (size =? 0) && negb (n * size / size =? n) = false) as ->.
  { destruct (Z.eqb_spec size 0); [done |]. cbn. by rewrite Z.div_mul, Z.eqb_refl by done. }
  destruct (memalloc_spec s live (n * size) 16 who Hinv) as (v & s1 & E & H1).
  { right. by exists 4. } { done. } { done. }
  unfold MINALIGN. rewrite E, Done_bind.
  destruct H1 as [[-> ->] | (a & -> & Hne & Hb & Hw & _ & Hinv1 & R & Hsz)].
  { eexists _, _. split; [done |]. by left. }
  rewrite (proj2 (Z.eqb_neq _ 0)) by done.
  pose proof (Forall_inv (mi_ok _ _ Hinv1)) as (_ & _ & Hroom).
  pose proof (alloc_pad_bounds a (Forall_inv (mi_ok _ _ Hinv1))).
  unfold bmk_memset. rewrite memset_spec, Done_bind.
  - eexists _, _. split; [done |]. right. exists a.
    split; [done |]. split; [done |]. split; [done |]. split; [done |].
    rewrite R. split; [| split; [done | exact Hsz]]. rewrite <- R.
    apply mem_inv_user_write; [done | lia | unfold al_ptr; lia |].
    intros y. apply mem_write_mapped.
  - eapply alloc_mapped; [exact Hinv1 | unfold al_ptr; lia | unfold al_ptr; lia].
Qed.

Definition ram_bytes (m : mem) : Prop := map_Forall (fun _ b => byte b) m.

Lemma mapped_bytes m : ram_bytes m -> forall n p, mapped m p n ->
  exists l, length l = n /\ bytes_at m p l /\ Forall byte l.
Proof.
  intros Hm. induction n as [| n IH]; intros p Hp; [by exists [] |].
  apply mapped_S in Hp as [[b Hb] Hp]. destruct (IH _ Hp) as (l & <- & Hl & Hby).
  exists (b :: l). split; [done |]. split; [done |]. constructor; [by apply (Hm p) | done].
Qed.

Lemma ram_bytes_write m p l : ram_bytes m -> Forall byte l -> ram_bytes (mem_write m p l).
Proof.
  revert m p. induction l as [| b l IH]; intros m p Hm Hl; cbn; [done |].
  apply Forall_cons in Hl as [Hb Hl]. apply IH; [| done]. by apply map_Forall_insert_2.
Qed.

(** Where a reallocated object ends up: in place, or moved with its whole
    block's worth of contents. *)
Definition resized (a : alloc) (nbytes : Z) : alloc := Alloc (al_blk a) (al_pad a) nbytes (al_who a).

Definition al_room (a : alloc) : Z := bsize (al_blk a).2 - al_pad a.

Lemma mem_inv_resize s a live nbytes : mem_inv s (a :: live) -> 0 <= nbytes <= al_room a ->
  mem_inv s (resized a nbytes :: live).
Proof.
  intros [Hh Hok Hhd Hlen Hc] Hn. split; try done.
  - apply Forall_cons in Hok as [(Hk & _ & _) Hok]. constructor; [| done].
    split; [done |]. unfold al_room in Hn. cbn. lia.
  - apply Forall_cons in Hhd as [H Hhd]. by constructor.
  - intros i n Hi. rewrite (Hc i n Hi), !bucket_count_cons. done.
Qed.

Lemma realloc_room_spec a : alloc_ok a -> - LOCALBUCKETS <= (al_blk a).2 -> bsize (al_blk a).2 < 2 ^ 31 ->
  realloc_room ((al_blk a).2 + LOCALBUCKETS) (al_pad a) = Done (al_room a) /\ 0 <= al_room a < 2 ^ 31.
Proof.
  intros Ha Ho Hb. pose proof (alloc_pad_bounds a Ha). destruct Ha as (_ & ? & ?).
  unfold realloc_room, al_room. assert (LOCALBUCKETS = 7) as E7 by done.
  assert ((al_blk a).2 + 12 < 31) by (apply (Z.pow_lt_mono_r_iff 2); unfold bsize in Hb; lia).
  rewrite (proj2 (Z.leb_gt 31 _)) by (unfold MINSHIFT; lia). rewrite Z.shiftl_1_l.
  replace ((al_blk a).2 + LOCALBUCKETS + MINSHIFT) with ((al_blk a).2 + 12) by (unfold MINSHIFT; lia).
  fold (bsize (al_blk a).2). rewrite wsub_small by (unfold u64, W64; lia). split; [done | lia].
Qed.

Lemma memrealloc_spec s a live nbytes :
  mem_inv s (a :: live) -> ram_bytes (m_ram s) -> al_who a = BMK_MEMWHO_USER ->
  bsize (al_blk a).2 < 2 ^ 31 -> 0 < nbytes -> nbytes + MINALIGN <= 2 ^ 63 ->
  exists np s', bmk_memrealloc_user s (al_ptr a) nbytes = Done (np, s') /\
    (np = 0 /\ s' = s \/
     np = al_ptr a /\ s' = s /\ nbytes <= al_room a \/
     exists a', np = al_ptr a' /\ np <> 0 /\ al_bytes a' = nbytes /\ al_who a' = BMK_MEMWHO_USER /\
       al_room a < nbytes /\ mem_inv s' (a' :: live) /\ ram_bytes (m_ram s') /\
       bsize (al_blk a').2 < Z.max 33 (2 * (nbytes + MINALIGN)) /\
       (forall i, 0 <= i < al_room a -> m_ram s' !! (np + i) = m_ram s !! (al_ptr a + i)) /\
       (forall x, ~ (np <= x < np + al_room a) -> m_ram s' !! x = m_ram s !! x)).
Proof.
  intros Hinv Hby Hw Hb Hn Hfit. pose proof Hinv as [Hh Hok Hhd Hlen Hc]. cbn [fmap list_fmap] in Hh.
  pose proof (Forall_inv Hok) as Ha. pose proof (Forall_inv Hhd) as Hha.
  destruct (holds_block_ok _ _ (al_blk a) Hh) as [(Hpos & Ho & _ & Hend) _]; [set_solver |].
  pose proof (alloc_pad_bounds a Ha) as Hpad. destruct (hdr_inside a Ha) as [Hi1 Hi2].
  destruct (realloc_room_spec a Ha (proj1 Ho) Hb) as [Er Hroom].
  assert (al_ptr a = (al_blk a).1 + al_pad a) as Ep by done.
  assert (HDRSIZE = 8) as E8 by done.
  unfold bmk_memrealloc_user. rewrite (proj2 (Z.eqb_neq (al_ptr a) 0)) by lia.
  rewrite (proj2 (Z.eqb_neq nbytes 0)) by lia.
  rewrite (wsub_small (al_ptr a)) by (unfold u64; lia). rewrite Hha, of_option_Some, Done_bind.
  cbn [hdr_of mh_index mh_alignpad]. rewrite Er, Done_bind.
  destruct (Z.leb_spec nbytes (al_room a)) as [Hle | Hgt].
  { eexists _, _. split; [done |]. by right; left. }
  destruct (memalloc_spec s (a :: live) nbytes 8 BMK_MEMWHO_USER Hinv) as (np & s1 & -> & H1);
    [right; by exists 3 | lia | by rewrite Z.max_l by (unfold MINALIGN; lia) |].
  rewrite Done_bind. destruct H1 as [[-> ->] | (a' & -> & Hne & Hb' & Hw' & _ & Hinv1 & R & Hsz)].
  { eexists _, _. split; [done |]. by left. }
  rewrite (proj2 (Z.eqb_neq _ 0)) by done.
  pose proof (Forall_inv (mi_ok _ _ Hinv1)) as Ha'. pose proof (alloc_pad_bounds a' Ha') as Hpad'.
  destruct Ha' as (_ & _ & Hroom'). assert (al_ptr a' = (al_blk a').1 + al_pad a') as Ep' by done.
  pose proof (mem_inv_sep _ _ _ Hinv1 a ltac:(set_solver)) as Hsep.
  assert (mapped (m_ram s1) (al_ptr a') (Z.to_nat (al_room a))) as Hmd.
  { eapply alloc_mapped; [exact Hinv1 | lia | lia]. }
  assert (mapped (m_ram s1) (al_ptr a) (Z.to_nat (al_room a))) as Hms.
  { rewrite R. eapply alloc_mapped; [exact Hinv | lia | unfold al_room in *; lia]. }
  destruct (mapped_bytes (m_ram s1) ltac:(by rewrite R) _ _ Hms) as (l & Hll & Hl & Hlb).
  unfold bmk_memcpy. rewrite <- Hll in Hmd |- *.
  rewrite memcpy_spec, Done_bind; [| done | done | done |].
  2: { unfold copy_safe. unfold blocks_disjoint, al_room in *. lia. }
  rewrite Done_bind. cbv beta iota zeta. set (s2 := with_hdrs (clobber (al_ptr a') (al_room a) (m_hdrs s1))
    (with_ram (mem_write (m_ram s1) (al_ptr a') l) s1)).
  assert (mem_inv s2 (a' :: a :: live)) as Hinv2.
  { apply mem_inv_user_write; [done | lia | lia |]. intros y. apply mem_write_mapped. }
  destruct (memfree_spec s2 a (a' :: live)) as (s3 & Ef & Hinv3 & R3).
  { eapply mem_inv_perm; [| exact Hinv2]. constructor. }
  rewrite Hw in Ef. rewrite Ef, Done_bind. eexists _, _. split; [done |]. right. right. exists a'.
  rewrite R3. unfold s2. cbn [m_ram with_hdrs with_ram]. rewrite R.
  split; [done |]. split; [done |]. split; [done |]. split; [done |]. split; [lia |]. split; [done |].
  split; [by apply ram_bytes_write |]. split; [unfold MINALIGN in *; lia |]. split.
  - intros i Hi. replace i with (Z.of_nat (Z.to_nat i)) by lia.
    destruct (lookup_lt_is_Some_2 l (Z.to_nat i)) as [b Hbi]; [lia |].
    rewrite (mem_write_in _ _ _ _ b) by done. symmetry.
    rewrite R in Hl. by apply (proj1 (bytes_at_lookup _ _ _) Hl).
  - intros x Hx. apply mem_write_out. lia.
Qed.
End Props.
