(* ===== verification/MemallocThms.v ===== *)
(** * Runs of malloc clients

    Sequences of allocations, reallocations, frees and stores by the owners of
    live objects, over any page allocator. *)

From S2P Require Import Prelude Mem Cstring Pgalloc PgGeom PgallocInv PgallocProps PageIface.
From S2P Require Import PgallocRun PgallocThms Memalloc MemallocInv MemallocProps.

(** What a client knows of an object: pointer, size, level. *)
Definition object : Type := Z * Z * bmk_memwho.

Inductive mop :=
  | MMalloc (nbytes align : Z) (who : bmk_memwho)
  | MCalloc (n size : Z) (who : bmk_memwho)
  | MRealloc (i : nat) (nbytes : Z)
  | MFree (i : nat)
  | MStore (i : nat) (off v : Z).

(** Requests of at most 512 MB with alignment; [bmk_memrealloc_user] computes
    block sizes as [int]. *)
Definition mop_valid (op : mop) : Prop :=
  match op with
  | MMalloc n al _ => 0 <= n /\ align_ok al /\ n + Z.max MINALIGN al <= 2 ^ 29
  | MCalloc n sz _ => u64 n /\ u64 sz /\ n * sz + MINALIGN <= 2 ^ 29
  | MRealloc _ n => 0 <= n /\ n + MINALIGN <= 2 ^ 29
  | _ => True
  end.

Definition objects_disjoint (x y : object) : Prop :=
  x.1.1 + x.1.2 <= y.1.1 \/ y.1.1 + y.1.2 <= x.1.1.

Section Runs.
Context {P : Type} `{!PageAllocator P}.
Implicit Types s : mstate P.

Definition mexec (op : mop) (st : mstate P * list object) : outcome (mstate P * list object) :=
  let '(s, live) := st in
  match op with
  | MMalloc n al who =>
      '(p, s) ← bmk_memalloc s n al who;
      Done (s, if p =? 0 then live else (p, n, who) :: live)
  | MCalloc n sz who =>
      '(p, s) ← bmk_memcalloc s n sz who;
      Done (s, if p =? 0 then live else (p, n * sz, who) :: live)
  | MRealloc i n =>
      match live !! i with
      | Some (p, _, BMK_MEMWHO_USER) =>
          '(np, s) ← bmk_memrealloc_user s p n;
          Done (s, if n =? 0 then delete i live
                   else if np =? 0 then live
                   else (np, n, BMK_MEMWHO_USER) :: delete i live)
      | _ => Done st
      end
  | MFree i =>
      match live !! i with
      | Some (p, _, who) => s ← bmk_memfree s p who; Done (s, delete i live)
      | None => Done st
      end
  | MStore i off v =>
      match live !! i with
      | Some (p, n, _) =>
          if (0 <=? off) && (off <? n) then
            ram ← store8 (m_ram s) (p + off) v;
            Done (with_hdrs (clobber (p + off) 1 (m_hdrs s)) (with_ram ram s), live)
          else Done st
      | None => Done st
      end
  end.

Fixpoint mrun (ops : list mop) (st : mstate P * list object) : outcome (mstate P * list object) :=
  match ops with
  | [] => Done st
  | op :: ops => st ← mexec op st; mrun ops st
  end.

Definition view (a : alloc) : object := (al_ptr a, al_bytes a, al_who a).

Record client s (als : list alloc) : Prop := {
  cl_inv : mem_inv s als;
  cl_ram : ram_bytes (m_ram s);
  cl_int : Forall (fun a => bsize (al_blk a).2 < 2 ^ 31) als;
}.

Lemma client_perm s l1 l2 : l1 ≡ₚ l2 -> client s l1 -> client s l2.
Proof. intros Hp [H1 H2 H3]. split; [by eapply mem_inv_perm | done | by rewrite <- Hp]. Qed.

Lemma client_pick s als i o : client s als -> (view <$> als) !! i = Some o ->
  exists a, als !! i = Some a /\ o = view a /\ client s (a :: delete i als).
Proof.
  intros Hc Hi. rewrite list_lookup_fmap in Hi. destruct (als !! i) as [a |] eqn:E; [| done].
  cbn in Hi. exists a. split; [done |]. split; [by injection Hi |].
  eapply client_perm; [| exact Hc]. by apply delete_Permutation.
Qed.

Lemma view_delete (als : list alloc) i : delete i (view <$> als) = view <$> delete i als.
Proof. symmetry. apply list_fmap_delete. Qed.

Lemma client_drop s a als : client s (a :: als) -> forall s', mem_inv s' als -> m_ram s' = m_ram s ->
  client s' als.
Proof. intros [_ H2 H3] s' Hinv R. split; [done | by rewrite R | by apply Forall_cons in H3 as []]. Qed.

(** A request that fits leaves the clients consistent. *)
Lemma client_new s s' a als n : client s als -> mem_inv s' (a :: als) -> ram_bytes (m_ram s') ->
  bsize (al_blk a).2 = 32 \/ bsize (al_blk a).2 < 2 * n -> n <= 2 ^ 29 -> client s' (a :: als).
Proof. intros [_ _ H3] Hinv Hr Hb Hn. split; [done | done |]. constructor; [lia | done]. Qed.

Definition good (st : mstate P * list object) : Prop :=
  exists als, client st.1 als /\ st.2 = view <$> als.

Lemma mexec_malloc s als n al who : client s als -> mop_valid (MMalloc n al who) ->
  exists st, mexec (MMalloc n al who) (s, view <$> als) = Done st /\ good st.
Proof.
  intros Hc (Hn & Hal & Hfit). cbn [mexec].
  destruct (memalloc_spec s als n al who (cl_inv _ _ Hc) Hal Hn) as (p & s' & -> & H); [lia |].
  rewrite Done_bind. eexists. split; [done |].
  destruct H as [[-> ->] | (a & -> & Hne & Hb & Hw & _ & Hinv & R & Hsz)]; [by exists als |].
  exists (a :: als). cbn [fst snd]. rewrite (proj2 (Z.eqb_neq _ _) Hne). split.
  - eapply client_new; [exact Hc | done | rewrite R; apply Hc | exact Hsz | done].
  - cbn. by rewrite <- Hb, <- Hw.
Qed.

Lemma mexec_calloc s als n size who : client s als -> mop_valid (MCalloc n size who) ->
  exists st, mexec (MCalloc n size who) (s, view <$> als) = Done st /\ good st.
Proof.
  intros Hc (Hn & Hs & Hfit). cbn [mexec].
  destruct (memcalloc_spec s als n size who (cl_inv _ _ Hc) Hn Hs) as (p & s' & -> & H); [lia |].
  rewrite Done_bind. eexists. split; [done |].
  destruct H as [[-> ->] | (a & -> & Hne & Hb & Hw & Hinv & R & Hsz)]; [by exists als |].
  exists (a :: als). cbn [fst snd]. rewrite (proj2 (Z.eqb_neq _ _) Hne). split.
  - eapply client_new; [exact Hc | done | | exact Hsz | done].
    rewrite R. apply ram_bytes_write; [apply Hc |]. apply Forall_forall.
    intros b [-> _]%elem_of_replicate. done.
  - cbn. by rewrite <- Hb, <- Hw.
Qed.

Lemma mexec_free s als i : client s als ->
  exists st, mexec (MFree i) (s, view <$> als) = Done st /\ good st.
Proof.
  intros Hc. cbn [mexec]. destruct ((view <$> als) !! i) as [[[p n] who] |] eqn:E;
    [| eexists; split; [done |]; by exists als].
  destruct (client_pick _ _ _ _ Hc E) as (a & Ha & [= -> -> ->] & Hc').
  destruct (memfree_spec s a _ (cl_inv _ _ Hc')) as (s' & -> & Hinv & R). rewrite Done_bind.
  eexists. split; [done |]. exists (delete i als). split; [by eapply client_drop | apply view_delete].
Qed.

Lemma mexec_store s als i off v : client s als ->
  exists st, mexec (MStore i off v) (s, view <$> als) = Done st /\ good st.
Proof.
  intros Hc. cbn [mexec]. destruct ((view <$> als) !! i) as [[[p n] who] |] eqn:E;
    [| eexists; split; [done |]; by exists als].
  destruct (client_pick _ _ _ _ Hc E) as (a & Ha & [= -> -> ->] & Hc').
  destruct ((0 <=? off) && (off <? al_bytes a)) eqn:Hoff; [| eexists; split; [done |]; by exists als].
  pose proof (cl_inv _ _ Hc') as Hinv. pose proof (Forall_inv (mi_ok _ _ Hinv)) as Hok.
  pose proof (alloc_pad_bounds a Hok). destruct Hok as (_ & _ & Hroom).
  assert (is_Some (m_ram s !! (al_ptr a + off))) as Hm.
  { rewrite <- (Z.add_0_r (_ + off)).
    apply (alloc_mapped s a _ Hinv 1 (al_ptr a + off)) with (i := 0%nat); unfold al_ptr; lia. }
  rewrite store8_mapped by done. rewrite Done_bind. eexists. split; [done |]. exists als. split; [| done].
  apply (client_perm _ (a :: delete i als)); [symmetry; by apply delete_Permutation |].
  destruct Hc' as [_ Hr Hint]. split; [| | done].
  - apply mem_inv_user_write; [done | lia | unfold al_ptr; lia |].
    intros y Hy. destruct (decide (al_ptr a + off = y)) as [<- | ?].
    + by rewrite lookup_insert_eq.
    + by rewrite lookup_insert_ne.
  - apply map_Forall_insert_2; [| done]. apply Z.mod_pos_bound. lia.
Qed.

Lemma mexec_realloc s als i n : client s als -> mop_valid (MRealloc i n) ->
  exists st, mexec (MRealloc i n) (s, view <$> als) = Done st /\ good st.
Proof.
  intros Hc [Hn Hfit]. cbn [mexec]. destruct ((view <$> als) !! i) as [[[p m] who] |] eqn:E;
    [| eexists; split; [done |]; by exists als].
  destruct who eqn:Ew; try (eexists; split; [done |]; by exists als).
  destruct (client_pick _ _ _ _ Hc E) as (a & Ha & Ev & Hc'). injection Ev as -> -> Hw.
  pose proof (cl_inv _ _ Hc') as Hinv. destruct (Z.eqb_spec n 0) as [-> | Hne].
  - assert (al_ptr a <> 0) as Hp.
    { destruct (holds_block_ok _ _ (al_blk a) (mi_holds _ _ Hinv)) as [(Hpos & _) _]; [set_solver |].
      pose proof (alloc_pad_bounds a (Forall_inv (mi_ok _ _ Hinv))). unfold al_ptr. lia. }
    unfold bmk_memrealloc_user. rewrite (proj2 (Z.eqb_neq _ _) Hp). cbn [Z.eqb].
    destruct (memfree_spec s a _ Hinv) as (s' & Ef & Hinv' & R). rewrite <- Hw in Ef.
    rewrite Ef, !Done_bind. eexists. split; [done |]. exists (delete i als).
    split; [by eapply client_drop | apply view_delete].
  - destruct (memrealloc_spec s a (delete i als) n Hinv (cl_ram _ _ Hc'))
      as (np & s' & -> & H); try done; [apply (Forall_inv (cl_int _ _ Hc')) | lia | lia |].
    rewrite Done_bind. eexists. split; [done |]. cbn [fst snd].
    destruct H as [[-> ->] | [(-> & -> & Hroom) | (a' & -> & Hnz & Hb' & Hw' & _ & Hinv' & Hr' & Hsz & _)]].
    + by exists als.
    + exists (resized a n :: delete i als). split.
      * destruct Hc' as [_ Hr Hint]. split; [by apply mem_inv_resize | done |].
        apply Forall_cons in Hint as [? ?]. by constructor.
      * assert ((al_ptr a =? 0) = false) as ->.
        { destruct (holds_block_ok _ _ (al_blk a) (mi_holds _ _ Hinv)) as [(Hpos & _) _]; [set_solver |].
          pose proof (alloc_pad_bounds a (Forall_inv (mi_ok _ _ Hinv))). unfold al_ptr. lia. }
        rewrite view_delete. cbn [fmap list_fmap]. f_equal. by rewrite Hw.
    + exists (a' :: delete i als). rewrite (proj2 (Z.eqb_neq _ _) Hnz). split.
      * destruct Hc' as [_ Hr Hint]. split; [done | done |]. apply Forall_cons in Hint as [? ?].
        constructor; [lia | done].
      * rewrite view_delete. cbn [fmap list_fmap]. f_equal. unfold view. by rewrite Hb', Hw'.
Qed.

Lemma mrun_good ops : forall st, good st -> Forall mop_valid ops ->
  exists st', mrun ops st = Done st' /\ good st'.
Proof.
  induction ops as [| op ops IH]; intros [s live] (als & Hc & Hl) Hv; [eexists; split; [done | by exists als] |].
  apply Forall_cons in Hv as [Hv1 Hv2]. cbn [fst snd] in *. subst live.
  assert (exists st, mexec op (s, view <$> als) = Done st /\ good st) as (st & E & Hg).
  { destruct op; [by apply mexec_malloc | by apply mexec_calloc | by apply mexec_realloc
                 | by apply mexec_free | by apply mexec_store]. }
  cbn [mrun]. rewrite E, Done_bind. by apply IH.
Qed.

Lemma views_disjoint s als : client s als ->
  forall i j x y, i <> j -> (view <$> als) !! i = Some x -> (view <$> als) !! j = Some y ->
  objects_disjoint x y.
Proof.
  intros Hc i j x y Hij Hx Hy.
  destruct (client_pick _ _ _ _ Hc Hx) as (a & Ha & -> & Hc').
  rewrite list_lookup_fmap in Hy. destruct (als !! j) as [b |] eqn:Hb; [| done]. injection Hy as <-.
  assert (b ∈ delete i als) as Hbd.
  { apply delete_Permutation in Ha as Hp. assert (b ∈ a :: delete i als) as Hin.
    { rewrite <- Hp. by eapply list_elem_of_lookup_2. }
    destruct (Nat.lt_ge_cases j i).
    - eapply (list_elem_of_lookup_2 _ j). by rewrite list_lookup_delete_lt.
    - eapply (list_elem_of_lookup_2 _ (j - 1)). rewrite list_lookup_delete_ge by lia.
      by replace (S (j - 1)) with j by lia. }
  pose proof (mem_inv_sep _ _ _ (cl_inv _ _ Hc') b Hbd) as Hd.
  pose proof (mi_ok _ _ (cl_inv _ _ Hc')) as Hok. apply Forall_cons in Hok as [Ha' Hok].
  eapply Forall_forall in Hok; [| exact Hbd].
  pose proof (alloc_pad_bounds _ Ha'). pose proof (alloc_pad_bounds _ Hok).
  destruct Ha' as (_ & ? & ?), Hok as (_ & ? & ?).
  unfold objects_disjoint, blocks_disjoint, view, al_ptr in *. cbn. lia.
Qed.
End Runs.

(** * Theorems about the malloc

    Each property holds over every page allocator that keeps the promises of
    [PageAllocator]; the instances run on the buddy allocator. *)


Lemma init_inv {P} `{!PageAllocator P} (s : mstate P) :
  page_inv (m_pages s) [] -> nmalloc s = replicate (Z.to_nat LOCALBUCKETS) 0 ->
  (forall a, page_managed (m_pages s) a -> is_Some (m_ram s !! a)) ->
  exists s', bmk_memalloc_init s = Done s' /\ mem_inv s' [] /\ m_ram s' = m_ram s.
Proof.
  intros Hp Hn Hr. eexists. split; [reflexivity |]. split; [| done]. split; try done.
  - exists []. by split.
  - cbn. by rewrite Hn.
  - cbn. intros i n Hi. rewrite Hn in Hi. apply lookup_replicate in Hi as [-> _]. done.
Qed.

(** A machine with eight free pages, at 0x2000 to 0x9fff, all bytes zero. *)
Definition boot_pg : pgstate :=
  match bmk_pgalloc_loadmem pg_initial 4096 40960 with Done s => s | _ => pg_initial end.
Definition boot_heap : mstate pgstate :=
  MState boot_pg [] (replicate (Z.to_nat LOCALBUCKETS) 0) ∅
    (mem_write ∅ 8192 (replicate (Z.to_nat 32768) 0)).
Definition demo_heap : mstate pgstate :=
  match bmk_memalloc_init boot_heap with Done s => s | _ => boot_heap end.

Lemma boot_pg_inv : pg_inv boot_pg [].
Proof.
  destruct (loadmem_spec pg_initial 4096 40960) as (s & E & H).
  - done.
  - unfold W64; lia.
  - split; [lia | reflexivity].
  - reflexivity.
  - unfold boot_pg. rewrite E. exact (loaded_inv _ _ _ H).
Qed.

Lemma boot_pg_range : minpage_addr boot_pg = 8192 /\ maxpage_addr boot_pg = 40960.
Proof. split; vm_compute; reflexivity. Qed.

Lemma boot_ram : (forall a, page_managed boot_pg a -> is_Some (m_ram boot_heap !! a)) /\
  ram_bytes (m_ram boot_heap).
Proof.
  unfold boot_heap. cbn [m_ram]. split.
  - intros a Ha. change (minpage_addr boot_pg <= a < maxpage_addr boot_pg) in Ha.
    destruct boot_pg_range as [E1 E2]. rewrite E1, E2 in Ha.
    rewrite mem_write_lookup, length_replicate, bool_decide_true by lia.
    apply lookup_lt_is_Some_2. rewrite length_replicate. lia.
  - apply ram_bytes_write; [apply map_Forall_empty |].
    apply Forall_forall. intros b Hb. apply elem_of_replicate in Hb as [-> _].
    unfold byte. lia.
Qed.

Lemma demo_heap_client : client demo_heap [].
Proof.
  destruct (@init_inv pgstate buddy_pages boot_heap boot_pg_inv eq_refl (proj1 boot_ram)) as (s & E & Hinv & R).
  pose proof (proj2 boot_ram) as Hby. unfold demo_heap. rewrite E.
  split; [exact Hinv | rewrite R; exact Hby | constructor].
Qed.

(** C5. Every request with a valid alignment that does not exceed half of the
    address space returns, over any page allocator that keeps its promises.
    Either it fails and changes nothing, or the pointer is aligned as asked
    (and at least to 16), the requested bytes and the header in front of them
    lie inside one block that is disjoint from everything else held or free,
    the block is less than twice as large as needed (or the minimum of 32), no
    byte of memory outside the header is touched, and the invariant holds with
    the new allocation. *)
Theorem bmk_memalloc_correct {P} `{!PageAllocator P} (s : mstate P) live nbytes align who :
  mem_inv s live -> align_ok align -> 0 <= nbytes -> nbytes + Z.max MINALIGN align <= 2 ^ 63 ->
  exists rv s', bmk_memalloc s nbytes align who = Done (rv, s') /\
    (rv = 0 /\ s' = s \/
     exists a, rv = al_ptr a /\ rv <> 0 /\ al_bytes a = nbytes /\ al_who a = who /\
       (Z.max MINALIGN align | rv) /\ mem_inv s' (a :: live) /\ m_ram s' = m_ram s /\
       (bsize (al_blk a).2 = 32 \/ bsize (al_blk a).2 < 2 * (nbytes + Z.max MINALIGN align))).
Proof. apply memalloc_spec. Qed.

Lemma bmk_memalloc_correct_witness : exists rv s',
  bmk_memalloc demo_heap 100 64 BMK_MEMWHO_USER = Done (rv, s') /\
    (rv = 0 /\ s' = demo_heap \/ exists a, rv = al_ptr a /\ al_bytes a = 100 /\ (64 | rv)).
Proof.
  destruct (bmk_memalloc_correct demo_heap [] 100 64 BMK_MEMWHO_USER) as (rv & s' & E & H).
  - exact (cl_inv _ _ demo_heap_client).
  - right. exists 6. split; [lia | reflexivity].
  - lia.
  - vm_compute. discriminate.
  - exists rv, s'. split; [exact E |]. destruct H as [H | (a & H1 & _ & H2 & _ & H3 & _)].
    + left. exact H.
    + right. exists a. split; [exact H1 |]. split; [exact H2 | exact H3].
Defined.

(** The concrete request succeeds, in the 256-byte bucket. *)
Definition result_ptr {S} (r : outcome (Z * S)) : option Z :=
  match r with Done (p, _) => Some p | _ => None end.
Example demo_malloc : result_ptr (bmk_memalloc demo_heap 100 64 BMK_MEMWHO_USER) = Some 32832.
Proof. vm_compute. reflexivity. Qed.

(** C6. [bmk_memfree] of a live object, with the level that allocated it,
    finds the header intact and gives the block back: a small one becomes the
    head of the free list of its bucket, a large one goes to the page allocator
    with its order, and nothing else of the free memory changes.  The remaining
    objects keep the invariant and their contents.  Freeing the object with
    another level halts the system, and a null pointer changes nothing.  (What
    the function does with a pointer no allocation has returned depends on the
    bytes in front of it and is not covered.) *)
Theorem bmk_memfree_correct {P} `{!PageAllocator P} (s : mstate P) a live :
  mem_inv s (a :: live) ->
  (exists s', bmk_memfree s (al_ptr a) (al_who a) = Done s' /\ block_returned s a s' /\
     mem_inv s' live /\ m_ram s' = m_ram s) /\
  (forall who, who <> al_who a -> bmk_memfree s (al_ptr a) who = Halt "bmk_memalloc error") /\
  (forall who, bmk_memfree s 0 who = Done s).
Proof.
  intros Hinv. split; [| split; [| done]].
  - destruct (memfree_spec s a live Hinv) as (s' & E & Hinv' & R). exists s'.
    split; [done |]. split; [by eapply memfree_returned | done].
  - intros who Hw. by rewrite (memfree_unfold s a live who Hinv), bool_decide_false by congruence.
Qed.

(** The heap after a first allocation of 40 bytes: its 64-byte block is the
    first one of a page cut up for bucket 1, and freeing it puts it in front of
    the other 63. *)
Definition demo_heap1 : outcome (Z * mstate pgstate) := bmk_memalloc demo_heap 40 0 BMK_MEMWHO_USER.

Lemma bmk_memfree_correct_witness :
  exists p s1 s2, demo_heap1 = Done (p, s1) /\ bmk_memfree s1 p BMK_MEMWHO_USER = Done s2 /\ mem_inv s2 [] /\
    bmk_memfree s1 p BMK_MEMWHO_RUMPKERN = Halt "bmk_memalloc error".
Proof.
  destruct (memalloc_spec demo_heap [] 40 0 BMK_MEMWHO_USER) as (p & s1 & E & H);
    [exact (cl_inv _ _ demo_heap_client) | left; reflexivity | lia | vm_compute; discriminate |].
  destruct H as [[-> ->] | (a & -> & Hne & Hb & Hw & _ & Hinv & R & Hsz)].
  - exfalso. assert (demo_heap1 = Done (0, demo_heap)) as E' by exact E.
    assert (result_ptr demo_heap1 = Some 32784) as E2 by (vm_compute; reflexivity).
    rewrite E' in E2. discriminate E2.
  - destruct (bmk_memfree_correct s1 a [] Hinv) as ((s2 & E2 & _ & Hinv2 & _) & Hbad & _).
    exists (al_ptr a), s1, s2. split; [exact E |]. rewrite <- Hw. split; [exact E2 |]. split; [exact Hinv2 |].
    apply Hbad. rewrite Hw. discriminate.
Defined.

(** [bmk_memcalloc] of a product that fits returns an object whose [n *
    size] bytes are all zero and leaves every other byte of memory as it was;
    a product that overflows [unsigned long] is refused. *)
Theorem bmk_memcalloc_correct {P} `{!PageAllocator P} (s : mstate P) live n size who :
  u64 n -> u64 size ->
  (mem_inv s live -> n * size + MINALIGN <= 2 ^ 63 ->
   exists v s', bmk_memcalloc s n size who = Done (v, s') /\
    (v = 0 /\ s' = s \/
     exists a, v = al_ptr a /\ v <> 0 /\ al_bytes a = n * size /\ al_who a = who /\
       mem_inv s' (a :: live) /\
       (forall i, 0 <= i < n * size -> m_ram s' !! (v + i) = Some 0) /\
       (forall x, ~ (v <= x < v + n * size) -> m_ram s' !! x = m_ram s !! x))) /\
  (W64 <= n * size -> bmk_memcalloc s n size who = Done (0, s)).
Proof.
  intros Hn Hs. split.
  - intros Hinv Hfit. destruct (memcalloc_spec s live n size who Hinv Hn Hs Hfit) as (v & s' & E & H).
    exists v, s'. split; [exact E |]. destruct H as [H | (a & -> & H1 & H2 & H3 & H4 & R & _)]; [by left |].
    right. exists a. split; [done |]. split; [done |]. split; [done |]. split; [done |]. split; [done |].
    rewrite R. assert (0 <= n * size) by (unfold u64 in *; nia). split.
    + intros i Hi. replace i with (Z.of_nat (Z.to_nat i)) by lia. apply mem_write_in.
      apply lookup_replicate. split; [done | lia].
    + intros x Hx. apply mem_write_out. rewrite length_replicate. lia.
  - intros Hov. unfold bmk_memcalloc, wmul. cbv zeta. destruct Hn as [Hn0 Hn], Hs as [Hs0 Hs].
    assert (0 < size) as Hpos by (destruct (Z.eq_dec size 0); [subst; unfold W64 in *; lia | lia]).
    pose proof (wrap64_u64 (n * size)) as [Hw0 Hw].
    rewrite (proj2 (Z.eqb_neq size 0)) by lia. rewrite (proj2 (Z.eqb_neq _ n)); [done |].
    intros E. pose proof (Z.mul_div_le (wrap64 (n * size)) size Hpos) as Hd. rewrite E in Hd. lia.
Qed.

Lemma bmk_memcalloc_correct_witness :
  bmk_memcalloc demo_heap (2 ^ 40) (2 ^ 30) BMK_MEMWHO_USER = Done (0, demo_heap) /\
  exists v s', bmk_memcalloc demo_heap 3 20 BMK_MEMWHO_USER = Done (v, s').
Proof.
  split.
  - apply (bmk_memcalloc_correct demo_heap [] (2 ^ 40) (2 ^ 30) BMK_MEMWHO_USER);
      [split; [lia | reflexivity] | split; [lia | reflexivity] | intros H; discriminate H].
  - destruct (bmk_memcalloc_correct demo_heap [] 3 20 BMK_MEMWHO_USER) as [H _];
      [split; [lia | reflexivity] | split; [lia | reflexivity] |].
    destruct H as (v & s' & E & _).
    + exact (cl_inv _ _ demo_heap_client).
    + vm_compute. discriminate.
    + exists v, s'. exact E.
Defined.

(** [bmk_memrealloc_user] of a live user object of less than 2 GB: a size
    that fits the block returns the same pointer and changes nothing;
    otherwise either the allocation fails and the old object stays as it was,
    or the object moves to a new block that holds the contents of the whole
    old block, the old block is freed, and no other byte of memory changes. *)
Theorem bmk_memrealloc_user_correct {P} `{!PageAllocator P} (s : mstate P) a live nbytes :
  mem_inv s (a :: live) -> ram_bytes (m_ram s) -> al_who a = BMK_MEMWHO_USER ->
  bsize (al_blk a).2 < 2 ^ 31 -> 0 < nbytes -> nbytes + MINALIGN <= 2 ^ 63 ->
  exists np s', bmk_memrealloc_user s (al_ptr a) nbytes = Done (np, s') /\
    (np = 0 /\ s' = s \/
     np = al_ptr a /\ s' = s /\ mem_inv s (resized a nbytes :: live) \/
     exists a', np = al_ptr a' /\ np <> 0 /\ al_bytes a' = nbytes /\ mem_inv s' (a' :: live) /\
       (forall i, 0 <= i < al_bytes a -> m_ram s' !! (np + i) = m_ram s !! (al_ptr a + i)) /\
       (forall x, ~ (np <= x < np + nbytes) -> m_ram s' !! x = m_ram s !! x)).
Proof.
  intros Hinv Hr Hw Hb Hn Hfit.
  destruct (memrealloc_spec s a live nbytes Hinv Hr Hw Hb Hn Hfit) as (np & s' & E & H).
  exists np, s'. split; [exact E |].
  pose proof (Forall_inv (mi_ok _ _ Hinv)) as (_ & _ & Hroom).
  destruct H as [H | [(-> & -> & H) | (a' & H1 & H2 & H3 & _ & H4 & H5 & _ & _ & H6 & H7)]];
    [by left | right; left | right; right].
  - split; [done |]. split; [done |]. by apply mem_inv_resize; [| lia].
  - exists a'. repeat (split; [done |]). unfold al_room in *. split.
    + intros i Hi. apply H6. lia.
    + intros x Hx. apply H7. lia.
Qed.

Lemma bmk_memrealloc_user_correct_witness :
  exists p s1 np s2, demo_heap1 = Done (p, s1) /\ bmk_memrealloc_user s1 p 500 = Done (np, s2).
Proof.
  destruct (memalloc_spec demo_heap [] 40 0 BMK_MEMWHO_USER) as (p & s1 & E & H);
    [exact (cl_inv _ _ demo_heap_client) | left; reflexivity | lia | vm_compute; discriminate |].
  destruct H as [[-> ->] | (a & -> & Hne & Hb & Hw & _ & Hinv & R & Hsz)].
  - exfalso. assert (demo_heap1 = Done (0, demo_heap)) as E' by exact E.
    assert (result_ptr demo_heap1 = Some 32784) as E2 by (vm_compute; reflexivity).
    rewrite E' in E2. discriminate E2.
  - destruct (bmk_memrealloc_user_correct s1 a [] 500) as (np & s2 & E2 & _).
    + exact Hinv.
    + rewrite R. exact (cl_ram _ _ demo_heap_client).
    + exact Hw.
    + change (Z.max MINALIGN 0) with 16 in Hsz. lia.
    + lia.
    + vm_compute. discriminate.
    + exists (al_ptr a), s1, np, s2. split; [exact E | exact E2].
Defined.

(** C4. Any sequence of allocations, zeroed allocations and reallocations of up
    to 2^29 bytes (request and alignment together), frees and stores of the
    owners into their objects runs to the end over any
    page allocator that keeps its promises: no assertion fails, no header is
    ever corrupted, and the live objects are pairwise disjoint.  Once
    everything is freed, every block of every page obtained for the buckets is
    back on a free list and the page allocator has everything else.  The bound
    is there because [bmk_memrealloc_user] computes the size of the old block
    as an [int], and because sizes near 2^64 wrap in [bmk_memalloc]
    ([bmk_memalloc_wraps]). *)
Theorem mem_run_safe {P} `{!PageAllocator P} (s : mstate P) ops :
  client s [] -> Forall mop_valid ops ->
  exists s' objs, mrun ops (s, []) = Done (s', objs) /\
    (forall i j x y, i <> j -> objs !! i = Some x -> objs !! j = Some y -> objects_disjoint x y) /\
    (forall p n w, (p, n, w) ∈ objs -> 0 < p /\ p + n < W64) /\
    (objs = [] -> exists slabs, free_blks (freebuckets s') ≡ₚ slabs ≫= slab_slots /\
       page_inv (m_pages s') ((fun sl => (sl.1, 0)) <$> slabs)).
Proof.
  intros Hc Hv. destruct (mrun_good ops (s, [])) as ([s' objs] & E & als & Hc' & Ho);
    [by exists [] | done |]. cbn [fst snd] in *. subst objs.
  exists s', (view <$> als). split; [exact E |]. split; [by eapply views_disjoint |]. split.
  - intros p n w Hin. apply list_elem_of_lookup_1 in Hin as [i Hi].
    destruct (client_pick _ _ _ _ Hc' Hi) as (a & _ & [= -> -> ->] & Hc2).
    pose proof (cl_inv _ _ Hc2) as Hinv. pose proof (Forall_inv (mi_ok _ _ Hinv)) as Hok.
    pose proof (alloc_pad_bounds a Hok). destruct Hok as (_ & _ & ?).
    destruct (holds_block_ok _ _ (al_blk a) (mi_holds _ _ Hinv)) as [(? & _ & _ & ?) _]; [set_solver |].
    unfold al_ptr. lia.
  - intros Hnil. apply fmap_nil_inv in Hnil as ->.
    destruct (mi_holds _ _ (cl_inv _ _ Hc')) as (slabs & [_ _ Hb Hp _]). exists slabs.
    cbn in Hb, Hp. rewrite app_nil_r in Hb, Hp. done.
Qed.

Lemma mem_run_safe_witness : exists s' objs,
  mrun [MMalloc 24 0 BMK_MEMWHO_USER; MStore 0 23 255; MRealloc 0 100;
        MCalloc 4 2048 BMK_MEMWHO_RUMPKERN; MFree 1; MFree 0] (demo_heap, []) = Done (s', objs).
Proof.
  destruct (mem_run_safe demo_heap [MMalloc 24 0 BMK_MEMWHO_USER; MStore 0 23 255; MRealloc 0 100;
        MCalloc 4 2048 BMK_MEMWHO_RUMPKERN; MFree 1; MFree 0]) as (s' & objs & E & _).
  - exact demo_heap_client.
  - assert (u64 4 /\ u64 2048) as [H4 H2048] by (split; split; try lia; reflexivity).
    assert (align_ok 0) as H0 by (left; reflexivity).
    repeat constructor; cbn; try assumption; try lia; first [apply H4 | apply H2048].
  - exists s', objs. exact E.
Defined.

(** A request within 16 bytes of the end of the address space is treated
    as a request for nothing: adding the header wraps around, so
    [bmk_memalloc(n, ...)] behaves as [bmk_memalloc(0, ...)] and may return a
    block of 32 bytes. *)
Theorem bmk_memalloc_wraps {P} `{!PageAllocator P} (s : mstate P) nbytes who :
  W64 - MINALIGN <= nbytes < W64 ->
  bmk_memalloc s nbytes MINALIGN who = bmk_memalloc s 0 MINALIGN who.
Proof.
  intros Hn. rewrite !memalloc_unfold. change (MINALIGN <? MINALIGN) with false.
  cbv iota zeta. assert (forall n, 0 <= n < 16 -> memalloc_bucket (n + 0) = 0) as Hb.
  { intros n H. unfold memalloc_bucket. change (Z.shiftl 1 MINSHIFT) with 32.
    by rewrite (proj2 (Z.ltb_lt _ _)) by lia. }
  assert (memalloc_size nbytes MINALIGN = (nbytes + 16 - W64) + 0) as ->.
  { unfold memalloc_size. change (Z.land _ _) with 16. unfold wadd, wrap64, MINALIGN, W64 in *.
    symmetry. apply (Z.mod_unique _ _ 1); lia. }
  rewrite Hb by (unfold MINALIGN in *; lia).
  change (memalloc_bucket (memalloc_size 0 MINALIGN)) with 0. done.
Qed.

Lemma bmk_memalloc_wraps_witness :
  result_ptr (bmk_memalloc demo_heap (W64 - 1) MINALIGN BMK_MEMWHO_USER) = Some 32784.
Proof.
  rewrite (bmk_memalloc_wraps demo_heap (W64 - 1) BMK_MEMWHO_USER) by (split; [discriminate | reflexivity]).
  vm_compute. reflexivity.
Defined.
