(* ===== verification/Sched.v ===== *)
(** * The thread scheduler (lib/libbmk_core/sched.c)

    Threads are identified by the address of their [struct bmk_thread].  The
    state holds the thread structures, the queues of the file (lists of
    addresses, head first), the current thread, the interrupt mask depth of
    platform/hw and the monotonic clock.

    A call of [schedule] ends for the calling thread in a context switch, so
    the code after it runs later, when the thread is chosen again.  The
    functions that block are therefore split at the switch: [schedule] covers
    the code up to and including [sched_switch], [reaper] and [block_return]
    the code that the resumed thread executes.

    [bmk_platform_cpu_block] waits for interrupts.  What happens meanwhile is
    an input of the model: each call consumes one reply of the environment,
    the time at which it returns and the threads that interrupt handlers have
    woken up with [bmk_sched_wake]. *)

From S2P Require Import Prelude.

Definition BMK_SCHED_BLOCK_INFTIME : Z := -1.
Definition BLOCKTIME_MAX : Z := 1 * 1000 * 1000 * 1000.
Definition BMK_ETIMEDOUT : Z := 60.

Definition THR_RUNQ : Z := 1.
Definition THR_TIMEQ : Z := 2.
Definition THR_BLOCKQ : Z := 4.
Definition THR_QMASK : Z := 7.
Definition THR_RUNNING : Z := 8.
Definition THR_TIMEDOUT : Z := 16.
Definition THR_MUSTJOIN : Z := 32.
Definition THR_JOINED : Z := 64.
Definition THR_EXTSTACK : Z := 256.
Definition THR_DEAD : Z := 512.
Definition THR_BLOCKPREP : Z := 1024.

(** [flags & mask] as a condition. *)
Definition has (flags mask : Z) : bool := negb (Z.land flags mask =? 0).

Record bmk_thread := Thread {
  bt_wakeup_time : Z;
  bt_flags : Z;
  bt_stackbase : Z;
  bt_cookie : Z;
}.

Record sched := Sched {
  threads : gmap Z bmk_thread;
  threadq : list Z;
  zombieq : list Z;
  runq : list Z;
  blockq : list Z;
  timeq : list Z;
  joinwq : list (Z * Z);   (* jw_thread, jw_wanted *)
  bmk_current : Z;
  spldepth : Z;
  clock : Z;
}.

Definition set_threads v s := Sched v (threadq s) (zombieq s) (runq s) (blockq s) (timeq s) (joinwq s) (bmk_current s) (spldepth s) (clock s).
Definition set_threadq v s := Sched (threads s) v (zombieq s) (runq s) (blockq s) (timeq s) (joinwq s) (bmk_current s) (spldepth s) (clock s).
Definition set_zombieq v s := Sched (threads s) (threadq s) v (runq s) (blockq s) (timeq s) (joinwq s) (bmk_current s) (spldepth s) (clock s).
Definition set_runq v s := Sched (threads s) (threadq s) (zombieq s) v (blockq s) (timeq s) (joinwq s) (bmk_current s) (spldepth s) (clock s).
Definition set_blockq v s := Sched (threads s) (threadq s) (zombieq s) (runq s) v (timeq s) (joinwq s) (bmk_current s) (spldepth s) (clock s).
Definition set_timeq v s := Sched (threads s) (threadq s) (zombieq s) (runq s) (blockq s) v (joinwq s) (bmk_current s) (spldepth s) (clock s).
Definition set_joinwq v s := Sched (threads s) (threadq s) (zombieq s) (runq s) (blockq s) (timeq s) v (bmk_current s) (spldepth s) (clock s).
Definition set_current v s := Sched (threads s) (threadq s) (zombieq s) (runq s) (blockq s) (timeq s) (joinwq s) v (spldepth s) (clock s).
Definition set_spl v s := Sched (threads s) (threadq s) (zombieq s) (runq s) (blockq s) (timeq s) (joinwq s) (bmk_current s) v (clock s).
Definition set_clock v s := Sched (threads s) (threadq s) (zombieq s) (runq s) (blockq s) (timeq s) (joinwq s) (bmk_current s) (spldepth s) v.

(** ** Interrupt level (platform/hw/kernel.c, inline.h) *)

(** Returns the previous level, which is always 0 on this platform. *)
Definition bmk_platform_splhigh (s : sched) : Z * sched := (0, set_spl (spldepth s + 1) s).
Definition bmk_platform_splx (s : sched) (x : Z) : outcome sched :=
  if spldepth s =? 0 then Halt "out of interrupt depth!" else Done (set_spl (spldepth s - 1) s).

(** ** Threads and queues *)

Definition thread_at (s : sched) (t : Z) : outcome bmk_thread :=
  of_option "struct bmk_thread" (threads s !! t).
Definition with_flags (f : Z) (th : bmk_thread) : bmk_thread :=
  Thread (bt_wakeup_time th) f (bt_stackbase th) (bt_cookie th).
Definition with_wakeup (w : Z) (th : bmk_thread) : bmk_thread :=
  Thread w (bt_flags th) (bt_stackbase th) (bt_cookie th).
Definition put (t : Z) (th : bmk_thread) (s : sched) : sched := set_threads (<[t := th]> (threads s)) s.

Definition newflags (fl add remove : Z) : Z := Z.lor (Z.land fl (Z.lnot remove)) add.
Definition setflags (s : sched) (t add remove : Z) : outcome sched :=
  th ← thread_at s t;
  Done (put t (with_flags (newflags (bt_flags th) add remove) th) s).

Definition TAILQ_REMOVE (q : list Z) (t : Z) : outcome (list Z) :=
  if bool_decide (t ∈ q) then Done (filter (fun x => x <> t) q) else Undef "TAILQ_REMOVE".

Definition set_runnable (s : sched) (t : Z) : outcome sched :=
  th ← thread_at s t;
  let tflags := bt_flags th in
  if Z.land tflags THR_RUNQ =? THR_RUNQ then Done s
  else
    let q := Z.land tflags THR_QMASK in
    if negb (q =? THR_TIMEQ) && negb (q =? THR_BLOCKQ) then
      if Z.land tflags (Z.lor THR_RUNNING THR_QMASK) =? THR_RUNNING then Done s
      else Halt "invalid thread queue"
    else
      let '(flags, s) := bmk_platform_splhigh s in
      s ← (if q =? THR_TIMEQ
           then tq ← TAILQ_REMOVE (timeq s) t; Done (set_timeq tq s)
           else tq ← TAILQ_REMOVE (blockq s) t; Done (set_blockq tq s));
      s ← setflags s t THR_RUNQ THR_QMASK;
      let s := set_runq (runq s ++ [t]) s in
      bmk_platform_splx s flags.

Definition bmk_sched_wake (s : sched) (t : Z) : outcome sched :=
  th ← thread_at s t;
  set_runnable (put t (with_wakeup BMK_SCHED_BLOCK_INFTIME th) s) t.

(** [TAILQ_FOREACH(iter, &timeq, ...) if (iter->bt_wakeup_time > w) insert
    before]: [None] when no such [iter] exists. *)
Fixpoint insert_before_later (s : sched) (t w : Z) (q : list Z) : outcome (option (list Z)) :=
  match q with
  | [] => Done None
  | iter :: q' =>
      it ← thread_at s iter;
      if w <? bt_wakeup_time it then Done (Some (t :: q))
      else
        r ← insert_before_later s t w q';
        Done (option_map (cons iter) r)
  end.

Definition timeq_sorted_insert (s : sched) (t : Z) : outcome sched :=
  th ← thread_at s t;
  let w := bt_wakeup_time th in
  _ ← bmk_assert (negb (w =? BMK_SCHED_BLOCK_INFTIME)) "bt_wakeup_time != BMK_SCHED_BLOCK_INFTIME";
  if bool_decide (timeq s = []) then Done (set_timeq [t] s)
  else
    r ← insert_before_later s t w (timeq s);
    match r with
    | Some q => Done (set_timeq q s)
    | None =>
        lst ← of_option "TAILQ_LAST" (last (timeq s));
        lth ← thread_at s lst;
        _ ← bmk_assert (bt_wakeup_time lth <=? w) "TAILQ_LAST(&timeq)->bt_wakeup_time <= bt_wakeup_time";
        Done (set_timeq (timeq s ++ [t]) s)
    end.

Definition clear_runnable (s : sched) : outcome sched :=
  let thread := bmk_current s in
  th ← thread_at s thread;
  _ ← bmk_assert (has (bt_flags th) THR_RUNNING) "bt_flags & THR_RUNNING";
  _ ← bmk_assert (Z.land (bt_flags th) THR_RUNQ =? 0) "(bt_flags & THR_RUNQ) == 0";
  let newfl := bt_flags th in
  '(newfl, s) ←
    (if negb (bt_wakeup_time th =? BMK_SCHED_BLOCK_INFTIME) then
       s ← timeq_sorted_insert s thread;
       Done (Z.lor newfl THR_TIMEQ, s)
     else Done (Z.lor newfl THR_BLOCKQ, set_blockq (blockq s ++ [thread]) s));
  th ← thread_at s thread;
  Done (put thread (with_flags newfl th) s).

Definition bmk_sched_blockprepare_timeout (s : sched) (deadline : Z) : outcome sched :=
  let thread := bmk_current s in
  th ← thread_at s thread;
  _ ← bmk_assert (Z.land (bt_flags th) THR_BLOCKPREP =? 0) "(bt_flags & THR_BLOCKPREP) == 0";
  let '(flags, s) := bmk_platform_splhigh s in
  let s := put thread (with_flags (Z.lor (bt_flags th) THR_BLOCKPREP) (with_wakeup deadline th)) s in
  s ← clear_runnable s;
  bmk_platform_splx s flags.

Definition bmk_sched_blockprepare (s : sched) : outcome sched :=
  bmk_sched_blockprepare_timeout s BMK_SCHED_BLOCK_INFTIME.

(** ** The scheduler proper *)

Definition reply : Type := Z * list Z.

Fixpoint wake_all (s : sched) (ts : list Z) : outcome sched :=
  match ts with
  | [] => Done s
  | t :: ts => s ← bmk_sched_wake s t; wake_all s ts
  end.

(** The interrupts are enabled while the CPU waits; handlers run at level 0. *)
Definition bmk_platform_cpu_block (s : sched) (r : reply) : outcome sched :=
  _ ← bmk_assert (0 <? spldepth s) "spldepth > 0";
  let spl := spldepth s in
  s ← wake_all (set_clock r.1 (set_spl 0 s)) r.2;
  Done (set_spl spl s).

(** [while ((thread = TAILQ_FIRST(&timeq)) != NULL)]: wakes up the expired
    threads and returns the next wake-up time. *)
Fixpoint expire_timeouts (fuel : nat) (s : sched) (curtime waketime : Z) : outcome (Z * sched) :=
  match fuel with
  | O => Undef "schedule: out of fuel"
  | S fuel =>
      match timeq s with
      | [] => Done (waketime, s)
      | thread :: _ =>
          th ← thread_at s thread;
          if bt_wakeup_time th <=? curtime then
            let s := put thread (with_flags (Z.lor (bt_flags th) THR_TIMEDOUT) th) s in
            s ← bmk_sched_wake s thread;
            expire_timeouts fuel s curtime waketime
          else Done (if bt_wakeup_time th <? waketime then bt_wakeup_time th else waketime, s)
      end
  end.

(** The [for (;;)] loop: the thread to run next, or [None] when the replies
    are used up and the CPU is still waiting. *)
Fixpoint schedule_loop (env : list reply) (s : sched) : outcome (option Z * sched) :=
  let curtime := clock s in
  '(waketime, s) ← expire_timeouts (S (length (timeq s))) s curtime (curtime + BLOCKTIME_MAX);
  match runq s with
  | next :: _ =>
      th ← thread_at s next;
      _ ← bmk_assert (has (bt_flags th) THR_RUNQ) "next->bt_flags & THR_RUNQ";
      _ ← bmk_assert (Z.land (bt_flags th) THR_DEAD =? 0) "(next->bt_flags & THR_DEAD) == 0";
      Done (Some next, s)
  | [] =>
      match env with
      | [] => Done (None, s)
      | r :: env => s ← bmk_platform_cpu_block s r; schedule_loop env s
      end
  end.

Definition sched_switch (s : sched) (prev next : Z) : outcome sched :=
  th ← thread_at s next;
  _ ← bmk_assert (has (bt_flags th) THR_RUNNING) "next->bt_flags & THR_RUNNING";
  _ ← bmk_assert (Z.land (bt_flags th) THR_QMASK =? 0) "(next->bt_flags & THR_QMASK) == 0";
  Done (set_current next s).

(** [schedule] from the loop to the point where the chosen thread runs; the
    flag is false when no thread has become runnable yet. *)
Definition schedule_from (env : list reply) (flags : Z) (s : sched) : outcome (bool * sched) :=
  let prev := bmk_current s in
  '(next, s) ← schedule_loop env s;
  match next with
  | None => Done (false, s)
  | Some next =>
      s ← setflags s prev 0 THR_RUNNING;
      rq ← TAILQ_REMOVE (runq s) next;
      s ← setflags (set_runq rq s) next THR_RUNNING THR_RUNQ;
      s ← bmk_platform_splx s flags;
      s ← (if negb (prev =? next) then sched_switch s prev next else Done s);
      Done (true, s)
  end.

Definition schedule (env : list reply) (s : sched) : outcome (bool * sched) :=
  let '(flags, s) := bmk_platform_splhigh s in
  if negb (flags =? 0) then Halt "schedule() called at !spl0" else schedule_from env flags s.

(** The reaper, at the end of [schedule]: frees the structures of dead
    threads and returns the stacks it gives to [bmk_pgfree]. *)
Fixpoint reaper (fuel : nat) (s : sched) : outcome (list Z * sched) :=
  match fuel with
  | O => Undef "reaper: out of fuel"
  | S fuel =>
      match zombieq s with
      | [] => Done ([], s)
      | thread :: _ =>
          zq ← TAILQ_REMOVE (zombieq s) thread;
          th ← thread_at s thread;
          let stack := if Z.land (bt_flags th) THR_EXTSTACK =? 0 then [bt_stackbase th] else [] in
          '(freed, s) ← reaper fuel (set_threads (delete thread (threads s)) (set_zombieq zq s));
          Done (stack ++ freed, s)
      end
  end.
Definition run_reaper (s : sched) : outcome (list Z * sched) := reaper (S (length (zombieq s))) s.

(** ** Thread operations *)

(** [bmk_sched_create_withtls], with the address [bmk_xmalloc_bmk] returned
    and the stack of the caller or of [stackalloc]. *)
Definition bmk_sched_create (s : sched) (thread stack cookie : Z) (extstack joinable : bool)
    : outcome (Z * sched) :=
  let fl := if extstack then THR_EXTSTACK else 0 in
  let fl := if joinable then Z.lor fl THR_MUSTJOIN else fl in
  let s := put thread (Thread BMK_SCHED_BLOCK_INFTIME fl stack cookie) s in
  let s := set_threadq (threadq s ++ [thread]) s in
  let '(flags, s) := bmk_platform_splhigh s in
  let s := set_runq (runq s ++ [thread]) s in
  th ← thread_at s thread;
  let s := put thread (with_flags (Z.lor (bt_flags th) THR_RUNQ) th) s in
  s ← bmk_platform_splx s flags;
  Done (thread, s).

(** [bmk_sched_block] up to the switch, and after it. *)
Definition block_enter (env : list reply) (s : sched) : outcome (bool * sched) :=
  th ← thread_at s (bmk_current s);
  _ ← bmk_assert (Z.land (bt_flags th) THR_TIMEDOUT =? 0) "(bt_flags & THR_TIMEDOUT) == 0";
  _ ← bmk_assert (has (bt_flags th) THR_BLOCKPREP) "bt_flags & THR_BLOCKPREP";
  schedule env s.
Definition block_return (s : sched) : outcome (Z * sched) :=
  let thread := bmk_current s in
  th ← thread_at s thread;
  let tflags := bt_flags th in
  let s := put thread (with_flags
    (Z.land tflags (Z.lnot (Z.lor THR_TIMEDOUT THR_BLOCKPREP))) th) s in
  Done (if has tflags THR_TIMEDOUT then BMK_ETIMEDOUT else 0, s).

Definition bmk_sched_yield (env : list reply) (s : sched) : outcome (bool * sched) :=
  let thread := bmk_current s in
  th ← thread_at s thread;
  _ ← bmk_assert (has (bt_flags th) THR_RUNNING) "bt_flags & THR_RUNNING";
  let '(flags, s) := bmk_platform_splhigh s in
  s ← setflags s thread THR_RUNQ THR_RUNNING;
  let s := set_runq (runq s ++ [thread]) s in
  s ← bmk_platform_splx s flags;
  schedule env s.

(** One round of the gate of [bmk_sched_exit_withtls]: either the thread has
    to wait for its joiner ([true]) and blocks, or it is dead and switches
    away for good. *)
Definition exit_round (env : list reply) (s : sched) : outcome (bool * bool * sched) :=
  let thread := bmk_current s in
  let '(flags, s) := bmk_platform_splhigh s in
  th ← thread_at s thread;
  if has (bt_flags th) THR_MUSTJOIN then
    let s := put thread (with_flags (Z.lor (bt_flags th) THR_JOINED) th) s in
    s ← bmk_platform_splx s flags;
    s ← match List.find (fun jw => snd jw =? thread) (joinwq s) with
        | Some (jw_thread, _) => bmk_sched_wake s jw_thread
        | None => Done s
        end;
    s ← bmk_sched_blockprepare s;
    '(sw, s) ← block_enter env s;
    Done (true, sw, s)
  else
    _ ← bmk_assert (Z.land (bt_flags th) THR_QMASK =? 0) "(bt_flags & THR_QMASK) == 0";
    tq ← TAILQ_REMOVE (threadq s) thread;
    s ← setflags (set_threadq tq s) thread THR_DEAD THR_RUNNING;
    let s := set_zombieq (thread :: zombieq s) s in
    s ← bmk_platform_splx s flags;
    '(sw, s) ← schedule env s;
    Done (false, sw, s).

(** One round of the loop of [bmk_sched_join]: [true] when the thread has to
    block, [false] when the join is complete. *)
Definition join_round (env : list reply) (s : sched) (joinable : Z) : outcome (bool * bool * sched) :=
  let thread := bmk_current s in
  let '(flags, s) := bmk_platform_splhigh s in
  jt ← thread_at s joinable;
  if Z.land (bt_flags jt) THR_JOINED =? 0 then
    s ← bmk_platform_splx s flags;
    let s := set_joinwq (joinwq s ++ [(thread, joinable)]) s in
    s ← bmk_sched_blockprepare s;
    '(sw, s) ← block_enter env s;
    Done (true, sw, s)
  else
    _ ← bmk_assert (has (bt_flags jt) THR_JOINED) "joinable->bt_flags & THR_JOINED";
    let s := put joinable (with_flags (Z.land (bt_flags jt) (Z.lnot THR_MUSTJOIN)) jt) s in
    s ← bmk_platform_splx s flags;
    s ← bmk_sched_wake s joinable;
    Done (false, true, s).

(** [bmk_sched_join] checks that the thread can be joined, then loops. *)
Definition join_enter (env : list reply) (s : sched) (joinable : Z) : outcome (bool * bool * sched) :=
  jt ← thread_at s joinable;
  _ ← bmk_assert (has (bt_flags jt) THR_MUSTJOIN) "joinable->bt_flags & THR_MUSTJOIN";
  join_round env s joinable.

(** After the block: [TAILQ_REMOVE(&joinwq, &jw, jw_entries)]. *)
Definition join_unwait (s : sched) (thread : Z) : sched :=
  set_joinwq (filter (fun jw => fst jw <> thread) (joinwq s)) s.

(** [bmk_sched_startmain]: the state in which the main thread runs. *)
Definition bmk_sched_startmain (s : sched) (mainthread stack : Z) : outcome sched :=
  '(mainthread, s) ← bmk_sched_create s mainthread stack 0 true false;
  rq ← TAILQ_REMOVE (runq s) mainthread;
  s ← setflags (set_runq rq s) mainthread THR_RUNNING THR_RUNQ;
  sched_switch s 0 mainthread.

Definition sched_boot : sched := Sched ∅ [] [] [] [] [] [] 0 0 0.
