(* ===== verification/SchedInv.v ===== *)
(** * The scheduler invariant

    The comments at the top of sched.c as a predicate: the flags of a thread
    say on which queue it is, a thread is on at most one scheduling queue, the
    current thread is the only one running, every other live thread waits on
    some queue, dead threads are on the zombie queue only, and the timeout
    queue is sorted by wake-up time. *)

From S2P Require Import Prelude Sched.

Definition tb (th : bmk_thread) (i : Z) : bool := Z.testbit (bt_flags th) i.

(** The queues whose membership is recorded in a flag. *)
Inductive qid := QRun | QTime | QBlock | QZombie.
Global Instance qid_eq_dec : EqDecision qid.
Proof. solve_decision. Defined.
Definition qbit (q : qid) : Z := match q with QRun => 0 | QTime => 1 | QBlock => 2 | QZombie => 9 end.
Definition queue (s : sched) (q : qid) : list Z :=
  match q with QRun => runq s | QTime => timeq s | QBlock => blockq s | QZombie => zombieq s end.

(** What the flags of a thread may be: for a thread that is not current, for
    the current thread in its own code, and for the current thread while
    [schedule] looks for another one. *)
Inductive mode := Other | Current | Leaving.
Definition flags_ok (m : mode) (r t b run dead prep : bool) : bool :=
  negb (r && t) && negb (r && b) && negb (t && b) && implb dead (negb (r || t || b)) &&
  implb (t || b) prep &&
  match m with
  | Other => negb run && (dead || r || t || b)
  | Current => run && negb dead && implb r prep
  | Leaving => dead || r || t || b
  end.
Definition th_ok (m : mode) (th : bmk_thread) : bool :=
  flags_ok m (tb th 0) (tb th 1) (tb th 2) (tb th 3) (tb th 9) (tb th 10).

Definition wk (s : sched) (t : Z) : Z :=
  default BMK_SCHED_BLOCK_INFTIME (bt_wakeup_time <$> threads s !! t).

Definition mode_of (m : mode) (s : sched) (t : Z) : mode :=
  if decide (t = bmk_current s) then m else Other.

Record wf (m : mode) (s : sched) : Prop := {
  wf_cur : is_Some (threads s !! bmk_current s);
  wf_flags : forall t th, threads s !! t = Some th -> th_ok (mode_of m s t) th = true;
  wf_q : forall q t, t ∈ queue s q <-> exists th, threads s !! t = Some th /\ tb th (qbit q) = true;
  wf_nd : forall q, NoDup (queue s q);
  wf_threadq : forall t, t ∈ threadq s <-> exists th, threads s !! t = Some th /\ tb th 9 = false;
  wf_threadq_nd : NoDup (threadq s);
  wf_sorted : StronglySorted (fun a b => wk s a <= wk s b) (timeq s);
  wf_wk : forall t, t ∈ timeq s -> wk s t <> BMK_SCHED_BLOCK_INFTIME;
}.

(** Computes the fields of an updated state. *)
Ltac sproj := cbn [threads threadq zombieq runq blockq timeq joinwq bmk_current spldepth clock put
  set_threads set_threadq set_zombieq set_runq set_blockq set_timeq set_joinwq set_current set_spl
  set_clock bt_flags bt_wakeup_time bt_stackbase bt_cookie with_flags with_wakeup queue fst snd].

(** ** Flag arithmetic *)

Lemma has_mask f m i : m = 2 ^ i -> 0 <= i -> has f m = Z.testbit f i.
Proof. intros -> H. unfold has. rewrite land_pow2_eqb by done. apply negb_involutive. Qed.

Lemma clear_mask f m i : m = 2 ^ i -> 0 <= i -> (Z.land f m =? 0) = negb (Z.testbit f i).
Proof. intros ->. apply land_pow2_eqb. Qed.

Lemma newflags_bit fl add remove i : 0 <= i ->
  Z.testbit (newflags fl add remove) i = Z.testbit fl i && negb (Z.testbit remove i) || Z.testbit add i.
Proof. intros H. unfold newflags. by rewrite Z.lor_spec, Z.land_spec, Z.lnot_spec. Qed.

(** [flags & THR_QMASK] by its three bits. *)
Lemma land_qmask f : Z.land f THR_QMASK =
  Z.b2z (Z.testbit f 0) + 2 * Z.b2z (Z.testbit f 1) + 4 * Z.b2z (Z.testbit f 2).
Proof.
  unfold THR_QMASK. change 7 with (Z.ones 3). rewrite Z.land_ones by lia.
  rewrite (Z.div_mod (f mod 2 ^ 3) 2) at 1 by lia.
  rewrite (Z.div_mod (f mod 2 ^ 3 / 2) 2) at 1 by lia.
  assert (forall x, Z.b2z (Z.odd x) = x mod 2) as Ho.
  { intros x. rewrite Zmod_odd. by destruct (Z.odd x). }
  assert (forall i, 0 <= i -> Z.b2z (Z.testbit f i) = (f / 2 ^ i) mod 2) as Hb.
  { intros i Hi. by rewrite Z.testbit_spec' by done. }
  rewrite !Hb by lia. change (2 ^ 0) with 1. change (2 ^ 1) with 2. change (2 ^ 2) with 4. change (2 ^ 3) with 8.
  rewrite Z.div_1_r. Z.div_mod_to_equations. lia.
Qed.

Lemma land_runmask f : Z.land f (Z.lor THR_RUNNING THR_QMASK) =
  Z.land f THR_QMASK + 8 * Z.b2z (Z.testbit f 3).
Proof.
  rewrite land_qmask. change (Z.lor THR_RUNNING THR_QMASK) with (Z.ones 4). rewrite Z.land_ones by lia.
  assert (forall i, 0 <= i -> Z.b2z (Z.testbit f i) = (f / 2 ^ i) mod 2) as Hb.
  { intros i Hi. by rewrite Z.testbit_spec' by done. }
  rewrite !Hb by lia. change (2 ^ 0) with 1. change (2 ^ 1) with 2. change (2 ^ 2) with 4.
  change (2 ^ 3) with 8. change (2 ^ 4) with 16. rewrite Z.div_1_r. Z.div_mod_to_equations. lia.
Qed.

Lemma thread_at_Some s t th : threads s !! t = Some th -> thread_at s t = Done th.
Proof. intros H. unfold thread_at. by rewrite H. Qed.

Lemma setflags_Some s t th add remove : threads s !! t = Some th ->
  setflags s t add remove = Done (put t (with_flags (newflags (bt_flags th) add remove) th) s).
Proof. intros H. unfold setflags. by rewrite (thread_at_Some _ _ _ H). Qed.

(** Simplifies the bits of updated flags. *)
Lemma tb_with_flags f th i : tb (with_flags f th) i = Z.testbit f i.
Proof. done. Qed.
Lemma tb_with_wakeup w th i : tb (with_wakeup w th) i = tb th i.
Proof. done. Qed.
Lemma tb_fold th i : Z.testbit (bt_flags th) i = tb th i.
Proof. done. Qed.

Ltac tb_simpl :=
  rewrite ?tb_with_flags, ?tb_with_wakeup, ?newflags_bit, ?Z.lor_spec, ?Z.land_spec, ?Z.lnot_spec by lia;
  rewrite ?tb_fold;
  repeat match goal with
  | |- context [Z.testbit ?c ?i] =>
      lazymatch c with
      | THR_RUNQ => idtac | THR_TIMEQ => idtac | THR_BLOCKQ => idtac | THR_QMASK => idtac
      | THR_RUNNING => idtac | THR_TIMEDOUT => idtac | THR_MUSTJOIN => idtac
      | THR_JOINED => idtac | THR_EXTSTACK => idtac | THR_DEAD => idtac | THR_BLOCKPREP => idtac
      | 0 => idtac
      end;
      let v := eval vm_compute in (Z.testbit c i) in change (Z.testbit c i) with v
  end;
  rewrite ?andb_true_r, ?andb_false_r, ?orb_true_r, ?orb_false_r; cbn [negb andb orb].

(** ** Lists *)

Lemma ss_filter {A} (R R' : A -> A -> Prop) (Q : A -> Prop) `{!forall x, Decision (Q x)} l :
  StronglySorted R l ->
  (forall x y, x ∈ l -> y ∈ l -> Q x -> Q y -> R x y -> R' x y) -> StronglySorted R' (filter Q l).
Proof.
  induction 1 as [| x l Hl IH Hx]; intros HR; [constructor |]. rewrite filter_cons.
  assert (StronglySorted R' (filter Q l)) as IH' by (apply IH; set_solver).
  destruct (decide (Q x)); [| done]. constructor; [done |].
  apply Forall_forall. intros y Hy. apply list_elem_of_filter in Hy as [Hq Hy].
  rewrite Forall_forall in Hx. apply HR; [set_solver | set_solver | done | done | auto].
Qed.

Lemma ss_ext {A} (R R' : A -> A -> Prop) l :
  StronglySorted R l -> (forall x y, x ∈ l -> y ∈ l -> R x y -> R' x y) -> StronglySorted R' l.
Proof.
  induction 1 as [| x l Hl IH Hx]; intros HR; [constructor |]. constructor.
  - apply IH. set_solver.
  - apply Forall_forall. intros y Hy. rewrite Forall_forall in Hx. apply HR; set_solver.
Qed.

Lemma TAILQ_REMOVE_in q t : t ∈ q -> TAILQ_REMOVE q t = Done (filter (fun x => x <> t) q).
Proof. intros H. unfold TAILQ_REMOVE. by rewrite bool_decide_true. Qed.

(** ** Updating one thread *)

Lemma wk_put s s' t th : threads s' = <[t := th]> (threads s) ->
  forall x, wk s' x = if decide (x = t) then bt_wakeup_time th else wk s x.
Proof.
  intros E x. unfold wk. rewrite E. destruct (decide (x = t)) as [-> | Hne].
  - by rewrite lookup_insert_eq.
  - by rewrite lookup_insert_ne.
Qed.

Lemma wf_update m m' s s' t th th' :
  wf m s -> threads s !! t = Some th -> threads s' = <[t := th']> (threads s) ->
  bmk_current s' = bmk_current s -> threadq s' = threadq s -> tb th' 9 = tb th 9 ->
  (forall q x, x <> t -> x ∈ queue s' q <-> x ∈ queue s q) ->
  (forall q, t ∈ queue s' q <-> tb th' (qbit q) = true) ->
  (forall q, NoDup (queue s' q)) ->
  th_ok (mode_of m' s t) th' = true ->
  (t = bmk_current s \/ m' = m) ->
  StronglySorted (fun a b => wk s' a <= wk s' b) (timeq s') ->
  (tb th' 1 = true -> bt_wakeup_time th' <> BMK_SCHED_BLOCK_INFTIME) ->
  wf m' s'.
Proof.
  intros [Hc Hf Hq Hnd Htq Htn Hs Hw] Ht Es Ec Etq Hd Hqx Hqt Hnd' Hok Hm Hsort Hwk.
  assert (forall x, x <> t -> mode_of m' s x = mode_of m s x) as Hmode.
  { intros x Hx. unfold mode_of. destruct Hm as [-> | ->]; [| done]. by rewrite !decide_False. }
  split; rewrite ?Es, ?Ec, ?Etq.
  - destruct (decide (bmk_current s = t)) as [-> | Hne]; [by rewrite lookup_insert_eq |].
    by rewrite lookup_insert_ne.
  - intros x xh Hx. unfold mode_of. rewrite Ec. fold (mode_of m' s x).
    destruct (decide (x = t)) as [-> | Hne].
    + rewrite lookup_insert_eq in Hx. by simplify_eq.
    + rewrite lookup_insert_ne in Hx by done. rewrite Hmode by done. by apply Hf.
  - intros q x. destruct (decide (x = t)) as [-> | Hne].
    + rewrite Hqt, lookup_insert_eq. naive_solver.
    + rewrite Hqx, Hq, lookup_insert_ne by done. done.
  - done.
  - intros x. rewrite Htq. destruct (decide (x = t)) as [-> | Hne].
    + rewrite lookup_insert_eq. naive_solver congruence.
    + by rewrite lookup_insert_ne.
  - done.
  - done.
  - intros x Hx. rewrite (wk_put s s' t th' Es). destruct (decide (x = t)) as [-> | Hne].
    + apply Hwk. by apply (Hqt QTime).
    + apply Hw. by apply (Hqx QTime).
Qed.

(** Changing a thread without touching its queues. *)
Lemma wf_put m m' s t th th' :
  wf m s -> threads s !! t = Some th ->
  (forall q, tb th' (qbit q) = tb th (qbit q)) -> th_ok (mode_of m' s t) th' = true ->
  (t = bmk_current s \/ m' = m) -> (tb th 1 = true -> bt_wakeup_time th' = bt_wakeup_time th) ->
  wf m' (put t th' s).
Proof.
  intros Hwf Ht Hb Hok Hm Hw.
  assert (forall x, x ∈ timeq s -> wk (put t th' s) x = wk s x) as Hwk.
  { intros x Hx. rewrite (wk_put s _ t th') by done. destruct (decide (x = t)) as [-> | ?]; [| done].
    apply (wf_q _ _ Hwf QTime) in Hx as (th0 & E & Hb0). rewrite Ht in E. simplify_eq.
    unfold wk. rewrite Ht. cbn. auto. }
  eapply (wf_update m m' s _ t th th'); try done.
  - exact (Hb QZombie).
  - intros q. rewrite Hb. split.
    + intros (th0 & E & ?)%(wf_q _ _ Hwf). rewrite Ht in E. by simplify_eq.
    + intros H. apply (wf_q _ _ Hwf). eauto.
  - apply Hwf.
  - eapply ss_ext; [apply Hwf |]. cbn. intros x y Hx Hy. by rewrite !Hwk.
  - intros H. assert (tb th' 1 = tb th 1) as Hb1 by exact (Hb QTime). rewrite Hw by congruence.
    pose proof (wf_wk _ _ Hwf t) as Hk. unfold wk in Hk. rewrite Ht in Hk. cbn in Hk. apply Hk.
    apply (wf_q _ _ Hwf QTime). exists th. split; [done |]. change (tb th 1 = true). congruence.
Qed.

(** Fields the invariant does not depend on. *)
Lemma wf_ext m s s' : wf m s -> threads s' = threads s -> (forall q, queue s' q = queue s q) ->
  threadq s' = threadq s -> bmk_current s' = bmk_current s -> wf m s'.
Proof.
  intros [Hc Hf Hq Hnd Htq Htn Hs Hw] E1 E2 E3 E4.
  assert (forall t, wk s' t = wk s t) as Ek by (intros; unfold wk; by rewrite E1).
  pose proof (E2 QTime) as Et. cbn in Et.
  split; rewrite ?E1, ?E3, ?E4; try done.
  - intros t th. unfold mode_of. rewrite E4. apply Hf.
  - intros q. rewrite E2. apply Hq.
  - intros q. rewrite E2. apply Hnd.
  - rewrite Et. eapply ss_ext; [exact Hs |]. cbn. intros x y _ _. by rewrite !Ek.
  - rewrite Et. intros t. rewrite Ek. apply Hw.
Qed.
