(* ===== verification/SchedProps.v ===== *)
(** * The scheduler operations keep the invariant *)

From S2P Require Import Prelude Sched SchedInv.

Definition alive (s : sched) (t : Z) : Prop := exists th, threads s !! t = Some th /\ tb th 9 = false.

(** ** Waking a thread *)

Definition queued (th : bmk_thread) : bool := tb th 1 || tb th 2.
Definition woken_thread (th : bmk_thread) : bmk_thread :=
  with_flags (if queued th then newflags (bt_flags th) THR_RUNQ THR_QMASK else bt_flags th)
    (with_wakeup BMK_SCHED_BLOCK_INFTIME th).

Definition woken (s : sched) (t : Z) (th : bmk_thread) : sched :=
  Sched (<[t := woken_thread th]> (threads s)) (threadq s) (zombieq s)
    (if queued th then runq s ++ [t] else runq s)
    (filter (fun x => x <> t) (blockq s)) (filter (fun x => x <> t) (timeq s))
    (joinwq s) (bmk_current s) (spldepth s) (clock s).

Lemma filter_notin (t : Z) (l : list Z) : t ∉ l -> filter (fun x => x <> t) l = l.
Proof. intros H. apply filter_all, Forall_forall. intros x Hx ->. done. Qed.

Lemma wf_in m s q t th : wf m s -> threads s !! t = Some th -> t ∈ queue s q <-> tb th (qbit q) = true.
Proof.
  intros Hwf Ht. rewrite (wf_q _ _ Hwf). split; [intros (th' & E & H) | by eauto].
  rewrite Ht in E. by simplify_eq.
Qed.

Lemma wf_notin m s q t th : wf m s -> threads s !! t = Some th -> tb th (qbit q) = false -> t ∉ queue s q.
Proof. intros Hwf Ht Hb Hin. apply (wf_in m s q t th Hwf Ht) in Hin. congruence. Qed.

(** Case analysis on the six relevant flags of a thread. *)
Ltac th_bits th H :=
  let r := fresh "r" in let t := fresh "t" in let b := fresh "b" in
  let run := fresh "run" in let d := fresh "d" in let p := fresh "p" in
  unfold th_ok in H;
  destruct (tb th 0) eqn:r, (tb th 1) eqn:t, (tb th 2) eqn:b, (tb th 3) eqn:run,
    (tb th 9) eqn:d, (tb th 10) eqn:p; cbn in H; try discriminate H.

Lemma th_ok_wakeup m w th : th_ok m (with_wakeup w th) = th_ok m th.
Proof. done. Qed.

Lemma woken_ok m th : th_ok m th = true -> tb th 9 = false -> th_ok m (woken_thread th) = true.
Proof.
  intros H Hd. unfold woken_thread, queued. unfold th_ok in *. tb_simpl.
  destruct (tb th 1) eqn:E1, (tb th 2) eqn:E2; cbn [orb]; tb_simpl; rewrite ?E1, ?E2 in *;
    destruct m, (tb th 0), (tb th 3), (tb th 9), (tb th 10); done.
Qed.

Lemma runq_bit th : (Z.land (bt_flags th) THR_RUNQ =? THR_RUNQ) = tb th 0.
Proof.
  change THR_RUNQ with (Z.ones 1). rewrite Z.land_ones by lia. change (2 ^ 1) with 2.
  unfold tb. rewrite Z.bit0_odd, Zmod_odd. by destruct (Z.odd _).
Qed.

Lemma wake_Done m s t th : wf m s -> threads s !! t = Some th -> tb th 9 = false ->
  0 <= spldepth s -> bmk_sched_wake s t = Done (woken s t th).
Proof.
  intros Hwf Ht Hd Hspl. pose proof (wf_flags _ _ Hwf t th Ht) as Hok.
  pose proof (wf_in m s QTime t th Hwf Ht) as HT. pose proof (wf_in m s QBlock t th Hwf Ht) as HB.
  cbn [qbit queue] in HT, HB.
  assert (tb th 1 = false -> filter (fun x => x <> t) (timeq s) = timeq s) as FT.
  { intros E. apply filter_notin. rewrite HT. congruence. }
  assert (tb th 2 = false -> filter (fun x => x <> t) (blockq s) = blockq s) as FB.
  { intros E. apply filter_notin. rewrite HB. congruence. }
  unfold bmk_sched_wake, set_runnable, thread_at. rewrite Ht, of_option_Some, Done_bind.
  cbn [put set_threads threads]. rewrite lookup_insert_eq.
  rewrite of_option_Some, Done_bind. cbn [bt_flags with_wakeup].
  rewrite land_runmask, land_qmask, runq_bit, !tb_fold. unfold woken, woken_thread, queued.
  unfold th_ok in Hok. rewrite Hd in Hok.
  destruct (tb th 0) eqn:E0.
  { destruct (tb th 1); [discriminate Hok |]. destruct (tb th 2); [discriminate Hok |].
    cbn [orb]. rewrite FT, FB by done. by destruct th. }
  destruct (tb th 1) eqn:E1.
  { destruct (tb th 2) eqn:E2; [discriminate Hok |]. cbn [Z.b2z negb andb orb Z.eqb Z.add Z.mul Pos.mul Pos.add].
    change (0 + 2 * 1 + 4 * 0 =? THR_TIMEQ) with true. cbn [negb andb].
    unfold bmk_platform_splhigh. cbv iota beta. sproj.
    rewrite TAILQ_REMOVE_in, !Done_bind by (by apply HT).
    unfold setflags, thread_at. sproj. rewrite lookup_insert_eq.
    rewrite of_option_Some, !Done_bind. unfold bmk_platform_splx.
    sproj. rewrite (proj2 (Z.eqb_neq _ 0)) by lia.
    unfold set_spl, set_runq, put, set_threads. sproj.
    rewrite insert_insert_eq, Z.add_simpl_r, FB by done. done. }
  destruct (tb th 2) eqn:E2.
  { change (Z.b2z false + 2 * Z.b2z false + 4 * Z.b2z true =? THR_TIMEQ) with false.
    change (Z.b2z false + 2 * Z.b2z false + 4 * Z.b2z true =? THR_BLOCKQ) with true. cbn [negb andb orb].
    unfold bmk_platform_splhigh. cbv iota beta. sproj.
    rewrite TAILQ_REMOVE_in, !Done_bind by (by apply HB).
    unfold setflags, thread_at. sproj. rewrite lookup_insert_eq.
    rewrite of_option_Some, !Done_bind. unfold bmk_platform_splx.
    sproj. rewrite (proj2 (Z.eqb_neq _ 0)) by lia.
    unfold set_spl, set_runq, put, set_threads. sproj.
    rewrite insert_insert_eq, Z.add_simpl_r, FT by done. done. }
  rewrite FT, FB by done. unfold mode_of in Hok.
  destruct (tb th 3) eqn:E3; [cbn; by destruct th |].
  destruct (decide _), m; cbn in Hok; discriminate Hok.
Qed.

Lemma wf_woken m s t th : wf m s -> threads s !! t = Some th -> tb th 9 = false -> wf m (woken s t th).
Proof.
  intros Hwf Ht Hd. pose proof (wf_flags _ _ Hwf t th Ht) as Hok.
  pose proof (fun q => wf_in m s q t th Hwf Ht) as HQ.
  assert (forall x, x <> t -> wk (woken s t th) x = wk s x) as Hwk.
  { intros x Hx. rewrite (wk_put s _ t (woken_thread th)) by done. by rewrite decide_False. }
  assert (tb (woken_thread th) 1 = false /\ tb (woken_thread th) 2 = false /\
    tb (woken_thread th) 9 = tb th 9 /\ tb (woken_thread th) 0 = tb th 0 || queued th) as (B1 & B2 & B9 & B0).
  { unfold woken_thread, queued. destruct (tb th 1) eqn:E1, (tb th 2) eqn:E2; cbn [orb]; tb_simpl;
      rewrite ?E1, ?E2; repeat split; try done; by rewrite ?andb_true_r, ?orb_false_r, ?orb_true_r. }
  eapply (wf_update m m s _ t th (woken_thread th)); try done.
  - intros q x Hx. destruct q; cbn [queue woken runq timeq blockq zombieq];
      [| rewrite list_elem_of_filter; tauto .. | done].
    destruct (queued th); [| done]. rewrite elem_of_app, list_elem_of_singleton. tauto.
  - intros q. destruct q; cbn [queue woken runq timeq blockq zombieq qbit].
    + rewrite B0. pose proof (HQ QRun) as H0. cbn [queue qbit] in H0. destruct (queued th).
      * rewrite orb_true_r, elem_of_app, list_elem_of_singleton. tauto.
      * rewrite orb_false_r. done.
    + rewrite B1, list_elem_of_filter. split; [tauto | done].
    + rewrite B2, list_elem_of_filter. split; [tauto | done].
    + rewrite B9. apply (HQ QZombie).
  - intros q. pose proof (wf_nd _ _ Hwf q) as Hn. destruct q; cbn [queue woken runq timeq blockq zombieq] in *;
      [| by apply NoDup_filter .. | done].
    destruct (queued th) eqn:Eq; [| done]. apply NoDup_app. split; [done |]. split; [| apply NoDup_singleton].
    intros x Hx ->%list_elem_of_singleton. apply (HQ QRun) in Hx. cbn [qbit] in Hx.
    unfold queued in Eq. unfold th_ok in Hok. rewrite Hx in Hok.
    destruct (tb th 1), (tb th 2); discriminate.
  - by apply woken_ok.
  - by right.
  - cbn [timeq woken]. eapply ss_filter; [apply Hwf |]. cbn. intros x y _ _ Hx Hy. by rewrite !Hwk.
  - rewrite B1. discriminate.
Qed.

Lemma wake_spec m s t : wf m s -> alive s t -> 0 <= spldepth s ->
  exists th, threads s !! t = Some th /\ bmk_sched_wake s t = Done (woken s t th) /\ wf m (woken s t th).
Proof.
  intros Hwf (th & Ht & Hd) Hspl. exists th. split; [done |].
  split; [by eapply wake_Done | by apply wf_woken].
Qed.

Lemma woken_alive s t th x : threads s !! t = Some th -> alive (woken s t th) x <-> alive s x.
Proof.
  intros Ht. unfold alive. cbn [woken threads]. destruct (decide (x = t)) as [-> | Hne].
  - rewrite lookup_insert_eq, Ht. assert (tb (woken_thread th) 9 = tb th 9) as B.
    { unfold woken_thread. destruct (queued th); by tb_simpl. }
    split; intros (th' & [= <-] & H); eexists; (split; [done |]); congruence.
  - by rewrite lookup_insert_ne.
Qed.

(** ** Blocking *)

(** What the search in [timeq_sorted_insert] finds. *)
Lemma insert_before_later_spec s t w q :
  (forall x, x ∈ q -> is_Some (threads s !! x)) ->
  StronglySorted (fun a b => wk s a <= wk s b) q ->
  exists l1 l2, q = l1 ++ l2 /\ (forall x, x ∈ l1 -> wk s x <= w) /\ (forall x, x ∈ l2 -> w < wk s x) /\
    insert_before_later s t w q = Done (if decide (l2 = []) then None else Some (l1 ++ t :: l2)).
Proof.
  induction q as [| x q IH]; intros Hth Hs; cbn [insert_before_later].
  { exists [], []. split; [done |]. split; [intros x Hx; by apply elem_of_nil in Hx |].
    split; [intros x Hx; by apply elem_of_nil in Hx | done]. }
  destruct (Hth x) as [th Hx]; [by left |]. apply StronglySorted_inv in Hs as [Hs Hx'].
  unfold thread_at. rewrite Hx, of_option_Some, Done_bind.
  assert (wk s x = bt_wakeup_time th) as Ew by (unfold wk; by rewrite Hx).
  destruct (Z.ltb_spec w (bt_wakeup_time th)) as [Hlt | Hge].
  - exists [], (x :: q). split; [done |]. split; [intros y Hy; by apply elem_of_nil in Hy |].
    split; [| by rewrite decide_False].
    intros y [-> | Hy]%elem_of_cons; [lia |]. rewrite Forall_forall in Hx'. specialize (Hx' y Hy). lia.
  - destruct IH as (l1 & l2 & -> & H1 & H2 & ->); [intros y Hy; apply Hth; by right | done |].
    exists (x :: l1), l2. split; [done |]. split; [| split; [done |]].
    + intros y [-> | Hy]%elem_of_cons; [lia | auto].
    + rewrite Done_bind. by destruct (decide (l2 = [])).
Qed.

Lemma ss_insert {A} (R : A -> A -> Prop) t l1 l2 :
  StronglySorted R (l1 ++ l2) -> (forall x, x ∈ l1 -> R x t) -> (forall x, x ∈ l2 -> R t x) ->
  StronglySorted R (l1 ++ t :: l2).
Proof.
  induction l1 as [| x l1 IH]; cbn; intros Hs H1 H2.
  - constructor; [done |]. apply Forall_forall, H2.
  - apply StronglySorted_inv in Hs as [Hs Hx]. constructor.
    + apply IH; [done | | done]. intros y Hy. apply H1. by right.
    + apply Forall_app in Hx as [Hx1 Hx2]. apply Forall_app. split; [done |]. constructor; [| done].
      apply H1. by left.
Qed.

(** [timeq_sorted_insert] puts the thread after those due no later and before
    those due later. *)
Lemma timeq_insert_spec s t th :
  (forall x, x ∈ timeq s -> is_Some (threads s !! x)) ->
  StronglySorted (fun a b => wk s a <= wk s b) (timeq s) ->
  threads s !! t = Some th -> bt_wakeup_time th <> BMK_SCHED_BLOCK_INFTIME ->
  exists l1 l2, timeq s = l1 ++ l2 /\ (forall x, x ∈ l1 -> wk s x <= wk s t) /\
    (forall x, x ∈ l2 -> wk s t < wk s x) /\
    timeq_sorted_insert s t = Done (set_timeq (l1 ++ t :: l2) s).
Proof.
  intros Hth Hs Ht Hw. assert (wk s t = bt_wakeup_time th) as Ew by (unfold wk; by rewrite Ht).
  destruct (insert_before_later_spec s t (wk s t) (timeq s) Hth Hs) as (l1 & l2 & E & H1 & H2 & Hi).
  exists l1, l2. split; [done |]. split; [done |]. split; [done |].
  unfold timeq_sorted_insert, thread_at. rewrite Ht, of_option_Some, Done_bind.
  rewrite (proj2 (Z.eqb_neq _ _) Hw). cbn [negb]. rewrite bmk_assert_true, Done_bind.
  case_bool_decide as Hnil.
  - rewrite Hnil in E. symmetry in E. by apply app_nil in E as [-> ->].
  - rewrite <- Ew, Hi, Done_bind. destruct (decide (l2 = [])) as [-> | Hne]; [| done].
    rewrite app_nil_r in E. rewrite E in Hnil |- *.
    destruct (last l1) as [x |] eqn:El; [| by apply last_None in El].
    rewrite of_option_Some, Done_bind.
    assert (x ∈ l1) as Hx by (by apply last_Some_elem_of).
    destruct (Hth x) as [xh Hxh]; [by rewrite E |]. rewrite Hxh, of_option_Some, Done_bind.
    specialize (H1 x Hx). unfold wk in H1 at 1. rewrite Hxh in H1. cbn in H1.
    rewrite (proj2 (Z.leb_le _ _)) by done. by rewrite bmk_assert_true, Done_bind.
Qed.

(** The thread and the state after [bmk_sched_blockprepare_timeout]. *)
Definition prepared_thread (deadline : Z) (th : bmk_thread) : bmk_thread :=
  with_flags (Z.lor (Z.lor (bt_flags th) THR_BLOCKPREP)
    (if deadline =? BMK_SCHED_BLOCK_INFTIME then THR_BLOCKQ else THR_TIMEQ)) (with_wakeup deadline th).

Definition prepared (s s' : sched) (th : bmk_thread) (deadline : Z) : Prop :=
  let t := bmk_current s in
  threads s' = <[t := prepared_thread deadline th]> (threads s) /\
  threadq s' = threadq s /\ zombieq s' = zombieq s /\ runq s' = runq s /\ joinwq s' = joinwq s /\
  bmk_current s' = t /\ spldepth s' = spldepth s /\ clock s' = clock s /\
  if deadline =? BMK_SCHED_BLOCK_INFTIME then blockq s' = blockq s ++ [t] /\ timeq s' = timeq s
  else blockq s' = blockq s /\ exists l1 l2, timeq s = l1 ++ l2 /\ timeq s' = l1 ++ t :: l2 /\
    (forall x, x ∈ l1 -> wk s x <= deadline) /\ (forall x, x ∈ l2 -> deadline < wk s x).

Lemma wk_other s t th x : x <> t -> wk (put t th s) x = wk s x.
Proof. intros H. rewrite (wk_put s _ t th) by done. by rewrite decide_False. Qed.

Lemma prepare_Done s th deadline :
  wf Current s -> threads s !! bmk_current s = Some th -> tb th 10 = false -> 0 <= spldepth s ->
  exists s', bmk_sched_blockprepare_timeout s deadline = Done s' /\ prepared s s' th deadline.
Proof.
  intros Hwf Ht Hp Hspl. pose proof (wf_flags _ _ Hwf _ th Ht) as Hok.
  unfold mode_of in Hok. rewrite decide_True in Hok by done. set (t := bmk_current s) in *.
  assert (tb th 0 = false /\ tb th 1 = false /\ tb th 2 = false /\ tb th 3 = true) as (E0 & E1 & E2 & E3).
  { unfold th_ok in Hok. rewrite Hp in Hok. destruct (tb th 0), (tb th 1), (tb th 2), (tb th 3), (tb th 9); done. }
  unfold bmk_sched_blockprepare_timeout. fold t. rewrite (thread_at_Some _ _ _ Ht), Done_bind.
  rewrite (clear_mask _ _ 10), tb_fold, Hp by done.
  cbn [negb]. rewrite bmk_assert_true, Done_bind. unfold bmk_platform_splhigh. cbv iota beta zeta.
  set (s1 := put t _ (set_spl _ s)).
  assert (threads s1 !! t = Some (with_flags (Z.lor (bt_flags th) THR_BLOCKPREP) (with_wakeup deadline th))) as Ht1
    by (unfold s1; sproj; apply lookup_insert_eq).
  unfold clear_runnable. replace (bmk_current s1) with t by done.
  rewrite (thread_at_Some _ _ _ Ht1), Done_bind. sproj.
  rewrite (has_mask _ _ 3), Z.lor_spec, !tb_fold, E3 by done.
  cbn [orb]. rewrite bmk_assert_true, Done_bind.
  rewrite (clear_mask _ _ 0), Z.lor_spec, !tb_fold, E0 by done.
  change (Z.testbit THR_BLOCKPREP 0) with false. cbn [orb negb]. rewrite bmk_assert_true, Done_bind.
  unfold prepared. fold t. destruct (Z.eqb_spec deadline BMK_SCHED_BLOCK_INFTIME) as [Hd | Hd]; cbn [negb].
  - rewrite Done_bind. rewrite (thread_at_Some (set_blockq (blockq s1 ++ [t]) s1) t _ Ht1), !Done_bind. unfold bmk_platform_splx. unfold s1. sproj.
    rewrite (proj2 (Z.eqb_neq _ 0)) by lia. eexists. split; [done |]. sproj.
    rewrite insert_insert_eq. repeat split; try done; [| lia].
    unfold prepared_thread. by rewrite (proj2 (Z.eqb_eq _ _) Hd).
  - assert (t ∉ timeq s) as Hnt by (by eapply (wf_notin Current s QTime)).
    assert (forall x, x ∈ timeq s -> wk s1 x = wk s x) as Hwk.
    { intros x Hx. unfold s1. rewrite wk_other; [done |]. by intros ->. }
    destruct (timeq_insert_spec s1 t _ ltac:(intros x Hx; unfold s1; sproj;
      destruct (decide (t = x)) as [-> | ?]; [by rewrite lookup_insert_eq |
        rewrite lookup_insert_ne by done; apply (wf_q _ _ Hwf QTime) in Hx as (? & -> & _); done])
      ltac:(eapply ss_ext; [apply Hwf |]; cbn; intros x y Hx Hy; by rewrite !Hwk) Ht1 Hd)
      as (l1 & l2 & E & H1 & H2 & ->).
    rewrite !Done_bind. rewrite (thread_at_Some (set_timeq (l1 ++ t :: l2) s1) t _ Ht1), !Done_bind. unfold bmk_platform_splx. unfold s1. sproj.
    rewrite (proj2 (Z.eqb_neq _ 0)) by lia. eexists. split; [done |]. sproj.
    assert (wk s1 t = deadline) as Ewt by (unfold wk; by rewrite Ht1).
    rewrite insert_insert_eq. repeat split; try done; [| lia |].
    { unfold prepared_thread. by rewrite (proj2 (Z.eqb_neq _ _) Hd). }
    change (timeq s1) with (timeq s) in E. exists l1, l2.
    repeat split; try done; intros x Hx; rewrite <- (Hwk x) by (rewrite E; set_solver); rewrite <- Ewt; auto.
Qed.

Lemma wf_prepared s s' th deadline :
  wf Current s -> threads s !! bmk_current s = Some th -> tb th 10 = false ->
  prepared s s' th deadline -> wf Current s'.
Proof.
  intros Hwf Ht Hp (Es & Etq & Ez & Er & _ & Ec & _ & _ & Hq).
  pose proof (wf_flags _ _ Hwf _ th Ht) as Hok. unfold mode_of in Hok. rewrite decide_True in Hok by done.
  set (t := bmk_current s) in *.
  assert (tb th 0 = false /\ tb th 1 = false /\ tb th 2 = false /\ tb th 3 = true /\ tb th 9 = false)
    as (E0 & E1 & E2 & E3 & E9).
  { unfold th_ok in Hok. rewrite Hp in Hok. destruct (tb th 0), (tb th 1), (tb th 2), (tb th 3), (tb th 9); done. }
  pose proof (fun q => wf_in Current s q t th Hwf Ht) as HQ.
  assert (forall q, t ∉ queue s q) as Hnin.
  { intros q Hin%HQ. destruct q; cbn [qbit] in Hin; congruence. }
  pose proof (Hnin QTime) as HnT. pose proof (Hnin QBlock) as HnB. cbn [queue] in HnT, HnB.
  assert (forall x, x <> t -> wk s' x = wk s x) as Hwk.
  { intros x Hx. rewrite (wk_put s s' t (prepared_thread deadline th)) by done. by rewrite decide_False. }
  assert (wk s' t = deadline) as Hwt.
  { rewrite (wk_put s s' t (prepared_thread deadline th)) by done. by rewrite decide_True. }
  set (isb := deadline =? BMK_SCHED_BLOCK_INFTIME) in *.
  assert (tb (prepared_thread deadline th) 0 = false /\ tb (prepared_thread deadline th) 1 = negb isb /\
    tb (prepared_thread deadline th) 2 = isb /\ tb (prepared_thread deadline th) 3 = true /\
    tb (prepared_thread deadline th) 9 = false /\ tb (prepared_thread deadline th) 10 = true)
    as (B0 & B1 & B2 & B3 & B9 & B10).
  { unfold prepared_thread. fold isb. destruct isb; tb_simpl; rewrite ?E0, ?E1, ?E2, ?E3, ?E9; done. }
  assert (forall q x, x <> t -> x ∈ queue s' q <-> x ∈ queue s q) as Hqx.
  { intros q x Hx. destruct q; cbn [queue]; rewrite ?Er, ?Ez; try done; destruct isb.
    - by destruct Hq as [_ ->].
    - destruct Hq as (_ & l1 & l2 & -> & -> & _). rewrite !elem_of_app, elem_of_cons. tauto.
    - destruct Hq as [-> _]. rewrite elem_of_app, list_elem_of_singleton. tauto.
    - by destruct Hq as [-> _]. }
  eapply (wf_update Current Current s s' t th); try done.
  - by rewrite B9, E9.
  - intros q. destruct q; cbn [queue qbit]; rewrite ?B0, ?B1, ?B2, ?B9, ?Er, ?Ez.
    + split; [intros Hin; by apply (Hnin QRun) in Hin | done].
    + destruct isb; cbn [negb].
      * destruct Hq as [_ ->]. split; [intros Hin; by apply HnT in Hin | done].
      * destruct Hq as (_ & l1 & l2 & _ & -> & _). split; [done |]. intros _.
        apply elem_of_app. right. by left.
    + destruct isb.
      * destruct Hq as [-> _]. split; [done |]. intros _. apply elem_of_app. right. by left.
      * destruct Hq as [-> _]. split; [intros Hin; by apply HnB in Hin | done].
    + split; [intros Hin; by apply (Hnin QZombie) in Hin | done].
  - intros q. pose proof (wf_nd _ _ Hwf q) as Hn. destruct q; cbn [queue] in *; rewrite ?Er, ?Ez; try done; destruct isb.
    + by destruct Hq as [_ ->].
    + destruct Hq as (_ & l1 & l2 & E & -> & _). rewrite E in Hn, HnT.
      rewrite <- Permutation_middle. by constructor.
    + destruct Hq as [-> _]. apply NoDup_app. split; [done |]. split; [| apply NoDup_singleton].
      intros x Hx ->%list_elem_of_singleton. done.
    + by destruct Hq as [-> _].
  - unfold th_ok. rewrite B0, B1, B2, B3, B9, B10. unfold mode_of. rewrite decide_True by done. by destruct isb.
  - by left.
  - destruct isb.
    + destruct Hq as [_ ->]. eapply ss_ext; [apply Hwf |]. cbn. intros x y Hx Hy.
      rewrite !Hwk; [done | |]; by intros ->.
    + destruct Hq as (_ & l1 & l2 & E & -> & H1 & H2). rewrite E in HnT.
      pose proof (wf_sorted _ _ Hwf) as Hs. rewrite E in Hs.
      assert (forall x, x ∈ l1 ++ l2 -> wk s' x = wk s x) as Hwk' by (intros x Hx; apply Hwk; by intros ->).
      apply ss_insert.
      * eapply ss_ext; [exact Hs |]. cbn. intros x y Hx Hy. by rewrite !Hwk'.
      * intros x Hx. rewrite Hwt, Hwk' by (apply elem_of_app; by left). auto.
      * intros x Hx. rewrite Hwt, Hwk' by (apply elem_of_app; by right). specialize (H2 x Hx). lia.
  - rewrite B1. intros Hn. cbn. subst isb. destruct (Z.eqb_spec deadline BMK_SCHED_BLOCK_INFTIME); done.
Qed.

Lemma wf_leaving s th : wf Current s -> threads s !! bmk_current s = Some th ->
  tb th 0 || tb th 1 || tb th 2 = true -> wf Leaving s.
Proof.
  intros Hwf Ht Hq. pose proof (wf_flags _ _ Hwf _ th Ht) as Hok. unfold mode_of in Hok.
  rewrite decide_True in Hok by done.
  destruct Hwf as [H1 H2 H3 H4 H5 H6 H7 H8]. split; try done. intros t th' Ht'.
  specialize (H2 t th' Ht'). unfold mode_of in *. destruct (decide (t = bmk_current s)) as [-> | ?]; [| done].
  rewrite Ht in Ht'. simplify_eq. unfold th_ok in *.
  destruct (tb th' 0), (tb th' 1), (tb th' 2), (tb th' 3), (tb th' 9), (tb th' 10); done.
Qed.

(** ** What scheduling leaves alone *)

(** Bits other than the queue, running and timeout flags, and the data of the
    thread; a timeout is only reported to a thread that prepared to block. *)
Definition same_thread (th th' : bmk_thread) : Prop :=
  bt_stackbase th' = bt_stackbase th /\ bt_cookie th' = bt_cookie th /\
  (forall i, 5 <= i -> tb th' i = tb th i) /\
  (tb th' 4 = true -> tb th 4 = true \/ tb th 10 = true).

Record quiet (s s' : sched) : Prop := {
  qu_threadq : threadq s' = threadq s;
  qu_zombieq : zombieq s' = zombieq s;
  qu_joinwq : joinwq s' = joinwq s;
  qu_threads : forall t th, threads s !! t = Some th ->
    exists th', threads s' !! t = Some th' /\ same_thread th th';
  qu_none : forall t, threads s !! t = None -> threads s' !! t = None;
}.

Lemma same_thread_refl th : same_thread th th.
Proof. unfold same_thread. auto. Qed.

Lemma same_thread_trans a b c : same_thread a b -> same_thread b c -> same_thread a c.
Proof.
  intros (H1 & H2 & H3 & H4) (K1 & K2 & K3 & K4). unfold same_thread. split; [congruence |].
  split; [congruence |]. split.
  - intros i Hi. rewrite K3, H3 by done. done.
  - intros H. destruct (K4 H) as [? | ?]; [auto |]. right. by rewrite <- H3 by lia.
Qed.

Global Instance quiet_preorder : PreOrder quiet.
Proof.
  split.
  - intros s. split; try done. intros t th Ht. exists th. split; [done | apply same_thread_refl].
  - intros a b c [A1 A2 A3 A4 A5] [B1 B2 B3 B4 B5]. split; try congruence.
    + intros t th Ht. destruct (A4 t th Ht) as (th' & Ht' & S1). destruct (B4 t th' Ht') as (th'' & Ht'' & S2).
      exists th''. split; [done | by eapply same_thread_trans].
    + auto.
Qed.

Lemma quiet_alive s s' t : quiet s s' -> alive s' t <-> alive s t.
Proof.
  intros [_ _ _ Q4 Q5]. unfold alive. destruct (threads s !! t) as [th |] eqn:E.
  - destruct (Q4 t th E) as (th' & E' & (_ & _ & S & _)). rewrite E'. specialize (S 9 ltac:(lia)).
    split; intros (x & [= <-] & H); eexists; (split; [done |]); congruence.
  - rewrite (Q5 t E). naive_solver.
Qed.

Lemma quiet_put s t th th' : threads s !! t = Some th -> same_thread th th' -> quiet s (put t th' s).
Proof.
  intros Ht Hs. split; try done; cbn [threads put set_threads].
  - intros x xh Hx. destruct (decide (x = t)) as [-> | Hne].
    + rewrite lookup_insert_eq. rewrite Ht in Hx. simplify_eq. eauto.
    + rewrite lookup_insert_ne by done. exists xh. split; [done | apply same_thread_refl].
  - intros x Hx. rewrite lookup_insert_ne; [done |]. intros ->. congruence.
Qed.

Lemma quiet_eq s s1 s2 : quiet s s1 -> threads s2 = threads s1 -> threadq s2 = threadq s1 ->
  zombieq s2 = zombieq s1 -> joinwq s2 = joinwq s1 -> quiet s s2.
Proof. intros [] E1 E2 E3 E4. split; rewrite ?E1, ?E2, ?E3, ?E4; done. Qed.

Lemma testbit_small_mask m i : 0 <= m < 2 ^ 5 -> 5 <= i -> Z.testbit m i = false.
Proof.
  intros Hm Hi. destruct (Z.eq_dec m 0) as [-> | Hne]; [apply Z.bits_0 |].
  apply Z.bits_above_log2; [lia |]. assert (Z.log2 m < 5) by (apply Z.log2_lt_pow2; lia). lia.
Qed.

Lemma newflags_high fl add rm i : 0 <= add < 2 ^ 5 -> 0 <= rm < 2 ^ 5 -> 5 <= i ->
  Z.testbit (newflags fl add rm) i = Z.testbit fl i.
Proof.
  intros Ha Hr Hi. rewrite newflags_bit by lia.
  rewrite (testbit_small_mask add), (testbit_small_mask rm) by done.
  by rewrite andb_true_r, orb_false_r.
Qed.

Lemma same_thread_flags th add rm w : 0 <= add < 16 -> 0 <= rm < 2 ^ 5 ->
  same_thread th (with_flags (newflags (bt_flags th) add rm) (with_wakeup w th)).
Proof.
  intros Ha Hr. split; [done |]. split; [done |]. split.
  - intros i Hi. apply newflags_high; lia.
  - rewrite tb_with_flags, newflags_bit by lia. assert (Z.testbit add 4 = false) as ->.
    { destruct (Z.eq_dec add 0) as [-> | Hne]; [done |]. apply Z.bits_above_log2; [lia |].
      assert (Z.log2 add < 4) by (apply Z.log2_lt_pow2; lia). lia. }
    rewrite orb_false_r. intros H. apply andb_true_iff in H as [H _]. by left.
Qed.

Lemma woken_thread_same th : same_thread th (woken_thread th).
Proof.
  unfold woken_thread. destruct (queued th); [| exact (same_thread_refl th)].
  by apply same_thread_flags.
Qed.

Lemma quiet_woken s t th : threads s !! t = Some th -> quiet s (woken s t th).
Proof.
  intros Ht. eapply quiet_eq; [eapply quiet_put; [exact Ht | apply woken_thread_same] | done ..].
Qed.

(** ** Interrupts while the CPU waits *)

Lemma wake_all_spec m ts : forall s, wf m s -> 0 <= spldepth s -> Forall (alive s) ts ->
  exists s', wake_all s ts = Done s' /\ wf m s' /\ quiet s s' /\
    bmk_current s' = bmk_current s /\ spldepth s' = spldepth s /\ clock s' = clock s.
Proof.
  induction ts as [| t ts IH]; intros s Hwf Hspl Hal; cbn [wake_all].
  - exists s. split; [done |]. split; [done |]. split; [reflexivity | done].
  - apply Forall_cons in Hal as [Ha Hal].
    destruct (wake_spec m s t Hwf Ha Hspl) as (th & Ht & -> & Hwf1). rewrite Done_bind.
    pose proof (quiet_woken s t th Ht) as Q1.
    destruct (IH (woken s t th) Hwf1 Hspl) as (s' & -> & Hwf' & Q2 & E1 & E2 & E3).
    { eapply Forall_impl; [exact Hal |]. intros x Hx. by apply (quiet_alive _ _ _ Q1). }
    exists s'. split; [done |]. split; [done |]. split; [by etrans |]. by rewrite E1, E2, E3.
Qed.

Lemma cpu_block_spec m s r : wf m s -> 0 < spldepth s -> Forall (alive s) r.2 ->
  exists s', bmk_platform_cpu_block s r = Done s' /\ wf m s' /\ quiet s s' /\
    bmk_current s' = bmk_current s /\ spldepth s' = spldepth s /\ clock s' = r.1.
Proof.
  intros Hwf Hspl Hal. unfold bmk_platform_cpu_block.
  rewrite (proj2 (Z.ltb_lt _ _) Hspl), bmk_assert_true, Done_bind. cbv zeta.
  destruct (wake_all_spec m r.2 (set_clock r.1 (set_spl 0 s))) as (s' & -> & Hwf' & Q & E1 & E2 & E3).
  - by eapply wf_ext; [exact Hwf | ..].
  - done.
  - eapply Forall_impl; [exact Hal |]. done.
  - rewrite Done_bind. eexists. split; [done |]. split; [by eapply wf_ext; [exact Hwf' | ..] |].
    split; [| done]. etrans; [| eapply quiet_eq; [exact Q | done ..]]. eapply quiet_eq; [reflexivity | done ..].
Qed.
