(* ===== verification/SchedSwitch.v ===== *)
(** * Choosing the next thread

    The timeout processing, the idle loop and the switch of [schedule], and
    the operations built on them. *)

From S2P Require Import Prelude Sched SchedInv SchedProps.

(** ** Expired timeouts *)

Definition next_wake (s : sched) (l : list Z) (w : Z) : Z :=
  match l with [] => w | x :: _ => Z.min w (wk s x) end.

Lemma timedout_same th : tb th 10 = true ->
  same_thread th (with_flags (Z.lor (bt_flags th) THR_TIMEDOUT) th).
Proof.
  intros Hp. split; [done |]. split; [done |]. split; [| auto].
  intros i Hi. rewrite tb_with_flags, Z.lor_spec, (testbit_small_mask THR_TIMEDOUT) by (done || lia).
  by rewrite orb_false_r.
Qed.

(** One expired thread. *)
Lemma expire_one m s t th rest : wf m s -> timeq s = t :: rest -> threads s !! t = Some th ->
  0 <= spldepth s ->
  exists s', bmk_sched_wake (put t (with_flags (Z.lor (bt_flags th) THR_TIMEDOUT) th) s) t = Done s' /\
    wf m s' /\ quiet s s' /\ timeq s' = rest /\ runq s' = runq s ++ [t] /\
    bmk_current s' = bmk_current s /\ spldepth s' = spldepth s /\ clock s' = clock s /\
    (forall x, x <> t -> threads s' !! x = threads s !! x) /\
    exists th', threads s' !! t = Some th' /\ tb th' 4 = true.
Proof.
  intros Hwf Htq Ht Hspl. set (th1 := with_flags _ th). set (s1 := put t th1 s).
  assert (tb th 1 = true) as B1 by (apply (wf_in m s QTime t th Hwf Ht); cbn; rewrite Htq; by left).
  pose proof (wf_flags _ _ Hwf t th Ht) as Hok.
  assert (tb th 9 = false /\ tb th 10 = true) as [B9 B10].
  { unfold th_ok in Hok. rewrite B1 in Hok. destruct (mode_of m s t), (tb th 0), (tb th 2), (tb th 3), (tb th 9), (tb th 10); done. }
  assert (forall i, i <> 4 -> 0 <= i -> tb th1 i = tb th i) as Hbits.
  { intros i Hi Hi0. unfold th1. rewrite tb_with_flags, Z.lor_spec.
    replace (Z.testbit THR_TIMEDOUT i) with false; [by rewrite orb_false_r |].
    symmetry. change THR_TIMEDOUT with (2 ^ 4). by apply Z.pow2_bits_false. }
  assert (wf m s1) as Hwf1.
  { apply (wf_put m m s t th th1 Hwf Ht); [| | by right | done].
    - intros []; cbn [qbit]; by apply Hbits.
    - unfold th_ok in *. rewrite !Hbits by lia. done. }
  assert (threads s1 !! t = Some th1) as Ht1 by apply lookup_insert_eq.
  assert (tb th1 9 = false) as B9' by (by rewrite Hbits).
  rewrite (wake_Done m s1 t th1 Hwf1 Ht1 B9' Hspl). eexists. split; [done |].
  assert (queued th1 = true) as Hqd by (unfold queued; by rewrite (Hbits 1), B1).
  split; [by apply wf_woken |]. split.
  { etrans; [eapply quiet_put; [exact Ht | by apply timedout_same] |]. by apply quiet_woken. }
  pose proof (wf_nd _ _ Hwf QTime) as Hnd. cbn [queue] in Hnd. rewrite Htq in Hnd.
  apply NoDup_cons in Hnd as [Hnin _].
  cbn [woken timeq runq bmk_current spldepth clock threads]. rewrite Hqd.
  change (timeq s1) with (timeq s). rewrite Htq, filter_cons_False, filter_notin by (done || tauto).
  repeat split; try done.
  - intros x Hx. unfold s1. sproj. by rewrite !lookup_insert_ne.
  - exists (woken_thread th1). split; [apply lookup_insert_eq |].
    unfold woken_thread. rewrite Hqd. tb_simpl. unfold th1. tb_simpl. by rewrite ?orb_true_r.
Qed.

Lemma expire_spec m cur : forall fuel s w, wf m s -> 0 <= spldepth s -> (length (timeq s) < fuel)%nat ->
  exists l1 l2 s', timeq s = l1 ++ l2 /\
    (forall x, x ∈ l1 -> wk s x <= cur) /\ (forall x, x ∈ l2 -> cur < wk s x) /\
    expire_timeouts fuel s cur w = Done (next_wake s l2 w, s') /\
    wf m s' /\ quiet s s' /\ timeq s' = l2 /\ runq s' = runq s ++ l1 /\
    bmk_current s' = bmk_current s /\ spldepth s' = spldepth s /\ clock s' = clock s /\
    (forall x, x ∉ l1 -> threads s' !! x = threads s !! x) /\
    (forall x, x ∈ l1 -> exists th, threads s' !! x = Some th /\ tb th 4 = true).
Proof.
  induction fuel as [| fuel IH]; intros s w Hwf Hspl Hf; [lia |]. cbn [expire_timeouts].
  destruct (timeq s) as [| t rest] eqn:Htq.
  { exists [], [], s. split; [done |]. split; [intros x Hx; by apply elem_of_nil in Hx |].
    split; [intros x Hx; by apply elem_of_nil in Hx |]. split; [done |]. split; [done |].
    split; [reflexivity |]. rewrite app_nil_r. repeat split; try done. intros x Hx. by apply elem_of_nil in Hx. }
  pose proof (wf_sorted _ _ Hwf) as Hs. rewrite Htq in Hs. apply StronglySorted_inv in Hs as [Hs Hle].
  rewrite Forall_forall in Hle.
  assert (exists th, threads s !! t = Some th) as [th Ht].
  { assert (t ∈ queue s QTime) as Hin by (cbn; rewrite Htq; by left).
    apply (wf_q _ _ Hwf) in Hin as (th & Ht & _). eauto. }
  assert (wk s t = bt_wakeup_time th) as Ew by (unfold wk; by rewrite Ht).
  rewrite (thread_at_Some _ _ _ Ht), Done_bind.
  destruct (Z.leb_spec (bt_wakeup_time th) cur) as [Hexp | Hlater].
  - destruct (expire_one m s t th rest Hwf Htq Ht Hspl)
      as (s1 & E & Hwf1 & Q1 & Ht1 & Hr1 & Ec & Esp & Ecl & Hoth & Hto).
    cbv zeta. rewrite E, Done_bind.
    pose proof (wf_nd _ _ Hwf QTime) as Hnd. cbn [queue] in Hnd. rewrite Htq in Hnd.
    apply NoDup_cons in Hnd as [Hnin _].
    assert (forall x, x ∈ rest -> wk s1 x = wk s x) as Hwk.
    { intros x Hx. unfold wk. rewrite Hoth; [done |]. by intros ->. }
    destruct (IH s1 w Hwf1) as (l1 & l2 & s' & El & H1 & H2 & -> & Hwf' & Q2 & T2 & R2 & C2 & P2 & K2 & O2 & TO2);
      [by rewrite Esp | rewrite Ht1; cbn in Hf; lia |].
    rewrite Ht1 in El. clear Ht1. subst rest.
    assert (forall x, x ∈ l1 -> x ∈ l1 ++ l2) as I1 by (intros; apply elem_of_app; by left).
    assert (forall x, x ∈ l2 -> x ∈ l1 ++ l2) as I2 by (intros; apply elem_of_app; by right).
    exists (t :: l1), l2, s'. split; [done |]. split.
    { intros x [-> | Hx]%elem_of_cons; [lia |]. rewrite <- Hwk by auto. auto. }
    split; [intros x Hx; rewrite <- Hwk by auto; auto |]. split.
    { do 2 f_equal. unfold next_wake. destruct l2 as [| y l2]; [done |]. rewrite Hwk; [done |].
      apply I2. by left. }
    split; [done |]. split; [by etrans |]. split; [done |]. split; [rewrite R2, Hr1, <- app_assoc; done |].
    split; [congruence |]. split; [congruence |]. split; [congruence |]. split.
    { intros x Hx. rewrite O2, Hoth; [done | |]; intros Hx'; apply Hx; [subst; by left | by right]. }
    intros x [-> | Hx]%elem_of_cons; [| auto].
    destruct Hto as (th' & Ht' & Hb). exists th'. split; [| done]. rewrite O2; [done |].
    intros Hin. by apply Hnin, I1.
  - exists [], (t :: rest), s. split; [done |]. split; [intros x Hx; by apply elem_of_nil in Hx |]. split.
    { intros x [-> | Hx]%elem_of_cons; [lia |]. specialize (Hle x Hx). cbn in Hle. lia. }
    split; [unfold next_wake; rewrite Ew; do 2 f_equal; destruct (Z.ltb_spec (bt_wakeup_time th) w); lia |].
    split; [done |]. split; [reflexivity |]. rewrite app_nil_r. repeat split; try done.
    intros x Hx. by apply elem_of_nil in Hx.
Qed.

(** ** The idle loop *)

(** Interrupt handlers only wake live threads. *)
Definition env_ok (s : sched) (env : list reply) : Prop := Forall (fun r => Forall (alive s) r.2) env.

Lemma env_ok_quiet s s' env : quiet s s' -> env_ok s env -> env_ok s' env.
Proof.
  intros Q H. eapply Forall_impl; [exact H |]. intros r Hr. eapply Forall_impl; [exact Hr |].
  intros t Ht. by apply (quiet_alive _ _ _ Q).
Qed.

Lemma runq_head m s next rest : wf m s -> runq s = next :: rest ->
  exists th, threads s !! next = Some th /\ tb th 0 = true /\ tb th 1 = false /\ tb th 2 = false /\ tb th 9 = false.
Proof.
  intros Hwf Hr. assert (next ∈ queue s QRun) as Hin by (cbn; rewrite Hr; by left).
  apply (wf_q _ _ Hwf) in Hin as (th & Ht & B0). cbn [qbit] in B0. exists th. split; [done |].
  pose proof (wf_flags _ _ Hwf next th Ht) as Hok. unfold th_ok in Hok. rewrite B0 in Hok.
  destruct (tb th 1), (tb th 2), (tb th 9); done.
Qed.

Lemma schedule_loop_spec env : forall s, wf Leaving s -> 0 < spldepth s -> env_ok s env ->
  exists r s', schedule_loop env s = Done (r, s') /\ wf Leaving s' /\ quiet s s' /\
    bmk_current s' = bmk_current s /\ spldepth s' = spldepth s /\ r = head (runq s') /\
    (r = None -> forall x, x ∈ timeq s' -> clock s' < wk s' x).
Proof.
  induction env as [| r env IH]; intros s Hwf Hspl Henv;
    (destruct (expire_spec Leaving (clock s) (S (length (timeq s))) s (clock s + BLOCKTIME_MAX))
      as (l1 & l2 & s1 & El & H1 & H2 & E & Hwf1 & Q1 & T1 & R1 & C1 & P1 & K1 & O1 & _); [done | lia | lia |]);
    cbn [schedule_loop]; rewrite E, Done_bind; destruct (runq s1) as [| next rest] eqn:Hr.
  - exists None, s1. rewrite Hr. repeat (split; [done |]). intros _ x Hx. rewrite T1 in Hx. rewrite K1.
    unfold wk. rewrite O1; [by apply H2 |]. intros Hx1. specialize (H1 x Hx1). specialize (H2 x Hx). lia.
  - destruct (runq_head _ _ _ _ Hwf1 Hr) as (th & Ht & B0 & _ & _ & B9).
    rewrite (thread_at_Some _ _ _ Ht), Done_bind. rewrite (has_mask _ _ 0), tb_fold, B0 by done.
    rewrite bmk_assert_true, Done_bind. rewrite (clear_mask _ _ 9), tb_fold, B9 by done.
    cbn [negb]. rewrite bmk_assert_true, Done_bind. exists (Some next), s1. rewrite Hr. repeat (split; [done |]). done.
  - apply Forall_cons in Henv as [Hr' Henv].
    destruct (cpu_block_spec Leaving s1 r Hwf1) as (s2 & -> & Hwf2 & Q2 & C2 & P2 & _).
    { by rewrite P1. }
    { eapply Forall_impl; [exact Hr' |]. intros t Hal. by apply (quiet_alive _ _ _ Q1). }
    rewrite Done_bind. destruct (IH s2 Hwf2) as (x & s3 & -> & Hwf3 & Q3 & C3 & P3 & Hx & Hidle).
    { by rewrite P2, P1. }
    { eapply env_ok_quiet; [| exact Henv]. by etrans. }
    exists x, s3. split; [done |]. split; [done |]. split; [by etrans; [| etrans] |].
    split; [congruence |]. split; [congruence |]. split; done.
  - destruct (runq_head _ _ _ _ Hwf1 Hr) as (th & Ht & B0 & _ & _ & B9).
    rewrite (thread_at_Some _ _ _ Ht), Done_bind. rewrite (has_mask _ _ 0), tb_fold, B0 by done.
    rewrite bmk_assert_true, Done_bind. rewrite (clear_mask _ _ 9), tb_fold, B9 by done.
    cbn [negb]. rewrite bmk_assert_true, Done_bind. exists (Some next), s1. rewrite Hr. repeat (split; [done |]). done.
Qed.

(** ** The switch *)

(** The flags of the thread that leaves and of the one that is chosen. *)
Definition left_thread (th : bmk_thread) : bmk_thread :=
  with_flags (newflags (bt_flags th) 0 THR_RUNNING) th.
Definition chosen_thread (th : bmk_thread) : bmk_thread :=
  with_flags (newflags (bt_flags th) THR_RUNNING THR_RUNQ) th.

Definition switched (s : sched) (next : Z) (rest : list Z) (pth nth : bmk_thread) : sched :=
  let prev := bmk_current s in
  Sched (<[next := chosen_thread (if decide (prev = next) then left_thread pth else nth)]>
      (<[prev := left_thread pth]> (threads s)))
    (threadq s) (zombieq s) rest (blockq s) (timeq s) (joinwq s) next (spldepth s - 1) (clock s).

Lemma same_left th : same_thread th (left_thread th).
Proof. exact (same_thread_flags th 0 THR_RUNNING (bt_wakeup_time th) ltac:(done) ltac:(done)). Qed.
Lemma same_chosen th : same_thread th (chosen_thread th).
Proof. exact (same_thread_flags th THR_RUNNING THR_RUNQ (bt_wakeup_time th) ltac:(done) ltac:(done)). Qed.

Lemma switch_Done s next rest pth nth :
  wf Leaving s -> runq s = next :: rest -> 0 < spldepth s ->
  threads s !! bmk_current s = Some pth -> threads s !! next = Some nth ->
  (s1 ← setflags s (bmk_current s) 0 THR_RUNNING;
   rq ← TAILQ_REMOVE (runq s1) next;
   s1 ← setflags (set_runq rq s1) next THR_RUNNING THR_RUNQ;
   s1 ← bmk_platform_splx s1 0;
   s1 ← (if negb (bmk_current s =? next) then sched_switch s1 (bmk_current s) next else Done s1);
   Done (true, s1)) = Done (true, switched s next rest pth nth).
Proof.
  intros Hwf Hr Hspl Hp Hn. destruct (runq_head _ _ _ _ Hwf Hr) as (th & Ht & B0 & B1 & B2 & B9).
  rewrite Hn in Ht. simplify_eq. rewrite (setflags_Some _ _ _ _ _ Hp), Done_bind. sproj.
  pose proof (wf_nd _ _ Hwf QRun) as Hnd. cbn [queue] in Hnd. rewrite Hr in Hnd.
  apply NoDup_cons in Hnd as [Hnin _].
  rewrite Hr, TAILQ_REMOVE_in, Done_bind by (by left).
  rewrite filter_cons_False, filter_notin by (done || tauto).
  set (nth' := if decide (bmk_current s = next) then left_thread pth else th).
  rewrite (setflags_Some _ next nth').
  2: { sproj. unfold nth'. destruct (decide (bmk_current s = next)) as [-> | Hne].
       - apply lookup_insert_eq.
       - by rewrite lookup_insert_ne. }
  rewrite Done_bind. unfold bmk_platform_splx. sproj. rewrite (proj2 (Z.eqb_neq _ 0)) by lia.
  rewrite Done_bind. fold (left_thread pth). fold (chosen_thread nth').
  unfold switched. fold nth'.
  destruct (Z.eqb_spec (bmk_current s) next) as [E | E]; cbn [negb].
  - rewrite Done_bind. unfold set_spl, set_runq, put, set_threads. sproj. by rewrite E.
  - unfold sched_switch. erewrite thread_at_Some by (sproj; apply lookup_insert_eq). rewrite Done_bind.
    rewrite (has_mask _ _ 3), tb_fold by done.
    assert (tb (chosen_thread nth') 3 = true) as -> by (unfold chosen_thread; tb_simpl; by rewrite ?orb_true_r).
    rewrite bmk_assert_true, Done_bind.
    assert (Z.land (bt_flags (chosen_thread nth')) THR_QMASK = 0) as ->.
    { rewrite land_qmask, !tb_fold. unfold chosen_thread, nth'. rewrite decide_False by done. tb_simpl.
      by rewrite ?B0, ?B1, ?B2. }
    rewrite bmk_assert_true, !Done_bind. done.
Qed.

Lemma wf_switched s next rest pth nth : wf Leaving s -> runq s = next :: rest ->
  threads s !! bmk_current s = Some pth -> threads s !! next = Some nth ->
  wf Current (switched s next rest pth nth) /\ quiet s (switched s next rest pth nth).
Proof.
  intros Hwf Hr Hp Hn. destruct (runq_head _ _ _ _ Hwf Hr) as (th & Ht & B0 & B1 & B2 & B9).
  rewrite Hn in Ht. simplify_eq. set (prev := bmk_current s) in *.
  pose proof (wf_flags _ _ Hwf prev pth Hp) as Hokp. unfold mode_of in Hokp. rewrite decide_True in Hokp by done.
  pose proof (wf_flags _ _ Hwf next th Hn) as Hokn.
  set (lth := left_thread pth). set (nth' := if decide (prev = next) then lth else th).
  assert (forall i, 0 <= i -> i <> 3 -> tb lth i = tb pth i) as HL.
  { intros i Hi H3. unfold lth, left_thread. rewrite tb_with_flags, newflags_bit by done.
    change THR_RUNNING with (2 ^ 3). rewrite Z.pow2_bits_false, Z.bits_0 by lia.
    cbn [negb]. by rewrite andb_true_r, orb_false_r. }
  assert (tb lth 3 = false) as HL3 by (unfold lth, left_thread; by tb_simpl).
  assert (forall i, 0 <= i -> i <> 3 -> tb nth' i = tb th i) as HN.
  { intros i Hi H3. unfold nth'. destruct (decide (prev = next)) as [E | ?]; [| done].
    rewrite HL by done. rewrite <- E in Hn. rewrite Hn in Hp. by simplify_eq. }
  assert (forall i, 0 <= i -> i <> 3 -> i <> 0 -> tb (chosen_thread nth') i = tb th i) as HC.
  { intros i Hi H3 H0. rewrite <- HN by done. unfold chosen_thread. rewrite tb_with_flags, newflags_bit by done.
    change THR_RUNNING with (2 ^ 3). change THR_RUNQ with (2 ^ 0).
    rewrite !Z.pow2_bits_false by lia. cbn [negb]. by rewrite andb_true_r, orb_false_r. }
  assert (tb (chosen_thread nth') 3 = true /\ tb (chosen_thread nth') 0 = false) as [HC3 HC0].
  { unfold chosen_thread. split; tb_simpl; by rewrite ?orb_true_r, ?andb_false_r. }
  pose proof (wf_nd _ _ Hwf QRun) as Hnd. cbn [queue] in Hnd. rewrite Hr in Hnd.
  apply NoDup_cons in Hnd as [Hnin Hnd].
  set (s' := switched s next rest pth th).
  assert (forall x, threads s' !! x = if decide (x = next) then Some (chosen_thread nth')
    else if decide (x = prev) then Some lth else threads s !! x) as Hlk.
  { intros x. unfold s', switched. fold prev lth nth'. cbn [threads].
    destruct (decide (x = next)) as [-> | ?]; [by rewrite lookup_insert_eq |].
    rewrite lookup_insert_ne by done. destruct (decide (x = prev)) as [-> | ?]; [by rewrite lookup_insert_eq |].
    by rewrite lookup_insert_ne. }
  assert (forall x, wk s' x = wk s x) as Hwk.
  { intros x. unfold wk. rewrite Hlk. destruct (decide (x = next)) as [-> | ?].
    - rewrite Hn. unfold nth'. destruct (decide (prev = next)) as [E | ?]; [| done].
      rewrite <- E in Hn. rewrite Hn in Hp. by simplify_eq.
    - destruct (decide (x = prev)) as [-> | ?]; [by rewrite Hp | done]. }
  split.
  - split.
    + rewrite Hlk. unfold s'. cbn [bmk_current switched]. by rewrite decide_True.
    + intros x xh Hx. rewrite Hlk in Hx. unfold mode_of, s'. cbn [bmk_current switched].
      destruct (decide (x = next)) as [-> | Hxn].
      * injection Hx as <-. unfold th_ok. rewrite HC3, HC0, !HC by lia. by rewrite B1, B2, B9.
      * destruct (decide (x = prev)) as [-> | Hxp].
        -- injection Hx as <-. unfold th_ok in *. rewrite HL3, !HL by lia.
           destruct (tb pth 0), (tb pth 1), (tb pth 2), (tb pth 9), (tb pth 10), (tb pth 3); done.
        -- pose proof (wf_flags _ _ Hwf x xh Hx) as H. unfold mode_of in H. by rewrite decide_False in H.
    + intros q x. rewrite Hlk. assert (x ∈ queue s' q <-> x ∈ queue s q /\ (q = QRun -> x <> next)) as ->.
      { destruct q; unfold s'; cbn [queue switched runq timeq blockq zombieq]; [| by split; [| intros []] ..].
        rewrite Hr, elem_of_cons. split; [intros Hx; split; [by right | intros _ ->; done] |].
        intros [[-> | ?] Hx]; [by destruct Hx | done]. }
      rewrite (wf_q _ _ Hwf). destruct (decide (x = next)) as [-> | Hxn].
      * rewrite Hn. destruct q; cbn [qbit].
        -- rewrite HC0 || idtac. split; [intros [_ H]; by destruct H | intros (y & [= <-] & Hy); congruence].
        -- split; [intros [(y & [= <-] & Hy) _] | intros (y & [= <-] & Hy)]; rewrite ?HC in * by lia; eauto; by congruence.
        -- split; [intros [(y & [= <-] & Hy) _] | intros (y & [= <-] & Hy)]; rewrite ?HC in * by lia; eauto; by congruence.
        -- split; [intros [(y & [= <-] & Hy) _] | intros (y & [= <-] & Hy)]; rewrite ?HC in * by lia; eauto; by congruence.
      * destruct (decide (x = prev)) as [-> | Hxp].
        -- rewrite Hp. assert (0 <= qbit q /\ qbit q <> 3) as [? ?] by (destruct q; cbn; lia).
           split; [intros [(y & [= <-] & Hy) _] | intros (y & [= <-] & Hy)]; rewrite ?HL in * by lia; eauto.
        -- split; [intros [? _]; done | intros ?; done].
    + intros q. pose proof (wf_nd _ _ Hwf q). by destruct q.
    + intros x. unfold s'. cbn [threadq switched]. rewrite (wf_threadq _ _ Hwf). fold s'. rewrite Hlk.
      destruct (decide (x = next)) as [-> | Hxn].
      * rewrite Hn. split; intros (y & [= <-] & Hy); eexists; (split; [done |]); rewrite HC in * by lia; done.
      * destruct (decide (x = prev)) as [-> | Hxp]; [| done].
        rewrite Hp. split; intros (y & [= <-] & Hy); eexists; (split; [done |]); rewrite HL in * by lia; done.
    + apply Hwf.
    + eapply ss_ext; [apply Hwf |]. cbn. intros x y _ _. by rewrite !Hwk.
    + intros x Hx. rewrite Hwk. by apply (wf_wk _ _ Hwf).
  - split; try done.
    + intros x xh Hx. fold s'. rewrite Hlk. destruct (decide (x = next)) as [-> | ?].
      * eexists. split; [done |]. rewrite Hn in Hx. simplify_eq. unfold nth'.
        destruct (decide (prev = next)) as [E | ?]; [| apply same_chosen].
        rewrite <- E in Hn. rewrite Hn in Hp. simplify_eq.
        eapply same_thread_trans; [apply same_left | apply same_chosen].
      * destruct (decide (x = prev)) as [-> | ?].
        -- eexists. split; [done |]. rewrite Hp in Hx. simplify_eq. apply same_left.
        -- exists xh. split; [done | apply same_thread_refl].
    + intros x Hx. fold s'. rewrite Hlk, !decide_False; [done | |]; intros ->; congruence.
Qed.

(** ** [schedule] *)

(** After a switch the chosen thread runs at level 0 and is on no queue. *)
Record resumed (s s' : sched) : Prop := {
  rs_wf : wf Current s';
  rs_quiet : quiet s s';
  rs_spl : spldepth s' = 0;
  rs_flags : forall th, threads s' !! bmk_current s' = Some th ->
    tb th 0 = false /\ tb th 1 = false /\ tb th 2 = false;
}.
Record idling (s s' : sched) : Prop := {
  id_wf : wf Leaving s';
  id_quiet : quiet s s';
  id_spl : spldepth s' = 1;
  id_cur : bmk_current s' = bmk_current s;
  id_runq : runq s' = [];
  id_timeq : forall x, x ∈ timeq s' -> clock s' < wk s' x;
}.

Lemma switched_resumed s s1 next rest pth nth : wf Leaving s1 -> runq s1 = next :: rest ->
  threads s1 !! bmk_current s1 = Some pth -> threads s1 !! next = Some nth -> quiet s s1 ->
  spldepth s1 = 1 -> resumed s (switched s1 next rest pth nth).
Proof.
  intros Hwf Hr Hp Hn Q Hspl. destruct (wf_switched s1 next rest pth nth Hwf Hr Hp Hn) as [Hwf' Q'].
  split; [done | by etrans | cbn; by rewrite Hspl |].
  intros th Hth. pose proof (fun q => wf_in _ _ q _ th Hwf' Hth) as HQ.
  cbn [switched bmk_current] in *.
  destruct (runq_head _ _ _ _ Hwf Hr) as (xh & Hx & B0 & B1 & B2 & _).
  pose proof (wf_nd _ _ Hwf QRun) as Hnd. cbn [queue] in Hnd. rewrite Hr in Hnd.
  apply NoDup_cons in Hnd as [Hnin _].
  assert (forall q, q <> QZombie -> next ∉ queue (switched s1 next rest pth nth) q) as Hout.
  { intros q Hq Hin. destruct q; cbn [queue switched runq timeq blockq] in Hin; [done | | | done].
    - apply (wf_in _ _ QTime _ _ Hwf Hx) in Hin. cbn [qbit] in Hin. congruence.
    - apply (wf_in _ _ QBlock _ _ Hwf Hx) in Hin. cbn [qbit] in Hin. congruence. }
  repeat split; apply not_true_iff_false; intros Hb;
    [apply (HQ QRun) in Hb | apply (HQ QTime) in Hb | apply (HQ QBlock) in Hb]; by eapply Hout in Hb.
Qed.

Lemma schedule_from_spec env s : wf Leaving s -> spldepth s = 1 -> env_ok s env ->
  exists b s', schedule_from env 0 s = Done (b, s') /\ if b then resumed s s' else idling s s'.
Proof.
  intros Hwf Hspl Henv. unfold schedule_from.
  destruct (schedule_loop_spec env s Hwf ltac:(lia) Henv) as (r & s1 & -> & Hwf1 & Q1 & C1 & P1 & Hr & Hid).
  rewrite Done_bind. rewrite <- C1. destruct (runq s1) as [| next rest] eqn:Er; cbn in Hr; subst r.
  - exists false, s1. split; [done |]. split; try done; [by rewrite P1 | by apply Hid].
  - destruct (wf_cur _ _ Hwf1) as [pth Hp].
    destruct (runq_head _ _ _ _ Hwf1 Er) as (nth & Hn & _).
    exists true, (switched s1 next rest pth nth). split; [apply switch_Done; try done; lia |].
    apply switched_resumed; try done. by rewrite P1.
Qed.

Lemma schedule_spec env s : wf Leaving s -> spldepth s = 0 -> env_ok s env ->
  exists b s', schedule env s = Done (b, s') /\ if b then resumed s s' else idling s s'.
Proof.
  intros Hwf Hspl Henv. unfold schedule, bmk_platform_splhigh. cbv iota beta.
  change (negb (0 =? 0)) with false. cbv iota.
  destruct (schedule_from_spec env (set_spl (spldepth s + 1) s)) as (b & s' & E & H).
  - by eapply wf_ext; [exact Hwf | ..].
  - cbn. by rewrite Hspl.
  - done.
  - exists b, s'. split; [exact E |].
    assert (quiet s (set_spl (spldepth s + 1) s)) as Q by (eapply quiet_eq; [reflexivity | done ..]).
    destruct b; destruct H; split; try done; by etrans.
Qed.
