(* ===== verification/SchedMach.v ===== *)
(** * The scheduler as a state machine

    The machine keeps, besides the scheduler state, where each thread is: in
    its own code, or suspended at the context switch inside one of the
    blocking operations.  An event is one step of the current thread (an
    operation it calls, or the code it executes when it is switched to), a
    wake-up by an interrupt handler, or replies to the waiting CPU. *)

From S2P Require Import Prelude Sched SchedInv SchedProps SchedSwitch.

Inductive pc := Virgin | User | InYield | InBlock | InExit | InJoin (j : Z).
Global Instance pc_eq_dec : EqDecision pc.
Proof. solve_decision. Defined.

Record mach := Mach { ms : sched; mpc : gmap Z pc; midle : bool }.

Inductive event :=
  | ECreate (thread stack cookie : Z) (extstack joinable : bool)
  | EWake (t : Z)
  | EPrepare (deadline : Z)
  | EYield (env : list reply)
  | EBlock (env : list reply)
  | EExit (env : list reply)
  | EJoin (j : Z) (env : list reply)
  | EIdle (env : list reply)
  | EResume (env : list reply).

(** One round of the exit gate, and of the loop of [bmk_sched_join]. *)
Definition do_exit (env : list reply) (s : sched) (pcs : gmap Z pc) : outcome mach :=
  let cur := bmk_current s in
  '(again, sw, s) ← exit_round env s;
  Done (Mach s (if (again : bool) then <[cur := InExit]> pcs else delete cur pcs) (negb sw)).
Definition do_join (enter : bool) (j : Z) (env : list reply) (s : sched) (pcs : gmap Z pc) : outcome mach :=
  let cur := bmk_current s in
  '(again, sw, s) ← (if enter then join_enter env s j else join_round env s j);
  Done (if (again : bool) then Mach s (<[cur := InJoin j]> pcs) (negb sw)
        else Mach s (<[cur := User]> pcs) false).

Definition mstep (e : event) (M : mach) : outcome mach :=
  let s := ms M in let pcs := mpc M in let cur := bmk_current s in
  match e with
  | ECreate thread stack cookie ext j =>
      '(t, s) ← bmk_sched_create s thread stack cookie ext j;
      Done (Mach s (<[t := Virgin]> pcs) false)
  | EWake t => s ← bmk_sched_wake s t; Done (Mach s pcs false)
  | EPrepare d => s ← bmk_sched_blockprepare_timeout s d; Done (Mach s pcs false)
  | EYield env => '(sw, s) ← bmk_sched_yield env s; Done (Mach s (<[cur := InYield]> pcs) (negb sw))
  | EBlock env => '(sw, s) ← block_enter env s; Done (Mach s (<[cur := InBlock]> pcs) (negb sw))
  | EExit env => do_exit env s pcs
  | EJoin j env => do_join true j env s pcs
  | EIdle env => '(sw, s) ← schedule_from env 0 s; Done (Mach s pcs (negb sw))
  | EResume env =>
      match pcs !! cur with
      | Some Virgin => Done (Mach s (<[cur := User]> pcs) false)
      | Some InYield => '(_, s) ← run_reaper s; Done (Mach s (<[cur := User]> pcs) false)
      | Some InBlock =>
          '(_, s) ← run_reaper s; '(_, s) ← block_return s; Done (Mach s (<[cur := User]> pcs) false)
      | Some InExit => '(_, s) ← run_reaper s; '(_, s) ← block_return s; do_exit env s pcs
      | Some (InJoin j) =>
          '(_, s) ← run_reaper s; '(_, s) ← block_return s;
          do_join false j env (join_unwait s cur) pcs
      | _ => Done M
      end
  end.

(** ** The invariant of the machine *)

(** A suspended thread. *)
Definition parked_ok (p : pc) (th : bmk_thread) : Prop :=
  p <> User /\ (tb th 4 = true -> tb th 10 = true) /\
  tb th 10 = match p with Virgin | InYield => false | _ => true end.

(** The current thread in its own code: no timeout is pending, and it is on a
    queue exactly when it has prepared to block. *)
Definition user_ok (th : bmk_thread) : Prop :=
  tb th 4 = false /\ (tb th 10 = true -> tb th 0 || tb th 1 || tb th 2 = true).

Definition others_parked (s : sched) (pcs : gmap Z pc) : Prop :=
  forall t th, t <> bmk_current s -> threads s !! t = Some th -> tb th 9 = false ->
    exists p, pcs !! t = Some p /\ parked_ok p th.

(** Joins: the waited-for thread is alive and must still be joined, and has
    one joiner; the wait queue holds waiting threads. *)
Record joins (s : sched) (pcs : gmap Z pc) : Prop := {
  jn_alive : forall t p, pcs !! t = Some p -> alive s t;
  jn_target : forall t j, pcs !! t = Some (InJoin j) ->
    exists jt, threads s !! j = Some jt /\ tb jt 9 = false /\ tb jt 5 = true;
  jn_uniq : forall a b j, pcs !! a = Some (InJoin j) -> pcs !! b = Some (InJoin j) -> a = b;
  jn_wait : forall a j, (a, j) ∈ joinwq s -> pcs !! a = Some (InJoin j);
}.

Definition current_ok (s : sched) (pcs : gmap Z pc) : Prop :=
  exists th p, threads s !! bmk_current s = Some th /\ pcs !! bmk_current s = Some p /\
    if decide (p = User) then user_ok th
    else parked_ok p th /\ tb th 0 = false /\ tb th 1 = false /\ tb th 2 = false.

Record mach_ok (M : mach) : Prop := {
  mo_wf : wf (if midle M then Leaving else Current) (ms M);
  mo_spl : spldepth (ms M) = if midle M then 1 else 0;
  mo_others : others_parked (ms M) (mpc M);
  mo_joins : joins (ms M) (mpc M);
  mo_cur : if midle M
    then forall th, threads (ms M) !! bmk_current (ms M) = Some th -> tb th 9 = false ->
      exists p, mpc M !! bmk_current (ms M) = Some p /\ parked_ok p th
    else current_ok (ms M) (mpc M);
}.

(** What the callers have to respect. *)
Definition in_user (M : mach) (prep : bool) : Prop :=
  midle M = false /\ mpc M !! bmk_current (ms M) = Some User /\
  forall th, threads (ms M) !! bmk_current (ms M) = Some th -> tb th 10 = prep.
(** Nobody wakes a thread that is on its way out. *)
Definition env_others (s : sched) (env : list reply) : Prop :=
  Forall (fun r => Forall (fun t => alive s t /\ t <> bmk_current s) r.2) env.

Definition valid (e : event) (M : mach) : Prop :=
  match e with
  | ECreate thread _ _ _ _ => in_user M false /\ threads (ms M) !! thread = None
  | EWake t => midle M = false /\ alive (ms M) t
  | EPrepare _ => in_user M false
  | EYield env => in_user M false /\ env_ok (ms M) env
  | EBlock env => in_user M true /\ env_ok (ms M) env
  | EExit env => in_user M false /\ env_others (ms M) env
  | EJoin j env => in_user M false /\ env_ok (ms M) env /\
      (exists jt, threads (ms M) !! j = Some jt /\ tb jt 9 = false /\ tb jt 5 = true) /\
      (forall t, mpc M !! t <> Some (InJoin j))
  | EIdle env => midle M = true /\ env_ok (ms M) env
  | EResume env => midle M = false /\ env_others (ms M) env
  end.

Fixpoint mrun_sched (es : list event) (M : mach) : outcome mach :=
  match es with
  | [] => Done M
  | e :: es => M ← mstep e M; mrun_sched es M
  end.

(** A run in which every event is valid when it happens. *)
Inductive reachable : mach -> mach -> Prop :=
  | reach_refl M : reachable M M
  | reach_step M e M1 M2 : reachable M M1 -> valid e M1 -> mstep e M1 = Done M2 -> reachable M M2.

(** ** Facts about suspended threads *)

Lemma parked_quiet p th th' : same_thread th th' -> parked_ok p th -> parked_ok p th'.
Proof.
  intros (_ & _ & Hb & H4) (Hp & Ht & H10). rewrite <- (Hb 10) in H10 by lia.
  split; [done |]. split; [| done]. intros H. rewrite (Hb 10) by lia.
  destruct (H4 H); [auto | done].
Qed.

(** All live threads are suspended, the current one included. *)
Definition all_parked (s : sched) (pcs : gmap Z pc) : Prop :=
  forall t th, threads s !! t = Some th -> tb th 9 = false -> exists p, pcs !! t = Some p /\ parked_ok p th.

Lemma quiet_back s s' t th' : quiet s s' -> threads s' !! t = Some th' ->
  exists th, threads s !! t = Some th /\ same_thread th th'.
Proof.
  intros Q Ht'. destruct (threads s !! t) as [th |] eqn:E.
  - destruct (qu_threads _ _ Q t th E) as (x & Hx & Hs). rewrite Ht' in Hx. simplify_eq. eauto.
  - rewrite (qu_none _ _ Q t E) in Ht'. done.
Qed.

Lemma all_parked_quiet s s' pcs : quiet s s' -> all_parked s pcs -> all_parked s' pcs.
Proof.
  intros Q H t th' Ht' Hd'. destruct (quiet_back _ _ _ _ Q Ht') as (th & Ht & Hs).
  destruct Hs as (H1 & H2 & Hb & H4). rewrite (Hb 9) in Hd' by lia.
  destruct (H t th Ht Hd') as (p & Hp & Hok). exists p. split; [done |].
  eapply parked_quiet; [| exact Hok]. by split.
Qed.

Lemma joins_quiet s s' pcs : quiet s s' -> joins s pcs -> joins s' pcs.
Proof.
  intros Q [J1 J2 J3 J4]. split; try done.
  - intros t p Ht. apply (quiet_alive _ _ _ Q). eauto.
  - intros t j Ht. destruct (J2 t j Ht) as (jt & Hj & H9 & H5).
    destruct (qu_threads _ _ Q j jt Hj) as (jt' & Hj' & (_ & _ & Hb & _)).
    exists jt'. rewrite !Hb by lia. done.
  - rewrite (qu_joinwq _ _ Q). done.
Qed.

(** Entering [schedule] with everything suspended. *)
Lemma mach_switched s pcs (b : bool) s' : all_parked s pcs -> joins s pcs ->
  (if b then resumed s s' else idling s s') -> mach_ok (Mach s' pcs (negb b)).
Proof.
  intros Hp Hj H. destruct b; cbn [negb].
  - destruct H as [Hwf Q Hspl Hfl]. pose proof (all_parked_quiet _ _ _ Q Hp) as Hp'.
    split; cbn [ms mpc midle]; try done.
    + intros t th _. apply Hp'.
    + by eapply joins_quiet.
    + destruct (wf_cur _ _ Hwf) as [th Hth].
      pose proof (wf_flags _ _ Hwf _ th Hth) as Hok. unfold mode_of in Hok. rewrite decide_True in Hok by done.
      assert (tb th 9 = false) as H9.
      { unfold th_ok in Hok. destruct (tb th 0), (tb th 1), (tb th 2), (tb th 3), (tb th 9); done. }
      destruct (Hp' _ th Hth H9) as (p & Hpc & Hok'). exists th, p. split; [done |]. split; [done |].
      rewrite decide_False by apply Hok'. split; [done |]. by apply Hfl.
  - destruct H as [Hwf Q Hspl Ec Hr Ht]. pose proof (all_parked_quiet _ _ _ Q Hp) as Hp'.
    split; cbn [ms mpc midle]; try done.
    + intros t th _. apply Hp'.
    + by eapply joins_quiet.
    + intros th. apply Hp'.
Qed.
