(* ===== verification/SchedSafe.v ===== *)
(** * Every event keeps the machine invariant *)

From S2P Require Import Prelude Sched SchedInv SchedProps SchedSwitch SchedMach.

(** The current thread is about to call an operation from its own code. *)
Record ready (s : sched) (pcs : gmap Z pc) (th : bmk_thread) : Prop := {
  rd_wf : wf Current s;
  rd_spl : spldepth s = 0;
  rd_others : others_parked s pcs;
  rd_joins : joins s (delete (bmk_current s) pcs);
  rd_cur : threads s !! bmk_current s = Some th;
  rd_prep : tb th 10 = false;
  rd_time : tb th 4 = false;
}.

(** The same without the condition on joins, for a thread that is about to
    wait in a join. *)
Record ready0 (s : sched) (pcs : gmap Z pc) (th : bmk_thread) : Prop := {
  r0_wf : wf Current s;
  r0_spl : spldepth s = 0;
  r0_others : others_parked s pcs;
  r0_cur : threads s !! bmk_current s = Some th;
  r0_prep : tb th 10 = false;
  r0_time : tb th 4 = false;
}.

Lemma ready_0 s pcs th : ready s pcs th -> ready0 s pcs th.
Proof. by intros []. Qed.

Lemma ready0_bits s pcs th : ready0 s pcs th ->
  tb th 0 = false /\ tb th 1 = false /\ tb th 2 = false /\ tb th 3 = true /\ tb th 9 = false.
Proof.
  intros [Hwf _ _ Ht Hp _]. pose proof (wf_flags _ _ Hwf _ th Ht) as Hok.
  unfold mode_of in Hok. rewrite decide_True in Hok by done. unfold th_ok in Hok. rewrite Hp in Hok.
  destruct (tb th 0), (tb th 1), (tb th 2), (tb th 3), (tb th 9); done.
Qed.

Lemma ready_bits s pcs th : ready s pcs th ->
  tb th 0 = false /\ tb th 1 = false /\ tb th 2 = false /\ tb th 3 = true /\ tb th 9 = false.
Proof. intros H. eapply ready0_bits, ready_0, H. Qed.

Lemma ready_notin s pcs th q : ready s pcs th -> bmk_current s ∉ queue s q.
Proof.
  intros H. destruct (ready_bits _ _ _ H) as (B0 & B1 & B2 & _ & B9).
  eapply wf_notin; [apply H | apply H |]. by destruct q.
Qed.

Lemma in_user_ready M : mach_ok M -> in_user M false -> exists th, ready (ms M) (mpc M) th.
Proof.
  intros [Hwf Hspl Ho Hj Hc] (Hid & Hu & Hprep). rewrite Hid in *.
  destruct Hc as (th & p & Ht & Hp & Hok). exists th. rewrite Hu in Hp. simplify_eq.
  rewrite decide_True in Hok by done. destruct Hok as [H4 _]. split; try done; [| by apply Hprep].
  destruct Hj as [J1 J2 J3 J4]. split.
  - intros t p. rewrite lookup_delete_Some. intros [_ H]. eauto.
  - intros t j. rewrite lookup_delete_Some. intros [_ H]. eauto.
  - intros a b j. rewrite !lookup_delete_Some. intros [_ Ha] [_ Hb]. eauto.
  - intros a j Ha. apply J4 in Ha. rewrite lookup_delete_ne; [done |]. intros <-. congruence.
Qed.

Definition no_join (p : pc) : Prop := match p with InJoin _ => False | _ => True end.

Lemma joins_set s pcs cur p : joins s (delete cur pcs) -> alive s cur -> no_join p ->
  joins s (<[cur := p]> pcs).
Proof.
  intros [J1 J2 J3 J4] Ha Hp.
  assert (forall t q, <[cur := p]> pcs !! t = Some q -> t = cur /\ q = p \/ delete cur pcs !! t = Some q) as H.
  { intros t q. rewrite lookup_insert_Some, lookup_delete_Some. naive_solver. }
  split.
  - intros t q [[-> ->] | Hq]%H; [done | eauto].
  - intros t j [[-> <-] | Hq]%H; [done | eauto].
  - intros a b j [[-> <-] | Ha']%H [[-> Hb] | Hb']%H; try done; eauto. by rewrite <- Hb in Hp.
  - intros a j Hin. apply J4 in Hin. rewrite lookup_delete_Some in Hin. destruct Hin as [Hne Hin].
    by rewrite lookup_insert_ne.
Qed.

Lemma joins_del s pcs cur : joins s pcs -> pcs !! cur <> None ->
  (forall j, (cur, j) ∉ joinwq s) -> joins s (delete cur pcs).
Proof.
  intros [J1 J2 J3 J4] Hc Hno. split.
  - intros t p. rewrite lookup_delete_Some. intros [_ H]. eauto.
  - intros t j. rewrite lookup_delete_Some. intros [_ H]. eauto.
  - intros a b j. rewrite !lookup_delete_Some. intros [_ Ha] [_ Hb]. eauto.
  - intros a j Ha. rewrite lookup_delete_ne; [by apply J4 |]. intros <-. by apply (Hno j).
Qed.

(** Suspending the current thread, whose structure has become [th']. *)
Lemma all_parked_put s s' pcs cur th' p :
  others_parked s pcs -> bmk_current s = cur -> threads s' = <[cur := th']> (threads s) ->
  parked_ok p th' -> all_parked s' (<[cur := p]> pcs).
Proof.
  intros Ho Hc E Hp t th Ht Hd. rewrite E in Ht. destruct (decide (t = cur)) as [-> | Hne].
  - rewrite lookup_insert_eq in Ht. injection Ht as <-. exists p. split; [apply lookup_insert_eq | exact Hp].
  - rewrite lookup_insert_ne in Ht by done. rewrite lookup_insert_ne by done. apply Ho; [by rewrite Hc | done | done].
Qed.

Lemma joins_put s s' pcs t th th' : joins s pcs -> threads s !! t = Some th ->
  threads s' = <[t := th']> (threads s) -> joinwq s' = joinwq s -> tb th' 9 = tb th 9 -> tb th' 5 = tb th 5 ->
  joins s' pcs.
Proof.
  intros [J1 J2 J3 J4] Ht E Ej B9 B5. split; try done.
  - intros x p Hx. destruct (J1 x p Hx) as (xh & Hxh & Hd). unfold alive. rewrite E.
    destruct (decide (x = t)) as [-> | Hne].
    + rewrite lookup_insert_eq. eexists. split; [done |]. rewrite Ht in Hxh. simplify_eq. congruence.
    + rewrite lookup_insert_ne by done. eauto.
  - intros x j Hx. destruct (J2 x j Hx) as (jt & Hjt & Hd & H5). rewrite E.
    destruct (decide (j = t)) as [-> | Hne].
    + rewrite lookup_insert_eq. eexists. split; [done |]. rewrite Ht in Hjt. simplify_eq. split; congruence.
    + rewrite lookup_insert_ne by done. eauto.
  - by rewrite Ej.
Qed.

(** ** Preparing and blocking *)

Lemma prepared_bits s pcs th d : ready0 s pcs th ->
  tb (prepared_thread d th) 10 = true /\ tb (prepared_thread d th) 9 = false /\
  tb (prepared_thread d th) 5 = tb th 5 /\ tb (prepared_thread d th) 4 = false /\
  tb (prepared_thread d th) 0 || tb (prepared_thread d th) 1 || tb (prepared_thread d th) 2 = true.
Proof.
  intros H. destruct (ready0_bits _ _ _ H) as (B0 & B1 & B2 & B3 & B9). pose proof (r0_time _ _ _ H) as B4.
  unfold prepared_thread. destruct (d =? _); tb_simpl; rewrite ?B0, ?B1, ?B2, ?B9, ?B4; repeat split.
Qed.

(** [bmk_sched_blockprepare_timeout(d); bmk_sched_block();] up to the switch. *)
Lemma prepare_block s pcs th d env :
  ready0 s pcs th -> env_ok s env ->
  exists s1 b s2, bmk_sched_blockprepare_timeout s d = Done s1 /\ block_enter env s1 = Done (b, s2) /\
    prepared s s1 th d /\ wf Current s1 /\ (if b : bool then resumed s1 s2 else idling s1 s2).
Proof.
  intros Hrd Henv. pose proof Hrd as [Hwf Hspl _ Ht Hp _].
  destruct (prepare_Done s th d Hwf Ht Hp ltac:(lia)) as (s1 & E1 & Hpr).
  destruct (prepared_bits s pcs th d Hrd) as (B10 & B9 & B5 & B4 & Bq).
  pose proof (wf_prepared s s1 th d Hwf Ht Hp Hpr) as Hwf1.
  pose proof Hpr as (Es & _ & _ & _ & _ & Ec & Esp & _).
  assert (threads s1 !! bmk_current s1 = Some (prepared_thread d th)) as Ht1
    by (rewrite Es, Ec; apply lookup_insert_eq).
  pose proof (wf_leaving s1 _ Hwf1 Ht1 Bq) as HwfL.
  assert (env_ok s1 env) as Henv1.
  { eapply Forall_impl; [exact Henv |]. intros r Hr. eapply Forall_impl; [exact Hr |].
    intros t (x & Hx & Hd). unfold alive. rewrite Es. destruct (decide (t = bmk_current s)) as [-> | ?].
    - rewrite lookup_insert_eq. eauto.
    - rewrite lookup_insert_ne by done. eauto. }
  destruct (schedule_spec env s1 HwfL ltac:(lia) Henv1) as (b & s2 & E2 & H).
  exists s1, b, s2. split; [done |]. split; [| done].
  unfold block_enter. rewrite (thread_at_Some _ _ _ Ht1), Done_bind.
  rewrite (clear_mask _ _ 4), tb_fold, B4 by done. cbn [negb]. rewrite bmk_assert_true, Done_bind.
  rewrite (has_mask _ _ 10), tb_fold, B10 by done. by rewrite bmk_assert_true, Done_bind.
Qed.

Lemma step_prepare M d : mach_ok M -> valid (EPrepare d) M ->
  exists M', mstep (EPrepare d) M = Done M' /\ mach_ok M'.
Proof.
  intros HM Hv. destruct (in_user_ready M HM Hv) as [th Hrd]. destruct Hv as (Hid & Hu & _).
  pose proof Hrd as [Hwf Hspl Ho _ Ht Hp _].
  destruct (prepare_Done (ms M) th d Hwf Ht Hp ltac:(lia)) as (s1 & E1 & Hpr).
  destruct (prepared_bits _ _ th d (ready_0 _ _ _ Hrd)) as (B10 & B9 & B5 & B4 & Bq).
  pose proof (wf_prepared _ s1 th d Hwf Ht Hp Hpr) as Hwf1.
  destruct (ready_bits _ _ _ Hrd) as (_ & _ & _ & _ & B9').
  pose proof Hpr as (Es & _ & _ & _ & Ej & Ec & Esp & _).
  cbn [mstep]. rewrite E1, Done_bind. eexists. split; [done |].
  split; cbn [ms mpc midle]; try done; [by rewrite Esp | | |].
  - intros t x Hne Hx. rewrite Ec in Hne. rewrite Es, lookup_insert_ne in Hx by done. by apply Ho.
  - eapply joins_put; [apply HM | exact Ht | exact Es | done | congruence | done].
  - exists (prepared_thread d th), User. rewrite Ec, Es, lookup_insert_eq.
    split; [done |]. split; [done |]. rewrite decide_True by done. by split.
Qed.

Lemma step_block M env : mach_ok M -> valid (EBlock env) M ->
  exists M', mstep (EBlock env) M = Done M' /\ mach_ok M'.
Proof.
  intros [Hwf Hspl Ho Hj Hc] ((Hid & Hu & Hprep) & Henv). rewrite Hid in *.
  destruct Hc as (th & p & Ht & Hp & Hok). rewrite Hu in Hp. simplify_eq. rewrite decide_True in Hok by done.
  specialize (Hprep th Ht). destruct Hok as [H4 Hq]. specialize (Hq Hprep).
  pose proof (wf_leaving _ _ Hwf Ht Hq) as HwfL. cbn [mstep].
  destruct (schedule_spec env (ms M) HwfL Hspl Henv) as (b & s2 & E2 & H).
  unfold block_enter. rewrite (thread_at_Some _ _ _ Ht), Done_bind.
  rewrite (clear_mask _ _ 4), tb_fold, H4 by done. cbn [negb]. rewrite bmk_assert_true, Done_bind.
  rewrite (has_mask _ _ 10), tb_fold, Hprep by done. rewrite bmk_assert_true, Done_bind, E2, Done_bind.
  eexists. split; [done |]. eapply mach_switched; [| | exact H].
  - eapply all_parked_put; [exact Ho | done | symmetry; by apply insert_id |].
    split; [done |]. split; [by rewrite H4 | done].
  - apply joins_set; [| | done].
    + apply joins_del; [done | by rewrite Hu |]. intros j Hin. apply (jn_wait _ _ Hj) in Hin. congruence.
    + exists th. split; [done |]. pose proof (wf_flags _ _ Hwf _ th Ht) as Hok. unfold mode_of in Hok.
      rewrite decide_True in Hok by done. unfold th_ok in Hok.
      destruct (tb th 0), (tb th 1), (tb th 2), (tb th 3), (tb th 9); done.
Qed.

Lemma step_idle M env : mach_ok M -> valid (EIdle env) M ->
  exists M', mstep (EIdle env) M = Done M' /\ mach_ok M'.
Proof.
  intros [Hwf Hspl Ho Hj Hc] (Hid & Henv). rewrite Hid in *. cbn [mstep].
  destruct (schedule_from_spec env (ms M) Hwf Hspl Henv) as (b & s2 & -> & H).
  rewrite Done_bind. eexists. split; [done |]. eapply mach_switched; [| exact Hj | exact H].
  intros t th Ht Hd. destruct (decide (t = bmk_current (ms M))) as [-> | Hne]; [by apply Hc | by apply Ho].
Qed.

(** ** Waking *)

Lemma others_parked_quiet s s' pcs : quiet s s' -> bmk_current s' = bmk_current s ->
  others_parked s pcs -> others_parked s' pcs.
Proof.
  intros Q Ec H t th' Hne Ht' Hd'. destruct (quiet_back _ _ _ _ Q Ht') as (th & Ht & Hs).
  pose proof Hs as (_ & _ & Hb & _). rewrite (Hb 9) in Hd' by lia. rewrite Ec in Hne.
  destruct (H t th Hne Ht Hd') as (p & Hp & Hok). exists p. split; [done |]. by eapply parked_quiet.
Qed.

Lemma woken_bits th i : 3 <= i -> tb (woken_thread th) i = tb th i.
Proof.
  intros Hi. unfold woken_thread. destruct (queued th); [| done].
  rewrite tb_with_flags, newflags_bit by lia.
  assert (Z.testbit THR_RUNQ i = false) as ->.
  { change THR_RUNQ with (2 ^ 0). apply Z.pow2_bits_false. lia. }
  assert (Z.testbit THR_QMASK i = false) as ->.
  { change THR_QMASK with (Z.ones 3). apply Z.ones_spec_high. lia. }
  by rewrite andb_true_r, orb_false_r.
Qed.

Lemma woken_low th : tb (woken_thread th) 0 || tb (woken_thread th) 1 || tb (woken_thread th) 2 =
  tb th 0 || tb th 1 || tb th 2.
Proof.
  unfold woken_thread, queued. destruct (tb th 1) eqn:E1, (tb th 2) eqn:E2; cbn [orb]; tb_simpl;
    rewrite ?E1, ?E2, ?orb_true_r; by destruct (tb th 0).
Qed.

Lemma current_ok_woken s pcs t th : threads s !! t = Some th -> current_ok s pcs ->
  current_ok (woken s t th) pcs.
Proof.
  intros Ht (ch & p & Hc & Hp & Hok). destruct (decide (t = bmk_current s)) as [-> | Hne].
  - rewrite Ht in Hc. simplify_eq. exists (woken_thread ch), p. cbn [woken threads bmk_current].
    rewrite lookup_insert_eq. split; [done |]. split; [done |]. destruct (decide (p = User)).
    + destruct Hok as [H4 Hq]. split; [by rewrite woken_bits |]. rewrite woken_bits, woken_low by lia. done.
    + destruct Hok as [Hpk (B0 & B1 & B2)].
      assert (woken_thread ch = with_wakeup BMK_SCHED_BLOCK_INFTIME ch) as ->.
      { unfold woken_thread, queued. by rewrite B1, B2. }
      by split.
  - exists ch, p. cbn [woken threads bmk_current]. by rewrite lookup_insert_ne.
Qed.

Lemma step_wake M t : mach_ok M -> valid (EWake t) M ->
  exists M', mstep (EWake t) M = Done M' /\ mach_ok M'.
Proof.
  intros [Hwf Hspl Ho Hj Hc] (Hid & Ha). rewrite Hid in *. cbn [mstep].
  destruct (wake_spec Current (ms M) t Hwf Ha ltac:(lia)) as (th & Ht & -> & Hwf'). rewrite Done_bind.
  pose proof (quiet_woken _ t th Ht) as Q. eexists. split; [done |].
  split; cbn [ms mpc midle]; try done.
  - by eapply others_parked_quiet.
  - by eapply joins_quiet.
  - by apply current_ok_woken.
Qed.

(** ** Yielding *)

Lemma wf_yielding s pcs th : ready s pcs th ->
  wf Leaving (set_runq (runq s ++ [bmk_current s])
    (put (bmk_current s) (with_flags (newflags (bt_flags th) THR_RUNQ THR_RUNNING) th) s)).
Proof.
  intros Hrd. destruct (ready_bits _ _ _ Hrd) as (B0 & B1 & B2 & B3 & B9).
  pose proof Hrd as [Hwf _ _ _ Ht Hp _]. pose proof (fun q => ready_notin _ _ _ q Hrd) as Hnin.
  set (t := bmk_current s) in *. set (th' := with_flags _ th). set (s' := set_runq _ _).
  assert (tb th' 0 = true /\ tb th' 1 = false /\ tb th' 2 = false /\ tb th' 9 = false) as (C0 & C1 & C2 & C9).
  { unfold th'. tb_simpl. by rewrite ?B1, ?B2, ?B9, ?orb_true_r. }
  eapply (wf_update Current Leaving s s' t th th'); try done.
  - congruence.
  - intros q x Hx. destruct q; try done. unfold s'. sproj. rewrite elem_of_app, list_elem_of_singleton. tauto.
  - intros q. destruct q; cbn [qbit]; rewrite ?C0, ?C1, ?C2, ?C9.
    + unfold s'. sproj. rewrite elem_of_app, list_elem_of_singleton. tauto.
    + split; [intros H; by apply (Hnin QTime) in H | done].
    + split; [intros H; by apply (Hnin QBlock) in H | done].
    + split; [intros H; by apply (Hnin QZombie) in H | done].
  - intros q. pose proof (wf_nd _ _ Hwf q) as Hn. destruct q; try done. unfold s'. sproj.
    apply NoDup_app. split; [done |]. split; [| apply NoDup_singleton].
    intros x Hx ->%list_elem_of_singleton. by apply (Hnin QRun).
  - unfold mode_of, th_ok. rewrite decide_True by done. by rewrite C0, C1, C2, C9.
  - by left.
  - eapply ss_ext; [apply Hwf |]. cbn. intros x y Hx Hy.
    assert (forall z, z ∈ timeq s -> wk s' z = wk s z) as Hwk.
    { intros z Hz. rewrite (wk_put s s' t th') by done. rewrite decide_False; [done |].
      intros ->. by apply (Hnin QTime). }
    by rewrite !Hwk.
  - congruence.
Qed.

Lemma env_ok_put s s' cur th th' env : threads s !! cur = Some th -> threads s' = <[cur := th']> (threads s) ->
  tb th' 9 = tb th 9 -> env_ok s env -> env_ok s' env.
Proof.
  intros Ht E B9 H. eapply Forall_impl; [exact H |]. intros r Hr. eapply Forall_impl; [exact Hr |].
  intros t (x & Hx & Hd). unfold alive. rewrite E. destruct (decide (t = cur)) as [-> | ?].
  - rewrite lookup_insert_eq. eexists. split; [done |]. rewrite Ht in Hx. simplify_eq. congruence.
  - rewrite lookup_insert_ne by done. eauto.
Qed.

Lemma step_yield M env : mach_ok M -> valid (EYield env) M ->
  exists M', mstep (EYield env) M = Done M' /\ mach_ok M'.
Proof.
  intros HM (Hu & Henv). destruct (in_user_ready M HM Hu) as [th Hrd].
  pose proof Hrd as [Hwf Hspl Ho Hj Ht Hp H4]. destruct (ready_bits _ _ _ Hrd) as (B0 & B1 & B2 & B3 & B9).
  pose proof (wf_yielding _ _ _ Hrd) as HwfL.
  cbn [mstep]. set (s := ms M) in *. set (cur := bmk_current s) in *.
  unfold bmk_sched_yield. fold cur. rewrite (thread_at_Some _ _ _ Ht), Done_bind.
  rewrite (has_mask _ _ 3), tb_fold, B3, bmk_assert_true, Done_bind by done.
  unfold bmk_platform_splhigh. cbv iota beta.
  rewrite (setflags_Some (set_spl (spldepth s + 1) s) cur th _ _ Ht), Done_bind.
  set (th' := with_flags _ th) in *. unfold bmk_platform_splx. sproj.
  rewrite (proj2 (Z.eqb_neq _ 0)), Done_bind by lia. rewrite Z.add_simpl_r.
  set (s1 := set_spl (spldepth s) _).
  assert (threads s1 = <[cur := th']> (threads s)) as Es by done.
  assert (wf Leaving s1) as Hwf1 by (by eapply wf_ext; [exact HwfL | ..]).
  assert (tb th' 9 = tb th 9 /\ tb th' 5 = tb th 5 /\ tb th' 4 = tb th 4 /\ tb th' 10 = tb th 10) as (C9 & C5 & C4 & C10).
  { unfold th'. by tb_simpl. }
  destruct (schedule_spec env s1 Hwf1 Hspl) as (b & s2 & -> & H).
  { eapply env_ok_put; [exact Ht | exact Es | done | done]. }
  rewrite Done_bind. eexists. split; [done |]. eapply mach_switched; [| | exact H].
  - eapply all_parked_put; [exact Ho | done | exact Es |]. split; [done |]. split; [congruence | congruence].
  - eapply (joins_put s s1 _ cur th th'); try done. apply joins_set; [exact Hj | by exists th | done].
Qed.

(** ** Creating a thread *)

Lemma create_flags (ext j : bool) : let fl := Z.lor (if j then Z.lor (if ext then THR_EXTSTACK else 0) THR_MUSTJOIN
    else if ext then THR_EXTSTACK else 0) THR_RUNQ in
  Z.testbit fl 0 = true /\ Z.testbit fl 1 = false /\ Z.testbit fl 2 = false /\ Z.testbit fl 3 = false /\
  Z.testbit fl 4 = false /\ Z.testbit fl 9 = false /\ Z.testbit fl 10 = false /\ Z.testbit fl 5 = j.
Proof. destruct ext, j; by vm_compute. Qed.

Lemma wf_create m s s' t th : wf m s -> threads s !! t = None ->
  threads s' = <[t := th]> (threads s) -> threadq s' = threadq s ++ [t] -> runq s' = runq s ++ [t] ->
  timeq s' = timeq s -> blockq s' = blockq s -> zombieq s' = zombieq s -> bmk_current s' = bmk_current s ->
  tb th 0 = true -> tb th 1 = false -> tb th 2 = false -> tb th 3 = false -> tb th 9 = false -> wf m s'.
Proof.
  intros Hwf Hnew Es Etq Er Et Eb Ez Ec B0 B1 B2 B3 B9.
  assert (forall q, t ∉ queue s q) as Hnin by (intros q (x & Hx & _)%(wf_q _ _ Hwf); congruence).
  assert (forall x, x ∈ timeq s -> wk s' x = wk s x) as Hwk.
  { intros x Hx. rewrite (wk_put s s' t th) by done. rewrite decide_False; [done |]. intros ->.
    by apply (Hnin QTime). }
  assert (bmk_current s <> t) as Hcne.
  { intros <-. destruct (wf_cur _ _ Hwf) as [? ?]. congruence. }
  split; rewrite ?Es, ?Ec.
  - rewrite lookup_insert_ne by done. apply Hwf.
  - intros x xh Hx. unfold mode_of. rewrite Ec. destruct (decide (x = t)) as [-> | Hne].
    + rewrite lookup_insert_eq in Hx. simplify_eq. rewrite decide_False by done.
      unfold th_ok. by rewrite B0, B1, B2, B3, B9.
    + rewrite lookup_insert_ne in Hx by done. by apply (wf_flags _ _ Hwf).
  - intros q x. assert (x ∈ queue s' q <-> x ∈ queue s q \/ (q = QRun /\ x = t)) as ->.
    { destruct q; cbn [queue]; rewrite ?Er, ?Et, ?Eb, ?Ez; [rewrite elem_of_app, list_elem_of_singleton | ..]; naive_solver. }
    rewrite (wf_q _ _ Hwf). destruct (decide (x = t)) as [-> | Hne].
    + rewrite lookup_insert_eq, Hnew. split.
      * intros [(? & [=] & _) | [-> _]]. exists th. done.
      * intros (? & [= <-] & H). right. destruct q; cbn [qbit] in H; [done | congruence ..].
    + rewrite lookup_insert_ne by done. naive_solver.
  - intros q. pose proof (wf_nd _ _ Hwf q) as Hn. destruct q; cbn [queue] in *; rewrite ?Er, ?Et, ?Eb, ?Ez; try done.
    apply NoDup_app. split; [done |]. split; [| apply NoDup_singleton].
    intros x Hx ->%list_elem_of_singleton. by apply (Hnin QRun).
  - intros x. rewrite Etq, elem_of_app, list_elem_of_singleton, (wf_threadq _ _ Hwf).
    destruct (decide (x = t)) as [-> | Hne]; [rewrite lookup_insert_eq | rewrite lookup_insert_ne by done]; naive_solver.
  - rewrite Etq. apply NoDup_app. split; [apply Hwf |]. split; [| apply NoDup_singleton].
    intros x Hx ->%list_elem_of_singleton. apply (wf_threadq _ _ Hwf) in Hx as (? & ? & _). congruence.
  - rewrite Et. eapply ss_ext; [apply Hwf |]. cbn. intros x y Hx Hy. by rewrite !Hwk.
  - rewrite Et. intros x Hx. rewrite Hwk by done. by apply (wf_wk _ _ Hwf).
Qed.

Lemma create_spec m s t stack cookie ext j : wf m s -> 0 <= spldepth s -> threads s !! t = None ->
  exists s' th, bmk_sched_create s t stack cookie ext j = Done (t, s') /\ wf m s' /\
    threads s' = <[t := th]> (threads s) /\ joinwq s' = joinwq s /\ bmk_current s' = bmk_current s /\
    spldepth s' = spldepth s /\ runq s' = runq s ++ [t] /\
    tb th 0 = true /\ tb th 1 = false /\ tb th 2 = false /\
    tb th 4 = false /\ tb th 9 = false /\ tb th 10 = false /\ tb th 5 = j /\ bt_stackbase th = stack.
Proof.
  intros Hwf Hspl Hnew. unfold bmk_sched_create, bmk_platform_splhigh. cbv zeta iota beta.
  erewrite thread_at_Some by (sproj; apply lookup_insert_eq). rewrite Done_bind. sproj.
  unfold bmk_platform_splx. sproj. rewrite (proj2 (Z.eqb_neq _ 0)) by lia. rewrite Done_bind.
  destruct (create_flags ext j) as (B0 & B1 & B2 & B3 & B4 & B9 & B10 & B5).
  eexists _, _. split; [done |]. sproj. rewrite insert_insert_eq, Z.add_simpl_r.
  split; [| split; [done |]; by rewrite ?tb_with_flags].
  eapply (wf_create m s _ t); try done; sproj; [by rewrite insert_insert_eq | ..]; done.
Qed.

Lemma step_create M t stack cookie ext j : mach_ok M -> valid (ECreate t stack cookie ext j) M ->
  exists M', mstep (ECreate t stack cookie ext j) M = Done M' /\ mach_ok M'.
Proof.
  intros HM (Hu & Hnew). destruct (in_user_ready M HM Hu) as [th Hrd].
  pose proof HM as [_ _ Ho Hj Hc]. destruct Hu as (Hid & _). rewrite Hid in Hc.
  destruct (create_spec Current (ms M) t stack cookie ext j (rd_wf _ _ _ Hrd) ltac:(rewrite (rd_spl _ _ _ Hrd); lia) Hnew)
    as (s' & nt & E & Hwf' & Es & Ej & Ec & Esp & _ & _ & _ & _ & B4 & B9 & B10 & _).
  cbn [mstep]. rewrite E, Done_bind. eexists. split; [done |].
  assert (bmk_current (ms M) <> t) as Hcne.
  { intros <-. destruct (wf_cur _ _ (rd_wf _ _ _ Hrd)) as [? ?]. congruence. }
  assert (mpc M !! t = None) as Hpcn.
  { destruct (mpc M !! t) as [p |] eqn:Ep; [| done]. destruct (jn_alive _ _ Hj _ _ Ep) as (? & ? & _). congruence. }
  split; cbn [ms mpc midle]; try done.
  - by rewrite Esp, (rd_spl _ _ _ Hrd).
  - intros x xh Hne Hx Hd. rewrite Es in Hx. rewrite Ec in Hne. destruct (decide (x = t)) as [-> | Hnt].
    + rewrite lookup_insert_eq in Hx. simplify_eq. exists Virgin. rewrite lookup_insert_eq. split; [done |].
      split; [done |]. split; [by rewrite B4 | done].
    + rewrite lookup_insert_ne in Hx by done. rewrite lookup_insert_ne by done. by apply Ho.
  - destruct Hj as [J1 J2 J3 J4]. split.
    + intros x p. unfold alive. rewrite Es. destruct (decide (x = t)) as [-> | Hnt].
      * intros _. rewrite lookup_insert_eq. eauto.
      * rewrite !lookup_insert_ne by done. apply J1.
    + intros x jj Hx. destruct (decide (x = t)) as [-> | Hnt]; [by rewrite lookup_insert_eq in Hx |].
      rewrite lookup_insert_ne in Hx by done. destruct (J2 x jj Hx) as (jt & Hjt & H). exists jt.
      rewrite Es, lookup_insert_ne; [done |]. intros ->. congruence.
    + intros a b jj. rewrite !lookup_insert_Some. naive_solver.
    + rewrite Ej. intros a jj Hin. apply J4 in Hin. rewrite lookup_insert_ne; [done |]. intros ->. congruence.
  - destruct Hc as (ch & p & Hch & Hp & Hok). exists ch, p. rewrite Ec, Es, !lookup_insert_ne by done. done.
Qed.
