(* ===== verification/SchedExit.v ===== *)
(** * Exit, join and the reaper *)

From S2P Require Import Prelude Sched SchedInv SchedProps SchedSwitch SchedMach SchedSafe.

(** ** The reaper *)

Definition zombie_stacks (s : sched) (zs : list Z) : list Z :=
  zs ≫= fun t => match threads s !! t with
                 | Some th => if tb th 8 then [] else [bt_stackbase th]
                 | None => []
                 end.

Lemma zombie_stacks_ext s s' l : (forall x, x ∈ l -> threads s !! x = threads s' !! x) ->
  zombie_stacks s l = zombie_stacks s' l.
Proof.
  induction l as [| x l IH]; intros H; [done |]. unfold zombie_stacks in *. rewrite !bind_cons.
  f_equal; [by rewrite H by (by left) |]. apply IH. intros y Hy. apply H. by right.
Qed.

Lemma wf_reap_one s t rest : wf Current s -> zombieq s = t :: rest ->
  wf Current (set_threads (delete t (threads s)) (set_zombieq rest s)).
Proof.
  intros Hwf Hz. assert (t ∈ queue s QZombie) as Hin by (cbn; rewrite Hz; by left).
  apply (wf_q _ _ Hwf) in Hin as (th & Ht & B9). cbn [qbit] in B9.
  pose proof (wf_flags _ _ Hwf t th Ht) as Hok.
  assert (t <> bmk_current s) as Hne.
  { intros ->. unfold mode_of in Hok. rewrite decide_True in Hok by done. unfold th_ok in Hok.
    rewrite B9 in Hok. destruct (tb th 0), (tb th 1), (tb th 2), (tb th 3); done. }
  assert (tb th 0 = false /\ tb th 1 = false /\ tb th 2 = false) as (B0 & B1 & B2).
  { unfold th_ok in Hok. rewrite B9 in Hok. destruct (tb th 0), (tb th 1), (tb th 2); done. }
  pose proof (wf_nd _ _ Hwf QZombie) as Hnd. cbn [queue] in Hnd. rewrite Hz in Hnd.
  apply NoDup_cons in Hnd as [Hnin Hnd]. set (s' := set_threads _ _).
  assert (forall x, x <> t -> threads s' !! x = threads s !! x) as Hlk.
  { intros x Hx. unfold s'. sproj. by rewrite lookup_delete_ne. }
  assert (threads s' !! t = None) as Hgone by (unfold s'; sproj; apply lookup_delete_eq).
  split.
  - unfold s'. sproj. rewrite lookup_delete_ne by done. apply Hwf.
  - intros x xh Hx. destruct (decide (x = t)) as [-> | ?]; [congruence |].
    rewrite Hlk in Hx by done. by apply (wf_flags _ _ Hwf).
  - intros q x. assert (x ∈ queue s' q <-> x ∈ queue s q /\ x <> t) as ->.
    { split.
      - intros Hx. destruct q; [split; [done |]; intros -> .. |].
        + apply (wf_in _ _ QRun _ _ Hwf Ht) in Hx. cbn [qbit] in Hx. congruence.
        + apply (wf_in _ _ QTime _ _ Hwf Ht) in Hx. cbn [qbit] in Hx. congruence.
        + apply (wf_in _ _ QBlock _ _ Hwf Ht) in Hx. cbn [qbit] in Hx. congruence.
        + unfold s' in Hx. cbn [queue zombieq set_threads set_zombieq] in Hx. cbn [queue]. rewrite Hz.
          split; [by right | by intros ->].
      - intros [Hx Hxt]. destruct q; try done. unfold s'. sproj. cbn [queue] in Hx. rewrite Hz in Hx.
        apply elem_of_cons in Hx as [? | ?]; done. }
    rewrite (wf_q _ _ Hwf). destruct (decide (x = t)) as [-> | ?]; [rewrite Hgone | rewrite Hlk by done]; naive_solver.
  - intros q. pose proof (wf_nd _ _ Hwf q). by destruct q.
  - intros x. change (threadq s') with (threadq s). rewrite (wf_threadq _ _ Hwf).
    destruct (decide (x = t)) as [-> | ?]; [rewrite Hgone | by rewrite Hlk].
    split; [intros (y & Hy & ?) | by intros (? & ? & _)]. congruence.
  - apply Hwf.
  - assert (forall x, x ∈ timeq s -> wk s' x = wk s x) as Hwk.
    { intros x Hx. unfold wk. rewrite Hlk; [done |]. intros ->.
      apply (wf_in _ _ QTime _ _ Hwf Ht) in Hx. cbn [qbit] in Hx. congruence. }
    eapply ss_ext; [apply Hwf |]. cbn. intros x y Hx Hy. by rewrite !Hwk.
  - intros x Hx. change (timeq s') with (timeq s) in Hx. unfold wk. rewrite Hlk; [by apply (wf_wk _ _ Hwf) |].
    intros ->. apply (wf_in _ _ QTime _ _ Hwf Ht) in Hx. cbn [qbit] in Hx. congruence.
Qed.

Record reaped (s s' : sched) : Prop := {
  rp_wf : wf Current s';
  rp_zombieq : zombieq s' = [];
  rp_keep : forall t, t ∉ zombieq s -> threads s' !! t = threads s !! t;
  rp_gone : forall t, t ∈ zombieq s -> threads s' !! t = None;
  rp_current : bmk_current s' = bmk_current s;
  rp_joinwq : joinwq s' = joinwq s;
  rp_spl : spldepth s' = spldepth s;
}.

Lemma reaper_spec fuel : forall s, wf Current s -> (length (zombieq s) < fuel)%nat ->
  exists s', reaper fuel s = Done (zombie_stacks s (zombieq s), s') /\ reaped s s'.
Proof.
  induction fuel as [| fuel IH]; intros s Hwf Hf; [lia |]. cbn [reaper].
  destruct (zombieq s) as [| t rest] eqn:Hz.
  - exists s. split; [done |]. split; try done; intros t Ht; rewrite Hz in Ht; by apply elem_of_nil in Ht.
  - pose proof (wf_reap_one s t rest Hwf Hz) as Hwf1.
    assert (t ∈ queue s QZombie) as Hin by (cbn; rewrite Hz; by left).
    apply (wf_q _ _ Hwf) in Hin as (th & Ht & B9).
    pose proof (wf_nd _ _ Hwf QZombie) as Hnd. cbn [queue] in Hnd. rewrite Hz in Hnd.
    apply NoDup_cons in Hnd as [Hnin Hnd].
    rewrite TAILQ_REMOVE_in, Done_bind by (by left).
    rewrite filter_cons_False, filter_notin by (done || tauto).
    rewrite (thread_at_Some _ _ _ Ht), Done_bind. cbv zeta. rewrite (clear_mask _ _ 8), tb_fold by done.
    destruct (IH _ Hwf1) as (s' & E & Hr); [sproj; cbn in Hf; lia |].
    rewrite E, Done_bind. exists s'. split.
    + do 2 f_equal. cbn [zombieq set_threads set_zombieq]. unfold zombie_stacks. rewrite bind_cons, Ht.
      f_equal; [by destruct (tb th 8) |]. apply zombie_stacks_ext. intros x Hx. sproj.
      rewrite lookup_delete_ne; [done |]. by intros ->.
    + destruct Hr as [R1 R2 R3 R4 R5 R6 R7]. cbn [zombieq threads set_threads set_zombieq] in R3, R4.
      split; try done; rewrite Hz.
      * intros x Hx. rewrite R3, lookup_delete_ne; [done | |].
        -- intros ->. apply Hx. by left.
        -- intros Hx'. apply Hx. by right.
      * intros x [-> | Hx]%elem_of_cons; [| by apply R4]. rewrite R3 by done. apply lookup_delete_eq.
Qed.

Lemma reaped_alive s s' t th : wf Current s -> reaped s s' -> threads s !! t = Some th -> tb th 9 = false ->
  threads s' !! t = Some th.
Proof.
  intros Hwf R Ht H9. rewrite (rp_keep _ _ R); [done |]. intros Hz.
  apply (wf_in _ _ QZombie _ _ Hwf Ht) in Hz. cbn [qbit] in Hz. congruence.
Qed.

Lemma reaped_back s s' t th : reaped s s' -> threads s' !! t = Some th -> threads s !! t = Some th.
Proof.
  intros R Ht. destruct (decide (t ∈ zombieq s)) as [Hz | Hz].
  - rewrite (rp_gone _ _ R t Hz) in Ht. done.
  - by rewrite <- (rp_keep _ _ R).
Qed.

(** ** The state in which a suspended thread resumes its own code *)

Lemma joins_reaped s s' pcs : wf Current s -> reaped s s' -> joins s pcs -> joins s' pcs.
Proof.
  intros Hwf R [J1 J2 J3 J4]. split; try done.
  - intros t p Hp. destruct (J1 t p Hp) as (th & Ht & H9). exists th. split; [by eapply reaped_alive | done].
  - intros t j Hj. destruct (J2 t j Hj) as (jt & Ht & H9 & H5). exists jt. split; [by eapply reaped_alive | done].
  - by rewrite (rp_joinwq _ _ R).
Qed.

Lemma reaper_run s pcs : wf Current s -> others_parked s pcs -> joins s pcs ->
  exists s1, run_reaper s = Done (zombie_stacks s (zombieq s), s1) /\ reaped s s1 /\
    others_parked s1 pcs /\ joins s1 pcs.
Proof.
  intros Hwf Ho Hj. destruct (reaper_spec (S (length (zombieq s))) s Hwf ltac:(lia)) as (s1 & E & R).
  exists s1. split; [exact E |]. split; [done |]. split; [| by eapply joins_reaped].
  intros t th Hne Ht Hd. rewrite (rp_current _ _ R) in Hne. apply (reaped_back _ _ _ _ R) in Ht. by apply Ho.
Qed.

(** The end of [bmk_sched_block]: the thread is back in its own code. *)
Definition unblocked (th : bmk_thread) : bmk_thread :=
  with_flags (Z.land (bt_flags th) (Z.lnot (Z.lor THR_TIMEDOUT THR_BLOCKPREP))) th.

Lemma unblocked_bits th i : 0 <= i -> tb (unblocked th) i = tb th i && negb ((i =? 4) || (i =? 10)).
Proof.
  intros Hi. unfold unblocked. rewrite tb_with_flags, Z.land_spec, Z.lnot_spec, Z.lor_spec by done.
  change THR_TIMEDOUT with (2 ^ 4). change THR_BLOCKPREP with (2 ^ 10). rewrite !Z.pow2_bits_eqb by lia.
  by rewrite (Z.eqb_sym 4), (Z.eqb_sym 10).
Qed.

Lemma block_return_ready s pcs th : wf Current s -> spldepth s = 0 -> others_parked s pcs ->
  joins s (delete (bmk_current s) pcs) -> threads s !! bmk_current s = Some th ->
  tb th 0 = false -> tb th 1 = false -> tb th 2 = false ->
  block_return s = Done (if tb th 4 then BMK_ETIMEDOUT else 0, put (bmk_current s) (unblocked th) s) /\
  ready (put (bmk_current s) (unblocked th) s) pcs (unblocked th).
Proof.
  intros Hwf Hspl Ho Hj Ht B0 B1 B2. split.
  - unfold block_return. rewrite (thread_at_Some _ _ _ Ht), Done_bind. cbv zeta.
    rewrite (has_mask _ _ 4), tb_fold by done. done.
  - pose proof (wf_flags _ _ Hwf _ th Ht) as Hok. unfold mode_of in Hok. rewrite decide_True in Hok by done.
    split; try done.
    + apply (wf_put Current Current s _ th); try done; [| | by left].
      * intros q. rewrite unblocked_bits by (by destruct q). destruct q; cbn; by rewrite andb_true_r.
      * unfold mode_of, th_ok in *. rewrite decide_True by done. rewrite !unblocked_bits by lia.
        rewrite B0, B1, B2 in *. cbn. cbn in Hok. rewrite !andb_true_r in *.
        by destruct (tb th 3), (tb th 9).
    + intros t x Hne Hx. sproj. cbn [bmk_current put set_threads] in Hne.
      cbn [threads put set_threads] in Hx. rewrite lookup_insert_ne in Hx by done. by apply Ho.
    + eapply (joins_put s _ _ _ th (unblocked th)); try done; by rewrite unblocked_bits, andb_true_r.
    + apply lookup_insert_eq.
    + by rewrite unblocked_bits, andb_false_r.
    + by rewrite unblocked_bits, andb_false_r.
Qed.

(** ** Exit *)

(** The thread takes itself off the thread list and becomes a zombie. *)
Definition dying (s : sched) (th : bmk_thread) : sched :=
  let t := bmk_current s in
  Sched (<[t := with_flags (newflags (bt_flags th) THR_DEAD THR_RUNNING) th]> (threads s))
    (filter (fun x => x <> t) (threadq s)) (t :: zombieq s) (runq s) (blockq s) (timeq s)
    (joinwq s) t (spldepth s) (clock s).

Lemma wf_dying s pcs th : ready s pcs th -> wf Leaving (dying s th).
Proof.
  intros Hrd. destruct (ready_bits _ _ _ Hrd) as (B0 & B1 & B2 & B3 & B9).
  pose proof Hrd as [Hwf _ _ _ Ht Hp _]. pose proof (fun q => ready_notin _ _ _ q Hrd) as Hnin.
  set (t := bmk_current s) in *. set (th' := with_flags (newflags (bt_flags th) THR_DEAD THR_RUNNING) th).
  set (s' := dying s th).
  assert (tb th' 0 = false /\ tb th' 1 = false /\ tb th' 2 = false /\ tb th' 9 = true) as (C0 & C1 & C2 & C9).
  { unfold th'. tb_simpl. by rewrite ?B0, ?B1, ?B2, ?orb_true_r. }
  assert (forall x, x <> t -> threads s' !! x = threads s !! x) as Hlk.
  { intros x Hx. unfold s', dying. cbn [threads]. by rewrite lookup_insert_ne. }
  assert (threads s' !! t = Some th') as Hlt by apply lookup_insert_eq.
  assert (forall x, x ∈ timeq s -> wk s' x = wk s x) as Hwk.
  { intros x Hx. unfold wk. rewrite Hlk; [done |]. intros ->. by apply (Hnin QTime). }
  split.
  - by exists th'.
  - intros x xh Hx. unfold mode_of, s'. cbn [bmk_current dying]. fold t.
    destruct (decide (x = t)) as [-> | Hne].
    + rewrite Hlt in Hx. injection Hx as <-. unfold th_ok. by rewrite C0, C1, C2, C9.
    + rewrite Hlk in Hx by done. pose proof (wf_flags _ _ Hwf x xh Hx) as H. unfold mode_of in H.
      by rewrite decide_False in H.
  - intros q x. assert (x ∈ queue s' q <-> x ∈ queue s q \/ (q = QZombie /\ x = t)) as ->.
    { destruct q; unfold s'; cbn [queue dying runq timeq blockq zombieq]; fold t; [naive_solver .. |].
      rewrite elem_of_cons. naive_solver. }
    rewrite (wf_q _ _ Hwf). destruct (decide (x = t)) as [-> | Hne].
    + rewrite Hlt, Ht. split.
      * intros [(y & [= <-] & Hy) | [-> _]]; [| eauto]. destruct q; cbn [qbit] in *; congruence.
      * intros (y & [= <-] & Hy). right. destruct q; cbn [qbit] in *; [congruence .. | done].
    + rewrite Hlk by done. naive_solver.
  - intros q. pose proof (wf_nd _ _ Hwf q) as Hn. destruct q; try done.
    unfold s'. cbn [queue dying zombieq]. constructor; [apply (Hnin QZombie) | done].
  - intros x. unfold s'. cbn [threadq dying]. fold t s'. rewrite list_elem_of_filter, (wf_threadq _ _ Hwf).
    destruct (decide (x = t)) as [-> | Hne].
    + rewrite Hlt. split; [by intros [[] _] | intros (y & [= <-] & Hy); congruence].
    + rewrite Hlk by done. tauto.
  - apply NoDup_filter, Hwf.
  - eapply ss_ext; [apply Hwf |]. cbn. intros x y Hx Hy. by rewrite !Hwk.
  - intros x Hx. change (timeq s') with (timeq s) in Hx. rewrite Hwk by done. by apply (wf_wk _ _ Hwf).
Qed.

Lemma env_others_ok s env : env_others s env -> env_ok s env.
Proof.
  intros H. eapply Forall_impl; [exact H |]. intros r Hr. eapply Forall_impl; [exact Hr |]. by intros t [? _].
Qed.

(** A change of one of the join flags of the current thread. *)
Lemma ready_put s pcs th th' : ready s pcs th ->
  (forall i, 0 <= i -> i <> 6 -> tb th' i = tb th i) -> bt_wakeup_time th' = bt_wakeup_time th ->
  ready (put (bmk_current s) th' s) pcs th'.
Proof.
  intros Hrd Hb Hw. pose proof Hrd as [Hwf Hspl Ho Hj Ht Hp H4].
  pose proof (wf_flags _ _ Hwf _ th Ht) as Hok. split; try done.
  - apply (wf_put Current Current s _ th); try done; [| | by left].
    + intros q. apply Hb; by destruct q.
    + unfold th_ok in *. by rewrite !Hb by lia.
  - intros t x Hne Hx. cbn [bmk_current put set_threads] in Hne.
    cbn [threads put set_threads] in Hx. rewrite lookup_insert_ne in Hx by done. by apply Ho.
  - eapply (joins_put s _ _ _ th th'); try done; by apply Hb.
  - apply lookup_insert_eq.
  - by rewrite Hb.
  - by rewrite Hb.
Qed.

Lemma ready_woken s pcs th t xh : ready s pcs th -> t <> bmk_current s -> threads s !! t = Some xh ->
  tb xh 9 = false -> ready (woken s t xh) pcs th.
Proof.
  intros [Hwf Hspl Ho Hj Ht Hp H4] Hne Hx H9. pose proof (quiet_woken s t xh Hx) as Q. split; try done.
  - by apply wf_woken.
  - by eapply others_parked_quiet.
  - by eapply joins_quiet.
  - cbn [woken threads bmk_current]. by rewrite lookup_insert_ne.
Qed.

Lemma set_spl_id s : set_spl (spldepth s) s = s.
Proof. by destruct s. Qed.

Lemma splx_high s : bmk_platform_splx (set_spl (spldepth s + 1) s) 0 =
  (if spldepth s + 1 =? 0 then Halt "out of interrupt depth!" else Done s).
Proof.
  unfold bmk_platform_splx. sproj. destruct (spldepth s + 1 =? 0); [done |].
  f_equal. destruct s. unfold set_spl. sproj. f_equal. lia.
Qed.

(** The thread blocks in [p] after [bmk_sched_blockprepare]. *)
Lemma blocked_mach s pcs th env p :
  ready0 s pcs th -> env_ok s env -> p <> User -> p <> Virgin -> p <> InYield ->
  (forall s1, threads s1 = <[bmk_current s := prepared_thread BMK_SCHED_BLOCK_INFTIME th]> (threads s) ->
     joinwq s1 = joinwq s -> joins s1 (<[bmk_current s := p]> pcs)) ->
  exists b s2, (s1 ← bmk_sched_blockprepare s; block_enter env s1) = Done (b, s2) /\
    mach_ok (Mach s2 (<[bmk_current s := p]> pcs) (negb b)).
Proof.
  intros Hrd Henv Hp1 Hp2 Hp3 Hj.
  destruct (prepare_block s pcs th BMK_SCHED_BLOCK_INFTIME env Hrd Henv) as (s1 & b & s2 & E1 & E2 & Hpr & Hwf1 & H).
  destruct (prepared_bits s pcs th BMK_SCHED_BLOCK_INFTIME Hrd) as (B10 & _ & _ & B4 & _).
  exists b, s2. unfold bmk_sched_blockprepare. rewrite E1, Done_bind. split; [done |].
  destruct Hpr as (Es & _ & _ & _ & Ej & _). eapply mach_switched; [| by apply Hj | exact H].
  eapply all_parked_put; [apply Hrd | done | exact Es |]. split; [done |]. split; [by rewrite B4 |].
  rewrite B10. by destruct p.
Qed.

Lemma joins_prepared s pcs th p s1 : ready s pcs th -> no_join p ->
  threads s1 = <[bmk_current s := prepared_thread BMK_SCHED_BLOCK_INFTIME th]> (threads s) ->
  joinwq s1 = joinwq s -> joins s1 (<[bmk_current s := p]> pcs).
Proof.
  intros Hrd Hp Es Ej. destruct (prepared_bits s pcs th BMK_SCHED_BLOCK_INFTIME (ready_0 _ _ _ Hrd)) as (_ & B9 & B5 & _ & _).
  destruct (ready_bits _ _ _ Hrd) as (_ & _ & _ & _ & B9'). pose proof Hrd as [_ _ _ Hj Ht _ _].
  eapply (joins_put s s1 _ _ th); [| exact Ht | exact Es | done | congruence | done].
  apply joins_set; [done | by exists th | done].
Qed.

Lemma joins_dying s pcs th : ready s pcs th -> tb th 5 = false ->
  joins (dying s th) (delete (bmk_current s) pcs).
Proof.
  intros Hrd B5. pose proof Hrd as [_ _ _ [J1 J2 J3 J4] Ht _ _].
  assert (forall x, x <> bmk_current s -> threads (dying s th) !! x = threads s !! x) as Hlk.
  { intros x Hx. unfold dying. cbn [threads]. by rewrite lookup_insert_ne. }
  split; try done.
  - intros t p Hp. pose proof Hp as Hp'. apply lookup_delete_Some in Hp' as [Hne _].
    destruct (J1 t p Hp) as (x & Hx & H9). exists x. rewrite Hlk by congruence. done.
  - intros t j Hp. destruct (J2 t j Hp) as (jt & Hjt & H9 & H5). exists jt. rewrite Hlk; [done |].
    intros ->. rewrite Ht in Hjt. simplify_eq. congruence.
Qed.

Lemma exit_ok s pcs th env : ready s pcs th -> env_others s env ->
  exists M', do_exit env s pcs = Done M' /\ mach_ok M'.
Proof.
  intros Hrd Henv. pose proof Hrd as [Hwf Hspl Ho Hj Ht Hp H4].
  destruct (ready_bits _ _ _ Hrd) as (B0 & B1 & B2 & B3 & B9).
  unfold do_exit, exit_round, bmk_platform_splhigh. set (cur := bmk_current s) in *. cbv iota beta zeta.
  rewrite (thread_at_Some (set_spl (spldepth s + 1) s) cur th Ht), Done_bind.
  rewrite (has_mask _ _ 5), tb_fold by done. destruct (tb th 5) eqn:B5.
  - set (th1 := with_flags (Z.lor (bt_flags th) THR_JOINED) th).
    change (put cur th1 (set_spl (spldepth s + 1) s)) with (set_spl (spldepth (put cur th1 s) + 1) (put cur th1 s)).
    rewrite splx_high. change (spldepth (put cur th1 s)) with (spldepth s).
    rewrite (proj2 (Z.eqb_neq _ 0)), Done_bind by lia.
    assert (ready (put cur th1 s) pcs th1) as Hrd1.
    { apply (ready_put s pcs th th1 Hrd); [| done]. intros i Hi H6. unfold th1.
      rewrite tb_with_flags, Z.lor_spec. change THR_JOINED with (2 ^ 6).
      by rewrite Z.pow2_bits_false, orb_false_r by lia. }
    assert (forall t, alive s t -> alive (put cur th1 s) t) as Hal.
    { intros t (x & Hx & Hd). unfold alive. sproj. destruct (decide (t = cur)) as [-> | Hne].
      - rewrite lookup_insert_eq. exists th1. split; [done |]. unfold th1. by tb_simpl.
      - rewrite lookup_insert_ne by done. eauto. }
    assert (exists s2, (match List.find (fun jw => snd jw =? cur) (joinwq (put cur th1 s)) with
        | Some (jw_thread, _) => bmk_sched_wake (put cur th1 s) jw_thread
        | None => Done (put cur th1 s) end) = Done s2 /\ ready s2 pcs th1 /\ bmk_current s2 = cur /\
        forall t, alive s t -> alive s2 t) as (s2 & -> & Hrd2 & Ec2 & Hal2).
    { destruct (List.find _ _) as [[jt jw] |] eqn:Ef; [| by exists (put cur th1 s)].
      apply List.find_some in Ef as [Hin _]. apply list_elem_of_In in Hin.
      apply (jn_wait _ _ (rd_joins _ _ _ Hrd1)) in Hin. pose proof Hin as Hin'.
      apply lookup_delete_Some in Hin' as [Hne _].
      destruct (jn_alive _ _ (rd_joins _ _ _ Hrd1) _ _ Hin) as (x & Hx & Hd).
      rewrite (wake_Done Current (put cur th1 s) jt x (rd_wf _ _ _ Hrd1) Hx Hd) by (sproj; lia).
      eexists. split; [done |]. split; [by apply ready_woken |]. split; [done |].
      intros t Ha. apply (quiet_alive _ _ _ (quiet_woken _ _ _ Hx)). auto. }
    rewrite Done_bind.
    destruct (blocked_mach s2 pcs th1 env InExit (ready_0 _ _ _ Hrd2)) as (b & s3 & E & HM); [| done | done | done | |].
    { eapply Forall_impl; [exact Henv |]. intros r Hr. eapply Forall_impl; [exact Hr |]. intros t [? _]. auto. }
    { intros s1. by eapply joins_prepared. }
    rewrite bind_Done in E. destruct E as (s1 & E1 & E2). rewrite E1, Done_bind, E2, !Done_bind.
    eexists. split; [done |]. rewrite Ec2 in HM. exact HM.
  - assert (Z.land (bt_flags th) THR_QMASK = 0) as -> by (rewrite land_qmask, !tb_fold, B0, B1, B2; done).
    rewrite bmk_assert_true, Done_bind. sproj.
    assert (cur ∈ threadq s) as Hin by (apply (wf_threadq _ _ Hwf); by exists th).
    rewrite (TAILQ_REMOVE_in _ _ Hin), Done_bind.
    rewrite (setflags_Some (set_threadq _ (set_spl (spldepth s + 1) s)) cur th _ _ Ht), Done_bind. sproj.
    unfold bmk_platform_splx. sproj. rewrite (proj2 (Z.eqb_neq _ 0)), Done_bind by lia.
    rewrite Z.add_simpl_r. set (s1 := set_spl (spldepth s) _). assert (s1 = dying s th) as -> by done.
    destruct (schedule_spec env (dying s th) (wf_dying s pcs th Hrd) Hspl) as (b & s2 & -> & H).
    { eapply Forall_impl; [exact Henv |]. intros r Hr. eapply Forall_impl; [exact Hr |].
      intros t [(x & Hx & Hd) Hne]. exists x. unfold dying. cbn [threads]. by rewrite lookup_insert_ne. }
    rewrite !Done_bind. eexists. split; [done |]. eapply mach_switched; [| | exact H].
    + intros t x Hx Hd. unfold dying in Hx. cbn [threads] in Hx. fold cur in Hx.
      destruct (decide (t = cur)) as [-> | Hne].
      * rewrite lookup_insert_eq in Hx. injection Hx as <-. exfalso. revert Hd. tb_simpl. done.
      * rewrite lookup_insert_ne in Hx by done. rewrite lookup_delete_ne by done. by apply Ho.
    + by apply joins_dying.
Qed.

(** ** Join *)

Lemma ready0_joinwq s pcs th v : ready0 s pcs th -> ready0 (set_joinwq v s) pcs th.
Proof. intros [Hwf Hspl Ho Ht Hp H4]. split; try done. by eapply wf_ext; [exact Hwf | ..]. Qed.

(** The joiner waits for [j]. *)
Lemma joins_waiting s pcs th j s1 : ready s pcs th ->
  (exists jt, threads s !! j = Some jt /\ tb jt 9 = false /\ tb jt 5 = true) ->
  (forall t, t <> bmk_current s -> pcs !! t <> Some (InJoin j)) ->
  threads s1 = <[bmk_current s := prepared_thread BMK_SCHED_BLOCK_INFTIME th]> (threads s) ->
  joinwq s1 = joinwq s ++ [(bmk_current s, j)] -> joins s1 (<[bmk_current s := InJoin j]> pcs).
Proof.
  intros Hrd (jt & Hjt & J9 & J5) Hu Es Ej. set (cur := bmk_current s) in *.
  destruct (prepared_bits s pcs th BMK_SCHED_BLOCK_INFTIME (ready_0 _ _ _ Hrd)) as (_ & B9 & B5 & _ & _).
  pose proof Hrd as [_ _ _ [J1 J2 J3 J4] Ht _ _]. fold cur in J1, J2, J3, J4, Ht.
  assert (forall x xh, threads s !! x = Some xh -> tb xh 9 = false -> exists xh', threads s1 !! x = Some xh' /\
    tb xh' 9 = false /\ tb xh' 5 = tb xh 5) as Hup.
  { intros x xh Hx Hd. rewrite Es. destruct (decide (x = cur)) as [-> | Hne].
    - rewrite lookup_insert_eq. rewrite Ht in Hx. simplify_eq. eauto.
    - rewrite lookup_insert_ne by done. eauto. }
  assert (forall t q, <[cur := InJoin j]> pcs !! t = Some q ->
    t = cur /\ q = InJoin j \/ t <> cur /\ pcs !! t = Some q /\ delete cur pcs !! t = Some q) as H.
  { intros t q. rewrite lookup_insert_Some. intros [[<- <-] | [Hne Hq]]; [by left |].
    right. by rewrite lookup_delete_ne. }
  split.
  - intros t q [[-> ->] | (Hne & _ & Hq)]%H.
    + destruct (ready_bits _ _ _ Hrd) as (_ & _ & _ & _ & B9'). destruct (Hup _ _ Ht B9') as (? & ? & ? & _). by eexists.
    + destruct (J1 t q Hq) as (x & Hx & Hd). destruct (Hup _ _ Hx Hd) as (? & ? & ? & _). by eexists.
  - intros t j' [[-> [= ->]] | (Hne & _ & Hq)]%H.
    + destruct (Hup _ _ Hjt J9) as (x & Hx & H9 & H5). exists x. by rewrite H5.
    + destruct (J2 t j' Hq) as (x & Hx & H9 & H5). destruct (Hup _ _ Hx H9) as (x' & Hx' & H9' & H5').
      exists x'. by rewrite H5'.
  - intros a b j' [[-> [= ->]] | (Ha & Pa & Da)]%H [[-> Eb] | (Hb & Pb & Db)]%H; try done; [| | by eapply J3].
    + by apply Hu in Pb.
    + injection Eb as ->. by apply Hu in Pa.
  - rewrite Ej. intros a j' [Hin | Hin]%elem_of_app.
    + apply J4 in Hin. apply lookup_delete_Some in Hin as [Hne Hin]. by rewrite lookup_insert_ne.
    + apply list_elem_of_singleton in Hin as [= -> ->]. apply lookup_insert_eq.
Qed.

(** The join is complete: the thread may go, and is woken up. *)
Lemma joined_mach s pcs th j jt : ready s pcs th -> threads s !! j = Some jt -> tb jt 9 = false ->
  (forall t, t <> bmk_current s -> pcs !! t <> Some (InJoin j)) ->
  exists s', bmk_sched_wake (put j (with_flags (Z.land (bt_flags jt) (Z.lnot THR_MUSTJOIN)) jt) s) j = Done s' /\
    mach_ok (Mach s' (<[bmk_current s := User]> pcs) false).
Proof.
  intros Hrd Hjt J9 Hu. pose proof Hrd as [Hwf Hspl Ho Hj Ht Hp H4].
  destruct (ready_bits _ _ _ Hrd) as (B0 & B1 & B2 & B3 & B9).
  set (jt' := with_flags _ jt). set (s1 := put j jt' s). set (cur := bmk_current s) in *.
  assert (forall i, 0 <= i -> i <> 5 -> tb jt' i = tb jt i) as Hb.
  { intros i Hi H5. unfold jt'. rewrite tb_with_flags, Z.land_spec, Z.lnot_spec by done.
    change THR_MUSTJOIN with (2 ^ 5). rewrite Z.pow2_bits_false by lia. by rewrite andb_true_r. }
  assert (wf Current s1) as Hwf1.
  { apply (wf_put Current Current s j jt jt' Hwf Hjt); [| | by right | done].
    - intros q. apply Hb; by destruct q.
    - pose proof (wf_flags _ _ Hwf _ _ Hjt) as Hok. unfold th_ok in *. by rewrite !Hb by lia. }
  assert (threads s1 !! j = Some jt') as Hj1 by apply lookup_insert_eq.
  assert (tb jt' 9 = false) as J9' by (by rewrite Hb).
  assert (forall t x, threads s1 !! t = Some x -> exists y, threads s !! t = Some y /\
    (forall i, 0 <= i -> i <> 5 -> tb x i = tb y i) /\ (t <> j -> x = y)) as Hback.
  { intros t x Hx. unfold s1 in Hx. cbn [threads put set_threads] in Hx. destruct (decide (t = j)) as [-> | Hne].
    - rewrite lookup_insert_eq in Hx. injection Hx as <-. exists jt. done.
    - rewrite lookup_insert_ne in Hx by done. exists x. done. }
  assert (forall t, alive s t -> alive s1 t) as Hal.
  { intros t (x & Hx & Hd). unfold alive, s1. sproj. destruct (decide (t = j)) as [-> | Hne].
    - rewrite lookup_insert_eq. eauto.
    - rewrite lookup_insert_ne by done. eauto. }
  rewrite (wake_Done Current s1 j jt' Hwf1 Hj1 J9') by (unfold s1; sproj; lia).
  pose proof (quiet_woken s1 j jt' Hj1) as Q. eexists. split; [done |].
  split; cbn [ms mpc midle]; try done.
  - by apply wf_woken.
  - eapply others_parked_quiet; [exact Q | done |]. intros t x Hne Hx Hd.
    change (bmk_current s1) with cur in Hne. rewrite lookup_insert_ne by done.
    destruct (Hback t x Hx) as (y & Hy & Hbits & _). rewrite Hbits in Hd by lia.
    destruct (Ho t y Hne Hy Hd) as (p & Hpc & P1 & P2 & P3). exists p. split; [done |].
    split; [done |]. rewrite !Hbits by lia. done.
  - eapply joins_quiet; [exact Q |]. apply joins_set; [| by apply Hal; exists th | done].
    destruct Hj as [K1 K2 K3 K4]. split; try done.
    + intros t p Hp'. apply Hal. eauto.
    + intros t j' Hp'. destruct (K2 t j' Hp') as (x & Hx & H9 & H5). exists x. split; [| done].
      unfold s1. sproj. rewrite lookup_insert_ne; [done |]. intros <-.
      apply lookup_delete_Some in Hp' as [Hne Hp']. by apply (Hu t).
  - apply current_ok_woken; [done |].
    assert (exists x, threads s1 !! cur = Some x) as [x Hx].
    { unfold s1. sproj. destruct (decide (cur = j)) as [-> | Hne]; [by rewrite lookup_insert_eq; eexists |].
      rewrite lookup_insert_ne by done. eauto. }
    exists x, User. split; [done |]. split; [apply lookup_insert_eq |]. rewrite decide_True by done.
    destruct (Hback cur x Hx) as (y & Hy & Hbits & _). rewrite Ht in Hy. simplify_eq.
    split; [by rewrite Hbits | rewrite !Hbits by lia; congruence].
Qed.

Lemma join_ok s pcs th env j : ready s pcs th -> env_ok s env ->
  (exists jt, threads s !! j = Some jt /\ tb jt 9 = false /\ tb jt 5 = true) ->
  (forall t, t <> bmk_current s -> pcs !! t <> Some (InJoin j)) ->
  forall enter, exists M', do_join enter j env s pcs = Done M' /\ mach_ok M'.
Proof.
  intros Hrd Henv Hjt Hu enter. pose proof Hrd as [Hwf Hspl Ho Hj Ht Hp H4].
  pose proof Hjt as (jt & Hj0 & J9 & J5).
  assert ((if enter then join_enter env s j else join_round env s j) = join_round env s j) as E0.
  { destruct enter; [| done]. unfold join_enter. rewrite (thread_at_Some _ _ _ Hj0), Done_bind.
    by rewrite (has_mask _ _ 5), tb_fold, J5, bmk_assert_true, Done_bind by done. }
  unfold do_join. rewrite E0. unfold join_round, bmk_platform_splhigh. cbv iota beta zeta.
  set (cur := bmk_current s) in *.
  rewrite (thread_at_Some (set_spl (spldepth s + 1) s) j jt Hj0), Done_bind.
  rewrite (clear_mask _ _ 6), tb_fold by done. destruct (tb jt 6) eqn:J6; cbn [negb].
  - rewrite (has_mask _ _ 6), tb_fold, J6, bmk_assert_true, Done_bind by done.
    set (jt' := with_flags _ jt).
    change (put j jt' (set_spl (spldepth s + 1) s)) with (set_spl (spldepth (put j jt' s) + 1) (put j jt' s)).
    rewrite splx_high. change (spldepth (put j jt' s)) with (spldepth s).
    rewrite (proj2 (Z.eqb_neq _ 0)), Done_bind by lia.
    destruct (joined_mach s pcs th j jt Hrd Hj0 J9 Hu) as (s' & E & HM). unfold jt'.
    rewrite E, !Done_bind. eexists. split; [done |]. exact HM.
  - rewrite splx_high, (proj2 (Z.eqb_neq _ 0)), Done_bind by lia.
    destruct (blocked_mach (set_joinwq (joinwq s ++ [(cur, j)]) s) pcs th env (InJoin j))
      as (b & s2 & E & HM); [| done | done | done | done | |].
    { by apply ready0_joinwq, ready_0. }
    { intros s1 Es Ej. exact (joins_waiting s pcs th j s1 Hrd Hjt Hu Es Ej). }
    rewrite bind_Done in E. destruct E as (s1 & E1 & E2). rewrite E1, Done_bind, E2, !Done_bind.
    eexists. split; [done |]. exact HM.
Qed.
