(* ===== verification/SchedThms.v ===== *)
(** * Theorems about the scheduler *)

From S2P Require Import Prelude Sched SchedInv SchedProps SchedSwitch SchedMach SchedSafe SchedExit.

Lemma ready_user s pcs th : ready s pcs th -> mach_ok (Mach s (<[bmk_current s := User]> pcs) false).
Proof.
  intros Hrd. pose proof Hrd as [Hwf Hspl Ho Hj Ht Hp H4].
  destruct (ready_bits _ _ _ Hrd) as (_ & _ & _ & _ & B9). split; cbn [ms mpc midle]; try done.
  - intros t x Hne Hx Hd. rewrite lookup_insert_ne by done. by apply Ho.
  - apply joins_set; [done | by exists th | done].
  - exists th, User. split; [done |]. split; [apply lookup_insert_eq |]. rewrite decide_True by done.
    split; [done | congruence].
Qed.

Lemma joins_unwait s pcs : joins s pcs ->
  joins (join_unwait s (bmk_current s)) (delete (bmk_current s) pcs).
Proof.
  intros [J1 J2 J3 J4]. split.
  - intros t p. rewrite lookup_delete_Some. intros [_ H]. by apply (J1 t p).
  - intros t j. rewrite lookup_delete_Some. intros [_ H]. by apply (J2 t j).
  - intros a b j. rewrite !lookup_delete_Some. intros [_ Ha] [_ Hb]. eauto.
  - intros a j Ha. unfold join_unwait in Ha. cbn [joinwq set_joinwq] in Ha.
    apply list_elem_of_filter in Ha as [Hne Ha]. cbn in Hne. rewrite lookup_delete_ne by done. by apply J4.
Qed.

Lemma env_others_up s s' env : env_others s env -> bmk_current s' = bmk_current s ->
  (forall t, alive s t -> alive s' t) -> env_others s' env.
Proof.
  intros H Ec Ha. eapply Forall_impl; [exact H |]. intros r Hr. eapply Forall_impl; [exact Hr |].
  intros t [? ?]. split; [auto | by rewrite Ec].
Qed.

Lemma step_resume M env : mach_ok M -> valid (EResume env) M ->
  exists M', mstep (EResume env) M = Done M' /\ mach_ok M'.
Proof.
  intros HM (Hid & Henv). pose proof HM as [Hwf Hspl Ho Hj Hc]. rewrite Hid in Hwf, Hspl, Hc. cbv iota in Hwf, Hspl, Hc.
  destruct Hc as (th & p & Ht & Hp & Hok). cbn [mstep]. rewrite Hp.
  destruct (decide (p = User)) as [-> | Hnu]; [by exists M |].
  destruct Hok as ((_ & P2 & P3) & B0 & B1 & B2).
  set (s := ms M) in *. set (cur := bmk_current s) in *.
  destruct (reaper_run s (mpc M) Hwf Ho Hj) as (s1 & Er & R & Ho1 & Hj1).
  pose proof (rp_current _ _ R) as Ec. fold cur in Ec. pose proof (rp_spl _ _ R) as Es. pose proof (rp_wf _ _ R) as Hwf1.
  assert (tb th 9 = false) as B9.
  { pose proof (wf_flags _ _ Hwf _ th Ht) as Hok. unfold mode_of in Hok. rewrite decide_True in Hok by done.
    unfold th_ok in Hok. destruct (tb th 0), (tb th 1), (tb th 2), (tb th 3), (tb th 9); done. }
  assert (threads s1 !! cur = Some th) as Ht1 by exact (reaped_alive s s1 cur th Hwf R Ht B9).
  assert (forall t, alive s t -> alive s1 t) as Hal1.
  { intros t (x & Hx & Hd). exists x. split; [exact (reaped_alive s s1 t x Hwf R Hx Hd) | done]. }
  set (s1' := join_unwait s1 cur).
  assert (block_return s1' = Done (if tb th 4 then BMK_ETIMEDOUT else 0, put cur (unblocked th) s1') /\
    ready (put cur (unblocked th) s1') (mpc M) (unblocked th)) as [Eb Hrd].
  { replace cur with (bmk_current s1') by done. apply block_return_ready; try done.
    - by eapply wf_ext; [exact Hwf1 | ..].
    - unfold s1', join_unwait. sproj. by rewrite Es.
    - unfold s1'. change (bmk_current (join_unwait s1 cur)) with (bmk_current s1).
      rewrite <- Ec. by apply joins_unwait.
    - unfold s1'. sproj. change (bmk_current (join_unwait s1 cur)) with (bmk_current s1). by rewrite Ec. }
  assert (forall t, alive s t -> alive (put cur (unblocked th) s1') t) as Hal2.
  { intros t Ha%Hal1. destruct Ha as (x & Hx & Hd). unfold alive, s1', join_unwait. sproj.
    destruct (decide (t = cur)) as [-> | Hne]; [| rewrite lookup_insert_ne by done; eauto].
    rewrite lookup_insert_eq. eexists. split; [done |]. by rewrite unblocked_bits, B9. }
  assert (no_join p -> s1' = s1) as Hnj.
  { intros Hn. unfold s1', join_unwait. rewrite filter_all; [by destruct s1 |].
    apply Forall_forall. intros [a j] Hin. cbn. intros ->. rewrite (rp_joinwq _ _ R) in Hin.
    apply (jn_wait _ _ Hj) in Hin. fold cur in Hp. rewrite Hp in Hin. injection Hin as ->. done. }
  destruct p as [| | | | | j]; try done.
  - eexists. split; [done |]. apply (ready_user s (mpc M) th). split; try done.
    + apply joins_del; [done | by fold cur; rewrite Hp |]. intros j Hin. apply (jn_wait _ _ Hj) in Hin.
      assert (Some Virgin = Some (InJoin j)) as [=] by (rewrite <- Hp; exact Hin).
    + destruct (tb th 4); [| done]. rewrite P2 in P3 by done. done.
  - rewrite Er, Done_bind. eexists. split; [done |]. rewrite <- Ec. apply (ready_user s1 (mpc M) th).
    split; try done; [by rewrite Es | | by rewrite Ec |].
    + rewrite Ec. apply joins_del; [done | by fold cur; rewrite Hp |]. intros j Hin.
      apply (jn_wait _ _ Hj1) in Hin.
      assert (Some InYield = Some (InJoin j)) as [=] by (rewrite <- Hp; exact Hin).
    + destruct (tb th 4); [| done]. rewrite P2 in P3 by done. done.
  - rewrite Er, Done_bind. rewrite <- (Hnj I), Eb, Done_bind. eexists. split; [done |].
    replace cur with (bmk_current (put cur (unblocked th) s1')) at 2 by (cbn; by rewrite Ec).
    by eapply ready_user.
  - rewrite Er, Done_bind. rewrite <- (Hnj I), Eb, Done_bind. eapply exit_ok; [exact Hrd |].
    eapply env_others_up; [exact Henv | by cbn | done].
  - rewrite Er, Done_bind.
    assert (block_return s1 = Done (if tb th 4 then BMK_ETIMEDOUT else 0, put cur (unblocked th) s1)) as ->.
    { unfold block_return. rewrite Ec. rewrite (thread_at_Some _ _ _ Ht1), Done_bind. cbv zeta.
      by rewrite (has_mask _ _ 4), tb_fold by done. }
    rewrite Done_bind. change (join_unwait (put cur (unblocked th) s1) cur) with (put cur (unblocked th) s1').
    eapply join_ok; [exact Hrd | | |].
    + apply env_others_ok. eapply env_others_up; [exact Henv | by cbn | done].
    + destruct (jn_target _ _ Hj1 cur j Hp) as (jt & Hjt & J9 & J5).
      unfold s1', join_unwait. sproj. destruct (decide (j = cur)) as [-> | Hne].
      * rewrite lookup_insert_eq. eexists. split; [done |]. rewrite !unblocked_bits by lia.
        rewrite Ht1 in Hjt. simplify_eq. by rewrite J9, J5.
      * rewrite lookup_insert_ne by done. eauto.
    + intros t Hne Hpt. apply Hne. cbn. rewrite Ec. by eapply (jn_uniq _ _ Hj).
Qed.

Lemma step_ok M e : mach_ok M -> valid e M -> exists M', mstep e M = Done M' /\ mach_ok M'.
Proof.
  intros HM Hv. destruct e; [by apply step_create | by apply step_wake | by apply step_prepare
    | by apply step_yield | by apply step_block | | | by apply step_idle | by apply step_resume].
  - destruct Hv as [Hu Henv]. destruct (in_user_ready M HM Hu) as [th Hrd]. by eapply exit_ok.
  - destruct Hv as (Hu & Henv & Hjt & Hno). destruct (in_user_ready M HM Hu) as [th Hrd].
    eapply join_ok; [exact Hrd | done | done |]. intros t _. apply Hno.
Qed.

(** The state in which the main thread starts. *)
Lemma startmain_spec t stack : exists s th, bmk_sched_startmain sched_boot t stack = Done s /\
  bmk_current s = t /\ threads s = {[ t := th ]} /\ mach_ok (Mach s {[ t := User ]} false).
Proof.
  set (th := Thread BMK_SCHED_BLOCK_INFTIME (newflags (Z.lor THR_EXTSTACK THR_RUNQ) THR_RUNNING THR_RUNQ) stack 0).
  set (s := Sched {[ t := th ]} [t] [] [] [] [] [] t 0 0).
  exists s, th. assert (forall x y, ({[ t := th ]} : gmap Z bmk_thread) !! x = Some y -> x = t /\ y = th) as Hin.
  { intros x y. rewrite lookup_singleton_Some. by intros [-> ->]. }
  split; [| split; [done |]; split; [done |]].
  - unfold bmk_sched_startmain, bmk_sched_create, bmk_platform_splhigh. cbv zeta iota beta.
    erewrite thread_at_Some by (sproj; apply lookup_insert_eq). rewrite Done_bind. sproj.
    unfold bmk_platform_splx. sproj. change (spldepth sched_boot + 1 =? 0) with false. cbv iota.
    rewrite !Done_bind. cbv iota beta. sproj. change (runq sched_boot ++ [t]) with [t].
    rewrite TAILQ_REMOVE_in by (by left). rewrite Done_bind. rewrite filter_cons_False by tauto.
    rewrite filter_nil. erewrite setflags_Some by (sproj; apply lookup_insert_eq). rewrite Done_bind.
    unfold sched_switch. erewrite thread_at_Some by (sproj; apply lookup_insert_eq). rewrite Done_bind. sproj.
    change (bmk_assert _ _) with (Done ()). rewrite Done_bind. change (bmk_assert _ _) with (Done ()).
    rewrite Done_bind. unfold s, set_current, put, set_threads. sproj. do 2 f_equal.
    by rewrite !insert_insert_eq.
  - split; cbn [ms mpc midle]; try done.
    + split; try done.
      * exists th. apply lookup_singleton_eq.
      * intros x y [-> ->]%Hin. unfold mode_of. by rewrite decide_True.
      * intros q x. cbn [threads s]. split; [| intros (y & [-> ->]%Hin & H); by destruct q].
        destruct q; cbn; intros H; by apply elem_of_nil in H.
      * intros []; cbn; constructor.
      * intros x. cbn. rewrite list_elem_of_singleton. split; [intros -> | intros (y & [-> ->]%Hin & _); done].
        exists th. split; [apply lookup_singleton_eq | done].
      * apply NoDup_singleton.
      * constructor.
      * cbn. intros x Hx. by apply elem_of_nil in Hx.
    + intros x y Hne [-> _]%Hin. done.
    + split.
      * intros x p. rewrite lookup_singleton_Some. intros [<- _]. exists th. split; [apply lookup_singleton_eq | done].
      * intros x j. rewrite lookup_singleton_Some. by intros [_ ?].
      * intros a b j. rewrite lookup_singleton_Some. by intros [_ ?].
      * cbn. intros a j Hx. by apply elem_of_nil in Hx.
    + exists th, User. split; [apply lookup_singleton_eq |]. split; [apply lookup_singleton_eq |].
      rewrite decide_True by done. by split.
Qed.

(** A system with the main thread at 0x1000. *)
Definition demo_main : sched :=
  match bmk_sched_startmain sched_boot 4096 65536 with Done s => s | _ => sched_boot end.

Lemma demo_main_ok : bmk_current demo_main = 4096 /\ mach_ok (Mach demo_main {[ 4096 := User ]} false).
Proof.
  destruct (startmain_spec 4096 65536) as (s & th & E & Ec & _ & HM). unfold demo_main. rewrite E. done.
Qed.

Lemma demo_ready : exists th, ready demo_main {[ 4096 := User ]} th.
Proof.
  destruct demo_main_ok as [Ec HM]. apply (in_user_ready (Mach demo_main {[ 4096 := User ]} false) HM).
  split; [done |]. split; [cbn [ms mpc]; rewrite Ec; apply lookup_singleton_eq |].
  intros th Hth. cbn [ms] in Hth. assert (Some th = threads demo_main !! bmk_current demo_main) as E by done.
  vm_compute in E. injection E as ->. reflexivity.
Qed.

(** C8. Scheduler safety.  Start the main thread and let threads create
    threads, wake each other, prepare to block, block, yield, join and exit,
    with interrupts waking threads at any time, in any order the rules of use
    allow.  In every reachable state the scheduler is consistent: a thread is
    on exactly the queue its flags name and on at most one, only the current
    thread runs, no live thread is lost, the timeout queue is sorted, dead
    threads are only on the zombie queue, and a thread that is waited for in a
    join is alive.  And every further valid event goes through: no assertion
    fails, no queue operation hits an absent thread and no freed thread
    structure is touched. *)
Theorem sched_safe t stack s M :
  bmk_sched_startmain sched_boot t stack = Done s ->
  reachable (Mach s {[ t := User ]} false) M ->
  wf (if midle M then Leaving else Current) (ms M) /\ others_parked (ms M) (mpc M) /\
  joins (ms M) (mpc M) /\ forall e, valid e M -> exists M', mstep e M = Done M'.
Proof.
  intros E Hr. assert (mach_ok M) as HM.
  { remember (Mach s {[ t := User ]} false) as M0 eqn:E0. induction Hr as [| M0 e M1 M2 Hr IH Hv Hs].
    - subst M. destruct (startmain_spec t stack) as (s' & th & E' & _ & _ & HM). rewrite E in E'.
      by injection E' as ->.
    - destruct (step_ok M1 e (IH E0) Hv) as (M2' & E2 & HM2). rewrite Hs in E2. by injection E2 as ->. }
  split; [apply HM |]. split; [apply HM |]. split; [apply HM |].
  intros e Hv. destruct (step_ok M e HM Hv) as (M' & E' & _). by exists M'.
Qed.

Lemma sched_safe_witness : exists M', mstep (ECreate 8192 131072 7 false true)
  (Mach demo_main {[ 4096 := User ]} false) = Done M'.
Proof.
  destruct (sched_safe 4096 65536 demo_main (Mach demo_main {[ 4096 := User ]} false)) as (_ & _ & _ & H).
  - vm_compute. reflexivity.
  - apply reach_refl.
  - apply H. split; [| vm_compute; reflexivity]. split; [reflexivity |].
    split; [vm_compute; reflexivity |].
    intros th Hth. assert (Some th = threads demo_main !! bmk_current demo_main) as E by (symmetry; exact Hth).
    vm_compute in E. injection E as ->. reflexivity.
Defined.

(** What makes a thread runnable while the CPU waits: the interrupt handlers,
    or its deadline. *)
Lemma wake_all_origin m ts : forall s s', wf m s -> Forall (alive s) ts -> 0 <= spldepth s -> wake_all s ts = Done s' ->
  (forall x, x ∈ runq s' -> x ∈ runq s \/ x ∈ ts) /\ (forall x, x ∈ timeq s' -> x ∈ timeq s /\ wk s' x = wk s x) /\ clock s' = clock s.
Proof.
  induction ts as [| t ts IH]; intros s s' Hwf Hal Hspl E; cbn [wake_all] in E; [injection E as <-; split_and!; auto |].
  apply Forall_cons in Hal as [Ha Hal]. destruct (wake_spec m s t Hwf Ha Hspl) as (th & Ht & E1 & Hwf1). rewrite E1, Done_bind in E.
  destruct (IH (woken s t th) s' Hwf1) as (H1 & H2 & H3); [| done | done |].
  { eapply Forall_impl; [exact Hal |]. intros x Hx. by apply (woken_alive _ _ _ _ Ht). }
  split_and!; [| | done].
  - intros x Hx. destruct (H1 x Hx) as [Hr | Hr]; [| right; by right]. cbn [woken runq] in Hr. destruct (queued th); [| by left].
    apply elem_of_app in Hr as [Hr | Hr%list_elem_of_singleton]; [by left | right; subst; by left].
  - intros x Hx. destruct (H2 x Hx) as [Hq Hw]. cbn [woken timeq] in Hq. apply list_elem_of_filter in Hq as [Hne Hq]. split; [done |].
    rewrite Hw. unfold wk. cbn [woken threads]. by rewrite lookup_insert_ne.
Qed.

Lemma loop_origin env : forall s r s', wf Leaving s -> 0 < spldepth s -> env_ok s env -> schedule_loop env s = Done (r, s') ->
  forall x, x ∈ runq s' -> x ∈ runq s \/ (x ∈ timeq s /\ exists now, now ∈ clock s :: env.*1 /\ wk s x <= now) \/ x ∈ concat env.*2.
Proof.
  induction env as [| [now ws] env IH]; intros s r s' Hwf Hspl Henv E;
    (destruct (expire_spec Leaving (clock s) (S (length (timeq s))) s (clock s + BLOCKTIME_MAX))
      as (l1 & l2 & s1 & El & H1 & H2 & E1 & Hwf1 & Q1 & T1 & R1 & C1 & P1 & K1 & O1 & _); [done | lia | lia |]);
    cbn [schedule_loop] in E; rewrite E1, Done_bind in E;
    assert (forall x, x ∈ runq s1 -> x ∈ runq s \/ (x ∈ timeq s /\ wk s x <= clock s)) as Hs1
      by (intros x; rewrite R1, El; intros [Hx | Hx]%elem_of_app; [by left | right; split; [set_solver | auto]]);
    destruct (runq s1) as [| next rest] eqn:Hr.
  - injection E as <- <-. intros x Hx. rewrite Hr in Hx. by apply elem_of_nil in Hx.
  - rewrite bind_Done in E. destruct E as (th & _ & E). rewrite bind_Done in E. destruct E as (u1 & _ & E). rewrite bind_Done in E. destruct E as (u2 & _ & E).
    injection E as _ <-. intros x Hx. rewrite Hr in Hx. destruct (Hs1 x Hx) as [? | [? ?]]; [by left | right; left]. split; [done |]. exists (clock s). split; [by left | done].
  - apply Forall_cons in Henv as [Hr' Henv]. assert (Forall (alive s1) ws) as Hal by (eapply Forall_impl; [exact Hr' |]; intros t Ha; by apply (quiet_alive _ _ _ Q1)).
    destruct (cpu_block_spec Leaving s1 (now, ws) Hwf1) as (s2 & E2 & Hwf2 & Q2 & C2 & P2 & _); [by rewrite P1 | exact Hal |]. rewrite E2, Done_bind in E.
    unfold bmk_platform_cpu_block in E2. rewrite P1, (proj2 (Z.ltb_lt 0 _)), bmk_assert_true, Done_bind, bind_Done in E2 by done. destruct E2 as (s3 & E3 & [= <-]).
    destruct (wake_all_origin Leaving ws (set_clock now (set_spl 0 s1)) s3) as (W1 & W2 & W3); [by eapply wf_ext; [exact Hwf1 | ..] | exact Hal | done | exact E3 |].
    intros x Hx. destruct (IH (set_spl (spldepth s) s3) r s') with x as [Hq | [(Hq & t & Ht & Hle) | Hq]]; try done; [eapply env_ok_quiet; [| exact Henv]; by etrans | ..].
    + destruct (W1 x Hq) as [Hw | Hw]; [cbn in Hw; rewrite Hr in Hw; by apply elem_of_nil in Hw |]. right. right. cbn. set_solver.
    + right. left. destruct (W2 x Hq) as [Hw1 Hw2]. cbn [timeq set_clock set_spl] in Hw1. rewrite T1 in Hw1. split; [rewrite El; set_solver |].
      exists t. split; [cbn in Ht; rewrite W3 in Ht; cbn; by right |]. assert (wk s x = wk s3 x) as ->; [| done]. rewrite Hw2. unfold wk. cbn [threads set_clock set_spl]. rewrite O1; [done |].
      intros Hx1. specialize (H1 x Hx1). specialize (H2 x Hw1). lia.
    + right. right. cbn. set_solver.
  - rewrite bind_Done in E. destruct E as (th & _ & E). rewrite bind_Done in E. destruct E as (u1 & _ & E). rewrite bind_Done in E. destruct E as (u2 & _ & E).
    injection E as _ <-. intros x Hx. rewrite Hr in Hx. destruct (Hs1 x Hx) as [? | [? ?]]; [by left | right; left]. split; [done |]. exists (clock s). split; [by left | done].
Qed.

(** The order of scheduling.  The threads whose timeout has expired, and
    only those, are marked as timed out and appended to the run queue in the
    order of their deadlines; the first thread of the resulting queue runs
    next and the others keep their order.  All other threads, in particular
    those with later deadlines, stay where they are. *)
Lemma schedule_fifo env s :
  wf Leaving s -> spldepth s = 0 -> env_ok s env ->
  exists expired later, timeq s = expired ++ later /\
    (forall x, x ∈ expired -> wk s x <= clock s) /\ (forall x, x ∈ later -> clock s < wk s x) /\
    forall next rest, runq s ++ expired = next :: rest ->
    exists s', schedule env s = Done (true, s') /\ bmk_current s' = next /\ runq s' = rest /\
      timeq s' = later /\
      (forall x, x ∈ expired -> exists th, threads s' !! x = Some th /\ tb th 4 = true) /\
      (forall x, x ∉ expired -> x <> next -> x <> bmk_current s -> threads s' !! x = threads s !! x).
Proof.
  intros Hwf Hspl Henv. set (s0 := set_spl (spldepth s + 1) s).
  assert (wf Leaving s0) as Hwf0 by (by eapply wf_ext; [exact Hwf | ..]).
  destruct (expire_spec Leaving (clock s) (S (length (timeq s0))) s0 (clock s + BLOCKTIME_MAX) Hwf0)
    as (l1 & l2 & s1 & El & H1 & H2 & E & Hwf1 & Q1 & T1 & R1 & C1 & P1 & K1 & O1 & TO1);
    [cbn; lia | lia |].
  exists l1, l2. split; [done |]. split; [done |]. split; [done |]. intros next rest Hnr.
  change (runq s0) with (runq s) in R1. rewrite Hnr in R1.
  destruct (wf_cur _ _ Hwf1) as [pth Hp]. destruct (runq_head _ _ _ _ Hwf1 R1) as (nth & Hn & B0 & _ & _ & B9).
  assert (schedule_loop env s0 = Done (Some next, s1)) as Eloop.
  { destruct env; cbn [schedule_loop]; change (clock s0) with (clock s); rewrite E, Done_bind, R1;
      rewrite (thread_at_Some _ _ _ Hn), Done_bind, (has_mask _ _ 0), tb_fold, B0, bmk_assert_true, Done_bind by done;
      rewrite (clear_mask _ _ 9), tb_fold, B9 by done; by rewrite bmk_assert_true, Done_bind. }
  exists (switched s1 next rest pth nth). split.
  { unfold schedule, bmk_platform_splhigh. cbv iota beta. change (negb (0 =? 0)) with false. cbv iota.
    unfold schedule_from. fold s0. rewrite Eloop, Done_bind. rewrite <- C1.
    apply switch_Done; try done. rewrite P1. cbn. lia. }
  split; [done |]. split; [done |]. split; [done |].
  assert (forall x, threads (switched s1 next rest pth nth) !! x =
    if decide (x = next) then Some (chosen_thread (if decide (bmk_current s1 = next) then left_thread pth else nth))
    else if decide (x = bmk_current s1) then Some (left_thread pth) else threads s1 !! x) as Hlk.
  { intros x. unfold switched. cbn [threads]. destruct (decide (x = next)) as [-> | ?]; [by rewrite lookup_insert_eq |].
    rewrite lookup_insert_ne by done. destruct (decide (x = bmk_current s1)) as [-> | ?]; [by rewrite lookup_insert_eq |].
    by rewrite lookup_insert_ne. }
  split.
  - intros x Hx. destruct (TO1 x Hx) as (th & Ht & B4).
    assert (forall y, tb (left_thread y) 4 = tb y 4) as HL by (intros; unfold left_thread; by tb_simpl).
    assert (forall y, tb (chosen_thread y) 4 = tb y 4) as HC by (intros; unfold chosen_thread; by tb_simpl).
    rewrite Hlk. destruct (decide (x = next)) as [-> | ?].
    + rewrite Hn in Ht. simplify_eq. eexists. split; [done |]. rewrite HC.
      destruct (decide (bmk_current s1 = next)) as [E1 | ?]; [| done]. rewrite HL.
      rewrite E1 in Hp. rewrite Hn in Hp. by simplify_eq.
    + destruct (decide (x = bmk_current s1)) as [-> | ?]; [| by exists th].
      rewrite Hp in Ht. simplify_eq. eexists. split; [done |]. by rewrite HL.
  - intros x Hx1 Hx2 Hx3. rewrite Hlk, !decide_False; [| by rewrite C1 | done]. by rewrite O1.
Qed.

(** The thread that runs next was the first of the run queue. *)
Lemma schedule_origin env s s' : wf Leaving s -> spldepth s = 0 -> env_ok s env -> schedule env s = Done (true, s') ->
  bmk_current s' ∈ runq s \/ (bmk_current s' ∈ timeq s /\ exists now, now ∈ clock s :: env.*1 /\ wk s (bmk_current s') <= now) \/ bmk_current s' ∈ concat env.*2.
Proof.
  intros Hwf Hspl Henv E. unfold schedule, bmk_platform_splhigh in E. cbv iota beta in E. change (negb (0 =? 0)) with false in E. cbv iota in E. unfold schedule_from in E.
  set (s0 := set_spl (spldepth s + 1) s) in *. assert (wf Leaving s0) as Hwf0 by (by eapply wf_ext; [exact Hwf | ..]).
  destruct (schedule_loop_spec env s0 Hwf0 ltac:(cbn; lia) Henv) as (r & s1 & El & Hwf1 & _ & C1 & P1 & Hr & _). rewrite El, Done_bind in E.
  destruct (runq s1) as [| next rest] eqn:Er; cbn in Hr; subst r; [done |]. destruct (wf_cur _ _ Hwf1) as [pth Hp]. destruct (runq_head _ _ _ _ Hwf1 Er) as (nth & Hn & _).
  rewrite <- C1, (switch_Done _ _ _ _ _ Hwf1 Er ltac:(rewrite P1; cbn; lia) Hp Hn) in E. injection E as <-. cbn [switched bmk_current].
  apply (loop_origin env s0 _ _ Hwf0 ltac:(cbn; lia) Henv El). rewrite Er. by left.
Qed.


Definition demo_yield : sched :=
  match threads demo_main !! bmk_current demo_main with
  | Some th => set_runq (runq demo_main ++ [bmk_current demo_main])
      (put (bmk_current demo_main) (with_flags (newflags (bt_flags th) THR_RUNQ THR_RUNNING) th) demo_main)
  | None => demo_main
  end.

Lemma demo_yield_wf : wf Leaving demo_yield.
Proof.
  destruct demo_ready as [th Hrd]. unfold demo_yield. rewrite (rd_cur _ _ _ Hrd). by eapply wf_yielding.
Qed.


(** The reaper frees every dead thread and nothing else: it terminates,
    hands exactly the stacks of the dead threads that did not bring their own
    to the page allocator, removes their structures, empties the zombie queue
    and leaves all live threads untouched. *)
Theorem reaper_correct s :
  wf Current s ->
  exists s', run_reaper s = Done (zombie_stacks s (zombieq s), s') /\ wf Current s' /\ zombieq s' = [] /\
    (forall t, t ∈ zombieq s -> threads s' !! t = None) /\
    (forall t, t ∉ zombieq s -> threads s' !! t = threads s !! t).
Proof.
  intros Hwf. destruct (reaper_spec (S (length (zombieq s))) s Hwf ltac:(lia)) as (s' & E & []).
  exists s'. repeat (split; [done |]). done.
Qed.

Lemma reaper_correct_witness : exists s', run_reaper demo_main = Done ([], s') /\ zombieq s' = [].
Proof.
  destruct demo_main_ok as [_ HM].
  destruct (reaper_correct demo_main (mo_wf _ HM)) as (s' & E & _ & Hz & _).
  exists s'. split; [exact E | exact Hz].
Defined.

(** [timeq_sorted_insert] keeps the timeout queue sorted: the thread goes
    behind all threads due no later than itself, so equal deadlines keep their
    order of arrival, and in front of all threads due later; the assertions on
    the deadline and on the last entry hold. *)
Theorem timeq_sorted_insert_correct s t th :
  (forall x, x ∈ timeq s -> is_Some (threads s !! x)) ->
  StronglySorted (fun a b => wk s a <= wk s b) (timeq s) ->
  threads s !! t = Some th -> bt_wakeup_time th <> BMK_SCHED_BLOCK_INFTIME ->
  exists l1 l2, timeq s = l1 ++ l2 /\ timeq_sorted_insert s t = Done (set_timeq (l1 ++ t :: l2) s) /\
    (forall x, x ∈ l1 -> wk s x <= wk s t) /\ (forall x, x ∈ l2 -> wk s t < wk s x) /\
    StronglySorted (fun a b => wk s a <= wk s b) (l1 ++ t :: l2).
Proof.
  intros Hth Hs Ht Hw. destruct (timeq_insert_spec s t th Hth Hs Ht Hw) as (l1 & l2 & E & H1 & H2 & Ei).
  exists l1, l2. split; [done |]. split; [done |]. split; [done |]. split; [done |].
  apply ss_insert; [by rewrite <- E | done |]. intros x Hx. specialize (H2 x Hx). lia.
Qed.

(** Threads due at 10, 30 and 20. *)
Definition demo_timeq : sched :=
  Sched (list_to_map [(1, Thread 10 THR_TIMEQ 0 0); (2, Thread 30 THR_TIMEQ 0 0); (3, Thread 20 0 0 0)])
    [1; 2; 3] [] [] [] [1; 2] [] 3 0 0.

Lemma timeq_sorted_insert_correct_witness :
  exists l1 l2, [1; 2] = l1 ++ l2 /\ timeq_sorted_insert demo_timeq 3 = Done (set_timeq (l1 ++ 3 :: l2) demo_timeq).
Proof.
  destruct (timeq_sorted_insert_correct demo_timeq 3 (Thread 20 0 0 0)) as (l1 & l2 & E & Ei & _).
  - intros x Hx. cbn [timeq demo_timeq] in Hx.
    repeat (apply elem_of_cons in Hx as [-> | Hx]; [eexists; vm_compute; reflexivity |]).
    apply elem_of_nil in Hx. contradiction.
  - repeat constructor; vm_compute; discriminate.
  - vm_compute. reflexivity.
  - vm_compute. discriminate.
  - exists l1, l2. split; [exact E | exact Ei].
Defined.
