(* ===== verification/SchedIface.v ===== *)
(** * What the thread scheduler promises its clients

    The locks and condition variables of rumpuser_synch.c see the scheduler
    through a few calls: which thread is current, waking a thread up, and
    blocking until somebody does; the LWPs of _lwp.c create threads as well.  The class states these calls and what
    holds of them; the scheduler machine of SchedMach.v is an instance. *)

From S2P Require Import Prelude Sched SchedInv SchedProps SchedSwitch SchedMach SchedSafe.
From S2P Require Import SchedExit SchedThms.

Class Scheduler (S : Type) := {
  sc_current : S -> Z;
  sc_clock : S -> Z;
  sc_wake : S -> Z -> outcome S;
  (** [bmk_sched_create_withtls]: the new thread's address, its stack and
      cookie, whether the stack is the caller's, and whether it is joinable. *)
  sc_create : S -> Z -> Z -> Z -> bool -> bool -> outcome S;
  (** No thread is at this address. *)
  sc_fresh : S -> Z -> Prop;
  (** [bmk_sched_blockprepare_timeout], and [bmk_sched_block] up to the switch. *)
  sc_prepare : S -> Z -> outcome S;
  sc_block : list reply -> S -> outcome S;
  (** Anything else that happens in the scheduler, as seen by its clients: idle
      loop, interrupts, resumed threads, calls by other clients. *)
  sc_run : S -> S -> Prop;
  sc_ok : S -> Prop;
  (** The current thread executes its own code. *)
  sc_user : S -> Prop;
  sc_alive : S -> Z -> Prop;
  (** The thread is current or will be switched to. *)
  sc_runnable : S -> Z -> Prop;
  sc_user_alive s : sc_ok s -> sc_user s -> sc_alive s (sc_current s);
  sc_wake_ok s t : sc_ok s -> sc_user s -> sc_alive s t ->
    exists s', sc_wake s t = Done s' /\ sc_ok s' /\ sc_user s' /\ sc_current s' = sc_current s /\
      sc_clock s' = sc_clock s /\ sc_runnable s' t /\ (forall u, sc_alive s u -> sc_alive s' u) /\
      (forall u, sc_runnable s u -> sc_runnable s' u) /\ (forall u, u <> t -> sc_runnable s' u -> sc_runnable s u);
  sc_create_ok s t stack cookie ext joinable : sc_ok s -> sc_user s -> sc_fresh s t ->
    exists s', sc_create s t stack cookie ext joinable = Done s' /\ sc_ok s' /\ sc_user s' /\
      sc_current s' = sc_current s /\ sc_alive s' t /\ sc_runnable s' t /\ (forall u, sc_alive s u -> sc_alive s' u) /\
      (forall u, u <> t -> (sc_runnable s' u <-> sc_runnable s u));
  sc_block_ok s d env : sc_ok s -> sc_user s -> Forall (fun r => Forall (sc_alive s) r.2) env ->
    exists s1 s2, sc_prepare s d = Done s1 /\ sc_block env s1 = Done s2 /\ sc_ok s2 /\
      (forall u, sc_alive s u -> sc_alive s2 u) /\
      (forall u, u <> sc_current s -> sc_runnable s u -> sc_runnable s2 u);
  sc_run_ok s s' : sc_ok s -> sc_run s s' -> sc_ok s' /\ (forall u, sc_alive s u -> sc_alive s' u) /\
    (forall u, u <> sc_current s -> sc_runnable s u -> sc_runnable s' u);
}.

(** ** The scheduler machine implements it *)

(** Threads that end are not clients any more: the steps that end a thread are
    left out of what a client sees. *)
Definition keeps_threads (e : event) (M : mach) : Prop :=
  match e with
  | EExit _ => False
  | EResume _ => mpc M !! bmk_current (ms M) <> Some InExit
  | _ => True
  end.

Definition mach_alive (M : mach) (t : Z) : Prop := is_Some (mpc M !! t).
Definition mach_runnable (M : mach) (t : Z) : Prop := t ∈ runq (ms M) \/ (t = bmk_current (ms M) /\ midle M = false).

Lemma mach_alive_ok M t : mach_ok M -> mach_alive M t -> alive (ms M) t.
Proof. intros [_ _ _ Hj _] [p Hp]. exact (jn_alive _ _ Hj t p Hp). Qed.

Lemma alive_insert (pcs : gmap Z pc) t u p : is_Some (pcs !! u) -> is_Some (<[t := p]> pcs !! u).
Proof. intros H. destruct (decide (t = u)) as [-> | ?]; [by rewrite lookup_insert_eq | by rewrite lookup_insert_ne]. Qed.

Ltac outcome_pairs := repeat (outcome_inv; match goal with
  | H : context [let '(_, _) := ?p in _] |- _ => destruct p
  end); outcome_inv.

Lemma mstep_alive e M M' u : keeps_threads e M -> mstep e M = Done M' ->
  mach_alive M u -> mach_alive M' u.
Proof.
  unfold mach_alive. intros Hk H Hu.
  assert (forall b j env s M', do_join b j env s (mpc M) = Done M' -> is_Some (mpc M' !! u)) as Hj.
  { intros b j env s M1 H1. unfold do_join in H1. outcome_pairs.
    match goal with |- context [if ?b then _ else _] => destruct b end; by apply alive_insert. }
  destruct e; cbn [mstep] in H; try done; try (outcome_pairs; by try apply alive_insert).
  - by eapply Hj.
  - cbn [keeps_threads] in Hk. destruct (mpc M !! bmk_current (ms M)) as [[] |]; try done;
      outcome_pairs; try (by apply alive_insert); try done. by eapply Hj.
Qed.

(** *** No runnable thread is lost *)

Definition grows (s s' : sched) : Prop := (forall u, u ∈ runq s -> u ∈ runq s') /\ bmk_current s' = bmk_current s.
Lemma grows_eq s s' : runq s' = runq s -> bmk_current s' = bmk_current s -> grows s s'.
Proof. intros E1 E2. split; [by rewrite E1 | done]. Qed.
Lemma grows_trans s1 s2 s3 : grows s1 s2 -> grows s2 s3 -> grows s1 s3.
Proof. intros [H1 E1] [H2 E2]. split; [auto | congruence]. Qed.

Lemma setflags_eq s t a b s' : setflags s t a b = Done s' -> runq s' = runq s /\ bmk_current s' = bmk_current s.
Proof. unfold setflags. intros E. by outcome_inv. Qed.
Lemma splx_keeps s f s' : bmk_platform_splx s f = Done s' -> runq s' = runq s /\ bmk_current s' = bmk_current s.
Proof. unfold bmk_platform_splx. intros E. repeat case_match; by outcome_inv. Qed.

(** What the parts of a step before a switch leave of the run queue. *)
Ltac grows_inv :=
  unfold bmk_platform_splhigh in *; repeat (outcome_inv; match goal with
  | H : (_, _) = (_, _) |- _ => injection H; clear H; intros; subst
  | H : setflags _ _ _ _ = Done _ |- _ => apply setflags_eq in H as [? ?]
  | H : bmk_platform_splx _ _ = Done _ |- _ => apply splx_keeps in H as [? ?]
  | H : context [match ?x with _ => _ end] |- _ => lazymatch type of H with _ = Done _ => destruct x eqn:? end
  end); outcome_inv.
Ltac grows_solve := cbn in *; split; [intros u Hu; repeat match goal with H : runq _ = _ |- _ => rewrite H end; cbn; set_solver | cbn; congruence].

Lemma grows_wake s t s' : bmk_sched_wake s t = Done s' -> grows s s'.
Proof. unfold bmk_sched_wake, set_runnable. intros E. grows_inv; grows_solve. Qed.

Lemma grows_prepare s d s' : bmk_sched_blockprepare_timeout s d = Done s' -> grows s s'.
Proof. unfold bmk_sched_blockprepare_timeout, clear_runnable, timeq_sorted_insert. intros E. grows_inv; grows_solve. Qed.

Lemma grows_wake_all ts : forall s s', wake_all s ts = Done s' -> grows s s'.
Proof.
  induction ts as [| t ts IH]; cbn [wake_all]; intros s s' E; outcome_inv; [by apply grows_eq |].
  eapply grows_trans; [by eapply grows_wake | auto].
Qed.

Lemma grows_cpu_block s r s' : bmk_platform_cpu_block s r = Done s' -> grows s s'.
Proof.
  unfold bmk_platform_cpu_block. intros E. outcome_inv.
  match goal with H : wake_all _ _ = Done _ |- _ => apply grows_wake_all in H; destruct H as [? ?]; by split end.
Qed.

Lemma grows_expire fuel : forall s c w w' s', expire_timeouts fuel s c w = Done (w', s') -> grows s s'.
Proof.
  induction fuel as [| fuel IH]; cbn [expire_timeouts]; intros s c w w' s' E; [done |].
  destruct (timeq s) as [| x l]; outcome_inv; [by apply grows_eq |]. case_match; outcome_inv; [| by apply grows_eq].
  eapply grows_trans; [| by eapply IH]. match goal with H : bmk_sched_wake _ _ = Done _ |- _ => apply grows_wake in H; destruct H as [? ?]; by split end.
Qed.

Lemma loop_keeps env : forall s r s', schedule_loop env s = Done (r, s') -> grows s s' /\ r = head (runq s').
Proof.
  induction env as [| a env IH]; cbn [schedule_loop]; intros s r s' E; rewrite bind_Done in E; destruct E as ([w s1] & E1 & E); apply grows_expire in E1;
    destruct (runq s1) as [| next rest] eqn:Er; outcome_inv; try (by rewrite Er).
  match goal with H : bmk_platform_cpu_block _ _ = Done _ |- _ => apply grows_cpu_block in H end.
  match goal with H : schedule_loop _ _ = Done _ |- _ => apply IH in H as [H1 H2] end. split; [by eapply grows_trans; [| eapply grows_trans] | done].
Qed.

Lemma from_keeps env fl s b s' u : schedule_from env fl s = Done (b, s') -> u ∈ runq s -> b = true /\ (u ∈ runq s' \/ u = bmk_current s').
Proof.
  unfold schedule_from. intros E Hu. rewrite bind_Done in E. destruct E as ([r s1] & E1 & E). apply loop_keeps in E1 as [[G1 G2] ->]. apply G1 in Hu.
  destruct (runq s1) as [| next rest] eqn:Er; [by apply elem_of_nil in Hu |]. cbn [head] in E. rewrite bind_Done in E. destruct E as (s2 & [F1 F2]%setflags_eq & E).
  rewrite F1, Er, bind_Done in E. destruct E as (rq & Eq & E). unfold TAILQ_REMOVE in Eq. case_bool_decide; [| done]. injection Eq as <-.
  rewrite bind_Done in E. destruct E as (s3 & [F3 F4]%setflags_eq & E). rewrite bind_Done in E. destruct E as (s4 & [F5 F6]%splx_keeps & E). rewrite bind_Done in E. destruct E as (s5 & Es & [= <- <-]).
  split; [done |]. cbn [runq bmk_current set_runq] in F3, F4. assert (runq s5 = runq s4 /\ bmk_current s5 = next) as [-> ->].
  { destruct (Z.eqb_spec (bmk_current s) next) as [E | E]; cbn [negb] in Es; [injection Es as <-; split; congruence |]. unfold sched_switch in Es. by outcome_inv. }
  destruct (decide (u = next)) as [-> | Hne]; [by right | left]. rewrite F5, F3. by apply list_elem_of_filter.
Qed.

Lemma schedule_keeps env s b s' u : schedule env s = Done (b, s') -> u ∈ runq s -> b = true /\ (u ∈ runq s' \/ u = bmk_current s').
Proof. unfold schedule, bmk_platform_splhigh. case_match; [done |]. intros E Hu. by eapply from_keeps. Qed.

Lemma yield_keeps env s b s' u : bmk_sched_yield env s = Done (b, s') -> u ∈ runq s -> b = true /\ (u ∈ runq s' \/ u = bmk_current s').
Proof.
  unfold bmk_sched_yield, bmk_platform_splhigh. intros E Hu. outcome_inv. repeat match goal with H : setflags _ _ _ _ = Done _ |- _ => apply setflags_eq in H as [? ?]
    | H : bmk_platform_splx _ _ = Done _ |- _ => apply splx_keeps in H as [? ?] end. eapply schedule_keeps; [done |]. cbn in *. repeat match goal with H : runq _ = _ |- _ => rewrite H end. set_solver.
Qed.

Lemma join_keeps env s j a b s' u : join_round env s j = Done (a, b, s') -> u ∈ runq s -> if a : bool then b = true /\ (u ∈ runq s' \/ u = bmk_current s') else u ∈ runq s'.
Proof.
  unfold join_round, bmk_platform_splhigh. intros E Hu. rewrite bind_Done in E. destruct E as (jt & _ & E). case_match.
  - rewrite bind_Done in E. destruct E as (s1 & [F1 F2]%splx_keeps & E). rewrite bind_Done in E. destruct E as (s2 & [G1 G2]%grows_prepare & E).
    rewrite bind_Done in E. destruct E as ([sw s3] & E3 & [= <- <- <-]). unfold block_enter in E3. outcome_inv. eapply schedule_keeps; [done |]. apply G1. cbn in *. by rewrite F1.
  - rewrite bind_Done in E. destruct E as (u1 & _ & E). rewrite bind_Done in E. destruct E as (s1 & [F1 F2]%splx_keeps & E). rewrite bind_Done in E. destruct E as (s2 & [G1 G2]%grows_wake & [= <- <- <-]).
    apply G1. by rewrite F1.
Qed.

Lemma reaper_keeps s l s' : run_reaper s = Done (l, s') -> runq s' = runq s /\ bmk_current s' = bmk_current s.
Proof.
  unfold run_reaper. generalize (Datatypes.S (length (zombieq s))). intros fuel. revert s l s'. induction fuel as [| fuel IH]; cbn [reaper]; intros s l s' E; [done |].
  destruct (zombieq s); outcome_inv; [done |]. case_match. outcome_inv. match goal with H : reaper _ _ = Done _ |- _ => by apply IH in H end.
Qed.

Lemma mstep_runnable e M M' u : keeps_threads e M -> mstep e M = Done M' -> u <> bmk_current (ms M) -> mach_runnable M u -> mach_runnable M' u.
Proof.
  intros Hk E Hne [Hu | [Hu _]]; [| done].
  assert (forall (b : bool) s', b = true /\ (u ∈ runq s' \/ u = bmk_current s') -> forall p, mach_runnable (Mach s' p (negb b)) u) as Hsw by (intros b s' [-> [H | H]] p; [by left | by right]).
  assert (forall b j env s M', u ∈ runq s -> do_join b j env s (mpc M) = Done M' -> mach_runnable M' u) as Hj.
  { intros b j env s M1 Hs E1. unfold do_join in E1. rewrite bind_Done in E1. destruct E1 as ([[a sw] s1] & E1 & [= <-]).
    assert (join_round env s j = Done (a, sw, s1)) as E2 by (destruct b; [unfold join_enter in E1; by outcome_inv | done]). pose proof (join_keeps _ _ _ _ _ _ _ E2 Hs) as H.
    destruct a; [by apply Hsw | by left]. }
  destruct e; cbn [mstep keeps_threads] in *; try done.
  - rewrite bind_Done in E. destruct E as ([t s] & E & [= <-]). left. unfold bmk_sched_create in E. grows_inv; cbn in *; repeat match goal with H : runq _ = _ |- _ => rewrite H end; cbn; set_solver.
  - outcome_inv. left. match goal with H : bmk_sched_wake _ _ = Done _ |- _ => apply grows_wake in H; by apply H end.
  - outcome_inv. left. match goal with H : bmk_sched_blockprepare_timeout _ _ = Done _ |- _ => apply grows_prepare in H; by apply H end.
  - rewrite bind_Done in E. destruct E as ([b s] & E & [= <-]). apply Hsw. by eapply yield_keeps.
  - rewrite bind_Done in E. destruct E as ([b s] & E & [= <-]). apply Hsw. unfold block_enter in E. outcome_inv. by eapply schedule_keeps.
  - by eapply Hj.
  - rewrite bind_Done in E. destruct E as ([b s] & E & [= <-]). apply Hsw. by eapply from_keeps.
  - destruct (mpc M !! bmk_current (ms M)) as [[] |]; try done; try (injection E as <-; by left); rewrite bind_Done in E; destruct E as ([l s] & [F1 F2]%reaper_keeps & E).
    + injection E as <-. left. cbn. by rewrite F1.
    + unfold block_return in E. outcome_inv. left. cbn in *. match goal with H : (let '(_, _) := ?x in _) = _ |- _ => destruct x end || idtac. outcome_inv. cbn. by rewrite F1.
    + rewrite bind_Done in E. destruct E as ([v s1] & E1 & E). eapply Hj; [| exact E]. unfold block_return in E1. outcome_inv. cbn. by rewrite F1.
Qed.

Lemma wake_only s t s' u : bmk_sched_wake s t = Done s' -> u <> t -> u ∈ runq s' -> u ∈ runq s.
Proof.
  unfold bmk_sched_wake, set_runnable. intros E Hne Hu. grows_inv; cbn in *; try done;
    repeat match goal with H : runq ?s = _, H' : context [runq ?s] |- _ => rewrite H in H'; clear H end; cbn in *; set_solver.
Qed.

Lemma mach_create_ok M t stack cookie ext j : mach_ok M -> in_user M false -> threads (ms M) !! t = None ->
  exists M', mstep (ECreate t stack cookie ext j) M = Done M' /\ mach_ok M' /\ in_user M' false /\
    bmk_current (ms M') = bmk_current (ms M) /\ mach_alive M' t /\ mach_runnable M' t /\
    (forall u, mach_alive M u -> mach_alive M' u) /\ (forall u, u <> t -> (mach_runnable M' u <-> mach_runnable M u)).
Proof.
  intros HM Hu Hnew. destruct (step_create M t stack cookie ext j HM) as (M' & E & HM'); [by split |].
  exists M'. split; [done |]. split; [done |]. destruct (in_user_ready M HM Hu) as [th Hrd]. destruct Hu as (Hid & Hpc & Hb).
  destruct (create_spec Current (ms M) t stack cookie ext j (rd_wf _ _ _ Hrd) ltac:(rewrite (rd_spl _ _ _ Hrd); lia) Hnew)
    as (s' & nt & E' & _ & Es & _ & Ec & _ & Er & _).
  cbn [mstep] in E. rewrite E', Done_bind in E. injection E as <-. unfold mach_alive, mach_runnable. cbn [ms mpc midle].
  assert (bmk_current (ms M) <> t) as Hcne.
  { intros <-. destruct (wf_cur _ _ (rd_wf _ _ _ Hrd)) as [? ?]. congruence. }
  split; [| split; [done |]; split; [by rewrite lookup_insert_eq |]; split; [left; rewrite Er; set_solver |]; split].
  - split; [done |]. split; cbn [ms mpc]; rewrite Ec; [by rewrite lookup_insert_ne |]. intros x. rewrite Es, lookup_insert_ne by done. apply Hb.
  - intros u. apply alive_insert.
  - intros u Hne. rewrite Er, Ec, Hid. set_solver.
Qed.

Lemma mach_wake_ok M t : mach_ok M -> in_user M false -> mach_alive M t ->
  exists M', mstep (EWake t) M = Done M' /\ mach_ok M' /\ in_user M' false /\
    bmk_current (ms M') = bmk_current (ms M) /\ clock (ms M') = clock (ms M) /\ mach_runnable M' t /\ (forall u, mach_alive M u -> mach_alive M' u) /\
    (forall u, mach_runnable M u -> mach_runnable M' u) /\ (forall u, u <> t -> mach_runnable M' u -> mach_runnable M u).
Proof.
  intros HM Hu Ha. pose proof (mach_alive_ok _ _ HM Ha) as Hal. pose proof Hu as (Hid & Hpc & Hb).
  destruct (step_wake M t HM) as (M' & E & HM'); [by split |].
  exists M'. split; [done |]. split; [done |].
  pose proof (mo_wf _ HM) as Hwf. rewrite Hid in Hwf. pose proof (mo_spl _ HM) as Hspl. rewrite Hid in Hspl.
  destruct (wake_spec Current (ms M) t Hwf Hal) as (th & Hth & Ew & Hwf'); [by rewrite Hspl |].
  cbn [mstep] in E. rewrite Ew, Done_bind in E. injection E as <-. cbn [ms mpc midle] in *.
  split; [split; [done |]; split; [done |] |].
  - intros x. cbn [ms woken threads bmk_current]. destruct (decide (t = bmk_current (ms M))) as [-> | Hne].
    + rewrite lookup_insert_eq. intros [= <-]. rewrite woken_bits by lia. by apply Hb.
    + rewrite lookup_insert_ne by done. apply Hb.
  - split; [done |]. split; [done |]. split; [| split; [done |]; split; [intros u [H | [-> ?]]; [left; by apply (proj1 (grows_wake _ _ _ Ew)) | by right] |
      intros u Hne [H | [-> ?]]; [left; by eapply wake_only | by right]]].
    unfold mach_runnable. cbn [ms].
    destruct (decide (t = bmk_current (ms M))) as [-> | Hne]; [by right |]. left.
    assert (threads (woken (ms M) t th) !! t = Some (woken_thread th)) as Hw by apply lookup_insert_eq.
    apply (wf_in Current _ QRun t _ Hwf' Hw). pose proof (wf_flags _ _ Hwf t th Hth) as Hok.
    unfold mode_of in Hok. rewrite decide_False in Hok by done.
    destruct Hal as (x & Hx & H9). rewrite Hth in Hx. simplify_eq.
    cbn [qbit]. unfold woken_thread, queued. unfold th_ok in Hok. destruct (tb x 1) eqn:E1, (tb x 2) eqn:E2; cbn [orb];
      tb_simpl; rewrite ?E1, ?E2 in *; destruct (tb x 0), (tb x 3), (tb x 9), (tb x 10); done.
Qed.

Lemma mach_block_ok M d env : mach_ok M -> in_user M false ->
  Forall (fun r => Forall (mach_alive M) r.2) env ->
  exists M1 M2, mstep (EPrepare d) M = Done M1 /\ mstep (EBlock env) M1 = Done M2 /\ mach_ok M2 /\
    (forall u, mach_alive M u -> mach_alive M2 u) /\
    (forall u, u <> bmk_current (ms M) -> mach_runnable M u -> mach_runnable M2 u).
Proof.
  intros HM Hu Henv. destruct (step_prepare M d HM Hu) as (M1 & E1 & HM1).
  destruct (in_user_ready M HM Hu) as [th Hrd]. pose proof Hu as (Hid & Hpc & Hb).
  destruct (prepare_Done (ms M) th d (rd_wf _ _ _ Hrd) (rd_cur _ _ _ Hrd) (rd_prep _ _ _ Hrd)) as (s1 & Es & Hp).
  { by rewrite (rd_spl _ _ _ Hrd). }
  pose proof E1 as E1'. cbn [mstep] in E1'. rewrite Es, Done_bind in E1'. injection E1' as <-.
  destruct Hp as (Eth & _ & _ & _ & _ & Ec & _).
  destruct (step_block (Mach s1 (mpc M) false) env HM1) as (M2 & E2 & HM2).
  - split; [split; [done |] | ]; cbn [ms mpc midle].
    + rewrite Ec. split; [done |]. intros x. rewrite Eth, lookup_insert_eq. intros [= <-].
      by eapply prepared_bits, ready_0.
    + eapply Forall_impl; [exact Henv |]. intros r Hr. eapply Forall_impl; [exact Hr |].
      intros t Ht. by apply (mach_alive_ok (Mach s1 (mpc M) false)).
  - exists (Mach s1 (mpc M) false), M2. split; [done |]. split; [done |]. split; [done |].
    split; intros u; [intros Ha; by apply (mstep_alive (EBlock env) (Mach s1 (mpc M) false) M2 u) |].
    intros Hne Hr. apply (mstep_runnable (EBlock env) (Mach s1 (mpc M) false) M2 u); [done | done | cbn; by rewrite Ec |].
    by apply (mstep_runnable (EPrepare d) M).
Qed.

Lemma mach_user_alive M : mach_ok M -> in_user M false -> mach_alive M (bmk_current (ms M)).
Proof. intros _ (_ & H & _). by exists User. Qed.

Definition mach_runs (M M' : mach) : Prop :=
  exists e, keeps_threads e M /\ valid e M /\ mstep e M = Done M'.

Lemma mach_run_ok M M' : mach_ok M -> mach_runs M M' ->
  mach_ok M' /\ (forall u, mach_alive M u -> mach_alive M' u) /\
  (forall u, u <> bmk_current (ms M) -> mach_runnable M u -> mach_runnable M' u).
Proof.
  intros HM (e & Hk & Hv & E). destruct (step_ok M e HM Hv) as (M1 & E1 & HM1).
  rewrite E in E1. simplify_eq. split; [done |]. split; intros u; [by apply (mstep_alive e M M1) | by apply (mstep_runnable e M M1)].
Qed.

Global Instance mach_scheduler : Scheduler mach := {
  sc_current M := bmk_current (ms M);
  sc_clock M := clock (ms M);
  sc_wake M t := mstep (EWake t) M;
  sc_create M t stack cookie ext j := mstep (ECreate t stack cookie ext j) M;
  sc_fresh M t := threads (ms M) !! t = None;
  sc_prepare M d := mstep (EPrepare d) M;
  sc_block env M := mstep (EBlock env) M;
  sc_run := mach_runs;
  sc_ok := mach_ok;
  sc_user M := in_user M false;
  sc_alive := mach_alive;
  sc_runnable := mach_runnable;
  sc_user_alive := mach_user_alive;
  sc_wake_ok := mach_wake_ok;
  sc_create_ok := mach_create_ok;
  sc_block_ok := mach_block_ok;
  sc_run_ok := mach_run_ok;
}.
