(* ===== verification/Synch.v ===== *)
(** * Locks and condition variables (lib/libbmk_rumpuser/rumpuser_synch.c)

    The objects are identified by their addresses, threads by the address of
    their [struct bmk_thread].  The [struct waiter] of a blocked thread lives
    on its stack; a thread waits for one thing at a time, so the waiter is
    identified by its thread.  [struct lwp *] is an address, 0 being NULL.

    A call that blocks is cut at the points where other threads may run: in
    [wait], and in the calls [rumpkern_unsched]/[rumpkern_sched] of the rump
    kernel (code outside this repository), which are recorded in a list.
    [frames] says for each thread inside such a call where it is; [resume] is
    the code it executes when the call returns.  The scheduler is used through
    the interface of SchedIface.v. *)

From S2P Require Import Prelude Sched SchedIface.

Definition BMK_EBUSY : Z := 16.
Definition BMK_EINVAL : Z := 22.

Inductive rumprwlock := RUMPUSER_RW_READER | RUMPUSER_RW_WRITER.
Inductive rumplwpop := RUMPUSER_LWP_CREATE | RUMPUSER_LWP_DESTROY | RUMPUSER_LWP_SET | RUMPUSER_LWP_CLEAR.
Global Instance rumprwlock_eq_dec : EqDecision rumprwlock.
Proof. solve_decision. Defined.

(** The wait queues: [mtx->waiters], [rw->rwait], [rw->wwait], [cv->waiters]. *)
Inductive waithead := WMtx (m : Z) | WRead (r : Z) | WWrite (r : Z) | WCv (c : Z).
Global Instance waithead_eq_dec : EqDecision waithead.
Proof. solve_decision. Defined.
Global Instance waithead_countable : Countable waithead.
Proof.
  apply (inj_countable'
    (fun h => match h with WMtx m => (0, m) | WRead r => (1, r) | WWrite r => (2, r) | WCv c => (3, c) end)
    (fun p => if p.1 =? 0 then WMtx p.2 else if p.1 =? 1 then WRead p.2
              else if p.1 =? 2 then WWrite p.2 else WCv p.2)).
  by intros [].
Defined.

Record waiter := Waiter { who : Z; onlist : bool }.
Record rumpuser_mtx := Mtx { m_v : Z; m_flags : Z; m_o : Z; m_bmk_o : option Z }.
Record rumpuser_rw := Rw { rw_v : Z; rw_o : Z }.

(** Where a thread is inside a blocking call; [nl] is its local [nlocks]. *)
Inductive frame :=
  | FEnterUnsched (m : Z)                       (* mutex_enter: rumpkern_unsched *)
  | FEnterWait (m nl : Z)                       (* mutex_enter: wait *)
  | FEnterSched (m : Z)                         (* mutex_enter: rumpkern_sched *)
  | FRwUnsched (lk : rumprwlock) (r : Z)        (* rw_enter *)
  | FRwWait (lk : rumprwlock) (r nl : Z)
  | FRwSched (lk : rumprwlock) (r : Z)
  | FCvUnsched (c m wakeup : Z)                 (* cv_wait, cv_timedwait: cv_unsched *)
  | FCvWait (c m nl : Z)                        (* wait *)
  | FCvNowrap (c m : Z)                         (* cv_wait_nowrap: wait *)
  | FCvSchedSpin (c m rv : Z)                   (* cv_resched, KMUTEX|SPIN *)
  | FCvSched (c m rv : Z).                      (* cv_resched, otherwise *)

Inductive hypcall := HUnsched (t interlock : Z) | HSched (t nlocks interlock : Z).

Record synch (S : Type) := Synch {
  sc : S;
  heads : gmap waithead (list Z);
  waiters : gmap Z waiter;
  mtxs : gmap Z rumpuser_mtx;
  rws : gmap Z rumpuser_rw;
  cvs : gmap Z Z;                                (* cv->nwaiters *)
  current_lwp : gmap Z Z;
  frames : gmap Z frame;
  hyp : list hypcall;
}.
Arguments Synch {S}. Arguments sc {S}. Arguments heads {S}. Arguments waiters {S}. Arguments mtxs {S}.
Arguments rws {S}. Arguments cvs {S}. Arguments current_lwp {S}. Arguments frames {S}. Arguments hyp {S}.

Section synch.
Context {S : Type} `{!Scheduler S}.
Implicit Types (st : synch S).

(** The flags of the rump kernel's rumpuser.h. *)
Context (RUMPUSER_MTX_SPIN RUMPUSER_MTX_KMUTEX : Z).

Definition set_sc v (st : synch S) : synch S := Synch v (heads st) (waiters st) (mtxs st) (rws st) (cvs st) (current_lwp st) (frames st) (hyp st).
Definition set_heads v (st : synch S) : synch S := Synch (sc st) v (waiters st) (mtxs st) (rws st) (cvs st) (current_lwp st) (frames st) (hyp st).
Definition set_waiters v (st : synch S) : synch S := Synch (sc st) (heads st) v (mtxs st) (rws st) (cvs st) (current_lwp st) (frames st) (hyp st).
Definition set_mtxs v (st : synch S) : synch S := Synch (sc st) (heads st) (waiters st) v (rws st) (cvs st) (current_lwp st) (frames st) (hyp st).
Definition set_rws v (st : synch S) : synch S := Synch (sc st) (heads st) (waiters st) (mtxs st) v (cvs st) (current_lwp st) (frames st) (hyp st).
Definition set_cvs v (st : synch S) : synch S := Synch (sc st) (heads st) (waiters st) (mtxs st) (rws st) v (current_lwp st) (frames st) (hyp st).
Definition set_lwps v (st : synch S) : synch S := Synch (sc st) (heads st) (waiters st) (mtxs st) (rws st) (cvs st) v (frames st) (hyp st).
Definition set_frames v (st : synch S) : synch S := Synch (sc st) (heads st) (waiters st) (mtxs st) (rws st) (cvs st) (current_lwp st) v (hyp st).
Definition set_hyp v (st : synch S) : synch S := Synch (sc st) (heads st) (waiters st) (mtxs st) (rws st) (cvs st) (current_lwp st) (frames st) v.

Definition cur st : Z := sc_current (sc st).
Definition queue_of st (h : waithead) : list Z := default [] (heads st !! h).
Definition put_queue (h : waithead) (q : list Z) st : synch S := set_heads (<[h := q]> (heads st)) st.
Definition put_mtx (m : Z) (x : rumpuser_mtx) st : synch S := set_mtxs (<[m := x]> (mtxs st)) st.
Definition put_rw (r : Z) (x : rumpuser_rw) st : synch S := set_rws (<[r := x]> (rws st)) st.
Definition put_cv (c : Z) (n : Z) st : synch S := set_cvs (<[c := n]> (cvs st)) st.
Definition mtx_at st (m : Z) : outcome rumpuser_mtx := of_option "struct rumpuser_mtx" (mtxs st !! m).
Definition rw_at st (r : Z) : outcome rumpuser_rw := of_option "struct rumpuser_rw" (rws st !! r).
Definition cv_at st (c : Z) : outcome Z := of_option "struct rumpuser_cv" (cvs st !! c).
Definition waiter_at st (t : Z) : outcome waiter := of_option "struct waiter" (waiters st !! t).

(** The current thread is suspended in, or returns from, a blocking call. *)
Definition suspend (f : frame) st : synch S := set_frames (<[cur st := f]> (frames st)) st.
Definition return_ st : synch S := set_frames (delete (cur st) (frames st)) st.
Definition rumpkern_unsched (interlock : Z) st : synch S := set_hyp (hyp st ++ [HUnsched (cur st) interlock]) st.
Definition rumpkern_sched (nlocks interlock : Z) st : synch S := set_hyp (hyp st ++ [HSched (cur st) nlocks interlock]) st.

(** ** Waiting *)

Definition int64_ok (z : Z) : bool := (- 2 ^ 63 <=? z) && (z <? 2 ^ 63).

(** [wait] up to the switch; the thread will be at [f]. *)
Definition wait_enter (wh : waithead) (wakeup : Z) (f : frame) (env : list reply) st : outcome (synch S) :=
  let wakeup' := if negb (wakeup =? BMK_SCHED_BLOCK_INFTIME) then wakeup + sc_clock (sc st) else wakeup in
  if negb (int64_ok wakeup') then Undef "wakeup += bmk_platform_cpu_clock_monotonic()"
  else
    let w := Waiter (cur st) true in
    let st := set_waiters (<[cur st := w]> (waiters st)) st in
    let st := put_queue wh (queue_of st wh ++ [cur st]) st in
    let st := suspend f st in
    s ← sc_prepare (sc st) wakeup';
    s ← sc_block env s;
    Done (set_sc s st).

(** [wait] after the switch, with its return value. *)
Definition wait_return (wh : waithead) st : outcome (Z * synch S) :=
  w ← waiter_at st (cur st);
  st ← (if onlist w then q ← TAILQ_REMOVE (queue_of st wh) (cur st); Done (put_queue wh q st)
        else Done st);
  Done (if onlist w then BMK_ETIMEDOUT else 0, set_waiters (delete (cur st) (waiters st)) st).

(** The body of both wake-up functions, for the first waiter. *)
Definition wakeup_first (wh : waithead) (w : Z) (rest : list Z) st : outcome (synch S) :=
  x ← waiter_at st w;
  let st := put_queue wh rest st in
  let st := set_waiters (<[w := Waiter (who x) false]> (waiters st)) st in
  s ← sc_wake (sc st) (who x);
  Done (set_sc s st).

Definition wakeup_one (wh : waithead) st : outcome (synch S) :=
  match queue_of st wh with
  | [] => Done st
  | w :: rest => wakeup_first wh w rest st
  end.

(** The [while] loop, on the waiters that are on the list when it starts. *)
Fixpoint wakeup_loop (q : list Z) (wh : waithead) st : outcome (synch S) :=
  match q with
  | [] => Done st
  | w :: rest => st ← wakeup_first wh w rest st; wakeup_loop rest wh st
  end.
Definition wakeup_all (wh : waithead) st : outcome (synch S) := wakeup_loop (queue_of st wh) wh st.

(** ** The current lwp *)

Definition rumpuser_curlwp st : Z := default 0 (current_lwp st !! cur st).
Definition rumpuser_curlwpop (op : rumplwpop) (l : Z) st : outcome (synch S) :=
  match op with
  | RUMPUSER_LWP_CREATE | RUMPUSER_LWP_DESTROY => Done st
  | RUMPUSER_LWP_SET =>
      _ ← bmk_assert (rumpuser_curlwp st =? 0) "current_lwp == NULL";
      Done (set_lwps (<[cur st := l]> (current_lwp st)) st)
  | RUMPUSER_LWP_CLEAR =>
      _ ← bmk_assert (rumpuser_curlwp st =? l) "current_lwp == l";
      Done (set_lwps (<[cur st := 0]> (current_lwp st)) st)
  end.

(** ** Mutexes

    A blocking operation returns [Some rv] when it has returned to its caller
    and [None] when the thread is suspended inside it. *)

Definition rumpuser_mutex_init (mtx flags : Z) st : outcome (synch S) :=
  if mtx =? 0 then Undef "mtx->flags"
  else Done (put_queue (WMtx mtx) [] (put_mtx mtx (Mtx 0 flags 0 None) st)).

Definition rumpuser_mutex_tryenter (mtx : Z) st : outcome (Z * synch S) :=
  let l := rumpuser_curlwp st in
  x ← mtx_at st mtx;
  if bool_decide (m_bmk_o x = Some (cur st)) then Halt "rumpuser mutex: locking against myself"
  else if negb (m_v x =? 0) then Done (BMK_EBUSY, st)
  else Done (0, put_mtx mtx (Mtx 1 (m_flags x) l (Some (cur st))) st).

(** The [while] loop of [rumpuser_mutex_enter]: one turn, and the call after it. *)
Definition mutex_enter_loop (mtx nlocks : Z) (env : list reply) st : outcome (option Z * synch S) :=
  '(rv, st) ← rumpuser_mutex_tryenter mtx st;
  if negb (rv =? 0) then
    st ← wait_enter (WMtx mtx) BMK_SCHED_BLOCK_INFTIME (FEnterWait mtx nlocks) env st;
    Done (None, st)
  else Done (None, suspend (FEnterSched mtx) (rumpkern_sched nlocks 0 st)).

Definition rumpuser_mutex_enter (mtx : Z) st : outcome (option Z * synch S) :=
  '(rv, st) ← rumpuser_mutex_tryenter mtx st;
  if negb (rv =? 0) then Done (None, suspend (FEnterUnsched mtx) (rumpkern_unsched 0 st))
  else Done (Some 0, st).

Definition rumpuser_mutex_enter_nowrap (mtx : Z) st : outcome (synch S) :=
  '(rv, st) ← rumpuser_mutex_tryenter mtx st;
  if negb (rv =? 0) then Halt "rumpuser mutex error" else Done st.

Definition rumpuser_mutex_exit (mtx : Z) st : outcome (synch S) :=
  x ← mtx_at st mtx;
  _ ← bmk_assert (m_v x =? 1) "mtx->v == 1";
  wakeup_one (WMtx mtx) (put_mtx mtx (Mtx 0 (m_flags x) 0 None) st).

Definition rumpuser_mutex_destroy (mtx : Z) st : outcome (synch S) :=
  x ← mtx_at st mtx;
  _ ← bmk_assert (bool_decide (queue_of st (WMtx mtx) = []) && (m_o x =? 0))
        "TAILQ_EMPTY(&mtx->waiters) && mtx->o == NULL";
  Done (set_mtxs (delete mtx (mtxs st)) st).

Definition rumpuser_mutex_owner (mtx : Z) st : outcome Z := x ← mtx_at st mtx; Done (m_o x).

(** ** Reader/writer locks *)

Definition rumpuser_rw_init (rw : Z) st : outcome (synch S) :=
  if rw =? 0 then Undef "rw->rwait"
  else Done (put_queue (WWrite rw) [] (put_queue (WRead rw) [] (put_rw rw (Rw 0 0) st))).

Definition rw_queue (lk : rumprwlock) (rw : Z) : waithead :=
  match lk with RUMPUSER_RW_WRITER => WWrite rw | RUMPUSER_RW_READER => WRead rw end.

Definition rumpuser_rw_tryenter (lk : rumprwlock) (rw : Z) st : outcome (Z * synch S) :=
  x ← rw_at st rw;
  match lk with
  | RUMPUSER_RW_WRITER =>
      if rw_o x =? 0 then Done (0, put_rw rw (Rw (rw_v x) (rumpuser_curlwp st)) st)
      else Done (BMK_EBUSY, st)
  | RUMPUSER_RW_READER =>
      if (rw_o x =? 0) && bool_decide (queue_of st (WWrite rw) = [])
      then Done (0, put_rw rw (Rw (rw_v x + 1) (rw_o x)) st)
      else Done (BMK_EBUSY, st)
  end.

Definition rw_enter_loop (lk : rumprwlock) (rw nlocks : Z) (env : list reply) st : outcome (option Z * synch S) :=
  '(rv, st) ← rumpuser_rw_tryenter lk rw st;
  if negb (rv =? 0) then
    st ← wait_enter (rw_queue lk rw) BMK_SCHED_BLOCK_INFTIME (FRwWait lk rw nlocks) env st;
    Done (None, st)
  else Done (None, suspend (FRwSched lk rw) (rumpkern_sched nlocks 0 st)).

Definition rumpuser_rw_enter (lk : rumprwlock) (rw : Z) st : outcome (option Z * synch S) :=
  '(rv, st) ← rumpuser_rw_tryenter lk rw st;
  if negb (rv =? 0) then Done (None, suspend (FRwUnsched lk rw) (rumpkern_unsched 0 st))
  else Done (Some 0, st).

Definition rumpuser_rw_exit (rw : Z) st : outcome (synch S) :=
  x ← rw_at st rw;
  let st := put_rw rw (if negb (rw_o x =? 0) then Rw (rw_v x) 0 else Rw (rw_v x - 1) (rw_o x)) st in
  x ← rw_at st rw;
  if negb (bool_decide (queue_of st (WWrite rw) = [])) then
    if rw_o x =? 0 then wakeup_one (WWrite rw) st else Done st
  else if negb (bool_decide (queue_of st (WRead rw) = [])) && (rw_o x =? 0) then wakeup_all (WRead rw) st
  else Done st.

Definition rumpuser_rw_destroy (rw : Z) st : outcome (synch S) :=
  _ ← rw_at st rw; Done (set_rws (delete rw (rws st)) st).

Definition rumpuser_rw_held (lk : rumprwlock) (rw : Z) st : outcome bool :=
  x ← rw_at st rw;
  match lk with
  | RUMPUSER_RW_WRITER => Done (rw_o x =? rumpuser_curlwp st)
  | RUMPUSER_RW_READER => Done (0 <? rw_v x)
  end.

Definition rumpuser_rw_downgrade (rw : Z) st : outcome (synch S) :=
  x ← rw_at st rw;
  _ ← bmk_assert (rw_o x =? rumpuser_curlwp st) "rw->o == rumpuser_curlwp()";
  Done (put_rw rw (Rw (-1) (rw_o x)) st).

Definition rumpuser_rw_tryupgrade (rw : Z) st : outcome (Z * synch S) :=
  x ← rw_at st rw;
  if rw_v x =? -1 then Done (0, put_rw rw (Rw 1 (rumpuser_curlwp st)) st) else Done (BMK_EBUSY, st).

(** ** Condition variables *)

Definition rumpuser_cv_init (cv : Z) st : outcome (synch S) :=
  if cv =? 0 then Undef "cv->waiters" else Done (put_queue (WCv cv) [] (put_cv cv 0 st)).

Definition rumpuser_cv_destroy (cv : Z) st : outcome (synch S) :=
  n ← cv_at st cv;
  _ ← bmk_assert (n =? 0) "cv->nwaiters == 0";
  Done (set_cvs (delete cv (cvs st)) st).

Definition cv_add (cv d : Z) st : outcome (synch S) := n ← cv_at st cv; Done (put_cv cv (n + d) st).

(** [cv_unsched]: the call of the rump kernel, and the rest. *)
Definition cv_unsched_enter (cv mtx wakeup : Z) st : synch S :=
  suspend (FCvUnsched cv mtx wakeup) (rumpkern_unsched mtx st).
Definition cv_unsched_return (mtx : Z) st : outcome (synch S) := rumpuser_mutex_exit mtx st.

Definition RUMPUSER_MTX_KSPIN : Z := Z.lor RUMPUSER_MTX_KMUTEX RUMPUSER_MTX_SPIN.

(** [cv_resched] up to the call of the rump kernel. *)
Definition cv_resched (cv mtx nlocks rv : Z) st : outcome (synch S) :=
  x ← mtx_at st mtx;
  if Z.land (m_flags x) RUMPUSER_MTX_KSPIN =? RUMPUSER_MTX_KSPIN then
    Done (suspend (FCvSchedSpin cv mtx rv) (rumpkern_sched nlocks mtx st))
  else
    st ← rumpuser_mutex_enter_nowrap mtx st;
    Done (suspend (FCvSched cv mtx rv) (rumpkern_sched nlocks mtx st)).

Definition rumpuser_cv_wait (cv mtx : Z) st : outcome (option Z * synch S) :=
  st ← cv_add cv 1 st;
  Done (None, cv_unsched_enter cv mtx BMK_SCHED_BLOCK_INFTIME st).

Definition rumpuser_cv_wait_nowrap (cv mtx : Z) (env : list reply) st : outcome (option Z * synch S) :=
  st ← cv_add cv 1 st;
  st ← rumpuser_mutex_exit mtx st;
  st ← wait_enter (WCv cv) BMK_SCHED_BLOCK_INFTIME (FCvNowrap cv mtx) env st;
  Done (None, st).

(** [sec * 1000*1000*1000ULL + nsec] as a [bmk_time_t]. *)
Definition timeout_of (sec nsec : Z) : outcome Z :=
  if negb (int64_ok (sec * 1000 * 1000)) then Undef "sec * 1000*1000"
  else Done (s64 (wrap64 (sec * 1000 * 1000 * 1000 + nsec))).

Definition rumpuser_cv_timedwait (cv mtx sec nsec : Z) st : outcome (option Z * synch S) :=
  st ← cv_add cv 1 st;
  wakeup ← timeout_of sec nsec;
  Done (None, cv_unsched_enter cv mtx wakeup st).

Definition rumpuser_cv_signal (cv : Z) st : outcome (synch S) := _ ← cv_at st cv; wakeup_one (WCv cv) st.
Definition rumpuser_cv_broadcast (cv : Z) st : outcome (synch S) := _ ← cv_at st cv; wakeup_all (WCv cv) st.
Definition rumpuser_cv_has_waiters (cv : Z) st : outcome bool := n ← cv_at st cv; Done (negb (n =? 0)).

(** ** Returning from a call that blocked

    [nlocks] is what [rumpkern_unsched] has stored, [env] the environment of a
    further wait. *)
Definition resume (nlocks : Z) (env : list reply) st : outcome (option Z * synch S) :=
  match frames st !! cur st with
  | None => Undef "no suspended call"
  | Some (FEnterUnsched m) => mutex_enter_loop m nlocks env st
  | Some (FEnterWait m nl) => '(_, st) ← wait_return (WMtx m) st; mutex_enter_loop m nl env st
  | Some (FEnterSched m) => Done (Some 0, return_ st)
  | Some (FRwUnsched lk r) => rw_enter_loop lk r nlocks env st
  | Some (FRwWait lk r nl) => '(_, st) ← wait_return (rw_queue lk r) st; rw_enter_loop lk r nl env st
  | Some (FRwSched _ _) => Done (Some 0, return_ st)
  | Some (FCvUnsched c m wakeup) =>
      st ← cv_unsched_return m st;
      st ← wait_enter (WCv c) wakeup (FCvWait c m nlocks) env st;
      Done (None, st)
  | Some (FCvWait c m nl) =>
      '(rv, st) ← wait_return (WCv c) st;
      st ← cv_resched c m nl rv st;
      Done (None, st)
  | Some (FCvNowrap c m) =>
      '(rv, st) ← wait_return (WCv c) st;
      st ← rumpuser_mutex_enter_nowrap m st;
      st ← cv_add c (-1) st;
      Done (Some 0, return_ st)
  | Some (FCvSchedSpin c m rv) =>
      st ← rumpuser_mutex_enter_nowrap m st;
      st ← cv_add c (-1) st;
      Done (Some rv, return_ st)
  | Some (FCvSched c m rv) =>
      st ← cv_add c (-1) st;
      Done (Some rv, return_ st)
  end.

End synch.

(** ** Threads: direct calls of the scheduler *)

Definition rumpuser_thread_create (s : sched) (thread stack cookie : Z) (joinable : bool) : outcome (Z * Z * sched) :=
  '(thr, s) ← bmk_sched_create s thread stack cookie false joinable;
  Done (if thr =? 0 then BMK_EINVAL else 0, thr, s).
