(* ===== verification/SynchInv.v ===== *)
(** * Locks and condition variables: the invariant

    What the threads suspended inside the calls of rumpuser_synch.c rely on,
    as a predicate of the state and of the map [F] that says in which call
    each thread is.  Four groups: the wait queues hold exactly the waiting
    threads; the objects used by suspended threads exist and [nwaiters] counts
    them; a mutex is owned by exactly the thread that has been given it; and
    nobody waits for a free lock without some thread on its way to take it. *)

From S2P Require Import Prelude Sched SchedIface Synch.

(** ** What a suspended call says about its thread *)

Definition waits_on (f : frame) : option waithead :=
  match f with
  | FEnterWait m _ => Some (WMtx m)
  | FRwWait lk r _ => Some (rw_queue lk r)
  | FCvWait c _ _ | FCvNowrap c _ => Some (WCv c)
  | _ => None
  end.

(** The lock the call will try to take exclusively when it continues. *)
Definition wants (f : frame) : option waithead :=
  match f with
  | FEnterUnsched m | FEnterWait m _ => Some (WMtx m)
  | FRwUnsched RUMPUSER_RW_WRITER r | FRwWait RUMPUSER_RW_WRITER r _ => Some (WWrite r)
  | _ => None
  end.

(** The mutex the thread owns without having been told yet, or any more. *)
Definition owned (f : frame) : option Z :=
  match f with
  | FEnterSched m | FCvUnsched _ m _ | FCvSched _ m _ => Some m
  | _ => None
  end.

Definition uses_cv (f : frame) : option Z :=
  match f with
  | FCvUnsched c _ _ | FCvWait c _ _ | FCvNowrap c _ | FCvSchedSpin c _ _ | FCvSched c _ _ => Some c
  | _ => None
  end.
Definition uses_mtx (f : frame) : option Z :=
  match f with
  | FEnterUnsched m | FEnterWait m _ | FEnterSched m => Some m
  | FCvUnsched _ m _ | FCvWait _ m _ | FCvNowrap _ m | FCvSchedSpin _ m _ | FCvSched _ m _ => Some m
  | _ => None
  end.
Definition uses_rw (f : frame) : option Z :=
  match f with FRwUnsched _ r | FRwWait _ r _ | FRwSched _ r => Some r | _ => None end.

Lemma waits_wants f h : waits_on f = Some h ->
  match h with WMtx _ | WWrite _ => wants f = Some h | _ => True end.
Proof. destruct f as [| | | |[] | | | | | |]; cbn; intros [= <-]; done. Qed.

(** ** Counting the users of a condition variable *)

Definition cvcount (c : Z) (F : gmap Z frame) : nat :=
  size (filter (fun p => uses_cv p.2 = Some c) F).

Lemma cvcount_insert_new c F t f : F !! t = None ->
  cvcount c (<[t := f]> F) = ((if decide (uses_cv f = Some c) then 1 else 0) + cvcount c F)%nat.
Proof.
  intros H. unfold cvcount. destruct (decide (uses_cv f = Some c)).
  - rewrite map_filter_insert_True by done. rewrite map_size_insert_None; [done |].
    apply map_lookup_filter_None. by left.
  - by rewrite map_filter_insert_False, delete_id.
Qed.

Lemma cvcount_delete c F t f : F !! t = Some f ->
  cvcount c F = ((if decide (uses_cv f = Some c) then 1 else 0) + cvcount c (delete t F))%nat.
Proof.
  intros H. rewrite <- (insert_delete_id F t f H) at 1. apply cvcount_insert_new, lookup_delete_eq.
Qed.

Lemma cvcount_none c F : (forall t f, F !! t = Some f -> uses_cv f <> Some c) -> cvcount c F = 0%nat.
Proof.
  intros H. unfold cvcount. apply map_size_empty_iff, map_empty. intros t. apply map_lookup_filter_None. right. intros f Hf. by apply (H t f).
Qed.

Lemma cvcount_insert c F t f : F !! t ≫= uses_cv = uses_cv f -> cvcount c (<[t := f]> F) = cvcount c F.
Proof.
  intros H. destruct (F !! t) as [g |] eqn:E; cbn in H.
  - rewrite (cvcount_delete c F t g E), H. rewrite <- insert_delete_eq.
    apply cvcount_insert_new, lookup_delete_eq.
  - rewrite cvcount_insert_new by done. by rewrite decide_False by congruence.
Qed.

Lemma cvcount_remove c F t : F !! t ≫= uses_cv = None -> cvcount c (delete t F) = cvcount c F.
Proof.
  intros H. destruct (F !! t) as [g |] eqn:E; cbn in H.
  - rewrite (cvcount_delete c F t g E). by rewrite decide_False by congruence.
  - by rewrite delete_id.
Qed.

(** [move t o F] puts thread [t] at [o]; insertion and deletion are instances. *)
Abbreviation move t o F := (partial_alter (fun _ => o) t F).

Section inv.
Context {S : Type} `{!Scheduler S}.
Implicit Types (st : synch S) (F : gmap Z frame) (held : gset (Z * Z)).

Record waiting F st : Prop := {
  wt_sc : sc_ok (sc st);
  wt_alive : forall t f, F !! t = Some f -> sc_alive (sc st) t;
  wt_nd : forall h, NoDup (queue_of st h);
  wt_q : forall h t, t ∈ queue_of st h <->
    exists f, F !! t = Some f /\ waits_on f = Some h /\ waiters st !! t = Some (Waiter t true);
  wt_w : forall t f h, F !! t = Some f -> waits_on f = Some h -> exists b, waiters st !! t = Some (Waiter t b);
  wt_ready : forall t f h, F !! t = Some f -> waits_on f = Some h -> waiters st !! t = Some (Waiter t false) ->
    sc_runnable (sc st) t;
}.

Record objects F st : Prop := {
  ob_mtx : forall t f m, F !! t = Some f -> uses_mtx f = Some m -> is_Some (mtxs st !! m);
  ob_rw : forall t f r, F !! t = Some f -> uses_rw f = Some r ->
    is_Some (rws st !! r) /\ default 0 (current_lwp st !! t) <> 0;
  ob_cv : forall t f c, F !! t = Some f -> uses_cv f = Some c -> is_Some (cvs st !! c);
  ob_count : forall c n, cvs st !! c = Some n -> n = Z.of_nat (cvcount c F);
}.

(** The threads to which the mutex belongs. *)
Definition claims F held (m t : Z) : Prop := (m, t) ∈ held \/ F !! t ≫= owned = Some m.

Record owners F held st : Prop := {
  ow_v : forall m x, mtxs st !! m = Some x -> m_v x = 0 /\ m_bmk_o x = None /\ m_o x = 0 \/ m_v x = 1 /\ is_Some (m_bmk_o x);
  ow_claim : forall m t, claims F held m t <-> exists x, mtxs st !! m = Some x /\ m_bmk_o x = Some t;
  ow_excl : forall m t, F !! t ≫= owned = Some m -> (m, t) ∉ held;
}.

(** Some thread is inside the call that takes the lock and not on the queue. *)
Definition retried F st (h : waithead) : Prop :=
  exists t f, F !! t = Some f /\ wants f = Some h /\ t ∉ queue_of st h.

Record no_lost F st : Prop := {
  nl_mtx : forall m x, mtxs st !! m = Some x -> m_v x = 0 -> queue_of st (WMtx m) <> [] -> retried F st (WMtx m);
  nl_rw : forall r x, rws st !! r = Some x -> rw_o x = 0 ->
    queue_of st (WWrite r) <> [] \/ queue_of st (WRead r) <> [] -> retried F st (WWrite r);
}.

Record inv F held st : Prop := {
  iv_wait : waiting F st;
  iv_obj : objects F st;
  iv_own : owners F held st;
  iv_lost : no_lost F st;
}.

(** ** Queues *)

Lemma queue_put h q st h' : queue_of (put_queue h q st) h' = if decide (h = h') then q else queue_of st h'.
Proof.
  unfold queue_of, put_queue. cbn [heads set_heads]. destruct (decide (h = h')) as [-> | Hne].
  - by rewrite lookup_insert_eq.
  - by rewrite lookup_insert_ne.
Qed.

Lemma not_queued F st t h : waiting F st -> F !! t ≫= waits_on = None -> t ∉ queue_of st h.
Proof. intros W H Hin. apply (wt_q _ _ W) in Hin as (f & Hf & Hw & _). rewrite Hf in H. cbn in H. congruence. Qed.

(** The parts of the state the queues are not. *)
Definition same_objects st st' : Prop :=
  mtxs st' = mtxs st /\ rws st' = rws st /\ cvs st' = cvs st /\ current_lwp st' = current_lwp st /\
  frames st' = frames st.

Lemma objects_ext F st st' : same_objects st st' -> objects F st -> objects F st'.
Proof. intros (E1 & E2 & E3 & E4 & _) []. split; rewrite ?E1, ?E2, ?E3, ?E4; done. Qed.

Lemma owners_ext F held st st' : mtxs st' = mtxs st -> owners F held st -> owners F held st'.
Proof. intros E []. split; rewrite ?E; done. Qed.

Lemma waiting_ext F st st' : sc st' = sc st -> heads st' = heads st -> waiters st' = waiters st ->
  waiting F st -> waiting F st'.
Proof. intros E1 E2 E3 []. unfold queue_of in *. split; unfold queue_of; rewrite ?E1, ?E2, ?E3; done. Qed.

Lemma no_lost_ext F st st' : mtxs st' = mtxs st -> rws st' = rws st -> heads st' = heads st ->
  no_lost F st -> no_lost F st'.
Proof.
  intros E1 E2 E3 []. unfold retried, queue_of in *.
  split; unfold retried, queue_of; rewrite ?E1, ?E2, ?E3; done.
Qed.

(** ** A thread changes its place *)


Lemma attr_move {A} (g : frame -> option A) F t o u :
  move t o F !! u ≫= g = if decide (t = u) then o ≫= g else F !! u ≫= g.
Proof.
  destruct (decide (t = u)) as [-> | ?]; [by rewrite lookup_partial_alter_eq | by rewrite lookup_partial_alter_ne].
Qed.

Lemma move_Some F t o u f : move t o F !! u = Some f <-> t = u /\ o = Some f \/ t <> u /\ F !! u = Some f.
Proof.
  destruct (decide (t = u)) as [-> | ?].
  - rewrite lookup_partial_alter_eq. tauto.
  - rewrite lookup_partial_alter_ne by done. tauto.
Qed.

Lemma waiting_move F st t o : waiting F st -> F !! t ≫= waits_on = None -> o ≫= waits_on = None ->
  sc_alive (sc st) t -> waiting (move t o F) st.
Proof.
  intros W Ht Hf Ha. destruct W as [W1 W2 W3 W4 W5 W6]. split; try done.
  - intros u g. rewrite move_Some. intros [[<- _] | [_ H]]; [done | eauto].
  - intros h u. rewrite W4. split; intros (g & Hg & Hw & Hb).
    + exists g. rewrite move_Some. split; [| done]. right. split; [| done]. intros <-.
      rewrite Hg in Ht. cbn in Ht. congruence.
    + apply move_Some in Hg as [[<- ->] | [_ Hg]]; [cbn in Hf; congruence | eauto].
  - intros u g h. rewrite move_Some. intros [[<- ->] | [_ H]]; [cbn in Hf; congruence | eauto].
  - intros u g h. rewrite move_Some. intros [[<- ->] | [_ H]]; [cbn in Hf; congruence | eauto].
Qed.

Lemma objects_move F st t o : objects F st -> F !! t ≫= uses_cv = o ≫= uses_cv ->
  (forall m, o ≫= uses_mtx = Some m -> is_Some (mtxs st !! m)) ->
  (forall r, o ≫= uses_rw = Some r -> is_Some (rws st !! r) /\ default 0 (current_lwp st !! t) <> 0) ->
  objects (move t o F) st.
Proof.
  intros [O1 O2 O3 O4] Hc Hm Hr. split.
  - intros u g m. rewrite move_Some. intros [[<- ->] | [_ H]]; [apply Hm | eauto].
  - intros u g r. rewrite move_Some. intros [[<- ->] | [_ H]]; [apply Hr | eauto].
  - intros u g c. rewrite move_Some. intros [[<- ->] | [_ H]]; [| eauto].
    cbn in Hc. rewrite <- Hc. destruct (F !! t) as [g' |] eqn:E; [| done]. cbn. eauto.
  - intros c n Hn. rewrite (O4 c n Hn). f_equal. symmetry. destruct o as [f |].
    + by apply (cvcount_insert c F t f).
    + by apply (cvcount_remove c F t).
Qed.

Lemma owners_move F held held' st t o : owners F held st ->
  (forall m, (m, t) ∈ held' \/ o ≫= owned = Some m <-> claims F held m t) ->
  (forall m u, u <> t -> (m, u) ∈ held' <-> (m, u) ∈ held) ->
  (forall m, o ≫= owned = Some m -> (m, t) ∉ held') ->
  owners (move t o F) held' st.
Proof.
  intros [W1 W2 W3] H1 H2 H3. split; [done | |].
  - intros m u. rewrite <- W2. unfold claims in *. rewrite attr_move.
    destruct (decide (t = u)) as [-> | Hne]; [apply H1 |]. by rewrite H2 by congruence.
  - intros m u. rewrite attr_move. destruct (decide (t = u)) as [-> | Hne]; [apply H3 |].
    rewrite H2 by congruence. apply W3.
Qed.

(** The lock is taken: nobody needs to be on the way to take it. *)
Definition taken st (h : waithead) : Prop :=
  match h with
  | WMtx m => forall x, mtxs st !! m = Some x -> m_v x <> 0
  | WWrite r => forall x, rws st !! r = Some x -> rw_o x <> 0
  | _ => True
  end.

Lemma no_lost_move F st t o : no_lost F st ->
  (forall h, F !! t ≫= wants = Some h -> o ≫= wants = Some h \/ taken st h) -> no_lost (move t o F) st.
Proof.
  intros [L1 L2] H. assert (forall h, retried F st h -> taken st h \/ retried (move t o F) st h) as Hr.
  { intros h (u & f & Hf & Hw & Hn). destruct (decide (t = u)) as [<- | Hne].
    - rewrite Hf in H. destruct (H h Hw) as [Ho | ?]; [| by left]. right. destruct o as [g |]; [| done].
      exists t, g. by rewrite lookup_partial_alter_eq.
    - right. exists u, f. by rewrite lookup_partial_alter_ne. }
  split; intros a x Hx Hz Hq; [destruct (Hr (WMtx a)) | destruct (Hr (WWrite a))]; eauto; exfalso; firstorder.
Qed.

Lemma inv_move F held held' st t o : inv F held st -> sc_alive (sc st) t ->
  F !! t ≫= waits_on = None -> o ≫= waits_on = None -> F !! t ≫= uses_cv = o ≫= uses_cv ->
  (forall m, (m, t) ∈ held' \/ o ≫= owned = Some m <-> claims F held m t) ->
  (forall m u, u <> t -> (m, u) ∈ held' <-> (m, u) ∈ held) ->
  (forall m, o ≫= owned = Some m -> (m, t) ∉ held') ->
  (forall h, F !! t ≫= wants = Some h -> o ≫= wants = Some h \/ taken st h) ->
  (forall m, o ≫= uses_mtx = Some m -> is_Some (mtxs st !! m)) ->
  (forall r, o ≫= uses_rw = Some r -> is_Some (rws st !! r) /\ default 0 (current_lwp st !! t) <> 0) ->
  inv (move t o F) held' st.
Proof.
  intros [I1 I2 I3 I4] **. split; [by apply waiting_move | by apply objects_move | by eapply owners_move
    | by apply no_lost_move].
Qed.

End inv.
