(* ===== verification/SynchProps.v ===== *)
(** * Waiting, waking and locking: what each step does to the invariant *)

From S2P Require Import Prelude Sched SchedIface SchedProps Synch SynchInv.

Ltac stproj := cbn [sc heads waiters mtxs rws cvs current_lwp frames hyp set_sc set_heads set_waiters set_mtxs
  set_rws set_cvs set_lwps set_frames set_hyp put_mtx put_rw put_cv suspend return_ rumpkern_unsched rumpkern_sched].

Section props.
Context {S : Type} `{!Scheduler S}.
Implicit Types (st : synch S) (F : gmap Z frame) (held : gset (Z * Z)).

(** The current thread runs its own code and is still the same thread. *)
Definition running st st' : Prop := sc_user (sc st') /\ cur st' = cur st /\
  sc_clock (sc st') = sc_clock (sc st) /\ (forall t, sc_alive (sc st) t -> sc_alive (sc st') t).

Lemma running_refl st st' : sc_user (sc st) -> sc st' = sc st -> running st st'.
Proof. intros H E. unfold running, cur. by rewrite E. Qed.

Lemma running_trans st1 st2 st3 : running st1 st2 -> running st2 st3 -> running st1 st3.
Proof. intros (_ & E1 & C1 & A1) (U & E2 & C2 & A2). split; [done |]. split; [congruence |]. split; [congruence | auto]. Qed.

Lemma wakeup_first_ok F st wh w rest : waiting F st -> sc_user (sc st) -> queue_of st wh = w :: rest ->
  exists st', wakeup_first wh w rest st = Done st' /\ waiting F st' /\ running st st' /\
    (forall h, queue_of st' h = if decide (wh = h) then rest else queue_of st h) /\
    same_objects st st' /\ sc_runnable (sc st') w /\ waiters st' !! w = Some (Waiter w false).
Proof.
  intros W Hu Hq. assert (w ∈ queue_of st wh) as Hin by (rewrite Hq; by left).
  apply (wt_q _ _ W) in Hin as (f & Hf & Hwf & Hww).
  pose proof (wt_alive _ _ W w f Hf) as Ha.
  destruct (sc_wake_ok (sc st) w (wt_sc _ _ W) Hu Ha) as (s' & Es & Hok & Hu' & Hc & Hck & Hr & Hal & Hrun & _).
  unfold wakeup_first, waiter_at. rewrite Hww. rewrite of_option_Some, Done_bind. cbv zeta. cbn [who].
  stproj. change (sc (put_queue wh rest st)) with (sc st). rewrite Es, Done_bind.
  eexists. split; [reflexivity |].
  set (st' := set_sc s' _). assert (forall h, queue_of st' h = if decide (wh = h) then rest else queue_of st h) as Hq'.
  { intros h. change (queue_of st' h) with (queue_of (put_queue wh rest st) h). apply queue_put. }
  assert (waiters st' = <[w := Waiter w false]> (waiters st)) as Ew by done.
  assert ((w ∉ rest) /\ NoDup rest) as [Hnw Hnd].
  { pose proof (wt_nd _ _ W wh) as Hnd. rewrite Hq in Hnd. by apply NoDup_cons in Hnd. }
  split; [| split; [by split | split; [done | split; [done | split; [done |]]]]].
  2: { rewrite Ew. apply lookup_insert_eq. }
  split.
  - done.
  - intros t g Hg. apply Hal. by eapply wt_alive.
  - intros h. rewrite Hq'. destruct (decide (wh = h)); [done | apply W].
  - intros h t. rewrite Hq', Ew. destruct (decide (t = w)) as [-> | Hne].
    + rewrite lookup_insert_eq. split.
      * destruct (decide (wh = h)) as [-> | Hh]; [done |]. intros (g & Hg & Hwg & _)%(wt_q _ _ W). congruence.
      * intros (g & _ & _ & [=]).
    + rewrite lookup_insert_ne by done. rewrite <- (wt_q _ _ W).
      destruct (decide (wh = h)) as [-> | Hh]; [| done]. rewrite Hq. rewrite elem_of_cons. naive_solver.
  - intros t g h Hg Hwg. rewrite Ew. destruct (decide (t = w)) as [-> | Hne].
    + rewrite lookup_insert_eq. eauto.
    + rewrite lookup_insert_ne by done. by eapply wt_w.
  - intros t g h Hg Hwg. rewrite Ew. destruct (decide (t = w)) as [-> | Hne]; [done |].
    rewrite lookup_insert_ne by done. intros Hb. apply Hrun. by eapply wt_ready.
Qed.

Lemma wakeup_one_ok F st wh : waiting F st -> sc_user (sc st) ->
  exists st', wakeup_one wh st = Done st' /\ waiting F st' /\ running st st' /\
    (forall h, queue_of st' h = if decide (wh = h) then tail (queue_of st wh) else queue_of st h) /\
    same_objects st st' /\
    (forall w, head (queue_of st wh) = Some w -> sc_runnable (sc st') w /\ waiters st' !! w = Some (Waiter w false)).
Proof.
  intros W Hu. unfold wakeup_one. destruct (queue_of st wh) as [| w rest] eqn:Hq.
  - exists st. split; [done |]. split; [done |]. split; [by apply running_refl |]. split; [| done].
    intros h. destruct (decide (wh = h)) as [<- | ?]; [by rewrite Hq | done].
  - destruct (wakeup_first_ok F st wh w rest W Hu Hq) as (st' & E & W' & R & Q & O & Hr).
    exists st'. cbn [tail head]. split; [done |]. split; [done |]. split; [done |]. split; [done |].
    split; [done |]. by intros x [= <-].
Qed.

Lemma wakeup_loop_ok F wh q : forall st, waiting F st -> sc_user (sc st) -> queue_of st wh = q ->
  exists st', wakeup_loop q wh st = Done st' /\ waiting F st' /\ running st st' /\
    (forall h, queue_of st' h = if decide (wh = h) then [] else queue_of st h) /\ same_objects st st' /\
    (forall w b, w ∉ q -> waiters st !! w = Some (Waiter w b) -> waiters st' !! w = Some (Waiter w b)) /\
    (forall w, w ∈ q -> waiters st' !! w = Some (Waiter w false)).
Proof.
  induction q as [| w rest IH]; intros st W Hu Hq; cbn [wakeup_loop].
  - exists st. split; [done |]. split; [done |]. split; [by apply running_refl |]. split; [| split; [done |]].
    + intros h. destruct (decide (wh = h)) as [<- | ?]; done.
    + split; [done |]. intros w Hw. by apply elem_of_nil in Hw.
  - destruct (wakeup_first_ok F st wh w rest W Hu Hq) as (st1 & E & W1 & R1 & Q1 & O1 & _ & Hw1).
    destruct (IH st1 W1 (proj1 R1)) as (st2 & E2 & W2 & R2 & Q2 & O2 & K2 & A2).
    { rewrite Q1. by rewrite decide_True. }
    pose proof (wt_nd _ _ W wh) as Hnd. rewrite Hq in Hnd. apply NoDup_cons in Hnd as [Hnw Hnd].
    assert (forall x b, x <> w -> waiters st !! x = Some (Waiter x b) -> waiters st1 !! x = Some (Waiter x b)) as K1.
    { intros x b Hne Hx. unfold wakeup_first in E. outcome_inv.
      cbn [waiters set_sc set_waiters]. rewrite lookup_insert_ne by done. done. }
    exists st2. rewrite E, Done_bind. split; [done |]. split; [done |].
    split; [by eapply running_trans |]. split; [| split].
    + intros h. rewrite Q2, Q1. by destruct (decide (wh = h)).
    + destruct O1 as (? & ? & ? & ? & ?), O2 as (? & ? & ? & ? & ?). repeat split; congruence.
    + split.
      * intros x b Hx Hb. rewrite not_elem_of_cons in Hx. apply K2; [tauto |]. apply K1; tauto.
      * intros x [-> | Hx]%elem_of_cons; [by apply K2 | auto].
Qed.

Lemma wakeup_all_ok F st wh : waiting F st -> sc_user (sc st) ->
  exists st', wakeup_all wh st = Done st' /\ waiting F st' /\ running st st' /\
    (forall h, queue_of st' h = if decide (wh = h) then [] else queue_of st h) /\ same_objects st st' /\
    (forall w, w ∈ queue_of st wh -> waiters st' !! w = Some (Waiter w false)).
Proof.
  intros W Hu. destruct (wakeup_loop_ok F wh _ st W Hu eq_refl) as (st' & E & W' & R & Q & O & _ & A).
  by exists st'.
Qed.

(** ** [wait] *)

Lemma wait_return_ok F st wh f f' : waiting F st -> sc_user (sc st) -> F !! cur st = Some f ->
  waits_on f = Some wh -> waits_on f' = None ->
  exists rv st', wait_return wh st = Done (rv, st') /\ waiting (<[cur st := f']> F) st' /\ running st st' /\
    (forall h, queue_of st' h = filter (fun x => x <> cur st) (queue_of st h)) /\ same_objects st st' /\
    sc st' = sc st /\ rv = (if bool_decide (cur st ∈ queue_of st wh) then BMK_ETIMEDOUT else 0).
Proof.
  intros W Hu Hf Hwf Hf'. destruct (wt_w _ _ W _ _ _ Hf Hwf) as [b Hb].
  assert (cur st ∈ queue_of st wh <-> b = true) as Hon.
  { rewrite (wt_q _ _ W). split.
    - intros (g & Hg & _ & Hw). congruence.
    - intros ->. eauto. }
  assert (forall h, h <> wh -> cur st ∉ queue_of st h) as Hno.
  { intros h Hne Hin. apply (wt_q _ _ W) in Hin as (g & Hg & Hw & _). congruence. }
  assert (exists st1, (if b then q ← TAILQ_REMOVE (queue_of st wh) (cur st); Done (put_queue wh q st) else Done st) = Done st1 /\
    (forall h, queue_of st1 h = filter (fun x => x <> cur st) (queue_of st h)) /\ waiters st1 = waiters st /\
    sc st1 = sc st /\ same_objects st st1) as (st1 & E1 & Q1 & Ew & Es & O1).
  { destruct b.
    - unfold TAILQ_REMOVE. rewrite bool_decide_true by tauto. rewrite Done_bind. eexists. split; [done |].
      split; [| done]. intros h. rewrite queue_put. destruct (decide (wh = h)) as [<- | Hne]; [done |].
      symmetry. apply filter_notin, Hno. congruence.
    - exists st. split; [done |]. split; [| done]. intros h. symmetry. apply filter_notin.
      destruct (decide (h = wh)) as [-> | Hne]; [| by apply Hno]. rewrite Hon. done. }
  unfold wait_return, waiter_at. rewrite Hb, of_option_Some, Done_bind. cbn [onlist]. rewrite E1, Done_bind.
  do 2 eexists. split; [reflexivity |].
  assert (cur st1 = cur st) as Ec by (unfold cur; by rewrite Es).
  set (st' := set_waiters _ st1). assert (forall h, queue_of st' h = filter (fun x => x <> cur st) (queue_of st h)) as Q by done.
  assert (waiters st' = delete (cur st) (waiters st)) as Ew' by (unfold st'; stproj; by rewrite Ec, Ew).
  split; [| split; [by apply running_refl |]].
  - split.
    + unfold st'. stproj. rewrite Es. apply W.
    + unfold st'. stproj. rewrite Es. intros u g. rewrite lookup_insert_Some. intros [[<- _] | [_ H]].
      * by eapply wt_alive. * by eapply wt_alive.
    + intros h. rewrite Q. apply NoDup_filter, W.
    + intros h u. rewrite Q, list_elem_of_filter, Ew', (wt_q _ _ W). split.
      * intros (Hne & g & Hg & Hw & Hx). exists g. rewrite lookup_insert_ne, lookup_delete_ne by done. done.
      * intros (g & Hg & Hw & Hx). apply lookup_delete_Some in Hx as [Hne Hx].
        rewrite lookup_insert_ne in Hg by done. split; [done | eauto].
    + intros u g h Hg Hw. rewrite Ew'. apply lookup_insert_Some in Hg as [[<- <-] | [Hne Hg]]; [congruence |].
      rewrite lookup_delete_ne by done. by eapply wt_w.
    + intros u g h Hg Hw. rewrite Ew'. apply lookup_insert_Some in Hg as [[<- <-] | [Hne Hg]]; [congruence |].
      rewrite lookup_delete_ne by done. unfold st'. stproj. rewrite Es. by eapply wt_ready.
  - split; [done |]. split; [done |]. split; [done |]. destruct b.
    + by rewrite bool_decide_true by tauto.
    + rewrite bool_decide_false; [done |]. rewrite Hon. done.
Qed.

Lemma wait_enter_ok F st wh d f env : waiting F st -> sc_user (sc st) ->
  F !! cur st ≫= waits_on = None -> waits_on f = Some wh ->
  int64_ok (if negb (d =? BMK_SCHED_BLOCK_INFTIME) then d + sc_clock (sc st) else d) = true ->
  Forall (fun r => Forall (sc_alive (sc st)) r.2) env ->
  exists st', wait_enter wh d f env st = Done st' /\ waiting (<[cur st := f]> F) st' /\
    (forall h, queue_of st' h = if decide (wh = h) then queue_of st wh ++ [cur st] else queue_of st h) /\
    mtxs st' = mtxs st /\ rws st' = rws st /\ cvs st' = cvs st /\ current_lwp st' = current_lwp st /\
    frames st' = <[cur st := f]> (frames st).
Proof.
  intros W Hu Ht Hf Hd Henv.
  pose proof (fun h => not_queued F st (cur st) h W Ht) as Hn.
  pose proof (sc_user_alive _ (wt_sc _ _ W) Hu) as Ha.
  set (d' := if negb (d =? BMK_SCHED_BLOCK_INFTIME) then d + sc_clock (sc st) else d) in *.
  destruct (sc_block_ok (sc st) d' env (wt_sc _ _ W) Hu Henv) as (s1 & s2 & E1 & E2 & Hok & Hal & Hrun).
  unfold wait_enter. fold d'. rewrite Hd. cbn [negb]. cbv zeta.
  set (st1 := suspend f _). change (sc st1) with (sc st). rewrite E1, Done_bind, E2, Done_bind.
  eexists. split; [reflexivity |]. set (st' := set_sc s2 st1).
  assert (forall h, queue_of st' h = if decide (wh = h) then queue_of st wh ++ [cur st] else queue_of st h) as Q.
  { intros h. apply (queue_put wh _ (set_waiters _ st) h). }
  assert (waiters st' = <[cur st := Waiter (cur st) true]> (waiters st)) as Ew by done.
  split; [| done]. split.
  - done.
  - intros u g. rewrite lookup_insert_Some. intros [[<- _] | [_ H]]; apply Hal; [done | by eapply wt_alive].
  - intros h. rewrite Q. destruct (decide (wh = h)); [| apply W].
    apply NoDup_app. split; [apply W |]. split; [| apply NoDup_singleton].
    intros x Hx ->%list_elem_of_singleton. by eapply Hn.
  - intros h u. rewrite Q, Ew. destruct (decide (u = cur st)) as [-> | Hne].
    + rewrite !lookup_insert_eq. split.
      * destruct (decide (wh = h)) as [<- | Hh]; [eauto |]. intros Hin. by apply Hn in Hin.
      * intros (g & [= <-] & Hg & _). rewrite decide_True by congruence. rewrite elem_of_app, list_elem_of_singleton. auto.
    + rewrite !lookup_insert_ne by done. rewrite <- (wt_q _ _ W).
      destruct (decide (wh = h)) as [<- | Hh]; [| done]. rewrite elem_of_app, list_elem_of_singleton. tauto.
  - intros u g h. rewrite Ew, lookup_insert_Some. intros [[<- <-] | [Hne Hg]].
    + rewrite lookup_insert_eq. eauto.
    + rewrite lookup_insert_ne by done. by apply (wt_w _ _ W).
  - intros u g h. rewrite Ew, lookup_insert_Some. intros [[<- <-] | [Hne Hg]]; [by rewrite lookup_insert_eq |].
    rewrite lookup_insert_ne by done. intros Hw Hb. apply Hrun; [by apply not_eq_sym |]. by eapply wt_ready.
Qed.

End props.

(** * The operations of rumpuser_synch.c keep the invariant *)


Section ops.
Context {S : Type} `{!Scheduler S}.
Implicit Types (st : synch S) (F : gmap Z frame) (held : gset (Z * Z)).

(** ** Mutexes *)

Lemma objects_put_mtx F st m x x' : objects F st -> mtxs st !! m = Some x -> objects F (put_mtx m x' st).
Proof.
  intros [O1 O2 O3 O4] Hm. split; try done. intros t f m' Hf Hu. stproj.
  destruct (decide (m = m')) as [-> | Hne]; [by rewrite lookup_insert_eq |].
  rewrite lookup_insert_ne by done. eauto.
Qed.

Lemma no_lost_put_mtx F st m x' : no_lost F st -> (m_v x' = 0 -> queue_of st (WMtx m) <> [] -> retried F st (WMtx m)) ->
  no_lost F (put_mtx m x' st).
Proof.
  intros [L1 L2] H. split; [| done]. intros m' y. stproj. rewrite lookup_insert_Some.
  intros [[<- <-] | [_ Hy]] Hv Hq; [auto | eauto].
Qed.

Lemma free_unclaimed F held st m x t : owners F held st -> mtxs st !! m = Some x -> m_v x = 0 ->
  ~ claims F held m t.
Proof.
  intros [W1 W2 _] Hm Hv Hc. apply W2 in Hc as (y & Hy & Ho). rewrite Hm in Hy. simplify_eq.
  destruct (W1 m y Hm) as [(_ & E & _) | [E _]]; congruence.
Qed.

(** Taking a free mutex. *)
Lemma take_ok F held st m x l : inv F held st -> mtxs st !! m = Some x -> m_v x = 0 ->
  inv F ({[(m, cur st)]} ∪ held) (put_mtx m (Mtx 1 (m_flags x) l (Some (cur st))) st).
Proof.
  intros [I1 I2 I3 I4] Hm Hv. pose proof (fun t => free_unclaimed F held st m x t I3 Hm Hv) as Hfree. split.
  - by eapply waiting_ext; [.. | exact I1].
  - by eapply objects_put_mtx.
  - destruct I3 as [W1 W2 W3]. split; stproj.
    + intros m' y. rewrite lookup_insert_Some. intros [[<- <-] | [_ Hy]]; [right; cbn; eauto | eauto].
    + intros m' t. unfold claims in *. rewrite elem_of_union, elem_of_singleton.
      destruct (decide (m = m')) as [<- | Hne].
      * rewrite lookup_insert_eq. split.
        -- intros [[[= ->] | H] | H]; [eexists; done | | ]; exfalso; eapply Hfree; eauto.
        -- intros (y & [= <-] & [= <-]). auto.
      * rewrite lookup_insert_ne by done. rewrite <- W2. naive_solver.
    + intros m' t Ho. rewrite elem_of_union, elem_of_singleton. intros [[= -> ->] | H]; [| by eapply W3].
      eapply Hfree. right. exact Ho.
  - by apply no_lost_put_mtx.
Qed.

Lemma tryenter_spec F held st m x : inv F held st -> mtxs st !! m = Some x -> ~ claims F held m (cur st) ->
  rumpuser_mutex_tryenter m st =
    Done (if m_v x =? 0 then (0, put_mtx m (Mtx 1 (m_flags x) (rumpuser_curlwp st) (Some (cur st))) st)
          else (BMK_EBUSY, st)).
Proof.
  intros I Hm Hc. unfold rumpuser_mutex_tryenter, mtx_at. rewrite Hm, of_option_Some, Done_bind.
  rewrite bool_decide_false; [by destruct (m_v x =? 0) |].
  intros Ho. apply Hc. apply (ow_claim _ _ _ (iv_own _ _ _ I)). eauto.
Qed.

(** Releasing a mutex, and the wake-up that follows. *)
Lemma release_owners F held st m x fl : owners F held st -> mtxs st !! m = Some x -> (m, cur st) ∈ held ->
  owners F (held ∖ {[(m, cur st)]}) (put_mtx m (Mtx 0 fl 0 None) st).
Proof.
  intros [W1 W2 W3] Hm Hh.
  assert (forall t, claims F held m t -> t = cur st) as Hone.
  { intros t Hc. assert (claims F held m (cur st)) as Hc' by (by left).
    apply W2 in Hc as (y & Hy & Ey), Hc' as (z & Hz & Ez). congruence. }
  split; stproj.
  - intros m' y. rewrite lookup_insert_Some. intros [[<- <-] | [_ Hy]]; [by left | eauto].
  - intros m' t. unfold claims in *. destruct (decide (m = m')) as [<- | Hne].
    + rewrite lookup_insert_eq. split; [| by intros (y & [= <-] & [=])].
      intros [H | H]; exfalso.
      * apply elem_of_difference in H as [H Hn]. rewrite elem_of_singleton in Hn. apply Hn. f_equal. auto.
      * assert (t = cur st) as -> by auto. by apply (W3 m (cur st)).
    + rewrite lookup_insert_ne by done. rewrite <- W2, elem_of_difference, elem_of_singleton. naive_solver.
  - intros m' t Ho Hin. apply elem_of_difference in Hin as [Hin _]. by apply (W3 m' t).
Qed.

Lemma woken_retries F st wh w rest : waiting F st -> queue_of st wh = w :: rest ->
  match wh with WMtx _ | WWrite _ => True | _ => False end ->
  exists f, F !! w = Some f /\ wants f = Some wh /\ w ∉ rest.
Proof.
  intros W Hq Hk. assert (w ∈ queue_of st wh) as Hin by (rewrite Hq; by left).
  apply (wt_q _ _ W) in Hin as (f & Hf & Hw & _). exists f. split; [done |].
  apply waits_wants in Hw. pose proof (wt_nd _ _ W wh) as Hnd. rewrite Hq in Hnd. apply NoDup_cons in Hnd as [? _].
  by destruct wh.
Qed.

Lemma no_lost_queues F st st' : no_lost F st -> mtxs st' = mtxs st -> rws st' = rws st ->
  (forall h, match h with WCv _ => True | _ => queue_of st' h = queue_of st h end) -> no_lost F st'.
Proof.
  intros [L1 L2] E1 E2 Q. split; intros a x; rewrite ?E1, ?E2; unfold retried.
  - pose proof (Q (WMtx a)) as Qa. cbn in Qa. rewrite Qa. apply L1.
  - pose proof (Q (WWrite a)) as Qa. cbn in Qa. rewrite Qa. pose proof (Q (WRead a)) as Qb. cbn in Qb. rewrite Qb. apply L2.
Qed.

Lemma exit_mutex_ok F held st m : inv F held st -> sc_user (sc st) -> (m, cur st) ∈ held ->
  exists st', rumpuser_mutex_exit m st = Done st' /\ inv F (held ∖ {[(m, cur st)]}) st' /\ running st st' /\
    rws st' = rws st /\ cvs st' = cvs st /\ current_lwp st' = current_lwp st /\ frames st' = frames st /\
    (exists x x', mtxs st !! m = Some x /\ m_flags x' = m_flags x /\ mtxs st' = <[m := x']> (mtxs st)) /\
    sc_ok (sc st').
Proof.
  intros [I1 I2 I3 I4] Hu Hh.
  assert (claims F held m (cur st)) as Hc by (by left).
  destruct (proj1 (ow_claim _ _ _ I3 m (cur st)) Hc) as (x & Hm & Ho).
  assert (m_v x = 1) as Hv by (destruct (ow_v _ _ _ I3 m x Hm) as [(_ & ? & _) | [? _]]; congruence).
  unfold rumpuser_mutex_exit, mtx_at. rewrite Hm, of_option_Some, Done_bind, Hv, bmk_assert_true, Done_bind.
  set (st1 := put_mtx m _ st). assert (waiting F st1) as W1 by (by eapply waiting_ext; [.. | exact I1]).
  destruct (wakeup_one_ok F st1 (WMtx m) W1 Hu) as (st2 & E & W2 & R & Q & (E1 & E2 & E3 & E4 & E5) & _).
  exists st2. split; [done |]. split.
  2: { do 5 (split; [done |]). split; [| apply W2].
    exists x, (Mtx 0 (m_flags x) 0 None). split; [done |]. split; [done |]. exact E1. }
  split; [done | | |].
  - eapply objects_ext; [by split_and! |]. by eapply objects_put_mtx.
  - eapply owners_ext; [exact E1 |]. by eapply release_owners.
  - change (queue_of st1) with (queue_of st) in Q. destruct I4 as [L1 L2].
    split; intros a y; unfold retried; rewrite !Q, ?E1, ?E2; unfold st1; stproj.
    + rewrite lookup_insert_Some. intros [[<- <-] | [Hne Hy]] Hz Hq.
      * rewrite decide_True in Hq by done. rewrite decide_True by done. destruct (queue_of st (WMtx m)) as [| w rest] eqn:Eq; [done |].
        destruct (woken_retries F st (WMtx m) w rest I1 Eq) as (f & Hf & Hw & Hn); [done |]. exists w, f. done.
      * rewrite decide_False in Hq by congruence. rewrite decide_False by congruence. exact (L1 a y Hy Hz Hq).
    + rewrite !decide_False by done. apply L2.
Qed.

(** ** Reader/writer locks *)

Lemma put_rw_waiting F st r x : waiting F st -> waiting F (put_rw r x st).
Proof. intros W. by eapply waiting_ext; [.. | exact W]. Qed.

Lemma put_rw_objects F st r x x' : objects F st -> rws st !! r = Some x -> objects F (put_rw r x' st).
Proof.
  intros [O1 O2 O3 O4] Hr. split; try done. intros t f r' Hf Hu. stproj. destruct (O2 t f r' Hf Hu) as [H1 H2].
  split; [| done]. destruct (decide (r = r')) as [-> | Hne]; [by rewrite lookup_insert_eq |].
  by rewrite lookup_insert_ne.
Qed.

Lemma put_rw_ok F held st r x x' : inv F held st -> rws st !! r = Some x -> (rw_o x' = 0 -> rw_o x = 0) ->
  inv F held (put_rw r x' st).
Proof.
  intros [I1 I2 I3 I4] Hr Ho. split.
  - by apply put_rw_waiting.
  - by eapply put_rw_objects.
  - by eapply owners_ext; [| exact I3].
  - destruct I4 as [L1 L2]. split; [done |]. intros r' y. stproj. rewrite lookup_insert_Some.
    intros [[<- <-] | [_ Hy]] Hz Hq; [| by eauto]. apply (L2 r x Hr); auto.
Qed.

Lemma rw_exit_ok F held st r x : inv F held st -> sc_user (sc st) -> rws st !! r = Some x ->
  exists st', rumpuser_rw_exit r st = Done st' /\ inv F held st' /\ running st st' /\ frames st' = frames st.
Proof.
  intros [I1 I2 I3 I4] Hu Hr. unfold rumpuser_rw_exit, rw_at. rewrite Hr, of_option_Some, Done_bind. cbv zeta.
  set (x' := if negb (rw_o x =? 0) then _ else _). set (st1 := put_rw r x' st).
  assert (rw_o x' = 0) as Hz.
  { unfold x'. destruct (Z.eqb_spec (rw_o x) 0); done. }
  assert (rws st1 !! r = Some x') as Hr1 by apply lookup_insert_eq. rewrite Hr1, of_option_Some, Done_bind, Hz.
  assert (waiting F st1) as W1 by (by apply put_rw_waiting).
  assert (objects F st1) as O1 by (by eapply put_rw_objects).
  assert (owners F held st1) as C1 by (by eapply owners_ext; [| exact I3]).
  change (queue_of st1) with (queue_of st). change (0 =? 0) with true. rewrite andb_true_r.
  (* It remains to see that nobody is forgotten. *)
  assert (forall st', waiting F st' -> same_objects st1 st' ->
    (forall h, h <> WWrite r -> h <> WRead r -> queue_of st' h = queue_of st h) ->
    (queue_of st' (WWrite r) <> [] \/ queue_of st' (WRead r) <> [] -> retried F st' (WWrite r)) ->
    inv F held st') as Hinv.
  { intros st' W' O' Q Hre. pose proof O' as (E1 & E2 & _). split; [done | by eapply objects_ext |
      by eapply owners_ext; [exact E1 |] |].
    destruct I4 as [L1 L2]. split; intros a y; rewrite ?E1, ?E2; unfold st1; stproj.
    - unfold retried. rewrite Q by done. apply L1.
    - rewrite lookup_insert_Some. intros [[<- <-] | [Hne Hy]] Hz' Hq; [auto |].
      unfold retried. rewrite !Q in Hq by congruence. rewrite Q by congruence. exact (L2 a y Hy Hz' Hq). }
  destruct (bool_decide_reflect (queue_of st (WWrite r) = [])) as [Ew | Ew]; cbn [negb].
  - destruct (bool_decide_reflect (queue_of st (WRead r) = [])) as [Er | Er]; cbn [negb].
    + exists st1. split; [done |]. split; [| split; [by apply running_refl | done]]. apply Hinv; try done. by intros [? | ?].
    + destruct (wakeup_all_ok F st1 (WRead r) W1 Hu) as (st2 & E & W2 & R & Q & O & _).
      exists st2. split; [done |]. split; [| split; [done | apply O]]. apply Hinv; try done.
      * intros h H1 H2. rewrite Q. by rewrite decide_False.
      * rewrite !Q. rewrite decide_False, decide_True by done. change (queue_of st1) with (queue_of st). by intros [? | ?].
  - destruct (wakeup_one_ok F st1 (WWrite r) W1 Hu) as (st2 & E & W2 & R & Q & O & _).
    exists st2. split; [done |]. split; [| split; [done | apply O]]. apply Hinv; try done.
    + intros h H1 H2. rewrite Q. by rewrite decide_False.
    + intros _. unfold retried. rewrite Q, decide_True by done. change (queue_of st1) with (queue_of st).
      destruct (queue_of st (WWrite r)) as [| w rest] eqn:Eq; [done |].
      destruct (woken_retries F st (WWrite r) w rest I1 Eq) as (f & Hf & Hw & Hn); [done |]. exists w, f. done.
Qed.

(** ** Waiting *)

(** When a thread may go on a queue. *)
Definition must_wait st (h : waithead) : Prop :=
  match h with
  | WRead r => taken st (WWrite r) \/ queue_of st (WWrite r) <> []
  | _ => taken st h
  end.

Lemma wait_enter_inv F held st f0 f h d env : inv F held st -> sc_user (sc st) -> F !! cur st = Some f0 ->
  waits_on f0 = None -> waits_on f = Some h -> uses_cv f0 = uses_cv f -> owned f0 = None -> owned f = None ->
  (forall h', wants f0 = Some h' -> taken st h') -> uses_mtx f0 = uses_mtx f -> uses_rw f0 = uses_rw f ->
  must_wait st h ->
  int64_ok (if negb (d =? BMK_SCHED_BLOCK_INFTIME) then d + sc_clock (sc st) else d) = true ->
  Forall (fun r => Forall (sc_alive (sc st)) r.2) env ->
  exists st', wait_enter h d f env st = Done st' /\ inv (<[cur st := f]> F) held st' /\
    frames st' = <[cur st := f]> (frames st).
Proof.
  intros [I1 I2 I3 I4] Hu HF Hw0 Hw Hcv Ho0 Ho Hwa Hm Hr Hmust Hd Henv.
  destruct (wait_enter_ok F st h d f env I1 Hu) as (st' & E & W' & Q & E1 & E2 & E3 & E4 & E5); try done.
  { by rewrite HF. }
  exists st'. split; [done |]. split; [| done]. split; [done | | |].
  - assert (objects (<[cur st := f]> F) st) as [P1 P2 P3 P4].
    { apply (objects_move F st (cur st) (Some f)); [done | by rewrite HF | |]; cbn.
      - intros m Hf. eapply (ob_mtx _ _ I2); [exact HF | congruence].
      - intros m Hf. eapply (ob_rw _ _ I2); [exact HF | congruence]. }
    split; rewrite ?E1, ?E2, ?E3, ?E4; done.
  - eapply owners_ext; [exact E1 |]. apply (owners_move F held held st (cur st) (Some f) I3); try done; cbn; rewrite Ho.
    + unfold claims. intros m. rewrite HF. cbn. by rewrite Ho0.
    + done.
  - assert (no_lost (<[cur st := f]> F) st) as [L1 L2].
    { apply (no_lost_move F st (cur st) (Some f)); [done |]. rewrite HF. cbn. auto. }
    assert (forall h', h' <> h -> retried (<[cur st := f]> F) st h' -> retried (<[cur st := f]> F) st' h') as Hk.
    { intros h' Hne. unfold retried. rewrite Q. by rewrite decide_False by congruence. }
    split; intros a x; rewrite ?E1, ?E2; intros Hx Hz Hq.
    + destruct (decide (h = WMtx a)) as [-> | Hne]; [by destruct (Hmust x Hx) |].
      apply Hk; [congruence |]. rewrite Q, decide_False in Hq by done. eauto.
    + destruct (decide (h = WWrite a)) as [-> | Hne]; [by destruct (Hmust x Hx) |].
      apply Hk; [congruence |]. apply (L2 a x Hx Hz). rewrite !Q in Hq. rewrite decide_False in Hq by done.
      destruct (decide (h = WRead a)) as [-> | Hne']; [| done].
      destruct Hmust as [Ht | Ht]; [by destruct (Ht x Hx) | by left].
Qed.

Lemma wait_return_inv F held st h f f' : inv F held st -> sc_user (sc st) -> F !! cur st = Some f ->
  waits_on f = Some h -> waits_on f' = None -> uses_cv f = uses_cv f' -> owned f = None -> owned f' = None ->
  wants f = wants f' -> uses_mtx f = uses_mtx f' -> uses_rw f = uses_rw f' ->
  exists rv st', wait_return h st = Done (rv, st') /\ inv (<[cur st := f']> F) held st' /\ running st st' /\
    same_objects st st' /\ sc st' = sc st /\
    rv = (if bool_decide (cur st ∈ queue_of st h) then BMK_ETIMEDOUT else 0).
Proof.
  intros [I1 I2 I3 I4] Hu HF Hw Hw' Hcv Ho Ho' Hwa Hm Hr.
  destruct (wait_return_ok F st h f f' I1 Hu HF Hw Hw') as (rv & st' & E & W' & R & Q & O & Es & Hrv).
  exists rv, st'. split; [done |]. split; [| done]. pose proof O as (E1 & E2 & E3 & E4 & E5). split; [done | | |].
  - eapply objects_ext; [exact O |]. apply (objects_move F st (cur st) (Some f')); [done | by rewrite HF | |]; cbn.
    + intros m Hf. eapply (ob_mtx _ _ I2); [exact HF | congruence].
    + intros m Hf. eapply (ob_rw _ _ I2); [exact HF | congruence].
  - eapply owners_ext; [exact E1 |]. apply (owners_move F held held st (cur st) (Some f') I3); try done; cbn; rewrite Ho'.
    + unfold claims. intros m. rewrite HF. cbn. by rewrite Ho.
    + done.
  - assert (no_lost (<[cur st := f']> F) st) as [L1 L2].
    { apply (no_lost_move F st (cur st) (Some f')); [done |]. rewrite HF. cbn. rewrite Hwa. auto. }
    assert (forall h', queue_of st' h' <> [] -> queue_of st h' <> []) as Hq'.
    { intros h'. rewrite Q. destruct (queue_of st h'); done. }
    assert (forall h', retried (<[cur st := f']> F) st h' -> retried (<[cur st := f']> F) st' h') as Hk.
    { intros h' (t & g & Hg & Hgw & Hn). exists t, g. split; [done |]. split; [done |].
      rewrite Q, list_elem_of_filter. tauto. }
    split; intros a x; rewrite ?E1, ?E2; intros Hx Hz Hq; apply Hk; [eauto |].
    apply (L2 a x Hx Hz). destruct Hq as [? | ?]; [left | right]; auto.
Qed.

End ops.
