(* ===== verification/SynchMach.v ===== *)
(** * Threads using locks and condition variables

    The machine of the calls of rumpuser_synch.c: the current thread calls an
    operation, or returns from the point at which it was suspended, or the
    scheduler does something else.  [held] records, from the point of view of
    the callers, which thread has been given which mutex. *)

From S2P Require Import Prelude Sched SchedIface SchedProps Synch SynchInv SynchProps.

Inductive op :=
  | OMutexInit (m flags : Z) | OMutexEnter (m : Z) | OMutexEnterNowrap (m : Z) | OMutexTryenter (m : Z)
  | OMutexExit (m : Z) | OMutexDestroy (m : Z)
  | ORwInit (r : Z) | ORwEnter (lk : rumprwlock) (r : Z) | ORwTryenter (lk : rumprwlock) (r : Z)
  | ORwExit (r : Z) | ORwDestroy (r : Z) | ORwDowngrade (r : Z) | ORwTryupgrade (r : Z)
  | OCvInit (c : Z) | OCvDestroy (c : Z) | OCvWait (c m : Z) | OCvWaitNowrap (c m : Z)
  | OCvTimedwait (c m sec nsec : Z) | OCvSignal (c : Z) | OCvBroadcast (c : Z)
  | OLwp (o : rumplwpop) (l : Z).

(** The caller's view of [held] after a call or its return. *)
Definition held_call (o : op) (rv : option Z) (t : Z) (held : gset (Z * Z)) : gset (Z * Z) :=
  match o with
  | OMutexEnter m | OMutexTryenter m | OMutexEnterNowrap m =>
      if decide (rv = Some 0) then {[(m, t)]} ∪ held else held
  | OMutexExit m | OCvWait _ m | OCvWaitNowrap _ m | OCvTimedwait _ m _ _ => held ∖ {[(m, t)]}
  | _ => held
  end.
Definition held_resume (f : option frame) (rv : option Z) (t : Z) (held : gset (Z * Z)) : gset (Z * Z) :=
  match rv, f ≫= uses_mtx with
  | Some _, Some m => {[(m, t)]} ∪ held
  | _, _ => held
  end.

Section mach.
Context {S : Type} `{!Scheduler S} (SPIN KMUTEX : Z).
Implicit Types (st : synch S) (F : gmap Z frame) (held : gset (Z * Z)).

Definition void (m : outcome (synch S)) : outcome (option Z * synch S) := st ← m; Done (Some 0, st).
Definition value (m : outcome (Z * synch S)) : outcome (option Z * synch S) := '(rv, st) ← m; Done (Some rv, st).

Definition call (o : op) (env : list reply) st : outcome (option Z * synch S) :=
  match o with
  | OMutexInit m flags => void (rumpuser_mutex_init m flags st)
  | OMutexEnter m => rumpuser_mutex_enter m st
  | OMutexEnterNowrap m => void (rumpuser_mutex_enter_nowrap m st)
  | OMutexTryenter m => value (rumpuser_mutex_tryenter m st)
  | OMutexExit m => void (rumpuser_mutex_exit m st)
  | OMutexDestroy m => void (rumpuser_mutex_destroy m st)
  | ORwInit r => void (rumpuser_rw_init r st)
  | ORwEnter lk r => rumpuser_rw_enter lk r st
  | ORwTryenter lk r => value (rumpuser_rw_tryenter lk r st)
  | ORwExit r => void (rumpuser_rw_exit r st)
  | ORwDestroy r => void (rumpuser_rw_destroy r st)
  | ORwDowngrade r => void (rumpuser_rw_downgrade r st)
  | ORwTryupgrade r => value (rumpuser_rw_tryupgrade r st)
  | OCvInit c => void (rumpuser_cv_init c st)
  | OCvDestroy c => void (rumpuser_cv_destroy c st)
  | OCvWait c m => rumpuser_cv_wait c m st
  | OCvWaitNowrap c m => rumpuser_cv_wait_nowrap c m env st
  | OCvTimedwait c m sec nsec => rumpuser_cv_timedwait c m sec nsec st
  | OCvSignal c => void (rumpuser_cv_signal c st)
  | OCvBroadcast c => void (rumpuser_cv_broadcast c st)
  | OLwp o l => void (rumpuser_curlwpop o l st)
  end.

Record sys := Sys { sy : synch S; held_of : gset (Z * Z) }.
Inductive sevent := VCall (o : op) (env : list reply) | VResume (nlocks : Z) (env : list reply) | VSched (s : S).

Definition sstep (e : sevent) (M : sys) : outcome (option Z * sys) :=
  let st := sy M in
  match e with
  | VCall o env => '(rv, st') ← call o env st; Done (rv, Sys st' (held_call o rv (cur st) (held_of M)))
  | VResume nl env =>
      '(rv, st') ← resume SPIN KMUTEX nl env st;
      Done (rv, Sys st' (held_resume (frames st !! cur st) rv (cur st) (held_of M)))
  | VSched s => Done (None, Sys (set_sc s st) (held_of M))
  end.

(** What the callers have to respect: objects are initialised before use and
    not destroyed while in use, a thread releases the mutexes it has been
    given and does not take one twice, writers have an lwp, and deadlines do
    not overflow.  A thread that has the CPU back inside [wait] does not block
    anywhere else before [wait] returns. *)
Definition op_valid (o : op) (M : sys) : Prop :=
  let st := sy M in let t := cur st in
  match o with
  | OMutexInit m _ => m <> 0 /\ mtxs st !! m = None
  | OMutexEnter m | OMutexTryenter m | OMutexEnterNowrap m => is_Some (mtxs st !! m) /\ (m, t) ∉ held_of M
  | OMutexExit m => (m, t) ∈ held_of M
  | OMutexDestroy m => is_Some (mtxs st !! m) /\ (forall u, (m, u) ∉ held_of M) /\
      (forall u f, frames st !! u = Some f -> uses_mtx f <> Some m)
  | ORwInit r => r <> 0 /\ rws st !! r = None
  | ORwEnter _ r | ORwTryenter _ r | ORwTryupgrade r => is_Some (rws st !! r) /\ rumpuser_curlwp st <> 0
  | ORwExit r => is_Some (rws st !! r)
  | ORwDestroy r => is_Some (rws st !! r) /\ (forall u f, frames st !! u = Some f -> uses_rw f <> Some r)
  | ORwDowngrade r => exists x, rws st !! r = Some x /\ rw_o x = rumpuser_curlwp st
  | OCvInit c => c <> 0 /\ cvs st !! c = None
  | OCvDestroy c => is_Some (cvs st !! c) /\ (forall u f, frames st !! u = Some f -> uses_cv f <> Some c)
  | OCvWait c m | OCvWaitNowrap c m => is_Some (cvs st !! c) /\ (m, t) ∈ held_of M
  | OCvTimedwait c m sec nsec => is_Some (cvs st !! c) /\ (m, t) ∈ held_of M /\ int64_ok (sec * 1000 * 1000) = true
  | OCvSignal c | OCvBroadcast c => is_Some (cvs st !! c)
  | OLwp RUMPUSER_LWP_SET _ => rumpuser_curlwp st = 0
  | OLwp RUMPUSER_LWP_CLEAR l => rumpuser_curlwp st = l
  | OLwp _ _ => True
  end.

Definition svalid (e : sevent) (M : sys) : Prop :=
  let st := sy M in
  match e with
  | VCall o env => sc_user (sc st) /\ frames st !! cur st = None /\
      Forall (fun r => Forall (sc_alive (sc st)) r.2) env /\ op_valid o M
  | VResume _ env => sc_user (sc st) /\ Forall (fun r => Forall (sc_alive (sc st)) r.2) env /\
      match frames st !! cur st with
      | Some (FCvUnsched _ _ d) => d <> BMK_SCHED_BLOCK_INFTIME -> int64_ok (d + sc_clock (sc st)) = true
      | Some _ => True
      | None => False
      end
  | VSched s => sc_run (sc st) s /\
      (frames st !! cur st ≫= waits_on <> None -> sc_runnable (sc st) (cur st) -> sc_runnable s (cur st))
  end.

(** A suspended call on a mutex has not been given it (any more). *)
Definition unheld F held : Prop := forall m t, F !! t ≫= uses_mtx = Some m -> (m, t) ∉ held.

Record sys_ok (M : sys) : Prop := {
  so_inv : inv (frames (sy M)) (held_of M) (sy M);
  so_unheld : unheld (frames (sy M)) (held_of M);
}.

(** The one way a call may stop the machine: [rumpuser_mutex_enter_nowrap]
    finds the mutex in the hands of another thread. *)
Definition nowrap_of (e : sevent) (M : sys) : option Z :=
  match e with
  | VCall (OMutexEnterNowrap m) _ => Some m
  | VResume _ _ =>
      match frames (sy M) !! cur (sy M) with
      | Some (FCvWait _ m _) | Some (FCvNowrap _ m) | Some (FCvSchedSpin _ m _) => Some m
      | _ => None
      end
  | _ => None
  end.

Definition nowrap_busy (e : sevent) (M : sys) : Prop :=
  exists m t, nowrap_of e M = Some m /\ t <> cur (sy M) /\ claims (frames (sy M)) (held_of M) m t.

(** ** Shared lemmas *)

Lemma inv_ext F held st st' : sc st' = sc st -> heads st' = heads st -> waiters st' = waiters st ->
  mtxs st' = mtxs st -> rws st' = rws st -> cvs st' = cvs st -> current_lwp st' = current_lwp st ->
  inv F held st -> inv F held st'.
Proof.
  intros E1 E2 E3 E4 E5 E6 E7 [I1 I2 I3 I4]. split.
  - by eapply waiting_ext; [.. | exact I1].
  - destruct I2. split; rewrite ?E4, ?E5, ?E6, ?E7; done.
  - by eapply owners_ext; [| exact I3].
  - by eapply no_lost_ext; [.. | exact I4].
Qed.

Lemma unheld_move F held held' t o : unheld F held ->
  (forall m u, u <> t -> (m, u) ∈ held' -> (m, u) ∈ held) ->
  (forall m, o ≫= uses_mtx = Some m -> (m, t) ∉ held') -> unheld (move t o F) held'.
Proof.
  intros H H1 H2 m u. rewrite attr_move. destruct (decide (t = u)) as [<- | Hne]; [apply H2 |].
  intros Hu Hin. eapply H; [exact Hu |]. apply H1; [congruence | done].
Qed.

Lemma unheld_held F held held' t : unheld F held -> F !! t = None ->
  (forall m u, u <> t -> (m, u) ∈ held' -> (m, u) ∈ held) -> unheld F held'.
Proof.
  intros H Ht H1 m u Hu Hin. destruct (decide (u = t)) as [-> | Hne]; [by rewrite Ht in Hu |].
  eapply H; [exact Hu | auto].
Qed.

Lemma unheld_unclaimed F held m t : unheld F held -> F !! t ≫= uses_mtx = Some m ->
  F !! t ≫= owned = None -> ~ claims F held m t.
Proof. intros H Hu Ho [Hh | Hc]; [by eapply H | congruence]. Qed.

Lemma alive_cur F held st : inv F held st -> sc_user (sc st) -> sc_alive (sc st) (cur st).
Proof. intros I Hu. apply sc_user_alive; [apply I | done]. Qed.

Lemma busy_claimed F held st m x : owners F held st -> mtxs st !! m = Some x -> m_v x <> 0 ->
  exists t, claims F held m t /\ m_bmk_o x = Some t.
Proof.
  intros [W1 W2 _] Hm Hv. destruct (W1 m x Hm) as [(? & _) | (_ & t & Ht)]; [done |].
  exists t. split; [| done]. apply W2. eauto.
Qed.

(** ** The loops *)

Lemma enter_loop_ok F held st m nl env : inv F held st -> sc_user (sc st) ->
  F !! cur st = Some (FEnterUnsched m) -> (m, cur st) ∉ held ->
  Forall (fun r => Forall (sc_alive (sc st)) r.2) env ->
  exists st' f', mutex_enter_loop m nl env st = Done (None, st') /\ inv (<[cur st := f']> F) held st' /\
    uses_mtx f' = Some m /\ frames st' = <[cur st := f']> (frames st).
Proof.
  intros I Hu HF Hh Henv. destruct (ob_mtx _ _ (iv_obj _ _ _ I) _ _ m HF) as [x Hm]; [done |].
  assert (~ claims F held m (cur st)) as Hc.
  { unfold claims. rewrite HF. cbn. naive_solver. }
  unfold mutex_enter_loop. rewrite (tryenter_spec F held st m x I Hm Hc), Done_bind.
  destruct (Z.eqb_spec (m_v x) 0) as [Hv | Hv].
  - change (negb (0 =? 0)) with false. cbv iota. pose proof (take_ok F held st m x (rumpuser_curlwp st) I Hm Hv) as I1.
    set (st1 := put_mtx m _ st) in *.
    eexists. exists (FEnterSched m). split; [reflexivity |]. split; [| by split].
    apply (inv_ext _ _ st1); try done. eapply (inv_move _ _ held st1 (cur st) (Some (FEnterSched m)) I1);
      rewrite ?HF; cbn; try done.
    + exact (alive_cur F held st I Hu).
    + intros m'. unfold claims. rewrite HF. cbn. set_solver.
    + set_solver.
    + intros m' [= <-]. done.
    + intros h [= <-]. right. cbn. intros y. unfold st1. stproj. rewrite lookup_insert_eq. by intros [= <-].
    + intros m' [= <-]. unfold st1. stproj. rewrite lookup_insert_eq. eauto.
  - change (negb (BMK_EBUSY =? 0)) with true. cbv iota.
    assert (taken st (WMtx m)) as Ht by (cbn; intros y Hy; congruence).
    destruct (wait_enter_inv F held st (FEnterUnsched m) (FEnterWait m nl) (WMtx m) BMK_SCHED_BLOCK_INFTIME env)
      as (st' & E & I' & Ef); try done.
    { by intros h' [= <-]. }
    rewrite E, Done_bind. exists st', (FEnterWait m nl). done.
Qed.

Lemma rw_try_ok F held st lk r x : inv F held st -> rws st !! r = Some x -> rumpuser_curlwp st <> 0 ->
  exists st', inv F held st' /\ sc st' = sc st /\ frames st' = frames st /\ current_lwp st' = current_lwp st /\
    is_Some (rws st' !! r) /\
    (rumpuser_rw_tryenter lk r st = Done (0, st') /\ (lk = RUMPUSER_RW_WRITER -> taken st' (WWrite r)) \/
     rumpuser_rw_tryenter lk r st = Done (BMK_EBUSY, st') /\ st' = st /\ must_wait st (rw_queue lk r) /\
       (lk = RUMPUSER_RW_WRITER -> taken st' (WWrite r))).
Proof.
  intros I Hr Hl. unfold rumpuser_rw_tryenter, rw_at. rewrite Hr, of_option_Some, Done_bind.
  destruct lk; destruct (Z.eqb_spec (rw_o x) 0) as [Ho | Ho]; cbn [andb].
  - destruct (bool_decide_reflect (queue_of st (WWrite r) = [])) as [Eq | Eq].
    + exists (put_rw r (Rw (rw_v x + 1) (rw_o x)) st). split; [by eapply put_rw_ok |].
      stproj. rewrite lookup_insert_eq. do 3 (split; [done |]). split; [eauto |]. by left.
    + exists st. do 4 (split; [done |]). split; [eauto |]. right. split; [done |]. split; [done |]. split; [| done]. by right.
  - exists st. do 4 (split; [done |]). split; [eauto |]. right. split; [done |]. split; [done |]. split; [| done].
    left. cbn. intros y Hy. congruence.
  - exists (put_rw r (Rw (rw_v x) (rumpuser_curlwp st)) st). split; [by eapply put_rw_ok |].
    stproj. rewrite lookup_insert_eq. do 3 (split; [done |]). split; [eauto |]. left. split; [done |].
    intros _. cbn. intros y. rewrite lookup_insert_eq. by intros [= <-].
  - exists st. do 4 (split; [done |]). split; [eauto |]. right. split; [done |]. split; [done |].
    assert (taken st (WWrite r)) as Ht by (cbn; intros y Hy; congruence). by split.
Qed.

Lemma rw_loop_ok F held st lk r nl env : inv F held st -> sc_user (sc st) ->
  F !! cur st = Some (FRwUnsched lk r) -> Forall (fun r => Forall (sc_alive (sc st)) r.2) env ->
  exists st' f', rw_enter_loop lk r nl env st = Done (None, st') /\ inv (<[cur st := f']> F) held st' /\
    uses_mtx f' = None /\ frames st' = <[cur st := f']> (frames st).
Proof.
  intros I Hu HF Henv. destruct (ob_rw _ _ (iv_obj _ _ _ I) _ _ r HF) as [[x Hr] Hl]; [done |].
  destruct (rw_try_ok F held st lk r x I Hr Hl) as (st1 & I1 & Es & Ef & El & Hr1 & H).
  assert (cur st1 = cur st) as Ec by (unfold cur; by rewrite Es).
  unfold rw_enter_loop. destruct H as [(E & Ht) | (E & -> & Hmust & Ht)]; rewrite E, Done_bind.
  - change (negb (0 =? 0)) with false. cbv iota. eexists. exists (FRwSched lk r). split; [reflexivity |].
    split; [| split; [done |]; stproj; unfold cur; stproj; rewrite Ef, Es; done].
    apply (inv_ext _ _ st1); try done. eapply (inv_move _ _ held st1 (cur st) (Some (FRwSched lk r)) I1);
      rewrite ?HF; cbn; try done.
    + rewrite <- Ec. eapply alive_cur; [exact I1 | by rewrite Es].
    + intros m. unfold claims. rewrite HF. cbn. done.
    + intros h Hw. right. destruct lk; [done |]. injection Hw as <-. by apply Ht.
    + intros r' [= <-]. rewrite El. done.
  - change (negb (BMK_EBUSY =? 0)) with true. cbv iota.
    destruct (wait_enter_inv F held st (FRwUnsched lk r) (FRwWait lk r nl) (rw_queue lk r) BMK_SCHED_BLOCK_INFTIME env)
      as (st' & E' & I' & Ef'); try done.
    { intros h' Hw. destruct lk; [done |]. injection Hw as <-. by apply Ht. }
    rewrite E', Done_bind. exists st', (FRwWait lk r nl). done.
Qed.

(** [rumpuser_mutex_enter_nowrap] takes the mutex or stops the machine. *)
Lemma nowrap_ok F held st m x : inv F held st -> mtxs st !! m = Some x -> ~ claims F held m (cur st) ->
  (exists st', rumpuser_mutex_enter_nowrap m st = Done st' /\ inv F ({[(m, cur st)]} ∪ held) st' /\
    sc st' = sc st /\ same_objects (set_mtxs (mtxs st') st) st' /\
    (exists x', mtxs st' = <[m := x']> (mtxs st))) \/
  rumpuser_mutex_enter_nowrap m st = Halt "rumpuser mutex error" /\
    exists t, t <> cur st /\ claims F held m t.
Proof.
  intros I Hm Hc. unfold rumpuser_mutex_enter_nowrap. rewrite (tryenter_spec F held st m x I Hm Hc), Done_bind.
  destruct (Z.eqb_spec (m_v x) 0) as [Hv | Hv].
  - left. eexists. split; [reflexivity |]. split; [by apply take_ok |]. split; [done |]. split; [done |]. eauto.
  - right. split; [done |]. destruct (busy_claimed F held st m x (iv_own _ _ _ I) Hm Hv) as (t & Ht & _).
    exists t. split; [| done]. by intros ->.
Qed.

End mach.

(** * Every event keeps the invariant of the locks *)


Section safe.
Context {S : Type} `{!Scheduler S} (SPIN KMUTEX : Z).
Implicit Types (st : synch S) (F : gmap Z frame) (held : gset (Z * Z)) (M : @sys S).

(** An event returns and keeps the invariant, or stops in [enter_nowrap]. *)
Definition good (e : sevent) M : Prop :=
  (exists rv M', sstep SPIN KMUTEX e M = Done (rv, M') /\ sys_ok M') \/
  sstep SPIN KMUTEX e M = Halt "rumpuser mutex error" /\ nowrap_busy e M.

(** ** Condition variables: entering and leaving *)

Lemma objects_cv_enter F st c n t f : objects F st -> F !! t = None -> uses_cv f = Some c ->
  cvs st !! c = Some n -> (forall m, uses_mtx f = Some m -> is_Some (mtxs st !! m)) -> uses_rw f = None ->
  objects (<[t := f]> F) (put_cv c (n + 1) st).
Proof.
  intros [O1 O2 O3 O4] Ht Hc Hn Hm Hr. split; stproj.
  - intros u g m. rewrite lookup_insert_Some. intros [[<- <-] | [_ H]]; [auto | eauto].
  - intros u g r. rewrite lookup_insert_Some. intros [[<- <-] | [_ H]]; [congruence | eauto].
  - intros u g c' Hg Hc'. destruct (decide (c = c')) as [<- | Hne]; [by rewrite lookup_insert_eq |].
    rewrite lookup_insert_ne by done. apply lookup_insert_Some in Hg as [[<- <-] | [_ H]]; [congruence | eauto].
  - intros c' k. rewrite cvcount_insert_new by done. rewrite lookup_insert_Some. intros [[<- <-] | [Hne Hk]].
    + rewrite decide_True by done. rewrite (O4 c n Hn). lia.
    + rewrite decide_False by congruence. rewrite (O4 c' k Hk). lia.
Qed.

Lemma objects_cv_leave F st c n t f : objects F st -> F !! t = Some f -> uses_cv f = Some c ->
  cvs st !! c = Some n -> objects (delete t F) (put_cv c (n + -1) st).
Proof.
  intros [O1 O2 O3 O4] Ht Hc Hn. split; stproj.
  - intros u g m. rewrite lookup_delete_Some. intros [_ H]. eauto.
  - intros u g r. rewrite lookup_delete_Some. intros [_ H]. eauto.
  - intros u g c'. rewrite lookup_delete_Some. intros [_ Hg] Hc'.
    destruct (decide (c = c')) as [<- | Hne]; [by rewrite lookup_insert_eq |]. rewrite lookup_insert_ne by done. eauto.
  - intros c' k. rewrite lookup_insert_Some. intros [[<- <-] | [Hne Hk]].
    + rewrite (O4 c n Hn), (cvcount_delete c F t f Ht), decide_True by done. lia.
    + rewrite (O4 c' k Hk), (cvcount_delete c' F t f Ht), decide_False by congruence. done.
Qed.

Lemma cv_enter_ok F held held' st c n m f : inv F held st -> sc_user (sc st) -> F !! cur st = None ->
  cvs st !! c = Some n -> is_Some (mtxs st !! m) -> uses_cv f = Some c -> uses_mtx f = Some m ->
  waits_on f = None ->
  (forall m', (m', cur st) ∈ held' \/ owned f = Some m' <-> (m', cur st) ∈ held) ->
  (forall m' u, u <> cur st -> (m', u) ∈ held' <-> (m', u) ∈ held) ->
  (forall m', owned f = Some m' -> (m', cur st) ∉ held') ->
  inv (<[cur st := f]> F) held' (put_cv c (n + 1) st).
Proof.
  intros [I1 I2 I3 I4] Hu HF Hn Hm Hc Hmf Hw H1 H2 H3. split.
  - apply (waiting_ext _ st); try done. apply (waiting_move F st (cur st) (Some f)); try done; [by rewrite HF |].
    apply sc_user_alive; [apply I1 | done].
  - apply objects_cv_enter; try done; [congruence |]. by destruct f.
  - apply (owners_ext _ _ st); [done |]. apply (owners_move F held held' st (cur st) (Some f)); try done.
    intros m'. unfold claims. rewrite HF. cbn. rewrite H1. naive_solver.
  - apply (no_lost_ext _ st); try done. apply (no_lost_move F st (cur st) (Some f)); [done |]. by rewrite HF.
Qed.

(** Leaving a condition variable with its mutex. *)
Lemma cv_leave_ok F held st c m f : inv F held st -> sc_user (sc st) -> F !! cur st = Some f ->
  uses_cv f = Some c -> waits_on f = None -> owned f = None -> (m, cur st) ∈ held ->
  exists st', cv_add c (-1) st = Done st' /\ inv (delete (cur st) F) held st' /\ sc st' = sc st /\
    frames st' = frames st.
Proof.
  intros [I1 I2 I3 I4] Hu HF Hc Hw Ho Hm. destruct (ob_cv _ _ I2 _ _ c HF Hc) as [n Hn].
  unfold cv_add, cv_at. rewrite Hn, of_option_Some, Done_bind. eexists. split; [reflexivity |].
  split; [| done]. split.
  - apply (waiting_ext _ st); try done. apply (waiting_move F st (cur st) None); try done; [by rewrite HF |].
    apply sc_user_alive; [apply I1 | done].
  - by eapply objects_cv_leave.
  - apply (owners_ext _ _ st); [done |]. apply (owners_move F held held st (cur st) None); try done.
    intros m'. unfold claims. rewrite HF. cbn. rewrite Ho. done.
  - apply (no_lost_ext _ st); try done. apply (no_lost_move F st (cur st) None); [done |]. rewrite HF. by destruct f.
Qed.

(** ** Calls that return at once *)

Lemma unheld_same (st' : synch S) F held : frames st' = F -> unheld F held -> unheld (frames st') held.
Proof. by intros ->. Qed.

Lemma call_mutex_init M m fl env : sys_ok M -> svalid (VCall (OMutexInit m fl) env) M ->
  good (VCall (OMutexInit m fl) env) M.
Proof.
  intros [[I1 I2 I3 I4] Hun] (Hu & HF & _ & Hm0 & Hm). set (st := sy M) in *.
  left. cbn [sstep call]. unfold rumpuser_mutex_init. fold st. rewrite (proj2 (Z.eqb_neq m 0) Hm0).
  do 2 eexists. split; [reflexivity |]. split; [| exact Hun]. cbn [sy held_of held_call].
  set (st' := put_queue _ _ _). change (inv (frames st) (held_of M) st').
  assert (queue_of st (WMtx m) = []) as Hq.
  { destruct (queue_of st (WMtx m)) as [| w q] eqn:E; [done |]. exfalso.
    destruct (woken_retries (frames st) st (WMtx m) w q I1 E I) as (f & Hf & Hw & _).
    destruct (ob_mtx _ _ I2 w f m Hf) as [x Hx]; [| congruence]. destruct f as [| | | [] | [] | | | | | |]; cbn in *; congruence. }
  assert (forall h, queue_of st' h = queue_of st h) as Q.
  { intros h. unfold st'. rewrite queue_put. destruct (decide _) as [<- | ?]; [by rewrite Hq | done]. }
  assert (forall m' x, mtxs st !! m' = Some x -> mtxs st' !! m' = Some x) as Hmono.
  { intros m' x Hx. unfold st'. cbn. rewrite lookup_insert_ne; [done |]. congruence. }
  split.
  - destruct I1. split; try done; intros; rewrite ?Q; eauto.
  - destruct I2 as [O1 O2 O3 O4]. split; try done. intros t f m' Hf Hmf. destruct (O1 t f m' Hf Hmf) as [x Hx]. eauto.
  - destruct I3 as [W1 W2 W3]. split; [| | done].
    + intros m' x. unfold st'. cbn. rewrite lookup_insert_Some. intros [[<- <-] | [_ H]]; [by left | eauto].
    + intros m' t. rewrite W2. split; intros (x & Hx & Ho); [eauto |].
      unfold st' in Hx. cbn in Hx. apply lookup_insert_Some in Hx as [[<- <-] | [_ Hx]]; [done | eauto].
  - destruct I4 as [L1 L2]. split; intros a x; unfold retried; rewrite !Q.
    + unfold st'. cbn. rewrite lookup_insert_Some. intros [[<- <-] | [_ H]]; [intros _ []; exact Hq | exact (L1 a x H)].
    + apply L2.
Qed.

Lemma call_mutex_enter M m env : sys_ok M -> svalid (VCall (OMutexEnter m) env) M ->
  good (VCall (OMutexEnter m) env) M.
Proof.
  intros [Hi Hun] (Hu & HF & _ & [x Hm] & Hh). set (st := sy M) in *. left. cbn [sstep call]. fold st.
  assert (~ claims (frames st) (held_of M) m (cur st)) as Hc by (intros [? | H]; [done | by rewrite HF in H]).
  unfold rumpuser_mutex_enter. rewrite (tryenter_spec _ _ st m x Hi Hm Hc), Done_bind.
  destruct (Z.eqb_spec (m_v x) 0) as [Hv | Hv].
  - change (negb (0 =? 0)) with false. cbv iota. rewrite Done_bind. do 2 eexists. split; [reflexivity |].
    cbn [held_call]. rewrite decide_True by done. split; [by apply take_ok |].
    eapply unheld_held; [exact Hun | exact HF |]. set_solver.
  - change (negb (BMK_EBUSY =? 0)) with true. cbv iota. rewrite Done_bind. do 2 eexists. split; [reflexivity |].
    cbn [held_call]. rewrite decide_False by done. split; cbn [sy held_of].
    + apply (inv_ext _ _ st); try done. apply (inv_move _ _ (held_of M) st (cur st) (Some (FEnterUnsched m)) Hi);
        rewrite ?HF; cbn; try done.
      * by eapply alive_cur.
      * intros m'. unfold claims. by rewrite HF.
      * intros m' [= <-]. eauto.
    + apply (unheld_move _ _ _ (cur st) (Some (FEnterUnsched m)) Hun); [done |]. by intros m' [= <-].
Qed.

Lemma call_mutex_tryenter M m env : sys_ok M -> svalid (VCall (OMutexTryenter m) env) M ->
  good (VCall (OMutexTryenter m) env) M.
Proof.
  intros [Hi Hun] (Hu & HF & _ & [x Hm] & Hh). set (st := sy M) in *. left. cbn [sstep call]. fold st.
  assert (~ claims (frames st) (held_of M) m (cur st)) as Hc by (intros [? | H]; [done | by rewrite HF in H]).
  unfold value. rewrite (tryenter_spec _ _ st m x Hi Hm Hc), Done_bind.
  destruct (Z.eqb_spec (m_v x) 0) as [Hv | Hv]; rewrite Done_bind; do 2 eexists; (split; [reflexivity |]); cbn [held_call].
  - rewrite decide_True by done. split; [by apply take_ok |].
    eapply unheld_held; [exact Hun | exact HF |]. set_solver.
  - by rewrite decide_False.
Qed.

Lemma call_mutex_nowrap M m env : sys_ok M -> svalid (VCall (OMutexEnterNowrap m) env) M ->
  good (VCall (OMutexEnterNowrap m) env) M.
Proof.
  intros [Hi Hun] (Hu & HF & _ & [x Hm] & Hh). set (st := sy M) in *. unfold good. cbn [sstep call]. fold st. unfold void.
  assert (~ claims (frames st) (held_of M) m (cur st)) as Hc by (intros [? | H]; [done | by rewrite HF in H]).
  destruct (nowrap_ok _ _ st m x Hi Hm Hc) as [(st' & E & I' & _ & (_ & _ & _ & _ & Ef) & _) | (E & t & Ht & Hct)].
  - left. rewrite E, !Done_bind. do 2 eexists. split; [reflexivity |]. cbn [held_call]. rewrite decide_True by done.
    split; cbn [sy held_of]; rewrite Ef; [exact I' |]. eapply unheld_held; [exact Hun | exact HF |]. set_solver.
  - right. rewrite E. split; [done |]. exists m, t. done.
Qed.

Lemma call_mutex_exit M m env : sys_ok M -> svalid (VCall (OMutexExit m) env) M -> good (VCall (OMutexExit m) env) M.
Proof.
  intros [Hi Hun] (Hu & HF & _ & Hh). set (st := sy M) in *. left. cbn [sstep call]. fold st. unfold void.
  destruct (exit_mutex_ok _ _ st m Hi Hu Hh) as (st' & E & I' & _ & _ & _ & _ & Ef & _).
  rewrite E, !Done_bind. do 2 eexists. split; [reflexivity |]. cbn [held_call].
  split; cbn [sy held_of]; rewrite Ef; [exact I' |]. eapply unheld_held; [exact Hun | exact HF |]. set_solver.
Qed.

Lemma call_mutex_destroy M m env : sys_ok M -> svalid (VCall (OMutexDestroy m) env) M ->
  good (VCall (OMutexDestroy m) env) M.
Proof.
  intros [[I1 I2 I3 I4] Hun] (Hu & HF & _ & [x Hm] & Hh & Hno). set (st := sy M) in *. left. cbn [sstep call]. fold st.
  assert (forall t, ~ claims (frames st) (held_of M) m t) as Hc.
  { intros t [? | H]; [by apply (Hh t) |]. destruct (frames st !! t) as [f |] eqn:E; [| done].
    apply (Hno t f E). by destruct f; cbn in *. }
  assert (queue_of st (WMtx m) = []) as Hq.
  { destruct (queue_of st (WMtx m)) as [| w q] eqn:E; [done |]. exfalso.
    destruct (woken_retries (frames st) st (WMtx m) w q I1 E I) as (f & Hf & Hw & _).
    apply (Hno w f Hf). destruct f as [| | | [] | [] | | | | | |]; cbn in *; congruence. }
  assert (m_o x = 0) as Ho.
  { destruct (ow_v _ _ _ I3 m x Hm) as [(_ & _ & ?) | (Hv & _)]; [done |].
    destruct (busy_claimed _ _ st m x I3 Hm) as (t & Ht & _); [by rewrite Hv |]. by destruct (Hc t). }
  unfold void, rumpuser_mutex_destroy, mtx_at. rewrite Hm, of_option_Some, Done_bind, Hq, Ho.
  rewrite bool_decide_true by done. cbn [andb]. change (0 =? 0) with true. rewrite bmk_assert_true, !Done_bind.
  do 2 eexists. split; [reflexivity |]. split; [| exact Hun]. cbn [sy held_of held_call].
  change (inv (frames st) (held_of M) (set_mtxs (delete m (mtxs st)) st)). split.
  - by eapply waiting_ext; [.. | exact I1].
  - destruct I2 as [O1 O2 O3 O4]. split; try done. intros t f m' Hf Hmf. cbn.
    rewrite lookup_delete_ne; [eauto |]. intros <-. by apply (Hno t f).
  - destruct I3 as [W1 W2 W3]. split; [| | done].
    + intros m' y. cbn. rewrite lookup_delete_Some. intros [_ H]. eauto.
    + intros m' t. rewrite W2. cbn. split; intros (y & Hy & Hb).
      * exists y. rewrite lookup_delete_ne; [done |]. intros <-. apply (Hc t). apply W2. eauto.
      * apply lookup_delete_Some in Hy as [_ Hy]. eauto.
  - destruct I4 as [L1 L2]. split; [| done]. intros m' y. cbn. rewrite lookup_delete_Some. intros [_ H]. by eapply L1.
Qed.

End safe.
