(* ===== verification/SynchStep.v ===== *)
(** * The remaining events: reader/writer locks, condition variables, returns *)

From S2P Require Import Prelude Sched SchedIface SchedProps Synch SynchInv SynchProps SynchMach.

Section step.
Context {S : Type} `{!Scheduler S} (SPIN KMUTEX : Z).
Implicit Types (st : synch S) (F : gmap Z frame) (held : gset (Z * Z)) (M : @sys S).
Local Abbreviation good := (good SPIN KMUTEX).

Lemma empty_queue F st h : waiting F st -> (forall t f, F !! t = Some f -> waits_on f <> Some h) ->
  queue_of st h = [].
Proof.
  intros W Hno. destruct (queue_of st h) as [| w q] eqn:E; [done |]. exfalso.
  assert (w ∈ queue_of st h) as Hin by (rewrite E; by left).
  apply (wt_q _ _ W) in Hin as (f & Hf & Hw & _). by apply (Hno w f).
Qed.

(** An operation that only replaces the state, for a caller without locks. *)
Lemma good_void o env M m st' : sys_ok M -> call o env (sy M) = void m -> m = Done st' ->
  held_call o (Some 0) (cur (sy M)) (held_of M) = held_of M ->
  inv (frames (sy M)) (held_of M) st' -> frames st' = frames (sy M) -> good (VCall o env) M.
Proof.
  intros [_ Hun] Hc Hm Hh I' Ef. left. cbn [sstep]. rewrite Hc, Hm. unfold void. rewrite !Done_bind, Hh.
  do 2 eexists. split; [reflexivity |]. split; cbn [sy held_of]; rewrite Ef; done.
Qed.

Lemma call_rw_init M r env : sys_ok M -> svalid (VCall (ORwInit r) env) M -> good (VCall (ORwInit r) env) M.
Proof.
  intros HM (Hu & HF & _ & Hr0 & Hr). pose proof HM as [[I1 I2 I3 I4] _].
  eapply good_void; [exact HM | reflexivity | unfold rumpuser_rw_init; rewrite (proj2 (Z.eqb_neq r 0) Hr0); reflexivity
    | done | | done].
  set (st := sy M) in *. set (st' := put_queue _ _ _).
  assert (forall t f, frames st !! t = Some f -> uses_rw f <> Some r) as Hno.
  { intros t f Hf Hx. destruct (ob_rw _ _ I2 t f r Hf Hx) as [[x Hx'] _]. congruence. }
  assert (queue_of st (WRead r) = [] /\ queue_of st (WWrite r) = []) as [Q1 Q2].
  { split; apply (empty_queue (frames st)); try done; intros t f Hf Hw; apply (Hno t f Hf);
      destruct f as [| | | | [] | | | | | |]; cbn in *; congruence. }
  assert (forall h, queue_of st' h = queue_of st h) as Q.
  { intros h. unfold st'. rewrite !queue_put. destruct (decide _) as [<- | ?]; [by rewrite Q2 |].
    destruct (decide _) as [<- | ?]; [by rewrite Q1 | done]. }
  split.
  - destruct I1. split; try done; intros; rewrite ?Q; eauto.
  - destruct I2 as [O1 O2 O3 O4]. split; try done. intros t f r' Hf Hrf. destruct (O2 t f r' Hf Hrf) as [Hs Hl].
    split; [| done]. unfold st'. cbn. rewrite lookup_insert_ne; [done |]. intros <-. by apply (Hno t f).
  - by eapply owners_ext; [| exact I3].
  - destruct I4 as [L1 L2]. split; intros a x; unfold retried; rewrite !Q; [apply L1 |].
    unfold st'. cbn. rewrite lookup_insert_Some. intros [[<- <-] | [_ H]]; [| exact (L2 a x H)].
    intros _ [H | H]; congruence.
Qed.

Lemma call_rw_enter M lk r env : sys_ok M -> svalid (VCall (ORwEnter lk r) env) M -> good (VCall (ORwEnter lk r) env) M.
Proof.
  intros [Hi Hun] (Hu & HF & _ & [x Hr] & Hl). set (st := sy M) in *. left. cbn [sstep call]. fold st.
  destruct (rw_try_ok _ _ st lk r x Hi Hr Hl) as (st1 & I1 & Es & Ef & El & Hr1 & H).
  unfold rumpuser_rw_enter. destruct H as [(E & _) | (E & -> & _)]; rewrite E, Done_bind.
  - change (negb (0 =? 0)) with false. cbv iota. rewrite Done_bind. do 2 eexists. split; [reflexivity |].
    split; cbn [sy held_of held_call]; rewrite Ef; done.
  - change (negb (BMK_EBUSY =? 0)) with true. cbv iota. rewrite Done_bind. do 2 eexists. split; [reflexivity |].
    cbn [held_call]. split; cbn [sy held_of].
    + apply (inv_ext _ _ st); try done. apply (inv_move _ _ (held_of M) st (cur st) (Some (FRwUnsched lk r)) Hi);
        rewrite ?HF; cbn; try done.
      * by eapply alive_cur.
      * intros m'. unfold claims. by rewrite HF.
      * by intros r' [= <-].
    + by apply (unheld_move _ _ _ (cur st) (Some (FRwUnsched lk r)) Hun).
Qed.

Lemma call_rw_tryenter M lk r env : sys_ok M -> svalid (VCall (ORwTryenter lk r) env) M ->
  good (VCall (ORwTryenter lk r) env) M.
Proof.
  intros [Hi Hun] (Hu & HF & _ & [x Hr] & Hl). set (st := sy M) in *. left. cbn [sstep call]. fold st.
  destruct (rw_try_ok _ _ st lk r x Hi Hr Hl) as (st1 & I1 & Es & Ef & El & Hr1 & H). unfold value.
  destruct H as [(E & _) | (E & -> & _)]; rewrite E, !Done_bind; do 2 eexists; (split; [reflexivity |]);
    split; cbn [sy held_of held_call]; rewrite ?Ef; done.
Qed.

Lemma call_rw_exit M r env : sys_ok M -> svalid (VCall (ORwExit r) env) M -> good (VCall (ORwExit r) env) M.
Proof.
  intros HM (Hu & HF & _ & [x Hr]). destruct (rw_exit_ok _ _ (sy M) r x (so_inv _ HM) Hu Hr) as (st' & E & I' & _ & Ef).
  by eapply good_void; [exact HM | reflexivity | exact E | ..].
Qed.

Lemma call_rw_destroy M r env : sys_ok M -> svalid (VCall (ORwDestroy r) env) M -> good (VCall (ORwDestroy r) env) M.
Proof.
  intros HM (Hu & HF & _ & [x Hr] & Hno). pose proof (so_inv _ HM) as [I1 I2 I3 I4].
  eapply good_void; [exact HM | reflexivity | unfold rumpuser_rw_destroy, rw_at; rewrite Hr; reflexivity | done | | done].
  split.
  - by eapply waiting_ext; [.. | exact I1].
  - destruct I2 as [O1 O2 O3 O4]. split; try done. intros t f r' Hf Hrf. destruct (O2 t f r' Hf Hrf) as [? ?].
    split; [| done]. cbn. rewrite lookup_delete_ne; [done |]. intros <-. by apply (Hno t f).
  - by eapply owners_ext; [| exact I3].
  - destruct I4 as [L1 L2]. split; [done |]. intros a y. cbn. rewrite lookup_delete_Some. intros [_ H]. by eapply L2.
Qed.

Lemma call_rw_downgrade M r env : sys_ok M -> svalid (VCall (ORwDowngrade r) env) M -> good (VCall (ORwDowngrade r) env) M.
Proof.
  intros HM (Hu & HF & _ & x & Hr & Ho).
  eapply good_void; [exact HM | reflexivity | | done | eapply (put_rw_ok _ _ _ r x (Rw (-1) (rw_o x)));
    [apply HM | exact Hr | done] | done].
  unfold rumpuser_rw_downgrade, rw_at. by rewrite Hr, of_option_Some, Done_bind, Ho, Z.eqb_refl.
Qed.

Lemma call_rw_tryupgrade M r env : sys_ok M -> svalid (VCall (ORwTryupgrade r) env) M ->
  good (VCall (ORwTryupgrade r) env) M.
Proof.
  intros [Hi Hun] (Hu & HF & _ & [x Hr] & Hl). left. cbn [sstep call]. unfold value, rumpuser_rw_tryupgrade, rw_at.
  rewrite Hr, of_option_Some, Done_bind. destruct (rw_v x =? -1); rewrite !Done_bind; do 2 eexists; (split; [reflexivity |]).
  - split; cbn [sy held_of held_call]; [| exact Hun]. by eapply (put_rw_ok _ _ _ r x (Rw 1 (rumpuser_curlwp (sy M)))).
  - done.
Qed.

Lemma call_cv_init M c env : sys_ok M -> svalid (VCall (OCvInit c) env) M -> good (VCall (OCvInit c) env) M.
Proof.
  intros HM (Hu & HF & _ & Hc0 & Hc). pose proof HM as [[I1 I2 I3 I4] _].
  eapply good_void; [exact HM | reflexivity | unfold rumpuser_cv_init; rewrite (proj2 (Z.eqb_neq c 0) Hc0); reflexivity
    | done | | done].
  set (st := sy M) in *. set (st' := put_queue _ _ _).
  assert (forall t f, frames st !! t = Some f -> uses_cv f <> Some c) as Hno.
  { intros t f Hf Hx. destruct (ob_cv _ _ I2 t f c Hf Hx) as [x Hx']. congruence. }
  assert (queue_of st (WCv c) = []) as Q1.
  { apply (empty_queue (frames st)); try done. intros t f Hf Hw. apply (Hno t f Hf).
    destruct f as [| | | | [] | | | | | |]; cbn in *; congruence. }
  assert (forall h, queue_of st' h = queue_of st h) as Q.
  { intros h. unfold st'. rewrite !queue_put. destruct (decide _) as [<- | ?]; [by rewrite Q1 | done]. }
  split.
  - destruct I1. split; try done; intros; rewrite ?Q; eauto.
  - destruct I2 as [O1 O2 O3 O4]. split; try done.
    + intros t f c' Hf Hcf. unfold st'. cbn. rewrite lookup_insert_ne; [eauto |]. intros <-. by apply (Hno t f).
    + intros c' n. unfold st'. cbn. rewrite lookup_insert_Some. intros [[<- <-] | [_ H]]; [| by apply O4].
      by rewrite cvcount_none.
  - by eapply owners_ext; [| exact I3].
  - eapply no_lost_queues; [exact I4 | done | done |]. intros []; try done; apply Q.
Qed.

Lemma call_cv_destroy M c env : sys_ok M -> svalid (VCall (OCvDestroy c) env) M -> good (VCall (OCvDestroy c) env) M.
Proof.
  intros HM (Hu & HF & _ & [n Hc] & Hno). pose proof (so_inv _ HM) as [I1 I2 I3 I4].
  assert (n = 0) as ->.
  { rewrite (ob_count _ _ I2 c n Hc). by rewrite cvcount_none. }
  eapply good_void; [exact HM | reflexivity | unfold rumpuser_cv_destroy, cv_at; rewrite Hc; reflexivity | done | | done].
  split.
  - by eapply waiting_ext; [.. | exact I1].
  - destruct I2 as [O1 O2 O3 O4]. split; try done.
    + intros t f c' Hf Hcf. cbn. rewrite lookup_delete_ne; [eauto |]. intros <-. by apply (Hno t f).
    + intros c' n. cbn. rewrite lookup_delete_Some. intros [_ H]. by apply O4.
  - by eapply owners_ext; [| exact I3].
  - by eapply no_lost_ext; [.. | exact I4].
Qed.

(** Waking the waiters of a condition variable. *)
Lemma cv_wake_inv F held st st' c : inv F held st -> waiting F st' -> same_objects st st' ->
  (forall h, h <> WCv c -> queue_of st' h = queue_of st h) -> inv F held st'.
Proof.
  intros [I1 I2 I3 I4] W' O Q. pose proof O as (E1 & E2 & _). split; [done | by eapply objects_ext |
    by eapply owners_ext; [exact E1 |] |].
  eapply no_lost_queues; [exact I4 | done | done |]. intros []; try done; by apply Q.
Qed.

Lemma call_cv_signal M c env : sys_ok M -> svalid (VCall (OCvSignal c) env) M -> good (VCall (OCvSignal c) env) M.
Proof.
  intros HM (Hu & HF & _ & [n Hc]). pose proof (so_inv _ HM) as I.
  destruct (wakeup_one_ok _ (sy M) (WCv c) (iv_wait _ _ _ I) Hu) as (st' & E & W' & _ & Q & O & _).
  eapply good_void; [exact HM | reflexivity | | done | | apply O].
  - unfold rumpuser_cv_signal, cv_at. rewrite Hc, of_option_Some, Done_bind. exact E.
  - eapply (cv_wake_inv _ _ _ st' c); try done. intros h Hne. rewrite Q. by rewrite decide_False by congruence.
Qed.

Lemma call_cv_broadcast M c env : sys_ok M -> svalid (VCall (OCvBroadcast c) env) M -> good (VCall (OCvBroadcast c) env) M.
Proof.
  intros HM (Hu & HF & _ & [n Hc]). pose proof (so_inv _ HM) as I.
  destruct (wakeup_all_ok _ (sy M) (WCv c) (iv_wait _ _ _ I) Hu) as (st' & E & W' & _ & Q & O & _).
  eapply good_void; [exact HM | reflexivity | | done | | apply O].
  - unfold rumpuser_cv_broadcast, cv_at. rewrite Hc, of_option_Some, Done_bind. exact E.
  - eapply (cv_wake_inv _ _ _ st' c); try done. intros h Hne. rewrite Q. by rewrite decide_False by congruence.
Qed.

(** [rumpuser_cv_wait] and [rumpuser_cv_timedwait] up to [cv_unsched]. *)
Lemma cv_wait_enter M c m d : sys_ok M -> sc_user (sc (sy M)) -> frames (sy M) !! cur (sy M) = None ->
  is_Some (cvs (sy M) !! c) -> (m, cur (sy M)) ∈ held_of M ->
  exists st1, cv_add c 1 (sy M) = Done st1 /\
    sys_ok (Sys (cv_unsched_enter c m d st1) (held_of M ∖ {[(m, cur (sy M))]})).
Proof.
  intros [Hi Hun] Hu HF [n Hc] Hh. set (st := sy M) in *.
  assert (is_Some (mtxs st !! m)) as Hm.
  { destruct (proj1 (ow_claim _ _ _ (iv_own _ _ _ Hi) m (cur st))) as (x & Hx & _); [by left | eauto]. }
  unfold cv_add, cv_at. rewrite Hc, of_option_Some, Done_bind. eexists. split; [reflexivity |].
  split; cbn [sy held_of].
  - apply (inv_ext _ _ (put_cv c (n + 1) st)); try done.
    apply (cv_enter_ok _ (held_of M) _ st c n m (FCvUnsched c m d)); try done; cbn.
    + intros m'. rewrite elem_of_difference, elem_of_singleton. split.
      * intros [[? _] | [= <-]]; done.
      * intros H. destruct (decide (m' = m)) as [-> | ?]; [by right | left; split; [done | congruence]].
    + intros m' u Hne. rewrite elem_of_difference, elem_of_singleton. split; [tauto | split; [done | congruence]].
    + intros m' [= <-]. set_solver.
  - apply (unheld_move _ _ _ (cur st) (Some (FCvUnsched c m d)) Hun).
    + intros m' u _. set_solver.
    + intros m' [= <-]. set_solver.
Qed.

Lemma call_cv_wait M c m env : sys_ok M -> svalid (VCall (OCvWait c m) env) M -> good (VCall (OCvWait c m) env) M.
Proof.
  intros HM (Hu & HF & _ & Hc & Hh). left. cbn [sstep call]. unfold rumpuser_cv_wait.
  destruct (cv_wait_enter M c m BMK_SCHED_BLOCK_INFTIME HM Hu HF Hc Hh) as (st1 & E & Hok).
  rewrite E, !Done_bind. do 2 eexists. split; [reflexivity |]. exact Hok.
Qed.

Lemma call_cv_timedwait M c m sec nsec env : sys_ok M -> svalid (VCall (OCvTimedwait c m sec nsec) env) M ->
  good (VCall (OCvTimedwait c m sec nsec) env) M.
Proof.
  intros HM (Hu & HF & _ & Hc & Hh & Hs). left. cbn [sstep call]. unfold rumpuser_cv_timedwait, timeout_of.
  destruct (cv_wait_enter M c m (s64 (wrap64 (sec * 1000 * 1000 * 1000 + nsec))) HM Hu HF Hc Hh) as (st1 & E & Hok).
  rewrite E, Done_bind, Hs. cbn [negb]. rewrite !Done_bind. do 2 eexists. split; [reflexivity |]. exact Hok.
Qed.

Lemma unheld_frame F held held' t f m : unheld F held -> uses_mtx f = Some m -> (m, t) ∉ held' ->
  (forall m' u, u <> t -> (m', u) ∈ held' -> (m', u) ∈ held) -> unheld (<[t := f]> F) held'.
Proof. intros H Hf Hn Hs. apply (unheld_move F held held' t (Some f)); [done | done |]. cbn. intros m' E. congruence. Qed.

Lemma env_running st st' (env : list reply) : running st st' -> Forall (fun r => Forall (sc_alive (sc st)) r.2) env ->
  Forall (fun r => Forall (sc_alive (sc st')) r.2) env.
Proof. intros (_ & _ & _ & Ha) H. eapply Forall_impl; [exact H |]. intros r Hr. eapply Forall_impl; [exact Hr | exact Ha]. Qed.

Lemma call_cv_wait_nowrap M c m env : sys_ok M -> svalid (VCall (OCvWaitNowrap c m) env) M ->
  good (VCall (OCvWaitNowrap c m) env) M.
Proof.
  intros [Hi Hun] (Hu & HF & Henv & [n Hc] & Hh). set (st := sy M) in *. left. cbn [sstep call]. fold st.
  unfold rumpuser_cv_wait_nowrap, cv_add, cv_at. rewrite Hc, of_option_Some, !Done_bind.
  assert (is_Some (mtxs st !! m)) as Hm.
  { destruct (proj1 (ow_claim _ _ _ (iv_own _ _ _ Hi) m (cur st))) as (x & Hx & _); [by left | eauto]. }
  set (st1 := put_cv c (n + 1) st). set (F1 := <[cur st := FCvSchedSpin c m 0]> (frames st)).
  assert (inv F1 (held_of M) st1) as I1.
  { apply (cv_enter_ok _ (held_of M) _ st c n m (FCvSchedSpin c m 0)); try done; cbn. naive_solver. }
  destruct (exit_mutex_ok F1 _ st1 m I1 Hu Hh) as (st2 & E2 & I2 & R2 & _ & _ & _ & Ef & _).
  assert (cur st2 = cur st) as Ec by apply R2.
  rewrite E2, Done_bind.
  destruct (wait_enter_inv F1 (held_of M ∖ {[(m, cur st1)]}) st2 (FCvSchedSpin c m 0) (FCvNowrap c m) (WCv c)
    BMK_SCHED_BLOCK_INFTIME env I2) as (st3 & E3 & I3 & Ef3); try done.
  { apply R2. } { rewrite Ec. apply lookup_insert_eq. } { by eapply env_running. }
  rewrite E3, !Done_bind. do 2 eexists. split; [reflexivity |]. cbn [held_call].
  rewrite Ec in I3, Ef3. unfold F1 in I3. rewrite insert_insert_eq in I3. rewrite Ef in Ef3.
  change (frames st1) with (frames st) in Ef3. change (cur st1) with (cur st) in I3.
  split; cbn [sy held_of]; rewrite Ef3; [exact I3 |].
  eapply unheld_frame; [exact Hun | done | set_solver | set_solver].
Qed.

Lemma call_lwp M o l env : sys_ok M -> svalid (VCall (OLwp o l) env) M -> good (VCall (OLwp o l) env) M.
Proof.
  intros HM (Hu & HF & _ & Ho). pose proof (so_inv _ HM) as [I1 I2 I3 I4].
  assert (forall v, inv (frames (sy M)) (held_of M) (set_lwps (<[cur (sy M) := v]> (current_lwp (sy M))) (sy M))) as Hset.
  { intros v. split.
    - by eapply waiting_ext; [.. | exact I1].
    - destruct I2 as [O1 O2 O3 O4]. split; try done. intros t f r Hf Hr. destruct (O2 t f r Hf Hr). split; [done |]. cbn.
      rewrite lookup_insert_ne; [done |]. intros <-. congruence.
    - by eapply owners_ext; [| exact I3].
    - by eapply no_lost_ext; [.. | exact I4]. }
  destruct o.
  - eapply good_void; [exact HM | reflexivity | reflexivity | done | apply HM | done].
  - eapply good_void; [exact HM | reflexivity | reflexivity | done | apply HM | done].
  - eapply good_void; [exact HM | reflexivity | | done | apply (Hset l) | done]. cbn in *. by rewrite Ho.
  - eapply good_void; [exact HM | reflexivity | | done | apply (Hset 0) | done]. cbn in *. by rewrite Ho, Z.eqb_refl.
Qed.

End step.
