(* ===== verification/SynchResume.v ===== *)
(** * Returning from a blocking call keeps the invariant of the locks *)

From S2P Require Import Prelude Sched SchedIface SchedProps Synch SynchInv SynchProps SynchMach.
From S2P Require Import SynchStep.

Section resume.
Context {S : Type} `{!Scheduler S} (SPIN KMUTEX : Z).
Implicit Types (st : synch S) (F : gmap Z frame) (held : gset (Z * Z)) (M : @sys S).
Local Abbreviation good := (good SPIN KMUTEX).

(** Moving the ownership of a mutex between the call and the caller. *)
Lemma give_ok F held st f f' m : inv F held st -> sc_user (sc st) -> F !! cur st = Some f ->
  waits_on f = None -> waits_on f' = None -> uses_cv f = uses_cv f' -> owned f = Some m -> owned f' = None ->
  uses_mtx f' = uses_mtx f -> uses_rw f' = uses_rw f -> wants f = None ->
  inv (<[cur st := f']> F) ({[(m, cur st)]} ∪ held) st.
Proof.
  intros Hi Hu HF Hw Hw' Hc Ho Ho' Hm Hr Hwa. pose proof Hi as [_ I2 I3 _].
  apply (inv_move F held _ st (cur st) (Some f') Hi); rewrite ?HF; cbn; try done.
  - by eapply alive_cur.
  - intros m'. unfold claims. rewrite HF, Ho'. cbn. rewrite Ho. set_solver.
  - set_solver.
  - intros m' E. congruence.
  - intros h E. congruence.
  - intros m' E. rewrite Hm in E. by eapply (ob_mtx _ _ I2).
  - intros m' E. rewrite Hr in E. by eapply (ob_rw _ _ I2).
Qed.

Lemma keep_ok F held st f f' m : inv F ({[(m, cur st)]} ∪ held) st -> sc_user (sc st) -> (m, cur st) ∉ held ->
  F !! cur st = Some f -> waits_on f = None -> waits_on f' = None -> uses_cv f = uses_cv f' -> owned f = None ->
  owned f' = Some m -> uses_mtx f' = uses_mtx f -> uses_rw f' = uses_rw f -> wants f = None ->
  inv (<[cur st := f']> F) held st.
Proof.
  intros Hi Hu Hh HF Hw Hw' Hc Ho Ho' Hm Hr Hwa. pose proof Hi as [_ I2 I3 _].
  apply (inv_move F _ held st (cur st) (Some f') Hi); rewrite ?HF; cbn; try done.
  - by eapply alive_cur.
  - intros m'. unfold claims. rewrite HF, Ho'. cbn. rewrite Ho. set_solver.
  - set_solver.
  - intros m' E. rewrite Ho' in E. congruence.
  - intros h E. congruence.
  - intros m' E. rewrite Hm in E. by eapply (ob_mtx _ _ I2).
  - intros m' E. rewrite Hr in E. by eapply (ob_rw _ _ I2).
Qed.

(** The result of a step that leaves the thread at [f'] or lets it return. *)
Lemma good_suspended nl env M f st' f' : sys_ok M -> frames (sy M) !! cur (sy M) = Some f ->
  resume SPIN KMUTEX nl env (sy M) = Done (None, st') -> uses_mtx f' = uses_mtx f ->
  frames st' = <[cur (sy M) := f']> (frames (sy M)) ->
  inv (<[cur (sy M) := f']> (frames (sy M))) (held_of M) st' -> good (VResume nl env) M.
Proof.
  intros [_ Hun] HF E Hm Ef I'. left. cbn [sstep]. rewrite E, Done_bind. do 2 eexists. split; [reflexivity |].
  cbn [held_resume]. split; cbn [sy held_of]; rewrite Ef; [exact I' |].
  apply (unheld_move _ _ _ (cur (sy M)) (Some f') Hun); [done |]. cbn. intros m Hu. apply Hun. rewrite HF. cbn. congruence.
Qed.

Lemma good_returned nl env M f st' rv held' : sys_ok M -> frames (sy M) !! cur (sy M) = Some f ->
  resume SPIN KMUTEX nl env (sy M) = Done (Some rv, st') ->
  held' = match uses_mtx f with Some m => {[(m, cur (sy M))]} ∪ held_of M | None => held_of M end ->
  frames st' = delete (cur (sy M)) (frames (sy M)) ->
  inv (delete (cur (sy M)) (frames (sy M))) held' st' -> good (VResume nl env) M.
Proof.
  intros [_ Hun] HF E Hh Ef I'. left. cbn [sstep]. rewrite E, Done_bind. do 2 eexists. split; [reflexivity |].
  assert (held_resume (frames (sy M) !! cur (sy M)) (Some rv) (cur (sy M)) (held_of M) = held') as Eh.
  { rewrite HF, Hh. unfold held_resume. cbn. done. }
  rewrite Eh. split; cbn [sy held_of]; rewrite Ef; [exact I' |].
  apply (unheld_move _ _ _ (cur (sy M)) None Hun); [| done]. intros m u Hne Hin. rewrite Hh in Hin.
  destruct (uses_mtx f); [| done]. set_solver.
Qed.

Section events.
Context (M : @sys S) (nl : Z) (env : list reply).
Context (HM : sys_ok M) (Hu : sc_user (sc (sy M))) (Henv : Forall (fun r => Forall (sc_alive (sc (sy M))) r.2) env).
Local Abbreviation st := (sy M).
Local Abbreviation F := (frames (sy M)).
Local Abbreviation t := (cur (sy M)).

Lemma unheld_at f m : F !! t = Some f -> uses_mtx f = Some m -> (m, t) ∉ held_of M.
Proof. intros HF Hm. apply (so_unheld _ HM). by rewrite HF. Qed.

Lemma resume_enter_unsched m : F !! t = Some (FEnterUnsched m) -> good (VResume nl env) M.
Proof.
  intros HF. destruct (enter_loop_ok F (held_of M) st m nl env (so_inv _ HM) Hu HF) as (st' & f' & E & I' & Hm & Ef); [| done |].
  { by eapply unheld_at. }
  eapply good_suspended; [done | exact HF | | exact Hm | exact Ef | exact I'].
  unfold resume. by rewrite HF.
Qed.

Lemma resume_enter_wait m n : F !! t = Some (FEnterWait m n) -> good (VResume nl env) M.
Proof.
  intros HF. destruct (wait_return_inv F (held_of M) st (WMtx m) _ (FEnterUnsched m) (so_inv _ HM) Hu HF)
    as (rv & st1 & E1 & I1 & R1 & O1 & Es & _); try done.
  assert (cur st1 = t) as Ec by (unfold cur; by rewrite Es).
  destruct (enter_loop_ok _ (held_of M) st1 m n env I1) as (st' & f' & E & I' & Hm & Ef).
  - apply R1. - rewrite Ec. apply lookup_insert_eq.
  - rewrite Ec. by eapply unheld_at.
  - by rewrite Es.
  - rewrite Ec in I', Ef. rewrite (insert_insert_eq F t) in I'.
    destruct O1 as (_ & _ & _ & _ & Ef1). rewrite Ef1 in Ef.
    eapply good_suspended; [done | exact HF | | exact Hm | exact Ef | exact I'].
    unfold resume. rewrite HF, E1, Done_bind. exact E.
Qed.

Lemma resume_enter_sched m : F !! t = Some (FEnterSched m) -> good (VResume nl env) M.
Proof.
  intros HF. pose proof (so_inv _ HM) as Hi. eapply good_returned; [done | exact HF | | reflexivity | |].
  - unfold resume. rewrite HF. reflexivity.
  - done.
  - cbn [uses_mtx]. apply (inv_ext _ _ st); try done. 
    apply (inv_move F (held_of M) _ st t None Hi); rewrite ?HF; cbn; try done.
    + by eapply alive_cur.
    + intros m'. unfold claims. rewrite HF. cbn. set_solver.
    + set_solver.
Qed.

Lemma resume_rw_unsched lk r : F !! t = Some (FRwUnsched lk r) -> good (VResume nl env) M.
Proof.
  intros HF. destruct (rw_loop_ok F (held_of M) st lk r nl env (so_inv _ HM) Hu HF) as (st' & f' & E & I' & Hm & Ef); [done |].
  eapply good_suspended; [done | exact HF | | exact Hm | exact Ef | exact I'].
  unfold resume. by rewrite HF.
Qed.

Lemma resume_rw_wait lk r n : F !! t = Some (FRwWait lk r n) -> good (VResume nl env) M.
Proof.
  intros HF. destruct (wait_return_inv F (held_of M) st (rw_queue lk r) _ (FRwUnsched lk r) (so_inv _ HM) Hu HF)
    as (rv & st1 & E1 & I1 & R1 & O1 & Es & _); try done.
  assert (cur st1 = t) as Ec by (unfold cur; by rewrite Es).
  destruct (rw_loop_ok _ (held_of M) st1 lk r n env I1) as (st' & f' & E & I' & Hm & Ef).
  - apply R1. - rewrite Ec. apply lookup_insert_eq.
  - by rewrite Es.
  - rewrite Ec in I', Ef. rewrite (insert_insert_eq F t) in I'.
    destruct O1 as (_ & _ & _ & _ & Ef1). rewrite Ef1 in Ef.
    eapply good_suspended; [done | exact HF | | exact Hm | exact Ef | exact I'].
    unfold resume. rewrite HF, E1, Done_bind. exact E.
Qed.

Lemma resume_rw_sched lk r : F !! t = Some (FRwSched lk r) -> good (VResume nl env) M.
Proof.
  intros HF. pose proof (so_inv _ HM) as Hi. eapply good_returned; [done | exact HF | | reflexivity | |].
  - unfold resume. rewrite HF. reflexivity.
  - done.
  - cbn [uses_mtx]. apply (inv_ext _ _ st); try done. 
    apply (inv_move F (held_of M) _ st t None Hi); rewrite ?HF; cbn; try done.
    + by eapply alive_cur.
    + intros m'. unfold claims. by rewrite HF.
Qed.

Lemma resume_cv_unsched c m d : F !! t = Some (FCvUnsched c m d) ->
  (d <> BMK_SCHED_BLOCK_INFTIME -> int64_ok (d + sc_clock (sc st)) = true) -> good (VResume nl env) M.
Proof.
  intros HF Hd. assert ((m, t) ∉ held_of M) as Hh by (by eapply unheld_at).
  pose proof (give_ok F (held_of M) st _ (FCvSchedSpin c m 0) m (so_inv _ HM) Hu HF eq_refl eq_refl eq_refl
    eq_refl eq_refl eq_refl eq_refl eq_refl) as I1.
  destruct (exit_mutex_ok _ _ st m I1 Hu) as (st2 & E2 & I2 & R2 & _ & _ & _ & Ef & _); [set_solver |].
  assert (({[(m, cur st)]} ∪ held_of M) ∖ {[(m, cur st)]} = held_of M) as Eh by set_solver.
  rewrite Eh in I2. assert (cur st2 = t) as Ec by apply R2.
  destruct (wait_enter_inv _ (held_of M) st2 (FCvSchedSpin c m 0) (FCvWait c m nl) (WCv c) d env I2)
    as (st3 & E3 & I3 & Ef3); try done.
  { apply R2. } { rewrite Ec. apply lookup_insert_eq. }
  { destruct R2 as (_ & _ & -> & _). destruct (Z.eqb_spec d BMK_SCHED_BLOCK_INFTIME) as [-> | Hne]; [done |]. by apply Hd. }
  { by eapply env_running. }
  rewrite Ec in I3, Ef3. rewrite (insert_insert_eq F t) in I3. rewrite Ef in Ef3.
  eapply good_suspended; [done | exact HF | | | exact Ef3 | exact I3]; [| done].
  unfold resume. rewrite HF. unfold cv_unsched_return. rewrite E2, Done_bind, E3. reflexivity.
Qed.

(** After [wait] has returned to a condition variable. *)
Lemma cv_woken c m f : F !! t = Some f -> waits_on f = Some (WCv c) -> uses_cv f = Some c -> uses_mtx f = Some m ->
  wants f = None -> uses_rw f = None ->
  exists rv st1, wait_return (WCv c) st = Done (rv, st1) /\
    inv (<[t := FCvSchedSpin c m 0]> F) (held_of M) st1 /\ sc st1 = sc st /\ cur st1 = t /\ frames st1 = F /\
    exists x, mtxs st1 !! m = Some x /\ ~ claims (<[t := FCvSchedSpin c m 0]> F) (held_of M) m (cur st1).
Proof.
  intros HF Hw Hc Hm Hwa Hr.
  destruct (wait_return_inv F (held_of M) st (WCv c) f (FCvSchedSpin c m 0) (so_inv _ HM) Hu HF)
    as (rv & st1 & E1 & I1 & R1 & O1 & Es & _); try done; try (by destruct f).
  assert (cur st1 = t) as Ec by (unfold cur; by rewrite Es).
  exists rv, st1. split; [done |]. split; [done |]. split; [done |]. split; [done |]. split; [apply O1 |].
  destruct (ob_mtx _ _ (iv_obj _ _ _ I1) t (FCvSchedSpin c m 0) m) as [x Hx]; [apply lookup_insert_eq | done |].
  exists x. split; [done |]. rewrite Ec. intros [H | H].
  - by eapply unheld_at.
  - by rewrite lookup_insert_eq in H.
Qed.

(** [rumpuser_mutex_enter_nowrap] on the way out of a wait. *)
Lemma nowrap_busy_of m st1 F1 : nowrap_of (VResume nl env) M = Some m -> cur st1 = t ->
  (forall u, u <> t -> F1 !! u = F !! u) ->
  (exists u, u <> cur st1 /\ claims F1 (held_of M) m u) -> nowrap_busy (VResume nl env) M.
Proof.
  intros Hn Ec HF1 (u & Hne & Hc). exists m, u. split; [done |]. rewrite Ec in Hne. split; [done |].
  unfold claims in *. by rewrite HF1 in Hc.
Qed.

Lemma resume_cv_wait c m n : F !! t = Some (FCvWait c m n) -> good (VResume nl env) M.
Proof.
  intros HF. destruct (cv_woken c m _ HF) as (rv & st1 & E1 & I1 & Es & Ec & Ef1 & x & Hx & Hnc); try done.
  assert (sc_user (sc st1)) as Hu1 by (by rewrite Es).
  assert (frames st !! cur st = Some (FCvWait c m n)) as HF' by exact HF.
  destruct (Z.land (m_flags x) (RUMPUSER_MTX_KSPIN SPIN KMUTEX) =? RUMPUSER_MTX_KSPIN SPIN KMUTEX) eqn:Es'.
  - eapply (good_suspended nl env M _ _ (FCvSchedSpin c m rv)); [done | exact HF | | done | |].
    + unfold resume.  rewrite HF', E1, Done_bind. unfold cv_resched, mtx_at.
      rewrite Hx, of_option_Some, Done_bind, Es', Done_bind. reflexivity.
    + cbn [frames suspend set_frames rumpkern_sched set_hyp]. rewrite Ef1. unfold cur at 1. cbn. fold (cur st1). by rewrite Ec.
    + apply (inv_ext _ _ st1); try done.  rewrite <- (insert_insert_eq F t (FCvSchedSpin c m rv) (FCvSchedSpin c m 0)).
      eapply (inv_move _ _ (held_of M) st1 t (Some (FCvSchedSpin c m rv)) I1); rewrite ?lookup_insert_eq; cbn; try done.
      * rewrite <- Ec. by eapply alive_cur.
      * intros m'. unfold claims. rewrite lookup_insert_eq. cbn. done.
      * intros m' [= <-]. eauto.
  - destruct (nowrap_ok _ _ st1 m x I1 Hx Hnc) as [(st2 & E2 & I2 & Es2 & O2 & x' & Em) | (E2 & Hbusy)].
    + assert (cur st2 = t) as Ec2 by (unfold cur; rewrite Es2; exact Ec).
      eapply (good_suspended nl env M _ _ (FCvSched c m rv)); [done | exact HF | | done | |].
      * unfold resume.  rewrite HF', E1, Done_bind. unfold cv_resched, mtx_at.
        rewrite Hx, of_option_Some, Done_bind, Es', E2, !Done_bind. reflexivity.
      * destruct O2 as (_ & _ & _ & _ & Ef2). cbn [frames suspend set_frames rumpkern_sched set_hyp]. rewrite Ef2.
        cbn. rewrite Ef1. unfold cur at 1. cbn. fold (cur st2). by rewrite Ec2.
      * apply (inv_ext _ _ st2); try done.  rewrite <- (insert_insert_eq F t (FCvSched c m rv) (FCvSchedSpin c m 0)).
        rewrite <- Ec2. rewrite Ec in I2. rewrite <- Ec2 in I2.
        eapply (keep_ok _ (held_of M) st2 (FCvSchedSpin c m 0) _ m I2); try done.
        -- by rewrite Es2.
        -- rewrite Ec2. by eapply unheld_at.
        -- by rewrite lookup_insert_eq.
    + right. split.
      * cbn [sstep]. unfold resume.  rewrite HF', E1, Done_bind. unfold cv_resched, mtx_at.
        rewrite Hx, of_option_Some, Done_bind, Es', E2. reflexivity.
      * eapply nowrap_busy_of; [unfold nowrap_of; by rewrite HF | exact Ec | | exact Hbusy].
        intros u Hne. by rewrite lookup_insert_ne.
Qed.

Lemma resume_cv_nowrap c m : F !! t = Some (FCvNowrap c m) -> good (VResume nl env) M.
Proof.
  intros HF. destruct (cv_woken c m _ HF) as (rv & st1 & E1 & I1 & Es & Ec & Ef1 & x & Hx & Hnc); try done.
  assert (frames st !! cur st = Some (FCvNowrap c m)) as HF' by exact HF.
  destruct (nowrap_ok _ _ st1 m x I1 Hx Hnc) as [(st2 & E2 & I2 & Es2 & O2 & x' & Em) | (E2 & Hbusy)].
  - assert (cur st2 = t) as Ec2 by (unfold cur; rewrite Es2; exact Ec). rewrite Ec, <- Ec2 in I2.
    destruct (cv_leave_ok _ _ st2 c m (FCvSchedSpin c m 0) I2) as (st3 & E3 & I3 & Es3 & Ef3); try done.
    { by rewrite Es2, Es. } { apply lookup_insert_eq. } { set_solver. }
    rewrite delete_insert_eq in I3. rewrite Ec2 in I3.
    eapply (good_returned nl env M _ (return_ st3) 0); [done | exact HF | | reflexivity | |].
    + unfold resume.  rewrite HF', E1, Done_bind, E2, Done_bind, E3. reflexivity.
    + unfold return_. cbn [frames set_frames]. rewrite Ef3. destruct O2 as (_ & _ & _ & _ & ->). cbn. rewrite Ef1.
      unfold cur. by rewrite Es3, Es2, Es.
    + by apply (inv_ext _ _ st3).
  - right. split.
    + cbn [sstep]. unfold resume.  rewrite HF', E1, Done_bind, E2. reflexivity.
    + eapply nowrap_busy_of; [unfold nowrap_of; by rewrite HF | exact Ec | | exact Hbusy].
      intros u Hne. by rewrite lookup_insert_ne.
Qed.

Lemma resume_cv_spin c m rv : F !! t = Some (FCvSchedSpin c m rv) -> good (VResume nl env) M.
Proof.
  intros HF. pose proof (so_inv _ HM) as Hi.
  assert (frames st !! cur st = Some (FCvSchedSpin c m rv)) as HF' by exact HF.
  destruct (ob_mtx _ _ (iv_obj _ _ _ Hi) t _ m HF) as [x Hx]; [done |].
  assert (~ claims F (held_of M) m (cur st)) as Hnc.
  { intros [H | H]; [by eapply unheld_at | by rewrite HF in H]. }
  destruct (nowrap_ok _ _ st m x Hi Hx Hnc) as [(st2 & E2 & I2 & Es2 & O2 & x' & Em) | (E2 & Hbusy)].
  - assert (cur st2 = t) as Ec2 by (unfold cur; by rewrite Es2). rewrite <- Ec2 in I2.
    destruct (cv_leave_ok _ _ st2 c m (FCvSchedSpin c m rv) I2) as (st3 & E3 & I3 & Es3 & Ef3); try done.
    { by rewrite Es2. } { by rewrite Ec2. } { set_solver. }
    rewrite Ec2 in I3.
    eapply (good_returned nl env M _ (return_ st3) rv); [done | exact HF | | reflexivity | |].
    + unfold resume.  rewrite HF', E2, Done_bind, E3. reflexivity.
    + unfold return_. cbn [frames set_frames]. rewrite Ef3. destruct O2 as (_ & _ & _ & _ & ->). cbn.
      unfold cur. by rewrite Es3, Es2.
    + by apply (inv_ext _ _ st3).
  - right. split.
    + cbn [sstep]. unfold resume.  rewrite HF', E2. reflexivity.
    + by eapply nowrap_busy_of; [unfold nowrap_of; by rewrite HF | | | exact Hbusy].
Qed.

Lemma resume_cv_sched c m rv : F !! t = Some (FCvSched c m rv) -> good (VResume nl env) M.
Proof.
  intros HF. assert (frames st !! cur st = Some (FCvSched c m rv)) as HF' by exact HF.
  pose proof (give_ok F (held_of M) st _ (FCvSchedSpin c m 0) m (so_inv _ HM) Hu HF eq_refl eq_refl eq_refl
    eq_refl eq_refl eq_refl eq_refl eq_refl) as I1.
  destruct (cv_leave_ok _ _ st c m (FCvSchedSpin c m 0) I1) as (st3 & E3 & I3 & Es3 & Ef3); try done.
  { apply lookup_insert_eq. } { set_solver. }
  rewrite delete_insert_eq in I3.
  eapply (good_returned nl env M _ (return_ st3) rv); [done | exact HF | | reflexivity | |].
  - unfold resume.  rewrite HF', E3. reflexivity.
  - unfold return_. cbn [frames set_frames]. rewrite Ef3. unfold cur. by rewrite Es3.
  - by apply (inv_ext _ _ st3).
Qed.

End events.

(** Every event that respects the callers' obligations. *)
Lemma sstep_good e M : sys_ok M -> svalid e M -> good e M.
Proof.
  intros HM Hv. destruct e as [o env | nl env | s].
  - destruct o.
    + by apply call_mutex_init. + by apply call_mutex_enter. + by apply call_mutex_nowrap. + by apply call_mutex_tryenter.
    + by apply call_mutex_exit. + by apply call_mutex_destroy. + by apply call_rw_init. + by apply call_rw_enter.
    + by apply call_rw_tryenter. + by apply call_rw_exit. + by apply call_rw_destroy. + by apply call_rw_downgrade.
    + by apply call_rw_tryupgrade. + by apply call_cv_init. + by apply call_cv_destroy. + by apply call_cv_wait.
    + by apply call_cv_wait_nowrap. + by apply call_cv_timedwait. + by apply call_cv_signal. + by apply call_cv_broadcast.
    + by apply call_lwp.
  - destruct Hv as (Hu & Henv & Hf). destruct (frames (sy M) !! cur (sy M)) as [[] |] eqn:E; [..| done].
    + by eapply resume_enter_unsched. + by eapply resume_enter_wait. + by eapply resume_enter_sched.
    + by eapply resume_rw_unsched. + by eapply resume_rw_wait. + by eapply resume_rw_sched.
    + by eapply resume_cv_unsched. + by eapply resume_cv_wait. + by eapply resume_cv_nowrap.
    + by eapply resume_cv_spin. + by eapply resume_cv_sched.
  - left. do 2 eexists. split; [reflexivity |]. destruct HM as [[I1 I2 I3 I4] Hun]. split; cbn [sy held_of]; [| exact Hun].
    destruct Hv as [Hv Hcur]. destruct (sc_run_ok _ _ (wt_sc _ _ I1) Hv) as (Hok & Ha & Hrun). split.
    + destruct I1 as [W1 W2 W3 W4 W5 W6]. split; try done; cbn.
      * intros t f Hf. apply Ha. by eapply W2.
      * intros t f h Hf Hw Hb. pose proof (W6 t f h Hf Hw Hb) as Hr. destruct (decide (t = sc_current (sc (sy M)))) as [-> | Hne]; [| by apply Hrun].
        apply Hcur; [| done]. unfold cur. rewrite Hf. cbn. by rewrite Hw.
    + by eapply objects_ext; [| exact I2].
    + by eapply owners_ext; [| exact I3].
    + by eapply no_lost_ext; [.. | exact I4].
Qed.

End resume.
