(* ===== verification/SynchThms.v ===== *)
(** * Theorems about locks and condition variables *)

From S2P Require Import Prelude Sched SchedInv SchedMach SchedThms SchedIface Synch SynchInv SynchProps.
From S2P Require Import SynchMach SynchStep SynchResume.

(** No object exists and no thread is inside a call. *)
Definition synch_boot {S} (s : S) : synch S := Synch s ∅ ∅ ∅ ∅ ∅ ∅ ∅ [].

Section thms.
Context {S : Type} `{!Scheduler S} (SPIN KMUTEX : Z).
Implicit Types (M : @sys S).

(** A run in which every event respects the rules of use. *)
Inductive sreach (s : S) : @sys S -> Prop :=
  | sreach_boot : sreach s (Sys (synch_boot s) ∅)
  | sreach_step M e rv M' : sreach s M -> svalid e M -> sstep SPIN KMUTEX e M = Done (rv, M') -> sreach s M'.

Lemma boot_ok s : sc_ok s -> sys_ok (Sys (synch_boot s) ∅).
Proof.
  intros Hs. split; cbn [sy held_of synch_boot frames].
  - split; split; cbn; try done.
    + intros h. constructor.
    + intros h t. unfold queue_of. cbn. rewrite lookup_empty. cbn. split; [intros H; by apply elem_of_nil in H |].
      intros (f & Hf & _). by rewrite lookup_empty in Hf.
    + intros m t. unfold claims. rewrite lookup_empty. split; [by intros [H | H] |]. by intros (x & Hx & _).
  - intros m t. by rewrite lookup_empty.
Qed.

Lemma sreach_ok s M : sc_ok s -> sreach s M -> sys_ok M.
Proof.
  intros Hs Hr. induction Hr as [| M e rv M' Hr IH Hv E]; [by apply boot_ok |].
  destruct (sstep_good SPIN KMUTEX e M IH Hv) as [(rv' & M2 & E2 & HM2) | [E2 _]].
  - rewrite E in E2. by injection E2 as -> ->.
  - by rewrite E in E2.
Qed.

(** C11. Locks and condition variables never fail.  Let threads create and
    destroy mutexes, reader/writer locks and condition variables, lock,
    unlock, wait, time out, signal and broadcast in any order the rules of use
    allow, with switches to other threads wherever a call blocks and with
    spurious wake-ups.  Every call and every return from a blocked call goes
    through: no assertion fails, no waiter is missing from its queue and no
    freed object is touched.  The one exception is
    [rumpuser_mutex_enter_nowrap], which stops the machine, but only when
    another thread owns the mutex. *)
Theorem synch_safe s M e :
  sc_ok s -> sreach s M -> svalid e M ->
  (exists rv M', sstep SPIN KMUTEX e M = Done (rv, M')) \/
  sstep SPIN KMUTEX e M = Halt "rumpuser mutex error" /\
    exists m t, nowrap_of e M = Some m /\ t <> cur (sy M) /\ claims (frames (sy M)) (held_of M) m t.
Proof.
  intros Hs Hr Hv. destruct (sstep_good SPIN KMUTEX e M (sreach_ok s M Hs Hr) Hv) as [(rv & M' & E & _) | H].
  - left. eauto.
  - by right.
Qed.

(** C12. Mutual exclusion.  In every reachable state a mutex has been given to
    at most one thread, and that thread is the one recorded as its owner; if
    no thread has it and none is about to return with it, it is free. *)
Theorem mutex_exclusion s M :
  sc_ok s -> sreach s M ->
  (forall m t, (m, t) ∈ held_of M -> exists x, mtxs (sy M) !! m = Some x /\ m_v x = 1 /\ m_bmk_o x = Some t) /\
  (forall m t1 t2, (m, t1) ∈ held_of M -> (m, t2) ∈ held_of M -> t1 = t2) /\
  (forall m x, mtxs (sy M) !! m = Some x -> (forall t, ~ claims (frames (sy M)) (held_of M) m t) ->
    m_v x = 0 /\ m_bmk_o x = None).
Proof.
  intros Hs Hr. destruct (sreach_ok s M Hs Hr) as [[_ _ [W1 W2 _] _] _].
  assert (forall m t, (m, t) ∈ held_of M -> exists x, mtxs (sy M) !! m = Some x /\ m_bmk_o x = Some t) as Ho.
  { intros m t H. apply W2. by left. }
  split; [| split].
  - intros m t H. destruct (Ho m t H) as (x & Hx & E). exists x. split; [done |]. split; [| done].
    destruct (W1 m x Hx) as [(_ & ? & _) | [? _]]; congruence.
  - intros m t1 t2 H1 H2. destruct (Ho _ _ H1) as (x & Hx & E), (Ho _ _ H2) as (y & Hy & E'). congruence.
  - intros m x Hx Hno. destruct (W1 m x Hx) as [(? & ? & _) | [_ [t Ht]]]; [done |].
    destruct (Hno t). apply W2. eauto.
Qed.

Lemma waiting_runnable F (st : synch S) t f h : waiting F st -> F !! t = Some f -> waits_on f = Some h ->
  t ∉ queue_of st h -> sc_runnable (sc st) t.
Proof.
  intros W Hf Hw Hn. destruct (wt_w _ _ W t f h Hf Hw) as [b Hb]. eapply (wt_ready _ _ W); [done | done |].
  destruct b; [| done]. destruct Hn. apply (wt_q _ _ W). eauto.
Qed.

(** The lock a waiting thread wants is the one it waits for. *)
Lemma wants_waits f h h' : wants f = Some h -> waits_on f = Some h' -> h' = h.
Proof. destruct f as [| | | [] | [] | | | | | |]; cbn; congruence. Qed.

Lemma retried_runnable F (st : synch S) h : waiting F st -> retried F st h ->
  exists t f, F !! t = Some f /\ wants f = Some h /\ (t ∉ queue_of st h) /\ (waits_on f <> None -> sc_runnable (sc st) t).
Proof.
  intros W (t & f & Hf & Hw & Hn). exists t, f. do 3 (split; [done |]). intros Hwait.
  destruct (waits_on f) as [h' |] eqn:E; [| done]. rewrite <- (wants_waits f h h' Hw E) in Hn. by eapply waiting_runnable.
Qed.

(** C13. No wake-up is lost.  In every reachable state, a thread inside [wait]
    that is not on its wait queue any more has the CPU or is on the run queue:
    whoever takes it off the queue also wakes it.  And if a free mutex has
    threads on its wait queue, then some thread is on its way to take it: it
    is inside [rumpuser_mutex_enter] and not on the queue, so it will try again
    when it runs, and it will run, for if it is still inside [wait] it is
    runnable.  The same holds for a reader/writer lock without an owner that
    has readers or writers waiting: a writer is on its way.  (A thread that
    has the CPU inside [wait] is assumed not to block anywhere else before
    [wait] returns; the scheduler is the interface of SchedIface.v, which the
    machine of libbmk_core/sched.c implements.) *)
Theorem synch_no_lost_wakeup s M :
  sc_ok s -> sreach s M ->
  (forall t f h, frames (sy M) !! t = Some f -> waits_on f = Some h -> t ∉ queue_of (sy M) h ->
    sc_runnable (sc (sy M)) t) /\
  (forall m x w, mtxs (sy M) !! m = Some x -> m_v x = 0 -> w ∈ queue_of (sy M) (WMtx m) ->
    exists t f, frames (sy M) !! t = Some f /\ wants f = Some (WMtx m) /\ (t ∉ queue_of (sy M) (WMtx m)) /\
      (waits_on f <> None -> sc_runnable (sc (sy M)) t)) /\
  (forall r x w, rws (sy M) !! r = Some x -> rw_o x = 0 ->
    w ∈ queue_of (sy M) (WWrite r) \/ w ∈ queue_of (sy M) (WRead r) ->
    exists t f, frames (sy M) !! t = Some f /\ wants f = Some (WWrite r) /\ (t ∉ queue_of (sy M) (WWrite r)) /\
      (waits_on f <> None -> sc_runnable (sc (sy M)) t)).
Proof.
  intros Hs Hr. destruct (sreach_ok s M Hs Hr) as [[W _ _ [L1 L2]] _].
  assert (forall (w : Z) q, w ∈ q -> q <> []) as Hne by (intros w q H ->; by apply elem_of_nil in H).
  split; [intros t f h; by apply waiting_runnable |]. split.
  - intros m x w Hx Hv Hw. apply (retried_runnable _ _ _ W), (L1 m x Hx Hv). eauto.
  - intros r x w Hx Ho Hw. apply (retried_runnable _ _ _ W), (L2 r x Hx Ho). destruct Hw; [left | right]; eauto.
Qed.

(** [nwaiters] is exact: in every reachable state it is the number of
    threads inside a wait on the condition variable, from the call to the
    return (so [rumpuser_cv_has_waiters] tells the truth and
    [rumpuser_cv_destroy] accepts exactly the unused ones), and the wait queue
    holds no thread twice and only threads that wait for it. *)
Theorem cv_waiters_exact s M c n :
  sc_ok s -> sreach s M -> cvs (sy M) !! c = Some n ->
  n = Z.of_nat (cvcount c (frames (sy M))) /\ NoDup (queue_of (sy M) (WCv c)) /\
  (forall t, t ∈ queue_of (sy M) (WCv c) <->
    exists f, frames (sy M) !! t = Some f /\ waits_on f = Some (WCv c) /\
      waiters (sy M) !! t = Some (Waiter t true)) /\
  (rumpuser_cv_has_waiters c (sy M) = Done (negb (bool_decide (cvcount c (frames (sy M)) = 0%nat)))).
Proof.
  intros Hs Hr Hc. destruct (sreach_ok s M Hs Hr) as [[I1 I2 _ _] _]. pose proof (ob_count _ _ I2 c n Hc) as Hn.
  split; [done |]. split; [apply I1 |]. split; [apply I1 |].
  unfold rumpuser_cv_has_waiters, cv_at. rewrite Hc, of_option_Some, Done_bind, Hn. do 2 f_equal.
  destruct (cvcount c (frames (sy M))); [done |]. rewrite bool_decide_false by done. apply Z.eqb_neq. lia.
Qed.

(** Signalling.  In every reachable state [rumpuser_cv_signal] takes the
    thread that has waited longest off the queue and makes it runnable;
    [rumpuser_cv_broadcast] takes all of them off, and [wait] then returns 0 to
    each of them.  A thread that is resumed while still on the queue gets
    [BMK_ETIMEDOUT] and leaves the queue. *)
Theorem cv_wakeup_correct s M c n :
  sc_ok s -> sreach s M -> sc_user (sc (sy M)) -> cvs (sy M) !! c = Some n ->
  (exists st', rumpuser_cv_signal c (sy M) = Done st' /\ queue_of st' (WCv c) = tail (queue_of (sy M) (WCv c)) /\
    forall w, head (queue_of (sy M) (WCv c)) = Some w -> sc_runnable (sc st') w /\ waiters st' !! w = Some (Waiter w false)) /\
  (exists st', rumpuser_cv_broadcast c (sy M) = Done st' /\ queue_of st' (WCv c) = [] /\
    forall w, w ∈ queue_of (sy M) (WCv c) -> waiters st' !! w = Some (Waiter w false)) /\
  (forall f, frames (sy M) !! cur (sy M) = Some f -> waits_on f = Some (WCv c) ->
    exists st', wait_return (WCv c) (sy M) =
      Done (if bool_decide (cur (sy M) ∈ queue_of (sy M) (WCv c)) then BMK_ETIMEDOUT else 0, st') /\
      queue_of st' (WCv c) = filter (fun x => x <> cur (sy M)) (queue_of (sy M) (WCv c))).
Proof.
  intros Hs Hr Hu Hc. destruct (sreach_ok s M Hs Hr) as [[I1 _ _ _] _]. split; [| split].
  - destruct (wakeup_one_ok _ (sy M) (WCv c) I1 Hu) as (st' & E & _ & _ & Q & _ & Hw). exists st'.
    unfold rumpuser_cv_signal, cv_at. rewrite Hc, of_option_Some, Done_bind. split; [done |].
    rewrite Q, decide_True by done. done.
  - destruct (wakeup_all_ok _ (sy M) (WCv c) I1 Hu) as (st' & E & _ & _ & Q & _ & Hw). exists st'.
    unfold rumpuser_cv_broadcast, cv_at. rewrite Hc, of_option_Some, Done_bind. split; [done |].
    rewrite Q, decide_True by done. done.
  - intros f Hf Hw. destruct (wait_return_ok _ (sy M) (WCv c) f (FCvSchedSpin c 0 0) I1 Hu Hf Hw eq_refl)
      as (rv & st' & E & _ & _ & Q & _ & _ & ->). exists st'. split; [exact E | apply Q].
Qed.

(** A writer does not wait for readers.  Whenever the lock has no owner,
    [rumpuser_rw_tryenter] gives it to a writer at once, however many readers
    hold it; and when one of these readers leaves, [rumpuser_rw_exit] takes
    the lock away from the writer and leaves the number of readers as it is. *)
Theorem rw_writer_ignores_readers (st : synch S) r x :
  rws st !! r = Some x -> rw_o x = 0 -> rumpuser_curlwp st <> 0 ->
  exists st', rumpuser_rw_tryenter RUMPUSER_RW_WRITER r st = Done (0, st') /\
    rws st' !! r = Some (Rw (rw_v x) (rumpuser_curlwp st)) /\
    forall st2 st3, rws st2 !! r = rws st' !! r -> rumpuser_rw_exit r st2 = Done st3 ->
      queue_of st2 (WWrite r) = [] -> queue_of st2 (WRead r) = [] -> rws st3 !! r = Some (Rw (rw_v x) 0).
Proof.
  intros Hr Ho Hl. unfold rumpuser_rw_tryenter, rw_at. rewrite Hr, of_option_Some, Done_bind, Ho. cbn [Z.eqb].
  eexists. split; [reflexivity |]. stproj. rewrite lookup_insert_eq. split; [done |].
  intros st2 st3 E2 E3 Q1 Q2. unfold rumpuser_rw_exit, rw_at in E3. rewrite E2 in E3.
  rewrite of_option_Some, Done_bind in E3. cbn [rw_o rw_v] in E3. rewrite (proj2 (Z.eqb_neq _ 0) Hl) in E3.
  cbn [negb] in E3. cbv zeta in E3. revert E3. stproj. rewrite lookup_insert_eq, of_option_Some, Done_bind.
  change (queue_of (put_rw r (Rw (rw_v x) 0) st2)) with (queue_of st2). rewrite Q1, Q2.
  rewrite !bool_decide_true by done. cbn [negb andb]. intros [= <-]. stproj. apply lookup_insert_eq.
Qed.

End thms.

(** ** Concrete runs *)

(** One thread at 0x1000 that owns a mutex, and one that has created a
    condition variable. *)
Definition demo_mach : mach := Mach demo_main {[ 4096 := User ]} false.
Definition demo_sys : @sys mach := Sys (synch_boot demo_mach) ∅.
Definition after (e : sevent) (M : @sys mach) : @sys mach :=
  match sstep 1 2 e M with Done (_, M') => M' | _ => M end.
Definition demo_init : @sys mach := after (VCall (OMutexInit 64 0) []) demo_sys.
Definition demo_locked : @sys mach := after (VCall (OMutexEnter 64) []) demo_init.
Definition demo_cv : @sys mach := after (VCall (OCvInit 128) []) demo_sys.
Definition demo_rw : synch mach :=
  set_lwps {[ 4096 := 7 ]} (put_rw 32 (Rw 2 0) (synch_boot demo_mach)).

Lemma demo_user : in_user demo_mach false.
Proof.
  split; [done |]. split; [vm_compute; reflexivity |]. intros th Hth.
  assert (Some th = threads demo_main !! bmk_current demo_main) as E by (symmetry; exact Hth).
  vm_compute in E. injection E as ->. reflexivity.
Qed.

Lemma demo_ok : sc_ok demo_mach.
Proof. apply demo_main_ok. Qed.

Lemma demo_init_reach : sreach 1 2 demo_mach demo_init.
Proof.
  apply (sreach_step 1 2 demo_mach demo_sys (VCall (OMutexInit 64 0) []) (Some 0) demo_init).
  - apply sreach_boot.
  - split; [exact demo_user |]. split; [reflexivity |]. split; [constructor |]. split; [done | reflexivity].
  - vm_compute. reflexivity.
Qed.

Lemma demo_locked_reach : sreach 1 2 demo_mach demo_locked.
Proof.
  apply (sreach_step 1 2 demo_mach demo_init (VCall (OMutexEnter 64) []) (Some 0) demo_locked).
  - apply demo_init_reach.
  - split; [exact demo_user |]. split; [reflexivity |]. split; [constructor |].
    split; [eexists; vm_compute; reflexivity |]. by apply not_elem_of_empty.
  - vm_compute. reflexivity.
Qed.

Lemma demo_cv_reach : sreach 1 2 demo_mach demo_cv.
Proof.
  apply (sreach_step 1 2 demo_mach demo_sys (VCall (OCvInit 128) []) (Some 0) demo_cv).
  - apply sreach_boot.
  - split; [exact demo_user |]. split; [reflexivity |]. split; [constructor |]. split; [done | reflexivity].
  - vm_compute. reflexivity.
Qed.

Lemma synch_safe_witness : exists rv M', sstep 1 2 (VCall (OMutexExit 64) []) demo_locked = Done (rv, M').
Proof.
  destruct (synch_safe 1 2 demo_mach demo_locked (VCall (OMutexExit 64) []) demo_ok demo_locked_reach) as [H | H].
  - split; [exact demo_user |]. split; [reflexivity |]. split; [constructor |].
    change (op_valid (OMutexExit 64) demo_locked) with ((64, 4096) ∈ held_of demo_locked).
    apply (bool_decide_unpack _). vm_compute. reflexivity.
  - exact H.
  - exfalso. destruct H as [E _]. vm_compute in E. discriminate E.
Defined.

Lemma mutex_exclusion_witness : exists x, mtxs (sy demo_locked) !! 64 = Some x /\ m_v x = 1 /\ m_bmk_o x = Some 4096.
Proof.
  destruct (mutex_exclusion 1 2 demo_mach demo_locked demo_ok demo_locked_reach) as (H & _).
  apply H. apply (bool_decide_unpack _). vm_compute. reflexivity.
Defined.

(** Three threads: 0x1000 takes a mutex and yields, 0x2000 and 0x3000 wait for
    it, and 0x1000 releases it.  The mutex is then free, 0x3000 still waits and
    0x2000 is on its way. *)
Inductive either := SY (e : sevent (S := mach)) | SC (e : event).
Fixpoint run_either (es : list either) (M : @sys mach) : outcome (@sys mach) :=
  match es with
  | [] => Done M
  | SY e :: es => '(_, M) ← sstep 1 2 e M; run_either es M
  | SC e :: es => s ← mstep e (sc (sy M)); run_either es (Sys (set_sc s (sy M)) (held_of M))
  end.

Definition contended : list either :=
  [ SC (ECreate 8192 131072 7 false false);
    SC (ECreate 12288 262144 7 false false);
    SY (VCall (OMutexInit 64 0) []);
    SY (VCall (OMutexEnter 64) []);
    SC (EYield []);
    SC (EResume []);
    SY (VCall (OMutexEnter 64) []);
    SY (VResume 0 []);
    SC (EResume []);
    SY (VCall (OMutexEnter 64) []);
    SY (VResume 0 []);
    SC (EResume []);
    SY (VCall (OMutexExit 64) []) ].
Definition prefix (n : nat) : @sys mach :=
  match run_either (take n contended) demo_sys with Done M => M | _ => demo_sys end.
Definition demo_released : @sys mach := prefix 13.

Ltac show_user :=
  split; [vm_compute; reflexivity |]; split; [vm_compute; reflexivity |];
  let th := fresh in let Hth := fresh in intros th Hth; vm_compute in Hth; injection Hth as <-; reflexivity.
Ltac show_call n o :=
  apply (sreach_step 1 2 demo_mach (prefix n) (VCall o []) (match sstep 1 2 (VCall o []) (prefix n) with Done (rv, _) => rv | _ => None end) (prefix (S n)));
  [ | split; [show_user |]; split; [vm_compute; reflexivity |]; split; [constructor |] | vm_compute; reflexivity ].
Ltac show_resume n :=
  apply (sreach_step 1 2 demo_mach (prefix n) (VResume 0 []) None (prefix (S n)));
  [ | split; [show_user |]; split; [constructor | vm_compute; exact I] | vm_compute; reflexivity ].
Ltac show_sched n e :=
  apply (sreach_step 1 2 demo_mach (prefix n) (VSched (sc (sy (prefix (S n))))) None (prefix (S n)));
  [ | split; [exists e; split; [ | split; [ | vm_compute; reflexivity ]] | let H := fresh in intros H; by destruct H] | vm_compute; reflexivity ].

Lemma demo_released_reach : sreach 1 2 demo_mach demo_released.
Proof.
  unfold demo_released.
  show_call 12%nat (OMutexExit 64).
  2: { change ((64, cur (sy (prefix 12))) ∈ held_of (prefix 12)). apply (bool_decide_unpack _). vm_compute. reflexivity. }
  show_sched 11%nat (EResume []). 2: { vm_compute. discriminate. } 2: { split; [vm_compute; reflexivity | constructor]. }
  show_resume 10%nat.
  show_call 9%nat (OMutexEnter 64). 2: { split; [eexists; vm_compute; reflexivity |]. apply (bool_decide_unpack _). vm_compute. reflexivity. }
  show_sched 8%nat (EResume []). 2: { vm_compute. discriminate. } 2: { split; [vm_compute; reflexivity | constructor]. }
  show_resume 7%nat.
  show_call 6%nat (OMutexEnter 64). 2: { split; [eexists; vm_compute; reflexivity |]. apply (bool_decide_unpack _). vm_compute. reflexivity. }
  show_sched 5%nat (EResume []). 2: { vm_compute. discriminate. } 2: { split; [vm_compute; reflexivity | constructor]. }
  show_sched 4%nat (EYield []). 2: { exact I. } 2: { split; [show_user | constructor]. }
  show_call 3%nat (OMutexEnter 64). 2: { split; [eexists; vm_compute; reflexivity |]. apply (bool_decide_unpack _). vm_compute. reflexivity. }
  show_call 2%nat (OMutexInit 64 0). 2: { split; [discriminate | vm_compute; reflexivity]. }
  show_sched 1%nat (ECreate 12288 262144 7 false false). 2: { exact I. } 2: { split; [show_user | vm_compute; reflexivity]. }
  show_sched 0%nat (ECreate 8192 131072 7 false false). 2: { exact I. } 2: { split; [show_user | vm_compute; reflexivity]. }
  apply sreach_boot.
Qed.

Lemma synch_no_lost_wakeup_witness : exists t f, frames (sy demo_released) !! t = Some f /\ wants f = Some (WMtx 64) /\
  (t ∉ queue_of (sy demo_released) (WMtx 64)) /\ (waits_on f <> None -> sc_runnable (sc (sy demo_released)) t).
Proof.
  destruct (synch_no_lost_wakeup 1 2 demo_mach demo_released demo_ok demo_released_reach) as (_ & H & _).
  apply (H 64 (Mtx 0 0 0 None) 12288).
  - vm_compute. reflexivity.
  - reflexivity.
  - apply (bool_decide_unpack _). vm_compute. reflexivity.
Defined.

Lemma cv_waiters_exact_witness : rumpuser_cv_has_waiters 128 (sy demo_cv) = Done false.
Proof.
  destruct (cv_waiters_exact 1 2 demo_mach demo_cv 128 0 demo_ok demo_cv_reach) as (_ & _ & _ & H).
  - vm_compute. reflexivity.
  - rewrite H. vm_compute. reflexivity.
Defined.

Lemma cv_wakeup_correct_witness : exists st', rumpuser_cv_signal 128 (sy demo_cv) = Done st' /\ queue_of st' (WCv 128) = [].
Proof.
  destruct (cv_wakeup_correct 1 2 demo_mach demo_cv 128 0 demo_ok demo_cv_reach demo_user) as ((st' & E & Q & _) & _).
  - vm_compute. reflexivity.
  - exists st'. split; [exact E |]. rewrite Q. vm_compute. reflexivity.
Defined.

Lemma rw_writer_ignores_readers_witness : exists st', rumpuser_rw_tryenter RUMPUSER_RW_WRITER 32 demo_rw = Done (0, st') /\
  rws st' !! 32 = Some (Rw 2 7).
Proof.
  destruct (rw_writer_ignores_readers demo_rw 32 (Rw 2 0)) as (st' & E & H & _);
    [vm_compute; reflexivity | reflexivity | vm_compute; discriminate |].
  exists st'. split; [exact E | exact H].
Defined.

(** ** A wait may find its mutex taken

    Thread 0x1000 waits on a condition variable; thread 0x2000 takes the
    mutex, signals, and lets another thread run before it releases the mutex.
    The woken thread then stops the machine in
    [rumpuser_mutex_enter_nowrap]. *)
Definition nowrap_run : list either :=
  [ SY (VCall (OMutexInit 64 0) []); SY (VCall (OCvInit 128) []); SC (ECreate 8192 131072 7 false false);
    SY (VCall (OMutexEnter 64) []); SY (VCall (OCvWaitNowrap 128 64) []);      (* 0x1000 blocks *)
    SC (EResume []); SY (VCall (OMutexEnter 64) []); SY (VCall (OCvSignal 128) []);
    SC (EYield []); SC (EResume []); SY (VResume 0 []) ].

Theorem cv_wait_may_halt : run_either nowrap_run demo_sys = Halt "rumpuser mutex error".
Proof. vm_compute. reflexivity. Qed.
