(* ===== verification/Printf.v ===== *)
(** * Formatted output (lib/libbmk_core/subr_prf.c)

    The format, the [%s] arguments and the output buffer lie in the byte
    memory; variable arguments are a list of 64-bit slots, as the calling
    convention passes them.  Console output goes through the hook set by
    [bmk_printf_init], whose calls are recorded, and into the message buffer.
    Characters read through [char *] are signed.

    The scan of the format is split at the source's labels: [kp_literal] is
    the inner [for], [kp_flags] the [rflag]/[reswitch] part of the [switch]
    (flags, width, precision, size modifiers), [kp_conv] its conversions, and
    [kp_emit] the output of a field.  Loops over the format carry fuel. *)

From S2P Require Import Prelude Mem Cstring.

Definition TOBUFONLY : Z := 1.
Definition TOCONS : Z := 2.
Definition KPRINTF_BUFSIZE : Z := 8 * 8 / 3 + 2.
Definition BMK_DMESG_SIZE : Z := 16 * 1024.

(** A hook: not set yet, [nullfun], or a function of the platform. *)
Inductive hook := Unset | Nullfun | Hook (f : Z).

Record pst := Pst {
  p_mem : mem;
  p_sbuf : Z;
  bmk_dmesg : gmap Z Z;
  bmk_dmesgoff : Z;
  v_putc : hook;
  v_flush : hook;
  p_out : list Z;           (* characters passed to the hook, in order *)
}.

Definition set_pmem (m : mem) (s : pst) : pst :=
  Pst m (p_sbuf s) (bmk_dmesg s) (bmk_dmesgoff s) (v_putc s) (v_flush s) (p_out s).
Definition set_sbuf (p : Z) (s : pst) : pst :=
  Pst (p_mem s) p (bmk_dmesg s) (bmk_dmesgoff s) (v_putc s) (v_flush s) (p_out s).

Definition bmk_printf_init (putc flush : Z) (s : pst) : pst :=
  Pst (p_mem s) (p_sbuf s) (bmk_dmesg s) (bmk_dmesgoff s)
    (if putc =? 0 then Nullfun else Hook putc) (if flush =? 0 then Nullfun else Hook flush) (p_out s).

Definition cons_putchar (c : Z) (s : pst) : outcome pst :=
  let off := bmk_dmesgoff s in
  if negb ((0 <=? off) && (off <? BMK_DMESG_SIZE)) then Undef "bmk_dmesg[bmk_dmesgoff]"
  else
    let dm := <[off := c mod 256]> (bmk_dmesg s) in
    let off := if off + 1 =? BMK_DMESG_SIZE - 1 then 0 else off + 1 in
    match v_putc s with
    | Unset => Undef "v_putc"
    | Nullfun => Done (Pst (p_mem s) (p_sbuf s) dm off (v_putc s) (v_flush s) (p_out s))
    | Hook _ => Done (Pst (p_mem s) (p_sbuf s) dm off (v_putc s) (v_flush s) (p_out s ++ [c]))
    end.

(** Where [kprintf] writes: [vp] says whether a limit is given. *)
Record dest := Dest { oflags : Z; vp : bool; tailp : Z }.

Definition KPRINTF_PUTCHAR (d : dest) (c : Z) (s : pst) : outcome pst :=
  if oflags d =? TOBUFONLY then
    if negb (p_sbuf s =? 0) && (negb (vp d) || (p_sbuf s <? tailp d)) then
      m ← store8 (p_mem s) (p_sbuf s) c;
      Done (set_sbuf (p_sbuf s + 1) (set_pmem m s))
    else Done s
  else cons_putchar c s.

(** [while (n-- > 0) KPRINTF_PUTCHAR(c)] *)
Fixpoint put_n (d : dest) (n : nat) (c : Z) (s : pst) : outcome pst :=
  match n with
  | O => Done s
  | S n => s ← KPRINTF_PUTCHAR d c s; put_n d n c s
  end.

Definition rdchar (m : mem) (p : Z) : outcome Z := b ← load8 m p; Done (schar b).

(** ** Flags *)

Definition ALT : Z := 0x001.
Definition HEXPREFIX : Z := 0x002.
Definition LADJUST : Z := 0x004.
Definition LONGINT : Z := 0x010.
Definition QUADINT : Z := 0x020.
Definition SHORTINT : Z := 0x040.
Definition MAXINT : Z := 0x080.
Definition PTRINT : Z := 0x100.
Definition SIZEINT : Z := 0x200.
Definition ZEROPAD : Z := 0x400.
Definition fl_has (flags mask : Z) : bool := negb (Z.land flags mask =? 0).

Definition is_digit_ch (c : Z) : bool := wrap32 (c - 48) <=? 9.
Definition int_ok (z : Z) : bool := (- 2 ^ 31 <=? z) && (z <? 2 ^ 31).
Definition as_int (z : Z) : outcome Z := if int_ok z then Done z else Undef "int overflow".

Definition va_arg (ap : list Z) : outcome (Z * list Z) :=
  match ap with [] => Undef "va_arg" | a :: ap => Done (a, ap) end.
Definition s16 (z : Z) : Z := (z + 2 ^ 15) mod 2 ^ 16 - 2 ^ 15.
Definition LONGS : Z := Z.lor MAXINT (Z.lor PTRINT (Z.lor SIZEINT (Z.lor QUADINT LONGINT))).
Definition SARG (flags a : Z) : Z :=
  if fl_has flags LONGS then s64 a
  else if fl_has flags SHORTINT then s16 (s32 a) else s32 a.
Definition UARG (flags a : Z) : Z :=
  if fl_has flags LONGS then wrap64 a
  else if fl_has flags SHORTINT then wrap64 (s32 a) else wrap32 a.

(** [while (is_digit(ch)) { n = 10 * n + to_digit(ch); ch = *fmt++; }] *)
Fixpoint kp_digits (fuel : nat) (m : mem) (fmt ch n : Z) : outcome (Z * Z * Z) :=
  match fuel with
  | O => Undef "kprintf: out of fuel"
  | S fuel =>
      if is_digit_ch ch then
        n ← as_int (10 * n + (ch - 48));
        ch ← rdchar m fmt;
        kp_digits fuel m (fmt + 1) ch n
      else Done (n, ch, fmt)
  end.

Record spec := Spec { k_flags : Z; k_width : Z; k_prec : Z; k_sign : Z }.
Definition or_flags (f : Z) (k : spec) : spec := Spec (Z.lor (k_flags k) f) (k_width k) (k_prec k) (k_sign k).

(** The cases of the [switch] that end in [goto rflag] or [goto reswitch];
    returns the conversion character. *)
Fixpoint kp_flags (fuel : nat) (m : mem) (fmt ch : Z) (ap : list Z) (k : spec)
    : outcome (Z * spec * Z * list Z) :=
  match fuel with
  | O => Undef "kprintf: out of fuel"
  | S fuel =>
      let rflag (ap : list Z) (k : spec) := ch ← rdchar m fmt; kp_flags fuel m (fmt + 1) ch ap k in
      if ch =? 32 (* ' ' *) then
        rflag ap (if k_sign k =? 0 then Spec (k_flags k) (k_width k) (k_prec k) 32 else k)
      else if ch =? 35 (* '#' *) then rflag ap (or_flags ALT k)
      else if ch =? 42 (* '*' *) then
        '(a, ap) ← va_arg ap;
        let w := s32 a in
        if 0 <=? w then rflag ap (Spec (k_flags k) w (k_prec k) (k_sign k))
        else
          w ← as_int (- w);
          rflag ap (or_flags LADJUST (Spec (k_flags k) w (k_prec k) (k_sign k)))
      else if ch =? 45 (* '-' *) then rflag ap (or_flags LADJUST k)
      else if ch =? 43 (* '+' *) then rflag ap (Spec (k_flags k) (k_width k) (k_prec k) 43)
      else if ch =? 46 (* '.' *) then
        ch ← rdchar m fmt;
        let fmt := fmt + 1 in
        if ch =? 42 then
          '(a, ap) ← va_arg ap;
          let n := s32 a in
          let k := Spec (k_flags k) (k_width k) (if n <? 0 then -1 else n) (k_sign k) in
          ch ← rdchar m fmt; kp_flags fuel m (fmt + 1) ch ap k
        else
          '(n, ch, fmt) ← kp_digits fuel m fmt ch 0;
          kp_flags fuel m fmt ch ap (Spec (k_flags k) (k_width k) (if n <? 0 then -1 else n) (k_sign k))
      else if ch =? 48 (* '0' *) then rflag ap (or_flags ZEROPAD k)
      else if (49 <=? ch) && (ch <=? 57) then
        '(n, ch, fmt) ← kp_digits fuel m fmt ch 0;
        kp_flags fuel m fmt ch ap (Spec (k_flags k) n (k_prec k) (k_sign k))
      else if ch =? 104 (* 'h' *) then rflag ap (or_flags SHORTINT k)
      else if ch =? 106 (* 'j' *) then rflag ap (or_flags MAXINT k)
      else if ch =? 108 (* 'l' *) then
        c ← rdchar m fmt;
        if c =? 108 then
          ch ← rdchar m (fmt + 1); kp_flags fuel m (fmt + 2) ch ap (or_flags QUADINT k)
        else rflag ap (or_flags LONGINT k)
      else if ch =? 113 (* 'q' *) then rflag ap (or_flags QUADINT k)
      else if ch =? 116 (* 't' *) then rflag ap (or_flags PTRINT k)
      else if ch =? 122 (* 'z' *) then rflag ap (or_flags SIZEINT k)
      else Done (ch, k, fmt, ap)
  end.

(** ** Digits

    [bf] is filled from its end: the list is what lies from [cp] to the end,
    and [*--cp = c] needs room. *)
Definition push (c : Z) (bf : list Z) : outcome (list Z) :=
  if Z.of_nat (length bf) <? KPRINTF_BUFSIZE then Done (c :: bf) else Undef "*--cp below bf".

Definition hexdigits : list Z := bytes_of "0123456789abcdef".
Definition HEXDIGITS : list Z := bytes_of "0123456789ABCDEF".

Fixpoint oct_loop (fuel : nat) (u : Z) (bf : list Z) : outcome (list Z) :=
  match fuel with
  | O => Undef "kprintf: out of fuel"
  | S fuel =>
      bf ← push (Z.land u 7 + 48) bf;
      let u := Z.shiftr u 3 in
      if u =? 0 then Done bf else oct_loop fuel u bf
  end.
Fixpoint dec_loop (fuel : nat) (u : Z) (bf : list Z) : outcome (list Z) :=
  match fuel with
  | O => Undef "kprintf: out of fuel"
  | S fuel =>
      if 10 <=? u then bf ← push (u mod 10 + 48) bf; dec_loop fuel (u / 10) bf
      else push (u + 48) bf
  end.
Fixpoint hex_loop (fuel : nat) (xdigs : list Z) (u : Z) (bf : list Z) : outcome (list Z) :=
  match fuel with
  | O => Undef "kprintf: out of fuel"
  | S fuel =>
      c ← of_option "xdigs" (xdigs !! Z.to_nat (Z.land u 15));
      bf ← push c bf;
      let u := Z.shiftr u 4 in
      if u =? 0 then Done bf else hex_loop fuel xdigs u bf
  end.

Inductive kbase := OCT | DEC | HEX (xdigs : list Z).

(** The label [number]: the digits and the changed flags. *)
Definition kp_number (base : kbase) (flags prec u : Z) : outcome (Z * list Z) :=
  let flags := if 0 <=? prec then Z.land flags (Z.lnot ZEROPAD) else flags in
  bf ←
    (if negb (u =? 0) || negb (prec =? 0) then
       match base with
       | OCT =>
           bf ← oct_loop 64 u [];
           c ← of_option "*cp" (head bf);
           if fl_has flags ALT && negb (c =? 48) then push 48 bf else Done bf
       | DEC => dec_loop 64 u []
       | HEX xdigs => hex_loop 64 xdigs u []
       end
     else Done []);
  Done (flags, bf).

(** ** Conversions *)

(** What a field prints: bytes of [bf], or [size] bytes of memory. *)
Inductive text := InBf (l : list Z) | InMem (cp size : Z).
Definition text_size (t : text) : Z := match t with InBf l => Z.of_nat (length l) | InMem _ n => n end.

Inductive conv :=
  | CEnd                                                  (* "%" at the end of the format *)
  | CStore (m : mem) (ap : list Z)                        (* %n *)
  | CField (ch flags width dprec sign : Z) (t : text) (ap : list Z).

(** Stores the low [n] bytes of [v], little-endian. *)
Fixpoint store_le (n : nat) (m : mem) (p v : Z) : outcome mem :=
  match n with
  | O => Done m
  | S n => m ← store8 m p v; store_le n m (p + 1) (v / 256)
  end.

Definition kp_string (m : mem) (cp prec : Z) : outcome text :=
  if cp =? 0 then
    let l := bytes_of "(null)" in Done (InBf (if 0 <=? prec then take (Z.to_nat prec) l else l))
  else if 0 <=? prec then
    p ← bmk_memchr m cp 0 prec;
    match p with
    | Some p => Done (InMem cp (if prec <? s32 (p - cp) then prec else s32 (p - cp)))
    | None => Done (InMem cp prec)
    end
  else n ← bmk_strlen m cp; Done (InMem cp (s32 n)).

Definition kp_conv (m : mem) (ret ch : Z) (k : spec) (ap : list Z) : outcome conv :=
  let flags := k_flags k in
  let unsigned (ch : Z) (base : kbase) (flags u : Z) (ap : list Z) :=
    '(flags, bf) ← kp_number base flags (k_prec k) u;
    Done (CField ch flags (k_width k) (k_prec k) 0 (InBf bf) ap) in
  if ch =? 99 (* 'c' *) then
    '(a, ap) ← va_arg ap;
    Done (CField ch flags (k_width k) 0 0 (InBf [a mod 256]) ap)
  else if (ch =? 68) || (ch =? 100) || (ch =? 105) (* 'D' 'd' 'i' *) then
    let flags := if ch =? 68 then Z.lor flags LONGINT else flags in
    '(a, ap) ← va_arg ap;
    let q := SARG flags a in
    let '(u, sign) := if q <? 0 then (wneg (wrap64 q), 45) else (q, k_sign k) in
    '(flags, bf) ← kp_number DEC flags (k_prec k) u;
    Done (CField ch flags (k_width k) (k_prec k) sign (InBf bf) ap)
  else if ch =? 110 (* 'n' *) then
    '(a, ap) ← va_arg ap;
    m ← store_le (if fl_has flags LONGS then 8 else if fl_has flags SHORTINT then 2 else 4) m a ret;
    Done (CStore m ap)
  else if (ch =? 79) || (ch =? 111) (* 'O' 'o' *) then
    let flags := if ch =? 79 then Z.lor flags LONGINT else flags in
    '(a, ap) ← va_arg ap; unsigned ch OCT flags (UARG flags a) ap
  else if ch =? 112 (* 'p' *) then
    '(a, ap) ← va_arg ap; unsigned 120 (HEX hexdigits) (Z.lor flags HEXPREFIX) (wrap64 a) ap
  else if ch =? 115 (* 's' *) then
    '(a, ap) ← va_arg ap;
    t ← kp_string m a (k_prec k);
    Done (CField ch flags (k_width k) 0 0 t ap)
  else if (ch =? 85) || (ch =? 117) (* 'U' 'u' *) then
    let flags := if ch =? 85 then Z.lor flags LONGINT else flags in
    '(a, ap) ← va_arg ap; unsigned ch DEC flags (UARG flags a) ap
  else if (ch =? 88) || (ch =? 120) (* 'X' 'x' *) then
    '(a, ap) ← va_arg ap;
    let u := UARG flags a in
    let flags := if fl_has flags ALT && negb (u =? 0) then Z.lor flags HEXPREFIX else flags in
    unsigned ch (HEX (if ch =? 88 then HEXDIGITS else hexdigits)) flags u ap
  else if ch =? 0 then Done CEnd
  else Done (CField ch flags (k_width k) 0 0 (InBf [ch mod 256]) ap).

(** ** Output of a field *)

Fixpoint put_list (d : dest) (l : list Z) (s : pst) : outcome pst :=
  match l with
  | [] => Done s
  | c :: l => s ← KPRINTF_PUTCHAR d (schar c) s; put_list d l s
  end.
Fixpoint put_mem (d : dest) (n : nat) (cp : Z) (s : pst) : outcome pst :=
  match n with
  | O => Done s
  | S n => c ← rdchar (p_mem s) cp; s ← KPRINTF_PUTCHAR d c s; put_mem d n (cp + 1) s
  end.
(** [for (; size--; cp++)] *)
Definition put_text (d : dest) (t : text) (s : pst) : outcome pst :=
  match t with
  | InBf l => put_list d l s
  | InMem cp size => if size <? 0 then Undef "size < 0" else put_mem d (Z.to_nat size) cp s
  end.

Definition kp_emit (d : dest) (ch flags width dprec sign : Z) (t : text) (ret : Z) (s : pst) : outcome (Z * pst) :=
  let size := text_size t in
  let realsz := if size <? dprec then dprec else size in
  realsz ← as_int (if negb (sign =? 0) then realsz + 1
                   else if fl_has flags HEXPREFIX then realsz + 2 else realsz);
  ret ← as_int (ret + (if realsz <? width then width else realsz));
  let pad := Z.to_nat (width - realsz) in
  let adj := Z.land flags (Z.lor LADJUST ZEROPAD) in
  s ← (if adj =? 0 then put_n d pad 32 s else Done s);
  s ← (if negb (sign =? 0) then KPRINTF_PUTCHAR d sign s
       else if fl_has flags HEXPREFIX then s ← KPRINTF_PUTCHAR d 48 s; KPRINTF_PUTCHAR d ch s
       else Done s);
  s ← (if adj =? ZEROPAD then put_n d pad 48 s else Done s);
  s ← put_n d (Z.to_nat (dprec - size)) 48 s;
  s ← put_text d t s;
  s ← (if fl_has flags LADJUST then put_n d pad 32 s else Done s);
  Done (ret, s).

(** ** The format *)

(** [for (; *fmt != '%' && *fmt; fmt++) { ret++; KPRINTF_PUTCHAR( *fmt); }] *)
Fixpoint kp_literal (fuel : nat) (d : dest) (fmt ret : Z) (s : pst) : outcome (Z * Z * pst) :=
  match fuel with
  | O => Undef "kprintf: out of fuel"
  | S fuel =>
      c ← rdchar (p_mem s) fmt;
      if (c =? 37) || (c =? 0) then Done (fmt, ret, s)
      else
        ret ← as_int (ret + 1);
        s ← KPRINTF_PUTCHAR d c s;
        kp_literal fuel d (fmt + 1) ret s
  end.

Fixpoint kprintf_loop (fuel : nat) (d : dest) (fmt ret : Z) (ap : list Z) (s : pst) : outcome (Z * pst) :=
  match fuel with
  | O => Undef "kprintf: out of fuel"
  | S fuel' =>
      '(fmt, ret, s) ← kp_literal fuel d fmt ret s;
      c ← rdchar (p_mem s) fmt;
      if c =? 0 then Done (ret, s)
      else
        let fmt := fmt + 1 in
        ch ← rdchar (p_mem s) fmt;
        '(ch, k, fmt, ap) ← kp_flags fuel (p_mem s) (fmt + 1) ch ap (Spec 0 0 (-1) 0);
        c ← kp_conv (p_mem s) ret ch k ap;
        match c with
        | CEnd => Done (ret, s)
        | CStore m ap => kprintf_loop fuel' d fmt ret ap (set_pmem m s)
        | CField ch flags width dprec sign t ap =>
            '(ret, s) ← kp_emit d ch flags width dprec sign t ret s;
            kprintf_loop fuel' d fmt ret ap s
        end
  end.

Definition call_hook (h : hook) (s : pst) : outcome pst :=
  match h with Unset => Undef "v_flush" | _ => Done s end.

(** The format has at most [size] bytes, all loops over it fewer. *)
Definition kprintf (d : dest) (fmt : Z) (ap : list Z) (s : pst) : outcome (Z * pst) :=
  '(ret, s) ← kprintf_loop (S (S (size (p_mem s)))) d fmt 0 ap s;
  s ← call_hook (v_flush s) s;
  Done (ret, s).

Definition bmk_vprintf (fmt : Z) (ap : list Z) (s : pst) : outcome pst :=
  '(_, s) ← kprintf (Dest TOCONS false 0) fmt ap (set_sbuf 0 s);
  Done s.
Definition bmk_printf := bmk_vprintf.
Definition bmk_putchar (c : Z) (s : pst) : outcome pst := cons_putchar c s.

Definition bmk_vsnprintf (bf size fmt : Z) (ap : list Z) (s : pst) : outcome (Z * pst) :=
  '(retval, s) ← kprintf (Dest TOBUFONLY true (wadd bf size)) fmt ap (set_sbuf bf s);
  if negb (bf =? 0) && (0 <? size) then
    m ← store8 (p_mem s) (if size <=? wrap64 retval then bf + (size - 1) else bf + retval) 0;
    Done (retval, set_pmem m s)
  else Done (retval, s).
Definition bmk_snprintf := bmk_vsnprintf.

(** ** Examples *)

Definition demo_pst (objs : list (Z * string)) : pst :=
  Pst (foldr (fun o m => mem_write m o.1 (cstring o.2)) ∅ objs) 0 ∅ 0 (Hook 1) Nullfun [].

Definition printed (fmt : string) (ap : list Z) (objs : list (Z * string)) : outcome (list Z) :=
  s ← bmk_printf 1000 ap (demo_pst ((1000, fmt) :: objs)); Done (p_out s).

Example printf_ex1 : printed "[%5d|%-6x|%#o|%s]" [-42 mod W64; 255; 8; 2000] [(2000, "hey")]
  = Done (bytes_of "[  -42|ff    |010|hey]").
Proof. vm_compute. reflexivity. Qed.
Example printf_ex2 : printed "%08lX %+.3d %p %c%%" [48879; 7; 4096; 65] []
  = Done (bytes_of "0000BEEF +007 0x1000 A%").
Proof. vm_compute. reflexivity. Qed.
(** An unsigned short argument is not cut to its width. *)
Example printf_hx : printed "%hx" [-1 mod W64] [] = Done (bytes_of "ffffffffffffffff").
Proof. vm_compute. reflexivity. Qed.
