(* ===== verification/PrintfProps.v ===== *)
(** * Formatted output: digits, termination and the ways to fail *)

From S2P Require Import Prelude Mem Cstring Strtoul Printf.

(** ** Digits *)

Lemma digits_value_app b acc l1 l2 : digits_value b acc (l1 ++ l2) = digits_value b (digits_value b acc l1) l2.
Proof. unfold digits_value. apply fold_left_app. Qed.

Lemma dec_digit_of u : 0 <= u < 10 -> digit_of (u + 48) = Some u.
Proof. intros H. unfold digit_of. rewrite (proj2 (andb_true_iff _ _)) by lia. f_equal. lia. Qed.

Lemma push_room c bf : (length bf < 23)%nat -> push c bf = Done (c :: bf).
Proof. intros H. unfold push. change KPRINTF_BUFSIZE with 23. by rewrite (proj2 (Z.ltb_lt _ _)) by lia. Qed.

Lemma dec_loop_spec k : forall fuel u bf, 0 <= u < 10 ^ (Z.of_nat k + 1) -> (length bf + S k <= 23)%nat -> (k < fuel)%nat ->
  exists ds, dec_loop fuel u bf = Done (ds ++ bf) /\ ds <> [] /\ (length ds <= S k)%nat /\
    Forall (is_digit 10) ds /\ digits_value 10 0 ds = u.
Proof.
  induction k as [| k IH]; intros fuel u bf Hu Hl Hf; (destruct fuel as [| fuel]; [lia |]); cbn [dec_loop].
  - change (10 ^ (Z.of_nat 0 + 1)) with 10 in Hu. rewrite (proj2 (Z.leb_gt _ _)) by lia. rewrite push_room by lia.
    exists [u + 48]. split; [done |]. split; [done |]. split; [cbn; lia |]. split.
    + constructor; [| done]. exists u. split; [by apply dec_digit_of | lia].
    + unfold digits_value. cbn [fold_left]. rewrite dec_digit_of by lia. cbn. done.
  - destruct (Z.leb_spec 10 u) as [H | H].
    + rewrite push_room by lia. rewrite Done_bind. pose proof (Z.mod_pos_bound u 10 ltac:(lia)).
      destruct (IH fuel (u / 10) ((u mod 10 + 48) :: bf)) as (ds & E & Hne & Hlen & Hds & Hv).
      * replace (Z.of_nat (S k) + 1) with (Z.succ (Z.of_nat k + 1)) in Hu by lia. rewrite Z.pow_succ_r in Hu by lia.
        split; [apply Z.div_pos; lia | apply Z.div_lt_upper_bound; lia].
      * cbn [length]. lia.
      * lia.
      * exists (ds ++ [u mod 10 + 48]). rewrite E, <- app_assoc. split; [done |]. split; [by destruct ds |].
        split; [rewrite length_app; cbn; lia |]. split.
        -- apply Forall_app. split; [done |]. constructor; [| done]. exists (u mod 10). split; [by apply dec_digit_of | lia].
        -- rewrite digits_value_app, Hv. unfold digits_value. cbn [fold_left]. rewrite dec_digit_of by lia.
           change (default 0 (Some (u mod 10))) with (u mod 10).
           rewrite (Z.div_mod u 10) at 3 by lia. lia.
    + rewrite push_room by lia. exists [u + 48]. split; [done |]. split; [done |]. split; [cbn; lia |]. split.
      * constructor; [| done]. exists u. split; [apply dec_digit_of; lia | lia].
      * unfold digits_value. cbn [fold_left]. rewrite dec_digit_of by lia. cbn. done.
Qed.

Lemma oct_loop_Done k : forall fuel u bf, 0 <= u < 8 ^ (Z.of_nat k + 1) -> (length bf + S k <= 23)%nat -> (k < fuel)%nat ->
  exists ds, oct_loop fuel u bf = Done (ds ++ bf) /\ ds <> [] /\ (length ds <= S k)%nat.
Proof.
  induction k as [| k IH]; intros fuel u bf Hu Hl Hf; (destruct fuel as [| fuel]; [lia |]); cbn [oct_loop];
    rewrite push_room by lia; rewrite Done_bind; cbv zeta.
  - change (10 ^ (Z.of_nat 0 + 1)) with 10 in Hu. rewrite Z.shiftr_div_pow2 by lia. change (2 ^ 3) with 8.
    change (8 ^ (Z.of_nat 0 + 1)) with 8 in Hu. rewrite Z.div_small by lia. cbn [Z.eqb].
    exists [Z.land u 7 + 48]. split; [done |]. split; [done | cbn; lia].
  - rewrite Z.shiftr_div_pow2 by lia. change (2 ^ 3) with 8. destruct (Z.eqb_spec (u / 8) 0) as [H | H].
    + exists [Z.land u 7 + 48]. split; [done |]. split; [done | cbn; lia].
    + destruct (IH fuel (u / 8) ((Z.land u 7 + 48) :: bf)) as (ds & E & Hne & Hlen).
      * replace (Z.of_nat (S k) + 1) with (Z.succ (Z.of_nat k + 1)) in Hu by lia. rewrite Z.pow_succ_r in Hu by lia.
        split; [apply Z.div_pos; lia | apply Z.div_lt_upper_bound; lia].
      * cbn [length]. lia.
      * lia.
      * exists (ds ++ [Z.land u 7 + 48]). rewrite E, <- app_assoc. split; [done |]. split; [by destruct ds |].
        rewrite length_app. cbn. lia.
Qed.

Lemma hex_loop_Done xdigs k : length xdigs = 16%nat ->
  forall fuel u bf, 0 <= u < 16 ^ (Z.of_nat k + 1) -> (length bf + S k <= 23)%nat -> (k < fuel)%nat ->
  exists ds, hex_loop fuel xdigs u bf = Done (ds ++ bf) /\ ds <> [] /\ (length ds <= S k)%nat.
Proof.
  intros Hx. induction k as [| k IH]; intros fuel u bf Hu Hl Hf; (destruct fuel as [| fuel]; [lia |]); cbn [hex_loop].
  all: assert (exists c, xdigs !! Z.to_nat (Z.land u 15) = Some c) as [c Hc]
    by (apply lookup_lt_is_Some_2; change 15 with (Z.ones 4); rewrite Z.land_ones by lia;
        pose proof (Z.mod_pos_bound u (2 ^ 4) ltac:(lia)); change (2 ^ 4) with 16 in *; lia).
  all: rewrite Hc, of_option_Some, Done_bind, push_room by lia; rewrite Done_bind; cbv zeta;
    rewrite Z.shiftr_div_pow2 by lia; change (2 ^ 4) with 16.
  - change (16 ^ (Z.of_nat 0 + 1)) with 16 in Hu. rewrite Z.div_small by lia. cbn [Z.eqb].
    exists [c]. split; [done |]. split; [done | cbn; lia].
  - destruct (Z.eqb_spec (u / 16) 0) as [H | H].
    + exists [c]. split; [done |]. split; [done | cbn; lia].
    + destruct (IH fuel (u / 16) (c :: bf)) as (ds & E & Hne & Hlen).
      * replace (Z.of_nat (S k) + 1) with (Z.succ (Z.of_nat k + 1)) in Hu by lia. rewrite Z.pow_succ_r in Hu by lia.
        split; [apply Z.div_pos; lia | apply Z.div_lt_upper_bound; lia].
      * cbn [length]. lia.
      * lia.
      * exists (ds ++ [c]). rewrite E, <- app_assoc. split; [done |]. split; [by destruct ds |].
        rewrite length_app. cbn. lia.
Qed.

(** The buffer of 23 bytes is large enough for every conversion. *)
Lemma u64_below u b k : u64 u -> (W64 <=? b ^ (Z.of_nat k + 1)) = true -> 0 <= u < b ^ (Z.of_nat k + 1).
Proof. unfold u64. lia. Qed.

Definition base_ok (b : kbase) : Prop := match b with HEX x => length x = 16%nat | _ => True end.
Lemma kp_number_Done base flags prec u : base_ok base -> u64 u ->
  exists flags' bf, kp_number base flags prec u = Done (flags', bf) /\ (length bf <= 23)%nat.
Proof.
  intros Hb Hu. unfold kp_number.
  set (flags' := if 0 <=? prec then _ else _). destruct (negb (u =? 0) || negb (prec =? 0)).
  2: { rewrite Done_bind. eexists _, _. split; [reflexivity | cbn; lia]. }
  destruct base as [| | x].
  - destruct (oct_loop_Done 21 64 u []) as (ds & E & Hne & Hlen); [by apply u64_below | cbn; lia | lia |].
    rewrite app_nil_r in E. rewrite E, Done_bind. destruct ds as [| c ds]; [done |].
    cbn [head]. rewrite of_option_Some, Done_bind. destruct (_ && _).
    + rewrite push_room by lia. rewrite Done_bind. eexists _, _. split; [reflexivity | cbn in *; lia].
    + rewrite Done_bind. eexists _, _. split; [reflexivity | cbn in *; lia].
  - destruct (dec_loop_spec 19 64 u []) as (ds & E & _ & Hlen & _); [by apply u64_below | cbn; lia | lia |].
    rewrite app_nil_r in E. rewrite E, Done_bind. eexists _, _. split; [reflexivity | lia].
  - destruct (hex_loop_Done x 15 Hb 64 u []) as (ds & E & _ & Hlen); [by apply u64_below | cbn; lia | lia |].
    rewrite app_nil_r in E. rewrite E, Done_bind. eexists _, _. split; [reflexivity | lia].
Qed.

(** ** How a call may fail

    The environment's errors: a pointer outside every object, a missing
    argument, a count beyond the range of [int], a hook that is not set. *)
Definition user_error (w : string) : Prop :=
  w ∈ ["load outside every object"; "store outside every object"; "va_arg"; "int overflow"; "size < 0";
       "v_putc"; "v_flush"].
Definition out_of_fuel : string := "kprintf: out of fuel".

(** [m] fails only through the environment, or, when [F] holds, out of fuel. *)
Definition fails {A} (m : outcome A) (F : Prop) : Prop :=
  (forall w, m = Undef w -> user_error w \/ w = out_of_fuel /\ F) /\ (forall w, m <> Halt w).

Lemma fails_Done {A} (a : A) F : fails (Done a) F.
Proof. by split. Qed.
Lemma fails_user {A} w F : user_error w -> fails (@Undef A w) F.
Proof. intros H. split; [intros w' [= <-]; by left | done]. Qed.
Lemma fails_fuel {A} (F : Prop) : F -> fails (@Undef A out_of_fuel) F.
Proof. intros H. split; [intros w' [= <-]; by right | done]. Qed.
Lemma fails_bind {A B} (m : outcome A) (f : A -> outcome B) F :
  fails m F -> (forall a, m = Done a -> fails (f a) F) -> fails (m ≫= f) F.
Proof.
  intros [H1 H2] Hf. destruct m as [a | w | w]; cbn.
  - by apply Hf.
  - by destruct (H2 w).
  - split; [intros w' [= <-]; by apply H1 | done].
Qed.
Lemma fails_weaken {A} (m : outcome A) (F F' : Prop) : fails m F -> (F -> F') -> fails m F'.
Proof. intros [H1 H2] Hi. split; [| done]. intros w E. destruct (H1 w E) as [? | [? ?]]; auto. Qed.

Lemma user_error_eq w : (w =? "load outside every object")%string || (w =? "store outside every object")%string ||
  (w =? "va_arg")%string || (w =? "int overflow")%string || (w =? "size < 0")%string || (w =? "v_putc")%string ||
  (w =? "v_flush")%string = true -> user_error w.
Proof.
  rewrite !orb_true_iff, !String.eqb_eq. unfold user_error. intros H. rewrite !elem_of_cons. tauto.
Qed.
Ltac user_err := apply fails_user, user_error_eq; reflexivity.

Lemma fails_load m p F : fails (load8 m p) F.
Proof. unfold load8. destruct (m !! p); [apply fails_Done | user_err]. Qed.
Lemma fails_store m p v F : fails (store8 m p v) F.
Proof. unfold store8. destruct (m !! p); [apply fails_Done | user_err]. Qed.
Lemma fails_rd m p F : fails (rdchar m p) F.
Proof. apply fails_bind; [apply fails_load |]. intros. apply fails_Done. Qed.
Lemma fails_int z F : fails (as_int z) F.
Proof. unfold as_int. destruct (int_ok z); [apply fails_Done | user_err]. Qed.
Lemma fails_va ap F : fails (va_arg ap) F.
Proof. destruct ap; [user_err | apply fails_Done]. Qed.

Create HintDb fails.
#[export] Hint Resolve fails_Done fails_load fails_store fails_rd fails_int fails_va : fails.
Ltac fails_step := first [apply fails_Done | apply fails_bind; [solve [auto with fails] |] | solve [auto with fails]].

(** ** Reading the format

    Every pass of a loop over the format reads one more byte of it, so a loop
    that runs out of fuel has seen as many consecutive mapped bytes. *)

Lemma rd_mapped m p c : rdchar m p = Done c -> mapped m p 1.
Proof.
  unfold rdchar, load8. destruct (m !! p) as [b |] eqn:E; [| done]. intros _. apply mapped_S. split; [by rewrite E |].
  intros i Hi. lia.
Qed.

Lemma mapped_app m p a b : mapped m p a -> mapped m (p + Z.of_nat a) b -> mapped m p (a + b).
Proof.
  intros H1 H2 i Hi. destruct (decide (i < a)%nat); [auto |].
  replace (p + Z.of_nat i) with (p + Z.of_nat a + Z.of_nat (i - a)) by lia. apply H2. lia.
Qed.

Lemma rd_mapped_S m p c n : rdchar m p = Done c -> mapped m (p + 1) n -> mapped m p (S n).
Proof. intros H1 H2. apply (mapped_app m p 1 n); [by eapply rd_mapped | done]. Qed.

(** [fmt'] is reached from [fmt] by reading mapped bytes. *)
Definition scanned (m : mem) (fmt fmt' : Z) : Prop := fmt <= fmt' /\ mapped m fmt (Z.to_nat (fmt' - fmt)).

Lemma scanned_refl m p : scanned m p p.
Proof. split; [lia |]. intros i Hi. lia. Qed.
Lemma scanned_trans m a b c : scanned m a b -> scanned m b c -> scanned m a c.
Proof.
  intros [H1 H2] [H3 H4]. split; [lia |].
  replace (Z.to_nat (c - a)) with (Z.to_nat (b - a) + Z.to_nat (c - b))%nat by lia. apply mapped_app; [done |].
  by replace (a + Z.of_nat (Z.to_nat (b - a))) with b by lia.
Qed.
Lemma scanned_rd m p c : rdchar m p = Done c -> scanned m p (p + 1).
Proof. intros H. split; [lia |]. replace (Z.to_nat (p + 1 - p)) with 1%nat by lia. by eapply rd_mapped. Qed.
Lemma scanned_mapped m a b n k : scanned m a b -> mapped m b n -> (k <= Z.to_nat (b - a) + n)%nat -> mapped m a k.
Proof.
  intros [H1 H2] H3 Hk. apply (mapped_mono m a (Z.to_nat (b - a) + n)); [done |]. apply mapped_app; [done |].
  by replace (a + Z.of_nat (Z.to_nat (b - a))) with b by lia.
Qed.

Lemma kp_digits_fails fuel : forall m fmt ch n, fails (kp_digits fuel m fmt ch n) (mapped m fmt fuel).
Proof.
  induction fuel as [| fuel IH]; intros m fmt ch n; cbn [kp_digits].
  - apply fails_fuel. intros i Hi. lia.
  - destruct (is_digit_ch ch); [| fails_step]. fails_step. intros n' _. fails_step. intros c Hc.
    eapply fails_weaken; [apply IH |]. intros Hm. by eapply rd_mapped_S.
Qed.

Lemma kp_digits_scan fuel : forall m fmt ch n r, kp_digits fuel m fmt ch n = Done r ->
  scanned m fmt r.2 /\ (is_digit_ch ch = true -> fmt + 1 <= r.2).
Proof.
  induction fuel as [| fuel IH]; intros m fmt ch n r H; cbn [kp_digits] in H; [done |].
  destruct (is_digit_ch ch); outcome_inv; cbn [snd].
  - match goal with H1 : kp_digits _ _ _ _ _ = Done _, H2 : rdchar _ _ = Done _ |- _ =>
      destruct (IH _ _ _ _ _ H1) as [Hs _]; pose proof (scanned_rd _ _ _ H2) as Hr end.
    split; [by eapply scanned_trans |]. intros _. apply Hs.
  - split; [apply scanned_refl | done].
Qed.

Lemma digit_19 ch : (49 <=? ch) && (ch <=? 57) = true -> is_digit_ch ch = true.
Proof. intros H. apply andb_true_iff in H. unfold is_digit_ch, wrap32. rewrite Z.mod_small by lia. lia. Qed.

Lemma kp_flags_scan fuel : forall m fmt ch ap k,
  fails (kp_flags fuel m fmt ch ap k) (mapped m fmt (pred fuel)) /\
  forall r, kp_flags fuel m fmt ch ap k = Done r -> scanned m fmt r.1.2.
Proof.
  induction fuel as [| fuel IH]; intros m fmt ch ap k; cbn [kp_flags].
  { split; [apply fails_fuel; intros i Hi; cbn in Hi; lia | done]. }
  cbn [pred].
  (* [goto rflag], [off] bytes further *)
  assert (forall ap k (fmt0 : Z), scanned m fmt fmt0 ->
    let run := ch ← rdchar m fmt0; kp_flags fuel m (fmt0 + 1) ch ap k in
    fails run (mapped m fmt fuel) /\ forall r, run = Done r -> scanned m fmt r.1.2) as Hr.
  { intros ap' k' fmt0 Hs run. split.
    - apply fails_bind; [auto with fails |]. intros c Hc. eapply fails_weaken; [apply IH |]. intros Hm.
      pose proof (rd_mapped_S _ _ _ _ Hc Hm) as Hm'. eapply scanned_mapped; [exact Hs | exact Hm' |]. destruct Hs. lia.
    - intros r H. unfold run in H. outcome_inv. eapply scanned_trans; [exact Hs |].
      eapply scanned_trans; [by eapply scanned_rd | by eapply IH]. }
  (* a number, then [goto reswitch] *)
  assert (forall fmt0 c (k' : Z -> spec), scanned m fmt fmt0 -> (fmt + 1 <= fmt0 \/ is_digit_ch c = true) ->
    let run := '(n, ch, fmt) ← kp_digits fuel m fmt0 c 0; kp_flags fuel m fmt ch ap (k' n) in
    fails run (mapped m fmt fuel) /\ forall r, run = Done r -> scanned m fmt r.1.2) as Hn.
  { intros fmt0 c k' Hs Hadv run. split.
    - apply fails_bind.
      + eapply fails_weaken; [apply kp_digits_fails |]. intros Hm.
        eapply scanned_mapped; [exact Hs | exact Hm | destruct Hs; lia].
      + intros [[n ch'] fmt'] E. destruct (kp_digits_scan _ _ _ _ _ _ E) as [Hs' Hd']. cbn [snd] in *.
        eapply fails_weaken; [apply IH |]. intros Hm.
        eapply scanned_mapped; [eapply scanned_trans; [exact Hs | exact Hs'] | exact Hm |].
        destruct Hs as [? _], Hs' as [? _]. destruct Hadv as [? | Hd]; [lia | specialize (Hd' Hd); lia].
    - intros r H. unfold run in H. outcome_inv. destruct r0 as [[n ch'] fmt'].
      match goal with H1 : kp_digits _ _ _ _ _ = Done _ |- _ => destruct (kp_digits_scan _ _ _ _ _ _ H1) as [Hs' _] end.
      cbn [snd] in *. eapply scanned_trans; [exact Hs |]. eapply scanned_trans; [exact Hs' |]. by eapply IH. }
  pose proof (fun ap k => Hr ap k fmt (scanned_refl m fmt)) as Hr0.
  cbv zeta. destruct (ch =? 32); [apply Hr0 |]. destruct (ch =? 35); [apply Hr0 |].
  destruct (ch =? 42).
  { destruct ap as [| a ap']; [split; [user_err | done] |]. cbn [va_arg]. rewrite Done_bind.
    destruct (0 <=? s32 a); [apply Hr0 |]. split.
    - apply fails_bind; [auto with fails |]. intros w _. apply Hr0.
    - intros r H. outcome_inv. eapply Hr0. unfold mbind, outcome_bind.
      match goal with H1 : rdchar _ _ = Done _ |- _ => rewrite H1 end. eassumption. }
  destruct (ch =? 45); [apply Hr0 |]. destruct (ch =? 43); [apply Hr0 |].
  destruct (ch =? 46).
  { split.
    - apply fails_bind; [auto with fails |]. intros c Hc. pose proof (scanned_rd _ _ _ Hc) as Hs. destruct (c =? 42).
      + apply fails_bind; [auto with fails |]. intros [a ap'] _. by apply Hr.
      + apply (Hn (fmt + 1) c (fun n => Spec (k_flags k) (k_width k) (if n <? 0 then -1 else n) (k_sign k)) Hs). left. lia.
    - intros r H. apply bind_Done in H as (c & Hc & H). pose proof (scanned_rd _ _ _ Hc) as Hs. destruct (c =? 42).
      + apply bind_Done in H as ([a ap'] & _ & H). by eapply Hr in H.
      + apply (Hn (fmt + 1) c (fun n => Spec (k_flags k) (k_width k) (if n <? 0 then -1 else n) (k_sign k)) Hs); [left; lia | done]. }
  destruct (ch =? 48); [apply Hr0 |].
  destruct ((49 <=? ch) && (ch <=? 57)) eqn:Ed.
  { apply (Hn fmt ch (fun n => Spec (k_flags k) n (k_prec k) (k_sign k)) (scanned_refl m fmt)). right. by apply digit_19. }
  destruct (ch =? 104); [apply Hr0 |]. destruct (ch =? 106); [apply Hr0 |].
  destruct (ch =? 108).
  { split.
    - apply fails_bind; [auto with fails |]. intros c Hc. destruct (c =? 108); [| apply Hr0].
      replace (fmt + 2) with (fmt + 1 + 1) by lia. apply Hr. by eapply scanned_rd.
    - intros r H. apply bind_Done in H as (c & Hc & H). destruct (c =? 108); [| by eapply Hr0].
      replace (fmt + 2) with (fmt + 1 + 1) in H by lia. eapply Hr; [by eapply scanned_rd | exact H]. }
  destruct (ch =? 113); [apply Hr0 |]. destruct (ch =? 116); [apply Hr0 |]. destruct (ch =? 122); [apply Hr0 |].
  split; [fails_step |]. intros r [= <-]. apply scanned_refl.
Qed.

(** ** Output *)

(** Writing through pointers does not change which addresses exist, and the
    message buffer index stays below the last byte. *)
Definition keeps (m m' : mem) : Prop := forall a, is_Some (m !! a) <-> is_Some (m' !! a).
Definition dmesg_ok (s : pst) : Prop := 0 <= bmk_dmesgoff s < BMK_DMESG_SIZE - 1.
Definition steady (s s' : pst) : Prop := keeps (p_mem s) (p_mem s') /\ dmesg_ok s'.

Lemma keeps_refl m : keeps m m.
Proof. done. Qed.
Lemma keeps_trans m1 m2 m3 : keeps m1 m2 -> keeps m2 m3 -> keeps m1 m3.
Proof. intros H1 H2 a. etrans; [apply H1 | apply H2]. Qed.
Lemma keeps_mapped m m' p n : keeps m m' -> mapped m' p n -> mapped m p n.
Proof. intros H Hm i Hi. apply H. by apply Hm. Qed.
Lemma keeps_scanned m m' a b : keeps m m' -> scanned m' a b -> scanned m a b.
Proof. intros H [H1 H2]. split; [done |]. by eapply keeps_mapped. Qed.
Lemma store8_keeps m p v m' : store8 m p v = Done m' -> keeps m m'.
Proof.
  unfold store8. destruct (m !! p) eqn:E; [| done]. intros [= <-] a.
  destruct (decide (p = a)) as [-> | ?]; [rewrite lookup_insert_eq, E | rewrite lookup_insert_ne by done]; done.
Qed.
Lemma store_le_ok n : forall m p v F, fails (store_le n m p v) F /\ forall m', store_le n m p v = Done m' -> keeps m m'.
Proof.
  induction n as [| n IH]; intros m p v F; cbn [store_le].
  - split; [apply fails_Done |]. intros m' [= <-]. apply keeps_refl.
  - split.
    + apply fails_bind; [auto with fails |]. intros m1 _. apply IH.
    + intros m' H. outcome_inv. eapply keeps_trans; [by eapply store8_keeps | by eapply IH].
Qed.

Lemma steady_refl s : dmesg_ok s -> steady s s.
Proof. split; [apply keeps_refl | done]. Qed.
Lemma steady_trans s1 s2 s3 : steady s1 s2 -> steady s2 s3 -> steady s1 s3.
Proof. intros [H1 _] [H2 H3]. split; [by eapply keeps_trans | done]. Qed.

(** A piece of output fails only through the environment and is steady. *)
Definition outputs (f : pst -> outcome pst) : Prop :=
  forall s F, dmesg_ok s -> fails (f s) F /\ forall s', f s = Done s' -> steady s s'.

Lemma putchar_outputs d c : outputs (KPRINTF_PUTCHAR d c).
Proof.
  intros s F Hd. unfold KPRINTF_PUTCHAR. destruct (oflags d =? TOBUFONLY).
  - destruct (negb (p_sbuf s =? 0) && _).
    + split.
      * fails_step. intros. fails_step.
      * intros s' H. outcome_inv. split; [by eapply store8_keeps | done].
    + split; [fails_step |]. intros s' [= <-]. by apply steady_refl.
  - unfold cons_putchar. unfold dmesg_ok in Hd. rewrite (proj2 (andb_true_iff _ _)) by lia. cbn [negb]. cbv zeta.
    assert (0 <= (if bmk_dmesgoff s + 1 =? BMK_DMESG_SIZE - 1 then 0 else bmk_dmesgoff s + 1) < BMK_DMESG_SIZE - 1).
    { destruct (Z.eqb_spec (bmk_dmesgoff s + 1) (BMK_DMESG_SIZE - 1)); [unfold BMK_DMESG_SIZE |]; lia. }
    destruct (v_putc s); (split; [first [user_err | apply fails_Done] |]); intros s' [= <-]; done.
Qed.

Lemma outputs_Done : outputs Done.
Proof. intros s F Hd. split; [apply fails_Done |]. intros s' [= <-]. by apply steady_refl. Qed.

Lemma outputs_bind f g : outputs f -> outputs g -> outputs (fun s => f s ≫= g).
Proof.
  intros Hf Hg s F Hd. destruct (Hf s F Hd) as [H1 H2]. split.
  - apply fails_bind; [done |]. intros a E. apply Hg. by apply H2.
  - intros s' H. apply bind_Done in H as (a & Ha & H). eapply steady_trans; [by apply H2 |].
    by apply (Hg a F (proj2 (H2 a Ha))).
Qed.

Lemma put_n_outputs d n c : outputs (put_n d n c).
Proof. induction n as [| n IH]; [apply outputs_Done |]. apply outputs_bind; [apply putchar_outputs | exact IH]. Qed.
Lemma put_list_outputs d l : outputs (put_list d l).
Proof. induction l as [| c l IH]; [apply outputs_Done |]. apply outputs_bind; [apply putchar_outputs | exact IH]. Qed.
Lemma put_mem_outputs d n : forall cp, outputs (put_mem d n cp).
Proof.
  induction n as [| n IH]; intros cp; [apply outputs_Done |]. intros s F Hd. cbn [put_mem]. split.
  - fails_step. intros c _. apply (outputs_bind _ _ (putchar_outputs d c) (IH (cp + 1)) s F Hd).
  - intros s' H. apply bind_Done in H as (c & _ & H). by apply (outputs_bind _ _ (putchar_outputs d c) (IH (cp + 1)) s F Hd).
Qed.
Lemma put_text_outputs d t : outputs (put_text d t).
Proof.
  destruct t as [l | cp size]; intros s F Hd; cbn [put_text]; [by apply put_list_outputs |].
  destruct (size <? 0); [split; [user_err | done] | by apply put_mem_outputs].
Qed.
Lemma outputs_if (b : bool) f g : outputs f -> outputs g -> outputs (fun s => if b then f s else g s).
Proof. by destruct b. Qed.

(** The output of a field, as one function of the destination. *)
Definition emit_text (ch flags sign : Z) (pad nz : nat) (t : text) (d : dest) (s : pst) : outcome pst :=
  s ← (if Z.land flags (Z.lor LADJUST ZEROPAD) =? 0 then put_n d pad 32 s else Done s);
  s ← (if negb (sign =? 0) then KPRINTF_PUTCHAR d sign s
       else if fl_has flags HEXPREFIX then s ← KPRINTF_PUTCHAR d 48 s; KPRINTF_PUTCHAR d ch s else Done s);
  s ← (if Z.land flags (Z.lor LADJUST ZEROPAD) =? ZEROPAD then put_n d pad 48 s else Done s);
  s ← put_n d nz 48 s; s ← put_text d t s;
  (if fl_has flags LADJUST then put_n d pad 32 s else Done s).

Lemma kp_emit_text d ch flags width dprec sign t ret s :
  kp_emit d ch flags width dprec sign t ret s =
    (realsz ← as_int (let r := if text_size t <? dprec then dprec else text_size t in
       if negb (sign =? 0) then r + 1 else if fl_has flags HEXPREFIX then r + 2 else r);
     ret ← as_int (ret + (if realsz <? width then width else realsz));
     s ← emit_text ch flags sign (Z.to_nat (width - realsz)) (Z.to_nat (dprec - text_size t)) t d s;
     Done (ret, s)).
Proof.
  unfold kp_emit, emit_text. cbv zeta. destruct (as_int _) as [realsz | |]; [| done | done]. rewrite !Done_bind.
  destruct (as_int _) as [ret' | |]; [| done | done]. rewrite !Done_bind.
  destruct (if Z.land flags (Z.lor LADJUST ZEROPAD) =? 0 then _ else _) as [s1 | |]; [| done | done].
  rewrite !Done_bind. destruct (if negb (sign =? 0) then _ else _) as [s2 | |]; [| done | done].
  rewrite !Done_bind. destruct (if Z.land flags (Z.lor LADJUST ZEROPAD) =? ZEROPAD then _ else _) as [s3 | |]; [| done | done].
  rewrite !Done_bind. destruct (put_n d _ 48 s3) as [s4 | |]; [| done | done].
  rewrite !Done_bind. destruct (put_text d t s4) as [s5 | |]; [| done | done]. by rewrite !Done_bind.
Qed.

Ltac outs := first
  [ apply put_n_outputs | apply putchar_outputs | apply put_text_outputs | apply outputs_Done
  | apply outputs_if; outs | apply outputs_bind; outs ].

Lemma emit_outputs ch flags sign pad nz t d : outputs (emit_text ch flags sign pad nz t d).
Proof. unfold emit_text. outs. Qed.

Lemma kp_emit_ok d ch flags width dprec sign t ret s F : dmesg_ok s ->
  fails (kp_emit d ch flags width dprec sign t ret s) F /\
  forall r, kp_emit d ch flags width dprec sign t ret s = Done r -> steady s r.2.
Proof.
  intros Hd. rewrite kp_emit_text. split.
  - apply fails_bind; [auto with fails |]. intros realsz _. apply fails_bind; [auto with fails |]. intros ret' _.
    apply fails_bind; [by apply emit_outputs |]. intros. apply fails_Done.
  - intros r H. apply bind_Done in H as (realsz & _ & H). apply bind_Done in H as (ret' & _ & H).
    apply bind_Done in H as (s' & E & [= <-]). destruct (emit_outputs ch flags sign (Z.to_nat (width - realsz)) (Z.to_nat (dprec - text_size t)) t d s F Hd) as [_ H]. auto.
Qed.

(** ** Conversions *)

Lemma strlen_fails m p F : fails (bmk_strlen m p) F.
Proof.
  unfold bmk_strlen. assert (forall fuel q rv, (forall w, strlen_loop fuel m q rv = Undef w -> user_error w \/ mapped m q fuel) /\
    forall w, strlen_loop fuel m q rv <> Halt w) as H.
  { induction fuel as [| fuel IH]; intros q rv; cbn [strlen_loop].
    - split; [| done]. intros w _. right. intros i Hi. lia.
    - unfold load8. destruct (m !! q) as [b |] eqn:E; cbn [of_option].
      + rewrite Done_bind. destruct (b =? 0); [done |]. split; [| apply IH].
        intros w Hw. destruct (proj1 (IH (q + 1) (wadd rv 1)) w Hw) as [? | Hm]; [by left | right].
        apply mapped_S. split; [by rewrite E | done].
      + split; [| done]. intros w [= <-]. left. by apply user_error_eq. }
  destruct (H (S (size m)) p 0) as [H1 H2]. split; [| done]. intros w Hw. destruct (H1 w Hw) as [? | Hm]; [by left |].
  apply mapped_size in Hm. lia.
Qed.

Lemma memchr_fails n : forall m p c F, fails (memchr_loop 1 n m p c) F.
Proof.
  induction n as [| n IH]; intros m p c F; cbn [memchr_loop]; [apply fails_Done |].
  fails_step. intros b _. destruct (b =? c mod 256); [apply fails_Done | apply IH].
Qed.

Lemma kp_string_fails m cp prec F : fails (kp_string m cp prec) F.
Proof.
  unfold kp_string. destruct (cp =? 0); [apply fails_Done |]. destruct (0 <=? prec).
  - apply fails_bind; [apply memchr_fails |]. intros [p |] _; apply fails_Done.
  - apply fails_bind; [apply strlen_fails |]. intros n _. apply fails_Done.
Qed.

Lemma kp_number_fails base flags prec u F : base_ok base -> u64 u -> fails (kp_number base flags prec u) F.
Proof. intros Hb Hu. destruct (kp_number_Done base flags prec u Hb Hu) as (f & bf & -> & _). apply fails_Done. Qed.

Lemma UARG_u64 flags a : u64 (UARG flags a).
Proof.
  unfold UARG. destruct (fl_has flags LONGS); [apply wrap64_u64 |]. destruct (fl_has flags SHORTINT); [apply wrap64_u64 |].
  unfold wrap32, u64. pose proof (Z.mod_pos_bound a (2 ^ 32) ltac:(lia)). unfold W64. lia.
Qed.

Lemma SARG_range flags a : - 2 ^ 63 <= SARG flags a < 2 ^ 63.
Proof.
  unfold SARG, s64, s32, s16. pose proof (Z.mod_pos_bound (a + 2 ^ 63) (2 ^ 64) ltac:(lia)).
  destruct (fl_has flags LONGS); [lia |].
  destruct (fl_has flags SHORTINT); [pose proof (Z.mod_pos_bound ((a + 2 ^ 31) mod 2 ^ 32 - 2 ^ 31 + 2 ^ 15) (2 ^ 16) ltac:(lia)) |
    pose proof (Z.mod_pos_bound (a + 2 ^ 31) (2 ^ 32) ltac:(lia))]; lia.
Qed.

Lemma kp_conv_ok m ret ch k ap F :
  fails (kp_conv m ret ch k ap) F /\
  forall c, kp_conv m ret ch k ap = Done c -> match c with CStore m' _ => keeps m m' | _ => True end.
Proof.
  assert (forall ch base flags u ap, base_ok base -> u64 u ->
    let run := '(flags, bf) ← kp_number base flags (k_prec k) u; Done (CField ch flags (k_width k) (k_prec k) 0 (InBf bf) ap) in
    fails run F /\ forall c, run = Done c -> match c with CStore m' _ => keeps m m' | _ => True end) as Hu.
  { intros ch' base flags u ap' Hb Hu64 run. destruct (kp_number_Done base flags (k_prec k) u Hb Hu64) as (f & bf & E & _).
    unfold run. rewrite E, Done_bind. split; [apply fails_Done |]. by intros c [= <-]. }
  assert (forall (g : Z * list Z -> outcome conv), (forall a, fails (g a) F /\ forall c, g a = Done c -> match c with CStore m' _ => keeps m m' | _ => True end) ->
    fails (va_arg ap ≫= g) F /\ forall c, va_arg ap ≫= g = Done c -> match c with CStore m' _ => keeps m m' | _ => True end) as Hva.
  { intros g Hg. split; [fails_step; intros a _; apply Hg |]. intros c H. apply bind_Done in H as (a & _ & H). by apply (Hg a). }
  unfold kp_conv. cbv zeta.
  destruct (ch =? 99). { apply Hva. intros [a ap']. split; [apply fails_Done |]. by intros c [= <-]. }
  destruct ((ch =? 68) || (ch =? 100) || (ch =? 105)).
  { apply Hva. intros [a ap']. set (fl := if ch =? 68 then _ else _). pose proof (SARG_range fl a) as Hq.
    destruct (SARG fl a <? 0) eqn:Eq.
    - destruct (kp_number_Done DEC fl (k_prec k) (wneg (wrap64 (SARG fl a))) I (wrap64_u64 _)) as (f & bf & -> & _).
      rewrite Done_bind. split; [apply fails_Done |]. by intros c [= <-].
    - destruct (kp_number_Done DEC fl (k_prec k) (SARG fl a) I) as (f & bf & -> & _); [unfold u64, W64; lia |].
      rewrite Done_bind. split; [apply fails_Done |]. by intros c [= <-]. }
  destruct (ch =? 110).
  { apply Hva. intros [a ap']. split.
    - apply fails_bind; [apply store_le_ok |]. intros. apply fails_Done.
    - intros c H. apply bind_Done in H as (m' & E & [= <-]). by apply (proj2 (store_le_ok _ _ _ _ F) _ E). }
  destruct ((ch =? 79) || (ch =? 111)). { apply Hva. intros [a ap']. apply Hu; [done | apply UARG_u64]. }
  destruct (ch =? 112). { apply Hva. intros [a ap']. apply Hu; [done | apply wrap64_u64]. }
  destruct (ch =? 115).
  { apply Hva. intros [a ap']. split.
    - apply fails_bind; [apply kp_string_fails |]. intros. apply fails_Done.
    - intros c H. by apply bind_Done in H as (t & _ & [= <-]). }
  destruct ((ch =? 85) || (ch =? 117)). { apply Hva. intros [a ap']. apply Hu; [done | apply UARG_u64]. }
  destruct ((ch =? 88) || (ch =? 120)). { apply Hva. intros [a ap']. apply Hu; [by destruct (ch =? 88) | apply UARG_u64]. }
  destruct (ch =? 0); (split; [apply fails_Done |]); by intros c [= <-].
Qed.

(** ** The whole format *)

Lemma kp_literal_ok fuel : forall d fmt ret s, dmesg_ok s ->
  fails (kp_literal fuel d fmt ret s) (mapped (p_mem s) fmt fuel) /\
  forall r, kp_literal fuel d fmt ret s = Done r -> steady s r.2 /\ scanned (p_mem s) fmt r.1.1.
Proof.
  induction fuel as [| fuel IH]; intros d fmt ret s Hd; cbn [kp_literal].
  { split; [apply fails_fuel; intros i Hi; lia | done]. }
  split.
  - fails_step. intros c Hc. destruct ((c =? 37) || (c =? 0)); [apply fails_Done |].
    fails_step. intros ret' _. apply fails_bind; [by apply putchar_outputs |]. intros s1 E1.
    destruct (putchar_outputs d c s True Hd) as [_ Hs]. destruct (Hs s1 E1) as [Hk Hd1].
    eapply fails_weaken; [by apply IH |]. intros Hm. eapply rd_mapped_S; [exact Hc |]. by eapply keeps_mapped.
  - intros r H. apply bind_Done in H as (c & Hc & H). destruct ((c =? 37) || (c =? 0)).
    + injection H as <-. split; [by apply steady_refl | apply scanned_refl].
    + apply bind_Done in H as (ret' & _ & H). apply bind_Done in H as (s1 & E1 & H).
      destruct (putchar_outputs d c s True Hd) as [_ Hs]. destruct (Hs s1 E1) as [Hk Hd1].
      destruct (IH d (fmt + 1) ret' s1 Hd1) as [_ Hr]. destruct (Hr r H) as [Hst Hsc].
      split; [by eapply steady_trans |]. eapply scanned_trans; [by eapply scanned_rd |]. by eapply keeps_scanned.
Qed.

Lemma kprintf_loop_ok fuel : forall d fmt ret ap s, dmesg_ok s ->
  fails (kprintf_loop fuel d fmt ret ap s) (mapped (p_mem s) fmt fuel) /\
  forall r, kprintf_loop fuel d fmt ret ap s = Done r -> steady s r.2.
Proof.
  induction fuel as [| fuel IH]; intros d fmt ret ap s Hd; cbn [kprintf_loop].
  { split; [apply fails_fuel; intros i Hi; lia | done]. }
  destruct (kp_literal_ok (S fuel) d fmt ret s Hd) as [HL1 HL2].
  (* the next conversion, from what [kp_literal] leaves *)
  assert (forall fmt1 ret1 s1, steady s s1 -> scanned (p_mem s) fmt fmt1 ->
    let run := c ← rdchar (p_mem s1) fmt1;
      if c =? 0 then Done (ret1, s1)
      else
        ch ← rdchar (p_mem s1) (fmt1 + 1);
        '(ch, k, fmt2, ap2) ← kp_flags (S fuel) (p_mem s1) (fmt1 + 1 + 1) ch ap (Spec 0 0 (-1) 0);
        c ← kp_conv (p_mem s1) ret1 ch k ap2;
        match c with
        | CEnd => Done (ret1, s1)
        | CStore m ap => kprintf_loop fuel d fmt2 ret1 ap (set_pmem m s1)
        | CField ch flags width dprec sign t ap =>
            '(ret, s) ← kp_emit d ch flags width dprec sign t ret1 s1; kprintf_loop fuel d fmt2 ret ap s
        end in
    fails run (mapped (p_mem s) fmt (S fuel)) /\ forall r, run = Done r -> steady s r.2) as Hc.
  { intros fmt1 ret1 s1 [Hk Hd1] Hs run. unfold run. clear run.
    assert (forall c ch fmt2, rdchar (p_mem s1) fmt1 = Done c -> rdchar (p_mem s1) (fmt1 + 1) = Done ch ->
      scanned (p_mem s1) (fmt1 + 1 + 1) fmt2 -> scanned (p_mem s) fmt fmt2 /\ fmt + 2 <= fmt2) as Hsc.
    { intros c ch fmt2 H1 H2 H3. split.
      - eapply scanned_trans; [exact Hs |]. eapply keeps_scanned; [exact Hk |].
        eapply scanned_trans; [by eapply scanned_rd |]. eapply scanned_trans; [by eapply scanned_rd | done].
      - destruct Hs, H3. lia. }
    split.
    - fails_step. intros c Hc. destruct (c =? 0); [apply fails_Done |]. fails_step. intros ch Hch.
      apply fails_bind.
      { eapply fails_weaken; [apply kp_flags_scan |]. cbn [pred]. intros Hm.
        destruct (Hsc c ch (fmt1 + 1 + 1) Hc Hch (scanned_refl _ _)) as [Hs2 Hle].
        eapply scanned_mapped; [exact Hs2 | by eapply keeps_mapped | lia]. }
      intros [[[ch' k] fmt2] ap2] E. destruct (kp_flags_scan (S fuel) (p_mem s1) (fmt1 + 1 + 1) ch ap (Spec 0 0 (-1) 0)) as [_ Hf].
      specialize (Hf _ E). cbn [fst snd] in Hf. destruct (Hsc c ch fmt2 Hc Hch Hf) as [Hs2 Hle].
      assert (forall s2, keeps (p_mem s) (p_mem s2) -> mapped (p_mem s2) fmt2 fuel -> mapped (p_mem s) fmt (S fuel)) as Hw.
      { intros s2 Hk2 Hm. eapply scanned_mapped; [exact Hs2 | by eapply keeps_mapped | lia]. }
      destruct (kp_conv_ok (p_mem s1) ret1 ch' k ap2 (mapped (p_mem s) fmt (S fuel))) as [HC1 HC2].
      apply fails_bind; [exact HC1 |]. intros cv Ecv. specialize (HC2 _ Ecv). destruct cv as [| m' ap3 | ? ? ? ? ? t ap3].
      + apply fails_Done.
      + eapply fails_weaken; [by apply IH |]. apply Hw. by eapply keeps_trans.
      + destruct (kp_emit_ok d ch0 flags width dprec sign t ret1 s1 (mapped (p_mem s) fmt (S fuel)) Hd1) as [HE1 HE2].
        apply fails_bind; [exact HE1 |]. intros [ret2 s2] E2. destruct (HE2 _ E2) as [Hk2 Hd2]. cbn [snd] in *.
        eapply fails_weaken; [by apply IH |]. apply Hw. by eapply keeps_trans.
    - intros r H. apply bind_Done in H as (c & Hc & H). destruct (c =? 0); [by injection H as <- |].
      apply bind_Done in H as (ch & Hch & H). apply bind_Done in H as ([[[ch' k] fmt2] ap2] & E & H).
      apply bind_Done in H as (cv & Ecv & H). destruct (kp_conv_ok (p_mem s1) ret1 ch' k ap2 True) as [_ HC2].
      specialize (HC2 _ Ecv). destruct cv as [| m' ap3 | ? ? ? ? ? t ap3].
      + by injection H as <-.
      + apply IH in H; [| done]. eapply steady_trans; [| exact H]. split; [by eapply keeps_trans | done].
      + apply bind_Done in H as ([ret2 s2] & E2 & H).
        destruct (kp_emit_ok d ch0 flags width dprec sign t ret1 s1 True Hd1) as [_ HE2].
        destruct (HE2 _ E2) as [Hk2 Hd2]. cbn [snd] in *. apply IH in H; [| done].
        eapply steady_trans; [| exact H]. split; [by eapply keeps_trans | done]. }
  split.
  - apply fails_bind; [exact HL1 |]. intros [[fmt1 ret1] s1] E. destruct (HL2 _ E) as [Hst Hs]. by apply Hc.
  - intros r H. apply bind_Done in H as ([[fmt1 ret1] s1] & E & H). destruct (HL2 _ E) as [Hst Hs].
    by apply (proj2 (Hc fmt1 ret1 s1 Hst Hs)).
Qed.

Lemma kprintf_ok d fmt ap s : dmesg_ok s ->
  fails (kprintf d fmt ap s) False /\ forall r, kprintf d fmt ap s = Done r -> steady s r.2.
Proof.
  intros Hd. unfold kprintf. destruct (kprintf_loop_ok (S (S (size (p_mem s)))) d fmt 0 ap s Hd) as [H1 H2]. split.
  - apply fails_bind.
    + eapply fails_weaken; [exact H1 |]. intros Hm. apply mapped_size in Hm. lia.
    + intros [ret s1] E. apply fails_bind; [| intros; apply fails_Done].
      unfold call_hook. destruct (v_flush s1); [user_err | apply fails_Done | apply fails_Done].
  - intros r H. apply bind_Done in H as ([ret s1] & E & H). apply bind_Done in H as (s2 & E2 & [= <-]).
    specialize (H2 _ E). cbn [snd] in *. unfold call_hook in E2. by destruct (v_flush s1); simplify_eq.
Qed.
