(* ===== verification/PrintfSim.v ===== *)
(** * [bmk_vsnprintf] stores what [bmk_printf] prints

    The same format printed to the console and to a buffer: a simulation, in
    which the console run has no access to the buffer, so that it shows that
    neither the format nor the arguments overlap it. *)

From S2P Require Import Prelude Mem Cstring Strtoul Printf PrintfProps.

Definition console : dest := Dest TOCONS false 0.

(** ** Reading more memory gives the same result *)

Section mono.
Context (mB mA : mem) (Hsub : mB ⊆ mA).

Lemma load8_mono p b : load8 mB p = Done b -> load8 mA p = Done b.
Proof.
  unfold load8. destruct (mB !! p) eqn:E; [| done]. cbn. intros [= <-].
  by rewrite (lookup_weaken _ _ _ _ E Hsub).
Qed.
Lemma rd_mono p c : rdchar mB p = Done c -> rdchar mA p = Done c.
Proof.
  unfold rdchar. intros H. apply bind_Done in H as (b & Hb & H). by rewrite (load8_mono _ _ Hb), Done_bind.
Qed.

Lemma strlen_mono fA : forall fB p rv r, (fB <= fA)%nat -> strlen_loop fB mB p rv = Done r -> strlen_loop fA mA p rv = Done r.
Proof.
  induction fA as [| fA IH]; intros fB p rv r Hf H; (destruct fB as [| fB]; [done |]); [lia |]. cbn [strlen_loop] in *.
  apply bind_Done in H as (b & Hb & H). rewrite (load8_mono _ _ Hb), Done_bind.
  destruct (b =? 0); [done |]. eapply IH; [| exact H]. lia.
Qed.
Lemma memchr_mono n : forall p c r, memchr_loop 1 n mB p c = Done r -> memchr_loop 1 n mA p c = Done r.
Proof.
  induction n as [| n IH]; intros p c r H; cbn [memchr_loop] in *; [done |].
  apply bind_Done in H as (b & Hb & H). rewrite (load8_mono _ _ Hb), Done_bind. destruct (b =? c mod 256); auto.
Qed.
Lemma kp_string_mono cp prec t : kp_string mB cp prec = Done t -> kp_string mA cp prec = Done t.
Proof.
  unfold kp_string. destruct (cp =? 0); [done |]. destruct (0 <=? prec); intros H; apply bind_Done in H as (x & Hx & H).
  - unfold bmk_memchr in *. by rewrite (memchr_mono _ _ _ _ Hx).
  - unfold bmk_strlen in *. rewrite (strlen_mono (S (size mA)) (S (size mB)) _ _ x); [done | | done].
    apply le_n_S, map_subseteq_size, Hsub.
Qed.
Lemma kp_digits_mono fA : forall fB fmt ch n r, (fB <= fA)%nat -> kp_digits fB mB fmt ch n = Done r -> kp_digits fA mA fmt ch n = Done r.
Proof.
  induction fA as [| fA IH]; intros fB fmt ch n r Hf H; (destruct fB as [| fB]; [done |]); [lia |]. cbn [kp_digits] in *.
  destruct (is_digit_ch ch); [| done]. apply bind_Done in H as (n' & Hn & H). apply bind_Done in H as (c & Hc & H).
  rewrite Hn, Done_bind, (rd_mono _ _ Hc), Done_bind. eapply IH; [| exact H]. lia.
Qed.
Lemma kp_flags_mono fA : forall fB fmt ch ap k r, (fB <= fA)%nat ->
  kp_flags fB mB fmt ch ap k = Done r -> kp_flags fA mA fmt ch ap k = Done r.
Proof.
  induction fA as [| fA IH]; intros fB fmt ch ap k r Hf H; (destruct fB as [| fB]; [done |]); [lia |].
  cbn [kp_flags] in *. cbv zeta in *.
  assert (forall p ap k r, (ch ← rdchar mB p; kp_flags fB mB (p + 1) ch ap k) = Done r ->
    (ch ← rdchar mA p; kp_flags fA mA (p + 1) ch ap k) = Done r) as Hr.
  { intros p ap' k' r' E. apply bind_Done in E as (c & Hc & E). rewrite (rd_mono _ _ Hc), Done_bind.
    eapply IH; [| exact E]. lia. }
  assert (forall p c (k' : Z -> spec) r, ('(n, ch, fmt) ← kp_digits fB mB p c 0; kp_flags fB mB fmt ch ap (k' n)) = Done r ->
    ('(n, ch, fmt) ← kp_digits fA mA p c 0; kp_flags fA mA fmt ch ap (k' n)) = Done r) as Hn.
  { intros p c k' r' E. apply bind_Done in E as ([[n c'] p'] & Hd & E).
    rewrite (kp_digits_mono fA fB _ _ _ _ ltac:(lia) Hd), Done_bind. eapply IH; [| exact E]. lia. }
  repeat match goal with
  | H : (if ?b then _ else _) = Done r |- (if ?b then _ else _) = Done r => destruct b
  end; try by apply Hr.
  - apply bind_Done in H as ([a ap'] & Ha & H). rewrite Ha, Done_bind. destruct (0 <=? s32 a); [by apply Hr |].
    apply bind_Done in H as (w & Hw & H). rewrite Hw, Done_bind. by apply Hr.
  - apply bind_Done in H as (c & Hc & H). rewrite (rd_mono _ _ Hc), Done_bind. destruct (c =? 42).
    + apply bind_Done in H as ([a ap'] & Ha & H). rewrite Ha, Done_bind. by apply Hr.
    + by apply (Hn (fmt + 1) c (fun n => Spec (k_flags k) (k_width k) (if n <? 0 then -1 else n) (k_sign k))).
  - by apply (Hn fmt ch (fun n => Spec (k_flags k) n (k_prec k) (k_sign k))).
  - apply bind_Done in H as (c & Hc & H). rewrite (rd_mono _ _ Hc) at 1. rewrite Done_bind. destruct (c =? 108); [| by apply Hr].
    replace (fmt + 2) with (fmt + 1 + 1) in * by lia. by apply Hr.
  - done.
Qed.
End mono.

(** ** The simulation *)

Section sim.
Context (bf size : Z) (Hbf : 0 < bf) (Hsize : 0 <= size).
Definition buffer : dest := Dest TOBUFONLY true (bf + size).
Definition inside (a : Z) : Prop := bf <= a < bf + size.

Record sim (sA sB : pst) : Prop := {
  sm_out : forall a, ~ inside a -> p_mem sA !! a = p_mem sB !! a;
  sm_none : forall a, inside a -> p_mem sB !! a = None;
  sm_map : forall a, inside a -> is_Some (p_mem sA !! a);
  sm_text : forall i c, p_out sB !! i = Some c -> Z.of_nat i < size -> p_mem sA !! (bf + Z.of_nat i) = Some (c mod 256);
  sm_sbuf : p_sbuf sA = bf + Z.min (Z.of_nat (length (p_out sB))) size;
  sm_putc : exists f, v_putc sB = Hook f;
  sm_flush : v_flush sA = v_flush sB;
}.

Lemma sim_sub sA sB : sim sA sB -> p_mem sB ⊆ p_mem sA.
Proof.
  intros H. apply map_subseteq_spec. intros a b E. rewrite (sm_out _ _ H); [done |].
  intros Hin. rewrite (sm_none _ _ H a Hin) in E. done.
Qed.

(** Both runs of a piece of output. *)
Definition lifts (f : dest -> pst -> outcome pst) : Prop :=
  forall sA sB sB', sim sA sB -> f console sB = Done sB' -> exists sA', f buffer sA = Done sA' /\ sim sA' sB'.

Lemma putchar_lifts c : lifts (fun d => KPRINTF_PUTCHAR d c).
Proof.
  intros sA sB sB' H E. unfold KPRINTF_PUTCHAR in *. cbn [oflags console buffer vp tailp] in *.
  change (TOCONS =? TOBUFONLY) with false in E. cbv iota in E. change (TOBUFONLY =? TOBUFONLY) with true. cbv iota.
  destruct (sm_putc _ _ H) as [f Hf]. unfold cons_putchar in E.
  destruct (negb _) eqn:Eo; [done |]. cbv zeta in E. rewrite Hf in E. injection E as <-.
  pose proof (sm_sbuf _ _ H) as Hs. set (n := length (p_out sB)) in *.
  rewrite (proj2 (Z.eqb_neq (p_sbuf sA) 0)) by lia. cbn [negb andb orb].
  destruct (Z.ltb_spec (p_sbuf sA) (bf + size)) as [Hlt | Hge].
  - assert (p_sbuf sA = bf + Z.of_nat n) as Es by lia. assert (inside (p_sbuf sA)) as Hin by (unfold inside; lia).
    rewrite (store8_mapped _ _ _ (sm_map _ _ H _ Hin)), Done_bind. eexists. split; [reflexivity |]. split; cbn.
    + intros a Ha. rewrite lookup_insert_ne by (intros <-; done). by apply H.
    + apply H.
    + intros a Ha. destruct (decide (p_sbuf sA = a)) as [<- | ?]; [by rewrite lookup_insert_eq |].
      rewrite lookup_insert_ne by done. by apply H.
    + intros i c' Hi Hlt'. apply lookup_snoc_Some in Hi as [[Hi Hc'] | [-> <-]].
      * fold n in Hi. rewrite lookup_insert_ne by lia. by eapply sm_text.
      * fold n. rewrite Es. by rewrite lookup_insert_eq.
    + rewrite length_app. cbn. fold n. lia.
    + by exists f.
    + apply H.
  - exists sA. split; [done |]. split; cbn; try apply H.
    + intros i c' Hi Hlt'. apply lookup_snoc_Some in Hi as [[Hi Hc'] | [-> _]]; [by eapply sm_text |]. fold n in Hlt'. lia.
    + rewrite length_app. cbn. fold n. lia.
    + by exists f.
Qed.

Lemma lifts_Done : lifts (fun _ => Done).
Proof. intros sA sB sB' H [= <-]. eauto. Qed.
Lemma lifts_bind f g : lifts f -> lifts g -> lifts (fun d s => f d s ≫= g d).
Proof.
  intros Hf Hg sA sB sB' H E. apply bind_Done in E as (s1 & E1 & E). destruct (Hf _ _ _ H E1) as (sA1 & EA & H1).
  rewrite EA, Done_bind. by eapply Hg.
Qed.
Lemma lifts_if (b : bool) f g : lifts f -> lifts g -> lifts (fun d s => if b then f d s else g d s).
Proof. by destruct b. Qed.
Lemma put_n_lifts n c : lifts (fun d => put_n d n c).
Proof. induction n as [| n IH]; [apply lifts_Done |]. apply (lifts_bind _ _ (putchar_lifts c) IH). Qed.
Lemma put_list_lifts l : lifts (fun d => put_list d l).
Proof. induction l as [| c l IH]; [apply lifts_Done |]. apply (lifts_bind _ _ (putchar_lifts (schar c)) IH). Qed.
Lemma put_mem_lifts n : forall cp, lifts (fun d => put_mem d n cp).
Proof.
  induction n as [| n IH]; intros cp; [apply lifts_Done |]. intros sA sB sB' H E. cbn [put_mem] in *.
  apply bind_Done in E as (c & Hc & E). rewrite (rd_mono _ _ (sim_sub _ _ H) _ _ Hc), Done_bind.
  by apply (lifts_bind _ _ (putchar_lifts c) (IH (cp + 1)) sA sB).
Qed.
Lemma put_text_lifts t : lifts (fun d => put_text d t).
Proof.
  destruct t as [l | cp n]; intros sA sB sB' H E; cbn [put_text] in *; [by eapply put_list_lifts |].
  destruct (n <? 0); [done | by eapply put_mem_lifts].
Qed.

Lemma emit_lifts ch flags sign pad nz t : lifts (fun d => emit_text ch flags sign pad nz t d).
Proof.
  unfold emit_text. repeat first
    [ apply put_n_lifts | apply putchar_lifts | apply put_text_lifts | apply lifts_Done
    | apply lifts_if | apply (lifts_bind (fun d s => _) (fun d s => _)) ].
Qed.

Lemma kp_literal_sim fA : forall fB fmt ret sA sB r sB', (fB <= fA)%nat -> sim sA sB ->
  kp_literal fB console fmt ret sB = Done (r, sB') ->
  exists sA', kp_literal fA buffer fmt ret sA = Done (r, sA') /\ sim sA' sB'.
Proof.
  induction fA as [| fA IH]; intros fB fmt ret sA sB r sB' Hf H E; (destruct fB as [| fB]; [done |]); [lia |].
  cbn [kp_literal] in *. apply bind_Done in E as (c & Hc & E). rewrite (rd_mono _ _ (sim_sub _ _ H) _ _ Hc), Done_bind.
  destruct ((c =? 37) || (c =? 0)); [injection E as <- <-; eauto |].
  apply bind_Done in E as (ret' & Er & E). apply bind_Done in E as (s1 & E1 & E). rewrite Er, Done_bind.
  destruct (putchar_lifts c _ _ _ H E1) as (sA1 & EA & H1). rewrite EA, Done_bind. eapply IH; [| done | exact E]. lia.
Qed.

Lemma store8_sim sA sB p v mB' : sim sA sB -> store8 (p_mem sB) p v = Done mB' ->
  exists mA', store8 (p_mem sA) p v = Done mA' /\ sim (set_pmem mA' sA) (set_pmem mB' sB).
Proof.
  intros H. unfold store8. destruct (p_mem sB !! p) as [b |] eqn:E; [| done]. intros [= <-].
  rewrite (lookup_weaken _ _ _ _ E (sim_sub _ _ H)).
  assert (~ inside p) as Hp by (intros Hin; rewrite (sm_none _ _ H p Hin) in E; done).
  eexists. split; [reflexivity |]. split; cbn; try apply H.
  - intros a Ha. destruct (decide (p = a)) as [<- | ?]; [by rewrite !lookup_insert_eq |].
    rewrite !lookup_insert_ne by done. by apply H.
  - intros a Ha. rewrite lookup_insert_ne by (intros <-; done). by apply H.
  - intros a Ha. rewrite lookup_insert_ne by (intros <-; done). by apply H.
  - intros i c Hi Hl. rewrite lookup_insert_ne; [by eapply sm_text |]. intros ->. apply Hp. unfold inside. lia.
Qed.

Lemma store_le_sim n : forall sA sB p v mB', sim sA sB -> store_le n (p_mem sB) p v = Done mB' ->
  exists mA', store_le n (p_mem sA) p v = Done mA' /\ sim (set_pmem mA' sA) (set_pmem mB' sB).
Proof.
  induction n as [| n IH]; intros sA sB p v mB' H E; cbn [store_le] in *.
  - injection E as <-. exists (p_mem sA). split; [done |]. by destruct sA, sB.
  - apply bind_Done in E as (m1 & E1 & E). destruct (store8_sim _ _ _ _ _ H E1) as (mA1 & EA & H1).
    rewrite EA, Done_bind. by apply (IH (set_pmem mA1 sA) (set_pmem m1 sB)).
Qed.

(** The conversion sees the same arguments. *)
Definition conv_sim (sA sB : pst) (cA cB : conv) : Prop :=
  match cB with
  | CStore mB ap => exists mA, cA = CStore mA ap /\ sim (set_pmem mA sA) (set_pmem mB sB)
  | _ => cA = cB
  end.

Lemma kp_conv_sim sA sB ret ch k ap cB : sim sA sB -> kp_conv (p_mem sB) ret ch k ap = Done cB ->
  exists cA, kp_conv (p_mem sA) ret ch k ap = Done cA /\ conv_sim sA sB cA cB.
Proof.
  intros H E. unfold kp_conv in *. cbv zeta in *.
  assert (forall m : outcome conv, (forall m0 ap0, m <> Done (CStore m0 ap0)) -> m = Done cB ->
    exists cA, m = Done cA /\ conv_sim sA sB cA cB) as Hsame.
  { intros m Hn Em. exists cB. split; [done |]. destruct cB; try done. by destruct (Hn m0 ap0). }
  assert (forall ch base flags u ap m0 ap0, ('(flags, bf) ← kp_number base flags (k_prec k) u;
    Done (CField ch flags (k_width k) (k_prec k) 0 (InBf bf) ap)) <> Done (CStore m0 ap0)) as Hnum.
  { intros ch' base flags u ap' m0 ap0 E'. by apply bind_Done in E' as ([? ?] & _ & ?). }
  destruct (ch =? 99). { apply Hsame; [| exact E]. intros m0 ap0 E'. by apply bind_Done in E' as ([? ?] & _ & ?). }
  destruct ((ch =? 68) || (ch =? 100) || (ch =? 105)).
  { apply Hsame; [| exact E]. intros m0 ap0 E'. apply bind_Done in E' as ([? ?] & _ & E').
    destruct (if _ <? 0 then _ else _). by apply bind_Done in E' as ([? ?] & _ & ?). }
  destruct (ch =? 110).
  { apply bind_Done in E as ([a ap'] & Ha & E). apply bind_Done in E as (mB' & Em & [= <-]). rewrite Ha, Done_bind.
    destruct (store_le_sim _ _ _ _ _ _ H Em) as (mA' & EA & HA). rewrite EA, Done_bind. eexists. split; [reflexivity |].
    exists mA'. done. }
  destruct ((ch =? 79) || (ch =? 111)). { apply Hsame; [| exact E]. intros m0 ap0 E'. apply bind_Done in E' as ([? ?] & _ & E'). by apply Hnum in E'. }
  destruct (ch =? 112). { apply Hsame; [| exact E]. intros m0 ap0 E'. apply bind_Done in E' as ([? ?] & _ & E'). by apply Hnum in E'. }
  destruct (ch =? 115).
  { apply bind_Done in E as ([a ap'] & Ha & E). apply bind_Done in E as (t & Et & [= <-]). rewrite Ha, Done_bind.
    rewrite (kp_string_mono _ _ (sim_sub _ _ H) _ _ _ Et), Done_bind. by eexists. }
  destruct ((ch =? 85) || (ch =? 117)). { apply Hsame; [| exact E]. intros m0 ap0 E'. apply bind_Done in E' as ([? ?] & _ & E'). by apply Hnum in E'. }
  destruct ((ch =? 88) || (ch =? 120)). { apply Hsame; [| exact E]. intros m0 ap0 E'. apply bind_Done in E' as ([? ?] & _ & E'). by apply Hnum in E'. }
  destruct (ch =? 0); injection E as <-; by eexists.
Qed.

Lemma kprintf_loop_sim fA : forall fB fmt ret ap sA sB r sB', (fB <= fA)%nat -> sim sA sB ->
  kprintf_loop fB console fmt ret ap sB = Done (r, sB') ->
  exists sA', kprintf_loop fA buffer fmt ret ap sA = Done (r, sA') /\ sim sA' sB'.
Proof.
  induction fA as [| fA IH]; intros fB fmt ret ap sA sB r sB' Hf H E; (destruct fB as [| fB]; [done |]); [lia |].
  cbn [kprintf_loop] in *. apply bind_Done in E as ([[fmt1 ret1] s1] & E1 & E).
  destruct (kp_literal_sim (S fA) (S fB) _ _ _ _ _ _ Hf H E1) as (sA1 & EA1 & H1). rewrite EA1, Done_bind.
  apply bind_Done in E as (c & Hc & E). rewrite (rd_mono _ _ (sim_sub _ _ H1) _ _ Hc), Done_bind.
  destruct (c =? 0); [injection E as <- <-; eauto |].
  apply bind_Done in E as (ch & Hch & E). cbv zeta. rewrite (rd_mono _ _ (sim_sub _ _ H1) _ _ Hch), Done_bind.
  apply bind_Done in E as ([[[ch' k] fmt2] ap2] & Ef & E).
  rewrite (kp_flags_mono _ _ (sim_sub _ _ H1) (S fA) (S fB) _ _ _ _ _ Hf Ef), Done_bind.
  apply bind_Done in E as (cB & Ec & E). destruct (kp_conv_sim _ _ _ _ _ _ _ H1 Ec) as (cA & EcA & Hcs).
  rewrite EcA, Done_bind. destruct cB as [| mB ap3 | ch3 flags width dprec sign t ap3]; cbn [conv_sim] in Hcs.
  - subst cA. injection E as <- <-. eauto.
  - destruct Hcs as (mA & -> & H2). eapply IH; [| exact H2 | exact E]. lia.
  - subst cA. apply bind_Done in E as ([ret2 s2] & E2 & E). rewrite kp_emit_text in E2 |- *.
    apply bind_Done in E2 as (realsz & Er & E2). apply bind_Done in E2 as (ret3 & Er3 & E2).
    apply bind_Done in E2 as (s3 & Es3 & [= <- <-]). rewrite Er, Done_bind, Er3, Done_bind.
    destruct (emit_lifts _ _ _ _ _ _ _ _ _ H1 Es3) as (sA3 & EA3 & H3). rewrite EA3, !Done_bind.
    eapply IH; [| exact H3 | exact E]. lia.
Qed.

End sim.
