(* ===== verification/PrintfThms.v ===== *)
(** * Theorems about formatted output *)

From S2P Require Import Prelude Mem Cstring Strtoul Printf PrintfProps PrintfSim.

(** ** Counting the characters *)

Definition hooked (s : pst) : Prop := exists f, v_putc s = Hook f.

(** [f] prints [n] characters on the console and changes nothing else. *)
Definition prints (n : nat) (f : pst -> outcome pst) : Prop :=
  forall s s', hooked s -> f s = Done s' ->
    length (p_out s') = (length (p_out s) + n)%nat /\ hooked s' /\ p_mem s' = p_mem s /\ v_flush s' = v_flush s.

Lemma prints_Done : prints 0 Done.
Proof. intros s s' Hs [= <-]. split; [lia | done]. Qed.
Lemma prints_bind n1 n2 f g : prints n1 f -> prints n2 g -> prints (n1 + n2) (fun s => f s ≫= g).
Proof.
  intros Hf Hg s s' Hs H. apply bind_Done in H as (s1 & E & H). destruct (Hf _ _ Hs E) as (L1 & H1 & M1 & F1).
  destruct (Hg _ _ H1 H) as (L2 & H2 & M2 & F2). split; [lia |]. split; [done |]. split; congruence.
Qed.
Lemma prints_if (b : bool) n1 n2 f g : prints n1 f -> prints n2 g ->
  prints (if b then n1 else n2) (fun s => if b then f s else g s).
Proof. by destruct b. Qed.
Lemma putchar_prints c : prints 1 (KPRINTF_PUTCHAR console c).
Proof.
  intros s s' [f Hf] H. unfold KPRINTF_PUTCHAR in H. change (oflags console =? TOBUFONLY) with false in H.
  cbv iota in H. unfold cons_putchar in H. destruct (negb _); [done |]. cbv zeta in H. rewrite Hf in H. injection H as <-.
  split; [cbn; by rewrite length_app |]. split; [by exists f | done].
Qed.
Lemma put_n_prints n c : prints n (put_n console n c).
Proof. induction n as [| n IH]; [apply prints_Done |]. apply (prints_bind 1 n _ _ (putchar_prints c) IH). Qed.
Lemma put_list_prints l : prints (length l) (put_list console l).
Proof. induction l as [| c l IH]; [apply prints_Done |]. apply (prints_bind 1 _ _ _ (putchar_prints (schar c)) IH). Qed.
Lemma put_mem_prints n : forall cp, prints n (put_mem console n cp).
Proof.
  induction n as [| n IH]; intros cp; [apply prints_Done |]. intros s s' Hs H. cbn [put_mem] in H.
  apply bind_Done in H as (c & _ & H). by apply (prints_bind 1 n _ _ (putchar_prints c) (IH (cp + 1)) s s' Hs).
Qed.
Lemma put_text_prints t : prints (Z.to_nat (text_size t)) (put_text console t).
Proof.
  destruct t as [l | cp n]; intros s s' Hs H; cbn [put_text text_size] in *.
  - rewrite Nat2Z.id. by apply put_list_prints.
  - destruct (n <? 0); [done |]. by eapply put_mem_prints.
Qed.

Lemma land_pow2 f n : 0 <= n -> Z.land f (2 ^ n) = if Z.testbit f n then 2 ^ n else 0.
Proof.
  intros Hn. apply Z.bits_inj'. intros i Hi. rewrite Z.land_spec, Z.pow2_bits_eqb by done.
  destruct (Z.eqb_spec n i) as [-> | Hne].
  - rewrite andb_true_r. destruct (Z.testbit f i); [by rewrite Z.pow2_bits_true | by rewrite Z.bits_0].
  - rewrite andb_false_r. destruct (Z.testbit f n); [by rewrite Z.pow2_bits_false | by rewrite Z.bits_0].
Qed.

(** Exactly one of the three places pads. *)
Lemma pad_once flags (pad : nat) :
  ((if (Z.land flags (Z.lor LADJUST ZEROPAD) =? 0)%Z then pad else 0) +
   (if (Z.land flags (Z.lor LADJUST ZEROPAD) =? ZEROPAD)%Z then pad else 0) +
   (if fl_has flags LADJUST then pad else 0) = pad)%nat.
Proof.
  unfold fl_has. rewrite Z.land_lor_distr_r. change LADJUST with (2 ^ 2). change ZEROPAD with (2 ^ 10).
  rewrite !land_pow2 by lia. destruct (Z.testbit flags 2), (Z.testbit flags 10);
    repeat match goal with |- context [if ?b then pad else _] => let v := eval vm_compute in b in change b with v; cbv iota end;
    lia.
Qed.

Lemma emit_prints ch flags sign pad nz t :
  prints (pad + (if negb (sign =? 0) then 1%nat else if fl_has flags HEXPREFIX then 2%nat else 0%nat) + nz + Z.to_nat (text_size t))
    (emit_text ch flags sign pad nz t console).
Proof.
  set (a := if Z.land flags (Z.lor LADJUST ZEROPAD) =? 0 then pad else 0%nat).
  set (p := if negb (sign =? 0) then 1%nat else if fl_has flags HEXPREFIX then 2%nat else 0%nat).
  set (b := if Z.land flags (Z.lor LADJUST ZEROPAD) =? ZEROPAD then pad else 0%nat).
  set (c := if fl_has flags LADJUST then pad else 0%nat).
  assert (prints (a + (p + (b + (nz + (Z.to_nat (text_size t) + c))))) (emit_text ch flags sign pad nz t console)) as H.
  { unfold emit_text. apply prints_bind; [apply prints_if; [apply put_n_prints | apply prints_Done] |].
    apply prints_bind.
    { apply prints_if; [apply putchar_prints |]. apply prints_if; [| apply prints_Done].
      apply (prints_bind 1 1); apply putchar_prints. }
    apply prints_bind; [apply prints_if; [apply put_n_prints | apply prints_Done] |].
    apply prints_bind; [apply put_n_prints |]. apply prints_bind; [apply put_text_prints |].
    apply prints_if; [apply put_n_prints | apply prints_Done]. }
  pose proof (pad_once flags pad) as Hp. fold a b c in Hp.
  by replace (pad + p + nz + Z.to_nat (text_size t))%nat with (a + (p + (b + (nz + (Z.to_nat (text_size t) + c)))))%nat by lia.
Qed.

Lemma put_text_size t d s s' : put_text d t s = Done s' -> 0 <= text_size t.
Proof. destruct t as [l | cp n]; cbn; [lia |]. destruct (Z.ltb_spec n 0); [done | lia]. Qed.

Lemma emit_text_size ch flags sign pad nz t d s s' : emit_text ch flags sign pad nz t d s = Done s' -> 0 <= text_size t.
Proof. unfold emit_text. intros H. outcome_inv. by eapply put_text_size. Qed.

Lemma kp_emit_count ch flags width dprec sign t ret s r s' : hooked s ->
  kp_emit console ch flags width dprec sign t ret s = Done (r, s') ->
  Z.of_nat (length (p_out s')) - r = Z.of_nat (length (p_out s)) - ret /\ hooked s' /\ v_flush s' = v_flush s.
Proof.
  intros Hs H. rewrite kp_emit_text in H. cbv zeta in H.
  apply bind_Done in H as (realsz & Er & H). apply bind_Done in H as (ret' & Er' & H).
  apply bind_Done in H as (s1 & E & [= <- <-]).
  assert (forall x y, as_int x = Done y -> y = x) as Hint by (intros x y; unfold as_int; destruct (int_ok x); congruence).
  apply Hint in Er, Er'. pose proof (emit_text_size _ _ _ _ _ _ _ _ _ E) as Ht.
  destruct (emit_prints _ _ _ _ _ _ _ _ Hs E) as (L & Hs' & _ & Hf). split; [| done].
  destruct (Z.ltb_spec (text_size t) dprec); destruct (negb (sign =? 0)); try destruct (fl_has flags HEXPREFIX);
    destruct (Z.ltb_spec realsz width); lia.
Qed.

Lemma kp_literal_count fuel : forall fmt ret s fmt' r s', hooked s ->
  kp_literal fuel console fmt ret s = Done (fmt', r, s') ->
  Z.of_nat (length (p_out s')) - r = Z.of_nat (length (p_out s)) - ret /\ hooked s' /\ v_flush s' = v_flush s.
Proof.
  induction fuel as [| fuel IH]; intros fmt ret s fmt' r s' Hs H; cbn [kp_literal] in H; [done |].
  apply bind_Done in H as (c & _ & H). destruct ((c =? 37) || (c =? 0)); [by injection H as <- <- <- |].
  apply bind_Done in H as (ret' & Er & H). apply bind_Done in H as (s1 & E1 & H).
  destruct (putchar_prints c _ _ Hs E1) as (L & Hs1 & _ & Hf1). destruct (IH _ _ _ _ _ _ Hs1 H) as (L2 & Hs2 & Hf2).
  unfold as_int in Er. destruct (int_ok (ret + 1)); [| done]. injection Er as <-. split; [lia |]. split; [done | congruence].
Qed.

Lemma kprintf_loop_count fuel : forall fmt ret ap s r s', hooked s ->
  kprintf_loop fuel console fmt ret ap s = Done (r, s') ->
  Z.of_nat (length (p_out s')) - r = Z.of_nat (length (p_out s)) - ret /\ hooked s' /\ v_flush s' = v_flush s.
Proof.
  induction fuel as [| fuel IH]; intros fmt ret ap s r s' Hs H; cbn [kprintf_loop] in H; [done |].
  apply bind_Done in H as ([[fmt1 ret1] s1] & E1 & H). destruct (kp_literal_count _ _ _ _ _ _ _ Hs E1) as (L1 & Hs1 & Hf1).
  apply bind_Done in H as (c & _ & H). destruct (c =? 0); [by injection H as <- <- |].
  cbv zeta in H. apply bind_Done in H as (ch & _ & H). apply bind_Done in H as ([[[ch' k] fmt2] ap2] & _ & H).
  apply bind_Done in H as (cv & _ & H). destruct cv as [| m ap3 | ch3 flags width dprec sign t ap3].
  - by injection H as <- <-.
  - apply IH in H as (L2 & Hs2 & Hf2); [| done]. cbn in *. split; [lia |]. split; [done | congruence].
  - apply bind_Done in H as ([ret2 s2] & E2 & H). destruct (kp_emit_count _ _ _ _ _ _ _ _ _ _ Hs1 E2) as (L2 & Hs2 & Hf2).
    apply IH in H as (L3 & Hs3 & Hf3); [| done]. split; [lia |]. split; [done | congruence].
Qed.

Lemma as_int_ok x y : as_int x = Done y -> int_ok y = true.
Proof. unfold as_int. destruct (int_ok x) eqn:E; [| done]. by intros [= <-]. Qed.

Lemma kp_literal_int fuel : forall d fmt ret s fmt' r s', int_ok ret = true ->
  kp_literal fuel d fmt ret s = Done (fmt', r, s') -> int_ok r = true.
Proof.
  induction fuel as [| fuel IH]; intros d fmt ret s fmt' r s' Hr H; cbn [kp_literal] in H; [done |].
  apply bind_Done in H as (c & _ & H). destruct ((c =? 37) || (c =? 0)); [by injection H as <- <- <- |].
  apply bind_Done in H as (ret' & Er & H). apply bind_Done in H as (s1 & E1 & H). eapply IH; [| exact H]. by eapply as_int_ok.
Qed.

Lemma kprintf_loop_int fuel : forall d fmt ret ap s r s', int_ok ret = true ->
  kprintf_loop fuel d fmt ret ap s = Done (r, s') -> int_ok r = true.
Proof.
  induction fuel as [| fuel IH]; intros d fmt ret ap s r s' Hr H; cbn [kprintf_loop] in H; [done |].
  apply bind_Done in H as ([[fmt1 ret1] s1] & E1 & H). pose proof (kp_literal_int _ _ _ _ _ _ _ _ Hr E1) as Hr1.
  apply bind_Done in H as (c & _ & H). destruct (c =? 0); [by injection H as <- <- |].
  cbv zeta in H. apply bind_Done in H as (ch & _ & H). apply bind_Done in H as ([[[ch' k] fmt2] ap2] & _ & H).
  apply bind_Done in H as (cv & _ & H). destruct cv as [| m ap3 | ch3 flags width dprec sign t ap3].
  - by injection H as <- <-.
  - by eapply IH.
  - apply bind_Done in H as ([ret2 s2] & E2 & H). eapply IH; [| exact H]. rewrite kp_emit_text in E2.
    apply bind_Done in E2 as (realsz & _ & E2). apply bind_Done in E2 as (ret3 & Er & E2).
    apply bind_Done in E2 as (s3 & _ & [= <- _]). by eapply as_int_ok.
Qed.

(** ** The theorems *)

(** C15. [kprintf] is safe and terminates, whatever the format, the arguments
    and the destination: no loop runs out of fuel, the 23-byte digit buffer
    never overflows, the message buffer is only written below its last byte,
    and no byte outside mapped objects is touched.  The only ways to fail are
    the caller's: a pointer outside every object, a missing argument, a field
    beyond the range of [int], an unset hook. *)
Theorem kprintf_safe d fmt ap s :
  0 <= bmk_dmesgoff s < BMK_DMESG_SIZE - 1 ->
  (forall w, kprintf d fmt ap s = Undef w -> user_error w) /\
  (forall w, kprintf d fmt ap s <> Halt w) /\
  (forall ret s', kprintf d fmt ap s = Done (ret, s') ->
    0 <= bmk_dmesgoff s' < BMK_DMESG_SIZE - 1 /\ forall a, is_Some (p_mem s !! a) <-> is_Some (p_mem s' !! a)).
Proof.
  intros Hd. destruct (kprintf_ok d fmt ap s Hd) as [[H1 H2] H3]. split; [| split].
  - intros w E. destruct (H1 w E) as [? | [_ []]]; done.
  - done.
  - intros ret s' E. destruct (H3 _ E) as [Hk Hd']. done.
Qed.

(** The state of [s] in which the console is watched and the buffer is out of
    reach. *)
Definition watched (bf size f : Z) (s : pst) : pst :=
  Pst (filter (fun p : Z * Z => ~ (bf <= p.1 < bf + size)) (p_mem s)) 0 (bmk_dmesg s) (bmk_dmesgoff s) (Hook f) (v_flush s) [].

Lemma watched_sim bf size f s : 0 < bf -> 0 <= size -> mapped (p_mem s) bf (Z.to_nat size) ->
  sim bf size (set_sbuf bf s) (watched bf size f s).
Proof.
  intros Hb Hs Hm. split; cbn.
  - intros a Ha. destruct (p_mem s !! a) as [b |] eqn:E.
    + symmetry. apply map_lookup_filter_Some. done.
    + symmetry. apply map_lookup_filter_None. by left.
  - intros a Ha. apply map_lookup_filter_None. right. intros b _ Hn. cbn in Hn. by apply Hn.
  - intros a [H1 H2]. replace a with (bf + Z.of_nat (Z.to_nat (a - bf))) by lia. apply Hm. lia.
  - intros i c H. by rewrite lookup_nil in H.
  - lia.
  - by exists f.
  - done.
Qed.

Lemma vsnprintf_sim bf sz fmt ap s f ret sB' :
  0 < bf -> 0 < sz -> bf + sz < W64 -> mapped (p_mem s) bf (Z.to_nat sz) ->
  kprintf console fmt ap (watched bf sz f s) = Done (ret, sB') ->
  exists s', bmk_vsnprintf bf sz fmt ap s = Done (ret, s') /\ ret = Z.of_nat (length (p_out sB')) /\
    bytes_at (p_mem s') bf (take (Z.to_nat (sz - 1)) ((fun c => c mod 256) <$> p_out sB') ++ [0]) /\
    forall a, ~ (bf <= a < bf + sz) -> p_mem s' !! a = p_mem sB' !! a.
Proof.
  intros Hb Hs Hw Hm E. unfold kprintf in E. apply bind_Done in E as ([r s1] & E1 & E).
  apply bind_Done in E as (s2 & E2 & [= <- <-]).
  pose proof (watched_sim bf sz f s Hb ltac:(lia) Hm) as Hsim.
  assert (int_ok r = true) as Hi by (by eapply kprintf_loop_int; [| exact E1]).
  assert (hooked (watched bf sz f s)) as Hh by (by exists f).
  destruct (kprintf_loop_count _ _ _ _ _ _ _ Hh E1) as (L & _ & _). cbn [watched p_out length] in L.
  assert (S (S (size (p_mem (watched bf sz f s)))) <= S (S (size (p_mem s))))%nat as Hsz
    by (apply le_n_S, le_n_S, map_subseteq_size, map_filter_subseteq).
  destruct (kprintf_loop_sim bf sz Hb ltac:(lia) _ _ _ _ _ _ _ _ _ Hsz Hsim E1) as (sA & EA & H1).
  assert (call_hook (v_flush sA) sA = Done sA /\ s2 = s1) as [Eh ->].
  { rewrite (sm_flush _ _ _ _ H1). unfold call_hook in E2 |- *. destruct (v_flush s1); [done | |]; injection E2 as <-; done. }
  unfold bmk_vsnprintf, kprintf. rewrite wadd_small by (unfold u64; lia).
  change (Dest TOBUFONLY true (bf + sz)) with (buffer bf sz). change (p_mem (set_sbuf bf s)) with (p_mem s).
  rewrite EA, Done_bind, Eh, !Done_bind. rewrite (proj2 (Z.eqb_neq bf 0)) by lia. rewrite (proj2 (Z.ltb_lt 0 sz)) by lia.
  cbn [negb andb]. unfold int_ok in Hi. set (n := length (p_out s1)) in *. assert (r = Z.of_nat n) as Hr by lia.
  rewrite wrap64_small by (unfold u64, W64; lia).
  set (e := Z.min (Z.of_nat n) (sz - 1)).
  assert ((if sz <=? r then bf + (sz - 1) else bf + r) = bf + e) as ->.
  { unfold e. destruct (Z.leb_spec sz r); lia. }
  rewrite store8_mapped by (apply (sm_map _ _ _ _ H1); unfold inside; lia). rewrite Done_bind.
  eexists. split; [reflexivity |]. split; [done |]. cbn [p_mem set_pmem]. change (0 mod 256) with 0. split.
  - apply bytes_at_lookup. intros i b Hib. apply lookup_app_Some in Hib as [Hib | [Hlen Hib]].
    + rewrite lookup_take_Some in Hib. destruct Hib as [Hib Hlt]. rewrite list_lookup_fmap_Some in Hib.
      destruct Hib as (c & -> & Hc). pose proof (lookup_lt_Some _ _ _ Hc).
      rewrite lookup_insert_ne by (unfold e, n; lia). eapply sm_text; [exact H1 | exact Hc | lia].
    + apply list_lookup_singleton_Some in Hib as [Hi0 <-]. rewrite length_take, length_fmap in Hlen, Hi0. fold n in Hlen, Hi0.
      replace (bf + Z.of_nat i) with (bf + e) by (unfold e; lia). apply lookup_insert_eq.
  - intros a Ha. rewrite lookup_insert_ne by (unfold e; lia). by apply H1.
Qed.

(** C14. [bmk_vsnprintf] stores in the buffer what [bmk_printf] prints on the
    console: for a format and arguments that do not overlap the buffer (the
    console run does without it), it returns the number of characters of the
    full output, stores the first [size - 1] of them and a terminating NUL,
    and changes no byte outside the buffer that the console run does not
    change. *)
Theorem bmk_vsnprintf_correct bf sz fmt ap s f ret sB' :
  0 < bf -> 0 < sz -> bf + sz < W64 -> mapped (p_mem s) bf (Z.to_nat sz) ->
  kprintf (Dest TOCONS false 0) fmt ap (watched bf sz f s) = Done (ret, sB') ->
  exists s', bmk_vsnprintf bf sz fmt ap s = Done (ret, s') /\ ret = Z.of_nat (length (p_out sB')) /\
    bytes_at (p_mem s') bf (take (Z.to_nat (sz - 1)) ((fun c => c mod 256) <$> p_out sB') ++ [0]) /\
    forall a, ~ (bf <= a < bf + sz) -> p_mem s' !! a = p_mem sB' !! a.
Proof. apply vsnprintf_sim. Qed.

(** ** Printing and parsing numbers *)

Lemma put_list_console l : forall s, hooked s -> dmesg_ok s ->
  exists s', put_list console l s = Done s' /\ p_out s' = p_out s ++ (schar <$> l) /\ p_mem s' = p_mem s /\
    v_flush s' = v_flush s.
Proof.
  induction l as [| c l IH]; intros s Hh Hd; cbn [put_list].
  - exists s. split; [done |]. split; [by rewrite app_nil_r | done].
  - destruct Hh as [f Hf]. unfold KPRINTF_PUTCHAR at 1. change (oflags console =? TOBUFONLY) with false. cbv iota.
    unfold cons_putchar. unfold dmesg_ok in Hd. rewrite (proj2 (andb_true_iff _ _)) by lia. cbn [negb]. cbv zeta.
    rewrite Hf, Done_bind. set (s1 := Pst _ _ _ _ _ _ _). destruct (IH s1) as (s' & E & Ho & Hm & Hfl).
    + by exists f.
    + unfold dmesg_ok, s1. cbn [bmk_dmesgoff]. destruct (Z.eqb_spec (bmk_dmesgoff s + 1) (BMK_DMESG_SIZE - 1));
        [unfold BMK_DMESG_SIZE |]; lia.
    + exists s'. split; [done |]. split; [| done]. rewrite Ho. cbn. by rewrite <- app_assoc.
Qed.

(** One step of the scan each. *)
Lemma kp_literal_stop fuel d fmt ret s c : rdchar (p_mem s) fmt = Done c -> (c =? 37) || (c =? 0) = true ->
  kp_literal (S fuel) d fmt ret s = Done (fmt, ret, s).
Proof. intros Hc E. cbn [kp_literal]. by rewrite Hc, Done_bind, E. Qed.

Lemma kprintf_loop_end fuel d fmt ret ap s : rdchar (p_mem s) fmt = Done 0 ->
  kprintf_loop (S fuel) d fmt ret ap s = Done (ret, s).
Proof. intros Hc. cbn [kprintf_loop]. by rewrite (kp_literal_stop _ _ _ _ _ 0 Hc eq_refl), Done_bind, Hc, Done_bind. Qed.

Lemma kprintf_loop_field fuel d fmt ret ap s ch ch' k fmt2 ap2 ch3 flags width dprec sign t ap3 r s' :
  rdchar (p_mem s) fmt = Done 37 -> rdchar (p_mem s) (fmt + 1) = Done ch ->
  kp_flags (S fuel) (p_mem s) (fmt + 1 + 1) ch ap (Spec 0 0 (-1) 0) = Done (ch', k, fmt2, ap2) ->
  kp_conv (p_mem s) ret ch' k ap2 = Done (CField ch3 flags width dprec sign t ap3) ->
  kp_emit d ch3 flags width dprec sign t ret s = Done (r, s') ->
  kprintf_loop (S fuel) d fmt ret ap s = kprintf_loop fuel d fmt2 r ap3 s'.
Proof.
  intros H1 H2 H3 H4 H5. cbn [kprintf_loop]. rewrite (kp_literal_stop _ _ _ _ _ 37 H1 eq_refl), Done_bind, H1, Done_bind.
  change (37 =? 0) with false. cbv iota zeta. by rewrite H2, Done_bind, H3, Done_bind, H4, Done_bind, H5, Done_bind.
Qed.

Lemma kp_flags_u fuel m fmt ap k : kp_flags (S fuel) m fmt 117 ap k = Done (117, k, fmt, ap).
Proof. reflexivity. Qed.

Lemma kp_flags_l fuel m fmt c ap k : rdchar m fmt = Done c -> c <> 108 ->
  kp_flags (S fuel) m fmt 108 ap k = kp_flags fuel m (fmt + 1) c ap (or_flags LONGINT k).
Proof.
  intros Hc Hn. assert (kp_flags (S fuel) m fmt 108 ap k =
    (c ← rdchar m fmt; if c =? 108 then ch ← rdchar m (fmt + 1); kp_flags fuel m (fmt + 2) ch ap (or_flags QUADINT k)
     else ch ← rdchar m fmt; kp_flags fuel m (fmt + 1) ch ap (or_flags LONGINT k))) as -> by reflexivity.
  rewrite Hc, !Done_bind. by rewrite (proj2 (Z.eqb_neq c 108) Hn).
Qed.

(** The format "%lu". *)
Lemma kprintf_lu n s fmt : u64 n -> hooked s -> dmesg_ok s -> p_out s = [] -> v_flush s <> Unset ->
  bytes_at (p_mem s) fmt (cstring "%lu") ->
  exists ds s', kprintf console fmt [n] s = Done (Z.of_nat (length ds), s') /\ p_out s' = ds /\ p_mem s' = p_mem s /\
    ds <> [] /\ (length ds <= 20)%nat /\ Forall (is_digit 10) ds /\ digits_value 10 0 ds = n.
Proof.
  intros Hn Hh Hd Ho Hfl Hb.
  destruct (dec_loop_spec 19 64 n []) as (ds & Ed & Hne & Hlen & Hds & Hv); [by apply u64_below | cbn; lia | lia |].
  rewrite app_nil_r in Ed. pose proof (mapped_size _ _ _ (bytes_at_mapped _ _ _ Hb)) as Hsz.
  change (cstring "%lu") with [37; 108; 117; 0] in *. cbn [length] in Hsz.
  destruct Hb as (H0 & H1 & H2 & H3 & _).
  assert (forall s', p_mem s' = p_mem s -> rdchar (p_mem s') fmt = Done 37 /\ rdchar (p_mem s') (fmt + 1) = Done 108 /\
    rdchar (p_mem s') (fmt + 1 + 1) = Done 117 /\ rdchar (p_mem s') (fmt + 1 + 1 + 1) = Done 0) as Hrd.
  { intros s' ->. unfold rdchar, load8. rewrite H0, H1, H2, H3. done. }
  destruct (Hrd s eq_refl) as (R0 & R1 & R2 & R3).
  assert (schar <$> ds = ds) as Hsc.
  { clear -Hds. induction Hds as [| c ds (i & Hi & Hlt) Hds IH]; [done |]. cbn. rewrite IH. f_equal.
    unfold schar. unfold digit_of in Hi. destruct (Z.ltb_spec c 128); [done |]. repeat case_match; simplify_eq; lia. }
  destruct (put_list_console ds s Hh Hd) as (s' & Ep & Ho' & Hm' & Hf'). rewrite Ho, Hsc in Ho'. cbn in Ho'.
  destruct (Hrd s' Hm') as (_ & _ & _ & R3').
  assert (forall x, 0 <= x <= 20 -> as_int x = Done x) as Hint.
  { intros x Hx. unfold as_int, int_ok. by rewrite (proj2 (andb_true_iff _ _)) by lia. }
  assert (kp_emit console 117 LONGINT 0 (-1) 0 (InBf ds) 0 s = Done (Z.of_nat (length ds), s')) as Ee.
  { rewrite kp_emit_text. cbn [text_size]. cbv zeta. rewrite (proj2 (Z.ltb_ge (Z.of_nat (length ds)) (-1))) by lia.
    change (negb (0 =? 0)) with false. change (fl_has LONGINT HEXPREFIX) with false. cbv iota.
    rewrite (Hint (Z.of_nat (length ds))) by lia. rewrite Done_bind.
    rewrite (proj2 (Z.ltb_ge (Z.of_nat (length ds)) 0)) by lia. rewrite Z.add_0_l, (Hint (Z.of_nat (length ds))), Done_bind by lia.
    unfold emit_text. replace (Z.to_nat (0 - Z.of_nat (length ds))) with 0%nat by lia.
    replace (Z.to_nat (-1 - Z.of_nat (length ds))) with 0%nat by lia. cbn [put_n].
    change (Z.land LONGINT (Z.lor LADJUST ZEROPAD) =? 0) with true. change (Z.land LONGINT (Z.lor LADJUST ZEROPAD) =? ZEROPAD) with false.
    change (negb (0 =? 0)) with false. change (fl_has LONGINT HEXPREFIX) with false. change (fl_has LONGINT LADJUST) with false.
    cbv iota. rewrite !Done_bind. cbn [put_text]. rewrite Ep. by rewrite !Done_bind. }
  assert (kp_conv (p_mem s) 0 117 (or_flags LONGINT (Spec 0 0 (-1) 0)) [n] =
    Done (CField 117 LONGINT 0 (-1) 0 (InBf ds) [])) as Ec.
  { assert (forall m k, kp_conv m 0 117 k [n] = ('(flags, bf) ← kp_number DEC (k_flags k) (k_prec k) (UARG (k_flags k) n);
      Done (CField 117 flags (k_width k) (k_prec k) 0 (InBf bf) []))) as -> by reflexivity.
    cbn [k_flags k_width k_prec or_flags]. change (Z.lor 0 LONGINT) with LONGINT.
    assert (UARG LONGINT n = n) as -> by (exact (wrap64_small n Hn)). unfold kp_number.
    change (0 <=? -1) with false. change (negb (-1 =? 0)) with true. rewrite orb_true_r. cbv iota zeta.
    by rewrite Ed, !Done_bind. }
  exists ds, s'. split; [| done]. unfold kprintf. destruct (size (p_mem s)) as [| k]; [lia |].
  rewrite (kprintf_loop_field _ _ _ _ _ _ _ _ _ _ _ _ _ _ _ _ _ _ _ _ R0 R1
    (eq_trans (kp_flags_l _ _ _ 117 _ _ R2 ltac:(lia)) (kp_flags_u _ _ _ _ _)) Ec Ee).
  rewrite kprintf_loop_end by exact R3'. rewrite Done_bind, Hf'. unfold call_hook. by destruct (v_flush s).
Qed.

(** Printing and parsing an [unsigned long] round-trips: for every 64-bit
    value and a buffer of at least 21 bytes, [bmk_snprintf] with "%lu"
    followed by [bmk_strtoul] in base 10 gives the value back, with the end
    pointer at the terminating NUL. *)
Theorem printf_strtoul_roundtrip n s bf sz fmt :
  u64 n -> 0 <= bmk_dmesgoff s < BMK_DMESG_SIZE - 1 -> v_flush s <> Unset ->
  0 < bf -> 21 <= sz -> bf + sz < W64 -> mapped (p_mem s) bf (Z.to_nat sz) ->
  bytes_at (p_mem s) fmt (cstring "%lu") -> fmt + 4 <= bf \/ bf + sz <= fmt ->
  exists ret s', bmk_snprintf bf sz fmt [n] s = Done (ret, s') /\ bmk_strtoul (p_mem s') bf 10 = Done (n, bf + ret).
Proof.
  intros Hn Hd Hfl Hb Hsz Hw Hm Hf Hdis.
  assert (bytes_at (p_mem (watched bf sz 1 s)) fmt (cstring "%lu")) as HfB.
  { apply bytes_at_lookup. intros i b Hi. pose proof (lookup_lt_Some _ _ _ Hi) as Hlt. change (length (cstring "%lu")) with 4%nat in Hlt.
    apply map_lookup_filter_Some. split; [by apply (proj1 (bytes_at_lookup _ _ _) Hf) |]. cbn. lia. }
  destruct (kprintf_lu n (watched bf sz 1 s) fmt Hn) as (ds & sB & E & Ho & _ & Hne & Hlen & Hds & Hv); try done; [by exists 1 |].
  destruct (vsnprintf_sim bf sz fmt [n] s 1 _ sB Hb ltac:(lia) Hw Hm E) as (s' & E' & Hr & Hbytes & _).
  exists (Z.of_nat (length ds)), s'. split; [exact E' |]. rewrite Ho in Hbytes.
  assert ((fun c => c mod 256) <$> ds = ds) as Hmod.
  { clear -Hds. induction Hds as [| c ds (i & Hi & Hlt) Hds IH]; [done |]. cbn. rewrite IH. f_equal.
    apply Z.mod_small. unfold digit_of in Hi. repeat case_match; simplify_eq; lia. }
  rewrite Hmod, take_ge in Hbytes by lia.
  rewrite (strtoul_spec (p_mem s') bf 10 [] [] [] ds 0 []); [| by right | done | by left | | done | done | | exact Hbytes].
  - cbn [app]. change (effective_base 10 [] ds) with 10. rewrite Hv. destruct (Z.ltb_spec UINT_MAX n) as [H | H].
    { unfold u64, UINT_MAX in *. lia. }
    rewrite bool_decide_false by done. done.
  - cbn. intros [H | H]; lia.
  - change (effective_base 10 [] ds) with 10. intros (i & Hi & _). done.
Qed.

(** ** Instances *)

(** A format at 1000 and a buffer of 32 bytes at 2000. *)
Definition demo_print (fmt : string) : pst :=
  Pst (mem_write (mem_write ∅ 1000 (cstring fmt)) 2000 (replicate 32 255)) 0 ∅ 0 Nullfun Nullfun [].

Lemma demo_print_mapped fmt : mapped (p_mem (demo_print fmt)) 2000 (Z.to_nat 32).
Proof.
  assert (bytes_at (p_mem (demo_print fmt)) 2000 (replicate 32 255)) as H by apply bytes_at_write.
  apply bytes_at_mapped in H. exact H.
Qed.

Definition no_argument : string :=
  match kprintf (Dest TOCONS false 0) 1000 [] (demo_print "%d") with Undef w => w | _ => EmptyString end.

Lemma kprintf_safe_witness :
  kprintf (Dest TOCONS false 0) 1000 [] (demo_print "%d") = Undef no_argument /\ user_error no_argument.
Proof.
  destruct (kprintf_safe (Dest TOCONS false 0) 1000 [] (demo_print "%d")) as (H & _).
  - vm_compute. split; [discriminate | reflexivity].
  - assert (kprintf (Dest TOCONS false 0) 1000 [] (demo_print "%d") = Undef no_argument) as E by (vm_compute; reflexivity).
    split; [exact E | exact (H _ E)].
Defined.

Lemma bmk_vsnprintf_correct_witness : exists s', bmk_vsnprintf 2000 8 1000 [-5 mod W64; 255] (demo_print "%d = %#x!") = Done (10, s') /\
  bytes_at (p_mem s') 2000 (bytes_of "-5 = 0x" ++ [0]).
Proof.
  destruct (bmk_vsnprintf_correct 2000 8 1000 [-5 mod W64; 255] (demo_print "%d = %#x!") 1 10
    (match kprintf (Dest TOCONS false 0) 1000 [-5 mod W64; 255] (watched 2000 8 1 (demo_print "%d = %#x!")) with
     | Done (_, s') => s' | _ => demo_print "" end)) as (s' & E & _ & H & _).
  - lia.
  - lia.
  - reflexivity.
  - apply (mapped_mono _ _ (Z.to_nat 32)); [lia | apply demo_print_mapped].
  - vm_compute. reflexivity.
  - exists s'. split; [exact E |].
    match type of H with bytes_at _ _ ?l => assert (l = bytes_of "-5 = 0x" ++ [0]) as El by (vm_compute; reflexivity) end.
    rewrite El in H. exact H.
Defined.

Lemma printf_strtoul_roundtrip_witness : exists ret s', bmk_snprintf 2000 32 1000 [18446744073709551615] (demo_print "%lu") = Done (ret, s') /\
  bmk_strtoul (p_mem s') 2000 10 = Done (18446744073709551615, 2000 + ret).
Proof.
  apply (printf_strtoul_roundtrip 18446744073709551615 (demo_print "%lu") 2000 32 1000).
  - vm_compute. split; [discriminate | reflexivity].
  - vm_compute. split; [discriminate | reflexivity].
  - discriminate.
  - lia.
  - lia.
  - reflexivity.
  - apply demo_print_mapped.
  - apply (bool_decide_unpack _). vm_compute. reflexivity.
  - left. lia.
Defined.
