(* ===== verification/Jsmn.v ===== *)
(** * JSON tokenizer (lib/libbmk_core/jsmn.c)

    As the library builds it: neither strict mode nor parent links.  The text
    is an array of bytes, the tokens an array or NULL ([None]); an access
    outside either is undefined.  [char] is signed, [pos] and [toknext] are
    32-bit unsigned. *)

From S2P Require Import Prelude Mem.

Inductive jsmntype := JSMN_PRIMITIVE | JSMN_OBJECT | JSMN_ARRAY | JSMN_STRING.
Global Instance jsmntype_eq_dec : EqDecision jsmntype.
Proof. solve_decision. Defined.

Definition JSMN_ERROR_NOMEM : Z := -1.
Definition JSMN_ERROR_INVAL : Z := -2.
Definition JSMN_ERROR_PART : Z := -3.

Record jsmntok := Tok { t_type : jsmntype; t_start : Z; t_end : Z; t_size : Z }.
Record jsmn_parser := Parser { pos : Z; toknext : Z; toksuper : Z }.

Definition jsmn_init : jsmn_parser := Parser 0 0 (-1).

Abbreviation tokens := (option (list jsmntok)).

(** [js[i]], a [char]. *)
Definition js_at (js : list Z) (i : Z) : outcome Z :=
  c ← of_option "js[pos]" (js !! Z.to_nat i); Done (schar c).

(** [tokens[i]] for an [int] index. *)
Definition tok_at (toks : list jsmntok) (i : Z) : outcome jsmntok :=
  if i <? 0 then Undef "tokens[-1]" else of_option "tokens[i]" (toks !! Z.to_nat i).
Definition tok_put (toks : list jsmntok) (i : Z) (t : jsmntok) : outcome (list jsmntok) :=
  _ ← tok_at toks i; Done (<[Z.to_nat i := t]> toks).

(** [pos < len && js[pos] != '\0']: the character, or [None] at the end. *)
Definition js_more (js : list Z) (len p : Z) : outcome (option Z) :=
  if p <? len then c ← js_at js p; Done (if c =? 0 then None else Some c) else Done None.

(** ** Tokens *)

(** The index of the new token, [None] when there is no room. *)
Definition jsmn_alloc_token (p : jsmn_parser) (toks : list jsmntok) (num : Z)
    : outcome (option Z * jsmn_parser * list jsmntok) :=
  if num <=? toknext p then Done (None, p, toks)
  else
    let i := toknext p in
    t ← tok_at toks i;
    toks ← tok_put toks i (Tok (t_type t) (-1) (-1) 0);
    Done (Some i, Parser (pos p) (wrap32 (toknext p + 1)) (toksuper p), toks).

Definition jsmn_fill_token (type : jsmntype) (start en : Z) : jsmntok := Tok type start en 0.

Definition set_pos (q : Z) (p : jsmn_parser) : jsmn_parser := Parser q (toknext p) (toksuper p).
Definition set_super (q : Z) (p : jsmn_parser) : jsmn_parser := Parser (pos p) (toknext p) q.

(** Allocates and fills a token for the text from [start] to [en]; the common
    end of both token parsers. *)
Definition new_token (type : jsmntype) (start en : Z) (p : jsmn_parser) (toks : list jsmntok) (num : Z)
    : outcome (option (jsmn_parser * list jsmntok)) :=
  '(i, p, toks) ← jsmn_alloc_token p toks num;
  match i with
  | None => Done None
  | Some i => toks ← tok_put toks i (jsmn_fill_token type (s32 start) (s32 en)); Done (Some (p, toks))
  end.

(** ** Primitives *)

Definition ends_primitive (c : Z) : bool :=
  (c =? 58) || (c =? 9) || (c =? 13) || (c =? 10) || (c =? 32) || (c =? 44) || (c =? 93) || (c =? 125).

(** The scan: where the primitive ends, [None] for an invalid character. *)
Fixpoint prim_scan (fuel : nat) (js : list Z) (len p : Z) : outcome (option Z) :=
  match fuel with
  | O => Undef "jsmn: out of fuel"
  | S fuel =>
      c ← js_more js len p;
      match c with
      | None => Done (Some p)
      | Some c =>
          if ends_primitive c then Done (Some p)
          else if (c <? 32) || (127 <=? c) then Done None
          else prim_scan fuel js len (wrap32 (p + 1))
      end
  end.

Definition jsmn_parse_primitive (fuel : nat) (p : jsmn_parser) (js : list Z) (len : Z) (toks : tokens) (num : Z)
    : outcome (Z * jsmn_parser * tokens) :=
  let start := pos p in
  e ← prim_scan fuel js len (pos p);
  match e with
  | None => Done (JSMN_ERROR_INVAL, set_pos start p, toks)
  | Some e =>
      match toks with
      | None => Done (0, set_pos (wrap32 (e - 1)) p, toks)
      | Some ts =>
          r ← new_token JSMN_PRIMITIVE start e p ts num;
          match r with
          | None => Done (JSMN_ERROR_NOMEM, set_pos start p, toks)
          | Some (p, ts) => Done (0, set_pos (wrap32 (e - 1)) p, Some ts)
          end
      end
  end.

(** ** Strings *)

Definition is_hex (c : Z) : bool :=
  ((48 <=? c) && (c <=? 57)) || ((65 <=? c) && (c <=? 70)) || ((97 <=? c) && (c <=? 102)).

(** The loop after [\u]: at most [n] hex digits; [None] for anything else. *)
Fixpoint hex_scan (n : nat) (js : list Z) (len p : Z) : outcome (option Z) :=
  match n with
  | O => Done (Some p)
  | S n =>
      c ← js_more js len p;
      match c with
      | None => Done (Some p)
      | Some c => if is_hex c then hex_scan n js len (wrap32 (p + 1)) else Done None
      end
  end.

Definition simple_escape (c : Z) : bool :=
  (c =? 34) || (c =? 47) || (c =? 92) || (c =? 98) || (c =? 102) || (c =? 114) || (c =? 110) || (c =? 116).

Inductive sres := SQuote (p : Z) | SInval | SPart.

Fixpoint str_scan (fuel : nat) (js : list Z) (len p : Z) : outcome sres :=
  match fuel with
  | O => Undef "jsmn: out of fuel"
  | S fuel =>
      c ← js_more js len p;
      match c with
      | None => Done SPart
      | Some c =>
          if c =? 34 then Done (SQuote p)
          else if (c =? 92) && (wrap32 (p + 1) <? len) then
            let p := wrap32 (p + 1) in
            c ← js_at js p;
            if simple_escape c then str_scan fuel js len (wrap32 (p + 1))
            else if c =? 117 (* 'u' *) then
              q ← hex_scan 4 js len (wrap32 (p + 1));
              match q with
              | None => Done SInval
              | Some q => str_scan fuel js len (wrap32 (wrap32 (q - 1) + 1))
              end
            else Done SInval
          else str_scan fuel js len (wrap32 (p + 1))
      end
  end.

Definition jsmn_parse_string (fuel : nat) (p : jsmn_parser) (js : list Z) (len : Z) (toks : tokens) (num : Z)
    : outcome (Z * jsmn_parser * tokens) :=
  let start := pos p in
  r ← str_scan fuel js len (wrap32 (pos p + 1));
  match r with
  | SPart => Done (JSMN_ERROR_PART, set_pos start p, toks)
  | SInval => Done (JSMN_ERROR_INVAL, set_pos start p, toks)
  | SQuote e =>
      match toks with
      | None => Done (0, set_pos e p, toks)
      | Some ts =>
          r ← new_token JSMN_STRING (start + 1) e (set_pos e p) ts num;
          match r with
          | None => Done (JSMN_ERROR_NOMEM, set_pos start p, toks)
          | Some (p, ts) => Done (0, p, Some ts)
          end
      end
  end.

(** ** The parser *)

(** [for (i = n - 1; i >= 0; i--)] looking for an open object or array. *)
Definition is_open (t : jsmntok) : bool := negb (t_start t =? -1) && (t_end t =? -1).
Definition is_container (t : jsmntok) : bool :=
  match t_type t with JSMN_ARRAY | JSMN_OBJECT => true | _ => false end.
Fixpoint find_back (f : jsmntok -> bool) (n : nat) (toks : list jsmntok) : outcome (option nat) :=
  match n with
  | O => Done None
  | S n => t ← tok_at toks (Z.of_nat n); if f t then Done (Some n) else find_back f n toks
  end.

(** [tokens[parser->toksuper].size++] when there is a superior token. *)
Definition bump_super (p : jsmn_parser) (toks : list jsmntok) : outcome (list jsmntok) :=
  if toksuper p =? -1 then Done toks
  else
    t ← tok_at toks (toksuper p);
    tok_put toks (toksuper p) (Tok (t_type t) (t_start t) (t_end t) (t_size t + 1)).

(** The loop body continues, or [jsmn_parse] returns an error. *)
Inductive jres := JNext (p : jsmn_parser) (toks : tokens) (count : Z) | JError (e : Z).

Definition open_bracket (c : Z) (p : jsmn_parser) (toks : tokens) (num count : Z) : outcome jres :=
  let count := count + 1 in
  match toks with
  | None => Done (JNext p toks count)
  | Some ts =>
      '(i, p, ts) ← jsmn_alloc_token p ts num;
      match i with
      | None => Done (JError JSMN_ERROR_NOMEM)
      | Some i =>
          ts ← bump_super p ts;
          t ← tok_at ts i;
          ts ← tok_put ts i (Tok (if c =? 123 then JSMN_OBJECT else JSMN_ARRAY) (s32 (pos p)) (t_end t) (t_size t));
          Done (JNext (set_super (s32 (toknext p - 1)) p) (Some ts) count)
      end
  end.

Definition close_bracket (c : Z) (p : jsmn_parser) (toks : tokens) (count : Z) : outcome jres :=
  match toks with
  | None => Done (JNext p toks count)
  | Some ts =>
      let type := if c =? 125 then JSMN_OBJECT else JSMN_ARRAY in
      i ← find_back is_open (Z.to_nat (toknext p)) ts;
      match i with
      | None => Done (JError JSMN_ERROR_INVAL)
      | Some i =>
          t ← tok_at ts (Z.of_nat i);
          if negb (bool_decide (t_type t = type)) then Done (JError JSMN_ERROR_INVAL)
          else
            ts ← tok_put ts (Z.of_nat i) (Tok (t_type t) (t_start t) (s32 (pos p + 1)) (t_size t));
            j ← find_back is_open (S i) ts;
            Done (JNext (set_super (match j with Some j => Z.of_nat j | None => -1 end) p) (Some ts) count)
      end
  end.

Definition comma (p : jsmn_parser) (toks : tokens) (count : Z) : outcome jres :=
  match toks with
  | None => Done (JNext p toks count)
  | Some ts =>
      t ← tok_at ts (toksuper p);
      if is_container t then Done (JNext p toks count)
      else
        i ← find_back (fun t => is_container t && is_open t) (Z.to_nat (toknext p)) ts;
        Done (JNext (match i with Some i => set_super (Z.of_nat i) p | None => p end) toks count)
  end.

(** After a string or primitive. *)
Definition value_done (r : Z * jsmn_parser * tokens) (count : Z) : outcome jres :=
  let '(e, p, toks) := r in
  if e <? 0 then Done (JError e)
  else
    match toks with
    | None => Done (JNext p toks (count + 1))
    | Some ts => ts ← bump_super p ts; Done (JNext p (Some ts) (count + 1))
    end.

Definition jsmn_char (fuel : nat) (c : Z) (p : jsmn_parser) (js : list Z) (len : Z) (toks : tokens) (num count : Z)
    : outcome jres :=
  if (c =? 123) || (c =? 91) then open_bracket c p toks num count
  else if (c =? 125) || (c =? 93) then close_bracket c p toks count
  else if c =? 34 then r ← jsmn_parse_string fuel p js len toks num; value_done r count
  else if (c =? 9) || (c =? 13) || (c =? 10) || (c =? 32) then Done (JNext p toks count)
  else if c =? 58 then Done (JNext (set_super (s32 (toknext p - 1)) p) toks count)
  else if c =? 44 then comma p toks count
  else r ← jsmn_parse_primitive fuel p js len toks num; value_done r count.

(** The main [for]; returns the parser, the tokens and the value to return. *)
Fixpoint jsmn_loop (fuel : nat) (p : jsmn_parser) (js : list Z) (len : Z) (toks : tokens) (num count : Z)
    : outcome (jsmn_parser * tokens * (Z + Z)) :=
  match fuel with
  | O => Undef "jsmn: out of fuel"
  | S fuel' =>
      c ← js_more js len (pos p);
      match c with
      | None => Done (p, toks, inr count)
      | Some c =>
          r ← jsmn_char fuel c p js len toks num count;
          match r with
          | JError e => Done (p, toks, inl e)
          | JNext p toks count => jsmn_loop fuel' (set_pos (wrap32 (pos p + 1)) p) js len toks num count
          end
      end
  end.

(** The value, the parser and the tokens.  An error leaves the parser at the
    character it was found at.  The last loop reads [tokens], which a caller
    that only counts has not got; no token has been allocated then. *)
Definition jsmn_parse (p : jsmn_parser) (js : list Z) (len : Z) (toks : tokens) (num : Z)
    : outcome (Z * jsmn_parser * tokens) :=
  '(p, toks, r) ← jsmn_loop (S (S (Z.to_nat len))) p js len toks num 0;
  match r with
  | inl e => Done (e, p, toks)
  | inr count =>
      i ← find_back is_open (Z.to_nat (toknext p)) (default [] toks);
      Done (match i with Some _ => JSMN_ERROR_PART | None => count end, p, toks)
  end.
