(* ===== verification/JsmnProps.v ===== *)
(** * Lemmas on the JSON tokenizer

    The scanners return within the text, and the invariant of the token array:
    every token describes a piece of the text of the right shape, and two
    tokens are nested or disjoint. *)

From S2P Require Import Prelude Mem Jsmn.

Lemma wrap32_small z : 0 <= z < 2 ^ 32 -> wrap32 z = z.
Proof. apply Z.mod_small. Qed.

(** ** The scanners *)

Section Scan.
  Context (js : list Z) (len : Z).
  Hypothesis Hlen : 0 <= len <= Z.of_nat (length js).
  Hypothesis Hmax : len < 2 ^ 31.

Lemma js_at_ok q : 0 <= q < len -> exists b, js !! Z.to_nat q = Some b /\ js_at js q = Done (schar b).
Proof.
  intros H. destruct (lookup_lt_is_Some_2 js (Z.to_nat q)) as [b Hb]; [lia |].
  exists b. split; [done |]. unfold js_at. by rewrite Hb.
Qed.

Lemma js_more_ok q :
  0 <= q ->
  js_more js len q = Done None \/
  (q < len /\ exists b, js !! Z.to_nat q = Some b /\ schar b <> 0 /\ js_more js len q = Done (Some (schar b))).
Proof.
  intros H. unfold js_more. destruct (Z.ltb_spec q len); [| by left].
  destruct (js_at_ok q) as (b & Hb & ->); [lia |]. cbn.
  destruct (Z.eqb_spec (schar b) 0); [by left | right]. eauto 6.
Qed.

Lemma prim_scan_ok fuel q :
  0 <= q <= len -> len - q < Z.of_nat fuel ->
  exists r, prim_scan fuel js len q = Done r /\
    match r with
    | Some e => q <= e <= len /\
                (e = q -> forall c, js_more js len q = Done (Some c) -> ends_primitive c = true)
    | None => True
    end.
Proof.
  revert q. induction fuel as [| fuel IH]; intros q Hq Hf; [lia |]. cbn [prim_scan].
  destruct (js_more_ok q) as [E | (Hlt & b & Hb & Hne & E)]; [lia | |]; rewrite E, Done_bind.
  - exists (Some q). split; [done |]. split; [lia |]. intros _ c Hc. congruence.
  - destruct (ends_primitive (schar b)) eqn:He.
    { exists (Some q). split; [done |]. split; [lia |]. intros _ c Hc. congruence. }
    destruct (_ || _); [by exists None |]. rewrite wrap32_small by lia.
    destruct (IH (q + 1)) as (r & Hr & Hs); [lia.. |]. exists r. split; [done |].
    destruct r; [| done]. destruct Hs as [Hs _]. split; [lia |]. intros ->. lia.
Qed.

Lemma hex_scan_ok n q :
  0 <= q <= len ->
  exists r, hex_scan n js len q = Done r /\ match r with Some e => q <= e <= len | None => True end.
Proof.
  revert q. induction n as [| n IH]; intros q Hq; cbn [hex_scan].
  { exists (Some q). split; [done | lia]. }
  destruct (js_more_ok q) as [E | (Hlt & b & Hb & Hne & E)]; [lia | |]; rewrite E, Done_bind.
  { exists (Some q). split; [done | lia]. }
  destruct (is_hex _); [| by exists None]. rewrite wrap32_small by lia.
  destruct (IH (q + 1)) as (r & Hr & Hs); [lia |]. exists r. split; [done |]. destruct r; [lia | done].
Qed.

Lemma str_scan_ok fuel q :
  0 <= q <= len -> len - q < Z.of_nat fuel ->
  exists r, str_scan fuel js len q = Done r /\
    match r with
    | SQuote e => q <= e < len /\ exists b, js !! Z.to_nat e = Some b /\ schar b = 34
    | _ => True
    end.
Proof.
  revert q. induction fuel as [| fuel IH]; intros q Hq Hf; [lia |]. cbn [str_scan].
  assert (forall q', q < q' <= len -> exists r, str_scan fuel js len q' = Done r /\
    match r with
    | SQuote e => q <= e < len /\ exists b, js !! Z.to_nat e = Some b /\ schar b = 34
    | _ => True
    end) as IH'.
  { intros q' Hq'. destruct (IH q') as (r & Hr & Hs); [lia.. |]. exists r. split; [done |].
    destruct r; [| done..]. destruct Hs as [? ?]. split; [lia | done]. }
  destruct (js_more_ok q) as [E | (Hlt & b & Hb & Hne & E)]; [lia | |]; rewrite E, Done_bind.
  { by exists SPart. }
  destruct (Z.eqb_spec (schar b) 34) as [Hq34 |].
  { exists (SQuote q). split; [done |]. split; [lia | eauto]. }
  rewrite !(wrap32_small (q + 1)) by lia.
  destruct (_ && _) eqn:Hbs; [| apply IH'; lia].
  apply andb_true_iff in Hbs as [_ Hl%Z.ltb_lt]. cbv zeta.
  destruct (js_at_ok (q + 1)) as (b' & Hb' & ->); [lia |]. rewrite Done_bind.
  rewrite (wrap32_small (q + 1 + 1)) by lia.
  destruct (simple_escape _); [apply IH'; lia |]. destruct (_ =? 117); [| by exists SInval].
  destruct (hex_scan_ok 4 (q + 1 + 1)) as (r & -> & Hr); [lia |]. rewrite Done_bind.
  destruct r as [e |]; [| by exists SInval].
  rewrite (wrap32_small (e - 1)), wrap32_small by lia. apply IH'. lia.
Qed.
End Scan.

(** ** Tokens *)

Lemma tok_at_ok ts i : 0 <= i < Z.of_nat (length ts) -> exists t, ts !! Z.to_nat i = Some t /\ tok_at ts i = Done t.
Proof.
  intros H. destruct (lookup_lt_is_Some_2 ts (Z.to_nat i)) as [t Ht]; [lia |]. exists t.
  unfold tok_at. destruct (Z.ltb_spec i 0); [lia |]. by rewrite Ht.
Qed.

Lemma tok_at_inv ts i t : tok_at ts i = Done t -> 0 <= i /\ ts !! Z.to_nat i = Some t.
Proof.
  unfold tok_at. destruct (Z.ltb_spec i 0); [done |]. intros H'. outcome_inv. split; [lia | done].
Qed.

Lemma tok_put_ok ts i t : 0 <= i < Z.of_nat (length ts) -> tok_put ts i t = Done (<[Z.to_nat i := t]> ts).
Proof. intros H. unfold tok_put. by destruct (tok_at_ok ts i H) as (t' & _ & ->). Qed.

Lemma find_back_ok f n ts :
  (n <= length ts)%nat ->
  exists r, find_back f n ts = Done r /\
    match r with
    | Some i => (i < n)%nat /\ (exists t, ts !! i = Some t /\ f t = true) /\
                (forall j t, (i < j < n)%nat -> ts !! j = Some t -> f t = false)
    | None => forall j t, (j < n)%nat -> ts !! j = Some t -> f t = false
    end.
Proof.
  induction n as [| n IH]; intros Hn; cbn [find_back]; [by exists None; split; [| intros; lia] |].
  destruct (tok_at_ok ts (Z.of_nat n)) as (t & Ht & ->); [lia |]. rewrite Done_bind.
  rewrite Nat2Z.id in Ht. destruct (f t) eqn:Hf.
  - exists (Some n). split; [done |]. split; [lia |]. split; [eauto | intros; lia].
  - destruct IH as (r & -> & Hr); [lia |]. exists r. split; [done |].
    assert (forall j t', ts !! j = Some t' -> j = n -> f t' = false) as Hn' by (intros; congruence).
    destruct r as [i |].
    + destruct Hr as (? & ? & Hj). split; [lia |]. split; [done |].
      intros j t' ? Hjt. destruct (decide (j = n)); [eauto | apply (Hj j); [lia | done]].
    + intros j t' ? Hjt. destruct (decide (j = n)); [eauto | apply (Hr j); [lia | done]].
Qed.

(** ** The token array *)

Definition byte_is (js : list Z) (i c : Z) : Prop := exists b, js !! Z.to_nat i = Some b /\ schar b = c.

(** The brackets of an object or array. *)
Definition opener (t : jsmntype) : Z := match t with JSMN_OBJECT => 123 | _ => 91 end.
Definition closer (t : jsmntype) : Z := match t with JSMN_OBJECT => 125 | _ => 93 end.

(** What a token says about the text before [q]. *)
Definition tok_ok (js : list Z) (q : Z) (t : jsmntok) : Prop :=
  match t_type t with
  | JSMN_PRIMITIVE => 0 <= t_start t < t_end t /\ t_end t <= q
  | JSMN_STRING =>
      1 <= t_start t <= t_end t /\ t_end t < q /\
      byte_is js (t_start t - 1) 34 /\ byte_is js (t_end t) 34
  | ty =>
      0 <= t_start t < q /\ byte_is js (t_start t) (opener ty) /\
      (t_end t = -1 \/ t_start t < t_end t <= q /\ byte_is js (t_end t - 1) (closer ty))
  end.

(** Of two tokens the earlier one encloses the later one or ends before it;
    an open one has no end yet. *)
Definition nest (t t' : jsmntok) : Prop :=
  t_start t < t_start t' /\
  (is_open t = true \/ t_end t <= t_start t' \/ (is_open t' = false /\ t_end t' <= t_end t)).

Definition tokens_ok (js : list Z) (q n : Z) (ts : list jsmntok) : Prop :=
  (forall i t, ts !! i = Some t -> Z.of_nat i < n -> tok_ok js q t) /\
  (forall i j t t', ts !! i = Some t -> ts !! j = Some t' -> (i < j)%nat -> Z.of_nat j < n -> nest t t').

(** The tokens of two arrays cover the same text. *)
Definition same_span (t t' : jsmntok) : Prop :=
  t_type t = t_type t' /\ t_start t = t_start t' /\ t_end t = t_end t'.

Lemma tokens_ok_span js q n ts ts' :
  Forall2 same_span ts ts' -> tokens_ok js q n ts' -> tokens_ok js q n ts.
Proof.
  intros HF [H1 H2]. split.
  - intros i t Hi Hn. destruct (Forall2_lookup_l _ _ _ _ _ HF Hi) as (t' & Hi' & E1 & E2 & E3).
    specialize (H1 i t' Hi' Hn). unfold tok_ok in *. by rewrite E1, E2, E3.
  - intros i j t t' Hi Hj ? ?.
    destruct (Forall2_lookup_l _ _ _ _ _ HF Hi) as (u & Hi' & E1 & E2 & E3).
    destruct (Forall2_lookup_l _ _ _ _ _ HF Hj) as (u' & Hj' & F1 & F2 & F3).
    specialize (H2 i j u u' Hi' Hj'). unfold nest, is_open in *. rewrite E2, E3, F2, F3. auto.
Qed.

Lemma tok_ok_mono js q q' t : q <= q' -> tok_ok js q t -> tok_ok js q' t.
Proof. unfold tok_ok. intros Hq. destruct (t_type t); intuition lia. Qed.

Lemma tokens_ok_mono js q q' n ts : q <= q' -> tokens_ok js q n ts -> tokens_ok js q' n ts.
Proof. intros Hq [H1 H2]. split; [| done]. intros i t ? ?. eapply tok_ok_mono; eauto. Qed.

Lemma tok_ok_before js q t : tok_ok js q t -> 0 <= t_start t < q /\ t_end t <= q /\ (is_open t = false -> t_start t <= t_end t).
Proof.
  unfold tok_ok, is_open. destruct (t_type t); intros H;
    destruct (Z.eqb_spec (t_start t) (-1)); destruct (Z.eqb_spec (t_end t) (-1)); cbn;
    (split; [lia |]); (split; [lia | intros ?; try done; lia]).
Qed.

(** A new token after the old ones. *)
Lemma tokens_ok_push js q q' n ts t :
  tokens_ok js q n ts -> 0 <= n -> q <= q' -> q <= t_start t -> tok_ok js q' t ->
  tokens_ok js q' (n + 1) (<[Z.to_nat n := t]> ts).
Proof.
  intros [H1 H2] Hn Hq Hs Ht. split.
  - intros i u Hi Hlt. apply list_lookup_insert_Some in Hi as [(<- & <- & _) | (Hne & Hi)]; [done |].
    apply (tok_ok_mono js q); [done |]. apply (H1 i); [done | lia].
  - intros i j u u' Hi Hj Hij Hlt.
    apply list_lookup_insert_Some in Hi as [(<- & <- & _) | (Hne & Hi)]; [lia |].
    apply list_lookup_insert_Some in Hj as [(<- & <- & _) | (Hne' & Hj)].
    + specialize (H1 i u Hi). destruct (tok_ok_before js q u) as (? & ? & ?); [apply H1; lia |].
      split; [lia |]. right. left. lia.
    + apply (H2 i j); [done.. | lia].
Qed.

(** The last open token is closed at the current character. *)
Lemma tokens_ok_close js q n ts i t :
  tokens_ok js q n ts -> 0 <= q -> ts !! i = Some t -> Z.of_nat i < n -> is_open t = true ->
  (forall j u, (i < j)%nat -> Z.of_nat j < n -> ts !! j = Some u -> is_open u = false) ->
  byte_is js q (closer (t_type t)) ->
  tokens_ok js (q + 1) n (<[i := Tok (t_type t) (t_start t) (q + 1) (t_size t)]> ts).
Proof.
  intros [H1 H2] Hq Hi Hn Hopen Hlast Hb. pose proof (H1 i t Hi Hn) as Hok.
  destruct (tok_ok_before js q t Hok) as (? & _ & _). split.
  - intros j u Hj Hlt. apply list_lookup_insert_Some in Hj as [(<- & <- & _) | (Hne & Hj)].
    2: { apply (tok_ok_mono js q); [lia | eauto]. }
    unfold is_open in Hopen. apply andb_true_iff in Hopen as [_ He%Z.eqb_eq].
    unfold tok_ok in *. cbn. replace (q + 1 - 1) with q by lia.
    destruct (t_type t); intuition lia.
  - intros j k u u' Hj Hk Hjk Hlt.
    apply list_lookup_insert_Some in Hj as [(<- & <- & _) | (Hne & Hj)];
      (apply list_lookup_insert_Some in Hk as [(Ek & <- & _) | (Hne' & Hk)]; [try lia |]).
    + destruct (H2 i k t u') as [? _]; [done.. |]. split; [done |]. right. right. cbn.
      destruct (tok_ok_before js q u') as (? & ? & _); [eauto |]. split; [eauto | lia].
    + subst k. destruct (H2 j i u t) as [? Hn']; [done.. |]. split; [done |]. cbn.
      destruct Hn' as [? | [? | [Hc _]]]; [by left | by right; left |]. congruence.
    + eauto.
Qed.

(** * One character of the tokenizer, with and without a token array

    The invariant of [jsmn_parse] and the step lemma: the pass that only
    counts and the pass that fills tokens stay in step. *)


Record jinv (js : list Z) (len num : Z) (p : jsmn_parser) (ts : list jsmntok) (count : Z) : Prop := {
  ji_pos : 0 <= pos p <= len;
  ji_next : toknext p = count;
  ji_count : 0 <= count <= pos p /\ count <= num;
  ji_room : 0 <= num <= Z.of_nat (length ts) /\ num < 2 ^ 31;
  ji_super : -1 <= toksuper p < count;
  ji_toks : tokens_ok js (pos p) count ts
}.

(** What a step may do when the counting pass moves to [q] with count [k];
    [bad] is the case in which [tokens[-1]] is read. *)
Definition fill_step (bad : Prop) (js : list Z) (len num count k q : Z) (ts : list jsmntok) (R : outcome jres) : Prop :=
  (R = Undef "tokens[-1]" /\ bad) \/ R = Done (JError JSMN_ERROR_INVAL) \/
  (R = Done (JError JSMN_ERROR_NOMEM) /\ num <= count < k) \/
  (exists p ts', R = Done (JNext p (Some ts') k) /\ pos p = q /\ length ts' = length ts /\
     jinv js len num (set_pos (q + 1) p) ts' k).

Lemma fill_step_weaken (P bad : Prop) js len num count k q ts R :
  P -> fill_step bad js len num count k q ts R -> fill_step (P /\ bad) js len num count k q ts R.
Proof. unfold fill_step. tauto. Qed.

Section Char.
  Context (js : list Z) (len num : Z).
  Hypothesis Hlen : 0 <= len <= Z.of_nat (length js).
  Hypothesis Hmax : len < 2 ^ 31.

Lemma bump_super_ok p ts n :
  -1 <= toksuper p < n -> n <= Z.of_nat (length ts) ->
  exists ts', bump_super p ts = Done ts' /\ length ts' = length ts /\
    (forall q m, tokens_ok js q m ts -> tokens_ok js q m ts').
Proof.
  intros Hs Hn. unfold bump_super. destruct (Z.eqb_spec (toksuper p) (-1)); [by exists ts |].
  destruct (tok_at_ok ts (toksuper p)) as (t & Ht & ->); [lia |]. rewrite Done_bind.
  rewrite tok_put_ok by lia. eexists. split; [done |]. rewrite length_insert. split; [done |].
  intros q m. apply tokens_ok_span. apply Forall2_same_length_lookup_2; [apply length_insert |].
  intros i u u' Hu Hu'. apply list_lookup_insert_Some in Hu as [(<- & <- & _) | (_ & Hu)].
  - rewrite Ht in Hu'. by simplify_eq.
  - simplify_eq. done.
Qed.

Lemma jsmn_alloc_token_full p ts : num <= toknext p -> jsmn_alloc_token p ts num = Done (None, p, ts).
Proof. intros H. unfold jsmn_alloc_token. destruct (Z.leb_spec num (toknext p)); [done | lia]. Qed.

Lemma jsmn_alloc_token_ok p ts :
  0 <= toknext p < num -> num <= Z.of_nat (length ts) -> num < 2 ^ 31 ->
  exists t, jsmn_alloc_token p ts num =
    Done (Some (toknext p), Parser (pos p) (toknext p + 1) (toksuper p),
          <[Z.to_nat (toknext p) := Tok (t_type t) (-1) (-1) 0]> ts).
Proof.
  intros H ? ?. unfold jsmn_alloc_token. destruct (Z.leb_spec num (toknext p)); [lia |]. cbv zeta.
  destruct (tok_at_ok ts (toknext p)) as (t & Ht & ->); [lia |]. rewrite Done_bind, tok_put_ok, Done_bind by lia.
  exists t. by rewrite wrap32_small by lia.
Qed.

(** A string or primitive token is added. *)
Lemma new_token_ok bad ty start en q p ts count :
  jinv js len num p ts count -> pos p < len ->
  pos p <= start -> start <= en <= q + 1 -> pos p <= q < len ->
  is_container (Tok ty start en 0) = false -> tok_ok js (q + 1) (Tok ty start en 0) ->
  fill_step bad js len num count (count + 1) q ts
    (r ← new_token ty start en p ts num;
     value_done (match r with
                 | None => (JSMN_ERROR_NOMEM, set_pos (pos p) p, Some ts)
                 | Some (p, ts) => (0, set_pos q p, Some ts)
                 end) count).
Proof.
  intros [Hp Hn [Hc Hcn] [Hr1 Hr2] Hs Ht] Hlt Hst Hen Hq Hty Hok. unfold new_token.
  destruct (decide (num <= count)).
  { rewrite jsmn_alloc_token_full, !Done_bind by lia. right. right. left. split; [done | lia]. }
  destruct (jsmn_alloc_token_ok p ts) as [t ->]; [lia.. |]. rewrite !Done_bind.
  rewrite tok_put_ok, !Done_bind by (rewrite length_insert; lia).
  rewrite list_insert_insert_eq. unfold jsmn_fill_token. rewrite !s32_small by lia. unfold value_done, set_pos.
  change (0 <? 0) with false. cbv iota. cbn [toknext toksuper pos].
  edestruct (bump_super_ok (Parser q (toknext p + 1) (toksuper p))) as (ts' & -> & Hl & Hts');
    [| | rewrite Done_bind]; [cbn; exact Hs | rewrite length_insert; lia |].
  right. right. right. eexists _, ts'. split; [done |]. split; [done |].
  rewrite Hl, length_insert. split; [done |]. subst count.
  split; cbn [set_pos pos toknext toksuper]; rewrite ?Hl, ?length_insert; try lia.
  apply Hts', (tokens_ok_push js (pos p)); cbn [t_start]; done || lia.
Qed.

Lemma open_bracket_ok bad c p ts count :
  jinv js len num p ts count -> pos p < len -> c = 123 \/ c = 91 -> byte_is js (pos p) c ->
  fill_step bad js len num count (count + 1) (pos p) ts (open_bracket c p (Some ts) num count).
Proof.
  intros [Hp Hn [Hc Hcn] [Hr1 Hr2] Hs Ht] Hlt Hcc Hb. unfold open_bracket. cbv zeta.
  destruct (decide (num <= count)).
  { rewrite jsmn_alloc_token_full, !Done_bind by lia. right. right. left. split; [done | lia]. }
  destruct (jsmn_alloc_token_ok p ts) as [t ->]; [lia.. |]. rewrite !Done_bind.
  set (ts1 := <[_ := _]> ts).
  assert (Z.to_nat (toknext p) < length ts)%nat as Hin by lia.
  assert (ts1 !! Z.to_nat (toknext p) = Some (Tok (t_type t) (-1) (-1) 0)) as Hnew
    by (by apply list_lookup_insert_eq).
  assert (tokens_ok js (pos p) count ts1) as Ht1.
  { destruct Ht as [H1 H2]. split; [intros i u Hi ? | intros i j u u' Hi Hj ? ?];
      apply list_lookup_insert_Some in Hi as [(? & _) | (_ & Hi)]; try lia; [eauto |].
    apply list_lookup_insert_Some in Hj as [(? & _) | (_ & Hj)]; [lia |]. eauto. }
  unfold bump_super. cbn [toksuper toknext pos].
  assert (exists ts2, (if toksuper p =? -1 then Done ts1
          else t0 ← tok_at ts1 (toksuper p);
               tok_put ts1 (toksuper p) (Tok (t_type t0) (t_start t0) (t_end t0) (t_size t0 + 1))) = Done ts2 /\
          length ts2 = length ts /\ tokens_ok js (pos p) count ts2 /\
          ts2 !! Z.to_nat (toknext p) = Some (Tok (t_type t) (-1) (-1) 0)) as (ts2 & -> & Hl2 & Ht2 & Hnew2).
  { edestruct (bump_super_ok (Parser (pos p) (toknext p + 1) (toksuper p)) ts1 count) as (ts2 & E & Hl & Hts);
      [done | unfold ts1; rewrite length_insert; lia |].
    exists ts2. split; [done |]. split; [by rewrite Hl; apply length_insert |]. split; [by apply Hts |].
    unfold bump_super in E. cbn [toksuper] in E. destruct (Z.eqb_spec (toksuper p) (-1)); [congruence |].
    outcome_inv. apply tok_at_inv in H as [? ?]. rewrite tok_put_ok in H0.
    2: { split; [lia |]. unfold ts1. rewrite length_insert. lia. }
    outcome_inv. by rewrite list_lookup_insert_ne by lia. }
  rewrite Done_bind. destruct (tok_at_ok ts2 (toknext p)) as (t2 & Ht2' & ->); [lia |].
  rewrite Hnew2 in Ht2'. injection Ht2' as <-. rewrite Done_bind, tok_put_ok, Done_bind by lia.
  right. right. right. eexists _, _. split; [done |]. split; [done |].
  rewrite length_insert. split; [done |]. unfold set_super, set_pos. cbn [pos toknext toksuper t_end t_size].
  rewrite !s32_small by lia. split; cbn [pos toknext toksuper]; rewrite ?length_insert; try lia.
  subst count. apply (tokens_ok_push js (pos p)); cbn [t_start]; [done | lia | lia | lia |].
  unfold tok_ok. destruct Hcc as [-> | ->]; cbn; (split; [lia |]); (split; [done | by left]).
Qed.

Lemma close_bracket_ok bad c p ts count :
  jinv js len num p ts count -> pos p < len -> c = 125 \/ c = 93 -> byte_is js (pos p) c ->
  fill_step bad js len num count count (pos p) ts (close_bracket c p (Some ts) count).
Proof.
  intros [Hp Hn [Hc Hcn] [Hr1 Hr2] Hs Ht] Hlt Hcc Hb. unfold close_bracket. cbv zeta.
  destruct (find_back_ok is_open (Z.to_nat (toknext p)) ts) as (r & -> & Hr); [lia |]. rewrite Done_bind.
  destruct r as [i |]; [| by right; left]. destruct Hr as (Hi & (t & Hit & Hop) & Hlast).
  destruct (tok_at_ok ts (Z.of_nat i)) as (t' & Ht' & ->); [lia |]. rewrite Nat2Z.id in Ht'. simplify_eq.
  rewrite Done_bind. destruct (bool_decide _) eqn:Hty; [| by right; left]. apply bool_decide_eq_true in Hty.
  cbn [negb]. rewrite tok_put_ok, Done_bind, Nat2Z.id by lia. rewrite s32_small by lia.
  edestruct (find_back_ok is_open (S i)) as (r & -> & Hr); [rewrite length_insert; lia |]. rewrite Done_bind.
  right. right. right. eexists _, _. split; [done |]. split; [done |].
  rewrite length_insert. split; [done |]. unfold set_super, set_pos. cbn [pos toknext toksuper].
  split; cbn [pos toknext toksuper]; rewrite ?length_insert; try lia.
  - destruct r as [j |]; [| lia]. destruct Hr as (? & _). lia.
  - apply tokens_ok_close; try done; [lia.. | |].
    + intros j u ? ? Hu. apply (Hlast j); [lia | done].
    + rewrite Hty. destruct Hcc as [-> | ->]; done.
Qed.

Lemma comma_ok p ts count :
  jinv js len num p ts count -> pos p < len ->
  fill_step (toksuper p = -1) js len num count count (pos p) ts (comma p (Some ts) count).
Proof.
  intros [Hp Hn [Hc Hcn] [Hr1 Hr2] Hs Ht] Hlt. unfold comma.
  destruct (decide (toksuper p = -1)) as [E |]; [left; by rewrite E |].
  destruct (tok_at_ok ts (toksuper p)) as (t & Ht' & ->); [lia |]. rewrite Done_bind.
  assert (tokens_ok js (pos p + 1) count ts) by (apply (tokens_ok_mono js (pos p)); [lia | done]).
  destruct (is_container t).
  { right. right. right. eexists _, _. split; [done |]. split; [done |]. split; [done |].
    split; cbn; lia || done. }
  edestruct (find_back_ok (fun t => is_container t && is_open t) (Z.to_nat (toknext p)) ts) as (r & -> & Hr); [lia |].
  rewrite Done_bind. right. right. right. eexists _, _. split; [done |].
  destruct r as [i |]; (split; [done |]); (split; [done |]); split; cbn; try lia; try done.
Qed.
Lemma value_done_count e q p count :
  0 <= e -> value_done (e, set_pos q p, None) count = Done (JNext (set_pos q p) None (count + 1)).
Proof. intros H. unfold value_done. destruct (Z.ltb_spec e 0); [lia | done]. Qed.

Lemma new_token_set_pos ty start en q p ts :
  new_token ty start en (set_pos q p) ts num =
  (r ← new_token ty start en p ts num; Done (match r with Some (p, ts) => Some (set_pos q p, ts) | None => None end)).
Proof.
  unfold new_token, jsmn_alloc_token. cbn [set_pos toknext]. destruct (_ <=? _); [done |]. cbv zeta.
  destruct (tok_at ts (toknext p)) as [t | |]; [cbn | done..].
  destruct (tok_put ts _ _) as [ts1 | |]; [cbn | done..]. by destruct (tok_put ts1 _ _).
Qed.

(** What both passes do on one character. *)
Definition steps_agree (bad : Prop) (count : Z) (p pn : jsmn_parser) (ts : list jsmntok) (Rn R : outcome jres) : Prop :=
  (exists pn' k, Rn = Done (JNext pn' None k) /\ pos p <= pos pn' < len /\ toknext pn' = toknext pn /\
     count <= k <= count + 1 /\ fill_step bad js len num count k (pos pn') ts R) \/
  (exists e, (e = JSMN_ERROR_INVAL \/ e = JSMN_ERROR_PART) /\ Rn = Done (JError e) /\ R = Done (JError e)).

Section Agree.
  Context (fuel : nat) (p pn : jsmn_parser) (ts : list jsmntok) (count num' : Z).
  Hypothesis Hinv : jinv js len num p ts count.
  Hypothesis Hlt : pos p < len.
  Hypothesis Hpn : pos pn = pos p.
  Hypothesis Hfuel : len - pos p < Z.of_nat fuel.

Lemma primitive_agree bad b :
  js !! Z.to_nat (pos p) = Some b -> schar b <> 0 -> ends_primitive (schar b) = false ->
  steps_agree bad count p pn ts
    (r ← jsmn_parse_primitive fuel pn js len None num'; value_done r count)
    (r ← jsmn_parse_primitive fuel p js len (Some ts) num; value_done r count).
Proof.
  intros Hb Hne He. pose proof (ji_pos _ _ _ _ _ _ Hinv). unfold jsmn_parse_primitive. cbv zeta. rewrite Hpn.
  destruct (prim_scan_ok js len Hlen Hmax fuel (pos p)) as (r & -> & Hr); [lia.. |]. rewrite !Done_bind.
  destruct r as [e |]; [| right; exists JSMN_ERROR_INVAL; auto]. destruct Hr as [Hr Hstart].
  assert (e <> pos p).
  { intros Heq. specialize (Hstart Heq (schar b)). rewrite Hstart in He; [done |].
    destruct (js_more_ok js len Hlen (pos p)) as [E | (_ & b' & Hb' & _ & E)]; [lia | | congruence].
    unfold js_more, js_at in E. rewrite Hb in E. cbn in E.
    destruct (Z.ltb_spec (pos p) len); [| lia]. by destruct (Z.eqb_spec (schar b) 0). }
  rewrite !(wrap32_small (e - 1)) by lia. left. eexists _, _. split; [by apply value_done_count |].
  cbn [set_pos pos toknext]. split; [lia |]. split; [done |]. split; [lia |].
  assert (tok_ok js (e - 1 + 1) (Tok JSMN_PRIMITIVE (pos p) e 0)) as Hok by (unfold tok_ok; cbn; lia).
  pose proof (new_token_ok bad JSMN_PRIMITIVE (pos p) e (e - 1) p ts count Hinv Hlt
    ltac:(lia) ltac:(lia) ltac:(lia) eq_refl Hok) as Hf.
  destruct (new_token _ _ _ _ _ _) as [[[p1 ts1] |] | |]; exact Hf.
Qed.

Lemma string_agree bad b :
  js !! Z.to_nat (pos p) = Some b -> schar b = 34 ->
  steps_agree bad count p pn ts
    (r ← jsmn_parse_string fuel pn js len None num'; value_done r count)
    (r ← jsmn_parse_string fuel p js len (Some ts) num; value_done r count).
Proof.
  intros Hb H34. pose proof (ji_pos _ _ _ _ _ _ Hinv). unfold jsmn_parse_string. cbv zeta. rewrite Hpn.
  rewrite wrap32_small by lia.
  destruct (str_scan_ok js len Hlen Hmax fuel (pos p + 1)) as (r & -> & Hr); [lia.. |]. rewrite !Done_bind.
  destruct r as [e | |]; [| right; exists JSMN_ERROR_INVAL; auto | right; exists JSMN_ERROR_PART; auto].
  destruct Hr as (Hr & b' & Hb' & H34').
  left. eexists _, _. split; [by apply value_done_count |].
  cbn [set_pos pos toknext]. split; [lia |]. split; [done |]. split; [lia |].
  assert (tok_ok js (e + 1) (Tok JSMN_STRING (pos p + 1) e 0)) as Hok.
  { unfold tok_ok; cbn. replace (pos p + 1 - 1) with (pos p) by lia. unfold byte_is. eauto 8 with lia. }
  pose proof (new_token_ok bad JSMN_STRING (pos p + 1) e e p ts count Hinv Hlt
    ltac:(lia) ltac:(lia) ltac:(lia) eq_refl Hok) as Hf.
  rewrite new_token_set_pos. destruct (new_token _ _ _ p _ _) as [[[p1 ts1] |] | |]; exact Hf.
Qed.

Lemma jsmn_char_agree b :
  js !! Z.to_nat (pos p) = Some b -> schar b <> 0 ->
  steps_agree (schar b = 44 /\ toksuper p = -1) count p pn ts
    (jsmn_char fuel (schar b) pn js len None num' count) (jsmn_char fuel (schar b) p js len (Some ts) num count).
Proof.
  intros Hb Hne. unfold jsmn_char. pose proof Hinv as [Hp Hn [Hc Hcn] [Hr1 Hr2] Hs Ht].
  assert (byte_is js (pos p) (schar b)) as Hbi by (exists b; done).
  assert (forall bad k R, count <= k <= count + 1 -> fill_step bad js len num count k (pos p) ts R ->
    steps_agree bad count p pn ts (Done (JNext pn None k)) R) as Hstep.
  { intros bad k R ? ?. left. exists pn, k. rewrite Hpn. split; [done |]. split; [lia | done]. }
  assert (forall bad su, -1 <= su < count ->
    fill_step bad js len num count count (pos p) ts (Done (JNext (Parser (pos p) (toknext p) su) (Some ts) count))) as Hsame.
  { intros bad su Hsu. right. right. right. eexists _, ts. split; [done |]. split; [done |]. split; [done |].
    split; cbn; try lia. by apply (tokens_ok_mono js (pos p)); [lia |]. }
  destruct (_ || _) eqn:E1.
  { apply orb_true_iff in E1. rewrite !Z.eqb_eq in E1. apply (Hstep _ (count + 1)); [lia |]. by apply open_bracket_ok. }
  destruct (_ || _) eqn:E2 in |- *.
  { apply orb_true_iff in E2. rewrite !Z.eqb_eq in E2. apply (Hstep _ count); [lia |]. by apply close_bracket_ok. }
  destruct (Z.eqb_spec (schar b) 34); [by apply (string_agree _ b) |].
  destruct (_ || _) eqn:E3 in |- *.
  { apply Hstep; [lia |]. destruct p. apply (Hsame _ toksuper). done. }
  destruct (Z.eqb_spec (schar b) 58).
  { left. eexists _, count. split; [done |]. cbn [set_super pos toknext]. rewrite Hpn. split; [lia |].
    split; [done |]. split; [lia |]. unfold set_super. rewrite s32_small by lia. apply Hsame. lia. }
  destruct (Z.eqb_spec (schar b) 44); [apply Hstep; [lia |]; by apply fill_step_weaken, comma_ok |].
  apply (primitive_agree _ b); [done.. |]. unfold ends_primitive.
  apply orb_false_iff in E2 as [-> ->]. repeat (apply orb_false_iff in E3 as [E3 ->]). rewrite E3.
  destruct (Z.eqb_spec (schar b) 58); [done |]. destruct (Z.eqb_spec (schar b) 44); done.
Qed.
End Agree.

(** The count is only added to. *)
Lemma jsmn_char_shift fuel c pn num' count :
  jsmn_char fuel c pn js len None num' count =
  (r ← jsmn_char fuel c pn js len None num' 0;
   Done (match r with JNext p t k => JNext p t (count + k) | JError e => JError e end)).
Proof.
  unfold jsmn_char, open_bracket, close_bracket, comma, jsmn_parse_string, jsmn_parse_primitive, value_done. cbv zeta.
  assert (forall k, count + 0 + k = count + k) as E0 by lia.
  repeat match goal with
  | |- context [if ?b then _ else _] => destruct b
  | |- context [(str_scan ?a ?b ?c ?d) ≫= _] => destruct (str_scan a b c d) as [[] | |]
  | |- context [(prim_scan ?a ?b ?c ?d) ≫= _] => destruct (prim_scan a b c d) as [[] | |]
  end; cbn; try done; by rewrite ?Z.add_0_r.
Qed.
End Char.

Lemma count_char_ok js len fuel b pn num' count :
  0 <= len <= Z.of_nat (length js) -> len < 2 ^ 31 -> 0 <= pos pn < len -> len - pos pn < Z.of_nat fuel ->
  js !! Z.to_nat (pos pn) = Some b -> schar b <> 0 ->
  exists r, jsmn_char fuel (schar b) pn js len None num' count = Done r /\
    match r with
    | JError e => e = JSMN_ERROR_INVAL \/ e = JSMN_ERROR_PART
    | JNext p' t k => t = None /\ pos pn <= pos p' < len /\ toknext p' = toknext pn /\ count <= k <= count + 1
    end.
Proof.
  intros Hlen Hmax Hp Hf Hb Hne. rewrite jsmn_char_shift.
  assert (jinv js len 0 (Parser (pos pn) 0 (-1)) [] 0) as Hinv.
  { split; cbn; try lia. split; intros; by rewrite ?lookup_nil in *. }
  destruct (jsmn_char_agree js len 0 Hlen Hmax fuel (Parser (pos pn) 0 (-1)) pn [] 0 num' Hinv
    ltac:(cbn; lia) eq_refl Hf b Hb Hne) as [(pn' & k & -> & ? & ? & ? & _) | (e & ? & -> & _)]; 
    rewrite Done_bind; eexists; (split; [done |]); [| done].
  split; [done |]. split; [done |]. split; [done | lia].
Qed.
