(* ===== verification/JsmnThms.v ===== *)
(** * Theorems on the JSON tokenizer *)

From S2P Require Import Prelude Mem Jsmn JsmnProps.

(** How the value of the filling pass relates to that of the counting pass. *)
Definition fill_result (num : Z) (v w : Z + Z) : Prop :=
  w = v \/ w = inl JSMN_ERROR_INVAL \/
  (w = inl JSMN_ERROR_NOMEM /\ forall n, v = inr n -> num < n).

(** The states of the parser at the beginning of a round of the main loop, in
    the pass that fills tokens. *)
Inductive jsmn_at (js : list Z) (len num : Z) (ts0 : list jsmntok) : jsmn_parser -> list jsmntok -> Z -> Prop :=
  | jsmn_at_start : jsmn_at js len num ts0 jsmn_init ts0 0
  | jsmn_at_next fuel p ts k c p' ts' k' : jsmn_at js len num ts0 p ts k -> js_more js len (pos p) = Done (Some c) ->
      jsmn_char fuel c p js len (Some ts) num k = Done (JNext p' (Some ts') k') ->
      jsmn_at js len num ts0 (set_pos (wrap32 (pos p' + 1)) p') ts' k'.

(** The parser reads a comma while no object or array is open around it
    ([toksuper] is -1). *)
Definition stray_comma (js : list Z) (len num : Z) (ts0 : list jsmntok) : Prop :=
  exists p ts k, jsmn_at js len num ts0 p ts k /\ js_more js len (pos p) = Done (Some 44) /\ toksuper p = -1.

Section Loop.
  Context (js : list Z) (len num num' : Z) (ts0 : list jsmntok).
  Hypothesis Hlen : 0 <= len <= Z.of_nat (length js).
  Hypothesis Hmax : len < 2 ^ 31.

(** The counting pass ends, wherever it starts. *)
Lemma count_loop_ok fuel pn count :
  0 <= pos pn <= len -> len - pos pn < Z.of_nat fuel -> 0 <= count <= pos pn ->
  exists pn' v, jsmn_loop fuel pn js len None num' count = Done (pn', None, v) /\ toknext pn' = toknext pn /\
    match v with inr n => count <= n <= len | inl e => e = JSMN_ERROR_INVAL \/ e = JSMN_ERROR_PART end.
Proof.
  revert pn count. induction fuel as [| fuel IH]; intros pn count Hp Hf Hc; [lia |]. cbn [jsmn_loop].
  destruct (js_more_ok js len Hlen (pos pn)) as [E | (Hlt & b & Hb & Hne & E)]; [lia | |]; rewrite E, Done_bind.
  { exists pn, (inr count). split; [done |]. split; [done | lia]. }
  destruct (count_char_ok js len (S fuel) b pn num' count) as (r & -> & Hr); [done || lia.. |].
  rewrite Done_bind. destruct r as [p' t k | e]; [| by exists pn, (inl e)].
  destruct Hr as (-> & Hp' & Hn' & Hk). rewrite wrap32_small by lia.
  destruct (IH (set_pos (pos p' + 1) p') k) as (pn' & v & -> & Hn & Hv); cbn [set_pos pos]; [lia.. |].
  exists pn', v. split; [done |]. split; [by rewrite Hn |]. destruct v; [done | lia].
Qed.

Lemma loops_agree fuel p pn ts count :
  jsmn_at js len num ts0 p ts count ->
  jinv js len num p ts count -> pos pn = pos p -> len - pos p < Z.of_nat fuel ->
  exists pn' v, jsmn_loop fuel pn js len None num' count = Done (pn', None, v) /\ toknext pn' = toknext pn /\
    match v with inr n => count <= n <= len | inl e => e = JSMN_ERROR_INVAL \/ e = JSMN_ERROR_PART end /\
    ((jsmn_loop fuel p js len (Some ts) num count = Undef "tokens[-1]" /\ stray_comma js len num ts0) \/
     exists p' ts' w, jsmn_loop fuel p js len (Some ts) num count = Done (p', Some ts', w) /\
       fill_result num v w /\ length ts' = length ts /\ exists k, jinv js len num p' ts' k /\ forall n, w = inr n -> k = n).
Proof.
  revert p pn ts count. induction fuel as [| fuel IH]; intros p pn ts count Hat Hinv Hpn Hf.
  { pose proof (ji_pos _ _ _ _ _ _ Hinv). lia. }
  destruct (count_loop_ok (S fuel) pn count) as (pn1 & v & Hl & Hn & Hv);
    [destruct Hinv; lia.. |]. exists pn1, v. split; [done |]. split; [done |]. split; [done |].
  revert Hl. cbn [jsmn_loop]. rewrite Hpn.
  pose proof Hinv as [Hp Hnx [Hc Hcn] [Hr1 Hr2] Hs Ht].
  destruct (js_more_ok js len Hlen (pos p)) as [E | (Hlt & b & Hb & Hne & E)]; [lia | |]; rewrite E, !Done_bind.
  { intros [= <- <-]. right. exists p, ts, (inr count). split; [done |]. split; [by left |]. split; [done |].
    exists count. split; [done | congruence]. }
  destruct (jsmn_char_agree js len num Hlen Hmax (S fuel) p pn ts count num' Hinv Hlt Hpn Hf b Hb Hne)
    as [(pn' & k & -> & Hq & _ & Hk & Hstep) | (e & He & -> & ->)]; rewrite Done_bind.
  2: { intros [= <- <-]. rewrite Done_bind. right. exists p, ts, (inl e). split; [done |]. split; [by left |].
       split; [done |]. exists count. done. }
  rewrite wrap32_small by lia. intros Hl.
  destruct Hstep as [(-> & H44 & Hsup) | [-> | [[-> Hnm] | (p' & ts' & Ep & Hp' & Hl' & Hinv')]]].
  { left. split; [done |]. exists p, ts, count. rewrite H44 in E. done. }
  all: rewrite ?Ep, Done_bind.
  - right. exists p, ts, (inl JSMN_ERROR_INVAL). split; [done |]. split; [by right; left |]. split; [done |].
    by exists count.
  - right. exists p, ts, (inl JSMN_ERROR_NOMEM). split; [done |]. split; [| by split; [| by exists count]].
    right. right. split; [done |]. intros n ->.
    destruct (count_loop_ok fuel (set_pos (pos pn' + 1) pn') k) as (? & v' & Hl' & _ & Hv');
      cbn [set_pos pos]; [lia.. |]. rewrite Hl' in Hl. simplify_eq. lia.
  - rewrite wrap32_small, Hp' by lia.
    destruct (IH (set_pos (pos pn' + 1) p') (set_pos (pos pn' + 1) pn') ts' k) as (pn2 & v' & Hl2 & _ & _ & Hres);
      [| done | done | cbn; lia |].
    { rewrite <- Hp', <- (wrap32_small (pos p' + 1)) by lia. by eapply jsmn_at_next. }
    rewrite Hl2 in Hl. simplify_eq. destruct Hres as [[-> ?] | (p2 & ts2 & w & -> & Hw & Hl3 & Hk2)]; [by left | right].
    exists p2, ts2, w. split; [done |]. split; [done |]. split; [congruence | done].
Qed.
End Loop.

Lemma jsmn_init_inv js len num ts :
  0 <= len -> 0 <= num <= Z.of_nat (length ts) -> num < 2 ^ 31 -> jinv js len num jsmn_init ts 0.
Proof. intros. split; cbn; try lia. split; intros; lia. Qed.

(** ** The claims *)

Section Parse.
  Context (js : list Z) (len num : Z) (ts : list jsmntok).
  Hypothesis Hlen : 0 <= len <= Z.of_nat (length js).
  Hypothesis Hmax : len < 2 ^ 31.
  Hypothesis Hnum : 0 <= num <= Z.of_nat (length ts).
  Hypothesis Hnum' : num < 2 ^ 31.

(** Both passes of a caller that first counts: their values, and what the
    filled array holds. *)
Lemma jsmn_passes :
  exists n pn, jsmn_parse jsmn_init js len None 0 = Done (n, pn, None) /\
    (0 <= n <= len \/ n = JSMN_ERROR_INVAL \/ n = JSMN_ERROR_PART) /\
    ((jsmn_parse jsmn_init js len (Some ts) num = Undef "tokens[-1]" /\ stray_comma js len num ts) \/
     exists r p ts', jsmn_parse jsmn_init js len (Some ts) num = Done (r, p, Some ts') /\
       length ts' = length ts /\
       (r = n \/ r = JSMN_ERROR_INVAL \/ r = JSMN_ERROR_PART \/
        (r = JSMN_ERROR_NOMEM /\ (0 <= n -> num < n))) /\
       (0 <= r -> toknext p = r /\ tokens_ok js len r ts' /\
          forall i t, ts' !! i = Some t -> Z.of_nat i < r -> is_open t = false)).
Proof.
  destruct (loops_agree js len num 0 ts Hlen Hmax (S (S (Z.to_nat len))) jsmn_init jsmn_init ts 0)
    as (pn & v & Hn & Hnx & Hv & Hf); [constructor | by apply jsmn_init_inv; lia | done | cbn; lia |].
  unfold jsmn_parse. rewrite Hn, Done_bind. destruct v as [e | n].
  - exists e, pn. split; [done |]. split; [tauto |].
    destruct Hf as [[-> ?] | (p & ts' & w & -> & Hw & Hl & k & Hi & Hk)]; [by left | right].
    rewrite Done_bind. destruct Hw as [-> | [-> | [-> _]]]; eexists _, p, ts'; (split; [done |]); (split; [done |]).
    + split; [by left |]. intros. destruct Hv; subst; done.
    + split; [tauto | done].
    + split; [| done]. right. right. right. split; [done |]. intros. destruct Hv; subst; done.
  - rewrite Hnx. change (Z.to_nat (toknext jsmn_init)) with 0%nat. cbn [find_back]. rewrite Done_bind.
    exists n, pn. split; [done |]. split; [left; lia |].
    destruct Hf as [[-> ?] | (p & ts' & w & -> & Hw & Hl & k & Hi & Hk)]; [by left | right].
    rewrite Done_bind. destruct Hw as [-> | [-> | [-> Hnm]]].
    2: { eexists _, p, ts'. split; [done |]. split; [done |]. split; [tauto | done]. }
    2: { eexists _, p, ts'. split; [done |]. split; [done |]. split; [| done].
         right. right. right. split; [done |]. intros _. by apply Hnm. }
    assert (k = n) as -> by (by apply Hk). pose proof Hi as [Hp Hnx' [Hc Hcn] [Hr1 Hr2] Hs Ht].
    destruct (find_back_ok is_open (Z.to_nat (toknext p)) ts') as (r & E & Hr); [lia |].
    cbn [default id]. rewrite E, Done_bind. destruct r as [i |]; eexists _, p, ts'; (split; [done |]); (split; [done |]).
    + split; [tauto | done].
    + split; [by left |]. intros _. split; [lia |]. split; [by apply (tokens_ok_mono js (pos p)); [lia |] |].
      intros i t Hit ?. apply (Hr i); [lia | done].
Qed.


(** C17. The tokens of an accepted text are well formed: [r] of them are
    filled; a string token lies between two quotes, an object or array token
    starts and ends at its own brackets, a primitive is not empty; the starts
    increase, and of two tokens one encloses the other or ends before it. *)
Theorem jsmn_tokens_typed r p ts' :
  jsmn_parse jsmn_init js len (Some ts) num = Done (r, p, Some ts') -> 0 <= r ->
  toknext p = r /\ r <= num /\ length ts' = length ts /\
  (forall i t, ts' !! i = Some t -> Z.of_nat i < r -> is_open t = false /\ tok_ok js len t) /\
  (forall i j t t', ts' !! i = Some t -> ts' !! j = Some t' -> (i < j)%nat -> Z.of_nat j < r ->
     t_start t < t_start t' /\ (t_end t <= t_start t' \/ t_end t' <= t_end t)).
Proof.
  intros E Hr. destruct jsmn_passes as (n & pn & _ & _ & [[E' _] | (r' & p' & ts1 & E' & Hl & Hc & Hok)]);
    rewrite E in E'; [done |]. simplify_eq. destruct (Hok Hr) as (Hn & [H1 H2] & Ho).
  split; [done |]. split.
  { unfold jsmn_parse in E. rewrite bind_Done in E. destruct E as ([[p0 t0] w] & El & E).
    destruct (loops_agree js len num 0 ts Hlen Hmax (S (S (Z.to_nat len))) jsmn_init jsmn_init ts 0)
      as (pn' & v & _ & _ & _ & [[Hf _] | (p2 & ts2 & w2 & Hf & _ & _ & k & Hi & Hk)]);
      [constructor | by apply jsmn_init_inv; lia | done | cbn; lia | congruence |].
    rewrite Hf in El. simplify_eq. destruct w as [e | c]; outcome_inv; simplify_eq; destruct Hi; lia. }
  split; [done |]. split; [intros i t Hi Hlt; eauto |].
  intros i j t t' Hi Hj Hij Hlt. destruct (H2 i j t t' Hi Hj Hij Hlt) as [Hs Hn2]. split; [done |].
  destruct Hn2 as [Hop | [? | [_ ?]]]; [| tauto..]. rewrite (Ho i t Hi) in Hop by lia. done.
Qed.
End Parse.

(** ** Witnesses *)

Definition notok : jsmntok := Tok JSMN_PRIMITIVE 0 0 0.
Definition conf_text : list Z := bytes_of "{k:[1, true],z:5}".


Lemma jsmn_tokens_typed_witness :
  exists r p ts', jsmn_parse jsmn_init conf_text 17 (Some (replicate 8 notok)) 8 = Done (r, p, Some ts') /\
    toknext p = r /\ ts' !! 2%nat = Some (Tok JSMN_ARRAY 3 12 2).
Proof.
  eexists _, _, _. split; [vm_compute; reflexivity |]. split; [| vm_compute; reflexivity].
  eapply (jsmn_tokens_typed conf_text 17 8 (replicate 8 notok));
    [vm_compute; split; discriminate | lia | vm_compute; split; discriminate | lia | vm_compute; reflexivity | lia].
Defined.

(** A comma outside every object and array makes the parser read the token
    before the array. *)
Example jsmn_comma_underflow :
  jsmn_parse jsmn_init (bytes_of ",1") 2 (Some (replicate 8 notok)) 8 = Undef "tokens[-1]".
Proof. vm_compute. reflexivity. Qed.

Example jsmn_comma_after_object :
  jsmn_parse jsmn_init (bytes_of "{},1") 4 (Some (replicate 8 notok)) 8 = Undef "tokens[-1]".
Proof. vm_compute. reflexivity. Qed.
