(* ===== verification/RumpuserMem.v ===== *)
(** * Memory for the rump kernel (lib/libbmk_rumpuser/rumpuser_mem.c)

    Small requests go to the malloc, requests of a page or more straight to
    the page allocator that the malloc itself draws on.  The two therefore
    share the pages: the malloc is verified against the page allocator seen
    with the blocks of its other client set aside. *)

From S2P Require Import Prelude Mem Cstring Pgalloc PgGeom PgallocInv PgallocProps PageIface.
From S2P Require Import PgallocRun PgallocThms Memalloc MemallocInv MemallocProps MemallocThms.

Definition BMK_ENOMEM : Z := 12.

Definition len2order (len : Z) : Z :=
  let v := 8 * 8 - clzl len in
  let v := if Z.land len (wsub len 1) =? 0 then v - 1 else v in
  v - BMK_PCPU_PAGE_SHIFT.

(** The error and [*retval]; [alignment] is an [int]. *)
Definition rumpuser_malloc (s : mstate pgstate) (len alignment : Z) : outcome (Z * Z * mstate pgstate) :=
  '(retval, s) ←
    (if len <? BMK_PCPU_PAGE_SIZE then bmk_memalloc s len (wrap64 alignment) BMK_MEMWHO_RUMPKERN
     else
       _ ← bmk_assert (Z.land alignment (alignment - 1) =? 0) "(alignment & (alignment-1)) == 0";
       let alignment := if alignment <? BMK_PCPU_PAGE_SIZE then BMK_PCPU_PAGE_SIZE else alignment in
       '(p, pages) ← bmk_pgalloc_align (m_pages s) (len2order len) alignment;
       Done (p, with_pages pages s));
  Done (if retval =? 0 then BMK_ENOMEM else 0, retval, s).

Definition rumpuser_free (s : mstate pgstate) (buf buflen : Z) : outcome (mstate pgstate) :=
  if buflen <? BMK_PCPU_PAGE_SIZE then bmk_memfree s buf BMK_MEMWHO_RUMPKERN
  else pages ← bmk_pgfree (m_pages s) buf (len2order buflen); Done (with_pages pages s).

(** ** Sharing a page allocator *)

(** A page allocator of which the blocks [ext] belong to somebody else. *)
Program Definition framed {S} (PA : PageAllocator S) (ext : list block) : PageAllocator S := {|
  page_alloc := @page_alloc S PA;
  page_free := @page_free S PA;
  page_inv s l := page_inv s (l ++ ext);
  page_managed := @page_managed S PA;
|}.
Next Obligation.
  intros S PA ext s l1 l2 Hp H. eapply page_inv_perm; [| exact H]. by rewrite Hp.
Qed.
Next Obligation. intros S PA ext s l H. apply page_inv_separated, separated_app in H as (? & _). done. Qed.
Next Obligation. intros S PA ext s l p o H Hin. eapply page_inv_block; [exact H |]. apply elem_of_app. by left. Qed.
Next Obligation. intros S PA ext s l p o a H Hin. eapply page_inv_managed; [exact H |]. apply elem_of_app. by left. Qed.
Next Obligation. intros S PA ext s l o H Ho. exact (page_alloc_ok s (l ++ ext) o H Ho). Qed.
Next Obligation. intros S PA ext s l p o H. exact (page_free_ok s (l ++ ext) p o H). Qed.

(** The rump kernel's memory: its malloc'ed objects and its blocks of pages. *)
Definition kmem_inv (s : mstate pgstate) (live : list alloc) (ext : list block) : Prop :=
  @mem_inv pgstate (framed buddy_pages ext) s live.

(** What the malloc holds of the page allocator. *)
Lemma kmem_inv_pages s live ext :
  kmem_inv s live ext -> exists l, pg_inv (m_pages s) (l ++ ext) /\
    forall pages ext', pg_inv pages (l ++ ext') ->
      minpage_addr pages = minpage_addr (m_pages s) -> maxpage_addr pages = maxpage_addr (m_pages s) ->
      kmem_inv (with_pages pages s) live ext'.
Proof.
  intros [(slabs & [Hlen Hsl Hb Hp Hr]) Hok Hh Hnl Hc].
  exists (((fun sl => (sl.1, 0)) <$> slabs) ++ large (al_blk <$> live)). split; [exact Hp |].
  intros pages ext' Hi E1 E2. split; [| done..]. exists slabs. split; [done.. | exact Hi |].
  intros a Ha. apply Hr. cbn in *. by rewrite <- E1, <- E2.
Qed.

Lemma len2order_spec len : BMK_PCPU_PAGE_SIZE <= len <= 2 ^ 63 ->
  0 <= len2order len < FREELIST_LEVELS /\ len <= bsize (len2order len) < 2 * len.
Proof.
  unfold BMK_PCPU_PAGE_SIZE, FREELIST_LEVELS, BMK_PCPU_PAGE_SHIFT. intros Hlen.
  unfold len2order, clzl, bsize, BMK_PCPU_PAGE_SHIFT.
  rewrite wsub_small by (unfold u64, W64; lia).
  pose proof (Z.log2_spec len ltac:(lia)) as [Hlo Hhi]. set (k := Z.log2 len) in *.
  assert (12 <= k) by (apply Z.log2_le_pow2; lia).
  assert (k <= 63) by (apply Z.lt_succ_r, Z.log2_lt_pow2; lia).
  pose proof (land_pred_pow2 len ltac:(lia)) as Hpow. fold k in Hpow.
  destruct (Z.eqb_spec (Z.land len (len - 1)) 0) as [E | E].
  - apply Hpow in E. replace (8 * 8 - (63 - k) - 1 - 12) with (k - 12) by lia.
    replace (k - 12 + 12) with k by lia. lia.
  - replace (8 * 8 - (63 - k) - 12) with (k + 1 - 12) by lia. replace (k + 1 - 12 + 12) with (Z.succ k) by lia.
    assert (len <> 2 ^ k) by tauto. rewrite Z.pow_succ_r in * by lia.
    assert (k <> 63) by (intros ->; lia). lia.
Qed.

(** Memory handed to the rump kernel.  A request of any size up to 2^63
    with a power-of-two alignment returns.  A small one is an object of the
    malloc; one of at least a page is a block of pages at least as large and
    less than twice as large, aligned as asked; or the result is ENOMEM with a
    null pointer and the state unchanged.  Freeing either with the length it
    was asked with gives it back.  Both kinds live side by side: objects and
    blocks are disjoint, and neither operation disturbs the other kind. *)
Theorem rumpuser_malloc_correct s live ext len k :
  kmem_inv s live ext -> 0 <= len <= 2 ^ 63 -> 0 <= k <= 30 ->
  exists err p s', rumpuser_malloc s len (2 ^ k) = Done (err, p, s') /\
    (err = BMK_ENOMEM /\ p = 0 /\ s' = s \/
     err = 0 /\ p <> 0 /\ (2 ^ k | p) /\
     if len <? BMK_PCPU_PAGE_SIZE then
       exists a, al_ptr a = p /\ al_bytes a = len /\ kmem_inv s' (a :: live) ext /\
         exists s2, rumpuser_free s' p len = Done s2 /\ kmem_inv s2 live ext
     else
       kmem_inv s' live ((p, len2order len) :: ext) /\ len <= bsize (len2order len) < 2 * len /\
       separated ((p, len2order len) :: ext) /\
       exists s2, rumpuser_free s' p len = Done s2 /\ kmem_inv s2 live ext).
Proof.
  intros Hinv Hlen Hk. unfold rumpuser_malloc, rumpuser_free.
  assert (0 < 2 ^ k <= 2 ^ 30) as Hal by (split; [apply Z.pow_pos_nonneg; lia | apply Z.pow_le_mono_r; lia]).
  destruct (Z.ltb_spec len BMK_PCPU_PAGE_SIZE) as [Hsmall | Hlarge].
  - unfold BMK_PCPU_PAGE_SIZE in Hsmall. rewrite wrap64_small by (unfold u64, W64; lia).
    assert (align_ok (2 ^ k)) as Hok by (right; exists k; split; [lia | done]).
    destruct (@memalloc_spec pgstate (framed buddy_pages ext) s live len (2 ^ k) BMK_MEMWHO_RUMPKERN Hinv Hok)
      as (rv & s' & E & H); [lia | unfold MINALIGN; lia |].
    change (bmk_memalloc s len (2 ^ k) BMK_MEMWHO_RUMPKERN = Done (rv, s')) in E. rewrite E, Done_bind.
    destruct H as [[-> ->] | (a & -> & Hne & Hb & Hw & Hdiv & Hi & _)].
    + exists BMK_ENOMEM, 0, s. split; [done |]. by left.
    + eexists _, _, _. split; [done |]. right. destruct (Z.eqb_spec (al_ptr a) 0); [done |].
      split; [done |]. split; [done |]. split.
      { etransitivity; [| exact Hdiv]. unfold MINALIGN. destruct (Z.max_spec 16 (2 ^ k)) as [[? ->] | [? ->]]; [done |].
        assert (k <= 4) by (apply (Z.pow_le_mono_r_iff 2); lia).
        exists (2 ^ (4 - k)). rewrite <- Z.pow_add_r by lia. by replace (4 - k + k) with 4 by lia. }
      exists a. split; [done |]. split; [done |]. split; [done |].
      destruct (@memfree_spec pgstate (framed buddy_pages ext) s' a live Hi) as (s2 & E2 & Hi2 & _).
      rewrite Hw in E2. exists s2. split; [exact E2 | exact Hi2].
  - destruct (kmem_inv_pages s live ext Hinv) as (l & Hpg & Hback).
    destruct (len2order_spec len ltac:(lia)) as [Ho Hs].
    assert (Z.land (2 ^ k) (2 ^ k - 1) = 0) as ->.
    { apply land_pred_pow2; [lia |]. by rewrite Z.log2_pow2 by lia. }
    rewrite bmk_assert_true, Done_bind. cbv zeta.
    set (al := if 2 ^ k <? BMK_PCPU_PAGE_SIZE then BMK_PCPU_PAGE_SIZE else 2 ^ k).
    assert (al = 2 ^ Z.max 12 k /\ (2 ^ k | al)) as [Hal2 Hdiv].
    { unfold al, BMK_PCPU_PAGE_SIZE. destruct (Z.ltb_spec (2 ^ k) 4096) as [Hl | Hl].
      - assert (k < 12) by (apply (Z.pow_lt_mono_r_iff 2); lia). rewrite Z.max_l by lia. split; [done |].
        exists (2 ^ (12 - k)). rewrite <- Z.pow_add_r by lia. by replace (12 - k + k) with 12 by lia.
      - assert (12 <= k) by (apply (Z.pow_le_mono_r_iff 2); lia). by rewrite Z.max_r by lia. }
    rewrite Hal2. destruct (pg_inv_alloc (m_pages s) (l ++ ext) (len2order len) (Z.max 12 k) Hpg Ho) as (p & pages & -> & [M1 M2] & H);
      [lia |]. rewrite !Done_bind.
    destruct H as [[-> ->] | (Hp & Hd & Hi)].
    + exists BMK_ENOMEM, 0, s. split; [by destruct s |]. by left.
    + eexists _, _, _. split; [done |]. right. destruct (Z.eqb_spec p 0); [done |].
      split; [done |]. split; [done |]. split; [etransitivity; [exact Hdiv |]; by rewrite Hal2 |].
      assert (pg_inv pages (l ++ ((p, len2order len) :: ext))) as Hi'.
      { eapply pg_inv_perm; [| exact Hi]. apply Permutation_middle. }
      split; [by apply Hback |]. split; [done |]. split.
      { apply pi_sep, separated_app in Hi' as (_ & ? & _). done. }
      destruct (pg_inv_free pages (l ++ ext) p (len2order len) Hi) as (pages2 & E2 & Hi2 & [M3 M4]).
      cbn [m_pages with_pages]. rewrite E2, Done_bind. eexists. split; [done |].
      change (with_pages pages2 (with_pages pages s)) with (with_pages pages2 s).
      apply Hback; [done | congruence | congruence].
Qed.

Lemma demo_kmem : kmem_inv demo_heap [] [].
Proof.
  destruct (@init_inv pgstate (framed buddy_pages []) boot_heap boot_pg_inv eq_refl (proj1 boot_ram)) as (s & E & Hinv & R).
  change (bmk_memalloc_init boot_heap = Done s) in E. unfold demo_heap. rewrite E. exact Hinv.
Qed.

Lemma rumpuser_malloc_correct_witness :
  exists err p s', rumpuser_malloc demo_heap 5000 (2 ^ 4) = Done (err, p, s') /\
    (err = BMK_ENOMEM /\ p = 0 /\ s' = demo_heap \/ err = 0 /\ kmem_inv s' [] [(p, 1)]).
Proof.
  destruct (rumpuser_malloc_correct demo_heap [] [] 5000 4) as (err & p & s' & E & H);
    [exact demo_kmem | lia | lia |].
  exists err, p, s'. split; [exact E |]. destruct H as [H | (H1 & _ & _ & H2 & _)]; [left; exact H | right].
  split; [exact H1 | exact H2].
Defined.

(** The concrete request succeeds. *)
Example demo_kmalloc :
  match rumpuser_malloc demo_heap 5000 (2 ^ 4) with Done (err, p, _) => (err, p) = (0, 32768) | _ => False end.
Proof. vm_compute. reflexivity. Qed.
