(* ===== verification/RumpuserBase.v ===== *)
(** * Parameters, random numbers and time for the rump kernel
      (lib/libbmk_rumpuser/rumpuser_base.c and rumpuser_clock.c)

    The string constants of the code are objects in memory; their addresses
    are given.  The values of RUMPUSER_PARAM_NCPU and RUMPUSER_PARAM_HOSTNAME
    come from a header that is not part of these sources. *)

From S2P Require Import Prelude Mem Cstring Strtoul Printf PrintfProps.
From S2P Require Import Sched SchedIface.
From S2P Require Import StringThms.

Definition BMK_ENOENT : Z := 2.
Definition BMK_EINVAL : Z := 22.
Definition RUMPHYPER_MYVERSION : Z := 17.
Definition MEMSIZE_WARNLIMIT : Z := 8 * 1024 * 1024.
Definition MEMSIZE_HILIMIT : Z := W64 - 1.

(** ** Starting and stopping *)

(** [hyp] is the table of upcalls, [platform_init] the platform's part. *)
Definition rumpuser_init {H} (platform_init : Z) (version : Z) (hyp : H) : outcome (Z * H) :=
  if negb (version =? RUMPHYPER_MYVERSION) then Halt "rump kernel hypercall revision mismatch"
  else Done (platform_init, hyp).

(** [RUMPUSER_PANIC] is a value of the same header. *)
Definition rumpuser_exit (RUMPUSER_PANIC value : Z) : outcome () :=
  Halt (if value =? RUMPUSER_PANIC then "rumpuser panic" else "").

(** ** Parameters *)

(** The addresses of the string constants. *)
Record constants := Constants {
  RUMP_VERBOSE : Z;
  RUMPUSER_PARAM_NCPU : Z;
  RUMPUSER_PARAM_HOSTNAME : Z;
  RUMP_MEMLIMIT : Z;
  c_one : Z;
  c_rumprun : Z;
  c_lowmem : Z;
  c_suggest : Z
}.

(** The digits of [memsize], the last one first; [tmp] holds 64 of them. *)
Fixpoint memlimit_digits (fuel : nat) (memsize i : Z) (tmp : list Z) : outcome (list Z) :=
  if memsize =? 0 then Done tmp
  else
    match fuel with
    | O => Undef "memlimit: out of fuel"
    | S fuel =>
        _ ← bmk_assert (i <? 64 - 1) "i < sizeof(tmp)-1";
        memlimit_digits fuel (memsize / 10) (i + 1) (tmp ++ [memsize mod 10 + 48])
    end.

(** [for (j = i; i > 0; i--) res[j-i] = tmp[i-1]], from the last digit on. *)
Fixpoint memlimit_copy (i : nat) (j : Z) (tmp : list Z) (res : Z) (m : mem) : outcome mem :=
  match i with
  | O => Done m
  | S i' =>
      d ← of_option "tmp[i-1]" (tmp !! i');
      m ← store8 m (res + (j - Z.of_nat i)) d;
      memlimit_copy i' j tmp res m
  end.

Section Getparam.
  Context (L : constants).

Definition getparam_memlimit (bmk_memsize buf buflen : Z) (s : pst) : outcome (Z * pst) :=
  _ ← bmk_assert (negb (bmk_memsize =? 0)) "bmk_memsize != 0";
  let memsize := Z.min MEMSIZE_HILIMIT (bmk_memsize / 2) in
  s ← (if memsize <? MEMSIZE_WARNLIMIT then
         s ← bmk_printf (c_lowmem L) [memsize] s; bmk_printf (c_suggest L) [] s
       else Done s);
  tmp ← memlimit_digits 64 memsize 0 [];
  let i := Z.of_nat (length tmp) in
  if buflen <=? i then Done (BMK_EINVAL, s)
  else
    m ← store8 (p_mem s) (buf + i) 0;
    m ← memlimit_copy (length tmp) i tmp buf m;
    Done (0, set_pmem m s).

Definition rumpuser_getparam (bmk_memsize name buf buflen : Z) (s : pst) : outcome (Z * pst) :=
  if buflen <=? 2 then Done (BMK_EINVAL, s)
  else
    c ← bmk_strcmp (p_mem s) name (RUMP_VERBOSE L);
    if c =? 0 then '(_, m) ← bmk_strcpy (p_mem s) buf (c_one L); Done (0, set_pmem m s)
    else
      c ← bmk_strcmp (p_mem s) name (RUMPUSER_PARAM_NCPU L);
      if c =? 0 then '(_, m) ← bmk_strcpy (p_mem s) buf (c_one L); Done (0, set_pmem m s)
      else
        c ← bmk_strcmp (p_mem s) name (RUMPUSER_PARAM_HOSTNAME L);
        if c =? 0 then '(_, m) ← bmk_strncpy (p_mem s) buf (c_rumprun L) (buflen - 1); Done (0, set_pmem m s)
        else
          c ← bmk_strcmp (p_mem s) name (RUMP_MEMLIMIT L);
          if c =? 0 then getparam_memlimit bmk_memsize buf buflen s
          else Done (BMK_ENOENT, s).
End Getparam.

(** ** Random numbers and time *)

(** One byte of the clock per byte asked for; [clock] gives the successive
    readings of the monotonic clock. *)
Fixpoint getrandom_loop (n : nat) (clock : list Z) (rndbuf : Z) (m : mem) : outcome (list Z * mem) :=
  match n with
  | O => Done (clock, m)
  | S n =>
      match clock with
      | [] => Undef "clock"
      | t :: clock => m ← store8 m rndbuf (Z.land t 255); getrandom_loop n clock (rndbuf + 1) m
      end
  end.

(** Returns the error, [*retp], the rest of the clock readings and the memory. *)
Definition rumpuser_getrandom (clock : list Z) (buf buflen : Z) (m : mem) : outcome (Z * Z * list Z * mem) :=
  '(clock, m) ← getrandom_loop (Z.to_nat buflen) clock buf m;
  Done (0, buflen, clock, m).

Inductive rumpclock := RUMPUSER_CLOCK_RELWALL | RUMPUSER_CLOCK_ABSMONO.

(** [*sec] and [*nsec]; [bmk_time_t] is a signed 64-bit number, the divisor an
    unsigned one. *)
Definition rumpuser_clock_gettime (which : rumpclock) (monotonic epochoffset : Z) : Z * Z :=
  let time := match which with
              | RUMPUSER_CLOCK_RELWALL => s64 (monotonic + epochoffset)
              | RUMPUSER_CLOCK_ABSMONO => monotonic
              end in
  (s64 (wrap64 time / 1000000000), s64 (wrap64 time mod 1000000000)).

(** Arithmetic of type [int64_t]. *)
Definition as_int64 (z : Z) : outcome Z :=
  if (- 2 ^ 63 <=? z) && (z <? 2 ^ 63) then Done z else Undef "int64_t overflow".

(** The deadline up to which [rumpuser_clock_sleep] blocks the thread. *)
Definition clock_sleep_deadline (rclk : rumpclock) (monotonic sec nsec : Z) : outcome Z :=
  let deadline := match rclk with RUMPUSER_CLOCK_RELWALL => monotonic | RUMPUSER_CLOCK_ABSMONO => 0 end in
  d ← as_int64 (sec * 1000);
  d ← as_int64 (d * 1000);
  d ← as_int64 (d * 1000);
  d ← as_int64 (d + nsec);
  as_int64 (deadline + d).

(** The rump kernel is released around the sleep; the call ends when the
    thread is switched to again. *)
Definition rumpuser_clock_sleep {S} `{!Scheduler S} (rclk : rumpclock) (sec nsec : Z) (env : list reply) (s : S) : outcome S :=
  deadline ← clock_sleep_deadline rclk (sc_clock s) sec nsec;
  s ← sc_prepare s deadline;
  sc_block env s.

(** ** Lemmas *)

Lemma getrandom_loop_spec n : forall clock p m, (n <= length clock)%nat -> mapped m p n ->
  getrandom_loop n clock p m = Done (drop n clock, mem_write m p ((fun t => Z.land t 255) <$> take n clock)).
Proof.
  induction n as [| n IH]; intros clock p m Hc Hm; [done |]. destruct clock as [| t clock]; cbn [length] in Hc; [lia |].
  cbn [getrandom_loop take drop fmap list_fmap mem_write]. apply mapped_S in Hm as [H0 Hm].
  rewrite store8_mapped, Done_bind by done. rewrite IH by (lia || by apply mapped_insert).
  do 4 f_equal. apply Z.mod_small. change 255 with (Z.ones 8). rewrite Z.land_ones by lia. apply Z.mod_pos_bound. lia.
Qed.

(** The digits come out last first and stand for the number. *)
Lemma memlimit_digits_spec k fuel n i tmp :
  0 <= n < 10 ^ Z.of_nat k -> (k <= fuel)%nat -> i = Z.of_nat (length tmp) -> (length tmp + k <= 63)%nat ->
  exists ds, memlimit_digits fuel n i tmp = Done (tmp ++ reverse ds) /\
    Forall (is_digit 10) ds /\ digits_value 10 0 ds = n /\ (length ds <= k)%nat /\ (0 < n -> ds <> []).
Proof.
  revert fuel n i tmp. induction k as [| k IH]; intros fuel n i tmp Hn Hf Hi Hl.
  { exists []. cbn in Hn. assert (n = 0) as -> by lia. destruct fuel; cbn; by rewrite app_nil_r. }
  destruct fuel as [| fuel]; [lia |].
  cbn [memlimit_digits]. destruct (Z.eqb_spec n 0) as [-> | Hne].
  { exists []. cbn. rewrite app_nil_r. repeat split; [constructor | lia | lia]. }
  destruct (Z.ltb_spec i (64 - 1)); [| lia]. rewrite bmk_assert_true, Done_bind.
  rewrite Nat2Z.inj_succ, Z.pow_succ_r in Hn by lia.
  pose proof (Z.div_mod n 10 ltac:(lia)) as Edm. pose proof (Z.mod_pos_bound n 10 ltac:(lia)) as Hmod.
  destruct (IH fuel (n / 10) (i + 1) (tmp ++ [n mod 10 + 48])) as (ds & E & Hds & Hv & Hlen & _).
  { split; [apply Z.div_pos; lia | apply Z.div_lt_upper_bound; lia]. }
  { lia. }
  { rewrite length_app. cbn. lia. }
  { rewrite length_app. cbn. lia. }
  exists (ds ++ [n mod 10 + 48]). rewrite E, reverse_app. cbn [reverse rev_append app]. rewrite <- app_assoc.
  split; [done |]. split.
  { apply Forall_app. split; [done |]. constructor; [| constructor]. exists (n mod 10). split; [by apply dec_digit_of | lia]. }
  split; [| split; [rewrite length_app; cbn; lia | intros _ H0; by destruct ds]].
  rewrite digits_value_app, Hv, (digits_value_cons 10 _ _ [] (n mod 10)) by (apply dec_digit_of; lia). cbn. lia.
Qed.

(** The digits are stored in the right order. *)
Lemma memlimit_copy_spec ds k res m :
  mapped m res (length ds) -> (k <= length ds)%nat -> Forall byte ds ->
  memlimit_copy k (Z.of_nat (length ds)) (reverse ds) res m =
  Done (mem_write m (res + Z.of_nat (length ds - k)) (drop (length ds - k) ds)).
Proof.
  revert m. induction k as [| k IH]; intros m Hm Hk Hb; cbn [memlimit_copy].
  { rewrite Nat.sub_0_r, drop_all. done. }
  destruct (lookup_lt_is_Some_2 ds (length ds - S k)) as [d Hd]; [lia |].
  rewrite reverse_lookup by lia. rewrite Hd, of_option_Some, Done_bind.
  replace (res + (Z.of_nat (length ds) - Z.of_nat (S k))) with (res + Z.of_nat (length ds - S k)) by lia.
  rewrite store8_mapped, Done_bind by (apply Hm; lia).
  rewrite IH; [| by apply mapped_insert | lia | done]. rewrite (drop_S ds d (length ds - S k)) by done.
  cbn [mem_write]. replace (S (length ds - S k)) with (length ds - k)%nat by lia. f_equal.
  replace (res + Z.of_nat (length ds - S k) + 1) with (res + Z.of_nat (length ds - k)) by lia.
  do 2 f_equal. apply Z.mod_small. by apply (Forall_lookup_1 _ _ _ _ Hb Hd).
Qed.

Lemma digit_byte c : is_digit 10 c -> byte c.
Proof. intros (i & Hi & Hlt). unfold digit_of in Hi. unfold byte. repeat case_match; simplify_eq; lia. Qed.

(** * Theorems on the parameters of the rump kernel *)


(** The constants of [rumpuser_getparam] in memory; the names of the other two
    parameters start with an underscore. *)
Definition constants_ok (L : constants) (m : mem) : Prop :=
  cstr_at m (RUMP_VERBOSE L) (bytes_of "RUMP_VERBOSE") /\
  (exists t, cstr_at m (RUMPUSER_PARAM_NCPU L) (95 :: t)) /\
  (exists t, cstr_at m (RUMPUSER_PARAM_HOSTNAME L) (95 :: t)) /\
  cstr_at m (RUMP_MEMLIMIT L) (bytes_of "RUMP_MEMLIMIT").

Lemma strcmp_same m a b s : cstr_at m a s -> cstr_at m b s -> bmk_strcmp m a b = Done 0.
Proof.
  intros Ha Hb. rewrite (strcmp_spec m a b s s Ha Hb).
  assert (common s s = length s) as -> by (clear; induction s as [| c s IH]; cbn; [done | by rewrite Z.eqb_refl, IH]).
  destruct (Nat.eqb_spec (length s) (S (length s))); [lia |]. by rewrite Z.sub_diag.
Qed.

(** The memory limit survives the trip through text: for every memory
    size from 16 MB up, [rumpuser_getparam] writes the decimal digits of half
    of it and a terminator, and [bmk_strtoul] reads that half back; a buffer
    without room for the digits is refused and left alone, like one of at most
    two bytes. *)
Theorem getparam_memlimit_roundtrip L memsize name buf buflen s :
  constants_ok L (p_mem s) -> cstr_at (p_mem s) name (bytes_of "RUMP_MEMLIMIT") ->
  2 * MEMSIZE_WARNLIMIT <= memsize < W64 -> mapped (p_mem s) buf (Z.to_nat buflen) ->
  exists n, 1 <= n <= 20 /\
    (n < buflen -> 2 < buflen -> exists s', rumpuser_getparam L memsize name buf buflen s = Done (0, s') /\
       bmk_strtoul (p_mem s') buf 10 = Done (memsize / 2, buf + n) /\
       forall a, a < buf \/ buf + buflen <= a -> p_mem s' !! a = p_mem s !! a) /\
    (buflen <= n \/ buflen <= 2 -> rumpuser_getparam L memsize name buf buflen s = Done (BMK_EINVAL, s)).
Proof.
  intros (Hv & [tn Hn] & [th Hh] & Hml) Hname Hms Hm. set (M := p_mem s) in *. unfold MEMSIZE_WARNLIMIT in Hms.
  assert (bmk_strcmp M name (RUMP_VERBOSE L) = Done (-9)) as E1 by (by rewrite (strcmp_spec _ _ _ _ _ Hname Hv)).
  assert (forall b t, cstr_at M b (95 :: t) -> bmk_strcmp M name b = Done (-13)) as E2
    by (intros b t Hb; by rewrite (strcmp_spec _ _ _ _ _ Hname Hb)).
  assert (0 <= memsize / 2 < 10 ^ Z.of_nat 20) as Hrange.
  { split; [apply Z.div_pos; lia |]. apply Z.div_lt_upper_bound; [lia |]. unfold W64 in Hms. lia. }
  destruct (memlimit_digits_spec 20 64 (memsize / 2) 0 [] Hrange) as (ds & Eds & Hds & Hval & Hlen & Hne);
    [lia | done | cbn; lia |].
  assert (8388608 <= memsize / 2) as Hlow by (apply Z.div_le_lower_bound; lia).
  specialize (Hne ltac:(lia)).
  assert (rumpuser_getparam L memsize name buf buflen s =
    if buflen <=? 2 then Done (BMK_EINVAL, s)
    else if buflen <=? Z.of_nat (length ds) then Done (BMK_EINVAL, s)
    else m ← store8 M (buf + Z.of_nat (length ds)) 0;
         m ← memlimit_copy (length ds) (Z.of_nat (length ds)) (reverse ds) buf m; Done (0, set_pmem m s)) as ->.
  { unfold rumpuser_getparam. destruct (buflen <=? 2); [done |]. fold M.
    rewrite E1, Done_bind, (E2 _ _ Hn), Done_bind, (E2 _ _ Hh), Done_bind, (strcmp_same _ _ _ _ Hname Hml), Done_bind.
    change (-9 =? 0) with false. change (-13 =? 0) with false. cbv iota. change (0 =? 0) with true. cbv iota.
    unfold getparam_memlimit. destruct (Z.eqb_spec memsize 0); [lia |]. cbn [negb]. rewrite bmk_assert_true, Done_bind. cbv zeta.
    assert (Z.min MEMSIZE_HILIMIT (memsize / 2) = memsize / 2) as ->
      by (apply Z.min_r; unfold MEMSIZE_HILIMIT; pose proof (Z.div_le_upper_bound memsize 2 memsize); lia).
    destruct (Z.ltb_spec (memsize / 2) MEMSIZE_WARNLIMIT) as [Hw | Hw]; [unfold MEMSIZE_WARNLIMIT in Hw; lia |].
    rewrite Done_bind, Eds, Done_bind. cbn [app]. by rewrite length_reverse. }
  assert (0 < length ds)%nat by (destruct ds; [done | cbn; lia]).
  exists (Z.of_nat (length ds)). split; [lia |]. split.
  2: { intros [H0 | H0]; destruct (Z.leb_spec buflen 2); try done; try lia. destruct (Z.leb_spec buflen (Z.of_nat (length ds))); [done | lia]. }
  intros H1 H2. destruct (Z.leb_spec buflen 2); [lia |]. destruct (Z.leb_spec buflen (Z.of_nat (length ds))); [lia |].
  rewrite store8_mapped, Done_bind by (apply Hm; lia).
  rewrite memlimit_copy_spec, Done_bind.
  2: { apply mapped_insert. eapply mapped_mono; [| exact Hm]. lia. }
  2: { lia. }
  2: { eapply Forall_impl; [exact Hds | apply digit_byte]. }
  rewrite Nat.sub_diag, drop_0, Z.add_0_r. eexists. split; [done |]. cbn [p_mem set_pmem].
  set (m' := mem_write _ buf ds).
  assert (bytes_at m' buf (ds ++ [0])) as Hbytes.
  { apply bytes_at_app. split; [apply bytes_at_write |]. split; [| done]. unfold m'.
    rewrite mem_write_out by lia. by rewrite lookup_insert_eq. }
  split.
  - rewrite (strtoul_spec m' buf 10 [] [] [] ds 0 []); [| by right | done | by left | | done | done | | exact Hbytes].
    + cbn [app]. change (effective_base 10 [] ds) with 10. rewrite Hval.
      destruct (Z.ltb_spec UINT_MAX (memsize / 2)) as [H' | H']; [| by rewrite bool_decide_false].
      unfold UINT_MAX in H'. pose proof (Z.div_le_upper_bound memsize 2 memsize). lia.
    + cbn. intros [H' | H']; lia.
    + change (effective_base 10 [] ds) with 10. intros (i & Hi & _). done.
  - intros a Ha. unfold m'. rewrite mem_write_out by lia. by rewrite lookup_insert_ne by lia.
Qed.

(** ** A machine with 64 MB *)

Definition demo_constants : constants := Constants 100 120 140 160 180 190 200 300.
Definition demo_base (name : string) : pst :=
  Pst (mem_write (mem_write (mem_write (mem_write (mem_write (mem_write (mem_write ∅
         100 (cstring "RUMP_VERBOSE")) 120 (cstring "_RUMPUSER_NCPU")) 140 (cstring "_RUMPUSER_HOSTNAME"))
         160 (cstring "RUMP_MEMLIMIT")) 190 (cstring "rumprun")) 400 (cstring name)) 500 (replicate 32 255))
    0 ∅ 0 Nullfun Nullfun [].

Lemma demo_base_ok : constants_ok demo_constants (p_mem (demo_base "RUMP_MEMLIMIT")).
Proof.
  split; [by apply (bool_decide_unpack _); vm_compute |].
  split; [exists (tail (bytes_of "_RUMPUSER_NCPU")); by apply (bool_decide_unpack _); vm_compute |].
  split; [exists (tail (bytes_of "_RUMPUSER_HOSTNAME")); by apply (bool_decide_unpack _); vm_compute |].
  by apply (bool_decide_unpack _); vm_compute.
Qed.

Lemma getparam_memlimit_roundtrip_witness : exists s' n,
  rumpuser_getparam demo_constants (64 * 1024 * 1024) 400 500 32 (demo_base "RUMP_MEMLIMIT") = Done (0, s') /\
  bmk_strtoul (p_mem s') 500 10 = Done (32 * 1024 * 1024, 500 + n).
Proof.
  destruct (getparam_memlimit_roundtrip demo_constants (64 * 1024 * 1024) 400 500 32 (demo_base "RUMP_MEMLIMIT"))
    as (n & Hn & H & _).
  - exact demo_base_ok.
  - by apply (bool_decide_unpack _); vm_compute.
  - vm_compute. split; [discriminate | reflexivity].
  - assert (bytes_at (p_mem (demo_base "RUMP_MEMLIMIT")) 500 (replicate 32 255)) as Hb by apply bytes_at_write.
    apply bytes_at_mapped in Hb. exact Hb.
  - destruct H as (s' & E & Hs & _); [lia | lia |]. exists s', n. split; [exact E | exact Hs].
Defined.

(** The host name is cut without a terminator when the buffer is short. *)
Example hostname_unterminated :
  match rumpuser_getparam demo_constants (64 * 1024 * 1024) 400 500 5 (demo_base "_RUMPUSER_HOSTNAME") with
  | Done (err, s) => err = 0 /\ (fun i => p_mem s !! i) <$> [500; 501; 502; 503; 504] = Some <$> bytes_of "rump" ++ [255]
  | _ => False
  end.
Proof. vm_compute. split; reflexivity. Qed.

(** [rumpuser_clock_gettime] splits the time into seconds and nanoseconds. *)
Lemma clock_gettime_split which mono off sec nsec :
  0 <= mono -> 0 <= off -> mono + off < 2 ^ 63 ->
  rumpuser_clock_gettime which mono off = (sec, nsec) ->
  0 <= nsec < 1000000000 /\
  sec * 1000000000 + nsec = match which with RUMPUSER_CLOCK_RELWALL => mono + off | RUMPUSER_CLOCK_ABSMONO => mono end.
Proof.
  intros Hm Ho Hs. unfold rumpuser_clock_gettime.
  set (t := match which with RUMPUSER_CLOCK_RELWALL => s64 (mono + off) | _ => mono end).
  assert (0 <= t < 2 ^ 63 /\ t = match which with RUMPUSER_CLOCK_RELWALL => mono + off | _ => mono end) as [Ht Et].
  { unfold t. destruct which; [rewrite s64_small by lia |]; lia. }
  rewrite <- Et. rewrite !wrap64_small by (unfold u64, W64; lia).
  pose proof (Z.div_mod t 1000000000 ltac:(lia)). pose proof (Z.mod_pos_bound t 1000000000 ltac:(lia)).
  pose proof (Z.div_pos t 1000000000 ltac:(lia) ltac:(lia)).
  rewrite !s64_small by lia. intros [= <- <-]. lia.
Qed.
