(* ===== verification/Calendar.v ===== *)
(** * Calendar time (platform/hw/clock_subr.c)

    The conversion of the broken-down time read from the clock chip to
    seconds.  The year is 64 bits wide, the other fields are bytes; the sums
    are unsigned and wrap. *)

From S2P Require Import Prelude.

Record bmk_clock_ymdhms := Ymdhms {
  dt_year : Z; dt_mon : Z; dt_day : Z; dt_hour : Z; dt_min : Z; dt_sec : Z
}.

Definition SECS_PER_DAY : Z := 86400.
Definition DAYS_PER_COMMON_YEAR : Z := 365.
Definition DAYS_PER_LEAP_YEAR : Z := 366.
Definition POSIX_BASE_YEAR : Z := 1970.
Definition FEBRUARY : Z := 2.
Definition DAYSTO2000 : Z := 365 * 30 + 7.
Definition DAYS4YEARS : Z := 365 * 4 + 1.
Definition DAYS100YEARS : Z := 365 * 100 + 24.
Definition DAYS400YEARS : Z := 365 * 400 + 97.

Definition days_in_month (m : Z) : Z :=
  if m =? 2 then 28
  else if (m =? 4) || (m =? 6) || (m =? 9) || (m =? 11) then 30
  else if (m =? 1) || (m =? 3) || (m =? 5) || (m =? 7) || (m =? 8) || (m =? 10) || (m =? 12) then 31
  else -1.

Definition is_leap_year (year : Z) : bool :=
  if negb (Z.land year 3 =? 0) then false
  else if negb (year mod 100 =? 0) then true
  else year mod 400 =? 0.

Definition days_per_year (year : Z) : Z :=
  if is_leap_year year then DAYS_PER_LEAP_YEAR else DAYS_PER_COMMON_YEAR.

(** [n] rounds of [days += f(i)], [i++]. *)
Fixpoint add_days (f : Z -> Z) (n : nat) (i days : Z) : Z :=
  match n with
  | O => days
  | S n => add_days f n (wadd i 1) (wadd days (wrap64 (f i)))
  end.

(** The days before the year, on top of [days]. *)
Definition year_days (y days : Z) : Z :=
  if y <? 2000 then add_days days_per_year (Z.to_nat (y - POSIX_BASE_YEAR)) POSIX_BASE_YEAR days
  else
    let days := wadd days DAYSTO2000 in
    let year := wsub y 2000 in
    let i := year / 400 in
    let days := wadd days (wmul i DAYS400YEARS) in
    let year := wsub year (wmul i 400) in
    let i := year / 100 in
    let days := wadd days (wmul i DAYS100YEARS) in
    let year := wsub year (wmul i 100) in
    let i := year / 4 in
    let days := wadd days (wmul i DAYS4YEARS) in
    let year := wsub year (wmul i 4) in
    add_days days_per_year (Z.to_nat year) (wsub y year) days.

Definition clock_ymdhms_to_secs (dt : bmk_clock_ymdhms) : Z :=
  let year := dt_year dt in
  if year <? POSIX_BASE_YEAR then 0
  else
    let days := if is_leap_year year && (FEBRUARY <? dt_mon dt) then 1 else 0 in
    let days := year_days year days in
    let days := add_days days_in_month (Z.to_nat (dt_mon dt - 1)) 1 days in
    let days := wadd days (wrap64 (dt_day dt - 1)) in
    wadd (wmul (wadd (wmul (wadd (wmul days 24) (dt_hour dt)) 60) (dt_min dt)) 60) (dt_sec dt).

(** [bcdtobin] of clock_subr.h. *)
Definition bcdtobin (bcd : Z) : Z := Z.land (Z.shiftr bcd 4) 15 * 10 + Z.land bcd 15.

(** ** The Gregorian calendar *)

Definition leap (y : Z) : bool := ((y mod 4 =? 0) && negb (y mod 100 =? 0)) || (y mod 400 =? 0).
Definition month_len (y m : Z) : Z :=
  match m with 2 => if leap y then 29 else 28 | 4 | 6 | 9 | 11 => 30 | _ => 31 end.

Definition valid_date (dt : bmk_clock_ymdhms) : Prop :=
  POSIX_BASE_YEAR <= dt_year dt < 2 ^ 38 /\ 1 <= dt_mon dt <= 12 /\
  1 <= dt_day dt <= month_len (dt_year dt) (dt_mon dt) /\
  0 <= dt_hour dt < 24 /\ 0 <= dt_min dt < 60 /\ 0 <= dt_sec dt < 60.

(** The time one second later. *)
Definition next_second (dt : bmk_clock_ymdhms) : bmk_clock_ymdhms :=
  let '(Ymdhms y mo d h mi s) := dt in
  if s <? 59 then Ymdhms y mo d h mi (s + 1)
  else if mi <? 59 then Ymdhms y mo d h (mi + 1) 0
  else if h <? 23 then Ymdhms y mo d (h + 1) 0 0
  else if d <? month_len y mo then Ymdhms y mo (d + 1) 0 0 0
  else if mo <? 12 then Ymdhms y (mo + 1) 1 0 0 0
  else Ymdhms (y + 1) 1 1 0 0 0.

Definition epoch : bmk_clock_ymdhms := Ymdhms 1970 1 1 0 0 0.

(** The sum of [f] over the [n] integers from [a]. *)
Fixpoint sumf (f : Z -> Z) (n : nat) (a : Z) : Z :=
  match n with O => 0 | S n => f a + sumf f n (a + 1) end.

(** Seconds since the epoch, counted year by year and month by month. *)
Definition posix_secs (dt : bmk_clock_ymdhms) : Z :=
  let days :=
    sumf (fun y => if leap y then 366 else 365) (Z.to_nat (dt_year dt - 1970)) 1970 +
    sumf (month_len (dt_year dt)) (Z.to_nat (dt_mon dt - 1)) 1 + (dt_day dt - 1) in
  ((days * 24 + dt_hour dt) * 60 + dt_min dt) * 60 + dt_sec dt.

(** The first four years of a century that does not start with a leap year,
    for which the intervals of 100 and 4 years do not add up. *)
Definition century_start (y : Z) : bool := (2000 <=? y) && (100 <=? y mod 400) && (y mod 100 <? 4).

(** ** Lemmas *)

Lemma is_leap_year_ok y : is_leap_year y = leap y.
Proof.
  unfold is_leap_year, leap. change 3 with (Z.ones 2). rewrite Z.land_ones by lia. change (2 ^ 2) with 4.
  destruct (Z.eqb_spec (y mod 4) 0); destruct (Z.eqb_spec (y mod 100) 0); destruct (Z.eqb_spec (y mod 400) 0);
    cbn; try done; exfalso; Z.to_euclidean_division_equations; lia.
Qed.

Definition year_len (y : Z) : Z := if leap y then 366 else 365.

Lemma days_per_year_ok y : days_per_year y = year_len y.
Proof. unfold days_per_year. by rewrite is_leap_year_ok. Qed.

Lemma sumf_app f n m a : sumf f (n + m) a = sumf f n a + sumf f m (a + Z.of_nat n).
Proof.
  revert a. induction n as [| n IH]; intros a; cbn [sumf Nat.add].
  - by rewrite Z.add_0_r.
  - rewrite IH. replace (a + 1 + Z.of_nat n) with (a + Z.of_nat (S n)) by lia. lia.
Qed.

Lemma sumf_S f n a : sumf f (S n) a = sumf f n a + f (a + Z.of_nat n).
Proof. rewrite <- Nat.add_1_r, sumf_app. cbn [sumf]. lia. Qed.

Lemma sumf_bounds f n a lo hi :
  (forall i, a <= i < a + Z.of_nat n -> lo <= f i <= hi) -> Z.of_nat n * lo <= sumf f n a <= Z.of_nat n * hi.
Proof.
  revert a. induction n as [| n IH]; intros a H; cbn [sumf]; [lia |].
  pose proof (H a ltac:(lia)). pose proof (IH (a + 1) ltac:(intros; apply H; lia)). lia.
Qed.

Lemma add_days_ok f n i days :
  (forall k, i <= k < i + Z.of_nat n -> 0 <= f k < 2 ^ 32) -> 0 <= i -> i + Z.of_nat n < W64 ->
  0 <= days -> days + sumf f n i < W64 -> add_days f n i days = days + sumf f n i.
Proof.
  revert i days. induction n as [| n IH]; intros i days Hf Hi Hn Hd Hs; cbn [add_days sumf] in *; [lia |].
  pose proof (Hf i ltac:(lia)).
  assert (0 <= sumf f n (i + 1)) as Hp.
  { destruct (sumf_bounds f n (i + 1) 0 (2 ^ 32)) as [Hb _]; [| lia].
    intros k Hk. specialize (Hf k ltac:(lia)). lia. }
  rewrite wrap64_small by (unfold u64, W64; lia). rewrite !wadd_small by (unfold u64 in *; lia).
  rewrite IH; try lia. intros k Hk. apply Hf. lia.
Qed.

Lemma year_len_bounds y : 365 <= year_len y <= 366.
Proof. unfold year_len. destruct (leap y); lia. Qed.

(** A closed form for the days before the year 2000 + x. *)
Definition days_closed (x : Z) : Z :=
  DAYSTO2000 + 365 * x + (x + 3) / 4 - (x + 99) / 100 + (x + 399) / 400.

(** The calendar repeats every 400 years: it is enough to look at one period. *)
Lemma below_check n (f : Z -> bool) :
  forallb (fun i => f (Z.of_nat i)) (seq 0 n) = true -> forall r, 0 <= r < Z.of_nat n -> f r = true.
Proof.
  intros H r Hr. rewrite forallb_forall in H. specialize (H (Z.to_nat r)).
  rewrite Z2Nat.id in H by lia. apply H, in_seq. lia.
Qed.

Lemma leap_period q r : leap (400 * q + r) = leap r.
Proof.
  unfold leap. replace (400 * q + r) with (r + (100 * q) * 4) at 1 by lia.
  replace (400 * q + r) with (r + (4 * q) * 100) at 1 by lia.
  replace (400 * q + r) with (r + q * 400) by lia. by rewrite !Z_mod_plus_full.
Qed.

Lemma days_closed_period q r : days_closed (400 * q + r) = DAYS400YEARS * q + days_closed r.
Proof.
  unfold days_closed, DAYS400YEARS. replace (400 * q + r + 3) with (r + 3 + (100 * q) * 4) by lia.
  replace (400 * q + r + 99) with (r + 99 + (4 * q) * 100) by lia.
  replace (400 * q + r + 399) with (r + 399 + q * 400) by lia. rewrite !Z_div_plus_full by lia. lia.
Qed.

Lemma year_len_closed x : 0 <= x -> days_closed (x + 1) = days_closed x + year_len (2000 + x).
Proof.
  intros Hx. pose proof (Z.div_mod x 400 ltac:(lia)) as E. pose proof (Z.mod_pos_bound x 400 ltac:(lia)) as Hr.
  set (q := x / 400) in *. set (r := x mod 400) in *. rewrite E.
  replace (400 * q + r + 1) with (400 * q + (r + 1)) by lia. rewrite !days_closed_period.
  unfold year_len. replace (2000 + (400 * q + r)) with (400 * (q + 5) + r) by lia. rewrite leap_period.
  assert ((days_closed (r + 1) =? days_closed r + if leap r then 366 else 365) = true) as H.
  { apply (below_check 400 (fun r => days_closed (r + 1) =? days_closed r + if leap r then 366 else 365));
      [vm_compute; reflexivity | done]. }
  apply Z.eqb_eq in H. lia.
Qed.

Lemma years_closed n x : 0 <= x -> days_closed (x + Z.of_nat n) = days_closed x + sumf year_len n (2000 + x).
Proof.
  intros Hx. induction n as [| n IH]; [cbn [sumf]; by rewrite !Z.add_0_r |].
  rewrite sumf_S. replace (x + Z.of_nat (S n)) with (x + Z.of_nat n + 1) by lia.
  rewrite year_len_closed, IH by lia. replace (2000 + (x + Z.of_nat n)) with (2000 + x + Z.of_nat n) by lia. lia.
Qed.

Lemma years_from_epoch y :
  2000 <= y -> sumf year_len (Z.to_nat (y - 1970)) 1970 = days_closed (y - 2000).
Proof.
  intros Hy. replace (Z.to_nat (y - 1970)) with (30 + Z.to_nat (y - 2000))%nat by lia.
  rewrite sumf_app. change (1970 + Z.of_nat 30) with (2000 + 0).
  pose proof (years_closed (Z.to_nat (y - 2000)) 0 ltac:(lia)) as H.
  replace (0 + Z.of_nat (Z.to_nat (y - 2000))) with (y - 2000) in H by lia. rewrite H.
  change (sumf year_len 30 1970) with DAYSTO2000. reflexivity.
Qed.

(** * The calendar conversion is right, except at the start of a century *)


(** ** The year part *)

Lemma sumf_ext f g n a : (forall i, f i = g i) -> sumf f n a = sumf g n a.
Proof. intros H. revert a. induction n as [| n IH]; intros a; cbn [sumf]; [done |]. by rewrite H, IH. Qed.

Lemma add_years_ok n i days :
  0 <= i -> Z.of_nat n < 2 ^ 10 -> i < 2 ^ 38 -> 0 <= days < 2 ^ 60 ->
  add_days days_per_year n i days = days + sumf year_len n i.
Proof.
  intros Hi Hn Hm Hd.
  pose proof (sumf_bounds year_len n i 365 366 (fun k _ => year_len_bounds k)) as Hb.
  rewrite add_days_ok; rewrite ?(sumf_ext days_per_year year_len) by apply days_per_year_ok;
    try (unfold W64; lia).
  intros k _. rewrite days_per_year_ok. pose proof (year_len_bounds k). lia.
Qed.

(** The three kinds of interval, for the years 2000 + x. *)
Lemma intervals_closed x :
  0 <= x ->
  let a := x mod 400 in let b := a mod 100 in
  DAYSTO2000 + x / 400 * DAYS400YEARS + a / 100 * DAYS100YEARS + b / 4 * DAYS4YEARS
    + sumf year_len (Z.to_nat (b mod 4)) (2000 + x - b mod 4) =
  days_closed x - (if century_start (2000 + x) then 1 else 0).
Proof.
  intros Hx a b. pose proof (Z.div_mod x 400 ltac:(lia)) as E. pose proof (Z.mod_pos_bound x 400 ltac:(lia)) as Hr.
  fold a in E, Hr. set (q := x / 400) in *.
  assert (century_start (2000 + x) = (100 <=? a) && (b <? 4)) as ->.
  { unfold century_start. destruct (Z.leb_spec 2000 (2000 + x)); [| lia]. cbn [andb].
    replace ((2000 + x) mod 400) with a by (unfold a; Z.to_euclidean_division_equations; lia).
    f_equal. unfold b. f_equal. rewrite E. replace (2000 + (400 * q + a)) with (a + (4 * (q + 5)) * 100) by lia.
    apply Z_mod_plus_full. }
  assert (forall n r, sumf year_len n (400 * (q + 5) + r) = sumf year_len n r) as Hper.
  { intros n. induction n as [| n IH]; intros r; cbn [sumf]; [done |].
    unfold year_len at 1 3. rewrite leap_period. rewrite <- (IH (r + 1)). do 2 f_equal. lia. }
  replace (2000 + x - b mod 4) with (400 * (q + 5) + (a - b mod 4)) by lia. rewrite Hper.
  rewrite E, days_closed_period.
  set (g := fun a => DAYSTO2000 + a / 100 * DAYS100YEARS + a mod 100 / 4 * DAYS4YEARS
    + sumf year_len (Z.to_nat (a mod 100 mod 4)) (a - a mod 100 mod 4) =?
    days_closed a - (if (100 <=? a) && (a mod 100 <? 4) then 1 else 0)).
  assert (g a = true) as Hg by (apply (below_check 400 g); [vm_compute; reflexivity | done]).
  unfold g in Hg. apply Z.eqb_eq in Hg. fold b in Hg.
  lia.
Qed.

Lemma year_days_ok y days :
  POSIX_BASE_YEAR <= y < 2 ^ 38 -> 0 <= days <= 1 ->
  year_days y days =
  days + sumf year_len (Z.to_nat (y - 1970)) 1970 - (if century_start y then 1 else 0).
Proof.
  unfold POSIX_BASE_YEAR. intros Hy Hd. unfold year_days. destruct (Z.ltb_spec y 2000).
  { rewrite add_years_ok by (unfold POSIX_BASE_YEAR; lia). unfold century_start.
    destruct (Z.leb_spec 2000 y); [lia |]. cbn. unfold POSIX_BASE_YEAR. lia. }
  cbv zeta. set (x := y - 2000).
  assert (wsub y 2000 = x) as -> by (apply wsub_small; unfold u64, W64; lia).
  pose proof (intervals_closed x ltac:(lia)) as Hc. cbv zeta in Hc.
  replace (2000 + x) with y in Hc by lia.
  assert (forall k c, 0 < c < 400 * 400 -> 0 <= k <= x -> wmul (k / c) c = k / c * c) as Hm1.
  { intros k c ? ?. apply wrap64_small. pose proof (Z.mul_div_le k c ltac:(lia)). pose proof (Z.div_pos k c ltac:(lia) ltac:(lia)). unfold u64, W64. lia. }
  assert (forall k c, 0 < c < 400 * 400 -> 0 <= k <= x -> wsub k (k / c * c) = k mod c) as Hm2.
  { intros k c ? ?. pose proof (Z.mod_eq k c ltac:(lia)). pose proof (Z.mod_pos_bound k c ltac:(lia)).
    rewrite wsub_small; unfold u64, W64; lia. }
  rewrite (Hm1 x 400), (Hm2 x 400) by lia. set (a := x mod 400) in *.
  assert (0 <= a < 400 /\ a <= x) as [Ha Ha'] by (unfold a; Z.to_euclidean_division_equations; lia).
  rewrite (Hm1 a 100), (Hm2 a 100) by lia. set (b := a mod 100) in *.
  assert (0 <= b < 100 /\ b <= a) as [Hb Hb'] by (unfold b; Z.to_euclidean_division_equations; lia).
  rewrite (Hm1 b 4), (Hm2 b 4) by lia. set (c := b mod 4) in *.
  assert (0 <= c < 4 /\ c <= b) as [Hc0 Hc1] by (unfold c; Z.to_euclidean_division_equations; lia).
  assert (0 <= x / 400 < 2 ^ 38 /\ 0 <= a / 100 < 4 /\ 0 <= b / 4 < 25) as (Hi & Hj & Hk)
    by (Z.to_euclidean_division_equations; lia).
  unfold DAYSTO2000, DAYS400YEARS, DAYS100YEARS, DAYS4YEARS in *.
  assert (forall i m, 0 <= i * m < 2 ^ 60 -> wmul i m = i * m) as Hmul
    by (intros; apply wrap64_small; unfold u64, W64; lia).
  rewrite !Hmul by lia.
  repeat match goal with
  | |- context [wadd ?p ?q] =>
      lazymatch p with context [wadd] => fail | _ => rewrite (wadd_small p q) by (unfold u64, W64; lia) end
  end.
  rewrite (wsub_small y c) by (unfold u64, W64; lia).
  rewrite years_from_epoch by lia. fold x.
  rewrite add_years_ok by lia. lia.
Qed.

(** ** The months *)

Lemma month_len_bounds y m : 28 <= month_len y m <= 31.
Proof. unfold month_len. destruct m as [| p |]; try lia. repeat (destruct p; try lia; destruct (leap y); try lia). Qed.

Lemma month_cases m : 1 <= m <= 12 ->
  m = 1 \/ m = 2 \/ m = 3 \/ m = 4 \/ m = 5 \/ m = 6 \/ m = 7 \/ m = 8 \/ m = 9 \/ m = 10 \/ m = 11 \/ m = 12.
Proof. lia. Qed.

(** The leap day is added on its own. *)
Lemma months_ok y m days :
  1 <= m <= 12 -> 0 <= days < 2 ^ 60 ->
  add_days days_in_month (Z.to_nat (m - 1)) 1 days + (if leap y && (FEBRUARY <? m) then 1 else 0) =
  days + sumf (month_len y) (Z.to_nat (m - 1)) 1.
Proof.
  intros Hm Hd. rewrite add_days_ok.
  - destruct (month_cases m Hm) as [-> | [-> | [-> | [-> | [-> | [-> | [-> | [-> | [-> | [-> | [-> | ->]]]]]]]]]]];
      unfold month_len; destruct (leap y);
      repeat match goal with |- context [sumf ?f ?n 1] => let v := eval vm_compute in (sumf f n 1) in change (sumf f n 1) with v end;
      match goal with |- context [if ?b then 1 else 0] => let v := eval vm_compute in b in change b with v end;
      cbv iota; lia.
  - intros k Hk. assert (1 <= k <= 12) as Hk' by lia.
    destruct (month_cases k Hk') as [-> | [-> | [-> | [-> | [-> | [-> | [-> | [-> | [-> | [-> | [-> | ->]]]]]]]]]]];
      vm_compute; split; done || discriminate.
  - lia.
  - unfold W64. lia.
  - lia.
  - destruct (sumf_bounds days_in_month (Z.to_nat (m - 1)) 1 0 31) as [_ H]; [| unfold W64; lia].
    intros k Hk. assert (1 <= k <= 12) as Hk' by lia.
    destruct (month_cases k Hk') as [-> | [-> | [-> | [-> | [-> | [-> | [-> | [-> | [-> | [-> | [-> | ->]]]]]]]]]]];
      vm_compute; split; discriminate.
Qed.

(** ** The reference *)

Lemma posix_days_next_month y m :
  1 <= m -> sumf (month_len y) (Z.to_nat (m + 1 - 1)) 1 = sumf (month_len y) (Z.to_nat (m - 1)) 1 + month_len y m.
Proof.
  intros Hm. replace (Z.to_nat (m + 1 - 1)) with (S (Z.to_nat (m - 1))) by lia. rewrite sumf_S. do 2 f_equal. lia.
Qed.

Lemma posix_days_next_year y :
  1970 <= y -> sumf year_len (Z.to_nat (y + 1 - 1970)) 1970 =
    sumf year_len (Z.to_nat (y - 1970)) 1970 + sumf (month_len y) 12 1.
Proof.
  intros Hy. replace (Z.to_nat (y + 1 - 1970)) with (S (Z.to_nat (y - 1970))) by lia. rewrite sumf_S.
  replace (1970 + Z.of_nat (Z.to_nat (y - 1970))) with y by lia.
  unfold year_len, month_len. by destruct (leap y).
Qed.

Lemma posix_secs_next dt : valid_date dt -> posix_secs (next_second dt) = posix_secs dt + 1.
Proof.
  destruct dt as [y mo d h mi s]. unfold valid_date, next_second, posix_secs, POSIX_BASE_YEAR.
  change (fun y0 => if leap y0 then 366 else 365) with year_len. cbn [dt_year dt_mon dt_day dt_hour dt_min dt_sec].
  intros (Hy & Hm & Hd & Hh & Hmi & Hs).
  destruct (Z.ltb_spec s 59); cbn [dt_year dt_mon dt_day dt_hour dt_min dt_sec]; [lia |].
  destruct (Z.ltb_spec mi 59); cbn [dt_year dt_mon dt_day dt_hour dt_min dt_sec]; [lia |].
  destruct (Z.ltb_spec h 23); cbn [dt_year dt_mon dt_day dt_hour dt_min dt_sec]; [lia |].
  destruct (Z.ltb_spec d (month_len y mo)); cbn [dt_year dt_mon dt_day dt_hour dt_min dt_sec]; [lia |].
  destruct (Z.ltb_spec mo 12); cbn [dt_year dt_mon dt_day dt_hour dt_min dt_sec].
  - rewrite posix_days_next_month by lia. lia.
  - assert (mo = 12) as -> by lia. rewrite posix_days_next_year by lia.
    pose proof (posix_days_next_month y 12 ltac:(lia)) as E.
    change (Z.to_nat (12 + 1 - 1)) with 12%nat in E. rewrite E.
    change (sumf (month_len (y + 1)) (Z.to_nat (1 - 1)) 1) with 0. lia.
Qed.

(** C19. [clock_ymdhms_to_secs] counts the seconds since 1970 in the Gregorian
    calendar, without overflow up to the year [2^38]: the reference
    [posix_secs] is 0 at the epoch and grows by one from each second to the
    next, and the code returns it, short of one day in the first four years of
    a century that does not start with a leap year (2100-2103, 2200-2203, ...);
    earlier years give 0. *)
Theorem clock_ymdhms_to_secs_correct dt :
  valid_date dt ->
  clock_ymdhms_to_secs dt = posix_secs dt - (if century_start (dt_year dt) then SECS_PER_DAY else 0) /\
  posix_secs epoch = 0 /\ posix_secs (next_second dt) = posix_secs dt + 1 /\
  forall y, y < POSIX_BASE_YEAR ->
    clock_ymdhms_to_secs (Ymdhms y (dt_mon dt) (dt_day dt) (dt_hour dt) (dt_min dt) (dt_sec dt)) = 0.
Proof.
  intros Hv. split; [| split; [reflexivity | split; [by apply posix_secs_next |]]].
  2: { intros y Hy. unfold clock_ymdhms_to_secs. cbn [dt_year]. by destruct (Z.ltb_spec y POSIX_BASE_YEAR); [| lia]. }
  destruct dt as [y mo d h mi s]. revert Hv. unfold valid_date, clock_ymdhms_to_secs, posix_secs.
  cbn [dt_year dt_mon dt_day dt_hour dt_min dt_sec]. intros (Hy & Hm & Hd & Hh & Hmi & Hs).
  change (fun y0 => if leap y0 then 366 else 365) with year_len.
  destruct (Z.ltb_spec y POSIX_BASE_YEAR); [lia |]. rewrite is_leap_year_ok.
  rewrite year_days_ok by (done || (destruct (leap y && (FEBRUARY <? mo)); lia)).
  assert (365 * (y - 1970) <= sumf year_len (Z.to_nat (y - 1970)) 1970 <= 366 * (y - 1970)) as HY.
  { pose proof (sumf_bounds year_len (Z.to_nat (y - 1970)) 1970 365 366 (fun k _ => year_len_bounds k)).
    unfold POSIX_BASE_YEAR in *. lia. }
  assert (0 <= sumf (month_len y) (Z.to_nat (mo - 1)) 1 <= 400) as HM.
  { pose proof (sumf_bounds (month_len y) (Z.to_nat (mo - 1)) 1 28 31 (fun k _ => month_len_bounds y k)). lia. }
  assert (century_start y = true -> 2000 <= y) as Hcs.
  { unfold century_start. destruct (Z.leb_spec 2000 y); [lia | done]. }
  unfold POSIX_BASE_YEAR, SECS_PER_DAY in *. pose proof (month_len_bounds y mo) as Hml.
  set (lp := if leap y && (FEBRUARY <? mo) then 1 else 0) in *.
  assert (0 <= lp <= 1) by (unfold lp; destruct (leap y && (FEBRUARY <? mo)); lia).
  set (cs := if century_start y then 1 else 0).
  replace (if century_start y then 86400 else 0) with (86400 * cs) by (unfold cs; destruct (century_start y); lia).
  assert (0 <= cs <= 1 /\ (cs = 1 -> 2000 <= y)) as [Hc1 Hc2]
    by (unfold cs; destruct (century_start y); split; auto; lia).
  set (A := sumf year_len _ _) in *. set (M := sumf (month_len y) _ _) in *.
  assert (cs <= A) by (destruct (decide (cs = 1)) as [E |]; [specialize (Hc2 E) |]; lia).
  pose proof (months_ok y mo (lp + A - cs) Hm ltac:(lia)) as Hmo. fold lp M in Hmo.
  set (D := add_days days_in_month _ _ _) in *.
  assert (D = A - cs + M) as -> by lia. rewrite (wrap64_small (d - 1)) by (unfold u64, W64; lia).
  assert (forall p q, 0 <= p * q < 2 ^ 63 -> wmul p q = p * q) as Hmul
    by (intros; apply wrap64_small; unfold u64, W64; lia).
  assert (forall p q, 0 <= p + q < 2 ^ 63 -> wadd p q = p + q) as Hadd
    by (intros; apply wadd_small; unfold u64, W64; lia).
  rewrite (Hadd _ (d - 1)) by lia. rewrite (Hmul _ 24) by lia. rewrite (Hadd _ h) by lia.
  set (X := (A - cs + M + (d - 1)) * 24 + h). assert (0 <= X < 2 ^ 38 * 366 * 24) by lia.
  rewrite (Hmul X 60) by lia. rewrite (Hadd _ mi) by lia. rewrite (Hmul (X * 60 + mi) 60) by lia.
  rewrite (Hadd _ s) by lia. lia.
Qed.

Lemma clock_ymdhms_to_secs_correct_witness :
  clock_ymdhms_to_secs (Ymdhms 2016 2 29 23 59 59) = 1456790399 /\
  posix_secs (Ymdhms 2016 3 1 0 0 0) = 1456790399 + 1.
Proof.
  destruct (clock_ymdhms_to_secs_correct (Ymdhms 2016 2 29 23 59 59)) as (E & _ & N & _).
  - vm_compute. repeat split; discriminate.
  - split; [rewrite E; vm_compute; reflexivity |].
    transitivity (posix_secs (Ymdhms 2016 2 29 23 59 59) + 1); [exact N | vm_compute; reflexivity].
Defined.

(** New year 2100 is given the same second as the day before it. *)
Example century_repeats_a_day :
  clock_ymdhms_to_secs (Ymdhms 2100 1 1 12 0 0) = clock_ymdhms_to_secs (Ymdhms 2099 12 31 12 0 0).
Proof. vm_compute. reflexivity. Qed.
