(* ===== verification/X86Clock.v ===== *)
(** * Clocks of the x86 platform (platform/hw/arch/x86/clock.c)

    Time from the time stamp counter or from the page a hypervisor keeps up to
    date, the one-shot timer, and the calibration against it at boot.  The
    hardware is an oracle: the successive values that RDTSC returns, that are
    read from ports, and that each access to the shared page sees.  Writes to
    ports are recorded.  [bmk_time_t] is signed and 64 bits wide. *)

From S2P Require Import Prelude Calendar.

Definition NSEC_PER_SEC : Z := 1000000000.
Definition PIT_MIN_DELTA : Z := 16.
Definition TIMER_CNTR : Z := 0x40.
Definition TIMER_MODE : Z := 0x43.
Definition TIMER_SEL0 : Z := 0.
Definition TIMER_LATCH : Z := 0.
Definition TIMER_RATEGEN : Z := 4.
Definition TIMER_ONESHOT : Z := 8.
Definition TIMER_16BIT : Z := 0x30.
Definition TIMER_HZ : Z := 1193182.
Definition RTC_COMMAND : Z := 0x70.
Definition RTC_NMI_DISABLE : Z := Z.shiftl 1 8.
Definition RTC_UIP : Z := Z.shiftl 1 7.
Definition RTC_SEC : Z := 0.
Definition RTC_MIN : Z := 2.
Definition RTC_HOUR : Z := 4.
Definition RTC_DAY : Z := 7.
Definition RTC_MONTH : Z := 8.
Definition RTC_YEAR : Z := 9.
Definition RTC_STATUS_A : Z := 0x0a.

Definition pit_mult : Z := wrap32 (Z.shiftl 1 63 / (Z.shiftl NSEC_PER_SEC 31 / TIMER_HZ)).

(** ** Fixed point *)

(** x86_64: the 128-bit product of the registers, shifted right by 32. *)
Definition mul64_32 (a b : Z) : Z := wrap64 (Z.shiftr (a * b) 32).

(** i386: two partial products added with carry. *)
Definition mul64_32_i386 (a b : Z) : Z :=
  let h := wrap32 (Z.shiftr a 32) in
  let l := wrap32 a in
  let t1 := Z.shiftr (l * b) 32 in            (* %edx of l * b *)
  let p := h * b in
  let lsw := wrap32 p + t1 in                 (* add *)
  let eax := wrap32 lsw in
  let edx := wrap32 (Z.shiftr p 32 + Z.shiftr lsw 32) in   (* adc *)
  Z.lor (Z.shiftl edx 32) eax.

(** ** State *)

Record pvclock_vcpu_time_info := Ti {
  ti_version : Z; tsc_timestamp : Z; system_time : Z; tsc_to_system_mul : Z; tsc_shift : Z
}.
Record pvclock_wall_clock := Wc { wc_version : Z; wc_sec : Z; wc_nsec : Z }.

Record clk := Clk {
  c_tsc : list Z;                          (** what RDTSC will return *)
  c_in : list Z;                           (** what reading ports will return *)
  c_out : list (Z * Z);                    (** ports and bytes written *)
  c_ti : list pvclock_vcpu_time_info;      (** what the accesses of [pvclock_ti] will see *)
  c_wc : list pvclock_wall_clock;          (** what the accesses of [pvclock_wc] will see *)
  rtc_epochoffset : Z;
  have_pvclock : bool;
  time_base : Z;
  tsc_base : Z;
  tsc_mult : Z;
  spldepth : Z;
  c_sti : Z                                (** how often interrupts were let through *)
}.

Definition with_tsc l s := Clk l (c_in s) (c_out s) (c_ti s) (c_wc s) (rtc_epochoffset s) (have_pvclock s) (time_base s) (tsc_base s) (tsc_mult s) (spldepth s) (c_sti s).
Definition with_ports i o s := Clk (c_tsc s) i o (c_ti s) (c_wc s) (rtc_epochoffset s) (have_pvclock s) (time_base s) (tsc_base s) (tsc_mult s) (spldepth s) (c_sti s).
Definition with_ti l s := Clk (c_tsc s) (c_in s) (c_out s) l (c_wc s) (rtc_epochoffset s) (have_pvclock s) (time_base s) (tsc_base s) (tsc_mult s) (spldepth s) (c_sti s).
Definition with_wc l s := Clk (c_tsc s) (c_in s) (c_out s) (c_ti s) l (rtc_epochoffset s) (have_pvclock s) (time_base s) (tsc_base s) (tsc_mult s) (spldepth s) (c_sti s).
Definition with_epoch e s := Clk (c_tsc s) (c_in s) (c_out s) (c_ti s) (c_wc s) e (have_pvclock s) (time_base s) (tsc_base s) (tsc_mult s) (spldepth s) (c_sti s).
Definition with_pv b s := Clk (c_tsc s) (c_in s) (c_out s) (c_ti s) (c_wc s) (rtc_epochoffset s) b (time_base s) (tsc_base s) (tsc_mult s) (spldepth s) (c_sti s).
Definition with_base t c s := Clk (c_tsc s) (c_in s) (c_out s) (c_ti s) (c_wc s) (rtc_epochoffset s) (have_pvclock s) t c (tsc_mult s) (spldepth s) (c_sti s).
Definition with_mult n s := Clk (c_tsc s) (c_in s) (c_out s) (c_ti s) (c_wc s) (rtc_epochoffset s) (have_pvclock s) (time_base s) (tsc_base s) n (spldepth s) (c_sti s).
Definition with_spl d n s := Clk (c_tsc s) (c_in s) (c_out s) (c_ti s) (c_wc s) (rtc_epochoffset s) (have_pvclock s) (time_base s) (tsc_base s) (tsc_mult s) d n.

Definition rdtsc (s : clk) : outcome (Z * clk) :=
  match c_tsc s with [] => Undef "end of input" | t :: l => Done (t, with_tsc l s) end.
Definition inb (s : clk) : outcome (Z * clk) :=
  match c_in s with [] => Undef "end of input" | b :: l => Done (b, with_ports l (c_out s) s) end.
(** The value is a byte. *)
Definition outb (port v : Z) (s : clk) : clk := with_ports (c_in s) (c_out s ++ [(port, v mod 256)]) s.
Definition read_ti (s : clk) : outcome (pvclock_vcpu_time_info * clk) :=
  match c_ti s with [] => Undef "end of input" | t :: l => Done (t, with_ti l s) end.
Definition read_wc (s : clk) : outcome (pvclock_wall_clock * clk) :=
  match c_wc s with [] => Undef "end of input" | t :: l => Done (t, with_wc l s) end.

(** [splhigh] and [spl0] of arch/x86/inline.h. *)
Definition splhigh (s : clk) : clk := with_spl (spldepth s + 1) (c_sti s) s.
Definition spl0 (s : clk) : outcome clk :=
  if spldepth s =? 0 then Halt "out of interrupt depth!"
  else
    let d := spldepth s - 1 in
    Done (with_spl d (if d =? 0 then c_sti s + 1 else c_sti s) s).

(** ** The timer chip *)

Definition i8254_gettick (s : clk) : outcome (Z * clk) :=
  let s := outb TIMER_MODE (Z.lor TIMER_SEL0 TIMER_LATCH) s in
  '(lo, s) ← inb s;
  '(hi, s) ← inb s;
  Done (Z.lor lo (Z.shiftl hi 8) mod 2 ^ 16, s).

(** [remaining] is an [int], the subtrahends are unsigned. *)
Fixpoint i8254_delay_loop (fuel : nat) (remaining initial_tick : Z) (s : clk) : outcome clk :=
  if remaining <=? 1 then Done s
  else
    match fuel with
    | O => Undef "i8254_delay: out of fuel"
    | S fuel =>
        '(cur_tick, s) ← i8254_gettick s;
        let timer_rval := TIMER_HZ / 100 in
        let remaining :=
          if initial_tick <? cur_tick then s32 (remaining - (timer_rval - wrap32 (cur_tick - initial_tick)))
          else s32 (remaining - wrap32 (initial_tick - cur_tick)) in
        i8254_delay_loop fuel remaining cur_tick s
    end.

Definition i8254_delay (n : Z) (s : clk) : outcome clk :=
  '(initial_tick, s) ← i8254_gettick s;
  i8254_delay_loop (S (length (c_in s))) (s32 (wrap64 (n * TIMER_HZ) / 1000000)) initial_tick s.

(** ** The clock chip *)

Definition rtc_read (reg : Z) (s : clk) : outcome (Z * clk) :=
  inb (outb RTC_COMMAND (Z.lor reg RTC_NMI_DISABLE) s).

Fixpoint rtc_wait (fuel : nat) (s : clk) : outcome clk :=
  match fuel with
  | O => Undef "rtc_gettimeofday: out of fuel"
  | S fuel => '(a, s) ← rtc_read RTC_STATUS_A s; if negb (Z.land a RTC_UIP =? 0) then rtc_wait fuel s else Done s
  end.

Definition rtc_gettimeofday (s : clk) : outcome (Z * clk) :=
  let s := splhigh s in
  s ← rtc_wait (S (length (c_in s))) s;
  '(sec, s) ← rtc_read RTC_SEC s;
  '(min, s) ← rtc_read RTC_MIN s;
  '(hour, s) ← rtc_read RTC_HOUR s;
  '(day, s) ← rtc_read RTC_DAY s;
  '(mon, s) ← rtc_read RTC_MONTH s;
  '(year, s) ← rtc_read RTC_YEAR s;
  let dt := Ymdhms (bcdtobin year + 2000) (bcdtobin mon) (bcdtobin day) (bcdtobin hour) (bcdtobin min) (bcdtobin sec) in
  s ← spl0 s;
  Done (s64 (clock_ymdhms_to_secs dt * NSEC_PER_SEC), s).

(** ** The time stamp counter *)

Definition tscclock_monotonic (s : clk) : outcome (Z * clk) :=
  '(tsc_now, s) ← rdtsc s;
  let tsc_delta := wsub tsc_now (tsc_base s) in
  let t := s64 (time_base s + mul64_32 tsc_delta (tsc_mult s)) in
  Done (t, with_base t tsc_now s).

Definition tscclock_init (s : clk) : outcome clk :=
  let s := outb TIMER_MODE (Z.lor TIMER_SEL0 (Z.lor TIMER_RATEGEN TIMER_16BIT)) s in
  let s := outb TIMER_CNTR (Z.land (TIMER_HZ / 100) 255) s in
  let s := outb TIMER_CNTR (Z.shiftr (TIMER_HZ / 100) 8) s in
  '(e, s) ← rtc_gettimeofday s;
  let s := with_epoch e s in
  s ← spl0 s;
  '(t0, s) ← rdtsc s;
  let s := with_base (time_base s) t0 s in
  s ← i8254_delay 100000 s;
  '(t1, s) ← rdtsc s;
  let tsc_freq := wmul (wsub t1 (tsc_base s)) 10 in
  let s := splhigh s in
  if tsc_freq =? 0 then Undef "division by zero"
  else
    let s := with_mult (wrap32 (Z.shiftl NSEC_PER_SEC 32 / tsc_freq)) s in
    Done (with_base (s64 (mul64_32 (tsc_base s) (tsc_mult s))) (tsc_base s) s).

(** ** The hypervisor's clock *)

(** [delta >>= -shift] or [delta <<= shift]; shifting by the width or more is
    undefined. *)
Definition pvclock_shift (neg : bool) (delta shift : Z) : outcome Z :=
  if neg then (if (0 <=? - shift) && (- shift <? 64) then Done (Z.shiftr delta (- shift)) else Undef "shift")
  else if (0 <=? shift) && (shift <? 64) then Done (wrap64 (Z.shiftl delta shift)) else Undef "shift".

(** One round: the accesses of the loop body in order, then the test. *)
Fixpoint pvclock_monotonic_loop (fuel : nat) (s : clk) : outcome (Z * clk) :=
  match fuel with
  | O => Undef "end of input"
  | S fuel =>
      '(ti0, s) ← read_ti s;
      let version := ti_version ti0 in
      '(now, s) ← rdtsc s;
      '(ti1, s) ← read_ti s;
      let delta := wsub now (tsc_timestamp ti1) in
      '(ti2, s) ← read_ti s;
      '(ti3, s) ← read_ti s;
      delta ← pvclock_shift (tsc_shift ti2 <? 0) delta (tsc_shift ti3);
      '(ti4, s) ← read_ti s;
      '(ti5, s) ← read_ti s;
      let time_now := wadd (mul64_32 delta (tsc_to_system_mul ti4)) (system_time ti5) in
      '(ti6, s) ← read_ti s;
      if negb (Z.land (ti_version ti6) 1 =? 0) then pvclock_monotonic_loop fuel s
      else
        '(ti7, s) ← read_ti s;
        if negb (ti_version ti7 =? version) then pvclock_monotonic_loop fuel s
        else Done (s64 time_now, s)
  end.
Definition pvclock_monotonic (s : clk) : outcome (Z * clk) := pvclock_monotonic_loop (S (length (c_ti s))) s.

Fixpoint pvclock_read_wall_clock_loop (fuel : nat) (s : clk) : outcome (Z * clk) :=
  match fuel with
  | O => Undef "end of input"
  | S fuel =>
      '(w0, s) ← read_wc s;
      '(w1, s) ← read_wc s;
      '(w2, s) ← read_wc s;
      let wc_boot := s64 (s64 (wmul (wc_sec w1) NSEC_PER_SEC) + wc_nsec w2) in
      '(w3, s) ← read_wc s;
      if negb (Z.land (wc_version w3) 1 =? 0) then pvclock_read_wall_clock_loop fuel s
      else
        '(w4, s) ← read_wc s;
        if negb (wc_version w4 =? wc_version w0) then pvclock_read_wall_clock_loop fuel s
        else Done (wc_boot, s)
  end.
Definition pvclock_read_wall_clock (s : clk) : outcome (Z * clk) :=
  pvclock_read_wall_clock_loop (S (length (c_wc s))) s.

(** ** The interface of the platform *)

Definition bmk_platform_cpu_clock_monotonic (s : clk) : outcome (Z * clk) :=
  if have_pvclock s then pvclock_monotonic s else tscclock_monotonic s.

Definition bmk_platform_cpu_clock_epochoffset (s : clk) : Z := rtc_epochoffset s.

(** The busy wait at the end of [bmk_platform_cpu_block]: until two readings
    are 150 ticks apart. *)
Fixpoint block_wait (fuel : nat) (prev : Z) (s : clk) : outcome clk :=
  match fuel with
  | O => Undef "end of input"
  | S fuel =>
      '(ts, s) ← rdtsc s;
      if wsub ts prev <? 150 then block_wait fuel ts (with_spl (spldepth s) (c_sti s + 1) s) else Done s
  end.

(** How the timer is programmed for a delay: not at all when it is too short. *)
Definition timer_ticks (delta_ns : Z) : option Z :=
  let delta_ticks := mul64_32 delta_ns pit_mult in
  if delta_ticks <? PIT_MIN_DELTA then None
  else Some (if 65535 <? delta_ticks then 65535 else delta_ticks).

Definition bmk_platform_cpu_block (until : Z) (s : clk) : outcome clk :=
  _ ← bmk_assert (0 <? spldepth s) "spldepth > 0";
  '(now, s) ← bmk_platform_cpu_clock_monotonic s;
  if until <=? now then Done s
  else
    match timer_ticks (until - now) with
    | None => Done (with_spl (spldepth s) (c_sti s + 1) s)
    | Some ticks =>
        let s := outb TIMER_CNTR (Z.land (ticks - 1) 255) s in
        let s := outb TIMER_CNTR (Z.shiftr (ticks - 1) 8) s in
        let d := spldepth s in
        let s := with_spl 0 (c_sti s) s in
        '(prev, s) ← rdtsc s;
        s ← block_wait (S (length (c_tsc s))) prev s;
        Done (with_spl d (c_sti s) s)
    end.

(** ** Start *)

(** The answers of CPUID: EAX, EBX, ECX and EDX of a leaf. *)
Section Init.
  Context (x86_cpuid : Z -> Z * Z * Z * Z).

Definition HYPERVISOR_XEN : Z := 1.
Definition HYPERVISOR_VMWARE : Z := 2.
Definition HYPERVISOR_HYPERV : Z := 3.
Definition HYPERVISOR_KVM : Z := 4.

(** platform/hw/arch/x86/hypervisor.c *)
Definition hypervisor_detect : Z :=
  let '(eax, _, _, _) := x86_cpuid 0 in
  if eax <? 1 then 0
  else
    let '(_, _, ecx, _) := x86_cpuid 1 in
    if Z.land ecx (Z.shiftl 1 31) =? 0 then 0
    else
      let '(eax, ebx, ecx, edx) := x86_cpuid 0x40000000 in
      if eax <? 0x40000000 then 0
      else if (ebx =? 0x566e6558) && (ecx =? 0x65584d4d) && (edx =? 0x4d4d566e) then HYPERVISOR_XEN
      else if (ebx =? 0x61774d56) && (ecx =? 0x4d566572) && (edx =? 0x65726177) then HYPERVISOR_VMWARE
      else if (ebx =? 0x7263694d) && (ecx =? 0x666f736f) && (edx =? 0x76482074) then HYPERVISOR_HYPERV
      else if (ebx =? 0x4b4d564b) && (ecx =? 0x564b4d56) && (edx =? 0x0000004d) then HYPERVISOR_KVM
      else 0.

(** The result, and the registers that were given the addresses of the two
    shared structures. *)
Definition pvclock_init (s : clk) : outcome (Z * list Z * clk) :=
  if negb (hypervisor_detect =? HYPERVISOR_KVM) then Done (1, [], s)
  else
    let '(eax, _, _, _) := x86_cpuid 0x40000001 in
    let msrs := if negb (Z.land eax (Z.shiftl 1 3) =? 0) then [0x4b564d01; 0x4b564d00]
                else if negb (Z.land eax (Z.shiftl 1 0) =? 0) then [0x12; 0x11] else [] in
    match msrs with
    | [] => Done (1, [], s)
    | _ => '(e, s) ← pvclock_read_wall_clock s; Done (0, msrs, with_epoch e s)
    end.

(** Returns the mask of the interrupt controller and the registers written. *)
Definition x86_initclocks (pic1mask : Z) (s : clk) : outcome (Z * list Z * clk) :=
  let '(eax, _, _, _) := x86_cpuid 0 in
  let have_tsc := if 1 <=? eax then let '(_, _, _, edx) := x86_cpuid 1 in Z.land edx (Z.shiftl 1 4) else 0 in
  if have_tsc =? 0 then Halt "Processor does not support RDTSC"
  else
    '(r, msrs, s) ← pvclock_init s;
    s ← (if r =? 0 then Done (with_pv true s) else tscclock_init s);
    let s := outb TIMER_MODE (Z.lor TIMER_SEL0 (Z.lor TIMER_ONESHOT TIMER_16BIT)) s in
    let pic1mask := Z.land pic1mask (Z.lnot (Z.shiftl 1 0)) in
    Done (pic1mask, msrs, outb 0x21 pic1mask s).
End Init.

(** * Theorems on the x86 clocks *)


Lemma pit_mult_value : pit_mult = 5124677.
Proof. vm_compute. reflexivity. Qed.

(** ** Fixed point *)

Lemma mul64_32_exact a b : u64 a -> 0 <= b < 2 ^ 32 -> mul64_32 a b = a * b / 2 ^ 32.
Proof.
  intros Ha Hb. unfold mul64_32. rewrite Z.shiftr_div_pow2 by lia. apply wrap64_small. split.
  - apply Z.div_pos; [unfold u64 in Ha; nia | lia].
  - apply Z.div_lt_upper_bound; [lia |]. unfold u64, W64 in *. nia.
Qed.

Lemma mul64_32_i386_exact a b : u64 a -> 0 <= b < 2 ^ 32 -> mul64_32_i386 a b = a * b / 2 ^ 32.
Proof.
  intros Ha Hb. unfold mul64_32_i386. cbv zeta. rewrite !Z.shiftr_div_pow2 by lia. unfold wrap32.
  set (B := 2 ^ 32) in *. assert (0 < B) by (unfold B; lia).
  assert (0 <= a / B < B) as Hh.
  { split; [apply Z.div_pos; unfold u64 in Ha; lia | apply Z.div_lt_upper_bound; [lia |]]. unfold u64, W64, B in *. lia. }
  rewrite (Z.mod_small (a / B)) by done. pose proof (Z.mod_pos_bound a B ltac:(lia)) as Hl.
  pose proof (Z.div_mod a B ltac:(lia)) as Ea. set (h := a / B) in *. set (l := a mod B) in *.
  pose proof (Z.div_mod (h * b) B ltac:(lia)) as Ep. pose proof (Z.mod_pos_bound (h * b) B ltac:(lia)) as Hp.
  set (t := l * b / B). set (x := (h * b) mod B + t).
  pose proof (Z.div_mod x B ltac:(lia)) as Ex. pose proof (Z.mod_pos_bound x B ltac:(lia)) as Hx.
  assert (a * b / B = h * b + t) as E.
  { unfold t. rewrite Ea. replace ((B * h + l) * b) with (l * b + (h * b) * B) by lia. rewrite Z.div_add by lia. lia. }
  assert (0 <= t < B) as Ht.
  { unfold t. split; [apply Z.div_pos; nia | apply Z.div_lt_upper_bound; nia]. }
  assert (0 <= x / B) by (apply Z.div_pos; lia).
  assert (0 <= h * b / B) by (apply Z.div_pos; nia).
  assert (h * b / B + x / B < B) as Hsum.
  { assert (h * b + t < B * B) by nia. nia. }
  rewrite (Z.mod_small (h * b / B + x / B)) by lia. rewrite E.
  assert (Z.lor (Z.shiftl (h * b / B + x / B) 32) (x mod B) = (h * b / B + x / B) * B + x mod B) as ->.
  { rewrite Z.shiftl_mul_pow2 by lia. fold B.
    pose proof (Z.add_lor_land ((h * b / B + x / B) * B) (x mod B)) as HL.
    assert (Z.land ((h * b / B + x / B) * B) (x mod B) = 0) as HZ; [| lia].
    apply Z.bits_inj'. intros i Hi. rewrite Z.land_spec, Z.bits_0. unfold B in *.
    destruct (Z.lt_ge_cases i 32).
    - rewrite Z.mul_pow2_bits_low by lia. done.
    - rewrite (Z.mod_pow2_bits_high x 32) by lia. by rewrite andb_false_r. }
  unfold x in *. lia.
Qed.

(** ** The timer *)

Lemma timer_ticks_spec d :
  0 < d < 2 ^ 63 ->
  match timer_ticks d with
  | None => d * TIMER_HZ < (PIT_MIN_DELTA + 1) * NSEC_PER_SEC
  | Some t => PIT_MIN_DELTA <= t <= 65535 /\ t * NSEC_PER_SEC <= d * TIMER_HZ /\
              (t < 65535 -> d * TIMER_HZ < (t + 2) * NSEC_PER_SEC)
  end.
Proof.
  intros Hd. unfold timer_ticks. rewrite mul64_32_exact, pit_mult_value; [| unfold u64, W64; lia | rewrite pit_mult_value; lia].
  cbv zeta. unfold PIT_MIN_DELTA, TIMER_HZ, NSEC_PER_SEC.
  pose proof (Z.div_mod (d * 5124677) (2 ^ 32) ltac:(lia)) as E. pose proof (Z.mod_pos_bound (d * 5124677) (2 ^ 32) ltac:(lia)) as Hm.
  set (t := d * 5124677 / 2 ^ 32) in *.
  destruct (Z.ltb_spec t 16); [lia |]. destruct (Z.ltb_spec 65535 t); lia.
Qed.

(** The clock is read without touching ports, interrupt level or saved state. *)
Lemma monotonic_frame s t s' :
  bmk_platform_cpu_clock_monotonic s = Done (t, s') ->
  c_out s' = c_out s /\ spldepth s' = spldepth s /\ - 2 ^ 63 <= t < 2 ^ 63.
Proof.
  assert (forall z, - 2 ^ 63 <= s64 z < 2 ^ 63) as Hs64.
  { intros z. unfold s64. pose proof (Z.mod_pos_bound (z + 2 ^ 63) (2 ^ 64)). lia. }
  unfold bmk_platform_cpu_clock_monotonic. destruct (have_pvclock s).
  - unfold pvclock_monotonic. generalize (S (length (c_ti s))). intros fuel. revert s.
    induction fuel as [| fuel IH]; intros s H; [done |]. cbn [pvclock_monotonic_loop] in H.
    assert (forall s x s1, read_ti s = Done (x, s1) -> c_out s1 = c_out s /\ spldepth s1 = spldepth s) as Hti.
    { intros s0 x s1. unfold read_ti. destruct (c_ti s0); [done |]. by intros [= <- <-]. }
    assert (forall s x s1, rdtsc s = Done (x, s1) -> c_out s1 = c_out s /\ spldepth s1 = spldepth s) as Htsc.
    { intros s0 x s1. unfold rdtsc. destruct (c_tsc s0); [done |]. by intros [= <- <-]. }
    repeat first
      [ match type of H with (_ ≫= _) = _ =>
          let r := fresh "r" in let E := fresh "E" in
          apply bind_Done in H as (r & E & H); try destruct r as [? ?];
          first [apply Hti in E as [? ?] | apply Htsc in E as [? ?] | idtac] end ];
    destruct (negb _).
    + apply IH in H as (-> & -> & ?). split; [congruence | split; [congruence | done]].
    + repeat match type of H with (_ ≫= _) = _ =>
          let r := fresh "r" in let E := fresh "E" in
          apply bind_Done in H as (r & E & H); try destruct r as [? ?];
          first [apply Hti in E as [? ?] | apply Htsc in E as [? ?] | idtac] end.
      destruct (negb _).
      * apply IH in H as (-> & -> & ?). split; [congruence | split; [congruence | done]].
      * injection H as <- <-. split; [congruence | split; [congruence | apply Hs64]].
  - unfold tscclock_monotonic, rdtsc. destruct (c_tsc s); [done |]. rewrite Done_bind.
    intros [= <- <-]. split; [done | split; [done | apply Hs64]].
Qed.

Lemma block_wait_frame fuel prev s s' :
  block_wait fuel prev s = Done s' -> c_out s' = c_out s.
Proof.
  revert prev s. induction fuel as [| fuel IH]; intros prev s H; [done |]. cbn [block_wait] in H.
  apply bind_Done in H as ([ts s1] & E & H). unfold rdtsc in E. destruct (c_tsc s); [done |]. injection E as <- <-.
  destruct (_ <? 150); [by apply IH in H | by injection H as <-].
Qed.

(** C25. Fixed-point time arithmetic never overflows and is exact on both
    architectures.  Blocking the CPU until a deadline restores the interrupt
    level; if the timer is programmed at all, it is with a 16-bit count of at
    least 15 that makes it fire no later than the deadline, and less than two
    timer ticks before it unless the count is the largest possible; if the
    deadline has passed or is less than 17 ticks away, it is not programmed. *)
Theorem x86_clock_bounds a b until s now s1 s' :
  u64 a -> 0 <= b < 2 ^ 32 -> - 2 ^ 62 <= now -> until < 2 ^ 62 ->
  bmk_platform_cpu_clock_monotonic s = Done (now, s1) ->
  bmk_platform_cpu_block until s = Done s' ->
  mul64_32 a b = a * b / 2 ^ 32 /\ mul64_32_i386 a b = a * b / 2 ^ 32 /\
  spldepth s' = spldepth s /\
  (c_out s' = c_out s /\ (until - now) * TIMER_HZ < (PIT_MIN_DELTA + 1) * NSEC_PER_SEC \/
   exists lo hi, c_out s' = c_out s ++ [(TIMER_CNTR, lo); (TIMER_CNTR, hi)] /\ 0 <= lo < 256 /\ 0 <= hi < 256 /\
     let ticks := hi * 256 + lo + 1 in
     PIT_MIN_DELTA <= ticks <= 65535 /\ ticks * NSEC_PER_SEC <= (until - now) * TIMER_HZ /\
     (ticks < 65535 -> (until - now) * TIMER_HZ < (ticks + 2) * NSEC_PER_SEC)).
Proof.
  intros Ha Hb Hnow Huntil Hm H. split; [by apply mul64_32_exact |]. split; [by apply mul64_32_i386_exact |].
  destruct (monotonic_frame s now s1 Hm) as (Fo & Fs & _).
  unfold bmk_platform_cpu_block in H. apply bind_Done in H as ([] & _ & H). rewrite Hm, Done_bind in H.
  destruct (Z.leb_spec until now) as [Hle | Hgt].
  { injection H as <-. split; [done |]. left. split; [done |]. unfold TIMER_HZ, PIT_MIN_DELTA, NSEC_PER_SEC. lia. }
  pose proof (timer_ticks_spec (until - now) ltac:(lia)) as Ht. destruct (timer_ticks (until - now)) as [t |].
  2: { injection H as <-. split; [done |]. left. done. }
  destruct Ht as (Ht & Hlate & Hearly). unfold PIT_MIN_DELTA in Ht.
  apply bind_Done in H as ([prev s2] & E & H). apply bind_Done in H as (s3 & E3 & H). injection H as <-.
  split; [exact Fs |]. right. apply block_wait_frame in E3.
  assert (c_out s2 = c_out (outb TIMER_CNTR (Z.shiftr (t - 1) 8) (outb TIMER_CNTR (Z.land (t - 1) 255) s1))) as Eo.
  { unfold rdtsc in E. cbn [c_tsc with_spl] in E. destruct (c_tsc _) in E; [done |]. by injection E as <- <-. }
  change 255 with (Z.ones 8) in Eo. rewrite Z.land_ones, Z.shiftr_div_pow2 in Eo by lia. change (2 ^ 8) with 256 in Eo.
  exists ((t - 1) mod 256), ((t - 1) / 256).
  pose proof (Z.div_mod (t - 1) 256 ltac:(lia)) as Ed. pose proof (Z.mod_pos_bound (t - 1) 256 ltac:(lia)) as Hlo.
  assert (0 <= (t - 1) / 256 < 256) as Hhi by (split; [apply Z.div_pos; lia | apply Z.div_lt_upper_bound; lia]).
  split.
  { cbn. rewrite E3, Eo. cbn. rewrite Fo, <- app_assoc. cbn.
    by rewrite (Z.mod_small ((t - 1) mod 256)), (Z.mod_small ((t - 1) / 256)) by lia. }
  split; [done |]. split; [done |]. cbv zeta. replace ((t - 1) / 256 * 256 + (t - 1) mod 256 + 1) with t by lia. done.
Qed.

(** ** The hypervisor's clock *)

(** The time a page with content [ti] stands for when the counter is at [now]. *)
Definition pvclock_value (ti : pvclock_vcpu_time_info) (now : Z) : outcome Z :=
  delta ← pvclock_shift (tsc_shift ti <? 0) (wsub now (tsc_timestamp ti)) (tsc_shift ti);
  Done (s64 (wadd (mul64_32 delta (tsc_to_system_mul ti)) (system_time ti))).

(** How the hypervisor updates the page: the version grows and is odd during
    an update; while it stays the same and even, the content does too. *)
Definition updates_ok (l : list pvclock_vcpu_time_info) : Prop :=
  forall i j x y, l !! i = Some x -> l !! j = Some y -> (i <= j)%nat ->
    ti_version x <= ti_version y /\ (ti_version x = ti_version y -> Z.land (ti_version x) 1 = 0 -> x = y).

Lemma updates_ok_tail x l : updates_ok (x :: l) -> updates_ok l.
Proof. intros H i j a b Hi Hj Hij. apply (H (S i) (S j) a b Hi Hj). lia. Qed.

(** Equal first and last versions, the last but one even: one content. *)
Lemma eight_equal (x0 x1 x2 x3 x4 x5 x6 x7 : pvclock_vcpu_time_info) l :
  updates_ok (x0 :: x1 :: x2 :: x3 :: x4 :: x5 :: x6 :: x7 :: l) ->
  ti_version x7 = ti_version x0 -> Z.land (ti_version x6) 1 = 0 ->
  x1 = x0 /\ x2 = x0 /\ x3 = x0 /\ x4 = x0 /\ x5 = x0 /\ Z.land (ti_version x0) 1 = 0.
Proof.
  intros Hu E7 E6. assert (forall i x, (x0 :: x1 :: x2 :: x3 :: x4 :: x5 :: x6 :: x7 :: l) !! i = Some x -> (i <= 7)%nat ->
    ti_version x = ti_version x0) as Hv.
  { intros i x Hi H7. destruct (Hu 0%nat i x0 x eq_refl Hi ltac:(lia)) as [? _].
    destruct (Hu i 7%nat x x7 Hi eq_refl H7) as [? _]. lia. }
  assert (Z.land (ti_version x0) 1 = 0) as Hev.
  { pose proof (Hv 6%nat x6 eq_refl ltac:(lia)) as E. by rewrite E in E6. }
  assert (forall i x, (x0 :: x1 :: x2 :: x3 :: x4 :: x5 :: x6 :: x7 :: l) !! i = Some x -> (i <= 7)%nat -> x = x0) as Heq.
  { intros i x Hi H7. symmetry. apply (Hu 0%nat i x0 x eq_refl Hi); [lia | symmetry; by apply (Hv i) | done]. }
  repeat split; [apply (Heq 1%nat) | apply (Heq 2%nat) | apply (Heq 3%nat) | apply (Heq 4%nat) | apply (Heq 5%nat) | done]; done || lia.
Qed.

(** One round on the accesses it makes. *)
Definition pv_next (fuel : nat) (s : clk) (now : Z) (x0 x1 x2 x3 x4 x5 x6 : pvclock_vcpu_time_info)
    (l : list pvclock_vcpu_time_info) : outcome (Z * clk) :=
  delta ← pvclock_shift (tsc_shift x2 <? 0) (wsub now (tsc_timestamp x1)) (tsc_shift x3);
  let t := s64 (wadd (mul64_32 delta (tsc_to_system_mul x4)) (system_time x5)) in
  if negb (Z.land (ti_version x6) 1 =? 0) then pvclock_monotonic_loop fuel (with_ti l s)
  else
    match l with
    | [] => Undef "end of input"
    | x7 :: l =>
        if negb (ti_version x7 =? ti_version x0) then pvclock_monotonic_loop fuel (with_ti l s)
        else Done (t, with_ti l s)
    end.

Lemma read_ti_cons s x l : c_ti s = x :: l -> read_ti s = Done (x, with_ti l s).
Proof. unfold read_ti. by intros ->. Qed.
Lemma rdtsc_cons s x l : c_tsc s = x :: l -> rdtsc s = Done (x, with_tsc l s).
Proof. unfold rdtsc. by intros ->. Qed.
Lemma with_ti_twice l l' s : with_ti l (with_ti l' s) = with_ti l s.
Proof. reflexivity. Qed.
Lemma with_ti_tsc l l' s : with_tsc l (with_ti l' s) = with_ti l' (with_tsc l s).
Proof. reflexivity. Qed.

Lemma pv_round fuel s x0 x1 x2 x3 x4 x5 x6 l now lt :
  c_ti s = x0 :: x1 :: x2 :: x3 :: x4 :: x5 :: x6 :: l -> c_tsc s = now :: lt ->
  pvclock_monotonic_loop (S fuel) s = pv_next fuel (with_tsc lt s) now x0 x1 x2 x3 x4 x5 x6 l.
Proof.
  intros E1 E2. unfold pv_next. cbn [pvclock_monotonic_loop].
  rewrite (read_ti_cons _ _ _ E1), Done_bind.
  rewrite (rdtsc_cons (with_ti _ s) now lt E2), Done_bind, with_ti_tsc.
  rewrite (read_ti_cons (with_ti _ _) _ _ eq_refl), Done_bind, with_ti_twice.
  rewrite (read_ti_cons (with_ti _ _) _ _ eq_refl), Done_bind, with_ti_twice.
  rewrite (read_ti_cons (with_ti _ _) _ _ eq_refl), Done_bind, with_ti_twice. cbv zeta.
  destruct (pvclock_shift _ _ _) as [d | |]; [rewrite !Done_bind | done..].
  rewrite (read_ti_cons (with_ti _ _) _ _ eq_refl), Done_bind, with_ti_twice.
  rewrite (read_ti_cons (with_ti _ _) _ _ eq_refl), Done_bind, with_ti_twice.
  rewrite (read_ti_cons (with_ti _ _) _ _ eq_refl), Done_bind, with_ti_twice.
  destruct (negb _); [done |]. destruct l as [| x7 l]; [done |].
  rewrite (read_ti_cons (with_ti _ _) _ _ eq_refl), Done_bind, with_ti_twice. done.
Qed.

Lemma read_ti_Done s r : read_ti s = Done r -> c_ti s = r.1 :: c_ti r.2 /\ c_tsc r.2 = c_tsc s.
Proof. unfold read_ti. destruct (c_ti s) as [| x l]; [done |]. by intros [= <-]. Qed.
Lemma rdtsc_Done s r : rdtsc s = Done r -> c_tsc s = r.1 :: c_tsc r.2 /\ c_ti r.2 = c_ti s.
Proof. unfold rdtsc. destruct (c_tsc s) as [| x l]; [done |]. by intros [= <-]. Qed.

Lemma pv_short fuel s t s' : pvclock_monotonic_loop (S fuel) s = Done (t, s') ->
  exists x0 x1 x2 x3 x4 x5 x6 l now lt, c_ti s = x0 :: x1 :: x2 :: x3 :: x4 :: x5 :: x6 :: l /\ c_tsc s = now :: lt.
Proof.
  cbn [pvclock_monotonic_loop]. intros H.
  apply bind_Done in H as ([x0 s0] & [E0 T0]%read_ti_Done & H). apply bind_Done in H as ([now s1] & [E1 T1]%rdtsc_Done & H).
  apply bind_Done in H as ([x1 s2] & [E2 T2]%read_ti_Done & H). apply bind_Done in H as ([x2 s3] & [E3 T3]%read_ti_Done & H).
  apply bind_Done in H as ([x3 s4] & [E4 T4]%read_ti_Done & H). apply bind_Done in H as (d & _ & H).
  apply bind_Done in H as ([x4 s5] & [E5 T5]%read_ti_Done & H). apply bind_Done in H as ([x5 s6] & [E6 T6]%read_ti_Done & H).
  apply bind_Done in H as ([x6 s7] & [E7 T7]%read_ti_Done & _). cbn [fst snd] in *.
  exists x0, x1, x2, x3, x4, x5, x6, (c_ti s7), now, (c_tsc s1). split; congruence.
Qed.

Lemma pvclock_loop_consistent fuel s t s' :
  updates_ok (c_ti s) -> pvclock_monotonic_loop fuel s = Done (t, s') ->
  exists ti now, ti ∈ c_ti s /\ now ∈ c_tsc s /\ Z.land (ti_version ti) 1 = 0 /\ pvclock_value ti now = Done t.
Proof.
  revert s. induction fuel as [| fuel IH]; intros s Hu H; [done |].
  destruct (pv_short _ _ _ _ H) as (x0 & x1 & x2 & x3 & x4 & x5 & x6 & l & now & lt & E1 & E2).
  rewrite (pv_round _ _ _ _ _ _ _ _ _ _ _ _ E1 E2) in H. unfold pv_next in H. rewrite E1 in Hu.
  apply bind_Done in H as (d & Ed & H). cbv zeta in H.
  assert (forall l', updates_ok l' -> (forall x, x ∈ l' -> x ∈ l) ->
    pvclock_monotonic_loop fuel (with_ti l' (with_tsc lt s)) = Done (t, s') ->
    exists ti now, ti ∈ c_ti s /\ now ∈ c_tsc s /\ Z.land (ti_version ti) 1 = 0 /\ pvclock_value ti now = Done t) as Hrec.
  { intros l' Hu' Hl' H'. apply IH in H' as (ti & nw & H1 & H2 & H3 & H4); [| done].
    exists ti, nw. cbn in H1, H2. rewrite E1, E2, !elem_of_cons. split; [auto 20 | auto]. }
  assert (updates_ok l) as Hul by (do 7 apply updates_ok_tail in Hu; exact Hu).
  destruct (Z.eqb_spec (Z.land (ti_version x6) 1) 0) as [Hev | _]; cbn [negb] in H; [| by apply (Hrec l)].
  destruct l as [| x7 l]; [done |].
  destruct (Z.eqb_spec (ti_version x7) (ti_version x0)) as [Hsame | _]; cbn [negb] in H.
  2: { apply (Hrec l); [by apply updates_ok_tail in Hul | intros; by right | done]. }
  destruct (eight_equal _ _ _ _ _ _ _ _ _ Hu Hsame Hev) as (-> & -> & -> & -> & -> & Hev0).
  exists x0, now. rewrite E1, E2. split; [by left |]. split; [by left |]. split; [done |].
  unfold pvclock_value. rewrite Ed, Done_bind. by injection H as <- _.
Qed.

(** The shift is read twice, for its sign and for its value: the sign changes
    between two accesses that follow each other. *)
Definition sign_change (l : list pvclock_vcpu_time_info) : Prop :=
  exists l1 x y l2, l = l1 ++ x :: y :: l2 /\ (tsc_shift x <? 0) <> (tsc_shift y <? 0).
Definition shift_range (l : list pvclock_vcpu_time_info) : Prop := Forall (fun x => -64 < tsc_shift x < 64) l.

Lemma sign_change_drop k l : sign_change (drop k l) -> sign_change l.
Proof.
  intros (l1 & x & y & l2 & E & H). exists (take k l ++ l1), x, y, l2. split; [| done].
  by rewrite <- app_assoc, <- E, take_drop.
Qed.

Lemma pvclock_shift_ok x y d : -64 < tsc_shift y < 64 ->
  (exists r, pvclock_shift (tsc_shift x <? 0) d (tsc_shift y) = Done r) \/
  (pvclock_shift (tsc_shift x <? 0) d (tsc_shift y) = Undef "shift" /\ (tsc_shift x <? 0) <> (tsc_shift y <? 0)).
Proof.
  intros H. unfold pvclock_shift. destruct (Z.ltb_spec (tsc_shift x) 0), (Z.ltb_spec (tsc_shift y) 0);
    repeat match goal with |- context [?a <=? ?b] => destruct (Z.leb_spec a b); [| try lia]
      | |- context [?a <? ?b] => destruct (Z.ltb_spec a b); [| try lia] end; cbn [andb]; eauto.
Qed.

(** The page is stable for 15 accesses from some point on, or for the next 8. *)
Definition stable_soon (x : pvclock_vcpu_time_info) (l : list pvclock_vcpu_time_info) : Prop :=
  exists l1 r, l = l1 ++ replicate 15 x ++ r \/ l = replicate 8 x ++ r.

Lemma stable_soon_drop x l k : stable_soon x l -> (forall r, l <> replicate 8 x ++ r) -> (k <= 8)%nat -> stable_soon x (drop k l).
Proof.
  intros (l1 & r & [-> | ->]) Hn Hk; [| by destruct (Hn r)].
  destruct (Nat.le_gt_cases k (length l1)).
  - exists (drop k l1), r. left. by rewrite drop_app_le.
  - destruct l1 as [| y l1]; [by destruct (Hn (replicate 7 x ++ r)) |]. cbn [length] in *.
    exists [], (replicate (15 - (k - S (length l1)) - 8) x ++ r). right.
    rewrite drop_app_ge by (cbn; lia). rewrite drop_app_le by (rewrite length_replicate; cbn; lia).
    rewrite drop_replicate, app_assoc, <- replicate_add. do 2 f_equal. cbn. lia.
Qed.

(** Once the page is left alone, the loop ends. *)
Lemma pvclock_loop_ends fuel s x :
  stable_soon x (c_ti s) -> shift_range (c_ti s) ->
  Z.land (ti_version x) 1 = 0 -> (length (c_ti s) <= length (c_tsc s))%nat -> (length (c_ti s) < fuel)%nat ->
  (exists t s', pvclock_monotonic_loop fuel s = Done (t, s')) \/
  (pvclock_monotonic_loop fuel s = Undef "shift" /\ sign_change (c_ti s)).
Proof.
  revert s. induction fuel as [| fuel IH]; intros s Hs Hsh Hev Htsc Hf; [lia |].
  assert (8 <= length (c_ti s))%nat as Hlen.
  { destruct Hs as (l & r & [-> | ->]); rewrite !length_app, ?length_replicate; lia. }
  destruct (c_ti s) as [| x0 [| x1 [| x2 [| x3 [| x4 [| x5 [| x6 [| x7 l7]]]]]]]] eqn:E1; cbn [length] in Hlen; try lia.
  destruct (c_tsc s) as [| now lt] eqn:E2; [cbn in Htsc; lia |].
  rewrite (pv_round _ _ _ _ _ _ _ _ _ _ _ _ E1 E2). unfold pv_next.
  set (whole := x0 :: x1 :: x2 :: x3 :: x4 :: x5 :: x6 :: x7 :: l7) in *.
  assert (-64 < tsc_shift x3 < 64) as H3 by (by apply (Forall_lookup_1 _ whole 3%nat x3 Hsh)).
  destruct (pvclock_shift_ok x2 x3 (wsub now (tsc_timestamp x1)) H3) as [[d ->] | [-> Hne]].
  2: { right. split; [done |]. by exists [x0; x1], x2, x3, (x4 :: x5 :: x6 :: x7 :: l7). }
  rewrite Done_bind. cbv zeta. cbn [length] in Hf, Htsc.
  assert (forall k s', c_ti s' = drop k whole -> c_tsc s' = lt -> (7 <= k <= 8)%nat -> (forall r, whole <> replicate 8 x ++ r) ->
    (exists t s2, pvclock_monotonic_loop fuel s' = Done (t, s2)) \/ (pvclock_monotonic_loop fuel s' = Undef "shift" /\ sign_change whole)) as Hrec.
  { assert (length whole = (8 + length l7)%nat) as Hwl by done.
    intros k s' Et El Hk Hn. assert (length (drop k whole) <= S (length l7))%nat by (rewrite length_drop; lia).
    destruct (IH s') as [Hd | [Hu Hch]]; rewrite ?Et, ?El; try done; try lia.
    - by apply stable_soon_drop; [| | lia].
    - by apply Forall_drop.
    - by left.
    - right. split; [done |]. rewrite Et in Hch. by eapply sign_change_drop. }
  destruct (Z.eqb_spec (Z.land (ti_version x6) 1) 0) as [He | Ho]; cbn [negb].
  - destruct (Z.eqb_spec (ti_version x7) (ti_version x0)) as [Es | Ed]; cbn [negb]; [eauto |].
    apply (Hrec 8%nat); [done | done | lia |]. intros r E. cbn in E. injection E as -> _ _ _ _ _ _ -> _. done.
  - apply (Hrec 7%nat); [done | done | lia |]. intros r E. cbn in E. injection E as _ _ _ _ _ _ -> _ _. done.
Qed.

(** C24. The hypervisor's clock is read consistently.  As long as the
    hypervisor follows its protocol (the version is odd during an update and
    grows, and shifts are less than 64 places), every time that
    [pvclock_monotonic] returns is computed from one single content of the
    shared page, with an even version, and one reading of the counter, however
    the updates fall between the accesses; and it returns as soon as the page
    has been left alone for fifteen accesses.  The one exception: an update may
    change the sign of the shift between the two accesses with which the code
    tests the sign and takes the value, and then the code shifts by a negative
    number, which is undefined ([pvclock_negative_shift]); it does not happen
    while all shifts have the same sign. *)
Theorem pvclock_consistent s x :
  updates_ok (c_ti s) -> shift_range (c_ti s) ->
  Z.land (ti_version x) 1 = 0 -> stable_soon x (c_ti s) -> (length (c_ti s) <= length (c_tsc s))%nat ->
  (exists t s' ti now, pvclock_monotonic s = Done (t, s') /\ ti ∈ c_ti s /\ now ∈ c_tsc s /\
    Z.land (ti_version ti) 1 = 0 /\ pvclock_value ti now = Done t) \/
  (pvclock_monotonic s = Undef "shift" /\ sign_change (c_ti s)).
Proof.
  intros Hu Hsh Hev Hst Htsc. unfold pvclock_monotonic.
  destruct (pvclock_loop_ends (S (length (c_ti s))) s x Hst Hsh Hev Htsc ltac:(lia)) as [(t & s' & E) | H]; [left | by right].
  destruct (pvclock_loop_consistent _ s t s' Hu E) as (ti & now & H1 & H2 & H3 & H4).
  by exists t, s', ti, now.
Qed.

(** ** Runs *)

(** The page changes in the middle of the first round. *)
Definition page_old : pvclock_vcpu_time_info := Ti 2 1000 5000 (2 ^ 31) 0.
Definition page_mid : pvclock_vcpu_time_info := Ti 3 1000 5000 (2 ^ 31) 0.
Definition page_new : pvclock_vcpu_time_info := Ti 4 3000 6000 (2 ^ 31) 0.
Definition demo_clk : clk :=
  Clk (seqZ 4000 20) [] [] ([page_old; page_old; page_mid; page_mid] ++ replicate 15 page_new) [] 0 true 0 0 0 1 0.

Lemma demo_updates : updates_ok (c_ti demo_clk).
Proof.
  assert (forall i x, c_ti demo_clk !! i = Some x -> (i < 2)%nat /\ x = page_old \/ (2 <= i < 4)%nat /\ x = page_mid \/ (4 <= i)%nat /\ x = page_new) as H.
  { intros i x Hi. do 4 (destruct i as [| i]; [injection Hi as <-; intuition lia |]).
    change (replicate 15 page_new !! i = Some x) in Hi. apply lookup_replicate in Hi as [-> _]. right. right. split; [lia | done]. }
  intros i j x y Hi%H Hj%H Hij. destruct Hi as [[? ->] | [[? ->] | [? ->]]], Hj as [[? ->] | [[? ->] | [? ->]]];
    cbn; (split; [lia | intros; done || lia]).
Qed.

Lemma pvclock_consistent_witness : exists t s' ti now,
  pvclock_monotonic demo_clk = Done (t, s') /\ ti ∈ c_ti demo_clk /\ now ∈ c_tsc demo_clk /\ pvclock_value ti now = Done t.
Proof.
  destruct (pvclock_consistent demo_clk page_new) as [(t & s' & ti & now & H1 & H2 & H3 & _ & H4) | [H _]].
  - exact demo_updates.
  - apply (bool_decide_unpack _). vm_compute. exact I.
  - reflexivity.
  - exists [page_old; page_old; page_mid; page_mid], []. left. reflexivity.
  - apply Nat.leb_le. vm_compute. reflexivity.
  - exists t, s', ti, now. split; [exact H1 |]. split; [exact H2 |]. split; [exact H3 | exact H4].
  - vm_compute in H. discriminate H.
Defined.

(** An update, from version 2 to version 4, makes the shift positive after its
    sign has been tested. *)
Example pvclock_negative_shift :
  pvclock_monotonic (Clk [4000] [] [] ([Ti 2 1000 5000 (2 ^ 31) (-1); Ti 2 1000 5000 (2 ^ 31) (-1); Ti 2 1000 5000 (2 ^ 31) (-1)] ++
    replicate 15 (Ti 4 3000 6000 (2 ^ 31) 1)) [] 0 true 0 0 0 1 0) = Undef "shift".
Proof. vm_compute. reflexivity. Qed.

(** The second round succeeds, with the new page. *)
Example demo_pvclock : match pvclock_monotonic demo_clk with Done (t, _) => Done t = pvclock_value page_new 4001 | _ => False end.
Proof. vm_compute. reflexivity. Qed.

(** A machine of 2 GHz without hypervisor clock: block for one millisecond. *)
Definition demo_tsc : clk := Clk [2000; 3000; 3100; 9999] [] [] [] [] 0 false 0 0 (2 ^ 31) 1 0.

Lemma x86_clock_bounds_witness : exists s', bmk_platform_cpu_block 1001000 demo_tsc = Done s' /\ spldepth s' = 1 /\ c_out s' <> [].
Proof.
  eexists. split; [vm_compute; reflexivity |]. split; [| discriminate].
  eapply (x86_clock_bounds 5 5 1001000 demo_tsc 1000);
    [split; [lia | reflexivity] | lia | lia | lia | vm_compute; reflexivity | vm_compute; reflexivity].
Defined.

(** The counter's clock never goes back and loses less than a nanosecond per
    reading. *)
Lemma tscclock_step s now rest :
  c_tsc s = now :: rest -> tsc_base s <= now -> u64 now -> 0 <= tsc_base s -> 0 <= tsc_mult s < 2 ^ 32 ->
  0 <= time_base s -> time_base s + now < 2 ^ 63 ->
  exists t, tscclock_monotonic s = Done (t, with_base t now (with_tsc rest s)) /\ time_base s <= t /\
    (t - time_base s) * 2 ^ 32 <= (now - tsc_base s) * tsc_mult s < (t - time_base s + 1) * 2 ^ 32.
Proof.
  intros E Hle Hn Hb Hm Ht Hend. unfold tscclock_monotonic, rdtsc. rewrite E, Done_bind. cbn [tsc_base tsc_mult time_base with_tsc].
  rewrite wsub_small by (unfold u64 in *; lia). rewrite mul64_32_exact by (unfold u64 in *; lia).
  set (p := (now - tsc_base s) * tsc_mult s).
  assert (0 <= p <= (now - tsc_base s) * 2 ^ 32) as Hp by (unfold p; split; [nia | nia]).
  pose proof (Z.div_mod p (2 ^ 32) ltac:(lia)) as Ed. pose proof (Z.mod_pos_bound p (2 ^ 32) ltac:(lia)) as Hmod.
  assert (0 <= p / 2 ^ 32 <= now - tsc_base s) as Hq
    by (split; [apply Z.div_pos; lia | apply Z.div_le_upper_bound; lia]).
  rewrite s64_small by lia. eexists. split; [done |]. lia.
Qed.

(** The bit that should disable the NMI does not fit into the byte written. *)
Example rtc_nmi_not_disabled : c_out (outb RTC_COMMAND (Z.lor RTC_SEC RTC_NMI_DISABLE) demo_tsc) = [(RTC_COMMAND, RTC_SEC)].
Proof. reflexivity. Qed.

(** At 1 GHz the multiplier does not fit into its 32 bits. *)
Example tsc_mult_overflow : wrap32 (Z.shiftl NSEC_PER_SEC 32 / 1000000000) = 0.
Proof. reflexivity. Qed.
