(* ===== verification/Intr.v ===== *)
(** * Interrupts of the hardware platform (platform/hw/intr.c, arch/x86/cpu_subr.c)

    Interrupts are noted in [isr_todo] and delivered to the rump kernel by a
    thread.  The thread's code is cut into the steps between which an interrupt
    may arrive; where the code runs at [splhigh], none does.  Handlers belong
    to the rump kernel: calling one is recorded in the log. *)

From S2P Require Import Prelude.

Definition BMK_MAXINTR : Z := 32.
Definition INTR_LEVELS : nat := 33.
Definition INTR_ROUTED : Z := BMK_MAXINTR.
Definition INTR_ROUTED_NOIDEA : Z := 0.
Definition INTR_ROUTED_YES : Z := 1.
Definition INTR_ROUTED_NO : Z := 2.
Definition BMK_INTR_ROUTED : Z := 1.
Definition BMK_EGENERIC : Z := 22.

(** [ih_fun] and [ih_arg]. *)
Abbreviation intrhand := (Z * Z)%type.

(** What the outside sees. *)
Inductive ilog :=
  | Registered (intr : Z) (h : intrhand)
  | Raised (which : Z)
  | Called (h : intrhand)
  | Acked (intrs : Z)
  | Serial.

(** Where the interrupt thread is: before its first round, at the top of the
    loop, in the scan with the interrupts left, the next one to look at and the
    handlers still to call, after the scan, or blocked. *)
Inductive ipc :=
  | PStart
  | PTop
  | PRun (isrcopy i : Z) (hs : list intrhand)
  | PTail
  | PBlock (woken : bool).

Record intr_state := Intr {
  isr_ih : list (list intrhand);
  isr_routed : list Z;
  isr_todo : Z;
  isr_lowest : Z;
  pic1mask : Z;
  pic2mask : Z;
  gates : list Z;      (** interrupts with a gate of their own *)
  isr_thread : ipc;
  totwork : Z;
  ilogged : list ilog
}.

Definition with_thread (p : ipc) (s : intr_state) : intr_state :=
  Intr (isr_ih s) (isr_routed s) (isr_todo s) (isr_lowest s) (pic1mask s) (pic2mask s) (gates s) p (totwork s) (ilogged s).
Definition with_todo (n : Z) (s : intr_state) : intr_state :=
  Intr (isr_ih s) (isr_routed s) n (isr_lowest s) (pic1mask s) (pic2mask s) (gates s) (isr_thread s) (totwork s) (ilogged s).
Definition with_totwork (n : Z) (s : intr_state) : intr_state :=
  Intr (isr_ih s) (isr_routed s) (isr_todo s) (isr_lowest s) (pic1mask s) (pic2mask s) (gates s) (isr_thread s) n (ilogged s).
Definition log (e : ilog) (s : intr_state) : intr_state :=
  Intr (isr_ih s) (isr_routed s) (isr_todo s) (isr_lowest s) (pic1mask s) (pic2mask s) (gates s) (isr_thread s) (totwork s)
    (ilogged s ++ [e]).
Definition with_masks (m1 m2 : Z) (s : intr_state) : intr_state :=
  Intr (isr_ih s) (isr_routed s) (isr_todo s) (isr_lowest s) m1 m2 (gates s) (isr_thread s) (totwork s) (ilogged s).
Definition with_gate (n : Z) (s : intr_state) : intr_state :=
  Intr (isr_ih s) (isr_routed s) (isr_todo s) (isr_lowest s) (pic1mask s) (pic2mask s) (n :: gates s) (isr_thread s) (totwork s) (ilogged s).
Definition with_routed (i v : Z) (s : intr_state) : intr_state :=
  Intr (isr_ih s) (<[Z.to_nat i := v]> (isr_routed s)) (isr_todo s) (isr_lowest s) (pic1mask s) (pic2mask s) (gates s) (isr_thread s) (totwork s) (ilogged s).

(** Whether BMK_SCREW_INTERRUPT_ROUTING is defined. *)
Section Config.
  Context (screw : bool).

Definition routeintr (i : Z) : Z := if screw then INTR_ROUTED else i.

(** ** The interrupt controller *)

Definition bit_clear (m i : Z) : Z := Z.land m (Z.lnot (Z.shiftl 1 i)).

Definition cpu_intr_init (intr : Z) (s : intr_state) : Z * intr_state :=
  if 15 <? intr then (BMK_EGENERIC, s)
  else if bool_decide (intr ∈ [5; 4; 9; 10; 11; 14; 15]) then
    let s := with_gate (32 + intr) s in
    (0, if intr <? 8 then with_masks (bit_clear (pic1mask s) intr) (pic2mask s) s
        else with_masks (pic1mask s) (bit_clear (pic2mask s) (intr - 8)) s)
  else (BMK_EGENERIC, s).

Definition cpu_intr_ack (intrs : Z) (s : intr_state) : intr_state := log (Acked intrs) s.

(** ** Registering a handler *)

Definition routed_at (s : intr_state) (i : Z) : outcome Z := of_option "isr_routed[i]" (isr_routed s !! Z.to_nat i).
Definition handlers_at (s : intr_state) (i : Z) : outcome (list intrhand) := of_option "isr_ih[i]" (isr_ih s !! Z.to_nat i).

(** [SLIST_INSERT_HEAD(&isr_ih[routedintr], ih)], and [isr_lowest]. *)
Definition add_handler (intr routedintr : Z) (h : intrhand) (s : intr_state) : outcome intr_state :=
  hs ← handlers_at s routedintr;
  Done (Intr (<[Z.to_nat routedintr := h :: hs]> (isr_ih s)) (isr_routed s) (isr_todo s)
          (if intr <? isr_lowest s then intr else isr_lowest s)
          (pic1mask s) (pic2mask s) (gates s) (isr_thread s) (totwork s) (ilogged s ++ [Registered intr h])).

(** [ok] is whether the allocation succeeds.  [intr] is an [int], compared
    with an unsigned value first. *)
Definition bmk_isr_rumpkernel (h : intrhand) (intr flags : Z) (ok : bool) (s : intr_state) : outcome intr_state :=
  if (32 <? wrap64 intr) || (BMK_MAXINTR <? intr) then Halt "bmk_isr_rumpkernel: intr"
  else if negb (Z.land flags (Z.lnot BMK_INTR_ROUTED) =? 0) then Halt "bmk_isr_rumpkernel: flags"
  else if negb ok then Halt "bmk_isr_rumpkernel: xmalloc"
  else
    let '(icheck, routedintr) :=
      if negb (Z.land flags BMK_INTR_ROUTED =? 0) then (INTR_ROUTED_YES, routeintr intr) else (INTR_ROUTED_NO, intr) in
    r ← routed_at s intr;
    let s := if r =? INTR_ROUTED_NOIDEA then with_routed intr icheck s else s in
    r ← routed_at s intr;
    if negb (r =? icheck) then Halt "bmk_isr_rumpkernel: routed intr mismatch"
    else
      let '(error, s) := cpu_intr_init intr s in
      if negb (error =? 0) then Halt "bmk_isr_rumpkernel: cpu_intr_init"
      else add_handler intr routedintr h s.

(** ** An interrupt *)

(** [bmk_sched_wake(isr_thread)]. *)
Definition wake_thread (s : intr_state) : intr_state :=
  match isr_thread s with PBlock _ => with_thread (PBlock true) s | _ => s end.

(** The log has the interrupts as they arrive. *)
Definition isr (which : Z) (s : intr_state) : intr_state :=
  let s := log (Raised which) s in
  let '(which, s) :=
    if negb (Z.land which (Z.shiftl 1 4) =? 0)
    then (bit_clear which 4, cpu_intr_ack (Z.shiftl 1 4) (log Serial s))
    else (which, s) in
  let s := with_todo (Z.lor (isr_todo s) which) s in
  if isr_todo s =? 0 then s else wake_thread s.

(** ** The interrupt thread *)

Definition doisr (s : intr_state) : outcome intr_state :=
  match isr_thread s with
  | PStart => Done (with_thread PTop s)
  | PTop =>
      let isrcopy := isr_todo s in
      Done (with_thread (PRun isrcopy (isr_lowest s) [])
              (with_totwork (Z.lor (totwork s) isrcopy) (with_todo 0 s)))
  | PRun isrcopy i (h :: hs) => Done (log (Called h) (with_thread (PRun isrcopy i hs) s))
  | PRun isrcopy i [] =>
      if isrcopy =? 0 then Done (with_thread PTail s)
      else
        _ ← bmk_assert (i <? 32) "i < sizeof(isrcopy)*8";
        if Z.land isrcopy (Z.shiftl 1 i) =? 0 then Done (with_thread (PRun isrcopy (i + 1) []) s)
        else
          let isrcopy := bit_clear isrcopy i in
          r ← routed_at s i;
          let i := if r =? INTR_ROUTED_YES then routeintr i else i in
          hs ← handlers_at s i;
          Done (with_thread (PRun isrcopy (i + 1) hs) s)
  | PTail =>
      if negb (isr_todo s =? 0) then Done (with_thread PTop s)
      else Done (with_thread (PBlock false) (cpu_intr_ack (totwork s) s))
  | PBlock true => Done (with_thread PTop (with_totwork 0 s))
  | PBlock false => Undef "blocked thread"
  end.

Definition intr_init : intr_state :=
  Intr (replicate INTR_LEVELS []) (replicate INTR_LEVELS INTR_ROUTED_NOIDEA) 0 32
    (Z.land 255 (Z.lnot (Z.shiftl 1 2))) 255 [] PStart 0 [].

(** ** The machine *)

Inductive ievent :=
  | IRegister (h : intrhand) (intr flags : Z)
  | IRaise (which : Z)
  | IThread.

Definition istep (e : ievent) (s : intr_state) : outcome intr_state :=
  match e with
  | IRegister h intr flags => bmk_isr_rumpkernel h intr flags true s
  | IRaise which => Done (isr which s)
  | IThread => doisr s
  end.

(** The thread runs at [splhigh] around its looks at [isr_todo]. *)
Definition irq_enabled (s : intr_state) : bool :=
  match isr_thread s with PRun _ _ _ | PBlock _ => true | _ => false end.

(** With BMK_SCREW_INTERRUPT_ROUTING a routed line must be the highest line in
    use, see [screwed_routing_halts]. *)
Definition route_ok (intr flags : Z) (s : intr_state) : Prop :=
  screw = true -> forall b h, Registered b h ∈ ilogged s -> b <> intr ->
    (flags = 1 -> b < intr) /\ (isr_routed s !! Z.to_nat b = Some INTR_ROUTED_YES -> intr < b).

(** A line is registered with the same routing each time, and only lines with
    a handler raise interrupts, line 4 of the serial port apart. *)
Definition ivalid (e : ievent) (s : intr_state) : Prop :=
  match e with
  | IRegister h intr flags =>
      intr ∈ [4; 5; 9; 10; 11; 14; 15] /\ (flags = 0 \/ flags = 1) /\ route_ok intr flags s /\
      exists r, isr_routed s !! Z.to_nat intr = Some r /\
        (r = INTR_ROUTED_NOIDEA \/ r = if flags =? 1 then INTR_ROUTED_YES else INTR_ROUTED_NO)
  | IRaise which =>
      irq_enabled s = true /\ 0 <= which < 2 ^ 32 /\
      forall b, 0 <= b -> b <> 4 -> Z.testbit which b = true -> exists h, Registered b h ∈ ilogged s
  | IThread => isr_thread s <> PBlock false
  end.

Inductive ireach : intr_state -> Prop :=
  | ireach_init : ireach intr_init
  | ireach_step e s s' : ireach s -> ivalid e s -> istep e s = Done s' -> ireach s'.
End Config.

(** * Interrupt delivery: nothing is lost, nothing fails *)


(** ** Bits *)

Lemma bit_clear_spec m i b : 0 <= i -> 0 <= b -> Z.testbit (bit_clear m i) b = Z.testbit m b && negb (i =? b).
Proof.
  intros Hi Hb. unfold bit_clear. rewrite Z.land_spec, Z.lnot_spec, Z.shiftl_1_l, Z.pow2_bits_eqb by lia. done.
Qed.

Lemma testbit_high c b : 0 <= c < 2 ^ 32 -> Z.testbit c b = true -> b < 32.
Proof.
  intros Hc Hb. destruct (Z.lt_ge_cases b 32); [done |]. exfalso.
  destruct (decide (c = 0)) as [-> |]; [by rewrite Z.bits_0 in Hb |].
  rewrite Z.bits_above_log2 in Hb; [done | lia |]. apply Z.lt_le_trans with 32; [| done].
  apply Z.log2_lt_pow2; lia.
Qed.

(** A number whose bits all lie below 32. *)
Lemma bits_range x : (forall b, 32 <= b -> Z.testbit x b = false) -> 0 <= x < 2 ^ 32.
Proof.
  intros H. assert (x mod 2 ^ 32 = x) as E; [| rewrite <- E; apply Z.mod_pos_bound; lia].
  apply Z.bits_inj'. intros b Hb. destruct (Z.lt_ge_cases b 32).
  - by apply Z.mod_pow2_bits_low.
  - rewrite Z.mod_pow2_bits_high by lia. symmetry. by apply H.
Qed.

Lemma bits_above m b : 0 <= m < 2 ^ 32 -> 32 <= b -> Z.testbit m b = false.
Proof. intros Hm Hb. destruct (Z.testbit m b) eqn:E; [| done]. pose proof (testbit_high m b Hm E). lia. Qed.

Lemma bit_clear_range m i : 0 <= i -> 0 <= m < 2 ^ 32 -> 0 <= bit_clear m i < 2 ^ 32.
Proof. intros Hi Hm. apply bits_range. intros b Hb. rewrite bit_clear_spec, bits_above by lia. done. Qed.

Lemma lor_range m n : 0 <= m < 2 ^ 32 -> 0 <= n < 2 ^ 32 -> 0 <= Z.lor m n < 2 ^ 32.
Proof. intros Hm Hn. apply bits_range. intros b Hb. by rewrite Z.lor_spec, !bits_above by lia. Qed.

Lemma shift_land_bit c i : 0 <= i -> (Z.land c (Z.shiftl 1 i) =? 0) = negb (Z.testbit c i).
Proof. intros Hi. rewrite Z.shiftl_1_l. by apply land_pow2_eqb. Qed.

Lemma bits_zero c : 0 <= c -> (forall b, 0 <= b -> Z.testbit c b = false) -> c = 0.
Proof. intros Hc H. apply Z.bits_inj'. intros b Hb. rewrite Z.bits_0. by apply H. Qed.

(** ** The invariant *)

Section Screw.
Context (screw : bool).

(** The list a handler is on. *)
Definition slot (r b : Z) : nat := Z.to_nat (if r =? INTR_ROUTED_YES then routeintr screw b else b).

(** The handler [h] of interrupt [b] is still to be called. *)
Definition pending (s : intr_state) (b : Z) (h : intrhand) : Prop :=
  Z.testbit (isr_todo s) b = true \/
  match isr_thread s with PRun c i hs => Z.testbit c b = true \/ h ∈ hs | _ => False end.

Definition delivered (s : intr_state) : Prop :=
  forall l1 w l2 b h, ilogged s = l1 ++ Raised w :: l2 -> 0 <= b -> b <> 4 -> Z.testbit w b = true ->
    Registered b h ∈ l1 -> Called h ∈ l2 \/ pending s b h.

(** A line whose interrupts the thread handles. *)
Definition line (l : list ilog) (b : Z) : Prop := b <> 4 /\ exists h, Registered b h ∈ l.
Definition known (l : list ilog) (h : intrhand) : Prop := exists b, b <> 4 /\ Registered b h ∈ l.

Definition thread_ok (l : list ilog) (todo : Z) (q : ipc) : Prop :=
  match q with
  | PRun c i hs => 0 <= c < 2 ^ 32 /\ 0 <= i /\
      (forall b, 0 <= b -> Z.testbit c b = true -> i <= b /\ line l b) /\ (forall h, h ∈ hs -> known l h)
  | PBlock false => todo = 0
  | _ => True
  end.

Record iinv (s : intr_state) : Prop := {
  ii_ih : length (isr_ih s) = 33%nat;
  ii_routed : length (isr_routed s) = 33%nat;
  ii_lowest : 0 <= isr_lowest s <= 32;
  ii_todo : 0 <= isr_todo s < 2 ^ 32 /\ forall b, 0 <= b -> Z.testbit (isr_todo s) b = true -> line (ilogged s) b;
  ii_thread : thread_ok (ilogged s) (isr_todo s) (isr_thread s);
  ii_reg : forall b h, Registered b h ∈ ilogged s -> 4 <= b <= 15 /\ isr_lowest s <= b /\
    exists r hs, isr_routed s !! Z.to_nat b = Some r /\ r <> INTR_ROUTED_NOIDEA /\
      isr_ih s !! slot r b = Some hs /\ h ∈ hs;
  ii_only : forall k hs h, isr_ih s !! k = Some hs -> h ∈ hs ->
    exists b r, Registered b h ∈ ilogged s /\ isr_routed s !! Z.to_nat b = Some r /\ slot r b = k;
  ii_top : screw = true -> forall b h b' h', Registered b h ∈ ilogged s -> Registered b' h' ∈ ilogged s -> b <> b' ->
    isr_routed s !! Z.to_nat b = Some INTR_ROUTED_YES -> b' < b;
  ii_called : forall h, Called h ∈ ilogged s -> known (ilogged s) h;
  ii_delivered : delivered s
}.

Lemma app_Raised (l l1 l2 : list ilog) w e :
  l ++ [e] = l1 ++ Raised w :: l2 ->
  (e = Raised w /\ l1 = l /\ l2 = []) \/ (exists l3, l2 = l3 ++ [e] /\ l = l1 ++ Raised w :: l3).
Proof.
  intros E. destruct l2 as [| x l2 _] using rev_ind.
  - left. apply app_inj_tail in E as [-> <-]. done.
  - right. rewrite app_comm_cons, app_assoc in E. apply app_inj_tail in E as [-> ->]. by exists l2.
Qed.

(** A log entry other than a raised interrupt. *)
Lemma delivered_log s s' e :
  delivered s -> ilogged s' = ilogged s ++ [e] -> (forall w, e <> Raised w) ->
  (forall b h, pending s b h -> pending s' b h \/ e = Called h) -> delivered s'.
Proof.
  intros Hd El He Hp l1 w l2 b h E Hb H4 Hw Hr. rewrite El in E.
  destruct (app_Raised _ _ _ _ _ E) as [(-> & _) | (l3 & -> & E')]; [by destruct (He w) |].
  destruct (Hd l1 w l3 b h E' Hb H4 Hw Hr) as [Hc | Hc]; [left; rewrite elem_of_app; by left |].
  destruct (Hp b h Hc) as [? | ->]; [by right | left]. rewrite elem_of_app. right. by left.
Qed.

Lemma delivered_same s s' :
  delivered s -> ilogged s' = ilogged s ->
  (forall b h, 0 <= b -> Registered b h ∈ ilogged s -> pending s b h -> pending s' b h) -> delivered s'.
Proof.
  intros Hd El Hp l1 w l2 b h E Hb H4 Hw Hr. rewrite El in E.
  destruct (Hd l1 w l2 b h E Hb H4 Hw Hr) as [? | ?]; [by left | right]. apply Hp; [done | | done].
  rewrite E, elem_of_app. by left.
Qed.

Lemma reg_log (l : list ilog) e b h :
  (forall i h, e <> Registered i h) -> Registered b h ∈ l ++ [e] -> Registered b h ∈ l.
Proof.
  intros He H. apply elem_of_app in H as [H | H]; [done |].
  apply list_elem_of_singleton in H. by destruct (He b h).
Qed.

Lemma known_app l l' h : known l h -> known (l ++ l') h.
Proof. intros (b & Hb & H). exists b. split; [done |]. rewrite elem_of_app. by left. Qed.
Lemma line_app l l' b : line l b -> line (l ++ l') b.
Proof. intros (Hb & h & H). split; [done |]. exists h. rewrite elem_of_app. by left. Qed.
Lemma thread_ok_app l l' todo q : thread_ok l todo q -> thread_ok (l ++ l') todo q.
Proof.
  destruct q as [| | c i hs | |]; try done. intros (? & ? & Hb & Hh). split; [done |]. split; [done |]. split.
  - intros b Hb0 Hb1. destruct (Hb b Hb0 Hb1). split; [done | by apply line_app].
  - intros h Hin. by apply known_app, Hh.
Qed.

(** A step that changes neither handlers nor the registrations in the log. *)
Lemma iinv_keep s s' l : iinv s -> isr_ih s' = isr_ih s -> isr_routed s' = isr_routed s -> isr_lowest s' = isr_lowest s ->
  ilogged s' = ilogged s ++ l -> (forall b h, Registered b h ∉ l) -> (forall h, Called h ∈ l -> known (ilogged s) h) ->
  (0 <= isr_todo s' < 2 ^ 32 /\ forall b, 0 <= b -> Z.testbit (isr_todo s') b = true -> line (ilogged s) b) ->
  thread_ok (ilogged s) (isr_todo s') (isr_thread s') -> delivered s' -> iinv s'.
Proof.
  intros [H1 H2 H3 H4 H5 H6 H7 H8 H9 _] E1 E2 E3 El Hl Hc [Ht Ht'] Hth Hd.
  assert (forall b h, Registered b h ∈ ilogged s' <-> Registered b h ∈ ilogged s) as Hr.
  { intros b h. rewrite El, elem_of_app. split; [| by left]. intros [? | H]; [done | by apply Hl in H]. }
  split; rewrite ?E1, ?E2, ?E3; try done.
  - split; [done |]. intros b Hb Hb'. rewrite El. by apply line_app, Ht'.
  - rewrite El. by apply thread_ok_app.
  - intros b h Hb. by apply H6, Hr.
  - intros k hs h Hk Hh. destruct (H7 k hs h Hk Hh) as (b & r & ? & ?). exists b, r. by rewrite Hr.
  - intros Hs b h b' h' Hb Hb'. apply Hr in Hb, Hb'. by apply (H8 Hs b h b' h').
  - intros h. rewrite El, elem_of_app. intros [Hh | Hh]; apply known_app; [by apply H9 | by apply Hc].
Qed.

(** ** Registration *)

Lemma slot_lt r b : 4 <= b <= 15 -> (slot r b < 33)%nat.
Proof. intros Hb. unfold slot, routeintr, INTR_ROUTED, BMK_MAXINTR. destruct (_ =? _), screw; lia. Qed.

(** What a registration leaves of the state but for the log. *)
Lemma register_runs h intr flags s :
  iinv s -> ivalid screw (IRegister h intr flags) s ->
  exists s' icheck hs, bmk_isr_rumpkernel screw h intr flags true s = Done s' /\
    icheck <> INTR_ROUTED_NOIDEA /\ (icheck = INTR_ROUTED_YES <-> flags = 1) /\ 4 <= intr <= 15 /\
    (exists r, isr_routed s !! Z.to_nat intr = Some r /\ (r = INTR_ROUTED_NOIDEA \/ r = icheck)) /\
    isr_routed s' = <[Z.to_nat intr := icheck]> (isr_routed s) /\
    isr_ih s !! slot icheck intr = Some hs /\ isr_ih s' = <[slot icheck intr := h :: hs]> (isr_ih s) /\
    isr_lowest s' = Z.min intr (isr_lowest s) /\ isr_todo s' = isr_todo s /\ isr_thread s' = isr_thread s /\
    ilogged s' = ilogged s ++ [Registered intr h].
Proof.
  intros Hinv (Hin & Hfl & _ & r & Hr & Hrc). unfold bmk_isr_rumpkernel.
  assert (4 <= intr <= 15) as Hi by (repeat (apply elem_of_cons in Hin as [-> | Hin]; [lia |]); by apply elem_of_nil in Hin).
  rewrite wrap64_small by (unfold u64, W64; lia).
  destruct (Z.ltb_spec 32 intr); [lia |]. destruct (Z.ltb_spec BMK_MAXINTR intr); [unfold BMK_MAXINTR in *; lia |].
  assert (Z.land flags (Z.lnot BMK_INTR_ROUTED) = 0) as -> by (destruct Hfl as [-> | ->]; done).
  set (icheck := if flags =? 1 then INTR_ROUTED_YES else INTR_ROUTED_NO) in *.
  assert ((if negb (Z.land flags BMK_INTR_ROUTED =? 0) then (INTR_ROUTED_YES, routeintr screw intr)
           else (INTR_ROUTED_NO, intr)) = (icheck, if icheck =? INTR_ROUTED_YES then routeintr screw intr else intr)) as ->
    by (unfold icheck; destruct Hfl as [-> | ->]; done).
  cbn [orb negb Z.eqb]. unfold routed_at. rewrite Hr, of_option_Some, Done_bind.
  set (s1 := if r =? INTR_ROUTED_NOIDEA then with_routed intr icheck s else s).
  pose proof (ii_ih _ Hinv) as Hih. pose proof (ii_routed _ Hinv) as Hro.
  assert (isr_routed s1 = <[Z.to_nat intr := icheck]> (isr_routed s) /\
    isr_ih s1 = isr_ih s /\ isr_todo s1 = isr_todo s /\ isr_lowest s1 = isr_lowest s /\
    isr_thread s1 = isr_thread s /\ ilogged s1 = ilogged s) as (E1 & E3 & E4 & E5 & E6 & E7).
  { unfold s1. destruct (Z.eqb_spec r INTR_ROUTED_NOIDEA) as [-> |]; [done |].
    split; [| done]. rewrite list_insert_id; [done |]. destruct Hrc; congruence. }
  rewrite E1, list_lookup_insert_eq, of_option_Some, Done_bind, Z.eqb_refl by lia. cbn [negb].
  assert (exists s2, cpu_intr_init intr s1 = (0, s2) /\ isr_routed s2 = isr_routed s1 /\ isr_ih s2 = isr_ih s1 /\
    isr_todo s2 = isr_todo s1 /\ isr_lowest s2 = isr_lowest s1 /\ isr_thread s2 = isr_thread s1 /\
    ilogged s2 = ilogged s1) as (s2 & -> & F1 & F2 & F3 & F4 & F5 & F6).
  { unfold cpu_intr_init. destruct (Z.ltb_spec 15 intr); [lia |]. rewrite bool_decide_true by set_solver.
    destruct (intr <? 8); eexists; (split; [done |]); done. }
  cbn [Z.eqb negb]. unfold add_handler, handlers_at. rewrite F2, E3.
  change (Z.to_nat (if icheck =? INTR_ROUTED_YES then routeintr screw intr else intr)) with (slot icheck intr).
  destruct (lookup_lt_is_Some_2 (isr_ih s) (slot icheck intr)) as [hs Hhs]; [rewrite Hih; by apply slot_lt |].
  rewrite Hhs, of_option_Some, Done_bind. eexists _, icheck, hs. split; [done |].
  cbn [isr_ih isr_routed isr_todo isr_lowest isr_thread ilogged]. rewrite F1, F3, F4, F5, F6, E1, E4, E5, E6, E7.
  split_and!; try done.
  - unfold icheck. by destruct (flags =? 1).
  - unfold icheck. by destruct Hfl as [-> | ->].
  - lia.
  - lia.
  - by exists r.
  - destruct (Z.ltb_spec intr (isr_lowest s)); lia.
Qed.

Lemma register_ok h intr flags s :
  iinv s -> ivalid screw (IRegister h intr flags) s ->
  exists s', bmk_isr_rumpkernel screw h intr flags true s = Done s' /\ iinv s'.
Proof.
  intros Hinv Hv. destruct (register_runs h intr flags s Hinv Hv)
    as (s' & ic & hs & E & Hic & Hfl & Hi & (r0 & Hr0 & Hr0') & Er & Hhs & Eh & El & Et & Eth & Elog). exists s'. split; [done |].
  destruct Hv as (_ & _ & Hroute & _). pose proof Hinv as [H1 H2 H3 [H4 H4'] H5 H6 H7 H8 H9 Hd].
  assert (forall b r, r <> INTR_ROUTED_NOIDEA -> isr_routed s !! Z.to_nat b = Some r -> isr_routed s' !! Z.to_nat b = Some r) as Hkeep.
  { intros b r Hn Hb. rewrite Er. destruct (decide (Z.to_nat intr = Z.to_nat b)) as [Eb |]; [| by rewrite list_lookup_insert_ne].
    rewrite <- Eb in *. rewrite list_lookup_insert_eq by lia. destruct Hr0'; congruence. }
  assert (isr_routed s' !! Z.to_nat intr = Some ic) as Hnew by (rewrite Er; apply list_lookup_insert_eq; lia).
  assert (forall b h', Registered b h' ∈ ilogged s' <-> Registered b h' ∈ ilogged s \/ (b = intr /\ h' = h)) as Hreg.
  { intros b h'. rewrite Elog, elem_of_app, list_elem_of_singleton. split; intros [? | X]; [by left | right; by injection X | by left |].
    right. by destruct X as [-> ->]. }
  assert (forall k hs', isr_ih s !! k = Some hs' -> exists hs'', isr_ih s' !! k = Some hs'' /\ forall x, x ∈ hs' -> x ∈ hs'') as Hmore.
  { intros k hs' Hk. rewrite Eh. destruct (decide (slot ic intr = k)) as [<- |]; [| rewrite list_lookup_insert_ne by done; eauto].
    rewrite list_lookup_insert_eq by (rewrite H1; by apply slot_lt). eexists. split; [done |]. intros x Hx. right. congruence. }
  split; rewrite ?Et, ?Eth, ?Elog.
  - by rewrite Eh, length_insert.
  - by rewrite Er, length_insert.
  - lia.
  - split; [done |]. intros b Hb Hb'. by apply line_app, H4'.
  - by apply thread_ok_app.
  - rewrite <- Elog. intros b h' Hb. apply Hreg in Hb as [Hb | [-> ->]].
    + destruct (H6 b h' Hb) as (? & ? & r & hs' & Hr & Hn & Hk & Hin). split; [done |]. split; [lia |].
      destruct (Hmore _ _ Hk) as (hs'' & ? & Hx). exists r, hs''. split_and!; [by apply Hkeep | done | done | by apply Hx].
    + split; [done |]. split; [lia |]. exists ic, (h :: hs). split_and!; [done | done | | by left].
      rewrite Eh. apply list_lookup_insert_eq. rewrite H1. by apply slot_lt.
  - rewrite <- Elog. intros k hs' h'. rewrite Eh. intros Hk Hin. apply list_lookup_insert_Some in Hk as [(<- & <- & _) | (Hne & Hk)].
    + apply elem_of_cons in Hin as [-> | Hin]; [exists intr, ic; rewrite Hreg; auto |].
      destruct (H7 _ _ _ Hhs Hin) as (b & r & Hb & Hr & Es). exists b, r. rewrite Hreg.
      destruct (H6 b h' Hb) as (_ & _ & r' & _ & Hr' & Hn & _). split_and!; [by left | apply Hkeep; congruence | done].
    + destruct (H7 _ _ _ Hk Hin) as (b & r & Hb & Hr & Es). exists b, r. rewrite Hreg.
      destruct (H6 b h' Hb) as (_ & _ & r' & _ & Hr' & Hn & _). split_and!; [by left | apply Hkeep; congruence | done].
  - rewrite <- Elog. intros Hs b h1 b' h2 Hb Hb' Hne Hy. apply Hreg in Hb, Hb'.
    assert (forall x y, Registered x y ∈ ilogged s -> isr_routed s' !! Z.to_nat x = Some INTR_ROUTED_YES ->
      isr_routed s !! Z.to_nat x = Some INTR_ROUTED_YES) as Hback.
    { intros x y Hx Hxy. destruct (H6 x y Hx) as (_ & _ & r' & _ & Hr' & Hn & _). rewrite (Hkeep x r' Hn Hr') in Hxy. congruence. }
    destruct Hb as [Hb | [-> ->]], Hb' as [Hb' | [-> ->]]; [| | | done].
    + apply (H8 Hs b h1 b' h2); try done. by eapply Hback.
    + apply (Hroute Hs b h1 Hb Hne). by eapply Hback.
    + apply (Hroute Hs b' h2 Hb'); [done |]. apply Hfl. congruence.
  - intros h'. rewrite elem_of_app, list_elem_of_singleton. intros [Hh | Hh]; [| done]. by apply known_app, H9.
  - eapply delivered_log; [exact Hd | exact Elog | done |]. intros b h' Hp. left. unfold pending in *. by rewrite Et, Eth.
Qed.

(** ** An interrupt *)

Lemma raise_ok which s :
  iinv s -> ivalid screw (IRaise which) s -> iinv (isr which s).
Proof.
  intros Hinv (Hen & Hw & Hhs). pose proof Hinv as [H1 H2 H3 [H4 H4'] H5 H6 H7 H8 H9 Hd]. unfold isr. cbv zeta.
  rewrite shift_land_bit by lia. rewrite negb_involutive.
  set (p := if Z.testbit which 4 then _ else _). destruct p as [w s1] eqn:Ep.
  assert (0 <= w < 2 ^ 32 /\ forall b, 0 <= b -> Z.testbit w b = Z.testbit which b && negb (4 =? b)) as [Hwr Hwb].
  { unfold p in Ep. destruct (Z.testbit which 4) eqn:E4; injection Ep as <- _.
    - split; [by apply bit_clear_range; [lia |] |]. intros b Hb. by apply bit_clear_spec.
    - split; [done |]. intros b Hb. destruct (Z.eqb_spec 4 b) as [<- |]; [by rewrite E4 | by rewrite andb_true_r]. }
  assert (isr_ih s1 = isr_ih s /\ isr_routed s1 = isr_routed s /\ isr_todo s1 = isr_todo s /\
    isr_lowest s1 = isr_lowest s /\ isr_thread s1 = isr_thread s /\
    exists l, ilogged s1 = ilogged s ++ Raised which :: l /\ (l = [] \/ l = [Serial; Acked (Z.shiftl 1 4)]))
    as (E1 & E2 & E3 & E4 & E5 & l & E6 & Hl).
  { unfold p in Ep. destruct (Z.testbit which 4); injection Ep as _ <-; do 5 (split; [done |]); [exists [Serial; Acked (Z.shiftl 1 4)] | exists []]; (split; [| by auto]); [| done].
    cbn. by rewrite <- !app_assoc. }
  clearbody p. clear p Ep.
  set (todo := Z.lor (isr_todo s1) w).
  assert (0 <= todo < 2 ^ 32 /\ forall b, 0 <= b -> Z.testbit todo b = true -> line (ilogged s) b) as Htodo.
  { unfold todo. rewrite E3. split; [by apply lor_range |]. intros b Hb Hb'. rewrite Z.lor_spec in Hb'.
    apply orb_true_iff in Hb' as [Hb' | Hb']; [by apply H4' |]. rewrite Hwb in Hb' by done.
    apply andb_true_iff in Hb' as [Hb' Hn%negb_true_iff%Z.eqb_neq]. split; [lia |]. apply Hhs; [done | lia | done]. }
  assert (forall q, (q = isr_thread s \/ (exists o, isr_thread s = PBlock o) /\ q = PBlock true) ->
    (todo = 0 -> isr_todo s = 0) -> (todo <> 0 -> q <> PBlock false) -> iinv (with_thread q (with_todo todo s1))) as Hgoal.
  { intros q Hq Hz Hwk. apply (iinv_keep s _ (Raised which :: l)); try done.
    - intros b h Hb. destruct Hl as [-> | ->]; repeat (apply elem_of_cons in Hb as [Hb | Hb]; [done |]); by apply elem_of_nil in Hb.
    - intros h Hb. exfalso. destruct Hl as [-> | ->]; repeat (apply elem_of_cons in Hb as [Hb | Hb]; [done |]); by apply elem_of_nil in Hb.
    - cbn [isr_thread isr_todo with_thread with_todo]. destruct Hq as [-> | [_ ->]]; [| done].
      destruct (isr_thread s) as [| | | | []] eqn:Es; try done. cbn. destruct (decide (todo = 0)) as [Z0 | NZ]; [done |].
      by destruct (Hwk NZ).
    - assert (delivered (with_thread q (with_todo todo (log (Raised which) s)))) as Hdel.
      { intros l1 w' l2 b h El Hb Hb4 Hw' Hr. cbn in El. destruct (app_Raised _ _ _ _ _ El) as [(Ew & -> & ->) | (l3 & -> & El')].
        - injection Ew as ->. right. left. cbn. unfold todo. rewrite Z.lor_spec, Hwb, Hw' by done.
          rewrite (proj2 (Z.eqb_neq 4 b)) by done. by rewrite orb_true_r.
        - destruct (Hd l1 w' l3 b h El' Hb Hb4 Hw' Hr) as [Hc | Hp]; [left; rewrite elem_of_app; by left | right].
          unfold pending in *. cbn. unfold todo. destruct Hp as [Hp | Hp].
          + left. by rewrite E3, Z.lor_spec, Hp.
          + destruct Hq as [-> | [[o Eo] ->]]; [by right |]. by rewrite Eo in Hp. }
      destruct Hl as [-> | ->].
      + by apply (delivered_same (with_thread q (with_todo todo (log (Raised which) s)))).
      + apply (delivered_log (log Serial (with_thread q (with_todo todo (log (Raised which) s)))) _ (Acked (Z.shiftl 1 4)));
          [| cbn; by rewrite E6, <- !app_assoc | done | by left].
        by eapply (delivered_log (with_thread q (with_todo todo (log (Raised which) s))) _ Serial); [| | | left]. }
  assert (with_todo todo s1 = with_thread (isr_thread s) (with_todo todo s1)) as Es2 by (rewrite <- E5; by destruct s1).
  assert (0 <= isr_todo s1 /\ 0 <= w) as [? ?] by (rewrite E3; lia). cbn [isr_todo with_todo].
  destruct (Z.eqb_spec todo 0) as [Z0 | NZ].
  - rewrite Es2. apply Hgoal; [by left | | done]. intros _. unfold todo in Z0. apply Z.lor_eq_0_iff in Z0 as [Z0 _]. congruence.
  - unfold wake_thread. change (isr_thread (with_todo todo s1)) with (isr_thread s1). rewrite E5.
    destruct (isr_thread s) as [| | | | o] eqn:Et; try (rewrite Es2; apply Hgoal; [by left | done | done]).
    apply Hgoal; [right; eauto | done | done].
Qed.

(** ** The thread *)

Lemma iinv_thread s q n :
  iinv s -> (forall b h, 0 <= b -> Registered b h ∈ ilogged s -> pending s b h -> pending (with_thread q (with_totwork n s)) b h) ->
  thread_ok (ilogged s) (isr_todo s) q -> iinv (with_thread q (with_totwork n s)).
Proof.
  intros Hi Hp Hq. apply (iinv_keep s _ []); try done; [cbn; by rewrite app_nil_r | | | apply Hi |].
  - intros b h H. by apply elem_of_nil in H.
  - intros h H. by apply elem_of_nil in H.
  - apply (delivered_same s); [apply Hi | done | done].
Qed.

(** Two lines on the same list are the same line. *)
Lemma slot_inj s b h r b' h' r' : iinv s -> Registered b h ∈ ilogged s -> Registered b' h' ∈ ilogged s ->
  isr_routed s !! Z.to_nat b = Some r -> isr_routed s !! Z.to_nat b' = Some r' -> slot r b = slot r' b' -> b = b'.
Proof.
  intros Hinv Hb Hb' Hr Hr' E. destruct (ii_reg _ Hinv b h Hb) as (? & _). destruct (ii_reg _ Hinv b' h' Hb') as (? & _).
  pose proof (ii_top _ Hinv) as Htop. unfold slot, routeintr, INTR_ROUTED, BMK_MAXINTR in E.
  destruct (decide (b = b')) as [| Hne]; [done | exfalso].
  destruct (Z.eqb_spec r INTR_ROUTED_YES) as [-> |], (Z.eqb_spec r' INTR_ROUTED_YES) as [-> |], screw; try lia.
  pose proof (Htop eq_refl b h b' h' Hb Hb' Hne Hr). pose proof (Htop eq_refl b' h' b h Hb' Hb ltac:(done) Hr'). lia.
Qed.

(** A round of the scan that finds an interrupt. *)
Lemma scan_hit s c i :
  iinv s -> isr_thread s = PRun c i [] -> 0 <= i < 32 -> Z.testbit c i = true ->
  exists r hs, isr_routed s !! Z.to_nat i = Some r /\ isr_ih s !! slot r i = Some hs /\
    iinv (with_thread (PRun (bit_clear c i) ((if r =? INTR_ROUTED_YES then routeintr screw i else i) + 1) hs) s).
Proof.
  intros Hinv Et Hi Hbit. pose proof (ii_thread _ Hinv) as Hth. rewrite Et in Hth. destruct Hth as (Hc & _ & Hci & _).
  destruct (Hci i ltac:(lia) Hbit) as [_ [Hi4 [h0 Hh0]]].
  destruct (ii_reg _ Hinv i h0 Hh0) as (Hi15 & _ & r & hs & Hr & Hn & Hk & _).
  exists r, hs. split; [done |]. split; [done |]. assert (s = with_totwork (totwork s) s) as Es by (by destruct s).
  rewrite Es. apply iinv_thread; [done | |].
  - intros b h Hb0 Hb [? | Hp]; [by left | right]. rewrite Et in Hp. cbn. destruct Hp as [Hp | Hp]; [| by apply elem_of_nil in Hp].
    destruct (decide (i = b)) as [<- | Hne].
    + right. destruct (ii_reg _ Hinv i h Hb) as (_ & _ & r' & hs' & Hr' & _ & Hk' & Hin). congruence.
    + left. rewrite bit_clear_spec, Hp by lia. by rewrite (proj2 (Z.eqb_neq i b)).
  - cbn. split; [by apply bit_clear_range; [lia |] |]. split; [unfold routeintr, INTR_ROUTED, BMK_MAXINTR; destruct (_ =? _), screw; lia |]. split.
    + intros b Hb0 Hb. rewrite bit_clear_spec in Hb by lia. apply andb_true_iff in Hb as [Hb Hne%negb_true_iff%Z.eqb_neq].
      destruct (Hci b Hb0 Hb) as [Hle Hline]. split; [| done]. unfold routeintr. pose proof (ii_top _ Hinv) as Htop.
      destruct (Z.eqb_spec r INTR_ROUTED_YES) as [-> |], screw; try lia. exfalso. destruct Hline as [_ [h Hh]].
      pose proof (Htop eq_refl i h0 b h Hh0 Hh Hne Hr). lia.
    + intros h Hh. destruct (ii_only _ Hinv _ _ _ Hk Hh) as (b & r' & Hb & Hr' & E).
      exists b. split; [| done]. rewrite (slot_inj s b h r' i h0 r Hinv Hb Hh0 Hr' Hr E). done.
Qed.

Lemma doisr_ok s : iinv s -> isr_thread s <> PBlock false -> exists s', doisr screw s = Done s' /\ iinv s'.
Proof.
  intros Hinv Hnb. pose proof (ii_thread _ Hinv) as Hth. assert (s = with_totwork (totwork s) s) as Es by (by destruct s).
  assert (forall b h, 0 <= b -> Registered b h ∈ ilogged s -> pending s b h -> (forall c i hs, isr_thread s <> PRun c i hs) ->
    Z.testbit (isr_todo s) b = true) as Hpend.
  { intros b h _ _ [? | Hp] Hn; [done |]. destruct (isr_thread s); try done. by destruct (Hn isrcopy i hs). }
  unfold doisr. destruct (isr_thread s) as [| | c i hs | | []] eqn:Et; [| | | | | done].
  - eexists. split; [done |]. rewrite Es. apply iinv_thread; [done | | done]. intros b h ? ? Hp. left. by eapply Hpend.
  - eexists. split; [done |]. apply (iinv_keep s _ []); try done; [cbn; by rewrite app_nil_r | | | | |].
    + intros b h H. by apply elem_of_nil in H.
    + intros h H. by apply elem_of_nil in H.
    + split; cbn; [lia |]. intros b _ Hb. by rewrite Z.bits_0 in Hb.
    + cbn. destruct (ii_todo _ Hinv) as [Ht Ht']. split; [done |]. split; [apply Hinv |]. split; [| intros h H; by apply elem_of_nil in H].
      intros b Hb Hb'. pose proof (Ht' b Hb Hb') as Hl. split; [| done]. destruct Hl as [_ [h Hh]]. by apply (ii_reg _ Hinv b h).
    + apply (delivered_same s); [apply Hinv | done |]. intros b h ? ? Hp. right. left. by eapply Hpend.
  - destruct Hth as (Hc & Hi & Hci & Hhs). destruct hs as [| h hs].
    2: { eexists. split; [done |]. apply (iinv_keep s _ [Called h]); try done; [..| apply Hinv | |].
         - intros b h' H. by apply list_elem_of_singleton in H.
         - intros h' H. apply list_elem_of_singleton in H as [= ->]. apply Hhs. by left.
         - cbn. split_and!; try done; try lia. intros h' H. apply Hhs. by right.
         - apply (delivered_log s _ (Called h)); [apply Hinv | done | done |]. intros b h' [Hp | Hp]; [by left; left |].
           rewrite Et in Hp. destruct Hp as [Hp | Hp]; [left; right; by left |].
           apply elem_of_cons in Hp as [-> | Hp]; [by right | left; right; by right]. }
    destruct (Z.eqb_spec c 0) as [-> | Hc0].
    { eexists. split; [done |]. rewrite Es. apply iinv_thread; [done | | done].
      intros b h _ _ [? | Hp]; [by left |]. rewrite Et, Z.bits_0 in Hp. destruct Hp as [? | Hp]; [done |].
      by apply elem_of_nil in Hp. }
    assert (exists b, 0 <= b < 32 /\ Z.testbit c b = true) as (b0 & Hb0 & Hcb).
    { exists (Z.log2 c). pose proof (Z.bit_log2 c ltac:(lia)) as Hb. pose proof (testbit_high c _ Hc Hb).
      pose proof (Z.log2_nonneg c). split; [lia | done]. }
    destruct (Hci b0 ltac:(lia) Hcb) as [? _]. destruct (Z.ltb_spec i 32); [| lia].
    rewrite bmk_assert_true, Done_bind. rewrite shift_land_bit by lia.
    destruct (Z.testbit c i) eqn:Hbit; cbn [negb].
    2: { eexists. split; [done |]. rewrite Es. apply iinv_thread; [done | |].
         - intros b h _ _ [? | Hp]; [by left | right]. by rewrite Et in Hp.
         - split; [done |]. split; [lia |]. split; [| done]. intros b Hb Hb'. destruct (Hci b Hb Hb') as [? ?]. split; [| done].
           destruct (decide (b = i)); [congruence | lia]. }
    destruct (scan_hit s c i Hinv Et ltac:(lia) Hbit) as (r & hs & Hr & Hk & Hinv').
    unfold routed_at, handlers_at. cbv zeta. rewrite Hr, of_option_Some, Done_bind. unfold slot in Hk.
    rewrite Hk, of_option_Some, Done_bind. eauto.
  - destruct (Z.eqb_spec (isr_todo s) 0) as [Z0 |]; cbn [negb].
    + eexists. split; [done |]. apply (iinv_keep s _ [Acked (totwork s)]); try done; [| | apply Hinv |].
      * intros b h H. by apply list_elem_of_singleton in H.
      * intros h H. by apply list_elem_of_singleton in H.
      * apply (delivered_log s _ (Acked (totwork s))); [apply Hinv | done | done |]. intros b h [Hp | Hp]; [by left; left |].
        by rewrite Et in Hp.
    + eexists. split; [done |]. rewrite Es. apply iinv_thread; [done | | done]. intros b h ? ? Hp. left. by eapply Hpend.
  - eexists. split; [done |]. apply iinv_thread; [done | | done]. intros b h ? ? Hp. left. by eapply Hpend.
Qed.

(** Steps of the thread alone. *)
Inductive isteps : intr_state -> intr_state -> Prop :=
  | isteps_refl s : isteps s s
  | isteps_step s s1 s' : isr_thread s <> PBlock false -> doisr screw s = Done s1 -> isteps s1 s' -> isteps s s'.

Lemma isteps_trans s s1 s2 : isteps s s1 -> isteps s1 s2 -> isteps s s2.
Proof. induction 1; [done |]. intros. eapply isteps_step; eauto. Qed.

Lemma isteps_inv s s' : isteps s s' -> iinv s -> iinv s'.
Proof.
  induction 1 as [| s s1 s' Hn E _ IH]; [done |]. intros Hi. apply IH.
  destruct (doisr_ok s Hi Hn) as (s2 & E2 & ?). congruence.
Qed.

Lemma todo_kept s s1 : doisr screw s = Done s1 -> isr_todo s1 = isr_todo s \/ isr_todo s1 = 0.
Proof.
  unfold doisr. intros H. destruct (isr_thread s) as [| | c i [] | | []]; outcome_inv; auto.
  - destruct (c =? 0); outcome_inv; auto. destruct (Z.land _ _ =? 0); outcome_inv; auto.
  - destruct (negb _); outcome_inv; auto.
Qed.

(** The scan ends. *)
Lemma scan_ends n c i hs s :
  iinv s -> isr_thread s = PRun c i hs -> 32 - i <= Z.of_nat n ->
  exists s', isteps s s' /\ isr_thread s' = PTail /\ (isr_todo s = 0 -> isr_todo s' = 0).
Proof.
  revert c i hs s. induction n as [n IHn] using lt_wf_ind. intros c i hs. induction hs as [| h hs IHh]; intros s Hi Et Hn.
  - destruct (doisr_ok s Hi) as (s1 & E & Hi1); [congruence |].
    assert (isteps s s1) as Hs by (eapply isteps_step; [congruence | done | apply isteps_refl]).
    assert (isr_todo s = 0 -> isr_todo s1 = 0) as Hz by (destruct (todo_kept s s1 E); congruence).
    assert (isr_thread s1 = PTail \/ exists c' i' hs', isr_thread s1 = PRun c' i' hs' /\ i < 32 /\ i < i') as H1.
    { revert E. unfold doisr. rewrite Et. destruct (c =? 0); [intros [= <-]; by left |].
      intros E. outcome_inv. match goal with H : (_ <? _) = true |- _ => apply Z.ltb_lt in H end.
      destruct (Z.land _ _ =? 0); outcome_inv; right; eexists _, _, _; (split; [done |]); (split; [done |]); [lia |].
      unfold routeintr, INTR_ROUTED, BMK_MAXINTR. destruct (_ =? INTR_ROUTED_YES), screw; lia. }
    destruct H1 as [H1 | (c' & i' & hs' & H1 & Hlt & Hi')]; [by exists s1 |].
    destruct (IHn (n - 1)%nat ltac:(lia) c' i' hs' s1 Hi1 H1 ltac:(lia)) as (s' & Hs' & Ht' & Hz').
    exists s'. split; [by eapply isteps_trans |]. auto.
  - destruct (doisr_ok s Hi) as (s1 & E & Hi1); [congruence |].
    assert (isteps s s1) as Hs by (eapply isteps_step; [congruence | done | apply isteps_refl]).
    assert (isr_thread s1 = PRun c i hs /\ isr_todo s1 = isr_todo s) as [H1 Hz].
    { revert E. unfold doisr. rewrite Et. by intros [= <-]. }
    destruct (IHh s1 Hi1 H1 Hn) as (s' & Hs' & Ht' & Hz'). exists s'. split; [by eapply isteps_trans |].
    split; [done |]. intros ?. apply Hz'. congruence.
Qed.

Lemma step1 s s1 : isr_thread s <> PBlock false -> doisr screw s = Done s1 -> isteps s s1.
Proof. intros. eapply isteps_step; eauto using isteps_refl. Qed.

Lemma tail_blocks s : isr_thread s = PTail -> isr_todo s = 0 -> exists s', isteps s s' /\ isr_thread s' = PBlock false.
Proof.
  intros Et Ez. eexists. split; [eapply step1; [congruence |]; unfold doisr; rewrite Et, Ez; reflexivity | done].
Qed.

Lemma top_blocks s : iinv s -> isr_thread s = PTop -> exists s', isteps s s' /\ isr_thread s' = PBlock false.
Proof.
  intros Hi Et. destruct (doisr_ok s Hi) as (s1 & E & Hi1); [congruence |].
  pose proof (step1 s s1 ltac:(congruence) E) as Hs. revert E. unfold doisr. rewrite Et. intros [= E].
  assert (isr_thread s1 = PRun (isr_todo s) (isr_lowest s) [] /\ isr_todo s1 = 0) as [H1 H2] by (by subst s1).
  pose proof (ii_lowest s Hi) as Hl.
  destruct (scan_ends (Z.to_nat (32 - isr_lowest s)) _ _ _ s1 Hi1 H1 ltac:(lia)) as (s2 & Hs2 & Ht2 & Hz2).
  destruct (tail_blocks s2 Ht2 (Hz2 H2)) as (s3 & Hs3 & Ht3). exists s3. split; [| done].
  eapply isteps_trans; [| eapply isteps_trans]; eassumption.
Qed.

Lemma thread_blocks s : iinv s -> exists s', isteps s s' /\ isr_thread s' = PBlock false.
Proof.
  intros Hi. assert (forall s1, isteps s s1 -> isr_thread s1 = PTop -> exists s', isteps s s' /\ isr_thread s' = PBlock false) as Htop.
  { intros s1 Hs Et. destruct (top_blocks s1 (isteps_inv _ _ Hs Hi) Et) as (s2 & ? & ?). exists s2.
    split; [by eapply isteps_trans | done]. }
  assert (forall s1, isteps s s1 -> isr_thread s1 = PTail -> exists s', isteps s s' /\ isr_thread s' = PBlock false) as Htail.
  { intros s1 Hs Et. destruct (decide (isr_todo s1 = 0)) as [Ez | Ez].
    - destruct (tail_blocks s1 Et Ez) as (s2 & ? & ?). exists s2. split; [by eapply isteps_trans | done].
    - eapply (Htop (with_thread PTop s1)); [| done]. eapply isteps_trans; [exact Hs |]. apply step1; [congruence |].
      unfold doisr. rewrite Et. destruct (Z.eqb_spec (isr_todo s1) 0); done. }
  destruct (isr_thread s) as [| | c i hs | | []] eqn:Et.
  - apply (Htop (with_thread PTop s)); [| done]. apply step1; [congruence |]. unfold doisr. by rewrite Et.
  - by apply (Htop s); [apply isteps_refl |].
  - destruct (scan_ends (Z.to_nat (32 - i)) c i hs s Hi Et ltac:(lia)) as (s1 & Hs & Ht & _). by apply (Htail s1).
  - by apply (Htail s); [apply isteps_refl |].
  - apply (Htop (with_thread PTop (with_totwork 0 s))); [| done]. apply step1; [congruence |]. unfold doisr. by rewrite Et.
  - exists s. split; [apply isteps_refl | done].
Qed.

Lemma intr_init_inv : iinv intr_init.
Proof.
  split; try done; unfold intr_init; cbn [isr_ih isr_lowest isr_todo ilogged].
  - split; [lia |]. intros b _ Hb. by rewrite Z.bits_0 in Hb.
  - intros b h Hb. by apply elem_of_nil in Hb.
  - intros k hs h Hk Hh. apply lookup_replicate in Hk as [-> _]. by apply elem_of_nil in Hh.
  - intros _ b h b' h' Hb. by apply elem_of_nil in Hb.
  - intros h Hb. by apply elem_of_nil in Hb.
  - intros l1 w l2 b h E. by destruct l1.
Qed.

Lemma istep_ok e s : iinv s -> ivalid screw e s -> exists s', istep screw e s = Done s' /\ iinv s'.
Proof.
  intros Hi Hv. destruct e as [h intr flags | which |]; cbn [istep].
  - by apply register_ok.
  - eexists. split; [done |]. by apply raise_ok.
  - by apply doisr_ok.
Qed.

Lemma ireach_inv s : ireach screw s -> iinv s.
Proof.
  induction 1 as [| e s s' _ IH Hv E]; [apply intr_init_inv |].
  destruct (istep_ok e s IH Hv) as (s1 & ? & ?). congruence.
Qed.

End Screw.

(** ** A run on amd64

    Line 5 is registered, line 11 with BMK_INTR_ROUTED; interrupts on both and
    on the serial line arrive together while the thread is blocked. *)

Fixpoint valid_run (es : list ievent) (s s' : intr_state) : Prop :=
  match es with
  | [] => s = s'
  | e :: es => ivalid true e s /\ exists s1, istep true e s = Done s1 /\ valid_run es s1 s'
  end.

Lemma valid_run_reach es s s' : ireach true s -> valid_run es s s' -> ireach true s'.
Proof.
  revert s. induction es as [| e es IH]; intros s Hs; [intros <-; done |].
  intros (Hv & s1 & E & Hr). eapply IH; [| exact Hr]. by eapply ireach_step.
Qed.

Definition demo_events : list ievent :=
  [IRegister (100, 1) 5 0; IRegister (200, 2) 11 1; IThread; IThread; IThread; IThread; IRaise (32 + 2048 + 16)].
Definition demo_intr : intr_state :=
  Intr (<[32%nat := [(200, 2)]]> (<[5%nat := [(100, 1)]]> (replicate INTR_LEVELS [])))
    (<[11%nat := 1]> (<[5%nat := 2]> (replicate INTR_LEVELS 0))) (32 + 2048) 5
    219 247 [43; 37] (PBlock true) 0
    [Registered 5 (100, 1); Registered 11 (200, 2); Acked 0; Raised (32 + 2048 + 16); Serial; Acked 16].

Lemma demo_intr_run : valid_run demo_events intr_init demo_intr.
Proof.
  assert (forall e s s1 es s', ivalid true e s -> istep true e s = Done s1 -> valid_run es s1 s' -> valid_run (e :: es) s s') as Hstep
    by (intros; split; eauto).
  unfold demo_events.
  eapply Hstep; [| vm_compute; reflexivity |].
  { split; [set_solver |]. split; [by left |]. split; [intros _ b h H; by apply elem_of_nil in H |]. exists 0. split; [reflexivity | by left]. }
  eapply Hstep; [| vm_compute; reflexivity |].
  { split; [set_solver |]. split; [by right |]. split; [| exists 0; split; [reflexivity | by left]].
    intros _ b h H Hne. apply list_elem_of_singleton in H. injection H as -> _. split; [lia | discriminate]. }
  do 4 (eapply Hstep; [discriminate | vm_compute; reflexivity |]).
  eapply Hstep; [| vm_compute; reflexivity | reflexivity].
  split; [reflexivity |]. split; [lia |]. intros b Hb Hb4 Hbit.
  assert (b = 5 \/ b = 11) as [-> | ->]; [| exists (100, 1); cbn; set_solver | exists (200, 2); cbn; set_solver].
  assert (b < 32) by (by eapply testbit_high; [| exact Hbit]). clear -Hb Hb4 Hbit H.
  destruct (decide (b ∈ seqZ 0 32)) as [Hin | Hin]; [| rewrite elem_of_seqZ in Hin; lia].
  vm_compute in Hin. repeat (apply elem_of_cons in Hin as [-> | Hin]; [vm_compute in Hbit; (discriminate || lia) |]). by apply elem_of_nil in Hin.
Qed.


(** With BMK_SCREW_INTERRUPT_ROUTING the scan jumps past the other pending
    interrupts once it has met a routed one, and the assertion fails. *)
Example screwed_routing_halts :
  (s ← bmk_isr_rumpkernel true (100, 1) 5 1 true intr_init;
   s ← bmk_isr_rumpkernel true (200, 2) 9 1 true s;
   s ← doisr true s; s ← doisr true s; s ← doisr true s; s ← doisr true s;
   let s := isr (32 + 512) s in
   s ← doisr true s; s ← doisr true s; s ← doisr true s;
   s ← doisr true s; s ← doisr true s; s ← doisr true s; doisr true s) = Halt "i < sizeof(isrcopy)*8".
Proof. vm_compute. reflexivity. Qed.
