(* ===== verification/Mman.v ===== *)
(** * Memory mappings (lib/librumpkern_mman/sys_mman.c, lib/librumprun_base/syscall_mman.c)

    [mmap] emulated with allocated memory: every mapping is a chunk on a list,
    with the number of its pages that have not been unmapped yet.  The
    allocator and the files belong to the rump kernel: what they answer is an
    argument of the call.  The numbers are those of the NetBSD headers. *)

From S2P Require Import Prelude Mem Cstring.

Definition PAGE_SIZE : Z := 4096.
Definition EBADF : Z := 9.
Definition ENOMEM : Z := 12.
Definition ENODEV : Z := 19.
Definition EINVAL : Z := 22.
Definition EOPNOTSUPP : Z := 45.
Definition PROT_READ : Z := 1.
Definition MAP_FIXED : Z := 0x10.
Definition MAP_ANON : Z := 0x1000.
Definition MS_ASYNC : Z := 1.
Definition MS_SYNC : Z := 4.
Definition MAP_FAILED : Z := W64 - 1.

Record mmapchunk := Chunk { mm_start : Z; mm_size : Z; mm_pgsleft : Z }.

Record mman := Mman {
  mmc_list : list mmapchunk;
  mm_mem : mem;
  mm_freed : list (Z * Z)      (** memory given back with [kmem_free] *)
}.

(** What the rump kernel answers: whether the bookkeeping chunk can be
    allocated, the address of the memory, and the open files. *)
Record file := File {
  f_fread : bool;
  f_vnode : bool;
  f_read : Z -> Z -> Z + list Z     (** offset and length to an error or the bytes read *)
}.
Record kenv := Kenv { k_chunk : bool; k_memory : Z; fd_getfile : Z -> option file }.

Definition roundup2 (x m : Z) : Z := Z.land (wadd x (m - 1)) (wnot (m - 1)).

(** [memset], and the copy a read makes into memory. *)
Definition memset (m : mem) (v c n : Z) : outcome mem := memset_loop (Z.to_nat n) m v c.
Fixpoint copyout (m : mem) (v : Z) (l : list Z) : outcome mem :=
  match l with
  | [] => Done m
  | b :: l => m ← store8 m v b; copyout m (v + 1) l
  end.

Definition mmapmem_alloc (k : kenv) (roundedlen : Z) (st : mman) : Z * mman :=
  if negb (k_chunk k) then (0, st)
  else
    let v := k_memory k in
    (v, Mman (Chunk v roundedlen (roundedlen / PAGE_SIZE) :: mmc_list st) (mm_mem st) (mm_freed st)).

(** The first chunk that contains the range, with its position. *)
Fixpoint find_chunk (addr roundedlen : Z) (l : list mmapchunk) : option (nat * mmapchunk) :=
  match l with
  | [] => None
  | mc :: l =>
      if (mm_start mc <=? addr) && (wadd addr roundedlen <=? wadd (mm_start mc) (mm_size mc)) then Some (0%nat, mc)
      else match find_chunk addr roundedlen l with Some (i, mc) => Some (S i, mc) | None => None end
  end.

Definition mmapmem_free (addr roundedlen : Z) (st : mman) : outcome (Z * mman) :=
  match find_chunk addr roundedlen (mmc_list st) with
  | None => Done (EINVAL, st)
  | Some (i, mc) =>
      let npgs := roundedlen / PAGE_SIZE in
      _ ← bmk_assert (npgs <=? mm_pgsleft mc) "npgs <= mc->mm_pgsleft";
      let left := mm_pgsleft mc - npgs in
      if negb (left =? 0) then
        Done (0, Mman (<[i := Chunk (mm_start mc) (mm_size mc) left]> (mmc_list st)) (mm_mem st) (mm_freed st))
      else
        Done (0, Mman (delete i (mmc_list st)) (mm_mem st) ((mm_start mc, mm_size mc) :: mm_freed st))
  end.

(** The error, [*retval] if it was set, and the state. *)
Definition sys_mmap (k : kenv) (len prot flags fd pos : Z) (st : mman) : outcome (Z * option Z * mman) :=
  if negb (fd =? -1) && negb (prot =? PROT_READ) then Done (EOPNOTSUPP, None, st)
  else if negb (Z.land flags MAP_FIXED =? 0) then Done (ENOMEM, None, st)
  else if negb (Z.land pos (PAGE_SIZE - 1) =? 0) then Done (EINVAL, None, st)
  else
    let roundedlen := roundup2 len PAGE_SIZE in
    let '(v, st) := mmapmem_alloc k roundedlen st in
    if v =? 0 then Done (ENOMEM, None, st)
    else if negb (Z.land flags MAP_ANON =? 0) then
      m ← memset (mm_mem st) v 0 roundedlen;
      Done (0, Some v, Mman (mmc_list st) m (mm_freed st))
    else
      match fd_getfile k fd with
      | None => Done (EBADF, Some v, st)
      | Some fp =>
          if negb (f_fread fp) then Done (EBADF, Some v, st)
          else if negb (f_vnode fp) then Done (ENODEV, Some v, st)
          else
            match f_read fp pos roundedlen with
            | inl error =>
                '(_, st) ← mmapmem_free v roundedlen st; Done (error, Some v, st)
            | inr data =>
                let cnt := Z.of_nat (length data) in
                m ← copyout (mm_mem st) v data;
                if negb (cnt =? roundedlen) then
                  _ ← bmk_assert (cnt <? roundedlen) "cnt < roundedlen";
                  m ← memset m (v + cnt) 0 (roundedlen - cnt);
                  Done (0, Some v, Mman (mmc_list st) m (mm_freed st))
                else Done (0, Some v, Mman (mmc_list st) m (mm_freed st))
            end
      end.

Definition sys___msync13 (addr flags : Z) : Z :=
  if negb (Z.land addr (PAGE_SIZE - 1) =? 0) then EINVAL
  else if Z.land flags (Z.lor MS_SYNC MS_ASYNC) =? Z.lor MS_SYNC MS_ASYNC then EINVAL
  else 0.

Definition sys_munmap (addr len : Z) (st : mman) : outcome (Z * mman) :=
  if negb (Z.land addr (PAGE_SIZE - 1) =? 0) then Done (EINVAL, st)
  else mmapmem_free addr (roundup2 len PAGE_SIZE) st.

Definition sys_mincore (len vec : Z) (st : mman) : outcome (Z * mman) :=
  m ← memset (mm_mem st) vec 1 (wadd len (PAGE_SIZE - 1) / PAGE_SIZE);
  Done (0, Mman (mmc_list st) m (mm_freed st)).

Definition sys_madvise : Z := 0.

(** [plat_mprotect] is a weak symbol: it may be missing.  Returns the error and
    [*retval] if it was set. *)
Definition sys_mprotect (plat_mprotect : option (Z -> Z -> Z -> Z)) (addr len prot : Z) : Z * option Z :=
  if len =? 0 then (0, None)
  else
    match plat_mprotect with
    | None => (0, None)
    | Some f => let error := f addr len prot in (error, if negb (error =? 0) then Some (-1) else None)
    end.

(** ** The wrappers: the value returned and [errno] *)

Definition mmap (k : kenv) (len prot flags fd pos : Z) (st : mman) : outcome (Z * Z * mman) :=
  '(error, retval, st) ← sys_mmap k len prot flags fd pos st;
  if error =? 0 then v ← of_option "retval[0]" retval; Done (v, error, st)
  else Done (MAP_FAILED, error, st).

(** [retval0] is what the call left in [retval[0]]; [sys_munmap] does not set it. *)
Definition munmap (retval0 addr len : Z) (st : mman) : outcome (Z * Z * mman) :=
  '(error, st) ← sys_munmap addr len st;
  Done (if error =? 0 then s32 retval0 else -1, error, st).

(** The flags of [msync] are not passed on. *)
Definition _sys___msync13 (addr len flags : Z) : Z * Z :=
  let error := sys___msync13 addr 0 in (if error =? 0 then 0 else -1, error).

Definition mincore (addr len vec : Z) (st : mman) : outcome (Z * Z * mman) :=
  '(error, st) ← sys_mincore len vec st; Done (if error =? 0 then 0 else -1, error, st).

Definition mprotect (plat_mprotect : option (Z -> Z -> Z -> Z)) (addr len prot : Z) : Z * Z :=
  let '(error, _) := sys_mprotect plat_mprotect addr len prot in (if error =? 0 then 0 else -1, error).

Definition madvise : Z := 0.

(** * The mappings and their pages

    Abstractly the mappings are a set of pages.  The chunk list implements it:
    each chunk counts the pages of its own that are in the set. *)


(** The [n] pages from [a]. *)
Definition pages_in (a n : Z) : gset Z := list_to_set ((fun k => a + PAGE_SIZE * k) <$> seqZ 0 n).
Definition chunk_pages (mc : mmapchunk) : gset Z := pages_in (mm_start mc) (mm_size mc / PAGE_SIZE).

Lemma elem_of_pages_in p a n : p ∈ pages_in a n <-> exists k, p = a + PAGE_SIZE * k /\ 0 <= k < n.
Proof.
  unfold pages_in. rewrite elem_of_list_to_set, list_elem_of_fmap. setoid_rewrite elem_of_seqZ.
  split; intros (k & ? & ?); exists k; (split; [done | lia]).
Qed.

Lemma pages_in_size a n : 0 <= n -> Z.of_nat (size (pages_in a n)) = n.
Proof.
  intros Hn. unfold pages_in. rewrite size_list_to_set.
  - rewrite length_fmap, length_seqZ. lia.
  - apply NoDup_fmap; [intros x y; unfold PAGE_SIZE; lia | apply NoDup_seqZ].
Qed.

(** [b] lies in the pages of [a]. *)
Lemma pages_in_subseteq a n b m :
  (PAGE_SIZE | a) -> (PAGE_SIZE | b) -> a <= b -> b + PAGE_SIZE * m <= a + PAGE_SIZE * n -> pages_in b m ⊆ pages_in a n.
Proof.
  intros [x ->] [y ->] H1 H2 p. rewrite !elem_of_pages_in. intros (k & -> & Hk).
  exists (y - x + k). unfold PAGE_SIZE in *. lia.
Qed.

Lemma pages_in_disjoint a n b m : a + PAGE_SIZE * n <= b -> pages_in a n ## pages_in b m.
Proof.
  intros H p. rewrite !elem_of_pages_in. intros (k & -> & Hk) (j & E & Hj). unfold PAGE_SIZE in *. lia.
Qed.

Definition ranges_disjoint (c1 c2 : mmapchunk) : Prop :=
  mm_start c1 + mm_size c1 <= mm_start c2 \/ mm_start c2 + mm_size c2 <= mm_start c1.

Definition chunk_ok (U : gset Z) (mc : mmapchunk) : Prop :=
  0 < mm_start mc /\ (PAGE_SIZE | mm_start mc) /\ (PAGE_SIZE | mm_size mc) /\ 0 < mm_size mc /\
  mm_start mc + mm_size mc < W64 /\
  mm_pgsleft mc = Z.of_nat (size (U ∩ chunk_pages mc)) /\ 0 < mm_pgsleft mc.

(** [U] are the mapped pages. *)
Record minv (st : mman) (U : gset Z) : Prop := {
  mn_chunks : forall i mc, mmc_list st !! i = Some mc -> chunk_ok U mc;
  mn_disj : forall i j c1 c2, mmc_list st !! i = Some c1 -> mmc_list st !! j = Some c2 -> i <> j -> ranges_disjoint c1 c2;
  mn_cover : forall p, p ∈ U -> exists i mc, mmc_list st !! i = Some mc /\ p ∈ chunk_pages mc
}.

Lemma chunk_size_pages mc : (PAGE_SIZE | mm_size mc) -> mm_size mc = PAGE_SIZE * (mm_size mc / PAGE_SIZE).
Proof. intros [k ->]. unfold PAGE_SIZE. rewrite Z.div_mul by lia. lia. Qed.

Lemma chunks_disjoint c1 c2 :
  (PAGE_SIZE | mm_size c1) -> (PAGE_SIZE | mm_size c2) -> ranges_disjoint c1 c2 -> chunk_pages c1 ## chunk_pages c2.
Proof.
  intros H1%chunk_size_pages H2%chunk_size_pages [H | H]; unfold chunk_pages; [| symmetry]; apply pages_in_disjoint; lia.
Qed.

Lemma roundup2_spec len : 0 < len -> len + PAGE_SIZE < W64 ->
  exists n, roundup2 len PAGE_SIZE = PAGE_SIZE * n /\ 0 < n /\ len <= PAGE_SIZE * n < len + PAGE_SIZE.
Proof.
  unfold PAGE_SIZE. intros H1 H2. unfold roundup2. rewrite wadd_small by (unfold u64; lia).
  change (4096 - 1) with (2 ^ 12 - 1). rewrite land_wnot_ones by (unfold u64; lia).
  set (x := len + (2 ^ 12 - 1)). exists (x / 4096).
  pose proof (Z.div_mod x 4096 ltac:(lia)). pose proof (Z.mod_pos_bound x 4096 ltac:(lia)).
  change (2 ^ 12) with 4096 in *. unfold x in *. lia.
Qed.

(** ** Finding the chunk *)

Lemma find_chunk_ok addr rl l i mc :
  l !! i = Some mc -> mm_start mc <= addr -> addr + rl <= mm_start mc + mm_size mc ->
  (forall j c, l !! j = Some c -> 0 <= mm_start c /\ 0 <= mm_size c /\ mm_start c + mm_size c < W64) -> 0 <= addr -> 0 < rl ->
  (forall j c, l !! j = Some c -> j <> i -> ranges_disjoint mc c) ->
  find_chunk addr rl l = Some (i, mc).
Proof.
  revert i. induction l as [| c l IH]; intros i Hi H1 H2 Hr Ha Hl Hd; [by rewrite lookup_nil in Hi |].
  pose proof (Hr 0%nat c eq_refl) as Hc. pose proof (Hr i mc Hi) as Hmc. cbn [find_chunk].
  rewrite (wadd_small addr) by (unfold u64; lia). rewrite (wadd_small (mm_start c)) by (unfold u64; lia).
  destruct i as [| i]; cbn in Hi; simplify_eq.
  - destruct (Z.leb_spec (mm_start mc) addr); [| lia]. destruct (Z.leb_spec (addr + rl) (mm_start mc + mm_size mc)); [done | lia].
  - destruct (Hd 0%nat c eq_refl) as [D | D]; [lia | |].
    + destruct (Z.leb_spec (mm_start c) addr); [lia |]. cbn [andb].
      rewrite (IH i); [done.. | | done | done |]; intros j c' Hj; [apply (Hr (S j) c' Hj) | intros ?; apply (Hd (S j) c' Hj); lia].
    + destruct (Z.leb_spec (addr + rl) (mm_start c + mm_size c)); [lia |]. rewrite andb_false_r.
      rewrite (IH i); [done.. | | done | done |]; intros j c' Hj; [apply (Hr (S j) c' Hj) | intros ?; apply (Hd (S j) c' Hj); lia].
Qed.

(** ** Unmapping *)

Lemma left_pages (U R C : gset Z) : R ⊆ U -> R ⊆ C ->
  Z.of_nat (size ((U ∖ R) ∩ C)) = Z.of_nat (size (U ∩ C)) - Z.of_nat (size R).
Proof.
  intros H1 H2. assert ((U ∖ R) ∩ C = (U ∩ C) ∖ R) as -> by set_solver.
  assert (R ⊆ U ∩ C) as Hs by set_solver. pose proof (subseteq_size _ _ Hs). rewrite size_difference by done. lia.
Qed.

Lemma same_pages (U R C C' : gset Z) : R ⊆ C -> C ## C' -> (U ∖ R) ∩ C' = U ∩ C'.
Proof. set_solver. Qed.

Section Unmap.
  Context (st : mman) (U : gset Z) (i : nat) (mc : mmapchunk) (addr n : Z).
  Hypothesis Hinv : minv st U.
  Hypothesis Hi : mmc_list st !! i = Some mc.
  Hypothesis Haddr : (PAGE_SIZE | addr).
  Hypothesis Hin : mm_start mc <= addr /\ addr + PAGE_SIZE * n <= mm_start mc + mm_size mc.
  Hypothesis Hn : 0 < n.
  Hypothesis HU : pages_in addr n ⊆ U.

Lemma range_in_chunk : pages_in addr n ⊆ chunk_pages mc.
Proof.
  destruct (mn_chunks _ _ Hinv i mc Hi) as (H1 & H2 & H3 & H4 & _).
  apply pages_in_subseteq; [done.. | lia |]. rewrite <- chunk_size_pages by done. lia.
Qed.

Lemma other_chunk j c : mmc_list st !! j = Some c -> j <> i -> chunk_ok (U ∖ pages_in addr n) c.
Proof.
  intros Hj Hne. destruct (mn_chunks _ _ Hinv i mc Hi) as (_ & _ & Hm & _).
  destruct (mn_chunks _ _ Hinv j c Hj) as (H1 & H2 & H3 & H4 & H5 & H6 & H7).
  assert (chunk_pages mc ## chunk_pages c) as Hd
    by (apply chunks_disjoint; [done.. |]; by apply (mn_disj _ _ Hinv i j)).
  do 5 (split; [done |]). rewrite (same_pages U _ (chunk_pages mc)); [done | apply range_in_chunk | done].
Qed.

Lemma mmapmem_free_ok : exists st', mmapmem_free addr (PAGE_SIZE * n) st = Done (0, st') /\
  minv st' (U ∖ pages_in addr n) /\ mm_mem st' = mm_mem st /\
  mm_freed st' = if decide ((U ∖ pages_in addr n) ∩ chunk_pages mc = ∅)
                 then (mm_start mc, mm_size mc) :: mm_freed st else mm_freed st.
Proof.
  pose proof (mn_chunks _ _ Hinv i mc Hi) as (H1 & H2 & H3 & H4 & H5 & H6 & H7).
  pose proof (left_pages U (pages_in addr n) (chunk_pages mc) HU range_in_chunk) as Hsz.
  rewrite pages_in_size in Hsz by lia. unfold mmapmem_free. unfold PAGE_SIZE in Hin, Hn.
  rewrite (find_chunk_ok addr _ _ i mc); [| done | lia | unfold PAGE_SIZE; lia | | lia | unfold PAGE_SIZE; lia |].
  2: { intros j c Hj. destruct (mn_chunks _ _ Hinv j c Hj) as (? & _ & _ & ? & ? & _). lia. }
  2: { intros j c Hj Hne. by apply (mn_disj _ _ Hinv i j). }
  cbv zeta. replace (PAGE_SIZE * n / PAGE_SIZE) with n by (unfold PAGE_SIZE; rewrite Z.mul_comm, Z.div_mul; lia).
  destruct (Z.leb_spec n (mm_pgsleft mc)); [| lia]. rewrite bmk_assert_true, Done_bind.
  assert (mm_pgsleft mc - n = Z.of_nat (size ((U ∖ pages_in addr n) ∩ chunk_pages mc))) as El by lia.
  assert (forall p, p ∈ U ∖ pages_in addr n -> exists j c, mmc_list st !! j = Some c /\ p ∈ chunk_pages c) as Hcov.
  { intros p [Hp _]%elem_of_difference. by apply (mn_cover _ _ Hinv). }
  destruct (Z.eqb_spec (mm_pgsleft mc - n) 0) as [Ez | Ez]; cbn [negb].
  - eexists. split; [done |]. rewrite decide_True; [| apply leibniz_equiv, size_empty_iff; lia]. split; [| done].
    assert (forall j c, delete i (mmc_list st) !! j = Some c -> exists j', mmc_list st !! j' = Some c /\ j' <> i /\
      j' = if (j <? i)%nat then j else S j) as Hdel.
    { intros j c. destruct (Nat.ltb_spec j i).
      - rewrite list_lookup_delete_lt by lia. exists j. split; [done | lia].
      - rewrite list_lookup_delete_ge by lia. exists (S j). split; [done | lia]. }
    split; cbn [mmc_list].
    + intros j c (j' & Hj' & Hne & _)%Hdel. by eapply other_chunk.
    + intros j k c1 c2 (j' & Hj & ? & Ej)%Hdel (k' & Hk & ? & Ek)%Hdel Hne. apply (mn_disj _ _ Hinv j' k'); [done.. |].
      destruct (Nat.ltb_spec j i), (Nat.ltb_spec k i); lia.
    + intros p Hp. destruct (Hcov p Hp) as (j & c & Hj & Hpc). destruct (decide (j = i)) as [-> | Hne].
      { assert (c = mc) as -> by congruence. exfalso.
        assert ((U ∖ pages_in addr n) ∩ chunk_pages mc = ∅) as E0 by (apply leibniz_equiv, size_empty_iff; lia).
        set_solver. }
      destruct (Nat.lt_ge_cases j i).
      * exists j, c. by rewrite list_lookup_delete_lt by lia.
      * exists (j - 1)%nat, c. rewrite list_lookup_delete_ge by lia. by replace (S (j - 1)) with j by lia.
  - eexists. split; [done |]. rewrite decide_False; [| intros E0; rewrite E0, size_empty in El; lia]. split; [| done].
    assert (forall j c, <[i := Chunk (mm_start mc) (mm_size mc) (mm_pgsleft mc - n)]> (mmc_list st) !! j = Some c ->
      j = i /\ c = Chunk (mm_start mc) (mm_size mc) (mm_pgsleft mc - n) \/ j <> i /\ mmc_list st !! j = Some c) as Hins.
    { intros j c Hj. apply list_lookup_insert_Some in Hj as [(-> & <- & _) | [? ?]]; auto. }
    split; cbn [mmc_list].
    + intros j c [[-> ->] | [Hne Hj]]%Hins; [| by eapply other_chunk].
      do 5 (split; [done |]). cbn [mm_pgsleft]. split; [exact El | lia].
    + intros j k c1 c2 [[-> ->] | [Hne Hj]]%Hins [[-> ->] | [Hne' Hk]]%Hins Hjk; try done.
      * by apply (mn_disj _ _ Hinv i k mc c2).
      * by apply (mn_disj _ _ Hinv j i c1 mc).
      * by apply (mn_disj _ _ Hinv j k).
    + intros p Hp. destruct (Hcov p Hp) as (j & c & Hj & Hpc). destruct (decide (j = i)) as [-> | Hne].
      * eexists i, _. rewrite list_lookup_insert_eq by (by eapply lookup_lt_Some). split; [done |].
        assert (c = mc) as -> by congruence. exact Hpc.
      * exists j, c. by rewrite list_lookup_insert_ne.
Qed.
End Unmap.

(** ** Mapping *)

(** Memory the allocator may hand out for [n] pages. *)
Definition fresh_memory (st : mman) (v n : Z) : Prop :=
  0 < v /\ (PAGE_SIZE | v) /\ v + PAGE_SIZE * n < W64 /\ mapped (mm_mem st) v (Z.to_nat (PAGE_SIZE * n)) /\
  forall i mc, mmc_list st !! i = Some mc -> ranges_disjoint (Chunk v (PAGE_SIZE * n) n) mc.

Lemma minv_insert st U v n m fr :
  minv st U -> fresh_memory st v n -> 0 < n ->
  minv (Mman (Chunk v (PAGE_SIZE * n) n :: mmc_list st) m fr) (U ∪ pages_in v n).
Proof.
  intros Hinv (Hv & Hdv & Hend & _ & Hd) Hn. set (nc := Chunk v (PAGE_SIZE * n) n).
  assert (PAGE_SIZE * n / PAGE_SIZE = n) as Ediv by (unfold PAGE_SIZE; rewrite Z.mul_comm, Z.div_mul; lia).
  assert (chunk_pages nc = pages_in v n) as Enc by (unfold chunk_pages; cbn [nc mm_start mm_size]; by rewrite Ediv).
  assert (forall i mc, mmc_list st !! i = Some mc -> pages_in v n ## chunk_pages mc) as Hdis.
  { intros i mc Hi. rewrite <- Enc. apply chunks_disjoint; [apply Z.divide_factor_l | apply (mn_chunks _ _ Hinv i mc Hi) | eauto]. }
  split; cbn [mmc_list].
  - intros [| i] mc Hi; cbn in Hi.
    + injection Hi as <-. split; [done |]. split; [done |]. split; [apply Z.divide_factor_l |].
      split; [cbn; unfold PAGE_SIZE; lia |]. split; [done |]. rewrite Enc.
      assert ((U ∪ pages_in v n) ∩ pages_in v n = pages_in v n) as -> by set_solver.
      rewrite pages_in_size by lia. cbn. lia.
    + destruct (mn_chunks _ _ Hinv i mc Hi) as (H1 & H2 & H3 & H4 & H5 & H6 & H7). do 5 (split; [done |]).
      pose proof (Hdis i mc Hi). assert ((U ∪ pages_in v n) ∩ chunk_pages mc = U ∩ chunk_pages mc) as -> by set_solver. done.
  - intros [| i] [| j] c1 c2 Hi Hj Hne; cbn in Hi, Hj; simplify_eq; eauto.
    + destruct (Hd i c1 Hi); [by right | by left].
    + apply (mn_disj _ _ Hinv i j); [done.. | lia].
  - intros p [Hp | Hp]%elem_of_union.
    + destruct (mn_cover _ _ Hinv p Hp) as (i & mc & ? & ?). by exists (S i), mc.
    + exists 0%nat, nc. split; [done |]. by rewrite Enc.
Qed.

Lemma copyout_ok l : forall m v, mapped m v (length l) -> Forall byte l -> copyout m v l = Done (mem_write m v l).
Proof.
  induction l as [| b l IH]; intros m v Hm Hb; [done |]. cbn [copyout mem_write length] in *.
  apply mapped_S in Hm as [H0 Hm]. apply Forall_cons in Hb as [Hb Hl].
  rewrite store8_mapped, Done_bind, Z.mod_small by done. apply IH; [by apply mapped_insert | done].
Qed.

Lemma mod0_zero : 0 mod 256 = 0.
Proof. done. Qed.

(** What a mapping of [n] pages is filled with: zeroes, or the bytes of the
    file and zeroes after its end. *)
Definition mapping_data (k : kenv) (flags fd pos n : Z) (data : list Z) : Prop :=
  negb (Z.land flags MAP_ANON =? 0) = true /\ data = [] \/
  Z.land flags MAP_ANON = 0 /\ exists fp, fd_getfile k fd = Some fp /\ f_fread fp = true /\ f_vnode fp = true /\
    f_read fp pos (PAGE_SIZE * n) = inr data.

Lemma sys_mmap_ok st U k len prot flags fd pos n data :
  minv st U -> k_chunk k = true -> fresh_memory st (k_memory k) n -> 0 < n -> roundup2 len PAGE_SIZE = PAGE_SIZE * n ->
  (fd = -1 \/ prot = PROT_READ) -> Z.land flags MAP_FIXED = 0 -> Z.land pos (PAGE_SIZE - 1) = 0 ->
  mapping_data k flags fd pos n data -> Forall byte data -> Z.of_nat (length data) <= PAGE_SIZE * n ->
  let v := k_memory k in
  exists st', sys_mmap k len prot flags fd pos st = Done (0, Some v, st') /\ minv st' (U ∪ pages_in v n) /\
    mm_freed st' = mm_freed st /\
    mm_mem st' = mem_write (mm_mem st) v (data ++ replicate (Z.to_nat (PAGE_SIZE * n - Z.of_nat (length data))) 0).
Proof.
  intros Hinv Hk Hfr Hn Hrl Hfd Hfix Hpos Hdata Hby Hlen v. pose proof Hfr as (Hv & _ & _ & Hm & _).
  assert (PAGE_SIZE * n / PAGE_SIZE = n) as Ediv by (unfold PAGE_SIZE; rewrite Z.mul_comm, Z.div_mul; lia).
  unfold sys_mmap. rewrite Hfix, Hpos, Hrl.
  assert (negb (fd =? -1) && negb (prot =? PROT_READ) = false) as ->
    by (destruct Hfd as [-> | ->]; [done | by rewrite andb_comm]).
  cbn [negb Z.eqb]. unfold mmapmem_alloc. rewrite Hk, Ediv. cbn [negb]. fold v in Hv, Hm |- *.
  destruct (Z.eqb_spec v 0); [lia |].
  destruct Hdata as [[-> ->] | [-> (fp & -> & -> & -> & ->)]].
  - cbn [mm_mem mmc_list mm_freed]. unfold memset. rewrite memset_spec, Done_bind, mod0_zero by done.
    eexists. split; [done |]. split; [by apply minv_insert |]. split; [done |]. cbn. by rewrite Z.sub_0_r.
  - cbn [negb Z.eqb mm_mem mmc_list mm_freed]. rewrite copyout_ok, Done_bind; [| eapply mapped_mono; [| exact Hm]; lia | done].
    destruct (Z.eqb_spec (Z.of_nat (length data)) (PAGE_SIZE * n)) as [El | El]; cbn [negb].
    + eexists. split; [done |]. split; [by apply minv_insert |]. split; [done |]. cbn. rewrite El, Z.sub_diag. cbn. by rewrite app_nil_r.
    + destruct (Z.ltb_spec (Z.of_nat (length data)) (PAGE_SIZE * n)); [| lia]. rewrite bmk_assert_true, Done_bind.
      unfold memset. rewrite memset_spec, Done_bind, mod0_zero.
      * eexists. split; [done |]. split; [by apply minv_insert |]. split; [done |]. cbn. by rewrite mem_write_app.
      * apply mapped_write. intros j Hj. replace (v + Z.of_nat (length data) + Z.of_nat j) with (v + Z.of_nat (length data + j)) by lia.
        apply Hm. lia.
Qed.

(** C23. The mappings implement a set of pages, as long as the caller unmaps only
    pages that are mapped.  A mapping of [n] pages that the allocator has room
    for returns them, filled with zeroes or with the file's bytes and zeroes
    after them, touches no other memory, and adds exactly these pages to the
    set.  Unmapping pages that are all still mapped and belong to one mapping
    succeeds, touches no memory and removes exactly these pages; the memory of
    the mapping is given back when, and only when, its last page goes, and the
    count of pages left never underflows.  (The pages are counted and not
    remembered: [unmap_twice_frees] shows what unmapping a page twice does.) *)
Theorem mman_pages st U :
  minv st U ->
  (forall k len prot flags fd pos n data,
   k_chunk k = true /\ fresh_memory st (k_memory k) n /\ 0 < n /\ roundup2 len PAGE_SIZE = PAGE_SIZE * n /\
   (fd = -1 \/ prot = PROT_READ) /\ Z.land flags MAP_FIXED = 0 /\ Z.land pos (PAGE_SIZE - 1) = 0 /\
   mapping_data k flags fd pos n data /\ Forall byte data /\ Z.of_nat (length data) <= PAGE_SIZE * n ->
   exists st', sys_mmap k len prot flags fd pos st = Done (0, Some (k_memory k), st') /\
     minv st' (U ∪ pages_in (k_memory k) n) /\ mm_freed st' = mm_freed st /\
     mm_mem st' = mem_write (mm_mem st) (k_memory k)
       (data ++ replicate (Z.to_nat (PAGE_SIZE * n - Z.of_nat (length data))) 0)) /\
  (forall i mc addr len n,
   mmc_list st !! i = Some mc /\ roundup2 len PAGE_SIZE = PAGE_SIZE * n /\ 0 < n /\ Z.land addr (PAGE_SIZE - 1) = 0 /\
   mm_start mc <= addr /\ addr + PAGE_SIZE * n <= mm_start mc + mm_size mc /\ pages_in addr n ⊆ U ->
   exists st', sys_munmap addr len st = Done (0, st') /\ minv st' (U ∖ pages_in addr n) /\ mm_mem st' = mm_mem st /\
     mm_freed st' = if decide ((U ∖ pages_in addr n) ∩ chunk_pages mc = ∅)
                    then (mm_start mc, mm_size mc) :: mm_freed st else mm_freed st).
Proof.
  intros Hinv. split.
  - intros k len prot flags fd pos n data (H1 & H2 & H3 & H4 & H5 & H6 & H7 & H8 & H9 & H10).
    exact (sys_mmap_ok st U k len prot flags fd pos n data Hinv H1 H2 H3 H4 H5 H6 H7 H8 H9 H10).
  - intros i mc addr len n (H1 & H2 & H3 & H4 & H5 & H6 & H7). unfold sys_munmap. rewrite H4, H2. cbn [negb Z.eqb].
    assert (PAGE_SIZE | addr) as Hd.
    { unfold PAGE_SIZE in *. change (4096 - 1) with (Z.ones 12) in H4. rewrite Z.land_ones in H4 by lia.
      apply Z.mod_divide; [lia | exact H4]. }
    by apply (mmapmem_free_ok st U i mc).
Qed.

(** ** Runs *)

Definition demo_mman : mman := Mman [] (mem_write ∅ 8192 (replicate (Z.to_nat 8192) 255)) [].
Definition demo_kenv : kenv := Kenv true 8192 (fun _ => None).

Lemma demo_mman_inv : minv demo_mman ∅.
Proof. split; [done | done | intros p Hp; set_solver]. Qed.

Lemma demo_fresh : fresh_memory demo_mman 8192 2.
Proof.
  split; [lia |]. split; [by exists 2 |]. split; [done |]. split; [| done].
  assert (bytes_at (mm_mem demo_mman) 8192 (replicate (Z.to_nat 8192) 255)) as H by apply bytes_at_write.
  apply bytes_at_mapped in H. rewrite length_replicate in H. exact H.
Qed.

(** 5000 bytes are mapped in two pages; the second page is unmapped, then the
    first one, and only then is the memory given back. *)
Lemma mman_pages_witness :
  exists st1 st2 st3, sys_mmap demo_kenv 5000 3 MAP_ANON (-1) 0 demo_mman = Done (0, Some 8192, st1) /\
    sys_munmap 12288 100 st1 = Done (0, st2) /\ mm_freed st2 = [] /\
    sys_munmap 8192 4096 st2 = Done (0, st3) /\ mm_freed st3 = [(8192, 8192)].
Proof.
  destruct (mman_pages demo_mman ∅ demo_mman_inv) as [H _].
  destruct (H demo_kenv 5000 3 MAP_ANON (-1) 0 2 []) as (st1 & E1 & Hi1 & F1 & _).
  { split; [reflexivity |]. split; [exact demo_fresh |]. split; [lia |]. split; [reflexivity |].
    split; [left; reflexivity |]. split; [reflexivity |]. split; [reflexivity |].
    split; [left; split; reflexivity |]. split; [constructor |]. vm_compute. discriminate. }
  assert (mmc_list st1 = [Chunk 8192 8192 2]) as L1.
  { assert (match sys_mmap demo_kenv 5000 3 MAP_ANON (-1) 0 demo_mman with Done (_, _, st) => mmc_list st = [Chunk 8192 8192 2] | _ => False end) as L
      by (vm_compute; reflexivity). rewrite E1 in L. exact L. }
  destruct (mman_pages st1 (∅ ∪ pages_in 8192 2) Hi1) as [_ H1].
  destruct (H1 0%nat (Chunk 8192 8192 2) 12288 100 1) as (st2 & E2 & Hi2 & _ & F2).
  { rewrite L1. do 2 (split; [reflexivity |]). split; [lia |]. split; [reflexivity |]. do 2 (split; [vm_compute; discriminate |]). apply (bool_decide_unpack _). vm_compute. exact I. }
  assert (mmc_list st2 = [Chunk 8192 8192 1]) as L2.
  { clear -E2 L1. destruct st1 as [l m f]. cbn in L1. subst l. vm_compute in E2. injection E2 as <-. reflexivity. }
  destruct (mman_pages st2 _ Hi2) as [_ H2].
  destruct (H2 0%nat (Chunk 8192 8192 1) 8192 4096 1) as (st3 & E3 & _ & _ & F3).
  { rewrite L2. do 2 (split; [reflexivity |]). split; [lia |]. split; [reflexivity |]. do 2 (split; [vm_compute; discriminate |]). apply (bool_decide_unpack _). vm_compute. exact I. }
  exists st1, st2, st3. rewrite decide_False in F2 by (intros X; assert (bool_decide ((∅ ∪ pages_in 8192 2) ∖ pages_in 12288 1 ∩ chunk_pages (Chunk 8192 8192 2) = ∅) = false) as Y
    by (vm_compute; reflexivity); rewrite bool_decide_true in Y by exact X; discriminate Y).
  rewrite decide_True in F3 by (apply (bool_decide_unpack _); vm_compute; exact I).
  rewrite F2, F1 in F3. split; [exact E1 |]. split; [exact E2 |]. split; [rewrite F2, F1; reflexivity |]. split; [exact E3 | exact F3].
Defined.

(** Pages are counted, not remembered: unmapping one page twice gives back a
    mapping of two pages while the other page is in use. *)
Example unmap_twice_frees :
  (r ← mmapmem_free 8192 4096 (Mman [Chunk 8192 8192 2] ∅ []);
   r ← mmapmem_free 8192 4096 r.2; Done (r.1, mmc_list r.2, mm_freed r.2)) = Done (0, [], [(8192, 8192)]).
Proof. reflexivity. Qed.

(** A file that cannot be mapped leaves its mapping behind. *)
Example failed_mmap_leaks :
  (r ← mmap demo_kenv 4096 PROT_READ 0 5 0 demo_mman; Done (r.1.1, r.1.2, mmc_list r.2)) =
  Done (MAP_FAILED, EBADF, [Chunk 8192 4096 1]).
Proof. reflexivity. Qed.

(** [msync] refuses contradictory flags only below the wrapper, which drops them. *)
Example msync_flags_dropped :
  sys___msync13 8192 (Z.lor MS_SYNC MS_ASYNC) = EINVAL /\ _sys___msync13 8192 4096 (Z.lor MS_SYNC MS_ASYNC) = (0, 0).
Proof. split; reflexivity. Qed.
