(* ===== verification/Lwp.v ===== *)
(** * Light-weight processes (lib/librumprun_base/_lwp.c)

    The threads of the POSIX world: a registry of LWPs on top of the
    scheduler, reached through [Scheduler].  The structures live on a heap;
    [me] is a thread-local variable, found through the thread's control block.
    The rump kernel's own notion of a current LWP is [kcurlwp]; what its calls
    answer is an argument.  The numbers are those of the NetBSD headers. *)

From S2P Require Import Prelude Sched SchedIface RumpuserBase.
From S2P Require Import SchedMach SchedThms SynchThms.

Definition FIRST_LWPID : Z := 1.
Definition LWPCTL_CPU_NONE : Z := -1.
Definition LWPCTL_CPU_EXITED : Z := -2.
Definition EBUSY : Z := 16.
Definition ESRCH : Z := 3.
Definition ENOMEM : Z := 12.
Definition ETIMEDOUT : Z := 60.
Definition TIMER_ABSTIME : Z := 1.
Definition MAXCOMLEN : nat := 16.

Record rumprun_lwp := Rl {
  rl_thread : Z;
  rl_lwpid : Z;
  rl_name : list Z;
  rl_start : Z;
  rl_arg : Z;
  lc_curcpu : Z;
  lc_pctr : Z;
  rl_no_parking_hare : Z
}.

Definition rl_zero : rumprun_lwp := Rl 0 0 [] 0 0 0 0 0.
Definition rl_with_curcpu (c n : Z) (r : rumprun_lwp) : rumprun_lwp :=
  Rl (rl_thread r) (rl_lwpid r) (rl_name r) (rl_start r) (rl_arg r) c n (rl_no_parking_hare r).
Definition rl_with_name (l : list Z) (r : rumprun_lwp) : rumprun_lwp :=
  Rl (rl_thread r) (rl_lwpid r) l (rl_start r) (rl_arg r) (lc_curcpu r) (lc_pctr r) (rl_no_parking_hare r).
Definition rl_with_thread (t : Z) (r : rumprun_lwp) : rumprun_lwp :=
  Rl t (rl_lwpid r) (rl_name r) (rl_start r) (rl_arg r) (lc_curcpu r) (lc_pctr r) (rl_no_parking_hare r).
Definition rl_with_parking (n : Z) (r : rumprun_lwp) : rumprun_lwp :=
  Rl (rl_thread r) (rl_lwpid r) (rl_name r) (rl_start r) (rl_arg r) (lc_curcpu r) (lc_pctr r) n.

Record lwps (S : Type) := Lwps {
  rls : gmap Z rumprun_lwp;    (** the structures *)
  all_lwp : list Z;            (** their addresses, oldest first *)
  curlwpid : Z;
  mes : gmap Z Z;              (** [me], by control block *)
  kcurlwp : Z;
  errno : Z;
  sch : S
}.
Arguments Lwps {S} _ _ _ _ _ _ _.
Arguments rls {S} _.
Arguments all_lwp {S} _.
Arguments curlwpid {S} _.
Arguments mes {S} _.
Arguments kcurlwp {S} _.
Arguments errno {S} _.
Arguments sch {S} _.

Section Lwp.
  Context {S : Type} `{!Scheduler S}.
  (** [&mainthread]. *)
  Context (mainthread : Z).
  Implicit Types st : lwps S.

Definition with_rls (m : gmap Z rumprun_lwp) st : lwps S :=
  Lwps m (all_lwp st) (curlwpid st) (mes st) (kcurlwp st) (errno st) (sch st).
Definition with_all (l : list Z) st : lwps S :=
  Lwps (rls st) l (curlwpid st) (mes st) (kcurlwp st) (errno st) (sch st).
Definition with_curlwpid (n : Z) st : lwps S :=
  Lwps (rls st) (all_lwp st) n (mes st) (kcurlwp st) (errno st) (sch st).
Definition with_mes (m : gmap Z Z) st : lwps S :=
  Lwps (rls st) (all_lwp st) (curlwpid st) m (kcurlwp st) (errno st) (sch st).
Definition with_kcur (n : Z) st : lwps S :=
  Lwps (rls st) (all_lwp st) (curlwpid st) (mes st) n (errno st) (sch st).
Definition with_errno (n : Z) st : lwps S :=
  Lwps (rls st) (all_lwp st) (curlwpid st) (mes st) (kcurlwp st) n (sch st).
Definition with_sch (s : S) st : lwps S :=
  Lwps (rls st) (all_lwp st) (curlwpid st) (mes st) (kcurlwp st) (errno st) s.

Definition rl_at st (p : Z) : outcome rumprun_lwp := of_option "rl" (rls st !! p).
Definition rl_put (p : Z) (r : rumprun_lwp) st : lwps S := with_rls (<[p := r]> (rls st)) st.
Definition me_at st (tcb : Z) : outcome Z := of_option "me" (mes st !! tcb).
Definition assignme (tcb value : Z) st : lwps S := with_mes (<[tcb := value]> (mes st)) st.

(** ** Creation *)

(** What the environment answers to [rumprun_makelwp]: the address from
    [calloc] (0 without memory), the error of [newlwp] and the LWP it switches
    to, the address [bmk_xmalloc_bmk] gives the new thread (0 without memory)
    and the stack [stackalloc] finds when the caller brings none. *)
Record makeenv := MakeEnv { me_calloc : Z; me_newlwp : Z; me_lwp : Z; me_thread : Z; me_stack : Z }.

(** The call of [bmk_sched_create_withtls]: it halts without memory, so what
    it returns is never null. *)
Definition create_withtls (e : makeenv) (cookie stack_base stack_size : Z) st : outcome (Z * lwps S) :=
  if me_thread e =? 0 then Halt "xmalloc failed"
  else
    _ ← bmk_assert (negb (stack_base =? 0) || (stack_size =? 0)) "stack_size == 0";
    s ← sc_create (sch st) (me_thread e) (if stack_base =? 0 then me_stack e else stack_base) cookie (negb (stack_base =? 0)) false;
    Done (me_thread e, with_sch s st).

(** [++curlwpid] on an [int]. *)
Definition next_lwpid (n : Z) : outcome Z := if n <? 2 ^ 31 - 1 then Done (n + 1) else Undef "++curlwpid".

Definition rumprun_makelwp (e : makeenv) (start arg private stack_base stack_size : Z) st
    : outcome (Z * option Z * lwps S) :=
  let rl := me_calloc e in
  if rl =? 0 then Done (ENOMEM, None, with_errno ENOMEM st)
  else
    let st := rl_put rl rl_zero st in
    let st := assignme private rl st in
    let curlwp := kcurlwp st in
    let st := with_errno (me_newlwp e) st in
    if negb (me_newlwp e =? 0) then Done (errno st, None, with_rls (delete rl (rls st)) st)
    else
      let st := with_kcur (me_lwp e) st in
      n ← next_lwpid (curlwpid st);
      let st := with_curlwpid n st in
      let st := rl_put rl (Rl 0 n [] start arg 0 0 0) st in
      '(thread, st) ← create_withtls e rl stack_base stack_size st;
      let st := rl_put rl (Rl thread n [] start arg 0 0 0) st in
      if thread =? 0 then
        let st := with_rls (delete rl (rls st)) st in
        (* releaselwp, then switch *)
        let st := with_kcur curlwp st in
        Done (EBUSY, None, st)
      else
        let st := with_kcur curlwp st in
        Done (0, Some n, with_all (all_lwp st ++ [rl]) st).

(** ** Lookup and wakeup *)

Fixpoint find_lwp st (lid : Z) (l : list Z) : outcome (option Z) :=
  match l with
  | [] => Done None
  | rl :: l => r ← rl_at st rl; if rl_lwpid r =? lid then Done (Some rl) else find_lwp st lid l
  end.

Definition lwpid2rl st (lid : Z) : outcome (option Z) :=
  if lid =? 0 then Done (Some mainthread) else find_lwp st lid (all_lwp st).

(** Wakes the thread of the LWP; [err] is the result for an unknown id. *)
Definition wake_lwp (err : Z) (lid : Z) st : outcome (Z * lwps S) :=
  rl ← lwpid2rl st lid;
  match rl with
  | None => Done (err, st)
  | Some rl => r ← rl_at st rl; s ← sc_wake (sch st) (rl_thread r); Done (0, with_sch s st)
  end.

Definition _lwp_unpark (lid : Z) st : outcome (Z * lwps S) := wake_lwp (-1) lid st.
Definition _lwp_wakeup (lid : Z) st : outcome (Z * lwps S) := wake_lwp ESRCH lid st.

Fixpoint unpark_loop (targets : list Z) (rv : Z) st : outcome (Z * lwps S) :=
  match targets with
  | [] => Done (rv, st)
  | t :: targets =>
      '(e, st) ← _lwp_unpark t st;
      unpark_loop targets (if negb (e =? 0) then rv - 1 else rv) st
  end.

(** [None] is a null pointer. *)
Definition _lwp_unpark_all (targets : option (list Z)) st : outcome (Z * lwps S) :=
  match targets with
  | None => Done (1024, st)
  | Some l => unpark_loop l (Z.of_nat (length l)) st
  end.

(** Called by the scheduler at every switch; a cookie may be null. *)
Definition schedhook (prev next : Z) st : outcome (lwps S) :=
  st ← (if prev =? 0 then Done st
        else
          r ← rl_at st prev;
          Done (if negb (lc_curcpu r =? LWPCTL_CPU_EXITED)
                then rl_put prev (rl_with_curcpu LWPCTL_CPU_NONE (lc_pctr r) r) st else st));
  if next =? 0 then Done st
  else r ← rl_at st next; Done (rl_put next (rl_with_curcpu 0 (lc_pctr r + 1) r) st).

(** [thread] is what [bmk_sched_init_mainlwp] returns. *)
Definition rumprun_lwp_init (tcb thread : Z) st : outcome (lwps S) :=
  let st := assignme tcb mainthread st in
  r ← rl_at st mainthread;
  let st := rl_put mainthread (rl_with_thread thread r) st in
  me ← me_at st tcb;
  Done (with_all (all_lwp st ++ [me]) st).

(** ** Parking *)

Definition park_deadline (abs : bool) (tv_sec tv_nsec epochoffset monotonic : Z) : outcome Z :=
  n ← as_int64 (tv_sec * 1000);
  n ← as_int64 (n * 1000);
  n ← as_int64 (n * 1000);
  nsecs ← as_int64 (n + tv_nsec);
  as_int64 (if abs then nsecs - epochoffset else nsecs + monotonic).

(** Up to the point where the thread is switched away; [Some] is a return
    without blocking. *)
Definition _lwp_park (tcb flags : Z) (ts : option (Z * Z)) (unpark epochoffset : Z) (env : list reply) st
    : outcome (option Z * lwps S) :=
  st ← (if unpark =? 0 then Done st else '(_, st) ← _lwp_unpark unpark st; Done st);
  me ← me_at st tcb;
  r ← rl_at st me;
  if negb (rl_no_parking_hare r =? 0) then Done (Some 0, rl_put me (rl_with_parking 0 r) st)
  else
    d ← match ts with
        | Some (tv_sec, tv_nsec) =>
            park_deadline (negb (Z.land flags TIMER_ABSTIME =? 0)) tv_sec tv_nsec epochoffset (sc_clock (sch st))
        | None => Done BMK_SCHED_BLOCK_INFTIME
        end;
    s ← sc_prepare (sch st) d;
    s ← sc_block env s;
    Done (None, with_sch s st).

(** The rest of it, with the result of [bmk_sched_block]. *)
Definition _lwp_park_return (rv : Z) st : outcome (Z * lwps S) :=
  _ ← bmk_assert ((rv =? 0) || (rv =? ETIMEDOUT)) "rv == 0 || rv == ETIMEDOUT";
  if negb (rv =? 0) then Done (-1, with_errno rv st) else Done (0, st).

(** ** Exit and the rest *)

(** Up to [bmk_sched_exit_withtls], which does not return. *)
Definition _lwp_exit (tcb : Z) st : outcome (lwps S) :=
  me ← me_at st tcb;
  r ← rl_at st me;
  let st := rl_put me (rl_with_curcpu LWPCTL_CPU_EXITED (lc_pctr r) r) st in
  let st := with_kcur 0 st in
  if negb (bool_decide (me ∈ all_lwp st)) then Undef "TAILQ_REMOVE" else
  let st := with_all (filter (fun x => x <> me) (all_lwp st)) st in
  Done (assignme tcb 0 st).

Definition _lwp_continue (lid : Z) st : outcome (Z * lwps S) :=
  rl ← lwpid2rl st lid;
  match rl with None => Done (ESRCH, st) | Some _ => Halt "sched_unsuspend unimplemented" end.
Definition _lwp_suspend (lid : Z) st : outcome (Z * lwps S) :=
  rl ← lwpid2rl st lid;
  match rl with None => Done (ESRCH, st) | Some _ => Halt "sched_suspend unimplemented" end.

Definition _lwp_setname (lid : Z) (name : list Z) st : outcome (Z * lwps S) :=
  rl ← lwpid2rl st lid;
  match rl with
  | None => Done (ESRCH, st)
  | Some rl => r ← rl_at st rl; Done (0, rl_put rl (rl_with_name (take MAXCOMLEN name) r) st)
  end.

Definition _lwp_self (tcb : Z) st : outcome Z := me ← me_at st tcb; r ← rl_at st me; Done (rl_lwpid r).
End Lwp.

(** * The registry of light-weight processes *)


Section Registry.
  Context {S : Type} `{!Scheduler S}.
  Context (mainthread : Z).
  Implicit Types st : lwps S.

(** Registered LWPs have a structure, a thread that exists, and an id of their
    own between the first and the last one given out. *)
Record lwp_ok st : Prop := {
  lw_nodup : NoDup (all_lwp st);
  lw_struct : forall p, p ∈ all_lwp st -> exists r, rls st !! p = Some r /\
    FIRST_LWPID <= rl_lwpid r <= curlwpid st /\ sc_alive (sch st) (rl_thread r);
  lw_ids : forall p q r r', p ∈ all_lwp st -> q ∈ all_lwp st -> rls st !! p = Some r -> rls st !! q = Some r' ->
    rl_lwpid r = rl_lwpid r' -> p = q;
  lw_cur : FIRST_LWPID <= curlwpid st;
  lw_sched : sc_ok (sch st)
}.

(** The LWP at [p] is registered with id [lid]. *)
Definition registered st (lid p : Z) : Prop := p ∈ all_lwp st /\ exists r, rls st !! p = Some r /\ rl_lwpid r = lid.

Lemma find_lwp_ok st lid l :
  (forall p, p ∈ l -> exists r, rls st !! p = Some r) ->
  (forall p q r r', p ∈ l -> q ∈ l -> rls st !! p = Some r -> rls st !! q = Some r' -> rl_lwpid r = rl_lwpid r' -> p = q) ->
  exists o, find_lwp st lid l = Done o /\
    match o with
    | Some p => p ∈ l /\ exists r, rls st !! p = Some r /\ rl_lwpid r = lid
    | None => forall p r, p ∈ l -> rls st !! p = Some r -> rl_lwpid r <> lid
    end.
Proof.
  induction l as [| q l IH]; intros Hs Hu; cbn [find_lwp].
  { exists None. split; [done |]. intros p r Hp. by apply elem_of_nil in Hp. }
  destruct (Hs q) as [r Hr]; [by left |]. unfold rl_at. rewrite Hr, of_option_Some, Done_bind.
  destruct (Z.eqb_spec (rl_lwpid r) lid) as [E | E].
  { exists (Some q). split; [done |]. split; [by left | eauto]. }
  destruct IH as (o & -> & Ho).
  { intros p Hp. apply Hs. by right. }
  { intros p q' r1 r2 Hp Hq. apply Hu; by right. }
  exists o. split; [done |]. destruct o as [p |].
  - destruct Ho as [? ?]. split; [by right | done].
  - intros p r' [-> | Hp]%elem_of_cons Hr'; [congruence | eauto].
Qed.

Lemma lwpid2rl_ok st lid : lwp_ok st -> lid <> 0 ->
  exists o, lwpid2rl mainthread st lid = Done o /\
    match o with Some p => registered st lid p | None => forall p, ~ registered st lid p end.
Proof.
  intros [Hnd Hst Hid _ _] Hl. unfold lwpid2rl. destruct (Z.eqb_spec lid 0); [done |].
  destruct (find_lwp_ok st lid (all_lwp st)) as (o & -> & Ho).
  { intros p Hp. destruct (Hst p Hp) as (r & ? & _). eauto. }
  { done. }
  exists o. split; [done |]. destruct o as [p |]; [done |]. intros p (Hp & r & Hr & E). by apply (Ho p r).
Qed.

Lemma registered_unique st lid p q : lwp_ok st -> registered st lid p -> registered st lid q -> p = q.
Proof. intros Hok (Hp & r & Hr & E) (Hq & r' & Hr' & E'). apply (lw_ids _ Hok p q r r'); congruence. Qed.

(** Waking a registered LWP: its thread becomes runnable, and no other. *)
Lemma wake_lwp_ok st err lid :
  lwp_ok st -> lid <> 0 -> sc_user (sch st) ->
  (exists p r s', registered st lid p /\ rls st !! p = Some r /\ wake_lwp mainthread err lid st = Done (0, with_sch s' st) /\
     lwp_ok (with_sch s' st) /\ sc_user s' /\ sc_runnable s' (rl_thread r) /\
     (forall u, sc_runnable (sch st) u -> sc_runnable s' u) /\
     (forall u, u <> rl_thread r -> sc_runnable s' u -> sc_runnable (sch st) u)) \/
  ((forall p, ~ registered st lid p) /\ wake_lwp mainthread err lid st = Done (err, st)).
Proof.
  intros Hok Hl Hu. unfold wake_lwp. destruct (lwpid2rl_ok st lid Hok Hl) as ([p |] & -> & Ho); rewrite Done_bind; [left | by right].
  pose proof Ho as (Hp & r & Hr & E). destruct (lw_struct _ Hok p Hp) as (r' & Hr' & _ & Ha).
  assert (r' = r) as -> by congruence. unfold rl_at. rewrite Hr, of_option_Some, Done_bind.
  destruct (sc_wake_ok (sch st) (rl_thread r) (lw_sched _ Hok) Hu Ha) as (s' & -> & Hs & Hu' & _ & _ & Hrun & Hal & Hk & Ho').
  rewrite Done_bind. exists p, r, s'. split; [done |]. split; [done |]. split; [done |].
  split; [| done]. destruct Hok as [H1 H2 H3 H4 H5]. split; try done.
  intros q Hq. destruct (H2 q Hq) as (rq & ? & ? & ?). cbn. eauto.
Qed.

(** Creating an LWP. *)
Definition creatable (e : makeenv) (stack_base stack_size : Z) st : Prop :=
  me_calloc e <> 0 /\ rls st !! me_calloc e = None /\ me_newlwp e = 0 /\ me_thread e <> 0 /\
  sc_fresh (sch st) (me_thread e) /\ (stack_base <> 0 \/ stack_size = 0) /\ curlwpid st < 2 ^ 31 - 1.

Lemma makelwp_ok st e start arg private stack_base stack_size :
  lwp_ok st -> sc_user (sch st) -> creatable e stack_base stack_size st ->
  exists s', rumprun_makelwp e start arg private stack_base stack_size st =
      Done (0, Some (curlwpid st + 1),
        Lwps (<[me_calloc e := Rl (me_thread e) (curlwpid st + 1) [] start arg 0 0 0]> (rls st))
          (all_lwp st ++ [me_calloc e]) (curlwpid st + 1) (<[private := me_calloc e]> (mes st)) (kcurlwp st) 0 s') /\
    sc_ok s' /\ sc_user s' /\ sc_alive s' (me_thread e) /\ (forall u, sc_alive (sch st) u -> sc_alive s' u) /\
    sc_runnable s' (me_thread e) /\ (forall u, u <> me_thread e -> (sc_runnable s' u <-> sc_runnable (sch st) u)).
Proof.
  intros Hok Hu (Hc & Hf & Hn & Ht & Hfr & Hs & Hb). unfold rumprun_makelwp, create_withtls, next_lwpid. cbv zeta.
  destruct (Z.eqb_spec (me_calloc e) 0); [done |]. rewrite Hn. cbn [negb Z.eqb].
  destruct (Z.eqb_spec (me_thread e) 0); [done |].
  assert (negb (stack_base =? 0) || (stack_size =? 0) = true) as -> by (destruct (Z.eqb_spec stack_base 0), (Z.eqb_spec stack_size 0); try done; lia).
  cbn [curlwpid with_kcur with_errno assignme with_mes rl_put with_rls]. rewrite (proj2 (Z.ltb_lt _ _) Hb), Done_bind.
  unfold bmk_assert. rewrite Done_bind.
  destruct (sc_create_ok (sch st) (me_thread e) (if stack_base =? 0 then me_stack e else stack_base) (me_calloc e) (negb (stack_base =? 0)) false
    (lw_sched _ Hok) Hu Hfr) as (s' & Es & H1 & H2 & _ & H3 & H4 & H5 & H6).
  exists s'. split; [| done]. cbn [sch rl_put with_rls with_curlwpid with_kcur with_errno assignme with_mes]. rewrite Es, !Done_bind.
  destruct (Z.eqb_spec (me_thread e) 0); [done |]. rewrite <- Hn. unfold with_all, with_kcur, with_sch, rl_put, with_rls. cbn. by rewrite !insert_insert_eq, Hn.
Qed.

(** The registry with one more LWP, under the next id. *)
Lemma registry_grows st rl thread start arg mm err s' :
  lwp_ok st -> rls st !! rl = None -> sc_ok s' -> sc_alive s' thread -> (forall u, sc_alive (sch st) u -> sc_alive s' u) ->
  let st' := Lwps (<[rl := Rl thread (curlwpid st + 1) [] start arg 0 0 0]> (rls st))
    (all_lwp st ++ [rl]) (curlwpid st + 1) mm (kcurlwp st) err s' in
  lwp_ok st' /\ (forall p, ~ registered st (curlwpid st + 1) p) /\
  (forall lid p, registered st' lid p <-> registered st lid p \/ (lid = curlwpid st + 1 /\ p = rl)).
Proof.
  intros [H1 H2 H3 H4 H5] Hf Hs Ht Ha st'.
  assert (forall p, p ∈ all_lwp st -> p <> rl) as Hne by (intros p Hp ->; destruct (H2 rl Hp) as (r & Hr & _); congruence).
  assert (forall p, p ∈ all_lwp st -> rls st' !! p = rls st !! p) as Hold by (intros p Hp; cbn; rewrite lookup_insert_ne; [done | by apply not_eq_sym, Hne]).
  assert (rls st' !! rl = Some (Rl thread (curlwpid st + 1) [] start arg 0 0 0)) as Hnew by apply lookup_insert_eq.
  assert (forall p r, p ∈ all_lwp st -> rls st !! p = Some r -> rl_lwpid r <> curlwpid st + 1) as Hfresh.
  { intros p r Hp Hr. destruct (H2 p Hp) as (r' & Hr' & Hb & _). assert (r' = r) as -> by congruence. lia. }
  assert (forall p, p ∈ all_lwp st' <-> p ∈ all_lwp st \/ p = rl) as Hin by (intros p; cbn; rewrite elem_of_app, list_elem_of_singleton; done).
  split; [split |].
  - cbn. apply NoDup_app. split; [done |]. split; [| apply NoDup_singleton]. intros p Hp ->%list_elem_of_singleton. by apply (Hne rl).
  - intros p [Hp | ->]%Hin; [| eexists; split; [exact Hnew |]; cbn; split; [lia | done]]. rewrite Hold by done.
    destruct (H2 p Hp) as (r & Hr & Hb & Hal). exists r. split; [done |]. cbn. split; [lia | auto].
  - intros p q r r' [Hp | ->]%Hin [Hq | ->]%Hin Hr Hr' E; [rewrite Hold in Hr, Hr' by done; by apply (H3 p q r r') | rewrite Hold in Hr by done | rewrite Hold in Hr' by done | done];
      rewrite Hnew in *; simplify_eq; cbn in E; by edestruct Hfresh.
  - cbn. lia.
  - done.
  - split; [intros p (Hp & r & Hr & E); by apply (Hfresh p r) |]. intros lid p. unfold registered. rewrite Hin. split.
    + intros [[Hp | ->] (r & Hr & E)]; [left; rewrite Hold in Hr by done; eauto | right]. rewrite Hnew in Hr. by simplify_eq.
    + intros [(Hp & r & Hr & E) | [-> ->]]; [split; [by left | exists r; by rewrite Hold] | split; [by right | eauto]].
Qed.

(** Without memory, when the rump kernel refuses, and when ids or memory for
    the thread run out. *)
Lemma makelwp_fails st e start arg private stack_base stack_size :
  (me_calloc e = 0 -> rumprun_makelwp e start arg private stack_base stack_size st = Done (ENOMEM, None, with_errno ENOMEM st)) /\
  (me_calloc e <> 0 -> rls st !! me_calloc e = None -> me_newlwp e <> 0 ->
     rumprun_makelwp e start arg private stack_base stack_size st =
       Done (me_newlwp e, None, with_errno (me_newlwp e) (assignme private (me_calloc e) st))) /\
  (me_calloc e <> 0 -> me_newlwp e = 0 -> curlwpid st = 2 ^ 31 - 1 ->
     rumprun_makelwp e start arg private stack_base stack_size st = Undef "++curlwpid") /\
  (me_calloc e <> 0 -> me_newlwp e = 0 -> curlwpid st < 2 ^ 31 - 1 -> me_thread e = 0 ->
     rumprun_makelwp e start arg private stack_base stack_size st = Halt "xmalloc failed").
Proof.
  unfold rumprun_makelwp, create_withtls, next_lwpid. cbv zeta. repeat split.
  - intros ->. done.
  - intros Hc Hf Hn. rewrite (proj2 (Z.eqb_neq _ _) Hc), (proj2 (Z.eqb_neq _ _) Hn). cbn [negb]. unfold with_errno, assignme, with_mes, rl_put, with_rls. cbn.
    by rewrite delete_insert_id.
  - intros Hc -> Hn. rewrite (proj2 (Z.eqb_neq _ _) Hc). cbn. rewrite Hn. done.
  - intros Hc -> Hn ->. rewrite (proj2 (Z.eqb_neq _ _) Hc). cbn [negb Z.eqb curlwpid with_kcur with_errno assignme with_mes rl_put with_rls].
    by rewrite (proj2 (Z.ltb_lt _ _) Hn), Done_bind.
Qed.

(** ** Waking many *)

Definition known st (lid : Z) : bool := match lwpid2rl mainthread st lid with Done (Some _) => true | _ => false end.

Lemma find_lwp_ext st st' lid l : rls st' = rls st -> find_lwp st' lid l = find_lwp st lid l.
Proof.
  intros E. induction l as [| p l IH]; [done |]. cbn [find_lwp]. unfold rl_at. rewrite E.
  destruct (rls st !! p); [| done]. rewrite of_option_Some, !Done_bind. by destruct (_ =? _).
Qed.

Lemma known_ext st st' lid : rls st' = rls st -> all_lwp st' = all_lwp st -> known st' lid = known st lid.
Proof. intros E1 E2. unfold known, lwpid2rl. by rewrite E2, (find_lwp_ext st st'). Qed.

Lemma known_registered st lid : lwp_ok st -> lid <> 0 -> (known st lid = true <-> exists p, registered st lid p).
Proof.
  intros Hok Hl. unfold known. destruct (lwpid2rl_ok st lid Hok Hl) as ([q |] & -> & Ho); split; try done; [eauto |].
  intros [p Hp]. by destruct (Ho p).
Qed.

(** The thread [u] belongs to a registered LWP with one of these ids. *)
Definition thread_of st (targets : list Z) (u : Z) : Prop :=
  exists lid p r, lid ∈ targets /\ registered st lid p /\ rls st !! p = Some r /\ rl_thread r = u.

Lemma unpark_loop_ok targets : forall rv st,
  lwp_ok st -> sc_user (sch st) -> Forall (fun t => t <> 0) targets ->
  exists s', unpark_loop mainthread targets rv st =
    Done (rv - Z.of_nat (length (filter (fun t => known st t = false) targets)), with_sch s' st) /\ lwp_ok (with_sch s' st) /\ sc_user s' /\
    (forall u, sc_runnable s' u <-> sc_runnable (sch st) u \/ thread_of st targets u).
Proof.
  induction targets as [| t targets IH]; intros rv st Hok Hu Ht; cbn [unpark_loop].
  { exists (sch st). rewrite Z.sub_0_r. destruct st. split; [done |]. split; [done |]. split; [done |]. intros u. split; [by left |].
    intros [? | (lid & p & r & Hn & _)]; [done | by apply elem_of_nil in Hn]. }
  apply Forall_cons in Ht as [Ht Hts]. unfold _lwp_unpark.
  destruct (wake_lwp_ok st (-1) t Hok Ht Hu) as [(p & r & s1 & Hreg & Hr & -> & Hok' & Hu' & Hrun & Hk & Ho) | [Hnot ->]]; rewrite Done_bind.
  - cbn [negb Z.eqb]. destruct (IH rv (with_sch s1 st) Hok' Hu' Hts) as (s2 & -> & Hok2 & Hu2 & H2). exists s2.
    assert (known st t = true) as Hkn by (apply known_registered; eauto).
    rewrite (filter_cons_False _ t) by congruence. split; [| split; [done |]; split; [done |]].
    + do 2 f_equal. f_equal. f_equal. f_equal. apply list_filter_iff. intros x. by rewrite (known_ext st (with_sch s1 st)).
    + intros u. rewrite H2. cbn [sch with_sch]. split.
      * intros [Hx | (lid & q & rq & Hl & Hq & Hrq & E)]; [| right; exists lid, q, rq; split; [by right | done]].
        destruct (decide (u = rl_thread r)) as [-> | Hne]; [right; exists t, p, r; split; [by left | done] | left; auto].
      * intros [Hx | (lid & q & rq & [-> | Hl]%elem_of_cons & Hq & Hrq & <-)]; [auto | | right; by exists lid, q, rq].
        assert (q = p) as -> by (by eapply registered_unique). left. congruence.
  - change (negb (-1 =? 0)) with true. cbv iota.
    destruct (IH (rv - 1) st Hok Hu Hts) as (s2 & -> & ? & ? & H2). exists s2.
    assert (known st t = false) as Hkn.
    { destruct (known st t) eqn:E; [| done]. apply known_registered in E as [q Hq]; try done. by destruct (Hnot q). }
    rewrite (filter_cons_True _ t) by done. split; [do 2 f_equal; cbn [length]; lia |]. split; [done |]. split; [done |].
    intros u. rewrite H2. split; (intros [Hx | (lid & q & rq & Hl & Hq & Hrq & E)]; [by left | right; exists lid, q, rq]).
    + split; [by right | done].
    + apply elem_of_cons in Hl as [-> | Hl]; [by destruct (Hnot q) | done].
Qed.

(** ** Exit *)

Lemma lwp_exit_ok st tcb me r :
  lwp_ok st -> mes st !! tcb = Some me -> me ∈ all_lwp st -> rls st !! me = Some r ->
  exists st', _lwp_exit tcb st = Done st' /\ lwp_ok st' /\ mes st' !! tcb = Some 0 /\
    (forall lid p, registered st' lid p <-> registered st lid p /\ p <> me).
Proof.
  intros [H1 H2 H3 H4 H5] Hm Hin Hr. unfold _lwp_exit, me_at. rewrite Hm, of_option_Some, Done_bind.
  unfold rl_at. rewrite Hr, of_option_Some, Done_bind. cbv zeta. cbn [all_lwp rl_put with_rls with_kcur].
  rewrite bool_decide_true by done. cbn [negb]. eexists. split; [done |].
  set (m := <[me := rl_with_curcpu LWPCTL_CPU_EXITED (lc_pctr r) r]> (rls st)).
  assert (forall p, p ∈ filter (fun x => x <> me) (all_lwp st) <-> p ∈ all_lwp st /\ p <> me) as Hf
    by (intros p; rewrite list_elem_of_filter; tauto).
  assert (forall p, p <> me -> m !! p = rls st !! p) as Hms by (intros p Hp; unfold m; by rewrite lookup_insert_ne).
  split; [split; cbn |].
  - by apply NoDup_filter.
  - intros p [Hp Hne]%Hf. rewrite Hms by done. by apply H2.
  - intros p q x y [Hp Hpe]%Hf [Hq Hqe]%Hf. rewrite !Hms by done. by apply H3.
  - done.
  - done.
  - split; [cbn; by rewrite lookup_insert_eq |]. intros lid p. unfold registered. cbn. rewrite Hf. split.
    + intros ([Hp Hne] & x & Hx & E). rewrite Hms in Hx by done. eauto.
    + intros ((Hp & x & Hx & E) & Hne). split; [done |]. exists x. by rewrite Hms.
Qed.

(** C26. The registry of LWPs.  As long as ids are left ([curlwpid] is an [int])
    and the addresses from [calloc] and for the new thread are unused,
    creating an LWP gives it the next id, which no other has, makes its new
    thread runnable and no other, adds nothing else to the registry and leaves
    the rump kernel's current LWP alone.  Without memory for the structure only
    [errno] changes; when the rump kernel refuses a new LWP only [errno] and
    the [me] of the new thread's TLS area do, the latter pointing to the freed
    structure; without memory for the thread the system halts, and an exhausted
    [curlwpid] is undefined.  Unparking a registered id other than 0 makes that
    LWP's thread runnable and changes nothing else, an unknown id is an error without
    effect, and [_lwp_unpark_all] makes the threads of its registered targets
    runnable, no others, and returns how many targets were registered.  An
    exiting LWP, and no other, leaves the registry. *)
Theorem lwp_registry st :
  lwp_ok st -> sc_user (sch st) ->
  (forall e start arg private stack_base stack_size, creatable e stack_base stack_size st ->
     exists st', rumprun_makelwp e start arg private stack_base stack_size st = Done (0, Some (curlwpid st + 1), st') /\ lwp_ok st' /\
       sc_user (sch st') /\ kcurlwp st' = kcurlwp st /\ mes st' = <[private := me_calloc e]> (mes st) /\
       (forall p, ~ registered st (curlwpid st + 1) p) /\
       (forall lid p, registered st' lid p <-> registered st lid p \/ (lid = curlwpid st + 1 /\ p = me_calloc e)) /\
       rls st' = <[me_calloc e := Rl (me_thread e) (curlwpid st + 1) [] start arg 0 0 0]> (rls st) /\
       sc_runnable (sch st') (me_thread e) /\
       (forall u, u <> me_thread e -> (sc_runnable (sch st') u <-> sc_runnable (sch st) u))) /\
  (forall e start arg private stack_base stack_size,
     (me_calloc e = 0 -> rumprun_makelwp e start arg private stack_base stack_size st = Done (ENOMEM, None, with_errno ENOMEM st)) /\
     (me_calloc e <> 0 -> rls st !! me_calloc e = None -> me_newlwp e <> 0 ->
        rumprun_makelwp e start arg private stack_base stack_size st =
          Done (me_newlwp e, None, with_errno (me_newlwp e) (assignme private (me_calloc e) st))) /\
     (me_calloc e <> 0 -> me_newlwp e = 0 -> curlwpid st = 2 ^ 31 - 1 ->
        rumprun_makelwp e start arg private stack_base stack_size st = Undef "++curlwpid") /\
     (me_calloc e <> 0 -> me_newlwp e = 0 -> curlwpid st < 2 ^ 31 - 1 -> me_thread e = 0 ->
        rumprun_makelwp e start arg private stack_base stack_size st = Halt "xmalloc failed")) /\
  (forall lid, lid <> 0 ->
     (exists p r s', registered st lid p /\ rls st !! p = Some r /\ _lwp_unpark mainthread lid st = Done (0, with_sch s' st) /\
        lwp_ok (with_sch s' st) /\ sc_runnable s' (rl_thread r) /\
        (forall u, u <> rl_thread r -> (sc_runnable s' u <-> sc_runnable (sch st) u))) \/
     ((forall p, ~ registered st lid p) /\ _lwp_unpark mainthread lid st = Done (-1, st))) /\
  (forall targets, Forall (fun t => t <> 0) targets ->
     exists s', _lwp_unpark_all mainthread (Some targets) st =
       Done (Z.of_nat (length (filter (fun t => known st t = true) targets)), with_sch s' st) /\ lwp_ok (with_sch s' st) /\
       (forall u, sc_runnable s' u <-> sc_runnable (sch st) u \/ thread_of st targets u)) /\
  (forall tcb me r, mes st !! tcb = Some me -> me ∈ all_lwp st -> rls st !! me = Some r ->
     exists st', _lwp_exit tcb st = Done st' /\ lwp_ok st' /\
       (forall lid p, registered st' lid p <-> registered st lid p /\ p <> me)).
Proof.
  intros Hok Hu. split; [| split; [| split; [| split]]].
  - intros e start arg private base size Hc. pose proof Hc as (_ & Hf & _).
    destruct (makelwp_ok st e start arg private base size Hok Hu Hc) as (s' & -> & H1 & H2 & H3 & H4 & H5 & H6).
    destruct (registry_grows st (me_calloc e) (me_thread e) start arg (<[private := me_calloc e]> (mes st)) 0 s' Hok Hf H1 H3 H4) as (G1 & G2 & G3).
    eexists. split; [done |]. split; [done |]. do 5 (split; [done |]). done.
  - intros. apply makelwp_fails.
  - intros lid Hl. destruct (wake_lwp_ok st (-1) lid Hok Hl Hu) as [(p & r & s' & ? & ? & ? & ? & _ & ? & Hk & Ho) | ?]; [left | by right].
    exists p, r, s'. do 5 (split; [done |]). intros u Hne. split; auto.
  - intros targets Ht. destruct (unpark_loop_ok targets (Z.of_nat (length targets)) st Hok Hu Ht) as (s' & E & Hok' & _ & Hx).
    exists s'. split; [| done]. cbn [_lwp_unpark_all]. rewrite E. do 2 f_equal.
    clear. induction targets as [| t l IH]; [done |]. rewrite !filter_cons. cbn [length].
    destruct (known st t); repeat first [rewrite decide_True by done | rewrite decide_False by done]; cbn [length]; lia.
  - intros tcb me r H1 H2 H3. destruct (lwp_exit_ok st tcb me r Hok H1 H2 H3) as (st' & ? & ? & _ & ?). eauto.
Qed.
End Registry.

(** ** A run: the main LWP creates a second one *)

Definition demo_lwps : lwps mach :=
  Lwps {[ 64 := Rl 4096 1 [] 0 0 0 0 0 ]} [64] 1 {[ 16 := 64 ]} 7 0 demo_mach.

Lemma demo_lwps_ok : lwp_ok demo_lwps.
Proof.
  split; cbn.
  - apply NoDup_singleton.
  - intros p Hp. apply list_elem_of_singleton in Hp as ->. eexists. split; [reflexivity |]. split; [vm_compute; split; discriminate |].
    exists User. reflexivity.
  - intros p q r r' Hp Hq. apply list_elem_of_singleton in Hp as ->. by apply list_elem_of_singleton in Hq as ->.
  - done.
  - exact demo_ok.
Qed.

Lemma lwp_registry_witness : exists st',
  rumprun_makelwp (MakeEnv 128 0 8 8192 131072) 1000 0 32 0 0 demo_lwps = Done (0, Some 2, st') /\ lwp_ok st' /\ kcurlwp st' = 7 /\
  (exists r, rls st' !! 128 = Some r /\ rl_thread r = 8192) /\ sc_runnable (sch st') 8192 /\
  ~ (exists p, registered st' 3 p).
Proof.
  destruct (lwp_registry 64 demo_lwps demo_lwps_ok demo_user) as (H & _).
  destruct (H (MakeEnv 128 0 8 8192 131072) 1000 0 32 0 0) as (st' & E & Hok & _ & Hk & _ & _ & Hr & Hm & Hrun & _).
  { split; [discriminate |]. split; [reflexivity |]. split; [reflexivity |]. split; [discriminate |]. split; [reflexivity |]. split; [by right | reflexivity]. }
  exists st'. split; [exact E |]. split; [exact Hok |]. split; [exact Hk |]. split; [| split; [exact Hrun |]].
  - rewrite Hm. eexists. split; reflexivity.
  - intros [p [(Hp & r & Hp2 & Hi) | [? _]]%Hr]; [| discriminate]. apply list_elem_of_singleton in Hp as ->.
    vm_compute in Hp2. injection Hp2 as <-. discriminate.
Defined.

(** An exiting LWP leaves its structure on the heap. *)
Example exit_leaks : match _lwp_exit 16 demo_lwps with Done st => all_lwp st = [] /\ is_Some (rls st !! 64) | _ => False end.
Proof. vm_compute. split; [reflexivity |]. eexists. reflexivity. Qed.
