(* ===== verification/Parseargs.v ===== *)
(** * Splitting a command line (lib/librumprun_base/parseargs.c)

    [rumprun_parseargs] splits a line into arguments in place.  It is called
    twice: with no array, to count the arguments, and with an array for the
    pointers to them ([None] and [Some] here); only the second call writes. *)

From S2P Require Import Prelude Mem.

Definition INT_MAX : Z := 2147483647.

(** The local variables, the array and the memory. *)
Record pargs := Pargs {
  pa_p : Z;
  pa_out : Z;
  pa_quote : Z;
  pa_nargs : Z;
  pa_outarray : option (list Z);
  pa_mem : mem }.

(** [if (out) *out++ = c]. *)
Definition out_put (c : Z) (st : pargs) : outcome pargs :=
  if pa_out st =? 0 then Done st
  else
    m ← store8 (pa_mem st) (pa_out st) c;
    Done (Pargs (pa_p st) (pa_out st + 1) (pa_quote st) (pa_nargs st) (pa_outarray st) m).

Definition set_quote (q : Z) (st : pargs) : pargs :=
  Pargs (pa_p st) (pa_out st) q (pa_nargs st) (pa_outarray st) (pa_mem st).

(** The start of an argument: [outarray] gets its address, [nargs] counts it. *)
Definition start_arg (st : pargs) : outcome pargs :=
  let n := pa_nargs st in
  if n =? INT_MAX then Undef "nargs++"
  else
    match pa_outarray st with
    | None => Done (Pargs (pa_p st) (pa_out st) 0 (n + 1) None (pa_mem st))
    | Some arr =>
        if bool_decide (Z.to_nat n < length arr)%nat then
          Done (Pargs (pa_p st) (pa_p st - 1) 0 (n + 1) (Some (<[Z.to_nat n := pa_p st - 1]> arr)) (pa_mem st))
        else Undef "outarray[nargs]"
    end.

(** [int ac = *p++; int rc = ac; if (ac == '\\') rc = *p++]. *)
Definition next_char (st : pargs) : outcome (Z * Z * pargs) :=
  b ← load8 (pa_mem st) (pa_p st);
  let ac := schar b in
  let adv p := Pargs p (pa_out st) (pa_quote st) (pa_nargs st) (pa_outarray st) (pa_mem st) in
  if ac =? 92 then
    b ← load8 (pa_mem st) (pa_p st + 1);
    Done (ac, schar b, adv (pa_p st + 2))
  else Done (ac, ac, adv (pa_p st + 1)).

Definition is_blank (ac : Z) : bool := (ac =? 32) || (ac =? 10) || (ac =? 9).

(** The part of the loop body after the test for delimiters. *)
Definition arg_char (ac rc : Z) (st : pargs) : outcome pargs :=
  st ← (if pa_quote st <? 0 then start_arg st else Done st);
  if (0 <? pa_quote st) && (ac =? pa_quote st) then Done (set_quote 0 st)
  else if (ac =? 39) || (ac =? 34) then Done (set_quote ac st)
  else out_put rc st.

(** One turn of the loop; [true] when it breaks. *)
Definition parseargs_iter (st : pargs) : outcome (bool * pargs) :=
  '(ac, rc, st) ← next_char st;
  if (rc =? 0) || is_blank ac then
    st ← (if (rc =? 0) || (pa_quote st =? 0)
          then st ← out_put 0 st; Done (set_quote (-1) st) else Done st);
    if rc =? 0 then Done (true, st)
    else if pa_quote st <? 0 then Done (false, st)
    else st ← arg_char ac rc st; Done (false, st)
  else st ← arg_char ac rc st; Done (false, st).

Fixpoint parseargs_loop (fuel : nat) (st : pargs) : outcome pargs :=
  match fuel with
  | O => Undef "parseargs: out of fuel"
  | S fuel =>
      '(brk, st) ← parseargs_iter st;
      if (brk : bool) then Done st else parseargs_loop fuel st
  end.

(** Every turn reads a byte further on: the memory bounds their number. *)
Definition rumprun_parseargs (m : mem) (p : Z) (outarray : option (list Z)) : outcome (Z * option (list Z) * mem) :=
  st ← parseargs_loop (S (size m)) (Pargs p 0 (-1) 0 outarray m);
  Done (pa_nargs st, pa_outarray st, pa_mem st).

(** ** The language of command lines

    Arguments are separated by blanks.  A backslash takes the next character
    literally; between quotes blanks are literal too; quotes are removed.
    [arg] is the argument being read, [quote] the open quote or 0. *)
Definition arg_so_far (arg : option (list Z)) : list Z := default [] arg.
Definition finished (arg : option (list Z)) : list (list Z) :=
  match arg with None => [] | Some a => [a] end.

Fixpoint split_args (arg : option (list Z)) (quote : Z) (s : list Z) : list (list Z) :=
  match s with
  | [] => finished arg
  | c :: s =>
      if c =? 92 then
        match s with
        | [] => finished arg
        | e :: s => split_args (Some (arg_so_far arg ++ [e])) quote s
        end
      else if is_blank c && (quote =? 0) then finished arg ++ split_args None 0 s
      else if (c =? 39) || (c =? 34) then
        split_args (Some (arg_so_far arg)) (if c =? quote then 0 else c) s
      else split_args (Some (arg_so_far arg ++ [c])) quote s
  end.
Definition command_args (s : list Z) : list (list Z) := split_args None 0 s.

(** A way to write arguments down: every character escaped, an empty argument
    as a pair of quotes, and blanks in between. *)
Definition write_arg (a : list Z) : list Z :=
  match a with [] => [39; 39] | _ => flat_map (fun c => [92; c]) a end.
Fixpoint write_args (l : list (list Z)) : list Z :=
  match l with [] => [] | [a] => write_arg a | a :: l => write_arg a ++ 32 :: write_args l end.

(** * Command lines: the two passes agree and split the line as described *)


(** ** The state of a pass, against the arguments read so far *)
Section pass.
Context (m0 : mem) (p0 e : Z).

(** Argument [i] lies at the address in slot [i], below [lim]. *)
Definition stored (arr : list Z) (m : mem) (lim : Z) (don : list (list Z)) : Prop :=
  forall i a, don !! i = Some a ->
    exists q, arr !! i = Some q /\ p0 <= q /\ cstr_at m q a /\ q + Z.of_nat (length a) + 1 <= lim.

(** [don] are the arguments finished, [arg] is the one being read; nothing at
    or after [b] has been overwritten. *)
Definition pass_inv (b : Z) (st : pargs) (don : list (list Z)) (arg : option (list Z)) : Prop :=
  pa_nargs st = Z.of_nat (length don + length (finished arg)) /\
  match pa_outarray st with
  | None => pa_out st = 0 /\ pa_mem st = m0
  | Some arr =>
      (forall a, a < p0 \/ b <= a -> pa_mem st !! a = m0 !! a) /\
      (forall a, p0 <= a <= e -> is_Some (pa_mem st !! a)) /\
      exists lim, stored arr (pa_mem st) lim don /\
        match arg with
        | None => pa_out st = 0 /\ don = [] \/ p0 <= pa_out st <= b /\ lim = pa_out st
        | Some cur =>
            arr !! length don = Some lim /\ p0 <= lim /\ pa_out st = lim + Z.of_nat (length cur) /\
            pa_out st <= b /\ Forall (fun c => 0 < c < 256) cur /\ bytes_at (pa_mem st) lim cur
        end
  end.

Lemma stored_insert arr m lim don x v :
  lim <= x -> stored arr m lim don -> stored arr (<[x := v]> m) lim don.
Proof.
  intros Hx H i a Ha. destruct (H i a Ha) as (q & ? & ? & [? Hb] & ?).
  exists q. split_and!; try done. split; [done |].
  eapply bytes_at_ext; [| exact Hb]. intros y. rewrite length_app. cbn. intros ?.
  apply lookup_insert_ne. lia.
Qed.

Lemma schar_mod b : 0 < b < 256 -> schar b mod 256 = b.
Proof.
  intros H. unfold schar. destruct (Z.ltb_spec b 128); [apply Z.mod_small; lia |].
  rewrite <- (Z.mod_add _ 1), Z.mod_small by lia. lia.
Qed.

(** A character of the argument. *)
Lemma pass_put st don cur c b :
  0 < p0 -> 0 < c < 256 -> b <= e -> pass_inv b st don (Some cur) ->
  exists st', out_put (schar c) st = Done st' /\ pass_inv (b + 1) st' don (Some (cur ++ [c])) /\
    pa_p st' = pa_p st /\ pa_quote st' = pa_quote st /\ length <$> pa_outarray st' = length <$> pa_outarray st.
Proof.
  intros Hp Hc Hb [Hn H]. unfold out_put. destruct (pa_outarray st) as [arr |] eqn:Ha.
  - destruct H as (Hout & Hmap & lim & Hst & Hl & H0 & Ho & Hob & Hf & Hby).
    rewrite (proj2 (Z.eqb_neq _ _)) by lia.
    rewrite store8_mapped by (apply Hmap; lia). cbn. eexists. split; [done |].
    split; [| done]. split; [exact Hn |]. cbn.
    rewrite schar_mod by done. split_and!.
    + intros a Hx. rewrite lookup_insert_ne by lia. apply Hout. lia.
    + intros a Hx. apply lookup_insert_is_Some'. auto.
    + exists lim. split; [apply stored_insert; [lia | done] |].
      split_and!; try done; rewrite ?length_app; cbn; try lia.
      * apply Forall_app. auto.
      * apply bytes_at_app. cbn. rewrite Ho, lookup_insert_eq. split; [| done].
        eapply bytes_at_ext; [| exact Hby]. intros y ?. apply lookup_insert_ne. lia.
  - destruct H as [Ho Hm]. rewrite Ho. cbn. eexists. split; [done |].
    unfold pass_inv. by rewrite Ha.
Qed.

(** The end of an argument, or of the line. *)
Lemma pass_end st don arg b :
  0 < p0 -> b <= e -> pass_inv b st don arg ->
  exists st', out_put 0 st = Done st' /\ pass_inv (b + 1) (set_quote (-1) st') (don ++ finished arg) None /\
    pa_p st' = pa_p st /\ length <$> pa_outarray st' = length <$> pa_outarray st.
Proof.
  intros Hp Hb [Hn H]. unfold out_put. destruct (pa_outarray st) as [arr |] eqn:Ha.
  - destruct H as (Hout & Hmap & lim & Hst & H).
    destruct (Z.eqb_spec (pa_out st) 0) as [H0 | H0].
    { destruct arg as [cur |]; [lia |]. destruct H as [[_ ->] | ?]; [| lia].
      exists st. split; [done |]. split; [| by rewrite Ha]. split; [exact Hn |].
      cbn. rewrite Ha. split_and!; try done; [intros; apply Hout; lia |]. exists lim. auto. }
    assert (p0 <= pa_out st <= b) by (destruct arg; lia).
    rewrite store8_mapped by (apply Hmap; lia). cbn. eexists. split; [done |].
    split; [| done]. split; [cbn; rewrite Hn, length_app; cbn; lia |]. cbn. split_and!.
    + intros a Hx. rewrite lookup_insert_ne by lia. apply Hout. lia.
    + intros a Hx. apply lookup_insert_is_Some'. auto.
    + exists (pa_out st + 1). split; [| right; lia].
      assert (lim <= pa_out st) by (destruct arg; lia).
      pose proof (stored_insert _ _ _ _ (pa_out st) (0 mod 256) ltac:(eassumption) Hst) as Hst'.
      intros i a Hi. apply lookup_app_Some in Hi as [Hi | [Hi1 Hi2]].
      { destruct (Hst' _ _ Hi) as (q & ? & ? & ? & ?). exists q. split_and!; try done. lia. }
      destruct arg as [cur |]; cbn in Hi2; [| done].
      destruct (i - length don)%nat eqn:Hd; simplify_eq/=. replace i with (length don) by lia.
      destruct H as (? & ? & Ho & ? & ? & Hby). exists lim. split_and!; try done; [| lia].
      split; [done |]. apply bytes_at_app. cbn. rewrite <- Ho, lookup_insert_eq. split; [| done].
      eapply bytes_at_ext; [| exact Hby]. intros y ?. apply lookup_insert_ne. lia.
  - destruct H as [Ho Hm]. rewrite Ho. cbn. eexists. split; [done |].
    unfold pass_inv. cbn. rewrite Ha, Hn, length_app. cbn. split_and!; try done; lia.
Qed.

(** The start of an argument. *)
Lemma pass_start st don cap :
  0 < p0 -> p0 <= pa_p st - 1 -> pass_inv (pa_p st - 1) st don None ->
  Z.of_nat (length don) < INT_MAX ->
  (forall arr, pa_outarray st = Some arr -> length arr = cap /\ (length don < cap)%nat) ->
  exists st', start_arg st = Done st' /\ pass_inv (pa_p st - 1) st' don (Some []) /\
    pa_p st' = pa_p st /\ pa_quote st' = 0 /\ length <$> pa_outarray st' = length <$> pa_outarray st.
Proof.
  intros Hp Hpp [Hn H] Hmax Hcap. unfold start_arg. cbn in Hn. rewrite Nat.add_0_r in Hn. rewrite Hn.
  rewrite (proj2 (Z.eqb_neq _ _)) by lia. destruct (pa_outarray st) as [arr |] eqn:Ha.
  - destruct (Hcap arr eq_refl) as [Hlen Hlt]. rewrite Nat2Z.id, bool_decide_true by lia.
    destruct H as (Hout & Hmap & lim & Hst & H).
    eexists. split; [done |]. split; [| cbn; by rewrite length_insert]. split; [cbn; lia |]. cbn.
    split_and!; try done. exists (pa_p st - 1). rewrite list_lookup_insert_eq by lia.
    split; [| split_and!; cbn; try done; lia].
    intros i a Hi. pose proof (lookup_lt_Some _ _ _ Hi). destruct (Hst _ _ Hi) as (q & ? & ? & ? & ?).
    exists q. rewrite list_lookup_insert_ne by lia. split_and!; try done.
    destruct H as [[? ->] | ?]; [by rewrite lookup_nil in Hi | lia].
  - eexists. split; [done |]. cbn. split_and!; try done. unfold pass_inv. cbn. split; [lia | done].
Qed.

Lemma pass_mono b b' st don arg : b <= b' -> pass_inv b st don arg -> pass_inv b' st don arg.
Proof.
  intros Hb [Hn H]. split; [done |]. destruct (pa_outarray st); [| done].
  destruct H as (Hout & Hmap & lim & Hst & H). split_and!; try done; [intros; apply Hout; lia |].
  exists lim. split; [done |]. destruct arg; [| naive_solver lia]. naive_solver lia.
Qed.

Definition quote_ok (arg : option (list Z)) (quote : Z) : Prop :=
  (quote = 0 \/ quote = 39 \/ quote = 34) /\ (arg = None -> quote = 0).
Definition quote_of (arg : option (list Z)) (quote : Z) : Z :=
  match arg with None => -1 | Some _ => quote end.

(** What a character makes of the argument and the quote. *)
Definition after_char (escaped : bool) (c : Z) (arg : option (list Z)) (quote : Z) : list Z * Z :=
  if negb escaped && ((c =? 39) || (c =? 34)) then (arg_so_far arg, if c =? quote then 0 else c)
  else (arg_so_far arg ++ [c], quote).

Lemma schar_eqb c k : 0 < c < 256 -> 0 <= k < 128 -> (schar c =? k) = (c =? k).
Proof.
  intros ? ?. unfold schar. destruct (Z.ltb_spec c 128); [done |].
  rewrite !(proj2 (Z.eqb_neq _ _)) by lia. done.
Qed.

Lemma pass_char st don arg quote escaped c cap :
  0 < p0 -> p0 <= pa_p st - 1 <= e -> 0 < c < 256 -> (escaped = false -> c <> 92) ->
  quote_ok arg quote -> pa_quote st = quote_of arg quote -> pass_inv (pa_p st - 1) st don arg ->
  Z.of_nat (length don) < INT_MAX ->
  (forall arr, pa_outarray st = Some arr -> length arr = cap /\ (length don < cap)%nat) ->
  exists st', arg_char (if escaped then 92 else schar c) (schar c) st = Done st' /\
    pass_inv (pa_p st) st' don (Some (after_char escaped c arg quote).1) /\
    quote_ok (Some (after_char escaped c arg quote).1) (after_char escaped c arg quote).2 /\
    pa_quote st' = (after_char escaped c arg quote).2 /\
    pa_p st' = pa_p st /\ length <$> pa_outarray st' = length <$> pa_outarray st.
Proof.
  intros Hp Hpp Hc Hesc [Hq Hqn] Hpq Hinv Hmax Hcap.
  assert (exists st1, (if pa_quote st <? 0 then start_arg st else Done st) = Done st1 /\
    pass_inv (pa_p st - 1) st1 don (Some (arg_so_far arg)) /\ pa_p st1 = pa_p st /\
    pa_quote st1 = quote /\ length <$> pa_outarray st1 = length <$> pa_outarray st)
    as (st1 & E1 & Hinv1 & Ep & Eq & Ea).
  { rewrite Hpq. destruct arg as [cur |]; cbn [quote_of].
    - rewrite (proj2 (Z.ltb_ge _ _)) by lia. exists st. cbn in *. auto.
    - destruct (pass_start st don cap) as (st1 & ? & ? & ? & ? & ?); [done | lia | done | done | done |].
      exists st1. rewrite Hqn by done. cbn. auto. }
  unfold arg_char. rewrite E1. cbn [mbind outcome_bind]. rewrite Eq.
  assert (Hput : exists st', out_put (schar c) st1 = Done st' /\
    pass_inv (pa_p st) st' don (Some (arg_so_far arg ++ [c])) /\ pa_p st' = pa_p st /\
    pa_quote st' = quote /\ length <$> pa_outarray st' = length <$> pa_outarray st).
  { destruct (pass_put st1 don (arg_so_far arg) c (pa_p st - 1)) as (st' & -> & Hi & ? & ? & ?);
      [done | done | lia | done |].
    exists st'. replace (pa_p st - 1 + 1) with (pa_p st) in Hi by lia.
    split_and!; try done; congruence. }
  assert (Hset : forall q, pass_inv (pa_p st) (set_quote q st1) don (Some (arg_so_far arg))).
  { intros q. eapply pass_mono; [| exact Hinv1]. lia. }
  unfold after_char. destruct escaped; cbn [negb andb fst snd].
  - rewrite (proj2 (Z.eqb_neq 92 quote)), andb_false_r by lia. cbn [orb Z.eqb Pos.eqb].
    destruct Hput as (st' & -> & ? & ? & ? & ?). exists st'. split_and!; done.
  - rewrite !schar_eqb by lia. destruct ((c =? 39) || (c =? 34)) eqn:Hqc.
    + apply orb_true_iff in Hqc. rewrite !Z.eqb_eq in Hqc. destruct (Z.eqb_spec c quote) as [<- | Hne].
      * rewrite (proj2 (Z.ltb_lt _ _)) by lia. eexists. split; [done |]. split_and!; try done; auto.
        split; auto.
      * rewrite andb_false_r. eexists. split; [done |]. cbn. split_and!; try done; auto.
        -- split; [lia | done].
        -- destruct Hqc as [-> | ->]; done.
    + apply orb_false_iff in Hqc. rewrite !Z.eqb_neq in Hqc.
      rewrite (proj2 (Z.eqb_neq c quote)) by lia. rewrite andb_false_r.
      destruct Hput as (st' & -> & ? & ? & ? & ?). exists st'. split_and!; done.
Qed.

Lemma pass_load st don arg a b :
  pass_inv (pa_p st) st don arg -> pa_p st <= a -> m0 !! a = Some b -> load8 (pa_mem st) a = Done b.
Proof.
  intros [_ H] Ha Hb. apply load8_Some. rewrite <- Hb.
  destruct (pa_outarray st); [apply H; lia | by destruct H as [_ ->]].
Qed.

Definition move_p (p : Z) (st : pargs) : pargs :=
  Pargs p (pa_out st) (pa_quote st) (pa_nargs st) (pa_outarray st) (pa_mem st).

Lemma next_char_plain st don arg b :
  pass_inv (pa_p st) st don arg -> m0 !! pa_p st = Some b -> 0 <= b < 256 -> b <> 92 ->
  next_char st = Done (schar b, schar b, move_p (pa_p st + 1) st).
Proof.
  intros H Hb Hr Hne. unfold next_char. rewrite (pass_load _ _ _ (pa_p st) b H) by (done || lia).
  cbn [mbind outcome_bind]. destruct (decide (b = 0)) as [-> | ?]; [done |].
  rewrite schar_eqb by lia. rewrite (proj2 (Z.eqb_neq _ _)) by done. done.
Qed.

Lemma next_char_escaped st don arg b :
  pass_inv (pa_p st) st don arg -> m0 !! pa_p st = Some 92 -> m0 !! (pa_p st + 1) = Some b ->
  next_char st = Done (92, schar b, move_p (pa_p st + 2) st).
Proof.
  intros H H0 H1. unfold next_char.
  rewrite (pass_load _ _ _ (pa_p st) 92 H) by (done || lia).
  cbn [mbind outcome_bind schar Z.ltb Z.compare Pos.compare Pos.compare_cont Z.eqb Pos.eqb].
  rewrite (pass_load _ _ _ (pa_p st + 1) b H) by (done || lia). done.
Qed.

(** The whole line has the arguments [L]; the array has room for them. *)
Context (L : list (list Z)) (cap : nat).
Context (Hp0 : 0 < p0) (HL : Z.of_nat (length L) <= INT_MAX).

Definition line_inv (st : pargs) (don : list (list Z)) (arg : option (list Z)) (quote : Z) (rest : list Z) : Prop :=
  pass_inv (pa_p st) st don arg /\ quote_ok arg quote /\ pa_quote st = quote_of arg quote /\
  cstr_at m0 (pa_p st) rest /\ p0 <= pa_p st /\ pa_p st + Z.of_nat (length rest) = e /\
  don ++ split_args arg quote rest = L /\
  (forall arr, pa_outarray st = Some arr -> length arr = cap /\ (length L <= cap)%nat).

Lemma split_args_pos a quote s : (0 < length (split_args (Some a) quote s))%nat.
Proof.
  assert (forall n a quote s, (length s <= n)%nat -> (0 < length (split_args (Some a) quote s))%nat) as H.
  { clear. induction n as [| n IH]; intros a quote [| c s] Hn; cbn in *; try lia.
    repeat case_match; cbn; try lia; apply IH; cbn in *; lia. }
  by apply (H (length s)).
Qed.

Lemma char_room st don a quote rest :
  don ++ split_args (Some a) quote rest = L ->
  (forall arr, pa_outarray st = Some arr -> length arr = cap /\ (length L <= cap)%nat) ->
  Z.of_nat (length don) < INT_MAX /\
  (forall arr, pa_outarray st = Some arr -> length arr = cap /\ (length don < cap)%nat).
Proof.
  intros E Hcap. pose proof (split_args_pos a quote rest).
  assert (length don < length L)%nat by (rewrite <- E, length_app; lia).
  split; [lia |]. intros arr Ha. destruct (Hcap arr Ha). lia.
Qed.

(** The three ways to read on: a character, an escaped one, a delimiter. *)
Lemma iter_char st don arg quote escaped c rest :
  0 < c < 256 -> (escaped = false -> c <> 92 /\ is_blank c && (quote =? 0) = false) ->
  line_inv st don arg quote ((if escaped then [92; c] else [c]) ++ rest) ->
  exists st', parseargs_iter st = Done (false, st') /\
    line_inv st' don (Some (after_char escaped c arg quote).1) (after_char escaped c arg quote).2 rest /\
    (pa_p st < pa_p st') /\ length <$> pa_outarray st' = length <$> pa_outarray st.
Proof.
  intros Hc Hplain (Hinv & Hq & Hpq & Hs & Hp & He & HE & Hcap).
  set (n := if escaped then 2 else 1).
  assert (Hread : next_char st = Done (if escaped then 92 else schar c, schar c, move_p (pa_p st + n) st) /\
      cstr_at m0 (pa_p st + n) rest /\ pa_p st + n + Z.of_nat (length rest) = e /\
      don ++ split_args (Some (after_char escaped c arg quote).1) (after_char escaped c arg quote).2 rest = L).
  { subst n. destruct escaped; cbn [app] in *.
    - apply cstr_at_cons in Hs as (H0 & _ & Hs). apply cstr_at_cons in Hs as (H1 & _ & Hs).
      rewrite (next_char_escaped st don arg c) by done. split_and!; try done.
      + by replace (pa_p st + 2) with (pa_p st + 1 + 1) by lia.
      + cbn [length] in He. lia.
    - destruct Hplain as [Hne Hb]; [done |]. apply cstr_at_cons in Hs as (H0 & _ & Hs).
      rewrite (next_char_plain st don arg c) by (done || lia). split_and!; try done.
      + cbn [length] in He. lia.
      + rewrite <- HE. cbn [split_args]. rewrite (proj2 (Z.eqb_neq c 92)), Hb by done.
        unfold after_char. cbn [negb andb]. by destruct ((c =? 39) || (c =? 34)). }
  destruct Hread as (Er & Hs' & He' & HE').
  assert (Hn : 1 <= n) by (subst n; destruct escaped; lia).
  destruct (char_room st don _ _ rest HE' Hcap) as [Hmax Hcap'].
  destruct (pass_char (move_p (pa_p st + n) st) don arg quote escaped c cap)
    as (st' & E & Hinv' & Hq' & Hpq' & Ep & Ea); try done; cbn; try lia.
  { intros ->. by apply Hplain. }
  { eapply pass_mono; [| exact Hinv]. lia. }
  exists st'. cbn [pa_p move_p pa_outarray] in *.
  split; [| split; [| split; [lia | done]]].
  - unfold parseargs_iter. rewrite Er. cbn [mbind outcome_bind].
    rewrite schar_eqb, (proj2 (Z.eqb_neq c 0)) by lia. cbn [orb].
    destruct (is_blank (if escaped then 92 else schar c)) eqn:Hb; [| by rewrite E].
    destruct escaped; [done |]. destruct Hplain as [_ Hbl]; [done |].
    assert (is_blank c = true) as Hbc by (revert Hb; unfold is_blank; by rewrite !schar_eqb by lia).
    rewrite Hbc in Hbl. cbn in Hbl. apply Z.eqb_neq in Hbl.
    cbn [pa_quote move_p]. rewrite Hpq. destruct arg as [cur |]; [| by destruct Hbl; apply Hq].
    cbn [quote_of]. rewrite (proj2 (Z.eqb_neq _ _)) by done. cbn [mbind outcome_bind pa_quote move_p].
    rewrite Hpq. cbn [quote_of]. destruct Hq as [Hq _]. rewrite (proj2 (Z.ltb_ge _ _)) by lia. by rewrite E.
  - unfold line_inv. rewrite Ep. split_and!; try done; try lia.
    intros arr Harr. rewrite Harr in Ea. cbn in Ea. destruct (pa_outarray st) as [arr0 |]; [| done].
    destruct (Hcap arr0 eq_refl). cbn in Ea. simplify_eq. split; congruence.
Qed.

Lemma cap_keep {st st' : pargs} :
  length <$> pa_outarray st' = length <$> pa_outarray st ->
  (forall arr, pa_outarray st = Some arr -> length arr = cap /\ (length L <= cap)%nat) ->
  forall arr, pa_outarray st' = Some arr -> length arr = cap /\ (length L <= cap)%nat.
Proof.
  intros Ea Hcap arr Harr. rewrite Harr in Ea. destruct (pa_outarray st) as [arr0 |]; [| done].
  destruct (Hcap arr0 eq_refl). cbn in Ea. simplify_eq. split; congruence.
Qed.

Lemma iter_blank st don arg c rest :
  0 < c < 256 -> is_blank c = true -> line_inv st don arg 0 (c :: rest) ->
  exists st', parseargs_iter st = Done (false, st') /\
    line_inv st' (don ++ finished arg) None 0 rest /\ length <$> pa_outarray st' = length <$> pa_outarray st.
Proof.
  intros Hc Hb (Hinv & Hq & Hpq & Hs & Hp & He & HE & Hcap). apply cstr_at_cons in Hs as (H0 & _ & Hs).
  assert (Hne : c <> 92) by (intros ->; discriminate).
  assert (Hbs : is_blank (schar c) = true) by (unfold is_blank; rewrite !schar_eqb by lia; done).
  cbn [split_args] in HE. rewrite (proj2 (Z.eqb_neq c 92)), Hb in HE by done. cbn [andb Z.eqb] in HE.
  cbn [length] in He. unfold parseargs_iter. rewrite (next_char_plain st don arg c) by (done || lia).
  cbn [mbind outcome_bind]. rewrite schar_eqb, (proj2 (Z.eqb_neq c 0)), Hbs by lia. cbn [orb].
  cbn [pa_quote move_p]. rewrite Hpq. destruct arg as [cur |]; cbn [quote_of Z.eqb].
  - destruct (pass_end (move_p (pa_p st + 1) st) don (Some cur) (pa_p st)) as (st' & -> & Hinv' & Ep & Ea);
      [done | lia | done |].
    eexists. split; [done |]. cbn in Ep. split; [| done].
    unfold line_inv. cbn [set_quote pa_p pa_quote pa_outarray] in *. rewrite Ep. split_and!; try done; try lia; auto.
    + split; auto.
    + by rewrite <- app_assoc.
    + by apply (cap_keep (st := st)).
  - cbn [mbind outcome_bind pa_quote move_p]. rewrite Hpq. eexists. split; [done |].
    split; [| done]. cbn [finished]. rewrite app_nil_r.
    unfold line_inv. cbn [move_p pa_p pa_quote pa_outarray]. split_and!; try done; try lia; auto.
    eapply pass_mono; [| exact Hinv]. lia.
Qed.

Lemma iter_end st don arg quote (escaped : bool) :
  line_inv st don arg quote (if escaped then [92] else []) ->
  exists st', parseargs_iter st = Done (true, st') /\ pass_inv (e + 1) st' L None /\
    length <$> pa_outarray st' = length <$> pa_outarray st.
Proof.
  intros (Hinv & Hq & Hpq & Hs & Hp & He & HE & Hcap).
  assert (exists ac p, next_char st = Done (ac, 0, move_p p st)) as (ac & p & En).
  { destruct escaped.
    - apply cstr_at_cons in Hs as (H0 & _ & Hs). apply cstr_at_nil in Hs.
      rewrite (next_char_escaped st don arg 0) by done. eauto.
    - apply cstr_at_nil in Hs. rewrite (next_char_plain st don arg 0) by (done || lia). eauto. }
  assert (HL' : don ++ finished arg = L) by (rewrite <- HE; by destruct escaped).
  unfold parseargs_iter. rewrite En. cbn [mbind outcome_bind Z.eqb orb].
  destruct (pass_end (move_p p st) don arg (pa_p st)) as (st' & -> & Hinv' & _ & Ea); [done | lia | done |].
  rewrite HL' in Hinv'. eexists. split; [done |]. split; [| done].
  eapply pass_mono; [| exact Hinv']. lia.
Qed.

Lemma loop_correct fuel st don arg quote rest :
  (length rest < fuel)%nat -> line_inv st don arg quote rest ->
  exists st', parseargs_loop fuel st = Done st' /\ pass_inv (e + 1) st' L None /\
    length <$> pa_outarray st' = length <$> pa_outarray st.
Proof.
  revert st don arg quote rest. induction fuel as [| fuel IH]; intros st don arg quote rest Hf HI; [lia |].
  assert (Hs : cstr_at m0 (pa_p st) rest) by apply HI.
  assert (Hend : forall escaped : bool, rest = (if escaped then [92] else []) ->
    exists st', parseargs_loop (S fuel) st = Done st' /\ pass_inv (e + 1) st' L None /\
      length <$> pa_outarray st' = length <$> pa_outarray st).
  { intros escaped ->. destruct (iter_end _ _ _ _ _ HI) as (st' & E & ? & ?).
    exists st'. cbn [parseargs_loop]. rewrite E. done. }
  assert (Hnext : forall st1 don' arg' quote' rest', parseargs_iter st = Done (false, st1) ->
    line_inv st1 don' arg' quote' rest' -> length <$> pa_outarray st1 = length <$> pa_outarray st ->
    (length rest' < length rest)%nat ->
    exists st', parseargs_loop (S fuel) st = Done st' /\ pass_inv (e + 1) st' L None /\
      length <$> pa_outarray st' = length <$> pa_outarray st).
  { intros st1 don' arg' quote' rest' E HI' Ea Hlen. cbn [parseargs_loop]. rewrite E.
    cbn [mbind outcome_bind]. rewrite <- Ea. eapply IH; [| exact HI']. lia. }
  destruct rest as [| c rest]; [by apply (Hend false) |]. apply cstr_at_cons in Hs as (_ & Hc & Hs).
  destruct (decide (c = 92)) as [-> | Hne].
  - destruct rest as [| x rest]; [by apply (Hend true) |]. apply cstr_at_cons in Hs as (_ & Hx & _).
    destruct (iter_char st don arg quote true x rest) as (st1 & E & HI' & _ & Ea); [done | done | done |].
    eapply Hnext; [exact E | exact HI' | exact Ea |]. cbn. lia.
  - destruct (is_blank c && (quote =? 0)) eqn:Hb.
    + apply andb_true_iff in Hb as [Hb ->%Z.eqb_eq].
      destruct (iter_blank st don arg c rest) as (st1 & E & HI' & Ea); [done | done | done |].
      eapply Hnext; [exact E | exact HI' | exact Ea |]. cbn. lia.
    + destruct (iter_char st don arg quote false c rest) as (st1 & E & HI' & _ & Ea); [done | done | done |].
      eapply Hnext; [exact E | exact HI' | exact Ea |]. cbn. lia.
Qed.
End pass.

Lemma command_args_length s : (length (command_args s) <= length s)%nat.
Proof.
  assert (forall n arg quote s, (length s <= n)%nat ->
    (length (split_args arg quote s) <= length s + length (finished arg))%nat) as H.
  { clear. induction n as [| n IH]; intros arg quote [| c s] Hn; cbn in *; try lia.
    case_match; [destruct s as [| x s]; cbn in *; [lia |] |]; [| case_match]; [| | case_match].
    - etrans; [apply IH; lia |]. cbn. lia.
    - rewrite length_app. etrans; [apply Nat.add_le_mono_l, IH; lia |]. cbn. lia.
    - etrans; [apply IH; lia |]. cbn. lia.
    - etrans; [apply IH; lia |]. cbn. lia. }
  unfold command_args. etrans; [apply (H (length s)); done |]. cbn. lia.
Qed.

(** ** What is written is read back *)
Lemma split_escaped a arg rest :
  a <> [] -> split_args arg 0 (flat_map (fun c => [92; c]) a ++ rest) = split_args (Some (arg_so_far arg ++ a)) 0 rest.
Proof.
  revert arg. induction a as [| c a IH]; intros arg Ha; [done |]. cbn [flat_map app split_args Z.eqb Pos.eqb].
  destruct a as [| c' a]; [done |]. rewrite IH by done. unfold arg_so_far at 1. cbn [default from_option id]. by rewrite <- (app_assoc _ [c]).
Qed.

Lemma split_written a rest : split_args None 0 (write_arg a ++ rest) = split_args (Some a) 0 rest.
Proof. destruct a as [| c a]; [done |]. apply split_escaped. done. Qed.

Lemma command_args_write l : command_args (write_args l) = l.
Proof.
  unfold command_args. induction l as [| a [| a' l] IH]; [done | |].
  - cbn [write_args]. rewrite <- (app_nil_r (write_arg a)), split_written. done.
  - change (write_args (a :: a' :: l)) with (write_arg a ++ 32 :: write_args (a' :: l)).
    rewrite split_written. cbn [split_args Z.eqb Pos.eqb is_blank orb andb finished app]. by rewrite IH.
Qed.

Lemma pass_init m p s o cap :
  cstr_at m p s -> 0 < p -> (o = None \/ exists arr, o = Some arr /\ length arr = cap /\ (length (command_args s) <= cap)%nat) ->
  line_inv m p (p + Z.of_nat (length s)) (command_args s) cap (Pargs p 0 (-1) 0 o m) [] None 0 s.
Proof.
  intros Hs Hp Ho. assert (Hmap : mapped m p (S (length s))).
  { destruct Hs as [_ Hb]. apply bytes_at_mapped in Hb. rewrite length_app, Nat.add_1_r in Hb. done. }
  unfold line_inv. cbn. split_and!; try done; try lia.
  - split; [done |]. cbn. destruct o as [arr |]; [| done]. split_and!; try done.
    + intros a Ha. replace a with (p + Z.of_nat (Z.to_nat (a - p))) by lia. apply Hmap. lia.
    + exists 0. split; [| auto]. intros i a Hi. done.
  - split; auto.
  - intros arr ->. destruct Ho as [? | (? & ? & ? & ?)]; simplify_eq. done.
Qed.

(** Both passes over a line, from the loop lemma. *)
Lemma passes m p s o cap :
  cstr_at m p s -> 0 < p -> Z.of_nat (length s) <= INT_MAX ->
  (o = None \/ exists arr, o = Some arr /\ length arr = cap /\ (length (command_args s) <= cap)%nat) ->
  exists st, rumprun_parseargs m p o = Done (pa_nargs st, pa_outarray st, pa_mem st) /\
    pass_inv m p (p + Z.of_nat (length s)) (p + Z.of_nat (length s) + 1) st (command_args s) None /\
    length <$> pa_outarray st = length <$> o.
Proof.
  intros Hs Hp Hlen Ho. pose proof (command_args_length s).
  destruct (loop_correct m p (p + Z.of_nat (length s)) (command_args s) cap Hp ltac:(lia)
    (S (size m)) (Pargs p 0 (-1) 0 o m) [] None 0 s) as (st & E & Hinv & Ea).
  - pose proof (cstr_at_size m p s Hs). lia.
  - by apply (pass_init m p s o cap).
  - exists st. unfold rumprun_parseargs. rewrite E. done.
Qed.

(** C27. [rumprun_parseargs] on a command line [s]: the counting pass returns
    the number of its arguments and changes nothing; the second pass, with an
    array with room for them, leaves in slot [i] a pointer to the [i]-th
    argument, a NUL-terminated string inside the line with quotes and escapes
    removed, and writes nowhere else. *)
Theorem rumprun_parseargs_correct m p s arr :
  cstr_at m p s -> 0 < p -> Z.of_nat (length s) <= INT_MAX -> (length (command_args s) <= length arr)%nat ->
  let n := Z.of_nat (length (command_args s)) in
  rumprun_parseargs m p None = Done (n, None, m) /\
  exists arr' m', rumprun_parseargs m p (Some arr) = Done (n, Some arr', m') /\
    length arr' = length arr /\
    (forall i a, command_args s !! i = Some a ->
      exists q, arr' !! i = Some q /\ p <= q /\ q + Z.of_nat (length a) <= p + Z.of_nat (length s) /\ cstr_at m' q a) /\
    (forall x, x < p \/ p + Z.of_nat (length s) < x -> m' !! x = m !! x).
Proof.
  intros Hs Hp Hlen Hroom n. split.
  - destruct (passes m p s None 0) as (st & -> & [Hn Hi] & Ea); [done.. | by left |].
    destruct (pa_outarray st); [done |]. destruct Hi as [_ ->]. rewrite Hn. cbn. by rewrite Nat.add_0_r.
  - destruct (passes m p s (Some arr) (length arr)) as (st & -> & [Hn Hi] & Ea); [done.. | by right; eauto |].
    destruct (pa_outarray st) as [arr' |]; [| done]. cbn in Ea. destruct Hi as (Hout & _ & lim & Hst & Hl).
    exists arr', (pa_mem st). rewrite Hn. cbn. rewrite Nat.add_0_r. split_and!; [done | congruence | |].
    + intros i a Hi. destruct (Hst i a Hi) as (q & ? & ? & ? & ?). exists q. split_and!; try done.
      destruct Hl as [[_ Hnil] | ?]; [by rewrite Hnil, lookup_nil in Hi | lia].
    + intros x Hx. apply Hout. lia.
Qed.

Definition line_mem : mem := mem_write ∅ 100 (cstring "a 'b c' ").

Lemma rumprun_parseargs_correct_witness :
  cstr_at line_mem 100 (bytes_of "a 'b c' ") /\
  rumprun_parseargs line_mem 100 None = Done (2, None, line_mem).
Proof.
  assert (H : cstr_at line_mem 100 (bytes_of "a 'b c' ")) by (apply (bool_decide_unpack _); vm_compute; exact I).
  split; [exact H |].
  apply (rumprun_parseargs_correct line_mem 100 (bytes_of "a 'b c' ") [0; 0] H); [lia | vm_compute; discriminate |].
  apply Nat.leb_le. vm_compute. reflexivity.
Defined.

(** Every list of arguments can be put on a command line: when the line
    holds the arguments [l] written with [write_args], [rumprun_parseargs]
    finds exactly them, empty ones and blanks, quotes and backslashes inside
    them included. *)
Theorem parseargs_roundtrip m p l arr :
  cstr_at m p (write_args l) -> 0 < p -> Z.of_nat (length (write_args l)) <= INT_MAX ->
  (length l <= length arr)%nat ->
  exists arr' m', rumprun_parseargs m p (Some arr) = Done (Z.of_nat (length l), Some arr', m') /\
    forall i a, l !! i = Some a -> exists q, arr' !! i = Some q /\ cstr_at m' q a.
Proof.
  intros Hs Hp Hlen Hroom. pose proof (command_args_write l) as El.
  destruct (passes m p (write_args l) (Some arr) (length arr)) as (st & -> & [Hn Hi] & Ea); [done.. | |].
  { right. exists arr. by rewrite El. }
  rewrite El in Hn, Hi. destruct (pa_outarray st) as [arr' |]; [| done]. destruct Hi as (_ & _ & lim & Hst & _).
  exists arr', (pa_mem st). rewrite Hn. cbn. rewrite Nat.add_0_r. split; [done |].
  intros i a Hi. destruct (Hst i a Hi) as (q & ? & _ & ? & _). eauto.
Qed.

Definition tricky_args : list (list Z) := [bytes_of "it's"; []; bytes_of "a b"].
Definition tricky_mem : mem := mem_write ∅ 100 (write_args tricky_args ++ [0]).

Lemma parseargs_roundtrip_witness :
  cstr_at tricky_mem 100 (write_args tricky_args) /\
  exists arr' m', rumprun_parseargs tricky_mem 100 (Some [0; 0; 0]) = Done (3, Some arr', m').
Proof.
  assert (H : cstr_at tricky_mem 100 (write_args tricky_args)) by (apply (bool_decide_unpack _); vm_compute; exact I).
  split; [exact H |].
  destruct (parseargs_roundtrip tricky_mem 100 tricky_args [0; 0; 0] H) as (arr' & m' & E & _);
    [lia | vm_compute; discriminate | apply Nat.leb_le; reflexivity | exists arr', m'; exact E].
Defined.

(** A quote of the other kind inside quotes is not literal: it is removed, and
    the open quote is forgotten.  Here the line ends inside quotes, and the
    two words are one argument. *)
Example other_quote_inside : command_args [39; 97; 34; 98; 39; 32; 99] = [bytes_of "ab c"].
Proof. vm_compute. reflexivity. Qed.
