(* ===== verification/Xencons.v ===== *)
(** * The Xen console (platform/xen/xen/console/console.c and xencons_ring.c)

    Output goes to a ring shared with a backend in another domain, which reads
    it at any time.  The sending code is cut at every access to the shared
    page; between two of its steps the backend may take bytes.  The size of
    the ring and its position arithmetic are those of Xen's public headers:
    a power of two, given as an argument, and indices that wrap at 32 bits.
    What the backend has read is recorded in [drained]. *)

From S2P Require Import Prelude Mem.

(** ** Line ends: [minios_console_print] *)

(** The loop over the copied string.  [buf] is [copied_str], [from] and [len]
    are [copied_ptr] and [length], [curr] is [curr_char]; the pieces handed to
    [ring_send_fn] are collected. *)
Fixpoint print_loop (fuel : nat) (buf : list Z) (from len curr : Z) : outcome (list (list Z) * list Z * Z * Z) :=
  match fuel with
  | O => Undef "console_print: out of fuel"
  | S fuel =>
      if curr <? from + len - 1 then
        c ← of_option "curr_char" (buf !! Z.to_nat curr);
        if c =? 10 then
          saved ← of_option "curr_char + 1" (buf !! Z.to_nat (curr + 1));
          let buf := <[Z.to_nat (curr + 1) := 10]> (<[Z.to_nat curr := 13]> buf) in
          let part_len := curr - from + 2 in
          let piece := take (Z.to_nat part_len) (drop (Z.to_nat from) buf) in
          let buf := <[Z.to_nat (curr + 1) := saved]> buf in
          '(pieces, buf, from, len) ← print_loop fuel buf (curr + 1) (len - (part_len - 1)) (curr + 1);
          Done (piece :: pieces, buf, from, len)
        else print_loop fuel buf from len (curr + 1)
      else Done ([], buf, from, len)
  end.

(** The pieces sent for a string; [data] has [length] bytes. *)
Definition minios_console_print (data : list Z) : outcome (list (list Z)) :=
  let length := Z.of_nat (length data) in
  '(pieces, buf, from, len) ← print_loop (S (Z.to_nat length)) (data ++ [0]) 0 length 0;
  if from + len - 1 <? 0 then Undef "copied_ptr[length-1]" else
  c ← of_option "copied_ptr[length-1]" (buf !! Z.to_nat (from + len - 1));
  let '(buf, len) :=
    if c =? 10 then (<[Z.to_nat (from + len) := 10]> (<[Z.to_nat (from + len - 1) := 13]> buf), len + 1)
    else (buf, len) in
  Done (pieces ++ [take (Z.to_nat len) (drop (Z.to_nat from) buf)]).

(** ** The ring *)
Section ring.
Context (osz : Z).

(** Where the sending code is.  The data and the number of bytes sent so far
    are those of the enclosing call; [c] and [p] are its copies of the indices
    and [part] the bytes stored by this call of [xencons_ring_send_no_notify]. *)
Inductive send_pc :=
  | SIdle
  | SLoop (data : list Z) (sent : Z)
  | SCons (data : list Z) (sent : Z)
  | SProd (data : list Z) (sent c : Z)
  | SCopy (data : list Z) (sent c p part : Z)
  | SPublish (data : list Z) (sent p part : Z)
  | SRet (data : list Z) (sent part : Z).

Global Instance send_pc_eq_dec : EqDecision send_pc.
Proof. solve_decision. Defined.

Record console := Console {
  console_initialised : bool;
  has_intf : bool;
  ring_out : list Z;
  out_cons : Z;
  out_prod : Z;
  notified : Z;
  todo : list (list Z);
  pc : send_pc;
  drained : list Z }.

Definition with_pc (q : send_pc) (s : console) : console :=
  Console (console_initialised s) (has_intf s) (ring_out s) (out_cons s) (out_prod s) (notified s) (todo s) q (drained s).
Definition with_out (l : list Z) (s : console) : console :=
  Console (console_initialised s) (has_intf s) l (out_cons s) (out_prod s) (notified s) (todo s) (pc s) (drained s).
Definition with_prod (p : Z) (s : console) : console :=
  Console (console_initialised s) (has_intf s) (ring_out s) (out_cons s) p (notified s) (todo s) (pc s) (drained s).
Definition with_todo (l : list (list Z)) (s : console) : console :=
  Console (console_initialised s) (has_intf s) (ring_out s) (out_cons s) (out_prod s) (notified s) l (pc s) (drained s).
Definition notify_daemon (s : console) : console :=
  Console (console_initialised s) (has_intf s) (ring_out s) (out_cons s) (out_prod s) (notified s + 1) (todo s) (pc s) (drained s).

Definition MASK_XENCONS_IDX (idx : Z) : Z := Z.land idx (osz - 1).

(** [xencons_ring_send_no_notify], from the reading of [out_cons] on. *)
Definition ring_send_no_notify_step (s : console) : outcome console :=
  match pc s with
  | SCons data sent =>
      if has_intf s then Done (with_pc (SProd data sent (out_cons s)) s)
      else Done (with_pc (SRet data sent 0) s)
  | SProd data sent c =>
      if osz <? wrap32 (out_prod s - c) then Halt "BUG_ON((prod - cons) > sizeof(intf->out))"
      else Done (with_pc (SCopy data sent c (out_prod s) 0) s)
  | SCopy data sent c p part =>
      if (part <? Z.of_nat (length data) - sent) && (wrap32 (p - c) <? osz) then
        b ← of_option "data[sent]" (data !! Z.to_nat (sent + part));
        if bool_decide (Z.to_nat (MASK_XENCONS_IDX p) < length (ring_out s))%nat then
          Done (with_pc (SCopy data sent c (wrap32 (p + 1)) (part + 1))
                  (with_out (<[Z.to_nat (MASK_XENCONS_IDX p) := b]> (ring_out s)) s))
        else Undef "intf->out"
      else Done (with_pc (SPublish data sent p part) s)
  | SPublish data sent p part => Done (with_pc (SRet data sent part) (with_prod p s))
  | _ => Done s
  end.

(** [xencons_ring_send] around it, and the calls of [ring_send_fn] that
    [minios_console_print] makes: the pieces in [todo], one after the other. *)
Definition guest_step (s : console) : outcome console :=
  match pc s with
  | SIdle =>
      match todo s with
      | [] => Done s
      | data :: rest =>
          Done (with_todo rest (with_pc (if console_initialised s then SLoop data 0 else SCons data 0) s))
      end
  | SLoop data sent =>
      if sent <? Z.of_nat (length data) then Done (with_pc (SCons data sent) s)
      else if sent =? Z.of_nat (length data) then Done (with_pc SIdle s)
      else Halt "ASSERT(sent == len)"
  | SRet data sent part =>
      if console_initialised s then Done (with_pc (SLoop data (sent + part)) (notify_daemon s))
      else Done (with_pc SIdle s)
  | _ => ring_send_no_notify_step s
  end.

(** The backend takes a byte, if there is one. *)
Definition backend_step (s : console) : outcome console :=
  if out_cons s =? out_prod s then Done s
  else
    b ← of_option "ring" (ring_out s !! Z.to_nat (MASK_XENCONS_IDX (out_cons s)));
    Done (Console (console_initialised s) (has_intf s) (ring_out s) (wrap32 (out_cons s + 1)) (out_prod s)
            (notified s) (todo s) (pc s) (drained s ++ [b])).

Inductive turn := Guest | Backend.

Fixpoint console_run (turns : list turn) (s : console) : outcome console :=
  match turns with
  | [] => Done s
  | Guest :: turns => s ← guest_step s; console_run turns s
  | Backend :: turns => s ← backend_step s; console_run turns s
  end.

Definition console_start (initialised intf : bool) (pieces : list (list Z)) : console :=
  Console initialised intf (repeat 0 (Z.to_nat osz)) 0 0 0 pieces SIdle [].
End ring.

(** The C string at the head of a list of bytes. *)
Fixpoint takewhile_nonzero (l : list Z) : list Z :=
  match l with
  | [] => []
  | c :: l => if c =? 0 then [] else c :: takewhile_nonzero l
  end.

(** ** Input: [console_handle_input] and [xencons_rx]

    [page] is the shared page from [intf->in] on, [isz] the size of the input
    ring, which the output ring follows.  [printed] collects the strings given
    to [minios_printk]. *)
Section input.
Context (isz : Z).

Definition xencons_rx (page : list Z) (buf len : Z) (printed : list (list Z)) : outcome (list Z * list (list Z)) :=
  if 0 <? len then
    if bool_decide (Z.to_nat (buf + len) < length page)%nat then
      let page := <[Z.to_nat (buf + len) := 0]> page in
      let str := takewhile_nonzero (drop (Z.to_nat buf) page) in
      c ← of_option "buf[len-1]" (page !! Z.to_nat (buf + len - 1));
      Done (page, printed ++ [str] ++ (if c =? 13 then [10 :: bytes_of "No console input handler." ++ [10]] else []))
    else Undef "buf[len]"
  else Done (page, printed).

Fixpoint input_loop (fuel : nat) (page : list Z) (c p : Z) (printed : list (list Z)) : outcome (list Z * list (list Z) * Z) :=
  match fuel with
  | O => Undef "console_handle_input: out of fuel"
  | S fuel =>
      if c =? p then Done (page, printed, c)
      else
        '(page, printed) ← xencons_rx page (Z.land c (isz - 1)) 1 printed;
        input_loop fuel page (wrap32 (c + 1)) p printed
  end.

(** The new page, what has been printed, and the new value of [in_cons]. *)
Definition console_handle_input (page : list Z) (in_cons in_prod : Z) : outcome (list Z * list (list Z) * Z) :=
  if isz <? wrap32 (in_prod - in_cons) then Halt "BUG_ON((prod - cons) > sizeof(intf->in))"
  else input_loop (S (Z.to_nat isz)) page in_cons in_prod [].
End input.

(** ** What a terminal should get *)
Fixpoint with_crlf (data : list Z) : list Z :=
  match data with
  | [] => []
  | c :: data => (if c =? 10 then [13; 10] else [c]) ++ with_crlf data
  end.
