(* ===== verification/XenconsThms.v ===== *)
(** * Theorems on the Xen console: nothing is lost, reordered or overwritten *)

From S2P Require Import Prelude Mem Xencons.

(** ** Line ends *)
Lemma with_crlf_app l1 l2 : with_crlf (l1 ++ l2) = with_crlf l1 ++ with_crlf l2.
Proof. induction l1 as [| c l1 IH]; [done |]. cbn. by rewrite IH, app_assoc. Qed.

Lemma insert_at {A} (l r : list A) (c u : A) k : k = Z.of_nat (length l) -> <[Z.to_nat k := u]> (l ++ c :: r) = l ++ u :: r.
Proof. intros ->. rewrite Nat2Z.id, <- (Nat.add_0_r (length l)), insert_app_r. done. Qed.

Lemma insert_next {A} (l r : list A) (c d v : A) k :
  k = Z.of_nat (length l) -> <[Z.to_nat (k + 1) := v]> (l ++ c :: d :: r) = l ++ c :: v :: r.
Proof.
  intros ->. replace (Z.to_nat (Z.of_nat (length l) + 1)) with (length l + 1)%nat by lia.
  by rewrite insert_app_r.
Qed.

Lemma lookup_at {A} (l r : list A) (c : A) k : k = Z.of_nat (length l) -> (l ++ c :: r) !! Z.to_nat k = Some c.
Proof. intros ->. rewrite Nat2Z.id. by rewrite list_lookup_middle. Qed.

Lemma lookup_next {A} (l r : list A) (c d : A) k :
  k = Z.of_nat (length l) -> (l ++ c :: d :: r) !! Z.to_nat (k + 1) = Some d.
Proof.
  intros ->. replace (Z.to_nat (Z.of_nat (length l) + 1)) with (length l + 1)%nat by lia.
  by rewrite lookup_app_r, Nat.add_comm, Nat.add_sub by lia.
Qed.

Lemma slice_at {A} (l s r : list A) k n :
  k = Z.of_nat (length l) -> n = Z.of_nat (length s) -> take (Z.to_nat n) (drop (Z.to_nat k) (l ++ s ++ r)) = s.
Proof. intros -> ->. rewrite !Nat2Z.id, drop_app_length, take_app_length. done. Qed.

(** [buf] before the loop is [pre], the piece being scanned [seg], the part
    [rest] still to scan, the last character and the spare byte. *)
Lemma print_loop_correct rest : forall fuel pre seg l x,
  (length rest < fuel)%nat ->
  exists pieces pre' seg',
    print_loop fuel (pre ++ seg ++ rest ++ [l; x]) (Z.of_nat (length pre))
      (Z.of_nat (length seg + length rest) + 1) (Z.of_nat (length pre + length seg))
    = Done (pieces, pre' ++ seg' ++ [l; x], Z.of_nat (length pre'), Z.of_nat (length seg') + 1) /\
    concat pieces ++ seg' = seg ++ with_crlf rest /\
    (length pre' + length seg' = length pre + length seg + length rest)%nat.
Proof.
  induction rest as [| c rest IH]; intros [| fuel] pre seg l x Hf; cbn [length] in Hf; try lia.
  { cbn [print_loop length]. rewrite (proj2 (Z.ltb_ge _ _)) by lia. exists [], pre, seg. rewrite !Nat.add_0_r.
    split; [done |]. cbn. rewrite app_nil_r. split; [done | lia]. }
  destruct (rest ++ [l; x]) as [| d r] eqn:Er; [by destruct rest |].
  assert (Eb : pre ++ seg ++ (c :: rest) ++ [l; x] = (pre ++ seg) ++ c :: d :: r) by (cbn; by rewrite Er, app_assoc).
  rewrite Eb. cbn [print_loop]. rewrite (proj2 (Z.ltb_lt _ _)) by (cbn; lia).
  assert (Hk : Z.of_nat (length pre + length seg) = Z.of_nat (length (pre ++ seg))) by (by rewrite length_app).
  rewrite (lookup_at _ _ _ (Z.of_nat (length pre + length seg))) by done. cbn [of_option mbind outcome_bind]. destruct (Z.eqb_spec c 10) as [-> | Hc].
  - rewrite lookup_next by done. cbn [of_option mbind outcome_bind].
    rewrite (insert_at _ (d :: r)), insert_next, insert_next by done.
    destruct (IH fuel (pre ++ seg ++ [13]) [] l x) as (pieces & pre' & seg' & E & Hc & Hl); [lia |].
    replace (pre ++ seg ++ [13]) with ((pre ++ seg) ++ [13]) in E by (by rewrite app_assoc).
    cbn [app length Nat.add] in E. rewrite Er, <- app_assoc in E. cbn [app] in E.
    assert (Ea : Z.of_nat (length pre + length seg) + 1 = Z.of_nat (length ((pre ++ seg) ++ [13])))
      by (rewrite !length_app; cbn; lia).
    rewrite Nat.add_0_r in E. rewrite Ea.
    match goal with |- context [print_loop fuel _ _ ?n _] =>
      replace n with (Z.of_nat (length rest) + 1) by (cbn [length]; lia) end.
    rewrite E. cbn [mbind outcome_bind]. eexists _, pre', seg'. split; [done |].
    cbn [concat]. rewrite <- app_assoc, Hc. cbn [app]. split; [| rewrite !length_app in Hl; cbn in *; lia].
    replace ((pre ++ seg) ++ 13 :: 10 :: r) with (pre ++ (seg ++ [13; 10]) ++ r) by (by rewrite <- !app_assoc).
    rewrite slice_at by (rewrite ?length_app; cbn; lia). by rewrite <- app_assoc.
  - destruct (IH fuel pre (seg ++ [c]) l x) as (pieces & pre' & seg' & E & Hc' & Hl); [lia |].
    rewrite Er in E. rewrite <- app_assoc. rewrite <- app_assoc in E. cbn [app] in E. rewrite length_app in E.
    exists pieces, pre', seg'. split; [| split].
    + rewrite <- E. f_equal; cbn [length]; lia.
    + rewrite Hc'. cbn. rewrite (proj2 (Z.eqb_neq c 10)) by done. by rewrite <- app_assoc.
    + rewrite length_app in Hl. cbn in *. lia.
Qed.

Lemma console_print_pieces data l :
  exists pieces, minios_console_print (data ++ [l]) = Done pieces /\ concat pieces = with_crlf (data ++ [l]).
Proof.
  destruct (print_loop_correct data (S (length (data ++ [l]))) [] [] l 0) as (pieces & pre & seg & E & Hc & Hl).
  { rewrite length_app. cbn. lia. }
  unfold minios_console_print. rewrite <- app_assoc, Nat2Z.id. cbn [app].
  cbn [app length Nat.add] in E. replace (Z.of_nat (length (data ++ [l]))) with (Z.of_nat (length data) + 1)
    by (rewrite length_app; cbn; lia).
  change (Z.of_nat 0) with 0 in E. rewrite E. cbn [mbind outcome_bind].
  rewrite (proj2 (Z.ltb_ge _ _)) by lia. rewrite app_assoc.
  assert (Hk : Z.of_nat (length pre) + (Z.of_nat (length seg) + 1) - 1 = Z.of_nat (length (pre ++ seg)))
    by (rewrite length_app; lia).
  rewrite lookup_at by done. cbn [of_option mbind outcome_bind]. cbn [app] in Hc. rewrite with_crlf_app, <- Hc. cbn [with_crlf].
  destruct (Z.eqb_spec l 10) as [-> | Hne]; (eexists; split; [done |]); rewrite concat_app; cbn [concat app];
    rewrite !app_nil_r, <- (app_assoc (concat pieces)); f_equal.
  - rewrite insert_at by done.
    replace (Z.of_nat (length pre) + (Z.of_nat (length seg) + 1)) with (Z.of_nat (length (pre ++ seg)) + 1)
      by (rewrite length_app; lia).
    rewrite insert_next by done. replace ((pre ++ seg) ++ [13; 10]) with (pre ++ (seg ++ [13; 10]) ++ [])
      by (by rewrite app_nil_r, app_assoc).
    rewrite slice_at; [done | done | rewrite length_app; cbn; lia].
  - replace ((pre ++ seg) ++ [l; 0]) with (pre ++ (seg ++ [l]) ++ [0]) by (by rewrite <- !app_assoc).
    rewrite slice_at; [done | done | rewrite length_app; cbn; lia].
Qed.

(** ** The ring *)
Section ring.
Context (k : Z) (Hk : 0 <= k <= 31).
Let osz : Z := 2 ^ k.
Context (total : list Z).

Abbreviation zlen l := (Z.of_nat (length l)).

Lemma osz_pos : 0 < osz.
Proof. apply Z.pow_pos_nonneg; lia. Qed.
Lemma osz_small : osz < 2 ^ 32.
Proof. apply Z.pow_lt_mono_r; lia. Qed.

Lemma mask_wrap i : MASK_XENCONS_IDX osz (wrap32 i) = i mod osz.
Proof.
  unfold MASK_XENCONS_IDX, wrap32. replace (osz - 1) with (Z.ones k) by (rewrite Z.ones_equiv; unfold osz; lia).
  rewrite Z.land_ones by lia. apply Z.mod_mod_divide.
  exists (2 ^ (32 - k)). unfold osz. rewrite <- Z.pow_add_r by lia. f_equal. lia.
Qed.

Lemma wrap_diff a b : 0 <= a - b < 2 ^ 32 -> wrap32 (wrap32 a - wrap32 b) = a - b.
Proof. intros H. unfold wrap32. rewrite <- Zminus_mod. by apply Z.mod_small. Qed.

(** Two positions less than a ring apart use different slots. *)
Lemma slot_ne i j : i < j < i + osz -> i mod osz <> j mod osz.
Proof.
  intros H E. pose proof osz_pos. pose proof (Z.div_mod i osz ltac:(lia)). pose proof (Z.div_mod j osz ltac:(lia)).
  assert (Hd : osz * (j / osz - i / osz) = j - i) by lia.
  destruct (Z.le_gt_cases (j / osz - i / osz) 0); nia.
Qed.

(** What is still to be sent. *)
Definition remaining (s : console) : list Z :=
  match pc s with
  | SIdle => []
  | SLoop d sent | SCons d sent | SProd d sent _ | SCopy d sent _ _ _ | SPublish d sent _ _ => drop (Z.to_nat sent) d
  | SRet d sent part => drop (Z.to_nat (sent + part)) d
  end ++ concat (todo s).

(** [acc] is everything published so far. *)
Definition ring_inv (s : console) (acc : list Z) : Prop :=
  zlen (ring_out s) = osz /\ out_prod s = wrap32 (zlen acc) /\ out_cons s = wrap32 (zlen (drained s)) /\
  drained s `prefix_of` acc /\ zlen acc - zlen (drained s) <= osz /\
  (forall i, zlen (drained s) <= i < zlen acc -> ring_out s !! Z.to_nat (i mod osz) = acc !! Z.to_nat i).

(** A copy of [out_cons] may be out of date, but only in one direction. *)
Definition old_cons (s : console) (acc : list Z) (part c : Z) : Prop :=
  exists C, c = wrap32 C /\ 0 <= C <= zlen (drained s) /\ zlen acc + part - C <= osz.

Definition pc_inv (s : console) (acc : list Z) : Prop :=
  match pc s with
  | SIdle => True
  | SLoop d sent | SCons d sent => 0 <= sent <= zlen d
  | SProd d sent c => 0 <= sent <= zlen d /\ old_cons s acc 0 c
  | SCopy d sent c p part =>
      0 <= sent /\ 0 <= part /\ sent + part <= zlen d /\ p = wrap32 (zlen acc + part) /\ old_cons s acc part c /\
      forall i, 0 <= i < part -> ring_out s !! Z.to_nat ((zlen acc + i) mod osz) = d !! Z.to_nat (sent + i)
  | SPublish d sent p part =>
      0 <= sent /\ 0 <= part /\ sent + part <= zlen d /\ p = wrap32 (zlen acc + part) /\ zlen acc + part - zlen (drained s) <= osz /\
      forall i, 0 <= i < part -> ring_out s !! Z.to_nat ((zlen acc + i) mod osz) = d !! Z.to_nat (sent + i)
  | SRet d sent part => 0 <= sent /\ 0 <= part /\ sent + part <= zlen d
  end.

Definition console_inv (s : console) (acc : list Z) : Prop :=
  ring_inv s acc /\ pc_inv s acc /\ acc ++ remaining s `sublist_of` total /\
  (console_initialised s = true -> acc ++ remaining s = total).

Lemma ring_inv_pc s q acc : ring_inv (with_pc q s) acc <-> ring_inv s acc.
Proof. done. Qed.

Lemma acc_of_publish (acc d : list Z) sent part i :
  0 <= sent -> 0 <= part -> zlen acc <= i < zlen acc + part -> sent + part <= zlen d ->
  (acc ++ take (Z.to_nat part) (drop (Z.to_nat sent) d)) !! Z.to_nat i = d !! Z.to_nat (sent + (i - zlen acc)).
Proof.
  intros. rewrite lookup_app_r by lia. rewrite lookup_take_lt by lia. rewrite lookup_drop. f_equal. lia.
Qed.

(** The backend's step. *)
Lemma backend_inv s acc :
  console_inv s acc -> exists s', backend_step osz s = Done s' /\ console_inv s' acc.
Proof.
  intros ((Hlen & Hp & Hc & Hpre & Hroom & Hslot) & Hpc & Hrem). pose proof osz_pos. pose proof osz_small.
  pose proof (prefix_length _ _ Hpre). unfold backend_step. rewrite Hp, Hc. destruct (Z.eqb_spec (wrap32 (zlen (drained s))) (wrap32 (zlen acc))) as [E | Hne].
  { exists s. split; [done |]. split; [unfold ring_inv; split_and!; done | by split]. }
  assert (Hlt : zlen (drained s) < zlen acc).
  { destruct (decide (length (drained s) = length acc)) as [E |]; [by rewrite E in Hne | lia]. }
  destruct (lookup_lt_is_Some_2 acc (length (drained s)) ltac:(lia)) as [b Hb].
  assert (Hread : ring_out s !! Z.to_nat (MASK_XENCONS_IDX osz (wrap32 (zlen (drained s)))) = Some b)
    by (rewrite mask_wrap, Hslot, Nat2Z.id by lia; done).
  rewrite Hread. cbn [of_option mbind outcome_bind]. eexists. split; [done |].
  assert (Hold : forall part c, old_cons s acc part c -> forall s', drained s' = drained s ++ [b] -> old_cons s' acc part c).
  { intros part c (C & ? & ? & ?) s' Es. exists C. rewrite Es, length_app. cbn. split_and!; (done || lia). }
  split; [| split; [| exact Hrem]].
  - unfold ring_inv. cbn. split_and!; try done.
    + unfold wrap32. rewrite Zplus_mod_idemp_l. f_equal. rewrite length_app. cbn. lia.
    + destruct Hpre as [r ->]. rewrite lookup_app_r, Nat.sub_diag in Hb by lia.
      destruct r as [| c r]; simplify_eq/=. exists r. by rewrite <- app_assoc.
    + rewrite length_app. cbn. lia.
    + intros i Hi. rewrite length_app in Hi. cbn in Hi. apply Hslot. lia.
  - unfold pc_inv in *. cbn. destruct (pc s); try done; cbn in *.
    + destruct Hpc. split; [done |]. eapply Hold; done.
    + destruct Hpc as (? & ? & ? & ? & ? & ?). split_and!; try done. eapply Hold; done.
    + destruct Hpc as (? & ? & ? & ? & ? & ?). split_and!; try done. rewrite length_app. cbn. lia.
Qed.

(** Storing a byte does not touch what the backend may still read. *)
Lemma copy_inv s acc d sent c p part :
  console_inv s acc -> pc s = SCopy d sent c p part ->
  exists s', ring_send_no_notify_step osz s = Done s' /\ console_inv s' acc.
Proof.
  intros ((Hlen & Hp & Hc & Hpre & Hroom & Hslot) & Hpc & Hrem) E. pose proof osz_pos. pose proof osz_small.
  pose proof (prefix_length _ _ Hpre).
  unfold pc_inv in Hpc. rewrite E in Hpc. destruct Hpc as (Hs & Hpa & Hsum & -> & (C & -> & HC & Hold) & Hnew).
  unfold ring_send_no_notify_step. rewrite E, wrap_diff by lia.
  destruct (Z.ltb_spec part (zlen d - sent)); [destruct (Z.ltb_spec (zlen acc + part - C) osz) |]; cbn [andb].
  - destruct (lookup_lt_is_Some_2 d (Z.to_nat (sent + part)) ltac:(lia)) as [b Hb].
    rewrite Hb. cbn [of_option mbind outcome_bind]. rewrite mask_wrap.
    pose proof (Z.mod_pos_bound (zlen acc + part) osz ltac:(lia)).
    rewrite bool_decide_true by lia. eexists. split; [done |].
    assert (Hother : forall i, zlen acc + part - osz < i < zlen acc + part ->
      <[Z.to_nat ((zlen acc + part) mod osz) := b]> (ring_out s) !! Z.to_nat (i mod osz) = ring_out s !! Z.to_nat (i mod osz)).
    { intros i Hi. apply list_lookup_insert_ne. pose proof (slot_ne i (zlen acc + part) ltac:(lia)).
      pose proof (Z.mod_pos_bound i osz ltac:(lia)). lia. }
    split; [| split].
    + unfold ring_inv. cbn. rewrite length_insert. split_and!; try done.
      intros i Hi. rewrite Hother by lia. by apply Hslot.
    + unfold pc_inv. cbn. split_and!; try lia.
      * unfold wrap32. rewrite Zplus_mod_idemp_l. f_equal. lia.
      * exists C. cbn. split_and!; (done || lia).
      * intros i Hi. destruct (decide (i = part)) as [-> | Hne].
        { rewrite list_lookup_insert_eq by lia. done. }
        rewrite Hother by lia. apply Hnew. lia.
    + unfold remaining in *. cbn. rewrite E in Hrem. exact Hrem.
  - eexists. split; [done |]. split; [done |]. split.
    + unfold pc_inv. cbn. split_and!; try done; lia.
    + unfold remaining in *. cbn. rewrite E in Hrem. exact Hrem.
  - eexists. split; [done |]. split; [done |]. split.
    + unfold pc_inv. cbn. split_and!; try done; lia.
    + unfold remaining in *. cbn. rewrite E in Hrem. exact Hrem.
Qed.

(** Publishing makes the stored bytes part of the stream. *)
Lemma publish_inv s acc d sent p part :
  console_inv s acc -> pc s = SPublish d sent p part ->
  exists s', ring_send_no_notify_step osz s = Done s' /\
    console_inv s' (acc ++ take (Z.to_nat part) (drop (Z.to_nat sent) d)).
Proof.
  intros ((Hlen & Hp & Hc & Hpre & Hroom & Hslot) & Hpc & Hrem) E. pose proof osz_pos.
  unfold pc_inv in Hpc. rewrite E in Hpc. destruct Hpc as (Hs & Hpa & Hsum & -> & Hr & Hnew).
  unfold ring_send_no_notify_step. rewrite E. eexists. split; [done |].
  assert (Hla : zlen (acc ++ take (Z.to_nat part) (drop (Z.to_nat sent) d)) = zlen acc + part)
    by (rewrite length_app, length_take, length_drop; lia).
  split; [| split].
  - unfold ring_inv. cbn. rewrite Hla. split_and!; try done.
    + by apply prefix_app_r.
    + intros i Hi. destruct (decide (i < zlen acc)).
      { rewrite lookup_app_l by lia. apply Hslot. lia. }
      rewrite acc_of_publish by lia. rewrite <- Hnew by lia. do 3 f_equal. lia.
  - unfold pc_inv. cbn. lia.
  - assert (Er : remaining (with_pc (SPublish d sent (wrap32 (zlen acc + part)) part) s) =
      take (Z.to_nat part) (drop (Z.to_nat sent) d) ++ remaining (with_pc (SRet d sent part) s)).
    { unfold remaining. cbn. rewrite app_assoc. f_equal.
      replace (Z.to_nat (sent + part)) with (Z.to_nat sent + Z.to_nat part)%nat by lia.
      rewrite <- drop_drop. by rewrite take_drop. }
    unfold remaining in Hrem at 1 2. rewrite E in Hrem. unfold remaining in Er at 1. cbn in Er.
    rewrite Er, app_assoc in Hrem. exact Hrem.
Qed.

(** Where no byte moves, the stream stays as it is. *)
Ltac same_stream E Hrem :=
  unfold remaining in *; rewrite E in Hrem; cbn; rewrite ?app_nil_l; exact Hrem.

Lemma guest_inv s acc :
  console_inv s acc -> exists s' acc', guest_step osz s = Done s' /\ console_inv s' acc'.
Proof.
  intros Hi. destruct (pc s) as [| d sent | d sent | d sent c | d sent c p part | d sent p part | d sent part] eqn:E.
  4: { unfold guest_step. rewrite E. unfold ring_send_no_notify_step. rewrite E.
    destruct Hi as (Hr & Hpc & Hrem). unfold pc_inv in Hpc. rewrite E in Hpc. destruct Hpc as (? & C & -> & ? & Hl).
    pose proof osz_small. pose proof (prefix_length (drained s) acc ltac:(apply Hr)).
    replace (out_prod s) with (wrap32 (zlen acc)) by (symmetry; apply Hr).
    rewrite wrap_diff by lia. rewrite (proj2 (Z.ltb_ge _ _)) by lia. eexists _, acc. split; [done |].
    split; [done |]. split; [| same_stream E Hrem]. unfold pc_inv. cbn. split_and!; try lia.
    - by rewrite Z.add_0_r.
    - exists C. done. }
  4: { destruct (copy_inv s acc _ _ _ _ _ Hi E) as (s' & E' & ?). exists s', acc.
    unfold guest_step. rewrite E. done. }
  4: { destruct (publish_inv s acc _ _ _ _ Hi E) as (s' & E' & ?). eexists s', _.
    unfold guest_step. rewrite E. done. }
  all: destruct Hi as (Hr & Hpc & Hrem); unfold pc_inv in Hpc; rewrite E in Hpc; unfold guest_step; rewrite E.
  - destruct (todo s) as [| d rest] eqn:Et; (eexists _, acc; split; [done |]).
    + split; [done |]. split; [unfold pc_inv; by rewrite E | done].
    + split; [done |]. split; [unfold pc_inv; cbn; destruct (console_initialised s); lia |].
      unfold remaining in *. rewrite E, Et in Hrem. cbn. destruct (console_initialised s); exact Hrem.
  - destruct (Z.ltb_spec sent (zlen d)).
    + eexists _, acc. split; [done |]. split; [done |]. split; [unfold pc_inv; cbn; lia | same_stream E Hrem].
    + rewrite (proj2 (Z.eqb_eq _ _)) by lia. eexists _, acc. split; [done |]. split; [done |]. split; [done |].
      unfold remaining in *. rewrite E, drop_ge in Hrem by lia. exact Hrem.
  - unfold ring_send_no_notify_step. rewrite E. destruct (has_intf s); (eexists _, acc; split; [done |]).
    + split; [done |]. split; [| same_stream E Hrem]. unfold pc_inv. cbn. split; [done |].
      exists (zlen (drained s)). split; [apply Hr |]. split; [cbn; lia |]. rewrite Z.add_0_r. apply Hr.
    + split; [done |]. split; [unfold pc_inv; cbn; lia |].
      unfold remaining in *. rewrite E in Hrem. cbn. by rewrite Z.add_0_r.
  - destruct (console_initialised s) eqn:Ei; (eexists _, acc; split; [done |]).
    + split; [done |]. split; [unfold pc_inv; cbn; lia |]. unfold remaining in *. rewrite E in Hrem. cbn. by rewrite Ei.
    + split; [done |]. split; [done |]. unfold remaining in *. rewrite E in Hrem. cbn. rewrite Ei.
      split; [| done]. destruct Hrem as [Hsub _]. etrans; [| exact Hsub].
      apply sublist_app; [done |]. by apply sublist_inserts_l.
Qed.

Lemma run_inv turns : forall s acc,
  console_inv s acc -> exists s' acc', console_run osz turns s = Done s' /\ console_inv s' acc'.
Proof.
  induction turns as [| [|] turns IH]; intros s acc Hi; cbn [console_run].
  - eauto.
  - destruct (guest_inv s acc Hi) as (s1 & acc1 & -> & H1). cbn [mbind outcome_bind]. by eapply IH.
  - destruct (backend_inv s acc Hi) as (s1 & -> & H1). cbn [mbind outcome_bind]. by eapply IH.
Qed.

Lemma start_inv initialised intf pieces :
  concat pieces = total -> console_inv (console_start osz initialised intf pieces) [].
Proof.
  intros Ht. pose proof osz_pos. split; [| split; [done |]].
  - unfold ring_inv. cbn. rewrite repeat_length. split_and!; try done; try lia.
  - unfold remaining. cbn. rewrite Ht. done.
Qed.

(** *** Progress

    While the backend empties the ring before each step of the guest, a
    measure decreases: bytes and pieces to send, then the distance to the next
    publication.  A call is [wasted] if it is bound to publish nothing, having
    seen a full ring. *)
Definition to_send (s : console) : Z := zlen (remaining s) + zlen (todo s).
Definition wasted (d : list Z) (sent c p part : Z) : bool :=
  (part <=? 0) && ((osz <=? wrap32 (p - c)) || (zlen d <=? sent)).
Definition phase (s : console) : Z :=
  let M := zlen total in
  match pc s with
  | SIdle => 0
  | SLoop _ _ => M + 5
  | SCons d sent => if zlen d <=? sent then M + 10 else M + 4
  | SProd d sent c => if wasted d sent c (out_prod s) 0 then M + 9 else M + 3
  | SCopy d sent c p part => if wasted d sent c p part then M + 8 else 2 + (zlen d - sent - part)
  | SPublish _ _ _ part => if part <=? 0 then M + 7 else 1
  | SRet _ _ _ => M + 6
  end.
Definition distance (s : console) : Z := (zlen total + 11) * to_send s + phase s.
Definition working (s : console) : Prop := console_initialised s = true /\ has_intf s = true.

Lemma to_send_pos s : 0 <= to_send s.
Proof. unfold to_send. lia. Qed.

Lemma data_bound s acc d sent :
  console_inv s acc -> working s -> 0 <= sent -> (exists r, remaining s = drop (Z.to_nat sent) d ++ r) -> zlen d - sent <= zlen total.
Proof.
  intros (_ & _ & _ & Ht) [Hi _] Hs [r Hr]. rewrite <- (Ht Hi), Hr, !length_app, length_drop. lia.
Qed.

Lemma phase_bound s acc : console_inv s acc -> working s -> 0 <= phase s < zlen total + 11.
Proof.
  intros Hi Hw. assert (Hpc : pc_inv s acc) by apply Hi. unfold phase, pc_inv in *.
  destruct (pc s) as [| | | | d sent c p part | |] eqn:E; repeat case_match; try lia.
  pose proof (data_bound s acc d sent Hi Hw ltac:(lia) ltac:(unfold remaining; rewrite E; eauto)). lia.
Qed.

(** A step of the guest into an empty ring gets closer to the end. *)
Lemma guest_closer s acc s' acc' :
  console_inv s acc -> working s -> zlen acc = zlen (drained s) -> ~ (pc s = SIdle /\ todo s = []) ->
  guest_step osz s = Done s' -> console_inv s' acc' -> working s' -> distance s' < distance s.
Proof.
  intros Hi Hw Hd Hne Hstep Hi' Hw'. pose proof osz_pos. pose proof osz_small.
  pose proof (phase_bound s acc Hi Hw) as Hb. pose proof (phase_bound s' acc' Hi' Hw') as Hb'.
  assert (Hpc : pc_inv s acc) by apply Hi.
  assert (Hcp : out_prod s = wrap32 (zlen acc) /\ out_cons s = wrap32 (zlen acc)).
  { destruct Hi as [(? & ? & ? & _) _]. split; congruence. }
  pose proof (to_send_pos s). pose proof (to_send_pos s').
  assert (Hless : to_send s' < to_send s \/ to_send s' = to_send s /\ phase s' < phase s -> distance s' < distance s)
    by (unfold distance; intros [? | [-> ?]]; nia).
  apply Hless. clear Hless. unfold guest_step, ring_send_no_notify_step, pc_inv in *. destruct Hw as [Hw1 Hw2].
  destruct (pc s) as [| d sent | d sent | d sent c | d sent c p part | d sent p part | d sent part] eqn:E.
  - destruct (todo s) as [| d rest] eqn:Et; [by destruct Hne |]. left. outcome_inv. unfold to_send, remaining.
    cbn. rewrite E, Et, Hw1. cbn. rewrite drop_0. lia.
  - right. destruct (Z.ltb_spec sent (zlen d)); [| destruct (Z.eqb_spec sent (zlen d)); [| done]]; outcome_inv.
    + unfold to_send, remaining, phase. cbn. rewrite E. rewrite (proj2 (Z.leb_gt _ _)) by lia. lia.
    + unfold to_send, remaining, phase. cbn. rewrite E, drop_ge by lia. cbn. lia.
  - right. rewrite Hw2 in Hstep. outcome_inv. unfold to_send, remaining, phase, wasted. cbn. rewrite E.
    destruct Hcp as [-> ->]. rewrite wrap_diff, Z.sub_diag by lia. rewrite (proj2 (Z.leb_gt osz 0)) by lia. cbn.
    destruct (zlen d <=? sent); lia.
  - right. case_match; [done |]. outcome_inv. unfold to_send, remaining, phase. cbn. rewrite E.
    pose proof (data_bound s acc d sent Hi ltac:(done) ltac:(lia) ltac:(unfold remaining; rewrite E; eauto)).
    destruct ((osz <=? wrap32 (out_prod s - c)) || (zlen d <=? sent)); lia.
  - right. case_match eqn:Ht.
    + apply andb_true_iff in Ht as [Ht1%Z.ltb_lt Ht2%Z.ltb_lt]. outcome_inv. case_match; [| done]. outcome_inv.
      unfold to_send, remaining, phase, wasted. cbn. rewrite E.
      rewrite (proj2 (Z.leb_gt (part + 1) 0)), (proj2 (Z.leb_gt osz (wrap32 (p - c)))), (proj2 (Z.leb_gt (zlen d) sent)) by lia.
      cbn. rewrite andb_false_r. lia.
    + outcome_inv. unfold to_send, remaining, phase, wasted. cbn. rewrite E. destruct (Z.leb_spec part 0); [| cbn; lia].
      cbn. apply andb_false_iff in Ht as [Ht%Z.ltb_ge | Ht%Z.ltb_ge].
      * rewrite (proj2 (Z.leb_le (zlen d) sent)), orb_true_r by lia. lia.
      * rewrite (proj2 (Z.leb_le osz _)) by lia. cbn. lia.
  - outcome_inv. unfold to_send, remaining, phase. cbn. rewrite E. rewrite !length_app, !length_drop.
    destruct (Z.leb_spec part 0); lia.
  - right. rewrite Hw1 in Hstep. outcome_inv. unfold to_send, remaining, phase. cbn. rewrite E. lia.
Qed.

Lemma guest_keeps s s' : guest_step osz s = Done s' -> working s -> working s' /\ drained s' = drained s.
Proof.
  unfold guest_step, ring_send_no_notify_step, working. intros H Hw.
  clear Hk. destruct (pc s); repeat (case_match || outcome_inv); cbn in *; naive_solver.
Qed.

Lemma backend_closer s acc s' acc' :
  console_inv s acc -> zlen (drained s) < zlen acc -> backend_step osz s = Done s' -> console_inv s' acc' ->
  distance s' = distance s /\ (working s -> working s') /\ zlen (drained s') = zlen (drained s) + 1.
Proof.
  intros ((_ & Hp & Hc & _ & Hroom & _) & _) Hlt Hstep Hi'. unfold backend_step in Hstep. pose proof osz_small.
  destruct (Z.eqb_spec (out_cons s) (out_prod s)) as [E | _].
  { exfalso. rewrite Hp, Hc in E. pose proof (wrap_diff (zlen acc) (zlen (drained s)) ltac:(lia)) as Hw.
    rewrite E, Z.sub_diag in Hw. change (wrap32 0) with 0 in Hw. lia. }
  outcome_inv. split; [done |]. split; [done |]. cbn. rewrite length_app. cbn. lia.
Qed.

(** From every state of a run the rest can still be sent and read. *)
Lemma can_complete s acc :
  console_inv s acc -> working s ->
  exists turns s', console_run osz turns s = Done s' /\ pc s' = SIdle /\ todo s' = [] /\ drained s' = total.
Proof.
  remember (Z.to_nat ((osz + 1) * distance s + (zlen acc - zlen (drained s)))) as n eqn:En.
  revert s acc En. induction (lt_wf n) as [n _ IH]. intros s acc -> Hi Hw. pose proof osz_pos.
  assert (Hr : ring_inv s acc) by apply Hi. destruct Hr as (_ & _ & _ & Hpre & Hroom & _).
  pose proof (prefix_length _ _ Hpre).
  assert (Hdist : forall s acc, console_inv s acc -> working s -> 0 <= distance s).
  { intros s1 acc1 Hi1 Hw1. pose proof (phase_bound s1 acc1 Hi1 Hw1). pose proof (to_send_pos s1). unfold distance. nia. }
  pose proof (Hdist s acc Hi Hw).
  destruct (decide (zlen (drained s) < zlen acc)) as [Hlt | Hge].
  - destruct (backend_inv s acc Hi) as (s1 & E1 & Hi1).
    destruct (backend_closer s acc s1 acc Hi Hlt E1 Hi1) as (Ed & Hw1 & Hl).
    destruct (IH (Z.to_nat ((osz + 1) * distance s1 + (zlen acc - zlen (drained s1))))) with (s := s1) (acc := acc)
      as (turns & s' & E & ?); [| done | done | by apply Hw1 |].
    + rewrite Ed, Hl. apply Z2Nat.inj_lt; nia.
    + exists (Backend :: turns), s'. cbn [console_run]. by rewrite E1.
  - destruct (decide (todo s = [] /\ pc s = SIdle)) as [[Et Ep] | Hne].
    + exists [], s. split_and!; try done. destruct Hi as (_ & _ & _ & Ht). destruct Hw as [Hw _].
      rewrite <- (Ht Hw). unfold remaining. rewrite Ep, Et. cbn. rewrite app_nil_r.
      destruct Hpre as [r ->]. rewrite length_app in *. destruct r; [by rewrite app_nil_r | cbn in *; lia].
    + destruct (guest_inv s acc Hi) as (s1 & acc1 & E1 & Hi1).
      destruct (guest_keeps s s1 E1 Hw) as [Hw1 Hd1].
      pose proof (guest_closer s acc s1 acc1 Hi Hw ltac:(lia) ltac:(tauto) E1 Hi1 Hw1) as Hcl.
      assert (Hr1 : zlen acc1 - zlen (drained s1) <= osz) by apply Hi1.
      assert (Hpre1 : drained s1 `prefix_of` acc1) by apply Hi1. apply prefix_length in Hpre1.
      pose proof (Hdist s1 acc1 Hi1 Hw1).
      destruct (IH (Z.to_nat ((osz + 1) * distance s1 + (zlen acc1 - zlen (drained s1))))) with (s := s1) (acc := acc1)
        as (turns & s' & E & ?); [| done | done | done |].
      * apply Z2Nat.inj_lt; nia.
      * exists (Guest :: turns), s'. cbn [console_run]. by rewrite E1.
Qed.
End ring.

Lemma run_working k turns : forall s s',
  console_run (2 ^ k) turns s = Done s' -> working s -> working s'.
Proof.
  induction turns as [| [|] turns IH]; intros s s' H Hw; cbn [console_run] in H; outcome_inv; [done | |].
  - eapply IH; [done |]. by eapply (guest_keeps k s).
  - eapply IH; [done |]. unfold backend_step in *. case_match; outcome_inv; done.
Qed.

(** C28. The console with a ring of [2^k] bytes: whatever the interleaving of
    the sending code with the backend, no check fails and nothing is accessed
    out of bounds; the backend reads a prefix of the text with its line ends
    turned into CR LF, nothing lost, repeated or overwritten, across the wrap
    of the ring and of the 32-bit indices; and from every point of the run it
    can still come to read all of it. *)
Theorem console_stream k data :
  0 <= k <= 31 -> data <> [] ->
  exists pieces, minios_console_print data = Done pieces /\
    forall turns, exists s,
      console_run (2 ^ k) turns (console_start (2 ^ k) true true pieces) = Done s /\
      drained s `prefix_of` with_crlf data /\
      exists turns' s', console_run (2 ^ k) turns' s = Done s' /\
        pc s' = SIdle /\ todo s' = [] /\ drained s' = with_crlf data.
Proof.
  intros Hk Hne. destruct (exists_last Hne) as (data' & l & ->).
  destruct (console_print_pieces data' l) as (pieces & E & Hp). exists pieces. split; [done |]. intros turns.
  destruct (run_inv k Hk (with_crlf (data' ++ [l])) turns _ [] (start_inv k Hk _ true true pieces Hp)) as (s & acc & Er & Hi).
  exists s. split; [done |].
  assert (Hw : working s) by (by apply (run_working k turns _ _ Er)). split.
  - destruct Hi as ((_ & _ & _ & Hpre & _) & _ & _ & Ht). destruct Hw as [Hw _].
    rewrite <- (Ht Hw). by apply prefix_app_r.
  - exact (can_complete k Hk _ s acc Hi Hw).
Qed.

Lemma console_stream_witness :
  0 <= 2 <= 31 /\ exists s,
    console_run 4 (concat (repeat [Guest; Guest; Backend] 9)) (console_start 4 true true [[97; 13; 10]; [98]]) = Done s /\
    drained s `prefix_of` with_crlf [97; 10; 98].
Proof.
  split; [lia |].
  destruct (console_stream 2 [97; 10; 98]) as (pieces & E & H); [lia | done |].
  destruct (H (concat (repeat [Guest; Guest; Backend] 9))) as (s & Er & Hp & _).
  exists s. split; [| exact Hp]. vm_compute in E. injection E as <-. exact Er.
Defined.

(** *** Without a console page

    [init_console] sets [console_initialised] whether or not there is a
    console.  If there is none, nothing is ever sent, and
    [xencons_ring_send] does not return. *)
Lemma no_page_spins osz d turns : d <> [] -> forall s,
  console_initialised s = true -> has_intf s = false -> out_cons s = out_prod s -> todo s = [] ->
  pc s = SLoop d 0 \/ pc s = SCons d 0 \/ pc s = SRet d 0 0 ->
  exists s', console_run osz turns s = Done s' /\ pc s' <> SIdle.
Proof.
  intros Hd. assert (Hlen : 0 < Z.of_nat (length d)) by (destruct d; cbn; [done | lia]).
  induction turns as [| [|] turns IH]; intros s Hc Hi Ho Ht Hp; cbn [console_run].
  - exists s. split; [done |]. intuition congruence.
  - unfold guest_step, ring_send_no_notify_step. destruct Hp as [E | [E | E]]; rewrite E.
    + rewrite (proj2 (Z.ltb_lt _ _)) by done. apply IH; auto.
    + rewrite Hi. apply IH; auto.
    + rewrite Hc. apply IH; auto.
  - unfold backend_step. rewrite Ho, Z.eqb_refl. by apply IH.
Qed.

Theorem console_spins_without_page osz d turns :
  d <> [] ->
  exists s, console_run osz (Guest :: turns) (console_start osz true false [d]) = Done s /\ pc s <> SIdle.
Proof. intros Hd. cbn [console_run]. apply (no_page_spins osz d turns Hd); auto. Qed.

(** An empty string is looked at before its first character. *)
Example console_print_empty : minios_console_print [] = Undef "copied_ptr[length-1]".
Proof. reflexivity. Qed.

(** [xencons_rx] writes its terminator over the next character: of two
    characters of input waiting in the ring only the first is printed, and a
    character in the last slot takes the first byte of the output ring. *)
Example console_input_lost :
  console_handle_input 4 [97; 98; 0; 0; 120; 121] 0 2 = Done ([97; 0; 0; 0; 120; 121], [[97]; []], 2) /\
  console_handle_input 4 [0; 0; 0; 97; 120; 121] 3 4 = Done ([0; 0; 0; 97; 0; 121], [[97]], 4).
Proof. split; reflexivity. Qed.
