(* ===== verification/Gnttab.v ===== *)
(** * Grant tables (platform/xen/xen/gnttab.c)

    A table shared with the hypervisor says which page frames other domains
    may use; the free entries are linked through [gnttab_list], and a
    semaphore counts them.  Several threads and interrupt handlers may be
    inside the functions at the same time, so each call is an activity that
    advances in steps: the part that [local_irq_save] protects is one step, and
    so is each access to the shared table, which the remote side may change in
    between.  The entry format is that of Xen's public headers; the number of
    entries is an argument. *)

From S2P Require Import Prelude.

Definition NR_RESERVED_ENTRIES : Z := 8.
Definition GTF_permit_access : Z := 1.
Definition GTF_accept_transfer : Z := 2.
Definition GTF_type_mask : Z := 3.
Definition GTF_readonly : Z := 4.
Definition GTF_reading : Z := 8.
Definition GTF_writing : Z := 16.
Definition GTF_transfer_committed : Z := 4.
Definition GTF_transfer_completed : Z := 8.

Definition wrap16 (z : Z) : Z := z mod 2 ^ 16.

Record grant_entry := GE { ge_flags : Z; ge_domid : Z; ge_frame : Z }.

(** The arguments of [gnttab_grant_access] and [gnttab_grant_transfer]. *)
Inductive grant :=
  | Access (domid frame readonly : Z)
  | Transfer (domid pfn : Z).

Definition grant_domid (g : grant) : Z := wrap16 (match g with Access d _ _ => d | Transfer d _ => d end).
Definition grant_frame (g : grant) : Z := wrap32 (match g with Access _ f _ => f | Transfer _ f => f end).
Definition grant_flags (g : grant) : Z :=
  wrap16 (match g with
          | Access _ _ readonly => Z.lor GTF_permit_access (readonly * GTF_readonly)
          | Transfer _ _ => GTF_accept_transfer
          end).

(** Where an activity is.  [AHeld] is between the calls: the caller has the
    reference. *)
Inductive act :=
  | ADown (g : grant)
  | APop (g : grant)
  | AFrame (g : grant) (ref : Z)
  | ADomid (g : grant) (ref : Z)
  | AFlags (g : grant) (ref : Z)
  | AHeld (g : grant) (ref : Z)
  | AEndRead (g : grant) (ref : Z)
  | AEndTest (g : grant) (ref nflags : Z)
  | AEndCas (g : grant) (ref flags : Z)
  | AXferRead (g : grant) (ref : Z)
  | AXferCas (g : grant) (ref flags : Z)
  | AXferWait (g : grant) (ref flags : Z)
  | AXferFrame (g : grant) (ref : Z)
  | APush (ref result : Z)
  | AUp (result : Z)
  | ADone (result : Z).

Record gnt := Gnt {
  gnttab_list : list Z;
  gnttab_table : list grant_entry;
  gnttab_sem : Z;
  acts : list act }.

Definition set_list (l : list Z) (s : gnt) : gnt := Gnt l (gnttab_table s) (gnttab_sem s) (acts s).
Definition set_sem (n : Z) (s : gnt) : gnt := Gnt (gnttab_list s) (gnttab_table s) n (acts s).
Definition set_act (t : nat) (a : act) (s : gnt) : gnt :=
  Gnt (gnttab_list s) (gnttab_table s) (gnttab_sem s) (<[t := a]> (acts s)).

(** Accesses to the arrays, which C does not check. *)
Definition list_at (s : gnt) (ref : Z) : outcome Z := of_option "gnttab_list" (gnttab_list s !! Z.to_nat ref).
Definition entry_at (s : gnt) (ref : Z) : outcome grant_entry := of_option "gnttab_table" (gnttab_table s !! Z.to_nat ref).
Definition put_entry (ref : Z) (e : grant_entry) (s : gnt) : gnt :=
  Gnt (gnttab_list s) (<[Z.to_nat ref := e]> (gnttab_table s)) (gnttab_sem s) (acts s).

Section grants.
Context (NR : Z).

Definition ref_ok (ref : Z) : bool := (NR_RESERVED_ENTRIES <=? ref) && (ref <? NR).

(** [put_free_entry] up to [local_irq_restore]; [up] is a step of its own. *)
Definition put_free_entry (ref : Z) (s : gnt) : outcome gnt :=
  head ← list_at s 0;
  _ ← list_at s ref;
  Done (set_list (<[0%nat := ref]> (<[Z.to_nat ref := head]> (gnttab_list s))) s).

(** [get_free_entry] after [down]. *)
Definition get_free_entry (s : gnt) : outcome (Z * gnt) :=
  ref ← list_at s 0;
  if negb (ref_ok ref) then Halt "BUG_ON(ref < NR_RESERVED_ENTRIES || ref >= NR_GRANT_ENTRIES)"
  else
    next ← list_at s ref;
    Done (ref, set_list (<[0%nat := next]> (gnttab_list s)) s).

(** One step of activity [t]. *)
Definition act_step (t : nat) (a : act) (s : gnt) : outcome gnt :=
  match a with
  | ADown g => if 0 <? gnttab_sem s then Done (set_act t (APop g) (set_sem (gnttab_sem s - 1) s)) else Done s
  | APop g => '(ref, s) ← get_free_entry s; Done (set_act t (AFrame g ref) s)
  | AFrame g ref =>
      e ← entry_at s ref;
      Done (set_act t (ADomid g ref) (put_entry ref (GE (ge_flags e) (ge_domid e) (grant_frame g)) s))
  | ADomid g ref =>
      e ← entry_at s ref;
      Done (set_act t (AFlags g ref) (put_entry ref (GE (ge_flags e) (grant_domid g) (ge_frame e)) s))
  | AFlags g ref =>
      e ← entry_at s ref;
      Done (set_act t (AHeld g ref) (put_entry ref (GE (grant_flags g) (ge_domid e) (ge_frame e)) s))
  | AHeld _ _ => Done s
  | AEndRead g ref =>
      if negb (ref_ok ref) then Halt "BUG_ON(ref >= NR_GRANT_ENTRIES || ref < NR_RESERVED_ENTRIES)"
      else e ← entry_at s ref; Done (set_act t (AEndTest g ref (ge_flags e)) s)
  | AEndTest g ref nflags =>
      if negb (Z.land nflags (Z.lor GTF_reading GTF_writing) =? 0) then Done (set_act t (AHeld g ref) s)
      else Done (set_act t (AEndCas g ref nflags) s)
  | AEndCas g ref flags =>
      e ← entry_at s ref;
      if ge_flags e =? flags
      then Done (set_act t (APush ref 1) (put_entry ref (GE 0 (ge_domid e) (ge_frame e)) s))
      else Done (set_act t (AEndTest g ref (ge_flags e)) s)
  | AXferRead g ref =>
      if negb (ref_ok ref) then Halt "BUG_ON(ref >= NR_GRANT_ENTRIES || ref < NR_RESERVED_ENTRIES)"
      else
        e ← entry_at s ref;
        if Z.land (ge_flags e) GTF_transfer_committed =? 0
        then Done (set_act t (AXferCas g ref (ge_flags e)) s)
        else Done (set_act t (AXferWait g ref (ge_flags e)) s)
  | AXferCas g ref flags =>
      e ← entry_at s ref;
      if ge_flags e =? flags
      then Done (set_act t (APush ref 0) (put_entry ref (GE 0 (ge_domid e) (ge_frame e)) s))
      else Done (set_act t (AXferRead g ref) s)
  | AXferWait g ref flags =>
      if Z.land flags GTF_transfer_completed =? 0
      then e ← entry_at s ref; Done (set_act t (AXferWait g ref (ge_flags e)) s)
      else Done (set_act t (AXferFrame g ref) s)
  | AXferFrame g ref => e ← entry_at s ref; Done (set_act t (APush ref (ge_frame e)) s)
  | APush ref result => s ← put_free_entry ref s; Done (set_act t (AUp result) s)
  | AUp result => Done (set_act t (ADone result) (set_sem (gnttab_sem s + 1) s))
  | ADone _ => Done s
  end.

(** What can happen: a new call to grant, a step of an activity, a call to end
    a grant that is held, and accesses of the remote side, which may only set
    and clear the bits that say it is using a page, or carry out a transfer
    that has not been completed. *)
Inductive event :=
  | Call (g : grant)
  | Step (t : nat)
  | End (t : nat)
  | RemoteUse (ref use : Z)
  | RemoteTransfer (ref done frame : Z).

Definition gnt_event (ev : event) (s : gnt) : outcome gnt :=
  match ev with
  | Call g => Done (Gnt (gnttab_list s) (gnttab_table s) (gnttab_sem s) (acts s ++ [ADown g]))
  | Step t => match acts s !! t with Some a => act_step t a s | None => Done s end
  | End t =>
      match acts s !! t with
      | Some (AHeld (Access _ _ _ as g) ref) => Done (set_act t (AEndRead g ref) s)
      | Some (AHeld (Transfer _ _ as g) ref) => Done (set_act t (AXferRead g ref) s)
      | _ => Done s
      end
  | RemoteUse ref use =>
      match gnttab_table s !! Z.to_nat ref with
      | Some e =>
          if Z.land (ge_flags e) GTF_type_mask =? GTF_permit_access then
            Done (put_entry ref (GE (Z.lor (Z.land (ge_flags e) (Z.lor GTF_type_mask GTF_readonly))
                                      (Z.land use (Z.lor GTF_reading GTF_writing))) (ge_domid e) (ge_frame e)) s)
          else Done s
      | None => Done s
      end
  | RemoteTransfer ref d frame =>
      match gnttab_table s !! Z.to_nat ref with
      | Some e =>
          if (Z.land (ge_flags e) GTF_type_mask =? GTF_accept_transfer) && (Z.land (ge_flags e) GTF_transfer_completed =? 0) then
            Done (put_entry ref (GE (Z.lor (ge_flags e) (Z.land d (Z.lor GTF_transfer_committed GTF_transfer_completed)))
                                   (ge_domid e) (wrap32 frame)) s)
          else Done s
      | None => Done s
      end
  end.

Fixpoint gnt_run (evs : list event) (s : gnt) : outcome gnt :=
  match evs with
  | [] => Done s
  | ev :: evs => s ← gnt_event ev s; gnt_run evs s
  end.

(** [init_gnttab]: the entries are freed one by one; the hypervisor hands out
    the table cleared. *)
Fixpoint init_loop (n : nat) (i : Z) (s : gnt) : outcome gnt :=
  match n with
  | O => Done s
  | S n => s ← put_free_entry i s; init_loop n (i + 1) (set_sem (gnttab_sem s + 1) s)
  end.
Definition init_gnttab : outcome gnt :=
  init_loop (Z.to_nat (NR - NR_RESERVED_ENTRIES)) NR_RESERVED_ENTRIES
    (Gnt (replicate (Z.to_nat NR) 0) (replicate (Z.to_nat NR) (GE 0 0 0)) 0 []).
End grants.

(** The reference an activity has, and the grant it stands for. *)
Definition act_ref (a : act) : option Z :=
  match a with
  | ADown _ | APop _ | AUp _ | ADone _ => None
  | AFrame _ r | ADomid _ r | AFlags _ r | AHeld _ r | AEndRead _ r | AXferRead _ r | AXferFrame _ r => Some r
  | AEndTest _ r _ | AEndCas _ r _ | AXferCas _ r _ | AXferWait _ r _ => Some r
  | APush r _ => Some r
  end.
Definition act_grant (a : act) : option grant :=
  match a with
  | AHeld g _ | AEndRead g _ | AEndTest g _ _ | AEndCas g _ _ => Some g
  | AXferRead g _ | AXferCas g _ _ | AXferWait g _ _ | AXferFrame g _ => Some g
  | _ => None
  end.

(** * Grant tables: references are exclusive, and no grant outlives its holder *)


(** ** Flags *)
Definition type_of (e : grant_entry) : Z := Z.land (ge_flags e) GTF_type_mask.
Definition completed (f : Z) : Prop := Z.land f GTF_transfer_completed <> 0.

Lemma land_wrap16 x m : Z.land (Z.ones 16) m = m -> Z.land (wrap16 x) m = Z.land x m.
Proof. intros H. unfold wrap16. by rewrite <- Z.land_ones, <- Z.land_assoc, H by lia. Qed.

Lemma grant_type g : Z.land (grant_flags g) GTF_type_mask = match g with Access _ _ _ => 1 | Transfer _ _ => 2 end.
Proof.
  unfold grant_flags. rewrite land_wrap16 by done. destruct g as [d f ro | d f]; [| done].
  rewrite Z.land_lor_distr_l. change GTF_type_mask with (Z.ones 2). rewrite (Z.land_ones (ro * _)) by lia.
  change (2 ^ 2) with GTF_readonly. rewrite Z.mod_mul by done. done.
Qed.

Lemma use_type f use :
  Z.land (Z.lor (Z.land f (Z.lor GTF_type_mask GTF_readonly)) (Z.land use (Z.lor GTF_reading GTF_writing))) GTF_type_mask
  = Z.land f GTF_type_mask.
Proof. rewrite Z.land_lor_distr_l, <- !Z.land_assoc. cbn. by rewrite Z.land_0_r, Z.lor_0_r. Qed.

Lemma transfer_type f d :
  Z.land (Z.lor f (Z.land d (Z.lor GTF_transfer_committed GTF_transfer_completed))) GTF_type_mask = Z.land f GTF_type_mask.
Proof. rewrite Z.land_lor_distr_l, <- !Z.land_assoc. cbn. by rewrite Z.land_0_r, Z.lor_0_r. Qed.

Lemma transfer_completed_mono f x : completed f -> completed (Z.lor f x).
Proof. unfold completed. rewrite Z.land_lor_distr_l, Z.lor_eq_0_iff. tauto. Qed.

(** ** The free list *)
Fixpoint linked (l : list Z) (h : Z) (free : list Z) : Prop :=
  match free with
  | [] => h = 0
  | r :: free => h = r /\ exists n, l !! Z.to_nat r = Some n /\ linked l n free
  end.

Lemma linked_insert l h free i v :
  0 <= i -> Forall (fun r => 0 <= r) free -> i ∉ free -> linked l h free -> linked (<[Z.to_nat i := v]> l) h free.
Proof.
  intros Hi. revert h. induction free as [| r free IH]; intros h Hf Hn H; [done |].
  apply Forall_cons in Hf as [Hr Hf]. apply not_elem_of_cons in Hn as [Hir Hn].
  destruct H as [-> (n & Hl & H)]. split; [done |]. exists n. split; [| by apply IH].
  rewrite list_lookup_insert_ne by lia. done.
Qed.

(** ** The invariant *)
Section grants.
Context (NR : Z).

(** Nothing is granted by an entry: it is clear, or a transfer through it is over. *)
Definition closed (e : grant_entry) : Prop := type_of e = 0 \/ type_of e = 2 /\ completed (ge_flags e).

(** The entry grants what was asked for. *)
Definition granted (g : grant) (e : grant_entry) : Prop :=
  match g with
  | Access _ _ _ => type_of e = 1 /\ ge_domid e = grant_domid g /\ ge_frame e = grant_frame g
  | Transfer _ _ => type_of e = 2 /\ ge_domid e = grant_domid g
  end.

(** What the entry of an activity's reference holds. *)
Definition role (a : act) (e : grant_entry) : Prop :=
  match a with
  | AFrame _ _ | APush _ _ => closed e
  | ADomid g _ => closed e /\ ge_frame e = grant_frame g
  | AFlags g _ => closed e /\ ge_frame e = grant_frame g /\ ge_domid e = grant_domid g
  | AHeld g _ => granted g e
  | AEndRead (Access _ _ _ as g) _ | AEndTest (Access _ _ _ as g) _ _ | AEndCas (Access _ _ _ as g) _ _ => granted g e
  | AXferRead (Transfer _ _ as g) _ | AXferCas (Transfer _ _ as g) _ _ => granted g e
  | AXferWait (Transfer _ _ as g) _ flags => granted g e /\ (completed flags -> completed (ge_flags e))
  | AXferFrame (Transfer _ _ as g) _ => granted g e /\ completed (ge_flags e)
  | ADown _ | APop _ | AUp _ | ADone _ => True
  | _ => False
  end.

(** The semaphore counts the free entries that no activity is about to take;
    an activity about to call [up] has one more to announce. *)
Definition tokens (a : act) : nat := match a with APop _ | AUp _ => 1 | _ => 0 end.

Definition live (s : gnt) (t : nat) (a : act) (r : Z) : Prop := acts s !! t = Some a /\ act_ref a = Some r.

Record gnt_inv (s : gnt) (free : list Z) : Prop := {
  gi_list : Z.of_nat (length (gnttab_list s)) = NR;
  gi_table : Z.of_nat (length (gnttab_table s)) = NR;
  gi_linked : exists h, gnttab_list s !! 0%nat = Some h /\ linked (gnttab_list s) h free;
  gi_nodup : NoDup free;
  gi_free : Forall (fun r => ref_ok NR r = true) free;
  gi_live : forall t a r, live s t a r -> ref_ok NR r = true /\ r ∉ free;
  gi_excl : forall t1 t2 a1 a2 r, live s t1 a1 r -> live s t2 a2 r -> t1 = t2;
  gi_sem : 0 <= gnttab_sem s /\ gnttab_sem s + Z.of_nat (sum_list_with tokens (acts s)) = Z.of_nat (length free);
  gi_role : forall t a r e, live s t a r -> gnttab_table s !! Z.to_nat r = Some e -> role a e;
  gi_rest : forall r e, 0 <= r -> gnttab_table s !! Z.to_nat r = Some e -> (forall t a, ~ live s t a r) -> closed e }.

Lemma ref_ok_spec r : ref_ok NR r = true <-> 8 <= r < NR.
Proof. unfold ref_ok, NR_RESERVED_ENTRIES. rewrite andb_true_iff, Z.leb_le, Z.ltb_lt. done. Qed.

Lemma tokens_insert l t a a' :
  l !! t = Some a ->
  (sum_list_with tokens (<[t := a']> l) + tokens a = sum_list_with tokens l + tokens a')%nat.
Proof.
  revert t. induction l as [| x l IH]; intros [| t] H; [done.. | |].
  - injection H as ->. cbn. lia.
  - change (l !! t = Some a) in H. change (<[S t := a']> (x :: l)) with (x :: <[t := a']> l).
    cbn [sum_list_with]. specialize (IH t H). lia.
Qed.

Lemma live_set s t a a' t' b r :
  acts s !! t = Some a ->
  live (set_act t a' s) t' b r <-> (t' = t /\ b = a' /\ act_ref a' = Some r) \/ (t' <> t /\ live s t' b r).
Proof.
  intros Ha. pose proof (lookup_lt_Some _ _ _ Ha). unfold live. cbn. destruct (decide (t' = t)) as [-> | Hne].
  - rewrite list_lookup_insert_eq by done. naive_solver.
  - rewrite list_lookup_insert_ne by done. naive_solver.
Qed.

Lemma live_entry s free t a r :
  gnt_inv s free -> live s t a r -> exists e, gnttab_table s !! Z.to_nat r = Some e /\ role a e.
Proof.
  intros Hi Hl. destruct (gi_live _ _ Hi _ _ _ Hl) as [Hr _]. apply ref_ok_spec in Hr.
  pose proof (gi_table _ _ Hi). destruct (lookup_lt_is_Some_2 (gnttab_table s) (Z.to_nat r)) as [e He]; [lia |].
  exists e. split; [done |]. by eapply gi_role.
Qed.

(** An activity moves on with its reference, changing only its entry. *)
Lemma inv_advance s free t a a' r e' :
  gnt_inv s free -> live s t a r -> act_ref a' = Some r -> tokens a' = tokens a -> role a' e' ->
  gnt_inv (set_act t a' (put_entry r e' s)) free.
Proof.
  intros Hi Hl Hr' Ht Hrole. pose proof Hl as [Ha Hr]. destruct (gi_live _ _ Hi _ _ _ Hl) as [Hok _].
  apply ref_ok_spec in Hok. pose proof (gi_table _ _ Hi).
  assert (Hlive : forall t' b r', live (set_act t a' (put_entry r e' s)) t' b r' <->
    (t' = t /\ b = a' /\ r' = r) \/ (t' <> t /\ live s t' b r')).
  { intros. rewrite (live_set (put_entry r e' s) t a a') by done. unfold live. cbn. naive_solver. }
  split; cbn; try apply Hi.
  - by rewrite length_insert.
  - intros t' b r' [(-> & -> & ->) | [_ H']]%Hlive; [by apply (gi_live _ _ Hi _ _ _ Hl) | by apply (gi_live _ _ Hi _ _ _ H')].
  - intros t1 t2 a1 a2 r' [(-> & -> & ->) | [? H1]]%Hlive [(-> & -> & ?) | [? H2]]%Hlive; subst; try done.
    + by apply (gi_excl _ _ Hi _ _ _ _ _ Hl H2).
    + by apply (gi_excl _ _ Hi _ _ _ _ _ H1 Hl).
    + by apply (gi_excl _ _ Hi _ _ _ _ _ H1 H2).
  - destruct (gi_sem _ _ Hi) as [? Hs]. split; [done |]. pose proof (tokens_insert _ _ _ a' Ha). lia.
  - intros t' b r' e [(-> & -> & ->) | [Hne H']]%Hlive He.
    + rewrite list_lookup_insert_eq in He by lia. by simplify_eq.
    + destruct (gi_live _ _ Hi _ _ _ H') as [Hok' _]. apply ref_ok_spec in Hok'.
      rewrite list_lookup_insert_ne in He; [by eapply gi_role |].
      intros E. apply Hne. assert (r' = r) as -> by lia. symmetry. by apply (gi_excl _ _ Hi _ _ _ _ _ Hl H').
  - intros r' e Hge He Hno. destruct (decide (r' = r)) as [-> | Hne].
    { exfalso. apply (Hno t a'). apply Hlive. auto. }
    rewrite list_lookup_insert_ne in He by lia. eapply gi_rest; [done.. |].
    intros t' b H'. apply (Hno t' b). apply Hlive. right. split; [| done].
    intros ->. destruct H' as [Ha' Hr'']. simplify_eq.
Qed.

Lemma put_entry_id r e s : gnttab_table s !! Z.to_nat r = Some e -> put_entry r e s = s.
Proof. intros H. unfold put_entry. rewrite list_insert_id by done. by destruct s. Qed.

Lemma inv_stay s free t a a' r e :
  gnt_inv s free -> live s t a r -> act_ref a' = Some r -> tokens a' = tokens a ->
  gnttab_table s !! Z.to_nat r = Some e -> role a' e -> gnt_inv (set_act t a' s) free.
Proof. intros ? ? ? ? He ?. rewrite <- (put_entry_id r e s He). by eapply inv_advance. Qed.

(** Activities that hold no reference before or after. *)
Lemma inv_idle s free t a a' d :
  gnt_inv s free -> acts s !! t = Some a -> act_ref a = None -> act_ref a' = None -> 0 <= gnttab_sem s + d ->
  d + Z.of_nat (tokens a') = Z.of_nat (tokens a) -> gnt_inv (set_act t a' (set_sem (gnttab_sem s + d) s)) free.
Proof.
  intros Hi Ha Hr Hr' Hd Ht.
  assert (Hlive : forall t' b r', live (set_act t a' (set_sem (gnttab_sem s + d) s)) t' b r' <-> live s t' b r').
  { intros. rewrite (live_set (set_sem _ s) t a a') by done. unfold live. cbn. naive_solver. }
  split; cbn; try apply Hi; try (intros *; rewrite !Hlive; by apply Hi).
  - split; [done |]. destruct (gi_sem _ _ Hi) as [_ Hs]. pose proof (tokens_insert _ _ _ a' Ha). lia.
  - intros r e Hge He Hno. eapply gi_rest; [done.. |]. intros t' b. rewrite <- Hlive. apply Hno.
Qed.

(** [get_free_entry] takes the head of the list. *)
Lemma inv_pop s free t g :
  gnt_inv s free -> acts s !! t = Some (APop g) ->
  exists s', act_step NR t (APop g) s = Done s' /\ exists free', gnt_inv s' free'.
Proof.
  intros Hi Ha. destruct (gi_sem _ _ Hi) as [Hs0 Hs]. pose proof (tokens_insert _ _ _ (ADone 0) Ha) as Htok. cbn [tokens] in Htok.
  destruct free as [| r free]; [cbn [length] in Hs; lia |].
  destruct (gi_linked _ _ Hi) as (h & Hh & -> & n & Hn & Hlk).
  pose proof (gi_free _ _ Hi) as Hf. apply Forall_cons in Hf as [Hr Hf]. pose proof (gi_nodup _ _ Hi) as Hnd.
  apply NoDup_cons in Hnd as [Hrf Hnd]. pose proof (proj1 (ref_ok_spec r) Hr) as Hr8. pose proof (gi_list _ _ Hi).
  cbn [act_step]. unfold get_free_entry, list_at. change (Z.to_nat 0) with 0%nat. rewrite Hh. cbn [of_option mbind outcome_bind].
  rewrite Hr. cbn [negb]. rewrite Hn. cbn [of_option mbind outcome_bind]. eexists. split; [done |]. exists free.
  set (s1 := set_list (<[0%nat := n]> (gnttab_list s)) s).
  assert (Hlive : forall t' b r', live (set_act t (AFrame g r) s1) t' b r' <->
    (t' = t /\ b = AFrame g r /\ r' = r) \/ live s t' b r').
  { intros. rewrite (live_set s1 t (APop g)) by done. cbn [act_ref]. unfold live. cbn.
    destruct (decide (t' = t)) as [-> |]; naive_solver. }
  assert (Hfresh : forall t' b, ~ live s t' b r).
  { intros t' b Hl. apply (gi_live _ _ Hi _ _ _ Hl). by left. }
  split; cbn; try done; try apply Hi.
  - by rewrite length_insert.
  - exists n. rewrite list_lookup_insert_eq by lia. split; [done |]. apply (linked_insert _ _ _ 0); try done.
    + eapply Forall_impl; [done |]. intros x Hx%ref_ok_spec. lia.
    + intros H0. rewrite Forall_forall in Hf. apply Hf, ref_ok_spec in H0. lia.
  - intros t' b r' [(-> & -> & ->) | Hl]%Hlive; [done |]. destruct (gi_live _ _ Hi _ _ _ Hl) as [? Hx].
    split; [done |]. intros ?. apply Hx. by right.
  - intros t1 t2 a1 a2 r' [(-> & -> & ->) | H1]%Hlive [(-> & -> & ?) | H2]%Hlive; subst; try done.
    + by destruct (Hfresh _ _ H2).
    + by destruct (Hfresh _ _ H1).
    + by apply (gi_excl _ _ Hi _ _ _ _ _ H1 H2).
  - split; [done |]. pose proof (tokens_insert _ _ _ (AFrame g r) Ha) as Ht. cbn [tokens length] in Ht, Hs. lia.
  - intros t' b r' e [(-> & -> & ->) | Hl]%Hlive He; [| by eapply gi_role].
    cbn. apply (gi_rest _ _ Hi r e); [lia | done | apply Hfresh].
  - intros r' e Hge He Hno. eapply gi_rest; [done.. |]. intros t' b Hl. apply (Hno t' b). apply Hlive. auto.
Qed.

(** [put_free_entry] puts the reference back. *)
Lemma inv_push s free t r v :
  gnt_inv s free -> acts s !! t = Some (APush r v) ->
  exists s', act_step NR t (APush r v) s = Done s' /\ exists free', gnt_inv s' free'.
Proof.
  intros Hi Ha. assert (Hl : live s t (APush r v) r) by done. destruct (gi_live _ _ Hi _ _ _ Hl) as [Hr Hrf].
  pose proof (proj1 (ref_ok_spec r) Hr) as Hr8. pose proof (gi_list _ _ Hi) as Hlen.
  destruct (gi_linked _ _ Hi) as (h & Hh & Hlk).
  destruct (lookup_lt_is_Some_2 (gnttab_list s) (Z.to_nat r)) as [x Hx]; [lia |].
  cbn [act_step]. unfold put_free_entry, list_at. change (Z.to_nat 0) with 0%nat. rewrite Hh, Hx.
  cbn [of_option mbind outcome_bind]. eexists. split; [done |]. exists (r :: free).
  set (s1 := set_list _ s).
  assert (Hlive : forall t' b r', live (set_act t (AUp v) s1) t' b r' <-> t' <> t /\ live s t' b r').
  { intros. rewrite (live_set s1 t (APush r v)) by done. unfold live. cbn. naive_solver. }
  assert (Hpos : Forall (fun r => 0 <= r) free).
  { eapply Forall_impl; [apply (gi_free _ _ Hi) |]. intros y Hy%ref_ok_spec. lia. }
  assert (H0 : 0 ∉ free).
  { intros H0. pose proof (gi_free _ _ Hi) as Hf. rewrite Forall_forall in Hf. apply Hf, ref_ok_spec in H0. lia. }
  split; cbn; try apply Hi.
  - by rewrite !length_insert.
  - exists r. rewrite list_lookup_insert_eq by (rewrite length_insert; lia). split; [done |]. split; [done |].
    exists h. rewrite list_lookup_insert_ne, list_lookup_insert_eq by lia. split; [done |].
    apply (linked_insert _ _ _ 0); try done. apply (linked_insert _ _ _ r); try done. lia.
  - apply NoDup_cons. split; [done |]. apply Hi.
  - apply Forall_cons. split; [done |]. apply Hi.
  - intros t' b r' [Hne H']%Hlive. destruct (gi_live _ _ Hi _ _ _ H') as [? Hx']. split; [done |].
    apply not_elem_of_cons. split; [| done]. intros ->. by apply Hne, (gi_excl _ _ Hi _ _ _ _ _ H' Hl).
  - intros t1 t2 a1 a2 r' [_ H1]%Hlive [_ H2]%Hlive. by apply (gi_excl _ _ Hi _ _ _ _ _ H1 H2).
  - destruct (gi_sem _ _ Hi) as [? Hs]. split; [done |]. pose proof (tokens_insert _ _ _ (AUp v) Ha) as Ht. cbn [tokens] in Ht. lia.
  - intros t' b r' e [_ H']%Hlive He. by eapply gi_role.
  - intros r' e Hge He Hno. destruct (decide (r' = r)) as [-> | Hne].
    { exact (gi_role _ _ Hi _ _ _ _ Hl He). }
    eapply gi_rest; [done.. |]. intros t' b H'. apply (Hno t' b). apply Hlive. split; [| done].
    intros ->. destruct H' as [Ha' Hr']. by simplify_eq/=.
Qed.

(** Steps of an activity that keeps its reference. *)
Lemma inv_step s free t a :
  gnt_inv s free -> acts s !! t = Some a -> exists s', act_step NR t a s = Done s' /\ exists free', gnt_inv s' free'.
Proof.
  intros Hi Ha. destruct (act_ref a) as [r |] eqn:Hr.
  - destruct (live_entry s free t a r Hi ltac:(done)) as (e & He & Hrole).
    assert (Hl : live s t a r) by done. destruct (gi_live _ _ Hi _ _ _ Hl) as [Hok _].
    assert (Hst : forall a', act_ref a' = Some r -> tokens a' = tokens a -> role a' e ->
      exists s', Done (set_act t a' s) = Done s' /\ exists free', gnt_inv s' free').
    { intros a' ? ? ?. eexists. split; [done |]. exists free. by eapply inv_stay. }
    assert (Had : forall a' e', act_ref a' = Some r -> tokens a' = tokens a -> role a' e' ->
      exists s', Done (set_act t a' (put_entry r e' s)) = Done s' /\ exists free', gnt_inv s' free').
    { intros a' e' ? ? ?. eexists. split; [done |]. exists free. by eapply inv_advance. }
    destruct a; simplify_eq/=; unfold entry_at; rewrite ?He, ?Hok; cbn [of_option mbind outcome_bind negb].
    + by apply Had.
    + apply Had; [done.. |]. cbn. tauto.
    + apply Had; [done.. |]. cbn. unfold granted, type_of. cbn. rewrite grant_type. destruct g; tauto.
    + exists s. eauto.
    + apply Hst; [done.. |]. by destruct g.
    + destruct g; [| done]. case_match; by apply Hst.
    + destruct g; [| done]. case_match; [apply Had; [done.. |]; by left | by apply Hst].
    + destruct g as [| d f]; [done |]. case_match; by apply Hst.
    + destruct g as [| d f]; [done |]. case_match; [apply Had; [done.. |]; by left | by apply Hst].
    + destruct g as [| d f]; [done |]. cbn in Hrole. destruct Hrole as [Hg Hc].
      destruct (Z.eqb_spec (Z.land flags GTF_transfer_completed) 0).
      * apply Hst; [done.. |]. by split.
      * apply Hst; [done.. |]. split; auto.
    + destruct g as [| d f]; [done |]. apply Hst; [done.. |]. cbn in *. right. tauto.
    + by eapply inv_push.
  - destruct a; simplify_eq/=.
    + case_match; [| exists s; eauto]. eexists. split; [done |]. exists free.
      apply (inv_idle s free t (ADown g)); try done; cbn; lia.
    + by eapply inv_pop.
    + pose proof (gi_sem _ _ Hi). eexists. split; [done |]. exists free.
      apply (inv_idle s free t (AUp result)); try done; cbn; lia.
    + exists s. eauto.
Qed.

(** Changes of the remote side keep every role. *)
Lemma inv_remote s free r e e' :
  gnt_inv s free -> gnttab_table s !! Z.to_nat r = Some e ->
  (forall a, role a e -> role a e') -> (closed e -> closed e') -> gnt_inv (put_entry r e' s) free.
Proof.
  intros Hi He Hrole Hclosed. split; cbn; try apply Hi; [rewrite length_insert; apply Hi | |].
  - intros t a r' e1 Hl He1. apply list_lookup_insert_Some in He1 as [(E & <- & _) | [? ?]]; [| by eapply gi_role].
    apply Hrole. eapply gi_role; [done | exact Hl |]. by rewrite <- E.
  - intros r' e1 Hge He1 Hno. apply list_lookup_insert_Some in He1 as [(E & <- & _) | [? ?]]; [| by eapply gi_rest].
    apply Hclosed. eapply gi_rest; [done.. | | exact Hno]. by rewrite <- E.
Qed.

Lemma role_use e f' a :
  type_of e = 1 -> Z.land f' GTF_type_mask = type_of e -> role a e -> role a (GE f' (ge_domid e) (ge_frame e)).
Proof.
  intros H1 Hf. unfold role, granted, closed, type_of in *. cbn. rewrite Hf.
  destruct a; try done; try destruct g; try done; rewrite ?H1; try tauto; intuition lia.
Qed.

Lemma role_transfer e f' x a :
  type_of e = 2 -> ~ completed (ge_flags e) -> Z.land f' GTF_type_mask = type_of e ->
  role a e -> role a (GE f' (ge_domid e) x).
Proof.
  intros H1 Hn Hf. unfold role, granted, closed, type_of in *. cbn. rewrite Hf.
  destruct a; try done; try destruct g; try done; rewrite ?H1; try tauto; intuition lia.
Qed.

Lemma inv_call s free g :
  gnt_inv s free -> gnt_inv (Gnt (gnttab_list s) (gnttab_table s) (gnttab_sem s) (acts s ++ [ADown g])) free.
Proof.
  intros Hi. set (s1 := Gnt _ _ _ _). assert (Hlive : forall t b r, live s1 t b r <-> live s t b r).
  { intros t b r. unfold live. cbn. rewrite lookup_app_Some. split; [| naive_solver].
    intros [[H | [_ H]] Hr]; [done |]. apply list_lookup_singleton_Some in H as [_ <-]. done. }
  split; cbn; try apply Hi; try (intros *; rewrite !Hlive; by apply Hi).
  - rewrite sum_list_with_app. cbn. rewrite Nat.add_0_r. apply Hi.
  - intros r e Hge He Hno. eapply gi_rest; [done.. |]. intros t' b. rewrite <- Hlive. apply Hno.
Qed.

Lemma inv_event s free ev :
  gnt_inv s free -> exists s', gnt_event NR ev s = Done s' /\ exists free', gnt_inv s' free'.
Proof.
  intros Hi. destruct ev as [g | t | t | r use | r d f]; cbn [gnt_event].
  - eexists. split; [done |]. exists free. by apply inv_call.
  - destruct (acts s !! t) as [a |] eqn:Ha; [| eauto]. by eapply inv_step.
  - destruct (acts s !! t) as [[| | | | | g r | | | | | | | | | |] |] eqn:Ha; eauto.
    assert (Hl : live s t (AHeld g r) r) by done. destruct (live_entry _ _ _ _ _ Hi Hl) as (e & He & Hrole).
    destruct g; (eexists; split; [done |]; exists free; by eapply inv_stay).
  - destruct (gnttab_table s !! Z.to_nat r) as [e |] eqn:He; [| eauto].
    destruct (Z.eqb_spec (Z.land (ge_flags e) GTF_type_mask) GTF_permit_access) as [E |]; [| eauto].
    eexists. split; [done |]. exists free. eapply inv_remote; [done | done | |].
    + intros a. apply role_use; [done | apply use_type].
    + unfold closed, type_of. rewrite E. intros [? | [? _]]; done.
  - destruct (gnttab_table s !! Z.to_nat r) as [e |] eqn:He; [| eauto].
    destruct (Z.eqb_spec (Z.land (ge_flags e) GTF_type_mask) GTF_accept_transfer) as [E |]; [| eauto].
    destruct (Z.eqb_spec (Z.land (ge_flags e) GTF_transfer_completed) 0) as [Ec |]; [| eauto].
    eexists. split; [done |]. exists free. eapply inv_remote; [done | done | |].
    + intros a. apply role_transfer; [done | by intros [] | apply transfer_type].
    + unfold closed, type_of. rewrite E. intros [? | [_ Hc]]; [done | by destruct Hc].
Qed.

Lemma inv_run evs : forall s free, gnt_inv s free -> exists s', gnt_run NR evs s = Done s' /\ exists free', gnt_inv s' free'.
Proof.
  induction evs as [| ev evs IH]; intros s free Hi; cbn [gnt_run]; [eauto |].
  destruct (inv_event s free ev Hi) as (s1 & -> & free1 & Hi1). by eapply IH.
Qed.

Lemma existing_live s r : (exists t a, live s t a r) \/ (forall t a, ~ live s t a r).
Proof.
  unfold live. induction (acts s) as [| a l IH].
  - right. intros t a [H _]. by rewrite lookup_nil in H.
  - destruct (decide (act_ref a = Some r)) as [Hr | Hr]; [left; by exists 0%nat, a |].
    destruct IH as [(t & b & H) | H]; [left; by exists (S t), b |].
    right. intros [| t] b [Hb Hbr]; [by simplify_eq/= | by apply (H t b)].
Qed.

Lemma no_acts_live s t a r : acts s = [] -> ~ live s t a r.
Proof. intros H [Ha _]. by rewrite H, lookup_nil in Ha. Qed.

Lemma init_step s free i :
  gnt_inv s free -> acts s = [] -> 8 <= i < NR -> i ∉ free ->
  exists s', put_free_entry i s = Done s' /\ gnt_inv (set_sem (gnttab_sem s' + 1) s') (i :: free) /\
    acts s' = [].
Proof.
  intros Hi Ha Hr Hf. pose proof (gi_list _ _ Hi). destruct (gi_linked _ _ Hi) as (h & Hh & Hlk).
  destruct (lookup_lt_is_Some_2 (gnttab_list s) (Z.to_nat i)) as [x Hx]; [lia |].
  unfold put_free_entry, list_at. change (Z.to_nat 0) with 0%nat. rewrite Hh, Hx. cbn [of_option mbind outcome_bind].
  eexists. split; [done |]. split; [| done]. pose proof (gi_free _ _ Hi) as Hfree.
  assert (Hno : forall s1 t a r, acts s1 = acts s -> ~ live s1 t a r)
    by (intros s1 t a r E; apply no_acts_live; congruence).
  split; cbn; try apply Hi; try (intros * H'; by apply Hno in H').
  - by rewrite !length_insert.
  - exists i. rewrite list_lookup_insert_eq by (rewrite length_insert; lia). split; [done |]. split; [done |].
    exists h. rewrite list_lookup_insert_ne, list_lookup_insert_eq by lia. split; [done |].
    assert (Hpos : Forall (fun r => 0 <= r) free) by (eapply Forall_impl; [done |]; intros y Hy%ref_ok_spec; lia).
    apply (linked_insert _ _ _ 0); try done; [| apply (linked_insert _ _ _ i); try done; lia].
    intros H0. rewrite Forall_forall in Hfree. apply Hfree, ref_ok_spec in H0. lia.
  - apply NoDup_cons. split; [done |]. apply Hi.
  - apply Forall_cons. split; [by apply ref_ok_spec | done].
  - destruct (gi_sem _ _ Hi) as [? Hs]. split; [lia |]. lia.
Qed.

Lemma init_loop_inv n : forall i s free,
  gnt_inv s free -> acts s = [] -> 8 <= i -> i + Z.of_nat n <= NR -> Forall (fun r => r < i) free ->
  exists s', init_loop n i s = Done s' /\ exists free', gnt_inv s' free'.
Proof.
  induction n as [| n IH]; intros i s free Hi Ha Hi8 Hin Hf; cbn [init_loop]; [eauto |].
  assert (Hnf : i ∉ free). { intros H. rewrite Forall_forall in Hf. apply Hf in H. lia. }
  destruct (init_step s free i Hi Ha ltac:(lia) Hnf) as (s1 & -> & Hi1 & Ha1). cbn [mbind outcome_bind].
  eapply IH; [done | done | lia | lia |]. apply Forall_cons. split; [lia |]. eapply Forall_impl; [done |]. cbn. lia.
Qed.

Lemma gnttab_init_inv : 8 <= NR -> exists s, init_gnttab NR = Done s /\ exists free, gnt_inv s free.
Proof.
  intros HNR. unfold init_gnttab, NR_RESERVED_ENTRIES. apply (init_loop_inv _ _ _ []); [| done | done | lia | done].
  split; cbn; rewrite ?length_replicate; try done; try lia.
  - exists 0. split; [| done]. apply lookup_replicate_2. lia.
  - apply NoDup_nil_2.
  - intros t a r [H _]. done.
  - intros t1 t2 a1 a2 r [H _]. done.
  - intros t a r e [H _]. done.
  - intros r e _ [-> _]%lookup_replicate_1 _. by left.
Qed.
End grants.

(** C29. Over every interleaving of grants, ends of grants and accesses of the
    remote side: no [BUG_ON] fires and no access leaves the tables; no two
    activities have the same reference, and all references are usable ones; a
    grant that is held is in force, for the frame and the domain it was made
    for; and an entry gives access to a frame only while some caller still
    holds that grant. *)
Theorem gnttab_exclusive NR evs :
  8 <= NR ->
  exists s0 s, init_gnttab NR = Done s0 /\ gnt_run NR evs s0 = Done s /\
    (forall t a r, acts s !! t = Some a -> act_ref a = Some r ->
      8 <= r < NR /\ forall t' a', acts s !! t' = Some a' -> act_ref a' = Some r -> t' = t) /\
    (forall t d f ro r, acts s !! t = Some (AHeld (Access d f ro) r) ->
      exists e, gnttab_table s !! Z.to_nat r = Some e /\ type_of e = GTF_permit_access /\
        ge_domid e = wrap16 d /\ ge_frame e = wrap32 f) /\
    (forall r e, 0 <= r -> gnttab_table s !! Z.to_nat r = Some e -> type_of e = GTF_permit_access ->
      exists t a d f ro, acts s !! t = Some a /\ act_ref a = Some r /\ act_grant a = Some (Access d f ro) /\
        ge_domid e = wrap16 d /\ ge_frame e = wrap32 f).
Proof.
  intros HNR. destruct (gnttab_init_inv NR HNR) as (s0 & E0 & free0 & Hi0).
  destruct (inv_run NR evs s0 free0 Hi0) as (s & E & free & Hi). exists s0, s. split_and!; try done.
  - intros t a r Ha Hr. assert (Hl : live s t a r) by done. split; [apply ref_ok_spec; by eapply gi_live |].
    intros t' a' Ha' Hr'. by eapply (gi_excl _ _ _ Hi t' t a' a r).
  - intros t d f ro r Ha. assert (Hl : live s t (AHeld (Access d f ro) r) r) by done.
    destruct (live_entry _ _ _ _ _ _ Hi Hl) as (e & He & Hrole). exists e. split; [done |]. exact Hrole.
  - intros r e Hge He Hty. destruct (existing_live s r) as [(t & a & Hl) | Hno].
    + pose proof (gi_role _ _ _ Hi _ _ _ _ Hl He) as Hrole. destruct Hl as [Ha Hr].
      assert (Hnc : ~ closed e) by (intros [H | [H _]]; rewrite Hty in H; done).
      exists t, a. unfold role, granted in Hrole. destruct a; simplify_eq/=; try tauto;
        destruct g as [d f ro | d f]; try done; try (exists d, f, ro; tauto);
        assert (H2 : type_of e = 2) by tauto; by rewrite Hty in H2.
    + assert (Hc : closed e) by (by eapply gi_rest). destruct Hc as [H | [H _]]; rewrite Hty in H; done.
Qed.

Lemma gnttab_exclusive_witness :
  8 <= 12 /\ exists s0 s, init_gnttab 12 = Done s0 /\
    gnt_run 12 [Call (Access 1 77 0); Step 0; Step 0; Step 0; Step 0; Step 0; RemoteUse 11 8; End 0; Step 0; Step 0] s0 = Done s /\
    acts s = [AHeld (Access 1 77 0) 11].
Proof.
  split; [lia |].
  destruct (gnttab_exclusive 12 [Call (Access 1 77 0); Step 0; Step 0; Step 0; Step 0; Step 0; RemoteUse 11 8; End 0; Step 0; Step 0])
    as (s0 & s & E0 & E & _); [lia |].
  exists s0, s. split; [exact E0 |]. split; [exact E |].
  vm_compute in E0. injection E0 as <-. vm_compute in E. injection E as <-. reflexivity.
Defined.
