(* ===== verification/Sel4Dma.v ===== *)
(** * DMA memory of the seL4 platform (platform/sel4/pci/rumpdma.c)

    The driver's buffers are allocated and pinned by the platform support
    library; what it answers is an argument.  A fixed array remembers the
    physical address of every buffer, for [rumpcomp_pci_virt_to_mach]. *)

From S2P Require Import Prelude.

Record a_list := AList { al_vaddr : Z; al_paddr : Z; al_size : Z }.
Definition LIST_LENGTH : nat := 30.
Definition no_entry : a_list := AList 0 0 0.
Definition dma_init : list a_list := replicate LIST_LENGTH no_entry.

(** The index of the first entry whose [vaddr] is [v]; [LIST_LENGTH] if none. *)
Fixpoint find_vaddr (l : list a_list) (v : Z) : nat :=
  match l with
  | [] => 0
  | e :: l => if al_vaddr e =? v then 0 else S (find_vaddr l v)
  end.

(** The value returned, [*pap] and [*vap] if they are set, and the array.
    [mem] and [pmem] are the answers of [ps_dma_alloc] and [ps_dma_pin]. *)
Definition rumpcomp_pci_dmalloc (l : list a_list) (size mem pmem : Z) : Z * option (Z * Z) * list a_list :=
  if mem =? 0 then (1, None, l)
  else if pmem =? 0 then (1, None, l)
  else
    let i := find_vaddr l 0 in
    if bool_decide (i = LIST_LENGTH) then (1, None, l)
    else (0, Some (pmem, mem), <[i := AList mem pmem size]> l).

Definition rumpcomp_pci_dmafree (l : list a_list) (mem : Z) : outcome (list a_list) :=
  let i := find_vaddr l mem in
  if bool_decide (i < length l)%nat then Done (<[i := no_entry]> l) else Undef "list[LIST_LENGTH]".

(** [paddr] is what the platform answers for an address outside all buffers,
    [mask] the mask of a page offset. *)
Fixpoint dma_lookup (l : list a_list) (vin : Z) : option Z :=
  match l with
  | [] => None
  | e :: l =>
      if (al_vaddr e <=? vin) && (vin <? wadd (al_vaddr e) (al_size e))
      then Some (wadd (wsub vin (al_vaddr e)) (al_paddr e))
      else dma_lookup l vin
  end.
Definition rumpcomp_pci_virt_to_mach (l : list a_list) (vin paddr mask : Z) : Z :=
  match dma_lookup l vin with
  | Some pa => pa
  | None => wadd paddr (Z.land vin mask)
  end.

(** ** A driver's calls *)
Inductive dma_op :=
  | DAlloc (size mem pmem : Z)
  | DFree (mem : Z).

(** The array and the buffers the driver has been given. *)
Record dma := Dma { dma_list : list a_list; dma_live : list a_list }.

Definition dma_step (op : dma_op) (s : dma) : outcome dma :=
  match op with
  | DAlloc size mem pmem =>
      let '(rv, _, l) := rumpcomp_pci_dmalloc (dma_list s) size mem pmem in
      Done (Dma l (if rv =? 0 then AList mem pmem size :: dma_live s else dma_live s))
  | DFree mem =>
      l ← rumpcomp_pci_dmafree (dma_list s) mem;
      Done (Dma l (filter (fun e => al_vaddr e <> mem) (dma_live s)))
  end.
Fixpoint dma_run (ops : list dma_op) (s : dma) : outcome dma :=
  match ops with
  | [] => Done s
  | op :: ops => s ← dma_step op s; dma_run ops s
  end.

(** ** What the allocator promises, and the driver does *)
Definition apart (e e' : a_list) : bool :=
  (al_vaddr e + al_size e <=? al_vaddr e') || (al_vaddr e' + al_size e' <=? al_vaddr e).
Definition buffer_ok (e : a_list) : bool :=
  (0 <? al_vaddr e) && (0 <? al_size e) && (al_vaddr e + al_size e <? 2 ^ 64) &&
  (0 <=? al_paddr e) && (al_paddr e + al_size e <? 2 ^ 64).

(** Memory handed out does not overlap memory in use; only buffers in use are freed. *)
Definition op_ok (op : dma_op) (live : list a_list) : bool :=
  match op with
  | DAlloc size mem pmem =>
      (mem =? 0) || (pmem =? 0) ||
      (buffer_ok (AList mem pmem size) && forallb (apart (AList mem pmem size)) live)
  | DFree mem => existsb (fun e => al_vaddr e =? mem) live
  end.
Fixpoint ops_ok (ops : list dma_op) (s : dma) : bool :=
  match ops with
  | [] => true
  | op :: ops => op_ok op (dma_live s) && match dma_step op s with Done s => ops_ok ops s | _ => true end
  end.

(** ** The invariant: the array holds exactly the live buffers *)
Record dma_inv (s : dma) : Prop := {
  di_len : length (dma_list s) = LIST_LENGTH;
  di_ok : forall e, e ∈ dma_live s -> buffer_ok e = true /\ e ∈ dma_list s;
  di_live : forall e, e ∈ dma_list s -> e = no_entry \/ e ∈ dma_live s;
  di_apart : forall i j e e', i <> j -> dma_list s !! i = Some e -> dma_list s !! j = Some e' ->
    e = no_entry \/ e' = no_entry \/ apart e e' = true }.

Lemma buffer_ok_spec e : buffer_ok e = true <->
  0 < al_vaddr e /\ 0 < al_size e /\ al_vaddr e + al_size e < 2 ^ 64 /\ 0 <= al_paddr e /\ al_paddr e + al_size e < 2 ^ 64.
Proof. unfold buffer_ok. rewrite !andb_true_iff, !Z.ltb_lt, Z.leb_le. tauto. Qed.

Lemma apart_spec e e' : apart e e' = true <->
  al_vaddr e + al_size e <= al_vaddr e' \/ al_vaddr e' + al_size e' <= al_vaddr e.
Proof. unfold apart. by rewrite orb_true_iff, !Z.leb_le. Qed.

Lemma find_vaddr_spec l v :
  (find_vaddr l v <= length l)%nat /\
  (forall e, l !! find_vaddr l v = Some e -> al_vaddr e = v) /\
  (forall i e, (i < find_vaddr l v)%nat -> l !! i = Some e -> al_vaddr e <> v).
Proof.
  induction l as [| x l (IH1 & IH2 & IH3)]; cbn [find_vaddr length]; [split_and!; try done; lia |].
  destruct (Z.eqb_spec (al_vaddr x) v) as [Hx | Hx].
  - split_and!; [lia | by intros e [= <-] | lia].
  - split_and!; [lia | by intros e He; apply IH2 |]. intros [| i] e Hi He; [by simplify_eq/= |]. eapply IH3; [| done]. lia.
Qed.

Lemma find_live s e :
  dma_inv s -> e ∈ dma_live s ->
  exists i, find_vaddr (dma_list s) (al_vaddr e) = i /\ dma_list s !! i = Some e.
Proof.
  intros Hi He. destruct (di_ok _ Hi e He) as [Hok Hl]. apply buffer_ok_spec in Hok.
  apply list_elem_of_lookup in Hl as [j Hj]. destruct (find_vaddr_spec (dma_list s) (al_vaddr e)) as (H1 & H2 & H3).
  eexists. split; [done |]. destruct (decide (find_vaddr (dma_list s) (al_vaddr e) = j)) as [-> | Hne]; [done |].
  assert (Hlt : (find_vaddr (dma_list s) (al_vaddr e) < length (dma_list s))%nat).
  { destruct (decide (j < find_vaddr (dma_list s) (al_vaddr e))%nat) as [Hj' | ?];
      [by destruct (H3 j e Hj' Hj) | apply lookup_lt_Some in Hj; lia]. }
  destruct (lookup_lt_is_Some_2 _ _ Hlt) as [e' He']. specialize (H2 e' He').
  destruct (di_apart _ Hi _ _ _ _ Hne He' Hj) as [-> | [-> | Ha]]; cbn in *; try lia.
  apply apart_spec in Ha. assert (He0 : e' ∈ dma_list s) by (by eapply list_elem_of_lookup_2).
  destruct (di_live _ Hi e' He0) as [-> | He'l]; [cbn in *; lia |].
  destruct (di_ok _ Hi e' He'l) as [Hok' _]. apply buffer_ok_spec in Hok'. lia.
Qed.

Lemma dma_step_inv op s : dma_inv s -> op_ok op (dma_live s) = true -> exists s', dma_step op s = Done s' /\ dma_inv s'.
Proof.
  intros Hi Hop. destruct op as [size mem pmem | mem]; cbn [dma_step op_ok] in *.
  - unfold rumpcomp_pci_dmalloc. destruct (Z.eqb_spec mem 0); [exists s; by destruct s |].
    destruct (Z.eqb_spec pmem 0); [exists s; by destruct s |].
    case_bool_decide as Hf; [exists s; by destruct s |]. eexists. split; [done |].
    cbn [orb] in Hop. apply andb_true_iff in Hop as [Hb Ha]. rewrite forallb_forall in Ha.
    set (i := find_vaddr (dma_list s) 0) in *. destruct (find_vaddr_spec (dma_list s) 0) as (H1 & H2 & _). fold i in H1, H2.
    assert (Hi30 : (i < length (dma_list s))%nat) by (rewrite (di_len _ Hi) in *; lia).
    assert (Hnew : forall e, e ∈ dma_list s -> e = no_entry \/ apart (AList mem pmem size) e = true).
    { intros e [-> | He]%(di_live _ Hi); [by left |]. right. apply Ha. by apply list_elem_of_In. }
    split; cbn.
    + rewrite length_insert. apply Hi.
    + intros e [-> | He]%elem_of_cons.
      { split; [done |]. by apply list_elem_of_insert. }
      destruct (di_ok _ Hi e He) as [Hok Hl]. split; [done |]. apply list_elem_of_lookup in Hl as [j Hj].
      apply (list_elem_of_lookup_2 _ j). rewrite list_lookup_insert_ne; [done |]. intros ->.
      specialize (H2 e Hj). apply buffer_ok_spec in Hok. lia.
    + intros e He. apply list_elem_of_lookup in He as [j Hj].
      apply list_lookup_insert_Some in Hj as [(_ & <- & _) | [_ Hj]]; [right; by left |].
      destruct (di_live _ Hi e) as [-> | ?]; [by eapply list_elem_of_lookup_2 | by left | right; by right].
    + intros j k e e' Hjk [(<- & <- & _) | [_ Hj]]%list_lookup_insert_Some [(E & <- & _) | [_ Hk]]%list_lookup_insert_Some.
      * done.
      * destruct (Hnew e') as [-> | ?]; [by eapply list_elem_of_lookup_2 | auto..].
      * destruct (Hnew e) as [-> | Hap]; [by eapply list_elem_of_lookup_2 | auto |].
        right. right. apply apart_spec. apply apart_spec in Hap. tauto.
      * by apply (di_apart _ Hi j k).
  - apply existsb_exists in Hop as (e & He%list_elem_of_In & <-%Z.eqb_eq).
    destruct (find_live s e Hi He) as (i & Hf & Hl). unfold rumpcomp_pci_dmafree. rewrite Hf.
    rewrite bool_decide_true by (by eapply lookup_lt_Some). cbn [mbind outcome_bind]. eexists. split; [done |].
    assert (Hok : forall e, e ∈ dma_live s -> 0 < al_vaddr e /\ 0 < al_size e).
    { intros e' He'. destruct (di_ok _ Hi e' He') as [Hb _]. apply buffer_ok_spec in Hb. tauto. }
    split; cbn.
    + rewrite length_insert. apply Hi.
    + intros e' [Hne He']%list_elem_of_filter. destruct (di_ok _ Hi e' He') as [Hb Hl']. split; [done |].
      apply list_elem_of_lookup in Hl' as [j Hj]. apply (list_elem_of_lookup_2 _ j).
      rewrite list_lookup_insert_ne; [done |]. intros ->. by simplify_eq.
    + intros e' He'. apply list_elem_of_lookup in He' as [j Hj].
      apply list_lookup_insert_Some in Hj as [(_ & <- & _) | [Hne Hj]]; [by left |].
      destruct (di_live _ Hi e') as [-> | He']; [by eapply list_elem_of_lookup_2 | by left |].
      right. apply list_elem_of_filter. split; [| done]. intros Ev.
      destruct (di_apart _ Hi i j e e' Hne Hl Hj) as [-> | [-> | Ha]].
      { specialize (Hok _ He). cbn in Hok. lia. }
      { specialize (Hok _ He'). cbn in Hok. lia. }
      apply apart_spec in Ha. pose proof (Hok _ He). pose proof (Hok _ He'). lia.
    + intros j k e1 e2 Hjk [(<- & <- & _) | [_ Hj]]%list_lookup_insert_Some [(E & <- & _) | [_ Hk]]%list_lookup_insert_Some; auto.
      by apply (di_apart _ Hi j k).
Qed.

Lemma dma_run_inv ops : forall s, dma_inv s -> ops_ok ops s = true -> exists s', dma_run ops s = Done s' /\ dma_inv s'.
Proof.
  induction ops as [| op ops IH]; intros s Hi Hok; cbn [dma_run]; [eauto |].
  cbn [ops_ok] in Hok. apply andb_true_iff in Hok as [Hop Hok].
  destruct (dma_step_inv op s Hi Hop) as (s1 & E & Hi1). rewrite E in Hok |- *. by apply IH.
Qed.

Lemma dma_lookup_unique l e vin :
  e ∈ l -> al_vaddr e <= vin < wadd (al_vaddr e) (al_size e) ->
  (forall e', e' ∈ l -> al_vaddr e' <= vin < wadd (al_vaddr e') (al_size e') -> e' = e) ->
  dma_lookup l vin = Some (wadd (wsub vin (al_vaddr e)) (al_paddr e)).
Proof.
  induction l as [| x l IH]; intros He Hin Hu; [by apply not_elem_of_nil in He |]. cbn [dma_lookup].
  destruct ((al_vaddr x <=? vin) && (vin <? wadd (al_vaddr x) (al_size x))) eqn:Hx.
  - apply andb_true_iff in Hx as [?%Z.leb_le ?%Z.ltb_lt]. by rewrite (Hu x) by (by left || lia).
  - apply elem_of_cons in He as [-> | He].
    + apply andb_false_iff in Hx as [?%Z.leb_gt | ?%Z.ltb_ge]; lia.
    + apply IH; [done.. |]. intros e' He'. apply Hu. by right.
Qed.

(** The DMA memory of a driver, for an allocator that never hands out
    memory in use: no call fails or leaves the array, and for every buffer the
    driver has been given and not freed, [rumpcomp_pci_virt_to_mach] translates
    each address in it to the address at the same offset of the physical
    memory. *)
Theorem dma_translates ops :
  ops_ok ops (Dma dma_init []) = true ->
  exists s, dma_run ops (Dma dma_init []) = Done s /\
    forall e vin paddr mask, e ∈ dma_live s -> al_vaddr e <= vin < al_vaddr e + al_size e ->
      rumpcomp_pci_virt_to_mach (dma_list s) vin paddr mask = al_paddr e + (vin - al_vaddr e).
Proof.
  intros Hok. destruct (dma_run_inv ops (Dma dma_init [])) as (s & E & Hi); [| done |].
  { split; cbn [dma_list dma_live]; [done | | |].
    - intros e He. by apply not_elem_of_nil in He.
    - intros e [-> _]%elem_of_replicate. by left.
    - intros i j e e' _ [-> _]%lookup_replicate_1 _. by left. }
  exists s. split; [done |]. intros e vin paddr mask He Hin. destruct (di_ok _ Hi e He) as [Hb Hl].
  apply buffer_ok_spec in Hb. unfold rumpcomp_pci_virt_to_mach. rewrite (dma_lookup_unique _ e); [| done | |].
  - rewrite wsub_small, wadd_small; unfold u64, W64; lia.
  - rewrite wadd_small; unfold u64, W64; lia.
  - intros e' He' Hin'. destruct (di_live _ Hi e' He') as [-> | Hl'].
    { change (0 <= vin < 0) in Hin'. lia. }
    destruct (di_ok _ Hi e' Hl') as [Hb' _]. apply buffer_ok_spec in Hb'.
    rewrite wadd_small in Hin' by (unfold u64, W64; lia).
    apply list_elem_of_lookup in Hl as [i Hli]. apply list_elem_of_lookup in He' as [j Hj].
    destruct (decide (i = j)) as [-> | Hne]; [congruence |].
    destruct (di_apart _ Hi i j e e' Hne Hli Hj) as [-> | [-> | Ha]]; [cbn in *; lia.. |].
    apply apart_spec in Ha. lia.
Qed.

Lemma dma_translates_witness :
  ops_ok [DAlloc 256 4096 65536; DAlloc 64 8192 131072; DFree 4096] (Dma dma_init []) = true /\
  exists s, dma_run [DAlloc 256 4096 65536; DAlloc 64 8192 131072; DFree 4096] (Dma dma_init []) = Done s /\
    rumpcomp_pci_virt_to_mach (dma_list s) 8200 0 0 = 131080.
Proof.
  split; [reflexivity |].
  destruct (dma_translates [DAlloc 256 4096 65536; DAlloc 64 8192 131072; DFree 4096]) as (s & E & H); [reflexivity |].
  exists s. split; [exact E |]. vm_compute in E. injection E as <-.
  apply (H (AList 8192 131072 64)); [left | cbn; lia].
Defined.

(** Freeing memory that is not in the array reports an error and then writes
    past the end of the array. *)
Example dmafree_unknown : rumpcomp_pci_dmafree dma_init 4096 = Undef "list[LIST_LENGTH]".
Proof. reflexivity. Qed.

(** When the array is full, memory has been allocated and pinned, and the
    error return forgets it. *)
Example dmalloc_full :
  rumpcomp_pci_dmalloc (replicate LIST_LENGTH (AList 4096 65536 64)) 64 8192 131072 =
  (1, None, replicate LIST_LENGTH (AList 4096 65536 64)).
Proof. reflexivity. Qed.
