(* ===== verification/Sel4Cons.v ===== *)
(** * The console of the seL4 platform (platform/sel4/cons.c)

    Characters are collected in memory shared with the serial server and
    flushed at the end of a line or when it is full.  [served] is what the
    server has been told to print; its size of shared memory is given. *)

From S2P Require Import Prelude.

Record scons := SCons { shmem : list Z; shmem_index : Z; served : list Z }.

Definition cons_flush (s : scons) : scons :=
  SCons (shmem s) 0 (served s ++ take (Z.to_nat (shmem_index s)) (shmem s)).

Definition cons_putc (c : Z) (s : scons) : outcome scons :=
  let size := Z.of_nat (length (shmem s)) in
  _ ← bmk_assert (shmem_index s <? size) "shmem_index < context.shmem_size";
  _ ← bmk_assert (-1 <? shmem_index s) "shmem_index > -1";
  let s := SCons (<[Z.to_nat (shmem_index s) := c mod 256]> (shmem s)) (shmem_index s + 1) (served s) in
  if (c =? 10) || (shmem_index s =? size) then Done (cons_flush s) else Done s.

(** [cons_write] with [vcons_putc] set to [cons_putc]. *)
Fixpoint cons_write (data : list Z) (s : scons) : outcome scons :=
  match data with
  | [] => Done s
  | c :: data => s ← cons_putc c s; cons_write data s
  end.

Definition buffered (s : scons) : list Z := take (Z.to_nat (shmem_index s)) (shmem s).
Definition scons_inv (s : scons) : Prop := 0 <= shmem_index s < Z.of_nat (length (shmem s)).

Lemma cons_putc_correct c s :
  scons_inv s -> 0 <= c < 256 ->
  exists s', cons_putc c s = Done s' /\ scons_inv s' /\ length (shmem s') = length (shmem s) /\
    served s' ++ buffered s' = served s ++ buffered s ++ [c] /\ (c = 10 -> buffered s' = []).
Proof.
  intros Hi Hc. unfold scons_inv in Hi. unfold cons_putc.
  rewrite (proj2 (Z.ltb_lt (shmem_index s) _)), (proj2 (Z.ltb_lt (-1) _)) by lia. cbn [bmk_assert mbind outcome_bind].
  rewrite Z.mod_small by done.
  assert (Ht : take (Z.to_nat (shmem_index s + 1)) (<[Z.to_nat (shmem_index s) := c]> (shmem s)) = buffered s ++ [c]).
  { replace (Z.to_nat (shmem_index s + 1)) with (S (Z.to_nat (shmem_index s))) by lia.
    rewrite (take_S_r _ _ c) by (apply list_lookup_insert_eq; lia). by rewrite take_insert_ge by lia. }
  destruct ((c =? 10) || _) eqn:Hf; (eexists; split; [done |]); unfold scons_inv, buffered, cons_flush; cbn.
  - rewrite length_insert. split_and!; try done; try lia. by rewrite Ht, app_nil_r.
  - apply orb_false_iff in Hf as [Hn%Z.eqb_neq Hl%Z.eqb_neq]. cbn in Hl. rewrite length_insert.
    split_and!; try done; try lia. by rewrite Ht.
Qed.

(** Whatever is written, in whatever pieces, the assertions hold, nothing is
    lost or reordered, the buffer never fills up, and after a line end nothing
    waits in it. *)
Theorem cons_write_correct data s :
  scons_inv s -> Forall (fun c => 0 <= c < 256) data ->
  exists s', cons_write data s = Done s' /\ scons_inv s' /\
    served s' ++ buffered s' = served s ++ buffered s ++ data /\
    (last data = Some 10 -> buffered s' = []).
Proof.
  revert s. induction data as [| c data IH]; intros s Hi Hf; cbn [cons_write].
  - exists s. rewrite app_nil_r. done.
  - apply Forall_cons in Hf as [Hc Hf]. destruct (cons_putc_correct c s Hi Hc) as (s1 & -> & Hi1 & _ & E1 & Hn).
    cbn [mbind outcome_bind]. destruct (IH s1 Hi1 Hf) as (s' & E' & Hi' & Es & Hl). exists s'.
    split_and!; try done.
    + rewrite Es, app_assoc, E1. by rewrite <- !app_assoc.
    + destruct data as [| d data]; [| by rewrite last_cons_cons].
      cbn in E', Hl |- *. injection E' as <-. intros [= ->]. by apply Hn.
Qed.
