(* ===== verification/Sel4Intr.v ===== *)
(** * Interrupts of the seL4 platform (platform/sel4/intr.c, kernel.c, entry.c, clock.c)

    On seL4 the rump kernel and all its threads run in one kernel thread, the
    runner.  Interrupts are received by two other kernel threads of a higher
    priority, one for the PCI devices and one for the console input; they note
    the interrupt and wake the thread [doisr] of the runner.  A binary
    semaphore, the depth [spldepth] and the flag [mask_the_mask] take the place
    of disabling interrupts.

    Every access to a variable that another kernel thread writes, too, is a
    step of its own.  Which steps are possible is up to the seL4 scheduler on
    one core: the runner runs when both interrupt threads are blocked, and an
    interrupt thread is not preempted by the other one; with [sliced] it is, at
    the end of its time slice.  Handlers belong to the rump kernel: calling one
    is recorded. *)

From S2P Require Import Prelude Intr.

Definition SOFT_INTRS : Z := 1.

Inductive isr_type_t := HARDWARE_INT | SOFTWARE_EVENT.
Global Instance isr_type_eq_dec : EqDecision isr_type_t.
Proof. solve_decision. Defined.

Inductive slog :=
  | SRegistered (ty : isr_type_t) (b : Z) (h : intrhand)
  | SRaised (ty : isr_type_t) (b : Z)
  | SCalled (h : intrhand)
  | SAcked (b : Z)
  | SEthAcked.

(** Where an interrupt thread is.  [w] and [sw] are the arguments of
    [rump_irq_handle]: waiting for its notification; for the semaphore; before
    the test of [should_wakeup], the store to [mask_the_mask], to
    [isr_todo_soft], to [isr_todo], the call of [bmk_sched_wake]; in that call
    waiting for the semaphore; before the release of the semaphore and the
    reset of [mask_the_mask].  [INone]: not started. *)
Inductive ithr :=
  | INone
  | IWait
  | IEnter (w sw : Z)
  | IHeld (w sw : Z)
  | IMask (w sw : Z)
  | ISoft (w sw : Z)
  | IHard (w : Z)
  | IWake
  | ISplWait
  | IPost
  | IUnmask.

(** Where [doisr] is: before a [splhigh] at the top; before the copy of the
    interrupts to do, their reset, the [splx], [rumpkern_sched]; in
    [process_handlers] with the interrupts left, the next one to look at, and
    the one whose handlers are being called; and so on for the software
    events; at the final test; prepared to block; blocked or about to. *)
Inductive dpc :=
  | DStart
  | DRead
  | DClear (c : Z)
  | DUnlock (ty : isr_type_t) (c : Z)
  | DSched (ty : isr_type_t) (c : Z)
  | DRun (ty : isr_type_t) (c i : Z) (cur : option (Z * list intrhand))
  | DSoftHigh
  | DReadSoft
  | DClearSoft (c : Z)
  | DTailHigh
  | DTail
  | DPrep (woken : bool)
  | DBlock (woken : bool).

(** What the runner executes: threads other than [doisr], [doisr], or
    [bmk_platform_cpu_block]. *)
Inductive prog :=
  | POther
  | PIsr
  | PFail
  | PArm
  | PArmed
  | PWait
  | PWoken
  | PResched.

(** Inside [splhigh] or [splx]: before the wait for the semaphore, before the
    increment of the depth, before the release. *)
Inductive rmicro := MNone | MSemWait | MInc | MPost.
Global Instance prog_eq_dec : EqDecision prog.
Proof. solve_decision. Defined.
Global Instance rmicro_eq_dec : EqDecision rmicro.
Proof. solve_decision. Defined.

Record sel4_env := Env {
  spl_semaphore : bool;
  spldepth : Z;
  mask_the_mask : bool;
  should_wakeup : bool;
  timer_ntfn : bool }.

Record isr_tab := Tab {
  isr_ih : list (list intrhand);
  isr_ih_soft : list (list intrhand);
  isr_lowest : Z;
  isr_soft_lowest : Z;
  intr_reserved : Z }.

Record sel4_state := Sel4 {
  env : sel4_env;
  tab : isr_tab;
  isr_todo : Z;
  isr_todo_soft : Z;
  pci_notification : Z;        (** the badges signalled *)
  stdio_ep : bool;
  stdio_intr : Z;              (** [intr] of [wait_for_stdio_interrupt] *)
  irq_masked : Z;              (** fired and not acknowledged *)
  runner : prog;
  micro : rmicro;
  isr_thread : dpc;
  pci_thread : ithr;
  stdio_thread : ithr;
  slogged : list slog }.

Section setters.
Context (s : sel4_state).
Definition set_env (e : sel4_env) : sel4_state := Sel4 e (tab s) (isr_todo s) (isr_todo_soft s) (pci_notification s) (stdio_ep s)
  (stdio_intr s) (irq_masked s) (runner s) (micro s) (isr_thread s) (pci_thread s) (stdio_thread s) (slogged s).
Definition set_tab (t : isr_tab) : sel4_state := Sel4 (env s) t (isr_todo s) (isr_todo_soft s) (pci_notification s) (stdio_ep s)
  (stdio_intr s) (irq_masked s) (runner s) (micro s) (isr_thread s) (pci_thread s) (stdio_thread s) (slogged s).
Definition set_todo (t ts : Z) : sel4_state := Sel4 (env s) (tab s) t ts (pci_notification s) (stdio_ep s)
  (stdio_intr s) (irq_masked s) (runner s) (micro s) (isr_thread s) (pci_thread s) (stdio_thread s) (slogged s).
Definition set_ntfn (p : Z) (c : bool) : sel4_state := Sel4 (env s) (tab s) (isr_todo s) (isr_todo_soft s) p c
  (stdio_intr s) (irq_masked s) (runner s) (micro s) (isr_thread s) (pci_thread s) (stdio_thread s) (slogged s).
Definition set_masked (m : Z) : sel4_state := Sel4 (env s) (tab s) (isr_todo s) (isr_todo_soft s) (pci_notification s) (stdio_ep s)
  (stdio_intr s) m (runner s) (micro s) (isr_thread s) (pci_thread s) (stdio_thread s) (slogged s).
Definition set_run (p : prog) (m : rmicro) (d : dpc) : sel4_state := Sel4 (env s) (tab s) (isr_todo s) (isr_todo_soft s) (pci_notification s)
  (stdio_ep s) (stdio_intr s) (irq_masked s) p m d (pci_thread s) (stdio_thread s) (slogged s).
Definition set_thrs (p c : ithr) : sel4_state := Sel4 (env s) (tab s) (isr_todo s) (isr_todo_soft s) (pci_notification s) (stdio_ep s)
  (stdio_intr s) (irq_masked s) (runner s) (micro s) (isr_thread s) p c (slogged s).
Definition slog_add (e : slog) : sel4_state := Sel4 (env s) (tab s) (isr_todo s) (isr_todo_soft s) (pci_notification s) (stdio_ep s)
  (stdio_intr s) (irq_masked s) (runner s) (micro s) (isr_thread s) (pci_thread s) (stdio_thread s) (slogged s ++ [e]).
Definition set_sem (b : bool) : sel4_state :=
  set_env (Env b (spldepth (env s)) (mask_the_mask (env s)) (should_wakeup (env s)) (timer_ntfn (env s))).
Definition set_depth (n : Z) : sel4_state :=
  set_env (Env (spl_semaphore (env s)) n (mask_the_mask (env s)) (should_wakeup (env s)) (timer_ntfn (env s))).
Definition set_mask (b : bool) : sel4_state :=
  set_env (Env (spl_semaphore (env s)) (spldepth (env s)) b (should_wakeup (env s)) (timer_ntfn (env s))).
Definition set_wakeup (b : bool) : sel4_state :=
  set_env (Env (spl_semaphore (env s)) (spldepth (env s)) (mask_the_mask (env s)) b (timer_ntfn (env s))).
Definition set_timer (b : bool) : sel4_state :=
  set_env (Env (spl_semaphore (env s)) (spldepth (env s)) (mask_the_mask (env s)) (should_wakeup (env s)) b).
Definition set_dpc (d : dpc) : sel4_state := set_run (runner s) (micro s) d.
Definition set_prog (p : prog) : sel4_state := set_run p (micro s) (isr_thread s).
Definition set_micro (m : rmicro) : sel4_state := set_run (runner s) m (isr_thread s).
End setters.

(** ** Interrupt levels *)

(** [bmk_platform_splhigh], up to the wait for the semaphore. *)
Definition bmk_platform_splhigh (s : sel4_state) : sel4_state :=
  if mask_the_mask (env s) then s
  else if spldepth (env s) =? 0 then set_micro s MSemWait
  else set_depth s (spldepth (env s) + 1).

(** [bmk_platform_splx], up to the release of the semaphore. *)
Definition bmk_platform_splx (s : sel4_state) : outcome sel4_state :=
  if mask_the_mask (env s) then Done s
  else if spldepth (env s) =? 0 then Halt "out of interrupt depth!"
  else
    let s := set_depth s (spldepth (env s) - 1) in
    Done (if spldepth (env s) =? 0 then set_micro s MPost else s).

(** ** Registering a handler *)

Definition alloc_number (t : isr_tab) : outcome (Z * isr_tab) :=
  if SOFT_INTRS <=? intr_reserved t then Halt "No more interrupt slots available."
  else Done (intr_reserved t, Tab (isr_ih t) (isr_ih_soft t) (isr_lowest t) (isr_soft_lowest t) (intr_reserved t + 1)).

(** [ok] is whether the allocation succeeds.  [intr] is an [int], compared
    with an unsigned value first. *)
Definition bmk_isr_rumpkernel (h : intrhand) (intr : Z) (ty : isr_type_t) (ok : bool) (s : sel4_state) : outcome (Z * sel4_state) :=
  '(intr, t) ←
    match ty with
    | SOFTWARE_EVENT => alloc_number (tab s)
    | HARDWARE_INT =>
        if (32 <? wrap64 intr) || (BMK_MAXINTR <? intr) then Halt "bmk_isr_rumpkernel: intr" else Done (intr, tab s)
    end;
  if negb ok then Halt "bmk_isr_rumpkernel: xmalloc"
  else
    match ty with
    | HARDWARE_INT =>
        hs ← of_option "isr_ih[intr]" (isr_ih t !! Z.to_nat intr);
        Done (intr, slog_add (set_tab s (Tab (<[Z.to_nat intr := h :: hs]> (isr_ih t)) (isr_ih_soft t)
                (if intr <? isr_lowest t then intr else isr_lowest t) (isr_soft_lowest t) (intr_reserved t)))
                (SRegistered ty intr h))
    | SOFTWARE_EVENT =>
        hs ← of_option "isr_ih_soft[intr]" (isr_ih_soft t !! Z.to_nat intr);
        Done (intr, slog_add (set_tab s (Tab (isr_ih t) (<[Z.to_nat intr := h :: hs]> (isr_ih_soft t)) (isr_lowest t)
                (if intr <? isr_soft_lowest t then intr else isr_soft_lowest t) (intr_reserved t)))
                (SRegistered ty intr h))
    end.

(** ** An interrupt *)

(** [bmk_sched_wake(isr_thread)]. *)
Definition wake_isr (d : dpc) : dpc :=
  match d with DPrep _ => DPrep true | DBlock _ => DBlock true | d => d end.

Section machine.
(** [hw_pci]: [is_hw_pci_config]; [msi]: CONFIG_USE_MSI_ETH is set. *)
Context (hw_pci msi sliced : bool).

Inductive which := Pci | Stdio.
Definition thr (k : which) (s : sel4_state) : ithr := match k with Pci => pci_thread s | Stdio => stdio_thread s end.
Definition set_thr (k : which) (p : ithr) (s : sel4_state) : sel4_state :=
  match k with Pci => set_thrs s p (stdio_thread s) | Stdio => set_thrs s (pci_thread s) p end.

(** A step of [wait_for_pci_interrupt] or [wait_for_stdio_interrupt], with
    [rump_irq_handle] and [isr]. *)
Definition irq_step (k : which) (s : sel4_state) : outcome sel4_state :=
  match thr k s with
  | INone => Done s
  | IWait =>
      match k with
      | Pci =>
          if pci_notification s =? 0 then Done s
          else Done (set_thr k (IEnter (wrap32 (pci_notification s)) 0) (set_ntfn s 0 (stdio_ep s)))
      | Stdio =>
          if stdio_ep s then Done (set_thr k (IEnter 0 (Z.shiftl 1 (stdio_intr s))) (set_ntfn s (pci_notification s) false))
          else Done s
      end
  | IEnter w sw => if spl_semaphore (env s) then Done (set_thr k (IHeld w sw) (set_sem s false)) else Done s
  | IHeld w sw =>
      if negb (spldepth (env s) =? 0) then Halt "spldepth should be 0."
      else Done (set_thr k (IMask w sw) (if should_wakeup (env s) then set_timer s true else s))
  | IMask w sw => Done (set_thr k (ISoft w sw) (set_mask s true))
  | ISoft w sw => Done (set_thr k (IHard w) (set_todo s (isr_todo s) (Z.lor (isr_todo_soft s) sw)))
  | IHard w => Done (set_thr k IWake (set_todo s (Z.lor (isr_todo s) w) (isr_todo_soft s)))
  | IWake =>
      if mask_the_mask (env s) then Done (set_thr k IPost (set_dpc s (wake_isr (isr_thread s))))
      else if spldepth (env s) =? 0 then Done (set_thr k ISplWait s)
      else Undef "depth without the semaphore"
  | ISplWait => if spl_semaphore (env s) then Undef "semaphore released by another thread" else Done s
  | IPost => Done (set_thr k IUnmask (set_sem s true))
  | IUnmask => Done (set_thr k IWait (set_mask s false))
  end.

(** ** The interrupt thread of the runner *)

Definition handlers_of (ty : isr_type_t) (i : Z) (s : sel4_state) : outcome (list intrhand) :=
  match ty with
  | HARDWARE_INT => of_option "isr_ih[i]" (isr_ih (tab s) !! Z.to_nat i)
  | SOFTWARE_EVENT => of_option "isr_ih_soft[i]" (isr_ih_soft (tab s) !! Z.to_nat i)
  end.

Definition acknowledge (i : Z) (s : sel4_state) : sel4_state :=
  if hw_pci then if msi then s else slog_add (set_masked s (bit_clear (irq_masked s) i)) (SAcked i)
  else slog_add s SEthAcked.

(** A step of the loop of [process_handlers]. *)
Definition process_handlers (ty : isr_type_t) (isrcopy i : Z) (cur : option (Z * list intrhand)) (s : sel4_state) : outcome sel4_state :=
  match cur with
  | Some (b, h :: hs) => Done (slog_add (set_dpc s (DRun ty isrcopy i (Some (b, hs)))) (SCalled h))
  | Some (b, []) =>
      let s := set_dpc s (DRun ty isrcopy i None) in
      Done (match ty with HARDWARE_INT => acknowledge b s | SOFTWARE_EVENT => s end)
  | None =>
      if isrcopy =? 0 then Done (set_dpc s (match ty with HARDWARE_INT => DSoftHigh | SOFTWARE_EVENT => DTailHigh end))
      else
        _ ← bmk_assert (i <? 32) "i < sizeof(isrcopy) * 8";
        if Z.land isrcopy (Z.shiftl 1 i) =? 0 then Done (set_dpc s (DRun ty isrcopy (i + 1) None))
        else
          hs ← handlers_of ty i s;
          Done (set_dpc s (DRun ty (bit_clear isrcopy i) (i + 1) (Some (i, hs))))
  end.

Definition doisr (s : sel4_state) : outcome sel4_state :=
  match isr_thread s with
  | DStart => Done (bmk_platform_splhigh (set_dpc s DRead))
  | DRead => Done (set_dpc s (DClear (isr_todo s)))
  | DClear c => Done (set_todo (set_dpc s (DUnlock HARDWARE_INT c)) 0 (isr_todo_soft s))
  | DUnlock ty c => bmk_platform_splx (set_dpc s (DSched ty c))
  | DSched ty c =>
      Done (set_dpc s (DRun ty c (match ty with HARDWARE_INT => isr_lowest (tab s) | SOFTWARE_EVENT => isr_soft_lowest (tab s) end) None))
  | DRun ty c i cur => process_handlers ty c i cur s
  | DSoftHigh => Done (bmk_platform_splhigh (set_dpc s DReadSoft))
  | DReadSoft => Done (set_dpc s (DClearSoft (isr_todo_soft s)))
  | DClearSoft c => Done (set_todo (set_dpc s (DUnlock SOFTWARE_EVENT c)) (isr_todo s) 0)
  | DTailHigh => Done (bmk_platform_splhigh (set_dpc s DTail))
  | DTail =>
      if negb (isr_todo s =? 0) || negb (isr_todo_soft s =? 0) then Done (set_dpc s DRead)
      else Done (set_dpc s (DPrep false))
  | DPrep w => bmk_platform_splx (set_dpc s (DBlock w))
  | DBlock w => Done (set_prog s POther)
  end.

(** A step of the runner: of [splhigh] or [splx], of [doisr], of
    [bmk_platform_cpu_block]. *)
Definition runner_step (s : sel4_state) : outcome sel4_state :=
  match micro s with
  | MSemWait => if spl_semaphore (env s) then Done (set_micro (set_sem s false) MInc) else Done s
  | MInc => Done (set_micro (set_depth s (spldepth (env s) + 1)) MNone)
  | MPost => Done (set_micro (set_sem s true) MNone)
  | MNone =>
      match runner s with
      | POther => Done s
      | PIsr => doisr s
      | PFail => bmk_platform_splx (set_prog s PResched)
      | PArm => Done (set_prog (set_wakeup s true) PArmed)
      | PArmed => bmk_platform_splx (set_prog s PWait)
      | PWait => if timer_ntfn (env s) then Done (set_prog (set_timer s false) PWoken) else Done s
      | PWoken => Done (set_prog (set_wakeup s false) PResched)
      | PResched => Done (bmk_platform_splhigh (set_prog s POther))
      end
  end.

(** [bmk_platform_cpu_block], up to the timeout; [res] is the answer of the
    timer server. *)
Definition bmk_platform_cpu_block (until now res : Z) (s : sel4_state) : outcome sel4_state :=
  _ ← bmk_assert (0 <? spldepth (env s)) "env.spldepth > 0";
  if until <=? now then Done s
  else Done (set_prog s (if negb (res =? 0) then PFail else PArm)).

(** ** The machine *)

Inductive sevent :=
  | ERunner                                 (** the runner's next step *)
  | EYield                                  (** [doisr] loses the CPU to other threads of the rump kernel *)
  | ESwitch                                 (** and gets it back *)
  | EHigh                                   (** other threads: [splhigh], *)
  | ELow                                    (** [splx], *)
  | ERegister (h : intrhand) (intr : Z)     (** a driver's registration, *)
  | ECpuBlock (until now res : Z)           (** nothing is runnable *)
  | EThread (k : which)                     (** a step of an interrupt thread *)
  | EIrq (b : Z)                            (** a device *)
  | EChar                                   (** console input *)
  | ETimer.                                 (** the timer server *)

Definition sdecide_wait (k : which) (s : sel4_state) : bool :=
  match k with Pci => negb (pci_notification s =? 0) | Stdio => stdio_ep s end.

(** Whether an interrupt thread is ready to run, and whether it is in the
    middle of an interrupt. *)
Definition ready (k : which) (s : sel4_state) : bool :=
  match thr k s with
  | INone => false
  | IWait => sdecide_wait k s
  | IEnter _ _ | ISplWait => spl_semaphore (env s)
  | _ => true
  end.
Definition midway (p : ithr) : bool :=
  match p with INone | IWait | IEnter _ _ => false | _ => true end.
Definition other (k : which) : which := match k with Pci => Stdio | Stdio => Pci end.

Definition asleep (d : dpc) : bool := match d with DPrep false | DBlock false => true | _ => false end.

(** Whether the seL4 scheduler, the rump kernel and the devices let an event
    happen. *)
Definition enabled (e : sevent) (s : sel4_state) : bool :=
  let run := negb (ready Pci s) && negb (ready Stdio s) in
  let idle := run && bool_decide (micro s = MNone) in
  match e with
  | ERunner => run
  | EYield => idle && bool_decide (runner s = PIsr) && (spldepth (env s) =? 0)
  | ESwitch => idle && bool_decide (runner s = POther) && (spldepth (env s) =? 0) && negb (asleep (isr_thread s))
  | EHigh => idle && bool_decide (runner s = POther)
  | ERegister _ intr => idle && bool_decide (runner s = POther) && (0 <=? intr) && (intr <=? BMK_MAXINTR)
  | ELow => idle && bool_decide (runner s = POther) && (0 <? spldepth (env s))
  | ECpuBlock _ _ _ => idle && bool_decide (runner s = POther) && (spldepth (env s) =? 1) && asleep (isr_thread s)
  | EThread k => ready k s && (sliced || negb (midway (thr (other k) s)))
  | EIrq b =>
      (0 <=? b) && (b <? 32) &&
      match isr_ih (tab s) !! Z.to_nat b with Some (_ :: _) => true | _ => false end &&
      (negb hw_pci || msi || negb (Z.testbit (irq_masked s) b))
  | EChar => match stdio_thread s with INone => false | _ => true end
  | ETimer => true
  end.

Definition take (e : sevent) (s : sel4_state) : outcome sel4_state :=
  match e with
  | ERunner => runner_step s
  | EYield => Done (set_prog s POther)
  | ESwitch => Done (set_run s PIsr MNone (match isr_thread s with DBlock _ => DStart | d => d end))
  | EHigh => Done (bmk_platform_splhigh s)
  | ELow => bmk_platform_splx s
  | ERegister h intr => '(_, s) ← bmk_isr_rumpkernel h intr HARDWARE_INT true s; Done s
  | ECpuBlock until now res => bmk_platform_cpu_block until now res s
  | EThread k => irq_step k s
  | EIrq b =>
      Done (slog_add (set_masked (set_ntfn s (Z.lor (pci_notification s) (Z.shiftl 1 b)) (stdio_ep s))
        (Z.lor (irq_masked s) (Z.shiftl 1 b))) (SRaised HARDWARE_INT b))
  | EChar => Done (slog_add (set_ntfn s (pci_notification s) true) (SRaised SOFTWARE_EVENT (stdio_intr s)))
  | ETimer => Done (set_timer s true)
  end.

(** An event that cannot happen does not. *)
Definition sstep (e : sevent) (s : sel4_state) : outcome sel4_state :=
  if enabled e s then take e s else Done s.

Fixpoint srun (es : list sevent) (s : sel4_state) : outcome sel4_state :=
  match es with
  | [] => Done s
  | e :: es => s ← sstep e s; srun es s
  end.

(** After [intr_init], in [init_rumprun]: without CAmkES, the thread for the
    console input is started, and registers its handler at once. *)
Definition intr_init : sel4_state :=
  Sel4 (Env true 0 false false false) (Tab (replicate INTR_LEVELS []) (replicate (Z.to_nat SOFT_INTRS) []) 32 (SOFT_INTRS - 1) 0)
    0 0 0 false 0 0 POther MNone DStart IWait INone [].

Definition init_rumprun (camkes : bool) (stdio_handler : intrhand) : outcome sel4_state :=
  let s := intr_init in
  if camkes then Done s
  else
    '(intr, s) ← bmk_isr_rumpkernel stdio_handler (-1) SOFTWARE_EVENT true s;
    Done (Sel4 (env s) (tab s) (isr_todo s) (isr_todo_soft s) (pci_notification s) (stdio_ep s) intr (irq_masked s)
            (runner s) (micro s) (isr_thread s) (pci_thread s) IWait (slogged s)).
End machine.
