(* ===== verification/Sel4IntrThms.v ===== *)
(** * Interrupts of the seL4 platform: exclusion and delivery

    The lock invariant says who holds the semaphore and what follows from it;
    the data invariant says where an interrupt that has been raised is on its
    way to its handlers. *)

From S2P Require Import Prelude Intr Sel4Intr.

(** ** The lock *)

(** [doisr] is between a [splhigh] and the [splx] that ends it. *)
Definition locked (d : dpc) : bool :=
  match d with DRead | DClear _ | DUnlock _ _ | DReadSoft | DClearSoft _ | DTail | DPrep _ => true | _ => false end.

Definition entering (d : dpc) : bool := match d with DRead | DReadSoft | DTail => true | _ => false end.

(** Who holds the semaphore. *)
Definition rhold (s : sel4_state) : bool :=
  (0 <? spldepth (env s)) || match micro s with MInc | MPost => true | _ => false end.
Definition ihold (p : ithr) : bool :=
  match p with IHeld _ _ | IMask _ _ | ISoft _ _ | IHard _ | IWake | IPost => true | _ => false end.
Definition masking (p : ithr) : bool :=
  match p with ISoft _ _ | IHard _ | IWake | IPost | IUnmask => true | _ => false end.
(** Has signalled the runner, has stored its interrupts, and not yet woken [doisr]. *)
Definition signalled (p : ithr) : bool :=
  match p with IMask _ _ | ISoft _ _ | IHard _ | IWake => true | _ => false end.
Definition stored (p : ithr) : bool := match p with IHard _ | IWake => true | _ => false end.
Definition is_spl (p : ithr) : bool := match p with ISplWait => true | _ => false end.

Definition prog_ok (p : prog) (m : rmicro) (depth : Z) (d : dpc) : Prop :=
  match p with
  | PIsr => match m with MNone => depth = Z.b2z (locked d) | MSemWait | MInc => entering d = true | MPost => locked d = false end
  | POther => locked d = false
  | PFail => locked d = false /\ m = MNone /\ depth = 1
  | PArm | PArmed => locked d = false /\ m = MNone /\ depth = 1 /\ asleep d = true
  | PWait | PResched => locked d = false /\ (m = MNone \/ m = MPost) /\ depth = 0
  | PWoken => locked d = false /\ m = MNone /\ depth = 0
  end.

Record linv (s : sel4_state) : Prop := LInv {
  l_count : Z.b2z (spl_semaphore (env s)) + Z.b2z (rhold s) + Z.b2z (ihold (pci_thread s)) + Z.b2z (ihold (stdio_thread s)) = 1;
  l_depth : 0 <= spldepth (env s) /\ (micro s = MNone \/ spldepth (env s) = 0);
  l_mask : mask_the_mask (env s) = masking (pci_thread s) || masking (stdio_thread s);
  l_one : midway (pci_thread s) && midway (stdio_thread s) = false;
  l_nospl : is_spl (pci_thread s) = false /\ is_spl (stdio_thread s) = false;
  l_prog : prog_ok (runner s) (micro s) (spldepth (env s)) (isr_thread s);
  l_wakeup : match runner s with PArmed | PWait => should_wakeup (env s) = true | _ => True end;
  l_sleep : asleep (isr_thread s) = true ->
    isr_todo s = 0 /\ isr_todo_soft s = 0 \/ stored (pci_thread s) = true \/ stored (stdio_thread s) = true;
  l_timer : runner s = PWait ->
    asleep (isr_thread s) = true /\ signalled (pci_thread s) = false /\ signalled (stdio_thread s) = false \/ timer_ntfn (env s) = true;
  l_copy : match isr_thread s with DClear c => c = isr_todo s | DClearSoft c => c = isr_todo_soft s | _ => True end
}.

Lemma hold_midway p : midway p = false -> ihold p = false /\ masking p = false /\ signalled p = false /\ stored p = false /\ is_spl p = false.
Proof. by destruct p. Qed.

(** While the runner runs, no interrupt thread is in the middle of anything. *)
Lemma run_quiet s : linv s -> ready Pci s = false -> ready Stdio s = false ->
  midway (pci_thread s) = false /\ midway (stdio_thread s) = false /\ mask_the_mask (env s) = false /\
  spl_semaphore (env s) = negb (rhold s).
Proof.
  intros [Hc _ Hm _ [Hp Hs] _ _ _ _ _] H1 H2. unfold ready in *. cbn [thr] in *.
  assert (midway (pci_thread s) = false) as Q1 by (by destruct (pci_thread s)).
  assert (midway (stdio_thread s) = false) as Q2 by (by destruct (stdio_thread s)).
  destruct (hold_midway _ Q1) as (E1 & E2 & _), (hold_midway _ Q2) as (F1 & F2 & _).
  rewrite E1, F1 in Hc. rewrite E2, F2 in Hm. split; [done |]. split; [done |]. split; [done |].
  destruct (spl_semaphore (env s)), (rhold s); done.
Qed.

(** What a step of the runner has to respect. *)
Lemma runner_linv s s' :
  linv s -> ready Pci s = false -> ready Stdio s = false ->
  pci_thread s' = pci_thread s -> stdio_thread s' = stdio_thread s -> mask_the_mask (env s') = false ->
  spl_semaphore (env s') = negb (rhold s') -> 0 <= spldepth (env s') /\ (micro s' = MNone \/ spldepth (env s') = 0) ->
  prog_ok (runner s') (micro s') (spldepth (env s')) (isr_thread s') ->
  match runner s' with PArmed | PWait => should_wakeup (env s') = true | _ => True end ->
  (asleep (isr_thread s') = true -> isr_todo s' = 0 /\ isr_todo_soft s' = 0) ->
  (runner s' = PWait -> asleep (isr_thread s') = true \/ timer_ntfn (env s') = true) ->
  match isr_thread s' with DClear c => c = isr_todo s' | DClearSoft c => c = isr_todo_soft s' | _ => True end ->
  linv s'.
Proof.
  intros Hl R1 R2 E1 E2 Em Es Hd Hp Hw Hsl Ht Hc.
  destruct (run_quiet s Hl R1 R2) as (Q1 & Q2 & _). pose proof (l_nospl s Hl) as Hn.
  destruct (hold_midway _ Q1) as (A1 & A2 & A3 & A4 & A5), (hold_midway _ Q2) as (B1 & B2 & B3 & B4 & B5).
  split; rewrite ?E1, ?E2, ?A1, ?A2, ?A3, ?A4, ?B1, ?B2, ?B3, ?B4, ?Q1, ?Em; try done.
  - rewrite Es. by destruct (rhold s').
  - intros H. left. by apply Hsl.
  - intros H. destruct (Ht H); auto.
Qed.

Lemma quiet_sleep s : linv s -> midway (pci_thread s) = false -> midway (stdio_thread s) = false ->
  asleep (isr_thread s) = true -> isr_todo s = 0 /\ isr_todo_soft s = 0.
Proof.
  intros Hl Q1 Q2 H. destruct (hold_midway _ Q1) as (_ & _ & _ & A & _), (hold_midway _ Q2) as (_ & _ & _ & B & _).
  destruct (l_sleep s Hl H) as [? | [? | ?]]; [done | congruence | congruence].
Qed.

Lemma rhold_false s : spldepth (env s) = 0 -> micro s = MNone \/ micro s = MSemWait -> rhold s = false.
Proof. unfold rhold. intros -> [-> | ->]; done. Qed.
Lemma rhold_true s : 0 < spldepth (env s) \/ micro s = MInc \/ micro s = MPost -> rhold s = true.
Proof. unfold rhold. intros [H | [-> | ->]]; [| apply orb_true_r..]. apply orb_true_iff. left. by apply Z.ltb_lt. Qed.

(** [splhigh] and [splx] with the flag clear. *)
Lemma splhigh_eq s : mask_the_mask (env s) = false -> bmk_platform_splhigh s =
  if spldepth (env s) =? 0 then set_micro s MSemWait else set_depth s (spldepth (env s) + 1).
Proof. unfold bmk_platform_splhigh. by intros ->. Qed.
Lemma splx_eq s : mask_the_mask (env s) = false -> 0 < spldepth (env s) -> bmk_platform_splx s =
  Done (if spldepth (env s) =? 1 then set_micro (set_depth s 0) MPost else set_depth s (spldepth (env s) - 1)).
Proof.
  unfold bmk_platform_splx. intros -> H. destruct (Z.eqb_spec (spldepth (env s)) 0); [lia |]. cbn.
  destruct (Z.eqb_spec (spldepth (env s)) 1) as [-> |]; [done |].
  destruct (Z.eqb_spec (spldepth (env s) - 1) 0); [lia | done].
Qed.

(** What the calls of handlers leave alone. *)
Lemma process_same hw_pci msi ty c i cur s s' :
  process_handlers hw_pci msi ty c i cur s = Done s' ->
  env s' = env s /\ tab s' = tab s /\ runner s' = runner s /\ micro s' = micro s /\ pci_thread s' = pci_thread s /\
  stdio_thread s' = stdio_thread s /\ isr_todo s' = isr_todo s /\ isr_todo_soft s' = isr_todo_soft s /\
  pci_notification s' = pci_notification s /\ stdio_ep s' = stdio_ep s /\ stdio_intr s' = stdio_intr s /\
  match isr_thread s' with DRun _ _ _ _ | DSoftHigh | DTailHigh => True | _ => False end.
Proof.
  unfold process_handlers, acknowledge. intros H.
  destruct cur as [[b [| h hs]] |]; [destruct ty, hw_pci, msi; outcome_inv; done | by outcome_inv |].
  destruct (c =? 0); [destruct ty; by outcome_inv |]. outcome_inv.
  destruct (Z.land _ _ =? 0); outcome_inv; done.
Qed.

(** Hypotheses about boolean tests. *)
Ltac bools :=
  repeat match goal with
  | H : _ && _ = true |- _ => apply andb_true_iff in H as [? ?]
  | H : negb _ = true |- _ => apply negb_true_iff in H
  | H : bool_decide _ = true |- _ => apply bool_decide_eq_true in H
  | H : (_ =? _) = true |- _ => apply Z.eqb_eq in H
  | H : (_ <? _) = true |- _ => apply Z.ltb_lt in H
  | H : (_ <=? _) = true |- _ => apply Z.leb_le in H
  end.
Ltac lock_done := try tauto; try (split; [lia | tauto]).

Section lock.
Context (hw_pci msi : bool).

Lemma doisr_lock s s' : linv s -> ready Pci s = false -> ready Stdio s = false -> micro s = MNone -> runner s = PIsr ->
  doisr hw_pci msi s = Done s' -> linv s'.
Proof.
  intros Hl R1 R2 Em Er E. destruct (run_quiet s Hl R1 R2) as (Q1 & Q2 & Hm & Hsem).
  pose proof (l_prog s Hl) as Hp. pose proof (l_depth s Hl) as [Hd _]. rewrite Er in Hp. cbn in Hp. rewrite Em in Hp.
  pose proof (quiet_sleep s Hl Q1 Q2) as Hq. pose proof (l_copy s Hl) as Hcp.
  unfold doisr in E. destruct (isr_thread s) as [| | c | ty c | ty c | ty c i cur | | | c | | | w | w] eqn:Ed; cbn in Hp.
  all: try (rewrite splhigh_eq in E by done; cbn in E; rewrite Hp in E; cbn in E).
  all: try (rewrite splx_eq in E by (cbn; (done || lia)); cbn in E; rewrite Hp in E; cbn in E).
  all: try (injection E as <-).
  all: try (apply (runner_linv s); cbn; rewrite ?Er, ?Em, ?Hp, ?Hm, ?Ed; try done; lock_done;
       rewrite ?Hsem; unfold rhold; cbn; rewrite ?Em, ?Hp; done).
  - destruct (process_same _ _ _ _ _ _ _ _ E) as (E1 & _ & E3 & E4 & E5 & E6 & E7 & E8 & _ & _ & _ & E9).
    apply (runner_linv s); rewrite ?E1, ?E3, ?E4, ?E5, ?E6, ?E7, ?E8, ?Er, ?Em, ?Hp; try done.
    + rewrite Hsem. unfold rhold. by rewrite E1, E4.
    + lock_done.
    + cbn. by destruct (isr_thread s').
    + by destruct (isr_thread s').
    + by destruct (isr_thread s').
  - destruct (negb _ || negb _) eqn:Et; injection E as <-; apply (runner_linv s); cbn; rewrite ?Er, ?Em, ?Hp, ?Hm; try done; lock_done;
      rewrite ?Hsem; unfold rhold; cbn; rewrite ?Em, ?Hp; try done.
    intros _. apply orb_false_iff in Et as [Et1 Et2]. apply negb_false_iff, Z.eqb_eq in Et1, Et2. done.
Qed.

Lemma runner_lock s s' : linv s -> ready Pci s = false -> ready Stdio s = false -> runner_step hw_pci msi s = Done s' -> linv s'.
Proof.
  intros Hl R1 R2 E. destruct (run_quiet s Hl R1 R2) as (Q1 & Q2 & Hm & Hsem).
  pose proof (l_prog s Hl) as Hp. pose proof (l_depth s Hl) as [Hd Hd']. pose proof (quiet_sleep s Hl Q1 Q2) as Hq.
  pose proof (l_copy s Hl) as Hcp. pose proof (l_wakeup s Hl) as Hw. pose proof (l_timer s Hl) as Ht.
  unfold runner_step in E. destruct (micro s) eqn:Em.
  - destruct (runner s) eqn:Er; cbn in Hp; try (injection E as <-; done).
    + by apply (doisr_lock s).
    + destruct Hp as (H1 & _ & H2). rewrite splx_eq in E by (cbn; (done || lia)). cbn in E. rewrite H2 in E. cbn in E. injection E as <-.
      apply (runner_linv s); cbn; rewrite ?H1; try done; lock_done. rewrite Hsem. unfold rhold. cbn. by rewrite H2.
    + injection E as <-. apply (runner_linv s); cbn; rewrite ?Em; try done; lock_done.
    + destruct Hp as (H1 & _ & H2 & H3). rewrite splx_eq in E by (cbn; (done || lia)). cbn in E. rewrite H2 in E. cbn in E. injection E as <-.
      apply (runner_linv s); cbn; rewrite ?H1, ?H3; try done; lock_done. rewrite Hsem. unfold rhold. cbn. by rewrite H2.
    + destruct (timer_ntfn (env s)) eqn:Et; injection E as <-; [| done].
      apply (runner_linv s); cbn; rewrite ?Em; try done; lock_done.
    + injection E as <-. apply (runner_linv s); cbn; rewrite ?Em; try done; lock_done.
    + destruct Hp as (H1 & _ & H2). rewrite splhigh_eq in E by done. cbn in E. rewrite H2 in E. cbn in E. injection E as <-.
      apply (runner_linv s); cbn; rewrite ?H1; try done; lock_done. rewrite Hsem. unfold rhold. cbn. by rewrite H2, Em.
  - destruct (spl_semaphore (env s)) eqn:Es; injection E as <-; [| done].
    apply (runner_linv s); cbn; try done; lock_done.
    + symmetry. apply negb_false_iff, rhold_true. tauto.
    + destruct Hd' as [? | Hd']; [done |]. rewrite Hd'. lock_done.
    + unfold prog_ok in *. destruct (runner s); intuition done.
  - injection E as <-. apply (runner_linv s); cbn; try done; lock_done.
    + rewrite Hsem. f_equal. rewrite !rhold_true; cbn; [done | left; lia | tauto].
    + unfold prog_ok in *. destruct Hd' as [? | Hd0]; [done |]. rewrite Hd0 in *.
      destruct (runner s); intuition (try done; try discriminate). by destruct (isr_thread s).
  - injection E as <-. apply (runner_linv s); cbn; try done; lock_done.
    + symmetry. apply negb_true_iff, rhold_false; cbn; [| tauto]. by destruct Hd'.
    + unfold prog_ok in *. destruct Hd' as [? | Hd0]; [done |]. rewrite Hd0 in *.
      destruct (runner s); intuition (try done; try discriminate). by rewrite Hp.
Qed.
Lemma event_lock e s s' : linv s -> enabled hw_pci msi false e s = true ->
  match e with EYield | ESwitch | EHigh | ELow | ERegister _ _ | ECpuBlock _ _ _ => True | _ => False end ->
  take hw_pci msi e s = Done s' -> linv s'.
Proof.
  intros Hl He Hk E.
  assert (ready Pci s = false /\ ready Stdio s = false /\ micro s = MNone) as (R1 & R2 & Em).
  { unfold enabled in He. destruct e; try done; bools; done. }
  destruct (run_quiet s Hl R1 R2) as (Q1 & Q2 & Hm & Hsem).
  pose proof (l_prog s Hl) as Hp. pose proof (l_depth s Hl) as [Hd Hd']. pose proof (quiet_sleep s Hl Q1 Q2) as Hq.
  pose proof (l_copy s Hl) as Hcp.
  destruct e as [| | | | | h intr | until now res | | | |]; try done; cbn [take] in E; unfold enabled in He; bools;
    match goal with H : runner s = _ |- _ => rename H into Er; rewrite Er in Hp; cbn in Hp end.
  - injection E as <-. rewrite Em in Hp.
    apply (runner_linv s); cbn; rewrite ?Em, ?Er; try done; lock_done. destruct (locked (isr_thread s)); [cbn in Hp; lia | done].
  - injection E as <-. apply (runner_linv s); cbn; rewrite ?Em, ?Er; try done; lock_done.
    + rewrite Hsem. unfold rhold. cbn. by rewrite Em.
    + match goal with H : spldepth _ = 0 |- _ => rewrite H end. by destruct (isr_thread s).
    + by destruct (isr_thread s).
    + by destruct (isr_thread s).
  - injection E as <-. rewrite splhigh_eq by done. destruct (Z.eqb_spec (spldepth (env s)) 0) as [Hz |].
    + apply (runner_linv s); cbn; rewrite ?Hz, ?Er; try done; lock_done.
      * rewrite Hsem. unfold rhold. cbn. by rewrite Hz, Em.
    + apply (runner_linv s); cbn; rewrite ?Em, ?Er; try done; lock_done.
      * rewrite Hsem, !rhold_true; cbn; [done | lia..].
  - rewrite splx_eq in E by (done || lia). destruct (Z.eqb_spec (spldepth (env s)) 1) as [Hz |]; injection E as <-.
    + apply (runner_linv s); cbn; rewrite ?Er; try done; lock_done.
      * rewrite Hsem. unfold rhold. cbn. by rewrite Hz.
    + apply (runner_linv s); cbn; rewrite ?Em, ?Er; try done; lock_done.
      * rewrite Hsem, !rhold_true; cbn; [done | lia..].
  - unfold bmk_isr_rumpkernel in E. cbn [negb] in E. destruct (_ || _); outcome_inv.
    apply (runner_linv s); cbn; rewrite ?Em, ?Er; try done; lock_done.
  - unfold bmk_platform_cpu_block in E. destruct (Z.ltb_spec 0 (spldepth (env s))); [| lia]. cbn in E.
    destruct (until <=? now); injection E as <-; [done |].
    destruct (res =? 0); cbn [negb]; apply (runner_linv s); cbn; rewrite ?Em, ?Er; try done; lock_done.
Qed.

(** What a step of an interrupt thread has to respect: the thread goes from
    [p] to [p'], the other one, [q], is not in the middle of anything. *)
Lemma thread_linv s s' p p' q :
  linv s -> midway q = false ->
  (pci_thread s = p /\ stdio_thread s = q /\ pci_thread s' = p' /\ stdio_thread s' = q \/
   pci_thread s = q /\ stdio_thread s = p /\ pci_thread s' = q /\ stdio_thread s' = p') ->
  spldepth (env s') = spldepth (env s) -> micro s' = micro s -> runner s' = runner s -> should_wakeup (env s') = should_wakeup (env s) ->
  (isr_thread s' = isr_thread s \/ ihold p = true /\ isr_thread s' = wake_isr (isr_thread s)) ->
  Z.b2z (spl_semaphore (env s')) + Z.b2z (ihold p') = Z.b2z (spl_semaphore (env s)) + Z.b2z (ihold p) ->
  mask_the_mask (env s') = masking p' -> is_spl p' = false ->
  (asleep (isr_thread s') = true -> isr_todo s' = 0 /\ isr_todo_soft s' = 0 \/ stored p' = true) ->
  (runner s' = PWait -> asleep (isr_thread s') = true /\ signalled p' = false \/ timer_ntfn (env s') = true) ->
  (ihold p = true \/ isr_todo s' = isr_todo s /\ isr_todo_soft s' = isr_todo_soft s) ->
  linv s'.
Proof.
  intros Hl Hq Ht Ed Em Er Ew Ei Es Emk Hn Hsl Htm Htd. destruct (hold_midway q Hq) as (B1 & B2 & B3 & B4 & B5).
  pose proof Hl as [Hc Hdp Hmk Ho Hns Hp Hw _ _ Hcp].
  assert (rhold s' = rhold s) as Erh by (unfold rhold; by rewrite Ed, Em).
  assert (ihold p = true -> spldepth (env s) = 0 /\ micro s <> MInc /\ micro s <> MPost) as Hih.
  { intros H. assert (rhold s = false) as Hr.
    { destruct Ht as [(E1 & E2 & _) | (E1 & E2 & _)]; rewrite E1, E2, B1, H in Hc;
        unfold Z.b2z in Hc; by destruct (rhold s), (spl_semaphore (env s)). }
    unfold rhold in Hr. apply orb_false_iff in Hr as [Hr1 Hr2]. apply Z.ltb_ge in Hr1. destruct (micro s); split; (lia || done). }
  assert (ihold p = true -> locked (isr_thread s) = true -> entering (isr_thread s) = true) as Hent.
  { intros H Hlk. destruct (Hih H) as (Hz & Hm1 & Hm2). unfold prog_ok in Hp. rewrite Hz, Hlk in Hp.
    destruct (runner s), (micro s); intuition (try done; try lia). }
  assert (locked (isr_thread s') = locked (isr_thread s) /\ entering (isr_thread s') = entering (isr_thread s)) as [El Een].
  { destruct Ei as [-> | [_ ->]]; [done |]. by destruct (isr_thread s). }
  split.
  - rewrite Erh. destruct Ht as [(E1 & E2 & -> & ->) | (E1 & E2 & -> & ->)]; rewrite E1, E2 in Hc; lia.
  - by rewrite Ed, Em.
  - rewrite Emk. destruct Ht as [(_ & _ & -> & ->) | (_ & _ & -> & ->)]; rewrite B2; [by rewrite orb_false_r | done].
  - destruct Ht as [(_ & _ & -> & ->) | (_ & _ & -> & ->)]; rewrite Hq; [apply andb_false_r | done].
  - destruct Ht as [(_ & _ & -> & ->) | (_ & _ & -> & ->)]; done.
  - rewrite Er, Em, Ed. unfold prog_ok in *. rewrite El, Een.
    destruct (runner s); try done.
    all: destruct Hp as (? & ? & ? & Has); destruct Ei as [-> | [Hip _]]; [done |]; destruct (Hih Hip); lia.
  - by rewrite Er, Ew.
  - intros H. destruct (Hsl H) as [? | ?]; [by left | right]. destruct Ht as [(_ & _ & -> & ->) | (_ & _ & -> & ->)]; auto.
  - intros H. destruct (Htm H) as [[? ?] | ?]; [left | by right]. destruct Ht as [(_ & _ & -> & ->) | (_ & _ & -> & ->)]; auto.
  - destruct Htd as [Hip | [-> ->]]; [| by destruct Ei as [-> | [_ ->]]; [| destruct (isr_thread s)]].
    specialize (Hent Hip). destruct Ei as [-> | [_ ->]]; destruct (isr_thread s); cbn in *; try done; by specialize (Hent eq_refl).
Qed.

Lemma thread_lock k s s' : linv s -> ready k s = true -> midway (thr (other k) s) = false -> irq_step k s = Done s' -> linv s'.
Proof.
  intros Hl Hr Hm E.
  pose proof (l_sleep s Hl) as Hs. pose proof (l_timer s Hl) as Ht. pose proof (l_wakeup s Hl) as Hw. pose proof (l_nospl s Hl) as [N1 N2].
  pose proof (l_mask s Hl) as Hmk. destruct (hold_midway _ Hm) as (B1 & B2 & B3 & B4 & B5).
  assert (forall p' s1, set_thr k p' s1 = s' -> pci_thread s1 = pci_thread s -> stdio_thread s1 = stdio_thread s ->
    (pci_thread s = thr k s /\ stdio_thread s = thr (other k) s /\ pci_thread s' = p' /\ stdio_thread s' = thr (other k) s \/
     pci_thread s = thr (other k) s /\ stdio_thread s = thr k s /\ pci_thread s' = thr (other k) s /\ stdio_thread s' = p')) as Hthr.
  { intros p' s1 <- E1 E2. destruct k; cbn; rewrite ?E1, ?E2; auto. }
  assert (mask_the_mask (env s) = masking (thr k s)) as Emk.
  { rewrite Hmk. destruct k; cbn [thr other] in *; rewrite B2; [apply orb_false_r | done]. }
  assert (is_spl (thr k s) = false) as Hns by (destruct k; done).
  assert (asleep (isr_thread s) = true -> isr_todo s = 0 /\ isr_todo_soft s = 0 \/ stored (thr k s) = true) as Hs'.
  { intros H. specialize (Hs H). destruct k; cbn [thr other] in *; rewrite B4 in Hs; intuition done. }
  assert (runner s = PWait -> asleep (isr_thread s) = true /\ signalled (thr k s) = false \/ timer_ntfn (env s) = true) as Ht'.
  { intros H. specialize (Ht H). destruct k; cbn [thr other] in *; tauto. }
  assert (ihold (thr k s) = true -> spl_semaphore (env s) = false) as Hsf.
  { intros H. pose proof (l_count s Hl) as Hc. destruct k; cbn [thr other] in *; rewrite B1, H in Hc; unfold Z.b2z in Hc;
      by destruct (rhold s), (spl_semaphore (env s)). }
  unfold irq_step in E. destruct (thr k s) as [| | w sw | w sw | w sw | w sw | w | | | |] eqn:Ek; cbn [masking stored signalled is_spl] in *; try done.
  1: by injection E as <-.
  all: try (injection E as E; eapply (thread_linv s s' _ _ (thr (other k) s)); [exact Hl | exact Hm | eapply Hthr; [exact E | done..] | ..]; 
    subst s'; destruct k; cbn in *; auto; done).
  - destruct k; cbn [sdecide_wait] in *; unfold ready in Hr; rewrite Ek in Hr; cbn in Hr.
    + apply negb_true_iff in Hr. rewrite Hr in E. injection E as E.
      eapply (thread_linv s s' _ _ (stdio_thread s)); [exact Hl | exact Hm | eapply (Hthr _ _ E); done | ..]; subst s'; cbn in *; auto.
    + rewrite Hr in E. injection E as E.
      eapply (thread_linv s s' _ _ (pci_thread s)); [exact Hl | exact Hm | eapply (Hthr _ _ E); done | ..]; subst s'; cbn in *; auto.
  - unfold ready in Hr. rewrite Ek in Hr. rewrite Hr in E. injection E as E.
    eapply (thread_linv s s' _ _ (thr (other k) s)); [exact Hl | exact Hm | eapply Hthr; [exact E | done..] | ..];
      subst s'; destruct k; cbn in *; rewrite ?Hr; auto.
  - destruct (negb _); [done |]. injection E as E. destruct (should_wakeup (env s)) eqn:Esw;
      (eapply (thread_linv s s' _ _ (thr (other k) s)); [exact Hl | exact Hm | eapply Hthr; [exact E | done..] | ..];
       subst s'; destruct k; cbn in *; rewrite ?Esw; auto; intros Er; rewrite Er in Hw; congruence).
  - rewrite Emk in E. injection E as E.
    eapply (thread_linv s s' _ _ (thr (other k) s)); [exact Hl | exact Hm | eapply Hthr; [exact E | done..] | ..];
      subst s'; destruct k; cbn in *; auto; try (destruct (isr_thread s); done);
      intros Er; destruct (Ht' Er) as [[_ ?] | ?]; auto; done.
  - injection E as E. eapply (thread_linv s s' _ _ (thr (other k) s)); [exact Hl | exact Hm | eapply Hthr; [exact E | done..] | ..];
      subst s'; destruct k; cbn in *; auto; by rewrite (Hsf eq_refl).
Qed.

Lemma device_lock e s s' : linv s -> match e with EIrq _ | EChar | ETimer => True | _ => False end ->
  take hw_pci msi e s = Done s' -> linv s'.
Proof. intros [] He E. destruct e; try done; injection E as <-; split; try done. intros. right. done. Qed.
End lock.

(** ** The way of an interrupt *)

Definition ntfn (ty : isr_type_t) (s : sel4_state) : Z :=
  match ty with HARDWARE_INT => pci_notification s | SOFTWARE_EVENT => if stdio_ep s then Z.shiftl 1 (stdio_intr s) else 0 end.
Definition word (ty : isr_type_t) (p : ithr) : Z :=
  match p with
  | IEnter w sw | IHeld w sw | IMask w sw | ISoft w sw => match ty with HARDWARE_INT => w | SOFTWARE_EVENT => sw end
  | IHard w => match ty with HARDWARE_INT => w | SOFTWARE_EVENT => 0 end
  | _ => 0
  end.
Definition todo (ty : isr_type_t) (s : sel4_state) : Z :=
  match ty with HARDWARE_INT => isr_todo s | SOFTWARE_EVENT => isr_todo_soft s end.
Definition runc (ty : isr_type_t) (d : dpc) : Z :=
  match d with
  | DUnlock t c | DSched t c | DRun t c _ _ => if decide (t = ty) then c else 0
  | _ => 0
  end.
Definition curd (d : dpc) : option (isr_type_t * Z * list intrhand) :=
  match d with DRun t _ _ (Some (b, hs)) => Some (t, b, hs) | _ => None end.

(** The interrupts on their way. *)
Definition waiting (ty : isr_type_t) (s : sel4_state) : Z :=
  Z.lor (Z.lor (ntfn ty s) (Z.lor (word ty (pci_thread s)) (word ty (stdio_thread s)))) (todo ty s).
Definition allw (ty : isr_type_t) (s : sel4_state) : Z := Z.lor (waiting ty s) (runc ty (isr_thread s)).

Definition lowest (ty : isr_type_t) (t : isr_tab) : Z :=
  match ty with HARDWARE_INT => isr_lowest t | SOFTWARE_EVENT => isr_soft_lowest t end.
Definition levels (ty : isr_type_t) : Z := match ty with HARDWARE_INT => 32 | SOFTWARE_EVENT => SOFT_INTRS end.
Definition handlers (ty : isr_type_t) (t : isr_tab) : list (list intrhand) :=
  match ty with HARDWARE_INT => isr_ih t | SOFTWARE_EVENT => isr_ih_soft t end.

(** The handler [h] of interrupt [b] is still to be called. *)
Definition spending (s : sel4_state) (ty : isr_type_t) (b : Z) (h : intrhand) : Prop :=
  Z.testbit (allw ty s) b = true \/ exists b' hs, curd (isr_thread s) = Some (ty, b', hs) /\ h ∈ hs.

Definition sdelivered (s : sel4_state) : Prop :=
  forall l1 ty b l2 h, slogged s = l1 ++ SRaised ty b :: l2 -> SRegistered ty b h ∈ l1 -> SCalled h ∈ l2 \/ spending s ty b h.

Definition scan_ok (d : dpc) : Prop :=
  match d with
  | DRun _ c i cur =>
      0 <= i /\ (forall b, 0 <= b -> Z.testbit c b = true -> i <= b) /\ match cur with Some (b, _) => 0 <= b | None => True end
  | _ => True
  end.

Section data.
Context (hw_pci msi : bool).

Record dinv (s : sel4_state) : Prop := DInv {
  d_len : length (isr_ih (tab s)) = 33%nat /\ length (isr_ih_soft (tab s)) = 1%nat;
  d_low : 0 <= isr_lowest (tab s) <= 32 /\ isr_soft_lowest (tab s) = 0 /\
    forall b h hs, 0 <= b -> isr_ih (tab s) !! Z.to_nat b = Some (h :: hs) -> isr_lowest (tab s) <= b;
  d_intr : stdio_intr s = 0;
  d_words : forall ty, 0 <= allw ty s /\ forall b, 0 <= b -> Z.testbit (allw ty s) b = true -> lowest ty (tab s) <= b < levels ty;
  d_scan : scan_ok (isr_thread s);
  d_reg : forall ty b h, SRegistered ty b h ∈ slogged s -> 0 <= b /\ exists hs, handlers ty (tab s) !! Z.to_nat b = Some hs /\ h ∈ hs;
  d_delivered : sdelivered s;
  d_masked : hw_pci = true -> msi = false -> 0 <= irq_masked s /\ forall b, 0 <= b -> Z.testbit (irq_masked s) b = true ->
    Z.testbit (allw HARDWARE_INT s) b = true \/ exists hs, curd (isr_thread s) = Some (HARDWARE_INT, b, hs)
}.

(** A step that only moves interrupts along. *)
Lemma data_same s s' : dinv s -> tab s' = tab s -> stdio_intr s' = stdio_intr s -> slogged s' = slogged s ->
  irq_masked s' = irq_masked s -> (forall ty, allw ty s' = allw ty s) -> curd (isr_thread s') = curd (isr_thread s) ->
  scan_ok (isr_thread s') -> dinv s'.
Proof.
  intros [H1 H2 H3 H4 H5 H6 H7 H8] Et Ei El Em Ew Ec Hsc. split; rewrite ?Et, ?Ei, ?El, ?Em; try done.
  - intros ty. rewrite Ew. apply H4.
  - unfold sdelivered, spending. rewrite El, Ec. intros. rewrite Ew. by eapply H7.
  - rewrite Ew, Ec. done.
Qed.

Lemma app_SRaised (l l1 l2 l3 : list slog) ty b :
  (forall e, e ∈ l3 -> match e with SRaised _ _ => False | _ => True end) ->
  l ++ l3 = l1 ++ SRaised ty b :: l2 -> exists l4, l2 = l4 ++ l3 /\ l = l1 ++ SRaised ty b :: l4.
Proof.
  revert l2. induction l3 as [| e l3 IH] using rev_ind; intros l2 Hl E.
  - rewrite app_nil_r in E. exists l2. by rewrite app_nil_r.
  - destruct l2 as [| x l2 _] using rev_ind.
    + rewrite app_assoc in E. apply app_inj_tail in E as [_ ->]. destruct (Hl (SRaised ty b)). set_solver.
    + rewrite app_assoc, app_comm_cons, app_assoc in E. apply app_inj_tail in E as [E ->].
      destruct (IH l2) as (l4 & -> & ->); [set_solver | done |]. exists l4. by rewrite app_assoc.
Qed.

(** A step of [process_handlers]: it may take interrupts off the way, and
    appends [l] to the log. *)
Lemma data_step s s' l : dinv s -> tab s' = tab s -> stdio_intr s' = stdio_intr s -> slogged s' = slogged s ++ l ->
  (forall e, e ∈ l -> match e with SRaised _ _ | SRegistered _ _ _ => False | _ => True end) ->
  (forall ty, 0 <= allw ty s' /\ forall b, 0 <= b -> Z.testbit (allw ty s') b = true -> Z.testbit (allw ty s) b = true) ->
  scan_ok (isr_thread s') ->
  (forall ty b h, SRegistered ty b h ∈ slogged s -> spending s ty b h -> spending s' ty b h \/ SCalled h ∈ l) ->
  (hw_pci = true -> msi = false -> 0 <= irq_masked s' /\ forall b, 0 <= b -> Z.testbit (irq_masked s') b = true ->
     Z.testbit (allw HARDWARE_INT s') b = true \/ exists hs, curd (isr_thread s') = Some (HARDWARE_INT, b, hs)) ->
  dinv s'.
Proof.
  intros [H1 H2 H3 H4 H5 H6 H7 H8] Et Ei El Hl Hw Hsc Hp Hm.
  assert (forall ty b h, SRegistered ty b h ∈ slogged s' -> SRegistered ty b h ∈ slogged s) as Hr.
  { intros ty b h. rewrite El, elem_of_app. intros [Hx | Hx]; [done |]. by destruct (Hl _ Hx). }
  split; rewrite ?Et, ?Ei; try done.
  - intros ty. destruct (Hw ty) as [Hn Hs], (H4 ty) as [_ Hb]. split; [done |]. intros b Hb0 Hx. by apply Hb, Hs.
  - intros ty b h H. by apply H6, Hr.
  - intros l1 ty b l2 h E Hrg. rewrite El in E.
    destruct (app_SRaised (slogged s) l1 l2 l ty b) as (l4 & -> & E'); [intros e He; specialize (Hl e He); by destruct e | done |].
    destruct (H7 l1 ty b l4 h E' Hrg) as [Hx | Hx]; [left; set_solver |].
    destruct (Hp ty b h); [rewrite E'; set_solver | done | by right |]. left. set_solver.
Qed.

(** Words that hold the same bits. *)
Ltac same_words :=
  apply Z.bits_inj'; intros n _; rewrite ?Z.lor_spec, ?Z.bits_0;
  repeat match goal with |- context [Z.testbit ?x n] => destruct (Z.testbit x n) end; done.

Lemma words_sub s ty : dinv s ->
  0 <= ntfn ty s /\ 0 <= todo ty s /\ 0 <= runc ty (isr_thread s) /\
  (forall b, 0 <= b -> Z.testbit (ntfn ty s) b = true \/ Z.testbit (runc ty (isr_thread s)) b = true ->
    lowest ty (tab s) <= b < levels ty).
Proof.
  intros Hd. destruct (d_words s Hd ty) as [Hn Hb]. unfold allw, waiting in Hn, Hb. rewrite !Z.lor_nonneg in Hn.
  split; [tauto |]. split; [tauto |]. split; [tauto |]. intros b Hb0 H. apply Hb; [done |]. rewrite !Z.lor_spec.
  destruct H as [-> | ->]; rewrite ?orb_true_r; done.
Qed.

Lemma thread_data k s s' : dinv s -> irq_step k s = Done s' -> dinv s'.
Proof.
  intros Hd E. pose proof (d_scan s Hd) as Hsc.
  assert (wrap32 (pci_notification s) = pci_notification s) as Ewr.
  { destruct (words_sub s HARDWARE_INT Hd) as (Hn & _ & _ & Hb). cbn in Hn, Hb. unfold wrap32. apply Z.mod_small, bits_range.
    intros b Hb32. destruct (Z.testbit _ b) eqn:Et; [| done]. destruct (Hb b); [lia | auto | lia]. }
  assert (curd (wake_isr (isr_thread s)) = curd (isr_thread s) /\ scan_ok (wake_isr (isr_thread s)) /\
    forall ty, runc ty (wake_isr (isr_thread s)) = runc ty (isr_thread s)) as (W1 & W2 & W3) by (by destruct (isr_thread s)).
  unfold irq_step in E. destruct k; cbn [thr set_thr] in E.
  all: match type of E with match ?p with _ => _ end = _ => destruct p as [| | w sw | w sw | w sw | w sw | w | | | |] eqn:Ek end.
  all: repeat match type of E with (if ?b then _ else _) = _ => destruct b eqn:? end; try done; injection E as <-; try done.
  all: apply (data_same s); try done; try (destruct (should_wakeup (env s)); done).
  all: rewrite ?Ewr.
  all: intros []; unfold allw, waiting; cbn; rewrite ?Ek, ?W3; try destruct (should_wakeup (env s));
    repeat match goal with H : stdio_ep _ = true |- _ => rewrite H end; cbn; same_words.
Qed.

(** The handlers of an interrupt are done, a handler is called, the scan goes on. *)
Lemma process_ack ty c i b s : dinv s -> isr_thread s = DRun ty c i (Some (b, [])) ->
  exists s', process_handlers hw_pci msi ty c i (Some (b, [])) s = Done s' /\ dinv s'.
Proof.
  intros Hd Ed. pose proof (d_scan s Hd) as Hsc. rewrite Ed in Hsc. destruct Hsc as (Hi & Hci & Hcur).
  unfold process_handlers.
  set (s1 := match ty with HARDWARE_INT => _ | SOFTWARE_EVENT => _ end). exists s1. split; [done |].
  assert (exists l, slogged s1 = slogged s ++ l /\ forall e, e ∈ l -> match e with SRaised _ _ | SRegistered _ _ _ => False | _ => True end) as (l & El & Hl).
  { unfold s1, acknowledge. destruct ty, hw_pci, msi; cbn; first [eexists [_]; split; [done |]; intros e ->%list_elem_of_singleton; done
      | exists []; rewrite app_nil_r; split; [done |]; intros e H%elem_of_nil; done]. }
  assert (isr_thread s1 = DRun ty c i None /\ tab s1 = tab s /\ stdio_intr s1 = stdio_intr s) as (E1 & E2 & E3)
    by (unfold s1, acknowledge; by destruct ty, hw_pci, msi).
  assert (forall t, allw t s1 = allw t s) as Ew by (intros t; unfold allw, s1, acknowledge; rewrite Ed; by destruct ty, hw_pci, msi).
  apply (data_step s s1 l); try done.
  - intros t. rewrite Ew. split; [by destruct (d_words s Hd t) | done].
  - by rewrite E1.
  - intros t b0 h _ [H | (b' & hs & H & Hin)]; [left; left; by rewrite Ew |].
    rewrite Ed in H. injection H as <- <- <-. by apply elem_of_nil in Hin.
  - intros Hh Hms. destruct (d_masked s Hd Hh Hms) as [Hm0 Hmb]. rewrite Ew, E1. subst s1. destruct ty.
    + unfold acknowledge. rewrite Hh, Hms. cbn. split; [unfold bit_clear; by apply Z.land_nonneg; left |]. intros b0 Hb0 H.
      rewrite bit_clear_spec in H by lia. apply andb_true_iff in H as [H Hne%negb_true_iff%Z.eqb_neq].
      destruct (Hmb b0 Hb0 H) as [? | (hs & Hc)]; [by left |]. rewrite Ed in Hc. injection Hc as <- _. done.
    + split; [done |]. intros b0 Hb0 H. destruct (Hmb b0 Hb0 H) as [? | (hs & Hc)]; [by left |]. by rewrite Ed in Hc.
Qed.

Lemma process_call ty c i b h hs s : dinv s -> isr_thread s = DRun ty c i (Some (b, h :: hs)) ->
  exists s', process_handlers hw_pci msi ty c i (Some (b, h :: hs)) s = Done s' /\ dinv s'.
Proof.
  intros Hd Ed. pose proof (d_scan s Hd) as Hsc. rewrite Ed in Hsc. destruct Hsc as (Hi & Hci & Hcur).
  unfold process_handlers.
  eexists. split; [done |]. assert (forall t, allw t (slog_add (set_dpc s (DRun ty c i (Some (b, hs)))) (SCalled h)) = allw t s) as Ew
    by (intros t; unfold allw; by rewrite Ed).
  apply (data_step s _ [SCalled h]); try done.
  - intros e ->%list_elem_of_singleton. done.
  - intros t. rewrite Ew. split; [by destruct (d_words s Hd t) | done].
  - intros t b0 h0 _ [H | (b' & hs' & H & Hin)]; [left; left; by rewrite Ew |].
    rewrite Ed in H. injection H as <- <- <-. apply elem_of_cons in Hin as [-> | Hin]; [right; by left |].
    left. right. exists b, hs. done.
  - intros Hh Hms. destruct (d_masked s Hd Hh Hms) as [Hm0 Hmb]. split; [done |]. intros b0 Hb0 H. rewrite Ew.
    destruct (Hmb b0 Hb0 H) as [? | (hs' & Hc)]; [by left | right]. rewrite Ed in Hc. injection Hc as -> -> _. by exists hs.
Qed.

Lemma process_scan ty c i s : dinv s -> isr_thread s = DRun ty c i None ->
  exists s', process_handlers hw_pci msi ty c i None s = Done s' /\ dinv s'.
Proof.
  intros Hd Ed. pose proof (d_scan s Hd) as Hsc. rewrite Ed in Hsc. destruct Hsc as (Hi & Hci & Hcur).
  destruct (words_sub s ty Hd) as (_ & _ & Hc0 & Hb). rewrite Ed in Hc0, Hb. cbn in Hc0, Hb. rewrite decide_True in Hc0, Hb by done.
  unfold process_handlers.
  destruct (Z.eqb_spec c 0) as [-> | Hne].
  { eexists. split; [done |]. apply (data_same s); try done; [| by rewrite Ed; destruct ty | by destruct ty].
    intros t. unfold allw. rewrite Ed. cbn. destruct ty; cbn; by destruct (decide _). }
  assert (i < 32) as Hi32.
  { pose proof (Z.bit_log2 c ltac:(lia)) as Hl. pose proof (Z.log2_nonneg c) as Hl0.
    pose proof (Hci _ Hl0 Hl). destruct (Hb _ Hl0 (or_intror Hl)). destruct ty; cbn in *; unfold SOFT_INTRS in *; lia. }
  destruct (Z.ltb_spec i 32); [| lia]. rewrite bmk_assert_true, Done_bind. rewrite shift_land_bit by lia.
  destruct (Z.testbit c i) eqn:Hbit; cbn [negb].
  2: { eexists. split; [done |]. apply (data_same s); try done.
       - intros t. unfold allw. by rewrite Ed.
       - by rewrite Ed.
       - cbn. split; [lia |]. split; [| done]. intros b Hb0 Hx. pose proof (Hci b Hb0 Hx). destruct (decide (b = i)); [congruence | lia]. }
  destruct (Hb i Hi (or_intror Hbit)) as [_ Hlv].
  assert (exists hs, handlers ty (tab s) !! Z.to_nat i = Some hs) as [hs Hhs].
  { destruct (d_len s Hd). apply lookup_lt_is_Some_2. destruct ty; cbn in *; unfold SOFT_INTRS in *; lia. }
  assert (handlers_of ty i s = Done hs) as -> by (unfold handlers_of; destruct ty; cbn in Hhs; by rewrite Hhs).
  rewrite Done_bind. eexists. split; [done |].
  assert (forall t b, 0 <= b -> Z.testbit (runc t (DRun ty (bit_clear c i) (i + 1) (Some (i, hs)))) b =
      Z.testbit (runc t (isr_thread s)) b && negb (bool_decide (t = ty) && (i =? b))) as Er.
  { intros t b Hb0. rewrite Ed. cbn. destruct (decide (ty = t)) as [<- |].
    - rewrite bit_clear_spec by lia. by rewrite bool_decide_true.
    - by rewrite Z.bits_0. }
  apply (data_step s _ []); try done.
  - cbn. by rewrite app_nil_r.
  - by intros e Hx%elem_of_nil.
  - intros t. destruct (d_words s Hd t) as [Hn _]. unfold allw in *. change (waiting t (set_dpc _ _)) with (waiting t s).
    rewrite Z.lor_nonneg in *. split.
    + split; [tauto |]. cbn. destruct (decide _); [| done]. unfold bit_clear. apply Z.land_nonneg. by left.
    + intros b Hb0. rewrite !Z.lor_spec. change (isr_thread (set_dpc s ?d)) with d. rewrite Er by done.
      destruct (Z.testbit (waiting t s) b); [done |]. cbn. intros Hx. by apply andb_true_iff in Hx as [? _].
  - cbn. split; [lia |]. split; [| done]. intros b Hb0. rewrite bit_clear_spec by lia. intros Hx.
    apply andb_true_iff in Hx as [Hx Hne'%negb_true_iff%Z.eqb_neq]. pose proof (Hci b Hb0 Hx). lia.
  - intros t b h Hrg [Hx | (b' & hs' & Hx & _)]; [left | by rewrite Ed in Hx].
    destruct (d_reg s Hd t b h Hrg) as (Hb0 & hs' & Ehs & Hin). unfold spending, allw in *. rewrite Z.lor_spec in *.
    change (waiting t (set_dpc _ _)) with (waiting t s). change (isr_thread (set_dpc s ?d)) with d. rewrite Er by done.
    destruct (Z.testbit (waiting t s) b); [by left |]. cbn in Hx. rewrite Hx. cbn.
    destruct (decide (t = ty)) as [-> |]; [| left; by rewrite bool_decide_false].
    destruct (Z.eqb_spec i b) as [<- |]; [right | left; by rewrite andb_false_r].
    exists i, hs. split; [done |]. congruence.
  - intros Hh Hms. destruct (d_masked s Hd Hh Hms) as [Hm0 Hmb]. split; [done |]. intros b Hb0 Hx. cbn in Hx.
    destruct (Hmb b Hb0 Hx) as [Hy | (hs' & Hy)]; [| by rewrite Ed in Hy]. unfold allw in *. rewrite Z.lor_spec in *.
    change (waiting HARDWARE_INT (set_dpc _ _)) with (waiting HARDWARE_INT s). change (isr_thread (set_dpc s ?d)) with d. rewrite Er by done.
    destruct (Z.testbit (waiting _ s) b); [by left |]. cbn in Hy. rewrite Hy. cbn.
    destruct (decide (HARDWARE_INT = ty)) as [<- |]; [| left; by rewrite bool_decide_false].
    destruct (Z.eqb_spec i b) as [<- |]; [right; by exists hs | left; by rewrite andb_false_r].
Qed.

Lemma process_data ty c i cur s : dinv s -> isr_thread s = DRun ty c i cur ->
  exists s', process_handlers hw_pci msi ty c i cur s = Done s' /\ dinv s'.
Proof. destruct cur as [[b [| h hs]] |]; [apply process_ack | apply process_call | apply process_scan]. Qed.

(** Steps that do not touch the interrupts. *)
Lemma data_env s s' : dinv s -> tab s' = tab s -> stdio_intr s' = stdio_intr s -> slogged s' = slogged s -> irq_masked s' = irq_masked s ->
  isr_thread s' = isr_thread s -> pci_thread s' = pci_thread s -> stdio_thread s' = stdio_thread s ->
  pci_notification s' = pci_notification s -> stdio_ep s' = stdio_ep s -> isr_todo s' = isr_todo s -> isr_todo_soft s' = isr_todo_soft s ->
  dinv s'.
Proof.
  intros Hd E1 E2 E3 E4 E5 E6 E7 E8 E9 E10 E11. apply (data_same s); try done; try (by rewrite E5).
  - intros []; unfold allw, waiting, ntfn, todo; by rewrite ?E2, ?E5, ?E6, ?E7, ?E8, ?E9, ?E10, ?E11.
  - rewrite E5. apply Hd.
Qed.

Lemma splhigh_data s : dinv s -> dinv (bmk_platform_splhigh s).
Proof. intros Hd. unfold bmk_platform_splhigh. repeat case_match; [done | by apply (data_env s)..]. Qed.
Lemma splx_data s : dinv s -> mask_the_mask (env s) = false -> 0 < spldepth (env s) -> exists s', bmk_platform_splx s = Done s' /\ dinv s'.
Proof. intros Hd Hm Hp. rewrite splx_eq by done. eexists. split; [done |]. case_match; by apply (data_env s). Qed.

Lemma doisr_data s : linv s -> dinv s -> mask_the_mask (env s) = false -> micro s = MNone -> runner s = PIsr ->
  exists s', doisr hw_pci msi s = Done s' /\ dinv s'.
Proof.
  intros Hl Hd Hm Em Er. pose proof (l_prog s Hl) as Hp. rewrite Er in Hp. cbn in Hp. rewrite Em in Hp.
  pose proof (l_copy s Hl) as Hcp. pose proof (d_scan s Hd) as Hsc.
  assert (forall d, curd d = curd (isr_thread s) -> (forall ty, runc ty d = runc ty (isr_thread s)) -> scan_ok d -> dinv (set_dpc s d)) as Hset.
  { intros d Ec Erc Hs. apply (data_same s); try done. intros ty. unfold allw. cbn [isr_thread set_dpc set_run]. by rewrite Erc. }
  unfold doisr. destruct (isr_thread s) as [| | c | ty c | ty c | ty c i cur | | | c | | | w | w] eqn:Ed; cbn in Hp.
  all: try (eexists; split; [done |]; apply splhigh_data; by apply Hset).
  all: try (apply splx_data; [by apply Hset | done | cbn; lia]).
  all: try (eexists; split; [done |]; by apply Hset).
  - eexists. split; [done |]. subst c. apply (data_same s); cbn; rewrite ?Ed; try done. intros []; unfold allw, waiting; rewrite Ed; cbn; repeat case_decide; try done; same_words.
  - eexists. split; [done |]. apply Hset; [done.. |]. cbn. destruct (words_sub s ty Hd) as (_ & _ & _ & Hb). rewrite Ed in Hb.
    cbn in Hb. rewrite decide_True in Hb by done. destruct (d_low s Hd) as (Hlo & Hls & _). split; [destruct ty; lia |].
    split; [| done]. intros b Hb0 Hx. destruct (Hb b Hb0 (or_intror Hx)) as [? _]. by destruct ty.
  - by apply process_data.
  - eexists. split; [done |]. subst c. apply (data_same s); cbn; rewrite ?Ed; try done. intros []; unfold allw, waiting; rewrite Ed; cbn; repeat case_decide; try done; same_words.
  - case_match; eexists; (split; [done |]); by apply Hset.
  - eexists. split; [done |]. by apply (data_env s).
Qed.

Lemma runner_data s : linv s -> dinv s -> ready Pci s = false -> ready Stdio s = false ->
  exists s', runner_step hw_pci msi s = Done s' /\ dinv s'.
Proof.
  intros Hl Hd R1 R2. destruct (run_quiet s Hl R1 R2) as (_ & _ & Hm & _). pose proof (l_prog s Hl) as Hp.
  assert (forall s', Done s' = Done s' /\ dinv s' -> exists s1, Done s' = Done s1 /\ dinv s1) as Hex by eauto.
  unfold runner_step. destruct (micro s) eqn:Em.
  - destruct (runner s) eqn:Er; cbn in Hp.
    all: try (apply Hex; split; [done |]; by apply (data_env s)).
    + by apply doisr_data.
    + apply splx_data; [by apply (data_env s) | done | cbn; lia].
    + apply splx_data; [by apply (data_env s) | done | cbn; lia].
    + case_match; apply Hex; (split; [done |]); by apply (data_env s).
    + apply Hex. split; [done |]. apply splhigh_data. by apply (data_env s).
  - case_match; apply Hex; (split; [done |]); by apply (data_env s).
  - apply Hex. split; [done |]. by apply (data_env s).
  - apply Hex. split; [done |]. by apply (data_env s).
Qed.

Lemma thread_done k s : linv s -> ready k s = true -> midway (thr (other k) s) = false -> exists s', irq_step k s = Done s'.
Proof.
  intros Hl Hr Hm. destruct (hold_midway _ Hm) as (B1 & B2 & _). pose proof (l_nospl s Hl) as [N1 N2].
  assert (ihold (thr k s) = true -> spldepth (env s) = 0) as Hz.
  { intros H. pose proof (l_count s Hl) as Hc. pose proof (l_depth s Hl) as [Hd _].
    assert (rhold s = false) as Hrh.
    { destruct k; cbn [thr other] in *; rewrite B1, H in Hc; unfold Z.b2z in Hc; by destruct (rhold s), (spl_semaphore (env s)). }
    unfold rhold in Hrh. apply orb_false_iff in Hrh as [Hrh _]. apply Z.ltb_ge in Hrh. lia. }
  assert (masking (thr k s) = true -> mask_the_mask (env s) = true) as Hmk.
  { intros H. rewrite (l_mask s Hl). destruct k; cbn [thr] in *; rewrite H; [done | apply orb_true_r]. }
  assert (is_spl (thr k s) = false) as Hns by (by destruct k).
  unfold irq_step. destruct (thr k s) eqn:Ek; try (eexists; reflexivity); try discriminate.
  - destruct k; case_match; eexists; reflexivity.
  - case_match; eexists; reflexivity.
  - rewrite (Hz eq_refl). eexists; reflexivity.
  - rewrite (Hmk eq_refl). eexists; reflexivity.
Qed.

Lemma app_raise (l l1 l2 : list slog) ty b t b' :
  l ++ [SRaised ty b] = l1 ++ SRaised t b' :: l2 ->
  (ty = t /\ b = b' /\ l2 = []) \/ exists l3, l2 = l3 ++ [SRaised ty b] /\ l = l1 ++ SRaised t b' :: l3.
Proof.
  intros E. destruct l2 as [| x l2 _] using rev_ind.
  - left. apply app_inj_tail in E as [_ [= -> ->]]. done.
  - right. rewrite app_comm_cons, app_assoc in E. apply app_inj_tail in E as [-> <-]. by exists l2.
Qed.

(** An interrupt is raised. *)
Lemma data_raise s s' ty b : dinv s -> tab s' = tab s -> stdio_intr s' = stdio_intr s -> slogged s' = slogged s ++ [SRaised ty b] ->
  isr_thread s' = isr_thread s -> 0 <= b -> lowest ty (tab s) <= b < levels ty ->
  (forall t n, 0 <= n -> Z.testbit (allw t s') n = Z.testbit (allw t s) n || bool_decide (t = ty) && (b =? n)) ->
  (forall t, 0 <= allw t s') ->
  (irq_masked s' = irq_masked s \/ ty = HARDWARE_INT /\ irq_masked s' = Z.lor (irq_masked s) (Z.shiftl 1 b)) -> dinv s'.
Proof.
  intros [H1 H2 H3 H4 H5 H6 H7 H8] Et Ei El Ed Hb0 Hb Hw Hn Hm. split; rewrite ?Et, ?Ei, ?Ed; try done.
  - intros t. split; [apply Hn |]. intros n Hn0. rewrite Hw by done. intros [Hx | Hx]%orb_true_iff; [by apply H4 |].
    apply andb_true_iff in Hx as [Hx1%bool_decide_eq_true Hx2%Z.eqb_eq]. by subst.
  - intros t n h. rewrite El. intros [? | Hx%list_elem_of_singleton]%elem_of_app; [by apply H6 | done].
  - intros l1 t n l2 h E Hr. rewrite El in E.
    assert (0 <= n) as Hn0. { destruct (app_raise _ _ _ _ _ _ _ E) as [(<- & <- & ->) | (l3 & -> & E')]; [done |].
      destruct (H6 t n h); [rewrite E'; set_solver | done]. }
    destruct (app_raise _ _ _ _ _ _ _ E) as [(<- & <- & ->) | (l3 & -> & E')].
    + right. left. rewrite Hw by done. rewrite bool_decide_true, Z.eqb_refl by done. apply orb_true_r.
    + destruct (H7 l1 t n l3 h E' Hr) as [? | [Hx | Hx]]; [left; set_solver | right; left | right; right; by rewrite Ed].
      rewrite Hw by done. by rewrite Hx.
  - intros Hh Hms. destruct (H8 Hh Hms) as [Hm0 Hmb]. destruct Hm as [-> | [-> ->]].
    + split; [done |]. intros n Hn0 Hx. destruct (Hmb n Hn0 Hx) as [Hy | ?]; [left | by right]. rewrite Hw by done. by rewrite Hy.
    + split; [rewrite Z.lor_nonneg; split; [done |]; rewrite Z.shiftl_1_l; lia |]. intros n Hn0. rewrite Z.lor_spec, Z.shiftl_1_l, Z.pow2_bits_eqb by done.
      rewrite Hw by done. intros [Hx | Hx]%orb_true_iff.
      * destruct (Hmb n Hn0 Hx) as [-> | ?]; [by left | by right].
      * left. rewrite Hx, bool_decide_true by done. apply orb_true_r.
Qed.

Lemma register_data h intr s : dinv s -> 0 <= intr <= 32 ->
  exists s', bmk_isr_rumpkernel h intr HARDWARE_INT true s = Done (intr, s') /\ dinv s'.
Proof.
  intros Hd Hi. pose proof Hd as [(L1 & L2) (Hl & Hls & Hlow) H3 H4 H5 H6 H7 H8]. unfold bmk_isr_rumpkernel.
  rewrite wrap64_small by (unfold u64, W64; lia). destruct (Z.ltb_spec 32 intr); [lia |].
  destruct (Z.ltb_spec BMK_MAXINTR intr); [unfold BMK_MAXINTR in *; lia |]. cbn [orb negb]. rewrite Done_bind.
  destruct (lookup_lt_is_Some_2 (isr_ih (tab s)) (Z.to_nat intr)) as [hs Hhs]; [lia |].
  rewrite Hhs, of_option_Some, Done_bind. eexists. split; [done |].
  set (lo := if intr <? isr_lowest (tab s) then intr else isr_lowest (tab s)).
  assert (lo <= isr_lowest (tab s) /\ lo <= intr /\ 0 <= lo) as (Hlo1 & Hlo2 & Hlo3) by (unfold lo; destruct (Z.ltb_spec intr (isr_lowest (tab s))); lia).
  split; cbn.
  - by rewrite length_insert.
  - split; [lia |]. split; [done |]. intros b h' hs' Hb0 Hx. apply list_lookup_insert_Some in Hx as [(Eb & _ & _) | (_ & Hx)]; [lia |].
    specialize (Hlow b h' hs' Hb0 Hx). lia.
  - done.
  - intros ty. destruct (H4 ty) as [Hn Hb]. split; [done |]. intros b Hb0 Hx. specialize (Hb b Hb0 Hx). destruct ty; cbn in *; lia.
  - done.
  - intros ty b h' [Hx | Hx%list_elem_of_singleton]%elem_of_app.
    + destruct (H6 ty b h' Hx) as (Hb0 & hs' & E & Hin). split; [done |]. destruct ty; cbn in *; [| by exists hs'].
      destruct (decide (Z.to_nat intr = Z.to_nat b)) as [Eb |].
      * rewrite <- Eb, Hhs in E. injection E as <-. exists (h :: hs). rewrite Eb, list_lookup_insert_eq by lia. split; [done | by right].
      * exists hs'. by rewrite list_lookup_insert_ne.
    + injection Hx as -> -> ->. split; [lia |]. exists (h :: hs). cbn. rewrite list_lookup_insert_eq by lia. split; [done | by left].
  - intros l1 ty b l2 h' E Hr. cbn in E. destruct (app_SRaised (slogged s) l1 l2 [SRegistered HARDWARE_INT intr h] ty b) as (l4 & -> & E');
      [intros e ->%list_elem_of_singleton; done | done |]. destruct (H7 l1 ty b l4 h' E' Hr); [left; set_solver | by right].
  - done.
Qed.

Lemma event_data e s : linv s -> dinv s -> enabled hw_pci msi false e s = true -> exists s', take hw_pci msi e s = Done s' /\ dinv s'.
Proof.
  intros Hl Hd He.
  assert (forall s', Done s' = Done s' /\ dinv s' -> exists s1, Done s' = Done s1 /\ dinv s1) as Hex by eauto.
  destruct e as [| | | | | h intr | until now res | k | b | |]; cbn [take]; unfold enabled in He; bools.
  - by apply runner_data.
  - apply Hex. split; [done |]. by apply (data_env s).
  - apply Hex. split; [done |]. pose proof (d_scan s Hd) as Hsc. apply (data_same s); try done; cbn.
    + intros []; unfold allw; cbn [isr_thread set_run]; by destruct (isr_thread s).
    + by destruct (isr_thread s).
    + by destruct (isr_thread s).
  - apply Hex. split; [done |]. by apply splhigh_data.
  - destruct (run_quiet s Hl) as (_ & _ & Hm & _); [done.. |]. by apply splx_data.
  - destruct (register_data h intr s Hd) as (s' & E & Hd'); [unfold BMK_MAXINTR in *; lia |]. rewrite E, Done_bind. eauto.
  - unfold bmk_platform_cpu_block. destruct (Z.ltb_spec 0 (spldepth (env s))); [| lia]. rewrite bmk_assert_true, Done_bind.
    case_match; [by eauto |]. apply Hex. split; [done |]. by apply (data_env s).
  - destruct (thread_done k s Hl) as [s' E]; [done | by destruct (midway _) |]. exists s'. split; [done |]. by apply (thread_data k s).
  - apply Hex. split; [done |]. apply (data_raise s _ HARDWARE_INT b); try done.
    + destruct (isr_ih (tab s) !! Z.to_nat b) as [[| h hs] |] eqn:Eh; try done. destruct (d_low s Hd) as (_ & _ & Hlow). cbn. split; [by eapply Hlow | lia].
    + intros t n Hn. unfold allw, waiting. destruct t; [rewrite bool_decide_true by done | rewrite bool_decide_false by done];
        cbn; rewrite !Z.lor_spec, ?Z.shiftl_1_l, ?Z.pow2_bits_eqb by lia;
        repeat match goal with |- context [Z.testbit ?x n] => destruct (Z.testbit x n) end; by destruct (b =? n).
    + intros t. destruct (d_words s Hd t) as [Hn _]. unfold allw, waiting in *. destruct t; cbn in *; rewrite !Z.lor_nonneg in *; [| done].
      repeat split; try tauto. rewrite Z.shiftl_1_l. lia.
    + right. done.
  - apply Hex. split; [done |]. pose proof (d_intr s Hd) as Hi. apply (data_raise s _ SOFTWARE_EVENT (stdio_intr s)); try done.
    + rewrite Hi. done.
    + destruct (d_low s Hd) as (_ & Hls & _). cbn. unfold SOFT_INTRS. lia.
    + intros t n Hn. unfold allw, waiting. destruct t; [rewrite bool_decide_false by done | rewrite bool_decide_true by done];
        cbn; [by rewrite orb_false_r |]. rewrite Hi, !Z.lor_spec. change (Z.shiftl 1 0) with (2 ^ 0).
      destruct (stdio_ep s); rewrite ?Z.pow2_bits_eqb, ?Z.bits_0 by lia;
        repeat match goal with |- context [Z.testbit ?x n] => destruct (Z.testbit x n) end; by destruct (0 =? n).
    + intros t. destruct (d_words s Hd t) as [Hn _]. unfold allw, waiting in *. destruct t; cbn in *; rewrite ?Hi in *; rewrite !Z.lor_nonneg in *; [done |].
      repeat split; try tauto. done.
    + by left.
  - apply Hex. split; [done |]. by apply (data_env s).
Qed.

Lemma sstep_inv e s : linv s -> dinv s -> exists s', sstep hw_pci msi false e s = Done s' /\ linv s' /\ dinv s'.
Proof.
  intros Hl Hd. unfold sstep. destruct (enabled hw_pci msi false e s) eqn:He; [| by eauto].
  destruct (event_data e s Hl Hd He) as (s' & E & Hd'). exists s'. split; [done |]. split; [| done].
  pose proof (device_lock hw_pci msi e s s' Hl) as Hdev. pose proof (event_lock hw_pci msi e s s' Hl He) as Hev.
  destruct e as [| | | | | h intr | until now res | k | b | |];
    try (by apply Hdev); try (by apply Hev); cbn [take] in E; unfold enabled in He; bools.
  - by eapply runner_lock.
  - eapply thread_lock; [done | done | | done]. by destruct (midway _).
Qed.

Lemma srun_inv es : forall s, linv s -> dinv s -> exists s', srun hw_pci msi false es s = Done s' /\ linv s' /\ dinv s'.
Proof.
  induction es as [| e es IH]; intros s Hl Hd; [by eauto |]. cbn [srun].
  destruct (sstep_inv e s Hl Hd) as (s' & -> & Hl' & Hd'). rewrite Done_bind. by apply IH.
Qed.

Lemma sel4_init_inv camkes h : exists s, init_rumprun camkes h = Done s /\ linv s /\ dinv s.
Proof.
  destruct camkes; eexists; (split; [reflexivity |]); (split; [split; try done; cbn; lock_done |]); split; try done; cbn.
  - split; [lia |]. split; [done |]. intros b h' hs Hb Hx. by apply (lookup_replicate 33 []) in Hx as [? _].
  - intros []; (split; [done |]); intros b Hb Hx; by rewrite Z.bits_0 in Hx.
  - by intros ty b h' Hx%elem_of_nil.
  - by intros [] ty b l2 h' Hx.
  - intros _ _. split; [done |]. intros b Hb Hx. by rewrite Z.bits_0 in Hx.
  - split; [lia |]. split; [done |]. intros b h' hs Hb Hx. by apply (lookup_replicate 33 []) in Hx as [? _].
  - intros []; (split; [done |]); intros b Hb Hx; by rewrite Z.bits_0 in Hx.
  - intros ty b h' Hx%list_elem_of_singleton. injection Hx as -> -> ->. split; [done |]. exists [h]. split; [done | by left].
  - intros l1 ty b l2 h' Hx. destruct l1 as [| e [| ]]; done.
  - intros _ _. split; [done |]. intros b Hb Hx. by rewrite Z.bits_0 in Hx.
Qed.
End data.

(** ** Theorems *)

(** C36. On one core, and as long as the two interrupt threads do not preempt
    each other, the semaphore, the depth and the flag do the work of disabling
    interrupts: whatever happens, no check fails; while the rump kernel has
    interrupts disabled, neither interrupt thread is at the interrupt words or
    the run queue, nor are both of them at the same time; the flag is set
    exactly while one of them is, up to its reset; and the runner never waits
    for the semaphore when no interrupt thread is ready to give it back. *)
Theorem sel4_intr_safe hw_pci msi camkes stdio_handler es :
  exists s, (s ← init_rumprun camkes stdio_handler; srun hw_pci msi false es s) = Done s /\
    (0 < spldepth (env s) -> ihold (pci_thread s) = false /\ ihold (stdio_thread s) = false) /\
    (ihold (pci_thread s) && ihold (stdio_thread s) = false) /\
    mask_the_mask (env s) = masking (pci_thread s) || masking (stdio_thread s) /\
    (micro s = MSemWait -> ready Pci s = false -> ready Stdio s = false -> spl_semaphore (env s) = true).
Proof.
  destruct (sel4_init_inv hw_pci msi camkes stdio_handler) as (s0 & -> & Hl0 & Hd0). rewrite Done_bind.
  destruct (srun_inv hw_pci msi es s0 Hl0 Hd0) as (s & E & Hl & _). exists s. split; [exact E |].
  pose proof (l_count s Hl) as Hc. split; [| split; [| split]].
  - intros H. rewrite (rhold_true s (or_introl H)) in Hc. unfold Z.b2z in Hc.
    by destruct (spl_semaphore (env s)), (ihold (pci_thread s)), (ihold (stdio_thread s)).
  - unfold Z.b2z in Hc. by destruct (spl_semaphore (env s)), (rhold s), (ihold (pci_thread s)), (ihold (stdio_thread s)).
  - apply Hl.
  - intros Hm R1 R2. destruct (run_quiet s Hl R1 R2) as (_ & _ & _ & ->). rewrite rhold_false; [done | | by right].
    destruct (l_depth s Hl) as [_ [? | ?]]; congruence.
Qed.

Lemma sel4_intr_safe_witness :
  exists s, (s ← init_rumprun false (7, 0); srun true false false [ERegister (100, 1) 5; EHigh; ERunner; ERunner; EIrq 5; EThread Pci] s) = Done s /\
    0 < spldepth (env s) /\ pci_thread s = IEnter 32 0 /\ ihold (pci_thread s) = false.
Proof.
  destruct (sel4_intr_safe true false false (7, 0) [ERegister (100, 1) 5; EHigh; ERunner; ERunner; EIrq 5; EThread Pci]) as (s & E & Hx & _).
  exists s. split; [exact E |]. assert (0 < spldepth (env s) /\ pci_thread s = IEnter 32 0) as [Hp Ht].
  { vm_compute in E. injection E as <-. done. }
  split; [exact Hp |]. split; [exact Ht |]. exact (proj1 (Hx Hp)).
Defined.

(** Nothing is left to do: no notification is pending, the interrupt threads
    wait for one, and [doisr] waits for them to wake it. *)
Definition quiescent (s : sel4_state) : Prop :=
  pci_notification s = 0 /\ stdio_ep s = false /\ ready Pci s = false /\ ready Stdio s = false /\
  spl_semaphore (env s) = true /\ asleep (isr_thread s) = true.

Lemma quiescent_empty s : linv s -> quiescent s -> curd (isr_thread s) = None /\ forall ty, allw ty s = 0.
Proof.
  intros Hl (N1 & N2 & R1 & R2 & Hs & Ha). destruct (run_quiet s Hl R1 R2) as (Q1 & Q2 & _).
  destruct (quiet_sleep s Hl Q1 Q2 Ha) as [T1 T2]. unfold ready in R1, R2. cbn [thr] in *. rewrite Hs in R1, R2.
  assert (curd (isr_thread s) = None /\ forall ty, runc ty (isr_thread s) = 0) as [Hc Hr] by (by destruct (isr_thread s)).
  assert (forall ty, word ty (pci_thread s) = 0 /\ word ty (stdio_thread s) = 0) as Hw
    by (destruct (pci_thread s), (stdio_thread s); done).
  split; [done |]. intros ty. destruct (Hw ty) as [W1 W2]. unfold allw, waiting. rewrite W1, W2, Hr.
  destruct ty; cbn; by rewrite ?N1, ?N2, ?T1, ?T2.
Qed.

(** C37. No interrupt of the seL4 platform is lost, under the same conditions.
    When nothing is left to do, each handler that was registered before an
    interrupt was raised has been called after it was raised, and with
    acknowledgements every interrupt line is open again.  And the CPU does not
    wait in vain: if the runner waits for the timer without a signal to wake
    it, and the interrupt threads wait for interrupts, then nothing is left to
    do. *)
Theorem sel4_intr_delivered hw_pci msi camkes stdio_handler es s :
  (s ← init_rumprun camkes stdio_handler; srun hw_pci msi false es s) = Done s ->
  (quiescent s ->
     (forall l1 ty b l2 h, slogged s = l1 ++ SRaised ty b :: l2 -> SRegistered ty b h ∈ l1 -> SCalled h ∈ l2) /\
     (hw_pci = true -> msi = false -> irq_masked s = 0)) /\
  (runner s = PWait -> micro s = MNone -> timer_ntfn (env s) = false -> ready Pci s = false -> ready Stdio s = false ->
   pci_notification s = 0 -> stdio_ep s = false -> quiescent s).
Proof.
  destruct (sel4_init_inv hw_pci msi camkes stdio_handler) as (s0 & -> & Hl0 & Hd0). rewrite Done_bind. intros E.
  destruct (srun_inv hw_pci msi es s0 Hl0 Hd0) as (s' & E' & Hl & Hd). rewrite E in E'. injection E' as <-. split.
  - intros Hq. destruct (quiescent_empty s Hl Hq) as [Hc Hw]. split.
    + intros l1 ty b l2 h El Hr. destruct (d_delivered _ _ s Hd l1 ty b l2 h El Hr) as [? | [Hx | (b' & hs & Hx & _)]]; [done | |].
      * by rewrite Hw, Z.bits_0 in Hx.
      * by rewrite Hc in Hx.
    + intros Hh Hm. destruct (d_masked _ _ s Hd Hh Hm) as [Hm0 Hmb]. apply bits_zero; [done |]. intros b Hb.
      destruct (Z.testbit (irq_masked s) b) eqn:Hx; [| done]. destruct (Hmb b Hb Hx) as [Hy | (hs & Hy)];
        [by rewrite Hw, Z.bits_0 in Hy | by rewrite Hc in Hy].
  - intros Hp Hm Ht R1 R2 N1 N2. destruct (run_quiet s Hl R1 R2) as (_ & _ & _ & Hsem). pose proof (l_prog s Hl) as Hpo.
    rewrite Hp in Hpo. destruct Hpo as (_ & _ & Hz). do 4 (split; [done |]). split.
    + rewrite Hsem, rhold_false; [done | done | by left].
    + destruct (l_timer s Hl Hp) as [[? _] | ?]; [done | congruence].
Qed.

(** Interrupt 5 arrives while the CPU is blocked. *)
Definition sel4_demo : list sevent :=
  [ERegister (100, 1) 5; ESwitch] ++ replicate 30 ERunner ++ [EHigh; ERunner; ERunner; ECpuBlock 10 0 0; ERunner; ERunner; ERunner; EIrq 5]
  ++ replicate 9 (EThread Pci) ++ replicate 5 ERunner ++ [ELow; ERunner; ESwitch] ++ replicate 40 ERunner.

Lemma sel4_intr_delivered_witness :
  exists s, (s ← init_rumprun false (7, 0); srun true false false sel4_demo s) = Done s /\ irq_masked s = 0 /\ SCalled (100, 1) ∈ slogged s.
Proof.
  destruct (s ← init_rumprun false (7, 0); srun true false false sel4_demo s) as [s | w | w] eqn:E;
    [| vm_compute in E; discriminate | vm_compute in E; discriminate].
  exists s. split; [done |]. destruct (sel4_intr_delivered true false false (7, 0) sel4_demo s E) as [H1 _].
  assert (quiescent s) as Hq by (vm_compute in E; injection E as <-; repeat split).
  destruct (H1 Hq) as [_ H3]. split; [by apply H3 |]. vm_compute in E. injection E as <-. cbn. set_solver.
Defined.

(** ** The flag is reset too late *)

(** If an interrupt thread is preempted by the other one between the release
    of the semaphore and the reset of [mask_the_mask], the reset hits the
    other one in the middle of its interrupt, and that one goes on to wait for
    the semaphore that it holds. *)
Definition race : list sevent :=
  [ERegister (100, 1) 5; EIrq 5; EChar] ++ replicate 8 (EThread Pci) ++ replicate 4 (EThread Stdio) ++ [EThread Pci] ++ replicate 3 (EThread Stdio).

Definition dead (s : sel4_state) : Prop :=
  spl_semaphore (env s) = false /\ spldepth (env s) = 0 /\ mask_the_mask (env s) = false /\ stdio_thread s = ISplWait /\
  match pci_thread s with IWait | IEnter _ _ => True | _ => False end /\
  match runner s, micro s, isr_thread s with
  | POther, (MNone | MSemWait), DStart | PIsr, MNone, DStart | PIsr, MSemWait, DRead => True
  | _, _, _ => False
  end.

Lemma dead_step e s s' : dead s -> sstep true false true e s = Done s' -> dead s'.
Proof.
  intros (D1 & D2 & D3 & D4 & D5 & D6) E. unfold sstep in E. destruct (enabled true false true e s) eqn:He; [| by injection E as <-].
  assert (Hst : ready Stdio s = false) by (unfold ready; cbn; by rewrite D4).
  destruct e as [| | | | | h intr | until now res | k | b | |]; cbn [take] in E; unfold enabled in He; bools; try lia.
  - unfold runner_step, doisr, bmk_platform_splhigh in E. rewrite D1 in E.
    destruct (runner s) eqn:Er, (micro s) eqn:Em, (isr_thread s) eqn:Ed; try done; cbn in E; rewrite ?D2, ?D3 in E; cbn in E; injection E as <-;
      repeat split; cbn; rewrite ?Er, ?Em, ?Ed; done.
  - injection E as <-. repeat split; try done. cbn. by destruct (runner s), (micro s), (isr_thread s).
  - injection E as <-. repeat split; try done. cbn. by destruct (runner s), (micro s), (isr_thread s).
  - injection E as <-. unfold bmk_platform_splhigh. rewrite D2, D3. repeat split; try done. cbn. by destruct (runner s), (micro s), (isr_thread s).
  - unfold bmk_isr_rumpkernel in E. cbn [negb] in E. destruct (_ || _); outcome_inv. repeat split; done.
  - destruct k; [| congruence]. unfold irq_step, ready in *. cbn [thr] in *. destruct (pci_thread s) eqn:Ep; try done.
    + destruct (pci_notification s =? 0); injection E as <-; repeat split; cbn; rewrite ?Ep; done.
    + by rewrite D1 in *.
  - injection E as <-. repeat split; done.
  - injection E as <-. repeat split; done.
  - injection E as <-. repeat split; done.
Qed.

(** The time slice of the first thread ends after it has released the
    semaphore: from then on the rump kernel gets no interrupt any more, and
    cannot disable interrupts, either. *)
Theorem mask_race_deadlocks :
  exists s, (s ← init_rumprun false (7, 0); srun true false true race s) = Done s /\
    isr_todo s = 32 /\ forall es s', srun true false true es s = Done s' -> stdio_thread s' = ISplWait /\ spl_semaphore (env s') = false.
Proof.
  destruct (s ← init_rumprun false (7, 0); srun true false true race s) as [s | w | w] eqn:E; [| vm_compute in E; discriminate..].
  assert (dead s /\ isr_todo s = 32) as [Hd Ht] by (vm_compute in E; injection E as <-; repeat split). clear E.
  exists s. split; [done |]. split; [done |]. intros es. clear Ht. revert s Hd. induction es as [| e es IH]; intros s Hd s' E; cbn in E.
  - injection E as <-. split; apply Hd.
  - outcome_inv. eapply IH; [| done]. by eapply dead_step.
Qed.
