(* ===== verification/Config.v ===== *)
(** * Configuration (lib/librumprun_base/config.c)

    The command line holds a JSON text that says what to run, and how to set
    up the environment, the network and the file systems.  The text is
    tokenized, and the tokens are walked; strings are used in place, with a NUL
    stored after them.

    Calls to the rump kernel and to libc that have an effect outside are
    recorded in [cf_calls] with their strings; what they answer comes from
    [cf_replies], 0 (success) when the list is used up, else an error number.
    [errx] and [err] end the program: [Halt].  String functions of libc are
    written out.  Pointers to characters point into the text or to a string of
    their own on the heap. *)

From S2P Require Import Prelude Mem Jsmn Parseargs.

Definition RUMPRUN_EXEC_BACKGROUND : Z := 1.
Definition RUMPRUN_EXEC_PIPE : Z := 2.
Definition RUMPRUN_EXEC_CMDLINE : Z := 4.
Definition ENOENT : Z := 2.
Definition EEXIST : Z := 17.

Record rumprun_exec := Exec { rre_flags : Z; rre_argc : Z; rre_argv : list Z }.

Inductive kcall :=
  | KMalloc
  | KPutenv (s : list Z)
  | KSethostname (s : list Z) (len : Z)
  | KDhcp4 (ifname : list Z)
  | KIfaddr4 (ifname addr : list Z) (mask : Z)
  | KGw4 (gw : list Z)
  | KAuto6 (ifname : list Z)
  | KIfaddr6 (ifname addr : list Z) (mask : Z)
  | KGw6 (gw : list Z)
  | KIfcreate (ifname : list Z)
  | KStat (path : list Z)
  | KOpen (path : list Z)
  | KMknod (path : list Z)
  | KVndset (file : list Z)
  | KEtfsRegister (key hostpath : list Z)
  | KMount (fstype mp : list Z) (dev : list Z)
  | KMkdir (path : list Z)
  | KChdir (path : list Z)
  | KRead.

Record config := Config {
  cf_mem : mem;
  cf_execs : list rumprun_exec;
  cf_calls : list kcall;
  cf_replies : list Z;
  cf_nextvnd : Z }.

Definition set_mem (m : mem) (s : config) : config :=
  Config m (cf_execs s) (cf_calls s) (cf_replies s) (cf_nextvnd s).
Definition add_exec (e : rumprun_exec) (s : config) : config :=
  Config (cf_mem s) (cf_execs s ++ [e]) (cf_calls s) (cf_replies s) (cf_nextvnd s).

(** A call, its answer, and the rest of the answers. *)
Definition ask (k : kcall) (s : config) : Z * config :=
  (hd 0 (cf_replies s), Config (cf_mem s) (cf_execs s) (cf_calls s ++ [k]) (tl (cf_replies s)) (cf_nextvnd s)).
(** A call whose failure ends the program. *)
Definition must (k : kcall) (s : config) : outcome config :=
  let '(r, s) := ask k s in if r =? 0 then Done s else Halt "err".

Definition errx {A} (why : string) : outcome A := Halt why.
Definition check (b : bool) (why : string) : outcome () := if b then Done () else errx why.

(** ** Strings *)
Fixpoint cstring_at (fuel : nat) (m : mem) (p : Z) : outcome (list Z) :=
  match fuel with
  | O => Undef "string: out of fuel"
  | S fuel => c ← load8 m p; if c =? 0 then Done [] else s ← cstring_at fuel m (p + 1); Done (c :: s)
  end.
Definition read_str (s : config) (p : Z) : outcome (list Z) := cstring_at (S (size (cf_mem s))) (cf_mem s) p.

Inductive charp := Text (p : Z) | Heap (str : list Z).
Definition str_of (s : config) (p : charp) : outcome (list Z) :=
  match p with Text p => read_str s p | Heap str => Done str end.

(** [strncmp(p, str, n) == 0] for a string constant. *)
Fixpoint strneq (n : nat) (m : mem) (p : Z) (str : list Z) : outcome bool :=
  match n with
  | O => Done true
  | S n =>
      c ← load8 m p;
      if negb (c =? hd 0 str) then Done false
      else if c =? 0 then Done true
      else strneq n m (p + 1) (tl str)
  end.

Definition atoi (s : list Z) : Z :=
  let fix digits acc s := match s with
    | c :: s => if (48 <=? c) && (c <=? 57) then digits (10 * acc + (c - 48)) s else acc
    | [] => acc end in
  let fix skip s := match s with
    | c :: s' => if (c =? 32) || ((9 <=? c) && (c <=? 13)) then skip s' else s
    | [] => [] end in
  match skip s with
  | 45 :: s => - digits 0 s
  | 43 :: s => digits 0 s
  | s => digits 0 s
  end.

(** ** Tokens *)
Definition T_SIZE (t : jsmntok) : Z := t_end t - t_start t.
Definition T_STR (t : jsmntok) (d : Z) : Z := t_start t + d.
Definition T_STREQ (s : config) (t : jsmntok) (d : Z) (str : string) : outcome bool :=
  if T_SIZE t <? 0 then Undef "T_SIZE" else strneq (Z.to_nat (T_SIZE t)) (cf_mem s) (T_STR t d) (bytes_of str).
Definition T_CHECKTYPE (t : jsmntok) (exp : jsmntype) : outcome () :=
  check (bool_decide (t_type t = exp)) "unexpected type for token".
Definition T_CHECKSIZE (t : jsmntok) (exp : Z) : outcome () :=
  check (t_size t =? exp) "unexpected size for token".

Definition token2cstr (t : jsmntok) (d : Z) (s : config) : outcome (Z * config) :=
  m ← store8 (cf_mem s) (T_STR t d + T_SIZE t) 0;
  Done (T_STR t d, set_mem m s).

(** ** Programs to run *)
Definition makeargv (argvstr : Z) (s : config) : outcome config :=
  '(nargs, _, m) ← rumprun_parseargs (cf_mem s) argvstr None;
  s ← must KMalloc (set_mem m s);
  '(nargs, argv, m) ← rumprun_parseargs (cf_mem s) argvstr (Some (replicate (Z.to_nat (nargs + 1)) 0));
  let argv := <[Z.to_nat nargs := 0]> (default [] argv) in
  Done (add_exec (Exec RUMPRUN_EXEC_CMDLINE nargs argv) (set_mem m s)).

(** A handler gets the tokens, the index of the value, the number of tokens
    from there on and the text; it returns how many it has used. *)
Definition handle_cmdline (toks : list jsmntok) (i left d : Z) (s : config) : outcome (Z * config) :=
  t ← tok_at toks i;
  _ ← T_CHECKTYPE t JSMN_STRING;
  '(p, s) ← token2cstr t d s;
  s ← makeargv p s;
  Done (1, s).

(** The entries of an object of [addbin]: the tokens found and the size. *)
Record rcentry := RcEntry { t_bin : option Z; t_argv : option Z; t_runmode : option Z; binsize : Z }.
Fixpoint addbin_keys (n : nat) (toks : list jsmntok) (i d : Z) (r : rcentry) (s : config) : outcome rcentry :=
  match n with
  | O => Done r
  | S n =>
      key ← tok_at toks i;
      _ ← T_CHECKTYPE key JSMN_STRING;
      isbin ← T_STREQ s key d "bin";
      if (isbin : bool) then
        _ ← T_CHECKSIZE key 1; value ← tok_at toks (i + 1);
        _ ← T_CHECKTYPE value JSMN_STRING; _ ← T_CHECKSIZE value 0;
        addbin_keys n toks (i + 2) d (RcEntry (Some (i + 1)) (t_argv r) (t_runmode r) (binsize r + 2)) s
      else
        isargv ← T_STREQ s key d "argv";
        if (isargv : bool) then
          value ← tok_at toks (i + 1); _ ← T_CHECKTYPE value JSMN_ARRAY;
          addbin_keys n toks (i + (2 + t_size value)) d
            (RcEntry (t_bin r) (Some (i + 1)) (t_runmode r) (binsize r + (2 + t_size value))) s
        else
          isrun ← T_STREQ s key d "runmode";
          if (isrun : bool) then
            _ ← T_CHECKSIZE key 1; value ← tok_at toks (i + 1);
            _ ← T_CHECKTYPE value JSMN_STRING; _ ← T_CHECKSIZE value 0;
            addbin_keys n toks (i + 2) d (RcEntry (t_bin r) (t_argv r) (Some (i + 1)) (binsize r + 2)) s
          else errx "unexpected key"
  end.

Definition runmode_flags (toks : list jsmntok) (d : Z) (r : rcentry) (s : config) : outcome Z :=
  match t_runmode r with
  | None => Done 0
  | Some i =>
      t ← tok_at toks i;
      if T_SIZE t =? 1 then
        c ← load8 (cf_mem s) (T_STR t d);
        if c =? 38 then Done RUMPRUN_EXEC_BACKGROUND
        else if c =? 124 then Done RUMPRUN_EXEC_PIPE
        else errx "invalid runmode"
      else errx "invalid runmode"
  end.

(** The strings of the [argv] array. *)
Fixpoint addbin_argv (n : nat) (toks : list jsmntok) (i d : Z) (s : config) : outcome (list Z * config) :=
  match n with
  | O => Done ([], s)
  | S n =>
      t ← tok_at toks i;
      _ ← T_CHECKTYPE t JSMN_STRING;
      '(p, s) ← token2cstr t d s;
      '(argv, s) ← addbin_argv n toks (i + 1) d s;
      Done (p :: argv, s)
  end.

Definition addbin (toks : list jsmntok) (i d : Z) (s : config) : outcome (Z * config) :=
  t ← tok_at toks i;
  _ ← T_CHECKTYPE t JSMN_OBJECT;
  r ← addbin_keys (Z.to_nat (t_size t)) toks (i + 1) d (RcEntry None None None 1) s;
  match t_bin r with
  | None => errx "missing bin for rc entry"
  | Some b =>
      bt ← tok_at toks b;
      '(binname, s) ← token2cstr bt d s;
      flags ← runmode_flags toks d r s;
      match t_argv r with
      | None => Undef "t_argv->size"
      | Some a =>
          at_ ← tok_at toks a;
          s ← must KMalloc s;
          '(argv, s) ← addbin_argv (Z.to_nat (t_size at_)) toks (a + 1) d s;
          Done (binsize r, add_exec (Exec flags (1 + t_size at_) (binname :: argv ++ [0])) s)
      end
  end.

Fixpoint rc_loop (rem : nat) (toks : list jsmntok) (i d totsize : Z) (s : config) : outcome (Z * config) :=
  match rem with
  | O => Done (totsize, s)
  | S rem =>
      '(onesize, s) ← addbin toks i d s;
      rc_loop rem toks (i + onesize) d (totsize + onesize) s
  end.
Definition handle_rc (toks : list jsmntok) (i left d : Z) (s : config) : outcome (Z * config) :=
  t ← tok_at toks i;
  _ ← T_CHECKTYPE t JSMN_ARRAY;
  rc_loop (Z.to_nat (t_size t)) toks (i + 1) d 1 s.

(** ** Environment and host name *)
Definition handle_env (toks : list jsmntok) (i left d : Z) (s : config) : outcome (Z * config) :=
  t ← tok_at toks i;
  _ ← T_CHECKTYPE t JSMN_STRING;
  '(p, s) ← token2cstr t d s;
  str ← read_str s p;
  s ← must (KPutenv str) s;
  Done (1, s).

Definition handle_hostname (toks : list jsmntok) (i left d : Z) (s : config) : outcome (Z * config) :=
  t ← tok_at toks i;
  _ ← T_CHECKTYPE t JSMN_STRING;
  '(p, s) ← token2cstr t d s;
  str ← read_str s p;
  s ← must (KSethostname str (T_SIZE t)) s;
  Done (1, s).

(** ** The network *)
Definition is_str (s : list Z) (str : string) : bool := bool_decide (s = bytes_of str).

Definition config_ipv4 (ifname method : list Z) (addr mask gw : option (list Z)) (s : config) : outcome config :=
  if is_str method "dhcp" then must (KDhcp4 ifname) s
  else if negb (is_str method "static") then errx "method static or dhcp expected"
  else
    match addr, mask with
    | Some addr, Some mask =>
        s ← must (KIfaddr4 ifname addr (atoi mask)) s;
        match gw with Some gw => must (KGw4 gw) s | None => Done s end
    | _, _ => errx "static net cfg missing addr or mask"
    end.

Definition config_ipv6 (ifname method : list Z) (addr mask gw : option (list Z)) (s : config) : outcome config :=
  if is_str method "auto" then must (KAuto6 ifname) s
  else if negb (is_str method "static") then errx "method static or dhcp expected"
  else
    match addr, mask with
    | Some addr, Some mask =>
        s ← must (KIfaddr6 ifname addr (atoi mask)) s;
        match gw with Some gw => must (KGw6 gw) s | None => Done s end
    | _, _ => errx "static net cfg missing addr or mask"
    end.

(** The pairs of an object: the index of the key's name among [names] and the
    address of the value, in the order of the text.  [T_STREQ] is tried on the
    names in turn. *)
Fixpoint find_key (s : config) (key : jsmntok) (d : Z) (names : list string) (k : nat) : outcome nat :=
  match names with
  | [] => errx "unexpected key"
  | name :: names =>
      eq ← T_STREQ s key d name;
      if (eq : bool) then Done k else find_key s key d names (S k)
  end.
Fixpoint object_pairs (n : nat) (names : list string) (toks : list jsmntok) (i d : Z) (s : config)
    : outcome (list (nat * Z) * config) :=
  match n with
  | O => Done ([], s)
  | S n =>
      key ← tok_at toks i;
      value ← tok_at toks (i + 1);
      _ ← T_CHECKTYPE key JSMN_STRING; _ ← T_CHECKSIZE key 1;
      _ ← T_CHECKTYPE value JSMN_STRING; _ ← T_CHECKSIZE value 0;
      '(valuestr, s) ← token2cstr value d s;
      k ← find_key s key d names 0;
      '(pairs, s) ← object_pairs n names toks (i + 2) d s;
      Done ((k, valuestr) :: pairs, s)
  end.
(** The variable set by the last pair with key number [k], NULL if none. *)
Definition last_value (k : nat) (pairs : list (nat * Z)) : option Z :=
  last (map snd (filter (fun p => p.1 = k) pairs)).
Definition opt_str (s : config) (p : option Z) : outcome (option (list Z)) :=
  match p with None => Done None | Some p => str ← read_str s p; Done (Some str) end.

Definition net_names : list string := ["if"; "cloner"; "type"; "method"; "addr"; "mask"; "gw"]%string.

Definition handle_net (toks : list jsmntok) (i left d : Z) (s : config) : outcome (Z * config) :=
  t ← tok_at toks i;
  _ ← T_CHECKTYPE t JSMN_OBJECT;
  let objsize := t_size t in
  if left <? 2 * objsize + 1 then Done (-1, s)
  else
    '(pairs, s) ← object_pairs (Z.to_nat objsize) net_names toks (i + 1) d s;
    ifname ← opt_str s (last_value 0 pairs);
    type ← opt_str s (last_value 2 pairs);
    method ← opt_str s (last_value 3 pairs);
    addr ← opt_str s (last_value 4 pairs);
    mask ← opt_str s (last_value 5 pairs);
    gw ← opt_str s (last_value 6 pairs);
    match ifname, type, method with
    | Some ifname, Some type, Some method =>
        s ← match last_value 1 pairs with Some _ => must (KIfcreate ifname) s | None => Done s end;
        s ← (if is_str type "inet" then config_ipv4 ifname method addr mask gw s
             else if is_str type "inet6" then config_ipv6 ifname method addr mask gw s
             else errx "network type not supported");
        Done (2 * objsize + 1, s)
    | _, _, _ => errx "net cfg missing vital data, not configuring"
    end.

(** ** Block devices *)

(** Decimal digits, for [%d]; [unit] is not negative here. *)
Fixpoint decimal (fuel : nat) (n : Z) : list Z :=
  match fuel with
  | O => []
  | S fuel => (if 10 <=? n then decimal fuel (n / 10) else []) ++ [n mod 10 + 48]
  end.
(** [snprintf] into an array of 32 characters. *)
Definition snprintf32 (s : list Z) : list Z := take 31 s.
Definition RAW_PART : Z := 3.

Definition makevnddev (israw : bool) (unit part : Z) : list Z :=
  snprintf32 (bytes_of "/dev/" ++ (if israw then bytes_of "r" else []) ++ bytes_of "vnd" ++ decimal 10 unit ++ [97 + part]).
Definition getvndmajor (israw : bool) (s : config) : outcome config := must (KStat (makevnddev israw 0 RAW_PART)) s.

Definition configvnd (path : list Z) (s : config) : outcome (list Z * config) :=
  let bbuf := makevnddev false (cf_nextvnd s) RAW_PART in
  let rbuf := makevnddev true (cf_nextvnd s) RAW_PART in
  let '(fd, s) := ask (KOpen rbuf) s in
  s ← (if fd =? 0 then Done s
       else if fd =? ENOENT then
         s ← getvndmajor false s;
         s ← getvndmajor true s;
         s ← must (KMknod bbuf) s;
         s ← must (KMknod rbuf) s;
         must (KOpen rbuf) s
       else errx "cannot open");
  s ← must (KVndset path) s;
  Done (bbuf, Config (cf_mem s) (cf_execs s) (cf_calls s) (cf_replies s) (cf_nextvnd s + 1)).

(** [None] when registration fails and [hard] is not set. *)
Definition configetfs (path : list Z) (hard : bool) (s : config) : outcome (option (list Z) * config) :=
  let epath := snprintf32 (bytes_of "XENBLK_" ++ path) in
  let buf := snprintf32 (bytes_of "/dev/" ++ path) in
  let '(rv, s) := ask (KEtfsRegister buf epath) s in
  if negb (rv =? 0) then (if hard then errx "etfs register failed" else Done (None, s))
  else Done (Some buf, s).

Definition mount_blk (dev mp : list Z) (s : config) : bool * config :=
  let '(r, s) := ask (KMount (bytes_of "ffs") mp dev) s in
  if r =? 0 then (true, s)
  else
    let '(r, s) := ask (KMount (bytes_of "ext2fs") mp dev) s in
    if r =? 0 then (true, s)
    else let '(r, s) := ask (KMount (bytes_of "cd9660") mp dev) s in (r =? 0, s).
Definition mount_kernfs (dev mp : list Z) (s : config) : bool * config :=
  let '(r, s) := ask (KMount (bytes_of "kernfs") mp []) s in (r =? 0, s).

(** [strspn(chunk, "/")] and [strcspn(chunk, "/")]: the end of the run of
    slashes, or of the run of other characters. *)
Fixpoint skip_slashes (fuel : nat) (slashes : bool) (m : mem) (p : Z) : outcome Z :=
  match fuel with
  | O => Undef "strspn: out of fuel"
  | S fuel =>
      c ← load8 m p;
      if negb (c =? 0) && Bool.eqb (c =? 47) slashes then skip_slashes fuel slashes m (p + 1) else Done p
  end.

(** The directories of the mount point, from the outermost on. *)
Fixpoint mkdir_loop (fuel : nat) (mp chunk : Z) (s : config) : outcome config :=
  match fuel with
  | O => Undef "mkdir: out of fuel"
  | S fuel =>
      let n := S (size (cf_mem s)) in
      chunk ← skip_slashes n true (cf_mem s) chunk;
      chunk ← skip_slashes n false (cf_mem s) chunk;
      c ← load8 (cf_mem s) chunk;
      m ← store8 (cf_mem s) chunk 0;
      let s := set_mem m s in
      path ← read_str s mp;
      let '(r, s) := ask (KMkdir path) s in
      if negb (r =? 0) && negb (r =? EEXIST) then errx "failed to create mp dir"
      else if c =? 0 then Done s
      else m ← store8 (cf_mem s) chunk 47; mkdir_loop fuel mp chunk (set_mem m s)
  end.

Definition blk_names : list string := ["source"; "path"; "fstype"; "mountpoint"]%string.

Definition handle_blk (toks : list jsmntok) (i left d : Z) (s : config) : outcome (Z * config) :=
  t ← tok_at toks i;
  _ ← T_CHECKTYPE t JSMN_OBJECT;
  let objsize := t_size t in
  if left <? 2 * objsize + 1 then Done (-1, s)
  else
    '(pairs, s) ← object_pairs (Z.to_nat objsize) blk_names toks (i + 1) d s;
    source ← opt_str s (last_value 0 pairs);
    path ← opt_str s (last_value 1 pairs);
    fstype ← opt_str s (last_value 2 pairs);
    match source, path with
    | Some source, Some path =>
        '(path, s) ← (if is_str source "dev" then Done (path, s)
                      else if is_str source "vnd" then configvnd path s
                      else if is_str source "etfs" then
                        '(p, s) ← configetfs path true s; Done (default [] p, s)
                      else errx "unsupported blk source");
        s ← match last_value 3 pairs with
            | None => Done s
            | Some mp =>
                match fstype with
                | None => errx "no fstype for mountpoint"
                | Some fstype =>
                    s ← mkdir_loop (S (size (cf_mem s))) mp mp s;
                    mpstr ← read_str s mp;
                    if is_str fstype "blk" then
                      let '(ok, s) := mount_blk path mpstr s in if ok then Done s else errx "failed to mount"
                    else if is_str fstype "kernfs" then
                      let '(ok, s) := mount_kernfs path mpstr s in if ok then Done s else errx "failed to mount"
                    else errx "unknown fstype"
                end
            end;
        Done (2 * objsize + 1, s)
    | _, _ => errx "blk cfg missing vital data"
    end.

(** ** The walk over the tokens *)
Definition parsers : list (string * (list jsmntok -> Z -> Z -> Z -> config -> outcome (Z * config))) :=
  [("cmdline", handle_cmdline); ("rc_TESTING", handle_rc); ("env", handle_env);
   ("hostname", handle_hostname); ("blk", handle_blk); ("net", handle_net)]%string.

(** The handler for the key at [i], and the tokens used by it. *)
Fixpoint dispatch (ps : list (string * (list jsmntok -> Z -> Z -> Z -> config -> outcome (Z * config))))
    (toks : list jsmntok) (ntok i d : Z) (s : config) : outcome (Z * config) :=
  match ps with
  | [] => errx "no match for key"
  | (name, handler) :: ps =>
      t ← tok_at toks i;
      eq ← T_STREQ s t d name;
      if (eq : bool) then handler toks (i + 1) (ntok - (i + 1)) d s else dispatch ps toks ntok i d s
  end.

Fixpoint config_loop (fuel : nat) (toks : list jsmntok) (ntok i d : Z) (s : config) : outcome config :=
  match fuel with
  | O => Undef "config: out of fuel"
  | S fuel =>
      if i <? ntok then
        t ← tok_at toks i;
        if bool_decide (t_type t = JSMN_OBJECT) then config_loop fuel toks ntok (i + 1) d s
        else
          _ ← T_CHECKTYPE t JSMN_STRING;
          '(used, s) ← dispatch parsers toks ntok i d s;
          config_loop fuel toks ntok (i + 1 + used) d s
      else Done s
  end.

(** The start of the JSON text, [None] if there is none. *)
Fixpoint find_brace (fuel : nat) (m : mem) (p : Z) : outcome (option Z) :=
  match fuel with
  | O => Undef "config: out of fuel"
  | S fuel =>
      c ← load8 m p;
      if c =? 123 then Done (Some p) else if c =? 0 then Done None else find_brace fuel m (p + 1)
  end.

(** ** The configuration file *)
Definition CFGMAXSIZE : Z := 65536.

Definition mount_root (s : config) : outcome config :=
  let '(ok, s) := mount_blk (bytes_of "/dev/ld0a") (bytes_of "/rootfs") s in
  if (ok : bool) then Done s
  else
    let '(ok, s) := mount_blk (bytes_of "/dev/sd0a") (bytes_of "/rootfs") s in
    if (ok : bool) then Done s
    else
      '(dev, s) ← configetfs (bytes_of "sda1") false s;
      match dev with
      | None => errx "failed to mount rootfs from image"
      | Some dev => let '(ok, s) := mount_blk dev (bytes_of "/rootfs") s in if (ok : bool) then Done s else errx "failed to mount /rootfs"
      end.

Fixpoint strip_slashes (s : list Z) : list Z :=
  match s with c :: s' => if c =? 47 then strip_slashes s' else s | [] => [] end.

(** [file] is what the file holds; [heap] where [malloc] finds room for it. *)
Definition getcmdlinefromroot (heap : Z) (file cfgname : list Z) (s : config) : outcome (Z * config) :=
  s ← must (KMkdir (bytes_of "/rootfs")) s;
  s ← mount_root s;
  let cfgname := strip_slashes cfgname in
  s ← must (KChdir (bytes_of "/rootfs")) s;
  s ← must (KOpen cfgname) s;
  s ← must (KStat cfgname) s;
  if CFGMAXSIZE <? Z.of_nat (length file) then errx "unbelievable cfg file size, increase CFGMAXSIZE"
  else
    s ← must KMalloc s;
    s ← must KRead s;
    Done (heap, set_mem (mem_write (cf_mem s) heap (file ++ [0])) s).

(** [strstr]: what follows the first occurrence of [sub]. *)
Fixpoint after_prefix (sub s : list Z) : option (list Z) :=
  match sub, s with
  | [], s => Some s
  | a :: sub, b :: s => if a =? b then after_prefix sub s else None
  | _ :: _, [] => None
  end.
Fixpoint after_sub (sub s : list Z) : option (list Z) :=
  match after_prefix sub s, s with
  | Some r, _ => Some r
  | None, [] => None
  | None, _ :: s => after_sub sub s
  end.
Definition rumprun_config_path (cmdline : list Z) : option (list Z) :=
  after_sub (bytes_of "_RUMPRUN_ROOTFSCFG=") cmdline.

(** ** The whole configuration

    The fuel of the walk is the number of tokens.  [heap] is the address of
    the copy that [strdup] or [getcmdlinefromroot] makes. *)
Definition config_text (d : Z) (s : config) : outcome config :=
  text ← read_str s d;
  let len := Z.of_nat (length text) in
  '(ntok, _, _) ← jsmn_parse jsmn_init text len None 0;
  if ntok <=? 0 then errx "json parse failed 1" else
  s ← must KMalloc s;
  '(ntok, _, toks) ← jsmn_parse jsmn_init text len (Some (replicate (Z.to_nat ntok) (Tok JSMN_PRIMITIVE 0 0 0))) ntok;
  if ntok <? 1 then errx "json parse failed 2" else
  let toks := default [] toks in
  t0 ← tok_at toks 0;
  _ ← T_CHECKTYPE t0 JSMN_OBJECT;
  s ← config_loop (S (Z.to_nat ntok)) toks ntok 0 d s;
  match last (cf_execs s) with
  | None => errx "rumprun_config: no bins"
  | Some rre =>
      if Z.land (rre_flags rre) RUMPRUN_EXEC_PIPE =? 0 then Done s else errx "last bin may not output to pipe"
  end.

Definition rumprun_config (heap : Z) (file : list Z) (cmdline : Z) (s : config) : outcome config :=
  line ← read_str s cmdline;
  '(cmdline, s) ← match rumprun_config_path line with
                  | None => Done (cmdline, s)
                  | Some cfg => getcmdlinefromroot heap file cfg s
                  end;
  start ← find_brace (S (size (cf_mem s))) (cf_mem s) cmdline;
  match start with
  | None => makeargv heap (set_mem (mem_write (cf_mem s) heap (cstring "rumprun")) s)
  | Some d => config_text d s
  end.
