(* ===== verification/ConfigJson.v ===== *)
(** * The tokens of a configuration of strings

    A configuration whose values are strings, written as JSON with any white
    space and with commas between, before and behind the entries, and the
    tokens that both passes of the tokenizer make of it. *)

From S2P Require Import Prelude Mem Jsmn JsmnProps.

Inductive ckey := CCmdline | CEnv | CHostname.
Definition key_name (k : ckey) : list Z :=
  bytes_of (match k with CCmdline => "cmdline" | CEnv => "env" | CHostname => "hostname" end).

(** A string that JSON needs no escapes for. *)
Definition plain (v : list Z) : Prop := Forall (fun b => 0 < b < 256 /\ b <> 34 /\ b <> 92) v.
(** Tabs, line feeds, carriage returns and spaces; and commas as well. *)
Definition white (v : list Z) : Prop := Forall (fun b => b = 9 \/ b = 10 \/ b = 13 \/ b = 32) v.
Definition separators (v : list Z) : Prop := Forall (fun b => b = 44 \/ b = 9 \/ b = 10 \/ b = 13 \/ b = 32) v.

(** An entry: what stands in front of it, the key, white space before and
    behind the colon, and the value. *)
Record entry := Entry { e_gap : list Z; e_key : ckey; e_w1 : list Z; e_w2 : list Z; e_val : list Z }.

Definition item_text (it : entry) : list Z :=
  34 :: key_name (e_key it) ++ 34 :: e_w1 it ++ 58 :: e_w2 it ++ 34 :: e_val it ++ [34].
Definition entry_text (it : entry) : list Z := e_gap it ++ item_text it.
Definition items_text (items : list entry) : list Z := flat_map entry_text items.
(** [g] stands before the closing bracket and [w] behind it. *)
Definition config_json (items : list entry) (g w : list Z) : list Z := 123 :: items_text items ++ g ++ 125 :: w.

Record entry_ok (it : entry) : Prop := {
  en_gap : separators (e_gap it);
  en_w1 : white (e_w1 it);
  en_w2 : white (e_w2 it);
  en_val : plain (e_val it);
}.
(** Every entry but the first has a comma in front of it. *)
Definition entries_ok (items : list entry) : Prop :=
  Forall entry_ok items /\ Forall (fun it => 44 ∈ e_gap it) (tail items).

Abbreviation zlen l := (Z.of_nat (length l)).

(** The tokens of the items, the text of the first of which is at offset [o]. *)
Definition key_off (o : Z) (it : entry) : Z := o + zlen (e_gap it).
Definition key_tok (o : Z) (it : entry) : jsmntok :=
  Tok JSMN_STRING (key_off o it + 1) (key_off o it + 1 + zlen (key_name (e_key it))) 1.
Definition val_start (o : Z) (it : entry) : Z :=
  key_off o it + zlen (key_name (e_key it)) + zlen (e_w1 it) + zlen (e_w2 it) + 4.
Definition val_tok (o : Z) (it : entry) : jsmntok :=
  Tok JSMN_STRING (val_start o it) (val_start o it + zlen (e_val it)) 0.
Definition item_end (o : Z) (it : entry) : Z := o + zlen (entry_text it).
Fixpoint item_toks (o : Z) (items : list entry) : list jsmntok :=
  match items with
  | [] => []
  | it :: items => key_tok o it :: val_tok o it :: item_toks (item_end o it) items
  end.
(** The object ends before [w]. *)
Definition config_toks (items : list entry) (g : list Z) : list jsmntok :=
  Tok JSMN_OBJECT 0 (zlen (items_text items) + zlen g + 2) (zlen items) :: item_toks 1 items.

Ltac zlens := repeat (rewrite length_app || rewrite length_cons); cbn [length]; try lia.

Lemma entry_text_length it : zlen (entry_text it) =
  zlen (e_gap it) + zlen (key_name (e_key it)) + zlen (e_w1 it) + zlen (e_w2 it) + zlen (e_val it) + 5.
Proof. unfold entry_text, item_text. zlens. Qed.

Lemma key_plain k : plain (key_name k).
Proof. apply (bool_decide_unpack _). by destruct k. Qed.

Lemma tok_at_mid l t r n : n = zlen l -> tok_at (l ++ t :: r) n = Done t.
Proof.
  intros ->. unfold tok_at. rewrite (proj2 (Z.ltb_ge _ _)) by lia. by rewrite Nat2Z.id, list_lookup_middle.
Qed.
Lemma tok_put_mid l t r n t' : n = zlen l -> tok_put (l ++ t :: r) n t' = Done (l ++ t' :: r).
Proof.
  intros E. unfold tok_put. rewrite tok_at_mid by done. cbn [mbind outcome_bind]. rewrite E, Nat2Z.id.
  rewrite <- (Nat.add_0_r (length l)), insert_app_r. done.
Qed.

Lemma tok_at_0 t r : tok_at (t :: r) 0 = Done t.
Proof. done. Qed.
Lemma tok_put_0 t r t' : tok_put (t :: r) 0 t' = Done (t' :: r).
Proof. done. Qed.

Definition string_tok (t : jsmntok) : Prop := t_type t = JSMN_STRING /\ t_end t <> -1.

Lemma val_string o it : 0 <= o -> string_tok (key_tok o it) /\ string_tok (val_tok o it).
Proof. intros Ho. unfold string_tok, key_tok, val_tok, val_start, key_off. cbn. split; split; (done || lia). Qed.

(** A token array whose first token is an open object. *)
Abbreviation obj j ts := (Some (Tok JSMN_OBJECT 0 (-1) j :: ts)).

Ltac parser_red := cbv beta iota zeta delta [set_pos set_super pos toknext toksuper].

Section text.
Context (js : list Z) (Hmax : zlen js < 2 ^ 31).

Lemma more_at a c b i :
  js = a ++ c :: b -> i = zlen a -> 0 < c < 256 -> js_more js (zlen js) i = Done (Some (schar c)).
Proof.
  intros E -> Hc. unfold js_more, js_at. rewrite (proj2 (Z.ltb_lt _ _)) by (rewrite E, length_app; cbn; lia).
  rewrite Nat2Z.id, E, list_lookup_middle by done. cbn [of_option mbind outcome_bind].
  rewrite (proj2 (Z.eqb_neq _ _)); [done |]. unfold schar. destruct (Z.ltb_spec c 128); lia.
Qed.

Lemma scan_plain v : forall fuel a b p,
  plain v -> js = a ++ v ++ 34 :: b -> p = zlen a -> (length v < fuel)%nat ->
  str_scan fuel js (zlen js) p = Done (SQuote (p + zlen v)).
Proof.
  induction v as [| c v IH]; intros [| fuel] a b p Hv E -> Hf; cbn [length] in Hf; try lia; cbn [str_scan].
  - rewrite (more_at a 34 b) by done. cbn. by rewrite Z.add_0_r.
  - apply Forall_cons in Hv as [(Hc & H34 & H92) Hv]. rewrite (more_at a c (v ++ 34 :: b)) by done.
    cbn [mbind outcome_bind]. assert (Hs : forall k, 0 <= k < 128 -> c <> k -> (schar c =? k) = false).
    { intros k ? ?. apply Z.eqb_neq. unfold schar. destruct (Z.ltb_spec c 128); lia. }
    rewrite !Hs by (lia || done). cbn [andb].
    assert (Hlen : zlen js = zlen a + 1 + zlen v + 1 + zlen b) by (rewrite E, length_app; cbn; rewrite length_app; cbn; lia).
    rewrite wrap32_small by lia. rewrite (IH fuel (a ++ [c]) b); [do 2 f_equal; cbn [length]; lia | done | | | lia].
    + by rewrite <- app_assoc.
    + rewrite length_app. cbn. lia.
Qed.

(** One string token. *)
Lemma parse_plain fuel a v b n sup ts1 t ts2 num :
  plain v -> js = a ++ 34 :: v ++ 34 :: b -> (length v < fuel)%nat ->
  n = zlen ts1 -> n < num -> num < 2 ^ 31 ->
  jsmn_parse_string fuel (Parser (zlen a) n sup) js (zlen js) (Some (ts1 ++ t :: ts2)) num =
  Done (0, Parser (zlen a + 1 + zlen v) (n + 1) sup,
        Some (ts1 ++ Tok JSMN_STRING (zlen a + 1) (zlen a + 1 + zlen v) 0 :: ts2)).
Proof.
  intros Hv E Hf -> Hn Hnum. unfold jsmn_parse_string. cbn [pos].
  assert (Hlen : zlen js = zlen a + 1 + zlen v + 1 + zlen b) by (rewrite E, length_app; cbn; rewrite length_app; cbn; lia).
  rewrite wrap32_small by lia. rewrite (scan_plain v fuel (a ++ [34]) b); [| done | | |].
  - cbn [mbind outcome_bind]. unfold new_token, jsmn_alloc_token. cbn [set_pos toknext pos toksuper].
    rewrite (proj2 (Z.leb_gt _ _)) by lia.
    rewrite tok_at_mid by done. cbn [mbind outcome_bind].
    rewrite tok_put_mid by done. cbn [mbind outcome_bind]. rewrite tok_put_mid by done. cbn [mbind outcome_bind].
    unfold jsmn_fill_token. rewrite wrap32_small, !s32_small by lia. done.
  - rewrite E, <- app_assoc. done.
  - rewrite length_app. cbn. lia.
  - done.
Qed.

Lemma parse_plain_count fuel a v b num :
  plain v -> js = a ++ 34 :: v ++ 34 :: b -> (length v < fuel)%nat ->
  jsmn_parse_string fuel (Parser (zlen a) 0 (-1)) js (zlen js) None num =
  Done (0, Parser (zlen a + 1 + zlen v) 0 (-1), None).
Proof.
  intros Hv E Hf. unfold jsmn_parse_string. cbn [pos].
  assert (Hlen : zlen js = zlen a + 1 + zlen v + 1 + zlen b) by (rewrite E, length_app; cbn; rewrite length_app; cbn; lia).
  rewrite wrap32_small by lia. rewrite (scan_plain v fuel (a ++ [34]) b); [done | done | | |].
  - rewrite E, <- app_assoc. done.
  - rewrite length_app. cbn. lia.
  - done.
Qed.

(** *** Steps of the main loop

    From the first state the loop comes to the second one, with any fuel that
    is more than what is left of the text. *)
Definition state : Type := jsmn_parser * tokens * Z.
Definition goes (num : Z) (x y : state) : Prop :=
  forall fuel, zlen js - pos x.1.1 + 1 < Z.of_nat fuel ->
  exists fuel', zlen js - pos y.1.1 + 1 < Z.of_nat fuel' /\
    jsmn_loop fuel x.1.1 js (zlen js) x.1.2 num x.2 = jsmn_loop fuel' y.1.1 js (zlen js) y.1.2 num y.2.

Lemma goes_refl num x : goes num x x.
Proof. intros fuel H. by exists fuel. Qed.

Lemma goes_trans num x y z : goes num x y -> goes num y z -> goes num x z.
Proof. intros H1 H2 fuel Hf. destruct (H1 fuel Hf) as (f1 & Hf1 & ->). by apply H2. Qed.

Lemma goes_char num a c b p toks count p' toks' count' :
  js = a ++ c :: b -> 0 < c < 128 -> pos p = zlen a ->
  (forall fuel, zlen js - zlen a < Z.of_nat fuel -> jsmn_char fuel c p js (zlen js) toks num count = Done (JNext p' toks' count')) ->
  zlen a <= pos p' < zlen js -> goes num (p, toks, count) (set_pos (pos p' + 1) p', toks', count').
Proof.
  intros E Hc Hp Hr Hp' [| fuel]; cbn [fst snd set_pos pos]; [lia |]. rewrite Hp. intros Hf. exists fuel. split; [lia |].
  cbn [jsmn_loop]. rewrite (more_at a c b) by (done || lia). cbn [mbind outcome_bind].
  replace (schar c) with c by (unfold schar; by rewrite (proj2 (Z.ltb_lt _ _)) by lia).
  rewrite Hr by lia. cbn [mbind outcome_bind]. by rewrite wrap32_small by lia.
Qed.

Lemma goes_white num l : forall a b n sup toks count, js = a ++ l ++ b -> white l ->
  goes num (Parser (zlen a) n sup, toks, count) (Parser (zlen a + zlen l) n sup, toks, count).
Proof.
  induction l as [| c l IH]; intros a b n sup toks count E Hw.
  { rewrite Z.add_0_r. apply goes_refl. }
  apply Forall_cons in Hw as [Hc Hw]. assert (Hlen : zlen js = zlen a + zlen l + 1 + zlen b) by (rewrite E; zlens).
  eapply goes_trans.
  - eapply (goes_char num a c (l ++ b) _ _ _ (Parser (zlen a) n sup)); [done | lia | done | | parser_red; lia].
    intros fuel _. unfold jsmn_char. by destruct Hc as [-> | [-> | [-> | ->]]].
  - parser_red. replace (zlen a + 1) with (zlen (a ++ [c])) by zlens.
    replace (zlen a + zlen (c :: l)) with (zlen (a ++ [c]) + zlen l) by zlens.
    apply (IH _ b); [by rewrite <- app_assoc | done].
Qed.

(** ** Back to the object *)
Lemma find_back_first f x closed rest :
  f x = true -> Forall (fun t => f t = false) closed ->
  find_back f (S (length closed)) (x :: closed ++ rest) = Done (Some 0%nat).
Proof.
  intros Hx. revert rest. induction closed as [| t closed IH] using rev_ind; intros rest Hc.
  - cbn [find_back length]. change (Z.of_nat 0) with 0. rewrite tok_at_0. cbn [mbind outcome_bind]. by rewrite Hx.
  - apply Forall_app in Hc as [Hc Ht]. assert (Ht' : f t = false) by (by inversion Ht). rewrite length_app, Nat.add_1_r.
    change (find_back f (S (S (length closed))) (x :: (closed ++ [t]) ++ rest)) with
      (t' ← tok_at (x :: (closed ++ [t]) ++ rest) (Z.of_nat (S (length closed)));
       if f t' then Done (Some (S (length closed))) else find_back f (S (length closed)) (x :: (closed ++ [t]) ++ rest)).
    rewrite <- app_assoc. cbn [app]. rewrite app_comm_cons, tok_at_mid by (cbn; lia).
    cbn [mbind outcome_bind]. rewrite Ht'. apply IH. done.
Qed.

Lemma string_not_open t : string_tok t -> is_open t = false.
Proof. intros [_ H]. unfold is_open. rewrite (proj2 (Z.eqb_neq (t_end t) (-1)) H). apply andb_false_r. Qed.
Lemma string_not_container t : string_tok t -> is_container t && is_open t = false.
Proof. intros [H _]. unfold is_container. by rewrite H. Qed.

(** A comma leads back to the object, whatever came before it. *)
Lemma goes_comma num a b n sup j closed rest count :
  js = a ++ 44 :: b -> Forall string_tok closed -> n = zlen closed + 1 -> 0 <= sup < n ->
  goes num (Parser (zlen a) n sup, obj j (closed ++ rest), count) (Parser (zlen a + 1) n 0, obj j (closed ++ rest), count).
Proof.
  intros E Hd -> Hsup. assert (Hlen : zlen js = zlen a + 1 + zlen b) by (rewrite E; zlens).
  eapply (goes_char num a 44 b _ _ _ (Parser (zlen a) (zlen closed + 1) 0)); [done | lia | done | | parser_red; lia].
  intros fuel _. unfold jsmn_char. cbn [Z.eqb Pos.eqb orb]. unfold comma. parser_red.
  destruct (Z.eqb_spec sup 0) as [-> | Hs]; [by rewrite tok_at_0 |].
  destruct (lookup_lt_is_Some_2 closed (Z.to_nat (sup - 1))) as [t Ht]; [lia |].
  assert (tok_at (Tok JSMN_OBJECT 0 (-1) j :: closed ++ rest) sup = Done t) as ->.
  { unfold tok_at. rewrite (proj2 (Z.ltb_ge _ _)) by lia. replace (Z.to_nat sup) with (S (Z.to_nat (sup - 1))) by lia.
    cbn. by rewrite (lookup_app_l_Some _ _ _ _ Ht). }
  pose proof (Forall_lookup_1 _ _ _ _ Hd Ht) as [Hty _]. cbn [mbind outcome_bind]. unfold is_container at 1. rewrite Hty.
  replace (Z.to_nat (zlen closed + 1)) with (S (length closed)) by lia.
  rewrite find_back_first; [done | done |]. eapply Forall_impl; [exact Hd |]. apply string_not_container.
Qed.

Lemma goes_gap num l : forall a b n sup j closed rest count,
  js = a ++ l ++ b -> separators l -> Forall string_tok closed -> n = zlen closed + 1 -> 0 <= sup < n ->
  goes num (Parser (zlen a) n sup, obj j (closed ++ rest), count)
    (Parser (zlen a + zlen l) n (if decide (44 ∈ l) then 0 else sup), obj j (closed ++ rest), count).
Proof.
  induction l as [| c l IH]; intros a b n sup j closed rest count E Hl Hd Hn Hsup.
  { rewrite Z.add_0_r, decide_False by apply not_elem_of_nil. apply goes_refl. }
  apply Forall_cons in Hl as [Hc Hl]. assert (E' : js = (a ++ [c]) ++ l ++ b) by (by rewrite <- app_assoc).
  replace (zlen a + zlen (c :: l)) with (zlen (a ++ [c]) + zlen l) by zlens.
  destruct Hc as [-> | Hc].
  - eapply goes_trans; [by apply (goes_comma num a (l ++ b)) |].
    replace (zlen a + 1) with (zlen (a ++ [44])) by zlens. rewrite (decide_True (P := 44 ∈ 44 :: l)) by (by left).
    pose proof (IH (a ++ [44]) b n 0 j closed rest count E' Hl Hd Hn ltac:(lia)) as H. by destruct (decide (44 ∈ l)).
  - eapply goes_trans; [apply (goes_white num [c] a (l ++ b)); [done | by constructor] |].
    replace (zlen a + zlen [c]) with (zlen (a ++ [c])) by zlens.
    pose proof (IH (a ++ [c]) b n sup j closed rest count E' Hl Hd Hn Hsup) as H.
    destruct (decide (44 ∈ l)); [rewrite decide_True by (by right) | rewrite decide_False]; [done | done |].
    rewrite elem_of_cons. intros [Hx | Hx]; [lia | done].
Qed.

Lemma goes_gap_count num l : forall a b count, js = a ++ l ++ b -> separators l ->
  goes num (Parser (zlen a) 0 (-1), None, count) (Parser (zlen a + zlen l) 0 (-1), None, count).
Proof.
  induction l as [| c l IH]; intros a b count E Hw.
  { rewrite Z.add_0_r. apply goes_refl. }
  apply Forall_cons in Hw as [Hc Hw]. assert (Hlen : zlen js = zlen a + zlen l + 1 + zlen b) by (rewrite E; zlens).
  eapply goes_trans.
  - eapply (goes_char num a c (l ++ b) _ _ _ (Parser (zlen a) 0 (-1))); [done | lia | done | | parser_red; lia].
    intros fuel _. unfold jsmn_char. by destruct Hc as [-> | [-> | [-> | [-> | ->]]]].
  - parser_red. replace (zlen a + 1) with (zlen (a ++ [c])) by zlens.
    replace (zlen a + zlen (c :: l)) with (zlen (a ++ [c]) + zlen l) by zlens.
    apply (IH _ b); [by rewrite <- app_assoc | done].
Qed.

(** ** One entry *)

(** Where the quotes, the colon and the white space of an entry are. *)
Section entry.
Context (a b : list Z) (it : entry) (Hit : entry_ok it) (E : js = a ++ entry_text it ++ b).
Let k := key_name (e_key it).
Let a1 := a ++ e_gap it.
Let a2 := a1 ++ 34 :: k ++ [34].
Let a3 := a2 ++ e_w1 it.
Let a4 := a3 ++ [58].
Let a5 := a4 ++ e_w2 it.

Lemma entry_split :
  js = a ++ e_gap it ++ item_text it ++ b /\
  js = a1 ++ 34 :: k ++ 34 :: e_w1 it ++ 58 :: e_w2 it ++ 34 :: e_val it ++ 34 :: b /\
  js = a2 ++ e_w1 it ++ 58 :: e_w2 it ++ 34 :: e_val it ++ 34 :: b /\
  js = a3 ++ 58 :: e_w2 it ++ 34 :: e_val it ++ 34 :: b /\
  js = a4 ++ e_w2 it ++ 34 :: e_val it ++ 34 :: b /\
  js = a5 ++ 34 :: e_val it ++ 34 :: b.
Proof.
  rewrite E. unfold a5, a4, a3, a2, a1, entry_text, item_text. fold k.
  split_and!; repeat (rewrite <- app_assoc || cbn [app]); done.
Qed.

Lemma entry_lengths :
  zlen js = zlen a + zlen (entry_text it) + zlen b /\ zlen a1 = key_off (zlen a) it /\
  zlen a2 = zlen a1 + zlen k + 2 /\ zlen a3 = zlen a2 + zlen (e_w1 it) /\ zlen a4 = zlen a3 + 1 /\
  zlen a5 = zlen a4 + zlen (e_w2 it).
Proof.
  rewrite E. unfold a5, a4, a3, a2, a1, key_off. split_and!; zlens.
Qed.

Lemma goes_entry num n sup j closed t1 t2 rest count :
  Forall string_tok closed -> n = zlen closed + 1 -> 0 <= sup < n -> sup = 0 \/ 44 ∈ e_gap it -> n + 1 < num -> num < 2 ^ 31 ->
  goes num (Parser (zlen a) n sup, obj j (closed ++ t1 :: t2 :: rest), count)
    (Parser (item_end (zlen a) it) (n + 2) n, obj (j + 1) (closed ++ key_tok (zlen a) it :: val_tok (zlen a) it :: rest), count + 2).
Proof.
  intros Hd -> Hsup Hgap Hn Hnum. destruct Hit as [Hg Hw1 Hw2 Hv]. pose proof (key_plain (e_key it)) as Hk. fold k in Hk.
  destruct entry_split as (E0 & E1 & E2 & E3 & E4 & E5). destruct entry_lengths as (Hlen & L1 & L2 & L3 & L4 & L5).
  pose proof (entry_text_length it) as Hl. fold k in Hl. unfold key_off in L1.
  set (n := zlen closed + 1) in *. set (kt := Tok JSMN_STRING (zlen a1 + 1) (zlen a1 + 1 + zlen k) 0).
  (* the gap *)
  eapply goes_trans; [by apply (goes_gap num (e_gap it) a (item_text it ++ b)) |].
  rewrite <- L1. assert ((if decide (44 ∈ e_gap it) then 0 else sup) = 0) as -> by (destruct (decide _); tauto).
  (* the key *)
  eapply goes_trans.
  { eapply (goes_char num a1 34 _ _ _ _ (Parser (zlen a1 + 1 + zlen k) (n + 1) 0) (obj (j + 1) (closed ++ kt :: t2 :: rest)) (count + 1));
      [exact E1 | lia | done | | parser_red; lia].
    intros fuel Hf. unfold jsmn_char. cbn [Z.eqb Pos.eqb orb]. rewrite app_comm_cons.
    rewrite (parse_plain _ a1 k (e_w1 it ++ 58 :: e_w2 it ++ 34 :: e_val it ++ 34 :: b) n 0 (Tok JSMN_OBJECT 0 (-1) j :: closed)); [| done | exact E1 | lia | cbn; lia | lia | done].
    cbn [mbind outcome_bind value_done Z.ltb Z.compare]. unfold bump_super. cbn [toksuper Z.eqb].
    cbn [app]. rewrite tok_at_0. cbn [mbind outcome_bind]. rewrite tok_put_0. cbn [mbind outcome_bind t_type t_start t_end t_size]. done. }
  parser_red. replace (zlen a1 + 1 + zlen k + 1) with (zlen a2) by lia.
  (* white space, the colon, white space *)
  eapply goes_trans; [by apply (goes_white num (e_w1 it) a2 (58 :: e_w2 it ++ 34 :: e_val it ++ 34 :: b)) |]. rewrite <- L3.
  eapply goes_trans.
  { eapply (goes_char num a3 58 _ _ _ _ (Parser (zlen a3) (n + 1) n)); [exact E3 | lia | done | | parser_red; lia].
    intros fuel _. unfold jsmn_char. cbn [Z.eqb Pos.eqb orb]. unfold set_super. parser_red.
    rewrite s32_small by lia. by replace (n + 1 - 1) with n by lia. }
  parser_red. rewrite <- L4.
  eapply goes_trans; [by apply (goes_white num (e_w2 it) a4 (34 :: e_val it ++ 34 :: b)) |]. rewrite <- L5.
  (* the value *)
  replace (key_tok (zlen a) it) with (Tok JSMN_STRING (t_start kt) (t_end kt) (t_size kt + 1))
    by (unfold key_tok, key_off, kt; fold k; cbn; f_equal; lia).
  replace (val_tok (zlen a) it) with (Tok JSMN_STRING (zlen a5 + 1) (zlen a5 + 1 + zlen (e_val it)) 0)
    by (unfold val_tok, val_start, key_off; fold k; f_equal; lia).
  replace (item_end (zlen a) it) with (zlen a5 + 1 + zlen (e_val it) + 1) by (unfold item_end; lia).
  replace (count + 2) with (count + 1 + 1) by lia. replace (n + 2) with (n + 1 + 1) by lia.
  eapply (goes_char num a5 34 _ _ _ _ (Parser (zlen a5 + 1 + zlen (e_val it)) (n + 1 + 1) n)); [exact E5 | lia | done | | parser_red; lia].
  intros fuel Hf. unfold jsmn_char. cbn [Z.eqb Pos.eqb orb].
  replace (Tok JSMN_OBJECT 0 (-1) (j + 1) :: closed ++ kt :: t2 :: rest)
    with ((Tok JSMN_OBJECT 0 (-1) (j + 1) :: closed ++ [kt]) ++ t2 :: rest) by (cbn; by rewrite <- app_assoc).
  rewrite (parse_plain _ a5 (e_val it) b); [| done | exact E5 | lia | zlens | lia | done].
  cbn [mbind outcome_bind value_done Z.ltb Z.compare]. unfold bump_super. cbn [toksuper].
  rewrite (proj2 (Z.eqb_neq _ _)) by lia.
  match goal with |- context [(?x :: closed ++ [kt]) ++ ?r] =>
    replace ((x :: closed ++ [kt]) ++ r) with ((x :: closed) ++ kt :: r) by (cbn; by rewrite <- app_assoc) end.
  rewrite tok_at_mid by (cbn; lia). cbn [mbind outcome_bind]. rewrite tok_put_mid by (cbn; lia).
  cbn [mbind outcome_bind]. done.
Qed.

Lemma goes_entry_count num count :
  goes num (Parser (zlen a) 0 (-1), None, count) (Parser (item_end (zlen a) it) 0 (-1), None, count + 2).
Proof.
  destruct Hit as [Hg Hw1 Hw2 Hv]. pose proof (key_plain (e_key it)) as Hk. fold k in Hk.
  destruct entry_split as (E0 & E1 & E2 & E3 & E4 & E5). destruct entry_lengths as (Hlen & L1 & L2 & L3 & L4 & L5).
  pose proof (entry_text_length it) as Hl. fold k in Hl. unfold key_off in L1.
  eapply goes_trans; [by apply (goes_gap_count num (e_gap it) a (item_text it ++ b)) |]. rewrite <- L1.
  eapply goes_trans.
  { eapply (goes_char num a1 34 _ _ _ _ (Parser (zlen a1 + 1 + zlen k) 0 (-1)) None (count + 1)); [exact E1 | lia | done | | parser_red; lia].
    intros fuel Hf. unfold jsmn_char. cbn [Z.eqb Pos.eqb orb].
    by rewrite (parse_plain_count _ a1 k (e_w1 it ++ 58 :: e_w2 it ++ 34 :: e_val it ++ 34 :: b)) by (done || lia). }
  parser_red. replace (zlen a1 + 1 + zlen k + 1) with (zlen a2) by lia.
  eapply goes_trans; [by apply (goes_white num (e_w1 it) a2 (58 :: e_w2 it ++ 34 :: e_val it ++ 34 :: b)) |]. rewrite <- L3.
  eapply goes_trans; [by apply (goes_char num a3 58 _ _ _ _ (Parser (zlen a3) 0 (-1)) None (count + 1) E3); [lia | done | done | parser_red; lia] |].
  parser_red. rewrite <- L4.
  eapply goes_trans; [by apply (goes_white num (e_w2 it) a4 (34 :: e_val it ++ 34 :: b)) |]. rewrite <- L5.
  replace (item_end (zlen a) it) with (zlen a5 + 1 + zlen (e_val it) + 1) by (unfold item_end; lia).
  replace (count + 2) with (count + 1 + 1) by lia.
  eapply (goes_char num a5 34 _ _ _ _ (Parser (zlen a5 + 1 + zlen (e_val it)) 0 (-1))); [exact E5 | lia | done | | parser_red; lia].
  intros fuel Hf. unfold jsmn_char. cbn [Z.eqb Pos.eqb orb].
  by rewrite (parse_plain_count _ a5 (e_val it) b) by (done || lia).
Qed.
End entry.

(** ** All entries *)
Lemma goes_items num items : forall a b n sup j closed spare count,
  js = a ++ items_text items ++ b -> Forall entry_ok items -> Forall (fun it => 44 ∈ e_gap it) (if decide (sup = 0) then tail items else items) ->
  Forall string_tok closed -> n = zlen closed + 1 -> 0 <= sup < n -> length spare = (2 * length items)%nat ->
  num = n + zlen spare -> num < 2 ^ 31 ->
  exists sup', 0 <= sup' < num /\
  goes num (Parser (zlen a) n sup, obj j (closed ++ spare), count)
    (Parser (zlen a + zlen (items_text items)) num sup', obj (j + zlen items) (closed ++ item_toks (zlen a) items), count + 2 * zlen items).
Proof.
  induction items as [| it items IH]; intros a b n sup j closed spare count E Hok Hg Hd -> Hsup Hsp -> Hnum.
  { destruct spare; [| done]. cbn [item_toks items_text flat_map length]. rewrite !Z.add_0_r. exists sup. split; [lia |]. apply goes_refl. }
  destruct spare as [| t1 [| t2 spare]]; cbn [length] in Hsp; try lia. apply Forall_cons in Hok as [Hit Hok].
  destruct (val_string (zlen a) it ltac:(lia)) as [Hk Hv].
  change (items_text (it :: items)) with (entry_text it ++ items_text items) in *. rewrite <- app_assoc in E.
  set (kv := [key_tok (zlen a) it; val_tok (zlen a) it]).
  destruct (IH (a ++ entry_text it) b (zlen (closed ++ kv) + 1) (zlen closed + 1) (j + 1) (closed ++ kv) spare (count + 2)) as (sup' & Hs' & Hgo).
  - by rewrite <- app_assoc.
  - done.
  - rewrite decide_False by lia. destruct (decide (sup = 0)); [done |]. by apply Forall_cons in Hg as [_ Hg].
  - apply Forall_app. split; [done |]. unfold kv. by repeat (apply Forall_cons; split).
  - done.
  - unfold kv. zlens.
  - lia.
  - unfold kv. zlens.
  - done.
  - exists sup'. split; [revert Hs'; zlens |]. eapply goes_trans.
    { apply (goes_entry a (items_text items ++ b) it Hit E _ _ sup j closed t1 t2 spare); [done | done | done | | zlens | done].
      destruct (decide (sup = 0)); [by left | right]. by apply Forall_cons in Hg as [Hg _]. }
    revert Hgo. cbn [item_toks]. rewrite <- !app_assoc. cbn [app kv]. intros Hgo.
    replace (zlen closed + 1 + 2) with (zlen (closed ++ kv) + 1) by (unfold kv; zlens).
    replace (item_end (zlen a) it) with (zlen (a ++ entry_text it)) by (unfold item_end; zlens).
    replace (zlen a + zlen (entry_text it ++ items_text items)) with (zlen (a ++ entry_text it) + zlen (items_text items)) by zlens.
    replace (j + zlen (it :: items)) with (j + 1 + zlen items) by zlens.
    replace (count + 2 * zlen (it :: items)) with (count + 2 + 2 * zlen items) by zlens. exact Hgo.
Qed.

Lemma goes_items_count num items : forall a b count,
  js = a ++ items_text items ++ b -> Forall entry_ok items ->
  goes num (Parser (zlen a) 0 (-1), None, count)
    (Parser (zlen a + zlen (items_text items)) 0 (-1), None, count + 2 * zlen items).
Proof.
  induction items as [| it items IH]; intros a b count E Hok.
  { cbn [items_text flat_map length]. rewrite !Z.add_0_r. apply goes_refl. }
  apply Forall_cons in Hok as [Hit Hok]. change (items_text (it :: items)) with (entry_text it ++ items_text items) in *.
  rewrite <- app_assoc in E. eapply goes_trans; [by apply (goes_entry_count a (items_text items ++ b) it Hit E) |].
  replace (item_end (zlen a) it) with (zlen (a ++ entry_text it)) by (unfold item_end; zlens).
  replace (zlen a + zlen (entry_text it ++ items_text items)) with (zlen (a ++ entry_text it) + zlen (items_text items)) by zlens.
  replace (count + 2 * zlen (it :: items)) with (count + 2 + 2 * zlen items) by zlens.
  apply (IH _ b); [by rewrite <- app_assoc | done].
Qed.

(** ** The closing bracket *)
Lemma goes_close num a w n sup j closed count :
  js = a ++ 125 :: w -> Forall string_tok closed -> n = zlen closed + 1 ->
  goes num (Parser (zlen a) n sup, obj j closed, count)
    (Parser (zlen a + 1) n (-1), Some (Tok JSMN_OBJECT 0 (zlen a + 1) j :: closed), count).
Proof.
  intros E Hd ->. assert (Hlen : zlen js = zlen a + 1 + zlen w) by (rewrite E; zlens).
  eapply (goes_char num a 125 w _ _ _ (Parser (zlen a) (zlen closed + 1) (-1))); [done | lia | done | | parser_red; lia].
  intros fuel _. unfold jsmn_char. cbn [Z.eqb Pos.eqb orb]. unfold close_bracket. parser_red.
  replace (Z.to_nat (zlen closed + 1)) with (S (length closed)) by lia.
  assert (Forall (fun t => is_open t = false) closed) as Ho by (eapply Forall_impl; [exact Hd |]; apply string_not_open).
  pose proof (find_back_first is_open (Tok JSMN_OBJECT 0 (-1) j) closed [] eq_refl Ho) as Hfb. rewrite app_nil_r in Hfb. rewrite Hfb.
  cbn [mbind outcome_bind Z.of_nat]. rewrite tok_at_0. cbn [mbind outcome_bind Z.eqb Pos.eqb t_type negb].
    rewrite bool_decide_true by done. cbn [negb]. rewrite tok_put_0. cbn [mbind outcome_bind t_type t_start t_size].
    cbn [find_back]. change (Z.of_nat 0) with 0. rewrite tok_at_0. cbn [mbind outcome_bind].
    unfold is_open. cbn [t_start t_end Z.eqb negb andb]. rewrite s32_small by lia.
    rewrite (proj2 (Z.eqb_neq _ _)) by lia. done.
Qed.

Lemma goes_end num n sup toks count x : goes num x (Parser (zlen js) n sup, toks, count) ->
  forall fuel, zlen js - pos x.1.1 + 1 < Z.of_nat fuel ->
  jsmn_loop fuel x.1.1 js (zlen js) x.1.2 num x.2 = Done (Parser (zlen js) n sup, toks, inr count).
Proof.
  intros H fuel Hf. destruct (H fuel Hf) as ([| f] & Hf' & ->); cbn [fst snd pos] in *; [lia |].
  cbn [jsmn_loop]. unfold js_more. parser_red. by rewrite (proj2 (Z.ltb_ge _ _)) by lia.
Qed.
End text.

(** ** Both passes *)
Lemma items_text_length items g w : zlen (config_json items g w) = zlen (items_text items) + zlen g + zlen w + 2.
Proof. unfold config_json. zlens. Qed.

Section passes.
Context (items : list entry) (g w : list Z) (Hok : entries_ok items) (Hg : separators g) (Hw : white w).
Let js := config_json items g w.
Context (Hmax : zlen js < 2 ^ 31).

Lemma config_split :
  js = [123] ++ items_text items ++ g ++ 125 :: w /\ js = (123 :: items_text items) ++ g ++ 125 :: w /\
  js = (123 :: items_text items ++ g) ++ 125 :: w /\ js = (123 :: items_text items ++ g ++ [125]) ++ w ++ [].
Proof. unfold js, config_json. split_and!; cbn; rewrite ?app_nil_r, <- ?app_assoc; done. Qed.

Lemma config_count :
  exists p, jsmn_parse jsmn_init js (zlen js) None 0 = Done (1 + 2 * zlen items, p, None).
Proof.
  pose proof (items_text_length items g w) as Hl. fold js in Hl. destruct config_split as (E1 & E2 & E3 & E4).
  unfold jsmn_parse. rewrite (goes_end js 0 0 (-1) None (1 + 2 * zlen items) (jsmn_init, None, 0)); [| | cbn; lia].
  { cbn [mbind outcome_bind toknext default find_back Z.to_nat]. eauto. }
  eapply goes_trans; [by apply (goes_char js Hmax 0 [] 123 (items_text items ++ g ++ 125 :: w) _ None 0 (Parser 0 0 (-1)) None 1); [| lia | | | cbn; lia] |].
  eapply goes_trans; [by apply (goes_items_count js Hmax 0 items [123] (g ++ 125 :: w)); [| apply Hok] |].
  replace (zlen [123] + zlen (items_text items)) with (zlen (123 :: items_text items)) by zlens.
  eapply goes_trans; [by apply (goes_gap_count js Hmax 0 g (123 :: items_text items) (125 :: w)) |].
  replace (zlen (123 :: items_text items) + zlen g) with (zlen (123 :: items_text items ++ g)) by zlens.
  eapply goes_trans; [by apply (goes_char js Hmax 0 _ 125 w _ None _ (Parser (zlen (123 :: items_text items ++ g)) 0 (-1)) None (1 + 2 * zlen items) E3);
    [lia | | | revert Hl; cbn [pos]; zlens] |].
  parser_red. replace (zlen (123 :: items_text items ++ g) + 1) with (zlen (123 :: items_text items ++ g ++ [125])) by zlens.
  replace (zlen js) with (zlen (123 :: items_text items ++ g ++ [125]) + zlen w) by (revert Hl; zlens).
  by apply (goes_white js Hmax 0 w (123 :: items_text items ++ g ++ [125]) []).
Qed.

Lemma find_back_none f ts : Forall (fun t => f t = false) ts -> find_back f (length ts) ts = Done None.
Proof.
  intros H. destruct (find_back_ok f (length ts) ts) as ([i |] & E & Hr); [done | | done].
  destruct Hr as (_ & (t & Ht & Hf) & _). rewrite Forall_lookup in H. rewrite (H i t Ht) in Hf. done.
Qed.

Lemma item_toks_string its : forall o, 0 <= o -> Forall string_tok (item_toks o its) /\ length (item_toks o its) = (2 * length its)%nat.
Proof.
  clear. induction its as [| it items IH]; intros o Ho; cbn [item_toks length]; [done |].
  destruct (val_string o it Ho). destruct (IH (item_end o it)) as [? ?]; [unfold item_end; lia |].
  split; [by repeat (apply Forall_cons; split) | lia].
Qed.

Lemma config_fill tok : let n := 1 + 2 * zlen items in n < 2 ^ 31 ->
  exists p, jsmn_parse jsmn_init js (zlen js) (Some (replicate (Z.to_nat n) tok)) n = Done (n, p, Some (config_toks items g)).
Proof.
  intros n Hn. pose proof (items_text_length items g w) as Hl. fold js in Hl. destruct config_split as (E1 & E2 & E3 & E4).
  destruct (item_toks_string items 1 ltac:(lia)) as [Hs Hlt].
  unfold jsmn_parse. rewrite (goes_end js n n (-1) (Some (config_toks items g)) n (jsmn_init, Some (replicate (Z.to_nat n) tok), 0)); [| | cbn; lia].
  { cbn [mbind outcome_bind toknext default from_option id].
    replace (Z.to_nat n) with (length (config_toks items g)) by (unfold config_toks; rewrite length_cons, Hlt; lia).
    rewrite find_back_none; [cbn [mbind outcome_bind]; eauto |]. apply Forall_cons. split.
    - unfold is_open. cbn [t_start t_end]. rewrite (proj2 (Z.eqb_neq (zlen (items_text items) + zlen g + 2) (-1))) by lia. apply andb_false_r.
    - eapply Forall_impl; [exact Hs |]. apply string_not_open. }
  replace (replicate (Z.to_nat n) tok) with (tok :: replicate (2 * length items) tok)
    by (replace (Z.to_nat n) with (S (2 * length items)) by lia; done).
  eapply goes_trans.
  { apply (goes_char js Hmax n [] 123 (items_text items ++ g ++ 125 :: w) _ _ 0 (Parser 0 1 0) (obj 0 ([] ++ replicate (2 * length items) tok)) 1);
      [done | lia | done | | cbn; lia].
    intros fuel _. unfold jsmn_char. cbn [Z.eqb Pos.eqb orb]. unfold open_bracket, jsmn_alloc_token, jsmn_init. parser_red.
    rewrite (proj2 (Z.leb_gt _ _)) by lia. rewrite tok_at_0. cbn [mbind outcome_bind]. rewrite tok_put_0.
    cbn [mbind outcome_bind]. done. }
  destruct (goes_items js Hmax n items [123] (g ++ 125 :: w) 1 0 0 [] (replicate (2 * length items) tok) 1) as (sup & Hsup & Hgo);
    try done; try (rewrite length_replicate; lia); try apply Hok.
  eapply goes_trans; [exact Hgo |]. clear Hgo.
  replace (zlen [123] + zlen (items_text items)) with (zlen (123 :: items_text items)) by zlens.
  cbn [app]. change (zlen [123]) with 1. rewrite <- (app_nil_r (item_toks 1 items)).
  eapply goes_trans; [apply (goes_gap js Hmax n g (123 :: items_text items) (125 :: w)); [done | done | done | lia | lia] |].
  replace (zlen (123 :: items_text items) + zlen g) with (zlen (123 :: items_text items ++ g)) by zlens. rewrite app_nil_r.
  eapply goes_trans; [apply (goes_close js Hmax n (123 :: items_text items ++ g) w); [done | done | lia] |].
  replace (zlen (123 :: items_text items ++ g) + 1) with (zlen (123 :: items_text items ++ g ++ [125])) by zlens.
  replace (zlen js) with (zlen (123 :: items_text items ++ g ++ [125]) + zlen w) by (revert Hl; zlens).
  unfold config_toks. replace (zlen (items_text items) + zlen g + 2) with (zlen (123 :: items_text items ++ g ++ [125])) by zlens.
  by apply (goes_white js Hmax n w (123 :: items_text items ++ g ++ [125]) []).
Qed.
End passes.
