(* ===== verification/ConfigThms.v ===== *)
(** * Theorems on the configuration *)

From S2P Require Import Prelude Mem Jsmn JsmnProps Parseargs Config ConfigJson.

(** ** Strings in memory *)
Lemma cstring_at_ok v : forall fuel m p, cstr_at m p v -> (length v < fuel)%nat -> cstring_at fuel m p = Done v.
Proof.
  induction v as [| c v IH]; intros [| fuel] m p H Hf; cbn [length] in Hf; try lia; cbn [cstring_at].
  - apply cstr_at_nil in H. by rewrite (load8_Some _ _ _ H).
  - apply cstr_at_cons in H as (H0 & Hc & H). rewrite (load8_Some _ _ _ H0). cbn [mbind outcome_bind].
    rewrite (proj2 (Z.eqb_neq _ _)) by lia. rewrite (IH fuel m (p + 1)) by (done || lia). done.
Qed.

Lemma read_str_ok s p v : cstr_at (cf_mem s) p v -> read_str s p = Done v.
Proof. intros H. apply cstring_at_ok; [done |]. pose proof (cstr_at_size _ _ _ H). lia. Qed.

Fixpoint same_prefix (kb str : list Z) : bool :=
  match kb with [] => true | c :: kb => (c =? hd 0 str) && same_prefix kb (tl str) end.

Lemma strneq_ok kb : forall m p str,
  Forall (fun b => 0 < b < 256) kb -> bytes_at m p kb -> strneq (length kb) m p str = Done (same_prefix kb str).
Proof.
  induction kb as [| c kb IH]; intros m p str Hf Hb; [done |]. apply Forall_cons in Hf as [Hc Hf].
  destruct Hb as [H0 Hb]. cbn [length strneq same_prefix]. rewrite (load8_Some _ _ _ H0). cbn [mbind outcome_bind].
  destruct (c =? hd 0 str); cbn [negb andb]; [| done]. rewrite (proj2 (Z.eqb_neq c 0)) by lia. by apply IH.
Qed.

(** ** One program to run *)

(** [e] runs the command line [v]; its arguments lie below [lim]. *)
Definition exec_ok (m : mem) (lim : Z) (v : list Z) (e : rumprun_exec) : Prop :=
  rre_flags e = RUMPRUN_EXEC_CMDLINE /\ rre_argc e = zlen (command_args v) /\
  exists ptrs, rre_argv e = ptrs ++ [0] /\ length ptrs = length (command_args v) /\
    forall i a, command_args v !! i = Some a ->
      exists q, ptrs !! i = Some q /\ q + zlen a + 1 <= lim /\ cstr_at m q a.

Lemma exec_ok_mono m m' lim lim' v e :
  lim <= lim' -> (forall x, x < lim -> m' !! x = m !! x) -> exec_ok m lim v e -> exec_ok m' lim' v e.
Proof.
  intros Hl Hm (Hf & Hc & ptrs & Hp & Hn & Ha). split_and!; try done. exists ptrs. split_and!; try done.
  intros i a Hi. destruct (Ha i a Hi) as (q & ? & Hq & [Hb Hs]). exists q. split_and!; try done; [lia |].
  split; [done |]. eapply bytes_at_ext; [| exact Hs]. rewrite length_app. cbn. intros x Hx. apply Hm. lia.
Qed.

Lemma makeargv_ok s p v :
  cstr_at (cf_mem s) p v -> 0 < p -> zlen v <= INT_MAX -> cf_replies s = [] ->
  exists m' e, makeargv p s = Done (Config m' (cf_execs s ++ [e]) (cf_calls s ++ [KMalloc]) [] (cf_nextvnd s)) /\
    exec_ok m' (p + zlen v + 1) v e /\
    (forall x, x < p \/ p + zlen v < x -> m' !! x = cf_mem s !! x).
Proof.
  intros Hs Hp Hv Hr. set (n := length (command_args v)).
  destruct (passes (cf_mem s) p v None 0 Hs Hp Hv) as (st1 & E1 & [Hn1 Hi1] & Ea1); [by left |].
  destruct (pa_outarray st1) eqn:Eo; [done |]. destruct Hi1 as [_ Hm1].
  destruct (passes (cf_mem s) p v (Some (replicate (Z.to_nat (Z.of_nat n + 1)) 0)) (n + 1) Hs Hp Hv) as (st2 & E2 & [Hn2 Hi2] & Ea2).
  { right. eexists. split; [done |]. rewrite length_replicate. unfold n. lia. }
  destruct (pa_outarray st2) as [arr |] eqn:Eo2; [| done]. destruct Hi2 as (Hout & _ & lim & Hst & Hlim).
  cbn in Ea2. rewrite length_replicate in Ea2. injection Ea2 as Ea2.
  assert (Hna : forall st, pa_nargs st = Z.of_nat (length (command_args v) + length (finished None)) -> pa_nargs st = Z.of_nat n)
    by (intros st ->; cbn; unfold n; lia).
  exists (pa_mem st2), (Exec RUMPRUN_EXEC_CMDLINE (Z.of_nat n) (<[n := 0]> arr)). unfold makeargv.
  rewrite E1. cbn [mbind outcome_bind]. rewrite Hm1, (Hna _ Hn1). unfold must, ask. cbn [cf_replies set_mem]. rewrite Hr.
  cbn [hd tl Z.eqb cf_mem cf_execs cf_calls cf_nextvnd set_mem mbind outcome_bind].
  rewrite E2. cbn [mbind outcome_bind default]. rewrite (Hna _ Hn2), Nat2Z.id. split; [done |]. split.
  - split; [done |]. split; [done |]. exists (take n arr). split; [| split].
    + cbn [rre_argv]. assert (Hlen : length arr = S n) by lia.
      rewrite insert_take_drop by lia. by rewrite (drop_ge arr (S n)) by lia.
    + rewrite length_take. unfold n in *. lia.
    + intros i a Hi. destruct (Hst i a Hi) as (q & Hq & _ & Hc & Hl). exists q. split_and!; [| | done].
      * rewrite lookup_take_lt; [done |]. by eapply lookup_lt_Some.
      * destruct Hlim as [[_ Hnil] | [? ->]]; [by rewrite Hnil, lookup_nil in Hi | lia].
  - intros x Hx. apply Hout. lia.
Qed.

(** A step of the walk at a key. *)
Lemma config_loop_key fuel toks ntok i d s t :
  i < ntok -> tok_at toks i = Done t -> t_type t = JSMN_STRING ->
  config_loop (S fuel) toks ntok i d s =
  '(used, s) ← dispatch parsers toks ntok i d s; config_loop fuel toks ntok (i + 1 + used) d s.
Proof.
  intros Hi Ht Hty. cbn [config_loop]. rewrite (proj2 (Z.ltb_lt _ _)) by lia. rewrite Ht. cbn [mbind outcome_bind].
  unfold T_CHECKTYPE. rewrite Hty, bool_decide_false, bool_decide_true by done. done.
Qed.

(** ** One entry *)

(** What an entry does, as calls and as a program to run. *)
Definition item_calls (it : entry) : list kcall :=
  match e_key it with
  | CCmdline => [KMalloc]
  | CEnv => [KPutenv (e_val it)]
  | CHostname => [KSethostname (e_val it) (zlen (e_val it))]
  end.
Definition item_cmd (it : entry) : list (list Z) :=
  match e_key it with CCmdline => [(e_val it)] | _ => [] end.

Section walk.
Context (m0 : mem) (d : Z) (Hd : 0 <= d).

(** The state before the entry at offset [o]: [cmds] are the command lines seen. *)
Definition walk_inv (o : Z) (cmds : list (list Z)) (calls : list kcall) (s : config) : Prop :=
  cf_replies s = [] /\ cf_calls s = calls /\
  (forall x, d + o <= x -> cf_mem s !! x = m0 !! x) /\
  Forall2 (exec_ok (cf_mem s) (d + o)) cmds (cf_execs s).

Lemma item_bytes o it :
  bytes_at m0 (d + o) (entry_text it) ->
  bytes_at m0 (d + key_off o it + 1) (key_name (e_key it)) /\ bytes_at m0 (d + val_start o it) (e_val it ++ [34]).
Proof.
  unfold entry_text, item_text, val_start, key_off. intros [_ [_ H]]%bytes_at_app. apply bytes_at_app in H as [H1 H2].
  split; [by replace (d + (o + zlen (e_gap it)) + 1) with (d + o + zlen (e_gap it) + 1) by lia |].
  destruct H2 as [_ [_ H2]%bytes_at_app]. destruct H2 as [_ [_ H2]%bytes_at_app]. destruct H2 as [_ H2].
  eapply (eq_ind _ (fun x => bytes_at m0 x _) H2). lia.
Qed.

(** The value becomes a string of its own. *)
Lemma value_string o it s :
  0 <= o -> entry_ok it -> bytes_at m0 (d + o) (entry_text it) -> (forall x, d + o <= x -> cf_mem s !! x = m0 !! x) ->
  exists m1, token2cstr (val_tok o it) d s = Done (d + val_start o it, set_mem m1 s) /\
    cstr_at m1 (d + val_start o it) (e_val it) /\
    (forall x, x <> d + val_start o it + zlen (e_val it) -> m1 !! x = cf_mem s !! x).
Proof.
  intros Ho Hp Hb Hm. destruct (item_bytes o it Hb) as [_ Hv]. apply bytes_at_app in Hv as [Hv [Hq _]].
  unfold token2cstr, T_STR, T_SIZE, val_tok. cbn [t_start t_end].
  replace (val_start o it + d + (val_start o it + zlen (e_val it) - val_start o it)) with (d + val_start o it + zlen (e_val it)) by lia.
  replace (val_start o it + d) with (d + val_start o it) by lia.
  rewrite store8_mapped by (rewrite Hm, Hq by (unfold val_start, key_off; lia); done). cbn [mbind outcome_bind].
  eexists. split; [done |]. split; [| intros x Hx; by apply lookup_insert_ne]. split.
  - eapply Forall_impl; [exact (en_val _ Hp) |]. cbn. tauto.
  - apply bytes_at_app. split.
    + eapply bytes_at_ext; [| exact Hv]. intros x Hx. rewrite lookup_insert_ne by lia. apply Hm. unfold val_start, key_off in Hx. lia.
    + split; [| done]. rewrite lookup_insert_eq. done.
Qed.

Lemma key_found toks ntok i o it s :
  toks !! Z.to_nat i = Some (key_tok o it) -> 0 <= i -> 0 <= o ->
  bytes_at m0 (d + o) (entry_text it) -> (forall x, d + o <= x -> cf_mem s !! x = m0 !! x) ->
  dispatch parsers toks ntok i d s =
  match e_key it with CCmdline => handle_cmdline | CEnv => handle_env | CHostname => handle_hostname end
    toks (i + 1) (ntok - (i + 1)) d s.
Proof.
  intros Ht Hi Ho Hb Hm. destruct (item_bytes o it Hb) as [Hk _].
  assert (Hat : tok_at toks i = Done (key_tok o it)).
  { unfold tok_at. rewrite (proj2 (Z.ltb_ge _ _)) by lia. by rewrite Ht. }
  assert (Heq : forall name, T_STREQ s (key_tok o it) d name = Done (same_prefix (key_name (e_key it)) (bytes_of name))).
  { intros name. unfold T_STREQ, T_SIZE, T_STR, key_tok. cbn [t_start t_end]. rewrite (proj2 (Z.ltb_ge _ _)) by lia.
    replace (Z.to_nat (key_off o it + 1 + zlen (key_name (e_key it)) - (key_off o it + 1))) with (length (key_name (e_key it))) by lia.
    apply strneq_ok.
    - eapply Forall_impl; [apply key_plain |]. cbn. tauto.
    - replace (key_off o it + 1 + d) with (d + key_off o it + 1) by lia. eapply bytes_at_ext; [| exact Hk]. intros x Hx. apply Hm.
      unfold key_off in Hx. lia. }
  unfold parsers. cbn [dispatch]. rewrite Hat. cbn [mbind outcome_bind]. rewrite !Heq.
  destruct (e_key it); reflexivity.
Qed.

Lemma item_step toks ntok i o it s cmds calls fuel :
  0 <= i < ntok -> 0 <= o -> entry_ok it -> zlen (e_val it) <= INT_MAX ->
  toks !! Z.to_nat i = Some (key_tok o it) -> toks !! Z.to_nat (i + 1) = Some (val_tok o it) ->
  bytes_at m0 (d + o) (entry_text it) -> walk_inv o cmds calls s ->
  exists s', config_loop (S fuel) toks ntok i d s = config_loop fuel toks ntok (i + 2) d s' /\
    walk_inv (item_end o it) (cmds ++ item_cmd it) (calls ++ item_calls it) s'.
Proof.
  intros Hi Ho Hp Hmax Hk Hv Hb (Hr & Hc & Hm & He).
  assert (Htk : tok_at toks i = Done (key_tok o it)).
  { unfold tok_at. rewrite (proj2 (Z.ltb_ge _ _)) by lia. by rewrite Hk. }
  assert (Htv : tok_at toks (i + 1) = Done (val_tok o it)).
  { unfold tok_at. rewrite (proj2 (Z.ltb_ge _ _)) by lia. by rewrite Hv. }
  destruct (value_string o it s Ho Hp Hb Hm) as (m1 & Etok & Hstr & Hm1).
  pose proof (entry_text_length it) as Hlen.
  assert (Hend : d + val_start o it + zlen (e_val it) + 1 = d + item_end o it) by (unfold val_start, key_off, item_end; lia).
  assert (Hlow : d + o < d + val_start o it) by (unfold val_start, key_off; lia).
  assert (Hmono : forall m', (forall x, x < d + val_start o it -> m' !! x = m1 !! x) ->
    Forall2 (exec_ok m' (d + item_end o it)) cmds (cf_execs s)).
  { intros m' Hm'. eapply Forall2_impl; [exact He |]. intros v e. apply exec_ok_mono; [unfold item_end; lia |].
    intros x Hx. rewrite Hm' by lia. apply Hm1. lia. }
  rewrite (config_loop_key fuel toks ntok i d s (key_tok o it)) by (done || lia).
  rewrite (key_found toks ntok i o it s Hk) by (done || lia).
  assert (Hrest : forall m' : mem, (forall x, d + item_end o it <= x -> m' !! x = m1 !! x) ->
    forall x, d + item_end o it <= x -> m' !! x = m0 !! x).
  { intros m' Hm' x Hx. rewrite Hm' by done. rewrite Hm1 by lia. apply Hm. lia. }
  unfold item_cmd, item_calls.
  destruct (e_key it); unfold handle_cmdline, handle_env, handle_hostname; rewrite Htv; cbn [mbind outcome_bind];
    unfold T_CHECKTYPE; rewrite bool_decide_true by done; cbn [check mbind outcome_bind]; rewrite Etok; cbn [mbind outcome_bind].
  - destruct (makeargv_ok (set_mem m1 s) (d + val_start o it) (e_val it)) as (m' & e & -> & Hok & Hm'); try done; [lia |].
    cbn [mbind outcome_bind]. replace (i + 1 + 1) with (i + 2) by lia. eexists. split; [done |].
    cbn [set_mem cf_mem cf_execs cf_calls] in *. rewrite Hend in Hok. split; [done |]. split; [cbn; by rewrite Hc |]. cbn. split.
    + apply Hrest. intros x Hx. apply Hm'. lia.
    + apply Forall2_app; [| by constructor]. apply Hmono. intros x Hx. apply Hm'. lia.
  - rewrite (read_str_ok _ _ (e_val it)) by done. cbn [mbind outcome_bind]. unfold must, ask. cbn [set_mem cf_replies]. rewrite Hr.
    cbn [hd tl Z.eqb mbind outcome_bind set_mem cf_mem cf_execs cf_calls cf_nextvnd]. replace (i + 1 + 1) with (i + 2) by lia.
    eexists. split; [done |]. split; [done |]. split; [cbn; by rewrite Hc |]. cbn. rewrite app_nil_r. split; [by apply Hrest | by apply Hmono].
  - rewrite (read_str_ok _ _ (e_val it)) by done. cbn [mbind outcome_bind]. unfold must, ask. cbn [set_mem cf_replies]. rewrite Hr.
    cbn [hd tl Z.eqb mbind outcome_bind set_mem cf_mem cf_execs cf_calls cf_nextvnd]. replace (i + 1 + 1) with (i + 2) by lia.
    eexists. split; [done |]. split; [done |].
    assert (HT : T_SIZE (val_tok o it) = zlen (e_val it)) by (unfold T_SIZE, val_tok; cbn; lia).
    split; [cbn; by rewrite Hc, HT |]. cbn. rewrite app_nil_r. split; [by apply Hrest | by apply Hmono].
Qed.

(** ** All entries *)
Lemma walk_items items : forall toks ntok i o cmds calls s fuel,
  0 <= i -> 0 <= o -> ntok = i + 2 * zlen items -> (length items < fuel)%nat ->
  (forall j, toks !! (Z.to_nat i + j)%nat = item_toks o items !! j) ->
  Forall (fun it => entry_ok it /\ zlen (e_val it) <= INT_MAX) items ->
  bytes_at m0 (d + o) (items_text items) -> walk_inv o cmds calls s ->
  exists s' o', config_loop fuel toks ntok i d s = Done s' /\
    walk_inv o' (cmds ++ flat_map item_cmd items) (calls ++ flat_map item_calls items) s'.
Proof.
  induction items as [| it items IH]; intros toks ntok i o cmds calls s [| fuel] Hi Ho -> Hf Ht Hp Hb Hw; cbn [length] in Hf; try lia.
  - cbn [config_loop]. rewrite (proj2 (Z.ltb_ge _ _)) by (cbn; lia). exists s, o. cbn. by rewrite !app_nil_r.
  - apply Forall_cons in Hp as [[Hit Hmax] Hp].
    assert (Hbi : bytes_at m0 (d + o) (entry_text it)).
    { by apply bytes_at_app in Hb as [? _]. }
    destruct (item_step toks (i + 2 * zlen (it :: items)) i o it s cmds calls fuel) as (s1 & -> & Hw1); try done.
    + cbn [length]. lia.
    + rewrite <- (Nat.add_0_r (Z.to_nat i)), Ht. done.
    + replace (Z.to_nat (i + 1)) with (Z.to_nat i + 1)%nat by lia. rewrite Ht. done.
    + destruct (IH toks (i + 2 * zlen (it :: items)) (i + 2) (item_end o it) (cmds ++ item_cmd it) (calls ++ item_calls it) s1 fuel)
        as (s' & o' & E & Hw'); try done; try lia.
      * unfold item_end. lia.
      * cbn [length]. lia.
      * intros j. replace (Z.to_nat (i + 2) + j)%nat with (Z.to_nat i + (2 + j))%nat by lia. rewrite Ht. done.
      * apply bytes_at_app in Hb as [_ Hb].
        by replace (d + item_end o it) with (d + o + zlen (entry_text it)) by (unfold item_end; lia).
      * exists s', o'. split; [done |]. cbn [flat_map]. by rewrite !app_assoc.
Qed.
End walk.

Lemma items_text_long items : 5 * zlen items <= zlen (items_text items).
Proof.
  induction items as [| it items IH]; [cbn; lia |]. change (items_text (it :: items)) with (entry_text it ++ items_text items).
  rewrite length_app. pose proof (entry_text_length it). cbn [length]. lia.
Qed.

Lemma value_short items it : it ∈ items -> zlen (e_val it) <= zlen (items_text items).
Proof.
  induction items as [| it1 items IH]; intros Hin; [by apply not_elem_of_nil in Hin |].
  change (items_text (it1 :: items)) with (entry_text it1 ++ items_text items). rewrite length_app.
  apply elem_of_cons in Hin as [-> | Hin]; [pose proof (entry_text_length it1) | specialize (IH Hin)]; lia.
Qed.

(** The first bracket is found. *)
Lemma find_brace_ok pre : forall fuel m p rest,
  cstr_at m p (pre ++ 123 :: rest) -> Forall (fun b => b <> 123) pre -> (length pre < fuel)%nat ->
  find_brace fuel m p = Done (Some (p + zlen pre)).
Proof.
  induction pre as [| c pre IH]; intros [| fuel] m p rest H Hn Hf; cbn [length] in Hf; try lia; cbn [find_brace].
  - apply cstr_at_cons in H as [H _]. rewrite (load8_Some _ _ _ H). cbn. by rewrite Z.add_0_r.
  - apply cstr_at_cons in H as (H0 & Hc & H). apply Forall_cons in Hn as [Hne Hn]. rewrite (load8_Some _ _ _ H0).
    cbn [mbind outcome_bind]. rewrite (proj2 (Z.eqb_neq _ _) Hne), (proj2 (Z.eqb_neq c 0)) by lia.
    rewrite (IH fuel m (p + 1) rest) by (done || lia). do 2 f_equal. cbn [length]. lia.
Qed.

Lemma cstr_at_app m p l r : cstr_at m p (l ++ r) -> cstr_at m (p + zlen l) r.
Proof.
  intros [Hf Hb]. apply Forall_app in Hf as [_ Hf]. rewrite <- app_assoc in Hb. by apply bytes_at_app in Hb as [_ Hb].
Qed.

(** The walk over the tokens of a whole text. *)
Lemma config_walk m d items g :
  0 < d -> bytes_at m (d + 1) (items_text items) -> zlen (items_text items) <= INT_MAX -> Forall entry_ok items ->
  let n := 1 + 2 * zlen items in
  exists s o, config_loop (S (Z.to_nat n)) (config_toks items g) n 0 d (Config m [] [KMalloc] [] 0) = Done s /\
    walk_inv m d o (flat_map item_cmd items) (KMalloc :: flat_map item_calls items) s.
Proof.
  intros Hd Hb Hmax Hp n. replace (Z.to_nat n) with (S (2 * length items)) by lia.
  assert (Hstep : forall fuel s, config_loop (S fuel) (config_toks items g) n 0 d s = config_loop fuel (config_toks items g) n 1 d s).
  { intros fuel s. cbn [config_loop]. rewrite (proj2 (Z.ltb_lt 0 n)) by lia. done. }
  rewrite Hstep.
  apply (walk_items m d ltac:(lia) items _ _ 1 1 [] [KMalloc]); try done; try lia.
  rewrite Forall_forall. intros x Hx. rewrite Forall_forall in Hp. split; [by apply Hp |].
  pose proof (value_short items x Hx). lia.
Qed.


(** What the json_* functions of app-tools/rumprun write for one environment
    variable, a command line and a host name, except for the comma behind the
    last brace. *)
Definition eol : list Z := [44; 32; 10].
Definition sample_items : list entry :=
  [Entry (eol ++ [9]) CEnv [] [32] (bytes_of "A=1"); Entry (eol ++ [9]) CCmdline [] [32] (bytes_of "prog -v 'a b'");
   Entry (eol ++ [9]) CHostname [] [32] (bytes_of "host")].
Definition sample_line : list Z := [32] ++ config_json sample_items eol [10].
Definition sample_mem : mem := mem_write ∅ 100 (sample_line ++ [0]).


(** ** What goes wrong on other texts *)
Definition quoted (s : string) : list Z := 34 :: bytes_of s ++ [34].
Definition run_text (text : list Z) : outcome config :=
  rumprun_config 5000 [] 100 (Config (mem_write ∅ 100 (text ++ [0])) [] [] [] 0).

(** The whole of it, with the comma that json_finalize_block writes behind
    every brace, the last one too: the tokenizer reads the token before the
    first. *)
Example tool_text_stray_comma :
  run_text ([32] ++ config_json sample_items eol [] ++ eol) = Undef "tokens[-1]".
Proof. vm_compute. reflexivity. Qed.

(** An entry of [rc] without the [argv] that the comment calls optional: the
    pointer to it is used all the same. *)
Example rc_without_argv :
  run_text (123 :: quoted "rc_TESTING" ++ [58; 91; 123] ++ quoted "bin" ++ 58 :: quoted "x" ++ [125; 93; 125])
  = Undef "t_argv->size".
Proof. vm_compute. reflexivity. Qed.

(** A key without a value: the handler reads a token after the last. *)
Example key_without_value : run_text (123 :: quoted "hostname" ++ [125]) = Undef "tokens[i]".
Proof. vm_compute. reflexivity. Qed.

(** A beginning of a known key is taken for it. *)
Example key_prefix_accepted :
  option_map (fun s => map rre_argc (cf_execs s))
    (match run_text (123 :: quoted "c" ++ 58 :: quoted "prog" ++ [125]) with Done s => Some s | _ => None end) = Some [1].
Proof. vm_compute. reflexivity. Qed.

(** A [net] object with too few tokens: the handler returns -1, the walk goes
    back to the key, and so on: no amount of fuel is enough. *)
Definition net_text : list Z := 123 :: quoted "net" ++ [58; 123] ++ quoted "if" ++ 44 :: quoted "gw" ++ [125; 125].
Definition net_state : config := Config (mem_write ∅ 100 (net_text ++ [0])) [] [] [] 0.
Definition net_toks : list jsmntok :=
  [Tok JSMN_OBJECT 0 19 1; Tok JSMN_STRING 2 5 1; Tok JSMN_OBJECT 7 18 2; Tok JSMN_STRING 9 11 0; Tok JSMN_STRING 14 16 0].
Example net_tokens :
  jsmn_parse jsmn_init net_text 19 (Some (replicate 5 (Tok JSMN_PRIMITIVE 0 0 0))) 5 = Done (5, Parser 19 5 (-1), Some net_toks).
Proof. vm_compute. reflexivity. Qed.

Theorem net_incomplete_loops fuel : config_loop fuel net_toks 5 0 100 net_state = Undef "config: out of fuel".
Proof.
  assert (H : forall fuel, config_loop fuel net_toks 5 1 100 net_state = Undef "config: out of fuel").
  { clear. induction fuel as [| fuel IH]; [done |]. rewrite <- IH.
    rewrite (config_loop_key fuel net_toks 5 1 100 net_state (Tok JSMN_STRING 2 5 1)) by done.
    assert (E : dispatch parsers net_toks 5 1 100 net_state = Done (-1, net_state)) by (vm_compute; reflexivity).
    rewrite E. done. }
  destruct fuel as [| fuel]; [done |]. rewrite <- (H fuel). done.
Qed.
