(* ===== verification/Count.v ===== *)
(** * Counting the elements of a list

    How many elements satisfy a test, as an integer, and how that number
    changes when one element does.  Used by the components that keep counters
    next to a list of threads, programs or slots. *)

From S2P Require Import Prelude.

Section count.
Context {A : Type}.

Definition count (P : A -> bool) (l : list A) : Z := Z.of_nat (length (filter P l)).
Definition b2z (b : bool) : Z := if b then 1 else 0.

Lemma count_cons P x l : count P (x :: l) = b2z (P x) + count P l.
Proof.
  unfold count. destruct (P x) eqn:E; cbn [b2z].
  - rewrite filter_cons_True by (rewrite E; exact I). cbn [length]. lia.
  - rewrite filter_cons_False by (rewrite E; intros []). lia.
Qed.
Lemma count_nil P : count P [] = 0.
Proof. reflexivity. Qed.
Lemma count_app P l1 l2 : count P (l1 ++ l2) = count P l1 + count P l2.
Proof. unfold count. rewrite filter_app, length_app. lia. Qed.
Lemma count_pos P l : 0 <= count P l.
Proof. unfold count. lia. Qed.
Lemma count_le P l : count P l <= Z.of_nat (length l).
Proof. unfold count. pose proof (length_filter P l). lia. Qed.

Lemma split_at (l : list A) i x : l !! i = Some x -> l = take i l ++ x :: drop (S i) l.
Proof. intros H. by rewrite take_drop_middle. Qed.

Lemma count_insert P (l : list A) i x y : l !! i = Some x ->
  count P (<[i := y]> l) = count P l - b2z (P x) + b2z (P y).
Proof.
  intros H. assert (Hi := lookup_lt_Some _ _ _ H).
  rewrite insert_take_drop by done. rewrite (split_at l i x H) at 3.
  rewrite !count_app, !count_cons. lia.
Qed.

Lemma count_lookup P (l : list A) i x : l !! i = Some x -> P x = true -> 1 <= count P l.
Proof.
  intros H HP. rewrite (split_at l i x H), count_app, count_cons, HP. cbn.
  pose proof (count_pos P (take i l)). pose proof (count_pos P (drop (S i) l)). lia.
Qed.

Lemma count_exists P l : 0 < count P l -> exists i x, l !! i = Some x /\ P x = true.
Proof.
  induction l as [| y l IH]; [rewrite count_nil; lia |]. rewrite count_cons. intros H.
  destruct (P y) eqn:E; [by exists 0%nat, y |]. cbn in H. destruct IH as (i & x & ? & ?); [lia |].
  by exists (S i), x.
Qed.

Lemma count_ext P Q l : (forall x, P x = Q x) -> count P l = count Q l.
Proof. intros E. induction l as [| x l IH]; [done |]. rewrite !count_cons, E. lia. Qed.
End count.

Lemma omap_insert_perm {A B} (f : A -> option B) (l : list A) i x y : l !! i = Some x ->
  option_list (f x) ++ omap f (<[i := y]> l) ≡ₚ option_list (f y) ++ omap f l.
Proof.
  intros H. assert (Hi := lookup_lt_Some _ _ _ H).
  rewrite insert_take_drop by done. rewrite (split_at l i x H) at 3. rewrite !omap_app. cbn.
  destruct (f x), (f y); cbn; rewrite ?(Permutation_app_comm (omap f (take i l))); cbn;
    rewrite ?(Permutation_app_comm _ (omap f (take i l))); try (constructor; reflexivity); try reflexivity.
Qed.
