(* ===== verification/SpWire.v ===== *)
(** * The wire of the system call proxy (lib/librumprun_base/sysproxy.c)

    Messages start with a [struct rsp_hdr], laid out as on the x86 targets
    (24 bytes, little endian).  [dosend] writes a message through a socket
    that takes any number of bytes at a time; [readframe] collects one from a
    non-blocking socket that yields any number of bytes at a time.

    The host's [poll], [sendmsg] and [read] are parameters: their results are
    given as lists of replies, in the order of the calls. *)

From S2P Require Import Prelude Mem.

(** NetBSD's error numbers. *)
Module Errno.
Definition EPERM : Z := 1.
Definition ESRCH : Z := 3.
Definition EINTR : Z := 4.
Definition EIO : Z := 5.
Definition ENOMEM : Z := 12.
Definition EFAULT : Z := 14.
Definition EBUSY : Z := 16.
Definition EINVAL : Z := 22.
Definition EPIPE : Z := 32.
Definition ERANGE : Z := 34.
Definition EAGAIN : Z := 35.
Definition EOPNOTSUPP : Z := 45.
Definition ENOTCONN : Z := 57.
Definition ENAMETOOLONG : Z := 63.
End Errno.

(** ** Little-endian integers *)
Fixpoint le_encode (n : nat) (z : Z) : list Z :=
  match n with
  | O => []
  | S n => z mod 256 :: le_encode n (z / 256)
  end.
Fixpoint le_decode (l : list Z) : Z :=
  match l with
  | [] => 0
  | b :: l => b + 256 * le_decode l
  end.

Lemma le_encode_length n z : length (le_encode n z) = n.
Proof. revert z; induction n; intros; cbn; auto. Qed.

Lemma le_decode_encode n : forall z, 0 <= z < 256 ^ Z.of_nat n -> le_decode (le_encode n z) = z.
Proof.
  induction n as [| n IH]; intros z Hz; cbn [le_encode le_decode].
  - change (256 ^ Z.of_nat 0) with 1 in Hz. lia.
  - rewrite IH; [pose proof (Z.div_mod z 256); lia |].
    rewrite Nat2Z.inj_succ, Z.pow_succ_r in Hz by lia.
    split; [apply Z.div_pos; lia | apply Z.div_lt_upper_bound; lia].
Qed.

(** ** Headers *)
Definition RUMPSP_REQ : Z := 0.
Definition RUMPSP_RESP : Z := 1.
Definition RUMPSP_ERROR : Z := 2.

Definition RUMPSP_HANDSHAKE : Z := 0.
Definition RUMPSP_SYSCALL : Z := 1.
Definition RUMPSP_COPYIN : Z := 2.
Definition RUMPSP_COPYINSTR : Z := 3.
Definition RUMPSP_COPYOUT : Z := 4.
Definition RUMPSP_COPYOUTSTR : Z := 5.
Definition RUMPSP_ANONMMAP : Z := 6.
Definition RUMPSP_PREFORK : Z := 7.
Definition RUMPSP_RAISE : Z := 8.

Definition HANDSHAKE_GUEST : Z := 0.
Definition HANDSHAKE_AUTH : Z := 1.
Definition HANDSHAKE_FORK : Z := 2.
Definition HANDSHAKE_EXEC : Z := 3.

Inductive rumpsp_err :=
  | RUMPSP_ERR_NONE | RUMPSP_ERR_TRYAGAIN | RUMPSP_ERR_AUTH
  | RUMPSP_ERR_INVALID_PREFORK | RUMPSP_ERR_RFORK_FAILED
  | RUMPSP_ERR_INEXEC | RUMPSP_ERR_NOMEM | RUMPSP_ERR_MALFORMED_REQUEST.
Global Instance rumpsp_err_eq_dec : EqDecision rumpsp_err.
Proof. solve_decision. Defined.

Definition err_code (e : rumpsp_err) : Z :=
  match e with
  | RUMPSP_ERR_NONE => 0 | RUMPSP_ERR_TRYAGAIN => 1 | RUMPSP_ERR_AUTH => 2
  | RUMPSP_ERR_INVALID_PREFORK => 3 | RUMPSP_ERR_RFORK_FAILED => 4
  | RUMPSP_ERR_INEXEC => 5 | RUMPSP_ERR_NOMEM => 6 | RUMPSP_ERR_MALFORMED_REQUEST => 7
  end.

(** [errmap] takes the number found on the wire. *)
Definition errmap (error : Z) : Z :=
  if error =? err_code RUMPSP_ERR_NONE then 0
  else if error =? err_code RUMPSP_ERR_AUTH then Errno.EPERM
  else if error =? err_code RUMPSP_ERR_TRYAGAIN then Errno.EAGAIN
  else if error =? err_code RUMPSP_ERR_INVALID_PREFORK then Errno.ESRCH
  else if error =? err_code RUMPSP_ERR_RFORK_FAILED then Errno.EIO
  else if error =? err_code RUMPSP_ERR_INEXEC then Errno.EBUSY
  else if error =? err_code RUMPSP_ERR_NOMEM then Errno.ENOMEM
  else if error =? err_code RUMPSP_ERR_MALFORMED_REQUEST then Errno.EINVAL
  else -1.

(** [struct rsp_hdr]; [rsp_u] is the union. *)
Record rsp_hdr := RspHdr {
  rsp_len : Z;
  rsp_reqno : Z;
  rsp_class : Z;
  rsp_type : Z;
  rsp_u : Z }.
Global Instance rsp_hdr_eq_dec : EqDecision rsp_hdr.
Proof. solve_decision. Defined.

Definition HDRSZ : Z := 24.

Definition hdr_bytes (h : rsp_hdr) : list Z :=
  le_encode 8 (rsp_len h) ++ le_encode 8 (rsp_reqno h) ++ le_encode 2 (rsp_class h)
    ++ le_encode 2 (rsp_type h) ++ le_encode 4 (rsp_u h).

(** A [struct rsp_hdr] read from its bytes. *)
Definition hdr_of (l : list Z) : rsp_hdr :=
  RspHdr (le_decode (take 8 l)) (le_decode (take 8 (drop 8 l)))
    (le_decode (take 2 (drop 16 l))) (le_decode (take 2 (drop 18 l))) (le_decode (take 4 (drop 20 l))).

Definition hdr_ok (h : rsp_hdr) : Prop :=
  0 <= rsp_len h < 2 ^ 64 /\ 0 <= rsp_reqno h < 2 ^ 64 /\ 0 <= rsp_class h < 2 ^ 16 /\
  0 <= rsp_type h < 2 ^ 16 /\ 0 <= rsp_u h < 2 ^ 32.

Lemma hdr_bytes_length h : length (hdr_bytes h) = 24%nat.
Proof. unfold hdr_bytes. rewrite !length_app, !le_encode_length. reflexivity. Qed.

Lemma hdr_of_bytes h l : hdr_ok h -> hdr_of (hdr_bytes h ++ l) = h.
Proof.
  intros (H1 & H2 & H3 & H4 & H5). unfold hdr_of, hdr_bytes. rewrite <- !app_assoc.
  repeat (rewrite ?(drop_app_ge _ _ 8), ?(drop_app_ge _ _ 16), ?(drop_app_ge _ _ 18), ?(drop_app_ge _ _ 20)
    by (rewrite le_encode_length; lia); rewrite ?le_encode_length; cbn [Nat.sub]).
  rewrite ?(drop_app_ge (le_encode 8 (rsp_reqno h)) _ 12), ?(drop_app_ge (le_encode 8 (rsp_reqno h)) _ 10)
    by (rewrite le_encode_length; lia). rewrite ?le_encode_length; cbn [Nat.sub].
  rewrite ?(drop_app_ge (le_encode 2 (rsp_class h)) _ 2), ?(drop_app_ge (le_encode 2 (rsp_class h)) _ 4)
    by (rewrite le_encode_length; lia). rewrite ?le_encode_length; cbn [Nat.sub].
  rewrite ?(drop_app_ge (le_encode 2 (rsp_type h)) _ 2)
    by (rewrite le_encode_length; lia). rewrite ?le_encode_length; cbn [Nat.sub]. rewrite !drop_0.
  rewrite !take_app_le by (rewrite le_encode_length; lia).
  rewrite !take_ge by (rewrite le_encode_length; lia).
  rewrite !le_decode_encode by (cbn; lia). by destruct h.
Qed.

(** ** Sending: [dosend]

    The I/O vector is the list of the bytes its entries point to.  The
    condition [n >= iov[0].iov_len && iovlen] of the source looks at the entry
    after the last one once everything has been sent; its second half makes
    the result the same whatever is found there. *)
Fixpoint iov_adjust (n : Z) (iov : list (list Z)) : Z * list (list Z) :=
  match iov with
  | [] => (n, [])
  | b :: rest =>
      if Z.of_nat (length b) <=? n then iov_adjust (n - Z.of_nat (length b)) rest
      else (n, iov)
  end.

(** What happens to the thread's [lwp]. *)
Inductive lwp_call :=
  | LwpNew (pid : Z)
  | LwpRelease
  | LwpSwitch (l : Z).
Global Instance lwp_call_eq_dec : EqDecision lwp_call.
Proof. solve_decision. Defined.

Section dosend.
(** [host_poll] and [host_sendmsg]: the value returned and [errno]. *)
Context {H : Type} (host_poll : H -> (Z * Z) * H) (host_sendmsg : H -> list (list Z) -> (Z * Z) * H).

Fixpoint dosend_loop (fuel : nat) (n : Z) (iov : list (list Z)) (h : H) : outcome (Z * H) :=
  match fuel with
  | O => Undef "dosend: out of fuel"
  | S fuel =>
      let '((rv, errno), h) := if negb (n =? 0) then host_poll h else ((1, 0), h) in
      if rv =? -1 then
        if errno =? Errno.EINTR then dosend_loop fuel n iov h else Done (errno, h)
      else
        let '((n, errno), h) := host_sendmsg h iov in
        if n =? -1 then
          let error := if errno =? Errno.EPIPE then Errno.ENOTCONN else 0 in
          let error := if negb (errno =? Errno.EAGAIN) then errno else error in
          if negb (error =? 0) then Done (error, h)
          else dosend_loop fuel n iov h
        else if n =? 0 then Done (Errno.ENOTCONN, h)
        else
          match iov_adjust n iov with
          | (n, []) => if n =? 0 then Done (0, h) else Halt "_DIAGASSERT(n == 0)"
          | (n, b :: rest) => dosend_loop fuel n (drop (Z.to_nat n) b :: rest) h
          end
  end.

(** The error, the socket, and what has happened to the thread's [lwp]. *)
Definition dosend (fuel : nat) (mylwp : Z) (iov : list (list Z)) (h : H) : outcome (Z * H * list lwp_call) :=
  '(error, h) ← dosend_loop fuel 0 iov h;
  if error =? 0 then
    Done (error, h, LwpNew 1 :: LwpRelease :: (if mylwp =? 0 then [] else [LwpSwitch mylwp]))
  else Done (error, h, [LwpNew 1]).
End dosend.

(** A connected socket: what has gone out, and how much room each call finds,
    as long as that is said; a call that finds none gets [EAGAIN]. *)
Record osock := OSock {
  out_bytes : list Z;
  out_room : list nat }.

Definition osock_poll (h : osock) : (Z * Z) * osock := ((1, 0), h).

Definition osock_sendmsg (h : osock) (iov : list (list Z)) : (Z * Z) * osock :=
  let data := concat iov in
  let '(k, room) :=
    match out_room h with
    | [] => (length data, [])
    | k :: room => (k, room)
    end in
  match take k data with
  | [] => ((-1, Errno.EAGAIN), OSock (out_bytes h) room)
  | bs => ((Z.of_nat (length bs), 0), OSock (out_bytes h ++ bs) room)
  end.

(** ** Receiving: [readframe] *)

(** The part of [struct spclient] that holds the message being read.  The
    header's bytes are kept as the structure in memory has them. *)
Record rxbuf := RxBuf {
  spc_hdr : list Z;
  spc_buf : option (list Z);
  spc_off : Z }.

Definition rx_empty : rxbuf := RxBuf (replicate 24 0) None 0.

(** [spcresetbuf]; [spcfreebuf] is the same for what is modelled here. *)
Definition spcresetbuf (r : rxbuf) : rxbuf := RxBuf (spc_hdr r) None 0.

(** What the host's [read] answers; a non-blocking socket with nothing to
    read answers [EAGAIN]. *)
Inductive read_reply :=
  | RdEof
  | RdErr (errno : Z)
  | RdData (bs : list Z).
Global Instance read_reply_eq_dec : EqDecision read_reply.
Proof. solve_decision. Defined.

(** Overwrites [length bs] elements of [l] from [i] on. *)
Definition put_bytes (l : list Z) (i : Z) (bs : list Z) : list Z :=
  take (Z.to_nat i) l ++ bs ++ drop (Z.to_nat i + length bs) l.

Section readframe.
Context {S : Type} (host_read : S -> Z -> read_reply * S) (malloc_ok : Z -> bool).

Definition read_body (r : rxbuf) (framelen : Z) (s : S) : outcome (Z * rxbuf * S) :=
  let left := framelen - spc_off r in
  if left =? 0 then Done (1, r, s)
  else
    let '(rd, s) := host_read s left in
    match rd with
    | RdEof => Done (-1, r, s)
    | RdErr errno => Done (if errno =? Errno.EAGAIN then 0 else -1, r, s)
    | RdData bs =>
        let n := Z.of_nat (length bs) in
        if left <? n then Undef "read: more than asked for"
        else
          buf ← of_option "spc_buf" (spc_buf r);
          Done (if left - n =? 0 then 1 else 0,
                RxBuf (spc_hdr r) (Some (put_bytes buf (spc_off r - HDRSZ) bs)) (spc_off r + n), s)
    end.

Definition readframe (r : rxbuf) (s : S) : outcome (Z * rxbuf * S) :=
  if spc_off r <? HDRSZ then
    let left := HDRSZ - spc_off r in
    let '(rd, s) := host_read s left in
    match rd with
    | RdEof => Done (-1, r, s)
    | RdErr errno => Done (if errno =? Errno.EAGAIN then 0 else -1, r, s)
    | RdData bs =>
        let n := Z.of_nat (length bs) in
        if left <? n then Undef "read: more than asked for"
        else
          let r := RxBuf (put_bytes (spc_hdr r) (spc_off r) bs) (spc_buf r) (spc_off r + n) in
          if spc_off r <? HDRSZ then Done (0, r, s)
          else
            let framelen := rsp_len (hdr_of (spc_hdr r)) in
            if framelen <? HDRSZ then Done (-1, r, s)
            else if framelen =? HDRSZ then Done (1, r, s)
            else if malloc_ok (framelen - HDRSZ) then
              read_body (RxBuf (spc_hdr r) (Some (replicate (Z.to_nat (framelen - HDRSZ)) 0)) (spc_off r)) framelen s
            else Done (-1, r, s)
    end
  else read_body r (rsp_len (hdr_of (spc_hdr r))) s.

(** The main loop as far as one connection is concerned: it calls [readframe]
    whenever the socket is readable, hands a complete message to its handler,
    which takes it and resets the buffer, and disconnects at -1.  After [calls]
    calls: the messages and, if the connection is still there, the buffer and
    the socket. *)
Fixpoint read_loop (calls : nat) (r : rxbuf) (s : S) : outcome (list (rsp_hdr * list Z) * option (rxbuf * S)) :=
  match calls with
  | O => Done ([], Some (r, s))
  | Datatypes.S calls =>
      '(rv, r, s) ← readframe r s;
      if rv =? -1 then Done ([], None)
      else if rv =? 0 then read_loop calls r s
      else
        '(ms, st) ← read_loop calls (spcresetbuf r) s;
        Done ((hdr_of (spc_hdr r), default [] (spc_buf r)) :: ms, st)
  end.
End readframe.

(** A stream socket: the bytes to come, and how many of them each call finds,
    as long as that is said; a call that finds none gets [EAGAIN]. *)
Record sock := Sock {
  sock_bytes : list Z;
  sock_avail : list nat }.

Definition sock_read (s : sock) (left : Z) : read_reply * sock :=
  let '(k, avail) :=
    match sock_avail s with
    | [] => (length (sock_bytes s), [])
    | k :: avail => (k, avail)
    end in
  let n := Nat.min k (Z.to_nat left) in
  match take n (sock_bytes s) with
  | [] => (RdErr Errno.EAGAIN, Sock (sock_bytes s) avail)
  | bs => (RdData bs, Sock (drop n (sock_bytes s)) avail)
  end.
