(* ===== verification/SpWireThms.v ===== *)
(** * The wire of the system call proxy: what is sent arrives

    [dosend] puts a message on the socket however little room each call finds;
    [readframe] cuts the stream into the messages that were sent, however the
    bytes come in. *)

From S2P Require Import Prelude Mem SpWire.

(** ** Sending *)

Lemma iov_adjust_spec iov : forall n, 0 <= n <= Z.of_nat (length (concat iov)) ->
  match iov_adjust n iov with
  | (m, []) => m = 0 /\ n = Z.of_nat (length (concat iov))
  | (m, b :: rest) => 0 <= m < Z.of_nat (length b) /\
      drop (Z.to_nat m) b ++ concat rest = drop (Z.to_nat n) (concat iov)
  end.
Proof.
  induction iov as [| b iov IH]; intros n Hn; cbn [iov_adjust concat] in *.
  - cbn in Hn. cbn. lia.
  - rewrite length_app in Hn. destruct (Z.leb_spec (Z.of_nat (length b)) n).
    + specialize (IH (n - Z.of_nat (length b)) ltac:(lia)).
      destruct (iov_adjust _ iov) as [m [| c rest]].
      * rewrite length_app. lia.
      * destruct IH as [? E]. split; [done |]. rewrite E, (drop_app_ge b) by lia. f_equal. lia.
    + split; [lia |]. rewrite drop_app_le by lia. done.
Qed.

Lemma dosend_loop_complete fuel : forall n iov h, concat iov <> [] -> (length (out_room h) < fuel)%nat ->
  exists room, dosend_loop osock_poll osock_sendmsg fuel n iov h = Done (0, OSock (out_bytes h ++ concat iov) room).
Proof.
  induction fuel as [| fuel IH]; intros n iov [out room] Hne Hf; cbn [out_room out_bytes] in *; [lia |].
  cbn [dosend_loop].
  replace (if negb (n =? 0) then osock_poll (OSock out room) else ((1, 0), OSock out room))
    with ((1, 0), OSock out room) by (by destruct (negb (n =? 0))).
  cbn [Z.eqb]. unfold osock_sendmsg; cbn [out_room out_bytes].
  set (krest := match room with [] => _ | _ => _ end).
  assert (Hk : krest.1 = length (concat iov) /\ room = [] \/ (length krest.2 < fuel)%nat)
    by (unfold krest; destruct room; cbn in *; [left | right]; auto; lia).
  destruct krest as [k room']; cbn [fst snd] in Hk.
  destruct (take k (concat iov)) as [| x bs] eqn:Ht.
  - destruct Hk as [[-> ->] | Hk]; [by rewrite take_ge in Ht |].
    destruct (IH (-1) iov (OSock out room') Hne Hk) as [r Hr]. exists r. exact Hr.
  - assert (Hlen : (0 < length (take k (concat iov)) <= length (concat iov))%nat)
      by (pose proof (f_equal length Ht) as El; cbn in El; rewrite length_take in *; lia).
    rewrite <- Ht.
    destruct (Z.eqb_spec (Z.of_nat (length (take k (concat iov)))) (-1)); [lia |].
    destruct (Z.eqb_spec (Z.of_nat (length (take k (concat iov)))) 0); [lia |].
    pose proof (iov_adjust_spec iov (Z.of_nat (length (take k (concat iov)))) ltac:(lia)) as Hadj.
    destruct (iov_adjust _ iov) as [m [| b rest]].
    + destruct Hadj as [-> Hfull]. exists room'. cbn. do 4 f_equal. apply take_ge.
      rewrite length_take in Hfull. lia.
    + destruct Hadj as [Hm E].
      assert (Hsplit : drop (Z.to_nat m) b ++ concat rest = drop k (concat iov)).
      { rewrite E, Nat2Z.id, length_take. destruct (le_lt_dec k (length (concat iov))).
        - by rewrite Nat.min_l.
        - rewrite Nat.min_r by lia. rewrite !drop_ge; done || lia. }
      destruct (Hk) as [[-> _] | Hk'].
      { rewrite (drop_ge (concat iov)) in Hsplit by lia. apply app_eq_nil in Hsplit as [Hb _].
        apply (f_equal length) in Hb. rewrite length_drop in Hb. cbn in Hb. lia. }
      destruct (IH m (drop (Z.to_nat m) b :: rest) (OSock (out ++ take k (concat iov)) room')) as [r Hr]; [| done |].
      { cbn [concat]. intros Hb. apply app_eq_nil in Hb as [Hb _].
        apply (f_equal length) in Hb. rewrite length_drop in Hb. cbn in Hb. lia. }
      exists r. cbn [concat out_bytes] in Hr. rewrite Hsplit, <- app_assoc, take_drop in Hr. exact Hr.
Qed.

(** ** Receiving *)

Lemma put_bytes_spec (l t : list Z) k bs n :
  length l = length t -> take k l = take k t -> bs = take n (drop k t) -> n = length bs -> (k + n <= length t)%nat ->
  length (put_bytes l (Z.of_nat k) bs) = length t /\
  take (k + n) (put_bytes l (Z.of_nat k) bs) = take (k + n) t.
Proof.
  intros Hl Ht -> Hn Hle. unfold put_bytes. rewrite Nat2Z.id.
  assert (Hk : length (take k l) = k) by (rewrite length_take; lia). split.
  - rewrite !length_app, Hk, length_drop. rewrite length_take, length_drop in *. lia.
  - rewrite app_assoc, take_app_le by (rewrite length_app, Hk; lia).
    rewrite take_ge by (rewrite length_app, Hk; lia). by rewrite Ht, take_take_drop.
Qed.

Definition measure (s : sock) : nat := (length (sock_avail s) + length (sock_bytes s))%nat.

Lemma take_min_length {A} (l : list A) n : take (n `min` length l) l = take n l.
Proof.
  destruct (le_lt_dec n (length l)); [by rewrite Nat.min_l |].
  rewrite Nat.min_r by lia. rewrite (take_ge _ n), take_ge by lia. done.
Qed.

Lemma sock_read_spec s left rd s' : 0 < left -> sock_bytes s <> [] -> sock_read s left = (rd, s') ->
  (measure s' < measure s)%nat /\
  (rd = RdErr Errno.EAGAIN /\ sock_bytes s' = sock_bytes s \/
   exists n, rd = RdData (take n (sock_bytes s)) /\ (0 < n)%nat /\ n = length (take n (sock_bytes s)) /\
     Z.of_nat n <= left /\ sock_bytes s' = drop n (sock_bytes s)).
Proof.
  destruct s as [l av]; unfold sock_read, measure; cbn [sock_bytes sock_avail]. intros Hleft Hne.
  set (kav := match av with [] => _ | _ => _ end). assert (Hav : kav.1 = length l /\ kav.2 = av \/ (length kav.2 < length av)%nat)
    by (unfold kav; destruct av; cbn; [left | right]; auto; lia).
  destruct kav as [k av']; cbn [fst snd] in Hav. set (n := Nat.min k (Z.to_nat left)).
  destruct (take n l) as [| x bs] eqn:Ht; intros [= <- <-]; cbn [sock_bytes sock_avail].
  - destruct Hav as [[-> ->] | Hav]; [exfalso | split; [lia | by left]].
    apply (f_equal length) in Ht. rewrite length_take in Ht. cbn [length] in Ht.
    assert (0 < length l)%nat by (destruct l; [done | cbn; lia]). unfold n in Ht. lia.
  - pose proof (f_equal length Ht) as El. rewrite length_take in El. cbn in El.
    split; [rewrite length_drop; destruct Hav as [[-> ->] |]; lia |]. right.
    exists (n `min` length l)%nat. assert (Hn : (n <= Z.to_nat left)%nat) by lia. clearbody n.
    rewrite take_min_length, length_take. rewrite <- Ht. repeat split; try lia.
    destruct (le_lt_dec n (length l)); [by rewrite Nat.min_l | rewrite Nat.min_r by lia].
    rewrite (drop_ge _ n), drop_ge by lia. done.
Qed.

(** A message as it goes over the wire. *)
Definition msg : Type := rsp_hdr * list Z.
Definition msg_ok (m : msg) : Prop := hdr_ok m.1 /\ rsp_len m.1 = HDRSZ + Z.of_nat (length m.2).
Definition msg_bytes (m : msg) : list Z := hdr_bytes m.1 ++ m.2.
Definition stream (ms : list msg) : list Z := concat (map msg_bytes ms).

Lemma msg_bytes_length m : length (msg_bytes m) = (24 + length m.2)%nat.
Proof. unfold msg_bytes. by rewrite length_app, hdr_bytes_length. Qed.

(** [k] bytes of the message [m] have been read. *)
Definition rx_at (m : msg) (k : nat) (r : rxbuf) : Prop :=
  spc_off r = Z.of_nat k /\ (k < length (msg_bytes m))%nat /\
  if decide (k < 24)%nat then
    length (spc_hdr r) = 24%nat /\ spc_buf r = None /\ take k (spc_hdr r) = take k (hdr_bytes m.1)
  else
    spc_hdr r = hdr_bytes m.1 /\
    exists b, spc_buf r = Some b /\ length b = length m.2 /\ take (k - 24) b = take (k - 24) m.2.

(** The message is complete. *)
Definition rx_done (m : msg) (r : rxbuf) : Prop :=
  spc_hdr r = hdr_bytes m.1 /\ default [] (spc_buf r) = m.2.

Lemma hdr_of_hdr_bytes h : hdr_ok h -> hdr_of (hdr_bytes h) = h.
Proof. intros H. rewrite <- (app_nil_r (hdr_bytes h)). by apply hdr_of_bytes. Qed.

Section step.
Context (malloc_ok : Z -> bool) (m : msg) (rest : list Z).
Hypothesis Hm : msg_ok m.

(** The outcome of a call that finds the stream at byte [k] of [m]. *)
Definition step_post (s : sock) (res : outcome (Z * rxbuf * sock)) : Prop :=
  exists rv r' s' j, res = Done (rv, r', s') /\ (measure s' < measure s)%nat /\
    sock_bytes s' = drop j (msg_bytes m) ++ rest /\
    (rv = 0 /\ rx_at m j r' \/ rv = 1 /\ j = length (msg_bytes m) /\ rx_done m r').

Lemma read_body_step k r s : (24 <= k)%nat -> rx_at m k r -> sock_bytes s = drop k (msg_bytes m) ++ rest ->
  step_post s (read_body sock_read r (rsp_len m.1) s).
Proof using Hm.
  intros Hk (Hoff & Hlt & Hr) Hs. rewrite decide_False in Hr by lia. destruct Hr as (Hh & b & Hb & Hlb & Htb).
  destruct Hm as [Hok Hlen]. pose proof (msg_bytes_length m) as Hml. unfold read_body. rewrite Hoff, Hlen. unfold HDRSZ.
  destruct (Z.eqb_spec (24 + Z.of_nat (length m.2) - Z.of_nat k) 0) as [? | Hleft]; [lia |].
  destruct (sock_read s _) as [rd s'] eqn:Erd.
  assert (Hne : sock_bytes s <> []).
  { rewrite Hs. intros E. apply app_eq_nil in E as [E _]. apply (f_equal length) in E. rewrite length_drop in E. cbn in E. lia. }
  apply sock_read_spec in Erd as (Hmeas & Hcase); [| lia | done].
  destruct Hcase as [[-> Hs'] | (n & -> & Hn0 & Hn & Hnl & Hs')].
  - exists 0, r, s', k. split; [done |]. rewrite Hs', Hs. split; [done |]. split; [done |]. left.
    split; [done |]. unfold rx_at. rewrite decide_False by lia. eauto 10.
  - rewrite <- Hn, Hb. destruct (Z.ltb_spec (24 + Z.of_nat (length m.2) - Z.of_nat k) (Z.of_nat n)) as [? | _]; [lia |]. cbn.
    assert (Hbs : take n (sock_bytes s) = take n (drop (k - 24) m.2)).
    { rewrite Hs. unfold msg_bytes. rewrite drop_app_ge by (rewrite hdr_bytes_length; lia).
      rewrite hdr_bytes_length, take_app_le by (rewrite length_drop; lia). done. }
    destruct (put_bytes_spec b m.2 (k - 24) (take n (sock_bytes s)) n) as [Hpl Hpt]; try done; [lia |].
    replace (Z.of_nat (k - 24)) with (Z.of_nat k - 24) in * by lia.
    eexists _, _, s', (k + n)%nat. split; [reflexivity |]. split; [done |].
    split; [rewrite Hs', Hs, drop_app_le, drop_drop by (rewrite length_drop; lia); done |].
    destruct (Z.eqb_spec (24 + Z.of_nat (length m.2) - Z.of_nat k - Z.of_nat n) 0); [right | left].
    + split; [done |]. split; [lia |]. split; [done |]. cbn.
      rewrite (take_ge (put_bytes _ _ _)), (take_ge m.2) in Hpt by lia. done.
    + split; [done |]. unfold rx_at; cbn [spc_off spc_hdr spc_buf]. split; [lia |]. split; [lia |].
      rewrite decide_False by lia. split; [done |]. eexists. split; [done |]. split; [done |].
      by replace (k + n - 24)%nat with (k - 24 + n)%nat by lia.
Qed.

(** The header has just been completed. *)
Lemma rx_at_24 r : spc_hdr r = hdr_bytes m.1 -> spc_off r = 24 -> m.2 <> [] ->
  rx_at m 24 (RxBuf (spc_hdr r) (Some (replicate (Z.to_nat (rsp_len m.1 - HDRSZ)) 0)) (spc_off r)).
Proof using Hm.
  intros Hh Hoff Hne. destruct Hm as [_ Hlen]. unfold rx_at; cbn [spc_off spc_hdr spc_buf].
  split; [done |]. split; [rewrite msg_bytes_length; destruct m.2; [done | cbn; lia] |].
  rewrite decide_False by lia. split; [done |]. eexists. split; [done |]. rewrite length_replicate, Hlen.
  unfold HDRSZ. split; [lia |]. done.
Qed.

Lemma readframe_step k r s : (forall n, malloc_ok n = true) -> rx_at m k r -> sock_bytes s = drop k (msg_bytes m) ++ rest ->
  step_post s (readframe sock_read malloc_ok r s).
Proof using Hm.
  intros Hmal Hat Hs. pose proof Hat as (Hoff & Hlt & Hr). pose proof (msg_bytes_length m) as Hml.
  unfold readframe. rewrite Hoff. destruct (Z.ltb_spec (Z.of_nat k) HDRSZ) as [Hk | Hk]; unfold HDRSZ in Hk.
  2: { rewrite decide_False in Hr by lia. destruct Hr as [Hh _]. destruct Hm as [Hok _].
    rewrite Hh, hdr_of_hdr_bytes by done. apply read_body_step with k; done || lia. }
  rewrite decide_True in Hr by lia. destruct Hr as (Hlh & Hnb & Hth).
  destruct (sock_read s _) as [rd s'] eqn:Erd.
  assert (Hne : sock_bytes s <> []).
  { rewrite Hs. intros E. apply app_eq_nil in E as [E _]. apply (f_equal length) in E. rewrite length_drop in E. cbn in E. lia. }
  apply sock_read_spec in Erd as (Hmeas & Hcase); [| unfold HDRSZ; lia | done].
  destruct Hcase as [[-> Hs'] | (n & -> & Hn0 & Hn & Hnl & Hs')].
  { exists 0, r, s', k. split; [done |]. rewrite Hs', Hs. split; [done |]. split; [done |]. by left. }
  unfold HDRSZ in Hnl. rewrite <- Hn. unfold HDRSZ at 1. destruct (Z.ltb_spec (24 - Z.of_nat k) (Z.of_nat n)) as [? | _]; [lia |].
  assert (Hbs : take n (sock_bytes s) = take n (drop k (hdr_bytes m.1))).
  { rewrite Hs. unfold msg_bytes. rewrite drop_app_le by (rewrite hdr_bytes_length; lia).
    rewrite <- app_assoc, take_app_le by (rewrite length_drop, hdr_bytes_length; lia). done. }
  destruct (put_bytes_spec (spc_hdr r) (hdr_bytes m.1) k (take n (sock_bytes s)) n) as [Hpl Hpt];
    [rewrite hdr_bytes_length; exact Hlh | exact Hth | exact Hbs | exact Hn | rewrite hdr_bytes_length; lia |].
  rewrite hdr_bytes_length in Hpl.
  set (r' := RxBuf _ _ _). assert (Hoff' : spc_off r' = Z.of_nat (k + n)) by (cbn; lia).
  assert (Hs'' : sock_bytes s' = drop (k + n) (msg_bytes m) ++ rest)
    by (rewrite Hs', Hs, drop_app_le, drop_drop by (rewrite length_drop; lia); done).
  rewrite Hoff'. destruct (Z.ltb_spec (Z.of_nat (k + n)) HDRSZ) as [Hkn | Hkn]; unfold HDRSZ in Hkn.
  { exists 0, r', s', (k + n)%nat. split; [done |]. split; [done |]. split; [done |]. left. split; [done |].
    unfold rx_at. rewrite decide_True by lia. split; [done |]. split; [lia |]. done. }
  assert (Hh : spc_hdr r' = hdr_bytes m.1).
  { cbn. rewrite (take_ge (put_bytes _ _ _)), (take_ge (hdr_bytes _)) in Hpt by (rewrite ?hdr_bytes_length; lia). done. }
  assert (Hkn' : (k + n)%nat = 24%nat) by lia.
  destruct Hm as [Hok Hlen]. rewrite Hh, hdr_of_hdr_bytes by done.
  destruct (Z.ltb_spec (rsp_len m.1) HDRSZ) as [? | _]; [unfold HDRSZ in *; lia |].
  destruct (Z.eqb_spec (rsp_len m.1) HDRSZ) as [Eb | Eb].
  { exists 1, r', s', (k + n)%nat. split; [done |]. split; [done |]. split; [done |]. right. split; [done |].
    unfold HDRSZ in *. split; [lia |]. split; [done |]. cbn. rewrite Hnb. cbn. destruct m.2; [done | cbn in *; lia]. }
  rewrite Hmal. assert (Hne2 : m.2 <> []) by (intros E; rewrite E in Hlen; cbn in Hlen; lia).
  destruct (read_body_step 24 (RxBuf (hdr_bytes m.1) (Some (replicate (Z.to_nat (rsp_len m.1 - HDRSZ)) 0)) 24) s')
    as (rv & r2 & s2 & j & E & Hme & Hb2 & Hc); [lia | | by rewrite Hs'', Hkn' |].
  { rewrite <- Hh. apply (rx_at_24 (RxBuf (spc_hdr r') None 24)); done. }
  replace (Z.of_nat (k + n)) with 24 by lia. exists rv, r2, s2, j. split; [exact E |]. split; [lia |]. done.
Qed.
End step.

(** ** Whole streams *)

(** Between two calls: the messages still to be delivered, the first of them
    partly read. *)
Definition rx_inv (ms : list msg) (r : rxbuf) (s : sock) : Prop :=
  match ms with
  | [] => spc_off r = 0 /\ sock_bytes s = []
  | m :: rest => exists k, rx_at m k r /\ sock_bytes s = drop k (msg_bytes m) ++ stream rest
  end.

Lemma rx_inv_reset ms r s : length (spc_hdr r) = 24%nat -> sock_bytes s = stream ms -> rx_inv ms (spcresetbuf r) s.
Proof.
  intros Hl Hs. destruct ms as [| m ms]; [done |]. exists 0%nat. split; [| done].
  unfold rx_at, spcresetbuf; cbn [spc_off spc_hdr spc_buf]. rewrite msg_bytes_length.
  split; [done |]. split; [lia |]. rewrite decide_True by lia. done.
Qed.

Lemma read_idle malloc_ok calls : forall r s, spc_off r = 0 -> sock_bytes s = [] ->
  exists s', read_loop sock_read malloc_ok calls r s = Done ([], Some (r, s')) /\ sock_bytes s' = [].
Proof.
  induction calls as [| calls IH]; intros r s Hoff Hs; [by exists s |].
  cbn [read_loop]. unfold readframe. rewrite Hoff. cbn [Z.ltb Z.compare HDRSZ].
  destruct (sock_read s _) as [rd s'] eqn:E. unfold sock_read in E. rewrite Hs in E.
  assert (rd = RdErr Errno.EAGAIN /\ sock_bytes s' = []) as [-> Hs'].
  { destruct (sock_avail s); rewrite take_nil in E; injection E as <- <-; done. }
  cbn. by apply IH.
Qed.

Lemma read_stream malloc_ok calls : (forall n, malloc_ok n = true) -> forall ms r s, Forall msg_ok ms ->
  rx_inv ms r s -> (measure s <= calls)%nat ->
  exists r' s', read_loop sock_read malloc_ok calls r s = Done (ms, Some (r', s')) /\ spc_off r' = 0 /\ sock_bytes s' = [].
Proof.
  intros Hmal. induction calls as [| calls IH]; intros [| m ms] r s Hok Hinv Hc.
  - exists r, s. destruct Hinv. done.
  - destruct Hinv as (k & (_ & Hlt & _) & Hs). exfalso. apply (f_equal length) in Hs.
    unfold measure in Hc. rewrite length_app, length_drop in Hs. lia.
  - destruct Hinv as [Hoff Hs]. destruct (read_idle malloc_ok (S calls) r s Hoff Hs) as (s' & -> & Hs'). eauto.
  - destruct Hinv as (k & Hat & Hs). inversion Hok as [| ? ? Hm Hms]; subst.
    destruct (readframe_step malloc_ok m (stream ms) Hm k r s Hmal Hat Hs) as (rv & r' & s' & j & E & Hme & Hs' & Hcase).
    cbn [read_loop]. rewrite E, Done_bind.
    destruct Hcase as [[-> Hat'] | (-> & Hj & Hd)]; cbn [Z.eqb].
    + apply IH; [done | exists j; done | lia].
    + destruct Hd as [Hh Hb]. destruct (IH ms (spcresetbuf r') s' Hms) as (r2 & s2 & -> & Hoff & Hs2).
      { apply rx_inv_reset; [rewrite Hh; apply hdr_bytes_length |]. by rewrite Hs', Hj, drop_all. }
      { lia. }
      exists r2, s2. cbn. rewrite Hh, Hb, hdr_of_hdr_bytes by apply Hm. by destruct m.
Qed.

(** Messages sent one after the other, each under the send lock. *)
Fixpoint send_all (fuel : nat) (mylwp : Z) (iovs : list (list (list Z))) (h : osock) : outcome osock :=
  match iovs with
  | [] => Done h
  | iov :: iovs =>
      '(error, h, _) ← dosend osock_poll osock_sendmsg fuel mylwp iov h;
      if error =? 0 then send_all fuel mylwp iovs h else Halt "dosend"
  end.

Lemma dosend_room fuel : forall n iov h error h', dosend_loop osock_poll osock_sendmsg fuel n iov h = Done (error, h') ->
  (length (out_room h') <= length (out_room h))%nat.
Proof.
  assert (Hsend : forall h iov x h', osock_sendmsg h iov = (x, h') -> (length (out_room h') <= length (out_room h))%nat).
  { intros [out room] iov x h'. unfold osock_sendmsg; cbn [out_room out_bytes].
    destruct room as [| k room]; destruct (take _ _); intros [= _ <-]; cbn; lia. }
  induction fuel as [| fuel IH]; intros n iov h error h' E; [discriminate |]. cbn [dosend_loop] in E.
  replace (if negb (n =? 0) then osock_poll h else ((1, 0), h)) with ((1, 0), h) in E by (by destruct (negb (n =? 0))).
  cbn [Z.eqb] in E. destruct (osock_sendmsg h iov) as [[n' errno] h1] eqn:Es. apply Hsend in Es.
  repeat case_match; outcome_inv; try done; try (etransitivity; [by eapply IH | done]); try (simplify_eq; done).
Qed.

Lemma dosend_complete fuel mylwp iov h : concat iov <> [] -> (length (out_room h) < fuel)%nat ->
  exists h', dosend osock_poll osock_sendmsg fuel mylwp iov h =
    Done (0, h', LwpNew 1 :: LwpRelease :: (if mylwp =? 0 then [] else [LwpSwitch mylwp])) /\
    out_bytes h' = out_bytes h ++ concat iov /\ (length (out_room h') <= length (out_room h))%nat.
Proof.
  intros Hne Hf. destruct (dosend_loop_complete fuel 0 iov h Hne Hf) as [room E].
  eexists. unfold dosend. rewrite E. split; [reflexivity |]. split; [done |]. by apply dosend_room in E.
Qed.

Lemma send_all_stream fuel mylwp iovs ms : Forall2 (fun iov m => concat iov = msg_bytes m) iovs ms ->
  forall h, (length (out_room h) < fuel)%nat ->
  exists h', send_all fuel mylwp iovs h = Done h' /\ out_bytes h' = out_bytes h ++ stream ms.
Proof.
  induction 1 as [| iov m iovs ms Hiov _ IH]; intros h Hf; cbn [send_all]; [exists h; by rewrite app_nil_r |].
  destruct (dosend_complete fuel mylwp iov h) as (h1 & E & Ho & Hr); [| done |].
  { rewrite Hiov. intros E. apply (f_equal length) in E. rewrite msg_bytes_length in E. cbn in E. lia. }
  rewrite E. cbn. destruct (IH h1 ltac:(lia)) as (h2 & E2 & Ho2). exists h2. split; [exact E2 |].
  by rewrite Ho2, Ho, Hiov, <- app_assoc.
Qed.

(** C32. Messages survive the wire of the system call proxy: any sequence of
    well-formed messages that one side sends with [dosend] - whatever room the
    socket has for each [sendmsg], short writes and [EAGAIN] included - is
    delivered by the other side's calls of [readframe] as exactly these
    messages, headers and bodies, in order - however the bytes come in, short
    reads and [EAGAIN] included - and leaves the reader's buffer empty. *)
Theorem sp_stream_roundtrip malloc_ok iovs ms room avail mylwp :
  (forall n, malloc_ok n = true) -> Forall msg_ok ms ->
  Forall2 (fun iov m => concat iov = msg_bytes m) iovs ms ->
  exists h r s, send_all (S (length room)) mylwp iovs (OSock [] room) = Done h /\
    read_loop sock_read malloc_ok (length avail + length (out_bytes h)) rx_empty (Sock (out_bytes h) avail) =
      Done (ms, Some (r, s)) /\ spc_off r = 0 /\ sock_bytes s = [].
Proof.
  intros Hmal Hok Hiov. destruct (send_all_stream (S (length room)) mylwp iovs ms Hiov (OSock [] room)) as (h & E & Ho); [cbn; lia |].
  cbn in Ho. destruct (read_stream malloc_ok (length avail + length (out_bytes h)) Hmal ms rx_empty (Sock (out_bytes h) avail) Hok)
    as (r & s & E2 & Hr & Hs).
  - rewrite Ho. by apply (rx_inv_reset ms rx_empty).
  - unfold measure; cbn. lia.
  - exists h, r, s. done.
Qed.

Lemma sp_stream_roundtrip_witness :
  let m1 : msg := (RspHdr 27 1 RUMPSP_REQ RUMPSP_SYSCALL 4, [1; 2; 3]) in
  let m2 : msg := (RspHdr 24 2 RUMPSP_REQ RUMPSP_PREFORK 0, []) in
  exists h r s, send_all 6 0 [[hdr_bytes m1.1; m1.2]; [hdr_bytes m2.1]] (OSock [] [5; 0; 20; 1; 7]%nat) = Done h /\
    read_loop sock_read (fun _ => true) (length [3; 0; 30; 2]%nat + length (out_bytes h)) rx_empty
      (Sock (out_bytes h) [3; 0; 30; 2]%nat) = Done ([m1; m2], Some (r, s)) /\ spc_off r = 0 /\ sock_bytes s = [].
Proof.
  intros m1 m2. apply (sp_stream_roundtrip (fun _ => true) [[hdr_bytes m1.1; m1.2]; [hdr_bytes m2.1]] [m1; m2] [5; 0; 20; 1; 7]%nat).
  - done.
  - apply Forall_cons_2; [| apply Forall_cons_2; [| apply Forall_nil_2]]; (split; [| reflexivity]);
      repeat split; cbv; congruence.
  - constructor; [reflexivity | constructor; [reflexivity | constructor]].
Defined.
