(* ===== verification/SpServ.v ===== *)
(** * The server of the system call proxy (lib/librumprun_base/sysproxy.c)

    The main thread ([spserver]) polls the listening socket and the clients'
    sockets and handles what comes in; system calls and the end of an exec are
    done by worker threads ([serv_workbouncer]), which may ask the client for
    data on the way and wait for the answer.

    The state has the source's globals and one entry per worker thread.  A
    step of the machine is a critical section or a handler of one thread; the
    places where a thread waits are states of the worker.  Calls that leave
    the file are recorded in a history, latest first: messages sent with
    [dosend] (see SpWire), calls of the rump kernel, of the host's sockets.
    Their results are functions of that history, given in [host]. *)

From S2P Require Import Prelude Mem SpWire.

Definition MAXCLI : nat := 256.
Definition AUTHLEN : nat := 4.

(** The [RUMP_RFFD_*] flags of the rump kernel's headers. *)
Inductive rffd := RUMP_RFFD_CLEAR | RUMP_RFFD_SHARE | RUMP_RFFD_COPY.
Global Instance rffd_eq_dec : EqDecision rffd.
Proof. solve_decision. Defined.

Inductive spcstate := SPCSTATE_NEW | SPCSTATE_RUNNING | SPCSTATE_DYING.
Global Instance spcstate_eq_dec : EqDecision spcstate.
Proof. solve_decision. Defined.

Inductive spcstatus := SPCSTATUS_FREE | SPCSTATUS_BUSY | SPCSTATUS_WANTED.
Global Instance spcstatus_eq_dec : EqDecision spcstatus.
Proof. solve_decision. Defined.

(** ** Data *)

(** [struct respwait], which lives on the waiting thread's stack. *)
Record respwait := RespWait {
  rw_reqno : Z;
  rw_data : option (list Z);
  rw_dlen : Z;
  rw_done : bool;
  rw_error : Z }.

(** [struct prefork]. *)
Record prefork := Prefork {
  pf_auth : list Z;
  pf_lwp : Z }.

(** [struct spclient].  [spc_rx] holds [spc_hdr], [spc_buf] and [spc_off].
    [spc_pflist] is left out: preforks are linked into it, but it is never read. *)
Record spclient := SpClient {
  spc_fd : Z;
  spc_refcnt : Z;
  spc_state : spcstate;
  spc_mainlwp : Z;
  spc_pid : Z;
  spc_respwait : list respwait;
  spc_rx : rxbuf;
  spc_nextreq : Z;
  spc_syscallreq : Z;
  spc_ostatus : spcstatus;
  spc_istatus : spcstatus;
  spc_inexec : bool }.

(** [struct servbouncearg]; [sba_spc] is the index of the client. *)
Inductive sbatype := SBA_SYSCALL | SBA_EXEC.
Global Instance sbatype_eq_dec : EqDecision sbatype.
Proof. solve_decision. Defined.
Record servbouncearg := Sba {
  sba_spc : nat;
  sba_hdr : rsp_hdr;
  sba_type : sbatype;
  sba_data : option (list Z) }.

(** What the rump kernel may want from the client in the course of a system
    call: [rumpuser_sp_copyin] and [rumpuser_sp_copyinstr] of [len] bytes,
    [rumpuser_sp_anonmmap]. *)
Inductive kernreq :=
  | KCopyin (raddr len : Z) (wantstr : bool)
  | KAnonmmap (howmuch : Z).

(** Where a worker is: at the top of its loop, waiting for [sbacv], woken up,
    inside the system call, waiting for the client's answer to a request made
    from inside the system call, waiting for the threads of an exec to drain,
    gone. *)
Inductive wphase :=
  | WTop
  | WSleep
  | WWoken
  | WSys (sba : servbouncearg)
  | WCopy (sba : servbouncearg) (reqno : Z) (what : kernreq)
  | WExec (sba : servbouncearg)
  | WGone.

(** What leaves the file. *)
Inductive ev :=
  | EvSend (i : nat) (bytes : list Z)
  | EvShutdown (fd : Z)
  | EvClose (fd : Z)
  | EvRfork (i : nat) (flags : rffd) (comm : option (list Z))
  | EvNewlwp (pid : Z)
  | EvSwitch (l : Z)
  | EvRelease
  | EvLwpexit
  | EvExecnotify (comm : list Z)
  | EvSyscall (i : nat) (num : Z) (data : option (list Z))
  | EvUsleep
  | EvCopyin (i : nat) (rv : Z) (laddr : list Z)
  | EvAnonmmap (i : nat) (rv addr : Z).

(** The results of the calls that leave the file.  [h_usable n] is how many
    bytes may be written to what [malloc(n)] returned, [h_stack] the contents
    of uninitialised stack memory. *)
Record host := Host {
  h_send : list ev -> Z;
  h_rfork : list ev -> Z;
  h_newlwp : list ev -> Z;
  h_curlwp : list ev -> Z;
  h_getpid : list ev -> Z;
  h_syscall : list ev -> Z * Z * Z;
  h_malloc : list ev -> bool;
  h_usable : Z -> Z;
  h_random : list ev -> list Z;
  h_stack : list ev -> Z;
  h_create : list ev -> bool;
  h_wake : list ev -> nat }.

(** The globals.  [pfdlist] holds the descriptors polled. *)
Record srv := Srv {
  spclist : list spclient;
  pfdlist : list Z;
  disco : Z;
  nfds : Z;
  maxidx : nat;
  preforks : list prefork;
  wrklist : list servbouncearg;
  nworker : Z;
  idleworker : Z;
  nwork : Z;
  workers : list wphase;
  history : list ev }.

(** *** Updates *)
Definition spc_set_refcnt (v : Z) (c : spclient) : spclient :=
  SpClient (spc_fd c) v (spc_state c) (spc_mainlwp c) (spc_pid c) (spc_respwait c) (spc_rx c) (spc_nextreq c)
    (spc_syscallreq c) (spc_ostatus c) (spc_istatus c) (spc_inexec c).
Definition spc_set_state (v : spcstate) (c : spclient) : spclient :=
  SpClient (spc_fd c) (spc_refcnt c) v (spc_mainlwp c) (spc_pid c) (spc_respwait c) (spc_rx c) (spc_nextreq c)
    (spc_syscallreq c) (spc_ostatus c) (spc_istatus c) (spc_inexec c).
Definition spc_set_fd (v : Z) (c : spclient) : spclient :=
  SpClient v (spc_refcnt c) (spc_state c) (spc_mainlwp c) (spc_pid c) (spc_respwait c) (spc_rx c) (spc_nextreq c)
    (spc_syscallreq c) (spc_ostatus c) (spc_istatus c) (spc_inexec c).
Definition spc_set_mainlwp (v : Z) (c : spclient) : spclient :=
  SpClient (spc_fd c) (spc_refcnt c) (spc_state c) v (spc_pid c) (spc_respwait c) (spc_rx c) (spc_nextreq c)
    (spc_syscallreq c) (spc_ostatus c) (spc_istatus c) (spc_inexec c).
Definition spc_set_pid (v : Z) (c : spclient) : spclient :=
  SpClient (spc_fd c) (spc_refcnt c) (spc_state c) (spc_mainlwp c) v (spc_respwait c) (spc_rx c) (spc_nextreq c)
    (spc_syscallreq c) (spc_ostatus c) (spc_istatus c) (spc_inexec c).
Definition spc_set_respwait (v : list respwait) (c : spclient) : spclient :=
  SpClient (spc_fd c) (spc_refcnt c) (spc_state c) (spc_mainlwp c) (spc_pid c) v (spc_rx c) (spc_nextreq c)
    (spc_syscallreq c) (spc_ostatus c) (spc_istatus c) (spc_inexec c).
Definition spc_set_rx (v : rxbuf) (c : spclient) : spclient :=
  SpClient (spc_fd c) (spc_refcnt c) (spc_state c) (spc_mainlwp c) (spc_pid c) (spc_respwait c) v (spc_nextreq c)
    (spc_syscallreq c) (spc_ostatus c) (spc_istatus c) (spc_inexec c).
Definition spc_set_nextreq (v : Z) (c : spclient) : spclient :=
  SpClient (spc_fd c) (spc_refcnt c) (spc_state c) (spc_mainlwp c) (spc_pid c) (spc_respwait c) (spc_rx c) v
    (spc_syscallreq c) (spc_ostatus c) (spc_istatus c) (spc_inexec c).
Definition spc_set_syscallreq (v : Z) (c : spclient) : spclient :=
  SpClient (spc_fd c) (spc_refcnt c) (spc_state c) (spc_mainlwp c) (spc_pid c) (spc_respwait c) (spc_rx c) (spc_nextreq c)
    v (spc_ostatus c) (spc_istatus c) (spc_inexec c).
Definition spc_set_ostatus (v : spcstatus) (c : spclient) : spclient :=
  SpClient (spc_fd c) (spc_refcnt c) (spc_state c) (spc_mainlwp c) (spc_pid c) (spc_respwait c) (spc_rx c) (spc_nextreq c)
    (spc_syscallreq c) v (spc_istatus c) (spc_inexec c).
Definition spc_set_inexec (v : bool) (c : spclient) : spclient :=
  SpClient (spc_fd c) (spc_refcnt c) (spc_state c) (spc_mainlwp c) (spc_pid c) (spc_respwait c) (spc_rx c) (spc_nextreq c)
    (spc_syscallreq c) (spc_ostatus c) (spc_istatus c) v.
Definition with_clients (l : list spclient) (s : srv) : srv :=
  Srv l (pfdlist s) (disco s) (nfds s) (maxidx s) (preforks s) (wrklist s) (nworker s) (idleworker s) (nwork s) (workers s) (history s).
Definition with_pfd (l : list Z) (s : srv) : srv :=
  Srv (spclist s) l (disco s) (nfds s) (maxidx s) (preforks s) (wrklist s) (nworker s) (idleworker s) (nwork s) (workers s) (history s).
Definition with_disco (d n : Z) (m : nat) (s : srv) : srv :=
  Srv (spclist s) (pfdlist s) d n m (preforks s) (wrklist s) (nworker s) (idleworker s) (nwork s) (workers s) (history s).
Definition with_preforks (l : list prefork) (s : srv) : srv :=
  Srv (spclist s) (pfdlist s) (disco s) (nfds s) (maxidx s) l (wrklist s) (nworker s) (idleworker s) (nwork s) (workers s) (history s).
Definition with_pool (q : list servbouncearg) (nw idle work : Z) (ws : list wphase) (s : srv) : srv :=
  Srv (spclist s) (pfdlist s) (disco s) (nfds s) (maxidx s) (preforks s) q nw idle work ws (history s).
Definition with_workers (ws : list wphase) (s : srv) : srv :=
  Srv (spclist s) (pfdlist s) (disco s) (nfds s) (maxidx s) (preforks s) (wrklist s) (nworker s) (idleworker s) (nwork s) ws (history s).
Definition record_ev (e : ev) (s : srv) : srv :=
  Srv (spclist s) (pfdlist s) (disco s) (nfds s) (maxidx s) (preforks s) (wrklist s) (nworker s) (idleworker s) (nwork s) (workers s) (e :: history s).

Definition client (s : srv) (i : nat) : outcome spclient := of_option "spclist" (spclist s !! i).
Definition upd_client (i : nat) (f : spclient -> spclient) (s : srv) : srv := with_clients (alter f i (spclist s)) s.

Section server.
Context (H : host) (rumpsp_maxworker rumpsp_idleworker : Z).

(** ** The send lock *)
Definition sendlockl (i : nat) (s : srv) : outcome srv :=
  c ← client s i;
  if decide (spc_ostatus c = SPCSTATUS_FREE) then Done (upd_client i (spc_set_ostatus SPCSTATUS_BUSY) s)
  else Halt "sendlockl: pthread_cond_wait".
Definition sendunlockl (i : nat) (s : srv) : srv := upd_client i (spc_set_ostatus SPCSTATUS_FREE) s.

(** [sendlock]; [SENDIOV]; [sendunlock]: the error of [dosend]. *)
Definition locked_send (i : nat) (bytes : list Z) (s : srv) : outcome (Z * srv) :=
  s ← sendlockl i s;
  let s := record_ev (EvSend i bytes) s in
  Done (h_send H (history s), sendunlockl i s).

(** ** Messages *)
Definition send_error_resp (i : nat) (reqno : Z) (error : rumpsp_err) (s : srv) : outcome srv :=
  '(_, s) ← locked_send i (hdr_bytes (RspHdr HDRSZ reqno RUMPSP_ERROR 0 (err_code error))) s;
  Done s.

Definition send_handshake_resp (i : nat) (reqno error : Z) (s : srv) : outcome (Z * srv) :=
  locked_send i (hdr_bytes (RspHdr (HDRSZ + 4) reqno RUMPSP_RESP RUMPSP_HANDSHAKE 0) ++ le_encode 4 error) s.

(** [struct rsp_sysresp] has four bytes of padding. *)
Definition send_syscall_resp (i : nat) (reqno error : Z) (retval : Z * Z) (s : srv) : outcome (Z * srv) :=
  locked_send i (hdr_bytes (RspHdr (HDRSZ + 24) reqno RUMPSP_RESP RUMPSP_SYSCALL 0)
    ++ le_encode 4 error ++ le_encode 4 (h_stack H (history s)) ++ le_encode 8 retval.1 ++ le_encode 8 retval.2) s.

Definition send_prefork_resp (i : nat) (reqno : Z) (auth : list Z) (s : srv) : outcome (Z * srv) :=
  locked_send i (hdr_bytes (RspHdr (HDRSZ + 16) reqno RUMPSP_RESP RUMPSP_PREFORK 0) ++ auth) s.

(** [rsp_reqno] is not set. *)
Definition send_raise_req (i : nat) (signo : Z) (s : srv) : outcome (Z * srv) :=
  locked_send i (hdr_bytes (RspHdr HDRSZ (h_stack H (history s)) RUMPSP_REQ RUMPSP_RAISE signo)) s.

Definition nextreq (i : nat) (s : srv) : outcome (Z * srv) :=
  c ← client s i;
  Done (spc_nextreq c, upd_client i (fun c => spc_set_nextreq (wrap64 (spc_nextreq c + 1)) c) s).

Definition copydata (addr len : Z) : list Z := le_encode 8 len ++ le_encode 8 addr.

Definition send_copyout_req (i : nat) (remaddr : Z) (data : list Z) (s : srv) : outcome (Z * srv) :=
  '(reqno, s) ← nextreq i s;
  let dlen := Z.of_nat (length data) in
  locked_send i (hdr_bytes (RspHdr (HDRSZ + 16 + dlen) reqno RUMPSP_REQ RUMPSP_COPYOUT 0)
    ++ copydata remaddr dlen ++ data) s.

(** ** Waiting for responses *)
Definition doputwait (i : nat) (s : srv) : outcome (Z * srv) :=
  c ← client s i;
  let reqno := spc_nextreq c in
  Done (reqno, upd_client i (fun c => spc_set_respwait (spc_respwait c ++ [RespWait reqno None 0 false 0])
                                        (spc_set_nextreq (wrap64 (spc_nextreq c + 1)) c)) s).

Definition putwait (i : nat) (s : srv) : outcome (Z * srv) :=
  '(reqno, s) ← doputwait i s;
  s ← sendlockl i s;
  Done (reqno, s).

(** [TAILQ_REMOVE] of the waiter with that number, and its lookup. *)
Fixpoint rw_remove (reqno : Z) (l : list respwait) : list respwait :=
  match l with
  | [] => []
  | rw :: l => if rw_reqno rw =? reqno then l else rw :: rw_remove reqno l
  end.
Fixpoint rw_find (reqno : Z) (l : list respwait) : option respwait :=
  match l with
  | [] => None
  | rw :: l => if rw_reqno rw =? reqno then Some rw else rw_find reqno l
  end.
Fixpoint rw_update (reqno : Z) (f : respwait -> respwait) (l : list respwait) : list respwait :=
  match l with
  | [] => []
  | rw :: l => if rw_reqno rw =? reqno then f rw :: l else rw :: rw_update reqno f l
  end.

Definition dounputwait (i : nat) (reqno : Z) (s : srv) : srv :=
  upd_client i (fun c => spc_set_respwait (rw_remove reqno (spc_respwait c)) c) s.

Definition unputwait (i : nat) (reqno : Z) (s : srv) : srv := dounputwait i reqno (sendunlockl i s).

Definition spcfreebuf (i : nat) (s : srv) : srv := upd_client i (fun c => spc_set_rx (spcresetbuf (spc_rx c)) c) s.

Definition kickwaiter (i : nat) (s : srv) : outcome srv :=
  c ← client s i;
  let hdr := hdr_of (spc_hdr (spc_rx c)) in
  match rw_find (rsp_reqno hdr) (spc_respwait c) with
  | None => Done (spcfreebuf i s)
  | Some _ =>
      let kick rw :=
        RespWait (rw_reqno rw) (spc_buf (spc_rx c)) (spc_off (spc_rx c) - HDRSZ) true
          (if rsp_class hdr =? RUMPSP_ERROR then errmap (rsp_u hdr) else rw_error rw) in
      Done (spcfreebuf i (upd_client i (fun c => spc_set_respwait (rw_update (rsp_reqno hdr) kick (spc_respwait c)) c) s))
  end.

(** The two halves of [waitresp]: before and after the wait.  The second takes
    the waiter off the list and gives what it holds, with the error; it is
    [None] while the condition of the wait's loop still holds. *)
Definition waitresp_start (i : nat) (s : srv) : srv := sendunlockl i s.

Definition waitresp_end (i : nat) (reqno : Z) (s : srv) : outcome (option (Z * respwait * srv)) :=
  c ← client s i;
  rw ← of_option "rw" (rw_find reqno (spc_respwait c));
  if negb (rw_done rw) && negb (bool_decide (spc_state c = SPCSTATE_DYING)) then Done None
  else
    let s := dounputwait i reqno s in
    Done (Some (if decide (spc_state c = SPCSTATE_DYING) then Errno.ENOTCONN else rw_error rw, rw, s)).

(** ** References and connections *)
Definition spcref (i : nat) (s : srv) : srv := upd_client i (fun c => spc_set_refcnt (spc_refcnt c + 1) c) s.

Definition signaldisco (s : srv) : srv := with_disco (wrap32 (disco s + 1)) (nfds s) (maxidx s) s.

Definition spcrelease (i : nat) (s : srv) : outcome srv :=
  let s := upd_client i (fun c => spc_set_refcnt (spc_refcnt c - 1) c) s in
  c ← client s i;
  if 0 <? spc_refcnt c then Done s
  else
    _ ← bmk_assert (bool_decide (spc_respwait c = [])) "_DIAGASSERT(TAILQ_EMPTY(&spc->spc_respwait))";
    _ ← bmk_assert (bool_decide (spc_buf (spc_rx c) = None)) "_DIAGASSERT(spc->spc_buf == NULL)";
    let s := if spc_mainlwp c =? 0 then s else record_ev EvRelease (record_ev (EvSwitch (spc_mainlwp c)) s) in
    let s := record_ev (EvClose (spc_fd c)) s in
    let s := upd_client i (fun c => spc_set_state SPCSTATE_NEW (spc_set_fd (-1) (spc_set_mainlwp 0 c))) s in
    Done (signaldisco s).

(** The fields from [spc_pfd] on, zeroed. *)
Definition spc_zero (c : spclient) : spclient :=
  SpClient (spc_fd c) (spc_refcnt c) (spc_state c) (spc_mainlwp c) (spc_pid c) (spc_respwait c)
    rx_empty 0 0 SPCSTATUS_FREE SPCSTATUS_FREE false.

(** [kickall] wakes the waiters, which find the state changed. *)
Definition serv_handledisco (i : nat) (s : srv) : outcome srv :=
  let s := with_pfd (<[i := -1]> (pfdlist s)) s in
  let s := upd_client i (spc_set_state SPCSTATE_DYING) s in
  let s := sendunlockl i s in
  c ← client s i;
  let s := if negb (spc_inexec c) && negb (spc_mainlwp c =? 0)
           then record_ev (EvSwitch 0) (record_ev EvLwpexit (record_ev (EvSwitch (spc_mainlwp c)) s)) else s in
  spcrelease i (upd_client i spc_zero s).

Fixpoint shutdown_from (k i : nat) (s : srv) : outcome srv :=
  match k with
  | O => Done s
  | S k =>
      c ← client s i;
      s ← (if spc_fd c =? -1 then Done s
           else
             let s := record_ev (EvShutdown (spc_fd c)) s in
             s ← serv_handledisco i s;
             spcrelease i s);
      shutdown_from k (S i) s
  end.
Definition serv_shutdown (s : srv) : outcome srv := shutdown_from (MAXCLI - 1) 1 s.

(** The first free slot at or after [i], of [k]. *)
Fixpoint find_slot (k i : nat) (s : srv) : outcome nat :=
  match k with
  | O => Done i
  | S k =>
      fd ← of_option "pfdlist" (pfdlist s !! i);
      c ← client s i;
      if (fd =? -1) && bool_decide (spc_state c = SPCSTATE_NEW) then Done i else find_slot k (S i) s
  end.

(** The booleans: setting [O_NONBLOCK], the connection hook and sending the
    banner succeed. *)
Definition serv_handleconn (newfd : Z) (busy nonblock hook sent : bool) (s : srv) : outcome (nat * srv) :=
  if newfd =? -1 then Done (0%nat, s)
  else if busy || negb nonblock || negb hook || negb sent then Done (0%nat, record_ev (EvClose newfd) s)
  else
    i ← find_slot MAXCLI 0 s;
    if decide (i = MAXCLI) then Halt "abort"
    else
      let s := with_pfd (<[i := newfd]> (pfdlist s)) s in
      let s := upd_client i (fun c =>
        SpClient newfd 1 (spc_state c) (spc_mainlwp c) (spc_pid c) [] (spc_rx c) (spc_nextreq c)
          (spc_syscallreq c) (spc_ostatus c) SPCSTATUS_BUSY (spc_inexec c)) s in
      Done (i, s).

(** ** Work *)

(** The loop around [malloc]; [retries] never changes.  Whether there is
    memory. *)
Fixpoint schedulework_alloc (fuel : nat) (retries : Z) (s : srv) : outcome (bool * srv) :=
  match fuel with
  | O => Undef "schedulework: out of fuel"
  | S fuel =>
      if h_malloc H (history s) then Done (true, s)
      else if (nworker s =? 0) || (10 <? retries) then Done (false, s)
      else schedulework_alloc fuel retries (record_ev EvUsleep s)
  end.

(** [pthread_cond_signal] wakes one of the sleeping workers, if there is one:
    the [n]-th, counted modulo their number. *)
Definition is_sleeping (w : wphase) : bool := match w with WSleep => true | _ => false end.
Fixpoint wake_nth (n : nat) (ws : list wphase) : list wphase :=
  match ws with
  | [] => []
  | WSleep :: ws => match n with O => WWoken :: ws | S n => WSleep :: wake_nth n ws end
  | w :: ws => w :: wake_nth n ws
  end.
Definition sleepers (ws : list wphase) : nat := length (filter is_sleeping ws).
Definition signal_one (n : nat) (ws : list wphase) : list wphase := wake_nth (n mod sleepers ws) ws.

Definition enqueue_work (sba : servbouncearg) (s : srv) : srv :=
  let q := wrklist s ++ [sba] in
  let nwork := nwork s + 1 in
  if nwork <=? idleworker s then with_pool q (nworker s) (idleworker s) nwork (signal_one (h_wake H (history s)) (workers s)) s
  else if nworker s <? rumpsp_maxworker then
    if h_create H (history s) then with_pool q (nworker s + 1) (idleworker s) nwork (workers s ++ [WTop]) s
    else with_pool q (nworker s) (idleworker s) nwork (workers s) s
  else with_pool q (nworker s) (idleworker s) nwork (workers s) s.

Definition schedulework (fuel : nat) (i : nat) (ty : sbatype) (s : srv) : outcome srv :=
  c ← client s i;
  let hdr := hdr_of (spc_hdr (spc_rx c)) in
  '(ok, s) ← schedulework_alloc fuel 0 s;
  if ok : bool then
    let sba := Sba i hdr ty (spc_buf (spc_rx c)) in
    Done (enqueue_work sba (spcref i (spcfreebuf i s)))
  else
    s ← send_error_resp i (rsp_reqno hdr) RUMPSP_ERR_TRYAGAIN s;
    Done (spcfreebuf i s).

(** [comm[commlen] = 0] for the data of a message with a body of [commlen]
    bytes, which came from [malloc(commlen)]. *)
Definition terminate_comm (comm : option (list Z)) (commlen : Z) : outcome (list Z) :=
  match comm with
  | None => Undef "comm: NULL"
  | Some l => if commlen <? h_usable H commlen then Done (take (Z.to_nat commlen) l ++ [0]) else Undef "comm[commlen]"
  end.

(** [serv_handlesyscall] up to the system call, and from its return on. *)
Definition handlesyscall_start (sba : servbouncearg) (s : srv) : outcome (bool * srv) :=
  let i := sba_spc sba in
  c ← client s i;
  let s := record_ev (EvNewlwp (spc_pid c)) s in
  let rv := h_newlwp H (history s) in
  if negb (rv =? 0) then
    '(_, s) ← send_syscall_resp i (rsp_reqno (sba_hdr sba)) rv (-1, 0) s;
    Done (false, s)
  else
    let s := upd_client i (spc_set_syscallreq (rsp_reqno (sba_hdr sba))) s in
    Done (true, record_ev (EvSyscall i (rsp_u (sba_hdr sba)) (sba_data sba)) s).

Definition handlesyscall_end (sba : servbouncearg) (s : srv) : outcome srv :=
  let i := sba_spc sba in
  let '(rv, r0, r1) := h_syscall H (history s) in
  let s := upd_client i (spc_set_syscallreq 0) s in
  let s := record_ev EvRelease s in
  '(_, s) ← send_syscall_resp i (rsp_reqno (sba_hdr sba)) rv (r0, r1) s;
  Done s.

(** [serv_handleexec] once the client's other references are gone; [false]
    while they are not. *)
Definition handleexec (sba : servbouncearg) (s : srv) : outcome (bool * srv) :=
  let i := sba_spc sba in
  c ← client s i;
  if 2 <? spc_refcnt c then Done (false, s)
  else
    comm ← terminate_comm (sba_data sba) (rsp_len (sba_hdr sba) - HDRSZ);
    let s := record_ev (EvSwitch 0) (record_ev (EvExecnotify comm) (record_ev (EvSwitch (spc_mainlwp c)) s)) in
    let s := upd_client i (spc_set_inexec false) s in
    '(_, s) ← send_handshake_resp i (rsp_reqno (sba_hdr sba)) 0 s;
    Done (true, s).

(** The body of [serv_workbouncer] after a work item has been taken. *)
Definition set_worker (w : nat) (p : wphase) (s : srv) : srv := with_workers (<[w := p]> (workers s)) s.

Definition start_work (w : nat) (sba : servbouncearg) (s : srv) : outcome srv :=
  match sba_type sba with
  | SBA_SYSCALL =>
      '(running, s) ← handlesyscall_start sba s;
      if running : bool then Done (set_worker w (WSys sba) s)
      else
        s ← spcrelease (sba_spc sba) s;
        Done (set_worker w WTop s)
  | SBA_EXEC => Done (set_worker w (WExec sba) s)
  end.

(** The loop around [pthread_cond_wait] and what follows it; [idleworker] has
    been incremented. *)
Definition worker_take (w : nat) (s : srv) : outcome srv :=
  match wrklist s with
  | [] =>
      _ ← bmk_assert (nwork s =? 0) "_DIAGASSERT(nwork == 0)";
      Done (set_worker w WSleep s)
  | sba :: q =>
      start_work w sba (with_pool q (nworker s) (idleworker s - 1) (nwork s - 1) (workers s) s)
  end.

Definition worker_top (w : nat) (s : srv) : outcome srv :=
  if rumpsp_idleworker <=? idleworker s - nwork s then
    Done (with_pool (wrklist s) (nworker s - 1) (idleworker s) (nwork s) (<[w := WGone]> (workers s)) s)
  else
    worker_take w (with_pool (wrklist s) (nworker s) (idleworker s + 1) (nwork s) (workers s) s).

(** ** Requests: [handlereq] *)

(** The end of a handshake. *)
Definition handshake_complete (i : nat) (s : srv) : outcome srv :=
  let pid := h_getpid H (history s) in
  let s := upd_client i (spc_set_pid pid) s in
  let s := record_ev (EvSwitch 0) s in
  Done (upd_client i (spc_set_state SPCSTATE_RUNNING) s).

Definition handshake_guest (i : nat) (reqno : Z) (s : srv) : outcome srv :=
  c ← client s i;
  comm ← terminate_comm (spc_buf (spc_rx c)) (rsp_len (hdr_of (spc_hdr (spc_rx c))) - HDRSZ);
  _ ← bmk_assert (h_curlwp H (history s) =? 0) "_DIAGASSERT(lwproc_curlwp() == NULL)";
  let s := record_ev (EvRfork i RUMP_RFFD_CLEAR (Some comm)) s in
  if negb (h_rfork H (history s) =? 0) then Done (spcfreebuf i (record_ev (EvShutdown (spc_fd c)) s))
  else
    let s := spcfreebuf i s in
    let s := upd_client i (spc_set_mainlwp (h_curlwp H (history s))) s in
    '(_, s) ← send_handshake_resp i reqno 0 s;
    handshake_complete i s.

Fixpoint pf_find (auth : list Z) (l : list prefork) : option (prefork * list prefork) :=
  match l with
  | [] => None
  | pf :: l =>
      if bool_decide (pf_auth pf = auth) then Some (pf, l)
      else match pf_find auth l with Some (p, l') => Some (p, pf :: l') | None => None end
  end.

(** [struct handshake_fork] is 20 bytes: the key and [rf_cancel]. *)
Definition handshake_fork (i : nat) (reqno : Z) (s : srv) : outcome srv :=
  c ← client s i;
  if negb (spc_off (spc_rx c) - HDRSZ =? 20) then
    s ← send_error_resp i reqno RUMPSP_ERR_MALFORMED_REQUEST s;
    Done (spcfreebuf i (record_ev (EvShutdown (spc_fd c)) s))
  else
    rfp ← of_option "rfp" (spc_buf (spc_rx c));
    let cancel := le_decode (take 4 (drop 16 rfp)) in
    match pf_find (take 16 rfp) (preforks s) with
    | None =>
        s ← send_error_resp i reqno RUMPSP_ERR_INVALID_PREFORK (spcfreebuf i s);
        Done (record_ev (EvShutdown (spc_fd c)) s)
    | Some (pf, rest) =>
        let s := spcfreebuf i (with_preforks rest s) in
        let tmpmain := pf_lwp pf in
        let s := record_ev (EvSwitch tmpmain) s in
        if negb (cancel =? 0) then Done (record_ev (EvShutdown (spc_fd c)) (record_ev EvRelease s))
        else
          let s := record_ev (EvRfork i RUMP_RFFD_SHARE None) s in
          if negb (h_rfork H (history s) =? 0) then
            s ← send_error_resp i reqno RUMPSP_ERR_RFORK_FAILED s;
            Done (record_ev EvRelease (record_ev (EvShutdown (spc_fd c)) s))
          else
            let main := h_curlwp H (history s) in
            let s := upd_client i (spc_set_mainlwp main) s in
            let s := record_ev (EvSwitch main) (record_ev EvRelease (record_ev (EvSwitch tmpmain) s)) in
            '(_, s) ← send_handshake_resp i reqno 0 s;
            handshake_complete i s
    end.

Definition handle_prefork (i : nat) (reqno : Z) (s : srv) : outcome srv :=
  let s := spcfreebuf i s in
  c ← client s i;
  if spc_inexec c then
    s ← send_error_resp i reqno RUMPSP_ERR_INEXEC s;
    Done (record_ev (EvShutdown (spc_fd c)) s)
  else if negb (h_malloc H (history s)) then send_error_resp i reqno RUMPSP_ERR_NOMEM s
  else
    let s := record_ev (EvSwitch (spc_mainlwp c)) s in
    let s := record_ev (EvRfork i RUMP_RFFD_COPY None) s in
    if negb (h_rfork H (history s) =? 0) then
      s ← send_error_resp i reqno RUMPSP_ERR_RFORK_FAILED s;
      Done (record_ev (EvSwitch 0) s)
    else
      let auth := h_random H (history s) in
      let lwp := h_curlwp H (history s) in
      let s := record_ev (EvSwitch 0) s in
      let s := with_preforks (Prefork auth lwp :: preforks s) s in
      '(_, s) ← send_prefork_resp i reqno auth s;
      Done s.

Definition handle_exec (fuel : nat) (i : nat) (reqno : Z) (s : srv) : outcome srv :=
  c ← client s i;
  if negb (rsp_u (hdr_of (spc_hdr (spc_rx c))) =? HANDSHAKE_EXEC) then
    s ← send_error_resp i reqno RUMPSP_ERR_MALFORMED_REQUEST s;
    Done (spcfreebuf i (record_ev (EvShutdown (spc_fd c)) s))
  else if spc_inexec c then
    s ← send_error_resp i reqno RUMPSP_ERR_INEXEC s;
    Done (spcfreebuf i (record_ev (EvShutdown (spc_fd c)) s))
  else
    let s := upd_client i (spc_set_inexec true) s in
    let s := record_ev (EvSwitch 0) (record_ev EvLwpexit (record_ev (EvSwitch (spc_mainlwp c)) s)) in
    schedulework fuel i SBA_EXEC s.

Definition handlereq (fuel : nat) (i : nat) (s : srv) : outcome srv :=
  c ← client s i;
  let hdr := hdr_of (spc_hdr (spc_rx c)) in
  let reqno := rsp_reqno hdr in
  if decide (spc_state c = SPCSTATE_NEW) then
    if negb (rsp_type hdr =? RUMPSP_HANDSHAKE) then
      s ← send_error_resp i reqno RUMPSP_ERR_AUTH s;
      Done (spcfreebuf i (record_ev (EvShutdown (spc_fd c)) s))
    else if rsp_u hdr =? HANDSHAKE_GUEST then handshake_guest i reqno s
    else if rsp_u hdr =? HANDSHAKE_FORK then handshake_fork i reqno s
    else
      s ← send_error_resp i reqno RUMPSP_ERR_AUTH s;
      Done (spcfreebuf i (record_ev (EvShutdown (spc_fd c)) s))
  else if rsp_type hdr =? RUMPSP_PREFORK then handle_prefork i reqno s
  else if rsp_type hdr =? RUMPSP_HANDSHAKE then handle_exec fuel i reqno s
  else if negb (rsp_type hdr =? RUMPSP_SYSCALL) then
    s ← send_error_resp i reqno RUMPSP_ERR_MALFORMED_REQUEST s;
    Done (spcfreebuf i s)
  else schedulework fuel i SBA_SYSCALL s.

(** ** Requests of the rump kernel *)

(** [copyin_req] and [anonmmap_req] up to the wait, made by worker [w]. *)
Definition kernreq_msg (what : kernreq) (reqno : Z) : list Z :=
  match what with
  | KCopyin raddr len wantstr =>
      hdr_bytes (RspHdr (HDRSZ + 16) reqno RUMPSP_REQ (if wantstr then RUMPSP_COPYINSTR else RUMPSP_COPYIN) 0)
        ++ copydata raddr len
  | KAnonmmap howmuch => hdr_bytes (RspHdr (HDRSZ + 8) reqno RUMPSP_REQ RUMPSP_ANONMMAP 0) ++ le_encode 8 howmuch
  end.

Definition report (i : nat) (what : kernreq) (rv : Z) (data : list Z) (addr : Z) : ev :=
  match what with
  | KCopyin _ _ _ => EvCopyin i rv data
  | KAnonmmap _ => EvAnonmmap i rv addr
  end.

Definition kernreq_start (w : nat) (sba : servbouncearg) (what : kernreq) (s : srv) : outcome srv :=
  let i := sba_spc sba in
  '(reqno, s) ← putwait i s;
  let s := record_ev (EvSend i (kernreq_msg what reqno)) s in
  if negb (h_send H (history s) =? 0) then
    Done (record_ev (report i what Errno.EFAULT [] 0) (unputwait i reqno s))
  else Done (set_worker w (WCopy sba reqno what) (waitresp_start i s)).

(** What they do with the response.  [sp_copyin] copies [*len] bytes to the
    kernel's buffer, which has room for the number asked for; [*len] is the
    size of the response if a string was wanted. *)
Definition kernreq_result (i : nat) (what : kernreq) (rv : Z) (rw : respwait) : outcome ev :=
  match what with
  | KCopyin raddr len wantstr =>
      if negb (rv =? 0) then Done (EvCopyin i Errno.EFAULT [])
      else
        let dlen := if wantstr then rw_dlen rw else len in
        let rdata := default [] (rw_data rw) in
        if Z.of_nat (length rdata) <? dlen then Undef "memcpy: past the end of rdata"
        else if len <? dlen then Undef "memcpy: past the end of laddr"
        else Done (EvCopyin i 0 (take (Z.to_nat dlen) rdata))
  | KAnonmmap _ =>
      if negb (rv =? 0) then Done (EvAnonmmap i Errno.EFAULT 0)
      else
        let rdata := default [] (rw_data rw) in
        if Z.of_nat (length rdata) <? 8 then Undef "*(void **)rdata"
        else
          let resp := le_decode (take 8 rdata) in
          Done (EvAnonmmap i (if resp =? 0 then Errno.ENOMEM else 0) resp)
  end.

Definition kernreq_end (w : nat) (sba : servbouncearg) (reqno : Z) (what : kernreq) (s : srv) : outcome srv :=
  let i := sba_spc sba in
  res ← waitresp_end i reqno s;
  match res with
  | None => Done s
  | Some (rv, rw, s) =>
      e ← kernreq_result i what rv rw;
      Done (set_worker w (WSys sba) (record_ev e s))
  end.

(** [rumpuser_sp_copyout] and [rumpuser_sp_raise]. *)
Definition sp_copyout (i : nat) (raddr : Z) (data : list Z) (s : srv) : outcome (Z * srv) :=
  '(rv, s) ← send_copyout_req i raddr data s;
  Done (if negb (rv =? 0) then Errno.EFAULT else rv, s).

(** ** The main loop: [spserver] *)

(** [read] answers from a list; when that is used up there is nothing to
    read. *)
Definition reply_read (l : list read_reply) (left : Z) : read_reply * list read_reply :=
  match l with
  | [] => (RdErr Errno.EAGAIN, [])
  | r :: l => (r, l)
  end.

Definition serve_client (fuel : nat) (i : nat) (replies : list read_reply) (s : srv) : outcome srv :=
  c ← client s i;
  '(rv, rx, _) ← readframe reply_read (fun _ => h_malloc H (history s)) (spc_rx c) replies;
  let s := upd_client i (spc_set_rx rx) s in
  if rv =? 0 then Done s
  else if rv =? -1 then serv_handledisco i s
  else
    let hdr := hdr_of (spc_hdr rx) in
    if rsp_class hdr =? RUMPSP_RESP then kickwaiter i s
    else if rsp_class hdr =? RUMPSP_REQ then handlereq fuel i s
    else
      s ← send_error_resp i (rsp_reqno hdr) RUMPSP_ERR_MALFORMED_REQUEST s;
      Done (spcfreebuf i s).

Definition serve_listen (newfd : Z) (nonblock hook sent : bool) (s : srv) : outcome srv :=
  '(idx, s) ← serv_handleconn newfd (nfds s =? Z.of_nat MAXCLI) nonblock hook sent s;
  Done (with_disco (disco s) (if decide (idx = 0)%nat then nfds s else wrap32 (nfds s + 1)) (Nat.max idx (maxidx s)) s).

(** The search for the highest slot in use, from [idx] downwards. *)
Fixpoint max_used (idx : nat) (pfds : list Z) : option nat :=
  match idx with
  | O => None
  | S j => if bool_decide (pfds !! idx = Some (-1)) then max_used j pfds else Some idx
  end.

Definition gc_hangarounds (s : srv) : srv :=
  let mi := if disco s =? 0 then maxidx s else default (maxidx s) (max_used (maxidx s) (pfdlist s)) in
  with_disco 0 (wrap32 (nfds s - disco s)) mi s.

(** ** The machine *)
Inductive action :=
  | AGc
  | AConnect (newfd : Z) (nonblock hook sent : bool)
  | AReadable (i : nat) (replies : list read_reply)
  | AWorker (w : nat)
  | ASpurious (w : nat)
  | AKernreq (w : nat) (what : kernreq)
  | ACopyout (w : nat) (raddr : Z) (data : list Z).

Definition worker_step (w : nat) (s : srv) : outcome srv :=
  match workers s !! w with
  | Some WTop => worker_top w s
  | Some WWoken => worker_take w s
  | Some (WSys sba) =>
      s ← handlesyscall_end sba s;
      s ← spcrelease (sba_spc sba) s;
      Done (set_worker w WTop s)
  | Some (WCopy sba reqno what) => kernreq_end w sba reqno what s
  | Some (WExec sba) =>
      '(finished, s) ← handleexec sba s;
      if finished : bool then
        s ← spcrelease (sba_spc sba) s;
        Done (set_worker w WTop s)
      else Done s
  | Some WSleep | Some WGone | None => Done s
  end.

(** A step; an action whose thread is somewhere else leaves the state as it
    is.  [poll] reports only descriptors in [pfdlist]. *)
Definition server_step (fuel : nat) (a : action) (s : srv) : outcome srv :=
  match a with
  | AGc => Done (gc_hangarounds s)
  | AConnect newfd nonblock hook sent => serve_listen newfd nonblock hook sent s
  | AReadable i replies =>
      match pfdlist s !! i with
      | Some fd => if (fd =? -1) || bool_decide (i = 0)%nat || bool_decide (maxidx s < i)%nat then Done s
                   else serve_client fuel i replies s
      | None => Done s
      end
  | AWorker w => worker_step w s
  | ASpurious w =>
      match workers s !! w with
      | Some WSleep => Done (set_worker w WWoken s)
      | _ => Done s
      end
  | AKernreq w what =>
      match workers s !! w with
      | Some (WSys sba) => kernreq_start w sba what s
      | _ => Done s
      end
  | ACopyout w raddr data =>
      match workers s !! w with
      | Some (WSys sba) => '(_, s) ← sp_copyout (sba_spc sba) raddr data s; Done s
      | _ => Done s
      end
  end.

Fixpoint server_run (fuel : nat) (acts : list action) (s : srv) : outcome srv :=
  match acts with
  | [] => Done s
  | a :: acts => s ← server_step fuel a s; server_run fuel acts s
  end.
End server.

(** What [spserver] sets up; the rest of the globals is zero. *)
Definition spc_init (fd : Z) : spclient :=
  SpClient fd 0 SPCSTATE_NEW 0 0 [] rx_empty 0 0 SPCSTATUS_FREE SPCSTATUS_FREE false.
Definition server_start (sock : Z) : srv :=
  Srv (spc_init sock :: replicate (MAXCLI - 1) (spc_init (-1))) (sock :: replicate (MAXCLI - 1) (-1))
    0 1 0 [] [] 0 0 0 [] [].
