(* ===== verification/SpServInv.v ===== *)
(** * The server of the system call proxy: invariant

    What holds of the server between any two steps of its threads: every slot
    of the client table is accounted for by the connection and the work that
    refers to it, every waiter belongs to a worker that waits, and the worker
    pool's counters say what the threads do. *)

From S2P Require Import Prelude Count Mem SpWire SpServ.

(** ** Weakest preconditions

    An outcome is acceptable if it is a state in [Q] or undefined behaviour,
    which a client can provoke (see the theorems on [terminate_comm] and
    [kernreq_result]); it is no failed assertion, except the one on the
    kernel's current [lwp], which is up to the kernel. *)
Definition curlwp_assert : string := "_DIAGASSERT(lwproc_curlwp() == NULL)".
Definition wp {A} (m : outcome A) (Q : A -> Prop) : Prop :=
  match m with
  | Done a => Q a
  | Halt w => w = curlwp_assert
  | Undef _ => True
  end.

Lemma wp_bind {A B} (m : outcome A) (f : A -> outcome B) Q : wp m (fun a => wp (f a) Q) -> wp (m ≫= f) Q.
Proof. by destruct m. Qed.
Lemma wp_mono {A} (m : outcome A) (P Q : A -> Prop) : wp m P -> (forall a, P a -> Q a) -> wp m Q.
Proof. destruct m; cbn; auto. Qed.
Lemma wp_option {A} what (o : option A) Q : (forall a, o = Some a -> Q a) -> wp (of_option what o) Q.
Proof. destruct o; cbn; auto. Qed.

(** ** What refers to a client *)
Definition busy_sba (w : wphase) : option servbouncearg :=
  match w with
  | WSys sba | WCopy sba _ _ | WExec sba => Some sba
  | _ => None
  end.
Definition of_client (i : nat) (sba : servbouncearg) : bool := bool_decide (sba_spc sba = i).
Definition holds (i : nat) (w : wphase) : bool :=
  match busy_sba w with Some sba => of_client i sba | None => false end.
(** The work items of client [i], queued or in a worker's hands. *)
Definition uses (i : nat) (s : srv) : Z := count (of_client i) (wrklist s) + count (holds i) (workers s).
(** The requests workers wait for client [i] to answer. *)
Definition wait_of (i : nat) (w : wphase) : option Z :=
  match w with WCopy sba reqno _ => if of_client i sba then Some reqno else None | _ => None end.
Definition waits (i : nat) (s : srv) : list Z := omap (wait_of i) (workers s).

(** ** The invariant *)
Definition slot_ok (p : Z) (c : spclient) (u : Z) (ws : list Z) : Prop :=
  spc_ostatus c = SPCSTATUS_FREE /\ map rw_reqno (spc_respwait c) ≡ₚ ws /\
  (p <> -1 /\ (spc_state c = SPCSTATE_NEW /\ u = 0 \/ spc_state c = SPCSTATE_RUNNING) /\ spc_refcnt c = 1 + u \/
   p = -1 /\ spc_state c = SPCSTATE_DYING /\ spc_refcnt c = u /\ 0 < u /\ spc_buf (spc_rx c) = None \/
   p = -1 /\ spc_state c = SPCSTATE_NEW /\ u = 0 /\ spc_buf (spc_rx c) = None).

Definition slots (s : srv) : list (Z * spclient) := zip (pfdlist s) (spclist s).
Definition slot_used (pc : Z * spclient) : bool :=
  negb (pc.1 =? -1) || bool_decide (spc_state pc.2 = SPCSTATE_DYING).

Definition is_woken (w : wphase) : bool := match w with WWoken => true | _ => false end.
Definition is_there (w : wphase) : bool := match w with WGone => false | _ => true end.

(** [F]: threads may fail to be created. *)
Record pool_ok (F : Prop) (s : srv) : Prop := PoolOk {
  pool_nwork : nwork s = Z.of_nat (length (wrklist s));
  pool_idle : idleworker s = count is_sleeping (workers s) + count is_woken (workers s);
  pool_nworker : nworker s = count is_there (workers s);
  pool_woken : Z.min (nwork s) (idleworker s) <= count is_woken (workers s);
  pool_alive : wrklist s = [] \/ 0 < nworker s \/ F }.

Record slots_ok (s : srv) : Prop := SlotsOk {
  slots_len : length (pfdlist s) = MAXCLI /\ length (spclist s) = MAXCLI;
  slots_all : forall i p c, i <> 0%nat -> slots s !! i = Some (p, c) -> slot_ok p c (uses i s) (waits i s);
  slots_0 : exists p, pfdlist s !! 0%nat = Some p /\ p <> -1;
  slots_uses : forall i, (i = 0 \/ MAXCLI <= i)%nat -> uses i s = 0 }.

Record count_ok (s : srv) : Prop := CountOk {
  count_nfds : nfds s = count slot_used (slots s) + disco s;
  count_disco : 0 <= disco s;
  count_max : nfds s <= Z.of_nat MAXCLI;
  count_maxidx : forall i p, pfdlist s !! i = Some p -> p <> -1 -> (i <= maxidx s)%nat }.

Record inv (F : Prop) (s : srv) : Prop := Inv {
  inv_pool : pool_ok F s;
  inv_slots : slots_ok s;
  inv_count : count_ok s }.

Arguments inv_pool {F} s _.
Arguments inv_slots {F} s _.
Arguments inv_count {F} s _.

(** ** Running handlers on one client

    A state with its client [i] shown; handlers are run on states of this
    shape. *)
Definition loc (i : nat) (c : spclient) (s : srv) : srv := with_clients (<[i := c]> (spclist s)) s.

(** The same up to the history and the preforks. *)
Definition same (s s' : srv) : Prop :=
  spclist s' = spclist s /\ pfdlist s' = pfdlist s /\ disco s' = disco s /\ nfds s' = nfds s /\ maxidx s' = maxidx s /\
  wrklist s' = wrklist s /\ nworker s' = nworker s /\ idleworker s' = idleworker s /\ nwork s' = nwork s /\
  workers s' = workers s.

(** A change of a client that the invariant does not notice. *)
Definition harmless (c c' : spclient) : Prop :=
  spc_refcnt c' = spc_refcnt c /\ spc_state c' = spc_state c /\ spc_ostatus c' = spc_ostatus c /\
  map rw_reqno (spc_respwait c') ≡ₚ map rw_reqno (spc_respwait c) /\
  (spc_buf (spc_rx c) = None -> spc_buf (spc_rx c') = None).

Lemma same_refl s : same s s.
Proof. repeat split. Qed.
Lemma same_ev e s s' : same s s' -> same s (record_ev e s').
Proof. intros (? & ? & ? & ? & ? & ? & ? & ? & ? & ?). repeat split; done. Qed.
Lemma same_preforks l s s' : same s s' -> same s (with_preforks l s').
Proof. intros (? & ? & ? & ? & ? & ? & ? & ? & ? & ?). repeat split; done. Qed.
Lemma harmless_refl c : harmless c c.
Proof. repeat split; auto. Qed.
Lemma harmless_trans c1 c2 c3 : harmless c1 c2 -> harmless c2 c3 -> harmless c1 c3.
Proof. unfold harmless. intros (? & ? & ? & E & ?) (? & ? & ? & E' & ?). repeat split; try congruence; auto. by rewrite E'. Qed.

Create HintDb sp.
#[export] Hint Resolve same_refl same_ev same_preforks harmless_refl : sp.

Section loc.
Context (H : host) (i : nat).

Lemma loc_id c s : spclist s !! i = Some c -> s = loc i c s.
Proof. intros E. unfold loc, with_clients. rewrite list_insert_id by done. by destruct s. Qed.
Lemma client_loc c s : is_Some (spclist s !! i) -> client (loc i c s) i = Done c.
Proof. intros [c0 E]. unfold client, loc; cbn. rewrite list_lookup_insert_eq by (by eapply lookup_lt_Some). done. Qed.
Lemma upd_loc f c s : is_Some (spclist s !! i) -> upd_client i f (loc i c s) = loc i (f c) s.
Proof.
  intros [c0 E]. unfold upd_client, loc, with_clients; cbn. f_equal.
  assert (Hi := lookup_lt_Some _ _ _ E). apply list_eq. intros j. destruct (decide (i = j)) as [<- |].
  - rewrite list_lookup_alter_eq, !list_lookup_insert_eq by done. done.
  - by rewrite list_lookup_alter_ne, !list_lookup_insert_ne by done.
Qed.
Lemma ev_loc e c s : record_ev e (loc i c s) = loc i c (record_ev e s).
Proof. done. Qed.
Lemma preforks_loc l c s : with_preforks l (loc i c s) = loc i c (with_preforks l s).
Proof. done. Qed.
Lemma history_loc c s : history (loc i c s) = history s.
Proof. done. Qed.
Lemma some_ev e s : is_Some (spclist s !! i) -> is_Some (spclist (record_ev e s) !! i).
Proof. done. Qed.

Lemma locked_send_loc b c s : is_Some (spclist s !! i) -> spc_ostatus c = SPCSTATUS_FREE ->
  locked_send H i b (loc i c s) = Done (h_send H (EvSend i b :: history s), loc i c (record_ev (EvSend i b) s)).
Proof.
  intros Hs Ho. unfold locked_send, sendlockl, sendunlockl. rewrite client_loc, Done_bind by done.
  rewrite decide_True, Done_bind by done. rewrite upd_loc, ev_loc, upd_loc by done. cbn. do 3 f_equal.
  destruct c; cbn in *. by subst.
Qed.
End loc.

(** * The server of the system call proxy: what each handler does to a client *)


(** Runs a handler on a state of the shape [loc i c s]. *)
Ltac sp_run :=
  repeat first
    [ rewrite Done_bind
    | rewrite client_loc by (cbn; done)
    | rewrite upd_loc by (cbn; done)
    | rewrite locked_send_loc by (cbn; done)
    | rewrite ev_loc
    | rewrite preforks_loc ].

Lemma rw_update_map reqno f l : (forall rw, rw_reqno (f rw) = rw_reqno rw) ->
  map rw_reqno (rw_update reqno f l) = map rw_reqno l.
Proof. intros Hf. induction l as [| rw l IH]; [done |]. cbn. case_match; cbn; rewrite ?Hf; congruence. Qed.

Section handlers.
Context (H : host) (maxw idlew : Z) (i : nat).

(** The outcome of a handler that leaves what the invariant says of its
    client alone, except that it may start it running. *)
Definition quiet (c : spclient) (s : srv) (m : outcome srv) : Prop :=
  wp m (fun s' => exists c' s1, s' = loc i c' s1 /\ same s s1 /\ harmless c c').
Definition starts (c : spclient) (s : srv) (m : outcome srv) : Prop :=
  wp m (fun s' => exists c' s1, s' = loc i c' s1 /\ same s s1 /\
    (harmless c c' \/ spc_state c' = SPCSTATE_RUNNING /\ harmless c (spc_set_state (spc_state c) c'))).

Lemma quiet_intro c s c' s1 : same s s1 -> harmless c c' -> quiet c s (Done (loc i c' s1)).
Proof. intros. exists c', s1. auto. Qed.
Lemma quiet_starts c s m : quiet c s m -> starts c s m.
Proof. intros Hq. eapply wp_mono; [exact Hq |]. intros s' (c' & s1 & ? & ? & ?). exists c', s1. auto. Qed.

Context (c : spclient) (s : srv).
Hypothesis Hs : is_Some (spclist s !! i).
Hypothesis Ho : spc_ostatus c = SPCSTATUS_FREE.

Lemma send_error_resp_loc c' s' reqno e : is_Some (spclist s' !! i) -> spc_ostatus c' = SPCSTATUS_FREE ->
  send_error_resp H i reqno e (loc i c' s') =
  Done (loc i c' (record_ev (EvSend i (hdr_bytes (RspHdr HDRSZ reqno RUMPSP_ERROR 0 (err_code e)))) s')).
Proof. intros. unfold send_error_resp. by sp_run. Qed.

Lemma spcfreebuf_loc c' s' : is_Some (spclist s' !! i) ->
  spcfreebuf i (loc i c' s') = loc i (spc_set_rx (spcresetbuf (spc_rx c')) c') s'.
Proof. intros. unfold spcfreebuf. by sp_run. Qed.

Lemma kickwaiter_quiet : quiet c s (kickwaiter i (loc i c s)).
Proof using Hs Ho.
  unfold kickwaiter. sp_run. destruct (rw_find _ _); sp_run; rewrite spcfreebuf_loc by done; apply quiet_intro;
    auto 20 with sp; repeat split; auto.
  cbn [spc_respwait spc_set_rx spc_set_respwait]. by rewrite rw_update_map.
Qed.

Lemma handshake_guest_starts reqno : starts c s (handshake_guest H i reqno (loc i c s)).
Proof using Hs Ho.
  unfold handshake_guest. sp_run. apply wp_bind. destruct (terminate_comm _ _ _) as [comm | |] eqn:Et; [| | exact I].
  2: { unfold terminate_comm in Et. repeat case_match; discriminate. }
  cbn [wp]. rewrite history_loc. apply wp_bind. destruct (_ =? 0); cbn [bmk_assert wp]; [| done]. sp_run.
  destruct (negb _).
  - sp_run. rewrite spcfreebuf_loc by done. apply quiet_starts, quiet_intro; auto 20 with sp. repeat split; auto.
  - rewrite spcfreebuf_loc by done. unfold send_handshake_resp, handshake_complete. sp_run.
    eexists _, _. split; [reflexivity |]. split; [auto 20 with sp |]. right. repeat split; auto.
Qed.

Lemma handshake_fork_starts reqno : starts c s (handshake_fork H i reqno (loc i c s)).
Proof using Hs Ho.
  unfold handshake_fork. sp_run. destruct (negb _).
  { rewrite send_error_resp_loc by done. sp_run. rewrite spcfreebuf_loc by done.
    apply quiet_starts, quiet_intro; auto 20 with sp. repeat split; auto. }
  apply wp_bind, wp_option. intros rfp _. change (preforks (loc i c s)) with (preforks s).
  destruct (pf_find _ _) as [[pf rest] |].
  2: { rewrite spcfreebuf_loc by done. rewrite send_error_resp_loc by done. sp_run.
    apply quiet_starts, quiet_intro; auto 20 with sp. repeat split; auto. }
  rewrite preforks_loc, spcfreebuf_loc, ev_loc by done. destruct (negb _).
  { sp_run. apply quiet_starts, quiet_intro; auto 20 with sp. repeat split; auto. }
  sp_run. rewrite history_loc. destruct (negb _).
  { rewrite send_error_resp_loc by done. sp_run. apply quiet_starts, quiet_intro; auto 20 with sp. repeat split; auto. }
  sp_run. unfold send_handshake_resp, handshake_complete. sp_run.
  eexists _, _. split; [reflexivity |]. split; [auto 20 with sp |]. right. repeat split; auto.
Qed.

Lemma handle_prefork_quiet reqno : quiet c s (handle_prefork H i reqno (loc i c s)).
Proof using Hs Ho.
  unfold handle_prefork. rewrite spcfreebuf_loc by done. sp_run. cbn [spc_inexec spc_set_rx].
  destruct (spc_inexec c).
  { rewrite send_error_resp_loc by done. sp_run. apply quiet_intro; auto 20 with sp. repeat split; auto. }
  destruct (negb _).
  { rewrite send_error_resp_loc by done. apply quiet_intro; auto 20 with sp. repeat split; auto. }
  sp_run. destruct (negb _).
  { rewrite send_error_resp_loc by done. sp_run. apply quiet_intro; auto 20 with sp. repeat split; auto. }
  sp_run. unfold send_prefork_resp. sp_run. apply quiet_intro; auto 20 with sp. repeat split; auto.
Qed.
End handlers.

(** ** Work and references *)
Section work.
Context (H : host) (maxw idlew : Z) (i : nat).

Lemma alloc_loc c fuel : forall r s, wp (schedulework_alloc H fuel r (loc i c s))
  (fun '(b, s') => exists s1, s' = loc i c s1 /\ same s s1).
Proof.
  induction fuel as [| fuel IH]; intros r s; [exact I |]. cbn [schedulework_alloc].
  destruct (h_malloc _ _); [exists s; auto with sp |].
  destruct (_ || _); [exists s; auto with sp |]. rewrite ev_loc.
  eapply wp_mono; [apply IH |]. intros [b s'] (s1 & -> & Hsame). exists s1. split; [done |].
  destruct Hsame as (? & ? & ? & ? & ? & ? & ? & ? & ? & ?). repeat split; done.
Qed.

(** A handler's outcome: a quiet change, the end of a handshake, or a work
    item for a client that has had its handshake. *)
Definition req_post (c : spclient) (s s' : srv) : Prop :=
  (exists c' s1, s' = loc i c' s1 /\ same s s1 /\ harmless c c') \/
  (exists c' s1, s' = loc i c' s1 /\ same s s1 /\ spc_state c = SPCSTATE_NEW /\
     spc_state c' = SPCSTATE_RUNNING /\ harmless c (spc_set_state (spc_state c) c')) \/
  (exists c' s1 sba, s' = enqueue_work H maxw sba (loc i c' s1) /\ sba_spc sba = i /\ same s s1 /\
     spc_state c <> SPCSTATE_NEW /\ spc_refcnt c' = spc_refcnt c + 1 /\ harmless c (spc_set_refcnt (spc_refcnt c) c')).

Context (c : spclient) (s : srv).
Hypothesis Hs : is_Some (spclist s !! i).
Hypothesis Ho : spc_ostatus c = SPCSTATUS_FREE.

Lemma schedulework_post fuel ty c0 s0 : spc_state c <> SPCSTATE_NEW -> harmless c c0 -> same s s0 ->
  wp (schedulework H maxw fuel i ty (loc i c0 s0)) (req_post c s).
Proof using Hs Ho.
  intros Hnew Hc Hsame. assert (Hs0 : is_Some (spclist s0 !! i)) by (destruct Hsame as [E _]; by rewrite E).
  assert (Ho0 : spc_ostatus c0 = SPCSTATUS_FREE) by (destruct Hc as (_ & _ & E & _); congruence).
  unfold schedulework. sp_run. apply wp_bind. eapply wp_mono; [apply alloc_loc |].
  intros [b s'] (s1 & -> & Hs1). assert (Hss : same s s1).
  { destruct Hsame as (? & ? & ? & ? & ? & ? & ? & ? & ? & ?), Hs1 as (? & ? & ? & ? & ? & ? & ? & ? & ? & ?).
    repeat split; congruence. }
  assert (Hs1' : is_Some (spclist s1 !! i)) by (destruct Hss as [E _]; by rewrite E). destruct b.
  - right; right. unfold spcref. rewrite spcfreebuf_loc by done. sp_run. eexists _, s1, _.
    split; [reflexivity |]. split; [done |]. split; [done |]. split; [done |].
    destruct Hc as (? & ? & ? & ? & ?). split; [cbn; congruence |]. repeat split; cbn; auto.
  - rewrite send_error_resp_loc by done. sp_run. rewrite spcfreebuf_loc by done. left.
    eexists _, _. split; [reflexivity |]. split; [auto with sp |].
    eapply harmless_trans; [exact Hc |]. repeat split; auto.
Qed.

Lemma quiet_post m : quiet i c s m -> wp m (req_post c s).
Proof. intros Hq. eapply wp_mono; [exact Hq |]. intros s' ?. by left. Qed.
Lemma starts_post m : spc_state c = SPCSTATE_NEW -> starts i c s m -> wp m (req_post c s).
Proof.
  intros Hn Hq. eapply wp_mono; [exact Hq |]. intros s' (c' & s1 & ? & ? & [? | [? ?]]); [left | right; left]; eauto 10.
Qed.

Lemma handlereq_post fuel : wp (handlereq H maxw fuel i (loc i c s)) (req_post c s).
Proof using Hs Ho.
  unfold handlereq. sp_run. destruct (decide (spc_state c = SPCSTATE_NEW)) as [Hn | Hn].
  - destruct (negb _).
    { rewrite send_error_resp_loc by done. sp_run. rewrite spcfreebuf_loc by done.
      apply quiet_post, quiet_intro; auto 20 with sp. repeat split; auto. }
    destruct (_ =? HANDSHAKE_GUEST); [by apply starts_post, handshake_guest_starts |].
    destruct (_ =? HANDSHAKE_FORK); [by apply starts_post, handshake_fork_starts |].
    rewrite send_error_resp_loc by done. sp_run. rewrite spcfreebuf_loc by done.
    apply quiet_post, quiet_intro; auto 20 with sp. repeat split; auto.
  - destruct (_ =? RUMPSP_PREFORK); [by apply quiet_post, handle_prefork_quiet |].
    destruct (_ =? RUMPSP_HANDSHAKE).
    { unfold handle_exec. sp_run. destruct (negb _).
      { rewrite send_error_resp_loc by done. sp_run. rewrite spcfreebuf_loc by done.
        apply quiet_post, quiet_intro; auto 20 with sp. repeat split; auto. }
      destruct (spc_inexec c).
      { rewrite send_error_resp_loc by done. sp_run. rewrite spcfreebuf_loc by done.
        apply quiet_post, quiet_intro; auto 20 with sp. repeat split; auto. }
      sp_run. apply schedulework_post; [done | | auto 20 with sp]. repeat split; auto. }
    destruct (negb _).
    { rewrite send_error_resp_loc by done. sp_run. rewrite spcfreebuf_loc by done.
      apply quiet_post, quiet_intro; auto 20 with sp. repeat split; auto. }
    apply schedulework_post; auto with sp.
Qed.

(** [spcrelease]: one reference less, or the slot is free again. *)
Definition released (c c' : spclient) : Prop :=
  spc_state c' = SPCSTATE_NEW /\ spc_ostatus c' = spc_ostatus c /\ spc_respwait c' = [] /\ spc_buf (spc_rx c') = None.

Lemma spcrelease_post (c0 : spclient) : (0 < spc_refcnt c0 - 1 \/ spc_respwait c0 = [] /\ spc_buf (spc_rx c0) = None) ->
  wp (spcrelease i (loc i c0 s)) (fun s' => exists c' s1, same s s1 /\
    (0 < spc_refcnt c0 - 1 /\ s' = loc i c' s1 /\ spc_refcnt c' = spc_refcnt c0 - 1 /\ harmless c0 (spc_set_refcnt (spc_refcnt c0) c') \/
     spc_refcnt c0 - 1 <= 0 /\ s' = signaldisco (loc i c' s1) /\ released c0 c')).
Proof using Hs.
  intros Hc. unfold spcrelease. sp_run. cbn [spc_refcnt spc_set_refcnt]. destruct (Z.ltb_spec 0 (spc_refcnt c0 - 1)).
  - eexists _, s. split; [auto with sp |]. left. split; [done |]. split; [reflexivity |]. split; [done |]. repeat split; auto.
  - destruct Hc as [? | [Hr Hb]]; [lia |]. cbn [spc_respwait spc_rx spc_set_refcnt].
    rewrite !bool_decide_true by done. cbn [bmk_assert]. sp_run. cbn [spc_mainlwp spc_set_refcnt].
    destruct (spc_mainlwp c0 =? 0); sp_run; eexists _, _; (split; [| right; split; [done |]; split; [reflexivity |]; done]);
      auto 20 with sp.
Qed.
End work.
