(* ===== verification/SpServStep.v ===== *)
(** * The server of the system call proxy: every step preserves the invariant *)

From S2P Require Import Prelude Count Mem SpWire SpServ SpServInv.

Section refs.
Context {F : Prop}.
Local Abbreviation pool_ok := (pool_ok F).
Local Abbreviation inv := (inv F).

(** ** The pool *)

(** A worker's contribution to the counters. *)
Definition pclass (w : wphase) : bool * bool * bool := (is_sleeping w, is_woken w, is_there w).

Lemma pool_ext s s' : wrklist s' = wrklist s -> nworker s' = nworker s -> idleworker s' = idleworker s ->
  nwork s' = nwork s -> workers s' = workers s -> pool_ok s -> pool_ok s'.
Proof. intros E1 E2 E3 E4 E5 []. constructor; congruence. Qed.

Lemma pool_set_worker s w q p : workers s !! w = Some q -> pclass q = pclass p -> pool_ok s -> pool_ok (set_worker w p s).
Proof.
  intros Hw [= E1 E2 E3] []. constructor; cbn; rewrite ?(count_insert _ _ _ q) by done;
    rewrite ?E1, ?E2, ?E3; done || lia.
Qed.

Lemma wake_nth_count (P : wphase -> bool) ws : forall n, P WSleep = P WWoken -> count P (wake_nth n ws) = count P ws.
Proof.
  induction ws as [| w ws IH]; intros n HP; [done |].
  destruct w; cbn [wake_nth]; rewrite ?count_cons, ?IH by done; try done.
  destruct n; rewrite !count_cons, ?IH by done; rewrite ?HP; done.
Qed.

Lemma wake_nth_sleeping ws : forall n, (n < sleepers ws)%nat ->
  count is_sleeping (wake_nth n ws) = count is_sleeping ws - 1 /\ count is_woken (wake_nth n ws) = count is_woken ws + 1.
Proof.
  assert (Hsl : forall l, Z.of_nat (sleepers l) = count is_sleeping l) by done.
  induction ws as [| w ws IH]; intros n Hn; [cbn in Hn; lia |].
  assert (Hn' : Z.of_nat n < count is_sleeping (w :: ws)) by (rewrite <- Hsl; lia). rewrite count_cons in Hn'.
  destruct w; cbn [wake_nth]; cbn [is_sleeping b2z] in Hn'; try (rewrite !count_cons; cbn [is_sleeping is_woken b2z];
    destruct (IH n) as [E1 E2]; [pose proof (Hsl ws); lia |]; lia).
  destruct n as [| n]; rewrite !count_cons; cbn [is_sleeping is_woken b2z]; [lia |].
  destruct (IH n) as [E1 E2]; [pose proof (Hsl ws); lia |]. lia.
Qed.

Lemma signal_one_count n ws :
  (count is_sleeping ws = 0 /\ signal_one n ws = ws) \/
  (count is_sleeping (signal_one n ws) = count is_sleeping ws - 1 /\ count is_woken (signal_one n ws) = count is_woken ws + 1).
Proof.
  unfold signal_one. destruct (decide (sleepers ws = 0%nat)) as [E | E].
  - left. split; [unfold count; fold (sleepers ws); lia |]. generalize (n mod sleepers ws)%nat.
    assert (Ez : count is_sleeping ws = 0) by (unfold count; fold (sleepers ws); lia). clear E.
    induction ws as [| w ws IH]; intros k; [done |]. rewrite count_cons in Ez. pose proof (count_pos is_sleeping ws).
    destruct w; cbn [is_sleeping b2z] in Ez; try lia; cbn [wake_nth]; f_equal; apply IH; lia.
  - right. apply wake_nth_sleeping. by apply Nat.mod_upper_bound.
Qed.

(** ** Slots *)

(** [s'] differs from [s] in slot [i], which is now [(p', c')]. *)
Definition slot_upd (i : nat) (p' : Z) (c' : spclient) (s s' : srv) : Prop :=
  pfdlist s' = <[i := p']> (pfdlist s) /\ spclist s' = <[i := c']> (spclist s).

Lemma slots_upd i p' c' s s' : slot_upd i p' c' s s' -> slots s' = <[i := (p', c')]> (slots s).
Proof. intros [E1 E2]. unfold slots. rewrite E1, E2. symmetry. apply (insert_zip_with pair). Qed.

Lemma slots_lookup s i p c : slots s !! i = Some (p, c) <-> pfdlist s !! i = Some p /\ spclist s !! i = Some c.
Proof.
  unfold slots. rewrite lookup_zip_with. split.
  - destruct (pfdlist s !! i), (spclist s !! i); cbn; naive_solver.
  - intros [-> ->]. done.
Qed.

Lemma slots_update s s' i p c p' c' : slots_ok s -> i <> 0%nat -> slots s !! i = Some (p, c) -> slot_upd i p' c' s s' ->
  (forall j, j <> i -> uses j s' = uses j s /\ waits j s' ≡ₚ waits j s) ->
  slot_ok p' c' (uses i s') (waits i s') -> slots_ok s'.
Proof.
  intros [[L1 L2] Hall (p0 & H0 & H0') Hu0] Hi Hsl Hupd Hoth Hok. pose proof Hupd as [E1 E2]. constructor.
  - by rewrite E1, E2, !length_insert.
  - intros j q d Hj. rewrite (slots_upd _ _ _ _ _ Hupd).
    destruct (decide (j = i)) as [-> | Hne].
    + rewrite list_lookup_insert_eq by (by eapply lookup_lt_Some). by intros [= <- <-].
    + rewrite list_lookup_insert_ne by done. intros Hd. destruct (Hoth j Hne) as [Eu Ew].
      destruct (Hall j q d Hj Hd) as (? & Hp & ?). split; [done |]. rewrite Eu, Ew. done.
  - exists p0. by rewrite E1, list_lookup_insert_ne by done.
  - intros j Hj. destruct (Hoth j) as [-> _]; [| by apply Hu0]. intros ->.
    apply lookup_lt_Some in Hsl. unfold slots in Hsl. rewrite length_zip_with in Hsl. lia.
Qed.

Lemma count_update s s' i p c p' c' : count_ok s -> slots s !! i = Some (p, c) -> slot_upd i p' c' s s' ->
  nfds s' = nfds s -> maxidx s' = maxidx s -> (p' <> -1 -> p <> -1) ->
  disco s' = disco s + b2z (slot_used (p, c)) - b2z (slot_used (p', c')) -> 0 <= disco s' -> count_ok s'.
Proof.
  intros [Hn Hd Hm Hx] Hsl Hupd En Em Hp Ed Hd'. pose proof Hupd as [E1 E2].
  apply slots_lookup in Hsl as Hsl'. constructor.
  - rewrite (slots_upd _ _ _ _ _ Hupd), (count_insert _ _ _ (p, c)) by done. lia.
  - done.
  - congruence.
  - intros j q. rewrite E1, Em. destruct (decide (j = i)) as [-> | Hne].
    + rewrite list_lookup_insert_eq by (eapply lookup_lt_Some, Hsl'). intros [= <-] Hq. eapply Hx; [apply Hsl' | auto].
    + rewrite list_lookup_insert_ne by done. apply Hx.
Qed.

Lemma loc_upd i p c c' s s1 : slots s !! i = Some (p, c) -> same s s1 -> slot_upd i p c' s (loc i c' s1).
Proof.
  intros Hsl (E1 & E2 & _). apply slots_lookup in Hsl as [Hp _]. split; cbn; [| by rewrite E1].
  by rewrite list_insert_id, E2.
Qed.

Lemma harmless_slot p c c' u ws : harmless c c' -> slot_ok p c u ws -> slot_ok p c' u ws.
Proof.
  intros (E1 & E2 & E3 & E4 & E5) (Ho & Hw & Hcase). unfold slot_ok. rewrite E1, E2, E3, E4.
  split; [done |]. split; [done |]. naive_solver.
Qed.

Lemma harmless_used p c c' : harmless c c' -> slot_used (p, c') = slot_used (p, c).
Proof. intros (_ & E & _). unfold slot_used; cbn. by rewrite E. Qed.

Lemma same_uses s s1 i c j : same s s1 -> uses j (loc i c s1) = uses j s /\ waits j (loc i c s1) = waits j s.
Proof. intros (_ & _ & _ & _ & _ & E1 & _ & _ & _ & E2). unfold uses, waits; cbn. by rewrite E1, E2. Qed.

Lemma same_pool s s1 i c : same s s1 -> pool_ok s -> pool_ok (loc i c s1).
Proof. intros (_ & _ & _ & _ & _ & E1 & E2 & E3 & E4 & E5). by apply pool_ext. Qed.

(** A handler's quiet change keeps the invariant. *)
Lemma inv_quiet s s1 i p c c' : inv s -> i <> 0%nat -> slots s !! i = Some (p, c) -> same s s1 -> harmless c c' ->
  inv (loc i c' s1).
Proof.
  intros [Hpool Hslots Hcount] Hi Hsl Hsame Hh. pose proof (loc_upd i p c c' s s1 Hsl Hsame) as Hupd. constructor.
  - by eapply same_pool.
  - eapply slots_update; eauto.
    + intros j _. destruct (same_uses s s1 i c' j Hsame) as [-> ->]. done.
    + destruct (same_uses s s1 i c' i Hsame) as [-> ->]. eapply harmless_slot; [done |]. by apply slots_all.
  - destruct Hsame as (_ & _ & Ed & En & Em & _). eapply (count_update s _ i p c p c'); try done.
    + rewrite (harmless_used p c c') by done. change (disco s1 = disco s + b2z (slot_used (p, c)) - b2z (slot_used (p, c))). lia.
    + change (0 <= disco s1). destruct Hcount. lia.
Qed.

(** So does the end of a handshake. *)
Lemma inv_starts s s1 i p c c' : inv s -> i <> 0%nat -> slots s !! i = Some (p, c) -> p <> -1 -> same s s1 ->
  spc_state c = SPCSTATE_NEW -> spc_state c' = SPCSTATE_RUNNING -> harmless c (spc_set_state (spc_state c) c') ->
  inv (loc i c' s1).
Proof.
  intros [Hpool Hslots Hcount] Hi Hsl Hp Hsame Hn Hr (E1 & _ & E3 & E4 & _).
  pose proof (loc_upd i p c c' s s1 Hsl Hsame) as Hupd. cbn in E1, E3, E4. constructor.
  - by eapply same_pool.
  - eapply slots_update; eauto.
    + intros j _. destruct (same_uses s s1 i c' j Hsame) as [-> ->]. done.
    + destruct (same_uses s s1 i c' i Hsame) as [-> ->].
      destruct (slots_all _ Hslots i p c Hi Hsl) as (Ho & Hw & Hcase). unfold slot_ok. rewrite E1, E3, E4, Hr.
      split; [done |]. split; [done |]. left. naive_solver.
  - destruct Hsame as (_ & _ & Ed & En & Em & _). eapply (count_update s _ i p c p c'); try done.
    + unfold slot_used; cbn [fst snd]. rewrite Hn, Hr, !bool_decide_false by done. change (disco (loc i c' s1)) with (disco s1). lia.
    + change (0 <= disco s1). destruct Hcount. lia.
Qed.

Section steps.
Context (H : host) (maxw idlew : Z).
Hypothesis HF : F \/ (forall h, h_create H h = true) /\ 1 <= maxw /\ 0 <= idlew.

Lemma pool_enqueue s sba : pool_ok s -> pool_ok (enqueue_work H maxw sba s).
Proof.
  intros [Hn Hi Hw Hk Ha]. unfold enqueue_work. pose proof (count_pos is_sleeping (workers s)).
  assert (Hthere : idleworker s <= nworker s).
  { rewrite Hi, Hw. clear. induction (workers s) as [| w ws IH]; [done |]. rewrite !count_cons.
    destruct w; cbn [is_sleeping is_woken is_there b2z]; lia. }
  destruct (Z.leb_spec (nwork s + 1) (idleworker s)).
  - constructor; cbn; rewrite ?length_app; cbn [length]; try lia.
    + destruct (signal_one_count (h_wake H (history s)) (workers s)) as [[Ez ->] | [E1 E2]]; lia.
    + unfold signal_one. by rewrite wake_nth_count.
    + destruct (signal_one_count (h_wake H (history s)) (workers s)) as [[Ez ->] | [E1 E2]]; lia.
  - pose proof (count_pos is_woken (workers s)). destruct (Z.ltb_spec (nworker s) maxw);
      [destruct (h_create H _) eqn:Ec |]; constructor; cbn; rewrite ?length_app, ?count_app, ?count_cons, ?count_nil;
      cbn [length is_sleeping is_woken is_there b2z]; try lia; right.
    + right. destruct HF as [? | (E & _)]; [done |]. by rewrite E in Ec.
    + destruct HF as [? | (_ & ? & _)]; [by right | left; lia].
Qed.

Lemma pool_wake s w : workers s !! w = Some WSleep -> pool_ok s -> pool_ok (set_worker w WWoken s).
Proof.
  intros Hw []. constructor; cbn; rewrite ?(count_insert _ _ _ WSleep) by done; cbn [is_sleeping is_woken is_there b2z]; done || lia.
Qed.

Lemma pool_exit s w : workers s !! w = Some WTop -> idlew <= idleworker s - nwork s -> pool_ok s ->
  pool_ok (with_pool (wrklist s) (nworker s - 1) (idleworker s) (nwork s) (<[w := WGone]> (workers s)) s).
Proof.
  intros Hw Hexit [Hn Hi Hnw Hk Ha]. constructor; cbn; rewrite ?(count_insert _ _ _ WTop) by done; cbn [is_sleeping is_woken is_there b2z]; try lia.
  destruct (wrklist s) as [| sba q] eqn:Hq; [by left | right]. destruct HF as [? | (_ & _ & ?)]; [by right | left].
  cbn [length] in Hn. assert (Hthere : idleworker s + b2z (is_there WTop) <= nworker s).
  { rewrite Hi, Hnw. rewrite (split_at _ _ _ Hw), !count_app, !count_cons. cbn [is_sleeping is_woken is_there b2z].
    assert (Hle : forall ws, count is_sleeping ws + count is_woken ws <= count is_there ws).
    { clear. intros ws. induction ws as [| w ws IH]; [done |]. rewrite !count_cons.
      destruct w; cbn [is_sleeping is_woken is_there b2z]; lia. }
    pose proof (Hle (take w (workers s))). pose proof (Hle (drop (S w) (workers s))). lia. }
  cbn in Hthere. lia.
Qed.

(** A worker takes the first item of the queue, coming from the top of its
    loop or from a wait. *)
Definition taken (w : nat) (p : wphase) (q : list servbouncearg) (idle : Z) (s : srv) : srv :=
  with_pool q (nworker s) idle (nwork s - 1) (<[w := p]> (workers s)) s.

Lemma pool_taken s w sba q from p : workers s !! w = Some from -> wrklist s = sba :: q ->
  (from = WTop \/ from = WWoken) -> pclass p = (false, false, true) -> pool_ok s ->
  pool_ok (taken w p q (if is_woken from then idleworker s - 1 else idleworker s) s).
Proof.
  intros Hw Hq Hfrom [= E1 E2 E3] [Hn Hi Hnw Hk Ha]. rewrite Hq in Hn. cbn [length] in Hn.
  assert (Ha' : q = [] \/ 0 < nworker s \/ F) by (rewrite Hq in Ha; destruct Ha as [? | ?]; [done | by right]).
  pose proof (count_pos is_sleeping (workers s)).
  constructor; cbn; rewrite ?(count_insert _ _ _ from) by done; rewrite ?E1, ?E2, ?E3;
    destruct Hfrom as [-> | ->]; cbn [is_sleeping is_woken is_there b2z]; done || lia.
Qed.

Lemma pool_sleep s w from : workers s !! w = Some from -> wrklist s = [] -> (from = WTop \/ from = WWoken) -> pool_ok s ->
  pool_ok (with_pool (wrklist s) (nworker s) (if is_woken from then idleworker s else idleworker s + 1) (nwork s)
             (<[w := WSleep]> (workers s)) s).
Proof.
  intros Hw Hq Hfrom [Hn Hi Hnw Hk _]. rewrite Hq in Hn. cbn [length] in Hn.
  pose proof (count_pos is_woken (<[w := WSleep]> (workers s))).
  constructor; [.. | left; exact Hq]; cbn; rewrite ?Hq; cbn [length]; rewrite ?(count_insert _ _ _ from) in * by done;
    destruct Hfrom as [-> | ->]; cbn [is_sleeping is_woken is_there b2z] in *; lia.
Qed.

(** ** What refers to a client *)
Lemma uses_enqueue s sba j : uses j (enqueue_work H maxw sba s) = uses j s + b2z (of_client j sba).
Proof.
  unfold uses, enqueue_work. destruct (_ <=? _); [| destruct (_ <? maxw); [destruct (h_create H _) |]]; cbn;
    rewrite ?count_app, ?count_cons, ?count_nil; cbn [holds busy_sba b2z]; try lia.
  unfold signal_one. rewrite wake_nth_count by done. lia.
Qed.

Lemma wake_nth_omap {B} (f : wphase -> option B) ws : forall n, f WSleep = None -> f WWoken = None ->
  omap f (wake_nth n ws) = omap f ws.
Proof.
  induction ws as [| w ws IH]; intros n H1 H2; [done |]. cbn [wake_nth].
  destruct w; [| destruct n | ..]; cbn; rewrite ?H1, ?H2; try rewrite IH by done; done.
Qed.

Lemma waits_enqueue s sba j : waits j (enqueue_work H maxw sba s) = waits j s.
Proof.
  unfold waits, enqueue_work. destruct (_ <=? _); [| destruct (_ <? maxw); [destruct (h_create H _) |]]; cbn;
    rewrite ?omap_app; cbn; rewrite ?app_nil_r; try done. unfold signal_one. by apply wake_nth_omap.
Qed.

Lemma uses_set_worker s w q p j : workers s !! w = Some q ->
  uses j (set_worker w p s) = uses j s - b2z (holds j q) + b2z (holds j p).
Proof. intros Hw. unfold uses; cbn. rewrite (count_insert _ _ _ q) by done. lia. Qed.

Lemma waits_set_worker s w q p j : workers s !! w = Some q -> wait_of j q = None -> wait_of j p = None ->
  waits j (set_worker w p s) ≡ₚ waits j s.
Proof.
  intros Hw Eq Ep. pose proof (omap_insert_perm (wait_of j) (workers s) w q p Hw) as Hp.
  rewrite Eq, Ep in Hp. exact Hp.
Qed.

Lemma waits_le_uses s j : Z.of_nat (length (waits j s)) <= uses j s.
Proof.
  unfold uses, waits. pose proof (count_pos (of_client j) (wrklist s)).
  enough (Z.of_nat (length (omap (wait_of j) (workers s))) <= count (holds j) (workers s)) by lia.
  induction (workers s) as [| w ws IH]; [done |]. rewrite count_cons. cbn [omap list_omap].
  destruct w; cbn [wait_of holds busy_sba b2z]; try lia; try (destruct (of_client _ _); cbn [b2z length]; lia).
Qed.
End steps.
End refs.
