(* ===== verification/SpServSafe.v ===== *)
(** * The server of the system call proxy: reachable states *)

From S2P Require Import Prelude Count Mem SpWire SpServ SpServInv SpServStep.

Section refs.
Context {F : Prop}.
Local Abbreviation pool_ok := (pool_ok F).
Local Abbreviation inv := (inv F).

Lemma same_trans s1 s2 s3 : same s1 s2 -> same s2 s3 -> same s1 s3.
Proof.
  intros (? & ? & ? & ? & ? & ? & ? & ? & ? & ?) (? & ? & ? & ? & ? & ? & ? & ? & ? & ?). repeat split; congruence.
Qed.

(** ** Queueing work *)
Section queue.
Context (H : host) (maxw idlew : Z).
Hypothesis HF : F \/ (forall h, h_create H h = true) /\ 1 <= maxw /\ 0 <= idlew.

Lemma enqueue_fields sba s : let s' := enqueue_work H maxw sba s in
  pfdlist s' = pfdlist s /\ spclist s' = spclist s /\ disco s' = disco s /\ nfds s' = nfds s /\ maxidx s' = maxidx s.
Proof. cbn. unfold enqueue_work. repeat case_match; done. Qed.

Lemma inv_enqueue s s1 i p c c' sba : inv s -> i <> 0%nat -> slots s !! i = Some (p, c) -> p <> -1 -> same s s1 ->
  sba_spc sba = i -> spc_state c <> SPCSTATE_NEW -> spc_refcnt c' = spc_refcnt c + 1 ->
  harmless c (spc_set_refcnt (spc_refcnt c) c') -> inv (enqueue_work H maxw sba (loc i c' s1)).
Proof.
  intros [Hpool Hslots Hcount] Hi Hsl Hp Hsame Hsba Hn Hr (_ & E2 & E3 & E4 & _). cbn in E2, E3, E4.
  destruct (enqueue_fields sba (loc i c' s1)) as (F1 & F2 & F3 & F4 & F5).
  assert (Hupd : slot_upd i p c' s (enqueue_work H maxw sba (loc i c' s1))).
  { destruct (loc_upd i p c c' s s1 Hsl Hsame) as [E1 E5]. split; congruence. }
  assert (Hu : forall j, uses j (enqueue_work H maxw sba (loc i c' s1)) = uses j s + b2z (of_client j sba) /\
    waits j (enqueue_work H maxw sba (loc i c' s1)) = waits j s).
  { intros j. rewrite uses_enqueue, waits_enqueue. by destruct (same_uses s s1 i c' j Hsame) as [-> ->]. }
  constructor.
  - apply (pool_enqueue H maxw idlew HF). by eapply same_pool.
  - eapply slots_update; eauto.
    + intros j Hj. destruct (Hu j) as [-> ->]. unfold of_client. rewrite bool_decide_false by congruence. cbn. split; [lia | done].
    + destruct (Hu i) as [-> ->]. unfold of_client. rewrite bool_decide_true by done. cbn [b2z].
      destruct (slots_all _ Hslots i p c Hi Hsl) as (Ho & Hw & Hcase). unfold slot_ok. rewrite E2, E3, E4, Hr.
      split; [done |]. split; [done |]. left. destruct Hcase as [(? & Hst & ?) | [(? & ?) | (? & ?)]]; [| done | done].
      split; [done |]. split; [| lia]. destruct Hst as [[? ?] | ?]; [done | by right].
  - destruct Hsame as (_ & _ & Ed & En & Em & _). eapply (count_update s _ i p c p c'); try done.
    + rewrite F4. exact En.
    + rewrite F5. exact Em.
    + rewrite F3. unfold slot_used; cbn [fst snd]. rewrite E2. change (disco (loc i c' s1)) with (disco s1). lia.
    + rewrite F3. change (0 <= disco s1). destruct Hcount. lia.
Qed.
End queue.

(** ** Giving up a reference *)

Lemma set_worker_fields w q s : let s' := set_worker w q s in
  pfdlist s' = pfdlist s /\ spclist s' = spclist s /\ disco s' = disco s /\ nfds s' = nfds s /\ maxidx s' = maxidx s.
Proof. done. Qed.

(** Worker [w], in phase [q], works for client [i]. *)
Record worker_on (s : srv) (w i : nat) (q : wphase) : Prop := WorkerOn {
  won_phase : workers s !! w = Some q;
  won_holds : forall j, holds j q = bool_decide (i = j);
  won_waits : forall j, wait_of j q = None;
  won_class : pclass q = (false, false, true) }.

Lemma worker_done_refs s s1 w i q c p : worker_on s w i q -> same s s1 -> pclass p = (false, false, true) ->
  busy_sba p = None -> (forall j, wait_of j p = None) ->
  forall j, uses j (set_worker w p (loc i c s1)) = uses j s - b2z (bool_decide (i = j)) /\
    waits j (set_worker w p (loc i c s1)) ≡ₚ waits j s.
Proof.
  intros [Hw Hh Hwt Hc] Hsame Hp Hb Hnw j. destruct (same_uses s s1 i c j Hsame) as [Eu Ew].
  assert (Hw1 : workers (loc i c s1) !! w = Some q)
    by (destruct Hsame as (_ & _ & _ & _ & _ & _ & _ & _ & _ & E); cbn; by rewrite E).
  rewrite (uses_set_worker _ w q p), (waits_set_worker _ w q p), Eu, Ew, Hh by done.
  unfold holds. rewrite Hb. cbn. split; [lia | done].
Qed.

Lemma inv_unref s s1 w i q p c c' : inv s -> i <> 0%nat -> worker_on s w i q -> slots s !! i = Some (p, c) -> same s s1 ->
  0 < spc_refcnt c - 1 -> spc_refcnt c' = spc_refcnt c - 1 -> harmless c (spc_set_refcnt (spc_refcnt c) c') ->
  inv (set_worker w WTop (loc i c' s1)).
Proof.
  intros [Hpool Hslots Hcount] Hi Hw Hsl Hsame Hpos Hr (_ & E2 & E3 & E4 & E5). cbn in E2, E3, E4, E5.
  pose proof (worker_done_refs s s1 w i q c' WTop Hw Hsame eq_refl eq_refl (fun _ => eq_refl)) as Hu.
  assert (Hupd : slot_upd i p c' s (set_worker w WTop (loc i c' s1))) by (by apply (loc_upd i p c c' s s1)).
  assert (Hph : workers (loc i c' s1) !! w = Some q).
  { destruct Hsame as (_ & _ & _ & _ & _ & _ & _ & _ & _ & E). cbn. rewrite E. apply Hw. }
  constructor.
  - eapply pool_set_worker; [exact Hph | by rewrite (won_class _ _ _ _ Hw) | by eapply same_pool].
  - eapply slots_update; eauto.
    + intros j Hj. destruct (Hu j) as [-> ->]. rewrite bool_decide_false by congruence. cbn. split; [lia | done].
    + destruct (Hu i) as [Eu Ew]. destruct (slots_all _ Hslots i p c Hi Hsl) as (Ho & Hws & Hcase).
      unfold slot_ok. rewrite Eu, Ew, E2, E3, E4, Hr, bool_decide_true by done. cbn [b2z].
      split; [done |]. split; [done |].
      assert (1 <= uses i s).
      { unfold uses. pose proof (count_pos (of_client i) (wrklist s)).
        pose proof (count_lookup (holds i) _ _ _ (won_phase _ _ _ _ Hw)) as Hl.
        rewrite (won_holds _ _ _ _ Hw), bool_decide_true in Hl by done. specialize (Hl eq_refl). lia. }
      destruct Hcase as [(? & Hst & ?) | [(? & ? & ? & ? & ?) | (? & ? & ? & ?)]]; [left | right; left | lia].
      * split; [done |]. split; [| lia]. destruct Hst as [[? ?] | ?]; [lia | by right].
      * repeat split; auto; lia.
  - destruct Hsame as (_ & _ & Ed & En & Em & _). eapply (count_update s _ i p c p c'); try done.
    + unfold slot_used; cbn [fst snd]. rewrite E2. change (disco (set_worker w WTop (loc i c' s1))) with (disco s1). lia.
    + change (0 <= disco s1). destruct Hcount. lia.
Qed.

Lemma pool_disco s : pool_ok s -> pool_ok (signaldisco s).
Proof. by apply pool_ext. Qed.

(** A slot that is no longer used. *)
Lemma inv_free s s1 i p c c' s' : inv s -> i <> 0%nat -> slots s !! i = Some (p, c) -> slot_used (p, c) = true ->
  same s s1 -> pool_ok s' -> slot_upd i (-1) c' s s' -> nfds s' = nfds s -> maxidx s' = maxidx s ->
  disco s' = wrap32 (disco s + 1) ->
  (forall j, j <> i -> uses j s' = uses j s /\ waits j s' ≡ₚ waits j s) -> uses i s' = 0 ->
  spc_ostatus c' = SPCSTATUS_FREE -> spc_state c' = SPCSTATE_NEW -> spc_respwait c' = [] -> spc_buf (spc_rx c') = None ->
  inv s'.
Proof.
  intros [Hpool Hslots Hcount] Hi Hsl Hused Hsame Hpool' Hupd En Em Ed Hoth Hu Ho Hst Hr Hb.
  assert (Hd : disco s' = disco s + 1).
  { rewrite Ed. apply Z.mod_small. destruct Hcount as [Hn Hd Hm _]. pose proof (count_pos slot_used (slots s)).
    unfold MAXCLI in Hm. lia. }
  constructor; [done | |].
  - eapply slots_update; eauto. pose proof (waits_le_uses s' i) as Hw. rewrite Hu in *.
    assert (waits i s' = []) as -> by (destruct (waits i s'); [done | cbn in Hw; lia]).
    unfold slot_ok. rewrite Hr. split; [done |]. split; [done |]. right; right. auto.
  - eapply (count_update s s' i p c (-1) c'); eauto; try (destruct Hcount; lia).
    rewrite Hused, Hd. unfold slot_used; cbn [fst snd]. rewrite Hst, bool_decide_false by done. cbn. lia.
Qed.

Lemma worker_release s s1 w i q p c c0 : inv s -> i <> 0%nat -> worker_on s w i q -> slots s !! i = Some (p, c) ->
  same s s1 -> harmless c c0 -> wp (spcrelease i (loc i c0 s1)) (fun s' => inv (set_worker w WTop s')).
Proof.
  intros Hinv Hi Hw Hsl Hsame Hh. pose proof Hinv as [Hpool Hslots Hcount].
  pose proof (slots_all _ Hslots i p c Hi Hsl) as (Ho & Hws & Hcase).
  pose proof Hh as (E1 & E2 & E3 & E4 & E5).
  assert (Hone : 1 <= uses i s).
  { unfold uses. pose proof (count_pos (of_client i) (wrklist s)).
    pose proof (count_lookup (holds i) _ _ _ (won_phase _ _ _ _ Hw)) as Hl.
    rewrite (won_holds _ _ _ _ Hw), bool_decide_true in Hl by done. specialize (Hl eq_refl). lia. }
  pose proof (worker_done_refs s s1 w i q c WTop Hw Hsame eq_refl eq_refl (fun _ => eq_refl)) as Hu.
  assert (Hdying : spc_refcnt c - 1 <= 0 -> p = -1 /\ spc_state c = SPCSTATE_DYING /\ uses i s = 1 /\
    spc_respwait c0 = [] /\ spc_buf (spc_rx c0) = None).
  { intros Hle. destruct Hcase as [(? & ? & ?) | [(? & ? & ? & ? & ?) | (? & ? & ? & ?)]]; try lia.
    assert (Hu1 : uses i s = 1) by lia. repeat split; auto.
    destruct (Hu i) as [Eu Ew]. pose proof (waits_le_uses (set_worker w WTop (loc i c s1)) i) as Hl.
    rewrite Eu, Hu1, bool_decide_true in Hl by done. cbn in Hl. rewrite Ew in Hl.
    destruct (waits i s); [| cbn in Hl; lia]. rewrite <- E4 in Hws. apply Permutation_nil_r in Hws.
    by destruct (spc_respwait c0). }
  assert (Hs1 : is_Some (spclist s1 !! i)).
  { destruct Hsame as [E _]. rewrite E. apply slots_lookup in Hsl as [_ ->]. done. }
  eapply wp_mono; [apply (spcrelease_post i s1 Hs1 c0) |].
  { destruct (Z.ltb_spec 0 (spc_refcnt c0 - 1)); [by left |]. right. apply Hdying. lia. }
  intros s' (c' & s2 & Hs12 & [(Hlt & -> & Hr & Hh') | (Hle & -> & Hst & Ho' & Hr & Hb)]).
  - eapply (inv_unref s s2 w i q p c c'); eauto using same_trans; [lia | lia |].
    destruct Hh' as (? & ? & ? & E4' & ?). cbn in *. repeat split; cbn; try congruence; [by rewrite E4' | auto].
  - destruct Hdying as (-> & Hd & Hu1 & _); [lia |]. assert (Hss := same_trans _ _ _ Hsame Hs12).
    eapply (inv_free s s2 i (-1) c c'); eauto.
    + unfold slot_used; cbn. by rewrite Hd.
    + eapply pool_set_worker; [| by rewrite (won_class _ _ _ _ Hw) | by eapply pool_disco, same_pool].
      destruct Hss as (_ & _ & _ & _ & _ & _ & _ & _ & _ & E). cbn. rewrite E. apply Hw.
    + by apply (loc_upd i (-1) c c' s s2).
    + apply Hss.
    + apply Hss.
    + cbn. destruct Hss as (_ & _ & E & _). by rewrite E.
    + intros j Hj. destruct (worker_done_refs s s2 w i q c' WTop Hw Hss eq_refl eq_refl (fun _ => eq_refl) j) as [Eu Ew].
      rewrite bool_decide_false in Eu by congruence. cbn in Eu. split; [| exact Ew].
      etransitivity; [exact Eu |]. lia.
    + destruct (worker_done_refs s s2 w i q c' WTop Hw Hss eq_refl eq_refl (fun _ => eq_refl) i) as [Eu Ew].
      rewrite bool_decide_true in Eu by done. cbn in Eu. etransitivity; [exact Eu |]. lia.
    + congruence.
Qed.

(** ** The connection *)

(** While a client is connected, its buffer is its own business. *)
Lemma inv_rx s i p c rx : inv s -> i <> 0%nat -> slots s !! i = Some (p, c) -> p <> -1 -> inv (loc i (spc_set_rx rx c) s).
Proof.
  intros [Hpool Hslots Hcount] Hi Hsl Hp. pose proof (loc_upd i p c (spc_set_rx rx c) s s Hsl (same_refl s)) as Hupd.
  constructor.
  - by eapply same_pool; [apply same_refl |].
  - eapply (slots_update s _ i p c p (spc_set_rx rx c)); try done.
    destruct (same_uses s s i (spc_set_rx rx c) i (same_refl s)) as [-> ->].
      destruct (slots_all _ Hslots i p c Hi Hsl) as (Ho & Hw & Hcase). split; [done |]. split; [done |]. cbn. naive_solver.
  - eapply (count_update s _ i p c p (spc_set_rx rx c)); try done.
    + change (slot_used (p, spc_set_rx rx c)) with (slot_used (p, c)).
      change (disco s = disco s + b2z (slot_used (p, c)) - b2z (slot_used (p, c))). lia.
    + apply Hcount.
Qed.

Lemma slots_loc i p c c' s : slots s !! i = Some (p, c) -> slots (loc i c' s) !! i = Some (p, c').
Proof.
  intros Hsl. apply slots_lookup in Hsl as [Hp Hc]. apply slots_lookup. split; [done |].
  cbn. by rewrite list_lookup_insert_eq by (by eapply lookup_lt_Some).
Qed.

Lemma pfd_loc i l c s : with_pfd l (loc i c s) = loc i c (with_pfd l s).
Proof. done. Qed.

Definition disconnected (c : spclient) : spclient :=
  spc_zero (spc_set_ostatus SPCSTATUS_FREE (spc_set_state SPCSTATE_DYING c)).

Lemma handledisco_inv s i p c : inv s -> i <> 0%nat -> slots s !! i = Some (p, c) -> p <> -1 ->
  wp (serv_handledisco i (loc i c s)) inv.
Proof.
  intros Hinv Hi Hsl Hp. pose proof Hinv as [Hpool Hslots Hcount].
  pose proof Hsl as Hsl'. apply slots_lookup in Hsl' as [Hpi Hci].
  pose proof (slots_all _ Hslots i p c Hi Hsl) as (Ho & Hws & Hcase).
  assert (Hrc : spc_refcnt c = 1 + uses i s) by (destruct Hcase as [(? & ? & ?) | [(? & ?) | (? & ?)]]; done).
  unfold serv_handledisco, sendunlockl. rewrite pfd_loc. change (pfdlist (loc i c s)) with (pfdlist s).
  assert (Hsd : is_Some (spclist (with_pfd (<[i := -1]> (pfdlist s)) s) !! i)) by (cbn; by rewrite Hci).
  sp_run. set (sd := with_pfd (<[i := -1]> (pfdlist s)) s) in *.
  match goal with |- context [upd_client i spc_zero ?t] =>
    assert (Hev : exists s1, same sd s1 /\ upd_client i spc_zero t = loc i (disconnected c) s1)
  end.
  { destruct (_ && _); sp_run; eexists; (split; [| reflexivity]); auto 20 with sp. }
  destruct Hev as (s1 & Hs1 & ->).
  assert (Hs1i : is_Some (spclist s1 !! i)) by (destruct Hs1 as [E _]; by rewrite E).
  assert (Hrw : uses i s = 0 -> spc_respwait c = []).
  { intros Hu. pose proof (waits_le_uses s i) as Hl. rewrite Hu in Hl. destruct (waits i s); [| cbn in Hl; lia].
    apply Permutation_nil_r in Hws. by destruct (spc_respwait c). }
  pose proof (waits_le_uses s i) as Hwu.
  eapply wp_mono; [apply (spcrelease_post i s1 Hs1i (disconnected c)) |].
  { cbn [disconnected spc_zero spc_refcnt spc_set_ostatus spc_set_state]. destruct (Z.ltb_spec 0 (uses i s)); [left; lia |].
    right. split; [| done]. apply Hrw. lia. }
  intros s' (c' & s2 & Hs2 & Hres). assert (Hss := same_trans _ _ _ Hs1 Hs2).
  assert (Hupd : slot_upd i (-1) c' s (loc i c' s2)).
  { destruct Hss as (E1 & E2 & _). split; cbn; [by rewrite E2 | by rewrite E1]. }
  assert (Hsm : forall j, uses j (loc i c' s2) = uses j s /\ waits j (loc i c' s2) = waits j s)
    by (intros j; apply (same_uses sd s2 i c' j Hss)).
  assert (Hpl : pool_ok (loc i c' s2)) by (eapply (same_pool sd); [exact Hss | by apply (pool_ext s)]).
  assert (Hused : slot_used (p, c) = true) by (unfold slot_used; cbn; apply orb_true_iff; left; apply negb_true_iff; lia).
  destruct Hres as [(Hlt & -> & Hr & Hh) | (Hle & -> & Hst & Ho' & Hr & Hb)].
  - destruct Hh as (_ & E2 & E3 & E4 & E5). cbn in E2, E3, E4, E5, Hlt, Hr. constructor; [done | |].
    + eapply slots_update; eauto; [intros j _; destruct (Hsm j) as [-> ->]; done |]. destruct (Hsm i) as [-> ->].
      unfold slot_ok. rewrite E2, E3, E4, Hr. split; [done |]. split; [done |]. right; left.
      repeat split; try lia. apply E5. done.
    + eapply (count_update s _ i p c (-1) c'); [done | done | done | apply Hss | apply Hss | by intros _ | |].
      * destruct Hss as (_ & _ & E & _). rewrite Hused. unfold slot_used; cbn [fst snd]. rewrite E2, bool_decide_true by done.
        change (disco (loc i c' s2)) with (disco s2). rewrite E. cbn. lia.
      * change (0 <= disco s2). destruct Hss as (_ & _ & -> & _). apply Hcount.
  - cbn in Hle. eapply (inv_free s s i p c c'); eauto with sp; try apply Hss.
    + by apply pool_disco.
    + cbn. destruct Hss as (_ & _ & -> & _). done.
    + intros j _. destruct (Hsm j) as [E1 E2]. split; [exact E1 | by rewrite <- E2].
    + destruct (Hsm i) as [E1 _]. etransitivity; [exact E1 |]. lia.
Qed.

Lemma readframe_wp {S} (rd : S -> Z -> read_reply * S) mal r s : wp (readframe rd mal r s) (fun _ => True).
Proof.
  assert (Hb : forall r n s, wp (read_body rd r n s) (fun _ => True)).
  { intros r' n s'. unfold read_body. repeat case_match; try done; apply wp_bind, wp_option; done. }
  unfold readframe. repeat case_match; done || apply Hb.
Qed.

Section machine.
Context (H : host) (maxw idlew : Z).
Hypothesis HF : F \/ (forall h, h_create H h = true) /\ 1 <= maxw /\ 0 <= idlew.

Lemma serve_client_inv fuel s i p c replies : inv s -> i <> 0%nat -> slots s !! i = Some (p, c) -> p <> -1 ->
  wp (serve_client H maxw fuel i replies s) inv.
Proof.
  intros Hinv Hi Hsl Hp. pose proof Hsl as Hsl'. apply slots_lookup in Hsl' as [_ Hci].
  unfold serve_client. rewrite (loc_id i c s Hci). assert (Hs : is_Some (spclist s !! i)) by (by rewrite Hci). sp_run.
  apply wp_bind. eapply wp_mono; [apply readframe_wp |]. intros [[rv rx] rest] _. sp_run.
  set (c1 := spc_set_rx rx c). assert (Hinv1 : inv (loc i c1 s)) by (by eapply inv_rx).
  assert (Hsl1 : slots (loc i c1 s) !! i = Some (p, c1)) by (by eapply slots_loc).
  destruct (rv =? 0); [done |]. destruct (rv =? -1).
  { rewrite (loc_id i c1 (loc i c1 s)) by (by apply slots_lookup in Hsl1 as [_ ?]). by eapply handledisco_inv. }
  assert (Hs1 : is_Some (spclist (loc i c1 s) !! i)) by (apply slots_lookup in Hsl1 as [_ ->]; done).
  assert (Ho : spc_ostatus c1 = SPCSTATUS_FREE) by (destruct (slots_all _ (inv_slots _ Hinv1) i p c1 Hi Hsl1) as (E & _); exact E).
  assert (Hid : loc i c1 s = loc i c1 (loc i c1 s)) by (apply loc_id; apply slots_lookup in Hsl1; apply Hsl1).
  destruct (_ =? RUMPSP_RESP).
  { rewrite Hid. eapply wp_mono; [by apply kickwaiter_quiet |]. intros s' (c' & s1 & -> & ? & ?). by eapply inv_quiet. }
  destruct (_ =? RUMPSP_REQ).
  - rewrite Hid. eapply wp_mono; [by apply handlereq_post |].
    intros s' [(c' & s1 & -> & ? & ?) | [(c' & s1 & -> & ? & ? & ? & ?) | (c' & s1 & sba & -> & ? & ? & ? & ? & ?)]].
    + by eapply inv_quiet.
    + by eapply inv_starts.
    + by eapply inv_enqueue.
  - rewrite Hid, send_error_resp_loc by done. sp_run. rewrite spcfreebuf_loc by done.
    apply (inv_quiet (loc i c1 s) _ i p c1); try done; repeat split; auto.
Qed.

(** *** New connections *)
Lemma find_slot_spec s k : forall i, (i + k = MAXCLI)%nat -> length (pfdlist s) = MAXCLI -> length (spclist s) = MAXCLI ->
  exists j, find_slot k i s = Done j /\ (i <= j <= MAXCLI)%nat /\
    (forall l p c, (i <= l < j)%nat -> slots s !! l = Some (p, c) -> ~ (p = -1 /\ spc_state c = SPCSTATE_NEW)) /\
    ((j < MAXCLI)%nat -> exists c, slots s !! j = Some (-1, c) /\ spc_state c = SPCSTATE_NEW).
Proof.
  induction k as [| k IH]; intros i Hik L1 L2; cbn [find_slot].
  - exists i. split; [done |]. split; [lia |]. split; intros; lia.
  - destruct (pfdlist s !! i) as [p |] eqn:Ep; [| apply lookup_ge_None in Ep; lia].
    destruct (spclist s !! i) as [c |] eqn:Ec; [| apply lookup_ge_None in Ec; lia].
    unfold client. rewrite Ec. cbn [of_option mbind outcome_bind].
    assert (Hsl : slots s !! i = Some (p, c)) by (by apply slots_lookup).
    destruct (_ && _) eqn:E.
    + apply andb_true_iff in E as [E1 E2]. apply Z.eqb_eq in E1 as ->. apply bool_decide_eq_true in E2.
      exists i. split; [done |]. split; [lia |]. split; [lia | eauto].
    + destruct (IH (S i)) as (j & -> & Hj & Hall & Hfree); [lia | done | done |].
      exists j. split; [done |]. split; [lia |]. split; [| done].
      intros l p' c' Hl Hd. destruct (decide (l = i)) as [-> |]; [| apply (Hall l); done || lia].
      rewrite Hsl in Hd. injection Hd as <- <-. intros [-> Hn]. rewrite bool_decide_true in E by done. done.
Qed.

(** When not all slots are taken, the search for a free one succeeds. *)
Lemma free_slot s : inv s -> nfds s <> Z.of_nat MAXCLI ->
  exists i c, find_slot MAXCLI 0 s = Done i /\ (i < MAXCLI)%nat /\ i <> 0%nat /\ slots s !! i = Some (-1, c) /\
    spc_state c = SPCSTATE_NEW.
Proof.
  intros [_ Hslots [Hn Hd Hm _]] Hbusy. pose proof (slots_len _ Hslots) as [L1 L2].
  destruct (find_slot_spec s MAXCLI 0 eq_refl L1 L2) as (i & E & Hi & Hall & Hfree).
  destruct (decide (i = MAXCLI)) as [Hmax | Hne].
  - exfalso. assert (Hfull : count slot_used (slots s) = Z.of_nat MAXCLI); [| lia].
    assert (Hlen : length (slots s) = MAXCLI) by (unfold slots; rewrite length_zip_with; lia).
    unfold count. rewrite filter_all; [by rewrite Hlen |]. apply Forall_lookup. intros j [p c] Hj.
    assert (j < MAXCLI)%nat by (rewrite <- Hlen; by eapply lookup_lt_Some).
    specialize (Hall j p c ltac:(lia) Hj). apply Is_true_eq_left, orb_true_iff. cbn.
    destruct (decide (j = 0%nat)) as [-> | Hj0].
    + left. destruct (slots_0 _ Hslots) as (p0 & E0 & Hp0). apply slots_lookup in Hj as [Ep _].
      rewrite Ep in E0. injection E0 as ->. apply negb_true_iff. lia.
    + destruct (slots_all _ Hslots j p c Hj0 Hj) as (_ & _ & [(? & _) | [(_ & Hs & _) | (-> & ? & _)]]).
      * left. apply negb_true_iff. lia.
      * right. by apply bool_decide_eq_true.
      * tauto.
  - destruct Hfree as (c & Hc & Hst); [lia |]. exists i, c. repeat split; auto; [lia |].
    intros ->. destruct (slots_0 _ Hslots) as (p0 & E0 & Hp0). apply slots_lookup in Hc as [Ep _]. congruence.
Qed.

Lemma serve_listen_inv s newfd nonblock hook sent : inv s -> wp (serve_listen newfd nonblock hook sent s) inv.
Proof.
  intros Hinv. pose proof Hinv as [Hpool Hslots Hcount]. unfold serve_listen, serv_handleconn.
  assert (Hid : forall s0, same s s0 -> inv (with_disco (disco s0) (nfds s0) (Nat.max 0 (maxidx s0)) s0)).
  { intros s0 (E1 & E2 & E3 & E4 & E5 & E6 & E7 & E8 & E9 & E10).
    assert (Hss : slots (with_disco (disco s0) (nfds s0) (Nat.max 0 (maxidx s0)) s0) = slots s)
      by (unfold slots; cbn; by rewrite E1, E2).
    constructor.
    - by apply (pool_ext s).
    - destruct Hslots as [L Hall H0 Hu]. unfold uses, waits in *. constructor; unfold uses, waits; rewrite ?Hss;
        cbn [wrklist workers pfdlist spclist with_disco]; rewrite ?E1, ?E2, ?E6, ?E10; done.
    - destruct Hcount as [Hn Hd Hm Hx]. constructor; rewrite ?Hss; cbn [pfdlist nfds disco maxidx with_disco];
        rewrite ?E2, ?E3, ?E4, ?E5; auto. }
  destruct (Z.eqb_spec newfd (-1)); [by apply Hid, same_refl |].
  destruct (Z.eqb_spec (nfds s) (Z.of_nat MAXCLI)) as [Hb | Hb]; [by apply Hid, same_ev, same_refl |].
  destruct nonblock; [| by apply Hid, same_ev, same_refl]. destruct hook; [| by apply Hid, same_ev, same_refl].
  destruct sent; [| by apply Hid, same_ev, same_refl]. cbn [orb negb].
  destruct (free_slot s Hinv Hb) as (i & c & E & Hi & Hi0 & Hsl & Hst). rewrite E, Done_bind.
  rewrite decide_False, Done_bind by lia. cbn [wp]. rewrite decide_False by done.
  pose proof Hsl as Hsl'. apply slots_lookup in Hsl' as [Hpi Hci].
  rewrite (loc_id i c s Hci), pfd_loc, upd_loc by (cbn; by rewrite Hci). cbn [loc with_clients with_pfd pfdlist].
  set (c' := SpClient newfd 1 _ _ _ _ _ _ _ _ _ _).
  destruct (slots_all _ Hslots i (-1) c Hi0 Hsl) as (Ho & Hws & Hcase).
  assert (Hu : uses i s = 0) by (destruct Hcase as [(? & _) | [(_ & ? & _) | (_ & _ & ? & _)]]; congruence).
  assert (Hw0 : waits i s = []) by (pose proof (waits_le_uses s i) as Hl; rewrite Hu in Hl; destruct (waits i s); [done | cbn in Hl; lia]).
  match goal with |- inv ?s1 => set (s' := s1) end.
  assert (Hupd : slot_upd i newfd c' s s') by done.
  assert (Hunused : slot_used (-1, c) = false) by (unfold slot_used; cbn; by rewrite Hst).
  assert (Hnow : slot_used (newfd, c') = true) by (unfold slot_used; cbn; apply orb_true_iff; left; apply negb_true_iff; lia).
  destruct Hcount as [Hn Hd Hm Hx]. constructor.
  - by apply (pool_ext s).
  - eapply (slots_update s s' i (-1) c newfd c'); try done.
    change (slot_ok newfd c' (uses i s) (waits i s)). rewrite Hu, Hw0. split; [done |]. split; [done |]. left.
    split; [done |]. split; [by left | done].
  - assert (Hn' : nfds s' = nfds s + 1).
    { change (wrap32 (nfds s + 1) = nfds s + 1). apply Z.mod_small. pose proof (count_pos slot_used (slots s)). unfold MAXCLI in *. lia. }
    constructor.
    + rewrite Hn', (slots_upd _ _ _ _ _ Hupd), (count_insert _ _ _ (-1, c)), Hunused, Hnow by done.
      change (disco s') with (disco s). cbn. lia.
    + done.
    + rewrite Hn'. lia.
    + intros j q. change (maxidx s') with (Nat.max i (maxidx s)). change (pfdlist s') with (<[i := newfd]> (pfdlist s)).
      destruct (decide (j = i)) as [-> | Hne]; [lia |]. rewrite list_lookup_insert_ne by done.
      intros Hj Hq. specialize (Hx j q Hj Hq). lia.
Qed.

(** *** Disconnected clients *)
Lemma max_used_spec pfds : forall idx, match max_used idx pfds with
  | Some m => (m <= idx)%nat /\ forall i p, pfds !! i = Some p -> p <> -1 -> (i <= idx)%nat -> (i <= m)%nat
  | None => forall i p, pfds !! i = Some p -> p <> -1 -> (i <= idx)%nat -> i = 0%nat
  end.
Proof.
  induction idx as [| idx IH]; cbn [max_used]; [intros; lia |].
  case_bool_decide as E; [| split; [lia | done]].
  assert (Hne : forall i p, pfds !! i = Some p -> p <> -1 -> i <> S idx) by (intros i p Hi Hp ->; congruence).
  destruct (max_used idx pfds) as [m |].
  - destruct IH as [Hm Hall]. split; [lia |]. intros i p Hi Hp Hle. apply (Hall i p Hi Hp). specialize (Hne i p Hi Hp). lia.
  - intros i p Hi Hp Hle. apply (IH i p Hi Hp). specialize (Hne i p Hi Hp). lia.
Qed.

Lemma gc_inv s : inv s -> inv (gc_hangarounds s).
Proof.
  intros [Hpool Hslots [Hn Hd Hm Hx]]. constructor; [by apply (pool_ext s) | by destruct Hslots |].
  pose proof (count_pos slot_used (slots s)). constructor.
  - change (wrap32 (nfds s - disco s) = count slot_used (slots s) + 0). unfold wrap32. rewrite Z.mod_small by (unfold MAXCLI in *; lia). lia.
  - done.
  - change (wrap32 (nfds s - disco s) <= Z.of_nat MAXCLI). unfold wrap32. rewrite Z.mod_small by (unfold MAXCLI in *; lia). lia.
  - intros i p Hi Hp. unfold gc_hangarounds; cbn. destruct (disco s =? 0); [by eapply Hx |].
    specialize (Hx i p Hi Hp). pose proof (max_used_spec (pfdlist s) (maxidx s)) as Hspec.
    destruct (max_used _ _) as [m |]; cbn; [| done]. destruct Hspec as [_ Hall]. by eapply Hall.
Qed.

(** *** Workers *)
Lemma used_slot s i : inv s -> 0 < uses i s -> i <> 0%nat /\ exists p c, slots s !! i = Some (p, c).
Proof.
  intros [_ Hslots _] Hu. pose proof (slots_uses _ Hslots i) as Hz.
  assert (Hi : ~ (i = 0 \/ MAXCLI <= i)%nat) by (intros Hi; specialize (Hz Hi); lia).
  split; [intros ->; apply Hi; by left |].
  destruct (slots s !! i) as [[p c] |] eqn:E; [by exists p, c |]. apply lookup_ge_None in E.
  unfold slots in E. rewrite length_zip_with in E. destruct (slots_len _ Hslots). exfalso. apply Hi. right. lia.
Qed.

Lemma held_uses s w q sba : workers s !! w = Some q -> busy_sba q = Some sba -> 0 < uses (sba_spc sba) s.
Proof.
  intros Hw Hq. unfold uses. pose proof (count_pos (of_client (sba_spc sba)) (wrklist s)).
  assert (Hh : holds (sba_spc sba) q = true) by (unfold holds; rewrite Hq; by apply bool_decide_eq_true).
  pose proof (count_lookup (holds (sba_spc sba)) _ _ _ Hw Hh). lia.
Qed.

Lemma worker_on_sba s w q sba : workers s !! w = Some q -> q = WSys sba \/ q = WExec sba -> worker_on s w (sba_spc sba) q.
Proof. intros Hw [-> | ->]; by constructor. Qed.

Lemma worker_sys_inv s w sba : inv s -> workers s !! w = Some (WSys sba) -> wp (worker_step H idlew w s) inv.
Proof.
  intros Hinv Hw. unfold worker_step. rewrite Hw.
  destruct (used_slot s (sba_spc sba) Hinv) as (Hi & p & c & Hsl); [by eapply held_uses |]. set (i := sba_spc sba) in *.
  pose proof Hsl as Hsl'. apply slots_lookup in Hsl' as [_ Hci].
  assert (Hs : is_Some (spclist s !! i)) by (by rewrite Hci).
  destruct (slots_all _ (inv_slots _ Hinv) i p c Hi Hsl) as (Ho & _).
  rewrite (loc_id i c s Hci). unfold handlesyscall_end. fold i. rewrite history_loc.
  destruct (h_syscall H (history s)) as [[rv r0] r1]. unfold send_syscall_resp. sp_run.
  apply wp_bind. eapply wp_mono; [eapply (worker_release s _ w i (WSys sba) p c); eauto |].
  - by apply worker_on_sba; [| left].
  - auto with sp.
  - repeat split; auto.
  - done.
Qed.

Lemma worker_exec_inv s w sba : inv s -> workers s !! w = Some (WExec sba) -> wp (worker_step H idlew w s) inv.
Proof.
  intros Hinv Hw. unfold worker_step. rewrite Hw.
  destruct (used_slot s (sba_spc sba) Hinv) as (Hi & p & c & Hsl); [by eapply held_uses |]. set (i := sba_spc sba) in *.
  pose proof Hsl as Hsl'. apply slots_lookup in Hsl' as [_ Hci].
  assert (Hs : is_Some (spclist s !! i)) by (by rewrite Hci).
  destruct (slots_all _ (inv_slots _ Hinv) i p c Hi Hsl) as (Ho & _).
  rewrite (loc_id i c s Hci). unfold handleexec. fold i. sp_run.
  destruct (2 <? spc_refcnt c); sp_run; [by rewrite <- loc_id |].
  do 2 apply wp_bind. destruct (terminate_comm _ _ _) as [comm | |] eqn:Et; [| | exact I].
  2: { unfold terminate_comm in Et. repeat case_match; discriminate. }
  cbn [wp]. unfold send_handshake_resp. sp_run. cbn [wp].
  apply wp_bind. eapply wp_mono; [eapply (worker_release s _ w i (WExec sba) p c); eauto |].
  - by apply worker_on_sba; [| right].
  - auto 20 with sp.
  - repeat split; auto.
  - done.
Qed.
End machine.
End refs.
