(* ===== verification/SpServThms.v ===== *)
(** * The server of the system call proxy: workers, and every run *)

From S2P Require Import Prelude Count Mem SpWire SpServ SpServInv SpServStep SpServSafe.

Section refs.
Context {F : Prop}.
Local Abbreviation pool_ok := (pool_ok F).
Local Abbreviation inv := (inv F).

(** The same clients, and the same work for each of them. *)
Lemma slots_refs s s' : slots_ok s -> pfdlist s' = pfdlist s -> spclist s' = spclist s ->
  (forall j, uses j s' = uses j s /\ waits j s' ≡ₚ waits j s) -> slots_ok s'.
Proof.
  intros [L Hall H0 Hu] E1 E2 Hj. assert (Hss : slots s' = slots s) by (unfold slots; by rewrite E1, E2).
  constructor; rewrite ?Hss, ?E1, ?E2; auto.
  - intros i p c Hi Hsl. destruct (Hj i) as [Eu Ew]. destruct (Hall i p c Hi Hsl) as (? & ? & ?).
    unfold slot_ok. rewrite Eu, Ew. done.
  - intros i Hi. destruct (Hj i) as [-> _]. auto.
Qed.

Lemma count_refs s s' : count_ok s -> pfdlist s' = pfdlist s -> spclist s' = spclist s -> nfds s' = nfds s ->
  disco s' = disco s -> maxidx s' = maxidx s -> count_ok s'.
Proof.
  intros [Hn Hd Hm Hx] E1 E2 E3 E4 E5. assert (Hss : slots s' = slots s) by (unfold slots; by rewrite E1, E2).
  constructor; rewrite ?Hss, ?E1, ?E3, ?E4, ?E5; auto.
Qed.

Section workers.
Context (H : host) (maxw idlew : Z).
Hypothesis HF : F \/ (forall h, h_create H h = true) /\ 1 <= maxw /\ 0 <= idlew.

Lemma uses_pool s q nw idle work w from p j : workers s !! w = Some from -> uses j (with_pool q nw idle work (<[w := p]> (workers s)) s) =
  count (of_client j) q + count (holds j) (workers s) - b2z (holds j from) + b2z (holds j p).
Proof. intros Hw. unfold uses; cbn. rewrite (count_insert _ _ _ from) by done. lia. Qed.

Lemma waits_pool s q nw idle work w from p j : workers s !! w = Some from -> wait_of j from = None -> wait_of j p = None ->
  waits j (with_pool q nw idle work (<[w := p]> (workers s)) s) ≡ₚ waits j s.
Proof.
  intros Hw Ef Ep. pose proof (omap_insert_perm (wait_of j) (workers s) w from p Hw) as Hp.
  rewrite Ef, Ep in Hp. exact Hp.
Qed.

Lemma taken_inv s w sba q from p : inv s -> workers s !! w = Some from -> wrklist s = sba :: q ->
  (from = WTop \/ from = WWoken) -> (p = WSys sba \/ p = WExec sba) ->
  inv (taken w p q (if is_woken from then idleworker s - 1 else idleworker s) s).
Proof.
  intros [Hpool Hslots Hcount] Hw Hq Hfrom Hp. constructor.
  - eapply pool_taken; eauto. by destruct Hp as [-> | ->].
  - apply (slots_refs s); [done | done | done |]. intros j. split.
    + unfold taken. rewrite (uses_pool _ _ _ _ _ _ from) by done. unfold uses. rewrite Hq, count_cons.
      destruct Hfrom as [-> | ->], Hp as [-> | ->]; cbn [holds busy_sba b2z]; lia.
    + apply (waits_pool _ _ _ _ _ _ from); [done | by destruct Hfrom as [-> | ->] | by destruct Hp as [-> | ->]].
  - by apply (count_refs s).
Qed.

Lemma sleep_inv s w from : inv s -> workers s !! w = Some from -> wrklist s = [] -> (from = WTop \/ from = WWoken) ->
  inv (with_pool (wrklist s) (nworker s) (if is_woken from then idleworker s else idleworker s + 1) (nwork s)
         (<[w := WSleep]> (workers s)) s).
Proof.
  intros [Hpool Hslots Hcount] Hw Hq Hfrom. constructor.
  - by apply pool_sleep.
  - apply (slots_refs s); [done | done | done |]. intros j. split.
    + rewrite (uses_pool _ _ _ _ _ _ from) by done. unfold uses. destruct Hfrom as [-> | ->]; cbn [holds busy_sba b2z]; lia.
    + apply (waits_pool _ _ _ _ _ _ from); [done | by destruct Hfrom as [-> | ->] | done].
  - by apply (count_refs s).
Qed.

Lemma set_worker_twice w p q s : set_worker w p (set_worker w q s) = set_worker w p s.
Proof. unfold set_worker, with_workers; cbn. by rewrite list_insert_insert_eq. Qed.

Lemma spcrelease_set_worker i w q s Q : wp (spcrelease i (set_worker w q s)) (fun s' => Q (set_worker w WTop s')) ->
  wp (spcrelease i s) (fun s' => Q (set_worker w WTop s')).
Proof.
  unfold spcrelease. unfold client; cbn [upd_client with_clients set_worker with_workers spclist].
  destruct (alter _ i (spclist s) !! i) as [c |]; cbn; [| done].
  destruct (0 <? spc_refcnt c); cbn.
  { intros Hq. rewrite <- (set_worker_twice w WTop q). exact Hq. }
  case_bool_decide; cbn; [| done]. case_bool_decide; cbn; [| done].
  destruct (spc_mainlwp c =? 0); intros Hq; rewrite <- (set_worker_twice w WTop q); exact Hq.
Qed.

(** The state just after the item has been taken off the queue. *)
Lemma start_work_inv s w sba q from D : inv s -> workers s !! w = Some from -> wrklist s = sba :: q ->
  (from = WTop \/ from = WWoken) ->
  D = with_pool q (nworker s) (if is_woken from then idleworker s - 1 else idleworker s) (nwork s - 1) (workers s) s ->
  wp (start_work H w sba D) inv.
Proof.
  intros Hinv Hw Hq Hfrom ->. unfold start_work. destruct (sba_type sba); cycle 1.
  { apply (taken_inv s w sba q from (WExec sba)); auto. }
  pose proof (taken_inv s w sba q from (WSys sba) Hinv Hw Hq Hfrom (or_introl eq_refl)) as Hinv'.
  set (T := taken w (WSys sba) q _ s) in *. set (D := with_pool q _ _ _ _ s).
  assert (HT : T = set_worker w (WSys sba) D) by done.
  assert (Hw' : workers T !! w = Some (WSys sba)).
  { rewrite HT. cbn. apply list_lookup_insert_eq. by eapply lookup_lt_Some. }
  destruct (used_slot T (sba_spc sba) Hinv') as (Hi & p & c & Hsl); [by eapply held_uses |]. set (i := sba_spc sba) in *.
  pose proof Hsl as Hsl'. apply slots_lookup in Hsl' as [_ Hci].
  assert (Hs : is_Some (spclist D !! i)) by (change (spclist D) with (spclist T); by rewrite Hci).
  destruct (slots_all _ (inv_slots _ Hinv') i p c Hi Hsl) as (Ho & _).
  rewrite (loc_id i c D) by done. unfold handlesyscall_start. fold i. sp_run. destruct (negb _).
  - unfold send_syscall_resp. sp_run. apply wp_bind.
    match goal with |- wp (spcrelease i (loc i c ?s1)) _ => set (D1 := s1) end.
    apply (spcrelease_set_worker i w (WSys sba) (loc i c D1) inv).
    apply (worker_release T (set_worker w (WSys sba) D1) w i (WSys sba) p c c); auto with sp.
    + by apply worker_on_sba; [| left].
    + unfold D1. rewrite HT. repeat split.
  - sp_run. cbn [wp].
    match goal with |- inv (set_worker w _ (loc i ?c' ?s1)) =>
      apply (inv_quiet T (set_worker w (WSys sba) s1) i p c c'); auto end.
    + rewrite HT. repeat split.
    + repeat split; auto.
Qed.

Lemma worker_take_inv s w from D : inv s -> workers s !! w = Some from -> (from = WTop \/ from = WWoken) ->
  D = with_pool (wrklist s) (nworker s) (if is_woken from then idleworker s else idleworker s + 1) (nwork s) (workers s) s ->
  wp (worker_take H w D) inv.
Proof.
  intros Hinv Hw Hfrom ->. unfold worker_take; cbn [wrklist with_pool]. destruct (wrklist s) as [| sba q] eqn:Hq.
  - destruct (inv_pool _ Hinv) as [Hn _ _ _]. rewrite Hq in Hn. cbn [nwork with_pool].
    assert (Hz : (nwork s =? 0) = true) by (by rewrite Hn). rewrite Hz, bmk_assert_true, Done_bind.
    pose proof (sleep_inv s w from Hinv Hw Hq Hfrom) as Hi. rewrite Hq in Hi. exact Hi.
  - eapply start_work_inv; eauto. cbn. destruct (is_woken from); cbn; [done |].
    unfold with_pool; cbn. f_equal. lia.
Qed.

Lemma worker_top_inv s w : inv s -> workers s !! w = Some WTop -> wp (worker_top H idlew w s) inv.
Proof.
  intros Hinv Hw. unfold worker_top. destruct (Z.leb_spec idlew (idleworker s - nwork s)).
  - destruct Hinv as [Hpool Hslots Hcount]. constructor.
    + apply (pool_exit H maxw idlew HF); [done | lia | done].
    + apply (slots_refs s); [done | done | done |]. intros j. split.
      * rewrite (uses_pool _ _ _ _ _ _ WTop) by done. unfold uses; cbn [holds busy_sba b2z]. lia.
      * by apply (waits_pool _ _ _ _ _ _ WTop).
    + by apply (count_refs s).
  - eapply (worker_take_inv s w WTop); auto.
Qed.
End workers.
End refs.

(** * The server of the system call proxy: theorems *)


Section refs.
Context {F : Prop}.
Local Abbreviation pool_ok := (pool_ok F).
Local Abbreviation inv := (inv F).

(** ** Requests of the kernel *)
Lemma rw_remove_perm reqno l rw : rw_find reqno l = Some rw ->
  reqno :: map rw_reqno (rw_remove reqno l) ≡ₚ map rw_reqno l.
Proof.
  induction l as [| r l IH]; [done |]. cbn. destruct (Z.eqb_spec (rw_reqno r) reqno) as [<- | Hne]; [done |].
  intros Hf. cbn. rewrite perm_swap. by rewrite IH.
Qed.

Lemma rw_find_app reqno l rw : rw_reqno rw = reqno -> is_Some (rw_find reqno (l ++ [rw])).
Proof.
  intros <-. induction l as [| r l IH]; cbn; [rewrite Z.eqb_refl; by eexists |]. case_match; [by eexists | done].
Qed.

Section kern.
Context (H : host).

(** A worker that starts or stops waiting for its client. *)
Lemma inv_wait s s1 w i p c c' q q' : inv s -> i <> 0%nat -> workers s !! w = Some q -> slots s !! i = Some (p, c) ->
  same s s1 -> pclass q = pclass q' -> (forall j, holds j q = holds j q') ->
  (forall j, j <> i -> wait_of j q = None /\ wait_of j q' = None) ->
  spc_refcnt c' = spc_refcnt c -> spc_state c' = spc_state c -> spc_ostatus c' = spc_ostatus c -> spc_rx c' = spc_rx c ->
  option_list (wait_of i q) ++ map rw_reqno (spc_respwait c') ≡ₚ option_list (wait_of i q') ++ map rw_reqno (spc_respwait c) ->
  inv (set_worker w q' (loc i c' s1)).
Proof.
  intros Hinv Hi Hw Hsl Hsame Hc Hh Hoth E1 E2 E3 E4 Hrw. pose proof Hinv as [Hpool Hslots Hcount].
  assert (Hw1 : workers (loc i c' s1) !! w = Some q)
    by (destruct Hsame as (_ & _ & _ & _ & _ & _ & _ & _ & _ & E); cbn; by rewrite E).
  assert (Hu : forall j, uses j (set_worker w q' (loc i c' s1)) = uses j s).
  { intros j. rewrite (uses_set_worker _ w q q'), Hh by done. destruct (same_uses s s1 i c' j Hsame) as [-> _]. lia. }
  assert (Hupd : slot_upd i p c' s (set_worker w q' (loc i c' s1))) by (by apply (loc_upd i p c c' s s1)).
  constructor.
  - eapply pool_set_worker; [exact Hw1 | done | by eapply same_pool].
  - eapply slots_update; eauto.
    + intros j Hj. split; [apply Hu |]. destruct (Hoth j Hj) as [Eq Eq'].
      rewrite (waits_set_worker _ w q q') by done. by destruct (same_uses s s1 i c' j Hsame) as [_ ->].
    + destruct (slots_all _ Hslots i p c Hi Hsl) as (Ho & Hws & Hcase).
      unfold slot_ok. rewrite Hu, E1, E2, E3, E4. split; [done |]. split; [| done].
      pose proof (omap_insert_perm (wait_of i) (workers (loc i c' s1)) w q q' Hw1) as Hp.
      change (omap (wait_of i) (workers (loc i c' s1))) with (waits i (loc i c' s1)) in Hp.
      destruct (same_uses s s1 i c' i Hsame) as [_ Ew]. rewrite Ew, <- Hws, <- Hrw in Hp.
      by apply Permutation_app_inv_l in Hp.
  - destruct Hsame as (_ & _ & Ed & En & Em & _). eapply (count_update s _ i p c p c'); try done.
    + unfold slot_used; cbn [fst snd]. rewrite E2. change (disco (set_worker w q' (loc i c' s1))) with (disco s1). lia.
    + change (0 <= disco s1). destruct Hcount. lia.
Qed.

Lemma kernreq_start_inv s w sba what : inv s -> workers s !! w = Some (WSys sba) -> wp (kernreq_start H w sba what s) inv.
Proof.
  intros Hinv Hw.
  destruct (used_slot s (sba_spc sba) Hinv) as (Hi & p & c & Hsl); [by eapply held_uses |]. set (i := sba_spc sba) in *.
  pose proof Hsl as Hsl'. apply slots_lookup in Hsl' as [_ Hci].
  assert (Hs : is_Some (spclist s !! i)) by (by rewrite Hci).
  destruct (slots_all _ (inv_slots _ Hinv) i p c Hi Hsl) as (Ho & _).
  rewrite (loc_id i c s Hci). unfold kernreq_start. fold i. unfold putwait, doputwait, sendlockl. sp_run.
  cbn [spc_ostatus spc_set_respwait spc_set_nextreq]. rewrite decide_True by done. sp_run. destruct (negb _).
  - unfold unputwait, dounputwait, sendunlockl. sp_run.
    match goal with |- wp (Done (loc i ?c' ?s1)) _ => apply (inv_quiet s s1 i p c c') end; auto with sp.
    repeat split; auto. cbn. destruct (rw_find_app (spc_nextreq c) (spc_respwait c) (RespWait (spc_nextreq c) None 0 false 0) eq_refl) as [rw Hf].
    apply rw_remove_perm in Hf. rewrite map_app in Hf. cbn in Hf. rewrite (Permutation_app_comm (map _ _) [_]) in Hf.
    by apply Permutation_cons_inv in Hf.
  - unfold waitresp_start, sendunlockl. sp_run.
    match goal with |- wp (Done (set_worker w ?q' (loc i ?c' ?s1))) _ =>
      apply (inv_wait s s1 w i p c c' (WSys sba) q') end; auto with sp.
    + intros j Hj. split; [done |]. cbn. unfold of_client. rewrite bool_decide_false; done.
    + cbn. unfold of_client. rewrite bool_decide_true by done. cbn. rewrite map_app. cbn. by rewrite (Permutation_app_comm (map _ _) [_]).
Qed.

Lemma kernreq_end_inv s w sba reqno what : inv s -> workers s !! w = Some (WCopy sba reqno what) ->
  wp (kernreq_end w sba reqno what s) inv.
Proof.
  intros Hinv Hw.
  destruct (used_slot s (sba_spc sba) Hinv) as (Hi & p & c & Hsl); [by eapply held_uses |]. set (i := sba_spc sba) in *.
  pose proof Hsl as Hsl'. apply slots_lookup in Hsl' as [_ Hci].
  assert (Hs : is_Some (spclist s !! i)) by (by rewrite Hci).
  rewrite (loc_id i c s Hci). unfold kernreq_end, waitresp_end. fold i. apply wp_bind. sp_run.
  apply wp_bind, wp_option. intros rw Hf. destruct (_ && _); [by rewrite <- loc_id |]. unfold dounputwait. sp_run. cbn [wp].
  apply wp_bind. destruct (kernreq_result _ _ _ _) as [e | |] eqn:Er; [| | exact I].
  2: { unfold kernreq_result in Er. repeat case_match; discriminate. }
  cbn [wp]. rewrite ev_loc. match goal with |- context [set_worker w ?q' (loc i ?c' ?s1)] =>
      apply (inv_wait s s1 w i p c c' (WCopy sba reqno what) q') end; auto with sp.
  - intros j Hj. split; [| done]. cbn. unfold of_client. rewrite bool_decide_false; done.
  - cbn. unfold of_client. rewrite bool_decide_true by done. cbn. by eapply rw_remove_perm.
Qed.

Lemma copyout_inv s w sba raddr data : inv s -> workers s !! w = Some (WSys sba) ->
  wp ('(_, s) ← sp_copyout H (sba_spc sba) raddr data s; Done s) inv.
Proof.
  intros Hinv Hw.
  destruct (used_slot s (sba_spc sba) Hinv) as (Hi & p & c & Hsl); [by eapply held_uses |]. set (i := sba_spc sba) in *.
  pose proof Hsl as Hsl'. apply slots_lookup in Hsl' as [_ Hci].
  assert (Hs : is_Some (spclist s !! i)) by (by rewrite Hci).
  destruct (slots_all _ (inv_slots _ Hinv) i p c Hi Hsl) as (Ho & _).
  rewrite (loc_id i c s Hci). unfold sp_copyout, send_copyout_req, nextreq. sp_run. cbn [wp].
  match goal with |- inv (loc i ?c' ?s1) => apply (inv_quiet s s1 i p c c') end; auto with sp. repeat split; auto.
Qed.
End kern.

Section run.
Context (H : host) (maxw idlew : Z).
Hypothesis HF : F \/ (forall h, h_create H h = true) /\ 1 <= maxw /\ 0 <= idlew.

Lemma spurious_inv s w : inv s -> workers s !! w = Some WSleep -> inv (set_worker w WWoken s).
Proof.
  intros [Hpool Hslots Hcount] Hw. constructor.
  - by apply pool_wake.
  - apply (slots_refs s); [done | done | done |]. intros j. rewrite (uses_set_worker _ w WSleep WWoken) by done.
    split; [cbn; lia |]. by apply (waits_set_worker s w WSleep).
  - by apply (count_refs s).
Qed.

Lemma server_step_inv fuel a s : inv s -> wp (server_step H maxw idlew fuel a s) inv.
Proof using HF.
  intros Hinv. destruct a as [| newfd nb hook sent | i replies | w | w | w what | w raddr data]; cbn [server_step].
  - by eapply gc_inv.
  - by eapply serve_listen_inv.
  - destruct (pfdlist s !! i) as [p |] eqn:Hp; [| done]. destruct (Z.eqb_spec p (-1)); [done |].
    case_bool_decide as Hi; [done |]. case_bool_decide; [done |]. cbn [orb].
    destruct (spclist s !! i) as [c |] eqn:Hc.
    + eapply serve_client_inv; eauto. by apply slots_lookup.
    + unfold serve_client, client. rewrite Hc. done.
  - destruct (workers s !! w) as [q |] eqn:Hw; [| unfold worker_step; by rewrite Hw].
    destruct q; try (unfold worker_step; rewrite Hw; done).
    + unfold worker_step. rewrite Hw. by eapply worker_top_inv.
    + unfold worker_step. rewrite Hw. eapply (worker_take_inv H s w WWoken); auto. by destruct s.
    + by eapply worker_sys_inv.
    + unfold worker_step. rewrite Hw. by apply kernreq_end_inv.
    + by eapply worker_exec_inv.
  - destruct (workers s !! w) as [q |] eqn:Hw; [| done]. destruct q; try done. by apply spurious_inv.
  - destruct (workers s !! w) as [q |] eqn:Hw; [| done]. destruct q; try done. by apply kernreq_start_inv.
  - destruct (workers s !! w) as [q |] eqn:Hw; [| done]. destruct q; try done. by eapply copyout_inv.
Qed.

Lemma server_run_inv fuel acts : forall s, inv s -> wp (server_run H maxw idlew fuel acts s) inv.
Proof using HF.
  induction acts as [| a acts IH]; intros s Hs; [done |]. cbn [server_run]. apply wp_bind.
  eapply wp_mono; [by apply server_step_inv |]. exact IH.
Qed.

Lemma server_start_inv sock : sock <> -1 -> inv (server_start sock).
Proof.
  intros Hsock. assert (Hsl : slots (server_start sock) = (sock, spc_init sock) :: replicate (MAXCLI - 1) (-1, spc_init (-1))).
  { unfold slots, server_start; cbn [pfdlist spclist]. cbn [zip_with]. f_equal. }
  constructor.
  - constructor; try done. by left.
  - constructor; [done | | by exists sock | done]. intros i p c Hi. rewrite Hsl.
    destruct i as [| i]; [done |]. cbn [lookup list_lookup]. intros [[= -> ->] _]%lookup_replicate_1.
    split; [done |]. split; [done |]. right; right. done.
  - constructor; rewrite ?Hsl; try done.
    + rewrite count_cons. unfold slot_used at 1; cbn [fst snd]. replace (sock =? -1) with false by lia. done.
    + intros i p. cbn [pfdlist server_start]. destruct i as [| i]; [lia |]. cbn [lookup list_lookup].
      intros [-> _]%lookup_replicate_1. done.
Qed.
End run.
End refs.

(** ** References *)

(** What holds of slot [i] of the client table: [p] is the descriptor polled
    for it, [c] the client. *)
Definition slot_accounted (s : srv) (i : nat) (p : Z) (c : spclient) : Prop :=
  (* connected: one reference for the connection, one for each work item; none before the handshake *)
  (p <> -1 -> spc_refcnt c = 1 + uses i s /\ (spc_state c = SPCSTATE_NEW -> uses i s = 0)) /\
  (* free to be handed out: nothing refers to it *)
  (p = -1 -> spc_state c = SPCSTATE_NEW -> uses i s = 0 /\ spc_respwait c = []) /\
  (* disconnected with work under way: it stays taken until the last item is done *)
  (p = -1 -> spc_state c <> SPCSTATE_NEW -> spc_state c = SPCSTATE_DYING /\ spc_refcnt c = uses i s /\ 0 < uses i s) /\
  (* the waiters are those of the workers that wait *)
  map rw_reqno (spc_respwait c) ≡ₚ waits i s.


(** A server that accepts a connection, receives a guest handshake and a
    system call, and works on it. *)
Definition demo_host : host :=
  Host (fun _ => 0) (fun _ => 0) (fun _ => 0) (fun _ => 0) (fun _ => 7) (fun _ => (0, 5, 0)) (fun _ => true)
    (fun n => n + 8) (fun _ => repeat 9 16) (fun _ => 0) (fun _ => true) (fun _ => 0%nat).
Definition demo_acts : list action :=
  [AConnect 4 true true true;
   AReadable 1 [RdData (hdr_bytes (RspHdr 27 1 RUMPSP_REQ RUMPSP_HANDSHAKE HANDSHAKE_GUEST)); RdData [97; 98; 99]];
   AReadable 1 [RdData (hdr_bytes (RspHdr 26 2 RUMPSP_REQ RUMPSP_SYSCALL 20)); RdData [1; 2]]].


(** ** Work gets done *)

(** A worker that will run on its own: it is neither asleep nor gone. *)
Definition runnable (w : wphase) : Prop := is_sleeping w = false /\ is_there w = true.


