(* ===== verification/SpErrThms.v ===== *)
(** * The system call proxy: requests it refuses, and what goes wrong *)

From S2P Require Import Prelude Count Mem SpWire SpWireThms SpServ SpServInv.

(** ** Refusals *)

(** The error a request is answered with, and whether the connection is shut
    down, from what the protocol says of requests:
    - before the handshake, only the handshakes GUEST and FORK are allowed; a
      FORK has to be well-formed and to name a prefork;
    - after it, only EXEC handshakes; while an exec is under way, no second
      one and no prefork;
    - everything else must be a system call. *)
Definition refused (c : spclient) (pfs : list prefork) : option (rumpsp_err * bool) :=
  let h := hdr_of (spc_hdr (spc_rx c)) in
  let body := default [] (spc_buf (spc_rx c)) in
  if decide (spc_state c = SPCSTATE_NEW) then
      if negb (rsp_type h =? RUMPSP_HANDSHAKE) then Some (RUMPSP_ERR_AUTH, true)
      else if rsp_u h =? HANDSHAKE_GUEST then None
      else if rsp_u h =? HANDSHAKE_FORK then
        if negb (spc_off (spc_rx c) - HDRSZ =? 20) then Some (RUMPSP_ERR_MALFORMED_REQUEST, true)
        else if existsb (fun pf => bool_decide (pf_auth pf = take 16 body)) pfs then None
        else Some (RUMPSP_ERR_INVALID_PREFORK, true)
      else Some (RUMPSP_ERR_AUTH, true)
  else
      if rsp_type h =? RUMPSP_PREFORK then
        if spc_inexec c then Some (RUMPSP_ERR_INEXEC, true) else None
      else if rsp_type h =? RUMPSP_HANDSHAKE then
        if negb (rsp_u h =? HANDSHAKE_EXEC) then Some (RUMPSP_ERR_MALFORMED_REQUEST, true)
        else if spc_inexec c then Some (RUMPSP_ERR_INEXEC, true) else None
      else if rsp_type h =? RUMPSP_SYSCALL then None
      else Some (RUMPSP_ERR_MALFORMED_REQUEST, false).

(** The state after a refusal: one error message to the client, which carries
    the number of its request, the socket shut down or not, the buffer empty,
    and nothing else. *)
Definition error_msg (reqno : Z) (e : rumpsp_err) : list Z :=
  hdr_bytes (RspHdr HDRSZ reqno RUMPSP_ERROR 0 (err_code e)).
Definition refuse (i : nat) (c : spclient) (e : rumpsp_err) (shut : bool) (s : srv) : srv :=
  let s := record_ev (EvSend i (error_msg (rsp_reqno (hdr_of (spc_hdr (spc_rx c)))) e)) s in
  let s := if shut then record_ev (EvShutdown (spc_fd c)) s else s in
  upd_client i (fun c => spc_set_rx (spcresetbuf (spc_rx c)) c) s.

Lemma pf_find_none auth l : existsb (fun pf => bool_decide (pf_auth pf = auth)) l = false -> pf_find auth l = None.
Proof.
  induction l as [| pf l IH]; [done |]. cbn. intros [E1 E2]%orb_false_iff. rewrite E1, IH by done. done.
Qed.

Section refusals.
Context (H : host) (maxw : Z) (fuel : nat) (s : srv) (i : nat) (c : spclient).
Hypothesis Hs : is_Some (spclist s !! i).
Hypothesis Ho : spc_ostatus c = SPCSTATUS_FREE.

Lemma refuse_loc e shut : refuse i c e shut (loc i c s) =
  loc i (spc_set_rx (spcresetbuf (spc_rx c)) c)
    (let s := record_ev (EvSend i (error_msg (rsp_reqno (hdr_of (spc_hdr (spc_rx c)))) e)) s in
     if shut then record_ev (EvShutdown (spc_fd c)) s else s).
Proof using Hs. unfold refuse. destruct shut; by sp_run. Qed.

(** The answer [Some (e, shut)] has been reached on both sides. *)
Ltac refuse_now Hr :=
  injection Hr as <- <-; cbn [negb]; rewrite ?spcfreebuf_loc by done; rewrite send_error_resp_loc by done; sp_run;
  rewrite ?spcfreebuf_loc by done; by rewrite refuse_loc.

Lemma fork_refused e shut : (spc_off (spc_rx c) - HDRSZ = 20 -> is_Some (spc_buf (spc_rx c))) ->
  (if negb (spc_off (spc_rx c) - HDRSZ =? 20) then Some (RUMPSP_ERR_MALFORMED_REQUEST, true)
   else if existsb (fun pf => bool_decide (pf_auth pf = take 16 (default [] (spc_buf (spc_rx c))))) (preforks s) then None
   else Some (RUMPSP_ERR_INVALID_PREFORK, true)) = Some (e, shut) ->
  handshake_fork H i (rsp_reqno (hdr_of (spc_hdr (spc_rx c)))) (loc i c s) = Done (refuse i c e shut (loc i c s)).
Proof using Hs Ho.
  intros Hbuf Hr. unfold handshake_fork. sp_run.
  destruct (Z.eqb_spec (spc_off (spc_rx c) - HDRSZ) 20) as [Hoff | Hoff]; cbn [negb] in *; [| refuse_now Hr].
  destruct (Hbuf Hoff) as [b Hb]. rewrite Hb in *. cbn [of_option default] in *. sp_run.
  change (preforks (loc i c s)) with (preforks s). destruct (existsb _ _) eqn:Ex; [discriminate |].
  rewrite pf_find_none by done. refuse_now Hr.
Qed.

Lemma handlereq_refused e shut : (spc_off (spc_rx c) - HDRSZ = 20 -> is_Some (spc_buf (spc_rx c))) ->
  refused c (preforks s) = Some (e, shut) ->
  handlereq H maxw fuel i (loc i c s) = Done (refuse i c e shut (loc i c s)).
Proof using Hs Ho.
  intros Hbuf Hr. unfold handlereq. sp_run. unfold refused in Hr. destruct (decide _).
  - destruct (negb _); [refuse_now Hr |]. destruct (_ =? HANDSHAKE_GUEST); [discriminate |].
    destruct (_ =? HANDSHAKE_FORK); [by apply fork_refused | refuse_now Hr].
  - destruct (_ =? RUMPSP_PREFORK).
    { unfold handle_prefork. rewrite spcfreebuf_loc by done. sp_run. cbn [spc_inexec spc_set_rx].
      destruct (spc_inexec c); [refuse_now Hr | discriminate]. }
    destruct (_ =? RUMPSP_HANDSHAKE); [| destruct (_ =? RUMPSP_SYSCALL); [discriminate | refuse_now Hr]].
    unfold handle_exec. sp_run. destruct (negb _); [refuse_now Hr |].
    destruct (spc_inexec c); [refuse_now Hr | discriminate].
Qed.
End refusals.

(** C33. Every request the protocol does not allow is refused the same way: the
    client gets exactly one error response, with its request number and the
    error code for what is wrong, the connection is shut down where the
    protocol calls for it, the receive buffer is emptied for the next message,
    and no other part of the server changes - no work is queued, no prefork is
    taken, no call into the rump kernel is made. *)
Theorem sp_refusals H maxw fuel s i c e shut :
  spclist s !! i = Some c -> spc_ostatus c = SPCSTATUS_FREE ->
  (spc_off (spc_rx c) - HDRSZ = 20 -> is_Some (spc_buf (spc_rx c))) ->
  refused c (preforks s) = Some (e, shut) ->
  handlereq H maxw fuel i s = Done (refuse i c e shut s).
Proof. intros Hc Ho Hbuf Hr. rewrite (loc_id i c s Hc). apply handlereq_refused; auto. Qed.

(** A client that asks for a system call before its handshake. *)
Lemma sp_refusals_witness :
  let h := RspHdr 24 5 RUMPSP_REQ RUMPSP_SYSCALL 20 in
  let c := SpClient 4 1 SPCSTATE_NEW 0 0 [] (RxBuf (hdr_bytes h) None 24) 0 0 SPCSTATUS_FREE SPCSTATUS_BUSY false in
  let s := upd_client 1 (fun _ => c) (server_start 3) in
  let H := Host (fun _ => 0) (fun _ => 0) (fun _ => 0) (fun _ => 0) (fun _ => 7) (fun _ => (0, 0, 0)) (fun _ => true)
             (fun n => n) (fun _ => []) (fun _ => 0) (fun _ => true) (fun _ => 0%nat) in
  refused c (preforks s) = Some (RUMPSP_ERR_AUTH, true) /\
  handlereq H 128 10 1 s = Done (refuse 1 c RUMPSP_ERR_AUTH true s).
Proof.
  intros h c s H. split; [reflexivity |].
  apply (sp_refusals H 128 10 s 1 c RUMPSP_ERR_AUTH true); [reflexivity | reflexivity | discriminate | reflexivity].
Defined.

(** ** What goes wrong *)

(** [malloc(framelen - HDRSZ)] is filled with the body, and the handlers of
    GUEST and EXEC then store a NUL after it: without a byte to spare, that is
    outside the allocation; a message without a body has no buffer at all. *)
Theorem guest_comm_overflow H i reqno s c :
  spclist s !! i = Some c ->
  let n := rsp_len (hdr_of (spc_hdr (spc_rx c))) - HDRSZ in
  h_usable H n = n \/ spc_buf (spc_rx c) = None ->
  exists why, handshake_guest H i reqno s = Undef why.
Proof.
  intros Hc n Hn. unfold handshake_guest, client. rewrite Hc. cbn [of_option]. rewrite Done_bind. fold n.
  unfold terminate_comm. destruct (spc_buf (spc_rx c)) as [b |]; [| by eexists].
  destruct Hn as [Hn | ?]; [| discriminate]. rewrite Hn. replace (n <? n) with false by lia. by eexists.
Qed.

(** [retries] is never incremented: as long as there is a worker and no
    memory, [schedulework] does not return. *)
Theorem schedulework_spins H fuel s :
  (forall h, h_malloc H h = false) -> nworker s <> 0 -> schedulework_alloc H fuel 0 s = Undef "schedulework: out of fuel".
Proof.
  intros Hm. revert s. induction fuel as [| fuel IH]; intros s Hw; [done |]. cbn [schedulework_alloc].
  rewrite Hm. replace (nworker s =? 0) with false by lia. by apply IH.
Qed.

Lemma readframe_header mal h rest : hdr_ok h -> rsp_len h = HDRSZ ->
  readframe reply_read mal rx_empty (RdData (hdr_bytes h) :: rest) = Done (1, RxBuf (hdr_bytes h) None 24, rest).
Proof.
  intros Hok Hlen. unfold readframe. change (spc_off rx_empty) with 0. change (0 <? HDRSZ) with true. cbn match.
  unfold reply_read. rewrite hdr_bytes_length.
  assert (Hput : put_bytes (spc_hdr rx_empty) 0 (hdr_bytes h) = hdr_bytes h)
    by (unfold put_bytes; rewrite hdr_bytes_length; apply app_nil_r).
  rewrite Hput. change (HDRSZ - 0 <? Z.of_nat 24) with false. cbn match.
  change (spc_off (RxBuf (hdr_bytes h) (spc_buf rx_empty) (0 + Z.of_nat 24)) <? HDRSZ) with false. cbn match.
  cbn [spc_hdr]. rewrite hdr_of_hdr_bytes, Hlen by done. done.
Qed.

(** A client that answers a request of the kernel with an error response
    ([RUMPSP_ERROR]) is told that its request is malformed; the waiter, for
    which [kickwaiter] has code to take such a response, goes on waiting. *)
Theorem error_response_lost H maxw fuel i s c h rest :
  spclist s !! i = Some c -> spc_ostatus c = SPCSTATUS_FREE -> spc_rx c = rx_empty ->
  hdr_ok h -> rsp_len h = HDRSZ -> rsp_class h = RUMPSP_ERROR ->
  exists s' c', serve_client H maxw fuel i (RdData (hdr_bytes h) :: rest) s = Done s' /\
    spclist s' !! i = Some c' /\ spc_respwait c' = spc_respwait c /\
    history s' = EvSend i (error_msg (rsp_reqno h) RUMPSP_ERR_MALFORMED_REQUEST) :: history s.
Proof.
  intros Hc Ho Hrx Hok Hlen Hcl. rewrite (loc_id i c s Hc). assert (Hs : is_Some (spclist s !! i)) by (by rewrite Hc).
  unfold serve_client. sp_run. rewrite Hrx, readframe_header by done. sp_run. cbn [Z.eqb Pos.eqb spc_hdr].
  rewrite hdr_of_hdr_bytes, Hcl by done. change (RUMPSP_ERROR =? RUMPSP_RESP) with false. change (RUMPSP_ERROR =? RUMPSP_REQ) with false.
  cbn match. rewrite send_error_resp_loc by done. sp_run. rewrite spcfreebuf_loc by done.
  eexists _, _. split; [reflexivity |]. split; [cbn; by rewrite list_lookup_insert_eq by (by eapply lookup_lt_Some) |]. done.
Qed.

(** The copy to the kernel's buffer trusts the client for its length: a
    string longer than asked for is copied past the end of the buffer, and a
    response shorter than asked for is read past its end. *)
Theorem copyinstr_overflow i raddr len rw :
  len < rw_dlen rw -> rw_dlen rw <= Z.of_nat (length (default [] (rw_data rw))) ->
  kernreq_result i (KCopyin raddr len true) 0 rw = Undef "memcpy: past the end of laddr".
Proof.
  intros Hl Hd. cbn. replace (Z.of_nat (length (default [] (rw_data rw))) <? rw_dlen rw) with false by lia.
  by replace (len <? rw_dlen rw) with true by lia.
Qed.
Theorem copyin_overread i raddr len rw :
  Z.of_nat (length (default [] (rw_data rw))) < len ->
  kernreq_result i (KCopyin raddr len false) 0 rw = Undef "memcpy: past the end of rdata".
Proof. intros Hl. cbn. by replace (Z.of_nat (length (default [] (rw_data rw))) <? len) with true by lia. Qed.

(** A peer that has gone away is reported as [EPIPE]: the [ENOTCONN] chosen
    for it is overwritten.  And on any error [dosend] leaves the thread on the
    [lwp] it took. *)
Theorem dosend_epipe {A} (poll : A -> (Z * Z) * A) (send : A -> list (list Z) -> (Z * Z) * A) fuel mylwp iov h h' :
  send h iov = ((-1, Errno.EPIPE), h') ->
  dosend poll send (S fuel) mylwp iov h = Done (Errno.EPIPE, h', [LwpNew 1]).
Proof. intros E. unfold dosend. cbn [dosend_loop Z.eqb negb]. rewrite E. done. Qed.

(** [serv_shutdown] gives up the connection's reference and then another one:
    with no work under way the count goes to -1 and the slot is released
    twice. *)
Definition shutdown_demo : outcome (list Z * list ev * Z) :=
  '(_, s) ← serv_handleconn 4 false true true true (server_start 3);
  s ← serv_shutdown s;
  Done (map spc_refcnt (take 2 (spclist s)), history s, disco s).
Theorem serv_shutdown_releases_twice :
  shutdown_demo = Done ([0; -1], [EvClose (-1); EvClose 4; EvShutdown 4], 2).
Proof. vm_compute. reflexivity. Qed.
