(* ===== verification/SpUrl.v ===== *)
(** * Addresses of the system call proxy (lib/librumprun_base/sysproxy.c)

    [parseurl] takes a locator such as tcp://0:1234 or unix:///tmp/sock apart
    and has the address parsed by the routine of its table [parsetab].  C
    strings are lists of non-NUL bytes.  [inet_pton] of the C library is a
    parameter, as are the working directory and whether there is memory. *)

From S2P Require Import Prelude Mem SpWire.

Inductive sockaddr :=
  | SockIn (s_addr sin_port : Z)
  | SockUn (sun_path : list Z).
Global Instance sockaddr_eq_dec : EqDecision sockaddr.
Proof. solve_decision. Defined.

Definition INADDR_ANY : Z := 0.
Definition SUN_PATH_SIZE : Z := 104.
Definition PATH_MAX : Z := 1024.

(** [strchr], [strstr] and [strspn] of the C library: the offset found. *)
Fixpoint strchr (s : list Z) (c : Z) : option nat :=
  match s with
  | [] => None
  | b :: s => if b =? c then Some 0%nat else S <$> strchr s c
  end.
Fixpoint starts_with (pat s : list Z) : bool :=
  match pat, s with
  | [], _ => true
  | _, [] => false
  | p :: pat, b :: s => (p =? b) && starts_with pat s
  end.
Fixpoint strstr (s pat : list Z) : option nat :=
  if starts_with pat s then Some 0%nat
  else match s with
       | [] => None
       | _ :: s => S <$> strstr s pat
       end.
Definition is_digit (c : Z) : bool := (48 <=? c) && (c <=? 57).
Fixpoint strspn_digits (s : list Z) : nat :=
  match s with
  | [] => 0
  | b :: s => if is_digit b then S (strspn_digits s) else 0
  end.
(** [atoi] of a string of digits; the result is undefined if it is no [int]. *)
Definition digits_val (s : list Z) : Z := fold_left (fun v c => 10 * v + (c - 48)) s 0.
Definition atoi (s : list Z) : outcome Z :=
  if digits_val s <? 2 ^ 31 then Done (digits_val s) else Undef "atoi".

Section url.
(** The value returned, the address in host order if that is 1, and [errno]. *)
Context (inet_pton : list Z -> Z * Z * Z) (malloc_ok : bool) (cwd : option (list Z)).

(** [htons] on a little-endian machine. *)
Definition htons (p : Z) : Z := 256 * (p mod 256) + p / 256.

(** [tcp_parse] from the conversion of the port on. *)
Definition tcp_port (s_addr : Z) (buf : list Z) : outcome (Z + sockaddr) :=
  port ← atoi buf;
  if (port <? 0) || (2 ^ (8 * 2) <=? port) then Done (inl Errno.ERANGE)
  else if negb malloc_ok then Done (inl Errno.ENOMEM)
  else Done (inr (SockIn s_addr (htons port))).

Definition tcp_parse (addr : list Z) (allow_wildcard : bool) : outcome (Z + sockaddr) :=
  match strchr addr 58 with
  | None => Done (inl Errno.EINVAL)
  | Some l =>
      if 64 - 1 <? Z.of_nat l then Done (inl Errno.EINVAL)
      else
        let buf := take l addr in
        let res :=
          if bool_decide (buf = bytes_of "*") || bool_decide (buf = bytes_of "0") then inr INADDR_ANY
          else
            let '(rv, a, errno) := inet_pton buf in
            if rv =? 1 then inr a
            else if rv =? 0 then inl Errno.EINVAL
            else if rv =? -1 then inl errno
            else inl Errno.EINVAL in
        match res with
        | inl e => Done (inl e)
        | inr s_addr =>
            if negb allow_wildcard && (s_addr =? INADDR_ANY) then Done (inl Errno.EINVAL)
            else
              let p := drop (S l) addr in
              let l := strspn_digits p in
              if bool_decide (l = 0%nat) then Done (inl Errno.EINVAL)
              else if 64 <=? Z.of_nat l then Undef "buf[l]"
              else
                match drop l p with
                | c :: _ => if negb (c =? 47) then Done (inl Errno.EINVAL) else tcp_port s_addr (take l p)
                | [] => tcp_port s_addr (take l p)
                end
        end
  end.

(** The address, and the absolute path kept in [parsedurl], if any. *)
Definition unix_parse (addr : list Z) : (Z + sockaddr) * option (list Z) :=
  if SUN_PATH_SIZE <=? Z.of_nat (length addr) then (inl Errno.ENAMETOOLONG, None)
  else
    let absolute := match addr with c :: _ => c =? 47 | [] => false end in
    let prefix :=
      if absolute then inr ([], false)
      else
        match cwd with
        | None => inr ([], false)
        | Some mywd =>
            if PATH_MAX <=? Z.of_nat (length mywd) then inr ([], false)
            else if SUN_PATH_SIZE <=? Z.of_nat (length addr) + Z.of_nat (length mywd) + 1 then inl Errno.ENAMETOOLONG
            else inr (mywd ++ [47], true)
        end in
    match prefix with
    | inl e => (inl e, None)
    | inr (pre, savepath) =>
        let path := pre ++ addr in
        let saved := if savepath : bool then Some (take 255 (bytes_of "unix://" ++ path)) else None in
        (if malloc_ok then inr (SockUn path) else inl Errno.ENOMEM, saved)
    end.

(** The table: identifier and address parser, by index. *)
Definition parsetab : list (list Z) := [bytes_of "tcp"; bytes_of "unix"; bytes_of "tcp6"].

Definition addr_parse (i : nat) (addr : list Z) (allow_wildcard : bool) : outcome (Z + sockaddr) :=
  match i with
  | 0%nat => tcp_parse addr allow_wildcard
  | 1%nat => Done (unix_parse addr).1
  | _ => Done (inl Errno.EOPNOTSUPP)
  end.

Fixpoint parse_loop (tab : list (list Z)) (i : nat) (id addr : list Z) (allow_wildcard : bool) : outcome (Z + sockaddr * nat) :=
  match tab with
  | [] => Done (inl Errno.EINVAL)
  | name :: tab =>
      if bool_decide (id = name) then
        r ← addr_parse i addr allow_wildcard;
        Done (match r with inl e => inl e | inr sa => inr (sa, i) end)
      else parse_loop tab (S i) id addr allow_wildcard
  end.

Definition parseurl (url : list Z) (allow_wildcard : bool) : outcome (Z + sockaddr * nat) :=
  match strstr url (bytes_of "://") with
  | None => Done (inl Errno.EINVAL)
  | Some l =>
      if 16 - 1 <? Z.of_nat l then Done (inl Errno.EINVAL)
      else parse_loop parsetab 0 (take l url) (drop (l + 3) url) allow_wildcard
  end.
End url.

(** ** Locators that are written out

    What a user writes for a TCP address: a host part, a port in decimal. *)
Fixpoint decimal (fuel : nat) (n : Z) : list Z :=
  match fuel with
  | O => []
  | S fuel => (if n <? 10 then [] else decimal fuel (n / 10)) ++ [48 + n mod 10]
  end.

Definition tcp_url (h : list Z) (port : Z) (path : list Z) : list Z :=
  bytes_of "tcp://" ++ h ++ [58] ++ decimal 5 port ++ path.

Lemma decimal_digits fuel : forall n, 0 <= n -> Forall (fun c => is_digit c = true) (decimal fuel n).
Proof.
  induction fuel as [| fuel IH]; intros n Hn; cbn [decimal]; [constructor |].
  pose proof (Z.mod_pos_bound n 10 ltac:(lia)). apply Forall_app_2.
  - destruct (Z.ltb_spec n 10); [constructor | apply IH, Z.div_pos; lia].
  - constructor; [| constructor]. unfold is_digit. apply andb_true_iff. lia.
Qed.

Lemma decimal_length fuel n : (0 < fuel)%nat -> (1 <= length (decimal fuel n) <= fuel)%nat.
Proof.
  revert n. induction fuel as [| fuel IH]; intros n Hf; [lia |]. cbn [decimal]. rewrite length_app. cbn.
  destruct (n <? 10); cbn; [lia |]. destruct fuel as [| fuel]; [cbn; lia |]. specialize (IH (n / 10) ltac:(lia)). lia.
Qed.

Lemma decimal_val fuel : forall n, 0 <= n < 10 ^ Z.of_nat fuel -> digits_val (decimal fuel n) = n.
Proof.
  induction fuel as [| fuel IH]; intros n Hn; cbn [decimal].
  - change (10 ^ Z.of_nat 0) with 1 in Hn. cbn. lia.
  - rewrite Nat2Z.inj_succ, Z.pow_succ_r in Hn by lia. unfold digits_val. rewrite fold_left_app. cbn [fold_left].
    destruct (Z.ltb_spec n 10); cbn [fold_left].
    + rewrite Z.mod_small; lia.
    + fold (digits_val (decimal fuel (n / 10))). rewrite IH.
      * pose proof (Z.div_mod n 10). lia.
      * split; [apply Z.div_pos; lia | apply Z.div_lt_upper_bound; lia].
Qed.

Lemma strspn_app l r : Forall (fun c => is_digit c = true) l -> (forall c r', r = c :: r' -> is_digit c = false) ->
  strspn_digits (l ++ r) = length l.
Proof.
  intros Hl Hr. induction Hl as [| c l Hc _ IH]; cbn; [| by rewrite Hc, IH].
  destruct r as [| c r]; [done |]. cbn. by rewrite (Hr c r eq_refl).
Qed.

Lemma strchr_app l c r : c ∉ l -> strchr (l ++ c :: r) c = Some (length l).
Proof.
  induction l as [| b l IH]; intros Hn; cbn; [by rewrite Z.eqb_refl |].
  apply not_elem_of_cons in Hn as [Hb Hn]. replace (b =? c) with false by lia. by rewrite IH.
Qed.

(** A locator that is written out is understood: from tcp://host:port with
    an optional path, where the host part is at most 63 bytes without a colon
    and is accepted by [inet_pton] (or stands for any address and that is
    allowed), [parseurl] gets the host's address and the port, and the index
    of the TCP entry of its table. *)
Theorem parseurl_tcp inet_pton malloc_ok cwd h port path allow a errno :
  58 ∉ h -> (length h <= 63)%nat -> 0 <= port < 65536 ->
  (path = [] \/ exists p, path = 47 :: p) -> malloc_ok = true ->
  (if bool_decide (h = bytes_of "*") || bool_decide (h = bytes_of "0") then a = INADDR_ANY /\ allow = true
   else inet_pton h = (1, a, errno) /\ (allow = true \/ a <> INADDR_ANY)) ->
  parseurl inet_pton malloc_ok cwd (tcp_url h port path) allow = Done (inr (SockIn a (htons port), 0%nat)).
Proof.
  intros Hc Hh Hport Hpath Hm Ha. unfold parseurl, tcp_url.
  change (strstr (bytes_of "tcp://" ++ h ++ [58] ++ decimal 5 port ++ path) (bytes_of "://")) with (Some 3%nat).
  change (16 - 1 <? Z.of_nat 3) with false. cbn match.
  change (take 3 (bytes_of "tcp://" ++ h ++ [58] ++ decimal 5 port ++ path)) with (bytes_of "tcp").
  change (drop (3 + 3) (bytes_of "tcp://" ++ h ++ [58] ++ decimal 5 port ++ path)) with (h ++ 58 :: decimal 5 port ++ path).
  unfold parsetab, parse_loop. rewrite bool_decide_true by done. cbn [addr_parse]. unfold tcp_parse.
  rewrite strchr_app by done. replace (64 - 1 <? Z.of_nat (length h)) with false by lia. rewrite take_app_length.
  assert (Hdrop : drop (S (length h)) (h ++ 58 :: decimal 5 port ++ path) = decimal 5 port ++ path).
  { rewrite drop_app_ge by lia. by replace (S (length h) - length h)%nat with 1%nat by lia. }
  rewrite Hdrop.
  pose proof (decimal_digits 5 port ltac:(lia)) as Hd. pose proof (decimal_length 5 port ltac:(lia)) as Hl.
  rewrite strspn_app; [| done | intros c r ->; destruct Hpath as [? | [p [= -> _]]]; [done | done]].
  rewrite (bool_decide_false (length (decimal 5 port) = 0%nat)) by lia. replace (64 <=? Z.of_nat (length (decimal 5 port))) with false by lia.
  rewrite take_app_length, drop_app_length.
  assert (Hp : tcp_port malloc_ok a (decimal 5 port) = Done (inr (SockIn a (htons port)))).
  { unfold tcp_port, atoi. rewrite decimal_val by (change (10 ^ Z.of_nat 5) with 100000; lia). replace (port <? 2 ^ 31) with true by lia. rewrite Done_bind.
    change (2 ^ (8 * 2)) with 65536. replace (port <? 0) with false by lia. replace (65536 <=? port) with false by lia. by rewrite Hm. }
  destruct (_ || _).
  - destruct Ha as [-> ->]. cbn [negb andb]. destruct Hpath as [-> | [p ->]]; cbn [Z.eqb Pos.eqb negb]; by rewrite Hp.
  - destruct Ha as [-> Hal]. cbn [Z.eqb Pos.eqb]. replace (negb allow && (a =? INADDR_ANY)) with false
      by (symmetry; apply andb_false_iff; destruct Hal as [-> | ?]; [by left | right; lia]).
    destruct Hpath as [-> | [p ->]]; cbn [Z.eqb Pos.eqb negb]; by rewrite Hp.
Qed.

Lemma parseurl_tcp_witness :
  parseurl (fun _ => (1, 2130706433, 0)) true None (tcp_url (bytes_of "127.0.0.1") 8080 (bytes_of "/x")) false =
    Done (inr (SockIn 2130706433 (htons 8080), 0%nat)).
Proof.
  apply (parseurl_tcp (fun _ => (1, 2130706433, 0)) true None (bytes_of "127.0.0.1") 8080 (bytes_of "/x") false 2130706433 0).
  - cbv. set_solver.
  - cbv. lia.
  - lia.
  - right. by exists (bytes_of "x").
  - reflexivity.
  - cbn. split; [reflexivity |]. right. discriminate.
Defined.

(** The digits of the port are copied to a buffer of 64 bytes without a look
    at their number. *)
Theorem tcp_port_overflow inet_pton malloc_ok digits :
  Forall (fun c => is_digit c = true) digits -> (64 <= length digits)%nat ->
  tcp_parse inet_pton malloc_ok (bytes_of "0:" ++ digits) true = Undef "buf[l]".
Proof.
  intros Hd Hl. unfold tcp_parse. change (strchr (bytes_of "0:" ++ digits) 58) with (Some 1%nat). cbn match.
  change (drop 2 (bytes_of "0:" ++ digits)) with digits.
  assert (E : strspn_digits digits = length digits) by (rewrite <- (app_nil_r digits) at 1; by apply strspn_app).
  change (take 1 (bytes_of "0:" ++ digits)) with (bytes_of "0"). cbn [negb andb Z.of_nat].
  rewrite (bool_decide_true (bytes_of "0" = bytes_of "0")) by done. rewrite orb_true_r.
  change (64 - 1 <? Z.pos (Pos.of_succ_nat 0)) with false. cbn match.
  rewrite E, bool_decide_false by lia. by replace (64 <=? Z.of_nat (length digits)) with true by lia.
Qed.
