(* ===== verification/Rumprun.v ===== *)
(** * Running programs (lib/librumprun_base/rumprun.c and main.c)

    The main thread starts the programs of the configuration one after the
    other, waits for those that run in the foreground, and at the end collects
    every program before it reboots.  Each program has a thread of its own
    ([mainbouncer]) and, with its process, a copy of the descriptor table.

    The main thread is cut at the places where it waits.  In
    [pthread_cond_wait] it sleeps until a program broadcasts [w_cv]: a step of
    a sleeping main thread does nothing.  ([w_mtx] makes the test of the
    condition and falling asleep one step.)  The programs' threads
    take steps of their own: a program may turn into a daemon, returns from
    [main] (or calls [exit]), which runs [releaseme], and exits.  Whether
    [pipe] and [pthread_create] succeed is up to arguments. *)

From S2P Require Import Prelude Mem Cstring Config.
From S2P Require Import Count.

Definition RUMPRUNNER_DONE : Z := 16.
Definition RUMPRUNNER_DAEMON : Z := 32.

(** ** Descriptors *)
Inductive file :=
  | FRead (pipe : nat)
  | FWrite (pipe : nat)
  | FOther (n : Z).
Global Instance file_eq_dec : EqDecision file.
Proof. solve_decision. Defined.
Abbreviation fdtable := (gmap Z file).

(** The lowest free descriptor. *)
Fixpoint fd_free (fuel : nat) (n : Z) (fds : fdtable) : Z :=
  match fuel with
  | O => n
  | S fuel => match fds !! n with None => n | Some _ => fd_free fuel (n + 1) fds end
  end.
Definition fd_open (f : file) (fds : fdtable) : Z * fdtable :=
  let n := fd_free (S (size fds)) 0 fds in (n, <[n := f]> fds).
Definition fd_dup2 (old new : Z) (fds : fdtable) : option fdtable :=
  (fun f => <[new := f]> fds) <$> (fds !! old).
Definition fd_close (n : Z) (fds : fdtable) : fdtable := delete n fds.

(** ** Programs *)
Inductive tphase :=
  | TRunning
  | TReleased (rv : Z)
  | TExited (rv : Z).

Record rumprunner := RumpRunner {
  rr_id : nat;
  rr_mainfun : nat;
  rr_exec : rumprun_exec;
  rr_flags : Z;
  rr_fds : fdtable;
  rr_mainthread : tphase }.

(** Where the main thread is: before [RUNMAIN(k)] with the rest of the list of
    programs, at the loop of [rumprun] and asleep in it, in its
    [rumprun_wait]; before [rumprun_get_finished], at its loop and asleep in
    it, in the last [rumprun_wait], in [rumprun_reboot]. *)
Inductive mainpc :=
  | MRun (k : nat) (rres : list rumprun_exec)
  | MFore (id k : nat) (rres : list rumprun_exec)
  | MForeWait (id k : nat) (rres : list rumprun_exec)
  | MJoinFore (id k : nat) (rres : list rumprun_exec)
  | MGet
  | MGetLoop
  | MGetWait
  | MJoin (id : nat)
  | MReboot.

Record rstate := RState {
  rumprunners : list rumprunner;
  rumprun_done : Z;
  fds : fdtable;
  pipein : Z;
  npipes : nat;
  nextid : nat;
  launched : list (nat * (nat * rumprun_exec));
  returned : list (nat * Z);
  joined : list (nat * Z);
  mpc : mainpc }.

Definition set_pc (q : mainpc) (s : rstate) : rstate :=
  RState (rumprunners s) (rumprun_done s) (fds s) (pipein s) (npipes s) (nextid s) (launched s) (returned s) (joined s) q.
Definition set_runners (l : list rumprunner) (s : rstate) : rstate :=
  RState l (rumprun_done s) (fds s) (pipein s) (npipes s) (nextid s) (launched s) (returned s) (joined s) (mpc s).

Section rumprun.
Context (have_main : nat -> bool) (pipe_ok create_ok : nat -> bool).

(** [setupproc]: the program's descriptors, and the state of the parent. *)
Definition setupproc (flags : Z) (s : rstate) : outcome (fdtable * rstate) :=
  let piped := negb (Z.land flags RUMPRUN_EXEC_PIPE =? 0) in
  '(pipefd, newpipein, fd1) ←
    (if piped then
       if pipe_ok (npipes s) then
         let '(p0, f) := fd_open (FRead (npipes s)) (fds s) in
         let '(p1, f) := fd_open (FWrite (npipes s)) f in
         Done (p1, p0, f)
       else Halt "cannot create pipe"
     else Done (-1, -1, fds s));
  let child := fd1 in
  child ←
    (if piped && negb (pipefd =? 1) then
       c ← (match fd_dup2 pipefd 1 child with Some c => Done c | None => Halt "dup2 stdout" end);
       Done (fd_close pipefd c)
     else Done child);
  child ←
    (if negb (pipein s =? -1) && negb (pipein s =? 0) then
       c ← (match fd_dup2 (pipein s) 0 child with Some c => Done c | None => Halt "dup2 input" end);
       Done (fd_close (pipein s) c)
     else Done child);
  let parent := if piped then fd_close pipefd fd1 else fd1 in
  let parent := if negb (pipein s =? -1) then fd_close (pipein s) parent else parent in
  Done (child, RState (rumprunners s) (rumprun_done s) parent newpipein (if piped then S (npipes s) else npipes s)
                 (nextid s) (launched s) (returned s) (joined s) (mpc s)).

(** [rumprun] up to its wait: the program's number, or [None] if its thread
    cannot be created. *)
Definition rumprun (mainfun : nat) (rre : rumprun_exec) (s : rstate) : outcome (option nat * rstate) :=
  '(child, s) ← setupproc (rre_flags rre) s;
  let id := nextid s in
  if negb (create_ok id) then
    Done (None, RState (rumprunners s) (rumprun_done s) (fds s) (pipein s) (npipes s) (S id) (launched s) (returned s) (joined s) (mpc s))
  else
    let rr := RumpRunner id mainfun rre (rre_flags rre) child TRunning in
    Done (Some id, RState (rr :: rumprunners s) (rumprun_done s) (fds s) (pipein s) (npipes s) (S id)
                     ((id, (mainfun, rre)) :: launched s) (returned s) (joined s) (mpc s)).

Fixpoint rr_find (id : nat) (l : list rumprunner) : option rumprunner :=
  match l with
  | [] => None
  | rr :: l => if bool_decide (rr_id rr = id) then Some rr else rr_find id l
  end.
Fixpoint rr_remove (id : nat) (l : list rumprunner) : list rumprunner :=
  match l with
  | [] => []
  | rr :: l => if bool_decide (rr_id rr = id) then l else rr :: rr_remove id l
  end.
Fixpoint rr_update (id : nat) (f : rumprunner -> rumprunner) (l : list rumprunner) : list rumprunner :=
  match l with
  | [] => []
  | rr :: l => if bool_decide (rr_id rr = id) then f rr :: l else rr :: rr_update id f l
  end.

Definition has_flag (fl : Z) (rr : rumprunner) : bool := negb (Z.land (rr_flags rr) fl =? 0).

(** [rumprun_wait]: [None] as long as the thread has not exited. *)
Definition rumprun_wait (id : nat) (s : rstate) : outcome (option rstate) :=
  rr ← of_option "cookie" (rr_find id (rumprunners s));
  match rr_mainthread rr with
  | TExited rv =>
      if 0 <? rumprun_done s then
        Done (Some (RState (rr_remove id (rumprunners s)) (rumprun_done s - 1) (fds s) (pipein s) (npipes s) (nextid s)
                      (launched s) (returned s) ((id, rv) :: joined s) (mpc s)))
      else Halt "assert(rumprun_done > 0)"
  | _ => Done None
  end.

(** The first program in the list that is done. *)
Fixpoint first_done (l : list rumprunner) : option rumprunner :=
  match l with
  | [] => None
  | rr :: l => if has_flag RUMPRUNNER_DONE rr then Some rr else first_done l
  end.

(** What follows the call of [rumprun] in [RUNMAIN(k)]. *)
Definition runmain_next (k : nat) (rres : list rumprun_exec) (s : rstate) : outcome rstate :=
  match rres with
  | [] => Undef "rre"
  | rre :: rest =>
      match (if Z.land (rre_flags rre) RUMPRUN_EXEC_CMDLINE =? 0 then rest else rres) with
      | [] => Done (set_pc MGet s)
      | rres => Done (set_pc (MRun (S k) rres) s)
      end
  end.

(** The loop of [rumprun_get_finished] and what follows it. *)
Definition get_finished_loop (s : rstate) : outcome rstate :=
  if rumprun_done s =? 0 then Done (set_pc MGetWait s)
  else
    match first_done (rumprunners s) with
    | None => Halt "assert(rr)"
    | Some rr => Done (set_pc (MJoin (rr_id rr)) s)
    end.

(** A step of the main thread ([bmk_mainthread] after [rumprun_boot]); it
    leaves the state as it is while the thread sleeps or joins. *)
Definition main_step (s : rstate) : outcome rstate :=
  match mpc s with
  | MRun k rres =>
      if (8 <? Z.of_nat k) || negb (have_main k) then Done (set_pc MGet s)
      else
        match rres with
        | [] => Undef "rre->rre_flags"
        | rre :: _ =>
            '(res, s) ← rumprun k rre s;
            match res with
            | None => runmain_next k rres s
            | Some id =>
                if negb (Z.land (rre_flags rre) (Z.lor RUMPRUN_EXEC_BACKGROUND RUMPRUN_EXEC_PIPE) =? 0) then runmain_next k rres s
                else Done (set_pc (MFore id k rres) s)
            end
        end
  | MFore id k rres =>
      rr ← of_option "rr" (rr_find id (rumprunners s));
      if Z.land (rr_flags rr) (Z.lor RUMPRUNNER_DONE RUMPRUNNER_DAEMON) =? 0 then Done (set_pc (MForeWait id k rres) s)
      else if has_flag RUMPRUNNER_DONE rr then Done (set_pc (MJoinFore id k rres) s)
      else runmain_next k rres s
  | MJoinFore id k rres =>
      r ← rumprun_wait id s;
      match r with None => Done s | Some s => runmain_next k rres s end
  | MGet =>
      match rumprunners s with
      | [] => Done (set_pc MReboot s)
      | _ => get_finished_loop s
      end
  | MGetLoop => get_finished_loop s
  | MForeWait _ _ _ | MGetWait => Done s
  | MJoin id =>
      r ← rumprun_wait id s;
      match r with None => Done s | Some s => Done (set_pc MGet s) end
  | MReboot => Done s
  end.

(** Steps of a program: [rumprun_daemon]; the return of [main] or a call of
    [exit], with [releaseme]; the end of the thread. *)
Definition rr_or (fl : Z) (rr : rumprunner) : rumprunner :=
  RumpRunner (rr_id rr) (rr_mainfun rr) (rr_exec rr) (Z.lor (rr_flags rr) fl) (rr_fds rr) (rr_mainthread rr).
Definition rr_phase (p : tphase) (rr : rumprunner) : rumprunner :=
  RumpRunner (rr_id rr) (rr_mainfun rr) (rr_exec rr) (rr_flags rr) (rr_fds rr) p.

(** [pthread_cond_broadcast(&w_cv)]; only the main thread waits for it. *)
Definition w_wake (q : mainpc) : mainpc :=
  match q with MForeWait id k rres => MFore id k rres | MGetWait => MGetLoop | q => q end.
Definition cond_broadcast (s : rstate) : rstate := set_pc (w_wake (mpc s)) s.

(** Called by the thread of program [id]. *)
Definition rumprun_daemon (id : nat) (s : rstate) : outcome rstate :=
  match rr_find id (rumprunners s) with
  | None => Halt "assert(rr)"
  | Some _ => Done (cond_broadcast (set_runners (rr_update id (rr_or RUMPRUNNER_DAEMON) (rumprunners s)) s))
  end.

Definition releaseme (id : nat) (rv : Z) (s : rstate) : outcome rstate :=
  _ ← of_option "rr" (rr_find id (rumprunners s));
  Done (cond_broadcast
    (RState (rr_update id (fun rr => rr_phase (TReleased rv) (rr_or RUMPRUNNER_DONE rr)) (rumprunners s))
      (rumprun_done s + 1) (fds s) (pipein s) (npipes s) (nextid s) (launched s) ((id, rv) :: returned s) (joined s) (mpc s))).

(** The thread of program [id] has been created and is in [main]. *)
Definition running (id : nat) (s : rstate) : bool :=
  bool_decide (id ∈ map fst (launched s)) && negb (bool_decide (id ∈ map fst (returned s))).

Inductive raction :=
  | AMain
  | ADaemon (id : nat)
  | AReturn (id : nat) (rv : Z)
  | AExit (id : nat).

Definition rstep (a : raction) (s : rstate) : outcome rstate :=
  match a with
  | AMain => main_step s
  | ADaemon id => if running id s then rumprun_daemon id s else Done s
  | AReturn id rv => if running id s then releaseme id rv s else Done s
  | AExit id =>
      match rr_mainthread <$> rr_find id (rumprunners s) with
      | Some (TReleased rv) => Done (set_runners (rr_update id (rr_phase (TExited rv)) (rumprunners s)) s)
      | _ => Done s
      end
  end.

Fixpoint rrun (acts : list raction) (s : rstate) : outcome rstate :=
  match acts with
  | [] => Done s
  | a :: acts => s ← rstep a s; rrun acts s
  end.

(** After [rumprun_boot]: the programs of the configuration, nothing running. *)
Definition rstart (f : fdtable) (rres : list rumprun_exec) : rstate :=
  RState [] 0 f (-1) 0 0 [] [] [] (MRun 1 rres).
End rumprun.

(** * Running programs: every program is collected, and the main thread comes to an end *)


(** ** The list of programs *)
Abbreviation ids l := (map rr_id l).

Definition finished (rr : rumprunner) : bool := match rr_mainthread rr with TRunning => false | _ => true end.
Definition result (rr : rumprunner) : option (nat * Z) :=
  match rr_mainthread rr with TRunning => None | TReleased rv | TExited rv => Some (rr_id rr, rv) end.
(** A program the main thread does not wait for. *)
Definition detached (rr : rumprunner) : Prop :=
  Z.land (rr_flags rr) (Z.lor (Z.lor RUMPRUN_EXEC_BACKGROUND RUMPRUN_EXEC_PIPE) RUMPRUNNER_DAEMON) <> 0.
Definition rr_ok (rr : rumprunner) : Prop := has_flag RUMPRUNNER_DONE rr = finished rr.

Lemma rr_find_split id l rr : rr_find id l = Some rr ->
  exists l1 l2, l = l1 ++ rr :: l2 /\ rr_id rr = id /\ id ∉ ids l1.
Proof.
  induction l as [| r l IH]; [done |]. cbn. case_bool_decide as E.
  - intros [= ->]. exists [], l. split; [done |]. split; [done |]. by apply not_elem_of_nil.
  - intros Hf. destruct (IH Hf) as (l1 & l2 & -> & Hid & Hn). exists (r :: l1), l2. split; [done |]. split; [done |].
    cbn. apply not_elem_of_cons. split; congruence.
Qed.

Lemma rr_find_some id l : id ∈ ids l -> exists rr, rr_find id l = Some rr.
Proof.
  induction l as [| r l IH]; cbn; [by intros ?%elem_of_nil |]. case_bool_decide as E; [eauto |].
  intros [-> | ?]%elem_of_cons; [done | auto].
Qed.

Lemma rr_remove_split id l1 rr l2 : rr_id rr = id -> id ∉ ids l1 -> rr_remove id (l1 ++ rr :: l2) = l1 ++ l2.
Proof.
  intros Hid. induction l1 as [| r l1 IH]; cbn; intros Hn; [by rewrite bool_decide_true |].
  apply not_elem_of_cons in Hn as [? ?]. rewrite bool_decide_false by congruence. by rewrite IH.
Qed.

Lemma rr_update_split id f l1 rr l2 : rr_id rr = id -> id ∉ ids l1 -> rr_update id f (l1 ++ rr :: l2) = l1 ++ f rr :: l2.
Proof.
  intros Hid. induction l1 as [| r l1 IH]; cbn; intros Hn; [by rewrite bool_decide_true |].
  apply not_elem_of_cons in Hn as [? ?]. rewrite bool_decide_false by congruence. by rewrite IH.
Qed.

Lemma first_done_spec l : match first_done l with
  | Some rr => rr ∈ l /\ has_flag RUMPRUNNER_DONE rr = true
  | None => Forall (fun rr => has_flag RUMPRUNNER_DONE rr = false) l
  end.
Proof.
  induction l as [| r l IH]; cbn; [constructor |]. destruct (has_flag _ r) eqn:E; [split; [by left | done] |].
  destruct (first_done l); [| by constructor]. destruct IH. split; [by right | done].
Qed.

(** Flag arithmetic. *)
Lemma land_lor_nonzero a b c : Z.land (Z.lor a b) c <> 0 <-> Z.land a c <> 0 \/ Z.land b c <> 0.
Proof.
  rewrite Z.land_lor_distr_l. split.
  - intros H. destruct (Z.eq_dec (Z.land a c) 0) as [E |]; [right | by left]. intros E'. by rewrite E, E' in H.
  - intros H E. apply Z.lor_eq_0_iff in E as [? ?]. by destruct H.
Qed.
Lemma land_lor_nonzero_r a b c : Z.land a (Z.lor b c) <> 0 <-> Z.land a b <> 0 \/ Z.land a c <> 0.
Proof. rewrite (Z.land_comm a), land_lor_nonzero, !(Z.land_comm _ a). done. Qed.
Lemma has_flag_true fl rr : has_flag fl rr = true <-> Z.land (rr_flags rr) fl <> 0.
Proof. unfold has_flag. rewrite negb_true_iff, Z.eqb_neq. done. Qed.

(** ** The invariant *)
Definition pc_ok (s : rstate) : Prop :=
  match mpc s with
  | MRun k rres => rres <> [] /\ Forall detached (rumprunners s)
  | MFore id k rres => (k <= 8)%nat /\ rres <> [] /\ id ∈ ids (rumprunners s) /\ Forall (fun rr => rr_id rr = id \/ detached rr) (rumprunners s)
  | MForeWait id k rres => (k <= 8)%nat /\ rres <> [] /\ Forall (fun rr => rr_id rr = id \/ detached rr) (rumprunners s) /\
      exists rr, rr_find id (rumprunners s) = Some rr /\ Z.land (rr_flags rr) (Z.lor RUMPRUNNER_DONE RUMPRUNNER_DAEMON) = 0
  | MJoinFore id k rres => (k <= 8)%nat /\ rres <> [] /\ Forall (fun rr => rr_id rr = id \/ detached rr) (rumprunners s) /\
      exists rr, rr_find id (rumprunners s) = Some rr /\ finished rr = true
  | MGet => Forall detached (rumprunners s)
  | MGetLoop => Forall detached (rumprunners s) /\ rumprunners s <> []
  | MGetWait => Forall detached (rumprunners s) /\ rumprunners s <> [] /\ rumprun_done s = 0
  | MJoin id => Forall detached (rumprunners s) /\ exists rr, rr_find id (rumprunners s) = Some rr /\ finished rr = true
  | MReboot => rumprunners s = []
  end.

(** No entry of the configuration sets the flags of [struct rumprunner]. *)
Definition exec_flags_ok (rre : rumprun_exec) : Prop := Z.land (rre_flags rre) (Z.lor RUMPRUNNER_DONE RUMPRUNNER_DAEMON) = 0.
Definition pc_rres (s : rstate) : list rumprun_exec :=
  match mpc s with MRun _ l | MFore _ _ l | MForeWait _ _ l | MJoinFore _ _ l => l | _ => [] end.

Record rcore (s : rstate) : Prop := RCore {
  ri_done : rumprun_done s = count finished (rumprunners s);
  ri_ok : Forall rr_ok (rumprunners s);
  ri_nodup : NoDup (ids (rumprunners s));
  ri_next : Forall (fun rr => rr_id rr < nextid s)%nat (rumprunners s);
  ri_lnext : Forall (fun x => x.1 < nextid s)%nat (launched s);
  ri_lnodup : NoDup (map fst (launched s));
  ri_launched : map fst (launched s) ≡ₚ ids (rumprunners s) ++ map fst (joined s);
  ri_returned : returned s ≡ₚ omap result (rumprunners s) ++ joined s }.

Record rinv (s : rstate) : Prop := RInv {
  ri_core : rcore s;
  ri_pc : pc_ok s;
  ri_flags : Forall exec_flags_ok (pc_rres s) }.

(** One program of the list changes. *)
Lemma update_inv s id rr f l1 l2 done' ret' q : rinv s -> rumprunners s = l1 ++ rr :: l2 -> rr_id rr = id -> id ∉ ids l1 ->
  rr_id (f rr) = rr_id rr -> rr_ok (f rr) -> (detached rr -> detached (f rr)) -> (finished rr = true -> finished (f rr) = true) ->
  done' = rumprun_done s - b2z (finished rr) + b2z (finished (f rr)) ->
  ret' ++ option_list (result rr) ≡ₚ option_list (result (f rr)) ++ returned s ->
  (q = w_wake (mpc s) \/ q = mpc s /\ rr_flags (f rr) = rr_flags rr /\ finished (f rr) = finished rr) ->
  rinv (RState (rr_update id f (rumprunners s)) done' (fds s) (pipein s) (npipes s) (nextid s) (launched s) ret' (joined s) q).
Proof.
  intros [[Hd Hok Hnd Hnx Hln Hld Hl Hr] Hpc Hfl] Hs Hid Hn Hfid Hfok Hdet Hfin -> Hret Hq.
  assert (Hup : rr_update id f (rumprunners s) = l1 ++ f rr :: l2) by (rewrite Hs; by apply rr_update_split).
  assert (Hids : ids (l1 ++ f rr :: l2) = ids (rumprunners s)) by (rewrite Hs, !map_app; cbn; by rewrite Hfid).
  rewrite Hup. rewrite Hs in Hok, Hnx.
  apply Forall_app in Hok as [Hok1 Hok2]. apply Forall_cons in Hok2 as [_ Hok2].
  apply Forall_app in Hnx as [Hnx1 Hnx2]. apply Forall_cons in Hnx2 as [Hnxr Hnx2].
  assert (Hall : forall P : rumprunner -> Prop, (P rr -> P (f rr)) -> Forall P (rumprunners s) -> Forall P (l1 ++ f rr :: l2)).
  { intros P HP. rewrite Hs, !Forall_app, !Forall_cons. tauto. }
  assert (Hfind : forall j, (exists r, rr_find j (rumprunners s) = Some r /\ finished r = true) ->
    exists r, rr_find j (l1 ++ f rr :: l2) = Some r /\ finished r = true).
  { rewrite Hs. intros j. clear -Hfid Hfin Hid. induction l1 as [| r l1 IH]; cbn.
    - rewrite Hfid. case_bool_decide; [| done]. intros (r & [= ->] & ?). eauto.
    - case_bool_decide; [done | auto]. }
  assert (Hfind2 : forall j P, rr_flags (f rr) = rr_flags rr -> (exists r, rr_find j (rumprunners s) = Some r /\ P (rr_flags r)) ->
    exists r, rr_find j (l1 ++ f rr :: l2) = Some r /\ P (rr_flags r)).
  { rewrite Hs. intros j P Efl. clear -Hfid Efl. induction l1 as [| r l1 IH]; cbn.
    - rewrite Hfid. case_bool_decide; [| done]. intros (r & [= ->] & HP). eexists. split; [done |]. by rewrite Efl.
    - case_bool_decide; [done | auto]. }
  assert (l1 ++ f rr :: l2 <> []) as Hnil by (by destruct l1).
  constructor; [constructor; cbn | |].
  - rewrite Hd, Hs, !count_app, !count_cons. lia.
  - apply Forall_app; split; [done |]. by constructor.
  - by rewrite Hids.
  - apply Forall_app; split; [done |]. constructor; [by rewrite Hfid | done].
  - done.
  - done.
  - by rewrite Hids.
  - rewrite Hs in Hr. rewrite omap_app in *. cbn in *. apply (Permutation_app_inv_r (option_list (result rr))).
    rewrite Hret, Hr. destruct (result rr), (result (f rr)); cbn; solve_Permutation.
  - assert (forall j, Forall (fun x => rr_id x = j \/ detached x) (rumprunners s) -> Forall (fun x => rr_id x = j \/ detached x) (l1 ++ f rr :: l2)) as Hall2.
    { intros j. apply Hall. rewrite Hfid. tauto. }
    revert Hpc. unfold pc_ok. cbn [mpc rumprunners rumprun_done]. destruct Hq as [-> | (-> & Efl & Efin)]; destruct (mpc s); cbn [w_wake]; rewrite ?Hids.
    all: try (intros (? & ? & ? & ?); split_and!; auto; done).
    all: try (intros (? & ?); split_and!; auto; done).
    all: try (by auto).
    + intros (? & ? & ? & r & Hr1 & _). split_and!; auto. apply rr_find_split in Hr1 as (m1 & m2 & -> & <- & _). rewrite map_app. apply elem_of_app. right. by left.
    + rewrite Hs. intros E. by destruct l1.
    + intros (? & ? & ? & ?). split_and!; auto. by apply (Hfind2 _ (fun fl => Z.land fl _ = 0)).
    + intros (? & ? & E). split_and!; auto. rewrite Efin, E. lia.
    + rewrite Hs. intros E. by destruct l1.
  - destruct Hq as [-> | (-> & _)]; [| done]. revert Hfl. unfold pc_rres. cbn. by destruct (mpc s).
Qed.

(** ** Pipes *)
Lemma fd_free_spec fuel : forall n (t : fdtable),
  (forall i, (i < fuel)%nat -> is_Some (t !! (n + Z.of_nat i))) \/ n <= fd_free fuel n t /\ t !! fd_free fuel n t = None.
Proof.
  induction fuel as [| fuel IH]; intros n t; cbn [fd_free]; [left; lia |].
  destruct (t !! n) as [f |] eqn:E; [| right; split; [lia | done]].
  destruct (IH (n + 1) t) as [Hall | [Hle Hn]]; [left | right; split; [lia | done]].
  intros i Hi. destruct i as [| i]; [by rewrite Z.add_0_r, E |].
  replace (n + Z.of_nat (S i)) with (n + 1 + Z.of_nat i) by lia. apply Hall. lia.
Qed.

Lemma fd_open_spec f (t : fdtable) n t' : fd_open f t = (n, t') -> t !! n = None /\ t' = <[n := f]> t /\ 0 <= n.
Proof.
  unfold fd_open. intros [= <- <-]. destruct (fd_free_spec (S (size t)) 0 t) as [Hall | [Hle Hn]]; [exfalso | done].
  assert (Hm : mapped ((fun _ => 0) <$> t) 0 (S (size t))).
  { intros i Hi. rewrite lookup_fmap. destruct (Hall i Hi) as [x ->]. by eexists. }
  apply mapped_size in Hm. rewrite map_size_fmap in Hm. lia.
Qed.

Definition std_open (t : fdtable) : Prop := is_Some (t !! 0) /\ is_Some (t !! 1) /\ is_Some (t !! 2).
(** The read end kept for the next program. *)
Definition pipein_ok (s : rstate) : Prop := pipein s = -1 \/ 3 <= pipein s /\ exists p, fds s !! pipein s = Some (FRead p).

Lemma fd_fresh (t : fdtable) n : std_open t -> t !! n = None -> 0 <= n -> 3 <= n.
Proof.
  intros ([? E0] & [? E1] & [? E2]) Hn Hp. destruct (Z.eq_dec n 0) as [-> |]; [congruence |].
  destruct (Z.eq_dec n 1) as [-> |]; [congruence |]. destruct (Z.eq_dec n 2) as [-> |]; [congruence | lia].
Qed.

Definition is_piped (flags : Z) : bool := negb (Z.land flags RUMPRUN_EXEC_PIPE =? 0).

(** What [setupproc] does with the descriptors. *)
Lemma setupproc_spec pipe_ok flags s : (forall n, pipe_ok n = true) -> std_open (fds s) -> pipein_ok s ->
  exists child s', setupproc pipe_ok flags s = Done (child, s') /\
    child !! 1 = (if is_piped flags then Some (FWrite (npipes s)) else fds s !! 1) /\
    child !! 0 = (if pipein s =? -1 then fds s !! 0 else fds s !! pipein s) /\
    (if is_piped flags
     then 3 <= pipein s' /\ fds s !! pipein s' = None /\ npipes s' = S (npipes s) /\
       fds s' = (if pipein s =? -1 then <[pipein s' := FRead (npipes s)]> (fds s)
                 else delete (pipein s) (<[pipein s' := FRead (npipes s)]> (fds s))) /\
       child !! pipein s' = Some (FRead (npipes s))
     else pipein s' = -1 /\ npipes s' = npipes s /\
       fds s' = (if pipein s =? -1 then fds s else delete (pipein s) (fds s))) /\
    rumprunners s' = rumprunners s /\ rumprun_done s' = rumprun_done s /\ nextid s' = nextid s /\
    launched s' = launched s /\ returned s' = returned s /\ joined s' = joined s /\ mpc s' = mpc s.
Proof.
  intros Hpipe Hstd Hpin. unfold setupproc. fold (is_piped flags). destruct (is_piped flags).
  - rewrite Hpipe. destruct (fd_open (FRead (npipes s)) (fds s)) as [p0 f0] eqn:E0.
    destruct (fd_open (FWrite (npipes s)) f0) as [p1 f1] eqn:E1.
    apply fd_open_spec in E0 as (Hn0 & -> & Hp0). apply fd_open_spec in E1 as (Hn1 & -> & Hp1).
    assert (H3 : 3 <= p0) by (by eapply fd_fresh).
    assert (Hne : p1 <> p0) by (intros ->; by rewrite lookup_insert_eq in Hn1).
    rewrite lookup_insert_ne in Hn1 by done. assert (H31 : 3 <= p1) by (by eapply fd_fresh).
    rewrite !Done_bind. cbn [andb]. replace (p1 =? 1) with false by lia. cbn [negb].
    unfold fd_dup2. rewrite lookup_insert_eq. cbn [fmap option_fmap option_map]. rewrite !Done_bind.
    destruct (Z.eqb_spec (pipein s) (-1)) as [Em | Em]; cbn [negb andb].
    + rewrite Done_bind. eexists _, _. split; [reflexivity |]. cbn [fds pipein npipes rumprunners rumprun_done nextid launched returned joined mpc].
      unfold fd_close. rewrite delete_insert_id by (by rewrite lookup_insert_ne).
      repeat split; try done; try (by rewrite lookup_delete_ne, ?lookup_insert_eq, ?lookup_insert_ne by lia).
      by rewrite lookup_delete_ne, !lookup_insert_ne, lookup_insert_eq by lia.
    + destruct Hpin as [? | (Hge & pp & Hpp)]; [done |]. replace (pipein s =? 0) with false by lia. cbn [negb].
      assert (pipein s <> p0) by congruence. assert (pipein s <> p1) by congruence.
      match goal with |- context [fd_close p1 ?t !! pipein s] =>
        replace (fd_close p1 t !! pipein s) with (Some (FRead pp))
          by (unfold fd_close; by rewrite lookup_delete_ne, !lookup_insert_ne, Hpp by lia) end.
      cbn [fmap option_fmap option_map]. rewrite !Done_bind. eexists _, _. split; [reflexivity |]. cbn [fds pipein npipes rumprunners rumprun_done nextid launched returned joined mpc].
      unfold fd_close. rewrite delete_insert_id by (by rewrite lookup_insert_ne).
      repeat split; try done.
      * by rewrite lookup_delete_ne, lookup_insert_ne, lookup_delete_ne, lookup_insert_eq by lia.
      * by rewrite lookup_delete_ne, lookup_insert_eq by lia.
      * by rewrite lookup_delete_ne, lookup_insert_ne, lookup_delete_ne, !lookup_insert_ne, lookup_insert_eq by lia.
  - rewrite !Done_bind. cbn [andb]. rewrite !Done_bind. destruct (Z.eqb_spec (pipein s) (-1)) as [Em | Em]; cbn [negb andb].
    + rewrite Done_bind. eexists _, _. split; [reflexivity |]. done.
    + destruct Hpin as [? | (Hge & pp & Hpp)]; [done |]. replace (pipein s =? 0) with false by lia. cbn [negb].
      unfold fd_dup2. rewrite Hpp. cbn [fmap option_fmap option_map]. rewrite !Done_bind.
      eexists _, _. split; [reflexivity |]. cbn [fds pipein npipes]. unfold fd_close. repeat split; try done.
      * by rewrite lookup_delete_ne, lookup_insert_ne by lia.
      * by rewrite lookup_delete_ne, lookup_insert_eq by lia.
Qed.

Lemma setupproc_keeps pipe_ok flags s child s' : (forall n, pipe_ok n = true) -> std_open (fds s) -> pipein_ok s ->
  setupproc pipe_ok flags s = Done (child, s') -> std_open (fds s') /\ pipein_ok s'.
Proof.
  intros Hpipe Hstd Hpin E. destruct (setupproc_spec pipe_ok flags s Hpipe Hstd Hpin) as (c & t & E' & _ & _ & Hs' & _).
  rewrite E in E'. injection E' as <- <-.
  assert (Hk : forall (t : fdtable), std_open t -> pipein s <> -1 -> std_open (delete (pipein s) t)).
  { intros t (? & ? & ?) Hne. destruct Hpin as [? | [? _]]; [done |]. repeat split; rewrite lookup_delete_ne by lia; done. }
  destruct (is_piped flags).
  - destruct Hs' as (H3 & Hfree & _ & Hf & _).
    assert (Hi : std_open (<[pipein s' := FRead (npipes s)]> (fds s))).
    { destruct Hstd as (? & ? & ?). repeat split; rewrite lookup_insert_ne by lia; done. }
    rewrite Hf. destruct (Z.eqb_spec (pipein s) (-1)) as [Em | Em].
    + split; [done |]. right. split; [done |]. exists (npipes s). by rewrite Hf, lookup_insert_eq.
    + split; [by apply Hk |]. right. split; [done |]. exists (npipes s). destruct Hpin as [? | (? & p & Hp)]; [done |].
      rewrite Hf, lookup_delete_ne, lookup_insert_eq by congruence. done.
  - destruct Hs' as (Hm & _ & Hf). rewrite Hf. split; [| by left].
    destruct (Z.eqb_spec (pipein s) (-1)) as [Em | Em]; [done | by apply Hk].
Qed.

(** ** Steps *)
Definition finv (s : rstate) : Prop := std_open (fds s) /\ pipein_ok s.
Definition sinv (s : rstate) : Prop := rinv s /\ finv s.

Lemma rinv_pc s q : rcore s -> pc_ok (set_pc q s) -> Forall exec_flags_ok (pc_rres (set_pc q s)) -> rinv (set_pc q s).
Proof. intros [] ? ?. by constructor. Qed.

Lemma next_inv k rres s : rcore s -> finv s -> Forall exec_flags_ok rres -> rres <> [] -> Forall detached (rumprunners s) ->
  exists s', runmain_next k rres s = Done s' /\ sinv s'.
Proof.
  intros Hi Hf Hfl Hne Hd. unfold runmain_next.
  destruct rres as [| rre rest]; [done |]. apply Forall_cons in Hfl as Hfl'. destruct Hfl' as [_ Hrest].
  destruct (_ =? 0); [destruct rest as [| r2 rest] |]; eexists; (split; [reflexivity |]); (split; [| done]);
    apply rinv_pc; try done; constructor.
Qed.

(** The list with a new program. *)
Lemma launch_core s id mainfun rre child f pin np : rcore s -> id = nextid s -> exec_flags_ok rre ->
  rcore (RState (RumpRunner id mainfun rre (rre_flags rre) child TRunning :: rumprunners s) (rumprun_done s) f pin np (S id)
           ((id, (mainfun, rre)) :: launched s) (returned s) (joined s) (mpc s)).
Proof.
  intros [Hd Hok Hnd Hnx Hln Hld Hl Hr] -> Hrf. constructor; cbn.
  - rewrite count_cons. cbn. lia.
  - constructor; [| done]. unfold rr_ok, has_flag; cbn. unfold exec_flags_ok in Hrf.
    destruct (Z.eqb_spec (Z.land (rre_flags rre) RUMPRUNNER_DONE) 0) as [? | Hc]; [done |].
    assert (Z.land (rre_flags rre) (Z.lor RUMPRUNNER_DONE RUMPRUNNER_DAEMON) <> 0) by (apply land_lor_nonzero_r; by left). done.
  - constructor; [| done]. intros Hin. apply list_elem_of_fmap in Hin as (r & Hr1 & Hin).
    rewrite Forall_forall in Hnx. specialize (Hnx r Hin). lia.
  - constructor; [cbn; lia |]. eapply Forall_impl; [exact Hnx |]. cbn. lia.
  - constructor; [cbn; lia |]. eapply Forall_impl; [exact Hln |]. cbn. lia.
  - constructor; [| done]. intros Hin. apply list_elem_of_fmap in Hin as (x & Hx & Hin).
    rewrite Forall_forall in Hln. specialize (Hln x Hin). lia.
  - by rewrite Hl.
  - exact Hr.
Qed.

Lemma main_rumprun_inv hm po co k rres s : (forall n, po n = true) -> sinv s -> mpc s = MRun k rres ->
  exists s', main_step hm po co s = Done s' /\ sinv s'.
Proof.
  intros Hpo [Hi [Hstd Hpin]] Hpc. unfold main_step. rewrite Hpc.
  destruct Hi as [Hcore Hok Hfl]. unfold pc_ok in Hok. unfold pc_rres in Hfl. rewrite Hpc in Hok, Hfl. destruct Hok as [Hne Hdet].
  destruct (Z.ltb_spec 8 (Z.of_nat k)) as [Hk | Hk]; cbn [orb].
  { eexists. split; [reflexivity |]. split; [| done]. apply rinv_pc; [done | done | constructor]. }
  destruct (negb (hm k)).
  { eexists. split; [reflexivity |]. split; [| done]. apply rinv_pc; [done | done | constructor]. }
  destruct rres as [| rre rest]; [done |]. apply Forall_cons in Hfl as Hfl'. destruct Hfl' as [Hrf _].
  destruct (setupproc_spec po (rre_flags rre) s Hpo Hstd Hpin) as (child & s1 & E & _ & _ & _ & E1 & E2 & E3 & E4 & E5 & E6 & E7).
  pose proof (setupproc_keeps po _ s child s1 Hpo Hstd Hpin E) as Hf1.
  unfold rumprun. rewrite E, Done_bind. destruct (co (nextid s1)); cbn [negb].
  - rewrite Done_bind. pose proof (launch_core s (nextid s1) k rre child (fds s1) (pipein s1) (npipes s1) Hcore E3 Hrf) as Hlc.
    rewrite <- E1, <- E2, <- E4, <- E5, <- E6, <- E7 in Hlc.
    destruct (Z.eqb_spec (Z.land (rre_flags rre) (Z.lor RUMPRUN_EXEC_BACKGROUND RUMPRUN_EXEC_PIPE)) 0) as [Ebg | Ebg]; cbn [negb].
    + eexists. split; [reflexivity |]. split; [| exact Hf1]. apply rinv_pc; [done | | done]. split; [lia |]. split; [done |]. split; [cbn; by left |].
      cbn. constructor; [by left |]. rewrite E1. eapply Forall_impl; [exact Hdet |]. auto.
    + apply next_inv; try done. cbn. rewrite E1. constructor; [| done]. unfold detached; cbn. apply land_lor_nonzero_r. by left.
  - rewrite Done_bind. apply next_inv; try done; [| cbn; by rewrite E1]. destruct Hcore as [Hd Hok Hnd Hnx Hln Hld Hl Hr].
    constructor; cbn; rewrite ?E1, ?E2, ?E3, ?E4, ?E5, ?E6; try done;
      eapply Forall_impl; [exact Hnx | cbn; lia | exact Hln | cbn; lia].
Qed.

(** Collecting a finished program. *)
Lemma wait_inv id s rr : rcore s -> finv s -> rr_find id (rumprunners s) = Some rr -> finished rr = true ->
  Forall (fun r => rr_id r = id \/ detached r) (rumprunners s) ->
  (rumprun_wait id s = Done None /\ exists rv, rr_mainthread rr = TReleased rv) \/
  (exists s', rumprun_wait id s = Done (Some s') /\ Forall detached (rumprunners s') /\ finv s' /\ mpc s' = mpc s /\
    length (rumprunners s) = S (length (rumprunners s')) /\ rcore s').
Proof.
  intros [Hd Hok Hnd Hnx Hln Hld Hl Hr] Hf Hfind Hfin Hdet. unfold rumprun_wait. rewrite Hfind. cbn [of_option]. rewrite Done_bind.
  apply rr_find_split in Hfind as (l1 & l2 & Hs & Hid & Hn).
  unfold finished in Hfin. destruct (rr_mainthread rr) as [| rv | rv] eqn:Et; [done | left; eauto | right].
  assert (Hrm : rr_remove id (rumprunners s) = l1 ++ l2) by (rewrite Hs; by apply rr_remove_split).
  assert (Hfr : finished rr = true) by (unfold finished; by rewrite Et).
  assert (Hcnt : rumprun_done s = 1 + count finished (l1 ++ l2)).
  { rewrite Hd, Hs, !count_app, count_cons, Hfr. cbn. lia. }
  pose proof (count_pos finished (l1 ++ l2)). replace (0 <? rumprun_done s) with true by lia.
  assert (Hn2 : id ∉ ids (l1 ++ l2)).
  { rewrite Hs, map_app in Hnd. cbn in Hnd. apply NoDup_app in Hnd as (_ & _ & Hnd2). apply NoDup_cons in Hnd2 as [Hx _].
    rewrite map_app. apply not_elem_of_app. rewrite Hid in Hx. done. }
  eexists. split; [reflexivity |]. cbn. rewrite Hrm. rewrite Hs, Forall_app, Forall_cons in Hdet.
  split.
  { apply Forall_forall. intros r Hin. destruct Hdet as (Hd1 & _ & Hd2). rewrite Forall_forall in Hd1, Hd2.
    assert (Hrid : rr_id r <> id) by (intros Hri; apply Hn2; rewrite <- Hri; by apply list_elem_of_fmap_2).
    apply elem_of_app in Hin as [Hin | Hin]; [destruct (Hd1 r Hin) | destruct (Hd2 r Hin)]; done. }
  split; [done |]. split; [done |]. split; [rewrite Hs, !length_app; cbn; lia |].
  constructor; cbn; try rewrite Hrm; try done.
  - lia.
  - rewrite Hs in Hok. apply Forall_app in Hok as [? [_ ?]%Forall_cons]. by apply Forall_app.
  - rewrite Hs, map_app in Hnd. cbn in Hnd. apply NoDup_app in Hnd as (Ha & Hb & Hc). apply NoDup_cons in Hc as [_ Hc].
    rewrite map_app. apply NoDup_app. repeat split; [done | | done]. intros x Hx Hx2. eapply Hb; [done | by right].
  - rewrite Hs in Hnx. apply Forall_app in Hnx as [? [_ ?]%Forall_cons]. by apply Forall_app.
  - rewrite Hl, Hs, !map_app. cbn. rewrite Hid. solve_Permutation.
  - assert (Hres : result rr = Some (id, rv)) by (unfold result; by rewrite Et, Hid).
    rewrite Hr, Hs, !omap_app. cbn. rewrite Hres. solve_Permutation.
Qed.

(** A program whose number is [id] is the only one with that number. *)
Lemma others_detached id s rr : rcore s -> rr_find id (rumprunners s) = Some rr -> detached rr ->
  Forall (fun r => rr_id r = id \/ detached r) (rumprunners s) -> Forall detached (rumprunners s).
Proof.
  intros Hc Hrr Hdr Hdet. destruct (rr_find_split _ _ _ Hrr) as (l1 & l2 & Hs & Hid & Hn).
  pose proof (ri_nodup _ Hc) as Hnd. rewrite Hs, map_app in Hnd. cbn in Hnd.
  apply NoDup_app in Hnd as (_ & _ & [Hx _]%NoDup_cons). rewrite Hs in *.
  apply Forall_app in Hdet as [Hd1 [_ Hd2]%Forall_cons]. rewrite Forall_forall in Hd1, Hd2.
  apply Forall_app; split; [| constructor; [done |]]; apply Forall_forall; intros r Hr.
  - destruct (Hd1 r Hr) as [Hri | ?]; [| done]. exfalso. apply Hn. rewrite <- Hri. by apply list_elem_of_fmap_2.
  - destruct (Hd2 r Hr) as [Hri | ?]; [| done]. exfalso. apply Hx. rewrite Hid, <- Hri. by apply list_elem_of_fmap_2.
Qed.

Lemma found_ok id s rr : rcore s -> rr_find id (rumprunners s) = Some rr -> rr_ok rr.
Proof.
  intros Hc (l1 & l2 & Hs & _)%rr_find_split. pose proof (ri_ok _ Hc) as Ho. rewrite Hs in Ho.
  by apply Forall_app in Ho as [_ [? _]%Forall_cons].
Qed.

Lemma find_of_in s rr : NoDup (ids (rumprunners s)) -> rr ∈ rumprunners s -> rr_find (rr_id rr) (rumprunners s) = Some rr.
Proof.
  induction (rumprunners s) as [| r l IH]; cbn; [by intros _ ?%elem_of_nil |].
  intros [Hn Hnd]%NoDup_cons [-> | Hin]%elem_of_cons; [by rewrite bool_decide_true |].
  rewrite bool_decide_false; [auto |]. intros E. apply Hn. rewrite E. by apply list_elem_of_fmap_2.
Qed.

Section machine.
Context (hm po co : nat -> bool).
Hypothesis Hpo : forall n, po n = true.

Lemma get_loop_inv s : rcore s -> finv s -> Forall detached (rumprunners s) -> rumprunners s <> [] ->
  exists s', get_finished_loop s = Done s' /\ sinv s'.
Proof.
  intros Hcore Hf Hdet Hnil. unfold get_finished_loop.
  destruct (Z.eqb_spec (rumprun_done s) 0) as [Ed | Ed].
  { eexists. split; [reflexivity |]. split; [| done]. apply rinv_pc; [done | done | constructor]. }
  pose proof (first_done_spec (rumprunners s)) as Hfd. destruct (first_done (rumprunners s)) as [rr |].
  - destruct Hfd as [Hin Hflag]. eexists. split; [reflexivity |]. split; [| done].
    apply rinv_pc; [done | | constructor]. split; [done |]. cbn.
    pose proof (find_of_in s rr (ri_nodup _ Hcore) Hin) as Hrr. exists rr. split; [done |].
    pose proof (found_ok _ _ _ Hcore Hrr) as Hrok. unfold rr_ok in Hrok. congruence.
  - exfalso. apply Ed. rewrite (ri_done _ Hcore). pose proof (ri_ok _ Hcore) as Ho.
    unfold count. rewrite filter_none; [done |]. rewrite Forall_forall in Hfd, Ho |- *. intros r Hr.
    rewrite <- (Ho r Hr), (Hfd r Hr). intros [].
Qed.

Lemma main_step_inv s : sinv s -> exists s', main_step hm po co s = Done s' /\ sinv s'.
Proof using Hpo.
  intros [Hi Hf]. pose proof Hi as [Hcore Hpc Hfl]. unfold pc_ok in Hpc. unfold pc_rres in Hfl.
  destruct (mpc s) as [k rres | id k rres | id k rres | id k rres | | | | id |] eqn:E; [by eapply main_rumprun_inv | ..]; unfold main_step; rewrite E.
  - destruct Hpc as (Hk & Hne & Hin & Hdet). destruct (rr_find_some _ _ Hin) as [rr Hrr]. rewrite Hrr. cbn [of_option]. rewrite Done_bind.
    destruct (Z.eqb_spec (Z.land (rr_flags rr) (Z.lor RUMPRUNNER_DONE RUMPRUNNER_DAEMON)) 0) as [Ez | Ez].
    { eexists. split; [reflexivity |]. split; [| done]. apply rinv_pc; [done | | done]. do 3 (split; [done |]). by exists rr. }
    pose proof (found_ok _ _ _ Hcore Hrr) as Hrok. destruct (has_flag RUMPRUNNER_DONE rr) eqn:Ed.
    + eexists. split; [reflexivity |]. split; [| done]. apply rinv_pc; [done | | done].
      split; [done |]. split; [done |]. split; [done |]. exists rr. split; [done |]. unfold rr_ok in Hrok. congruence.
    + apply next_inv; try done. eapply others_detached; eauto. apply land_lor_nonzero_r. right.
      apply land_lor_nonzero_r in Ez as [Hc | ?]; [| done]. apply has_flag_true in Hc. congruence.
  - by exists s.
  - destruct Hpc as (Hk & Hne & Hdet & rr & Hrr & Hfin).
    destruct (wait_inv id s rr Hcore Hf Hrr Hfin Hdet) as [[-> _] | (s' & -> & Hd' & Hf' & Em & _ & Hc')]; rewrite Done_bind; [by exists s |].
    by apply next_inv.
  - destruct (rumprunners s) as [| r0 l0] eqn:Hrs; [| apply get_loop_inv; rewrite ?Hrs; done].
    eexists. split; [reflexivity |]. split; [| done]. apply rinv_pc; [done | done | constructor].
  - by apply get_loop_inv; apply Hpc || done.
  - by exists s.
  - destruct Hpc as (Hdet & rr & Hrr & Hfin).
    destruct (wait_inv id s rr Hcore Hf Hrr Hfin) as [[-> _] | (s' & -> & Hd' & Hf' & Em & _ & Hc')].
    { eapply Forall_impl; [exact Hdet |]. auto. }
    + rewrite Done_bind. by exists s.
    + rewrite Done_bind. eexists. split; [reflexivity |]. split; [| done]. apply rinv_pc; [done | done | constructor].
  - by exists s.
Qed.

(** The threads that run are those of programs in the list. *)
Lemma running_found s id : rcore s -> running id s = true <-> exists rr, rr_find id (rumprunners s) = Some rr /\ rr_mainthread rr = TRunning.
Proof.
  intros Hc. unfold running. rewrite andb_true_iff, negb_true_iff, bool_decide_eq_true, bool_decide_eq_false.
  rewrite (ri_launched _ Hc), (ri_returned _ Hc), map_app, !elem_of_app. split.
  - intros [[Hin | Hin] Hn]; [| destruct Hn; by right]. destruct (rr_find_some _ _ Hin) as [rr Hrr]. exists rr. split; [done |].
    destruct (rr_find_split _ _ _ Hrr) as (l1 & l2 & Hs & Hid & _).
    assert (forall rv, result rr = Some (id, rv) -> TRunning = rr_mainthread rr) as Hf.
    { intros rv Hr. destruct Hn. left. apply list_elem_of_fmap. exists (id, rv). split; [done |]. apply list_elem_of_omap. exists rr. split; [| done].
      rewrite Hs. apply elem_of_app. right. by left. }
    unfold result in Hf. rewrite Hid in Hf. destruct (rr_mainthread rr); [done | by erewrite Hf | by erewrite Hf].
  - intros (rr & Hrr & Et). destruct (rr_find_split _ _ _ Hrr) as (l1 & l2 & Hs & Hid & _).
    assert (id ∈ ids (rumprunners s)) as Hin by (rewrite Hs, map_app; cbn; rewrite Hid; apply elem_of_app; right; by left).
    split; [by left |]. intros [Hx | Hx].
    + apply list_elem_of_fmap in Hx as ([x v] & -> & (r & Hr & E)%list_elem_of_omap). cbn in *.
      assert (rr_id r = x) as Hrx by (unfold result in E; by destruct (rr_mainthread r); simplify_eq).
      pose proof (find_of_in s r (ri_nodup _ Hc) Hr) as Hf. rewrite Hrx, Hrr in Hf. injection Hf as <-. unfold result in E. by rewrite Et in E.
    + pose proof (ri_lnodup _ Hc) as Hnd. rewrite (ri_launched _ Hc) in Hnd. apply NoDup_app in Hnd as (_ & Hnd & _). by apply (Hnd id).
Qed.

Lemma detached_or fl rr : detached rr -> detached (rr_or fl rr).
Proof. unfold detached; cbn. intros ?. apply land_lor_nonzero. by left. Qed.

Lemma rstep_inv a s : sinv s -> exists s', rstep hm po co a s = Done s' /\ sinv s'.
Proof using Hpo.
  intros Hs. pose proof Hs as [Hi Hf]. pose proof (ri_core _ Hi) as Hcore. destruct a as [| id | id rv | id]; cbn [rstep]; [by apply main_step_inv | ..].
  - destruct (running id s) eqn:Er; [| by exists s]. apply running_found in Er as (rr & Hrr & Et); [| done].
    pose proof (found_ok _ _ _ Hcore Hrr) as Hok. destruct (rr_find_split _ _ _ Hrr) as (l1 & l2 & Hsp & Hid & Hn).
    unfold rumprun_daemon. rewrite Hrr. eexists. split; [reflexivity |]. split; [| done]. unfold cond_broadcast, set_pc, set_runners. cbn.
    eapply update_inv; try done; unfold rr_ok, finished, result, has_flag in *; cbn in *; rewrite ?Et in *; cbn in *; try lia; try done.
    + rewrite Z.land_lor_distr_l. change (Z.land RUMPRUNNER_DAEMON RUMPRUNNER_DONE) with 0. by rewrite Z.lor_0_r.
    + apply detached_or.
    + by rewrite app_nil_r.
    + by left.
  - destruct (running id s) eqn:Er; [| by exists s]. apply running_found in Er as (rr & Hrr & Et); [| done].
    pose proof (found_ok _ _ _ Hcore Hrr) as Hok. destruct (rr_find_split _ _ _ Hrr) as (l1 & l2 & Hsp & Hid & Hn).
    unfold releaseme. rewrite Hrr. cbn [of_option]. rewrite Done_bind. eexists. split; [reflexivity |]. split; [| done]. unfold cond_broadcast, set_pc, set_runners. cbn.
    eapply update_inv; try done; unfold rr_ok, finished, result, has_flag in *; cbn in *; rewrite ?Et in *; cbn in *; try lia; try done.
    + apply negb_true_iff, Z.eqb_neq, land_lor_nonzero. by right.
    + apply detached_or.
    + rewrite Hid. by rewrite app_nil_r.
    + by left.
  - destruct (rr_find id (rumprunners s)) as [rr |] eqn:Hrr; cbn [fmap option_fmap option_map]; [| by exists s].
    destruct (rr_mainthread rr) as [| rv' | rv'] eqn:Et; try (by exists s).
    pose proof (found_ok _ _ _ Hcore Hrr) as Hok. destruct (rr_find_split _ _ _ Hrr) as (l1 & l2 & Hsp & Hid & Hn).
    eexists. split; [reflexivity |]. split; [| done]. unfold cond_broadcast, set_pc, set_runners. cbn.
    eapply update_inv; try done; unfold rr_ok, finished, result, has_flag in *; cbn in *; rewrite ?Et in *; cbn in *; try lia; try done.
    + rewrite Hid. solve_Permutation.
    + by right.
Qed.

Lemma rrun_inv acts : forall s, sinv s -> exists s', rrun hm po co acts s = Done s' /\ sinv s'.
Proof using Hpo.
  induction acts as [| a acts IH]; intros s Hs; [by exists s |]. cbn [rrun].
  destruct (rstep_inv a s Hs) as (s1 & -> & Hs1). rewrite Done_bind. auto.
Qed.

Lemma rstart_inv f rres : std_open f -> rres <> [] -> Forall exec_flags_ok rres -> sinv (rstart f rres).
Proof. intros Hf Hr He. split; [constructor; [constructor; try done; constructor | done | done] |]. split; [done |]. by left. Qed.
End machine.

(** ** The life of the programs *)

(** C34. The main thread runs the programs of the configuration to their end.
    Suppose there is at least one, descriptors 0 to 2 are open and [pipe]
    succeeds.  Whatever the programs do and whenever they do it, no assertion
    of rumprun.c fails, that of [rumprun_daemon] included; when it starts the next program, every program still in its list runs in
    the background, writes to a pipe or has made itself a daemon; and when it
    reboots, no program is left, each program that was started has been waited
    for exactly once, and the values it has got are those the programs
    returned. *)
Theorem rumprun_lifecycle hm po co f rres acts :
  (forall n, po n = true) -> std_open f -> rres <> [] -> Forall exec_flags_ok rres ->
  exists s, rrun hm po co acts (rstart f rres) = Done s /\
    (forall k l, mpc s = MRun k l -> Forall detached (rumprunners s)) /\
    (mpc s = MReboot -> rumprunners s = [] /\ NoDup (map fst (joined s)) /\
       map fst (joined s) ≡ₚ map fst (launched s) /\ joined s ≡ₚ returned s).
Proof.
  intros Hpo Hf Hne Hfl. destruct (rrun_inv hm po co Hpo acts _ (rstart_inv f rres Hf Hne Hfl)) as (s & E & Hs).
  exists s. split; [exact E |]. destruct Hs as [[Hc Hpc _] _]. unfold pc_ok in Hpc. split.
  - intros k l Em. rewrite Em in Hpc. apply Hpc.
  - intros Em. rewrite Em in Hpc. pose proof (ri_launched _ Hc) as Hl. pose proof (ri_returned _ Hc) as Hr. rewrite Hpc in Hl, Hr.
    cbn in Hl, Hr. split; [done |]. split; [rewrite <- Hl; apply Hc |]. by rewrite Hl, Hr.
Qed.

Lemma rumprun_lifecycle_witness :
  let f : fdtable := <[0 := FOther 0]> (<[1 := FOther 1]> (<[2 := FOther 2]> ∅)) in
  let rres := [Exec RUMPRUN_EXEC_PIPE 1 [100]; Exec 0 1 [200]] in
  exists s, rrun (fun k => bool_decide (k <= 2)%nat) (fun _ => true) (fun _ => true)
      [AMain; AMain; AReturn 0 7; AReturn 1 3; AMain; AExit 1; AMain; AMain; AExit 0; AMain; AMain] (rstart f rres) = Done s /\
    mpc s = MReboot /\ rumprunners s = [] /\ NoDup (map fst (joined s)) /\ map fst (joined s) ≡ₚ map fst (launched s) /\ joined s ≡ₚ returned s.
Proof.
  intros f rres.
  destruct (rumprun_lifecycle (fun k => bool_decide (k <= 2)%nat) (fun _ => true) (fun _ => true) f rres
      [AMain; AMain; AReturn 0 7; AReturn 1 3; AMain; AExit 1; AMain; AMain; AExit 0; AMain; AMain]) as (s & E & _ & Hre).
  - done.
  - repeat split; vm_compute; eauto.
  - done.
  - repeat constructor.
  - exists s. split; [exact E |]. assert (Hm : mpc s = MReboot).
    { vm_compute in E. injection E as <-. reflexivity. }
    split; [exact Hm |]. exact (Hre Hm).
Defined.

(** ** The end *)

(** How far the main thread is from rebooting. *)
Definition pc_weight (q : mainpc) : Z :=
  match q with
  | MRun k _ => 20 * Z.max 1 (10 - Z.of_nat k)
  | MFore _ k _ | MForeWait _ k _ => 20 * (10 - Z.of_nat k) - 10
  | MJoinFore _ k _ => 20 * (10 - Z.of_nat k) - 12
  | MGet | MGetLoop | MGetWait => 2
  | MJoin _ => 1
  | MReboot => 0
  end.
Definition weight (s : rstate) : Z := pc_weight (mpc s) + 4 * Z.of_nat (length (rumprunners s)).

Lemma next_weight k rres s s' : (k <= 8)%nat -> runmain_next k rres s = Done s' ->
  weight s' <= 20 * (9 - Z.of_nat k) + 4 * Z.of_nat (length (rumprunners s)).
Proof.
  intros Hk. unfold runmain_next, weight. repeat case_match; intros [= <-]; cbn [set_pc mpc rumprunners pc_weight]; lia.
Qed.

Lemma rr_update_length id f l : length (rr_update id f l) = length l.
Proof. induction l as [| r l IH]; [done |]. cbn. case_bool_decide; cbn; congruence. Qed.

Lemma rr_find_update id f l rr : rr_find id l = Some rr -> rr_id (f rr) = id -> rr_find id (rr_update id f l) = Some (f rr).
Proof.
  induction l as [| r l IH]; [done |]. cbn. case_bool_decide as E; cbn.
  - intros [= ->] Hf. by rewrite bool_decide_true.
  - intros. rewrite bool_decide_false by done. auto.
Qed.

Section ends.
Context (hm po co : nat -> bool).
Hypothesis Hpo : forall n, po n = true.

(** What the main thread waits for has not happened yet. *)
Definition blocked (s : rstate) : bool :=
  match mpc s with
  | MRun _ _ => false
  | MFore id _ _ =>
      match rr_find id (rumprunners s) with
      | Some rr => Z.land (rr_flags rr) (Z.lor RUMPRUNNER_DONE RUMPRUNNER_DAEMON) =? 0
      | None => true
      end
  | MJoinFore id _ _ | MJoin id =>
      match rr_mainthread <$> rr_find id (rumprunners s) with Some (TExited _) => false | _ => true end
  | MGet => match rumprunners s with [] => false | _ => rumprun_done s =? 0 end
  | MGetLoop => rumprun_done s =? 0
  | MForeWait _ _ _ | MGetWait | MReboot => true
  end.

Lemma run_weight s s' k rres : sinv s -> mpc s = MRun k rres -> main_step hm po co s = Done s' -> weight s' < weight s.
Proof using Hpo.
  intros [[_ _ _] [Hstd Hpin]] Hpc E. unfold main_step in E. rewrite Hpc in E.
  assert (Hw : weight s = 20 * Z.max 1 (10 - Z.of_nat k) + 4 * Z.of_nat (length (rumprunners s))) by (unfold weight; by rewrite Hpc).
  rewrite Hw. clear Hw.
  destruct (Z.ltb_spec 8 (Z.of_nat k)); cbn [orb] in E; [injection E as <-; unfold weight in *; cbn; lia |].
  destruct (negb (hm k)); [injection E as <-; unfold weight in *; cbn; lia |].
  destruct rres as [| rre rest]; [discriminate |].
  destruct (setupproc_spec po (rre_flags rre) s Hpo Hstd Hpin) as (child & s1 & Es & _ & _ & _ & E1 & _).
  unfold rumprun in E. rewrite Es, Done_bind in E. destruct (co (nextid s1)); cbn [negb] in E; rewrite Done_bind in E.
  - destruct (_ =? 0); cbn [negb] in E.
    + injection E as <-. unfold weight; cbn. rewrite E1. lia.
    + apply next_weight in E; [| lia]. cbn [rumprunners length] in E. rewrite E1 in E. lia.
  - apply next_weight in E; [| lia]. cbn [rumprunners] in E. rewrite E1 in E. lia.
Qed.

Lemma wait_weight id s : rcore s -> match rumprun_wait id s with
  | Done None => (match rr_mainthread <$> rr_find id (rumprunners s) with Some (TExited _) => false | _ => true end) = true
  | Done (Some s') => length (rumprunners s) = S (length (rumprunners s'))
  | _ => True
  end.
Proof.
  intros Hc. unfold rumprun_wait. destruct (rr_find id (rumprunners s)) as [rr |] eqn:Hrr; cbn [of_option]; [| done]. rewrite Done_bind. cbn.
  destruct (rr_mainthread rr); try done. destruct (_ <? _); [| done]. cbn.
  destruct (rr_find_split _ _ _ Hrr) as (l1 & l2 & Hs & Hid & Hn). rewrite Hs, (rr_remove_split id l1 rr l2), !length_app by done. cbn. lia.
Qed.

Lemma get_weight s s' : get_finished_loop s = Done s' ->
  weight s' <= 2 + 4 * Z.of_nat (length (rumprunners s)) /\ ((rumprun_done s =? 0) = false -> weight s' < 2 + 4 * Z.of_nat (length (rumprunners s))).
Proof.
  unfold get_finished_loop. destruct (_ =? 0); [intros [= <-]; unfold weight; cbn; split; [lia | done] |].
  destruct (first_done _); [| done]. intros [= <-]. unfold weight. cbn. lia.
Qed.

(** No step of the main thread leads away from the reboot, and every one leads
    closer to it that does not have to wait. *)
Lemma main_weight s s' : sinv s -> main_step hm po co s = Done s' ->
  weight s' <= weight s /\ (blocked s = false -> weight s' < weight s).
Proof using Hpo.
  intros Hs E. unfold blocked. destruct (mpc s) as [k rres | id k rres | id k rres | id k rres | | | | id |] eqn:Em.
  1: { pose proof (run_weight s s' k rres Hs Em E). lia. }
  all: pose proof Hs as [[Hc Hp _] _]; unfold pc_ok in Hp; rewrite Em in Hp;
    unfold main_step in E; rewrite Em in E; try (injection E as <-; split; [lia | done]).
  - assert (weight s = 20 * (10 - Z.of_nat k) - 10 + 4 * Z.of_nat (length (rumprunners s))) as -> by (unfold weight; by rewrite Em).
    destruct (rr_find id (rumprunners s)) as [rr |]; cbn [of_option] in E; [| done]. rewrite Done_bind in E.
    destruct (_ =? 0); [injection E as <-; unfold weight; cbn; split; [lia | done] |].
    destruct (has_flag _ rr); [injection E as <-; unfold weight; cbn; lia |]. apply next_weight in E; [lia | apply Hp].
  - pose proof (wait_weight id s Hc) as Hw. destruct (rumprun_wait id s) as [[s1 |] | |]; try done; rewrite Done_bind in E.
    + assert (weight s = 20 * (10 - Z.of_nat k) - 12 + 4 * Z.of_nat (length (rumprunners s))) as -> by (unfold weight; by rewrite Em).
      apply next_weight in E; [lia | apply Hp].
    + injection E as <-. split; [lia | congruence].
  - assert (weight s = 2 + 4 * Z.of_nat (length (rumprunners s))) as -> by (unfold weight; by rewrite Em).
    destruct (rumprunners s) eqn:Hl; [injection E as <-; unfold weight; cbn; rewrite Hl; cbn; lia |]. rewrite <- Hl. by apply get_weight.
  - assert (weight s = 2 + 4 * Z.of_nat (length (rumprunners s))) as -> by (unfold weight; by rewrite Em). by apply get_weight.
  - pose proof (wait_weight id s Hc) as Hw. destruct (rumprun_wait id s) as [[s1 |] | |]; try done; rewrite Done_bind in E.
    + assert (weight s = 1 + 4 * Z.of_nat (length (rumprunners s))) as -> by (unfold weight; by rewrite Em).
      injection E as <-. unfold weight; cbn. lia.
    + injection E as <-. split; [lia | congruence].
Qed.

Lemma wake_weight q : pc_weight (w_wake q) = pc_weight q.
Proof. by destruct q. Qed.

Lemma prog_weight a s s' : a <> AMain -> rstep hm po co a s = Done s' -> weight s' = weight s.
Proof.
  intros Ha E. destruct a as [| id | id rv | id]; [done | ..]; cbn [rstep] in E.
  - unfold rumprun_daemon in E. destruct (running id s), (rr_find id (rumprunners s)); simplify_eq; try done; unfold weight; cbn; by rewrite wake_weight, rr_update_length.
  - unfold releaseme in E. destruct (running id s), (rr_find id (rumprunners s)); cbn [of_option] in E; rewrite ?Done_bind in E; simplify_eq; try done; unfold weight; cbn; by rewrite wake_weight, rr_update_length.
  - repeat case_match; simplify_eq; try done. unfold weight; cbn. by rewrite rr_update_length.
Qed.

(** The programs can end every wait. *)
Lemma unblock_return s id rr : sinv s -> rr_find id (rumprunners s) = Some rr -> finished rr = false ->
  exists s', rstep hm po co (AReturn id 0) s = Done s' /\ mpc s' = w_wake (mpc s) /\ rumprunners s' <> [] /\ 0 < rumprun_done s' /\
    exists rr', rr_find id (rumprunners s') = Some rr' /\ Z.land (rr_flags rr') (Z.lor RUMPRUNNER_DONE RUMPRUNNER_DAEMON) <> 0.
Proof.
  intros [[Hc _ _] _] Hrr Hfin. assert (rr_mainthread rr = TRunning) as Et by (unfold finished in Hfin; by destruct (rr_mainthread rr)).
  assert (Hid : rr_id rr = id) by (by destruct (rr_find_split _ _ _ Hrr) as (? & ? & _ & ? & _)).
  cbn [rstep]. rewrite (proj2 (running_found s id Hc)) by eauto. unfold releaseme. rewrite Hrr. cbn [of_option]. rewrite Done_bind.
  eexists. split; [done |]. cbn. pose proof (ri_done _ Hc). pose proof (count_pos finished (rumprunners s)).
  set (f := fun rr => rr_phase (TReleased 0) (rr_or RUMPRUNNER_DONE rr)). pose proof (rr_find_update id f _ rr Hrr Hid) as Hf.
  split; [done |]. split; [intros E; by rewrite E in Hf |]. split; [lia |]. exists (f rr). split; [done |]. cbn.
  apply land_lor_nonzero_r. left. apply land_lor_nonzero. by right.
Qed.

Lemma unblock s : sinv s -> blocked s = true -> mpc s <> MReboot ->
  exists a s', a <> AMain /\ rstep hm po co a s = Done s' /\ blocked s' = false.
Proof.
  intros Hs Hb Hne. pose proof Hs as [[Hc Hp _] _]. unfold pc_ok in Hp. unfold blocked in Hb.
  assert (forall id rr, rr_find id (rumprunners s) = Some rr -> Z.land (rr_flags rr) (Z.lor RUMPRUNNER_DONE RUMPRUNNER_DAEMON) = 0 -> finished rr = false) as Hfl.
  { intros id rr Hrr Hz. rewrite <- (found_ok _ _ _ Hc Hrr). destruct (has_flag RUMPRUNNER_DONE rr) eqn:E; [| done].
    apply has_flag_true in E. destruct (land_lor_nonzero_r (rr_flags rr) RUMPRUNNER_DONE RUMPRUNNER_DAEMON) as [_ H]. by destruct H; [left |]. }
  assert (Hex : forall id, (exists rr, rr_find id (rumprunners s) = Some rr /\ finished rr = true) ->
    (match rr_mainthread <$> rr_find id (rumprunners s) with Some (TExited _) => false | _ => true end) = true ->
    exists s', rstep hm po co (AExit id) s = Done s' /\ mpc s' = mpc s /\
    exists rv, rr_mainthread <$> rr_find id (rumprunners s') = Some (TExited rv)).
  { intros id (rr & Hrr & Hfin) Hx. cbn [rstep]. rewrite Hrr in *. cbn in *. unfold finished in Hfin. destruct (rr_mainthread rr) as [| rv |]; try done.
    eexists. split; [done |]. split; [done |]. exists rv. cbn. by rewrite (rr_find_update id _ _ rr Hrr) by (by destruct (rr_find_split _ _ _ Hrr) as (? & ? & _ & ? & _)). }
  assert (Hget : rumprunners s <> [] -> rumprun_done s = 0 -> exists id s', rstep hm po co (AReturn id 0) s = Done s' /\ mpc s' = w_wake (mpc s) /\
    rumprunners s' <> [] /\ 0 < rumprun_done s').
  { intros Hn Hd. destruct (rumprunners s) as [| r0 l0] eqn:Hl; [done |]. rewrite (ri_done _ Hc), Hl, count_cons in Hd. pose proof (count_pos finished l0).
    destruct (unblock_return s (rr_id r0) r0 Hs) as (s' & ? & ? & ? & ? & _); [rewrite Hl; cbn; by rewrite bool_decide_true | destruct (finished r0); [cbn in Hd; lia | done] |]. by exists (rr_id r0), s'. }
  destruct (mpc s) as [k rres | id k rres | id k rres | id k rres | | | | id |] eqn:Em; try done.
  - destruct Hp as (_ & _ & Hin & _). destruct (rr_find_some _ _ Hin) as [rr Hrr]. rewrite Hrr in Hb. apply Z.eqb_eq in Hb.
    destruct (unblock_return s id rr Hs Hrr (Hfl _ _ Hrr Hb)) as (s' & E & Em' & _ & _ & rr' & Hrr' & Hz).
    exists (AReturn id 0), s'. split; [done |]. split; [done |]. unfold blocked. rewrite Em', Em. cbn [w_wake]. rewrite Hrr'. by apply Z.eqb_neq.
  - destruct Hp as (_ & _ & _ & rr & Hrr & Hz).
    destruct (unblock_return s id rr Hs Hrr (Hfl _ _ Hrr Hz)) as (s' & E & Em' & _ & _ & rr' & Hrr' & Hz').
    exists (AReturn id 0), s'. split; [done |]. split; [done |]. unfold blocked. rewrite Em', Em. cbn [w_wake]. rewrite Hrr'. by apply Z.eqb_neq.
  - destruct Hp as (_ & _ & _ & Hx). destruct (Hex id Hx Hb) as (s' & E & Em' & rv & Hrv). exists (AExit id), s'. split; [done |]. split; [done |].
    unfold blocked. by rewrite Em', Hrv.
  - destruct (rumprunners s) as [| r0 l0] eqn:Hl; [done |]. destruct Hget as (id & s' & E & Em' & Hn & Hd); [done | lia |].
    exists (AReturn id 0), s'. split; [done |]. split; [done |]. unfold blocked. rewrite Em'. cbn [w_wake]. destruct (rumprunners s'); [done | lia].
  - destruct Hget as (id & s' & E & Em' & Hn & Hd); [apply Hp | lia |].
    exists (AReturn id 0), s'. split; [done |]. split; [done |]. unfold blocked. rewrite Em'. cbn [w_wake]. lia.
  - destruct Hget as (id & s' & E & Em' & Hn & Hd); [apply Hp | apply Hp |].
    exists (AReturn id 0), s'. split; [done |]. split; [done |]. unfold blocked. rewrite Em'. cbn [w_wake]. lia.
  - destruct Hp as (_ & Hx). destruct (Hex id Hx Hb) as (s' & E & Em' & rv & Hrv). exists (AExit id), s'. split; [done |]. split; [done |].
    unfold blocked. by rewrite Em', Hrv.
Qed.

Lemma weight_pos s : sinv s -> 0 <= weight s.
Proof.
  intros [[_ Hpc _] _]. unfold weight, pc_ok in *. destruct (mpc s); cbn [pc_weight]; try lia.
Qed.

Lemma closer s : sinv s -> mpc s <> MReboot -> exists acts s', rrun hm po co acts s = Done s' /\ sinv s' /\ weight s' < weight s.
Proof using Hpo.
  intros Hs Hne.
  assert (Hgo : forall t, sinv t -> blocked t = false -> exists t', main_step hm po co t = Done t' /\ sinv t' /\ weight t' < weight t).
  { intros t Ht Hb. destruct (main_step_inv hm po co Hpo t Ht) as (t' & E & Ht'). exists t'. split; [done |]. split; [done |]. by apply main_weight. }
  destruct (blocked s) eqn:Hb.
  - destruct (unblock s Hs Hb Hne) as (a & s1 & Ha & E & Hb1). destruct (rstep_inv hm po co Hpo a s Hs) as (t & E' & Hs1). rewrite E in E'. injection E' as <-.
    destruct (Hgo s1 Hs1 Hb1) as (s2 & E2 & Hs2 & Hw). exists [a; AMain], s2. cbn [rrun]. rewrite E, Done_bind. cbn [rstep]. rewrite E2, Done_bind.
    split; [done |]. split; [done |]. by rewrite <- (prog_weight a s s1 Ha E).
  - destruct (Hgo s Hs Hb) as (s2 & E2 & Hs2 & Hw). exists [AMain], s2. cbn [rrun rstep]. by rewrite E2, Done_bind.
Qed.

Lemma can_reboot s : sinv s -> exists acts s', rrun hm po co acts s = Done s' /\ mpc s' = MReboot.
Proof using Hpo.
  intros Hs. remember (Z.to_nat (weight s)) as n eqn:Hn. revert s Hs Hn.
  induction n as [n IH] using lt_wf_ind. intros s Hs ->.
  assert (Hd : mpc s = MReboot \/ mpc s <> MReboot) by (destruct (mpc s); auto). destruct Hd as [Hd | Hd]; [by exists [], s |].
  destruct (closer s Hs Hd) as (acts & s1 & E & Hs1 & Hw). pose proof (weight_pos s1 Hs1). pose proof (weight_pos s Hs).
  destruct (IH (Z.to_nat (weight s1)) ltac:(lia) s1 Hs1 eq_refl) as (acts2 & s2 & E2 & Hm).
  exists (acts ++ acts2), s2. split; [| done]. clear -E E2. revert s E. induction acts as [| a acts IHa]; intros s E; cbn in *.
  - injection E as ->. done.
  - destruct (rstep hm po co a s); cbn in *; [| done | done]. auto.
Qed.

(** *** How often the main thread has to run *)

Definition exited (rr : rumprunner) : bool := match rr_mainthread rr with TExited _ => true | _ => false end.

(** The turns the main thread gets while no program it has started is still
    alive. *)
Fixpoint main_turns (acts : list raction) (s : rstate) : nat :=
  match acts with
  | [] => 0
  | a :: acts =>
      (match a with AMain => if forallb exited (rumprunners s) then 1 else 0 | _ => 0 end +
       match rstep hm po co a s with Done s => main_turns acts s | _ => 0 end)%nat
  end.

(** With all programs gone, the main thread has nothing to wait for. *)
Lemma exited_free s : sinv s -> forallb exited (rumprunners s) = true -> mpc s <> MReboot -> blocked s = false.
Proof.
  intros [[Hc Hp _] _] Ha Hne. unfold pc_ok in Hp. unfold blocked. rewrite forallb_forall in Ha.
  assert (forall id rr, rr_find id (rumprunners s) = Some rr -> exited rr = true /\ has_flag RUMPRUNNER_DONE rr = true) as Hfl.
  { intros id rr Hrr. assert (exited rr = true) as He.
    { apply Ha. apply rr_find_split in Hrr as (l1 & l2 & -> & _). apply in_app_iff. right. by left. }
    split; [done |]. rewrite (found_ok _ _ _ Hc Hrr). unfold exited, finished in *. by destruct (rr_mainthread rr). }
  assert (forall rr, has_flag RUMPRUNNER_DONE rr = true -> Z.land (rr_flags rr) (Z.lor RUMPRUNNER_DONE RUMPRUNNER_DAEMON) <> 0) as Hz.
  { intros rr Hr. apply land_lor_nonzero_r. left. by apply has_flag_true. }
  assert (rumprunners s <> [] -> rumprun_done s <> 0) as Hd.
  { rewrite (ri_done _ Hc). destruct (rumprunners s) as [| r l]; [done |]. intros _. rewrite count_cons. pose proof (count_pos finished l).
    assert (exited r = true) as He by (apply Ha; by left). replace (finished r) with true; [cbn; lia |]. unfold exited, finished in *. by destruct (rr_mainthread r). }
  destruct (mpc s) as [k rres | id k rres | id k rres | id k rres | | | | id |] eqn:Em; try done.
  - destruct Hp as (_ & _ & Hin & _). destruct (rr_find_some _ _ Hin) as [rr Hrr]. rewrite Hrr. apply Z.eqb_neq, Hz. by eapply Hfl.
  - destruct Hp as (_ & _ & _ & rr & Hrr & E). destruct (Hz rr); [by eapply Hfl | done].
  - destruct Hp as (_ & _ & _ & rr & Hrr & _). rewrite Hrr. cbn. destruct (Hfl id rr Hrr) as [He _]. unfold exited in He. by destruct (rr_mainthread rr).
  - destruct (rumprunners s); [done |]. apply Z.eqb_neq. by apply Hd.
  - apply Z.eqb_neq, Hd. apply Hp.
  - destruct Hp as (_ & ? & ?). by destruct Hd.
  - destruct Hp as (_ & rr & Hrr & _). rewrite Hrr. cbn. destruct (Hfl id rr Hrr) as [He _]. unfold exited in He. by destruct (rr_mainthread rr).
Qed.

Lemma turns_bound acts : forall s s', sinv s -> rrun hm po co acts s = Done s' -> mpc s' <> MReboot ->
  Z.of_nat (main_turns acts s) <= weight s - weight s'.
Proof using Hpo.
  induction acts as [| a acts IH]; intros s s' Hs E Hne; cbn [rrun main_turns] in *; [injection E as <-; lia |].
  destruct (rstep_inv hm po co Hpo a s Hs) as (s1 & E1 & Hs1). rewrite E1, Done_bind in E. rewrite E1. specialize (IH s1 s' Hs1 E Hne).
  destruct a; [| assert (weight s1 = weight s) by (eapply prog_weight; [| exact E1]; done); lia ..].
  cbn [rstep] in E1. destruct (main_weight s s1 Hs E1) as [Hw Hw']. destruct (forallb exited (rumprunners s)) eqn:Hex; [| lia].
  assert (mpc s <> MReboot) as Hm.
  { intros Hm. apply Hne. clear -Hm E1 E. unfold main_step in E1. rewrite Hm in E1. injection E1 as <-. revert s Hm E. induction acts as [| a acts IH]; cbn; intros s Hm E; [by simplify_eq |].
    destruct (rstep hm po co a s) as [t | |] eqn:Ea; cbn in E; try done. apply (IH t); [| done].
    destruct a; cbn [rstep] in Ea; [unfold main_step in Ea; rewrite Hm in Ea; by simplify_eq | unfold rumprun_daemon in Ea | unfold releaseme in Ea |]; repeat (case_match || outcome_inv); simplify_eq; try done; cbn; by rewrite Hm. }
  pose proof (Hw' (exited_free s Hs Hex Hm)). lia.
Qed.
End ends.

(** C35. The main thread gets to its end.  It sleeps on [w_cv] only while what
    it waits for has not happened: in [rumprun] the program it has started is
    neither done nor a daemon, in [rumprun_get_finished] no program is done.
    Whatever happened so far, the programs can go on so that it reaches the
    reboot; and on every schedule it has rebooted after more than 180 turns at
    times when the programs it has started are gone (it starts at most
    eight). *)
Theorem rumprun_ends hm po co f rres acts s :
  (forall n, po n = true) -> std_open f -> rres <> [] -> Forall exec_flags_ok rres ->
  rrun hm po co acts (rstart f rres) = Done s ->
  (forall id k l, mpc s = MForeWait id k l ->
     exists rr, rr_find id (rumprunners s) = Some rr /\ Z.land (rr_flags rr) (Z.lor RUMPRUNNER_DONE RUMPRUNNER_DAEMON) = 0) /\
  (mpc s = MGetWait -> rumprunners s <> [] /\ Forall (fun rr => finished rr = false) (rumprunners s)) /\
  (exists acts' s', rrun hm po co acts' s = Done s' /\ mpc s' = MReboot) /\
  ((180 < main_turns hm po co acts (rstart f rres))%nat -> mpc s = MReboot).
Proof.
  intros Hpo Hf Hne Hfl E. pose proof (rstart_inv f rres Hf Hne Hfl) as H0.
  destruct (rrun_inv hm po co Hpo acts _ H0) as (t & E' & Hs). rewrite E in E'. injection E' as <-.
  pose proof Hs as [[Hc Hp _] _]. unfold pc_ok in Hp. split; [| split; [| split]].
  - intros id k l Em. rewrite Em in Hp. apply Hp.
  - intros Em. rewrite Em in Hp. destruct Hp as (_ & Hn & Hd). split; [done |]. rewrite (ri_done _ Hc) in Hd.
    clear -Hd. induction (rumprunners s) as [| r l IH]; [constructor |]. rewrite count_cons in Hd. pose proof (count_pos finished l).
    destruct (finished r) eqn:Hr; cbn in Hd; [lia |]. constructor; [done | apply IH; lia].
  - by apply can_reboot.
  - intros Ht. assert (mpc s = MReboot \/ mpc s <> MReboot) as [Hm | Hm] by (destruct (mpc s); auto); [done |].
    pose proof (turns_bound hm po co Hpo acts _ s H0 E Hm) as Hb. pose proof (weight_pos s Hs).
    change (weight (rstart f rres)) with 180 in Hb. lia.
Qed.

Lemma rumprun_ends_witness :
  let f : fdtable := <[0 := FOther 0]> (<[1 := FOther 1]> (<[2 := FOther 2]> ∅)) in
  let rres := [Exec 0 1 [100]; Exec RUMPRUN_EXEC_BACKGROUND 1 [200]] in
  let acts := [AMain; AMain; AMain; ADaemon 0; AMain; AMain; AMain] in
  exists s, rrun (fun _ => true) (fun _ => true) (fun _ => true) acts (rstart f rres) = Done s /\
    mpc s = MGetWait /\ Forall (fun rr => finished rr = false) (rumprunners s) /\
    exists acts' s', rrun (fun _ => true) (fun _ => true) (fun _ => true) acts' s = Done s' /\ mpc s' = MReboot.
Proof.
  intros f rres acts. destruct (rrun (fun _ => true) (fun _ => true) (fun _ => true) acts (rstart f rres)) as [s | w | w] eqn:E;
    [| vm_compute in E; discriminate | vm_compute in E; discriminate].
  exists s. split; [done |]. assert (Hm : mpc s = MGetWait) by (vm_compute in E; injection E as <-; reflexivity). split; [done |].
  destruct (rumprun_ends (fun _ => true) (fun _ => true) (fun _ => true) f rres acts s) as (_ & Hw & Hr & _).
  - done.
  - repeat split; vm_compute; eauto.
  - done.
  - repeat constructor.
  - exact E.
  - split; [by apply Hw | exact Hr].
Defined.

(** A program that writes to a pipe keeps the end it is read from, too, so
    that it does not notice when its reader is gone. *)
Theorem pipe_writer_holds_reader pipe_ok flags s child s' :
  (forall n, pipe_ok n = true) -> std_open (fds s) -> pipein_ok s -> is_piped flags = true ->
  setupproc pipe_ok flags s = Done (child, s') -> child !! pipein s' = Some (FRead (npipes s)).
Proof.
  intros Hp Hstd Hpin Hpiped E. destruct (setupproc_spec pipe_ok flags s Hp Hstd Hpin) as (c & t & E' & _ & _ & Hs & _).
  rewrite E in E'. injection E' as <- <-. rewrite Hpiped in Hs. apply Hs.
Qed.
