(* ===== verification/XenRing.v ===== *)
(** * Rings shared with another domain

    A ring of bytes whose size is a power of two, with indices that only grow:
    the byte with index [i] is at position [i mod size].  [window] is what the
    ring holds between two indices.  On the machine an index wraps at 32 bits,
    which [mask] does not notice. *)

From S2P Require Import Prelude.

Section ring.
Context (bits : Z) (Hbits : 0 <= bits < 32).
Local Abbreviation size := (2 ^ bits).

(** MASK_XENSTORE_IDX and its like. *)
Definition ring_mask (i : Z) : Z := Z.land i (size - 1).

(** [len] bytes of the ring from index [c] on. *)
Definition window (r : list Z) (c len : Z) : list Z := (fun i => r !!! Z.to_nat ((c + i) mod size)) <$> seqZ 0 len.

(** [bmk_memcpy] into the ring, at an offset. *)
Definition ring_put (r : list Z) (off : Z) (bs : list Z) : list Z :=
  take (Z.to_nat off) r ++ bs ++ drop (Z.to_nat off + length bs) r.

Lemma size_pos : 0 < size.
Proof. apply Z.pow_pos_nonneg; lia. Qed.

Lemma ring_mask_mod i : ring_mask i = i mod size.
Proof. unfold ring_mask. replace (size - 1) with (Z.ones bits) by (rewrite Z.ones_equiv; lia). by rewrite Z.land_ones by lia. Qed.

Lemma wrap_mod i : wrap32 i mod size = i mod size.
Proof.
  unfold wrap32. apply Z.mod_mod_divide.
  exists (2 ^ (32 - bits)). rewrite <- Z.pow_add_r by lia. f_equal. lia.
Qed.

Lemma wrap_diff32 a b : 0 <= a - b < 2 ^ 32 -> wrap32 (wrap32 a - wrap32 b) = a - b.
Proof. intros H. unfold wrap32. rewrite <- Zminus_mod. by apply Z.mod_small. Qed.
Lemma wrap_add32 a b : wrap32 (wrap32 a + b) = wrap32 (a + b).
Proof. unfold wrap32. by rewrite Zplus_mod_idemp_l. Qed.

Lemma window_length r c n : 0 <= n -> length (window r c n) = Z.to_nat n.
Proof. intros. unfold window. by rewrite length_fmap, length_seqZ. Qed.

Lemma window_nil r c : window r c 0 = [].
Proof. done. Qed.

Lemma window_lookup r c n i : 0 <= i < n -> window r c n !! Z.to_nat i = Some (r !!! Z.to_nat ((c + i) mod size)).
Proof.
  intros Hi. unfold window. rewrite list_lookup_fmap, lookup_seqZ_lt by lia. cbn [fmap option_fmap option_map].
  replace (c + (0 + Z.of_nat (Z.to_nat i))) with (c + i) by lia. done.
Qed.

Lemma window_app r c n m : 0 <= n -> 0 <= m -> window r c (n + m) = window r c n ++ window r (c + n) m.
Proof.
  intros Hn Hm. unfold window. rewrite seqZ_app, fmap_app by lia. f_equal.
  replace (0 + n) with (n + 0) by lia. rewrite <- (fmap_add_seqZ n 0), <- list_fmap_compose. apply list_fmap_ext. intros i x _.
  unfold compose. replace (c + (n + x)) with (c + n + x) by lia. done.
Qed.

Lemma window_wrap r c n : window r (wrap32 c) n = window r c n.
Proof.
  unfold window. apply list_fmap_ext. intros i x _. do 2 f_equal.
  rewrite <- Zplus_mod_idemp_l, wrap_mod, Zplus_mod_idemp_l. done.
Qed.

(** Two windows that agree byte by byte. *)
Lemma window_ext r r' c n : (forall i, 0 <= i < n -> r !!! Z.to_nat ((c + i) mod size) = r' !!! Z.to_nat ((c + i) mod size)) ->
  window r c n = window r' c n.
Proof.
  intros H. unfold window. apply list_fmap_ext. intros i x Hx. apply lookup_seqZ in Hx as [-> Hlt]. apply H. lia.
Qed.

Lemma window_eq r c l : (forall i b, l !! i = Some b -> r !!! Z.to_nat ((c + Z.of_nat i) mod size) = b) ->
  window r c (Z.of_nat (length l)) = l.
Proof.
  intros H. apply list_eq_same_length with (length l); [done | by rewrite window_length, Nat2Z.id by lia |].
  intros i x y Hi Hx Hy. pose proof (window_lookup r c (Z.of_nat (length l)) (Z.of_nat i) ltac:(lia)) as E.
  rewrite Nat2Z.id in E. rewrite (H i y Hy) in E. congruence.
Qed.

Lemma ring_put_length r off bs : 0 <= off -> off + Z.of_nat (length bs) <= Z.of_nat (length r) -> length (ring_put r off bs) = length r.
Proof. intros. unfold ring_put. rewrite !length_app, length_take, length_drop. lia. Qed.

Lemma ring_put_lookup r off bs i : 0 <= off -> off + Z.of_nat (length bs) <= Z.of_nat (length r) -> 0 <= i ->
  ring_put r off bs !!! Z.to_nat i =
    if (off <=? i) && (i <? off + Z.of_nat (length bs)) then bs !!! Z.to_nat (i - off) else r !!! Z.to_nat i.
Proof.
  intros Ho Hl Hi. unfold ring_put. rewrite !list_lookup_total_alt.
  destruct (Z.leb_spec off i); cbn [andb].
  - rewrite lookup_app_r by (rewrite length_take; lia). rewrite length_take.
    destruct (Z.ltb_spec i (off + Z.of_nat (length bs))).
    + rewrite lookup_app_l by lia. do 2 f_equal. lia.
    + rewrite lookup_app_r by lia. rewrite lookup_drop. do 2 f_equal. lia.
  - rewrite lookup_app_l by (rewrite length_take; lia). by rewrite lookup_take_lt by lia.
Qed.

(** A copy at index [p] that does not go past the end of the ring: the bytes
    are there, and those between [p] plus their number minus the size, and
    [p], are as before. *)
Lemma put_window r p bs c n : Z.of_nat (length r) = size -> p mod size + Z.of_nat (length bs) <= size -> 0 <= n ->
  c + n <= p -> p + Z.of_nat (length bs) <= c + size ->
  window (ring_put r (p mod size) bs) c n = window r c n.
Proof.
  intros Hr Hb Hn H1 H2. apply window_ext. intros i Hi. pose proof size_pos as Hs.
  pose proof (Z.mod_pos_bound p size Hs). pose proof (Z.mod_pos_bound (c + i) size Hs).
  rewrite ring_put_lookup by lia.
  destruct (Z.leb_spec (p mod size) ((c + i) mod size)); cbn [andb]; [| done].
  destruct (Z.ltb_spec ((c + i) mod size) (p mod size + Z.of_nat (length bs))); [| done]. exfalso.
  pose proof (Z.div_mod p size ltac:(lia)) as Ep. pose proof (Z.div_mod (c + i) size ltac:(lia)) as Eq.
  assert (size * (p / size - (c + i) / size) = p - p mod size - (c + i - (c + i) mod size)) as E by lia.
  destruct (Z.le_gt_cases (p / size - (c + i) / size) 0); nia.
Qed.

Lemma put_window_new r p bs : Z.of_nat (length r) = size -> p mod size + Z.of_nat (length bs) <= size ->
  window (ring_put r (p mod size) bs) p (Z.of_nat (length bs)) = bs.
Proof.
  intros Hr Hb. apply window_eq. intros i b Hi. pose proof size_pos as Hs. pose proof (Z.mod_pos_bound p size Hs).
  pose proof (lookup_lt_Some _ _ _ Hi) as Hlt.
  assert ((p + Z.of_nat i) mod size = p mod size + Z.of_nat i) as ->.
  { rewrite <- Zplus_mod_idemp_l. apply Z.mod_small. lia. }
  rewrite ring_put_lookup by lia. destruct (Z.leb_spec (p mod size) (p mod size + Z.of_nat i)); [| lia].
  destruct (Z.ltb_spec (p mod size + Z.of_nat i) (p mod size + Z.of_nat (length bs))); [| lia]. cbn [andb].
  replace (Z.to_nat (p mod size + Z.of_nat i - p mod size)) with i by lia. by apply list_lookup_total_correct.
Qed.

(** ** Reading: [memcpy_from_ring] *)

Definition memcpy_from_ring (r : list Z) (off len : Z) : list Z :=
  let c1 := Z.min len (size - off) in
  let c2 := len - c1 in
  take (Z.to_nat c1) (drop (Z.to_nat off) r) ++ take (Z.to_nat c2) r.

Lemma slice_window r p n : Z.of_nat (length r) = size -> 0 <= n -> p mod size + n <= size ->
  take (Z.to_nat n) (drop (Z.to_nat (p mod size)) r) = window r p n.
Proof.
  intros Hr Hn Hp. pose proof (Z.mod_pos_bound p size size_pos).
  apply list_eq_same_length with (Z.to_nat n); [by rewrite window_length | rewrite length_take, length_drop; lia |].
  intros i x y Hi Hx Hy. rewrite lookup_take_lt in Hx by lia. rewrite lookup_drop in Hx.
  pose proof (window_lookup r p n (Z.of_nat i) ltac:(lia)) as E. rewrite Nat2Z.id in E. rewrite E in Hy. injection Hy as <-.
  assert ((p + Z.of_nat i) mod size = p mod size + Z.of_nat i) as -> by (rewrite <- Zplus_mod_idemp_l; apply Z.mod_small; lia).
  symmetry. apply list_lookup_total_correct. rewrite <- Hx. f_equal. lia.
Qed.

(** The bytes read are those of the window, also around the end of the ring. *)
Lemma memcpy_from_ring_window r p n : Z.of_nat (length r) = size -> 0 <= n <= size ->
  memcpy_from_ring r (p mod size) n = window r p n.
Proof.
  intros Hr Hn. unfold memcpy_from_ring. pose proof (Z.mod_pos_bound p size size_pos) as Hm.
  destruct (Z.le_gt_cases n (size - p mod size)).
  - rewrite Z.min_l by lia. rewrite Z.sub_diag. cbn [Z.to_nat take]. rewrite app_nil_r. apply slice_window; lia.
  - rewrite Z.min_r by lia. set (c1 := size - p mod size). replace n with (c1 + (n - c1)) at 2 by lia.
    rewrite window_app by lia. rewrite slice_window by lia. f_equal.
    assert ((p + c1) mod size = 0) as E.
    { unfold c1. pose proof (Z.div_mod p size ltac:(pose proof size_pos; lia)) as Hd.
      replace (p + (size - p mod size)) with ((p / size + 1) * size) by lia. apply Z_mod_mult. }
    pose proof (slice_window r (p + c1) (n - c1) Hr ltac:(lia) ltac:(lia)) as E2. rewrite E in E2. exact E2.
Qed.
End ring.
