(* ===== verification/Xenbus.v ===== *)
(** * The store client of the Xen platform (platform/xen/xen/xenbus/xenbus.c)

    Threads send requests to the store in another domain through one ring and
    get the replies through another.  A request carries one of 32 numbers;
    the thread [xenbus_thread_func] reads the replies and hands each one to the
    request with its number, and the events to the queue of the watch with
    their token.

    A thread of the guest runs until it waits, so that its code is cut at its
    waits; the store runs at any time, and takes and puts any number of bytes
    at a time.  The layout of the messages and the size of the rings come from
    Xen's public headers, which are outside these sources: they are the class
    [XenWire]. *)

From S2P Require Import Prelude Mem Cstring XenRing.

Abbreviation zlen l := (Z.of_nat (length l)).

(** ** Messages *)
Record xsd_sockmsg := SockMsg { m_type : Z; m_req_id : Z; m_tx_id : Z; m_len : Z }.
Global Instance xsd_sockmsg_eq_dec : EqDecision xsd_sockmsg.
Proof. solve_decision. Defined.

Definition u32 (z : Z) : Prop := 0 <= z < 2 ^ 32.
Definition sockmsg_ok (h : xsd_sockmsg) : Prop := u32 (m_type h) /\ u32 (m_req_id h) /\ u32 (m_tx_id h) /\ u32 (m_len h).

Class XenWire := {
  ring_bits : Z;
  msg_size : nat;
  XS_WATCH_EVENT : Z;
  sockmsg_bytes : xsd_sockmsg -> list Z;
  sockmsg_of : list Z -> xsd_sockmsg;
  ring_bits_ok : 0 <= ring_bits < 31;
  msg_size_ok : (0 < msg_size)%nat /\ Z.of_nat msg_size <= 2 ^ ring_bits;
  watch_event_ok : u32 XS_WATCH_EVENT;
  sockmsg_length : forall h, length (sockmsg_bytes h) = msg_size;
  sockmsg_roundtrip : forall h, sockmsg_ok h -> sockmsg_of (sockmsg_bytes h) = h }.

(** A message and its contents; [reply] of the code points to both. *)
Abbreviation message := (xsd_sockmsg * list Z)%type.

Section xenbus.
Context `{W : XenWire}.

Definition XENSTORE_RING_SIZE : Z := 2 ^ ring_bits.
Definition MASK_XENSTORE_IDX (i : Z) : Z := ring_mask ring_bits i.
Definition NR_REQS : Z := 32.

Definition msg_bytes (m : message) : list Z := sockmsg_bytes m.1 ++ m.2.

(** ** Sending: [xenbus_xb_write] *)

(** The copy loop; [reqs] is what is left of the header and the requests,
    starting with [cur_req]. *)
Fixpoint xb_copy (fuel : nat) (reqs : list (list Z)) (req_off total_off len prod : Z) (ring : list Z) : outcome (Z * Z * Z * list Z) :=
  match fuel with
  | O => Undef "xb_write: out of fuel"
  | S fuel =>
      if total_off <? len then
        match reqs with
        | [] => Undef "req[nr_reqs]"
        | data :: rest =>
            let this_chunk := Z.min (zlen data - req_off) (XENSTORE_RING_SIZE - MASK_XENSTORE_IDX prod) in
            let ring := ring_put ring (MASK_XENSTORE_IDX prod) (take (Z.to_nat this_chunk) (drop (Z.to_nat req_off) data)) in
            let prod := wrap32 (prod + this_chunk) in
            let req_off := req_off + this_chunk in
            let total_off := total_off + this_chunk in
            if req_off =? zlen data then xb_copy fuel rest 0 total_off len prod ring
            else xb_copy fuel reqs req_off total_off len prod ring
        end
      else Done (req_off, total_off, prod, ring)
  end.

(** [None] while there is no room on the ring. *)
Definition xenbus_xb_write (type req_id trans_id : Z) (req : list (list Z)) (ring : list Z) (req_cons req_prod : Z) :
    outcome (option (list Z * Z)) :=
  let dlen := zlen (concat req) in
  let m := SockMsg type req_id trans_id dlen in
  let len := dlen + Z.of_nat msg_size in
  if XENSTORE_RING_SIZE <? len then Halt "BUG_ON(len > XENSTORE_RING_SIZE)"
  else if XENSTORE_RING_SIZE <? wrap32 (req_prod + len - req_cons) then Done None
  else
    '(req_off, total_off, prod, ring) ← xb_copy (length req + 3) (sockmsg_bytes m :: req) 0 0 len req_prod ring;
    if negb (req_off =? 0) then Halt "BUG_ON(req_off != 0)"
    else if negb (total_off =? len) then Halt "BUG_ON(total_off != len)"
    else if wrap32 (req_cons + XENSTORE_RING_SIZE) <? prod then Halt "BUG_ON(prod > xenstore_buf->req_cons + XENSTORE_RING_SIZE)"
    else Done (Some (ring, wrap32 (req_prod + len))).

(** ** State *)

(** A call of [xenbus_msg_reply]: in [xenbus_id_allocate], in
    [xenbus_xb_write], in [await_event] with its queue empty or not, done. *)
Inductive cpc :=
  | CAlloc
  | CSend (id : Z)
  | CAwait (id : Z) (event : option message)
  | CDone (rep : message).

Record call := Call { c_type : Z; c_trans : Z; c_data : list (list Z); c_pc : cpc }.
Definition set_cpc (p : cpc) (c : call) : call := Call (c_type c) (c_trans c) (c_data c) p.

(** The thread: waiting for [rsp_prod] to differ from [prod], or not. *)
Inductive xpc := XWait (prod : Z) | XScan.

(** The store: bytes taken and not yet looked at, bytes to put, requests to
    answer with their place in the order of arrival, the number of requests
    seen, the requests with their answers, and the events so far. *)
Record store := Store {
  s_in : list Z;
  s_out : list Z;
  s_pend : list (nat * message);
  s_seen : nat;
  s_answered : list (nat * (message * message));
  s_events : list (list Z * list Z) }.

Record xb := Xb {
  req : list Z; req_cons : Z; req_prod : Z;
  rsp : list Z; rsp_cons : Z; rsp_prod : Z;
  req_info : list (option nat);    (** the call whose queue and event are noted *)
  nr_live_reqs : Z;
  probe : Z;
  calls : list call;
  sent : list nat;                 (** calls, in the order of their requests *)
  watches : list (list Z * nat);   (** token and queue *)
  queues : list (nat * (list Z * list Z));   (** queued: path and token *)
  received : list ((list Z * list Z) * list (list Z * nat));
                                   (** events read, with the watches at that time *)
  taken : list (nat * (list Z * list Z));    (** events taken, with their queue *)
  xthread : xpc;
  xstore : store }.

Definition set_req (r : list Z) (c p : Z) (s : xb) : xb := Xb r c p (rsp s) (rsp_cons s) (rsp_prod s) (req_info s) (nr_live_reqs s)
  (probe s) (calls s) (sent s) (watches s) (queues s) (received s) (taken s) (xthread s) (xstore s).
Definition set_rsp (r : list Z) (c p : Z) (s : xb) : xb := Xb (req s) (req_cons s) (req_prod s) r c p (req_info s) (nr_live_reqs s)
  (probe s) (calls s) (sent s) (watches s) (queues s) (received s) (taken s) (xthread s) (xstore s).
Definition set_ids (l : list (option nat)) (n p : Z) (s : xb) : xb := Xb (req s) (req_cons s) (req_prod s) (rsp s) (rsp_cons s) (rsp_prod s)
  l n p (calls s) (sent s) (watches s) (queues s) (received s) (taken s) (xthread s) (xstore s).
Definition set_calls (l : list call) (t : list nat) (s : xb) : xb := Xb (req s) (req_cons s) (req_prod s) (rsp s) (rsp_cons s) (rsp_prod s)
  (req_info s) (nr_live_reqs s) (probe s) l t (watches s) (queues s) (received s) (taken s) (xthread s) (xstore s).
Definition set_watches (l : list (list Z * nat)) (s : xb) : xb := Xb (req s) (req_cons s) (req_prod s) (rsp s) (rsp_cons s) (rsp_prod s)
  (req_info s) (nr_live_reqs s) (probe s) (calls s) (sent s) l (queues s) (received s) (taken s) (xthread s) (xstore s).
Definition set_queues (l : list (nat * (list Z * list Z))) (r : list ((list Z * list Z) * list (list Z * nat))) (t : list (nat * (list Z * list Z))) (s : xb) : xb := Xb (req s) (req_cons s) (req_prod s)
  (rsp s) (rsp_cons s) (rsp_prod s) (req_info s) (nr_live_reqs s) (probe s) (calls s) (sent s) (watches s) l r t (xthread s) (xstore s).
Definition set_xthread (t : xpc) (s : xb) : xb := Xb (req s) (req_cons s) (req_prod s) (rsp s) (rsp_cons s) (rsp_prod s)
  (req_info s) (nr_live_reqs s) (probe s) (calls s) (sent s) (watches s) (queues s) (received s) (taken s) t (xstore s).
Definition set_store (t : store) (s : xb) : xb := Xb (req s) (req_cons s) (req_prod s) (rsp s) (rsp_cons s) (rsp_prod s)
  (req_info s) (nr_live_reqs s) (probe s) (calls s) (sent s) (watches s) (queues s) (received s) (taken s) (xthread s) t.
Definition set_call (n : nat) (p : cpc) (s : xb) : xb := set_calls (alter (set_cpc p) n (calls s)) (sent s) s.

(** ** Request numbers *)

Fixpoint id_probe (fuel : nat) (o_probe probe : Z) (info : list (option nat)) : outcome Z :=
  match fuel with
  | O => Undef "id_allocate: out of fuel"
  | S fuel =>
      used ← of_option "req_info[o_probe]" (info !! Z.to_nat o_probe);
      match used with
      | None => Done o_probe
      | Some _ =>
          let o_probe := (o_probe + 1) mod NR_REQS in
          if o_probe =? probe then Halt "BUG_ON(o_probe == probe)" else id_probe fuel o_probe probe info
      end
  end.

(** [None] while all numbers are in use. *)
Definition xenbus_id_allocate (n : nat) (s : xb) : outcome (option (Z * xb)) :=
  if nr_live_reqs s <? NR_REQS then
    o_probe ← id_probe (Z.to_nat NR_REQS) (probe s) (probe s) (req_info s);
    Done (Some (o_probe, set_ids (<[Z.to_nat o_probe := Some n]> (req_info s)) (nr_live_reqs s + 1) ((o_probe + 1) mod NR_REQS) s))
  else Done None.

Definition xenbus_id_release (id : Z) (s : xb) : outcome xb :=
  used ← of_option "req_info[id]" (req_info s !! Z.to_nat id);
  match used with
  | None => Halt "BUG_ON(!req_info[id].reply_queue)"
  | Some _ => Done (set_ids (<[Z.to_nat id := None]> (req_info s)) (nr_live_reqs s - 1) (probe s) s)
  end.

(** ** A call: [xenbus_msg_reply] *)
Definition xenbus_msg_reply (n : nat) (s : xb) : outcome xb :=
  c ← of_option "call" (calls s !! n);
  match c_pc c with
  | CAlloc =>
      r ← xenbus_id_allocate n s;
      match r with
      | None => Done s
      | Some (id, s) => Done (set_call n (CSend id) s)
      end
  | CSend id =>
      r ← xenbus_xb_write (c_type c) id (c_trans c) (c_data c) (req s) (req_cons s) (req_prod s);
      match r with
      | None => Done s
      | Some (ring, prod) =>
          let s := set_call n (CAwait id None) (set_req ring (req_cons s) prod s) in
          Done (set_calls (calls s) (sent s ++ [n]) s)
      end
  | CAwait id None => Done s
  | CAwait id (Some rep) =>
      if negb (m_req_id rep.1 =? id) then Halt "BUG_ON(rep->req_id != id)"
      else
        s ← xenbus_id_release id s;
        Done (set_call n (CDone rep) s)
  | CDone _ => Done s
  end.

(** ** The thread *)

(** [bmk_strcmp(watch->token, event->token)]; the event's token is followed by
    memory the thread does not own. *)
Definition token_cmp (s t : list Z) : outcome Z :=
  bmk_strcmp (mem_write (mem_write ∅ 0 (s ++ [0])) (zlen s + 2) (t ++ [0])) 0 (zlen s + 2).

Fixpoint find_watch (token : list Z) (l : list (list Z * nat)) : outcome (option nat) :=
  match l with
  | [] => Done None
  | (t, q) :: l =>
      r ← token_cmp t token;
      if r =? 0 then Done (Some q) else find_watch token l
  end.

(** The string at the start of a byte sequence, and what follows its NUL. *)
Fixpoint split_str (l : list Z) : option (list Z * list Z) :=
  match l with
  | [] => None
  | b :: l => if b =? 0 then Some ([], l) else '(s, r) ← split_str l; Some (b :: s, r)
  end.

(** One round of the inner loop of [xenbus_thread_func]. *)
Definition xenbus_thread_func (s : xb) : outcome xb :=
  match xthread s with
  | XWait prod => if prod =? rsp_prod s then Done s else Done (set_xthread XScan s)
  | XScan =>
      let avail := wrap32 (rsp_prod s - rsp_cons s) in
      if avail <? Z.of_nat msg_size then Done (set_xthread (XWait (rsp_prod s)) s)
      else
        let msg := sockmsg_of (memcpy_from_ring ring_bits (rsp s) (MASK_XENSTORE_IDX (rsp_cons s)) (Z.of_nat msg_size)) in
        if avail <? Z.of_nat msg_size + m_len msg then Done (set_xthread (XWait (rsp_prod s)) s)
        else if m_type msg =? XS_WATCH_EVENT then
          let data := memcpy_from_ring ring_bits (rsp s) (MASK_XENSTORE_IDX (rsp_cons s + Z.of_nat msg_size)) (m_len msg) in
          '(path, rest) ← of_option "path" (split_str data);
          '(token, _) ← of_option "token" (split_str rest);
          let s := set_rsp (rsp s) (wrap32 (rsp_cons s + (m_len msg + Z.of_nat msg_size))) (rsp_prod s) s in
          events ← find_watch token (watches s);
          match events with
          | Some q => Done (set_queues (queues s ++ [(q, (path, token))]) (received s ++ [((path, token), watches s)]) (taken s) s)
          | None => Done (set_queues (queues s) (received s ++ [((path, token), watches s)]) (taken s) s)
          end
        else
          used ← of_option "req_info[msg.req_id]" (req_info s !! Z.to_nat (m_req_id msg));
          n ← of_option "req_info[msg.req_id].for_queue" used;
          let reply := memcpy_from_ring ring_bits (rsp s) (MASK_XENSTORE_IDX (rsp_cons s)) (m_len msg + Z.of_nat msg_size) in
          let s := set_rsp (rsp s) (wrap32 (rsp_cons s + (m_len msg + Z.of_nat msg_size))) (rsp_prod s) s in
          c ← of_option "for_queue" (calls s !! n);
          match c_pc c with
          | CAwait id None => Done (set_call n (CAwait id (Some (sockmsg_of (take msg_size reply), drop msg_size reply))) s)
          | _ => Undef "event queued twice"
          end
  end.

(** ** Watches *)

(** [xenbus_watch_path_token] and [xenbus_watch_prepare] up to the request. *)
Definition watch_insert (token : list Z) (q : nat) (s : xb) : xb := set_watches ((token, q) :: watches s) s.

(** The end of [xenbus_unwatch_path_token], after the reply. *)
Fixpoint watch_remove (token : list Z) (l : list (list Z * nat)) : outcome (list (list Z * nat)) :=
  match l with
  | [] => Done []
  | (t, q) :: l =>
      r ← token_cmp t token;
      if r =? 0 then Done l else l ← watch_remove token l; Done ((t, q) :: l)
  end.

(** [remove_event] on queue [q]: its first event, and the queues without it. *)
Fixpoint remove_event (q : nat) (l : list (nat * (list Z * list Z))) : option (list Z * list Z) * list (nat * (list Z * list Z)) :=
  match l with
  | [] => (None, [])
  | (q', e) :: l =>
      if bool_decide (q' = q) then (Some e, l)
      else let '(r, l) := remove_event q l in (r, (q', e) :: l)
  end.

(** [xenbus_wait_for_watch_return], which waits while there is no event. *)
Definition wait_for_watch (q : nat) (s : xb) : xb :=
  match remove_event q (queues s) with
  | (Some e, l) => set_queues l (received s) (taken s ++ [(q, e)]) s
  | (None, _) => s
  end.

(** ** The store *)

Definition in_used (s : xb) : Z := wrap32 (req_prod s - req_cons s).
Definition out_used (s : xb) : Z := wrap32 (rsp_prod s - rsp_cons s).

Inductive xact :=
  | ACall (type trans : Z) (data : list (list Z))   (** a thread makes a request *)
  | AStep (n : nat)                                 (** it goes on *)
  | AThread                                         (** the thread does *)
  | AWatch (token : list Z) (q : nat)
  | AUnwatch (token : list Z)
  | AEvent (q : nat)
  | STake (k : nat)                                 (** the store takes bytes, *)
  | SParse                                          (** looks at a request, *)
  | SAnswer (j : nat) (type : Z) (payload : list Z) (** answers one, *)
  | SFire (path token : list Z)                     (** reports an event, *)
  | SPut (k : nat).                                 (** puts bytes *)

Definition store_take (k : nat) (s : xb) : xb :=
  let k := Z.min (Z.of_nat k) (in_used s) in
  let bs := window ring_bits (req s) (req_cons s) k in
  set_store (Store (s_in (xstore s) ++ bs) (s_out (xstore s)) (s_pend (xstore s)) (s_seen (xstore s)) (s_answered (xstore s)) (s_events (xstore s)))
    (set_req (req s) (wrap32 (req_cons s + k)) (req_prod s) s).

Definition store_parse (s : xb) : xb :=
  let l := s_in (xstore s) in
  let m := sockmsg_of (take msg_size l) in
  if (zlen l <? Z.of_nat msg_size) || (zlen l <? Z.of_nat msg_size + m_len m) then s
  else
    let n := (msg_size + Z.to_nat (m_len m))%nat in
    set_store (Store (drop n l) (s_out (xstore s)) (s_pend (xstore s) ++ [(s_seen (xstore s), (m, drop msg_size (take n l)))])
      (S (s_seen (xstore s))) (s_answered (xstore s)) (s_events (xstore s))) s.

Definition store_answer (j : nat) (type : Z) (payload : list Z) (s : xb) : xb :=
  match s_pend (xstore s) !! j with
  | None => s
  | Some (k, (m, d)) =>
      let a := (SockMsg type (m_req_id m) (m_tx_id m) (zlen payload), payload) in
      set_store (Store (s_in (xstore s)) (s_out (xstore s) ++ msg_bytes a) (delete j (s_pend (xstore s))) (s_seen (xstore s))
        (s_answered (xstore s) ++ [(k, ((m, d), a))]) (s_events (xstore s))) s
  end.

Definition event_msg (path token : list Z) : message :=
  let payload := path ++ [0] ++ token ++ [0] in
  (SockMsg XS_WATCH_EVENT 0 0 (zlen payload), payload).

Definition store_fire (path token : list Z) (s : xb) : xb :=
  set_store (Store (s_in (xstore s)) (s_out (xstore s) ++ msg_bytes (event_msg path token)) (s_pend (xstore s)) (s_seen (xstore s))
    (s_answered (xstore s)) (s_events (xstore s) ++ [(path, token)])) s.

Fixpoint ring_write (p : Z) (bs : list Z) (r : list Z) : list Z :=
  match bs with
  | [] => r
  | b :: bs => ring_write (p + 1) bs (ring_put r (p mod XENSTORE_RING_SIZE) [b])
  end.

Definition store_put (k : nat) (s : xb) : xb :=
  let k := Z.min (Z.min (Z.of_nat k) (zlen (s_out (xstore s)))) (XENSTORE_RING_SIZE - out_used s) in
  set_store (Store (s_in (xstore s)) (drop (Z.to_nat k) (s_out (xstore s))) (s_pend (xstore s)) (s_seen (xstore s))
      (s_answered (xstore s)) (s_events (xstore s)))
    (set_rsp (ring_write (rsp_prod s) (take (Z.to_nat k) (s_out (xstore s))) (rsp s)) (rsp_cons s) (wrap32 (rsp_prod s + k)) s).

Definition xb_step (a : xact) (s : xb) : outcome xb :=
  match a with
  | ACall type trans data => Done (set_calls (calls s ++ [Call type trans data CAlloc]) (sent s) s)
  | AStep n => if decide (n < length (calls s))%nat then xenbus_msg_reply n s else Done s
  | AThread => xenbus_thread_func s
  | AWatch token q => Done (watch_insert token q s)
  | AUnwatch token => l ← watch_remove token (watches s); Done (set_watches l s)
  | AEvent q => Done (wait_for_watch q s)
  | STake k => Done (store_take k s)
  | SParse => Done (store_parse s)
  | SAnswer j type payload => Done (store_answer j type payload s)
  | SFire path token => Done (store_fire path token s)
  | SPut k => Done (store_put k s)
  end.

Fixpoint xb_run (acts : list xact) (s : xb) : outcome xb :=
  match acts with
  | [] => Done s
  | a :: acts => s ← xb_step a s; xb_run acts s
  end.

(** Indices at which the guest finds the rings. *)
Definition init_xenbus (rq rs : list Z) (i j : Z) : xb :=
  Xb rq i i rs j j (replicate (Z.to_nat NR_REQS) None) 0 0 [] [] [] [] [] [] (XWait j) (Store [] [] [] 0 [] []).
End xenbus.
