(* ===== verification/XenbusThms.v ===== *)
(** * The store client of the Xen platform: every reply gets to its request *)

From S2P Require Import Prelude Count Mem Cstring StringThms XenRing Xenbus.

Section thms.
Context `{W : XenWire}.
Local Abbreviation rsize := (2 ^ ring_bits).

Lemma rbits : 0 <= ring_bits < 32.
Proof. pose proof ring_bits_ok. lia. Qed.
Lemma rsize_pos : 0 < rsize.
Proof. apply size_pos, rbits. Qed.
Lemma rsize_small : 2 * rsize <= 2 ^ 32.
Proof.
  pose proof ring_bits_ok. change (2 * rsize) with (2 ^ 1 * rsize). rewrite <- Z.pow_add_r by lia. apply Z.pow_le_mono_r; lia.
Qed.
Lemma mask_mod i : MASK_XENSTORE_IDX i = i mod rsize.
Proof. apply ring_mask_mod, rbits. Qed.
Lemma mask_wrap_mod i : MASK_XENSTORE_IDX (wrap32 i) = i mod rsize.
Proof. rewrite mask_mod. apply wrap_mod, rbits. Qed.

(** ** The copy to the ring *)
Lemma xb_copy_spec fuel : forall reqs req_off total_off len P ring,
  zlen ring = rsize -> 0 <= req_off -> (req_off = 0 \/ exists d rest, reqs = d :: rest /\ req_off < zlen d) ->
  zlen (drop (Z.to_nat req_off) (concat reqs)) = len - total_off -> len - total_off <= rsize ->
  (length reqs + (if (rsize <? P mod rsize + (len - total_off))%Z then 1 else 0) < fuel)%nat ->
  exists ring', xb_copy fuel reqs req_off total_off len (wrap32 P) ring = Done (0, len, wrap32 (P + (len - total_off)), ring') /\
    zlen ring' = rsize /\ window ring_bits ring' P (len - total_off) = drop (Z.to_nat req_off) (concat reqs) /\
    forall c m, 0 <= m -> c + m <= P -> P + (len - total_off) <= c + rsize -> window ring_bits ring' c m = window ring_bits ring c m.
Proof.
  induction fuel as [| fuel IH]; intros reqs req_off total_off len P ring Hr Ho Hd Hn Hle Hf; [lia |]. cbn [xb_copy].
  destruct (Z.ltb_spec total_off len) as [Hlt | Hge].
  2: { assert (len - total_off = 0) as Hz by lia. rewrite Hz in *. exists ring. rewrite Z.add_0_r.
       assert (drop (Z.to_nat req_off) (concat reqs) = []) as Hnil by (destruct (drop _ _); [done | cbn in Hn; lia]).
       assert (req_off = 0) as ->.
       { destruct Hd as [? | (d & rest & -> & Hlt)]; [done |]. cbn [concat] in Hnil.
         apply (f_equal length) in Hnil. rewrite length_drop, length_app in Hnil. cbn in Hnil. lia. }
       split; [repeat f_equal; lia |]. split; [done |]. split; [by rewrite window_nil, Hnil | done]. }
  destruct reqs as [| d rest]; [destruct Hd as [-> | (? & ? & ? & _)]; [cbn [concat] in Hn; rewrite drop_nil in Hn; cbn in Hn; lia | done] |].
  assert (req_off <= zlen d) as Hod by (destruct Hd as [-> | (? & ? & [= <- <-] & ?)]; lia).
  rewrite mask_wrap_mod. fold rsize. change XENSTORE_RING_SIZE with rsize.
  pose proof (Z.mod_pos_bound P rsize rsize_pos) as Hm.
  set (chunk := Z.min (zlen d - req_off) (rsize - P mod rsize)).
  set (piece := take (Z.to_nat chunk) (drop (Z.to_nat req_off) d)).
  assert (0 <= chunk) as Hc0 by lia.
  assert (zlen piece = chunk) as Hpl by (unfold piece; rewrite length_take, length_drop; lia).
  set (ring1 := ring_put ring (P mod rsize) piece).
  assert (zlen ring1 = rsize) as Hr1 by (unfold ring1; rewrite ring_put_length; lia).
  assert (drop (Z.to_nat req_off) (concat (d :: rest)) = piece ++ drop (Z.to_nat (req_off + chunk)) (concat (d :: rest))) as Hsplit.
  { cbn [concat]. unfold piece. rewrite <- (take_drop (Z.to_nat chunk) (drop (Z.to_nat req_off) (d ++ concat rest))). f_equal.
    - rewrite !drop_app_le by lia. rewrite take_app_le; [done |]. rewrite length_drop. lia.
    - rewrite drop_drop. f_equal. lia. }
  rewrite Hsplit in *. rewrite length_app, Nat2Z.inj_add, Hpl in Hn.
  assert (forall reqs', (length reqs' + (if (rsize <? (P + chunk) mod rsize + (len - (total_off + chunk)))%Z then 1 else 0) < fuel)%nat ->
    forall off, 0 <= off -> (off = 0 \/ exists d rest, reqs' = d :: rest /\ off < zlen d) ->
    drop (Z.to_nat off) (concat reqs') = drop (Z.to_nat (req_off + chunk)) (concat (d :: rest)) ->
    exists ring', xb_copy fuel reqs' off (total_off + chunk) len (wrap32 (wrap32 P + chunk)) ring1 = Done (0, len, wrap32 (P + (len - total_off)), ring') /\
      zlen ring' = rsize /\ window ring_bits ring' P (len - total_off) = piece ++ drop (Z.to_nat (req_off + chunk)) (concat (d :: rest)) /\
      forall c m, 0 <= m -> c + m <= P -> P + (len - total_off) <= c + rsize -> window ring_bits ring' c m = window ring_bits ring c m) as Hnext.
  { intros reqs' Hf' off Hoff Hor E. rewrite wrap_add32.
    destruct (IH reqs' off (total_off + chunk) len (P + chunk) ring1) as (ring' & E' & Hl' & Hw' & Hfr); try done; [rewrite E; lia | lia |].
    exists ring'. replace (P + chunk + (len - (total_off + chunk))) with (P + (len - total_off)) in * by lia.
    split; [done |]. split; [done |]. split.
    - replace (len - total_off) with (chunk + (len - (total_off + chunk))) at 1 by lia. rewrite window_app by lia.
      rewrite Hw', E. f_equal. rewrite Hfr by lia. unfold ring1. rewrite <- Hpl. apply put_window_new; [apply rbits | done | lia].
    - intros c m Hm0 H1 H2. rewrite Hfr by lia. unfold ring1. apply put_window; try done; [apply rbits | lia | lia]. }
  destruct (Z.eqb_spec (req_off + chunk) (zlen d)) as [Hfin | Hmore].
  - apply Hnext; [| lia | by left |].
    + cbn [length] in Hf. destruct (Z.ltb_spec rsize (P mod rsize + (len - total_off))).
      * destruct (_ <? _); lia.
      * destruct (Z.ltb_spec rsize ((P + chunk) mod rsize + (len - (total_off + chunk)))) as [Hbad |]; [| lia]. exfalso.
        rewrite <- Zplus_mod_idemp_l in Hbad. destruct (Z.lt_ge_cases (P mod rsize + chunk) rsize).
        -- rewrite Z.mod_small in Hbad by lia. lia.
        -- assert (P mod rsize + chunk = rsize) as E by lia. rewrite E, Z_mod_same_full in Hbad. lia.
    + cbn [concat drop Z.to_nat]. rewrite drop_app_length'; [done | lia].
  - assert (chunk = rsize - P mod rsize) as Hend by lia. apply Hnext; [| lia | right; exists d, rest; split; [done | lia] | done].
    assert ((P + chunk) mod rsize = 0) as E.
    { rewrite <- Zplus_mod_idemp_l. replace (P mod rsize + chunk) with rsize by lia. apply Z_mod_same_full. }
    rewrite E. destruct (Z.ltb_spec rsize (0 + (len - (total_off + chunk)))); [lia |].
    destruct (Z.ltb_spec rsize (P mod rsize + (len - total_off))) as [| Hbad]; [lia |]. exfalso.
    assert (zlen (drop (Z.to_nat (req_off + chunk)) (concat (d :: rest))) > 0) as Hpos.
    { cbn [concat]. rewrite length_drop, length_app. lia. }
    lia.
Qed.

(** ** A request *)
Definition call_msg (c : call) (id : Z) : message := (SockMsg (c_type c) id (c_trans c) (zlen (concat (c_data c))), concat (c_data c)).
Definition call_len (c : call) : Z := Z.of_nat msg_size + zlen (concat (c_data c)).

Lemma xs_msg_bytes_length (m : message) : zlen (msg_bytes m) = Z.of_nat msg_size + zlen m.2.
Proof. unfold msg_bytes. rewrite length_app, sockmsg_length. lia. Qed.

Lemma xb_write_spec c id ring C P :
  zlen ring = rsize -> 0 <= C <= P -> P <= C + rsize -> call_len c <= rsize -> P + call_len c < 2 ^ 32 -> C + rsize < 2 ^ 32 ->
  if rsize <? P + call_len c - C then xenbus_xb_write (c_type c) id (c_trans c) (c_data c) ring C P = Done None
  else exists ring', xenbus_xb_write (c_type c) id (c_trans c) (c_data c) ring C P = Done (Some (ring', P + call_len c)) /\
    zlen ring' = rsize /\ window ring_bits ring' C (P + call_len c - C) = window ring_bits ring C (P - C) ++ msg_bytes (call_msg c id).
Proof.
  intros Hr HC HP Hlen Hw HCw. unfold xenbus_xb_write. change XENSTORE_RING_SIZE with rsize.
  replace (zlen (concat (c_data c)) + Z.of_nat msg_size) with (call_len c) by (unfold call_len; lia).
  destruct (Z.ltb_spec rsize (call_len c)); [lia |].
  pose proof msg_size_ok as [Hms _]. assert (0 < call_len c) by (unfold call_len; lia).
  assert (forall z, 0 <= z < 2 ^ 32 -> wrap32 z = z) as Hsm by (intros; by apply Z.mod_small).
  rewrite (Hsm (P + call_len c - C)) by lia. destruct (Z.ltb_spec rsize (P + call_len c - C)); [done |].
  set (m := SockMsg _ _ _ _).
  destruct (xb_copy_spec (length (c_data c) + 3) (sockmsg_bytes m :: c_data c) 0 0 (call_len c) P ring) as (ring' & E & Hl & Hwin & Hfr);
    try done; [by left | | lia | cbn [length]; destruct (_ <? _); lia |].
  { cbn [concat]. rewrite drop_0, length_app, sockmsg_length. unfold call_len. lia. }
  rewrite (Hsm P) in E by lia. rewrite E, Done_bind. rewrite !Z.sub_0_r in *. rewrite !Z.eqb_refl. cbn [negb Z.eqb].
  rewrite (Hsm (C + rsize)), (Hsm (P + call_len c)) by lia. destruct (Z.ltb_spec (C + rsize) (P + call_len c)); [lia |].
  exists ring'. split; [done |]. split; [done |]. replace (P + call_len c - C) with (P - C + call_len c) by lia.
  rewrite window_app by lia. rewrite Hfr by lia. f_equal. replace (C + (P - C)) with P by lia. rewrite Hwin. change (Z.to_nat 0) with 0%nat. by rewrite drop_0.
Qed.

(** ** Putting bytes on the other ring *)
Lemma ring_write_spec bs : forall r P, zlen r = rsize -> zlen bs <= rsize ->
  zlen (ring_write P bs r) = rsize /\ window ring_bits (ring_write P bs r) P (zlen bs) = bs /\
  forall c m, 0 <= m -> c + m <= P -> P + zlen bs <= c + rsize -> window ring_bits (ring_write P bs r) c m = window ring_bits r c m.
Proof.
  pose proof rsize_pos as Hs. induction bs as [| b bs IH]; intros r P Hr Hl; cbn [ring_write length] in *; [done |].
  change XENSTORE_RING_SIZE with rsize. pose proof (Z.mod_pos_bound P rsize Hs) as Hm.
  assert (zlen (ring_put r (P mod rsize) [b]) = rsize) as Hr1 by (rewrite ring_put_length; cbn [length]; lia).
  destruct (IH (ring_put r (P mod rsize) [b]) (P + 1) Hr1) as (H1 & H2 & H3); [lia |]. split; [done |]. split.
  - replace (Z.of_nat (S (length bs))) with (1 + zlen bs) by lia. rewrite window_app by lia. rewrite H2, H3 by lia.
    change 1 with (zlen [b]) at 1. rewrite put_window_new; [done | apply rbits | done | cbn [length]; lia].
  - intros c m Hm0 Hc1 Hc2. rewrite H3 by lia. apply put_window; try done; [apply rbits | cbn [length]; lia..].
Qed.

(** ** Request numbers *)
Definition is_free (o : option nat) : bool := match o with None => true | Some _ => false end.

Lemma all_used probe info : length info = 32%nat -> 0 < count is_free info ->
  (forall i, 0 <= i < 32 -> exists n, info !! Z.to_nat ((probe + i) mod 32) = Some (Some n)) -> False.
Proof.
  intros Hl Hc Hu. destruct (count_exists _ _ Hc) as (i & x & Hi & Hx). pose proof (lookup_lt_Some _ _ _ Hi) as Hlt.
  destruct (Hu ((Z.of_nat i - probe) mod 32)) as [n Hn]; [apply Z.mod_pos_bound; lia |].
  rewrite Zplus_mod_idemp_r in Hn. replace (probe + (Z.of_nat i - probe)) with (Z.of_nat i) in Hn by lia.
  rewrite Z.mod_small, Nat2Z.id in Hn by lia. rewrite Hi in Hn. by injection Hn as ->.
Qed.

Lemma id_probe_spec fuel : forall j probe info, length info = 32%nat -> 0 <= probe < 32 -> 0 <= j -> Z.of_nat fuel + j = 32 ->
  (forall i, 0 <= i < j -> exists n, info !! Z.to_nat ((probe + i) mod 32) = Some (Some n)) ->
  0 < count is_free info ->
  exists o, id_probe fuel ((probe + j) mod 32) probe info = Done o /\ 0 <= o < 32 /\ info !! Z.to_nat o = Some None.
Proof.
  induction fuel as [| fuel IH]; intros j probe info Hl Hp Hj Hf Hu Hc.
  - exfalso. apply (all_used probe info); [done | done |]. intros i Hi. apply Hu. lia.
  - cbn [id_probe]. pose proof (Z.mod_pos_bound (probe + j) 32 ltac:(lia)) as Hm.
    destruct (lookup_lt_is_Some_2 info (Z.to_nat ((probe + j) mod 32))) as [[n |] Hi]; [lia | |].
    + rewrite Hi, of_option_Some, Done_bind. change NR_REQS with 32. rewrite Zplus_mod_idemp_l.
      assert (forall i, 0 <= i < j + 1 -> exists n, info !! Z.to_nat ((probe + i) mod 32) = Some (Some n)) as Hu'.
      { intros i Hi'. destruct (decide (i = j)) as [-> |]; [by exists n | apply Hu; lia]. }
      destruct (Z.eqb_spec ((probe + j + 1) mod 32) probe) as [Hw | Hw].
      * exfalso. assert (j + 1 = 32) as Hj1.
        { destruct (Z.lt_ge_cases (j + 1) 32); [| lia]. exfalso. destruct (Z.lt_ge_cases (probe + (j + 1)) 32).
          - rewrite Z.mod_small in Hw by lia. lia.
          - rewrite <- (Z_mod_plus_full _ (-1)), Z.mod_small in Hw by lia. lia. }
        apply (all_used probe info); [done | done |]. intros i Hi'. apply Hu'. lia.
      * rewrite <- Z.add_assoc. apply IH; try done; lia.
    + rewrite Hi, of_option_Some, Done_bind. eauto.
Qed.
End thms.
