(* ===== verification/XenbusSafe.v ===== *)
(** * The store client of the Xen platform: the invariant

    A request is on its way to the store, at the store, or on its way back as
    a reply; all three parts together are [outs].  A step moves requests from
    one part to the next. *)

From S2P Require Import Prelude Count Mem Cstring StringThms SpWire XenRing Xenbus XenbusThms.

Section safe.
Context `{W : XenWire}.
Local Abbreviation rsize := (2 ^ ring_bits).

(** What the store has put, or is about to put, on the ring. *)
Inductive resp :=
  | RReply (k : nat) (q a : message)
  | REvent (path token : list Z).
Definition res_msg (r : resp) : message := match r with RReply _ _ a => a | REvent path token => event_msg path token end.
Definition res_out (r : resp) : option (nat * message) := match r with RReply k q _ => Some (k, q) | REvent _ _ => None end.
Definition res_event (r : resp) : option (list Z * list Z) := match r with RReply _ _ _ => None | REvent p t => Some (p, t) end.

Definition cid (p : cpc) : option Z := match p with CSend id | CAwait id _ => Some id | _ => None end.
Definition was_sent (p : cpc) : bool := match p with CAwait _ _ | CDone _ => true | _ => false end.

(** The [k]-th request sent is [q], of a call that waits for its reply. *)
Definition awaits (s : xb) (x : nat * message) : Prop :=
  exists n c, sent s !! x.1 = Some n /\ calls s !! n = Some c /\ c_pc c = CAwait (m_req_id x.2.1) None /\ x.2 = call_msg c (m_req_id x.2.1).

Definition str_ok (l : list Z) : Prop := Forall (fun b => 0 < b < 256) l.

(** The tokens in use: no two of them differ first in the last byte of one, on
    which [bmk_strcmp] gives a wrong result. *)
Context (tokens : list (list Z)).
Definition tokens_ok : Prop :=
  forall s t, s ∈ tokens -> t ∈ tokens -> str_ok s /\ length s <> S (common s t).

Definition res_ok (s : xb) (r : resp) : Prop :=
  match r with
  | RReply k q a =>
      (k, (q, a)) ∈ s_answered (xstore s) /\ m_req_id a.1 = m_req_id q.1 /\ sockmsg_ok a.1 /\ m_len a.1 = zlen a.2 /\ m_type a.1 <> XS_WATCH_EVENT
  | REvent path token => str_ok path /\ token ∈ tokens /\ sockmsg_ok (event_msg path token).1
  end.

(** The queue of the first watch with the token. *)
Fixpoint watch_for (token : list Z) (l : list (list Z * nat)) : option nat :=
  match l with
  | [] => None
  | (t, q) :: l => if decide (t = token) then Some q else watch_for token l
  end.
(** Where an event belongs that was read while there were these watches. *)
Definition routed (x : (list Z * list Z) * list (list Z * nat)) : option (nat * (list Z * list Z)) :=
  (fun q => (q, x.1)) <$> watch_for x.1.2 x.2.
Definition of_queue (q : nat) (l : list (nat * (list Z * list Z))) : list (nat * (list Z * list Z)) := filter (fun x => x.1 = q) l.

Definition call_ok (c : call) : Prop := u32 (c_type c) /\ u32 (c_trans c) /\ call_len c <= rsize.

(** The parts, and the indices of the ring of replies before they wrap. *)
Record parts := Parts { p_strm : list (nat * message); p_infl : list resp; p_C : Z; p_P : Z }.
Definition outs (s : xb) (p : parts) : list (nat * message) := p_strm p ++ s_pend (xstore s) ++ omap res_out (p_infl p).

Record xinv (s : xb) (p : parts) : Prop := XInv {
  x_req : zlen (req s) = rsize /\ 0 <= req_cons s <= req_prod s /\ req_prod s <= req_cons s + rsize;
  x_in : s_in (xstore s) ++ window ring_bits (req s) (req_cons s) (req_prod s - req_cons s) = concat (msg_bytes <$> (p_strm p).*2);
  x_strm : (p_strm p).*1 = seq (s_seen (xstore s)) (length (sent s) - s_seen (xstore s)) /\ (s_seen (xstore s) <= length (sent s))%nat;
  x_rsp : zlen (rsp s) = rsize /\ rsp_cons s = wrap32 (p_C p) /\ rsp_prod s = wrap32 (p_P p) /\ p_C p <= p_P p <= p_C p + rsize;
  x_out : window ring_bits (rsp s) (p_C p) (p_P p - p_C p) ++ s_out (xstore s) = concat (msg_bytes <$> (res_msg <$> p_infl p));
  x_infl : Forall (res_ok s) (p_infl p);
  x_events : (received s).*1 ++ omap res_event (p_infl p) = s_events (xstore s);
  x_queues : forall q, of_queue q (taken s ++ queues s) = of_queue q (omap routed (received s));
  x_outs : NoDup (outs s p).*1 /\ Forall (awaits s) (outs s p);
  x_ids : length (req_info s) = 32%nat /\ 0 <= probe s < 32 /\ nr_live_reqs s + count is_free (req_info s) = 32;
  x_owner : forall n c id, calls s !! n = Some c -> cid (c_pc c) = Some id -> 0 <= id < 32 /\ req_info s !! Z.to_nat id = Some (Some n);
  x_sent : NoDup (sent s) /\ Forall (fun n => (n < length (calls s))%nat) (sent s) /\
    forall n c, calls s !! n = Some c -> was_sent (c_pc c) = bool_decide (n ∈ sent s);
  x_done : forall n c rep, calls s !! n = Some c -> c_pc c = CDone rep \/ c_pc c = CAwait (m_req_id rep.1) (Some rep) ->
    exists k, sent s !! k = Some n /\ (k, (call_msg c (m_req_id rep.1), rep)) ∈ s_answered (xstore s);
  x_rep : forall n c id rep, calls s !! n = Some c -> c_pc c = CAwait id (Some rep) -> m_req_id rep.1 = id;
  x_ans : NoDup ((s_answered (xstore s)).*1 ++ (s_pend (xstore s)).*1) /\
    Forall (fun k => (k < s_seen (xstore s))%nat) ((s_answered (xstore s)).*1 ++ (s_pend (xstore s)).*1);
  x_calls : Forall call_ok (calls s);
  x_watches : Forall (fun w => w.1 ∈ tokens) (watches s)
}.

(** ** Reading a message *)

Lemma event_msg_len path token : m_len (event_msg path token).1 = zlen (event_msg path token).2.
Proof. done. Qed.

(** The first message of a byte stream, from a part of the stream. *)
Lemma stream_head (m : message) (rest l l' : list Z) : sockmsg_ok m.1 -> m_len m.1 = zlen m.2 ->
  l ++ l' = msg_bytes m ++ rest -> Z.of_nat msg_size <= zlen l ->
  sockmsg_of (take msg_size l) = m.1 /\
  (Z.of_nat msg_size + m_len m.1 <= zlen l ->
     take (msg_size + length m.2) l = msg_bytes m /\ drop (msg_size + length m.2) l ++ l' = rest).
Proof.
  intros Hok Hlen E Hl. pose proof (sockmsg_length m.1) as Hs. unfold msg_bytes in *. split.
  - rewrite <- (sockmsg_roundtrip m.1 Hok). f_equal. apply (f_equal (take msg_size)) in E.
    rewrite take_app_le in E by lia. rewrite E, <- app_assoc, take_app_length' by done. done.
  - intros Hfull. split.
    + apply (f_equal (take (msg_size + length m.2))) in E. rewrite take_app_le in E by lia. rewrite E.
      rewrite take_app_length'; [done |]. rewrite length_app. lia.
    + apply (f_equal (drop (msg_size + length m.2))) in E. rewrite drop_app_le in E by lia. rewrite E.
      rewrite drop_app_length'; [done |]. rewrite length_app. lia.
Qed.

Lemma split_str_spec l r : str_ok l -> split_str (l ++ 0 :: r) = Some (l, r).
Proof.
  intros Hl. induction Hl as [| b l Hb _ IH]; [done |]. cbn. destruct (Z.eqb_spec b 0); [lia |]. by rewrite IH.
Qed.

Lemma call_msg_ok c id : call_ok c -> 0 <= id < 32 -> sockmsg_ok (call_msg c id).1.
Proof.
  intros (H1 & H2 & H3) Hid. unfold call_len in H3. pose proof rsize_small. unfold sockmsg_ok, u32 in *. cbn. lia.
Qed.

(** ** Steps that leave the requests alone *)

Lemma awaits_mono s s' x : awaits s x ->
  (forall n c id, calls s !! n = Some c -> c_pc c = CAwait id None -> sent s !! x.1 = Some n -> calls s' !! n = Some c) ->
  (forall n, sent s !! x.1 = Some n -> sent s' !! x.1 = Some n) -> awaits s' x.
Proof. intros (n & c & H1 & H2 & H3 & H4) Hc Hs. exists n, c. eauto 6. Qed.

(** Requests that have only moved. *)
Lemma outs_moved s s' p p' : xinv s p -> outs s' p' ≡ₚ outs s p -> calls s' = calls s -> sent s' = sent s ->
  NoDup (outs s' p').*1 /\ Forall (awaits s') (outs s' p').
Proof.
  intros Hi Hp Ec Es. destruct (x_outs s p Hi) as [Hn Hf]. split; [by rewrite Hp |]. rewrite Hp.
  eapply Forall_impl; [exact Hf |]. intros x Hx. unfold awaits in *. by rewrite Ec, Es.
Qed.

(** ** The store *)
Lemma in_used_eq s p : xinv s p -> in_used s = req_prod s - req_cons s.
Proof.
  intros Hi. destruct (x_req s p Hi) as (_ & H1 & H2). pose proof rsize_small. unfold in_used. apply Z.mod_small. lia.
Qed.
Lemma out_used_eq s p : xinv s p -> out_used s = p_P p - p_C p.
Proof.
  intros Hi. destruct (x_rsp s p Hi) as (_ & E1 & E2 & H). pose proof rsize_small. pose proof rsize_pos. unfold out_used.
  rewrite E1, E2. apply wrap_diff32. lia.
Qed.

Lemma take_inv k s p : xinv s p -> req_prod s < 2 ^ 32 -> xinv (store_take k s) p.
Proof.
  intros Hi Hb. pose proof (in_used_eq s p Hi) as Hu. unfold store_take. rewrite Hu.
  set (d := Z.min (Z.of_nat k) (req_prod s - req_cons s)). pose proof Hi as [(H1 & H1' & H1'') H2 H3 H4 H5 H6 H7 HQ H8 H9 H10 H11 H12 H13 H14 H15 H16].
  assert (0 <= d <= req_prod s - req_cons s) as Hd by lia.
  assert (wrap32 (req_cons s + d) = req_cons s + d) as Ew by (apply Z.mod_small; lia).
  split; try done; cbn; rewrite ?Ew.
  - split; [done | lia].
  - rewrite <- app_assoc, <- H2. f_equal. replace (req_prod s - req_cons s) with (d + (req_prod s - (req_cons s + d))) by lia.
    by rewrite window_app by lia.
Qed.

Lemma parse_inv s p : xinv s p -> exists p', xinv (store_parse s) p'.
Proof.
  intros Hi. unfold store_parse. destruct (Z.ltb_spec (zlen (s_in (xstore s))) (Z.of_nat msg_size)) as [| Hl]; [by exists p |]. cbn [orb].
  pose proof Hi as [H1 H2 [H3 H3'] H4 H5 H6 H7 HQ [H8 H8'] H9 H10 H11 H12 H13 [H14 H14'] H15 H16].
  destruct (p_strm p) as [| [k m] strm] eqn:Es.
  { exfalso. cbn in H2. apply app_nil in H2 as [H2 _]. rewrite H2 in Hl. cbn in Hl. pose proof msg_size_ok. lia. }
  cbn in H2. assert (awaits s (k, m)) as (n & c & Hn & Hc & Hpc & Hm).
  { unfold outs in H8'. rewrite Es in H8'. by inversion H8'. }
  cbn [fst snd] in *. pose proof (proj1 (Forall_forall _ _) H15) as H15f.
  destruct (H10 n c (m_req_id m.1) Hc) as [Hid _]; [by rewrite Hpc |].
  assert (sockmsg_ok m.1) as Hok. { rewrite Hm. apply call_msg_ok; [apply H15f, list_elem_of_lookup; eauto | done]. }
  assert (m_len m.1 = zlen m.2) as Hlen by (by rewrite Hm).
  destruct (stream_head m _ _ _ Hok Hlen H2 Hl) as [Eh Ef]. rewrite Eh.
  destruct (Z.ltb_spec (zlen (s_in (xstore s))) (Z.of_nat msg_size + m_len m.1)) as [| Hfull]; [by exists p |].
  destruct (Ef Hfull) as [Et Ed]. replace (Z.to_nat (m_len m.1)) with (length m.2) by lia. rewrite Et.
  assert (drop msg_size (msg_bytes m) = m.2) as ->.
  { unfold msg_bytes. by rewrite drop_app_length' by (by rewrite sockmsg_length). }
  replace (m.1, m.2) with m by (by destruct m).
  assert (k = s_seen (xstore s) /\ strm.*1 = seq (S (s_seen (xstore s))) (length (sent s) - S (s_seen (xstore s))) /\
    (S (s_seen (xstore s)) <= length (sent s))%nat) as (-> & Hstrm & Hlt).
  { cbn in H3. destruct (length (sent s) - s_seen (xstore s))%nat as [| j] eqn:Ej; [done |]. cbn in H3. injection H3 as -> H3.
    split; [done |]. split; [rewrite H3; f_equal; lia | lia]. }
  exists (Parts strm (p_infl p) (p_C p) (p_P p)). split; try done.
  - apply (outs_moved s _ p); [done | | done | done]. unfold outs. rewrite Es. cbn.
    rewrite <- !app_assoc. cbn. by rewrite <- !Permutation_middle.
  - cbn. rewrite fmap_app. cbn. split.
    + rewrite app_assoc. apply NoDup_app. split; [done |]. split; [| apply NoDup_singleton].
      intros x Hx ->%list_elem_of_singleton. rewrite Forall_forall in H14'. specialize (H14' _ Hx). lia.
    + rewrite app_assoc. apply Forall_app. split; [eapply Forall_impl; [exact H14' |]; intros x Hx; cbn in Hx; lia | constructor; [lia | constructor]].
Qed.

Lemma answer_inv j type payload s p : xinv s p -> u32 type -> type <> XS_WATCH_EVENT -> u32 (zlen payload) ->
  exists p', xinv (store_answer j type payload s) p'.
Proof.
  intros Hi Ht Hnw Hpl. unfold store_answer. destruct (s_pend (xstore s) !! j) as [[k [m d]] |] eqn:Ej; [| by exists p].
  pose proof Hi as [H1 H2 H3 H4 H5 H6 H7 HQ [H8 H8'] H9 H10 H11 H12 H13 [H14 H14'] H15 H16].
  set (a := (SockMsg type (m_req_id m) (m_tx_id m) (zlen payload), payload)).
  assert (Hdel : s_pend (xstore s) ≡ₚ (k, (m, d)) :: delete j (s_pend (xstore s))) by (by apply delete_Permutation).
  assert (awaits s (k, (m, d))) as (n & c & Hn & Hc & Hpc & Hm).
  { rewrite Forall_forall in H8'. apply H8'. unfold outs. rewrite !elem_of_app. right. left. apply list_elem_of_lookup. by exists j. }
  cbn [fst snd] in *. pose proof (proj1 (Forall_forall _ _) H15) as H15f.
  destruct (H10 n c (m_req_id m) Hc) as [Hid _]; [by rewrite Hpc |].
  destruct (H15f c) as (_ & Htr & _); [apply list_elem_of_lookup; eauto |].
  exists (Parts (p_strm p) (p_infl p ++ [RReply k (m, d) a]) (p_C p) (p_P p)). split; try done.
  - cbn. rewrite !fmap_app, concat_app. cbn. rewrite app_nil_r, app_assoc, H5. done.
  - cbn [p_infl]. apply Forall_app. split.
    + eapply Forall_impl; [exact H6 |]. intros []; cbn; [| done]. intros (Hx & ?). split; [by apply elem_of_app; left | done].
    + constructor; [| constructor]. cbn. split; [apply elem_of_app; right; by left |]. split; [done |]. split; [| done].
      unfold sockmsg_ok, u32 in *. cbn. assert (m_tx_id m = c_trans c) as -> by (by apply (f_equal (fun q : message => m_tx_id q.1)) in Hm).
      repeat split; lia.
  - cbn [p_infl]. rewrite omap_app. cbn. by rewrite app_nil_r.
  - apply (outs_moved s _ p); [done | | done | done]. unfold outs. cbn. rewrite omap_app.
    apply Permutation_app_head. etrans; [| apply Permutation_app_tail; symmetry; exact Hdel]. cbn.
    rewrite app_assoc. by rewrite <- Permutation_cons_append.
  - cbn. intros n' c' rep' Hc' Hr. destruct (H12 n' c' rep' Hc' Hr) as (k' & ? & ?). exists k'. split; [done |]. apply elem_of_app. by left.
  - assert ((s_answered (xstore s) ++ [(k, ((m, d), a))]).*1 ++ (delete j (s_pend (xstore s))).*1 ≡ₚ
      (s_answered (xstore s)).*1 ++ (s_pend (xstore s)).*1) as Hperm.
    { rewrite fmap_app. cbn. rewrite <- app_assoc. apply Permutation_app_head. symmetry. exact (fmap_Permutation fst _ _ Hdel). }
    cbn. by rewrite Hperm.
Qed.

Lemma fire_inv path token s p : xinv s p -> str_ok path -> token ∈ tokens -> u32 (zlen path + zlen token + 2) -> exists p', xinv (store_fire path token s) p'.
Proof.
  intros Hi Hp Ht Hl. pose proof Hi as [H1 H2 H3 H4 H5 H6 H7 HQ [H8 H8'] H9 H10 H11 H12 H13 H14 H15 H16].
  exists (Parts (p_strm p) (p_infl p ++ [REvent path token]) (p_C p) (p_P p)). split; try done.
  - cbn. rewrite !fmap_app, concat_app. cbn. rewrite app_nil_r, app_assoc, H5. done.
  - cbn [p_infl]. apply Forall_app. split; [done |]. constructor; [| constructor]. cbn. split; [done |]. split; [done |].
    pose proof watch_event_ok. unfold sockmsg_ok, u32 in *. cbn. rewrite !length_app. cbn. rewrite length_app. cbn. lia.
  - cbn [p_infl]. rewrite omap_app. cbn. rewrite <- H7. by rewrite app_assoc.
  - apply (outs_moved s _ p); [done | | done | done]. unfold outs. cbn. rewrite omap_app. cbn. by rewrite app_nil_r.
Qed.

Lemma ring_write_ext bs : forall r P P', P mod rsize = P' mod rsize -> ring_write P bs r = ring_write P' bs r.
Proof.
  induction bs as [| b bs IH]; intros r P P' E; [done |]. cbn. change XENSTORE_RING_SIZE with rsize. rewrite E. apply IH.
  by rewrite <- Zplus_mod_idemp_l, E, Zplus_mod_idemp_l.
Qed.

Lemma put_inv k s p : xinv s p -> exists p', xinv (store_put k s) p'.
Proof.
  intros Hi. unfold store_put. rewrite (out_used_eq s p Hi). change XENSTORE_RING_SIZE with rsize.
  set (d := Z.min (Z.min (Z.of_nat k) (zlen (s_out (xstore s)))) (rsize - (p_P p - p_C p))).
  pose proof Hi as [H1 H2 H3 (H4 & E1 & E2 & H4') H5 H6 H7 HQ [H8 H8'] H9 H10 H11 H12 H13 H14 H15 H16].
  assert (0 <= d <= zlen (s_out (xstore s)) /\ d <= rsize - (p_P p - p_C p)) as [Hd Hd'] by lia.
  set (bs := take (Z.to_nat d) (s_out (xstore s))). assert (zlen bs = d) as Hbs by (unfold bs; rewrite length_take; lia).
  assert (ring_write (rsp_prod s) bs (rsp s) = ring_write (p_P p) bs (rsp s)) as ->.
  { rewrite E2. apply ring_write_ext, wrap_mod, rbits. }
  destruct (ring_write_spec bs (rsp s) (p_P p) H4) as (R1 & R2 & R3); [lia |].
  exists (Parts (p_strm p) (p_infl p) (p_C p) (p_P p + d)). split; try done.
  - cbn. split; [done |]. split; [done |]. split; [rewrite E2; by rewrite wrap_add32 | lia].
  - cbn. replace (p_P p + d - p_C p) with (p_P p - p_C p + d) by lia. rewrite window_app by lia. rewrite R3 by lia.
    replace (p_C p + (p_P p - p_C p)) with (p_P p) by lia. rewrite <- Hbs at 1. rewrite R2, <- app_assoc. unfold bs. by rewrite take_drop.
Qed.

(** ** The guest *)
Lemma set_call_lookup n q s n' c' : calls (set_call n q s) !! n' = Some c' ->
  (n' = n /\ exists c, calls s !! n = Some c /\ c' = set_cpc q c) \/ (n' <> n /\ calls s !! n' = Some c').
Proof.
  cbn. destruct (decide (n' = n)) as [-> | Hne].
  - rewrite list_lookup_alter_eq. intros (c & Hc & ->)%fmap_Some. left. split; [done |]. by exists c.
  - rewrite list_lookup_alter_ne by done. by right.
Qed.
Lemma set_call_same n q s c : calls s !! n = Some c -> calls (set_call n q s) !! n = Some (set_cpc q c).
Proof. intros H. cbn. by rewrite list_lookup_alter_eq, H. Qed.
Lemma set_call_other n q s n' : n' <> n -> calls (set_call n q s) !! n' = calls s !! n'.
Proof. intros H. cbn. by rewrite list_lookup_alter_ne by done. Qed.
Lemma call_ok_alter n q s : Forall call_ok (calls s) -> Forall call_ok (calls (set_call n q s)).
Proof. intros H. cbn. apply Forall_alter; [done |]. intros c Hc Hok. exact Hok. Qed.

Lemma new_call_inv type trans data s p : xinv s p -> call_ok (Call type trans data CAlloc) ->
  xinv (set_calls (calls s ++ [Call type trans data CAlloc]) (sent s) s) p.
Proof.
  intros Hi Hok. pose proof Hi as [H1 H2 H3 H4 H5 H6 H7 HQ [H8 H8'] H9 H10 (H11 & H11' & H11'') H12 H13 H14 H15 H16].
  assert (forall n c, (calls s ++ [Call type trans data CAlloc]) !! n = Some c ->
    calls s !! n = Some c \/ n = length (calls s) /\ c = Call type trans data CAlloc) as Hlk.
  { intros n c [? | [Hge Hx]]%lookup_app_Some; [by left | right]. apply list_lookup_singleton_Some in Hx as [? <-]. split; [lia | done]. }
  split; try done; cbn.
  - split; [done |]. eapply Forall_impl; [exact H8' |]. intros x Hx. apply (awaits_mono s); [done | | done].
    intros n c id Hc _ _. cbn. by apply lookup_app_l_Some.
  - intros n c id [Hc | [-> ->]]%Hlk; [by apply H10 | done].
  - split; [done |]. split; [eapply Forall_impl; [exact H11' |]; intros n Hn; cbn in *; rewrite length_app; lia |].
    intros n c [Hc | [-> ->]]%Hlk; [by apply H11'' |]. cbn. symmetry. apply bool_decide_eq_false. intros Hin.
    rewrite Forall_forall in H11'. specialize (H11' _ Hin). cbn in H11'. lia.
  - intros n c rep [Hc | [-> ->]]%Hlk Hr; [by apply (H12 n) | by destruct Hr].
  - intros n c id rep [Hc | [-> ->]]%Hlk Hr; [by apply (H13 n c) | done].
  - apply Forall_app. split; [done |]. by constructor.
Qed.

(** A call goes on without sending. *)
Lemma call_step s p n c q info nl pr : xinv s p -> calls s !! n = Some c -> (forall id, c_pc c <> CAwait id None) ->
  was_sent q = was_sent (c_pc c) ->
  length info = 32%nat /\ 0 <= pr < 32 /\ nl + count is_free info = 32 ->
  (forall n' c' id, n' <> n -> calls s !! n' = Some c' -> cid (c_pc c') = Some id -> info !! Z.to_nat id = req_info s !! Z.to_nat id) ->
  (forall id, cid q = Some id -> 0 <= id < 32 /\ info !! Z.to_nat id = Some (Some n)) ->
  match q with CDone rep => c_pc c = CAwait (m_req_id rep.1) (Some rep) | CSend _ => True | _ => False end ->
  xinv (set_call n q (set_ids info nl pr s)) p.
Proof.
  intros Hi Hc Hna Hws Hids Hown Hq Hrep. pose proof Hi as [H1 H2 H3 H4 H5 H6 H7 HQ [H8 H8'] H9 H10 (H11 & H11' & H11'') H12 H13 H14 H15 H16].
  split; try done.
  - split; [done |]. eapply Forall_impl; [exact H8' |]. intros x Hx. apply (awaits_mono s); [done | | done].
    intros n' c' id Hc' Hp _. rewrite set_call_other; [done |]. intros ->. rewrite Hc in Hc'. injection Hc' as ->. by apply (Hna id).
  - intros n' c' id [(-> & c0 & Hc0 & ->) | [Hne Hc']]%set_call_lookup Hid; [by apply Hq |].
    destruct (H10 n' c' id Hc' Hid) as [? E]. split; [done |]. cbn. by rewrite (Hown n' c' id).
  - split; [done |]. split; [cbn; by rewrite length_alter |].
    intros n' c' [(-> & c0 & Hc0 & ->) | [Hne Hc']]%set_call_lookup; [| by apply H11'']. cbn [c_pc set_cpc]. rewrite Hws. by apply H11''.
  - intros n' c' rep [(-> & c0 & Hc0 & ->) | [Hne Hc']]%set_call_lookup Hr; [| by apply (H12 n')].
    cbn [set_ids calls] in Hc0. rewrite Hc in Hc0. injection Hc0 as <-. cbn [c_pc set_cpc] in Hr.
    destruct Hr as [-> | ->]; [| done]. destruct (H12 n c rep Hc (or_intror Hrep)) as (k & ? & ?). exists k. done.
  - intros n' c' id rep [(-> & c0 & Hc0 & ->) | [Hne Hc']]%set_call_lookup Hr; [| by apply (H13 n' c')]. cbn in Hr. by subst q.
  - by apply call_ok_alter.
Qed.

Lemma alloc_inv s p n c : xinv s p -> calls s !! n = Some c -> c_pc c = CAlloc ->
  exists s', xenbus_msg_reply n s = Done s' /\ xinv s' p.
Proof.
  intros Hi Hc Hpc. destruct (x_ids s p Hi) as (I1 & I2 & I3). unfold xenbus_msg_reply. rewrite Hc, of_option_Some, Done_bind, Hpc.
  unfold xenbus_id_allocate. change NR_REQS with 32. destruct (Z.ltb_spec (nr_live_reqs s) 32); [| rewrite Done_bind; eauto].
  destruct (id_probe_spec 32 0 (probe s) (req_info s)) as (o & E & Ho & Hfree); try done; [lia | lia |].
  rewrite Z.add_0_r, Z.mod_small in E by lia. change (Z.to_nat 32) with 32%nat. rewrite E, !Done_bind. eexists. split; [done |].
  apply (call_step s p n c); try done.
  - by rewrite Hpc.
  - by rewrite Hpc.
  - split; [by rewrite length_insert |]. split; [apply Z.mod_pos_bound; lia |]. rewrite (count_insert _ _ _ None) by done. cbn. lia.
  - intros n' c' id Hne Hc' Hid. destruct (x_owner s p Hi n' c' id Hc' Hid) as [Hr Hx].
    rewrite list_lookup_insert_ne; [done |]. intros E'. rewrite E' in Hfree. congruence.
  - intros id [= <-]. split; [done |]. apply list_lookup_insert_eq. lia.
Qed.

Lemma done_inv s p n c id rep : xinv s p -> calls s !! n = Some c -> c_pc c = CAwait id (Some rep) ->
  exists s', xenbus_msg_reply n s = Done s' /\ xinv s' p.
Proof.
  intros Hi Hc Hpc. destruct (x_ids s p Hi) as (I1 & I2 & I3). unfold xenbus_msg_reply. rewrite Hc, of_option_Some, Done_bind, Hpc.
  rewrite (x_rep s p Hi n c id rep Hc Hpc), Z.eqb_refl. cbn [negb]. unfold xenbus_id_release.
  destruct (x_owner s p Hi n c id Hc) as [Hid Hx]; [by rewrite Hpc |]. rewrite Hx, of_option_Some, !Done_bind.
  eexists. split; [done |]. apply (call_step s p n c); try done.
  - by rewrite Hpc.
  - by rewrite Hpc.
  - split; [by rewrite length_insert |]. split; [done |]. rewrite (count_insert _ _ _ (Some n)) by done. cbn. lia.
  - intros n' c' id' Hne Hc' Hid'. destruct (x_owner s p Hi n' c' id' Hc' Hid') as [Hr Hx'].
    rewrite list_lookup_insert_ne; [done |]. intros E'. rewrite E' in Hx. congruence.
  - cbn. by rewrite (x_rep s p Hi n c id rep Hc Hpc).
Qed.

Lemma send_inv s p n c id : xinv s p -> calls s !! n = Some c -> c_pc c = CSend id -> req_prod s + call_len c + rsize < 2 ^ 32 ->
  exists s' p', xenbus_msg_reply n s = Done s' /\ xinv s' p'.
Proof.
  intros Hi Hc Hpc Hb. pose proof Hi as [(R1 & R2 & R3) H2 [H3 H3'] H4 H5 H6 H7 HQ [H8 H8'] H9 H10 (H11 & H11' & H11'') H12 H13 H14 H15 H16].
  unfold xenbus_msg_reply. rewrite Hc, of_option_Some, Done_bind, Hpc.
  destruct (proj1 (Forall_forall _ _) H15 c) as (_ & _ & Hlen); [apply list_elem_of_lookup; eauto |].
  pose proof msg_size_ok. assert (0 < call_len c) by (unfold call_len; lia).
  pose proof (xb_write_spec c id (req s) (req_cons s) (req_prod s) R1 R2 R3 Hlen ltac:(lia) ltac:(lia)) as Hw.
  destruct (Z.ltb_spec rsize (req_prod s + call_len c - req_cons s)); [rewrite Hw, Done_bind; eauto |].
  destruct Hw as (ring' & -> & Hl & Hwin). rewrite Done_bind.
  set (x := (length (sent s), call_msg c id)).
  assert (n ∉ sent s) as Hns.
  { pose proof (H11'' n c Hc) as Hx. rewrite Hpc in Hx. cbn in Hx. symmetry in Hx. by apply bool_decide_eq_false in Hx. }
  eexists _, (Parts (p_strm p ++ [x]) (p_infl p) (p_C p) (p_P p)). split; [done |].
  split; try done.
  - cbn. split; [done | lia].
  - cbn. rewrite !fmap_app, concat_app. cbn. rewrite app_nil_r, <- H2, Hwin. by rewrite app_assoc.
  - cbn. rewrite fmap_app, H3, length_app. cbn. split; [| lia].
    replace (length (sent s) + 1 - s_seen (xstore s))%nat with (length (sent s) - s_seen (xstore s) + 1)%nat by lia.
    rewrite seq_app. cbn. do 2 f_equal. lia.
  - assert (forall y, awaits s y -> y.1 <> length (sent s)) as Hlt.
    { intros y (n' & c' & Hn' & _) E. rewrite E in Hn'. apply lookup_lt_Some in Hn'. lia. }
    set (s' := set_calls _ _ _).
    assert (outs s' (Parts (p_strm p ++ [x]) (p_infl p) (p_C p) (p_P p)) ≡ₚ x :: outs s p) as Hperm.
    { unfold outs. cbn. rewrite <- app_assoc. cbn. by rewrite <- Permutation_middle. }
    split; rewrite Hperm.
    + cbn. constructor; [| done]. intros (y & E & Hy)%list_elem_of_fmap. rewrite Forall_forall in H8'. by apply (Hlt y (H8' y Hy)).
    + constructor.
      * exists n, (set_cpc (CAwait id None) c). split; [unfold s'; cbn; apply list_lookup_middle; done |]. split; [by apply set_call_same | done].
      * eapply Forall_impl; [exact H8' |]. intros y Hy. apply (awaits_mono s); [done | |].
        -- intros n' c' id' Hc' Hp' _. change (calls s') with (calls (set_call n (CAwait id None) (set_req ring' (req_cons s) (req_prod s + call_len c) s))).
           rewrite set_call_other; [done |]. intros ->. rewrite Hc in Hc'. injection Hc' as <-. congruence.
        -- intros n' Hn'. cbn. by apply lookup_app_l_Some.
  - intros n' c' id' [(-> & c0 & Hc0 & ->) | [Hne Hc']]%set_call_lookup Hid; [| by apply (H10 n' c')].
    cbn in Hc0. rewrite Hc in Hc0. injection Hc0 as <-. apply (H10 n c); [done |]. rewrite Hpc. done.
  - cbn. split; [apply NoDup_app; split; [done |]; split; [| apply NoDup_singleton]; intros y Hy ->%list_elem_of_singleton; done |].
    split; [rewrite length_alter; apply Forall_app; split; [done |]; constructor; [by eapply lookup_lt_Some | constructor] |].
    intros n' c' Hc'. change (alter (set_cpc (CAwait id None)) n (calls s)) with (calls (set_call n (CAwait id None) s)) in Hc'.
    apply set_call_lookup in Hc' as [(-> & c0 & Hc0 & ->) | [Hne Hc']].
    + symmetry. apply bool_decide_eq_true. apply elem_of_app. right. by left.
    + rewrite (H11'' n' c' Hc'). apply bool_decide_ext. rewrite elem_of_app, list_elem_of_singleton. tauto.
  - intros n' c' rep [(-> & c0 & Hc0 & ->) | [Hne Hc']]%set_call_lookup Hr; [by destruct Hr |].
    destruct (H12 n' c' rep Hc' Hr) as (k & ? & ?). exists k. split; [| done]. cbn. by apply lookup_app_l_Some.
  - intros n' c' id' rep [(-> & c0 & Hc0 & ->) | [Hne Hc']]%set_call_lookup Hr; [done | by apply (H13 n' c')].
  - by apply (call_ok_alter n _ s).
Qed.

Lemma token_cmp_ok t tok : tokens_ok -> t ∈ tokens -> tok ∈ tokens -> exists r, token_cmp t tok = Done r /\ (r = 0 <-> t = tok).
Proof.
  intros Hok Ht Htok. destruct (Hok t tok Ht Htok) as [S1 Hne], (Hok tok tok Htok Htok) as [S2 _]. unfold token_cmp.
  set (m := mem_write _ _ _).
  assert (cstr_at m 0 t) as C1.
  { split; [done |]. apply (bytes_at_ext (mem_write ∅ 0 (t ++ [0]))); [| apply bytes_at_write].
    intros a Ha. unfold m. apply mem_write_out. left. rewrite length_app in Ha. cbn in Ha. lia. }
  assert (cstr_at m (zlen t + 2) tok) as C2 by (split; [done | apply bytes_at_write]).
  destruct (bmk_strcmp_correct m 0 (zlen t + 2) t tok C1 C2 Hne) as (r & E & _ & Hr). eauto.
Qed.

Lemma find_watch_ok tok l : tokens_ok -> tok ∈ tokens -> Forall (fun w : list Z * nat => w.1 ∈ tokens) l ->
  find_watch tok l = Done (watch_for tok l) /\
  exists l', watch_remove tok l = Done l' /\ Forall (fun w : list Z * nat => w.1 ∈ tokens) l'.
Proof.
  intros Hok Ht Hl. induction Hl as [| [t q] l Hx Hl [IH1 (l' & IH2 & IH3)]]; [cbn; eauto |].
  destruct (token_cmp_ok t tok Hok Hx Ht) as (r & E & Hr). cbn [find_watch watch_for watch_remove]. rewrite E, !Done_bind. destruct (Z.eqb_spec r 0) as [E0 | E0].
  - rewrite decide_True by (by apply Hr). eauto.
  - rewrite decide_False by (intros Et; by apply E0, Hr). rewrite IH2, Done_bind. split; [done |]. exists ((t, q) :: l'). split; [done | by constructor].
Qed.

Lemma remove_event_spec q l : match remove_event q l with
  | (Some e, l') => of_queue q l = (q, e) :: of_queue q l' /\ forall q', q' <> q -> of_queue q' l' = of_queue q' l
  | (None, _) => True
  end.
Proof.
  unfold of_queue. induction l as [| [q1 e1] l IH]; cbn [remove_event]; [done |]. case_bool_decide as E.
  - subst q1. split; [by rewrite filter_cons_True |]. intros q' Hne. by rewrite filter_cons_False by (cbn; congruence).
  - destruct (remove_event q l) as [[e |] l']; [| done]. destruct IH as [IH1 IH2]. split.
    + rewrite !filter_cons_False by done. done.
    + intros q' Hne. rewrite !filter_cons. rewrite IH2 by done. done.
Qed.

Lemma wait_for_watch_inv q s p : xinv s p -> xinv (wait_for_watch q s) p.
Proof.
  intros Hi. unfold wait_for_watch. pose proof (remove_event_spec q (queues s)) as Hr. destruct (remove_event q (queues s)) as [[e |] l']; [| done].
  destruct Hr as [Hr1 Hr2]. destruct Hi as [H1 H2 H3 H4 H5 H6 H7 HQ H8 H9 H10 H11 H12 H13 H14 H15 H16]. split; try done. intros q'. cbn [received taken queues set_queues]. rewrite <- HQ. unfold of_queue in *.
  rewrite !filter_app. destruct (decide (q' = q)) as [-> | Hne].
  - rewrite Hr1, filter_cons_True, filter_nil, <- app_assoc by done. done.
  - rewrite Hr2, filter_cons_False, filter_nil, app_nil_r by (try done; cbn; congruence). done.
Qed.

(** ** The thread *)

(** The first message that the store has put on the ring, or not yet. *)
Lemma infl_head s p r rest : xinv s p -> p_infl p = r :: rest ->
  sockmsg_ok (res_msg r).1 /\ m_len (res_msg r).1 = zlen (res_msg r).2 /\
  window ring_bits (rsp s) (p_C p) (p_P p - p_C p) ++ s_out (xstore s) = msg_bytes (res_msg r) ++ concat (msg_bytes <$> (res_msg <$> rest)).
Proof.
  intros Hi E. pose proof (x_infl s p Hi) as Hf. rewrite E in Hf. inversion_clear Hf as [| ? ? Hr _].
  pose proof (x_out s p Hi) as Ho. rewrite E in Ho. split; [| split; [| exact Ho]]; destruct r; cbn in *; tauto.
Qed.

(** What the thread reads when it looks for a message. *)
Lemma thread_reads s p : xinv s p -> Z.of_nat msg_size <= p_P p - p_C p ->
  exists r rest, p_infl p = r :: rest /\
    sockmsg_of (memcpy_from_ring ring_bits (rsp s) (MASK_XENSTORE_IDX (rsp_cons s)) (Z.of_nat msg_size)) = (res_msg r).1 /\
    (Z.of_nat msg_size + m_len (res_msg r).1 <= p_P p - p_C p ->
      memcpy_from_ring ring_bits (rsp s) (MASK_XENSTORE_IDX (rsp_cons s)) (m_len (res_msg r).1 + Z.of_nat msg_size) = msg_bytes (res_msg r) /\
      memcpy_from_ring ring_bits (rsp s) (MASK_XENSTORE_IDX (rsp_cons s + Z.of_nat msg_size)) (m_len (res_msg r).1) = (res_msg r).2 /\
      window ring_bits (rsp s) (p_C p + (m_len (res_msg r).1 + Z.of_nat msg_size)) (p_P p - (p_C p + (m_len (res_msg r).1 + Z.of_nat msg_size)))
        ++ s_out (xstore s) = concat (msg_bytes <$> (res_msg <$> rest))).
Proof.
  intros Hi Hge. destruct (x_rsp s p Hi) as (R1 & R2 & R3 & R4). pose proof msg_size_ok as [Hms Hms'].
  destruct (p_infl p) as [| r rest] eqn:E.
  { exfalso. pose proof (x_out s p Hi) as Ho. rewrite E in Ho. cbn in Ho. apply app_nil in Ho as [Ho _].
    apply (f_equal length) in Ho. rewrite window_length in Ho by lia. cbn in Ho. lia. }
  destruct (infl_head s p r rest Hi E) as (Hok & Hlen & Hs). exists r, rest. split; [done |].
  set (w := window ring_bits (rsp s) (p_C p) (p_P p - p_C p)) in *.
  assert (zlen w = p_P p - p_C p) as Hw by (unfold w; rewrite window_length; lia).
  destruct (stream_head (res_msg r) _ w (s_out (xstore s)) Hok Hlen Hs ltac:(lia)) as [Eh Ef].
  assert (forall d, 0 <= d <= p_P p - p_C p -> take (Z.to_nat d) w = window ring_bits (rsp s) (p_C p) d /\
    drop (Z.to_nat d) w = window ring_bits (rsp s) (p_C p + d) (p_P p - (p_C p + d))) as Hcut.
  { intros d Hd. unfold w. replace (p_P p - p_C p) with (d + (p_P p - (p_C p + d))) by lia. rewrite window_app by lia.
    rewrite take_app_length', drop_app_length' by (rewrite window_length; lia). done. }
  rewrite R2. rewrite mask_wrap_mod. rewrite memcpy_from_ring_window by (try apply rbits; lia). split.
  - rewrite <- Eh. f_equal. destruct (Hcut (Z.of_nat msg_size)) as [E1 _]; [lia |]. by rewrite <- E1, Nat2Z.id.
  - intros Hfull. rewrite Hlen in *. destruct (Ef ltac:(lia)) as [Et Ed].
    replace (MASK_XENSTORE_IDX (wrap32 (p_C p) + Z.of_nat msg_size)) with ((p_C p + Z.of_nat msg_size) mod rsize)
      by (rewrite mask_mod, <- Zplus_mod_idemp_l, <- (wrap_mod ring_bits rbits (p_C p)), Zplus_mod_idemp_l; done).
    rewrite !memcpy_from_ring_window by (try apply rbits; lia).
    destruct (Hcut (zlen (res_msg r).2 + Z.of_nat msg_size)) as [E1 E2]; [lia |].
    replace (Z.to_nat (zlen (res_msg r).2 + Z.of_nat msg_size)) with (msg_size + length (res_msg r).2)%nat in * by lia.
    split; [by rewrite <- E1 |]. split; [| by rewrite <- E2].
    assert (drop msg_size (take (msg_size + length (res_msg r).2) w) = (res_msg r).2) as Eb.
    { rewrite Et. unfold msg_bytes. by rewrite drop_app_length' by (by rewrite sockmsg_length). }
    rewrite <- Eb at 2. rewrite E1. replace (zlen (res_msg r).2 + Z.of_nat msg_size) with (Z.of_nat msg_size + zlen (res_msg r).2) by lia.
    rewrite window_app by lia. by rewrite drop_app_length' by (rewrite window_length; lia).
Qed.

Lemma xthread_inv t s p : xinv s p -> xinv (set_xthread t s) p.
Proof. intros []. by split. Qed.

(** The ring without its first message. *)
Lemma rsp_advance s p r rest d : xinv s p -> p_infl p = r :: rest -> 0 <= d <= p_P p - p_C p ->
  window ring_bits (rsp s) (p_C p + d) (p_P p - (p_C p + d)) ++ s_out (xstore s) = concat (msg_bytes <$> (res_msg <$> rest)) ->
  forall s', rsp s' = rsp s -> rsp_cons s' = wrap32 (rsp_cons s + d) -> rsp_prod s' = rsp_prod s -> xstore s' = xstore s ->
  let p' := Parts (p_strm p) rest (p_C p + d) (p_P p) in
  (zlen (rsp s') = rsize /\ rsp_cons s' = wrap32 (p_C p') /\ rsp_prod s' = wrap32 (p_P p') /\ p_C p' <= p_P p' <= p_C p' + rsize) /\
  window ring_bits (rsp s') (p_C p') (p_P p' - p_C p') ++ s_out (xstore s') = concat (msg_bytes <$> (res_msg <$> p_infl p')) /\
  Forall (res_ok s') (p_infl p').
Proof.
  intros Hi E Hd Hw s' E1 E2 E3 E4 p'. destruct (x_rsp s p Hi) as (R1 & R2 & R3 & R4). pose proof (x_infl s p Hi) as Hf. rewrite E in Hf.
  split; [| split]; rewrite ?E1, ?E2, ?E3, ?E4; cbn.
  - split; [done |]. split; [rewrite R2; apply wrap_add32 |]. split; [done | lia].
  - done.
  - inversion_clear Hf as [| ? ? _ Hrest]. eapply Forall_impl; [exact Hrest |]. intros []; cbn; by rewrite ?E4.
Qed.

Lemma event_inv s p path token rest : xinv s p -> p_infl p = REvent path token :: rest ->
  forall d, 0 <= d <= p_P p - p_C p ->
  window ring_bits (rsp s) (p_C p + d) (p_P p - (p_C p + d)) ++ s_out (xstore s) = concat (msg_bytes <$> (res_msg <$> rest)) ->
  xinv (set_queues (queues s ++ match watch_for token (watches s) with Some q => [(q, (path, token))] | None => [] end)
      (received s ++ [((path, token), watches s)]) (taken s) (set_rsp (rsp s) (wrap32 (rsp_cons s + d)) (rsp_prod s) s))
    (Parts (p_strm p) rest (p_C p + d) (p_P p)).
Proof.
  intros Hi E d Hd Hw. set (s' := set_queues _ _ _ _).
  destruct (rsp_advance s p _ rest d Hi E Hd Hw s') as (A1 & A2 & A3); [done.. |].
  pose proof Hi as [H1 H2 H3 H4 H5 H6 H7 HQ [H8 H8'] H9 H10 H11 H12 H13 H14 H15 H16]. split; try done.
  - cbn. rewrite <- H7, E, fmap_app. cbn. by rewrite <- app_assoc.
  - cbn. intros q. unfold of_queue in *. rewrite omap_app, app_assoc, !filter_app. f_equal; [rewrite <- filter_app; apply HQ |].
    cbn. unfold routed. cbn. by destruct (watch_for token (watches s)).
  - assert (outs s' (Parts (p_strm p) rest (p_C p + d) (p_P p)) = outs s p) as Eo by (unfold outs; by rewrite E).
    apply (outs_moved s _ p); [done | by rewrite Eo | done | done].
Qed.

Lemma reply_inv s p k q a rest n c : xinv s p -> p_infl p = RReply k q a :: rest ->
  sent s !! k = Some n -> calls s !! n = Some c -> c_pc c = CAwait (m_req_id q.1) None -> q = call_msg c (m_req_id q.1) ->
  forall d, 0 <= d <= p_P p - p_C p ->
  window ring_bits (rsp s) (p_C p + d) (p_P p - (p_C p + d)) ++ s_out (xstore s) = concat (msg_bytes <$> (res_msg <$> rest)) ->
  xinv (set_call n (CAwait (m_req_id q.1) (Some a)) (set_rsp (rsp s) (wrap32 (rsp_cons s + d)) (rsp_prod s) s))
    (Parts (p_strm p) rest (p_C p + d) (p_P p)).
Proof.
  intros Hi E Hn Hc Hpc Hq d Hd Hw. set (s' := set_call _ _ _).
  destruct (rsp_advance s p _ rest d Hi E Hd Hw s') as (A1 & A2 & A3); [done.. |].
  pose proof Hi as [H1 H2 H3 H4 H5 H6 H7 HQ [H8 H8'] H9 H10 (H11 & H11' & H11'') H12 H13 H14 H15 H16].
  rewrite E in H6. inversion_clear H6 as [| ? ? Hr0 _]. destruct Hr0 as (Hans & Hida & _).
  assert (outs s p ≡ₚ (k, q) :: outs s' (Parts (p_strm p) rest (p_C p + d) (p_P p))) as Hperm.
  { unfold outs. rewrite E. cbn. rewrite <- !Permutation_middle. done. }
  split; try done.
  - cbn. rewrite <- H7, E. done.
  - rewrite Hperm in H8, H8'. cbn [fmap list_fmap fst] in H8. apply NoDup_cons in H8 as [Hk H8]. split; [done |].
    inversion_clear H8' as [| ? ? _ Hf]. rewrite Forall_forall in Hf |- *. intros y Hy. apply (awaits_mono s); [by apply Hf | | done].
    intros n' c' id' Hc' _ Hsn. unfold s'. rewrite set_call_other; [done |]. intros ->. apply Hk.
    assert (y.1 = k) as <- by (by eapply NoDup_lookup). by apply list_elem_of_fmap_2.
  - intros n' c' id' [(-> & c0 & Hc0 & ->) | [Hne Hc']]%set_call_lookup Hid; [| by apply (H10 n' c')].
    apply (H10 n c); [done |]. by rewrite Hpc.
  - split; [done |]. split; [cbn; by rewrite length_alter |].
    intros n' c' [(-> & c0 & Hc0 & ->) | [Hne Hc']]%set_call_lookup; [| by apply H11'']. cbn. rewrite <- (H11'' n c Hc). by rewrite Hpc.
  - intros n' c' rep [(-> & c0 & Hc0 & ->) | [Hne Hc']]%set_call_lookup Hr; [| by apply (H12 n')].
    cbn in Hc0. rewrite Hc in Hc0. injection Hc0 as <-. destruct Hr as [Hr | Hr]; [done |]. cbn in Hr. injection Hr as Hr <-.
    exists k. split; [done |]. rewrite Hida. unfold call_msg in *. cbn [c_type c_trans c_data set_cpc]. by rewrite <- Hq.
  - intros n' c' id' rep [(-> & c0 & Hc0 & ->) | [Hne Hc']]%set_call_lookup Hr; [| by apply (H13 n' c')]. cbn in Hr. by injection Hr as <- <-.
  - by apply call_ok_alter.
Qed.

Lemma thread_inv s p : tokens_ok -> xinv s p -> exists s' p', xenbus_thread_func s = Done s' /\ xinv s' p'.
Proof.
  intros Htok Hi. unfold xenbus_thread_func. destruct (xthread s) as [prod |].
  { destruct (prod =? rsp_prod s); eexists _, p; (split; [done |]); [done | by apply xthread_inv]. }
  fold (out_used s). rewrite (out_used_eq s p Hi).
  destruct (Z.ltb_spec (p_P p - p_C p) (Z.of_nat msg_size)); [eexists _, p; split; [done | by apply xthread_inv] |].
  destruct (thread_reads s p Hi) as (r & rest & E & -> & Hfull); [done |].
  destruct (Z.ltb_spec (p_P p - p_C p) (Z.of_nat msg_size + m_len (res_msg r).1)); [eexists _, p; split; [done | by apply xthread_inv] |].
  destruct (Hfull ltac:(lia)) as (B1 & B2 & B3). clear Hfull. destruct (infl_head s p r rest Hi E) as (Hok & Hlen & _).
  set (d := m_len (res_msg r).1 + Z.of_nat msg_size) in *.
  assert (0 <= d <= p_P p - p_C p) as Hd by (unfold d; lia).
  pose proof (x_infl s p Hi) as Hf. rewrite E in Hf. inversion_clear Hf as [| ? ? Hr _].
  destruct r as [k q a | path token]; cbn [res_msg] in *.
  - destruct Hr as (Hans & Hida & _ & _ & Hnw). destruct (Z.eqb_spec (m_type a.1) XS_WATCH_EVENT); [done |].
    destruct (proj1 (Forall_forall _ _) (proj2 (x_outs s p Hi)) (k, q)) as (n0 & c & Hn & Hc & Hpc & Hq).
    { unfold outs. rewrite E. cbn. set_solver. }
    cbn [fst snd] in *. destruct (x_owner s p Hi n0 c (m_req_id q.1) Hc) as [Hid Hown]; [by rewrite Hpc |].
    rewrite Hida, Hown, of_option_Some, Done_bind, of_option_Some, Done_bind. cbn [calls set_rsp]. rewrite Hc, of_option_Some, Done_bind, Hpc, B1.
    assert ((sockmsg_of (take msg_size (msg_bytes a)), drop msg_size (msg_bytes a)) = a) as ->.
    { unfold msg_bytes. rewrite take_app_length', drop_app_length' by (by rewrite sockmsg_length). rewrite sockmsg_roundtrip by done. by destruct a. }
    eexists _, _. split; [done |]. by eapply reply_inv.
  - destruct Hr as (Hp & Ht & _). change (m_type (event_msg path token).1) with XS_WATCH_EVENT.
    rewrite Z.eqb_refl, B2. cbn [event_msg snd app].
    rewrite split_str_spec, of_option_Some, Done_bind by done.
    rewrite split_str_spec, of_option_Some, Done_bind by (by destruct (Htok token token Ht Ht)).
    destruct (find_watch_ok token (watches s) Htok Ht (x_watches s p Hi)) as [Er _]. cbn [watches set_rsp]. rewrite Er, Done_bind.
    pose proof (event_inv s p path token rest Hi E d Hd B3) as He. destruct (watch_for token (watches s)); eexists _, _; (split; [done |]); [exact He |].
    rewrite app_nil_r in He. exact He.
Qed.

(** ** Runs *)

(** What the guest asks for and what the store does. *)
Definition act_ok (a : xact) : Prop :=
  match a with
  | ACall type trans data => call_ok (Call type trans data CAlloc)
  | AWatch token _ | AUnwatch token => token ∈ tokens
  | SAnswer _ type payload => u32 type /\ type <> XS_WATCH_EVENT /\ u32 (zlen payload)
  | SFire path token => str_ok path /\ token ∈ tokens /\ u32 (zlen path + zlen token + 2)
  | _ => True
  end.

(** Bytes of requests still to be sent. *)
Definition cost (c : call) : Z := if was_sent (c_pc c) then 0 else call_len c.
Fixpoint costs (l : list call) : Z := match l with [] => 0 | c :: l => cost c + costs l end.
Definition act_cost (a : xact) : Z := match a with ACall type trans data => call_len (Call type trans data CAlloc) | _ => 0 end.
Fixpoint act_costs (l : list xact) : Z := match l with [] => 0 | a :: l => act_cost a + act_costs l end.

Lemma cost_pos c : 0 <= cost c.
Proof. unfold cost, call_len. destruct (was_sent _); lia. Qed.
Lemma costs_pos l : 0 <= costs l.
Proof. induction l as [| c l IH]; cbn [costs]; [lia |]. pose proof (cost_pos c). lia. Qed.
Lemma costs_app l1 l2 : costs (l1 ++ l2) = costs l1 + costs l2.
Proof. induction l1 as [| c l1 IH]; cbn [app costs]; lia. Qed.
Lemma costs_alter n c q l : l !! n = Some c -> costs (alter (set_cpc q) n l) = costs l - cost c + cost (set_cpc q c).
Proof.
  revert n. induction l as [| x l IH]; intros [| n] H; [done | done | injection H as ->; cbn [alter list_alter costs]; lia |].
  change (alter (set_cpc q) (S n) (x :: l)) with (x :: alter (set_cpc q) n l). cbn [costs]. rewrite (IH n H). lia.
Qed.
Lemma costs_lookup n c l : l !! n = Some c -> cost c <= costs l.
Proof.
  revert n. induction l as [| x l IH]; intros [| n] H; [done | done | injection H as ->; cbn [costs]; pose proof (costs_pos l); lia |].
  cbn [costs]. specialize (IH n H). pose proof (cost_pos x). lia.
Qed.
Lemma act_costs_pos l : 0 <= act_costs l.
Proof. induction l as [| [] l IH]; cbn [act_costs act_cost]; unfold call_len; lia. Qed.

Lemma costs_set_call n c q s : calls s !! n = Some c -> costs (calls (set_call n q s)) = costs (calls s) - cost c + cost (set_cpc q c).
Proof. apply costs_alter. Qed.

Lemma xb_write_prod type id trans data ring c p ring' p' :
  xenbus_xb_write type id trans data ring c p = Done (Some (ring', p')) -> p' = wrap32 (p + (zlen (concat data) + Z.of_nat msg_size)).
Proof.
  unfold xenbus_xb_write. intros E. destruct (_ <? _); [done |]. destruct (_ <? wrap32 _); [done |].
  destruct (xb_copy _ _ _ _ _ _ _) as [[[[ro to] pr] rg] | |]; [| done..]. rewrite Done_bind in E.
  destruct (negb _); [done |]. destruct (negb _); [done |]. destruct (_ <? pr); [done |]. by injection E as <- <-.
Qed.

(** Sending moves bytes from the calls to the ring. *)
Lemma reply_budget n s s' : 0 <= req_prod s -> xenbus_msg_reply n s = Done s' ->
  req_prod s' + costs (calls s') <= req_prod s + costs (calls s).
Proof.
  unfold xenbus_msg_reply. intros Hp E. destruct (calls s !! n) as [c |] eqn:Hc; [| done]. rewrite of_option_Some, Done_bind in E.
  assert (forall q, costs (alter (set_cpc q) n (calls s)) = costs (calls s) - cost c + cost (set_cpc q c)) as Hcost by (intros; by apply costs_alter).
  destruct (c_pc c) as [| id | id [rep |] | rep] eqn:Hpc; try (by injection E as <-).
  - unfold xenbus_id_allocate in E. destruct (_ <? _); [| by injection E as <-].
    destruct (id_probe _ _ _ _) as [o | |]; [| done..]. rewrite !Done_bind in E. injection E as <-.
    cbn. rewrite Hcost. unfold cost. rewrite Hpc. cbn. unfold call_len. cbn. lia.
  - destruct (xenbus_xb_write _ _ _ _ _ _ _) as [[[ring' p'] |] | |] eqn:Ew; rewrite ?Done_bind in E; try done; injection E as <-; [| done].
    apply xb_write_prod in Ew as ->. cbn. rewrite Hcost. unfold cost. rewrite Hpc. cbn. unfold call_len.
    pose proof (Z.mod_le (req_prod s + (zlen (concat (c_data c)) + Z.of_nat msg_size)) (2 ^ 32) ltac:(lia) ltac:(lia)). unfold wrap32. lia.
  - destruct (negb _); [done |]. unfold xenbus_id_release in E. destruct (req_info s !! Z.to_nat id) as [[m |] |]; try done.
    rewrite of_option_Some, !Done_bind in E. injection E as <-. cbn. rewrite Hcost. unfold cost. rewrite Hpc. cbn. lia.
Qed.

Lemma thread_budget s s' : xenbus_thread_func s = Done s' -> req_prod s' = req_prod s /\ costs (calls s') = costs (calls s).
Proof.
  unfold xenbus_thread_func. intros E. destruct (xthread s); [destruct (_ =? _); by injection E as <- |].
  destruct (_ <? _); [by injection E as <- |]. destruct (_ <? _); [by injection E as <- |].
  destruct (_ =? _).
  - destruct (split_str _) as [[path rest] |]; [| done]. rewrite of_option_Some, Done_bind in E.
    destruct (split_str rest) as [[token rest'] |]; [| done]. rewrite of_option_Some, Done_bind in E.
    destruct (find_watch _ _) as [[q |] | |]; [| | done..]; rewrite Done_bind in E; by injection E as <-.
  - destruct (req_info s !! _) as [[n |] |]; rewrite ?of_option_Some, ?Done_bind in E; [| done | done].
    rewrite ?of_option_Some, ?Done_bind in E. cbn [calls set_rsp] in E.
    destruct (calls s !! n) as [c |] eqn:Hc; [| done]. rewrite of_option_Some, Done_bind in E.
    destruct (c_pc c) as [| | id [|] |] eqn:Hpc; try done. injection E as <-. split; [done |]. cbn.
    rewrite (costs_alter n c) by done. unfold cost. rewrite Hpc. cbn. lia.
Qed.

Lemma step_inv a s p : tokens_ok -> xinv s p -> act_ok a -> req_prod s + costs (calls s) + rsize < 2 ^ 32 ->
  exists s' p', xb_step a s = Done s' /\ xinv s' p' /\ req_prod s' + costs (calls s') <= req_prod s + costs (calls s) + act_cost a.
Proof.
  intros Htok Hi Hok Hb. pose proof (costs_pos (calls s)) as Hcp. pose proof rsize_pos as Hrp.
  destruct (x_req s p Hi) as (_ & Hrq & _).
  destruct a as [type trans data | n | | token q | token | q | k | | j type payload | path token | k]; cbn [xb_step act_cost act_ok] in *.
  - eexists _, p. split; [done |]. split; [by apply new_call_inv |]. cbn. rewrite costs_app. cbn. unfold cost. cbn. lia.
  - destruct (decide (n < length (calls s))%nat) as [Hn |]; [| eexists _, p; split; [done |]; split; [done | lia]].
    destruct (lookup_lt_is_Some_2 _ _ Hn) as [c Hc].
    assert (exists s' p', xenbus_msg_reply n s = Done s' /\ xinv s' p') as (s' & p' & E & Hi').
    { destruct (c_pc c) as [| id | id [rep |] | rep] eqn:Hpc.
      - destruct (alloc_inv s p n c Hi Hc Hpc) as (s' & ? & ?). eauto.
      - pose proof (costs_lookup n c (calls s) Hc) as Hle. unfold cost in Hle. rewrite Hpc in Hle. cbn in Hle.
        apply (send_inv s p n c id); [done | done | done | lia].
      - destruct (done_inv s p n c id rep Hi Hc Hpc) as (s' & ? & ?). eauto.
      - exists s, p. unfold xenbus_msg_reply. by rewrite Hc, of_option_Some, Done_bind, Hpc.
      - exists s, p. unfold xenbus_msg_reply. by rewrite Hc, of_option_Some, Done_bind, Hpc. }
    exists s', p'. split; [done |]. split; [done |]. pose proof (reply_budget n s s' ltac:(lia) E). lia.
  - destruct (thread_inv s p Htok Hi) as (s' & p' & E & Hi'). exists s', p'. split; [done |]. split; [done |].
    destruct (thread_budget s s' E). lia.
  - eexists _, p. split; [done |]. split; [| cbn; lia]. destruct Hi. split; try done. cbn. by constructor.
  - destruct (find_watch_ok token (watches s) Htok Hok (x_watches s p Hi)) as (_ & l' & -> & Hl'). rewrite Done_bind.
    eexists _, p. split; [done |]. split; [| cbn; lia]. destruct Hi. by split.
  - eexists _, p. split; [done |]. split; [by apply wait_for_watch_inv |]. unfold wait_for_watch. destruct (remove_event q (queues s)) as [[|] ?]; cbn; lia.
  - eexists _, p. split; [done |]. split; [apply take_inv; [done | lia] | cbn; lia].
  - destruct (parse_inv s p Hi) as [p' Hi']. eexists _, p'. split; [done |]. split; [done |]. unfold store_parse. destruct (_ || _); cbn; lia.
  - destruct (answer_inv j type payload s p Hi) as [p' Hi']; [tauto.. |]. eexists _, p'. split; [done |]. split; [done |].
    unfold store_answer. destruct (s_pend (xstore s) !! j) as [[k [m d]] |]; cbn; lia.
  - destruct (fire_inv path token s p Hi) as [p' Hi']; [tauto.. |]. eexists _, p'. split; [done |]. split; [done | cbn; lia].
  - destruct (put_inv k s p Hi) as [p' Hi']. eexists _, p'. split; [done |]. split; [done | cbn; lia].
Qed.

Lemma xb_run_inv acts : forall s p, tokens_ok -> xinv s p -> Forall act_ok acts -> req_prod s + costs (calls s) + act_costs acts + rsize < 2 ^ 32 ->
  exists s' p', xb_run acts s = Done s' /\ xinv s' p'.
Proof.
  induction acts as [| a acts IH]; intros s p Htok Hi Hok Hb; [by exists s, p |]. cbn [xb_run act_costs] in *.
  inversion_clear Hok as [| ? ? Ha Hok']. pose proof (act_costs_pos acts).
  assert (0 <= act_cost a) by (destruct a; cbn; unfold call_len; lia).
  destruct (step_inv a s p Htok Hi Ha) as (s1 & p1 & E & Hi1 & Hle); [lia |]. rewrite E, Done_bind.
  apply (IH s1 p1); try done. lia.
Qed.

Lemma xb_init_inv rq rs i j : zlen rq = rsize -> zlen rs = rsize -> u32 i -> u32 j -> xinv (init_xenbus rq rs i j) (Parts [] [] j j).
Proof.
  intros Hq Hs Hi Hj. pose proof rsize_pos. assert (wrap32 j = j) as Ej by (by apply Z.mod_small). unfold u32 in *.
  split; cbn; rewrite ?Ej, ?Z.sub_diag, ?window_nil; try done.
  all: repeat (split; try done; try lia; try constructor).
Qed.
End safe.

(** C38. Every reply gets to its request and every event to its watch.  Suppose
    every request fits on the ring; no two tokens in use differ first in the last
    byte of one of them (there [bmk_strcmp] is wrong); the store answers
    requests it has been sent, and not with the type of an event; and the
    index at the start plus the bytes of all requests plus the size of the
    ring stay below 2^32 (beyond it the last check of [xenbus_xb_write] can
    fail, see [xb_write_wraps]).  Then, whatever the threads, the thread of the
    store client and the store do, in whatever order, and however many
    bytes the store takes and puts at a time, no check fails; every call of
    [xenbus_msg_reply] that has returned has returned the one answer that the
    store has given to the request of that very call; the events are read in
    the order in which the store has reported them; and what has been taken
    from a queue, followed by what is still on it, are exactly the events that
    were read while the first watch with their token had this queue, in their
    order. *)
Theorem xenbus_replies `{W : XenWire} tokens rq rs i j acts :
  zlen rq = 2 ^ ring_bits -> zlen rs = 2 ^ ring_bits -> u32 i -> u32 j -> tokens_ok tokens -> Forall (act_ok tokens) acts ->
  i + act_costs acts + 2 ^ ring_bits < 2 ^ 32 ->
  exists s, xb_run acts (init_xenbus rq rs i j) = Done s /\
    (forall n c rep, calls s !! n = Some c -> c_pc c = CDone rep ->
       exists k, sent s !! k = Some n /\ (k, (call_msg c (m_req_id rep.1), rep)) ∈ s_answered (xstore s)) /\
    NoDup (sent s) /\ NoDup (s_answered (xstore s)).*1 /\
    (exists later, (received s).*1 ++ later = s_events (xstore s)) /\
    (forall q, of_queue q (taken s ++ queues s) = of_queue q (omap routed (received s))).
Proof.
  intros Hq Hs Hi Hj Htok Hok Hb. pose proof (xb_init_inv tokens rq rs i j Hq Hs Hi Hj) as Hinv.
  destruct (xb_run_inv tokens acts _ _ Htok Hinv Hok) as (s & p & E & Hx); [cbn; lia |].
  exists s. split; [exact E |]. split; [| split; [apply Hx | split; [| split; [| apply Hx]]]].
  - intros n c rep Hc Hpc. apply (x_done _ s p Hx n c rep Hc). by left.
  - pose proof (x_ans _ s p Hx) as [Hn _]. by apply NoDup_app in Hn as [? _].
  - exists (omap res_event (p_infl p)). apply (x_events _ s p Hx).
Qed.

(** ** Xen's layout of the messages *)

Definition xs_bytes (h : xsd_sockmsg) : list Z := le_encode 4 (m_type h) ++ le_encode 4 (m_req_id h) ++ le_encode 4 (m_tx_id h) ++ le_encode 4 (m_len h).
Definition xs_of (l : list Z) : xsd_sockmsg :=
  SockMsg (le_decode (take 4 l)) (le_decode (take 4 (drop 4 l))) (le_decode (take 4 (drop 8 l))) (le_decode (take 4 (drop 12 l))).

Lemma xs_roundtrip h : sockmsg_ok h -> xs_of (xs_bytes h) = h.
Proof.
  intros (H1 & H2 & H3 & H4). destruct h as [t i x n]. cbn in *. unfold u32 in *. unfold xs_of, xs_bytes. cbn [m_type m_req_id m_tx_id m_len].
  f_equal; [exact (le_decode_encode 4 t H1) | exact (le_decode_encode 4 i H2) | exact (le_decode_encode 4 x H3) | exact (le_decode_encode 4 n H4)].
Qed.

Local Instance xs_wire : XenWire.
Proof.
  refine {| ring_bits := 10; msg_size := 16; XS_WATCH_EVENT := 15; sockmsg_bytes := xs_bytes; sockmsg_of := xs_of; sockmsg_roundtrip := xs_roundtrip |}.
  - lia.
  - split; [lia | done].
  - unfold u32. lia.
  - done.
Defined.

Definition xs_acts : list xact :=
  [AWatch [49; 65] 7; AWatch [50; 65] 8; ACall 2 0 [[100; 0]]; AStep 0; AStep 0; STake 10; STake 100; SParse; SAnswer 0 2 [118]; SFire [97] [49; 65]; SPut 5; AThread; AThread;
   SPut 100; AThread; AThread; AThread; AThread; AStep 0; AEvent 8; AEvent 7].

Lemma xenbus_replies_witness :
  exists s, xb_run xs_acts (init_xenbus (replicate 1024 0) (replicate 1024 0) 1020 1020) = Done s /\
    taken s = [(7%nat, ([97], [49; 65]))] /\ of_queue 7 (taken s ++ queues s) = of_queue 7 (omap routed (received s)) /\
    exists c, calls s !! 0%nat = Some c /\ c_pc c = CDone (SockMsg 2 0 0 1, [118]) /\
      exists k, sent s !! k = Some 0%nat /\ (k, (call_msg c 0, (SockMsg 2 0 0 1, [118]))) ∈ s_answered (xstore s).
Proof.
  destruct (xenbus_replies [[49; 65]; [50; 65]] (replicate 1024 0) (replicate 1024 0) 1020 1020 xs_acts) as (s & E & H & _ & _ & _ & Hq).
  - reflexivity.
  - reflexivity.
  - unfold u32. lia.
  - unfold u32. lia.
  - intros x t [-> | ->%list_elem_of_singleton]%elem_of_cons [-> | ->%list_elem_of_singleton]%elem_of_cons; (split; [repeat constructor; lia | vm_compute; discriminate]).
  - unfold xs_acts. repeat apply Forall_cons_2; try apply Forall_nil_2; try exact I; cbn; unfold call_ok, u32, call_len; cbn; unfold str_ok; repeat split; (done || lia || (by left) || (by right; left) || (repeat constructor; lia)).
  - reflexivity.
  - exists s. split; [exact E |]. split; [vm_compute in E; injection E as <-; reflexivity |]. split; [apply Hq |].
    assert (exists c, calls s !! 0%nat = Some c /\ c_pc c = CDone (SockMsg 2 0 0 1, [118])) as (c & Hc & Hp).
    { vm_compute in E. injection E as <-. by eexists. }
    exists c. split; [exact Hc |]. split; [exact Hp |]. exact (H 0%nat c _ Hc Hp).
Defined.

(** ** What goes wrong *)

(** The last check of [xenbus_xb_write] compares indices that wrap: when the
    end of the ring has wrapped and the producer has not, it fails although
    the message fits. *)
Theorem xb_write_wraps `{W : XenWire} c id ring C P :
  zlen ring = 2 ^ ring_bits -> 0 <= C <= P -> P + call_len c <= C + 2 ^ ring_bits -> P + call_len c < 2 ^ 32 <= C + 2 ^ ring_bits ->
  xenbus_xb_write (c_type c) id (c_trans c) (c_data c) ring C P =
    Halt "BUG_ON(prod > xenstore_buf->req_cons + XENSTORE_RING_SIZE)".
Proof.
  intros Hr HC Hfit Hw. unfold xenbus_xb_write. change XENSTORE_RING_SIZE with (2 ^ ring_bits). pose proof rsize_small as Hsm.
  replace (zlen (concat (c_data c)) + Z.of_nat msg_size) with (call_len c) by (unfold call_len; lia).
  pose proof msg_size_ok as [Hms _]. assert (0 < call_len c) by (unfold call_len; lia).
  assert (forall z, 0 <= z < 2 ^ 32 -> wrap32 z = z) as Hs by (intros; by apply Z.mod_small).
  destruct (Z.ltb_spec (2 ^ ring_bits) (call_len c)); [lia |]. rewrite (Hs (P + call_len c - C)) by lia.
  destruct (Z.ltb_spec (2 ^ ring_bits) (P + call_len c - C)); [lia |].
  set (m := SockMsg _ _ _ _).
  destruct (xb_copy_spec (length (c_data c) + 3) (sockmsg_bytes m :: c_data c) 0 0 (call_len c) P ring) as (ring' & E & _);
    try done; [by left | | lia | cbn [length]; destruct (_ <? _); lia |].
  { cbn [concat]. rewrite drop_0, length_app, sockmsg_length. unfold call_len. lia. }
  rewrite (Hs P) in E by lia. rewrite E, Done_bind. rewrite !Z.sub_0_r. rewrite !Z.eqb_refl. cbn [negb Z.eqb]. rewrite (Hs (P + call_len c)) by lia.
  assert (wrap32 (C + 2 ^ ring_bits) = C + 2 ^ ring_bits - 2 ^ 32) as ->.
  { unfold wrap32. rewrite <- (Z_mod_plus_full _ (-1)). rewrite Z.mod_small by lia. lia. }
  destruct (Z.ltb_spec (C + 2 ^ ring_bits - 2 ^ 32) (P + call_len c)); [done | lia].
Qed.

(** A reply that does not fit on the ring is never taken from it: the thread
    waits for all of it to be there. *)
Theorem xenbus_long_reply `{W : XenWire} s :
  xthread s = XScan -> wrap32 (rsp_prod s - rsp_cons s) <= 2 ^ ring_bits ->
  2 ^ ring_bits < Z.of_nat msg_size +
    m_len (sockmsg_of (memcpy_from_ring ring_bits (rsp s) (MASK_XENSTORE_IDX (rsp_cons s)) (Z.of_nat msg_size))) ->
  xenbus_thread_func s = Done (set_xthread (XWait (rsp_prod s)) s).
Proof.
  intros Hx Ha Hl. unfold xenbus_thread_func. rewrite Hx. destruct (Z.ltb_spec (wrap32 (rsp_prod s - rsp_cons s)) (Z.of_nat msg_size)); [done |].
  destruct (Z.ltb_spec (wrap32 (rsp_prod s - rsp_cons s)) (Z.of_nat msg_size +
    m_len (sockmsg_of (memcpy_from_ring ring_bits (rsp s) (MASK_XENSTORE_IDX (rsp_cons s)) (Z.of_nat msg_size))))); [done | lia].
Qed.
