(* ===== verification/Multiboot.v ===== *)
(** * Boot information of the hardware platform

    platform/hw/multiboot.c, with bmk_core_init of libbmk_core/init.c and
    intr_init of platform/hw/intr.c: the boot loader leaves a
    [struct multiboot_info] in memory that leads to the modules, the command
    line and a memory map of packed entries.  [multiboot] copies the
    configuration into the kernel image, finds the memory of the machine and
    hands what lies behind the image to the page allocator.

    The memory is the [m_ram] of the malloc state; addresses of objects of the
    kernel image are the fields of an [image]. *)

From S2P Require Import Prelude Mem Cstring Printf PrintfProps PrintfSim PrintfThms.
From S2P Require Import PgBitmap Pgalloc PgGeom PgallocInv PgallocProps PageIface PgallocRun Memalloc SpWire Intr.

Definition MEMSTART : Z := 0x100000.
Definition MULTIBOOT_MEMORY_AVAILABLE : Z := 1.
Definition MULTIBOOT_INFO_MEMORY : Z := 1.
Definition MULTIBOOT_INFO_CMDLINE : Z := 4.
Definition MULTIBOOT_INFO_MODS : Z := 8.
Definition BMK_MULTIBOOT_CMDLINE_SIZE : Z := 4096.
Definition BMK_THREAD_STACK_PAGE_ORDER : Z := 1.

(** The image: [multiboot_cmdline], the two string literals that are printed,
    and [_end]. *)
Record image := Image {
  im_cmdline : Z;
  im_using : Z;
  im_unnamed : Z;
  im_end : Z
}.

Record boot_state := Boot {
  b_malloc : mstate pgstate;
  b_cons : pst;
  b_isr : list (list intrhand);
  bmk_stackpageorder : Z;
  bmk_stacksize : Z;
  bmk_memsize : Z
}.

Definition b_ram (s : boot_state) : mem := m_ram (b_malloc s).
Definition with_bmalloc (m : mstate pgstate) (s : boot_state) : boot_state :=
  Boot m (b_cons s) (b_isr s) (bmk_stackpageorder s) (bmk_stacksize s) (bmk_memsize s).
Definition with_bram (m : mem) (s : boot_state) : boot_state := with_bmalloc (with_ram m (b_malloc s)) s.
Definition with_bcons (p : pst) (s : boot_state) : boot_state :=
  Boot (b_malloc s) p (b_isr s) (bmk_stackpageorder s) (bmk_stacksize s) (bmk_memsize s).
Definition with_memsize (n : Z) (s : boot_state) : boot_state :=
  Boot (b_malloc s) (b_cons s) (b_isr s) (bmk_stackpageorder s) (bmk_stacksize s) n.

(** Printing works on the same memory. *)
Definition print (fmt : Z) (ap : list Z) (s : boot_state) : outcome boot_state :=
  p ← bmk_printf fmt ap (set_pmem (b_ram s) (b_cons s));
  Done (with_bram (p_mem p) (with_bcons p s)).

(** ** Integers in memory *)
Fixpoint load_le (n : nat) (m : mem) (p : Z) : outcome Z :=
  match n with
  | O => Done 0
  | S n => b ← load8 m p; v ← load_le n m (p + 1); Done (b + 256 * v)
  end.
Definition load32 := load_le 4.
Definition load64 := load_le 8.

(** [struct multiboot_info], [struct multiboot_mod_list] and
    [struct multiboot_mmap_entry]: the fields the code reads. *)
Definition mbi_flags (m : mem) (mbi : Z) : outcome Z := load32 m mbi.
Definition mbi_cmdline (m : mem) (mbi : Z) : outcome Z := load32 m (mbi + 16).
Definition mbi_mods_count (m : mem) (mbi : Z) : outcome Z := load32 m (mbi + 20).
Definition mbi_mods_addr (m : mem) (mbi : Z) : outcome Z := load32 m (mbi + 24).
Definition mbi_mmap_length (m : mem) (mbi : Z) : outcome Z := load32 m (mbi + 44).
Definition mbi_mmap_addr (m : mem) (mbi : Z) : outcome Z := load32 m (mbi + 48).
Definition mod_start (m : mem) (mbm : Z) : outcome Z := load32 m mbm.
Definition mod_end (m : mem) (mbm : Z) : outcome Z := load32 m (mbm + 4).
Definition mod_cmdline (m : mem) (mbm : Z) : outcome Z := load32 m (mbm + 8).
Definition mm_size (m : mem) (e : Z) : outcome Z := load32 m e.
Definition mm_addr (m : mem) (e : Z) : outcome Z := load64 m (e + 4).
Definition mm_len (m : mem) (e : Z) : outcome Z := load64 m (e + 12).
Definition mm_type (m : mem) (e : Z) : outcome Z := load32 m (e + 20).

(** ** The memory map *)

(** [mbm->addr == MEMSTART && mbm->type == MULTIBOOT_MEMORY_AVAILABLE] *)
Definition mm_ours (m : mem) (mbm : Z) : outcome bool :=
  a ← mm_addr m mbm;
  if a =? MEMSTART then t ← mm_type m mbm; Done (t =? MULTIBOOT_MEMORY_AVAILABLE) else Done false.

(** The entry at which the loop breaks; [None] when it runs off the end. *)
Fixpoint parsemem_loop (fuel : nat) (m : mem) (addr len off : Z) : outcome (option Z) :=
  match fuel with
  | O => Undef "parsemem: out of fuel"
  | S fuel =>
      if off <? len then
        let mbm := wrap32 (addr + off) in
        ours ← mm_ours m mbm;
        if (ours : bool) then Done (Some mbm)
        else sz ← mm_size m mbm; parsemem_loop fuel m addr len (wrap32 (off + (sz + 4)))
      else Done None
  end.

Definition parsemem (img : image) (addr len : Z) (s : boot_state) : outcome boot_state :=
  let m := b_ram s in
  e ← parsemem_loop (S (Z.to_nat len)) m addr len 0;
  match e with
  | None => Halt "multiboot memory chunk not found"
  | Some mbm =>
      let osend := bmk_round_page (im_end img) in
      a ← mm_addr m mbm;
      l ← mm_len m mbm;
      _ ← bmk_assert ((a <? osend) && (osend <? wadd a l)) "osend > mbm->addr && osend < mbm->addr + mbm->len";
      pg ← bmk_pgalloc_loadmem (m_pages (b_malloc s)) osend (wadd a l);
      Done (with_memsize (wsub (wadd a l) osend) (with_bmalloc (with_pages pg (b_malloc s)) s))
  end.

(** ** Initialisation of the other components *)

Definition bmk_core_init (stackpageorder : Z) (s : boot_state) : outcome boot_state :=
  m ← bmk_memalloc_init (b_malloc s);
  Done (Boot m (b_cons s) (b_isr s) stackpageorder (Z.shiftl 1 stackpageorder * BMK_PCPU_PAGE_SIZE) (bmk_memsize s)).

(** [ok] is whether the interrupt thread could be created. *)
Definition intr_init (ok : bool) (s : boot_state) : outcome boot_state :=
  let s := Boot (b_malloc s) (b_cons s) (replicate INTR_LEVELS []) (bmk_stackpageorder s) (bmk_stacksize s) (bmk_memsize s) in
  if ok then Done s else Halt "intr_init".

Definition toolong : string := "command line too long, increase BMK_MULTIBOOT_CMDLINE_SIZE".

(** ** The entry point *)

(** The configuration from the first module; the result is [cmdline], 0 for
    NULL. *)
Definition module_config (img : image) (mbi flags : Z) (s : boot_state) : outcome (Z * boot_state) :=
  let m := b_ram s in
  count ← mbi_mods_count m mbi;
  mbm ← mbi_mods_addr m mbi;
  if negb (Z.land flags MULTIBOOT_INFO_MODS =? 0) && (1 <=? count) && negb (mbm =? 0) then
    name ← mod_cmdline m mbm;
    start ← mod_start m mbm;
    fin ← mod_end m mbm;
    let cmdlinelen := wrap32 (fin - start) in
    if BMK_MULTIBOOT_CMDLINE_SIZE - 1 <=? cmdlinelen then Halt toolong else
    s ← print (im_using img) [if name =? 0 then im_unnamed img else name] s;
    '(_, m) ← bmk_memcpy (b_ram s) (im_cmdline img) start cmdlinelen;
    m ← store8 m (im_cmdline img + cmdlinelen) 0;
    Done (start, with_bram m s)
  else Done (0, s).

(** The command line, when there is no module. *)
Definition cmdline_config (img : image) (mbi flags cmdline : Z) (s : boot_state) : outcome (Z * boot_state) :=
  if (cmdline =? 0) && negb (Z.land flags MULTIBOOT_INFO_CMDLINE =? 0) then
    cmdline ← mbi_cmdline (b_ram s) mbi;
    cmdlinelen ← bmk_strlen (b_ram s) cmdline;
    if BMK_MULTIBOOT_CMDLINE_SIZE <=? cmdlinelen then Halt toolong else
    '(_, m) ← bmk_strcpy (b_ram s) (im_cmdline img) cmdline;
    Done (cmdline, with_bram m s)
  else Done (cmdline, s).

(** All of it: [multiboot_cmdline] holds the configuration afterwards. *)
Definition configure (img : image) (mbi : Z) (s : boot_state) : outcome boot_state :=
  flags ← mbi_flags (b_ram s) mbi;
  '(cmdline, s) ← module_config img mbi flags s;
  flags ← mbi_flags (b_ram s) mbi;
  '(cmdline, s) ← cmdline_config img mbi flags cmdline s;
  if cmdline =? 0 then m ← store8 (b_ram s) (im_cmdline img) 0; Done (with_bram m s) else Done s.

Definition multiboot (img : image) (isr_ok : bool) (mbi : Z) (s : boot_state) : outcome boot_state :=
  s ← bmk_core_init BMK_THREAD_STACK_PAGE_ORDER s;
  s ← configure img mbi s;
  flags ← mbi_flags (b_ram s) mbi;
  if Z.land flags MULTIBOOT_INFO_MEMORY =? 0 then Halt "multiboot memory info not available" else
  addr ← mbi_mmap_addr (b_ram s) mbi;
  len ← mbi_mmap_length (b_ram s) mbi;
  s ← parsemem img addr len s;
  intr_init isr_ok s.

(** ** What the boot loader passes

    [bootinfo] is the content of the structures, without addresses. *)
Record mmap_entry := MmapEntry { me_size : Z; me_addr : Z; me_len : Z; me_type : Z }.
Record bmodule := BModule { md_name : option (list Z); md_data : list Z }.
Record bootinfo := BootInfo {
  bi_module : option bmodule;
  bi_cmdline : option (list Z);
  bi_map : option (list mmap_entry)
}.

(** The configuration: the first module, else the command line, else
    nothing. *)
Definition boot_config (b : bootinfo) : outcome (list Z) :=
  match bi_module b, bi_cmdline b with
  | Some md, _ => if BMK_MULTIBOOT_CMDLINE_SIZE - 1 <=? Z.of_nat (length (md_data md)) then Halt toolong else Done (md_data md)
  | None, Some s => if BMK_MULTIBOOT_CMDLINE_SIZE <=? Z.of_nat (length s) then Halt toolong else Done s
  | None, None => Done []
  end.

Definition me_ours (e : mmap_entry) : bool := (me_addr e =? MEMSTART) && (me_type e =? MULTIBOOT_MEMORY_AVAILABLE).

(** The memory: from the end of the image to the end of the first available
    chunk that starts at [MEMSTART].  A chunk that ends inside the page right
    behind the image is accepted, and the page allocator then runs over its
    bitmap. *)
Definition boot_memory (osend : Z) (b : bootinfo) : outcome (Z * Z) :=
  match bi_map b with
  | None => Halt "multiboot memory info not available"
  | Some es =>
      match List.find me_ours es with
      | None => Halt "multiboot memory chunk not found"
      | Some e =>
          let top := me_addr e + me_len e in
          _ ← bmk_assert ((me_addr e <? osend) && (osend <? top)) "osend > mbm->addr && osend < mbm->addr + mbm->len";
          if top <? osend + BMK_PCPU_PAGE_SIZE then Undef "alloc_bitmap" else Done (osend, top)
      end
  end.

Definition boot_spec (osend : Z) (isr_ok : bool) (b : bootinfo) : outcome (list Z * (Z * Z)) :=
  cfg ← boot_config b;
  range ← boot_memory osend b;
  if isr_ok then Done (cfg, range) else Halt "intr_init".

(** ** Printing a string

    A format with one "%s" prints the text before it, the string, and the
    text after it, and leaves the memory alone. *)
Record printed_to (s s' : pst) (l : list Z) : Prop := {
  pt_out : p_out s' = p_out s ++ l;
  pt_mem : p_mem s' = p_mem s;
  pt_putc : v_putc s' = v_putc s;
  pt_flush : v_flush s' = v_flush s;
  pt_dmesg : dmesg_ok s'
}.

Lemma printed_to_trans s1 s2 s3 l1 l2 : printed_to s1 s2 l1 -> printed_to s2 s3 l2 -> printed_to s1 s3 (l1 ++ l2).
Proof. intros [] []. split; try congruence. by rewrite app_assoc; congruence. Qed.

Lemma printed_to_hooked s s' l : hooked s -> printed_to s s' l -> hooked s'.
Proof. intros [f Hf] H. exists f. by rewrite (pt_putc _ _ _ H). Qed.

Lemma printed_to_nil s : dmesg_ok s -> printed_to s s [].
Proof. split; try done. by rewrite app_nil_r. Qed.

Lemma putchar_console c s : hooked s -> dmesg_ok s -> exists s', KPRINTF_PUTCHAR console c s = Done s' /\ printed_to s s' [c].
Proof.
  intros [f Hf] Hd. unfold KPRINTF_PUTCHAR. change (oflags console =? TOBUFONLY) with false. cbv iota.
  unfold cons_putchar. unfold dmesg_ok in Hd. rewrite (proj2 (andb_true_iff _ _)) by lia. cbn [negb]. cbv zeta.
  rewrite Hf. eexists. split; [reflexivity |]. split; cbn; try done. unfold dmesg_ok. cbn [bmk_dmesgoff].
  destruct (Z.eqb_spec (bmk_dmesgoff s + 1) (BMK_DMESG_SIZE - 1)); [unfold BMK_DMESG_SIZE |]; lia.
Qed.

(** Characters of a format that stand for themselves. *)
Definition plain (c : Z) : Prop := 0 < c < 128 /\ c <> 37.

Lemma rdchar_at m p c : m !! p = Some c -> rdchar m p = Done (schar c).
Proof. intros H. unfold rdchar. by rewrite (load8_Some _ _ _ H). Qed.

Lemma schar_small c : 0 <= c < 128 -> schar c = c.
Proof. intros H. unfold schar. by rewrite (proj2 (Z.ltb_lt c 128)) by lia. Qed.

Lemma as_int_small x : - 2 ^ 31 <= x < 2 ^ 31 -> as_int x = Done x.
Proof. intros H. unfold as_int, int_ok. by rewrite (proj2 (Z.leb_le _ _)), (proj2 (Z.ltb_lt _ _)) by lia. Qed.

Lemma kp_literal_plain l : forall fuel fmt ret s c, hooked s -> dmesg_ok s -> Forall plain l ->
  bytes_at (p_mem s) fmt (l ++ [c]) -> c = 37 \/ c = 0 -> (length l < fuel)%nat -> 0 <= ret -> ret + Z.of_nat (length l) < 2 ^ 31 ->
  exists s', kp_literal fuel console fmt ret s = Done (fmt + Z.of_nat (length l), ret + Z.of_nat (length l), s') /\ printed_to s s' l.
Proof.
  induction l as [| b l IH]; intros fuel fmt ret s c Hh Hd Hl Hb Hc Hf Hr Hi; (destruct fuel as [| fuel]; [cbn in Hf; lia |]);
    cbn [app bytes_at length] in *; destruct Hb as [Hb0 Hb].
  - exists s. rewrite (kp_literal_stop _ _ _ _ _ _ (rdchar_at _ _ _ Hb0)) by (destruct Hc as [-> | ->]; done).
    rewrite !Z.add_0_r. split; [done | by apply printed_to_nil].
  - apply Forall_cons in Hl as [[Hb1 Hb2] Hl]. cbn [kp_literal]. rewrite (rdchar_at _ _ _ Hb0), Done_bind, schar_small by lia.
    rewrite (proj2 (Z.eqb_neq b 37)), (proj2 (Z.eqb_neq b 0)) by lia. cbn [orb]. rewrite as_int_small, Done_bind by lia.
    destruct (putchar_console b s Hh Hd) as (s1 & -> & P1). rewrite Done_bind.
    destruct (IH fuel (fmt + 1) (ret + 1) s1 c) as (s' & E & P2);
      [by eapply printed_to_hooked | apply P1 | done | by rewrite (pt_mem _ _ _ P1) | done | lia.. |].
    exists s'. split; [rewrite E; do 2 f_equal; f_equal; lia | by apply (printed_to_trans _ _ _ [b] l P1)].
Qed.

Lemma put_mem_console l : forall cp s, hooked s -> dmesg_ok s -> bytes_at (p_mem s) cp l ->
  exists s', put_mem console (length l) cp s = Done s' /\ printed_to s s' (schar <$> l).
Proof.
  induction l as [| b l IH]; intros cp s Hh Hd Hb; cbn [put_mem length].
  - exists s. split; [done | by apply printed_to_nil].
  - destruct Hb as [Hb0 Hb]. rewrite (rdchar_at _ _ _ Hb0), Done_bind.
    destruct (putchar_console (schar b) s Hh Hd) as (s1 & -> & P1). rewrite Done_bind.
    destruct (IH (cp + 1) s1) as (s' & E & P2); [by eapply printed_to_hooked | apply P1 | by rewrite (pt_mem _ _ _ P1) |].
    exists s'. split; [done |]. by apply (printed_to_trans _ _ _ [_] _ P1).
Qed.

(** The field of a "%s" without width and precision. *)
Lemma kp_emit_string n cp ret s : 0 <= n -> 0 <= ret -> ret + n < 2 ^ 31 ->
  kp_emit console 115 0 0 0 0 (InMem cp n) ret s = (s' ← put_mem console (Z.to_nat n) cp s; Done (ret + n, s')).
Proof.
  intros Hn Hr Hi. unfold kp_emit. cbn [text_size]. cbv zeta.
  rewrite (proj2 (Z.ltb_ge n 0)) by lia. change (negb (0 =? 0)) with false. change (fl_has 0 HEXPREFIX) with false. cbv iota.
  rewrite as_int_small, Done_bind by lia. rewrite (proj2 (Z.ltb_ge n 0)) by lia. rewrite as_int_small, Done_bind by lia.
  replace (Z.to_nat (0 - n)) with 0%nat by lia. change (Z.land 0 (Z.lor LADJUST ZEROPAD)) with 0.
  change (0 =? 0) with true. change (0 =? ZEROPAD) with false. change (fl_has 0 LADJUST) with false. cbv iota. cbn [put_n put_text].
  rewrite !Done_bind, (proj2 (Z.ltb_ge n 0)) by lia. by destruct (put_mem _ _ _ _).
Qed.

Lemma kp_flags_s fuel m fmt ap k : kp_flags (S fuel) m fmt 115 ap k = Done (115, k, fmt, ap).
Proof. reflexivity. Qed.

Lemma kp_conv_s m ret cp t : cp <> 0 -> cstr_at m cp t -> Z.of_nat (length t) < 2 ^ 31 ->
  kp_conv m ret 115 (Spec 0 0 (-1) 0) [cp] = Done (CField 115 0 0 0 0 (InMem cp (Z.of_nat (length t))) []).
Proof.
  intros Hcp Ht Hl.
  assert (forall k, kp_conv m ret 115 k [cp] = (t ← kp_string m cp (k_prec k); Done (CField 115 (k_flags k) (k_width k) 0 0 t []))) as -> by reflexivity.
  cbn [k_flags k_width k_prec]. unfold kp_string. rewrite (proj2 (Z.eqb_neq cp 0) Hcp). change (0 <=? -1) with false. cbv iota.
  rewrite (strlen_spec m cp t), !Done_bind by (done || unfold W64; lia). by rewrite s32_small by lia.
Qed.

(** Both ends of the scan: literal text up to a conversion or to the end. *)
Lemma kprintf_loop_plain l fuel fmt ret ap s c : hooked s -> dmesg_ok s -> Forall plain l ->
  bytes_at (p_mem s) fmt (l ++ [c]) -> c = 37 \/ c = 0 -> (length l <= fuel)%nat -> 0 <= ret -> ret + Z.of_nat (length l) < 2 ^ 31 ->
  exists s', printed_to s s' l /\
    kprintf_loop (S fuel) console fmt ret ap s = kprintf_loop (S fuel) console (fmt + Z.of_nat (length l)) (ret + Z.of_nat (length l)) ap s'.
Proof.
  intros Hh Hd Hl Hb Hc Hf Hr Hi.
  destruct (kp_literal_plain l (S fuel) fmt ret s c Hh Hd Hl Hb Hc) as (s' & E & P); [lia.. |].
  exists s'. split; [done |]. apply bytes_at_app in Hb as [_ [Hb _]]. rewrite <- (pt_mem _ _ _ P) in Hb.
  cbn [kprintf_loop]. rewrite E, Done_bind.
  rewrite (kp_literal_stop _ _ _ _ _ _ (rdchar_at _ _ _ Hb)) by (destruct Hc as [-> | ->]; done). by rewrite Done_bind.
Qed.

Lemma bmk_printf_s l1 l2 t fmt cp s : hooked s -> dmesg_ok s -> v_flush s <> Unset ->
  Forall plain l1 -> Forall plain l2 -> bytes_at (p_mem s) fmt (l1 ++ [37; 115] ++ l2 ++ [0]) ->
  cp <> 0 -> cstr_at (p_mem s) cp t -> Z.of_nat (length l1 + length t + length l2) < 2 ^ 31 ->
  exists s', bmk_printf fmt [cp] s = Done s' /\ printed_to (set_sbuf 0 s) s' (l1 ++ (schar <$> t) ++ l2).
Proof.
  intros Hh Hd Hfl Hl1 Hl2 Hb Hcp Ht Hsz. pose proof (mapped_size _ _ _ (bytes_at_mapped _ _ _ Hb)) as Hm.
  rewrite !length_app in Hm. cbn [length] in Hm. unfold bmk_printf, bmk_vprintf, kprintf. change (Dest TOCONS false 0) with console.
  change (p_mem (set_sbuf 0 s)) with (p_mem s). set (s0 := set_sbuf 0 s).
  destruct (size (p_mem s)) as [| [| n]]; [lia.. |].
  assert (bytes_at (p_mem s0) fmt (l1 ++ [37])) as Hb1.
  { change (l1 ++ [37; 115] ++ l2 ++ [0]) with (l1 ++ [37] ++ ([115] ++ l2 ++ [0])) in Hb. rewrite app_assoc in Hb. by apply bytes_at_app in Hb as [Hb _]. }
  destruct (kprintf_loop_plain l1 (S (S (S n))) fmt 0 [cp] s0 37) as (s1 & P1 & ->); try done; [by left | lia.. |].
  apply bytes_at_app in Hb as [_ (Hb37 & Hb115 & Hb)]. rewrite app_nil_l in Hb. set (f1 := fmt + Z.of_nat (length l1)) in *.
  assert (p_mem s1 = p_mem s) as M1 by apply P1.
  destruct (put_mem_console t cp s1) as (s2 & E2 & P2);
    [by apply (printed_to_hooked s0 s1 l1) | apply P1 | rewrite M1; destruct Ht as [_ Ht]; by apply bytes_at_app in Ht as [Ht _] |].
  assert (kp_emit console 115 0 0 0 0 (InMem cp (Z.of_nat (length t))) (0 + Z.of_nat (length l1)) s1
    = Done (0 + Z.of_nat (length l1) + Z.of_nat (length t), s2)) as Ee.
  { rewrite kp_emit_string by lia. by rewrite Nat2Z.id, E2, Done_bind. }
  rewrite <- M1 in Hb37, Hb115, Hb.
  rewrite (kprintf_loop_field _ _ _ _ _ _ _ _ _ _ _ _ _ _ _ _ _ _ _ _ (rdchar_at _ _ _ Hb37) (rdchar_at _ _ _ Hb115)
    (kp_flags_s _ _ _ _ _) (kp_conv_s (p_mem s1) _ _ t Hcp ltac:(by rewrite M1) ltac:(lia)) Ee).
  pose proof (printed_to_trans _ _ _ _ _ P1 P2) as P12. rewrite <- (pt_mem _ _ _ P2) in Hb.
  destruct (kprintf_loop_plain l2 (S (S n)) (f1 + 1 + 1) (0 + Z.of_nat (length l1) + Z.of_nat (length t)) [] s2 0) as (s3 & P3 & ->);
    [by apply (printed_to_hooked s0 s2 _ Hh P12) | apply P2 | done | done | by right | lia.. |].
  pose proof (printed_to_trans _ _ _ _ _ P12 P3) as P. rewrite <- app_assoc in P.
  rewrite kprintf_loop_end.
  - rewrite Done_bind. unfold call_hook. rewrite (pt_flush _ _ _ P). change (v_flush s0) with (v_flush s).
    exists s3. destruct (v_flush s); done.
  - rewrite (pt_mem _ _ _ P3). apply bytes_at_app in Hb as [_ [Hb _]]. by rewrite (rdchar_at _ _ _ Hb).
Qed.

(** ** The structures in memory *)

Definition is_u32 (z : Z) : Prop := 0 <= z < 2 ^ 32.

(** The addresses and flags the structures hold. *)
Record layout := Layout {
  l_flags : Z; l_cmdline : Z; l_count : Z; l_mods : Z; l_mlen : Z; l_maddr : Z;
  l_start : Z; l_name : Z
}.

Definition using_text : list Z := bytes_of "multiboot: Using configuration from ".
Definition unnamed_text : list Z := bytes_of "(unnamed module)".

Record image_at (img : image) (m : mem) : Prop := {
  ia_buf : mapped m (im_cmdline img) (Z.to_nat BMK_MULTIBOOT_CMDLINE_SIZE);
  ia_using : bytes_at m (im_using img) (using_text ++ [37; 115] ++ [10] ++ [0]);
  ia_unnamed : im_unnamed img <> 0 /\ cstr_at m (im_unnamed img) unnamed_text;
  ia_below : im_cmdline img + BMK_MULTIBOOT_CMDLINE_SIZE <= im_end img;
  ia_end : 0 <= im_end img <= 2 ^ 32
}.

(** [n] bytes at [p] do not overlap [multiboot_cmdline]. *)
Definition away (img : image) (p n : Z) : Prop :=
  p + n <= im_cmdline img \/ im_cmdline img + BMK_MULTIBOOT_CMDLINE_SIZE <= p.

Definition info_at (m : mem) (mbi : Z) (l : layout) : Prop :=
  Forall is_u32 [l_flags l; l_cmdline l; l_count l; l_mods l; l_mlen l; l_maddr l] /\
  bytes_at m mbi (le_encode 4 (l_flags l)) /\
  bytes_at m (mbi + 16) (le_encode 4 (l_cmdline l)) /\ bytes_at m (mbi + 20) (le_encode 4 (l_count l)) /\
  bytes_at m (mbi + 24) (le_encode 4 (l_mods l)) /\ bytes_at m (mbi + 44) (le_encode 4 (l_mlen l)) /\
  bytes_at m (mbi + 48) (le_encode 4 (l_maddr l)).

Definition name_at (m : mem) (name : Z) (t : option (list Z)) : Prop :=
  match t with
  | None => name = 0
  | Some t => name <> 0 /\ cstr_at m name t /\ Z.of_nat (length t) < 2 ^ 30
  end.

Definition module_at (img : image) (m : mem) (l : layout) (md : bmodule) : Prop :=
  is_u32 (l_start l) /\ is_u32 (l_start l + Z.of_nat (length (md_data md))) /\ is_u32 (l_name l) /\
  bytes_at m (l_mods l) (le_encode 4 (l_start l)) /\
  bytes_at m (l_mods l + 4) (le_encode 4 (l_start l + Z.of_nat (length (md_data md)))) /\
  bytes_at m (l_mods l + 8) (le_encode 4 (l_name l)) /\
  name_at m (l_name l) (md_name md) /\
  l_start l <> 0 /\ bytes_at m (l_start l) (md_data md) /\ Forall byte (md_data md) /\
  away img (l_start l) (Z.of_nat (length (md_data md))).

(** The entries of the map, each [me_size + 4] bytes after the one before. *)
Definition entry_ok (e : mmap_entry) : Prop :=
  20 <= me_size e /\ is_u32 (me_size e) /\ 0 <= me_addr e /\ 0 <= me_len e /\ me_addr e + me_len e < W64 /\ is_u32 (me_type e).
Definition entry_at (m : mem) (p : Z) (e : mmap_entry) : Prop :=
  bytes_at m p (le_encode 4 (me_size e)) /\ bytes_at m (p + 4) (le_encode 8 (me_addr e)) /\
  bytes_at m (p + 12) (le_encode 8 (me_len e)) /\ bytes_at m (p + 20) (le_encode 4 (me_type e)).
Fixpoint map_at (m : mem) (addr len off : Z) (es : list mmap_entry) : Prop :=
  match es with
  | [] => off = len
  | e :: es => entry_ok e /\ entry_at m (addr + off) e /\ map_at m addr len (off + (me_size e + 4)) es
  end.

Record boot_at (img : image) (m : mem) (mbi : Z) (l : layout) (b : bootinfo) : Prop := {
  ba_info : info_at m mbi l;
  ba_away : away img mbi 52;
  ba_module :
    match bi_module b with
    | Some md => Z.land (l_flags l) MULTIBOOT_INFO_MODS <> 0 /\ 1 <= l_count l /\ l_mods l <> 0 /\ module_at img m l md
    | None => Z.land (l_flags l) MULTIBOOT_INFO_MODS = 0 \/ l_count l = 0 \/ l_mods l = 0
    end;
  ba_cmdline :
    match bi_cmdline b with
    | Some t => Z.land (l_flags l) MULTIBOOT_INFO_CMDLINE <> 0 /\ l_cmdline l <> 0 /\ cstr_at m (l_cmdline l) t /\
        Z.of_nat (length t) < 2 ^ 32 /\ away img (l_cmdline l) (Z.of_nat (S (length t)))
    | None => Z.land (l_flags l) MULTIBOOT_INFO_CMDLINE = 0
    end;
  ba_map :
    match bi_map b with
    | Some es => Z.land (l_flags l) MULTIBOOT_INFO_MEMORY <> 0 /\ map_at m (l_maddr l) (l_mlen l) 0 es /\
        away img (l_maddr l) (l_mlen l) /\ l_maddr l + l_mlen l <= 2 ^ 32
    | None => Z.land (l_flags l) MULTIBOOT_INFO_MEMORY = 0
    end
}.

(** ** Reading them *)

Lemma load_le_encode n : forall m p z, 0 <= z < 256 ^ Z.of_nat n -> bytes_at m p (le_encode n z) -> load_le n m p = Done z.
Proof.
  induction n as [| n IH]; intros m p z Hz Hb; cbn [load_le le_encode bytes_at] in *.
  - change (256 ^ Z.of_nat 0) with 1 in Hz. f_equal. lia.
  - rewrite Nat2Z.inj_succ, Z.pow_succ_r in Hz by lia. destruct Hb as [Hb0 Hb].
    rewrite (load8_Some _ _ _ Hb0), Done_bind, (IH _ _ (z / 256)), Done_bind; [| | done].
    + f_equal. pose proof (Z.div_mod z 256). lia.
    + split; [apply Z.div_pos; lia | apply Z.div_lt_upper_bound; lia].
Qed.

Lemma load32_at m p z : is_u32 z -> bytes_at m p (le_encode 4 z) -> load32 m p = Done z.
Proof. apply (load_le_encode 4). Qed.

Lemma load64_at m p z : u64 z -> bytes_at m p (le_encode 8 z) -> load64 m p = Done z.
Proof. apply (load_le_encode 8). Qed.

Lemma info_fields m mbi l : info_at m mbi l ->
  mbi_flags m mbi = Done (l_flags l) /\ mbi_cmdline m mbi = Done (l_cmdline l) /\ mbi_mods_count m mbi = Done (l_count l) /\
  mbi_mods_addr m mbi = Done (l_mods l) /\ mbi_mmap_length m mbi = Done (l_mlen l) /\ mbi_mmap_addr m mbi = Done (l_maddr l).
Proof.
  intros (Hu & H). rewrite !Forall_cons in Hu. repeat split; apply load32_at; tauto.
Qed.

Lemma entry_fields m p e : entry_ok e -> entry_at m p e ->
  mm_size m p = Done (me_size e) /\ mm_addr m p = Done (me_addr e) /\ mm_len m p = Done (me_len e) /\ mm_ours m p = Done (me_ours e).
Proof.
  intros (H1 & H2 & H3 & H4 & H5 & H6) (B1 & B2 & B3 & B4).
  assert (mm_addr m p = Done (me_addr e)) as Ea by (apply load64_at; [unfold u64; lia | done]).
  repeat split; [by apply load32_at | done | apply load64_at; [unfold u64; lia | done] |].
  unfold mm_ours, me_ours. rewrite Ea, Done_bind. destruct (me_addr e =? MEMSTART); [| done].
  unfold mm_type. by rewrite (load32_at _ _ _ H6 B4).
Qed.

Lemma map_at_le m addr len es : forall off, map_at m addr len off es -> off <= len.
Proof. induction es as [| e es IH]; intros off; cbn [map_at]; [lia |]. intros ((H & _) & _ & H2). apply IH in H2. lia. Qed.

(** A write into [multiboot_cmdline] leaves the rest alone. *)
Section Frame.
  Context (img : image) (m : mem) (w : list Z).
  Hypothesis Hw : Z.of_nat (length w) <= BMK_MULTIBOOT_CMDLINE_SIZE.
Let m' := mem_write m (im_cmdline img) w.

Lemma frame_bytes p l : away img p (Z.of_nat (length l)) -> bytes_at m p l -> bytes_at m' p l.
Proof. intros Ha. apply bytes_at_ext. intros a Hr. apply mem_write_out. unfold away in Ha. lia. Qed.

Lemma frame_int p n z : away img p (Z.of_nat n) -> bytes_at m p (le_encode n z) -> bytes_at m' p (le_encode n z).
Proof. intros Ha. apply frame_bytes. by rewrite le_encode_length. Qed.

Lemma frame_info mbi l : away img mbi 52 -> info_at m mbi l -> info_at m' mbi l.
Proof.
  intros Ha (Hu & H1 & H2 & H3 & H4 & H5 & H6). unfold info_at.
  split; [done |]. split_and!; (apply frame_int; [unfold away in *; cbn; lia | done]).
Qed.

Lemma frame_map addr len es : forall off, away img addr len -> 0 <= off -> map_at m addr len off es -> map_at m' addr len off es.
Proof.
  induction es as [| e es IH]; intros off Ha Ho; cbn [map_at]; [done |]. intros (Hok & (B1 & B2 & B3 & B4) & H).
  pose proof (map_at_le _ _ _ _ _ H). pose proof (proj1 Hok). split; [done |]. split.
  - unfold away in Ha. split_and!; (apply frame_int; [unfold away; lia | done]).
  - apply IH; [done | lia | done].
Qed.
End Frame.

(** ** The memory map *)

Lemma parsemem_loop_spec m addr len es : forall fuel off, is_u32 addr -> addr + len <= 2 ^ 32 -> 0 <= off -> len < 2 ^ 32 ->
  map_at m addr len off es -> len - off < Z.of_nat fuel ->
  match List.find me_ours es with
  | Some e => exists p, parsemem_loop fuel m addr len off = Done (Some p) /\ entry_ok e /\ entry_at m p e
  | None => parsemem_loop fuel m addr len off = Done None
  end.
Proof.
  induction es as [| e es IH]; intros fuel off Ha Hl Ho Hlen Hm Hf; cbn [map_at List.find] in *.
  { destruct fuel as [| fuel]; [lia |]. cbn [parsemem_loop]. by rewrite (proj2 (Z.ltb_ge off len)) by lia. }
  destruct Hm as (Hok & He & Hm). pose proof (map_at_le _ _ _ _ _ Hm) as Hle. pose proof (proj1 Hok) as Hs.
  destruct fuel as [| fuel]; [lia |]. cbn [parsemem_loop]. rewrite (proj2 (Z.ltb_lt off len)) by lia. cbv zeta.
  unfold is_u32 in Ha. assert (wrap32 (addr + off) = addr + off) as -> by (apply Z.mod_small; lia).
  destruct (entry_fields _ _ _ Hok He) as (E1 & E2 & E3 & ->). rewrite Done_bind.
  destruct (me_ours e); [by exists (addr + off) |]. rewrite E1, Done_bind.
  assert (wrap32 (off + (me_size e + 4)) = off + (me_size e + 4)) as -> by (apply Z.mod_small; lia).
  apply IH; try done; lia.
Qed.

Lemma with_ram_id (m : mstate pgstate) : with_ram (m_ram m) m = m.
Proof. by destruct m. Qed.

Lemma find_Some_ours es e : List.find me_ours es = Some e -> me_addr e = MEMSTART.
Proof. intros H. apply List.find_some in H as [_ H]. unfold me_ours in H. apply andb_true_iff in H as [H _]. by apply Z.eqb_eq. Qed.

(** What is left behind: the page allocator has the memory, and the malloc
    state is otherwise as before. *)
Record memory_taken (s s' : boot_state) (lo hi : Z) : Prop := {
  mt_ram : b_ram s' = b_ram s;
  mt_buckets : freebuckets (b_malloc s') = freebuckets (b_malloc s);
  mt_loaded : loaded (m_pages (b_malloc s')) lo (bmk_trunc_page hi);
  mt_size : bmk_memsize s' = hi - lo;
  mt_stack : bmk_stackpageorder s' = bmk_stackpageorder s /\ bmk_stacksize s' = bmk_stacksize s
}.

(** *** Less than a page of memory

    [bmk_pgalloc_loadmem] puts the bitmap into the first page even if there is
    none; the number of pages left then wraps around and [map_free] clears
    words behind the bitmap. *)
Lemma fill_overruns v end_idx : forall fuel curr bm, 0 <= curr < Z.of_nat (length bm) -> Z.of_nat (length bm) < end_idx < W64 ->
  Z.of_nat (length bm) - curr < Z.of_nat fuel -> map_fill_ne fuel curr end_idx v bm = Undef "alloc_bitmap".
Proof.
  induction fuel as [| fuel IH]; intros curr bm Hc He Hf; [lia |]. cbn [map_fill_ne]. rewrite wadd_small by (unfold u64; lia).
  rewrite (proj2 (Z.eqb_neq (curr + 1) end_idx)) by lia. unfold bm_write, bm_read.
  destruct (decide (curr + 1 = Z.of_nat (length bm))) as [E | E].
  - rewrite lookup_ge_None_2 by lia. done.
  - destruct (lookup_lt_is_Some_2 bm (Z.to_nat (curr + 1))) as [w Hw]; [lia |]. rewrite Hw, of_option_Some, !Done_bind.
    apply IH; rewrite length_insert; lia.
Qed.

Lemma loadmem_partial_page s min max : pg_called s = false -> page_aligned min -> 0 <= min -> min < max < min + 4096 -> max < W64 - 8192 ->
  bmk_pgalloc_loadmem s min max = Undef "alloc_bitmap".
Proof.
  intros Hc Hal Hmin Hmax Hw. unfold bmk_pgalloc_loadmem. rewrite Hc, (proj2 (Z.ltb_lt min max)) by lia.
  rewrite bmk_assert_true, Done_bind. cbv zeta.
  destruct (round_page_spec min) as [[j Hj] Hr]; [lia |]. destruct (trunc_page_spec max) as ([k Hk] & Hb2 & Hb3); [unfold u64; lia |].
  destruct Hal as [i Hi]. replace (bmk_round_page min) with min by lia. replace (bmk_trunc_page max) with min by lia.
  rewrite (wsub_small min min) by (unfold u64, W64 in *; lia). rewrite Z.sub_diag.
  change (bmk_round_page (wadd (Z.shiftr 0 (BMK_PCPU_PAGE_SHIFT + 3)) 1)) with 4096.
  rewrite (wadd_small min 4096) by (unfold u64, W64 in *; lia).
  assert (wsub min (min + 4096) = W64 - 4096) as ->.
  { unfold wsub, wrap64, W64 in *. symmetry. apply (Z.mod_unique _ _ (-1)); lia. }
  assert (va_to_pg (PgState true (min + 4096) min (replicate (Z.to_nat (4096 / 8)) (wnot 0)) (replicate (Z.to_nat FREELIST_LEVELS) [])
    (ch_level s) (ch_magic s) (Z.shiftr (W64 - 4096) 10) 0) (min + 4096) = 0) as ->.
  { unfold va_to_pg. cbn [minpage_addr]. rewrite wsub_small, Z.sub_diag by (unfold u64, W64 in *; lia). done. }
  cbn [alloc_bitmap]. change (Z.to_nat (4096 / 8)) with 512%nat. set (bm := replicate 512 (wnot 0)).
  change (Z.shiftr (W64 - 4096) BMK_PCPU_PAGE_SHIFT) with (2 ^ 52 - 1).
  assert (length bm = 512%nat) as Hbm by apply length_replicate. clearbody bm. unfold map_free.
  change (PAGES_TO_MAPOPVARS 0 (2 ^ 52 - 1)) with (MapOpVars 0 0 (2 ^ 46 - 1) 63). cbn [mo_curr mo_end_idx mo_start mo_end].
  rewrite (proj2 (Z.eqb_neq 0 (2 ^ 46 - 1))) by lia. cbv zeta.
  destruct bm as [| w bm]; [done |]. change (bm_modify (w :: bm) 0 ?f) with (Done (f w :: bm)). rewrite Done_bind.
  rewrite fill_overruns; [done | cbn in *; lia | cbn [length] in *; unfold W64; lia |]. unfold fill_fuel. cbn [mo_curr mo_end_idx length] in *. lia.
Qed.

Lemma page_aligned_round p : 0 <= p <= W64 - 4096 -> page_aligned p -> bmk_round_page p = p.
Proof. intros Hp [k Hk]. destruct (round_page_spec p Hp) as [[j Hj] H]. lia. Qed.

Lemma parsemem_spec img l es s b : bi_map b = Some es ->
  is_u32 (l_maddr l) -> is_u32 (l_mlen l) -> map_at (b_ram s) (l_maddr l) (l_mlen l) 0 es -> l_maddr l + l_mlen l <= 2 ^ 32 ->
  0 <= im_end img <= 2 ^ 32 -> pg_called (m_pages (b_malloc s)) = false ->
  match boot_memory (bmk_round_page (im_end img)) b with
  | Done (lo, hi) => exists s', parsemem img (l_maddr l) (l_mlen l) s = Done s' /\ memory_taken s s' lo hi
  | Halt w => parsemem img (l_maddr l) (l_mlen l) s = Halt w
  | Undef w => parsemem img (l_maddr l) (l_mlen l) s = Undef w
  end.
Proof.
  intros Hb Ha Hl Hm Hsum Hend Hc. unfold boot_memory. rewrite Hb.
  pose proof (parsemem_loop_spec (b_ram s) (l_maddr l) (l_mlen l) es (S (Z.to_nat (l_mlen l))) 0 Ha) as H.
  unfold is_u32 in Hl. specialize (H ltac:(lia) ltac:(lia) ltac:(lia) Hm ltac:(lia)).
  destruct (List.find me_ours es) as [e |] eqn:Ef.
  2: { unfold parsemem. by rewrite H. }
  destruct H as (p & E & Hok & He). unfold parsemem. rewrite E, Done_bind. cbv zeta.
  destruct (entry_fields _ _ _ Hok He) as (_ & -> & -> & _). rewrite !Done_bind.
  destruct Hok as (_ & _ & Ha0 & Hl0 & Hu & _). rewrite wadd_small by (unfold u64; lia).
  set (osend := bmk_round_page (im_end img)). destruct (round_page_spec (im_end img)) as [Hal Hr]; [unfold W64; lia |].
  fold osend in Hal, Hr. unfold bmk_assert. destruct ((me_addr e <? osend) && (osend <? me_addr e + me_len e)) eqn:Ea; [| done].
  cbn [mbind]. rewrite !Done_bind. apply andb_true_iff in Ea as [E1%Z.ltb_lt E2%Z.ltb_lt].
  assert (bmk_round_page osend = osend) as Hro by (apply page_aligned_round; [unfold W64; lia | done]).
  destruct (Z.ltb_spec (me_addr e + me_len e) (osend + BMK_PCPU_PAGE_SIZE)) as [Hs | Hs]; unfold BMK_PCPU_PAGE_SIZE in Hs.
  { by rewrite (loadmem_partial_page (m_pages (b_malloc s)) osend (me_addr e + me_len e)) by (done || (unfold W64 in *; lia)). }
  destruct (trunc_page_spec (me_addr e + me_len e)) as ([k Hk] & Hb2 & Hb3); [unfold u64; lia |]. destruct Hal as [j Hj].
  destruct (loadmem_spec (m_pages (b_malloc s)) osend (me_addr e + me_len e)) as (pg & -> & Hld);
    [done | unfold W64; lia | unfold u64; lia | lia |].
  rewrite Done_bind, wsub_small by (unfold u64; lia). eexists. split; [reflexivity |]. rewrite Hro in Hld.
  by split.
Qed.

(** ** The configuration *)

(** The console is ready and prints into memory that is [b_ram]. *)
Definition cons_ready (p : pst) : Prop := hooked p /\ dmesg_ok p /\ v_flush p <> Unset.

Record configured (img : image) (s s' : boot_state) (cfg : list Z) : Prop := {
  cf_malloc : b_malloc s' = with_ram (mem_write (b_ram s) (im_cmdline img) (cfg ++ [0])) (b_malloc s);
  cf_stack : bmk_stackpageorder s' = bmk_stackpageorder s /\ bmk_stacksize s' = bmk_stacksize s
}.

Lemma plain_using : Forall plain using_text.
Proof.
  assert (forallb (fun c => (0 <? c) && (c <? 128) && negb (c =? 37)) using_text = true) as H by (vm_compute; reflexivity).
  apply Forall_forall. intros c Hc. rewrite List.forallb_forall in H. specialize (H c (proj1 (list_elem_of_In _ _) Hc)). unfold plain. lia.
Qed.

Lemma print_using img name t s : image_at img (b_ram s) -> cons_ready (b_cons s) ->
  name <> 0 -> cstr_at (b_ram s) name t -> Z.of_nat (length t) < 2 ^ 30 ->
  exists s', print (im_using img) [name] s = Done s' /\ b_malloc s' = b_malloc s /\
    p_out (b_cons s') = p_out (b_cons s) ++ using_text ++ (schar <$> t) ++ [10] /\
    bmk_stackpageorder s' = bmk_stackpageorder s /\ bmk_stacksize s' = bmk_stacksize s.
Proof.
  intros Hi (Hh & Hd & Hf) Hn Ht Hl. unfold print.
  destruct (bmk_printf_s using_text [10] t (im_using img) name (set_pmem (b_ram s) (b_cons s))) as (p & -> & P); try done.
  - apply plain_using.
  - repeat constructor; lia.
  - apply Hi.
  - change (length using_text) with 36%nat. cbn [length]. lia.
  - rewrite Done_bind. eexists. split; [reflexivity |]. cbn. rewrite (pt_mem _ _ _ P). cbn. unfold b_ram. rewrite with_ram_id.
    split; [done |]. split; [by rewrite (pt_out _ _ _ P) | done].
Qed.

Section Configure.
  Context (img : image) (mbi : Z) (l : layout) (b : bootinfo) (s : boot_state).
  Hypothesis Himg : image_at img (b_ram s).
  Hypothesis Hb : boot_at img (b_ram s) mbi l b.
  Hypothesis Hcons : cons_ready (b_cons s).

Lemma module_config_none : bi_module b = None -> module_config img mbi (l_flags l) s = Done (0, s).
Proof.
  intros E. pose proof (ba_module _ _ _ _ _ Hb) as Hm. rewrite E in Hm.
  destruct (info_fields _ _ _ (ba_info _ _ _ _ _ Hb)) as (_ & _ & Ec & Em & _). unfold module_config. rewrite Ec, Em, !Done_bind.
  destruct Hm as [-> | [-> | ->]]; cbn; [done | by rewrite andb_false_r | by rewrite andb_false_r].
Qed.

Lemma module_config_some md : bi_module b = Some md ->
  if BMK_MULTIBOOT_CMDLINE_SIZE - 1 <=? Z.of_nat (length (md_data md)) then module_config img mbi (l_flags l) s = Halt toolong
  else exists s', module_config img mbi (l_flags l) s = Done (l_start l, s') /\ configured img s s' (md_data md).
Proof.
  intros E. pose proof (ba_module _ _ _ _ _ Hb) as Hm. rewrite E in Hm.
  destruct Hm as (Hf & Hc & Hm0 & (U1 & U2 & U3 & B1 & B2 & B3 & Hn & Hs0 & Hdata & Hbytes & Haw)).
  destruct (info_fields _ _ _ (ba_info _ _ _ _ _ Hb)) as (_ & _ & Ec & Em & _). unfold module_config.
  rewrite Ec, Em, !Done_bind, (proj2 (Z.eqb_neq _ _) Hf), (proj2 (Z.leb_le 1 _) Hc), (proj2 (Z.eqb_neq _ _) Hm0). cbn [negb andb].
  unfold mod_cmdline, mod_start, mod_end. rewrite (load32_at _ _ _ U3 B3), (load32_at _ _ _ U1 B1), (load32_at _ _ _ U2 B2), !Done_bind. cbv zeta.
  set (n := Z.of_nat (length (md_data md))) in *. unfold is_u32 in *.
  assert (wrap32 (l_start l + n - l_start l) = n) as -> by (replace (l_start l + n - l_start l) with n by lia; apply Z.mod_small; lia).
  destruct (Z.leb_spec (BMK_MULTIBOOT_CMDLINE_SIZE - 1) n) as [_ | Hlen]; [done |].
  assert (exists t, let name := if l_name l =? 0 then im_unnamed img else l_name l in
    name <> 0 /\ cstr_at (b_ram s) name t /\ Z.of_nat (length t) < 2 ^ 30) as (t & N1 & N2 & N3).
  { unfold name_at in Hn. destruct (md_name md) as [t |].
    - exists t. destruct Hn as (N1 & N2 & N3). by rewrite (proj2 (Z.eqb_neq _ _) N1).
    - rewrite Hn. exists unnamed_text. destruct (ia_unnamed _ _ Himg). by split_and!. }
  destruct (print_using img _ t s Himg Hcons N1 N2 N3) as (s1 & -> & Em1 & _ & Hst). rewrite Done_bind.
  assert (b_ram s1 = b_ram s) as Er by (unfold b_ram; by rewrite Em1). rewrite Er. unfold bmk_memcpy. replace (Z.to_nat n) with (length (md_data md)) by (unfold n; lia).
  pose proof (ia_buf _ _ Himg) as Hbuf. unfold away, BMK_MULTIBOOT_CMDLINE_SIZE, n in *.
  rewrite memcpy_spec; [| done | done | apply (mapped_mono _ _ (Z.to_nat 4096)); [lia | done] | unfold copy_safe; lia].
  rewrite !Done_bind. cbv beta iota.
  rewrite store8_mapped by (apply (mapped_write _ _ _ _ _ Hbuf); lia). rewrite Done_bind. eexists. split; [reflexivity |].
  split; [| done]. cbn. rewrite Em1. f_equal. rewrite mem_write_app. done.
Qed.

Lemma cmdline_config_some t : bi_cmdline b = Some t ->
  if BMK_MULTIBOOT_CMDLINE_SIZE <=? Z.of_nat (length t) then cmdline_config img mbi (l_flags l) 0 s = Halt toolong
  else exists s', cmdline_config img mbi (l_flags l) 0 s = Done (l_cmdline l, s') /\ configured img s s' t.
Proof.
  intros E. pose proof (ba_cmdline _ _ _ _ _ Hb) as Hm. rewrite E in Hm. destruct Hm as (Hf & Hc & Hs & Hlen & Haw).
  destruct (info_fields _ _ _ (ba_info _ _ _ _ _ Hb)) as (_ & Ec & _). unfold cmdline_config.
  rewrite (proj2 (Z.eqb_neq _ _) Hf). cbn [Z.eqb negb andb]. rewrite Ec, Done_bind, (strlen_spec _ _ t), Done_bind by (done || unfold W64; lia).
  destruct (Z.leb_spec BMK_MULTIBOOT_CMDLINE_SIZE (Z.of_nat (length t))) as [_ | Hl]; [done |].
  pose proof (ia_buf _ _ Himg) as Hbuf. unfold bmk_strcpy, away, BMK_MULTIBOOT_CMDLINE_SIZE in *.
  rewrite (strcpy_spec t); [| done | apply (mapped_mono _ _ (Z.to_nat 4096)); [lia | done] | unfold copy_safe; lia |].
  - rewrite !Done_bind. cbv beta iota. eexists. split; [reflexivity |]. by split.
  - pose proof (cstr_at_size _ _ _ Hs). lia.
Qed.
End Configure.

Lemma boot_config_length b cfg : boot_config b = Done cfg -> Z.of_nat (length (cfg ++ [0])) <= BMK_MULTIBOOT_CMDLINE_SIZE.
Proof.
  unfold boot_config, BMK_MULTIBOOT_CMDLINE_SIZE. rewrite length_app. cbn [length].
  destruct (bi_module b) as [md |]; [| destruct (bi_cmdline b) as [t |]]; [| | by intros [= <-]].
  - destruct (Z.leb_spec (4096 - 1) (Z.of_nat (length (md_data md)))); [done |]. intros [= <-]. lia.
  - destruct (Z.leb_spec 4096 (Z.of_nat (length t))); [done |]. intros [= <-]. lia.
Qed.

Lemma configured_info img mbi l b s s' cfg : boot_at img (b_ram s) mbi l b -> boot_config b = Done cfg ->
  configured img s s' cfg -> info_at (b_ram s') mbi l.
Proof.
  intros Hb E [Hm _]. unfold b_ram at 1. rewrite Hm. cbn. apply frame_info; [by eapply boot_config_length | apply Hb | apply Hb].
Qed.

Lemma configure_spec img mbi l b s : image_at img (b_ram s) -> boot_at img (b_ram s) mbi l b -> cons_ready (b_cons s) ->
  match boot_config b with
  | Done cfg => exists s', configure img mbi s = Done s' /\ configured img s s' cfg
  | o => exists w, o = Halt w /\ configure img mbi s = Halt w
  end.
Proof.
  intros Himg Hb Hc. pose proof (configured_info img mbi l b s) as Hinfo. unfold boot_config in *.
  destruct (info_fields _ _ _ (ba_info _ _ _ _ _ Hb)) as (Ef & _). unfold configure. rewrite Ef, Done_bind.
  destruct (bi_module b) as [md |] eqn:Em.
  - pose proof (module_config_some img mbi l b s Himg Hb Hc md Em) as H. destruct (_ <=? _); [rewrite H; by eexists |].
    destruct H as (s' & -> & Hcf). rewrite Done_bind. cbv beta iota.
    destruct (info_fields _ _ _ (Hinfo s' _ Hb eq_refl Hcf)) as (-> & _). rewrite Done_bind.
    pose proof (ba_module _ _ _ _ _ Hb) as Hm. rewrite Em in Hm. destruct Hm as (_ & _ & _ & Hm).
    assert (l_start l <> 0) as Hs by apply Hm. unfold cmdline_config. rewrite (proj2 (Z.eqb_neq _ _) Hs). cbn [andb].
    rewrite Done_bind. cbv beta iota. rewrite (proj2 (Z.eqb_neq _ _) Hs). by exists s'.
  - rewrite (module_config_none img mbi l b s Hb Em), Done_bind. cbv beta iota. rewrite Ef, Done_bind.
    pose proof (ba_cmdline _ _ _ _ _ Hb) as Hm. destruct (bi_cmdline b) as [t |] eqn:Et.
    + pose proof (cmdline_config_some img mbi l b s Himg Hb t Et) as H. destruct (_ <=? _); [rewrite H; by eexists |].
      destruct H as (s' & -> & Hcf). rewrite Done_bind. cbv beta iota. destruct Hm as (_ & Hs & _).
      rewrite (proj2 (Z.eqb_neq _ _) Hs). by exists s'.
    + unfold cmdline_config. rewrite Hm. cbn [Z.eqb negb andb]. rewrite Done_bind. cbv beta iota. cbn [Z.eqb].
      rewrite store8_mapped by (rewrite <- (Z.add_0_r (im_cmdline img)); apply (ia_buf _ _ Himg 0%nat); unfold BMK_MULTIBOOT_CMDLINE_SIZE; lia).
      rewrite Done_bind. eexists. split; [reflexivity |]. by split.
Qed.

Lemma core_init_spec s : exists s', bmk_core_init BMK_THREAD_STACK_PAGE_ORDER s = Done s' /\
  b_malloc s' = with_buckets (replicate (Z.to_nat LOCALBUCKETS) []) (b_malloc s) /\ b_cons s' = b_cons s /\
  bmk_stackpageorder s' = BMK_THREAD_STACK_PAGE_ORDER /\ bmk_stacksize s' = 2 * BMK_PCPU_PAGE_SIZE.
Proof. eexists. split; [reflexivity |]. done. Qed.


(** ** An instance

    A machine with not quite 16 MB, whose memory ends inside a page: a module "cfg" with the text "{}", a reserved and an
    available chunk, and an image that ends at 0x102800. *)
Definition demo_image : image := Image 0x101000 100 200 0x102800.
Definition demo_layout : layout := Layout 13 300 1 400 48 500 600 700.
Definition demo_boot : bootinfo :=
  BootInfo (Some (BModule (Some (bytes_of "cfg")) (bytes_of "{}"))) (Some (bytes_of "x"))
    (Some [MmapEntry 20 0 0x9fc00 2; MmapEntry 20 0x100000 0xefc800 1]).
Definition entry_bytes (e : mmap_entry) : list Z :=
  le_encode 4 (me_size e) ++ le_encode 8 (me_addr e) ++ le_encode 8 (me_len e) ++ le_encode 4 (me_type e).
Definition demo_objects : list (Z * list Z) :=
  [(100, using_text ++ [37; 115; 10; 0]); (200, unnamed_text ++ [0]); (300, bytes_of "x" ++ [0]);
   (400, le_encode 4 600 ++ le_encode 4 602 ++ le_encode 4 700);
   (500, entry_bytes (MmapEntry 20 0 0x9fc00 2) ++ entry_bytes (MmapEntry 20 0x100000 0xefc800 1));
   (600, bytes_of "{}"); (700, bytes_of "cfg" ++ [0]);
   (800, le_encode 4 13); (816, le_encode 4 300 ++ le_encode 4 1 ++ le_encode 4 400); (844, le_encode 4 48 ++ le_encode 4 500);
   (0x101000, replicate (Z.to_nat 4096) 0)].
Definition demo_ram : mem := foldr (fun o m => mem_write m o.1 o.2) ∅ demo_objects.
Definition demo_state : boot_state :=
  Boot (MState pg_initial [] [] ∅ demo_ram) (Pst ∅ 0 ∅ 0 (Hook 1) Nullfun []) [] 0 0 0.

(** Closed facts by evaluation of their decision procedure. *)
Ltac by_decide := apply (bool_decide_unpack _); vm_compute; exact I.

Lemma demo_image_at : image_at demo_image demo_ram.
Proof.
  split; [| by_decide | split; [done | by_decide] | by_decide | by_decide].
  apply (bytes_at_mapped demo_ram 0x101000 (replicate (Z.to_nat 4096) 0)). by_decide.
Qed.

Lemma demo_boot_at : boot_at demo_image demo_ram 800 demo_layout demo_boot.
Proof.
  split.
  - split; [repeat constructor; vm_compute; congruence | split_and!; by_decide].
  - left. vm_compute. congruence.
  - cbn [bi_module demo_boot]. unfold module_at, name_at, is_u32, away. cbn [md_name md_data]. split_and!; by_decide.
  - cbn [bi_cmdline demo_boot]. unfold away. split_and!; by_decide.
  - cbn [bi_map demo_boot map_at]. unfold away, entry_ok, entry_at, is_u32. split_and!; by_decide.
Qed.


(** The same machine with a chunk of three and a half pages, the last half of
    which is the memory behind the image. *)
Definition short_boot : bootinfo := BootInfo None None (Some [MmapEntry 20 0x100000 0x3800 1]).
Example short_chunk_overruns : boot_spec (bmk_round_page (im_end demo_image)) true short_boot = Undef "alloc_bitmap".
Proof. vm_compute. reflexivity. Qed.
