(* ===== verification/HwDev.v ===== *)
(** * Consoles and PCI of the hardware platform

    The text screen (platform/hw/arch/x86/vgacons.c), the serial console
    (serialcons.c), the choice between them (cons.c), and what the PCI driver
    of the rump kernel calls (platform/hw/pci/rumppci.c and rumpdma.c).  The
    answers of the devices are arguments. *)

From S2P Require Import Prelude Mem Pgalloc PgGeom PgallocInv PgallocProps PgallocRun Intr.

(** ** The text screen *)
Module Vga.

Definition CONS_WIDTH : Z := 80.
Definition CONS_HEIGHT : Z := 25.
Definition CONS_MAGENTA : Z := 0x500.

Record vga := Vga { cons_buf : list Z; cons_x : Z; cons_y : Z }.

(** [CONS_MAGENTA|c] as a [uint16_t]. *)
Definition glyph (c : Z) : Z := Z.lor CONS_MAGENTA c mod 2 ^ 16.

Definition buf_store (buf : list Z) (i v : Z) : outcome (list Z) :=
  if (0 <=? i) && (i <? Z.of_nat (length buf)) then Done (<[Z.to_nat i := v]> buf) else Undef "cons_buf[i]".
Definition buf_load (buf : list Z) (i : Z) : outcome Z :=
  if 0 <=? i then of_option "cons_buf[i]" (buf !! Z.to_nat i) else Undef "cons_buf[i]".

Definition cons_putat (buf : list Z) (c x y : Z) : outcome (list Z) := buf_store buf (x + y * CONS_WIDTH) (glyph c).

(** The loops of [vgacons_putc], with [n] iterations left. *)
Fixpoint scroll_loop (n : nat) (buf : list Z) (x : Z) : outcome (list Z) :=
  match n with
  | O => Done buf
  | S n => v ← buf_load buf (x + CONS_WIDTH); buf ← buf_store buf x v; scroll_loop n buf (x + 1)
  end.
Fixpoint clear_loop (n : nat) (buf : list Z) (x y : Z) : outcome (list Z) :=
  match n with
  | O => Done buf
  | S n => buf ← cons_putat buf 32 x y; clear_loop n buf (x + 1) y
  end.

(** The part behind the first [if]: the end of a row, scrolling, blanking. *)
Definition settle (buf : list Z) (x y : Z) (doclear : bool) : outcome vga :=
  let '(x, y, doclear) := if x =? CONS_WIDTH then (0, y + 1, true) else (x, y, doclear) in
  '(buf, y) ←
    (if y =? CONS_HEIGHT
     then buf ← scroll_loop (Z.to_nat ((CONS_HEIGHT - 1) * CONS_WIDTH)) buf 0; Done (buf, y - 1)
     else Done (buf, y));
  buf ← (if (doclear : bool) then clear_loop (Z.to_nat CONS_WIDTH) buf 0 y else Done buf);
  Done (Vga buf x y).

Definition vgacons_putc (c : Z) (s : vga) : outcome vga :=
  if c =? 10 then settle (cons_buf s) 0 (cons_y s + 1) true
  else if c =? 13 then settle (cons_buf s) 0 (cons_y s) false
  else if c =? 9 then settle (cons_buf s) (Z.land (cons_x s + 8) (Z.lnot 7)) (cons_y s) false
  else
    buf ← cons_putat (cons_buf s) c (cons_x s) (cons_y s);
    settle buf (cons_x s + 1) (cons_y s) false.

Fixpoint vga_puts (cs : list Z) (s : vga) : outcome vga :=
  match cs with
  | [] => Done s
  | c :: cs => s ← vgacons_putc c s; vga_puts cs s
  end.

(** *** What it displays

    A terminal without a screen: all its rows, and the cursor.  A row is
    blanked when the cursor moves down to it. *)
Record term := Term { t_rows : list (list Z); t_x : Z; t_y : nat }.

Definition blank : list Z := replicate (Z.to_nat CONS_WIDTH) (glyph 32).

Definition newline (t : term) : term :=
  let y := S (t_y t) in
  Term (if bool_decide (y < length (t_rows t))%nat then <[y := blank]> (t_rows t) else t_rows t ++ [blank]) 0 y.
Definition move_to (x : Z) (t : term) : term :=
  if x =? CONS_WIDTH then newline t else Term (t_rows t) x (t_y t).
Definition write_cell (c : Z) (t : term) : term :=
  Term (alter (fun row => <[Z.to_nat (t_x t) := glyph c]> row) (t_y t) (t_rows t)) (t_x t) (t_y t).

Definition term_putc (c : Z) (t : term) : term :=
  if c =? 10 then newline t
  else if c =? 13 then Term (t_rows t) 0 (t_y t)
  else if c =? 9 then move_to (8 * (t_x t / 8 + 1)) t
  else move_to (t_x t + 1) (write_cell c t).

(** The screen is the last rows of the terminal. *)
Definition top (t : term) : nat := (length (t_rows t) - 25)%nat.
Record shows (s : vga) (t : term) : Prop := {
  sh_buf : length (cons_buf s) = 2000%nat;
  sh_rows : Forall (fun row => length row = 80%nat) (t_rows t);
  sh_long : (25 <= length (t_rows t))%nat;
  sh_x : cons_x s = t_x t /\ 0 <= t_x t < 80;
  sh_y : Z.of_nat (t_y t) = Z.of_nat (top t) + cons_y s /\ 0 <= cons_y s < 25;
  sh_cells : forall r x, (r < 25)%nat -> (x < 80)%nat ->
    cons_buf s !! (80 * r + x)%nat = row ← t_rows t !! (top t + r)%nat; row !! x
}.

Lemma buf_store_ok buf i v : 0 <= i < Z.of_nat (length buf) -> buf_store buf i v = Done (<[Z.to_nat i := v]> buf).
Proof. intros H. unfold buf_store. by rewrite (proj2 (Z.leb_le 0 i)), (proj2 (Z.ltb_lt i _)) by lia. Qed.

Lemma scroll_loop_spec n : forall buf x, 0 <= x -> (Z.to_nat x + n + 80 <= length buf)%nat ->
  exists buf', scroll_loop n buf x = Done buf' /\ length buf' = length buf /\
    forall i, buf' !! i = if bool_decide (Z.to_nat x <= i < Z.to_nat x + n)%nat then buf !! (i + 80)%nat else buf !! i.
Proof.
  induction n as [| n IH]; intros buf x Hx Hl; cbn [scroll_loop].
  - exists buf. split; [done |]. split; [done |]. intros i. by rewrite bool_decide_false by lia.
  - destruct (lookup_lt_is_Some_2 buf (Z.to_nat (x + CONS_WIDTH))) as [v Hv]; [unfold CONS_WIDTH; lia |].
    unfold buf_load. rewrite (proj2 (Z.leb_le 0 (x + CONS_WIDTH))) by (unfold CONS_WIDTH; lia). rewrite Hv. cbn [of_option].
    rewrite Done_bind, buf_store_ok, Done_bind by lia.
    destruct (IH (<[Z.to_nat x := v]> buf) (x + 1)) as (buf' & E & Hlen & Hi); [lia | rewrite length_insert; lia |].
    exists buf'. split; [done |]. split; [by rewrite Hlen, length_insert |]. intros i. rewrite Hi.
    replace (Z.to_nat (x + 1)) with (S (Z.to_nat x)) by lia. unfold CONS_WIDTH in Hv.
    destruct (decide (i = Z.to_nat x)) as [-> | Hne].
    + rewrite bool_decide_false, bool_decide_true by lia. rewrite list_lookup_insert_eq by lia.
      rewrite <- Hv. f_equal. lia.
    + case_bool_decide; case_bool_decide; try lia; by rewrite list_lookup_insert_ne by lia.
Qed.

Lemma clear_loop_spec n : forall buf x y, 0 <= x -> 0 <= y -> x + y * 80 + Z.of_nat n <= Z.of_nat (length buf) ->
  exists buf', clear_loop n buf x y = Done buf' /\ length buf' = length buf /\
    forall i, buf' !! i = if bool_decide (x + y * 80 <= Z.of_nat i < x + y * 80 + Z.of_nat n) then Some (glyph 32) else buf !! i.
Proof.
  induction n as [| n IH]; intros buf x y Hx Hy Hl; cbn [clear_loop].
  - exists buf. split; [done |]. split; [done |]. intros i. by rewrite bool_decide_false by lia.
  - unfold cons_putat, CONS_WIDTH. rewrite buf_store_ok, Done_bind by lia.
    destruct (IH (<[Z.to_nat (x + y * 80) := glyph 32]> buf) (x + 1) y) as (buf' & E & Hlen & Hi); [lia.. | rewrite length_insert; lia |].
    exists buf'. split; [done |]. split; [by rewrite Hlen, length_insert |]. intros i. rewrite Hi.
    destruct (decide (i = Z.to_nat (x + y * 80))) as [-> | Hne].
    + rewrite bool_decide_false, bool_decide_true by lia. by rewrite list_lookup_insert_eq by lia.
    + rewrite list_lookup_insert_ne by lia. case_bool_decide; case_bool_decide; done || lia.
Qed.

(** *** The cursor moves to the next row

    [settle] once [y] has been incremented. *)
Definition next_row (buf : list Z) (x y : Z) : outcome vga :=
  '(buf, y) ←
    (if y =? CONS_HEIGHT
     then buf ← scroll_loop (Z.to_nat ((CONS_HEIGHT - 1) * CONS_WIDTH)) buf 0; Done (buf, y - 1)
     else Done (buf, y));
  buf ← clear_loop (Z.to_nat CONS_WIDTH) buf 0 y;
  Done (Vga buf x y).

Lemma blank_lookup x : (x < 80)%nat -> blank !! x = Some (glyph 32).
Proof. intros H. apply lookup_replicate. split; [done |]. unfold CONS_WIDTH. lia. Qed.

Lemma next_row_shows s t : shows s t -> exists s', next_row (cons_buf s) 0 (cons_y s + 1) = Done s' /\ shows s' (newline t).
Proof.
  intros [Hb Hr Hl Hx Hy Hc]. unfold next_row, newline, CONS_HEIGHT, CONS_WIDTH.
  assert (length blank = 80%nat) as Hbl by apply length_replicate.
  destruct (Z.eqb_spec (cons_y s + 1) 25) as [Ey | Ey]; unfold top in *.
  - destruct (scroll_loop_spec (Z.to_nat ((25 - 1) * 80)) (cons_buf s) 0) as (b1 & -> & L1 & C1); [lia.. |]. rewrite !Done_bind. cbv beta iota.
    destruct (clear_loop_spec (Z.to_nat 80) b1 0 (cons_y s + 1 - 1)) as (b2 & -> & L2 & C2); [lia.. |]. rewrite Done_bind.
    eexists. split; [reflexivity |]. rewrite bool_decide_false by lia. split; cbn [cons_buf cons_x cons_y t_rows t_x t_y top].
    + lia.
    + apply Forall_app. by split; [| constructor].
    + rewrite length_app. lia.
    + lia.
    + unfold top. cbn. rewrite length_app. cbn. lia.
    + intros r x Hr0 Hx0. unfold top. cbn [t_rows]. rewrite length_app. cbn [length]. rewrite C2, C1. destruct (decide (r = 24%nat)) as [-> | Hne].
      * rewrite bool_decide_true by lia. rewrite lookup_app_r by lia.
        replace (_ - _)%nat with 0%nat by lia. cbn. by rewrite blank_lookup.
      * rewrite bool_decide_false, bool_decide_true by lia. rewrite lookup_app_l by lia.
        replace (80 * r + x + 80)%nat with (80 * S r + x)%nat by lia. rewrite Hc by lia. f_equal. f_equal. lia.
  - rewrite Done_bind. cbv beta iota. destruct (clear_loop_spec (Z.to_nat 80) (cons_buf s) 0 (cons_y s + 1)) as (b2 & -> & L2 & C2); [lia.. |].
    rewrite Done_bind. eexists. split; [reflexivity |]. rewrite bool_decide_true by lia.
    split; cbn [cons_buf cons_x cons_y t_rows t_x t_y]; unfold top; cbn [t_rows t_y]; rewrite ?length_insert; try lia.
    + by apply Forall_insert.
    + intros r x Hr0 Hx0. rewrite C2. destruct (decide (Z.of_nat r = cons_y s + 1)) as [E | Hne].
      * rewrite bool_decide_true by lia. replace (length (t_rows t) - 25 + r)%nat with (S (t_y t)) by lia.
        rewrite list_lookup_insert_eq by lia. cbn. by rewrite blank_lookup.
      * rewrite bool_decide_false by lia. rewrite list_lookup_insert_ne by lia. by apply Hc.
Qed.

(** Moving within the row, or to the next one from its end. *)
Definition advance (buf : list Z) (x y : Z) : outcome vga :=
  if x =? CONS_WIDTH then next_row buf 0 (y + 1) else Done (Vga buf x y).

Lemma advance_shows s t x : shows s t -> 0 <= x <= 80 ->
  exists s', advance (cons_buf s) x (cons_y s) = Done s' /\ shows s' (move_to x t).
Proof.
  intros H Hx. unfold advance, move_to, CONS_WIDTH. destruct (Z.eqb_spec x 80) as [-> | Hne]; [by apply next_row_shows |].
  eexists. split; [reflexivity |]. destruct H. by split; try (cbn; lia).
Qed.

Lemma write_cell_shows s t c : shows s t ->
  exists buf, cons_putat (cons_buf s) c (cons_x s) (cons_y s) = Done buf /\ shows (Vga buf (cons_x s) (cons_y s)) (write_cell c t).
Proof.
  intros [Hb Hr Hl Hx Hy Hc]. unfold cons_putat, CONS_WIDTH. rewrite buf_store_ok by lia. eexists. split; [reflexivity |].
  destruct (lookup_lt_is_Some_2 (t_rows t) (t_y t)) as [row Hrow]; [unfold top in *; lia |].
  assert (length row = 80%nat) as Hlr by (by eapply (Forall_lookup_1 _ _ _ _ Hr)).
  assert (top (write_cell c t) = top t) as Htop by (unfold top; cbn; by rewrite length_alter).
  split; cbn [cons_buf cons_x cons_y t_rows t_x t_y write_cell]; rewrite ?length_insert, ?length_alter; try done.
  - apply Forall_alter; [done |]. intros r _ E. by rewrite length_insert.
  - by rewrite Htop.
  - intros r x Hr0 Hx0. change (top (Term _ _ _)) with (top (write_cell c t)). rewrite Htop.
    destruct (decide ((80 * r + x)%nat = Z.to_nat (cons_x s + cons_y s * 80))) as [E | Hne].
    + rewrite E, list_lookup_insert_eq by lia. replace (top t + r)%nat with (t_y t) by lia.
      rewrite list_lookup_alter_eq, Hrow. cbn. replace x with (Z.to_nat (t_x t)) by lia. by rewrite list_lookup_insert_eq by lia.
    + rewrite list_lookup_insert_ne by done. rewrite Hc by done. destruct (decide ((top t + r)%nat = t_y t)) as [E | Hn2].
      * rewrite E, list_lookup_alter_eq, Hrow. cbn. rewrite list_lookup_insert_ne by lia. done.
      * by rewrite list_lookup_alter_ne by done.
Qed.

Lemma settle_newline buf y : settle buf 0 y true = next_row buf 0 y.
Proof. reflexivity. Qed.

Lemma settle_advance buf x y : 0 <= y < 25 -> settle buf x y false = advance buf x y.
Proof.
  intros Hy. unfold settle, advance. destruct (x =? CONS_WIDTH); [reflexivity |].
  unfold CONS_HEIGHT. by rewrite (proj2 (Z.eqb_neq y 25)) by lia.
Qed.

Lemma tab_stop x : Z.land (x + 8) (Z.lnot 7) = 8 * (x / 8 + 1).
Proof.
  rewrite <- Z.ldiff_land. change 7 with (Z.ones 3). rewrite Z.ldiff_ones_r by lia.
  rewrite Z.shiftl_mul_pow2, Z.shiftr_div_pow2 by lia. change (2 ^ 3) with 8.
  replace (x + 8) with (x + 1 * 8) by lia. rewrite Z.div_add by lia. lia.
Qed.

Lemma vgacons_putc_shows c s t : shows s t -> exists s', vgacons_putc c s = Done s' /\ shows s' (term_putc c t).
Proof.
  intros H. pose proof (sh_x _ _ H) as [Ex Hx]. pose proof (sh_y _ _ H) as [_ Hy]. unfold vgacons_putc, term_putc.
  destruct (c =? 10); [rewrite settle_newline; by apply next_row_shows |].
  destruct (c =? 13); [rewrite settle_advance by done; by apply (advance_shows s t 0 H) |].
  destruct (c =? 9).
  - rewrite settle_advance, tab_stop, Ex by done. apply advance_shows; [done |].
    pose proof (Z.div_mod (t_x t) 8 ltac:(lia)). pose proof (Z.mod_pos_bound (t_x t) 8 ltac:(lia)). lia.
  - destruct (write_cell_shows s t c H) as (buf & -> & H1). rewrite Done_bind, settle_advance, Ex by done.
    apply (advance_shows _ _ (t_x t + 1) H1). lia.
Qed.

(** The terminal when the screen is first used: it has the rows that are on
    the screen. *)
Fixpoint rows_of (n : nat) (buf : list Z) : list (list Z) :=
  match n with
  | O => []
  | S n => take 80 buf :: rows_of n (drop 80 buf)
  end.

Lemma rows_of_lookup n : forall buf r, (r < n)%nat -> rows_of n buf !! r = Some (take 80 (drop (80 * r) buf)).
Proof.
  induction n as [| n IH]; intros buf r Hr; [lia |]. destruct r as [| r]; [done |]. cbn [rows_of lookup list_lookup].
  rewrite IH by lia. rewrite drop_drop. do 3 f_equal. lia.
Qed.

Lemma initial_shows buf : length buf = 2000%nat -> shows (Vga buf 0 0) (Term (rows_of 25 buf) 0 0).
Proof.
  intros Hb. assert (length (rows_of 25 buf) = 25%nat) as Hl by done. split; try done; unfold top; cbn [t_rows cons_buf cons_y t_y]; rewrite ?Hl; try lia.
  - apply Forall_lookup. intros r row E. pose proof (lookup_lt_Some _ _ _ E) as Hr. rewrite Hl in Hr.
    rewrite rows_of_lookup in E by done. injection E as <-. rewrite length_take, length_drop. lia.
  - intros r x Hr Hx. rewrite rows_of_lookup by lia. cbn [mbind option_bind]. rewrite lookup_take_lt by done. by rewrite lookup_drop.
Qed.

(** C22. Whatever is written to the text screen, no access leaves the 80 by 25
    cells of the frame buffer, and what is on the screen are the last 25 rows
    of an unbounded terminal on which characters are written at the cursor,
    lines are broken at column 80, and tabs, carriage returns and newlines
    move the cursor; scrolling is exact, and rows are blanked as they are
    entered. *)
Theorem vga_shows cs buf : length buf = 2000%nat ->
  exists s, vga_puts cs (Vga buf 0 0) = Done s /\ shows s (fold_left (fun t c => term_putc c t) cs (Term (rows_of 25 buf) 0 0)).
Proof.
  intros Hb. pose proof (initial_shows buf Hb) as H. revert H. generalize (Vga buf 0 0), (Term (rows_of 25 buf) 0 0).
  induction cs as [| c cs IH]; intros s t H; cbn [vga_puts fold_left]; [by exists s |].
  destruct (vgacons_putc_shows c s t H) as (s' & -> & H'). rewrite Done_bind. by apply IH.
Qed.

Lemma vga_shows_witness : exists s, vga_puts (bytes_of "ab") (Vga (replicate 2000 0) 0 0) = Done s /\
  shows s (fold_left (fun t c => term_putc c t) (bytes_of "ab") (Term (rows_of 25 (replicate 2000 0)) 0 0)).
Proof. apply (vga_shows (bytes_of "ab") (replicate 2000 0)). reflexivity. Defined.

End Vga.

(** ** The serial console

    Ports answer from a list, in the order of the reads; what is written and
    read is recorded.  [Halt "polling"] is a loop that still polls when the
    answers end. *)
Module Serial.

Definition COM_DATA : Z := 0.
Definition COM_DLBL : Z := 0.
Definition COM_DLBH : Z := 1.
Definition COM_IER : Z := 1.
Definition COM_FIFO : Z := 2.
Definition COM_LCTL : Z := 3.
Definition COM_LSR : Z := 5.

Inductive pio := PIn (port v : Z) | POut (port v : Z).
Record ports := Ports { answers : list Z; trace : list pio }.

Definition com_inb (port : Z) (s : ports) : outcome (Z * ports) :=
  match answers s with
  | [] => Halt "polling"
  | v :: vs => Done (v, Ports vs (trace s ++ [PIn port v]))
  end.
Definition com_outb (port v : Z) (s : ports) : ports := Ports (answers s) (trace s ++ [POut port (v mod 256)]).

(** [while ((inb(port) & mask) == 0);] *)
Fixpoint wait_loop (port mask : Z) (vs : list Z) (tr : list pio) : outcome ports :=
  match vs with
  | [] => Halt "polling"
  | v :: vs =>
      let tr := tr ++ [PIn port v] in
      if Z.land v mask =? 0 then wait_loop port mask vs tr else Done (Ports vs tr)
  end.
Definition wait_for (port mask : Z) (s : ports) : outcome ports := wait_loop port mask (answers s) (trace s).

(** [while ((inb(combase + 5) & 1) != 0) inb(combase);] *)
Fixpoint drain_loop (combase : Z) (vs : list Z) (tr : list pio) : outcome ports :=
  match vs with
  | [] => Halt "polling"
  | v :: vs =>
      let tr := tr ++ [PIn (combase + 5) v] in
      if Z.land v 1 =? 0 then Done (Ports vs tr)
      else
        match vs with
        | [] => Halt "polling"
        | c :: vs => drain_loop combase vs (tr ++ [PIn combase c])
        end
  end.

(** The new value of [combase], and the ports. *)
Definition serialcons_init (combase_init speed : Z) (s : ports) : outcome (Z * ports) :=
  if speed =? 0 then Undef "115200 / speed" else
  let divisor := Z.quot 115200 speed mod 2 ^ 16 in
  let combase := combase_init in
  let s := com_outb (combase + COM_IER) 0 s in
  let s := com_outb (combase + COM_LCTL) 0x80 s in
  let s := com_outb (combase + COM_DLBL) (Z.land divisor 255) s in
  let s := com_outb (combase + COM_DLBH) (Z.shiftr divisor 8) s in
  let s := com_outb (combase + COM_LCTL) 3 s in
  let s := com_outb (combase + COM_FIFO) 0xc7 s in
  let s := com_outb (combase + 4) 0x0b s in
  '(_, s) ← com_inb combase s;
  '(_, s) ← com_inb (combase + 5) s;
  '(_, s) ← com_inb (combase + 6) s;
  let s := com_outb (combase + COM_IER) 1 s in
  s ← drain_loop combase (answers s) (trace s);
  Done (combase, s).

(** One character, once its carriage return is out. *)
Definition put_one (combase c : Z) (s : ports) : outcome ports :=
  s ← wait_for (combase + COM_LSR) 0x20 s;
  Done (com_outb (combase + COM_DATA) c s).

Definition serialcons_putc (combase c : Z) (s : ports) : outcome ports :=
  if combase =? 0 then Done s else
  s ← (if c =? 10 then put_one combase 13 s else Done s);
  put_one combase c s.

Fixpoint serial_puts (combase : Z) (cs : list Z) (s : ports) : outcome ports :=
  match cs with
  | [] => Done s
  | c :: cs => s ← serialcons_putc combase c s; serial_puts combase cs s
  end.

(** *** Input *)
Definition reset_buffer : list Z := bytes_of "reset" ++ [0].

(** The position in [reset_buffer], the two readings of the cycle counter,
    [ccount], and the values printed. *)
Record dbg := Dbg { pos : Z; cpucount : Z; cpucount2 : Z; ccount : Z; printed_counts : list (Z * Z) }.

(** A character: the reset sequence, and the measurement between an "a" and a
    "b"; [tsc] is what the cycle counter reads. *)
Definition debug_char (c tsc : Z) (d : dbg) (s : ports) : outcome (dbg * ports) :=
  r ← of_option "reset_buffer[pos]" (reset_buffer !! Z.to_nat (pos d));
  let '(p, s) :=
    if c =? schar r then (pos d + 1, if pos d + 1 =? 5 then com_outb 0x64 0xFE s else s) else (0, s) in
  let d := Dbg p (cpucount d) (cpucount2 d) (ccount d) (printed_counts d) in
  let d := if c =? 97 then Dbg (pos d) tsc (cpucount2 d) 0 (printed_counts d) else d in
  let d := if c =? 98
           then Dbg (pos d) (cpucount d) tsc (ccount d) (printed_counts d ++ [(wsub tsc (cpucount d), ccount d)])
           else d in
  Done (d, s).

(** The second loop; [fuel] bounds the characters by the answers left. *)
Fixpoint debug_loop (fuel : nat) (combase tsc c : Z) (d : dbg) (s : ports) : outcome (Z * dbg * ports) :=
  match fuel with
  | O => Halt "polling"
  | S fuel =>
      '(v, s) ← com_inb (combase + 5) s;
      if Z.land v 1 =? 0 then Done (c, d, s)
      else
        '(v, s) ← com_inb combase s;
        let c := schar v in
        '(d, s) ← debug_char c tsc d s;
        debug_loop fuel combase tsc c d s
  end.

Definition getDebugChar (combase tsc : Z) (d : dbg) (s : ports) : outcome (Z * dbg * ports) :=
  s ← wait_for (combase + 5) 1 s;
  '(c, d, s) ← debug_loop (S (length (answers s))) combase tsc 0 d s;
  Done ((if c =? 13 then 10 else c) mod 256, d, s).

(** *** The bytes on the line *)

Definition crlf (c : Z) : list Z := if c =? 10 then [13; 10] else [c].
Definition line_bytes (cs : list Z) : list Z := concat (map (fun c => map (fun b => b mod 256) (crlf c)) cs).

(** What [put_one] adds to the trace: polls that find the transmitter busy,
    one that finds it ready, and the byte. *)
Inductive sent (combase : Z) : list Z -> list pio -> Prop :=
  | sent_nil : sent combase [] []
  | sent_byte b bs busy v tr : Forall (fun v => Z.land v 0x20 = 0) busy -> Z.land v 0x20 <> 0 -> sent combase bs tr ->
      sent combase (b :: bs) (map (PIn (combase + COM_LSR)) (busy ++ [v]) ++ POut (combase + COM_DATA) b :: tr).

(** The polls that find the transmitter ready. *)
Definition ready_count (vs : list Z) : nat := length (List.filter (fun v => negb (Z.land v 0x20 =? 0)) vs).

Lemma wait_loop_ready port vs : forall tr, (0 < ready_count vs)%nat -> exists busy v vs',
  vs = busy ++ v :: vs' /\ Forall (fun v => Z.land v 0x20 = 0) busy /\ Z.land v 0x20 <> 0 /\
  wait_loop port 0x20 vs tr = Done (Ports vs' (tr ++ map (PIn port) (busy ++ [v]))) /\ ready_count vs = S (ready_count vs').
Proof.
  induction vs as [| v vs IH]; intros tr Hr; [cbn in Hr; lia |]. cbn [wait_loop]. cbv zeta. unfold ready_count in *. cbn [List.filter] in *.
  destruct (Z.eqb_spec (Z.land v 0x20) 0) as [E | E]; cbn [negb] in *.
  - destruct (IH (tr ++ [PIn port v]) Hr) as (busy & w & vs' & -> & H1 & H2 & -> & H3).
    exists (v :: busy), w, vs'. split; [done |]. split; [by constructor |]. split; [done |]. split; [| done].
    cbn. by rewrite <- app_assoc.
  - exists [], v, vs. by split_and!.
Qed.

Lemma put_one_spec combase c s : (0 < ready_count (answers s))%nat -> exists s' tr, put_one combase c s = Done s' /\
  trace s' = trace s ++ tr /\ (forall bs tr', sent combase bs tr' -> sent combase (c mod 256 :: bs) (tr ++ tr')) /\
  ready_count (answers s) = S (ready_count (answers s')).
Proof.
  intros Hr. destruct (wait_loop_ready (combase + COM_LSR) (answers s) (trace s) Hr) as (busy & v & vs' & E & Hb & Hv & Ew & Hc).
  unfold put_one, wait_for. rewrite Ew, Done_bind. eexists _, _. split; [reflexivity |]. cbn [trace com_outb answers].
  split; [by rewrite <- app_assoc |]. split; [| done]. intros bs tr' Hs. rewrite <- app_assoc. by constructor.
Qed.

(** When the transmitter becomes ready once for every byte, a text is sent
    with its line ends converted, each byte after a poll that found the
    transmitter ready. *)
Theorem serial_sends combase cs : forall s, combase <> 0 -> (length (line_bytes cs) <= ready_count (answers s))%nat ->
  exists s' tr, serial_puts combase cs s = Done s' /\ trace s' = trace s ++ tr /\ sent combase (line_bytes cs) tr.
Proof.
  induction cs as [| c cs IH]; intros s Hc Hr; cbn [serial_puts].
  - exists s, []. split; [done |]. split; [by rewrite app_nil_r | constructor].
  - unfold line_bytes in *. cbn [map concat] in *. rewrite length_app, length_map in Hr.
    unfold serialcons_putc. rewrite (proj2 (Z.eqb_neq _ _) Hc). unfold crlf at 1 2. unfold crlf at 1 in Hr.
    destruct (Z.eqb_spec c 10) as [-> | Hne]; cbn [length map app] in *.
    + destruct (put_one_spec combase 13 s) as (s1 & t1 & -> & T1 & S1 & R1); [lia |]. rewrite Done_bind.
      destruct (put_one_spec combase 10 s1) as (s2 & t2 & -> & T2 & S2 & R2); [lia |]. rewrite Done_bind.
      destruct (IH s2 Hc) as (s' & t3 & -> & T3 & S3); [lia |]. exists s', (t1 ++ t2 ++ t3). split; [done |].
      split; [rewrite T3, T2, T1; by rewrite <- !app_assoc | by apply S1, S2].
    + rewrite Done_bind. destruct (put_one_spec combase c s) as (s1 & t1 & -> & T1 & S1 & R1); [lia |]. rewrite Done_bind.
      destruct (IH s1 Hc) as (s' & t3 & -> & T3 & S3); [lia |]. exists s', (t1 ++ t3). split; [done |].
      split; [rewrite T3, T1; by rewrite <- !app_assoc | by apply S1].
Qed.

(** After a reset request that has no effect, a NUL moves [pos] behind the
    terminator of [reset_buffer], and the next character is compared with a
    byte outside it. *)
Theorem reset_overrun : exists w, getDebugChar 0x3f8 0 (Dbg 0 0 0 0 [])
  (Ports ([1] ++ concat (map (fun c => [1; c]) (bytes_of "reset" ++ [0; 120])) ++ [0]) []) = Undef w.
Proof. eexists. vm_compute. reflexivity. Qed.

End Serial.

(** ** The choice of the console (cons.c) *)
Module Cons.
Import Vga Serial.

Inductive vcons := VCVga | VCSerial.
(** [c_printf] is the hook [bmk_printf] has been given. *)
Record cons := ConsState { c_vga : vga; c_ports : ports; c_base : Z; vcons_putc : vcons; c_printf : option vcons }.
Definition hook_init (s : cons) : cons := ConsState (c_vga s) (c_ports s) (c_base s) (vcons_putc s) (Some (vcons_putc s)).

(** [cons_putc]; characters of a string are signed. *)
Definition cons_putc (c : Z) (s : cons) : outcome cons :=
  match vcons_putc s with
  | VCVga => v ← vgacons_putc c (c_vga s); Done (ConsState v (c_ports s) (c_base s) VCVga (c_printf s))
  | VCSerial => p ← serialcons_putc (c_base s) c (c_ports s); Done (ConsState (c_vga s) p (c_base s) VCSerial (c_printf s))
  end.
Fixpoint cons_puts (l : list Z) (s : cons) : outcome cons :=
  match l with
  | [] => Done s
  | b :: l => s ← cons_putc (schar b) s; cons_puts l s
  end.

(** [bios_com1_base] is what the BIOS reports; under Xen or not, the serial
    console is preferred. *)
Definition cons_init (xen : bool) (bios_com1_base : Z) (s : cons) : outcome cons :=
  let prefer_serial := false in
  let prefer_serial := if xen then true else prefer_serial in
  let prefer_serial := true in
  s ← (if prefer_serial && negb (bios_com1_base =? 0) then
         s ← cons_puts (bytes_of "Using serial console.") s;
         '(b, p) ← serialcons_init bios_com1_base 115200 (c_ports s);
         Done (ConsState (c_vga s) p b VCSerial (c_printf s))
       else Done s);
  Done (hook_init s).

(** With a serial port and nothing pending on it, the console moves there
    after a note on the screen, the line at 115200 baud (divisor 1), whatever
    the hypervisor and whether or not there is a screen. *)
Theorem cons_init_serial xen base buf a b c : 0 < base < 2 ^ 16 -> length buf = 2000%nat ->
  exists s, cons_init xen base (ConsState (Vga buf 0 0) (Ports [a; b; c; 0] []) 0 VCVga None) = Done s /\
    c_printf s = Some VCSerial /\ c_base s = base /\
    [POut (base + COM_LCTL) 128; POut (base + COM_DLBL) 1; POut (base + COM_DLBH) 0; POut (base + COM_LCTL) 3]
      = take 4 (drop 1 (trace (c_ports s))) /\
    shows (c_vga s) (fold_left (fun t c => term_putc c t) (bytes_of "Using serial console.") (Term (rows_of 25 buf) 0 0)).
Proof.
  intros Hb Hbuf. unfold cons_init. cbn [andb negb]. rewrite (proj2 (Z.eqb_neq base 0)) by lia. cbn [negb].
  assert (forall l v t p, shows v t -> Forall (fun b => 0 <= b < 128) l -> exists v',
    cons_puts l (ConsState v p 0 VCVga None) = Done (ConsState v' p 0 VCVga None) /\ shows v' (fold_left (fun t c => term_putc c t) l t)) as Hputs.
  { induction l as [| x l IH]; intros v t p Hs Hl; [by exists v |]. apply Forall_cons in Hl as [Hx Hl].
    cbn [cons_puts cons_putc vcons_putc c_vga c_printf fold_left]. unfold schar. rewrite (proj2 (Z.ltb_lt x 128)) by lia.
    destruct (vgacons_putc_shows x v t Hs) as (v1 & -> & Hs1). rewrite !Done_bind. by apply IH. }
  destruct (Hputs (bytes_of "Using serial console.") (Vga buf 0 0) _ (Ports [a; b; c; 0] []) (initial_shows buf Hbuf)) as (v & -> & Hv).
  { apply (bool_decide_unpack _). vm_compute. exact I. }
  rewrite Done_bind. cbn [c_ports c_vga]. eexists. split; [reflexivity |]. cbn [vcons_putc c_base c_ports c_vga].
  split; [done |]. split; [done |]. split; [reflexivity | done].
Qed.
End Cons.

(** ** PCI (rumppci.c) *)
Module Pci.

Definition PCI_CONF_ADDR : Z := 0xcf8.
Definition PCI_CONF_DATA : Z := 0xcfc.

(** The result is a [uint32_t]. *)
Definition makeaddr (bus dev fn reg : Z) : Z :=
  wrap32 (Z.lor (Z.lor (Z.lor (Z.lor (2 ^ 31) (Z.shiftl bus 16)) (Z.shiftl dev 11)) (Z.shiftl fn 8)) (Z.land reg 0xfc)).

(** The host bridge: the address register, and the configuration space by the
    value of that register. *)
Record bridge := Bridge { conf_addr : Z; conf_space : gmap Z Z }.
Definition outl (port v : Z) (s : bridge) : bridge :=
  if port =? PCI_CONF_ADDR then Bridge v (conf_space s)
  else if port =? PCI_CONF_DATA then Bridge (conf_addr s) (<[conf_addr s := v]> (conf_space s))
  else s.
Definition inl (port : Z) (s : bridge) : Z :=
  if port =? PCI_CONF_DATA then default (2 ^ 32 - 1) (conf_space s !! conf_addr s) else conf_addr s.

Definition rumpcomp_pci_confread (bus dev fn reg : Z) (s : bridge) : Z * bridge :=
  let s := outl PCI_CONF_ADDR (makeaddr bus dev fn reg) s in
  (inl PCI_CONF_DATA s, s).
Definition rumpcomp_pci_confwrite (bus dev fn reg value : Z) (s : bridge) : bridge :=
  let s := outl PCI_CONF_ADDR (makeaddr bus dev fn reg) s in
  outl PCI_CONF_DATA value s.

(** The devices whose interrupts are mapped, by cookie. *)
Record pcidata := PciData { pd_intrs : Z; pd_bus : Z; pd_dev : Z; pd_function : Z }.
Record pci := PciState { intrs : list Z; pci_data : list pcidata }.
Definition pci_init : pci := PciState (replicate (Z.to_nat BMK_MAXINTR) 0) (replicate (Z.to_nat BMK_MAXINTR) (PciData 0 0 0 0)).

Definition rumpcomp_pci_irq_map (bus device fn intrline cookie : Z) (s : pci) : outcome (Z * pci) :=
  if BMK_MAXINTR <? cookie then Done (BMK_EGENERIC, s)
  else if cookie <? Z.of_nat (length (intrs s)) then
    Done (0, PciState (<[Z.to_nat cookie := intrline]> (intrs s)) (<[Z.to_nat cookie := PciData intrline bus device fn]> (pci_data s)))
  else Undef "intrs[cookie]".

Definition rumpcomp_pci_get_bdf (cookie : Z) (s : pci) : outcome (option (Z * Z * Z)) :=
  if BMK_MAXINTR <? cookie then Done None
  else
    d ← of_option "pci_data[cookie]" (pci_data s !! Z.to_nat cookie);
    Done (Some (pd_bus d, pd_dev d, pd_function d)).

(** [handler] with its argument is registered with the interrupt code. *)
Definition rumpcomp_pci_irq_establish (screw : bool) (cookie : Z) (h : intrhand) (ok : bool) (s : pci) (i : intr_state)
    : outcome intr_state :=
  line ← of_option "intrs[cookie]" (intrs s !! Z.to_nat cookie);
  bmk_isr_rumpkernel screw h line BMK_INTR_ROUTED ok i.

(** *** Configuration space *)
Definition bdf_ok (bus dev fn reg : Z) : Prop := 0 <= bus < 256 /\ 0 <= dev < 32 /\ 0 <= fn < 8 /\ 0 <= reg < 256.

(** The fields as the bridge decodes them. *)
Definition decode (a : Z) : Z * Z * Z * Z :=
  (Z.shiftr a 16 mod 256, Z.shiftr a 11 mod 32, Z.shiftr a 8 mod 8, Z.shiftr (a mod 256) 2).

Lemma lor_add a b n : 0 <= n -> 0 <= b < 2 ^ n -> (2 ^ n | a) -> Z.lor a b = a + b.
Proof.
  intros Hn Hb [k ->]. assert (Z.land (k * 2 ^ n) b = 0) as H.
  { apply Z.bits_inj'. intros i Hi. rewrite Z.land_spec, Z.bits_0. destruct (Z.ltb_spec i n) as [Hlt | Hge].
    - by rewrite Z.mul_pow2_bits_low by lia.
    - replace b with (b mod 2 ^ n) by (apply Z.mod_small; lia). rewrite Z.mod_pow2_bits_high by lia. apply andb_false_r. }
  by rewrite <- Z.lxor_lor, <- Z.add_nocarry_lxor.
Qed.

Lemma makeaddr_sum bus dev fn reg : bdf_ok bus dev fn reg ->
  makeaddr bus dev fn reg = 2 ^ 31 + bus * 2 ^ 16 + dev * 2 ^ 11 + fn * 2 ^ 8 + 4 * (reg / 4).
Proof.
  intros (Hb & Hd & Hf & Hr). unfold makeaddr. rewrite !Z.shiftl_mul_pow2 by lia.
  assert (Z.land reg 0xfc = 4 * (reg / 4)) as ->.
  { replace 0xfc with (Z.ldiff (Z.ones 8) (Z.ones 2)) by reflexivity.
    assert (Z.land reg (Z.ldiff (Z.ones 8) (Z.ones 2)) = Z.ldiff (Z.land reg (Z.ones 8)) (Z.ones 2)) as ->
      by (rewrite !Z.ldiff_land; apply Z.land_assoc).
    rewrite Z.land_ones, Z.mod_small by lia. rewrite Z.ldiff_ones_r by lia.
    rewrite Z.shiftl_mul_pow2, Z.shiftr_div_pow2 by lia. change (2 ^ 2) with 4. lia. }
  assert (0 <= reg / 4 < 64) as Hq by (split; [apply Z.div_pos; lia | apply Z.div_lt_upper_bound; lia]).
  rewrite (lor_add (2 ^ 31) _ 31), (lor_add _ (dev * 2 ^ 11) 16), (lor_add _ (fn * 2 ^ 8) 11), (lor_add _ (4 * (reg / 4)) 8).
  all: try lia. { apply Z.mod_small. lia. }
  - exists (2 ^ 23 + bus * 2 ^ 8 + dev * 2 ^ 3 + fn). lia.
  - exists (2 ^ 20 + bus * 2 ^ 5 + dev). lia.
  - exists (2 ^ 15 + bus). lia.
  - by exists 1.
Qed.

Lemma makeaddr_inj bus dev fn reg bus' dev' fn' reg' : bdf_ok bus dev fn reg -> bdf_ok bus' dev' fn' reg' ->
  makeaddr bus dev fn reg = makeaddr bus' dev' fn' reg' -> bus = bus' /\ dev = dev' /\ fn = fn' /\ reg / 4 = reg' / 4.
Proof.
  intros H H'. rewrite !makeaddr_sum by done. destruct H as (? & ? & ? & ?), H' as (? & ? & ? & ?).
  assert (0 <= reg / 4 < 64) by (split; [apply Z.div_pos; lia | apply Z.div_lt_upper_bound; lia]).
  assert (0 <= reg' / 4 < 64) by (split; [apply Z.div_pos; lia | apply Z.div_lt_upper_bound; lia]). lia.
Qed.

(** Configuration space as the driver sees it: a write is read back from the
    same register of the same function, and changes no other register of any
    function. *)
Theorem pci_conf_roundtrip bus dev fn reg v bus' dev' fn' reg' s : bdf_ok bus dev fn reg -> bdf_ok bus' dev' fn' reg' ->
  (rumpcomp_pci_confread bus' dev' fn' reg' (rumpcomp_pci_confwrite bus dev fn reg v s)).1 =
  if bool_decide (bus = bus' /\ dev = dev' /\ fn = fn' /\ reg / 4 = reg' / 4) then v
  else (rumpcomp_pci_confread bus' dev' fn' reg' s).1.
Proof.
  intros H H'. cbn -[makeaddr]. destruct (decide (makeaddr bus dev fn reg = makeaddr bus' dev' fn' reg')) as [E | Hne].
  - pose proof (makeaddr_inj _ _ _ _ _ _ _ _ H H' E) as Hi. rewrite bool_decide_true by done. by rewrite E, lookup_insert_eq.
  - rewrite lookup_insert_ne by done. rewrite bool_decide_false; [done |]. intros (-> & -> & -> & Hr). apply Hne.
    rewrite !makeaddr_sum by done. by rewrite Hr.
Qed.

(** *** Interrupts *)
Definition pci_ok (s : pci) : Prop := length (intrs s) = 32%nat /\ length (pci_data s) = 32%nat.

(** A device mapped under a cookie below [BMK_MAXINTR] is found under it, and
    a handler established for it is registered for its interrupt line. *)
Theorem pci_irq_mapped bus dev fn line cookie s : pci_ok s -> 0 <= cookie < BMK_MAXINTR ->
  exists s', rumpcomp_pci_irq_map bus dev fn line cookie s = Done (0, s') /\ pci_ok s' /\
    rumpcomp_pci_get_bdf cookie s' = Done (Some (bus, dev, fn)) /\
    (forall screw h ok i, rumpcomp_pci_irq_establish screw cookie h ok s' i = bmk_isr_rumpkernel screw h line BMK_INTR_ROUTED ok i) /\
    (forall c, 0 <= c -> c <> cookie -> rumpcomp_pci_get_bdf c s' = rumpcomp_pci_get_bdf c s).
Proof.
  intros [H1 H2] Hc. unfold rumpcomp_pci_irq_map, rumpcomp_pci_get_bdf, rumpcomp_pci_irq_establish, BMK_MAXINTR in *.
  rewrite (proj2 (Z.ltb_ge 32 cookie)), (proj2 (Z.ltb_lt cookie _)) by lia.
  eexists. split; [reflexivity |]. cbn [intrs pci_data]. split; [split; cbn; by rewrite length_insert |].
  rewrite !list_lookup_insert_eq by lia. split; [done |]. split; [done |].
  intros c Hc0 Hne. by rewrite list_lookup_insert_ne by lia.
Qed.

(** The bound is checked with [>]: the cookie [BMK_MAXINTR] is accepted, and
    stored behind the end of the array. *)
Theorem pci_cookie_bound bus dev fn line s : pci_ok s ->
  rumpcomp_pci_irq_map bus dev fn line BMK_MAXINTR s = Undef "intrs[cookie]" /\
  rumpcomp_pci_get_bdf BMK_MAXINTR s = Undef "pci_data[cookie]".
Proof.
  intros [H1 H2]. unfold rumpcomp_pci_irq_map, rumpcomp_pci_get_bdf. rewrite H1. split; [done |].
  change (BMK_MAXINTR <? BMK_MAXINTR) with false. cbv iota. by rewrite lookup_ge_None_2 by (rewrite H2; unfold BMK_MAXINTR; lia).
Qed.

(** ** DMA memory (rumpdma.c) *)
Definition DMA_ENOMEM : Z := 12.

(** [for (i = 0; size >> (i + BMK_PCPU_PAGE_SHIFT); i++)]; a shift by 64 is
    undefined. *)
Fixpoint order_loop (fuel : nat) (size i : Z) : outcome Z :=
  match fuel with
  | O => Undef "shift by 64"
  | S fuel => if Z.shiftr size (i + BMK_PCPU_PAGE_SHIFT) =? 0 then Done i else order_loop fuel size (i + 1)
  end.
Definition dma_order (size : Z) : outcome Z := order_loop 52 size 0.

(** The result, [*pap] and [*vap]. *)
Definition rumpcomp_pci_dmalloc (size align : Z) (s : pgstate) : outcome (Z * option (Z * Z) * pgstate) :=
  i ← dma_order size;
  let align := if align <? BMK_PCPU_PAGE_SIZE then BMK_PCPU_PAGE_SIZE else align in
  '(m, s) ← bmk_pgalloc_align s i align;
  if m =? 0 then Done (DMA_ENOMEM, None, s) else Done (0, Some (m, m), s).

(** [dss] are the [ds_vacookie] of the segments. *)
Definition rumpcomp_pci_dmamem_map (dss : list Z) (nseg : Z) : outcome (Z * option Z) :=
  if 1 <? nseg then Done (1, None) else va ← of_option "dss[0]" (head dss); Done (0, Some va).

Definition rumpcomp_pci_dmafree (m size : Z) (s : pgstate) : outcome pgstate :=
  i ← dma_order size; bmk_pgfree s m i.

Definition rumpcomp_pci_virt_to_mach (virt : Z) : Z := virt.

Lemma order_loop_spec n : forall size i, 0 <= i -> 0 <= size < 2 ^ (i + Z.of_nat n + 11) -> (0 < n)%nat ->
  exists o, order_loop n size i = Done o /\ i <= o < i + Z.of_nat n /\ size < bsize o.
Proof.
  induction n as [| n IH]; intros size i Hi Hs Hn; [lia |]. cbn [order_loop].
  rewrite Z.shiftr_div_pow2 by (unfold BMK_PCPU_PAGE_SHIFT; lia). unfold BMK_PCPU_PAGE_SHIFT.
  pose proof (Z.pow_pos_nonneg 2 (i + 12) ltac:(lia) ltac:(lia)) as Hp.
  destruct (Z.eqb_spec (size / 2 ^ (i + 12)) 0) as [E | E].
  - exists i. split; [done |]. split; [lia |]. apply Z.div_small_iff in E; [| lia]. unfold bsize.
    lia.
  - destruct n as [| n].
    { exfalso. apply E, Z.div_small. replace (i + 12) with (i + Z.of_nat 1 + 11) by lia. lia. }
    destruct (IH size (i + 1)) as (o & -> & Ho & Hb); [lia | | lia |].
    + replace (i + 1 + Z.of_nat (S n) + 11) with (i + Z.of_nat (S (S n)) + 11) by lia. done.
    + exists o. split; [done |]. lia.
Qed.

(** DMA memory from a consistent page allocator: [dmalloc] succeeds or says
    there is none.  A buffer has at least the size asked for, the alignment
    asked for, and shares no page with what was allocated before; its bus
    address is its address; and [dmafree] with the same size gives it back. *)
Theorem hw_dma_roundtrip size k live s : pg_inv s live -> 0 <= size < 2 ^ 63 -> 0 <= k < 64 ->
  exists r res s', rumpcomp_pci_dmalloc size (2 ^ k) s = Done (r, res, s') /\
    match res with
    | None => r = DMA_ENOMEM /\ s' = s
    | Some (pa, va) => r = 0 /\ pa = va /\ rumpcomp_pci_virt_to_mach va = pa /\
        exists o, size < bsize o /\ (2 ^ Z.max k 12 | va) /\ pg_inv s' ((va, o) :: live) /\
          exists s'', rumpcomp_pci_dmafree va size s' = Done s'' /\ pg_inv s'' live
    end.
Proof.
  intros Hinv Hs Hk. unfold rumpcomp_pci_dmalloc, rumpcomp_pci_dmafree.
  destruct (order_loop_spec 52 size 0) as (o & Eo & Ho & Hb); [lia.. |]. unfold dma_order. rewrite Eo, !Done_bind. cbv zeta.
  assert ((if 2 ^ k <? BMK_PCPU_PAGE_SIZE then BMK_PCPU_PAGE_SIZE else 2 ^ k) = 2 ^ Z.max k 12) as ->.
  { unfold BMK_PCPU_PAGE_SIZE. destruct (Z.ltb_spec (2 ^ k) 4096) as [H | H].
    - change 4096 with (2 ^ 12) in H. apply Z.pow_lt_mono_r_iff in H; [| lia..]. by rewrite Z.max_r by lia.
    - change 4096 with (2 ^ 12) in H. apply Z.pow_le_mono_r_iff in H; [| lia..]. by rewrite Z.max_l by lia. }
  destruct (pg_inv_alloc s live o (Z.max k 12) Hinv) as (p & s' & -> & _ & H); [unfold FREELIST_LEVELS, BMK_PCPU_PAGE_SHIFT; lia | lia |].
  rewrite Done_bind. cbv beta iota. destruct H as [[-> ->] | (Hp & Hal & Hinv')].
  - cbn [Z.eqb]. eexists _, _, _. split; [reflexivity |]. done.
  - rewrite (proj2 (Z.eqb_neq _ _) Hp). eexists _, _, _. split; [reflexivity |]. cbv beta iota.
    split; [done |]. split; [done |]. split; [done |]. exists o. split; [done |]. split; [done |]. split; [done |].
    rewrite Done_bind. destruct (pg_inv_free s' live p o Hinv') as (s'' & -> & Hi & _). by exists s''.
Qed.
End Pci.
