(* ===== verification/Blkfront.v ===== *)
(** * Block devices of the Xen platform (platform/xen/xen/blkfront.c)

    Requests go to the backend through a ring in a shared page, and the pages
    of their buffers are granted to it.  The ring macros are those of Xen's
    public headers: a class states what they promise.  Its indices are
    free-running counters; that they are 32 bits wide is not modelled.

    Threads are not preempted, so that the code between two points where a
    thread may give up the CPU is one step; the backend and the interrupt come
    between the steps.  A completion callback of the rump kernel may give up
    the CPU, and then other threads may use the driver in the middle of
    [blkfront_aio_poll].  Interrupts are off in the wait loops.

    The grant references are shared with other devices, which take them and
    give them back when the driver's threads do not run; [others_max] bounds
    how many they hold.  A reference whose page the backend still uses is not
    freed by [gnttab_end_access], whose result the driver ignores. *)

From S2P Require Import Prelude.

Definition PAGE_SIZE : Z := 4096.
Definition BLKIF_MAX_SEGMENTS_PER_REQUEST : Z := 11.
Definition BLKIF_OP_READ : Z := 0.
Definition BLKIF_OP_WRITE : Z := 1.
Definition BLKIF_OP_WRITE_BARRIER : Z := 2.
Definition BLKIF_OP_FLUSH_DISKCACHE : Z := 3.
Definition BLKIF_RSP_OKAY : Z := 0.
Definition BMK_EIO : Z := 5.

Record blk_seg := Seg { gref : Z; first_sect : Z; last_sect : Z }.
Record blk_req := Req { rq_op : Z; rq_id : Z; rq_sector : Z; rq_segs : list blk_seg }.
Record blk_rsp := Rsp { rs_id : Z; rs_op : Z; rs_status : Z }.

(** ** The ring

    [in_flight] are the requests that have been pushed and not answered,
    [avail] the responses behind [rsp_cons], and [armed] says that the next
    response raises the event. *)
Class BlkRing := {
  ring : Type;
  RING_SIZE : nat;
  ring_init : ring;
  in_flight : ring -> list blk_req;
  avail : ring -> list blk_rsp;
  armed : ring -> bool;
  req_prod_pvt : ring -> Z;
  rsp_prod : ring -> Z;
  rsp_cons : ring -> Z;
  ring_free : ring -> nat;
  ring_push : blk_req -> ring -> ring;
  get_response : ring -> Z -> option blk_rsp;
  set_rsp_cons : Z -> ring -> ring;
  final_check : ring -> bool * ring;
  backend_answer : nat -> Z -> ring -> bool * ring;
  ring_size_pos : (0 < RING_SIZE)%nat;
  ring_init_empty : in_flight ring_init = [] /\ avail ring_init = [] /\ armed ring_init = true /\ rsp_prod ring_init = rsp_cons ring_init;
  ring_free_spec r : (length (in_flight r) + length (avail r) <= RING_SIZE)%nat ->
    ring_free r = (RING_SIZE - length (in_flight r) - length (avail r))%nat;
  avail_spec r : rsp_prod r = rsp_cons r + Z.of_nat (length (avail r)) /\ get_response r (rsp_cons r) = head (avail r);
  ring_push_spec q r : (0 < ring_free r)%nat ->
    in_flight (ring_push q r) = in_flight r ++ [q] /\ avail (ring_push q r) = avail r /\ armed (ring_push q r) = armed r /\
    req_prod_pvt (ring_push q r) = req_prod_pvt r + 1 /\ rsp_cons (ring_push q r) = rsp_cons r;
  set_rsp_cons_spec x l r : avail r = x :: l -> let r' := set_rsp_cons (rsp_cons r + 1) r in
    in_flight r' = in_flight r /\ avail r' = l /\ armed r' = armed r /\ req_prod_pvt r' = req_prod_pvt r /\
    rsp_cons r' = rsp_cons r + 1;
  final_check_spec r : let '(more, r') := final_check r in
    in_flight r' = in_flight r /\ avail r' = avail r /\ req_prod_pvt r' = req_prod_pvt r /\ rsp_cons r' = rsp_cons r /\
    more = negb (bool_decide (avail r = [])) /\ (more = false -> armed r' = true);
  (** The backend answers the [k]-th request in flight. *)
  backend_answer_spec k q status r : in_flight r !! k = Some q -> let '(event, r') := backend_answer k status r in
    in_flight r' = delete k (in_flight r) /\ avail r' = avail r ++ [Rsp (rq_id q) (rq_op q) status] /\
    req_prod_pvt r' = req_prod_pvt r /\ rsp_cons r' = rsp_cons r /\ (armed r = true -> event = true) /\
    (event = false -> armed r' = armed r)
}.

(** ** Segments of a request *)

(** [((uintptr_t)buf + nbytes + PAGE_SIZE - 1) & PAGE_MASK], and so on. *)
Definition page_trunc (a : Z) : Z := Z.land a (wnot (PAGE_SIZE - 1)).
Definition aio_start (buf : Z) : Z := page_trunc buf.
Definition aio_end (buf nbytes : Z) : Z := page_trunc (wsub (wadd (wadd buf nbytes) PAGE_SIZE) 1).
Definition aio_pages (buf nbytes : Z) : Z := wsub (aio_end buf nbytes) (aio_start buf) / PAGE_SIZE.

(** [(first_sect, last_sect)] of the segments. *)
Definition aio_sects (buf nbytes : Z) (n : nat) : list (Z * Z) :=
  let l := replicate n (0, PAGE_SIZE / 512 - 1) in
  let l := alter (fun s => (Z.land buf (PAGE_SIZE - 1) / 512, s.2)) 0%nat l in
  alter (fun s => (s.1, Z.land (wsub (wadd buf nbytes) 1) (PAGE_SIZE - 1) / 512)) (n - 1)%nat l.

(** ** Requests of the callers *)

(** The callback: that of [blkfront_io], or of the rump kernel. *)
Inductive cbkind := CbIo | CbBio.
Global Instance cbkind_eq_dec : EqDecision cbkind.
Proof. solve_decision. Defined.

Record aiocb := Aiocb {
  aio_cb : option cbkind;
  aio_buf : Z;
  aio_nbytes : Z;
  aio_offset : Z;
  aio_gref : list Z;
  aio_data : bool
}.
Definition set_gref (l : list Z) (a : aiocb) : aiocb := Aiocb (aio_cb a) (aio_buf a) (aio_nbytes a) (aio_offset a) l (aio_data a).
Definition set_data (b : bool) (a : aiocb) : aiocb := Aiocb (aio_cb a) (aio_buf a) (aio_nbytes a) (aio_offset a) (aio_gref a) b.

(** What a thread puts on the ring: a transfer, or an operation without
    data. *)
Inductive job := JAio (id : Z) (write : bool) | JPush (op : Z).
(** What it does afterwards: return, wait for its request, or push the other
    operations of a [blkfront_sync] and wait for the ring to be empty. *)
Inductive fin := FDone | FIo (id : Z) | FSync (ops : list Z).

(** Who calls [blkfront_aio_poll]: the loops of [blkfront_wait_slot],
    [blkfront_io], [blkfront_sync] and [biothread]. *)
Inductive caller := KSlot (j : job) (f : fin) | KIo (id : Z) | KSync | KBio.

Inductive pc :=
  | PSlot (j : job) (f : fin)                        (* at blkfront_wait_slot *)
  | PPoll (k : caller)                               (* at moretodo *)
  | PLoop (k : caller) (rp co did : Z)             (* at the loop condition *)
  | PCb (k : caller) (rp co did id status : Z)     (* in a callback of the rump kernel *)
  | PChk (k : caller) (rp co did : Z)              (* behind the callback *)
  | PAfter (k : caller) (did : Z)                    (* behind blkfront_aio_poll *)
  | PSleep (k : caller) (woken : bool)               (* in minios_wait *)
  | PGo (j : job) (f : fin)                          (* behind blkfront_wait_slot *)
  | PGrant (id : Z) (write : bool) (f : fin) (i n : Z) (* granting the pages *)
  | PBio                                             (* the outer loop of biothread *)
  | PDone.

(** Of the grant table: the references whose pages the backend uses although it
    has answered, and those other devices hold. *)
Record grants := Grants { in_use : list Z; others : list Z }.

Section Blkfront.
Context {RB : BlkRing} (sector_size : Z) (others_max : nat).

Record blk := Blk {
  dring : ring;
  evt_pending : bool;
  gfree : list Z;                (** free grant references *)
  cbs : gmap Z aiocb;
  outstanding : Z;               (** [blk_outstanding] and [bio_outstanding_total] *)
  threads : list pc;
  cur : nat;                     (** the thread that runs *)
  completed : list (Z * Z);      (** callbacks made, with the result *)
  answered : list (Z * Z);       (** answers of the backend, with the status *)
  gnt : grants
}.

Definition set_ring (r : ring) (s : blk) : blk := Blk r (evt_pending s) (gfree s) (cbs s) (outstanding s) (threads s) (cur s) (completed s) (answered s) (gnt s).
Definition set_gfree (l : list Z) (s : blk) : blk := Blk (dring s) (evt_pending s) l (cbs s) (outstanding s) (threads s) (cur s) (completed s) (answered s) (gnt s).
Definition set_cbs (m : gmap Z aiocb) (s : blk) : blk := Blk (dring s) (evt_pending s) (gfree s) m (outstanding s) (threads s) (cur s) (completed s) (answered s) (gnt s).
Definition set_outstanding (n : Z) (s : blk) : blk := Blk (dring s) (evt_pending s) (gfree s) (cbs s) n (threads s) (cur s) (completed s) (answered s) (gnt s).
Definition goto (p : pc) (s : blk) : blk := Blk (dring s) (evt_pending s) (gfree s) (cbs s) (outstanding s) (<[cur s := p]> (threads s)) (cur s) (completed s) (answered s) (gnt s).
Definition complete (id ret : Z) (s : blk) : blk :=
  Blk (dring s) (evt_pending s) (gfree s) (cbs s) (outstanding s) (threads s) (cur s) (completed s ++ [(id, ret)]) (answered s) (gnt s).

Definition set_gnt (g : grants) (s : blk) : blk := Blk (dring s) (evt_pending s) (gfree s) (cbs s) (outstanding s) (threads s) (cur s) (completed s) (answered s) g.

Definition cb_at (id : Z) (s : blk) : outcome aiocb := of_option "aiocbp" (cbs s !! id).

(** ** Submission *)

(** The operations [blkfront_sync] pushes before it waits, and where it goes
    from there. *)
Definition sync_ops (rdwr : bool) (barrier flush : Z) : list Z :=
  if rdwr then (if barrier =? 1 then [BLKIF_OP_WRITE_BARRIER] else []) ++ (if flush =? 1 then [BLKIF_OP_FLUSH_DISKCACHE] else [])
  else [].
Definition blkfront_sync (ops : list Z) : pc :=
  match ops with
  | [] => PPoll KSync
  | op :: ops => PSlot (JPush op) (FSync ops)
  end.

(** What follows a job whose request is on the ring. *)
Definition finish (f : fin) (s : blk) : outcome blk :=
  match f with
  | FDone => Done (goto PDone s)
  | FIo id => a ← cb_at id s; Done (goto (PPoll (KIo id)) (set_cbs (<[id := set_data false a]> (cbs s)) s))
  | FSync ops => Done (goto (blkfront_sync ops) s)
  end.

(** [blkfront_push_operation] behind [blkfront_wait_slot]. *)
Definition blkfront_push_operation (op id : Z) (f : fin) (s : blk) : outcome blk :=
  finish f (set_ring (ring_push (Req op id 0 []) (dring s)) s).

(** The checks of [blkfront_aio]. *)
Definition aio_checks (a : aiocb) : outcome unit :=
  _ ← bmk_assert (Z.land (aio_offset a) (sector_size - 1) =? 0) "!(aiocbp->aio_offset & (dev->info.sector_size-1))";
  _ ← bmk_assert (Z.land (aio_nbytes a) (sector_size - 1) =? 0) "!(aiocbp->aio_nbytes & (dev->info.sector_size-1))";
  _ ← bmk_assert (Z.land (aio_buf a) (sector_size - 1) =? 0) "!((uintptr_t) aiocbp->aio_buf & (dev->info.sector_size-1))";
  bmk_assert (aio_pages (aio_buf a) (aio_nbytes a) <=? BLKIF_MAX_SEGMENTS_PER_REQUEST) "n <= BLKIF_MAX_SEGMENTS_PER_REQUEST".

(** The request that is pushed. *)
Definition aio_request (id : Z) (write : bool) (a : aiocb) : blk_req :=
  let sects := aio_sects (aio_buf a) (aio_nbytes a) (length (aio_gref a)) in
  Req (if write then BLKIF_OP_WRITE else BLKIF_OP_READ) id (Z.quot (aio_offset a) 512)
    (zip_with (fun g s => Seg g s.1 s.2) (aio_gref a) sects).

(** The loop over [gnttab_grant_access], which waits while there is no free
    reference, and the push.  [i] is the index of the request that is being
    filled in. *)
Definition grant_step (id : Z) (write : bool) (f : fin) (i n : Z) (s : blk) : outcome blk :=
  a ← cb_at id s;
  if Z.of_nat (length (aio_gref a)) <? n then
    match gfree s with
    | [] => Done s
    | g :: gs => Done (set_gfree gs (set_cbs (<[id := set_gref (aio_gref a ++ [g]) a]> (cbs s)) s))
    end
  else if negb (req_prod_pvt (dring s) =? i) then Undef "the request has been overwritten"
  else
    let s := set_ring (ring_push (aio_request id write a) (dring s)) s in
    let s := match aio_cb a with Some CbBio => set_outstanding (outstanding s + 1) s | _ => s end in
    finish f s.

(** ** Completion *)

(** The callback of [blkfront_io], which does not give up the CPU, and the
    others. *)
Definition after_response (k : caller) (rp co did : Z) (rsp : blk_rsp) (s : blk) : outcome blk :=
  if rs_id rsp =? 0 then Done (goto (PChk k rp co did) s)
  else
    a ← cb_at (rs_id rsp) s;
    let ret := if rs_status rsp =? 0 then 0 else - BMK_EIO in
    match aio_cb a with
    | None => Done (goto (PChk k rp co did) s)
    | Some CbIo =>
        Done (goto (PChk k rp co did) (complete (rs_id rsp) ret (set_cbs (<[rs_id rsp := set_data true a]> (cbs s)) s)))
    | Some CbBio => Done (goto (PCb k rp co did (rs_id rsp) ret) s)
    end.

(** [gnttab_end_access] on the grants of a transfer: a reference still in use is
    not put back.  Other operations have no grants. *)
Definition end_grants (rsp : blk_rsp) (s : blk) : outcome blk :=
  if (rs_op rsp =? BLKIF_OP_READ) || (rs_op rsp =? BLKIF_OP_WRITE) then
    a ← cb_at (rs_id rsp) s;
    let freed := filter (fun g => g ∉ in_use (gnt s)) (aio_gref a) in
    Done (set_gfree (freed ++ gfree s) (set_cbs (<[rs_id rsp := set_gref [] a]> (cbs s)) s))
  else Done s.

(** The body of the loop of [blkfront_aio_poll]. *)
Definition poll_one (k : caller) (rp co did : Z) (s : blk) : outcome blk :=
  rsp ← of_option "RING_GET_RESPONSE" (get_response (dring s) co);
  s ← end_grants rsp s;
  let co := co + 1 in
  after_response k rp co (did + 1) rsp (set_ring (set_rsp_cons co (dring s)) s).

Definition poll_end (k : caller) (did : Z) (s : blk) : outcome blk :=
  let '(more, r) := final_check (dring s) in
  Done (goto (if (more : bool) then PPoll k else PAfter k did) (set_ring r s)).

(** [biocomp], once it has the CPU of the rump kernel. *)
Definition biocomp (id ret : Z) (s : blk) : outcome blk :=
  _ ← cb_at id s;
  Done (set_outstanding (outstanding s - 1) (set_cbs (delete id (cbs s)) (complete id ret s))).

(** What the loops do behind [blkfront_aio_poll]. *)
Definition after_poll (k : caller) (did : Z) (s : blk) : outcome blk :=
  match k with
  | KSlot j f => Done (goto (if (0 <? ring_free (dring s))%nat then PGo j f else PSleep k false) s)
  | KIo id => a ← cb_at id s; Done (goto (if aio_data a then PDone else PSleep k false) s)
  | KSync => Done (goto (if bool_decide (ring_free (dring s) = RING_SIZE) then PDone else PSleep k false) s)
  | KBio => Done (goto (if negb (did =? 0) then PBio else PSleep k false) s)
  end.

(** The loops of [biothread]: it polls when there is something outstanding,
    otherwise it stays at [rest], where it waits for [bio_cv] or for the
    interrupt. *)
Definition biothread (rest : pc) (s : blk) : outcome blk :=
  Done (goto (if outstanding s =? 0 then rest else PPoll KBio) s).

Definition thread_step (p : pc) (s : blk) : outcome blk :=
  match p with
  | PSlot j f => Done (goto (if (0 <? ring_free (dring s))%nat then PGo j f else PPoll (KSlot j f)) s)
  | PPoll k => Done (goto (PLoop k (rsp_prod (dring s)) (rsp_cons (dring s)) 0) s)
  | PLoop k rp co did => if co =? rp then poll_end k did s else poll_one k rp co did s
  | PCb k rp co did id ret => s ← biocomp id ret s; Done (goto (PChk k rp co did) s)
  | PChk k rp co did => if negb (rsp_cons (dring s) =? co) then poll_end k did s else Done (goto (PLoop k rp co did) s)
  | PAfter k did => after_poll k did s
  | PSleep KBio true => biothread (PSleep KBio false) s
  | PSleep k true => Done (goto (PPoll k) s)
  | PSleep _ false => Done s
  | PGo (JAio id write) f =>
      a ← cb_at id s;
      let n := aio_pages (aio_buf a) (aio_nbytes a) in
      if n <=? 0 then Undef "req->seg[n-1]"
      else Done (goto (PGrant id write f (req_prod_pvt (dring s)) n) s)
  | PGo (JPush op) f => blkfront_push_operation op 0 f s
  | PGrant id write f i n => grant_step id write f i n s
  | PBio => biothread PBio s
  | PDone => Done s
  end.

(** ** The machine *)

(** Where a thread may give up the CPU. *)
Definition yields (p : pc) (s : blk) : bool :=
  match p with
  | PCb _ _ _ _ _ _ | PSleep _ _ | PBio | PDone => true
  | PGrant id _ _ _ n =>
      bool_decide (gfree s = []) && match cbs s !! id with Some a => Z.of_nat (length (aio_gref a)) <? n | None => false end
  | _ => false
  end.
(** Where interrupts are off. *)
Definition irq_off (p : pc) : bool :=
  match p with PPoll _ | PLoop _ _ _ _ | PChk _ _ _ _ | PAfter _ _ => true | _ => false end.

Definition wake (p : pc) : pc := match p with PSleep k _ => PSleep k true | _ => p end.

(** [blkfront_handler]. *)
Definition blkfront_handler (s : blk) : blk :=
  Blk (dring s) false (gfree s) (cbs s) (outstanding s) (wake <$> threads s) (cur s) (completed s) (answered s) (gnt s).

Inductive event :=
  | EAio (id : Z) (buf nbytes offset : Z) (write : bool) (** [rumpuser_bio] calls [blkfront_aio] *)
  | EIo (id : Z) (buf nbytes offset : Z) (write : bool)  (** [blkfront_io] *)
  | ESync (rdwr : bool) (barrier flush : Z)       (** [blkfront_sync] *)
  | ERun (t : nat)                                (** the CPU goes to thread [t] *)
  | EStep                                         (** a step of the thread that runs *)
  | EBackend (k : nat) (status : Z) (held : list Z) (** an answer; the backend goes on using [held] *)
  | EUnmap                                        (** it uses nothing any more *)
  | EOtherGrant                                   (** another device takes a reference *)
  | EOtherEnd                                     (** and gives one back *)
  | EIrq.

Definition cur_pc (s : blk) : pc := default PDone (threads s !! cur s).

(** A new thread, which runs when it is given the CPU. *)
Definition spawn (p : pc) (s : blk) : blk :=
  Blk (dring s) (evt_pending s) (gfree s) (cbs s) (outstanding s) (threads s ++ [p]) (cur s) (completed s) (answered s) (gnt s).

(** [blkfront_aio], up to [blkfront_wait_slot]. *)
Definition blkfront_aio (id : Z) (a : aiocb) (write : bool) (f : fin) (s : blk) : outcome blk :=
  _ ← aio_checks a;
  Done (spawn (PSlot (JAio id write) f) (set_cbs (<[id := set_gref [] a]> (cbs s)) s)).

Definition blk_event (e : event) (s : blk) : outcome blk :=
  match e with
  | EAio id buf nbytes offset write => blkfront_aio id (Aiocb (Some CbBio) buf nbytes offset [] false) write FDone s
  | EIo id buf nbytes offset write => blkfront_aio id (Aiocb (Some CbIo) buf nbytes offset [] false) write (FIo id) s
  | ESync rdwr barrier flush => Done (spawn (blkfront_sync (sync_ops rdwr barrier flush)) s)
  | ERun t =>
      if yields (cur_pc s) s && bool_decide (t < length (threads s))%nat
      then Done (Blk (dring s) (evt_pending s) (gfree s) (cbs s) (outstanding s) (threads s) t (completed s) (answered s) (gnt s)) else Done s
  | EStep => thread_step (cur_pc s) s
  | EBackend k status held =>
      match in_flight (dring s) !! k with
      | None => Done s
      | Some q =>
          let '(ev, r) := backend_answer k status (dring s) in
          Done (Blk r (evt_pending s || ev) (gfree s) (cbs s) (outstanding s) (threads s) (cur s) (completed s)
                  (answered s ++ [(rq_id q, status)]) (Grants (held ++ in_use (gnt s)) (others (gnt s))))
      end
  | EUnmap => Done (set_gnt (Grants [] (others (gnt s))) s)
  | EOtherGrant =>
      match gfree s with
      | g :: gs =>
          if yields (cur_pc s) s && bool_decide (length (others (gnt s)) < others_max)%nat
          then Done (set_gnt (Grants (in_use (gnt s)) (g :: others (gnt s))) (set_gfree gs s)) else Done s
      | [] => Done s
      end
  | EOtherEnd =>
      match others (gnt s) with
      | g :: os => if yields (cur_pc s) s then Done (set_gnt (Grants (in_use (gnt s)) os) (set_gfree (g :: gfree s) s)) else Done s
      | [] => Done s
      end
  | EIrq => if evt_pending s && negb (irq_off (cur_pc s)) then Done (blkfront_handler s) else Done s
  end.

Fixpoint blk_run (es : list event) (s : blk) : outcome blk :=
  match es with
  | [] => Done s
  | e :: es => s ← blk_event e s; blk_run es s
  end.

(** The device is connected, the thread [biothread] exists. *)
Definition blk_init (refs : list Z) : blk := Blk ring_init false refs ∅ 0 [PBio] 0 [] [] (Grants [] []).
End Blkfront.

(** ** The segments cover the buffer *)

Local Ltac Zify.zify_post_hook ::= Z.to_euclidean_division_equations.

(** The sectors, counted from the page-aligned start, that a segment of the
    [i]-th page covers. *)
Definition seg_sectors (start : Z) (i : nat) (sg : Z * Z) : list Z :=
  seqZ (start / 512 + 8 * Z.of_nat i + sg.1) (sg.2 - sg.1 + 1).

Lemma aio_range buf nbytes o m p : buf = 4096 * p + 512 * o -> nbytes = 512 * m -> 0 <= p -> 0 <= o < 8 -> 0 < m ->
  buf + nbytes + 4096 < 2 ^ 64 ->
  aio_start buf = 4096 * p /\ aio_pages buf nbytes = (o + m + 7) / 8 /\
  Z.land buf (PAGE_SIZE - 1) / 512 = o /\ Z.land (wsub (wadd buf nbytes) 1) (PAGE_SIZE - 1) / 512 = (o + m - 1) mod 8.
Proof.
  intros Hb Hn Hp Ho Hm Hlt.
  assert (forall a, 0 <= a < 2 ^ 64 -> page_trunc a = a / 4096 * 4096) as Ht.
  { intros a Ha. unfold page_trunc, PAGE_SIZE. change (4096 - 1) with (2 ^ 12 - 1). rewrite land_wnot_ones by (unfold u64, W64; lia). change (2 ^ 12) with 4096. lia. }
  assert (forall a, Z.land a (PAGE_SIZE - 1) = a mod 4096) as Hl by (intros a; unfold PAGE_SIZE; change (4096 - 1) with (Z.ones 12); by rewrite Z.land_ones by lia).
  assert (aio_start buf = 4096 * p) as E1 by (unfold aio_start; rewrite Ht by lia; lia).
  assert (aio_end buf nbytes = 4096 * (p + (o + m + 7) / 8)) as E2.
  { unfold aio_end, PAGE_SIZE. rewrite (wadd_small buf), wadd_small, wsub_small by (unfold u64, W64; lia). rewrite Ht by lia. lia. }
  split; [done |]. split; [| rewrite !Hl, wadd_small, wsub_small by (unfold u64, W64; lia); split; lia].
  unfold aio_pages, PAGE_SIZE. rewrite E1, E2, wsub_small by (unfold u64, W64; lia). lia.
Qed.

Lemma aio_sects_split buf nbytes n : aio_sects buf nbytes (S (S n)) =
  (Z.land buf (PAGE_SIZE - 1) / 512, 7) :: replicate n (0, 7) ++ [(0, Z.land (wsub (wadd buf nbytes) 1) (PAGE_SIZE - 1) / 512)].
Proof.
  unfold aio_sects. change (PAGE_SIZE / 512 - 1) with 7. cbn [replicate]. replace (S (S n) - 1)%nat with (S n) by lia. cbn [alter list_alter snd]. f_equal.
  generalize (Z.land (wsub (wadd buf nbytes) 1) (PAGE_SIZE - 1) / 512) as e. induction n as [| n IH]; intros e; [done |].
  cbn [replicate app alter list_alter]. f_equal. apply IH.
Qed.

Lemma middle_sectors start n : forall i, concat (imap (fun j => seg_sectors start (i + j)) (replicate n (0, 7))) = seqZ (start / 512 + 8 * Z.of_nat i) (8 * Z.of_nat n).
Proof.
  induction n as [| n IH]; intros i; [done |]. cbn [replicate]. rewrite imap_cons. cbn [concat].
  rewrite (imap_ext _ (fun j => seg_sectors start (S i + j))) by (intros j x _; unfold compose; by rewrite Nat.add_succ_r). rewrite IH. unfold seg_sectors. cbn [fst snd].
  replace (8 * Z.of_nat (S n)) with (8 + 8 * Z.of_nat n) by lia. rewrite (seqZ_app _ 8) by lia. f_equal; f_equal; lia.
Qed.

(** The segments of a transfer cover the sectors of its buffer, each once and
    in order. *)
Theorem aio_segments_cover buf nbytes : 0 <= buf -> 0 < nbytes -> buf mod 512 = 0 -> nbytes mod 512 = 0 -> buf + nbytes + 4096 < 2 ^ 64 ->
  concat (imap (seg_sectors (aio_start buf)) (aio_sects buf nbytes (Z.to_nat (aio_pages buf nbytes)))) = seqZ (buf / 512) (nbytes / 512).
Proof.
  intros Hb Hn Hb512 Hn512 Hlt. set (p := buf / 4096). set (o := buf mod 4096 / 512). set (m := nbytes / 512).
  assert (buf = 4096 * p + 512 * o /\ nbytes = 512 * m /\ 0 <= p /\ 0 <= o < 8 /\ 0 < m) as (E1 & E2 & Hp & Ho & Hm) by (unfold p, o, m; lia).
  destruct (aio_range buf nbytes o m p E1 E2 Hp Ho Hm Hlt) as (F1 & F2 & F3 & F4). rewrite F1, F2. replace (buf / 512) with (8 * p + o) by lia.
  destruct (Z.to_nat ((o + m + 7) / 8)) as [| [| n]] eqn:En; [lia | |].
  - unfold aio_sects. cbn [replicate alter list_alter imap Nat.sub concat fst snd]. rewrite F3, F4. unfold seg_sectors. cbn [fst snd imap compose concat]. rewrite app_nil_r. f_equal; lia.
  - rewrite aio_sects_split, F3, F4, imap_cons, imap_app. cbn [concat]. rewrite concat_app.
    pose proof (middle_sectors (4096 * p) n 1) as Hmid.
    rewrite (imap_ext _ (fun j => seg_sectors (4096 * p) (1 + j))) by done. rewrite Hmid.
    cbn [imap compose concat]. rewrite length_replicate, app_nil_r. unfold seg_sectors. cbn [fst snd].
    replace m with ((7 - o + 1) + (8 * Z.of_nat n + ((o + m - 1) mod 8 + 1))) by lia.
    rewrite (seqZ_app _ (7 - o + 1)) by lia. rewrite (seqZ_app _ (8 * Z.of_nat n)) by lia. f_equal; [f_equal; lia |]. f_equal; f_equal; lia.
Qed.
