(* ===== verification/BlkfrontThms.v ===== *)
(** * Theorems about block devices

    The invariant accounts for every request: each one that has been submitted
    and not completed is in exactly one place, in a thread that submits it, on
    the ring, or in the callback; the grants of the pages are those of the
    requests.  Sleeping threads have an event coming. *)

From S2P Require Import Prelude Blkfront.

Section Inv.
Context {RB : BlkRing} (sector_size : Z) (others_max : nat).

(** ** Places *)

(** The requests on the ring, with their operation. *)
Definition ring_ops (r : ring) : list (Z * Z) :=
  map (fun q => (rq_id q, rq_op q)) (in_flight r) ++ map (fun x => (rs_id x, rs_op x)) (avail r).
Definition rids (l : list (Z * Z)) : list Z := filter (fun id => id <> 0) (map fst l).

Definition job_ids (j : job) : list Z := match j with JAio id _ => [id] | JPush _ => [] end.
Definition caller_ids (k : caller) : list Z := match k with KSlot j _ => job_ids j | _ => [] end.
Definition pc_caller (p : pc) : option caller :=
  match p with
  | PPoll k | PLoop k _ _ _ | PCb k _ _ _ _ _ | PChk k _ _ _ | PAfter k _ | PSleep k _ => Some k
  | _ => None
  end.
Definition cb_ids (p : pc) : list Z := match p with PCb _ _ _ _ id _ => [id] | _ => [] end.
Definition sub_ids (p : pc) : list Z :=
  match p with
  | PSlot j _ | PGo j _ => job_ids j
  | PGrant id _ _ _ _ => [id]
  | _ => default [] (caller_ids <$> pc_caller p)
  end.
Definition pc_ids (p : pc) : list Z := cb_ids p ++ sub_ids p.

Definition places (s : blk) : list Z := (threads s ≫= pc_ids) ++ rids (ring_ops (dring s)).

(** The part of a list that a change of one element leaves. *)
Lemma bind_insert {A B} (f : A -> list B) (l : list A) i x : l !! i = Some x ->
  exists rest, (l ≫= f) ≡ₚ f x ++ rest /\ (forall y, (<[i := y]> l ≫= f) ≡ₚ f y ++ rest) /\
    forall b, b ∈ rest <-> exists j y, j <> i /\ l !! j = Some y /\ b ∈ f y.
Proof.
  intros H. pose proof (lookup_lt_Some _ _ _ H) as Hlt. exists ((take i l ++ drop (S i) l) ≫= f). rewrite bind_app. split; [| split].
  - rewrite <- (take_drop_middle l i x H) at 1. rewrite bind_app, bind_cons. by rewrite app_assoc, (Permutation_app_comm _ (f x)), <- app_assoc.
  - intros y. rewrite insert_take_drop by done. rewrite bind_app, bind_cons.
    by rewrite app_assoc, (Permutation_app_comm _ (f y)), <- app_assoc.
  - intros b. rewrite elem_of_app, !list_elem_of_bind. split.
    + intros [(y & Hy & (j & Hj)%list_elem_of_lookup) | (y & Hy & (j & Hj)%list_elem_of_lookup)].
      * apply lookup_take_Some in Hj as [Hj Hlj]. exists j, y. split; [lia | done].
      * rewrite lookup_drop in Hj. exists (S i + j)%nat, y. split; [lia | done].
    + intros (j & y & Hne & Hj & Hy). destruct (decide (j < i)%nat).
      * left. exists y. split; [done |]. apply list_elem_of_lookup. exists j. by rewrite lookup_take_lt.
      * right. exists y. split; [done |]. apply list_elem_of_lookup. exists (j - S i)%nat. rewrite lookup_drop. rewrite <- Hj. f_equal. lia.
Qed.

Global Instance rids_perm : Proper ((≡ₚ) ==> (≡ₚ)) rids.
Proof. intros l1 l2 H. unfold rids. by rewrite H. Qed.

(** ** What is known of a request *)
Definition kind (m : gmap Z aiocb) (id : Z) : option cbkind := m !! id ≫= aio_cb.
Definition grefs (m : gmap Z aiocb) (id : Z) : list Z := default [] (aio_gref <$> m !! id).
Definition bio_count (m : gmap Z aiocb) (l : list Z) : Z := Z.of_nat (length (filter (fun id => kind m id = Some CbBio) l)).

Lemma bio_count_app m l1 l2 : bio_count m (l1 ++ l2) = bio_count m l1 + bio_count m l2.
Proof. unfold bio_count. rewrite filter_app, length_app. lia. Qed.

Global Instance bio_count_perm m : Proper ((≡ₚ) ==> (=)) (bio_count m).
Proof. intros l1 l2 H. unfold bio_count. by rewrite H. Qed.

Lemma bio_count_ext m m' l : (forall id, id ∈ l -> kind m' id = kind m id) -> bio_count m' l = bio_count m l.
Proof.
  intros H. unfold bio_count. induction l as [| id l IH]; [done |]. specialize (IH ltac:(set_solver)).
  pose proof (H id ltac:(set_solver)) as E. destruct (decide (kind m id = Some CbBio)).
  - rewrite !filter_cons_True by congruence. cbn. lia.
  - rewrite !filter_cons_False by congruence. lia.
Qed.

Lemma bio_count_one m id : bio_count m [id] = if decide (kind m id = Some CbBio) then 1 else 0.
Proof. unfold bio_count. rewrite filter_cons. by destruct (decide _). Qed.

(** An operation on the ring: one without data, or a transfer. *)
Definition op_ok (m : gmap Z aiocb) (x : Z * Z) : Prop :=
  (x.1 = 0 /\ (x.2 = BLKIF_OP_WRITE_BARRIER \/ x.2 = BLKIF_OP_FLUSH_DISKCACHE)) \/
  (x.1 <> 0 /\ (x.2 = BLKIF_OP_READ \/ x.2 = BLKIF_OP_WRITE) /\ (length (grefs m x.1) <= 11)%nat /\ is_Some (kind m x.1)).

Definition pages_ok (a : aiocb) : Prop := 1 <= aio_pages (aio_buf a) (aio_nbytes a) <= 11.

(** A thread that submits. *)
Definition sync_ok (ops : list Z) : Prop := Forall (fun op => op = BLKIF_OP_WRITE_BARRIER \/ op = BLKIF_OP_FLUSH_DISKCACHE) ops.
Definition job_ok (m : gmap Z aiocb) (j : job) (f : fin) : Prop :=
  match j with
  | JAio id _ => exists a, m !! id = Some a /\ pages_ok a /\ (f = FDone /\ aio_cb a = Some CbBio \/ f = FIo id /\ aio_cb a = Some CbIo)
  | JPush op => exists ops, f = FSync ops /\ sync_ok (op :: ops)
  end.
Definition caller_ok (s : blk) (k : caller) : Prop :=
  match k with
  | KSlot j f => job_ok (cbs s) j f /\ forall id, id ∈ job_ids j -> grefs (cbs s) id = []
  | KIo id => exists a, cbs s !! id = Some a /\ aio_cb a = Some CbIo /\ (aio_data a = true -> id ∈ map fst (completed s))
  | _ => True
  end.

(** ** What is known of a thread *)
Definition parked (p : pc) : Prop :=
  match p with PLoop _ _ _ _ | PChk _ _ _ _ | PAfter _ _ | PGo _ _ | PGrant _ _ _ _ _ => False | _ => True end.

(** What a sleeping thread waits for has not happened. *)
Definition sleep_cond (k : caller) (s : blk) : Prop :=
  match k with
  | KSlot _ _ => ring_free (dring s) = 0%nat
  | KIo id => exists a, cbs s !! id = Some a /\ aio_data a = false
  | KSync => ring_free (dring s) <> RING_SIZE
  | KBio => True
  end.
Definition event_coming (s : blk) (P : Prop) : Prop :=
  evt_pending s = true \/ (avail (dring s) = [] /\ armed (dring s) = true /\ P).

Definition result_of (status : Z) : Z := if status =? 0 then 0 else - BMK_EIO.
Definition answer_known (s : blk) (id ret : Z) : Prop := exists status, (id, status) ∈ answered s /\ ret = result_of status.

Definition thr_ok (s : blk) (p : pc) : Prop :=
  (forall k, pc_caller p = Some k -> caller_ok s k) /\
  match p with
  | PSlot j f => job_ok (cbs s) j f /\ forall id, id ∈ job_ids j -> grefs (cbs s) id = []
  | PLoop _ rp co _ => co = rsp_cons (dring s) /\ co <= rp <= rsp_prod (dring s)
  | PCb _ rp co _ id ret => co <= rp <= rsp_prod (dring s) /\ co <= rsp_cons (dring s) /\ kind (cbs s) id = Some CbBio /\
      grefs (cbs s) id = [] /\ answer_known s id ret
  | PChk _ rp co _ => co <= rp <= rsp_prod (dring s) /\ co <= rsp_cons (dring s)
  | PAfter _ _ => event_coming s True
  | PSleep k false => k <> KBio -> event_coming s (sleep_cond k s)
  | PGo j f => job_ok (cbs s) j f /\ (forall id, id ∈ job_ids j -> grefs (cbs s) id = []) /\ (0 < ring_free (dring s))%nat
  | PGrant id w f i n => job_ok (cbs s) (JAio id w) f /\ (0 < ring_free (dring s))%nat /\ req_prod_pvt (dring s) = i /\
      1 <= n <= 11 /\ Z.of_nat (length (grefs (cbs s) id)) <= n
  | _ => True
  end.

Record inv (refs sub : list Z) (s : blk) : Prop := {
  v_cap : (length (in_flight (dring s)) + length (avail (dring s)) <= RING_SIZE)%nat;
  v_cur : is_Some (threads s !! cur s);
  v_thr : forall t p, threads s !! t = Some p -> thr_ok s p /\ (t <> cur s -> parked p);
  v_ring : Forall (op_ok (cbs s)) (ring_ops (dring s));
  v_sub : sub ≡ₚ map fst (completed s) ++ places s;
  v_nodup : NoDup sub /\ 0 ∉ sub;
  v_dom : forall id, is_Some (cbs s !! id) -> id ∈ sub;
  v_grants : gfree s ++ (places s ≫= grefs (cbs s)) ≡ₚ refs;
  v_io : forall id, id ∈ rids (ring_ops (dring s)) -> kind (cbs s) id = Some CbIo ->
    exists t p, threads s !! t = Some p /\ pc_caller p = Some (KIo id);
  v_out : outstanding s = bio_count (cbs s) ((threads s ≫= cb_ids) ++ rids (ring_ops (dring s)));
  v_ans : (forall x, x ∈ avail (dring s) -> (rs_id x, rs_status x) ∈ answered s) /\
    forall id ret, (id, ret) ∈ completed s -> answer_known s id ret
}.

(** ** Rings that look the same *)
Record same_view (r r' : ring) : Prop := {
  sv_fl : in_flight r' = in_flight r;
  sv_av : avail r' = avail r;
  sv_cons : rsp_cons r' = rsp_cons r;
  sv_req : req_prod_pvt r' = req_prod_pvt r
}.

Lemma same_view_refl r : same_view r r.
Proof. done. Qed.

Lemma same_view_prod r r' : same_view r r' -> rsp_prod r' = rsp_prod r.
Proof. intros []. rewrite (proj1 (avail_spec r')), (proj1 (avail_spec r)). congruence. Qed.

Lemma same_view_ops r r' : same_view r r' -> ring_ops r' = ring_ops r.
Proof. intros [E1 E2 _ _]. unfold ring_ops. by rewrite E1, E2. Qed.

Definition cap_ok (r : ring) : Prop := (length (in_flight r) + length (avail r) <= RING_SIZE)%nat.

Lemma same_view_free r r' : same_view r r' -> cap_ok r -> ring_free r' = ring_free r.
Proof. intros [E1 E2 _ _] H. rewrite !ring_free_spec; rewrite ?E1, ?E2; done. Qed.

(** ** Threads that stay as they are *)

(** A change of the table of requests that does not concern thread [p]. *)
Definition cbs_keep (m m' : gmap Z aiocb) (p : pc) : Prop :=
  (forall id, id ∈ pc_ids p -> m' !! id = m !! id) /\
  forall id a, m !! id = Some a -> aio_cb a = Some CbIo ->
    exists a', m' !! id = Some a' /\ aio_cb a' = Some CbIo.

Lemma cbs_keep_refl m p : cbs_keep m m p.
Proof. split; [done |]. intros id a H1 H2. by exists a. Qed.

Lemma job_ok_keep m m' j f : (forall id, id ∈ job_ids j -> m' !! id = m !! id) -> job_ok m j f -> job_ok m' j f.
Proof. destruct j as [id w | op]; cbn [job_ok job_ids]; [| done]. intros H (a & E & H1). exists a. by rewrite H by set_solver. Qed.

Lemma grefs_keep m m' id : m' !! id = m !! id -> grefs m' id = grefs m id.
Proof. unfold grefs. by intros ->. Qed.

Lemma kind_keep m m' id : m' !! id = m !! id -> kind m' id = kind m id.
Proof. unfold kind. by intros ->. Qed.

Lemma sub_ids_pc p id : id ∈ sub_ids p -> id ∈ pc_ids p.
Proof. unfold pc_ids. set_solver. Qed.

Lemma caller_ok_keep s s' p k : pc_caller p = Some k -> cbs_keep (cbs s) (cbs s') p ->
  (forall id a a', cbs s !! id = Some a -> cbs s' !! id = Some a' -> aio_data a' = true ->
    aio_data a = true \/ id ∈ map fst (completed s')) ->
  (forall id, id ∈ map fst (completed s) -> id ∈ map fst (completed s')) ->
  caller_ok s k -> caller_ok s' k.
Proof.
  intros Hp [K1 K2] Hd Hc. assert (forall id, id ∈ caller_ids k -> cbs s' !! id = cbs s !! id) as K.
  { intros id Hid. apply K1, sub_ids_pc. destruct p; simplify_eq/=; done. }
  destruct k as [j f | id | |]; cbn [caller_ok caller_ids] in *; [| | done | done].
  - intros [H1 H2]. split; [by eapply job_ok_keep |]. intros id Hid. rewrite (grefs_keep _ _ _ (K id Hid)). auto.
  - intros (a & E & Ec & Ed). destruct (K2 id a E Ec) as (a' & E' & Ec'). exists a'. split; [done |]. split; [done |].
    intros Ed'. destruct (Hd id a a' E E' Ed'); auto.
Qed.

(** The steps of the other threads keep what is known of a thread that has
    given up the CPU. *)
Record keeps (s s' : blk) : Prop := {
  kp_prod : rsp_prod (dring s) <= rsp_prod (dring s');
  kp_cons : rsp_cons (dring s) <= rsp_cons (dring s');
  kp_ans : forall x, x ∈ answered s -> x ∈ answered s';
  kp_comp : forall id, id ∈ map fst (completed s) -> id ∈ map fst (completed s');
  kp_data : forall id a a', cbs s !! id = Some a -> cbs s' !! id = Some a' -> aio_data a' = true ->
    aio_data a = true \/ id ∈ map fst (completed s');
  kp_sleep : forall k, caller_ok s k -> event_coming s (sleep_cond k s) -> event_coming s' (sleep_cond k s')
}.

Lemma thr_ok_keep s s' p : parked p -> keeps s s' -> cbs_keep (cbs s) (cbs s') p -> thr_ok s p -> thr_ok s' p.
Proof.
  intros Hp [K1 K2 K3 K4 K5 K6] Hk [H1 H2]. split; [intros k E; eapply caller_ok_keep; eauto |].
  destruct Hk as [Ka Kb]. destruct p as [j f | k | | k rp co did id ret | | | k [|] | | | |]; cbn [parked] in Hp; try done.
  - destruct H2 as [H2 H3]. split; [by eapply job_ok_keep |]. intros id Hid. rewrite (grefs_keep (cbs s)); [auto |]. by apply Ka.
  - destruct H2 as (L1 & L2 & L3 & L4 & (st & L5 & L6)). assert (cbs s' !! id = cbs s !! id) as E by (apply Ka; set_solver).
    rewrite (kind_keep _ _ _ E), (grefs_keep _ _ _ E). split_and!; try done; try lia. exists st. auto.
  - intros Hk. apply K6; [by apply H1 | auto].
Qed.

(** ** Steps *)

Lemma threads_next s s' p' : threads s' = <[cur s := p']> (threads s) -> cur s' = cur s -> is_Some (threads s !! cur s) ->
  (forall t p, threads s !! t = Some p -> thr_ok s p /\ (t <> cur s -> parked p)) ->
  keeps s s' -> (forall t q, t <> cur s -> threads s !! t = Some q -> cbs_keep (cbs s) (cbs s') q) -> thr_ok s' p' ->
  forall t p, threads s' !! t = Some p -> thr_ok s' p /\ (t <> cur s' -> parked p).
Proof.
  intros Et Ec Hc Ht Hk Hkeep Hp' t p E. rewrite Et in E. destruct (decide (t = cur s)) as [-> | Hne].
  - rewrite list_lookup_insert_eq in E by (by apply lookup_lt_is_Some). injection E as <-. split; [done |]. by rewrite Ec.
  - rewrite list_lookup_insert_ne in E by done. destruct (Ht t p E) as [H1 H2]. split; [| by rewrite Ec].
    apply (thr_ok_keep s); auto. by eapply Hkeep.
Qed.

(** Threads have different requests. *)
Lemma own_ids refs sub s p t w id : inv refs sub s -> threads s !! cur s = Some p -> t <> cur s -> threads s !! t = Some w ->
  id ∈ pc_ids w -> id ∉ pc_ids p.
Proof.
  intros Hi Hp Hne Hw Hid Hid'. destruct (bind_insert pc_ids _ _ _ Hp) as (rest & H1 & _ & H3).
  pose proof (proj1 (v_nodup _ _ _ Hi)) as Hnd. rewrite (v_sub _ _ _ Hi) in Hnd. unfold places in Hnd.
  apply NoDup_app in Hnd as (_ & _ & Hnd). rewrite H1, <- app_assoc in Hnd. apply NoDup_app in Hnd as (_ & Hnd & _).
  apply (Hnd id Hid'). apply elem_of_app. left. apply H3. by exists t, w.
Qed.

(** A step that moves no request. *)
Lemma inv_simple refs sub s r p p' : inv refs sub s -> threads s !! cur s = Some p ->
  same_view (dring s) r -> (armed (dring s) = true -> avail (dring s) = [] -> armed r = true) ->
  pc_ids p' = pc_ids p -> cb_ids p' = cb_ids p ->
  (forall id, pc_caller p = Some (KIo id) -> pc_caller p' = Some (KIo id) \/ id ∉ places s) ->
  thr_ok (goto p' (set_ring r s)) p' -> inv refs sub (goto p' (set_ring r s)).
Proof.
  intros [] Hp Hv Harm Hids Hcb Hio Hok. set (s' := goto p' (set_ring r s)).
  assert (keeps s s') as Hk.
  { split; cbn; try done; rewrite ?(same_view_prod _ _ Hv), ?(sv_cons _ _ Hv); try lia.
    - intros id a a' E E' Hd. rewrite E in E'. simplify_eq. by left.
    - intros k _ [He | (E1 & E2 & E3)]; [by left |]. right. cbn. rewrite (sv_av _ _ Hv). split_and!; auto.
      destruct k; cbn in *; rewrite ?(same_view_free _ _ Hv); done. }
  destruct (bind_insert pc_ids _ _ _ Hp) as (rest & Hr1 & Hr2 & Hr3). destruct (bind_insert cb_ids _ _ _ Hp) as (rest' & Hc1 & Hc2 & _).
  assert (places s' ≡ₚ places s) as Hpl.
  { unfold places. cbn. rewrite (same_view_ops _ _ Hv), Hr1, (Hr2 p'), Hids. done. }
  split; try done.
  - cbn. by rewrite (sv_fl _ _ Hv), (sv_av _ _ Hv).
  - cbn. destruct v_cur0 as [q Hq]. rewrite list_lookup_insert_eq by (by eapply lookup_lt_Some). by eexists.
  - apply (threads_next s s' p'); try done. intros. apply cbs_keep_refl.
  - cbn. by rewrite (same_view_ops _ _ Hv).
  - rewrite Hpl. done.
  - cbn [gfree cbs s' goto set_ring]. by rewrite Hpl.
  - cbn. rewrite (same_view_ops _ _ Hv). intros id Hid Hk'. destruct (v_io0 id Hid Hk') as (t & q & Hq & Hc).
    destruct (decide (t = cur s)) as [-> | Hne].
    + rewrite Hp in Hq. injection Hq as <-. destruct (Hio id Hc) as [Hc' | Hn].
      * exists (cur s), p'. split; [| done]. apply list_lookup_insert_eq. by eapply lookup_lt_Some.
      * destruct Hn. unfold places. set_solver.
    + exists t, q. split; [| done]. by rewrite list_lookup_insert_ne.
  - cbn. rewrite (same_view_ops _ _ Hv), (Hc2 p'), Hcb, <- Hc1. done.
  - cbn. by rewrite (sv_av _ _ Hv).
Qed.

Lemma set_ring_id s : set_ring (dring s) s = s.
Proof. by destruct s. Qed.

Lemma inv_goto refs sub s p p' : inv refs sub s -> threads s !! cur s = Some p ->
  pc_ids p' = pc_ids p -> cb_ids p' = cb_ids p ->
  (forall id, pc_caller p = Some (KIo id) -> pc_caller p' = Some (KIo id) \/ id ∉ places s) ->
  thr_ok (goto p' s) p' -> inv refs sub (goto p' s).
Proof.
  intros Hi Hp H1 H2 H3 H4. pose proof (inv_simple refs sub s (dring s) p p' Hi Hp (same_view_refl _)) as H.
  rewrite set_ring_id in H. auto.
Qed.

(** What is known of a thread depends on the state, not on the threads. *)
Lemma thr_ok_goto s p q : thr_ok (goto p s) q <-> thr_ok s q.
Proof. by destruct q as [| | | | | | k w | | | |]. Qed.

(** The simple steps. *)
Definition steps (refs sub : list Z) (s : blk) (p : pc) : Prop :=
  exists s', thread_step p s = Done s' /\ inv refs sub s'.

Lemma step_slot refs sub s j f : inv refs sub s -> threads s !! cur s = Some (PSlot j f) -> steps refs sub s (PSlot j f).
Proof.
  intros Hi Hp. eexists. split; [reflexivity |]. destruct (v_thr _ _ _ Hi _ _ Hp) as [[_ [H1 H2]] _].
  destruct (0 <? ring_free (dring s))%nat eqn:E; (apply (inv_goto _ _ _ _ _ Hi Hp); [done | done | done |]); apply thr_ok_goto.
  - split; [done |]. apply Nat.ltb_lt in E. done.
  - split; [| done]. by intros k [= <-].
Qed.

Lemma step_poll refs sub s k : inv refs sub s -> threads s !! cur s = Some (PPoll k) -> steps refs sub s (PPoll k).
Proof.
  intros Hi Hp. eexists. split; [reflexivity |]. destruct (v_thr _ _ _ Hi _ _ Hp) as [[H1 _] _].
  apply (inv_goto _ _ _ _ _ Hi Hp); [done | done | by left |]. apply thr_ok_goto. split; [done |].
  rewrite (proj1 (avail_spec (dring s))). split; [done | lia].
Qed.

(** [RING_FINAL_CHECK_FOR_RESPONSES] at the end of a pass. *)
Lemma poll_end_inv refs sub s p k did : inv refs sub s -> threads s !! cur s = Some p -> pc_caller p = Some k -> cb_ids p = [] ->
  exists s', poll_end k did s = Done s' /\ inv refs sub s'.
Proof.
  intros Hi Hp Hk Hc. unfold poll_end. pose proof (final_check_spec (dring s)) as Hf.
  destruct (final_check (dring s)) as [more r]. destruct Hf as (F1 & F2 & F3 & F4 & F5 & F6). eexists. split; [reflexivity |].
  assert (same_view (dring s) r) as Hv by done. destruct (v_thr _ _ _ Hi _ _ Hp) as [[H1 _] _].
  assert (sub_ids p = caller_ids k) as Hs by (destruct p; simplify_eq/=; done).
  apply (inv_simple _ _ _ _ _ _ Hi Hp Hv).
  - intros _ Ha. apply F6. rewrite F5, bool_decide_true; done.
  - unfold pc_ids. rewrite Hc, Hs. by destruct more.
  - rewrite Hc. by destruct more.
  - intros id E. rewrite Hk in E. injection E as ->. left. by destruct more.
  - apply thr_ok_goto. destruct more; (split; [intros k' E; injection E as <-; by apply H1 |]); [done |].
    right. cbn. rewrite F2. split_and!; [| auto | done]. symmetry in F5. apply negb_false_iff in F5. by apply bool_decide_eq_true in F5.
Qed.

Lemma step_chk refs sub s k rp co did : inv refs sub s -> threads s !! cur s = Some (PChk k rp co did) ->
  steps refs sub s (PChk k rp co did).
Proof.
  intros Hi Hp. unfold steps, thread_step. destruct (v_thr _ _ _ Hi _ _ Hp) as [[H1 H2] _].
  destruct (Z.eqb_spec (rsp_cons (dring s)) co) as [E | E]; cbn [negb]; [| by eapply poll_end_inv].
  eexists. split; [reflexivity |]. apply (inv_goto _ _ _ _ _ Hi Hp); [done | done | by left |]. apply thr_ok_goto. split; [done |]. lia.
Qed.

Lemma places_completed refs sub s id : inv refs sub s -> id ∈ map fst (completed s) -> id ∉ places s.
Proof.
  intros Hi Hc Hp. pose proof (proj1 (v_nodup _ _ _ Hi)) as Hn. rewrite (v_sub _ _ _ Hi) in Hn.
  apply NoDup_app in Hn as (_ & Hn & _). by apply (Hn id).
Qed.

Lemma step_after refs sub s k did : inv refs sub s -> threads s !! cur s = Some (PAfter k did) -> steps refs sub s (PAfter k did).
Proof.
  intros Hi Hp. unfold steps, thread_step, after_poll. destruct (v_thr _ _ _ Hi _ _ Hp) as [[H1 H2] _]. specialize (H1 k eq_refl).
  assert (forall P : Prop, P -> event_coming s P) as Hev by (intros P HP; destruct H2 as [? | (? & ? & _)]; [by left | by right]).
  assert (forall q, (forall k', pc_caller q = Some k' -> k' = k) -> forall k', pc_caller q = Some k' -> caller_ok s k') as Hc
    by (intros q Hq k' E; by rewrite (Hq k' E)).
  destruct k as [j f | id | |].
  - eexists. split; [reflexivity |]. destruct (0 <? ring_free (dring s))%nat eqn:E;
      (apply (inv_goto _ _ _ _ _ Hi Hp); [done | done | done |]; apply thr_ok_goto; split; [apply Hc; cbn; congruence |]).
    + apply Nat.ltb_lt in E. by destruct H1.
    + intros _. apply Hev. apply Nat.ltb_ge in E. cbn. lia.
  - destruct H1 as (a & Ea & Ek & Ed). unfold cb_at. rewrite Ea. cbn [of_option]. rewrite Done_bind. eexists. split; [reflexivity |].
    destruct (aio_data a) eqn:E; apply (inv_goto _ _ _ _ _ Hi Hp); try done; try (by left); try apply thr_ok_goto.
    + intros id' [= <-]. right. eapply places_completed; [done |]. auto.
    + split; [apply Hc; cbn; congruence |]. intros _. apply Hev. by exists a.
  - eexists. split; [reflexivity |]. case_bool_decide as E; (apply (inv_goto _ _ _ _ _ Hi Hp); [done | done | done |]); apply thr_ok_goto.
    + done.
    + split; [apply Hc; cbn; congruence |]. intros _. by apply Hev.
  - eexists. split; [reflexivity |]. destruct (negb (did =? 0)); (apply (inv_goto _ _ _ _ _ Hi Hp); [done | done | done |]); apply thr_ok_goto.
    + done.
    + split; [apply Hc; cbn; congruence |]. intros _. by apply Hev.
Qed.

Lemma step_sleep refs sub s k w : inv refs sub s -> threads s !! cur s = Some (PSleep k w) -> steps refs sub s (PSleep k w).
Proof.
  intros Hi Hp. destruct (v_thr _ _ _ Hi _ _ Hp) as [[H1 _] _]. destruct w; [| exists s; split; [by destruct k | done]].
  assert (exists p', thread_step (PSleep k true) s = Done (goto p' s) /\ pc_caller p' = Some k /\ pc_ids p' = caller_ids k /\ cb_ids p' = [] /\
    (p' = PPoll k \/ p' = PSleep KBio false)) as (p' & E & E1 & E2 & E3 & E4).
  { destruct k; cbv beta zeta iota delta [thread_step biothread]; [eexists; (split; [reflexivity |]); cbn; by auto .. |].
    destruct (outstanding s =? 0); eexists; (split; [reflexivity |]); cbn; auto. }
  exists (goto p' s). split; [done |]. apply (inv_goto _ _ _ _ _ Hi Hp); [done | done | |].
  - intros id E'. left. cbn in E'. congruence.
  - apply thr_ok_goto. split; [intros k'; rewrite E1; apply H1 |]. by destruct E4 as [-> | ->].
Qed.

Lemma step_bio refs sub s : inv refs sub s -> threads s !! cur s = Some PBio -> steps refs sub s PBio.
Proof.
  intros Hi Hp. eexists. split; [reflexivity |]. destruct (outstanding s =? 0); (apply (inv_goto _ _ _ _ _ Hi Hp); [done | done | done |]);
    apply thr_ok_goto; (split; [| done]); by intros k [= <-].
Qed.

Lemma step_go_aio refs sub s id w f : inv refs sub s -> threads s !! cur s = Some (PGo (JAio id w) f) ->
  steps refs sub s (PGo (JAio id w) f).
Proof.
  intros Hi Hp. unfold steps, thread_step. destruct (v_thr _ _ _ Hi _ _ Hp) as [[_ ((a & Ea & Hpg & Hf) & H2 & H3)] _].
  unfold cb_at. rewrite Ea. cbn [of_option]. rewrite Done_bind. unfold pages_ok in Hpg.
  cbv zeta. rewrite (proj2 (Z.leb_gt _ 0)) by lia. eexists. split; [reflexivity |].
  apply (inv_goto _ _ _ _ _ Hi Hp); [done | done | done |]. apply thr_ok_goto. split; [done |].
  split_and!; try done; try lia; [by exists a | rewrite H2 by set_solver; cbn; lia].
Qed.

(** ** A request goes onto the ring *)

(** At most the flag [data] of the requests in [l] has been cleared. *)
Definition data_reset (m m' : gmap Z aiocb) (l : list Z) : Prop :=
  (forall i, i ∉ l -> m' !! i = m !! i) /\
  (forall i, m !! i = None -> m' !! i = None) /\
  forall i a, m !! i = Some a -> exists a', m' !! i = Some a' /\ aio_cb a' = aio_cb a /\ aio_gref a' = aio_gref a /\
    (aio_data a = false -> aio_data a' = false).

Lemma data_reset_refl m l : data_reset m m l.
Proof. split; [done |]. split; [done |]. intros i a E. by exists a. Qed.

Lemma data_reset_set m id a : m !! id = Some a -> data_reset m (<[id := set_data false a]> m) [id].
Proof.
  intros E. split; [| split].
  - intros i Hi. apply lookup_insert_ne. set_solver.
  - intros i Hi. rewrite lookup_insert_ne; [done |]. congruence.
  - intros i b Eb. destruct (decide (i = id)) as [-> | Hne].
    + rewrite E in Eb. injection Eb as <-. exists (set_data false a). by rewrite lookup_insert_eq.
    + exists b. by rewrite lookup_insert_ne.
Qed.

Lemma data_reset_same m m' l : data_reset m m' l -> forall i, kind m' i = kind m i /\ grefs m' i = grefs m i.
Proof.
  intros (_ & H1 & H2) i. unfold kind, grefs. destruct (m !! i) as [a |] eqn:E.
  - destruct (H2 i a E) as (a' & -> & E1 & E2 & _). cbn. by rewrite E1, E2.
  - by rewrite (H1 i E).
Qed.

Lemma op_ok_same m m' x : kind m' x.1 = kind m x.1 -> grefs m' x.1 = grefs m x.1 -> op_ok m x -> op_ok m' x.
Proof. unfold op_ok. by intros -> ->. Qed.

Lemma push_ops q r : (0 < ring_free r)%nat -> ring_ops (ring_push q r) ≡ₚ (rq_id q, rq_op q) :: ring_ops r.
Proof.
  intros H. destruct (ring_push_spec q r H) as (E1 & E2 & _). unfold ring_ops. rewrite E1, E2, map_app. cbn [map]. solve_Permutation.
Qed.

Lemma rids_cons id op l : rids ((id, op) :: l) = (if decide (id <> 0) then [id] else []) ++ rids l.
Proof. unfold rids. cbn [map fst]. rewrite filter_cons. by destruct (decide (id <> 0)). Qed.

Section Push.
  Context (refs sub : list Z) (s : blk) (p p' : pc) (q : blk_req) (m : gmap Z aiocb) (o : Z).
  Hypothesis Hi : inv refs sub s.
  Hypothesis Hp : threads s !! cur s = Some p.
  Hypothesis Hfree : (0 < ring_free (dring s))%nat.
  Hypothesis Hm : data_reset (cbs s) m (pc_ids p).
Let new : list Z := if decide (rq_id q <> 0) then [rq_id q] else [].
Let s' : blk := goto p' (set_cbs m (set_outstanding o (set_ring (ring_push q (dring s)) s))).

Lemma push_keeps : keeps s s'.
Proof.
  destruct (ring_push_spec q _ Hfree) as (E1 & E2 & E3 & E4 & E5). pose proof (v_cap _ _ _ Hi) as Hcap.
  destruct (data_reset_same _ _ _ Hm 0) as [_ _]. destruct Hm as (M1 & M2 & M3). split; cbn; try done.
  - rewrite (proj1 (avail_spec (ring_push q (dring s)))), (proj1 (avail_spec (dring s))), E2, E5. lia.
  - rewrite E5. lia.
  - intros id a a' Ea Ea' Hd. left. destruct (M3 id a Ea) as (b & Eb & _ & _ & Hb). destruct (aio_data a) eqn:E; [done |].
    rewrite Ea' in Eb. injection Eb as <-. by rewrite Hb in Hd.
  - intros k _ [He | (A1 & A2 & A3)]; [by left |]. destruct k as [j f | id | |].
    + cbn in A3. lia.
    + right. cbn. rewrite E2, E3. split_and!; [done | done |]. destruct A3 as (a & Ea & Ed). destruct (M3 id a Ea) as (b & Eb & _ & _ & Hb).
      exists b. auto.
    + right. cbn. rewrite E2, E3. split_and!; [done | done |]. cbn in A3. rewrite ring_free_spec in Hfree by done.
      rewrite ring_free_spec in A3 by done. rewrite A1 in *. cbn [length] in *.
      rewrite ring_free_spec; rewrite E1, E2, length_app; cbn; lia.
    + right. cbn. by rewrite E2, E3.
Qed.

Lemma blk_inv_push : pc_caller p = None -> cb_ids p = [] -> cb_ids p' = [] -> pc_ids p ≡ₚ new ++ pc_ids p' ->
  op_ok m (rq_id q, rq_op q) -> o = outstanding s + bio_count m new ->
  (forall id, id ∈ new -> kind m id = Some CbIo -> pc_caller p' = Some (KIo id)) ->
  thr_ok s' p' -> inv refs sub s'.
Proof.
  intros Hc Hcb Hcb' Hids Hq Ho Hio Hok. destruct (ring_push_spec q _ Hfree) as (E1 & E2 & E3 & E4 & E5).
  pose proof (data_reset_same _ _ _ Hm) as Hsame. pose proof (push_ops q _ Hfree) as Hops. pose proof push_keeps as Hkeeps.
  assert (rids (ring_ops (ring_push q (dring s))) ≡ₚ new ++ rids (ring_ops (dring s))) as Hrids by (by rewrite Hops, rids_cons).
  destruct (bind_insert pc_ids _ _ _ Hp) as (rest & Hr1 & Hr2 & Hr3). destruct (bind_insert cb_ids _ _ _ Hp) as (rest' & Hc1 & Hc2 & _).
  assert (places s' ≡ₚ places s) as Hpl.
  { unfold places. cbn. rewrite Hrids, Hr1, (Hr2 p'), Hids. solve_Permutation. }
  pose proof Hi as Hi'. destruct Hi'. split; try done.
  - cbn. rewrite E1, E2, length_app. cbn. rewrite ring_free_spec in Hfree by done. lia.
  - cbn. rewrite list_lookup_insert_eq by (by eapply lookup_lt_Some). by eexists.
  - apply (threads_next s s' p'); try done. intros t w Hne Hw. destruct Hm as (M1 & _ & M3). split.
    + intros id Hid. apply M1. by eapply (own_ids refs sub s p t w).
    + intros id a Ea Ec. destruct (M3 id a Ea) as (a' & Ea' & Ec' & _). exists a'. split; [done | congruence].
  - change (dring s') with (ring_push q (dring s)). change (cbs s') with m. rewrite Hops. constructor; [done |].
    eapply Forall_impl; [exact v_ring0 |]. intros x. by apply op_ok_same; apply Hsame.
  - rewrite Hpl. done.
  - change (cbs s') with m. intros id [b Eb]. apply v_dom0. destruct (cbs s !! id) eqn:E; [done |]. destruct Hm as (_ & M2 & _).
    by rewrite (M2 id E) in Eb.
  - change (gfree s') with (gfree s). change (cbs s') with m. rewrite Hpl, <- v_grants0.
    by rewrite (list_bind_ext (grefs m) (grefs (cbs s)) (places s) (places s) (fun i => proj2 (Hsame i)) eq_refl).
  - change (dring s') with (ring_push q (dring s)). change (cbs s') with m. intros id. rewrite Hrids, elem_of_app.
    intros [Hid | Hid] Hk.
    + exists (cur s), p'. split; [| by apply Hio]. cbn. apply list_lookup_insert_eq. by eapply lookup_lt_Some.
    + rewrite (proj1 (Hsame id)) in Hk. destruct (v_io0 id Hid Hk) as (t & w & Hw & Hcw). exists t, w. split; [| done].
      cbn. rewrite list_lookup_insert_ne; [done |]. intros <-. congruence.
  - change (dring s') with (ring_push q (dring s)). change (cbs s') with m. change (outstanding s') with o.
    change (threads s') with (<[cur s := p']> (threads s)).
    rewrite Ho, v_out0, Hrids, (Hc2 p'), Hcb', Hc1, Hcb. cbn [app]. rewrite !bio_count_app.
    rewrite (bio_count_ext (cbs s) m rest') by (intros; apply Hsame).
    rewrite (bio_count_ext (cbs s) m (rids (ring_ops (dring s)))) by (intros; apply Hsame). lia.
  - cbn. by rewrite E2.
Qed.
End Push.

Lemma step_go_push refs sub s op f : inv refs sub s -> threads s !! cur s = Some (PGo (JPush op) f) -> steps refs sub s (PGo (JPush op) f).
Proof.
  intros Hi Hp. destruct (v_thr _ _ _ Hi _ _ Hp) as [[_ ((ops & -> & Hops) & _ & Hfree)] _]. apply Forall_cons in Hops as [Hop Hops].
  eexists. split; [reflexivity |].
  apply (blk_inv_push refs sub s _ (blkfront_sync ops) (Req op 0 0 []) (cbs s) (outstanding s) Hi Hp Hfree (data_reset_refl _ _)).
  - done.
  - done.
  - by destruct ops.
  - by destruct ops.
  - by left.
  - symmetry. apply Z.add_0_r.
  - intros id Hid. by apply elem_of_nil in Hid.
  - apply thr_ok_goto. destruct ops as [| op' ops]; (split; [by intros k [= <-] |]); [done |]. split; [by exists ops | intros id Hid; by apply elem_of_nil in Hid].
Qed.

(** ** Grants *)
Lemma bind_nil {A B} (f : A -> list B) l : (forall x, x ∈ l -> f x = []) -> (l ≫= f) = [].
Proof.
  induction l as [| x l IH]; intros H; [done |]. rewrite bind_cons, (H x) by set_solver. apply IH. set_solver.
Qed.

Lemma bind_bound {A B} (f : A -> list B) n l : (forall x, x ∈ l -> (length (f x) <= n)%nat) -> (length (l ≫= f) <= n * length l)%nat.
Proof.
  induction l as [| x l IH]; intros H; [cbn; lia |]. rewrite bind_cons, length_app. cbn [length].
  pose proof (H x ltac:(set_solver)). specialize (IH ltac:(set_solver)). lia.
Qed.

(** Threads that have given up the CPU hold no grants. *)
Lemma parked_grefs s q id : thr_ok s q -> parked q -> id ∈ pc_ids q -> grefs (cbs s) id = [].
Proof.
  intros [H1 H2] Hp Hid. assert (forall k, pc_caller q = Some k -> id ∈ caller_ids k -> grefs (cbs s) id = []) as Hc.
  { intros k Hk Hik. specialize (H1 k Hk). destruct k; cbn [caller_ids] in Hik; try (by apply elem_of_nil in Hik). by apply H1. }
  destruct q as [j f | k | | k rp co did i ret | | | k w | | | |]; cbn [parked pc_ids cb_ids sub_ids pc_caller fmap option_fmap option_map default from_option app] in *;
    try done; try (by eapply Hc); try (by apply elem_of_nil in Hid).
  - by apply H2.
  - apply elem_of_cons in Hid as [-> | Hid]; [apply H2 | by eapply Hc].
Qed.

Lemma rids_length l : (length (rids l) <= length l)%nat.
Proof. unfold rids. etransitivity; [apply length_filter |]. by rewrite length_map. Qed.

Lemma grants_left refs sub s id w f i n : inv refs sub s -> threads s !! cur s = Some (PGrant id w f i n) ->
  (11 * RING_SIZE <= length refs)%nat -> Z.of_nat (length (grefs (cbs s) id)) < n -> gfree s <> [].
Proof.
  intros Hi Hp Hrefs Hlt Hnil. destruct (v_thr _ _ _ Hi _ _ Hp) as [[_ (_ & Hfree & _ & Hn & _)] _].
  pose proof (Permutation_length (v_grants _ _ _ Hi)) as Hl. rewrite Hnil in Hl. cbn [app] in Hl. unfold places in Hl.
  destruct (bind_insert pc_ids _ _ _ Hp) as (rest & Hr1 & _ & Hr3). rewrite Hr1 in Hl.
  cbn [pc_ids cb_ids sub_ids app] in Hl. rewrite bind_cons, bind_app, !length_app in Hl.
  rewrite (bind_nil (grefs (cbs s)) rest) in Hl.
  2: { intros x Hx. apply Hr3 in Hx as (t & q & Hne & Hq & Hx). destruct (v_thr _ _ _ Hi _ _ Hq) as [H1 H2]. eapply parked_grefs; eauto. }
  cbn [length] in Hl. pose proof (bind_bound (grefs (cbs s)) 11 (rids (ring_ops (dring s)))) as Hb.
  assert (length (rids (ring_ops (dring s))) <= length (in_flight (dring s)) + length (avail (dring s)))%nat as Hc.
  { etransitivity; [apply rids_length |]. unfold ring_ops. by rewrite length_app, !length_map. }
  rewrite ring_free_spec in Hfree by apply Hi.
  assert (length (rids (ring_ops (dring s)) ≫= grefs (cbs s)) <= 11 * length (rids (ring_ops (dring s))))%nat as Hbb; [| lia].
  apply Hb. intros x Hx. unfold rids in Hx. apply list_elem_of_filter in Hx as [Hx0 Hx]. apply list_elem_of_fmap in Hx as (y & -> & Hy).
  pose proof (proj1 (Forall_forall _ _) (v_ring _ _ _ Hi) y Hy) as [[Hy0 _] | (_ & _ & Hy0 & _)]; done.
Qed.

Lemma own_not_ring refs sub s t p id : inv refs sub s -> threads s !! t = Some p -> id ∈ pc_ids p -> id ∉ rids (ring_ops (dring s)).
Proof.
  intros Hi Hp Hid Hr. pose proof (proj1 (v_nodup _ _ _ Hi)) as Hnd. rewrite (v_sub _ _ _ Hi) in Hnd. unfold places in Hnd.
  apply NoDup_app in Hnd as (_ & _ & Hnd). apply NoDup_app in Hnd as (_ & Hnd & _). apply (Hnd id); [| done].
  apply list_elem_of_bind. exists p. split; [done |]. apply list_elem_of_lookup. by exists t.
Qed.

Lemma not_in_rids x l : x ∈ l -> x.1 ∉ rids l -> x.1 = 0.
Proof.
  intros Hx Hn. destruct (decide (x.1 = 0)) as [E | E]; [done |]. destruct Hn. unfold rids. apply list_elem_of_filter.
  split; [done |]. apply list_elem_of_fmap. by exists x.
Qed.

Lemma ring_ok_keep m m' id l : (forall i, i <> id -> m' !! i = m !! i) -> id ∉ rids l -> Forall (op_ok m) l -> Forall (op_ok m') l.
Proof.
  intros Hm Hid H. apply Forall_forall. intros x Hx. pose proof (proj1 (Forall_forall _ _) H x Hx) as Ho.
  destruct (decide (x.1 = id)) as [E | E].
  - left. destruct Ho as [Ho | (Ho & _)]; [done |]. rewrite <- E in Hid. by rewrite (not_in_rids x l Hx Hid) in Ho.
  - apply (op_ok_same m); [by apply kind_keep, Hm | by apply grefs_keep, Hm | done].
Qed.

Lemma bind_grefs_keep m m' id l : (forall i, i <> id -> m' !! i = m !! i) -> id ∉ l -> (l ≫= grefs m') = (l ≫= grefs m).
Proof.
  intros Hm Hid. induction l as [| x l IH]; [done |]. rewrite !bind_cons. rewrite IH by set_solver.
  by rewrite (grefs_keep m m') by (apply Hm; set_solver).
Qed.

(** A page is granted. *)
Lemma inv_grant refs sub s id w f i n a g gs : inv refs sub s -> threads s !! cur s = Some (PGrant id w f i n) ->
  cbs s !! id = Some a -> gfree s = g :: gs -> Z.of_nat (length (aio_gref a)) < n ->
  inv refs sub (set_gfree gs (set_cbs (<[id := set_gref (aio_gref a ++ [g]) a]> (cbs s)) s)).
Proof.
  intros Hi Hp Ea Eg Hlt. set (m := <[id := _]> (cbs s)). set (s' := set_gfree gs (set_cbs m s)).
  assert (forall j, j <> id -> m !! j = cbs s !! j) as Hm by (intros j Hj; by apply lookup_insert_ne).
  assert (m !! id = Some (set_gref (aio_gref a ++ [g]) a)) as Hid by apply lookup_insert_eq.
  assert (forall j, kind m j = kind (cbs s) j) as Hkind.
  { intros j. destruct (decide (j = id)) as [-> |]; [unfold kind; by rewrite Hid, Ea | by apply kind_keep, Hm]. }
  assert (id ∉ rids (ring_ops (dring s))) as Hnr by (eapply own_not_ring; [done | done | cbn; set_solver]).
  assert (keeps s s') as Hk.
  { split; cbn; try done; try lia.
    - intros j b b' Eb Eb' Hd. destruct (decide (j = id)) as [-> |]; [| rewrite Hm in Eb' by done; simplify_eq; by left].
      rewrite Hid in Eb'. simplify_eq. by left.
    - intros k _ [He | (A1 & A2 & A3)]; [by left | right]. cbn. split_and!; [done | done |]. destruct k as [| j | |]; try done.
      destruct A3 as (b & Eb & Ed). destruct (decide (j = id)) as [-> |]; [| exists b; by rewrite Hm].
      eexists. split; [exact Hid |]. simplify_eq. done. }
  destruct (v_thr _ _ _ Hi _ _ Hp) as [[_ ((a0 & Ea0 & Hpg & Hf) & Hfree & Hreq & Hn & Hlen)] _]. rewrite Ea in Ea0. injection Ea0 as <-.
  pose proof Hi as Hi'. destruct Hi'. split; try done.
  - apply (threads_next s s' (PGrant id w f i n)); try done.
    + cbn. by rewrite list_insert_id.
    + intros t q Hne Hq. split.
      * intros j Hj. apply Hm. intros ->. eapply own_ids; [done | exact Hp | exact Hne | exact Hq | exact Hj | cbn; set_solver].
      * intros j b Eb Ec. destruct (decide (j = id)) as [-> |]; [| exists b; by rewrite Hm].
        eexists. split; [exact Hid |]. simplify_eq. done.
    + split; [done |]. cbn. split_and!; try done; try lia.
      * eexists. split; [exact Hid |]. done.
      * unfold grefs. rewrite Hid. cbn. rewrite length_app. cbn. lia.
  - by eapply ring_ok_keep.
  - cbn. intros j Hj. apply v_dom0. destruct (decide (j = id)) as [-> | Hne]; [by eexists | by rewrite <- Hm].
  - change (places s') with (places s). cbn [gfree cbs s' set_gfree set_cbs]. rewrite <- v_grants0, Eg.
    unfold places. destruct (bind_insert pc_ids _ _ _ Hp) as (rest & Hr1 & _ & Hr3). rewrite !Hr1.
    cbn [pc_ids cb_ids sub_ids app]. rewrite !bind_cons.
    rewrite (bind_grefs_keep (cbs s) m id (rest ++ rids (ring_ops (dring s))) Hm).
    + assert (grefs m id = aio_gref a ++ [g]) as -> by (unfold grefs; by rewrite Hid).
      assert (grefs (cbs s) id = aio_gref a) as -> by (unfold grefs; by rewrite Ea). solve_Permutation.
    + rewrite elem_of_app. intros [(t & q & Hne & Hq & Hx)%Hr3 | ?]; [| done].
      eapply own_ids; [done | exact Hp | exact Hne | exact Hq | exact Hx | cbn; set_solver].
  - cbn. intros j Hj. rewrite Hkind. by apply v_io0.
  - cbn. rewrite v_out0. symmetry. apply bio_count_ext. intros. apply Hkind.
Qed.

Lemma step_grant refs sub s id w f i n : inv refs sub s -> threads s !! cur s = Some (PGrant id w f i n) ->
  (11 * RING_SIZE <= length refs)%nat -> steps refs sub s (PGrant id w f i n).
Proof.
  intros Hi Hp Hrefs. destruct (v_thr _ _ _ Hi _ _ Hp) as [[_ ((a & Ea & Hpg & Hf) & Hfree & Hreq & Hn & Hlen)] _].
  assert (grefs (cbs s) id = aio_gref a) as Egr by (unfold grefs; by rewrite Ea). rewrite Egr in Hlen.
  unfold steps, thread_step, grant_step, cb_at. rewrite Ea. cbn [of_option]. rewrite Done_bind.
  destruct (Z.ltb_spec (Z.of_nat (length (aio_gref a))) n) as [Hlt | Hge].
  - destruct (gfree s) as [| g gs] eqn:Eg; [exfalso; by eapply (grants_left refs sub s); rewrite ?Egr |].
    eexists. split; [reflexivity |]. by eapply inv_grant.
  - rewrite Hreq, Z.eqb_refl. cbn [negb].
    assert (id <> 0) as Hid0.
    { intros ->. destruct (proj2 (v_nodup _ _ _ Hi)). rewrite (v_sub _ _ _ Hi). apply elem_of_app. right. unfold places.
      apply elem_of_app. left. apply list_elem_of_bind. exists (PGrant 0 w f i n). split; [cbn; set_solver |]. apply list_elem_of_lookup. by exists (cur s). }
    set (q := aio_request id w a). assert (rq_id q = id) as Eq by done.
    assert (forall m, kind m id = kind (cbs s) id -> grefs m id = grefs (cbs s) id -> op_ok m (rq_id q, rq_op q)) as Hop.
    { intros m K1 K2. right. cbn. split; [done |]. split; [destruct w; [by right | by left] |].
      rewrite K1, K2, Egr. split; [lia |]. unfold kind. rewrite Ea. cbn. destruct Hf as [[_ ->] | [_ ->]]; by eexists. }
    destruct Hf as [[-> Hcb] | [-> Hcb]]; rewrite Hcb; cbn [finish].
    + eexists. split; [reflexivity |].
      apply (blk_inv_push refs sub s _ PDone q (cbs s) (outstanding s + 1) Hi Hp Hfree (data_reset_refl _ _)); rewrite ?Eq; try done.
      * by rewrite decide_True.
      * by apply Hop.
      * rewrite decide_True by done. rewrite bio_count_one, decide_True; [done |]. unfold kind. by rewrite Ea.
      * intros j Hj. rewrite decide_True in Hj by done. apply list_elem_of_singleton in Hj as ->. unfold kind. rewrite Ea. cbn. congruence.
    + unfold cb_at. cbn [cbs set_ring]. rewrite Ea. cbn [of_option]. rewrite Done_bind. eexists. split; [reflexivity |].
      pose proof (data_reset_set (cbs s) id a Ea) as Hm. pose proof (data_reset_same _ _ _ Hm id) as [K1 K2].
      apply (blk_inv_push refs sub s _ (PPoll (KIo id)) q (<[id := set_data false a]> (cbs s)) (outstanding s) Hi Hp Hfree Hm); rewrite ?Eq; try done.
      * by rewrite decide_True.
      * by apply Hop.
      * rewrite decide_True by done. rewrite bio_count_one, decide_False; [lia |]. rewrite K1. unfold kind. rewrite Ea. cbn. congruence.
      * intros j Hj. rewrite decide_True in Hj by done. by apply list_elem_of_singleton in Hj as ->.
      * split; [| done]. intros k [= <-]. cbn. exists (set_data false a). by rewrite lookup_insert_eq.
Qed.

(** ** A response is taken off the ring *)
Section Take.
  Context (refs sub : list Z) (s : blk) (k : caller) (rp did : Z) (x : blk_rsp) (l : list blk_rsp).
  Context (p' : pc) (m : gmap Z aiocb) (gf : list Z) (extra : list (Z * Z)).
Let co : Z := rsp_cons (dring s).
Let r' : ring := set_rsp_cons (co + 1) (dring s).
Let new : list Z := if decide (rs_id x <> 0) then [rs_id x] else [].
Let s' : blk := Blk r' (evt_pending s) gf m (outstanding s) (<[cur s := p']> (threads s)) (cur s) (completed s ++ extra) (answered s) (gnt s).
  Hypothesis Hi : inv refs sub s.
  Hypothesis Hp : threads s !! cur s = Some (PLoop k rp co did).
  Hypothesis Hav : avail (dring s) = x :: l.
  Hypothesis Hm : forall i, i ∉ new -> m !! i = cbs s !! i.
  Hypothesis Hkind : forall i, kind m i = kind (cbs s) i.
  Hypothesis Hdata : forall i a, i ∈ new -> m !! i = Some a -> aio_data a = true ->
    (exists b, cbs s !! i = Some b /\ aio_data b = true) \/ i ∈ map fst extra.

Lemma take_ops : ring_ops (dring s) ≡ₚ (rs_id x, rs_op x) :: ring_ops r'.
Proof.
  destruct (set_rsp_cons_spec x l (dring s) Hav) as (E1 & E2 & _). unfold ring_ops, r', co. rewrite E1, E2, Hav. cbn [map]. solve_Permutation.
Qed.

Lemma take_rids : rids (ring_ops (dring s)) ≡ₚ new ++ rids (ring_ops r').
Proof. by rewrite take_ops, rids_cons. Qed.

Lemma take_keeps : keeps s s'.
Proof.
  destruct (set_rsp_cons_spec x l (dring s) Hav) as (E1 & E2 & E3 & E4 & E5). split; cbn; try done.
  - rewrite (proj1 (avail_spec r')), (proj1 (avail_spec (dring s))). unfold r', co. rewrite E2, E5, Hav. cbn [length]. lia.
  - unfold r', co. rewrite E5. lia.
  - intros id. rewrite map_app. set_solver.
  - intros i a a' Ea Ea' Hd. rewrite map_app. destruct (decide (i ∈ new)) as [Hn | Hn].
    + destruct (Hdata i a' Hn Ea' Hd) as [(b & Eb & Hb) | H]; [left; simplify_eq; done | right; set_solver].
    + rewrite Hm in Ea' by done. simplify_eq. by left.
  - intros k' _ [He | (A1 & _)]; [by left |]. by rewrite Hav in A1.
Qed.

Lemma take_new_places : forall t q id, threads s !! t = Some q -> id ∈ pc_ids q -> id ∉ new.
Proof.
  intros t q id Hq Hid Hn. eapply (own_not_ring refs sub s); [done | exact Hq | exact Hid |]. rewrite take_rids. set_solver.
Qed.

Lemma take_cbs_keep t q : threads s !! t = Some q -> cbs_keep (cbs s) m q.
Proof.
  intros Hq. split.
  - intros id Hid. apply Hm. by eapply take_new_places.
  - intros id a Ea Ec. assert (kind m id = Some CbIo) as Hk by (rewrite Hkind; unfold kind; rewrite Ea; exact Ec).
    unfold kind in Hk. apply bind_Some in Hk as (b & Eb & Hb). by exists b.
Qed.

Lemma take_caller : caller_ok s' k.
Proof.
  destruct (v_thr _ _ _ Hi _ _ Hp) as [[H1 _] _]. pose proof take_keeps as [].
  eapply (caller_ok_keep s s' _ k); [| by eapply take_cbs_keep | done | done | by apply H1]. done.
Qed.

Lemma inv_take : pc_caller p' = Some k -> sub_ids p' = caller_ids k ->
  new ≡ₚ map fst extra ++ cb_ids p' -> (forall id, id ∈ new -> grefs m id = []) ->
  gf ≡ₚ (new ≫= grefs (cbs s)) ++ gfree s -> bio_count m new = bio_count m (cb_ids p') ->
  (forall id ret, (id, ret) ∈ extra -> answer_known s id ret) -> thr_ok s' p' -> inv refs sub s'.
Proof.
  intros Hc Hsub Hnew Hg Hgf Hbio Hans Hok. destruct (set_rsp_cons_spec x l (dring s) Hav) as (E1 & E2 & E3 & E4 & E5).
  fold co in E1, E2, E3, E4, E5. fold r' in E1, E2, E3, E4, E5. pose proof take_ops as Hops. pose proof take_rids as Hrids.
  destruct (bind_insert pc_ids _ _ _ Hp) as (rest & Hr1 & Hr2 & Hr3). destruct (bind_insert cb_ids _ _ _ Hp) as (rest' & Hc1 & Hc2 & _).
  assert (new ++ places s' ≡ₚ cb_ids p' ++ places s) as Hpl.
  { unfold places. change (dring s') with r'. change (threads s') with (<[cur s := p']> (threads s)). rewrite Hrids, Hr1, (Hr2 p').
    cbn [pc_ids cb_ids sub_ids app pc_caller fmap option_fmap option_map default]. unfold pc_ids at 1. rewrite Hsub. cbn. solve_Permutation. }
  pose proof take_keeps as Hk. pose proof Hi as Hi'. destruct Hi'. split; try done.
  - cbn. rewrite E1, E2. rewrite Hav in v_cap0. cbn [length] in v_cap0. lia.
  - cbn. rewrite list_lookup_insert_eq by (by eapply lookup_lt_Some). by eexists.
  - apply (threads_next s s' p'); try done. intros t q _ Hq. by eapply take_cbs_keep.
  - change (dring s') with r'. change (cbs s') with m. rewrite Hops in v_ring0. apply Forall_cons in v_ring0 as [_ Hro].
    apply Forall_forall. intros y Hy. pose proof (proj1 (Forall_forall _ _) Hro y Hy) as Ho.
    destruct (decide (y.1 ∈ new)) as [Hn | Hn].
    + destruct Ho as [Ho | (O1 & O2 & O3 & O4)]; [by left | right]. rewrite Hkind, (Hg _ Hn). cbn. split_and!; try done; lia.
    + apply (op_ok_same (cbs s)); [done | by apply grefs_keep, Hm | done].
  - change (completed s') with (completed s ++ extra). rewrite v_sub0, map_app.
    apply (Permutation_app_inv_l new). transitivity (map fst (completed s) ++ map fst extra ++ cb_ids p' ++ places s).
    + rewrite Hnew at 1. solve_Permutation.
    + rewrite <- Hpl. rewrite Hnew. solve_Permutation.
  - change (cbs s') with m. intros id Hid. destruct (decide (id ∈ new)) as [Hn | Hn]; [| apply v_dom0; by rewrite <- Hm].
    rewrite v_sub0. apply elem_of_app. right. unfold places. rewrite Hrids. set_solver.
  - change (gfree s') with gf. change (cbs s') with m. rewrite <- v_grants0, Hgf.
    assert ((places s ≫= grefs (cbs s)) ≡ₚ (new ≫= grefs (cbs s)) ++ (places s' ≫= grefs m)) as ->; [| solve_Permutation].
    assert (places s ≡ₚ new ++ rest ++ caller_ids k ++ rids (ring_ops r')) as -> .
    { unfold places. rewrite Hr1, Hrids. cbn. solve_Permutation. }
    assert (places s' ≡ₚ cb_ids p' ++ rest ++ caller_ids k ++ rids (ring_ops r')) as ->.
    { unfold places. change (dring s') with r'. change (threads s') with (<[cur s := p']> (threads s)). rewrite (Hr2 p'). unfold pc_ids. rewrite Hsub. solve_Permutation. }
    rewrite !(bind_app _ (cb_ids p')), !(bind_app _ new). rewrite (bind_nil (grefs m) (cb_ids p')) by (intros y Hy; apply Hg; rewrite Hnew; set_solver).
    cbn [app]. f_equiv. apply reflexive_eq. assert (NoDup (new ++ rest ++ caller_ids k ++ rids (ring_ops r'))) as Hnd.
    { pose proof (proj1 v_nodup0) as Hn. rewrite v_sub0 in Hn. apply NoDup_app in Hn as (_ & _ & Hn).
      unfold places in Hn. rewrite Hr1, Hrids in Hn. cbn in Hn. eapply NoDup_Permutation_proper; [| exact Hn]. solve_Permutation. }
    apply NoDup_app in Hnd as (_ & Hnd & _). clear -Hm Hnd. revert Hnd. generalize (rest ++ caller_ids k ++ rids (ring_ops r')). intros L HL.
    induction L as [| y L IH]; [done |]. rewrite !bind_cons, IH by set_solver. f_equal. symmetry. apply grefs_keep, Hm. set_solver.
  - change (dring s') with r'. change (cbs s') with m. intros id Hid Hk'. rewrite Hkind in Hk'.
    destruct (v_io0 id ltac:(rewrite Hrids; set_solver) Hk') as (t & q & Hq & Hcq). destruct (decide (t = cur s)) as [-> | Hne].
    + rewrite Hp in Hq. injection Hq as <-. exists (cur s), p'. split; [| cbn in Hcq; congruence]. apply list_lookup_insert_eq. by eapply lookup_lt_Some.
    + exists t, q. split; [| done]. cbn. by rewrite list_lookup_insert_ne.
  - change (dring s') with r'. change (cbs s') with m. change (outstanding s') with (outstanding s). change (threads s') with (<[cur s := p']> (threads s)).
    rewrite v_out0. rewrite <- (bio_count_ext (cbs s) m _ (fun i _ => Hkind i)). rewrite Hrids, Hc1, (Hc2 p'). change (cb_ids (PLoop k rp co did)) with (@nil Z). rewrite app_nil_l, !bio_count_app, Hbio. lia.
  - cbn. rewrite E2. destruct v_ans0 as [V1 V2]. rewrite Hav in V1. split; [set_solver |].
    intros id ret. rewrite elem_of_app. intros [H | H]; [by apply V2 | by apply Hans].
Qed.
End Take.

Lemma take_chk s k rp co did (s' : blk) : co = rsp_cons (dring s) -> co < rp <= rsp_prod (dring s) -> caller_ok s' k ->
  rsp_prod (dring s') = rsp_prod (dring s) -> rsp_cons (dring s') = co + 1 -> thr_ok s' (PChk k rp (co + 1) did).
Proof. intros -> Hr Hc E1 E2. split; [by intros k' [= <-] |]. rewrite E1, E2. lia. Qed.

Lemma filter_in_use (l : list Z) (g : grants) : in_use g = [] -> filter (fun x => x ∉ in_use g) l = l.
Proof. intros ->. induction l as [| x l IH]; [done |]. rewrite filter_cons_True by apply not_elem_of_nil. by rewrite IH. Qed.

Lemma step_loop refs sub s k rp co did : inv refs sub s -> in_use (gnt s) = [] -> threads s !! cur s = Some (PLoop k rp co did) ->
  steps refs sub s (PLoop k rp co did).
Proof.
  intros Hi Hu Hp. unfold steps, thread_step. destruct (v_thr _ _ _ Hi _ _ Hp) as [[_ [Eco Hr]] _].
  destruct (Z.eqb_spec co rp) as [E | E]; [by eapply poll_end_inv |]. subst co. set (co := rsp_cons (dring s)) in *.
  destruct (avail_spec (dring s)) as [Eprod Eget]. destruct (avail (dring s)) as [| x l] eqn:Hav; [cbn in Eprod; fold co in Eprod; lia |].
  unfold poll_one. fold co in Eget. rewrite Eget. cbn [head of_option]. rewrite Done_bind.
  destruct (set_rsp_cons_spec x l (dring s) Hav) as (E1 & E2 & E3 & E4 & E5). fold co in E1, E2, E3, E4, E5.
  assert (rsp_prod (set_rsp_cons (co + 1) (dring s)) = rsp_prod (dring s)) as E6.
  { rewrite (proj1 (avail_spec _)), E2, E5, Eprod. cbn [length]. fold co. lia. }
  assert ((rs_id x, rs_status x) ∈ answered s) as Hans by (apply (proj1 (v_ans _ _ _ Hi)); rewrite Hav; set_solver).
  assert (op_ok (cbs s) (rs_id x, rs_op x)) as Hop.
  { apply (proj1 (Forall_forall _ _) (v_ring _ _ _ Hi)). unfold ring_ops. rewrite Hav. cbn. set_solver. }
  unfold end_grants, after_response. destruct Hop as [[Hid Hop] | (Hid & Hop & Hlen & [kd Hkd])]; cbn [fst snd] in *.
  - assert ((rs_op x =? BLKIF_OP_READ) || (rs_op x =? BLKIF_OP_WRITE) = false) as -> by (destruct Hop as [-> | ->]; done).
    rewrite Done_bind, Hid. cbn [Z.eqb]. eexists. split; [reflexivity |].
    pose proof (inv_take refs sub s k rp did x l (PChk k rp (co + 1) (did + 1)) (cbs s) (gfree s) [] Hi Hp Hav) as H.
    pose proof (take_caller refs sub s k rp did x l (PChk k rp (co + 1) (did + 1)) (cbs s) (gfree s) [] Hi Hp Hav) as Hcl.
    rewrite Hid in H, Hcl. rewrite decide_False in H, Hcl by congruence. rewrite (app_nil_r (completed s)) in H, Hcl. apply H; try done.
    + intros i a Hni. by apply elem_of_nil in Hni.
    + intros i Hni. by apply elem_of_nil in Hni.
    + intros i ret Hni. by apply elem_of_nil in Hni.
    + eapply (take_chk s); try done; [lia |]. apply Hcl; try done. intros i a Hni. by apply elem_of_nil in Hni.
  - assert ((rs_op x =? BLKIF_OP_READ) || (rs_op x =? BLKIF_OP_WRITE) = true) as -> by (destruct Hop as [-> | ->]; done).
    unfold kind in Hkd. apply bind_Some in Hkd as (a & Ea & Hcb). unfold cb_at. rewrite Ea. cbn [of_option]. rewrite !Done_bind. cbv zeta. rewrite (filter_in_use _ _ Hu).
    rewrite (proj2 (Z.eqb_neq _ _) Hid). cbn [cbs set_ring set_gfree set_cbs]. rewrite lookup_insert_eq. cbn [of_option aio_cb set_gref].
    rewrite Done_bind. change (aio_cb (set_gref [] a)) with (aio_cb a). rewrite Hcb. assert (grefs (cbs s) (rs_id x) = aio_gref a) as Egr by (unfold grefs; by rewrite Ea).
    destruct kd; [rewrite insert_insert_eq |]; (eexists; split; [reflexivity |]).
    + set (m := <[rs_id x := set_data true (set_gref [] a)]> (cbs s)). set (e := [(rs_id x, result_of (rs_status x))]).
      pose proof (inv_take refs sub s k rp did x l (PChk k rp (co + 1) (did + 1)) m (aio_gref a ++ gfree s) e Hi Hp Hav) as H.
      pose proof (take_caller refs sub s k rp did x l (PChk k rp (co + 1) (did + 1)) m (aio_gref a ++ gfree s) e Hi Hp Hav) as Hcl.
      rewrite decide_True in H, Hcl by done.
      assert (forall i, i ∉ [rs_id x] -> m !! i = cbs s !! i) as A1 by (intros i Hni; apply lookup_insert_ne; set_solver).
      assert (forall i, kind m i = kind (cbs s) i) as A2.
      { intros i. destruct (decide (i = rs_id x)) as [-> |]; [unfold kind, m; by rewrite lookup_insert_eq, Ea | apply kind_keep, A1; set_solver]. }
      assert (forall i b, i ∈ [rs_id x] -> m !! i = Some b -> aio_data b = true ->
        (exists b, cbs s !! i = Some b /\ aio_data b = true) \/ i ∈ map fst e) as A3.
      { intros i b ->%list_elem_of_singleton _ _. right. cbn. set_solver. }
      apply H; try done.
      * intros i ->%list_elem_of_singleton. unfold grefs, m. by rewrite lookup_insert_eq.
      * cbn. by rewrite Egr, app_nil_r.
      * rewrite bio_count_one, decide_False; [done |]. rewrite A2. unfold kind. rewrite Ea. cbn. congruence.
      * intros i ret [= -> ->]%list_elem_of_singleton. by exists (rs_status x).
      * eapply (take_chk s); try done; [lia |]. by apply Hcl.
    + set (m := <[rs_id x := set_gref [] a]> (cbs s)). set (p' := PCb k rp (co + 1) (did + 1) (rs_id x) (result_of (rs_status x))).
      pose proof (inv_take refs sub s k rp did x l p' m (aio_gref a ++ gfree s) [] Hi Hp Hav) as H.
      pose proof (take_caller refs sub s k rp did x l p' m (aio_gref a ++ gfree s) [] Hi Hp Hav) as Hcl.
      rewrite decide_True in H, Hcl by done. rewrite (app_nil_r (completed s)) in H, Hcl.
      assert (forall i, i ∉ [rs_id x] -> m !! i = cbs s !! i) as A1 by (intros i Hni; apply lookup_insert_ne; set_solver).
      assert (forall i, kind m i = kind (cbs s) i) as A2.
      { intros i. destruct (decide (i = rs_id x)) as [-> |]; [unfold kind, m; by rewrite lookup_insert_eq, Ea | apply kind_keep, A1; set_solver]. }
      assert (forall i b, i ∈ [rs_id x] -> m !! i = Some b -> aio_data b = true ->
        (exists b, cbs s !! i = Some b /\ aio_data b = true) \/ i ∈ map fst (@nil (Z * Z))) as A3.
      { intros i b ->%list_elem_of_singleton Eb Hd. left. exists a. split; [done |]. unfold m in Eb. rewrite lookup_insert_eq in Eb. by injection Eb as <-. }
      assert (grefs m (rs_id x) = []) as A4 by (unfold grefs, m; by rewrite lookup_insert_eq).
      apply H; try done.
      * intros i ->%list_elem_of_singleton. done.
      * cbn. by rewrite Egr, app_nil_r.
      * intros i ret Hni. by apply elem_of_nil in Hni.
      * split; [intros k' [= <-]; by apply Hcl |]. cbn [dring cbs]. unfold p'. fold co. rewrite E6, E5. split_and!; try lia; try done.
        { rewrite A2. unfold kind. by rewrite Ea. } by exists (rs_status x).
Qed.

(** ** A callback of the rump kernel *)
Lemma biocomp_keeps s id ret p' : kind (cbs s) id = Some CbBio ->
  keeps s (goto p' (set_outstanding (outstanding s - 1) (set_cbs (delete id (cbs s)) (complete id ret s)))).
Proof.
  intros Hk. split; cbn; try done; try lia.
  - intros j. rewrite map_app. set_solver.
  - intros j a a' Ea [_ Ea']%lookup_delete_Some Hd. simplify_eq. by left.
  - intros k Hc [He | (A1 & A2 & A3)]; [by left | right]. cbn. split_and!; [done | done |]. destruct k as [| j | |]; try done.
    destruct A3 as (a & Ea & Ed), Hc as (b & Eb & Ec & _). rewrite Ea in Eb. injection Eb as <-. exists a. split; [| done].
    apply lookup_delete_Some. split; [| done]. intros ->. unfold kind in Hk. rewrite Ea in Hk. cbn in Hk. congruence.
Qed.

Lemma step_cb refs sub s k rp co did id ret : inv refs sub s -> threads s !! cur s = Some (PCb k rp co did id ret) ->
  steps refs sub s (PCb k rp co did id ret).
Proof.
  intros Hi Hp. destruct (v_thr _ _ _ Hi _ _ Hp) as [[Hc (H1 & H2 & Hk & Hg & Hans)] _].
  unfold steps, thread_step, biocomp, cb_at. pose proof Hk as Hk0. unfold kind in Hk0. apply bind_Some in Hk0 as (a & Ea & Ecb).
  rewrite Ea. cbn [of_option]. rewrite !Done_bind. eexists. split; [reflexivity |]. set (m := delete id (cbs s)).
  set (p' := PChk k rp co did). set (s' := goto p' _).
  pose proof (biocomp_keeps s id ret p' Hk) as Hkp. fold s' in Hkp.
  assert (forall j, j <> id -> m !! j = cbs s !! j) as Hm by (intros j Hj; by apply lookup_delete_ne).
  assert (id ∈ pc_ids (PCb k rp co did id ret)) as Hown by (cbn; set_solver).
  assert (id ∉ rids (ring_ops (dring s))) as Hnr by (by eapply own_not_ring).
  assert (forall t q, t <> cur s -> threads s !! t = Some q -> id ∉ pc_ids q) as Hoth.
  { intros t q Hne Hq Hid. by eapply own_ids. }
  assert (forall q, (id ∉ pc_ids q) -> cbs_keep (cbs s) m q) as Hkeep.
  { intros q Hq. split; [intros j Hj; apply Hm; set_solver |]. intros j b Eb Ec. exists b. rewrite Hm; [done |].
    intros ->. unfold kind in Hk. rewrite Eb in Hk. cbn in Hk. congruence. }
  destruct (bind_insert pc_ids _ _ _ Hp) as (rest & Hr1 & Hr2 & Hr3). destruct (bind_insert cb_ids _ _ _ Hp) as (rest' & Hc1 & Hc2 & Hc3).
  assert ((id ∉ rest) /\ (id ∉ caller_ids k)) as [Hnrest Hncal].
  { pose proof (proj1 (v_nodup _ _ _ Hi)) as Hn. rewrite (v_sub _ _ _ Hi) in Hn. apply NoDup_app in Hn as (_ & _ & Hn).
    unfold places in Hn. rewrite Hr1 in Hn. cbn in Hn. apply NoDup_cons in Hn as [Hn _]. set_solver. }
  assert (places s ≡ₚ id :: places s') as Hpl.
  { unfold places. change (dring s') with (dring s). change (threads s') with (<[cur s := p']> (threads s)). rewrite Hr1, (Hr2 p'). done. }
  pose proof Hi as Hi'. destruct Hi'. split; try done.
  - cbn. rewrite list_lookup_insert_eq by (by eapply lookup_lt_Some). by eexists.
  - apply (threads_next s s' p'); try done; [intros t q Hne Hq; apply Hkeep; by eapply Hoth |].
    split; [| by cbn]. intros k' [= <-]. destruct Hkp. eapply (caller_ok_keep s s' p' k); try done; [| by apply Hc].
    apply Hkeep. done.
  - by eapply ring_ok_keep.
  - change (completed s') with (completed s ++ [(id, ret)]). rewrite v_sub0, Hpl, map_app. cbn. solve_Permutation.
  - cbn. intros j Hj. apply v_dom0. destruct Hj as [b [_ Hb]%lookup_delete_Some]. by exists b.
  - change (gfree s') with (gfree s). change (cbs s') with m. rewrite <- v_grants0, Hpl, bind_cons, Hg.
    rewrite (bind_grefs_keep (cbs s) m id (places s') Hm); [done |].
    unfold places. change (dring s') with (dring s). change (threads s') with (<[cur s := p']> (threads s)). rewrite (Hr2 p').
    rewrite !not_elem_of_app. split; [| done]. split; [done | done].
  - cbn. intros j Hj Hkj. assert (j <> id) as Hne by (intros ->; done). rewrite (kind_keep _ _ _ (Hm j Hne)) in Hkj.
    destruct (v_io0 j Hj Hkj) as (t & q & Hq & Hcq). destruct (decide (t = cur s)) as [-> | Hn2].
    + rewrite Hp in Hq. injection Hq as <-. exists (cur s), p'. split; [| done]. apply list_lookup_insert_eq. by eapply lookup_lt_Some.
    + exists t, q. split; [| done]. by rewrite list_lookup_insert_ne.
  - change (dring s') with (dring s). change (cbs s') with m. change (outstanding s') with (outstanding s - 1). change (threads s') with (<[cur s := p']> (threads s)).
    rewrite v_out0, (Hc2 p'), Hc1. change (cb_ids p') with (@nil Z). change (cb_ids (PCb k rp co did id ret)) with [id].
    rewrite app_nil_l, !bio_count_app, bio_count_one, decide_True by done.
    rewrite (bio_count_ext (cbs s) m rest'), (bio_count_ext (cbs s) m (rids (ring_ops (dring s)))); [lia | |].
    + intros j Hj. apply kind_keep, Hm. set_solver.
    + intros j Hj. apply kind_keep, Hm. intros ->. apply Hc3 in Hj as (t & q & Hne & Hq & Hx).
      eapply Hoth; [exact Hne | exact Hq |]. unfold pc_ids. set_solver.
  - cbn. split; [apply v_ans0 |]. intros j r [H | [= -> ->]%list_elem_of_singleton]%elem_of_app; [by apply v_ans0 | done].
Qed.

(** What happens outside the threads keeps what is known of each of them. *)
Lemma thr_ok_env s s' p : keeps s s' -> cbs_keep (cbs s) (cbs s') p ->
  rsp_cons (dring s') = rsp_cons (dring s) -> ring_free (dring s') = ring_free (dring s) ->
  req_prod_pvt (dring s') = req_prod_pvt (dring s) ->
  (forall k did, p = PAfter k did -> event_coming s True -> event_coming s' True) -> thr_ok s p -> thr_ok s' p.
Proof.
  intros Hk Hc E1 E2 E3 Ha Hok. assert (parked p \/ ~ parked p) as [Hp | Hp] by (destruct p; cbn; tauto); [by apply (thr_ok_keep s) |].
  destruct Hok as [H1 H2]. split.
  { intros k E. destruct Hk. eapply caller_ok_keep; eauto. }
  destruct Hk as [K1 K2 K3 K4 K5 K6], Hc as [Ka Kb]. destruct p as [| | k rp co did | | k rp co did | k did | | j f | id w f i n | |]; cbn [parked] in Hp; try tauto.
  - rewrite E1. lia.
  - rewrite E1. lia.
  - eauto.
  - destruct H2 as (J1 & J2 & J3). rewrite E2. split_and!; [by eapply job_ok_keep | | done]. intros id Hid. rewrite (grefs_keep (cbs s)); [auto |]. by apply Ka.
  - destruct H2 as (J1 & J2 & J3 & J4 & J5). rewrite E2, E3. assert (cbs s' !! id = cbs s !! id) as E by (apply Ka; cbn; set_solver).
    rewrite (grefs_keep _ _ _ E). split_and!; try done; try lia. eapply job_ok_keep; [| exact J1]. intros j. cbn. set_solver.
Qed.

(** ** Every step of the thread that runs *)
Lemma blk_step_inv refs sub s p : inv refs sub s -> in_use (gnt s) = [] -> (11 * RING_SIZE <= length refs)%nat -> threads s !! cur s = Some p -> steps refs sub s p.
Proof.
  intros Hi Hu Hrefs Hp. destruct p as [| | | | | | | [id w | op] f | | |].
  - by apply step_slot.
  - by apply step_poll.
  - by apply step_loop.
  - by apply step_cb.
  - by apply step_chk.
  - by apply step_after.
  - by apply step_sleep.
  - by apply step_go_aio.
  - by apply step_go_push.
  - by apply step_grant.
  - by apply step_bio.
  - by exists s.
Qed.

(** ** The other events *)

Lemma places_sub refs sub s id : inv refs sub s -> id ∈ places s -> id ∈ sub.
Proof. intros Hi Hid. rewrite (v_sub _ _ _ Hi). set_solver. Qed.

Lemma thread_places s t q id : threads s !! t = Some q -> id ∈ pc_ids q -> id ∈ places s.
Proof.
  intros Hq Hid. unfold places. apply elem_of_app. left. apply list_elem_of_bind. exists q. split; [done |].
  apply list_elem_of_lookup. by exists t.
Qed.

Lemma inv_spawn refs sub s p m : inv refs sub s -> cb_ids p = [] -> parked p ->
  NoDup (pc_ids p) -> (forall id, id ∈ pc_ids p -> (id ∉ sub) /\ id <> 0) ->
  (forall id, id ∉ pc_ids p -> m !! id = cbs s !! id) -> (forall id, id ∈ pc_ids p -> grefs m id = []) ->
  thr_ok (spawn p (set_cbs m s)) p -> inv refs (sub ++ pc_ids p) (spawn p (set_cbs m s)).
Proof.
  intros Hi Hcb Hpk Hnd Hfresh Hm Hg Hok. set (s' := spawn p (set_cbs m s)).
  assert (forall id, id ∈ sub -> m !! id = cbs s !! id) as Hold by (intros id Hid; apply Hm; intros Hn; by destruct (Hfresh id Hn)).
  assert (forall id a, cbs s !! id = Some a -> m !! id = Some a) as Hsome.
  { intros id a Ea. rewrite Hold; [done |]. apply (v_dom _ _ _ Hi). by eexists. }
  assert (keeps s s') as Hk.
  { split; cbn; try done; try lia.
    - intros id a a' Ea Ea' Hd. rewrite (Hsome _ _ Ea) in Ea'. simplify_eq. by left.
    - intros k _ [He | (A1 & A2 & A3)]; [by left | right]. cbn. split_and!; [done | done |]. destruct k as [| id | |]; try done.
      destruct A3 as (a & Ea & Ed). exists a. auto. }
  assert (forall id, id ∈ rids (ring_ops (dring s)) -> m !! id = cbs s !! id) as Hring.
  { intros id Hid. apply Hold. eapply places_sub; [done |]. unfold places. set_solver. }
  pose proof Hi as Hi'. destruct Hi'. split; try done.
  - cbn. destruct v_cur0 as [q Hq]. exists q. by apply lookup_app_l_Some.
  - cbn. intros t q [Hq | [Hlen Hq]]%lookup_app_Some.
    + destruct (v_thr0 t q Hq) as [H1 H2]. split; [| done]. apply (thr_ok_env s); try done.
      split; [| intros id a Ea Ec; exists a; auto]. intros id Hid. apply Hold. eapply places_sub; [done |]. by eapply thread_places.
    + apply list_lookup_singleton_Some in Hq as [_ <-]. done.
  - apply Forall_forall. intros x Hx. pose proof (proj1 (Forall_forall _ _) v_ring0 x Hx) as Ho. cbn.
    destruct Ho as [Ho | (O1 & O2 & O3 & O4)]; [by left |]. assert (m !! x.1 = cbs s !! x.1) as E.
    { apply Hring. unfold rids. apply list_elem_of_filter. split; [done |]. apply list_elem_of_fmap. by exists x. }
    right. by rewrite (kind_keep _ _ _ E), (grefs_keep _ _ _ E).
  - change (completed s') with (completed s). rewrite v_sub0. unfold places. change (dring s') with (dring s).
    change (threads s') with (threads s ++ [p]). rewrite bind_app, bind_singleton. solve_Permutation.
  - split; [apply NoDup_app; split_and!; [apply v_nodup0 | intros id H1 H2; by destruct (Hfresh id H2) | done] |].
    rewrite not_elem_of_app. split; [apply v_nodup0 |]. intros H0. by destruct (Hfresh 0 H0).
  - cbn. intros id Hid. apply elem_of_app. destruct (decide (id ∈ pc_ids p)); [by right | left]. apply v_dom0. by rewrite <- Hm.
  - change (gfree s') with (gfree s). change (cbs s') with m. rewrite <- v_grants0.
    assert (places s' ≡ₚ pc_ids p ++ places s) as ->.
    { unfold places. change (dring s') with (dring s). change (threads s') with (threads s ++ [p]). rewrite bind_app, bind_singleton. solve_Permutation. }
    rewrite bind_app, (bind_nil (grefs m) (pc_ids p)) by done. cbn [app]. f_equiv. apply reflexive_eq.
    assert (forall id, id ∈ places s -> m !! id = cbs s !! id) as HP by (intros id Hid; apply Hold; by eapply places_sub).
    revert HP. generalize (places s). intros L HP. induction L as [| y L IH]; [done |]. rewrite !bind_cons, IH by set_solver. f_equal. apply grefs_keep, HP. set_solver.
  - cbn. intros id Hid Hkd. rewrite (kind_keep _ _ _ (Hring id Hid)) in Hkd. destruct (v_io0 id Hid Hkd) as (t & q & Hq & Hcq).
    exists t, q. split; [by apply lookup_app_l_Some | done].
  - cbn. rewrite bind_app, bind_singleton, Hcb, app_nil_r, v_out0. symmetry. apply bio_count_ext.
    intros id [Hid | Hid]%elem_of_app; [| by apply kind_keep, Hring]. apply kind_keep, Hold. eapply places_sub; [done |].
    apply list_elem_of_bind in Hid as (q & Hid & [t Hq]%list_elem_of_lookup). eapply thread_places; [exact Hq |]. unfold pc_ids. set_solver.
Qed.

Lemma blk_backend_inv refs sub s k q status held : inv refs sub s -> in_flight (dring s) !! k = Some q ->
  exists s', blk_event sector_size others_max (EBackend k status held) s = Done s' /\ inv refs sub s' /\ gnt s' = Grants (held ++ in_use (gnt s)) (others (gnt s)).
Proof.
  intros Hi Hq. cbn [blk_event]. rewrite Hq. pose proof (backend_answer_spec k q status (dring s) Hq) as Hb.
  destruct (backend_answer k status (dring s)) as [ev r]. destruct Hb as (E1 & E2 & E3 & E4 & E5 & E6). eexists. split; [reflexivity |]. split; [| done].
  set (s' := Blk r _ _ _ _ _ _ _ _ _). pose proof (v_cap _ _ _ Hi) as Hcap.
  pose proof (delete_Permutation _ _ _ Hq) as Hdel. pose proof (Permutation_length Hdel) as Hlen. cbn [length] in Hlen.
  assert (ring_ops r ≡ₚ ring_ops (dring s)) as Hops.
  { unfold ring_ops. rewrite E1, E2, map_app. pose proof (Permutation_map (fun q => (rq_id q, rq_op q)) Hdel) as Hm. cbn [map] in *.
    rewrite Hm. cbn [rs_id rs_op]. solve_Permutation. }
  assert (forall P P', event_coming s P -> event_coming s' P') as Hev.
  { intros P P' [He | (_ & A2 & _)]; left; cbn; [by rewrite He | rewrite (E5 A2); apply orb_true_r]. }
  assert (ring_free r = ring_free (dring s)) as Efree.
  { rewrite !ring_free_spec; rewrite ?E1, ?E2, ?length_app; cbn [length]; lia. }
  assert (keeps s s') as Hk.
  { split; cbn; try done.
    - rewrite (proj1 (avail_spec r)), (proj1 (avail_spec (dring s))), E2, E4, length_app. cbn. lia.
    - lia.
    - set_solver.
    - intros id a a' Ea Ea' Hd. simplify_eq. by left.
    - intros k' _. apply Hev. }
  pose proof Hi as Hi'. destruct Hi'. split; try done.
  - cbn. rewrite E1, E2, length_app. cbn. lia.
  - cbn. intros t p Hp. destruct (v_thr0 t p Hp) as [H1 H2]. split; [| done].
    apply (thr_ok_env s); try done; [apply cbs_keep_refl |]. intros k' did _. apply Hev.
  - cbn. by rewrite Hops.
  - unfold places. cbn. by rewrite Hops.
  - unfold places. cbn. by rewrite Hops.
  - cbn. intros id. rewrite Hops. apply v_io0.
  - cbn. by rewrite Hops.
  - cbn. destruct v_ans0 as [V1 V2]. rewrite E2. split.
    + intros x. rewrite !elem_of_app, !list_elem_of_singleton. intros [Hx | ->]; [left; by apply V1 | by right].
    + intros id ret Hc. destruct (V2 id ret Hc) as (st & H1 & H2). exists st. split; [set_solver | done].
Qed.

Lemma bind_wake {B} (f : pc -> list B) l : (forall p, f (wake p) = f p) -> ((wake <$> l) ≫= f) = (l ≫= f).
Proof. intros H. induction l as [| p l IH]; [done |]. cbn [fmap list_fmap]. by rewrite !bind_cons, H, IH. Qed.

Lemma irq_inv refs sub s : inv refs sub s -> irq_off (cur_pc s) = false -> inv refs sub (blkfront_handler s).
Proof.
  intros Hi Hoff. set (s' := blkfront_handler s).
  assert (forall p, pc_ids (wake p) = pc_ids p /\ cb_ids (wake p) = cb_ids p /\ pc_caller (wake p) = pc_caller p) as Hw by (by intros []).
  assert (places s' = places s) as Hpl by (unfold places; cbn; by rewrite (bind_wake pc_ids) by apply Hw).
  pose proof Hi as Hi'. destruct Hi'. split; try done.
  - cbn. rewrite list_lookup_fmap. destruct v_cur0 as [q ->]. by eexists.
  - cbn. intros t p Hp. apply list_lookup_fmap_Some in Hp as (q & -> & Hq). destruct (v_thr0 t q Hq) as [[H1 H2] H3].
    split; [| intros Hne; specialize (H3 Hne); by destruct q].
    split; [intros k; rewrite (proj2 (proj2 (Hw q))); apply H1 |].
    destruct q as [| | | | | k did | | | | |]; try done. exfalso. destruct (decide (t = cur s)) as [-> | Hne]; [| by destruct (H3 Hne)].
    unfold cur_pc in Hoff. by rewrite Hq in Hoff.
  - by rewrite Hpl.
  - change (gfree s') with (gfree s). change (cbs s') with (cbs s). by rewrite Hpl.
  - cbn. intros id Hid Hk. destruct (v_io0 id Hid Hk) as (t & p & Hp & Hc). exists t, (wake p).
    rewrite list_lookup_fmap, Hp. split; [done |]. by rewrite (proj2 (proj2 (Hw p))).
  - cbn. by rewrite (bind_wake cb_ids) by apply Hw.
Qed.

Lemma run_inv_switch refs sub s t : inv refs sub s -> (11 * RING_SIZE <= length refs)%nat -> yields (cur_pc s) s = true ->
  (t < length (threads s))%nat ->
  inv refs sub (Blk (dring s) (evt_pending s) (gfree s) (cbs s) (outstanding s) (threads s) t (completed s) (answered s) (gnt s)).
Proof.
  intros Hi Hrefs Hy Ht. assert (parked (cur_pc s)) as Hpk.
  { destruct (v_cur _ _ _ Hi) as [p Hp]. unfold cur_pc in *. rewrite Hp in *. cbn [default from_option] in *.
    destruct p as [| | | | | | | | id w f i n | |]; try done. cbn in Hy. apply andb_true_iff in Hy as [Hn Hlt].
    apply bool_decide_eq_true in Hn. destruct (cbs s !! id) as [a |] eqn:Ea; [| done]. apply Z.ltb_lt in Hlt.
    exfalso. eapply (grants_left refs sub s); try done. unfold grefs. by rewrite Ea. }
  pose proof Hi as Hi'. destruct Hi'. split; try done.
  - by apply lookup_lt_is_Some.
  - cbn. intros t' p Hp. destruct (v_thr0 t' p Hp) as [H1 H2]. split; [done |]. intros Hne.
    destruct (decide (t' = cur s)) as [-> | Hn2]; [| auto]. unfold cur_pc in Hpk. by rewrite Hp in Hpk.
Qed.

(** ** The events *)
Definition aio_ok (buf nbytes offset : Z) : Prop :=
  Z.land offset (sector_size - 1) = 0 /\ Z.land nbytes (sector_size - 1) = 0 /\ Z.land buf (sector_size - 1) = 0 /\
  1 <= aio_pages buf nbytes <= BLKIF_MAX_SEGMENTS_PER_REQUEST.

(** The requests a caller makes are as the driver demands. *)
Definition event_ok (e : event) : Prop :=
  match e with
  | EAio _ buf nbytes offset _ | EIo _ buf nbytes offset _ => aio_ok buf nbytes offset
  | EBackend _ _ held => held = []
  | _ => True
  end.
Definition event_ids (e : event) : list Z := match e with EAio id _ _ _ _ | EIo id _ _ _ _ => [id] | _ => [] end.

Lemma aio_inv refs sub s id kd buf nbytes offset w f : inv refs sub s -> aio_ok buf nbytes offset -> (id ∉ sub) -> id <> 0 ->
  (f = FDone /\ kd = CbBio \/ f = FIo id /\ kd = CbIo) ->
  exists s', blkfront_aio sector_size id (Aiocb (Some kd) buf nbytes offset [] false) w f s = Done s' /\ inv refs (sub ++ [id]) s'.
Proof.
  intros Hi (H1 & H2 & H3 & H4) Hn H0 Hf. unfold blkfront_aio, aio_checks. cbn [aio_offset aio_nbytes aio_buf]. rewrite H1, H2, H3.
  rewrite (proj2 (Z.leb_le _ BLKIF_MAX_SEGMENTS_PER_REQUEST)) by lia. cbn [bmk_assert Z.eqb]. rewrite !Done_bind.
  eexists. split; [reflexivity |]. set (a := set_gref [] _).
  apply (inv_spawn refs sub s (PSlot (JAio id w) f) (<[id := a]> (cbs s)) Hi).
  - done.
  - done.
  - apply NoDup_singleton.
  - intros j ->%list_elem_of_singleton. done.
  - intros j Hj. apply lookup_insert_ne. cbn in Hj. set_solver.
  - intros j ->%list_elem_of_singleton. unfold grefs. by rewrite lookup_insert_eq.
  - split; [done |]. cbn. split.
    + exists a. rewrite lookup_insert_eq. split; [done |]. split; [exact H4 |]. destruct Hf as [[-> ->] | [-> ->]]; [by left | by right].
    + intros j ->%list_elem_of_singleton. unfold grefs. by rewrite lookup_insert_eq.
Qed.

(** No step of a thread touches what the backend and the other devices hold. *)
Lemma finish_gnt f s s' : finish f s = Done s' -> gnt s' = gnt s.
Proof. intros E. destruct f; cbn [finish] in E; by outcome_inv. Qed.

Lemma step_gnt p s s' : thread_step p s = Done s' -> gnt s' = gnt s.
Proof.
  intros E. destruct p as [j f | k | k rp co did | k rp co did id ret | k rp co did | k did | [? ? | ? | |] [] | [id w | op] f | id w f i n | |];
    cbv beta zeta iota delta [thread_step biothread] in E; try (by simplify_eq).
  - destruct (co =? rp); [unfold poll_end in E; destruct (final_check _); by simplify_eq |]. unfold poll_one, end_grants, after_response in E. repeat (case_match || outcome_inv); by simplify_eq.
  - unfold biocomp in E. by outcome_inv.
  - destruct (negb _); [| by simplify_eq]. unfold poll_end in E. destruct (final_check _). by simplify_eq.
  - unfold after_poll in E. destruct k; by outcome_inv.
  - outcome_inv. case_match; by simplify_eq.
  - by apply finish_gnt in E.
  - unfold grant_step in E. apply bind_Done in E as (a & _ & E). destruct (_ <? n); [destruct (gfree s); by simplify_eq |]. destruct (negb _); [done |]. apply finish_gnt in E. rewrite E. by destruct (aio_cb a) as [[] |].
Qed.

(** The references that other devices do not hold. *)
Record shared (refs0 refs : list Z) (s : blk) : Prop := {
  sh_use : in_use (gnt s) = [];
  sh_refs : refs ++ others (gnt s) ≡ₚ refs0;
  sh_max : (length (others (gnt s)) <= others_max)%nat
}.

Lemma shared_enough refs0 refs s : shared refs0 refs s -> (11 * RING_SIZE + others_max <= length refs0)%nat -> (11 * RING_SIZE <= length refs)%nat.
Proof. intros [_ Hp Hm] H. apply Permutation_length in Hp. rewrite length_app in Hp. lia. Qed.

Lemma shared_keep refs0 refs s s' : gnt s' = gnt s -> shared refs0 refs s -> shared refs0 refs s'.
Proof. intros E []. by split; rewrite E. Qed.

Lemma inv_gfree refs refs' sub s l g : inv refs sub s -> l ++ (places s ≫= grefs (cbs s)) ≡ₚ refs' -> inv refs' sub (set_gnt g (set_gfree l s)).
Proof. intros [] H. by split. Qed.

Lemma blk_event_inv refs0 refs sub s e : inv refs sub s -> shared refs0 refs s -> (11 * RING_SIZE + others_max <= length refs0)%nat -> event_ok e ->
  NoDup (sub ++ event_ids e) -> 0 ∉ event_ids e ->
  exists refs' s', blk_event sector_size others_max e s = Done s' /\ inv refs' (sub ++ event_ids e) s' /\ shared refs0 refs' s'.
Proof.
  intros Hi Hsh Hrefs0 Hok Hnd H0. pose proof (shared_enough _ _ _ Hsh Hrefs0) as Hrefs.
  assert (forall s', inv refs (sub ++ event_ids e) s' -> gnt s' = gnt s -> blk_event sector_size others_max e s = Done s' ->
    exists refs' s', blk_event sector_size others_max e s = Done s' /\ inv refs' (sub ++ event_ids e) s' /\ shared refs0 refs' s') as Hkeep.
  { intros s' Hi' Hg E. exists refs, s'. split; [done |]. split; [done |]. by eapply shared_keep. }
  assert (forall id kd buf nbytes offset w f, aio_ok buf nbytes offset -> event_ids e = [id] -> (f = FDone /\ kd = CbBio \/ f = FIo id /\ kd = CbIo) ->
    blk_event sector_size others_max e s = blkfront_aio sector_size id (Aiocb (Some kd) buf nbytes offset [] false) w f s ->
    exists refs' s', blk_event sector_size others_max e s = Done s' /\ inv refs' (sub ++ event_ids e) s' /\ shared refs0 refs' s') as Haio.
  { intros id kd buf nbytes offset w f Ha Ee Hf E. rewrite Ee in *. apply NoDup_app in Hnd as (_ & Hnd & _).
    destruct (aio_inv refs sub s id kd buf nbytes offset w f Hi Ha) as (s' & Es & Hi'); [set_solver | set_solver | done |].
    apply (Hkeep s'); [done | | by rewrite E]. unfold blkfront_aio in Es. apply bind_Done in Es as (u & _ & [= <-]). done. }
  destruct e as [id buf nbytes offset w | id buf nbytes offset w | rdwr barrier flush | t | | k status held | | | |];
    cbn [event_ids event_ok] in *; try rewrite app_nil_r in *.
  - eapply Haio; [exact Hok | done | by left | done].
  - eapply Haio; [exact Hok | done | by right | done].
  - eapply (Hkeep _); [| | reflexivity]; [| done]. set (p := blkfront_sync _).
    assert (pc_ids p = [] /\ cb_ids p = [] /\ parked p /\ thr_ok s p) as (E1 & E2 & E3 & E4).
    { unfold p, sync_ops. destruct rdwr, (barrier =? 1), (flush =? 1); cbn; split_and!; try done;
        (split; [by intros k [= <-] |]); cbn; try done; (split; [eexists; split; [done |] | intros id Hid; by apply elem_of_nil in Hid]);
        unfold sync_ok; repeat constructor; first [by left | by right]. }
    pose proof (inv_spawn refs sub s p (cbs s) Hi E2 E3) as H. rewrite E1, app_nil_r in H.
    assert (set_cbs (cbs s) s = s) as Es by (by destruct s). rewrite Es in H.
    apply H; first [apply NoDup_nil_2 | exact E4 | intros j Hj; by apply elem_of_nil in Hj | done].
  - cbn [blk_event] in *. destruct (yields (cur_pc s) s && bool_decide (t < length (threads s))%nat) eqn:E; [| by exists refs, s].
    apply andb_true_iff in E as [E1 E2%bool_decide_eq_true]. eapply (Hkeep _); [| | reflexivity]; [by apply run_inv_switch | done].
  - cbn [blk_event] in *. destruct (v_cur _ _ _ Hi) as [p Hp]. unfold cur_pc in *. rewrite Hp in *. cbn [default from_option] in *.
    destruct (blk_step_inv refs sub s p Hi (sh_use _ _ _ Hsh) Hrefs Hp) as (s' & E & Hi'). apply (Hkeep s'); [done | by eapply step_gnt | done].
  - destruct (in_flight (dring s) !! k) as [q |] eqn:Hq; [| cbn [blk_event]; rewrite Hq; by exists refs, s].
    destruct (blk_backend_inv refs sub s k q status held Hi Hq) as (s' & E & H & Hg). exists refs, s'. split; [done |]. split; [done |].
    destruct Hsh. subst held. by split; rewrite Hg.
  - cbn [blk_event] in *. eexists refs, _. split; [done |]. split; [destruct Hi; by split |]. destruct Hsh. by split.
  - cbn [blk_event] in *. destruct (gfree s) as [| g gs] eqn:Eg; [by exists refs, s |].
    destruct (yields (cur_pc s) s && bool_decide (length (others (gnt s)) < others_max)%nat) eqn:E; [| by exists refs, s].
    apply andb_true_iff in E as [_ E2%bool_decide_eq_true]. pose proof (v_grants _ _ _ Hi) as Hg. rewrite Eg in Hg. cbn [app] in Hg.
    exists (gs ++ (places s ≫= grefs (cbs s))). eexists. split; [done |]. split; [by eapply inv_gfree |].
    destruct Hsh as [S1 S2 S3]. split; cbn; [done | | lia]. rewrite <- S2, <- Hg. solve_Permutation.
  - cbn [blk_event] in *. destruct (others (gnt s)) as [| g os] eqn:Eo; [by exists refs, s |].
    destruct (yields (cur_pc s) s); [| by exists refs, s]. pose proof (v_grants _ _ _ Hi) as Hg.
    exists (g :: refs). eexists. split; [done |]. split; [eapply inv_gfree; [exact Hi |]; cbn [app]; by rewrite Hg |].
    destruct Hsh as [S1 S2 S3]. rewrite Eo in S2, S3. cbn [length] in S3. split; cbn; [done | | lia]. rewrite <- S2. solve_Permutation.
  - cbn [blk_event] in *. destruct (evt_pending s && negb (irq_off (cur_pc s))) eqn:E; [| by exists refs, s]. apply andb_true_iff in E as [_ E%negb_true_iff].
    eapply (Hkeep _); [| | reflexivity]; [by apply irq_inv | done].
Qed.

Lemma blk_run_inv refs0 es : (11 * RING_SIZE + others_max <= length refs0)%nat -> forall refs sub s, inv refs sub s -> shared refs0 refs s -> Forall event_ok es ->
  NoDup (sub ++ (es ≫= event_ids)) -> 0 ∉ (es ≫= event_ids) ->
  exists refs' s', blk_run sector_size others_max es s = Done s' /\ inv refs' (sub ++ (es ≫= event_ids)) s' /\ shared refs0 refs' s'.
Proof.
  intros Hrefs. induction es as [| e es IH]; intros refs sub s Hi Hsh Hok Hnd H0; cbn [blk_run].
  - exists refs, s. cbn. by rewrite app_nil_r.
  - apply Forall_cons in Hok as [Hok1 Hok]. rewrite bind_cons in *. rewrite app_assoc in *. apply not_elem_of_app in H0 as [H01 H0].
    pose proof Hnd as Hnd1. apply NoDup_app in Hnd1 as (Hnd1 & _).
    destruct (blk_event_inv refs0 refs sub s e Hi Hsh Hrefs Hok1 Hnd1 H01) as (refs1 & s1 & -> & Hi1 & Hsh1). rewrite Done_bind. by eapply IH.
Qed.

Lemma init_blk_inv refs : inv refs [] (blk_init refs).
Proof.
  destruct ring_init_empty as (E1 & E2 & _ & E3). assert (ring_ops ring_init = []) as E by (unfold ring_ops; by rewrite E1, E2).
  split; cbn.
  - rewrite E1, E2. cbn. lia.
  - by eexists.
  - intros [| t] p Hp; [| done]. injection Hp as <-. split; [| done]. split; [done | done].
  - by rewrite E.
  - unfold places. cbn. by rewrite E.
  - split; [apply NoDup_nil_2 | set_solver].
  - intros id [a Ha]. by rewrite lookup_empty in Ha.
  - unfold places. cbn. rewrite E. cbn. by rewrite app_nil_r.
  - rewrite E. intros id Hid. by apply elem_of_nil in Hid.
  - by rewrite E.
  - rewrite E2. split; intros ? ?; set_solver.
Qed.

(** ** Callbacks of blocking transfers *)

(** The completion of a blocking transfer is recorded in its [aio_data]. *)
Definition io_done (s : blk) : Prop :=
  forall id a, cbs s !! id = Some a -> aio_cb a = Some CbIo -> id ∈ map fst (completed s) -> aio_data a = true.

Lemma io_done_keep s s' : io_done s -> completed s' = completed s ->
  (forall id a', cbs s' !! id = Some a' -> id ∈ map fst (completed s) ->
    exists a, cbs s !! id = Some a /\ aio_cb a = aio_cb a' /\ (aio_data a = true -> aio_data a' = true)) -> io_done s'.
Proof. intros H Ec Hk id a' Ea' Ek Hid. rewrite Ec in Hid. destruct (Hk id a' Ea' Hid) as (a & Ea & E & Hd). apply Hd, (H id); congruence. Qed.

Lemma io_done_same s s' : io_done s -> completed s' = completed s -> cbs s' = cbs s -> io_done s'.
Proof. intros H E1 E2. apply (io_done_keep s); [done | done |]. rewrite E2. intros id a' Ea _. by exists a'. Qed.

Lemma io_done_gref s s' id a l : io_done s -> cbs s !! id = Some a -> completed s' = completed s ->
  cbs s' = <[id := set_gref l a]> (cbs s) -> io_done s'.
Proof.
  intros H Ea E1 E2. apply (io_done_keep s); [done | done |]. rewrite E2. intros j a' Ea' _.
  apply lookup_insert_Some in Ea' as [[-> <-] | [_ Ea']]; [by exists a | by exists a'].
Qed.

Lemma io_done_finish s f s' : io_done s -> (forall id, f = FIo id -> id ∉ map fst (completed s)) -> finish f s = Done s' -> io_done s'.
Proof.
  intros H Hf E. destruct f as [| id | ops]; cbn [finish] in E; [simplify_eq; by apply (io_done_same s) | | simplify_eq; by apply (io_done_same s)].
  apply bind_Done in E as (a & Ea & [= <-]). apply of_option_Done in Ea. apply (io_done_keep s); [done | done |]. cbn.
  intros j a' Ea' Hj. apply lookup_insert_Some in Ea' as [[-> _] | [_ Ea']]; [by destruct (Hf j) | by exists a'].
Qed.

Lemma io_done_loop s k rp co did s' : io_done s -> poll_one k rp co did s = Done s' -> io_done s'.
Proof.
  intros H E. unfold poll_one in E. apply bind_Done in E as (x & _ & E). apply bind_Done in E as (s1 & E1 & E).
  assert (io_done s1) as H1.
  { unfold end_grants in E1. destruct (_ || _); [| by simplify_eq]. apply bind_Done in E1 as (a & Ea & [= <-]). apply of_option_Done in Ea.
    by apply (io_done_gref s _ (rs_id x) a []). }
  unfold after_response in E. destruct (rs_id x =? 0); [simplify_eq; by apply (io_done_same s1) |].
  apply bind_Done in E as (a & Ea & E). apply of_option_Done in Ea. cbn in Ea.
  destruct (aio_cb a) as [[] |] eqn:Ec; simplify_eq; [| by apply (io_done_same s1) ..].
  intros id a' Ea' Ek Hid. cbn in Ea', Hid. apply lookup_insert_Some in Ea' as [[_ <-] | [Hne Ea']]; [done |].
  rewrite map_app in Hid. apply (H1 id); [done | done | set_solver].
Qed.

Lemma io_done_step refs sub s p s' : inv refs sub s -> threads s !! cur s = Some p -> thread_step p s = Done s' -> io_done s -> io_done s'.
Proof.
  intros Hi Hp E H. destruct (v_thr _ _ _ Hi _ _ Hp) as [[_ Hok] _].
  assert (forall id, id ∈ pc_ids p -> id ∉ map fst (completed s)) as Hnc.
  { intros id Hid Hc. apply (places_completed _ _ _ _ Hi Hc). by eapply thread_places. }
  destruct p as [j f | k | k rp co did | k rp co did id ret | k rp co did | k did | [? ? | ? | |] [] | [id w | op] f | id w f i n | |];
    cbv beta zeta iota delta [thread_step biothread] in E; try (simplify_eq; by apply (io_done_same _ _ H)).
  - destruct (co =? rp); [| by eapply io_done_loop]. unfold poll_end in E. destruct (final_check _). simplify_eq. by apply (io_done_same _ _ H).
  - apply bind_Done in E as (s1 & E1 & [= <-]). unfold biocomp in E1. apply bind_Done in E1 as (a & _ & [= <-]).
    intros j a' Ea' Ek Hid. cbn in Ea', Hid. apply lookup_delete_Some in Ea' as [Hne Ea']. rewrite map_app in Hid. apply (H j); [done | done | set_solver].
  - destruct (negb _); [| simplify_eq; by apply (io_done_same _ _ H)]. unfold poll_end in E. destruct (final_check _). simplify_eq. by apply (io_done_same _ _ H).
  - unfold after_poll in E. destruct k; [| apply bind_Done in E as (a & _ & E) | |]; simplify_eq; by apply (io_done_same _ _ H).
  - apply bind_Done in E as (a & _ & E). destruct (_ <=? 0); simplify_eq. by apply (io_done_same _ _ H).
  - unfold blkfront_push_operation in E. destruct Hok as ((ops & -> & _) & _). by eapply io_done_finish, E; [apply (io_done_same s) | done].
  - unfold grant_step in E. apply bind_Done in E as (a & Ea & E). apply of_option_Done in Ea. destruct (_ <? n).
    + destruct (gfree s); simplify_eq; [done |]. by eapply (io_done_gref s).
    + destruct (negb _); [done |]. assert (f = FDone \/ f = FIo id) as Hf by (destruct Hok as ((b & _ & _ & [[-> _] | [-> _]]) & _); auto).
      refine (io_done_finish _ f s' _ _ E).
      * apply (io_done_same s); [done | by destruct (aio_cb a) as [[] |] ..].
      * intros j ->. destruct Hf as [? | [= ->]]; [done |].
        assert (forall c : option cbkind, completed (match c with Some CbBio => set_outstanding (outstanding (set_ring (ring_push (aio_request id w a) (dring s)) s) + 1) (set_ring (ring_push (aio_request id w a) (dring s)) s) | _ => set_ring (ring_push (aio_request id w a) (dring s)) s end) = completed s) as -> by (by intros [[] |]).
        apply Hnc. cbn. set_solver.
Qed.

Lemma io_done_event refs sub s e s' : inv refs sub s -> NoDup (sub ++ event_ids e) -> blk_event sector_size others_max e s = Done s' -> io_done s -> io_done s'.
Proof.
  intros Hi Hnd E H.
  assert (forall id a w f, event_ids e = [id] -> blkfront_aio sector_size id a w f s = Done s' -> io_done s') as Haio.
  { intros id a w f He Ea. unfold blkfront_aio in Ea. apply bind_Done in Ea as (u & _ & [= <-]). rewrite He in Hnd.
    apply NoDup_app in Hnd as (_ & Hnd & _). apply (io_done_keep s); [done | done |]. cbn. intros j a' Ea' Hj.
    apply lookup_insert_Some in Ea' as [[-> _] | [_ Ea']]; [| by exists a']. exfalso. apply (Hnd j); [| set_solver].
    rewrite (v_sub _ _ _ Hi). set_solver. }
  destruct e as [id buf nbytes offset w | id buf nbytes offset w | rdwr barrier flush | t | | k status held | | | |]; cbn [blk_event] in E.
  - by eapply Haio.
  - by eapply Haio.
  - simplify_eq. by apply (io_done_same _ _ H).
  - destruct (_ && _); simplify_eq; [by apply (io_done_same _ _ H) | done].
  - destruct (v_cur _ _ _ Hi) as [p Hp]. unfold cur_pc in E. rewrite Hp in E. by eapply io_done_step.
  - destruct (in_flight _ !! k); [| by simplify_eq]. destruct (backend_answer k status (dring s)). simplify_eq. by apply (io_done_same _ _ H).
  - simplify_eq. by apply (io_done_same _ _ H).
  - destruct (gfree s); [by simplify_eq |]. destruct (_ && _); simplify_eq; [by apply (io_done_same _ _ H) | done].
  - destruct (others (gnt s)); [by simplify_eq |]. destruct (yields _ _); simplify_eq; [by apply (io_done_same _ _ H) | done].
  - destruct (_ && _); simplify_eq; [by apply (io_done_same _ _ H) | done].
Qed.

(** ** Threads that will look at the ring *)
Definition pc_bio (p : pc) : Prop := p = PBio \/ pc_caller p = Some KBio.
Definition in_poll (p : pc) : Prop := match p with PLoop _ _ _ _ | PCb _ _ _ _ _ _ | PChk _ _ _ _ => True | _ => False end.
Definition sync_job (j : job) : Prop := match j with JPush _ => True | JAio _ _ => False end.
Definition sync_pc (p : pc) : Prop :=
  match p with
  | PSlot j _ | PGo j _ => sync_job j
  | _ => match pc_caller p with Some KSync => True | Some (KSlot j _) => sync_job j | _ => False end
  end.
(** A thread that polls before it waits, when [n] transfers of the rump kernel
    are outstanding. *)
Definition will_poll (n : Z) (p : pc) : Prop :=
  match p with
  | PPoll _ | PLoop _ _ _ _ | PCb _ _ _ _ _ _ | PChk _ _ _ _ => True
  | PSleep k w => w = true /\ (k = KBio -> n <> 0)
  | PBio => n <> 0
  | PSlot j _ | PGo j _ => sync_job j
  | _ => False
  end.

Definition some_thread (s : blk) (Q : pc -> Prop) : Prop := exists t p, threads s !! t = Some p /\ Q p.

(** The first thread is [biothread]; what is on the ring for a
    [blkfront_sync] has its thread; the event is asked for, or a thread is in
    the loop that ends with asking for it; and responses do not stay unseen. *)
Definition bio_thread (s : blk) : Prop := exists p, threads s !! 0%nat = Some p /\ pc_bio p.
Definition sync_owner (s : blk) : Prop := 0 ∈ map fst (ring_ops (dring s)) -> some_thread s sync_pc.
Definition arming (s : blk) : Prop := avail (dring s) = [] -> armed (dring s) = true \/ some_thread s in_poll.
Definition attended (s : blk) : Prop :=
  evt_pending s = true \/ (avail (dring s) = [] /\ armed (dring s) = true) \/ some_thread s (will_poll (outstanding s)).

(** What a step of thread [p], which goes to [p'], does to them. *)
Record stepped (p p' : pc) (s s' : blk) : Prop := {
  st_thr : threads s' = <[cur s := p']> (threads s);
  st_evt : evt_pending s' = evt_pending s;
  st_bio : pc_bio p -> pc_bio p';
  st_sync : sync_pc p -> sync_pc p' \/ ring_ops (dring s') = [];
  st_ops : 0 ∈ map fst (ring_ops (dring s')) -> 0 ∈ map fst (ring_ops (dring s)) \/ sync_pc p';
  st_poll : will_poll (outstanding s) p -> will_poll (outstanding s') p' \/ (avail (dring s') = [] /\ armed (dring s') = true);
  st_in : in_poll p -> in_poll p' \/ avail (dring s') <> [] \/ armed (dring s') = true;
  st_idle : avail (dring s) = [] -> armed (dring s) = true -> avail (dring s') = [] /\ armed (dring s') = true;
  st_avail : avail (dring s') = [] -> avail (dring s) = [] \/ in_poll p';
  st_out : outstanding s <> 0 -> outstanding s' <> 0 \/ will_poll (outstanding s') p'
}.

Lemma stepped_goto p p' s s1 : threads s1 = threads s -> cur s1 = cur s -> evt_pending s1 = evt_pending s -> dring s1 = dring s ->
  outstanding s1 = outstanding s -> (pc_bio p -> pc_bio p') -> (sync_pc p -> sync_pc p' \/ ring_ops (dring s) = []) ->
  (will_poll (outstanding s) p -> will_poll (outstanding s) p') -> (in_poll p -> in_poll p') -> stepped p p' s (goto p' s1).
Proof. intros E1 E2 E3 E4 E5 H1 H2 H3 H4. split; cbn; rewrite ?E1, ?E2, ?E4, ?E5; auto. Qed.

Lemma poll_end_stepped p k did s s' : pc_caller p = Some k -> in_poll p -> poll_end k did s = Done s' -> exists p', stepped p p' s s'.
Proof.
  intros Hk Hin E. unfold poll_end in E. pose proof (final_check_spec (dring s)) as Hf. destruct (final_check (dring s)) as [more r].
  destruct Hf as (E1 & E2 & E3 & E4 & E5 & E6). injection E as <-. assert (ring_ops r = ring_ops (dring s)) as Eo by (unfold ring_ops; by rewrite E1, E2).
  exists (if more then PPoll k else PAfter k did). split; cbn; rewrite ?Eo, ?E2; auto.
  - intros [-> | Hb]; [done |]. right. rewrite Hk in Hb. by destruct more; cbn; rewrite Hb.
  - intros Hs. left. clear E5. destruct p; try done; cbn in Hk; simplify_eq/=; by destruct more.
  - intros _. destruct more; [by left | right]. split; [| auto]. by case_bool_decide.
  - intros _. right. destruct more; [left | right; auto]. by case_bool_decide.
  - intros Ha _. rewrite bool_decide_eq_true_2 in E5 by done. subst more. auto.
Qed.

Lemma poll_one_stepped k rp co did s s' : co = rsp_cons (dring s) -> co < rp <= rsp_prod (dring s) -> poll_one k rp co did s = Done s' ->
  exists p', stepped (PLoop k rp co did) p' s s'.
Proof.
  intros -> Hrp E. destruct (avail_spec (dring s)) as [Eprod Ehd]. destruct (avail (dring s)) as [| x l] eqn:Ea; [cbn in Eprod; lia |].
  unfold poll_one in E. rewrite Ehd in E. cbn [head of_option] in E. rewrite Done_bind in E. apply bind_Done in E as (s1 & E1 & E).
  assert (threads s1 = threads s /\ cur s1 = cur s /\ evt_pending s1 = evt_pending s /\ dring s1 = dring s /\ outstanding s1 = outstanding s)
    as (B1 & B2 & B3 & B4 & B5) by (unfold end_grants in E1; destruct (_ || _); outcome_inv; done).
  destruct (set_rsp_cons_spec x l (dring s) Ea) as (C1 & C2 & C3 & _). set (r := set_rsp_cons _ (dring s)) in *. rewrite B4 in E. fold r in E.
  assert (ring_ops (dring s) ≡ₚ (rs_id x, rs_op x) :: ring_ops r) as Eo by (unfold ring_ops; rewrite C1, C2, Ea; cbn [map]; solve_Permutation).
  assert (forall p' s2, threads s2 = threads s -> cur s2 = cur s -> evt_pending s2 = evt_pending s -> dring s2 = r -> outstanding s2 = outstanding s ->
    pc_caller p' = Some k -> in_poll p' -> stepped (PLoop k rp (rsp_cons (dring s)) did) p' s (goto p' s2)) as Hgo.
  { intros p' s2 D1 D2 D3 D4 D5 Hk Hin. assert (will_poll (outstanding s) p') as Hw by (by destruct p').
    split; cbn [goto threads evt_pending dring outstanding]; rewrite ?D1, ?D2, ?D4, ?D5; auto.
    - intros [? | Hb]; [done |]. right. by rewrite Hk.
    - intros Hs. left. destruct p'; try done; cbn in Hk; by simplify_eq.
    - intros H0. left. rewrite (Permutation_map fst Eo). cbn. by right.
    - intros Ha. by rewrite Ea in Ha. }
  unfold after_response in E. destruct (rs_id x =? 0).
  { outcome_inv. eexists. by apply (Hgo (PChk k rp _ _)). }
  apply bind_Done in E as (a & _ & E). destruct (aio_cb a) as [[] |]; outcome_inv; eexists;
    [by apply (Hgo (PChk k rp _ _)) | by apply (Hgo (PCb k rp _ _ _ _)) | by apply (Hgo (PChk k rp _ _))].
Qed.

Lemma push_stepped p f q s s1 s' : (0 < ring_free (dring s))%nat -> threads s1 = threads s -> cur s1 = cur s ->
  evt_pending s1 = evt_pending s -> dring s1 = ring_push q (dring s) -> (outstanding s <> 0 -> outstanding s1 <> 0) ->
  ~ pc_bio p -> ~ in_poll p -> (sync_pc p \/ will_poll (outstanding s) p \/ rq_id q = 0 -> exists ops, f = FSync ops) ->
  finish f s1 = Done s' -> exists p', stepped p p' s s'.
Proof.
  intros Hfree E1 E2 E3 E4 E5 Hb Hin Hf E. destruct (ring_push_spec q (dring s) Hfree) as (_ & A1 & A2 & _).
  pose proof (Permutation_map fst (push_ops q (dring s) Hfree)) as Hops. cbn [map fst] in Hops.
  assert (forall p' s2, threads s2 = threads s -> cur s2 = cur s -> evt_pending s2 = evt_pending s -> dring s2 = ring_push q (dring s) ->
    outstanding s2 = outstanding s1 -> (forall ops, f = FSync ops -> sync_pc p' /\ will_poll (outstanding s1) p') -> stepped p p' s (goto p' s2)) as Hgo.
  { intros p' s2 D1 D2 D3 D4 D5 Hp'. split; cbn [goto threads evt_pending dring outstanding]; rewrite ?D1, ?D2, ?D4, ?D5, ?A1, ?A2; auto; try done.
    - intros Hs. left. destruct Hf as [ops ->]; [by left |]. by destruct (Hp' ops).
    - rewrite Hops. intros [H0 | H0]%elem_of_cons; [| by left]. right. destruct Hf as [ops ->]; [by auto |]. by destruct (Hp' ops).
    - intros Hs. left. destruct Hf as [ops ->]; [by auto |]. by destruct (Hp' ops). }
  destruct f as [| id | ops]; cbn [finish] in E; outcome_inv; eexists.
  - by apply (Hgo PDone).
  - by apply (Hgo (PPoll (KIo id))).
  - apply (Hgo (blkfront_sync ops)); try done. intros _ _. by destruct ops.
Qed.

Lemma out_nonneg refs sub s : inv refs sub s -> 0 <= outstanding s.
Proof. intros Hi. rewrite (v_out _ _ _ Hi). unfold bio_count. lia. Qed.

Lemma empty_ring refs sub s : inv refs sub s -> ring_free (dring s) = RING_SIZE -> ring_ops (dring s) = [].
Proof.
  intros Hi Hf. pose proof (v_cap _ _ _ Hi) as Hcap. rewrite ring_free_spec in Hf by done. pose proof ring_size_pos. unfold ring_ops.
  destruct (in_flight (dring s)), (avail (dring s)); cbn in *; by try lia.
Qed.

Lemma step_stepped refs sub s p s' : inv refs sub s -> threads s !! cur s = Some p -> thread_step p s = Done s' -> exists p', stepped p p' s s'.
Proof.
  intros Hi Hp E. destruct (v_thr _ _ _ Hi _ _ Hp) as [[_ Hok] _].
  assert (stepped p p s s) as Hid by (split; auto; by rewrite list_insert_id).
  assert (forall q p', q = p -> Done (goto p' s) = Done s' -> (pc_bio q -> pc_bio p') -> (sync_pc q -> sync_pc p' \/ ring_ops (dring s) = []) ->
    (will_poll (outstanding s) q -> will_poll (outstanding s) p') -> (in_poll q -> in_poll p') -> exists p', stepped p p' s s') as Hgo.
  { intros q p' -> [= <-] *. exists p'. by apply stepped_goto. }
  destruct p as [j f | k | k rp co did | k rp co did id ret | k rp co did | k did | k [] | [id w | op] f | id w f i n | |]; cbv beta zeta iota delta [thread_step biothread] in E.
  - eapply Hgo; [reflexivity | exact E | ..]; unfold pc_bio; destruct (_ <? _)%nat; cbn; naive_solver.
  - eapply Hgo; [reflexivity | exact E | ..]; unfold pc_bio; cbn; naive_solver.
  - destruct Hok as [Hco Hrp]. destruct (Z.eqb_spec co rp); [by eapply poll_end_stepped | eapply poll_one_stepped; [done | lia | done]].
  - apply bind_Done in E as (s1 & E1 & [= <-]). unfold biocomp in E1. outcome_inv. exists (PChk k rp co did). split; cbn; auto; try (by left).
    unfold pc_bio. cbn. naive_solver.
  - destruct (negb _); [by eapply poll_end_stepped |]. eapply Hgo; [reflexivity | exact E | ..]; unfold pc_bio; cbn; naive_solver.
  - unfold after_poll in E. destruct k as [j f | id | |]; [| apply bind_Done in E as (a & _ & E) | |]; (eapply Hgo; [reflexivity | exact E | ..]); unfold pc_bio.
    all: try (repeat case_match; cbn; naive_solver).
    cbn. intros _. case_bool_decide; [right; by eapply empty_ring | by left].
  - destruct k; (eapply Hgo; [reflexivity | exact E | ..]); unfold pc_bio; cbn; try naive_solver;
      destruct (Z.eqb_spec (outstanding s) 0); cbn; naive_solver.
  - destruct k; outcome_inv; eexists; exact Hid.
  - apply bind_Done in E as (a & _ & E). destruct (_ <=? 0); [done |]. eapply Hgo; [reflexivity | exact E | ..]; unfold pc_bio; cbn; naive_solver.
  - destruct Hok as ((ops & -> & _) & _ & Hfree). unfold blkfront_push_operation in E. eapply push_stepped; [exact Hfree | .. | exact E]; first [done | by intros [] | intros _; by eexists].
  - unfold grant_step in E. apply bind_Done in E as (a & Ea & E). destruct (_ <? n).
    + destruct (gfree s); outcome_inv; exists (PGrant id w f i n); [done |]. split; cbn; auto. by rewrite list_insert_id.
    + destruct (negb _); [done |]. destruct Hok as (_ & Hfree & _). pose proof (out_nonneg _ _ _ Hi).
      assert (id <> 0) as Hid0. { intros ->. apply (proj2 (v_nodup _ _ _ Hi)). eapply places_sub; [done |]. eapply thread_places; [exact Hp |]. cbn. set_solver. }
      eapply push_stepped; [exact Hfree | .. | exact E];
        first [by destruct (aio_cb a) as [[] |] | destruct (aio_cb a) as [[] |]; cbn; lia | by intros [] | by intros [? | [? | ?]]].
  - eapply Hgo; [reflexivity | exact E | ..]; unfold pc_bio; destruct (Z.eqb_spec (outstanding s) 0); cbn; naive_solver.
  - outcome_inv. by exists PDone.
Qed.

Record side (s : blk) : Prop := {
  sd_bio : bio_thread s;
  sd_sync : sync_owner s;
  sd_arm : arming s;
  sd_att : attended s
}.

Section Stepped.
Context (p p' : pc) (s s' : blk) (Hs : stepped p p' s s') (Hp : threads s !! cur s = Some p).

Lemma stepped_cur (Q : pc -> Prop) : Q p' -> some_thread s' Q.
Proof.
  intros HQ. exists (cur s), p'. rewrite (st_thr _ _ _ _ Hs). split; [| done]. apply list_lookup_insert_eq. by eapply lookup_lt_Some.
Qed.

Lemma stepped_some (Q Q' : pc -> Prop) : some_thread s Q -> (forall q, Q q -> Q' q) -> Q p \/ some_thread s' Q'.
Proof.
  intros (t & q & Hq & HQ) HQ'. destruct (decide (t = cur s)) as [-> | Hne]; [left; congruence | right].
  exists t, q. rewrite (st_thr _ _ _ _ Hs), list_lookup_insert_ne by done. auto.
Qed.

Lemma stepped_side : side s -> side s'.
Proof.
  intros [(q & Hq & Hb) H2 H3 H4]. split.
  - destruct (decide (cur s = 0%nat)) as [E0 | Hne].
    + exists p'. rewrite (st_thr _ _ _ _ Hs), E0. rewrite E0 in Hp. split; [apply list_lookup_insert_eq; by eapply lookup_lt_Some |].
      apply (st_bio _ _ _ _ Hs). congruence.
    + exists q. by rewrite (st_thr _ _ _ _ Hs), list_lookup_insert_ne.
  - intros H0. destruct (st_ops _ _ _ _ Hs H0) as [H0' | Hp']; [| by apply stepped_cur].
    destruct (stepped_some _ sync_pc (H2 H0')) as [Hsp | ?]; [done | | done].
    destruct (st_sync _ _ _ _ Hs Hsp) as [Hp' | E]; [by apply stepped_cur |]. rewrite E in H0. by apply elem_of_nil in H0.
  - intros Ha. destruct (st_avail _ _ _ _ Hs Ha) as [Ha' | Hp']; [| right; by apply stepped_cur].
    destruct (H3 Ha') as [Har | Hin]; [left; by apply (st_idle _ _ _ _ Hs) |].
    destruct (stepped_some _ in_poll Hin) as [Hi | ?]; [done | | by right].
    destruct (st_in _ _ _ _ Hs Hi) as [Hp' | [Hn | Har]]; [right; by apply stepped_cur | done | by left].
  - destruct H4 as [He | [[Ha Har] | Hw]]; [left; by rewrite (st_evt _ _ _ _ Hs) | right; left; by apply (st_idle _ _ _ _ Hs) |]. right.
    destruct (decide (outstanding s' = 0 /\ outstanding s <> 0)) as [[Ho Hn] | Hn].
    { right. destruct (st_out _ _ _ _ Hs Hn) as [? | Hp']; [done |]. by apply stepped_cur. }
    destruct (stepped_some _ (will_poll (outstanding s')) Hw) as [Hwp | ?]; [| | by right].
    + intros q'. assert (outstanding s <> 0 -> outstanding s' <> 0) as Ho by (intros ? ?; by apply Hn). destruct q'; cbn; naive_solver.
    + destruct (st_poll _ _ _ _ Hs Hwp) as [Hp' | ?]; [right; by apply stepped_cur | by left].
Qed.
End Stepped.

Lemma spawn_side q s s' : side s -> dring s' = dring s -> evt_pending s' = evt_pending s -> outstanding s' = outstanding s ->
  threads s' = threads s ++ q -> side s'.
Proof.
  intros [(q0 & Hq & Hb) H2 H3 H4] E1 E2 E3 E4.
  assert (forall Q, some_thread s Q -> some_thread s' Q) as Hsome.
  { intros Q (t & p & Hp & HQ). exists t, p. rewrite E4. split; [by apply lookup_app_l_Some | done]. }
  split; unfold bio_thread, sync_owner, arming, attended; rewrite ?E1, ?E2, ?E3, ?E4.
  - exists q0. split; [by apply lookup_app_l_Some | done].
  - auto.
  - intros Ha. destruct (H3 Ha); auto.
  - destruct H4 as [? | [? | ?]]; auto.
Qed.

Lemma backend_side s k status held q : side s -> in_flight (dring s) !! k = Some q ->
  forall s', blk_event sector_size others_max (EBackend k status held) s = Done s' -> side s'.
Proof.
  intros [H1 H2 H3 H4] Hq s' E. cbn [blk_event] in E. rewrite Hq in E. pose proof (backend_answer_spec k q status (dring s) Hq) as Hb.
  destruct (backend_answer k status (dring s)) as [ev r]. destruct Hb as (E1 & E2 & _ & _ & E5 & _). injection E as <-.
  assert (avail r <> []) as Hn by (rewrite E2; by destruct (avail (dring s))).
  assert (map fst (ring_ops r) ≡ₚ map fst (ring_ops (dring s))) as Hops.
  { unfold ring_ops. rewrite E1, E2, !map_app. pose proof (delete_Permutation _ _ _ Hq) as Hdel.
    rewrite (Permutation_map fst (Permutation_map (fun q => (rq_id q, rq_op q)) Hdel)). cbn [map fst rs_id]. solve_Permutation. }
  split; [done | | by intros Ha |].
  - unfold sync_owner. cbn. rewrite Hops. exact H2.
  - destruct H4 as [He | [[Ha Har] | Hw]]; [left | left | by right; right]; cbn; [by rewrite He | rewrite (E5 Har); apply orb_true_r].
Qed.

(** The interrupt wakes every thread that waits. *)
Lemma wake_polls n p k : pc_caller p = Some k -> (forall did, p <> PAfter k did) -> (k = KBio -> n <> 0) -> will_poll n (wake p).
Proof. intros Hk Ha Hn. destruct p; cbn in Hk; simplify_eq; try done. by destruct (Ha did). Qed.

Lemma irq_side refs sub s : inv refs sub s -> irq_off (cur_pc s) = false -> side s -> side (blkfront_handler s).
Proof.
  intros Hi Hoff [(q0 & Hq0 & Hb0) H2 H3 H4]. set (s' := blkfront_handler s).
  assert (forall Q Q' : pc -> Prop, (forall p, Q p -> Q' (wake p)) -> some_thread s Q -> some_thread s' Q') as Hsome.
  { intros Q Q' HQ (t & p & Hp & Hqp). exists t, (wake p). cbn. rewrite list_lookup_fmap, Hp. auto. }
  assert (forall t p k did, threads s !! t = Some p -> p <> PAfter k did) as Hna.
  { intros t p k did Hp ->. destruct (v_thr _ _ _ Hi t _ Hp) as [_ Hpk]. destruct (decide (t = cur s)) as [-> | Hne]; [| by destruct (Hpk Hne)].
    unfold cur_pc in Hoff. by rewrite Hp in Hoff. }
  assert (forall t p k, threads s !! t = Some p -> pc_caller p = Some k -> (k = KBio -> outstanding s <> 0) -> some_thread s' (will_poll (outstanding s))) as Hwake.
  { intros t p k Hp Hk Hn. exists t, (wake p). cbn. rewrite list_lookup_fmap, Hp. split; [done |]. eapply wake_polls; eauto. }
  split.
  - exists (wake q0). cbn. rewrite list_lookup_fmap, Hq0. split; [done |]. destruct Hb0 as [-> | Hb0]; [by left | right]. by destruct q0.
  - intros H0. apply (Hsome sync_pc); [by intros [] | by apply H2].
  - intros Ha. destruct (H3 Ha) as [? | Hin]; [by left | right]. apply (Hsome in_poll); [by intros [] | done].
  - right. destruct (avail (dring s)) as [| x l] eqn:Ea.
    + destruct (H3 Ea) as [? | Hin]; [by left | right]. apply (Hsome in_poll); [by intros [] | done].
    + right. assert ((rs_id x, rs_op x) ∈ ring_ops (dring s)) as Hx by (unfold ring_ops; rewrite Ea; cbn; set_solver).
      destruct (proj1 (Forall_forall _ _) (v_ring _ _ _ Hi) _ Hx) as [[E0 _] | (N0 & _ & _ & [kd Hkd])]; cbn [fst] in *.
      * destruct H2 as (t & p & Hp & Hs); [rewrite <- E0; by apply (list_elem_of_fmap_2' fst _ _ _ Hx) |].
        destruct p as [[] f | k | k rp co did | k rp co did id ret | k rp co did | k did | k w | [] f | | |]; cbn in Hs; try done;
          try (exists t; eexists; cbn; rewrite list_lookup_fmap, Hp; by split); (eapply Hwake; [exact Hp | reflexivity | by destruct k]).
      * assert (rs_id x ∈ rids (ring_ops (dring s))) as Hr.
        { unfold rids. apply list_elem_of_filter. split; [done |]. by apply (list_elem_of_fmap_2' fst _ _ _ Hx). }
        destruct kd.
        -- destruct (v_io _ _ _ Hi _ Hr Hkd) as (t & p & Hp & Hc). by eapply Hwake.
        -- assert (outstanding s <> 0) as Hn.
           { rewrite (v_out _ _ _ Hi), bio_count_app. apply list_elem_of_split in Hr as (l1 & l2 & ->).
             replace (l1 ++ rs_id x :: l2) with (l1 ++ [rs_id x] ++ l2) by done.
             rewrite !bio_count_app, bio_count_one, decide_True by done. unfold bio_count. lia. }
           destruct Hb0 as [-> | Hb0]; [| by eapply Hwake]. exists 0%nat, PBio. cbn. by rewrite list_lookup_fmap, Hq0.
Qed.

Lemma side_event refs sub s e s' : inv refs sub s -> blk_event sector_size others_max e s = Done s' -> side s -> side s'.
Proof.
  intros Hi E H. destruct e as [id buf nbytes offset w | id buf nbytes offset w | rdwr barrier flush | t | | k status held | | | |]; cbn [blk_event] in E.
  - unfold blkfront_aio in E. apply bind_Done in E as (u & _ & [= <-]). by eapply spawn_side.
  - unfold blkfront_aio in E. apply bind_Done in E as (u & _ & [= <-]). by eapply spawn_side.
  - simplify_eq. by eapply spawn_side.
  - destruct (_ && _); simplify_eq; [| done]. apply (spawn_side [] s); try done. cbn. by rewrite app_nil_r.
  - destruct (v_cur _ _ _ Hi) as [q Hq]. unfold cur_pc in E. rewrite Hq in E. destruct (step_stepped _ _ _ _ _ Hi Hq E) as (p' & Hs). by eapply stepped_side.
  - destruct (in_flight (dring s) !! k) as [q |] eqn:Hq; [| by simplify_eq]. eapply (backend_side s k status held q H Hq). cbn [blk_event]. by rewrite Hq.
  - simplify_eq. apply (spawn_side [] s); try done. cbn. by rewrite app_nil_r.
  - destruct (gfree s); [by simplify_eq |]. destruct (_ && _); simplify_eq; [| done]. apply (spawn_side [] s); try done. cbn. by rewrite app_nil_r.
  - destruct (others (gnt s)); [by simplify_eq |]. destruct (yields _ _); simplify_eq; [| done]. apply (spawn_side [] s); try done. cbn. by rewrite app_nil_r.
  - destruct (_ && _) eqn:Ec; simplify_eq; [| done]. apply andb_true_iff in Ec as [_ Ec%negb_true_iff]. by eapply irq_side.
Qed.

Lemma side_init refs : side (blk_init refs).
Proof.
  destruct ring_init_empty as (E1 & E2 & E3 & _). assert (ring_ops ring_init = []) as E by (unfold ring_ops; by rewrite E1, E2). split.
  - exists PBio. split; [done | by left].
  - unfold sync_owner. cbn. rewrite E. intros H. by apply elem_of_nil in H.
  - intros _. by left.
  - right. by left.
Qed.

(** What the events keep, a run keeps. *)
Lemma blk_run_keeps (P : blk -> Prop) refs0 : (11 * RING_SIZE + others_max <= length refs0)%nat ->
  (forall refs sub s e s', inv refs sub s -> NoDup (sub ++ event_ids e) -> blk_event sector_size others_max e s = Done s' -> P s -> P s') ->
  forall es refs sub s s', inv refs sub s -> shared refs0 refs s -> Forall event_ok es ->
  NoDup (sub ++ (es ≫= event_ids)) -> 0 ∉ (es ≫= event_ids) -> blk_run sector_size others_max es s = Done s' -> P s -> P s'.
Proof.
  intros Hrefs HP. induction es as [| e es IH]; intros refs sub s s' Hi Hsh Hok Hnd H0 E H; cbn [blk_run] in E; [by simplify_eq |].
  apply Forall_cons in Hok as [Hok1 Hok]. rewrite bind_cons in *. rewrite app_assoc in Hnd. apply not_elem_of_app in H0 as [H01 H0].
  pose proof Hnd as Hnd1. apply NoDup_app in Hnd1 as (Hnd1 & _).
  destruct (blk_event_inv refs0 refs sub s e Hi Hsh Hrefs Hok1 Hnd1 H01) as (refs1 & s1 & E1 & Hi1 & Hsh1). rewrite E1, Done_bind in E.
  apply (IH _ _ s1 s' Hi1 Hsh1 Hok Hnd H0 E). exact (HP refs sub s e s1 Hi Hnd1 E1 H).
Qed.

(** ** Rest *)

(** Nothing is under way, and no thread can go on. *)
Definition blocked (s : blk) (p : pc) : Prop :=
  match p with PSleep _ w => w = false | PBio => outstanding s = 0 | PDone => True | _ => False end.
Definition quiet (s : blk) : Prop :=
  in_flight (dring s) = [] /\ evt_pending s = false /\ Forall (blocked s) (threads s).

(** The ring is empty then. *)
Lemma quiet_avail s : side s -> quiet s -> avail (dring s) = [].
Proof.
  intros [_ _ _ Ha] (_ & Hev & Hb). rewrite Forall_forall in Hb. destruct Ha as [He | [[? _] | (t & p & Hp & Hw)]]; [congruence | done |].
  specialize (Hb p ltac:(apply list_elem_of_lookup; by exists t)). destruct p; cbn in Hb, Hw; naive_solver.
Qed.

Lemma quiet_thread refs sub s t p : inv refs sub s -> side s -> quiet s -> threads s !! t = Some p ->
  pc_ids p = [] /\ (p = PDone \/ p = PBio \/ p = PSleep KBio false \/ exists id, p = PSleep (KIo id) false).
Proof.
  intros Hi Hsd Hq Hp. pose proof (quiet_avail s Hsd Hq) as Ha. destruct Hq as (Hfl & Hev & Hb). rewrite Forall_forall in Hb.
  specialize (Hb p ltac:(apply list_elem_of_lookup; by exists t)). destruct p as [| | | | | | k w | | | |]; cbn in Hb; try done; [| by auto ..].
  subst w. destruct (v_thr _ _ _ Hi t _ Hp) as [[_ Hok] _]. pose proof ring_size_pos.
  assert (ring_free (dring s) = RING_SIZE) as Hfree by (rewrite ring_free_spec; rewrite Hfl, Ha; cbn; lia).
  destruct k as [j f | id | |]; [| by eauto 10 | | by eauto 10]; (destruct Hok as [He | (_ & _ & Hs)]; [done | congruence | cbn in Hs; lia || done]).
Qed.

Lemma quiet_rest refs sub s : inv refs sub s -> io_done s -> side s -> quiet s ->
  map fst (completed s) ≡ₚ sub /\ gfree s ≡ₚ refs /\ Forall (fun p => p = PDone \/ p = PBio \/ p = PSleep KBio false) (threads s).
Proof.
  intros Hi Hio Hsd Hq. assert (places s = []) as Hpl.
  { unfold places. assert (ring_ops (dring s) = []) as -> by (unfold ring_ops; by rewrite (proj1 Hq), (quiet_avail s Hsd Hq)).
    cbn. rewrite app_nil_r. apply bind_nil. intros p (t & Hp)%list_elem_of_lookup. by destruct (quiet_thread _ _ _ _ _ Hi Hsd Hq Hp). }
  pose proof (v_sub _ _ _ Hi) as Hsub. pose proof (v_grants _ _ _ Hi) as Hg. rewrite Hpl in Hsub, Hg. cbn in Hg. rewrite app_nil_r in Hsub, Hg.
  split_and!; [done | done |]. apply Forall_forall. intros p (t & Hp)%list_elem_of_lookup.
  destruct (quiet_thread _ _ _ _ _ Hi Hsd Hq Hp) as [_ [-> | [-> | [-> | [id ->]]]]]; [by auto .. |]. exfalso.
  destruct (v_thr _ _ _ Hi t _ Hp) as [[Hc Hok] _]. destruct (Hc (KIo id) eq_refl) as (a & Ea & Ek & _).
  destruct Hok as [He | (_ & _ & (a' & Ea' & Ed))]; [done | by destruct Hq as (_ & ? & _); congruence |]. rewrite Ea in Ea'. injection Ea' as <-.
  rewrite (Hio id a Ea Ek) in Ed; [done |]. rewrite <- Hsub. apply (v_dom _ _ _ Hi). by eexists.
Qed.

(** C39. Suppose the callers' requests are aligned and of one to eleven pages;
    the other devices leave eleven grant references for every slot of the ring
    (otherwise [grant_wait_overwrites] shows a request overwritten); and the
    backend has stopped using the pages of a request when it answers (otherwise
    the references are lost, see [held_grants_lost]).  Then, whatever the order
    in which threads run, the backend answers, other devices take and return
    references and interrupts come, the driver of block devices never reaches
    undefined behaviour and no assertion fails: every request that has been
    submitted
    is completed once, or it is in exactly one place on its way; a completed
    one has the result the backend gave for it; the grant references are those
    of the requests on the way, those of other devices and the free ones; a
    caller that is asleep waits
    for what has not happened and has an event coming, and no response stays
    without an event or a thread that will look at it.  And when nothing is under way any more
    and no thread can go on, all requests are completed, all grants are ended,
    and the callers have returned. *)
Theorem blk_completes refs es : (11 * RING_SIZE + others_max <= length refs)%nat -> Forall event_ok es ->
  NoDup (es ≫= event_ids) -> 0 ∉ (es ≫= event_ids) ->
  exists s, blk_run sector_size others_max es (blk_init refs) = Done s /\
    map fst (completed s) ++ places s ≡ₚ (es ≫= event_ids) /\
    (forall id ret, (id, ret) ∈ completed s -> answer_known s id ret) /\
    gfree s ++ others (gnt s) ++ (places s ≫= grefs (cbs s)) ≡ₚ refs /\
    (forall k, PSleep k false ∈ threads s -> k <> KBio -> event_coming s (sleep_cond k s)) /\
    attended s /\
    (quiet s -> map fst (completed s) ≡ₚ (es ≫= event_ids) /\ gfree s ++ others (gnt s) ≡ₚ refs /\
      Forall (fun p => p = PDone \/ p = PBio \/ p = PSleep KBio false) (threads s)).
Proof.
  intros Hrefs Hok Hnd H0. pose proof (init_blk_inv refs) as Hi.
  assert (shared refs refs (blk_init refs)) as Hsh by (split; cbn; [done | by rewrite app_nil_r | lia]).
  destruct (blk_run_inv refs es Hrefs refs [] (blk_init refs) Hi Hsh Hok Hnd H0) as (refs' & s & E & His & Hss). cbn [app] in His.
  assert (io_done s) as Hio.
  { refine (blk_run_keeps io_done refs Hrefs _ es refs [] _ s Hi Hsh Hok Hnd H0 E _); [intros; by eapply io_done_event |].
    intros id a Ea. cbn in Ea. by rewrite lookup_empty in Ea. }
  assert (side s) as Hsd.
  { refine (blk_run_keeps side refs Hrefs _ es refs [] _ s Hi Hsh Hok Hnd H0 E _); [intros; by eapply side_event | apply side_init]. }
  pose proof (sh_refs _ _ _ Hss) as Hr. exists s. split_and!.
  - done.
  - symmetry. apply (v_sub _ _ _ His).
  - apply (v_ans _ _ _ His).
  - rewrite <- Hr, <- (v_grants _ _ _ His). solve_Permutation.
  - intros k (t & Hp)%list_elem_of_lookup. by destruct (v_thr _ _ _ His t _ Hp) as [[_ Hs] _].
  - apply Hsd.
  - intros Hq. destruct (quiet_rest _ _ _ His Hio Hsd Hq) as (Q1 & Q2 & Q3). split; [done |]. split; [| done]. by rewrite Q2.
Qed.
End Inv.

(** ** A ring

    A ring that does what the macros promise: the backend raises the event
    when the front-end has asked for it. *)
Record list_ring := ListRing {
  lr_req_prod : Z;
  lr_rsp_cons : Z;
  lr_in_flight : list blk_req;
  lr_avail : list blk_rsp;
  lr_armed : bool
}.

Definition lr_final_check (r : list_ring) : bool * list_ring :=
  match lr_avail r with
  | [] => (false, ListRing (lr_req_prod r) (lr_rsp_cons r) (lr_in_flight r) [] true)
  | _ => (true, r)
  end.
Definition lr_answer (k : nat) (status : Z) (r : list_ring) : bool * list_ring :=
  match lr_in_flight r !! k with
  | None => (false, r)
  | Some q => (lr_armed r, ListRing (lr_req_prod r) (lr_rsp_cons r) (delete k (lr_in_flight r))
      (lr_avail r ++ [Rsp (rq_id q) (rq_op q) status]) false)
  end.

Global Program Instance list_blk_ring : BlkRing := {|
  ring := list_ring;
  RING_SIZE := 32;
  ring_init := ListRing 0 0 [] [] true;
  in_flight := lr_in_flight;
  avail := lr_avail;
  armed := lr_armed;
  req_prod_pvt := lr_req_prod;
  rsp_prod r := lr_rsp_cons r + Z.of_nat (length (lr_avail r));
  rsp_cons := lr_rsp_cons;
  ring_free r := (32 - length (lr_in_flight r) - length (lr_avail r))%nat;
  ring_push q r := ListRing (lr_req_prod r + 1) (lr_rsp_cons r) (lr_in_flight r ++ [q]) (lr_avail r) (lr_armed r);
  get_response r i := lr_avail r !! Z.to_nat (i - lr_rsp_cons r);
  set_rsp_cons i r := ListRing (lr_req_prod r) i (lr_in_flight r) (drop (Z.to_nat (i - lr_rsp_cons r)) (lr_avail r)) (lr_armed r);
  final_check := lr_final_check;
  backend_answer := lr_answer
|}.
Next Obligation. lia. Qed.
Next Obligation. done. Qed.
Next Obligation. done. Qed.
Next Obligation. intros r. split; [done |]. by rewrite Z.sub_diag; destruct (lr_avail r). Qed.
Next Obligation. done. Qed.
Next Obligation. intros x l r H. cbn. rewrite H. by replace (lr_rsp_cons r + 1 - lr_rsp_cons r) with 1 by lia. Qed.
Next Obligation. intros r. unfold lr_final_check. by destruct (lr_avail r) eqn:E; cbn; rewrite ?E. Qed.
Next Obligation. intros k q status r H. unfold lr_answer. rewrite H. cbn. split_and!; by try intros ->. Qed.

(** A read of the rump kernel and a blocking write of two pages. *)
Definition blk_demo : list event :=
  [EAio 1 4096 4096 0 false; EIo 2 8192 8192 512 true; ERun 1; EStep; EStep; EStep; EStep; ERun 2] ++
  replicate 12 EStep ++ [EOtherGrant; EBackend 1 0 []; EBackend 0 1 []; EIrq] ++ replicate 12 EStep ++ [ERun 0] ++ replicate 12 EStep ++ [EIrq] ++
  replicate 20 EStep ++ [ERun 2] ++ replicate 10 EStep.

Lemma blk_completes_witness : exists s, blk_run 512 40 blk_demo (blk_init (seqZ 1 400)) = Done s /\
  completed s = [(2, 0); (1, -5)] /\ map fst (completed s) ≡ₚ [1; 2] /\ length (others (gnt s)) = 1%nat /\ gfree s ++ others (gnt s) ≡ₚ seqZ 1 400.
Proof.
  destruct (blk_completes 512 40 (seqZ 1 400) blk_demo) as (s & E & _ & _ & _ & _ & _ & Hq).
  - vm_compute. lia.
  - repeat constructor; vm_compute; by intros.
  - apply (bool_decide_eq_true_1 _). vm_compute. reflexivity.
  - apply (bool_decide_eq_true_1 _). vm_compute. reflexivity.
  - exists s. split; [exact E |]. vm_compute in E. injection E as <-. split; [reflexivity |].
    destruct Hq as (H1 & H2 & _); [| exact (conj H1 (conj eq_refl H2))]. split; [reflexivity |]. split; [reflexivity |]. repeat constructor.
Defined.

(** Without enough grant references a thread waits for one with its request
    half written, and the request of another thread takes the same slot: the
    bound on [refs] is needed. *)
Definition blk_overwrite : list event :=
  [EAio 1 4096 4096 0 false; EAio 2 8192 8192 512 true; ESync true 1 0; ERun 1] ++ replicate 4 EStep ++ [ERun 2] ++ replicate 3 EStep ++
  [ERun 3] ++ replicate 2 EStep ++ [EBackend 0 0 []; EIrq] ++ replicate 5 EStep ++ [ERun 0] ++ replicate 4 EStep ++ [ERun 3] ++ replicate 8 EStep ++
  [ERun 2; EStep; EStep].

Example grant_wait_overwrites :
  blk_run 512 0 blk_overwrite (blk_init [1; 2]) = Undef "the request has been overwritten".
Proof. vm_compute. reflexivity. Qed.

(** [gnttab_end_access] fails on a page the backend still uses; the driver
    does not look, and the reference is lost. *)
Definition blk_held : list event :=
  [EAio 1 4096 4096 0 false; ERun 1] ++ replicate 4 EStep ++ [EBackend 0 0 [1]; EIrq; ERun 0] ++ replicate 12 EStep ++ [EUnmap].

Example held_grants_lost :
  match blk_run 512 0 blk_held (blk_init [1; 2]) with
  | Done s => completed s = [(1, 0)] /\ gfree s = [2] /\ cbs s !! 1 = None
  | _ => False
  end.
Proof. vm_compute. done. Qed.
