(* ===== verification/Queue.v ===== *)
(** * Linked lists (include/bmk-core/queue.h)

    The lists of queue.h link structures through a field of theirs.  A pointer
    [struct type **] points to the cell that points to an element: the first
    pointer of a head or the next pointer of an element, [nptr].  Behind that
    cell lies, in a doubly linked element, the pointer to the previous such
    cell, and in the head of a queue the pointer to the last one; both have
    the same offset, which [TAILQ_LAST] and [TAILQ_PREV] use.

    Memory has the cells of the objects that exist; an access to another is
    undefined.  The checks of QUEUEDEBUG are not compiled in. *)

From S2P Require Import Prelude.

(** [&(head)->tqh_first] or [&(elm)->field.tqe_next]. *)
Inductive nptr := first_of (head : Z) | next_of (elm : Z).
Global Instance nptr_eq_dec : EqDecision nptr.
Proof. solve_decision. Defined.
Global Instance nptr_countable : Countable nptr.
Proof.
  apply (inj_countable' (fun p => match p with first_of h => inl h | next_of x => inr x end) (fun s => match s with inl h => first_of h | inr x => next_of x end)).
  by intros [].
Defined.
Global Instance next_of_inj : Inj (=) (=) next_of.
Proof. by intros x y [= ->]. Qed.

Record qmem := QMem {
  nx : gmap nptr (option Z);    (** pointers to elements, [None] is [NULL] *)
  bk : gmap nptr nptr           (** the pointers behind them *)
}.

Definition load (p : nptr) (m : qmem) : outcome (option Z) := of_option "next pointer" (nx m !! p).
Definition loadb (p : nptr) (m : qmem) : outcome nptr := of_option "back pointer" (bk m !! p).
Definition store (p : nptr) (v : option Z) (m : qmem) : outcome qmem :=
  _ ← load p m; Done (QMem (<[p := v]> (nx m)) (bk m)).
Definition storeb (p : nptr) (v : nptr) (m : qmem) : outcome qmem :=
  _ ← loadb p m; Done (QMem (nx m) (<[p := v]> (bk m))).
(** [(p)->field.xxx] needs [p] to point to an element. *)
Definition deref (v : option Z) : outcome nptr := x ← of_option "NULL" v; Done (next_of x).

(** The loops over a list. *)
Fixpoint foreach (fuel : nat) (var : option Z) (m : qmem) : outcome (list Z) :=
  match fuel, var with
  | _, None => Done []
  | O, Some _ => Undef "the list has no end"
  | S fuel, Some x => n ← load (next_of x) m; l ← foreach fuel n m; Done (x :: l)
  end.

(** [body] may remove the element from the list and write to its cells. *)
Fixpoint foreach_safe (fuel : nat) (body : Z -> qmem -> outcome qmem) (var : option Z) (m : qmem) : outcome qmem :=
  match fuel, var with
  | _, None => Done m
  | O, Some _ => Undef "the list has no end"
  | S fuel, Some x => n ← load (next_of x) m; m ← body x m; foreach_safe fuel body n m
  end.

(** The search of the element before [elm]. *)
Fixpoint find_before (fuel : nat) (curelm elm : Z) (m : qmem) : outcome Z :=
  n ← load (next_of curelm) m;
  if decide (n = Some elm) then Done curelm
  else match fuel with
       | O => Undef "the list has no end"
       | S fuel => c ← of_option "NULL" n; find_before fuel c elm m
       end.

(** ** Singly-linked lists *)
Module SL.
Definition SLIST_FIRST (head : Z) (m : qmem) : outcome (option Z) := load (first_of head) m.
Definition SLIST_NEXT (elm : Z) (m : qmem) : outcome (option Z) := load (next_of elm) m.
Definition SLIST_EMPTY (head : Z) (m : qmem) : outcome bool := v ← load (first_of head) m; Done (bool_decide (v = None)).
Definition SLIST_FOREACH (fuel : nat) (head : Z) (m : qmem) : outcome (list Z) := v ← load (first_of head) m; foreach fuel v m.
Definition SLIST_FOREACH_SAFE (fuel : nat) (head : Z) (body : Z -> qmem -> outcome qmem) (m : qmem) : outcome qmem :=
  v ← SLIST_FIRST head m; foreach_safe fuel body v m.

Definition SLIST_INIT (head : Z) (m : qmem) : outcome qmem := store (first_of head) None m.
Definition SLIST_INSERT_AFTER (slistelm elm : Z) (m : qmem) : outcome qmem :=
  n ← load (next_of slistelm) m; m ← store (next_of elm) n m; store (next_of slistelm) (Some elm) m.
Definition SLIST_INSERT_HEAD (head elm : Z) (m : qmem) : outcome qmem :=
  n ← load (first_of head) m; m ← store (next_of elm) n m; store (first_of head) (Some elm) m.
Definition SLIST_REMOVE_AFTER (slistelm : Z) (m : qmem) : outcome qmem :=
  n ← SLIST_NEXT slistelm m; y ← of_option "NULL" n; n ← SLIST_NEXT y m; store (next_of slistelm) n m.
Definition SLIST_REMOVE_HEAD (head : Z) (m : qmem) : outcome qmem :=
  v ← load (first_of head) m; p ← deref v; n ← load p m; store (first_of head) n m.
Definition SLIST_REMOVE (fuel : nat) (head elm : Z) (m : qmem) : outcome qmem :=
  v ← load (first_of head) m;
  if decide (v = Some elm) then SLIST_REMOVE_HEAD head m
  else
    c ← of_option "NULL" v;
    curelm ← find_before fuel c elm m;
    n ← load (next_of curelm) m; p ← deref n; n ← load p m;
    store (next_of curelm) n m.
End SL.

(** ** Lists *)
Module LI.
Definition LIST_FIRST (head : Z) (m : qmem) : outcome (option Z) := load (first_of head) m.
Definition LIST_NEXT (elm : Z) (m : qmem) : outcome (option Z) := load (next_of elm) m.
Definition LIST_EMPTY (head : Z) (m : qmem) : outcome bool := v ← load (first_of head) m; Done (bool_decide (v = None)).
Definition LIST_FOREACH (fuel : nat) (head : Z) (m : qmem) : outcome (list Z) := v ← load (first_of head) m; foreach fuel v m.
Definition LIST_FOREACH_SAFE (fuel : nat) (head : Z) (body : Z -> qmem -> outcome qmem) (m : qmem) : outcome qmem :=
  v ← LIST_FIRST head m; foreach_safe fuel body v m.

Definition LIST_INIT (head : Z) (m : qmem) : outcome qmem := store (first_of head) None m.
Definition LIST_MOVE (head1 head2 : Z) (m : qmem) : outcome qmem :=
  m ← LIST_INIT head2 m;
  e ← LIST_EMPTY head1 m;
  if (e : bool) then Done m
  else v ← load (first_of head1) m; m ← store (first_of head2) v m; LIST_INIT head1 m.
Definition LIST_INSERT_AFTER (listelm elm : Z) (m : qmem) : outcome qmem :=
  n ← load (next_of listelm) m;
  m ← store (next_of elm) n m;
  m ← match n with
      | Some _ => v ← load (next_of listelm) m; p ← deref v; storeb p (next_of elm) m
      | None => Done m
      end;
  m ← store (next_of listelm) (Some elm) m;
  storeb (next_of elm) (next_of listelm) m.
Definition LIST_INSERT_BEFORE (listelm elm : Z) (m : qmem) : outcome qmem :=
  p ← loadb (next_of listelm) m;
  m ← storeb (next_of elm) p m;
  m ← store (next_of elm) (Some listelm) m;
  p ← loadb (next_of listelm) m;
  m ← store p (Some elm) m;
  storeb (next_of listelm) (next_of elm) m.
Definition LIST_INSERT_HEAD (head elm : Z) (m : qmem) : outcome qmem :=
  n ← load (first_of head) m;
  m ← store (next_of elm) n m;
  m ← match n with
      | Some _ => v ← load (first_of head) m; p ← deref v; storeb p (next_of elm) m
      | None => Done m
      end;
  m ← store (first_of head) (Some elm) m;
  storeb (next_of elm) (first_of head) m.
Definition LIST_REMOVE (elm : Z) (m : qmem) : outcome qmem :=
  n ← load (next_of elm) m;
  m ← match n with
      | Some y => p ← loadb (next_of elm) m; storeb (next_of y) p m
      | None => Done m
      end;
  p ← loadb (next_of elm) m;
  n ← load (next_of elm) m;
  store p n m.
Definition LIST_REPLACE (elm elm2 : Z) (m : qmem) : outcome qmem :=
  n ← load (next_of elm) m;
  m ← store (next_of elm2) n m;
  m ← match n with
      | Some _ => v ← load (next_of elm2) m; p ← deref v; storeb p (next_of elm2) m
      | None => Done m
      end;
  p ← loadb (next_of elm) m;
  m ← storeb (next_of elm2) p m;
  p ← loadb (next_of elm2) m;
  store p (Some elm2) m.
End LI.

(** ** Simple queues

    The macros STAILQ are the same, with other names of the fields. *)
Module SQ.
Definition SIMPLEQ_FIRST (head : Z) (m : qmem) : outcome (option Z) := load (first_of head) m.
Definition SIMPLEQ_NEXT (elm : Z) (m : qmem) : outcome (option Z) := load (next_of elm) m.
Definition SIMPLEQ_EMPTY (head : Z) (m : qmem) : outcome bool := v ← load (first_of head) m; Done (bool_decide (v = None)).
Definition SIMPLEQ_FOREACH (fuel : nat) (head : Z) (m : qmem) : outcome (list Z) := v ← load (first_of head) m; foreach fuel v m.
Definition SIMPLEQ_FOREACH_SAFE (fuel : nat) (head : Z) (body : Z -> qmem -> outcome qmem) (m : qmem) : outcome qmem :=
  v ← load (first_of head) m; foreach_safe fuel body v m.

Definition SIMPLEQ_INIT (head : Z) (m : qmem) : outcome qmem :=
  m ← store (first_of head) None m; storeb (first_of head) (first_of head) m.
Definition SIMPLEQ_INSERT_HEAD (head elm : Z) (m : qmem) : outcome qmem :=
  n ← load (first_of head) m;
  m ← store (next_of elm) n m;
  m ← match n with None => storeb (first_of head) (next_of elm) m | Some _ => Done m end;
  store (first_of head) (Some elm) m.
Definition SIMPLEQ_INSERT_TAIL (head elm : Z) (m : qmem) : outcome qmem :=
  m ← store (next_of elm) None m;
  p ← loadb (first_of head) m;
  m ← store p (Some elm) m;
  storeb (first_of head) (next_of elm) m.
Definition SIMPLEQ_INSERT_AFTER (head listelm elm : Z) (m : qmem) : outcome qmem :=
  n ← load (next_of listelm) m;
  m ← store (next_of elm) n m;
  m ← match n with None => storeb (first_of head) (next_of elm) m | Some _ => Done m end;
  store (next_of listelm) (Some elm) m.
Definition SIMPLEQ_REMOVE_HEAD (head : Z) (m : qmem) : outcome qmem :=
  v ← load (first_of head) m; p ← deref v; n ← load p m;
  m ← store (first_of head) n m;
  match n with None => storeb (first_of head) (first_of head) m | Some _ => Done m end.
Definition SIMPLEQ_REMOVE_AFTER (head elm : Z) (m : qmem) : outcome qmem :=
  v ← load (next_of elm) m; p ← deref v; n ← load p m;
  m ← store (next_of elm) n m;
  match n with None => storeb (first_of head) (next_of elm) m | Some _ => Done m end.
Definition SIMPLEQ_REMOVE (fuel : nat) (head elm : Z) (m : qmem) : outcome qmem :=
  v ← load (first_of head) m;
  if decide (v = Some elm) then SIMPLEQ_REMOVE_HEAD head m
  else
    c ← of_option "NULL" v;
    curelm ← find_before fuel c elm m;
    n ← load (next_of curelm) m; p ← deref n; n ← load p m;
    m ← store (next_of curelm) n m;
    match n with None => storeb (first_of head) (next_of curelm) m | Some _ => Done m end.
Definition SIMPLEQ_CONCAT (head1 head2 : Z) (m : qmem) : outcome qmem :=
  e ← SIMPLEQ_EMPTY head2 m;
  if (e : bool) then Done m
  else
    p ← loadb (first_of head1) m; v ← load (first_of head2) m; m ← store p v m;
    p ← loadb (first_of head2) m; m ← storeb (first_of head1) p m;
    SIMPLEQ_INIT head2 m.
(** The element the last pointer lies in; for an empty queue it would lie in
    the head. *)
Definition SIMPLEQ_LAST (head : Z) (m : qmem) : outcome (option Z) :=
  e ← SIMPLEQ_EMPTY head m;
  if (e : bool) then Done None
  else p ← loadb (first_of head) m; match p with next_of x => Done (Some x) | first_of _ => Undef "not an element" end.
End SQ.

Module ST.
Definition STAILQ_FIRST := SQ.SIMPLEQ_FIRST.
Definition STAILQ_NEXT := SQ.SIMPLEQ_NEXT.
Definition STAILQ_EMPTY := SQ.SIMPLEQ_EMPTY.
Definition STAILQ_FOREACH := SQ.SIMPLEQ_FOREACH.
Definition STAILQ_FOREACH_SAFE := SQ.SIMPLEQ_FOREACH_SAFE.
Definition STAILQ_INIT := SQ.SIMPLEQ_INIT.
Definition STAILQ_INSERT_HEAD := SQ.SIMPLEQ_INSERT_HEAD.
Definition STAILQ_INSERT_TAIL := SQ.SIMPLEQ_INSERT_TAIL.
Definition STAILQ_INSERT_AFTER := SQ.SIMPLEQ_INSERT_AFTER.
Definition STAILQ_REMOVE_HEAD := SQ.SIMPLEQ_REMOVE_HEAD.
Definition STAILQ_REMOVE := SQ.SIMPLEQ_REMOVE.
Definition STAILQ_CONCAT := SQ.SIMPLEQ_CONCAT.
Definition STAILQ_LAST := SQ.SIMPLEQ_LAST.
End ST.

(** ** Tail queues *)
Module TQ.
Definition TAILQ_FIRST (head : Z) (m : qmem) : outcome (option Z) := load (first_of head) m.
Definition TAILQ_NEXT (elm : Z) (m : qmem) : outcome (option Z) := load (next_of elm) m.
Definition TAILQ_LAST (head : Z) (m : qmem) : outcome (option Z) := p ← loadb (first_of head) m; p ← loadb p m; load p m.
Definition TAILQ_PREV (elm : Z) (m : qmem) : outcome (option Z) := p ← loadb (next_of elm) m; p ← loadb p m; load p m.
Definition TAILQ_EMPTY (head : Z) (m : qmem) : outcome bool := v ← TAILQ_FIRST head m; Done (bool_decide (v = None)).
Definition TAILQ_FOREACH (fuel : nat) (head : Z) (m : qmem) : outcome (list Z) := v ← load (first_of head) m; foreach fuel v m.
Definition TAILQ_FOREACH_SAFE (fuel : nat) (head : Z) (body : Z -> qmem -> outcome qmem) (m : qmem) : outcome qmem :=
  v ← load (first_of head) m; foreach_safe fuel body v m.
Fixpoint reverse_loop (fuel : nat) (var : option Z) (m : qmem) : outcome (list Z) :=
  match fuel, var with
  | _, None => Done []
  | O, Some _ => Undef "the list has no end"
  | S fuel, Some x => n ← TAILQ_PREV x m; l ← reverse_loop fuel n m; Done (x :: l)
  end.
Definition TAILQ_FOREACH_REVERSE (fuel : nat) (head : Z) (m : qmem) : outcome (list Z) := v ← TAILQ_LAST head m; reverse_loop fuel v m.

Definition TAILQ_INIT (head : Z) (m : qmem) : outcome qmem :=
  m ← store (first_of head) None m; storeb (first_of head) (first_of head) m.
Definition TAILQ_INSERT_HEAD (head elm : Z) (m : qmem) : outcome qmem :=
  n ← load (first_of head) m;
  m ← store (next_of elm) n m;
  m ← match n with
      | Some _ => v ← load (first_of head) m; p ← deref v; storeb p (next_of elm) m
      | None => storeb (first_of head) (next_of elm) m
      end;
  m ← store (first_of head) (Some elm) m;
  storeb (next_of elm) (first_of head) m.
Definition TAILQ_INSERT_TAIL (head elm : Z) (m : qmem) : outcome qmem :=
  m ← store (next_of elm) None m;
  p ← loadb (first_of head) m;
  m ← storeb (next_of elm) p m;
  p ← loadb (first_of head) m;
  m ← store p (Some elm) m;
  storeb (first_of head) (next_of elm) m.
Definition TAILQ_INSERT_AFTER (head listelm elm : Z) (m : qmem) : outcome qmem :=
  n ← load (next_of listelm) m;
  m ← store (next_of elm) n m;
  m ← match n with
      | Some _ => v ← load (next_of elm) m; p ← deref v; storeb p (next_of elm) m
      | None => storeb (first_of head) (next_of elm) m
      end;
  m ← store (next_of listelm) (Some elm) m;
  storeb (next_of elm) (next_of listelm) m.
Definition TAILQ_INSERT_BEFORE (listelm elm : Z) (m : qmem) : outcome qmem :=
  p ← loadb (next_of listelm) m;
  m ← storeb (next_of elm) p m;
  m ← store (next_of elm) (Some listelm) m;
  p ← loadb (next_of listelm) m;
  m ← store p (Some elm) m;
  storeb (next_of listelm) (next_of elm) m.
Definition TAILQ_REMOVE (head elm : Z) (m : qmem) : outcome qmem :=
  n ← load (next_of elm) m;
  m ← match n with
      | Some y => p ← loadb (next_of elm) m; storeb (next_of y) p m
      | None => p ← loadb (next_of elm) m; storeb (first_of head) p m
      end;
  p ← loadb (next_of elm) m;
  n ← load (next_of elm) m;
  store p n m.
Definition TAILQ_REPLACE (head elm elm2 : Z) (m : qmem) : outcome qmem :=
  n ← load (next_of elm) m;
  m ← store (next_of elm2) n m;
  m ← match n with
      | Some _ => v ← load (next_of elm2) m; p ← deref v; storeb p (next_of elm2) m
      | None => storeb (first_of head) (next_of elm2) m
      end;
  p ← loadb (next_of elm) m;
  m ← storeb (next_of elm2) p m;
  p ← loadb (next_of elm2) m;
  store p (Some elm2) m.
Definition TAILQ_CONCAT (head1 head2 : Z) (m : qmem) : outcome qmem :=
  e ← TAILQ_EMPTY head2 m;
  if (e : bool) then Done m
  else
    p ← loadb (first_of head1) m; v ← load (first_of head2) m; m ← store p v m;
    v ← load (first_of head2) m; q ← deref v; p ← loadb (first_of head1) m; m ← storeb q p m;
    p ← loadb (first_of head2) m; m ← storeb (first_of head1) p m;
    TAILQ_INIT head2 m.
End TQ.

(** ** Families of lists *)
Inductive family := SLIST | LIST | SIMPLEQ | TAILQ.
Definition has_prev (fam : family) : bool := match fam with LIST | TAILQ => true | _ => false end.
Definition has_last (fam : family) : bool := match fam with SIMPLEQ | TAILQ => true | _ => false end.

Section Rep.
Context (fam : family).

(** From cell [a] the elements [l] are linked, and [b] is the last cell. *)
Fixpoint seg (m : qmem) (a : nptr) (l : list Z) (b : nptr) : Prop :=
  match l with
  | [] => a = b
  | x :: l => nx m !! a = Some (Some x) /\ (has_prev fam = true -> bk m !! next_of x = Some a) /\ seg m (next_of x) l b
  end.

(** The last cell, and where the pointer to it is. *)
Definition tcell (a : nptr) (l : list Z) : nptr := default a (next_of <$> last l).
Definition back_cell (h : Z) (l : list Z) : nptr := match l with [] => first_of h | y :: _ => next_of y end.
Definition has_back (l : list Z) : bool := match l with [] => has_last fam | _ => has_prev fam end.

(** Head [h] heads the list [l]. *)
Record holds (m : qmem) (h : Z) (l : list Z) : Prop := {
  h_seg : seg m (first_of h) l (tcell (first_of h) l);
  h_end : nx m !! tcell (first_of h) l = Some None;
  h_last : has_last fam = true -> bk m !! first_of h = Some (tcell (first_of h) l);
  h_nodup : NoDup l
}.

Lemma tcell_nil a : tcell a [] = a.
Proof. done. Qed.

Lemma tcell_snoc a l x : tcell a (l ++ [x]) = next_of x.
Proof. unfold tcell. by rewrite last_snoc. Qed.

Lemma tcell_app a l1 l2 : tcell a (l1 ++ l2) = tcell (tcell a l1) l2.
Proof. destruct l2 as [| x l2 _] using rev_ind; [by rewrite app_nil_r |]. by rewrite app_assoc, !tcell_snoc. Qed.

Lemma tcell_cons a x l : tcell a (x :: l) = tcell (next_of x) l.
Proof. apply (tcell_app a [x] l). Qed.

Lemma tcell_in a l : tcell a l = a /\ l = [] \/ exists x, x ∈ l /\ tcell a l = next_of x.
Proof. destruct l as [| x l _] using rev_ind; [by left | right]. exists x. rewrite tcell_snoc. set_solver. Qed.

Lemma seg_end m a l b : seg m a l b -> b = tcell a l.
Proof. revert a. induction l as [| x l IH]; intros a; [done |]. intros (_ & _ & H). rewrite tcell_cons. by apply IH. Qed.

Lemma seg_app m a l1 l2 b : seg m a (l1 ++ l2) b <-> seg m a l1 (tcell a l1) /\ seg m (tcell a l1) l2 b.
Proof.
  revert a. induction l1 as [| x l1 IH]; intros a; cbn [app seg]; [rewrite tcell_nil; tauto |]. rewrite IH, tcell_cons. tauto.
Qed.

(** A segment depends on the cells before its end. *)
Lemma seg_frame m m' a l : NoDup (a :: (next_of <$> l)) -> (forall p, p ∈ a :: (next_of <$> l) -> p <> tcell a l -> nx m' !! p = nx m !! p) ->
  (forall x, x ∈ l -> bk m' !! next_of x = bk m !! next_of x) -> seg m a l (tcell a l) -> seg m' a l (tcell a l).
Proof.
  revert a. induction l as [| x l IH]; intros a Hnd Hn Hb; [done |]. cbn [seg]. intros (H1 & H2 & H3). apply NoDup_cons in Hnd as [Ha Hnd].
  assert (a <> tcell a (x :: l)) as Hne.
  { intros E. destruct (tcell_in a (x :: l)) as [[_ ?] | (y & Hy & E')]; [done |]. apply Ha. rewrite E, E'. by apply list_elem_of_fmap_2. }
  rewrite tcell_cons in *. split_and!.
  - rewrite Hn; [done | set_solver | done].
  - intros Hp. rewrite Hb by set_solver. auto.
  - apply IH; [done | | | done]; intros; [apply Hn | apply Hb]; set_solver.
Qed.

(** ** Change of a part of a list

    The cells of the elements [mid'] and the cell before them are written, and
    the pointer back to the last of these cells. *)
Record spliced (m m' : qmem) (h : Z) (l1 mid' l2 : list Z) : Prop := {
  sp_nx : forall p, p <> tcell (first_of h) l1 -> (p ∉ (next_of <$> mid' : list nptr)) -> nx m' !! p = nx m !! p;
  sp_bk : forall p, (p ∉ (next_of <$> mid' : list nptr)) -> (has_back l2 = true -> p <> back_cell h l2) -> bk m' !! p = bk m !! p;
  sp_seg : seg m' (tcell (first_of h) l1) mid' (tcell (first_of h) (l1 ++ mid'));
  sp_end : nx m' !! tcell (first_of h) (l1 ++ mid') = Some (head l2);
  sp_back : has_back l2 = true -> bk m' !! back_cell h l2 = Some (tcell (first_of h) (l1 ++ mid'))
}.

Lemma nodup_cells h l : NoDup l -> NoDup (first_of h :: (next_of <$> l) : list nptr).
Proof.
  intros H. apply NoDup_cons. split; [intros (x & ? & _)%list_elem_of_fmap; done |]. apply NoDup_fmap_2; [apply _ | done].
Qed.

Lemma tcell_not_in h l1 l2 : NoDup (l1 ++ l2) -> tcell (first_of h) l1 ∉ (next_of <$> l2 : list nptr).
Proof.
  intros Hnd (x & E & Hx)%list_elem_of_fmap. destruct (tcell_in (first_of h) l1) as [[E' _] | (y & Hy & E')]; rewrite E' in E; [done |].
  simplify_eq. apply NoDup_app in Hnd as (_ & Hnd & _). by apply (Hnd x).
Qed.

Lemma spliced_holds m m' h l1 mid mid' l2 : holds m h (l1 ++ mid ++ l2) -> NoDup (l1 ++ mid' ++ l2) -> spliced m m' h l1 mid' l2 ->
  holds m' h (l1 ++ mid' ++ l2).
Proof.
  intros [H1 H2 H3 H4] Hnd [S1 S2 S3 S4 S5]. rewrite seg_app in H1. destruct H1 as [H1 H1']. rewrite seg_app in H1'. destruct H1' as [_ H1'].
  rewrite <- tcell_app in H1'.
  assert (forall x, x ∈ l1 -> (x ∉ mid') /\ (x ∉ l2)) as N1 by (intros x Hx; apply NoDup_app in Hnd as (_ & Hnd & _); specialize (Hnd x Hx); set_solver).
  assert (forall x, x ∈ l2 -> x ∉ mid') as N2 by (intros x Hx Hm; apply NoDup_app in Hnd as (_ & _ & Hnd); apply NoDup_app in Hnd as (_ & Hnd & _); by apply (Hnd x)).
  assert (forall x, x ∉ mid' -> (next_of x : nptr) ∉ (next_of <$> mid' : list nptr)) as N3 by (intros x Hx (y & ? & ?)%list_elem_of_fmap; by simplify_eq).
  assert (NoDup (l1 ++ l2)) as Hnd12. { apply (sublist_NoDup _ _ Hnd). apply sublist_app; [done |]. by apply sublist_inserts_l. }
  assert (forall x, x ∈ l2 -> nx m' !! next_of x = nx m !! next_of x) as Hn2.
  { intros x Hx. apply S1; [| auto]. intros E. apply (tcell_not_in h l1 l2 Hnd12). rewrite <- E. by apply list_elem_of_fmap_2. }
  assert (seg m' (first_of h) l1 (tcell (first_of h) l1)) as G1.
  { apply (seg_frame m); [apply nodup_cells; by apply NoDup_app in Hnd as (? & _) | | | done].
    - intros p Hp Hne. apply S1; [done |]. apply elem_of_cons in Hp as [-> | (x & -> & Hx)%list_elem_of_fmap]; [by intros (? & ? & _)%list_elem_of_fmap |].
      apply N3. by destruct (N1 x Hx).
    - intros x Hx. apply S2; [apply N3; by destruct (N1 x Hx) |]. destruct l2 as [| y l2]; [done |]. cbn. intros _ [= ->]. destruct (N1 y Hx). set_solver. }
  assert (seg m' (tcell (first_of h) (l1 ++ mid')) l2 (tcell (tcell (first_of h) (l1 ++ mid')) l2)) as G2.
  { destruct l2 as [| y l2]; [done |]. cbn [seg] in *. destruct H1' as (E1 & E2 & E3). rewrite tcell_cons. split; [done |]. split; [done |].
    rewrite (seg_end _ _ _ _ E3) in E3. apply (seg_frame m); [| | | done].
    - apply NoDup_app in Hnd12 as (_ & _ & Hnd2). apply (NoDup_fmap_2 (next_of : Z -> nptr) (y :: l2) Hnd2).
    - intros p Hp _. change (next_of y :: (next_of <$> l2)) with (next_of <$> (y :: l2) : list nptr) in Hp.
      apply list_elem_of_fmap in Hp as (x & -> & Hx). by apply Hn2.
    - intros x Hx. apply S2; [apply N3, N2; set_solver |]. cbn. intros _ [= ->]. apply NoDup_app in Hnd12 as (_ & _ & Hnd2). by apply NoDup_cons in Hnd2 as [? _]. }
  assert (tcell (first_of h) (l1 ++ mid' ++ l2) = tcell (tcell (first_of h) (l1 ++ mid')) l2) as Et by (by rewrite app_assoc, tcell_app).
  assert (l2 <> [] -> tcell (first_of h) (l1 ++ mid' ++ l2) = tcell (first_of h) (l1 ++ mid ++ l2) /\ exists x, x ∈ l2 /\ tcell (first_of h) (l1 ++ mid ++ l2) = next_of x) as Et'.
  { intros Hne. destruct l2 as [| z l2' _] using rev_ind; [done |]. rewrite !app_assoc, !tcell_snoc. split; [done |]. exists z. set_solver. }
  split; [| | | done].
  - rewrite app_assoc, seg_app. split; [| by rewrite <- app_assoc, Et]. rewrite seg_app. split; [done | by rewrite tcell_app in S3 |- *].
  - destruct (decide (l2 = [])) as [-> | Hne]; [by rewrite app_nil_r |]. destruct (Et' Hne) as [-> (x & Hx & E)]. rewrite E in *. by rewrite Hn2.
  - intros Hl. destruct l2 as [| y l2]; [rewrite app_nil_r; by apply S5 |]. destruct (Et' ltac:(done)) as [-> _]. rewrite S2; [by apply H3 | by intros (? & ? & _)%list_elem_of_fmap | done].
Qed.
End Rep.

(** ** Many lists

    [A] says which list each head has.  An element is on one list at most. *)
Definition free (A : gmap Z (list Z)) (x : Z) : Prop := forall h l, A !! h = Some l -> x ∉ l.

Section Lists.
Context (fam : family) (H E : list Z).

(** The objects that exist. *)
Record objects (m : qmem) : Prop := {
  ob_heads : forall h, h ∈ H -> is_Some (nx m !! first_of h) /\ (has_last fam = true -> is_Some (bk m !! first_of h));
  ob_elems : forall x, x ∈ E -> is_Some (nx m !! next_of x) /\ (has_prev fam = true -> is_Some (bk m !! next_of x))
}.

Record represents (m : qmem) (A : gmap Z (list Z)) : Prop := {
  rp_objects : objects m;
  rp_holds : forall h l, A !! h = Some l -> holds fam m h l;
  rp_in : forall h l, A !! h = Some l -> h ∈ H /\ forall x, x ∈ l -> x ∈ E;
  rp_disj : forall h1 h2 l1 l2 x, A !! h1 = Some l1 -> A !! h2 = Some l2 -> x ∈ l1 -> x ∈ l2 -> h1 = h2
}.

(** A memory in which the same cells exist. *)
Definition same_cells (m m' : qmem) : Prop := (forall p, is_Some (nx m !! p) -> is_Some (nx m' !! p)) /\ forall p, is_Some (bk m !! p) -> is_Some (bk m' !! p).

Lemma objects_same m m' : same_cells m m' -> objects m -> objects m'.
Proof. intros [S1 S2] [O1 O2]. split; [intros h Hh; destruct (O1 h Hh) | intros x Hx; destruct (O2 x Hx)]; auto. Qed.

(** Lists whose objects are not written stay. *)
Lemma holds_frame m m' h l : (forall p, p ∈ (first_of h :: (next_of <$> l) : list nptr) -> nx m' !! p = nx m !! p /\ bk m' !! p = bk m !! p) ->
  holds fam m h l -> holds fam m' h l.
Proof.
  intros Hf [H1 H2 H3 H4]. assert (tcell (first_of h) l ∈ (first_of h :: (next_of <$> l) : list nptr)) as Ht.
  { destruct (tcell_in (first_of h) l) as [[-> _] | (x & Hx & ->)]; [by left | right]. by apply list_elem_of_fmap_2. }
  split; [| by rewrite (proj1 (Hf _ Ht)) | intros Hl; destruct (Hf (first_of h)) as [_ ->]; [by left | auto] | done].
  apply (seg_frame fam m); [by apply nodup_cells | by intros p Hp _; apply Hf | | done]. intros x Hx. apply Hf. right. by apply list_elem_of_fmap_2.
Qed.

Lemma represents_spliced m m' A h l1 mid mid' l2 : represents m A -> A !! h = Some (l1 ++ mid ++ l2) -> NoDup (l1 ++ mid' ++ l2) ->
  (forall x, x ∈ mid' -> x ∈ E /\ (x ∈ mid \/ free A x)) -> same_cells m m' -> spliced fam m m' h l1 mid' l2 ->
  represents m' (<[h := l1 ++ mid' ++ l2]> A).
Proof.
  intros [R1 R2 R3 R4] Eh Hnd Hmid Hsc Hsp. destruct (R3 _ _ Eh) as [Hh Hin]. set (l := l1 ++ mid ++ l2) in *.
  assert (forall x h' l', x ∈ l1 ++ mid' ++ l2 -> A !! h' = Some l' -> x ∈ l' -> h' = h) as Hown.
  { intros x h' l' Hx Eh' Hx'. assert (x ∈ l \/ free A x) as [Hl | Hfr].
    { apply elem_of_app in Hx as [Hx | [Hx | Hx]%elem_of_app]; [left; unfold l; set_solver | | left; unfold l; set_solver].
      destruct (Hmid x Hx) as [_ [? | ?]]; [left; unfold l; set_solver | by right]. }
    - by apply (R4 h' h l' l x).
    - by destruct (Hfr h' l' Eh'). }
  split.
  - by eapply objects_same.
  - intros h' l' [[<- <-] | [Hne Eh']]%lookup_insert_Some; [eapply spliced_holds; eauto |].
    apply (holds_frame m); [| by apply R2]. intros p Hp.
    assert (forall x, x ∈ l1 ++ mid' ++ l2 -> p <> next_of x) as Hpx.
    { intros x Hx ->. apply elem_of_cons in Hp as [? | (y & [= <-] & Hy)%list_elem_of_fmap]; [done |]. apply Hne. symmetry. by eapply Hown. }
    assert (p <> first_of h) as Hph by (intros ->; apply elem_of_cons in Hp as [[= ->] | (y & ? & _)%list_elem_of_fmap]; done).
    assert (p ∉ (next_of <$> mid' : list nptr)) as Hpm by (intros (x & -> & Hx)%list_elem_of_fmap; apply (Hpx x); [set_solver | done]).
    destruct Hsp as [S1 S2 _ _ _]. split; [apply S1 | apply S2]; try done.
    + destruct (tcell_in (first_of h) l1) as [[-> _] | (x & Hx & ->)]; [done |]. apply Hpx. set_solver.
    + intros _. destruct l2 as [| y l2]; [done |]. apply Hpx. set_solver.
  - intros h' l' [[<- <-] | [Hne Eh']]%lookup_insert_Some; [| by apply (R3 h')]. split; [done |]. intros x Hx.
    apply elem_of_app in Hx as [Hx | [Hx | Hx]%elem_of_app]; [| by apply Hmid |]; apply Hin; unfold l; set_solver.
  - intros h1 h2 k1 k2 x [[<- <-] | [Hne1 E1]]%lookup_insert_Some [[<- <-] | [Hne2 E2]]%lookup_insert_Some Hx1 Hx2; [done | | |].
    + symmetry. by eapply Hown.
    + by eapply Hown.
    + by apply (R4 h1 h2 k1 k2 x).
Qed.

(** A list may be forgotten, and a head may be initialised. *)
Lemma represents_delete m A h : represents m A -> represents m (delete h A).
Proof.
  intros [R1 R2 R3 R4]. split; [done | | |].
  - intros h' l' [_ E']%lookup_delete_Some. auto.
  - intros h' l' [_ E']%lookup_delete_Some. eauto.
  - intros h1 h2 l1 l2 x [_ E1]%lookup_delete_Some [_ E2]%lookup_delete_Some. eauto.
Qed.

Lemma represents_init m m' A h : represents m A -> h ∈ H -> same_cells m m' -> (forall p, p <> first_of h -> nx m' !! p = nx m !! p /\ bk m' !! p = bk m !! p) ->
  nx m' !! first_of h = Some None -> (has_last fam = true -> bk m' !! first_of h = Some (first_of h)) -> represents m' (<[h := []]> A).
Proof.
  intros [R1 R2 R3 R4] Hh Hsc Hf E1 E2. split.
  - by eapply objects_same.
  - intros h' l' [[<- <-] | [Hne E']]%lookup_insert_Some; [split; [done | done | done | apply NoDup_nil_2] |].
    apply (holds_frame m); [| by apply R2]. intros p Hp. apply Hf. intros ->. apply elem_of_cons in Hp as [[= ->] | (? & ? & _)%list_elem_of_fmap]; done.
  - intros h' l' [[<- <-] | [Hne E']]%lookup_insert_Some; [set_solver | by apply (R3 h')].
  - intros h1 h2 k1 k2 x [[<- <-] | [Hne1 E1']]%lookup_insert_Some [[<- <-] | [Hne2 E2']]%lookup_insert_Some Hx1 Hx2; [done | set_solver | set_solver |].
    by apply (R4 h1 h2 k1 k2 x).
Qed.
End Lists.

(** ** Running the operations *)
Lemma load_eq p v m : nx m !! p = Some v -> load p m = Done v.
Proof. unfold load. by intros ->. Qed.
Lemma loadb_eq p v m : bk m !! p = Some v -> loadb p m = Done v.
Proof. unfold loadb. by intros ->. Qed.
Lemma store_eq p v m : is_Some (nx m !! p) -> store p v m = Done (QMem (<[p := v]> (nx m)) (bk m)).
Proof. unfold store. intros [w E]. by rewrite (load_eq _ _ _ E). Qed.
Lemma storeb_eq p v m : is_Some (bk m !! p) -> storeb p v m = Done (QMem (nx m) (<[p := v]> (bk m))).
Proof. unfold storeb. intros [w E]. by rewrite (loadb_eq _ _ _ E). Qed.

Lemma insert_some `{Countable K} {V} (f : gmap K V) p q v : is_Some (f !! q) -> is_Some (<[p := v]> f !! q).
Proof. intros Hq. destruct (decide (p = q)) as [-> | Hne]; [rewrite lookup_insert_eq; by eexists | by rewrite lookup_insert_ne]. Qed.

Lemma same_cells_refl m : same_cells m m.
Proof. done. Qed.
Lemma same_cells_nx m m' p v : same_cells m m' -> same_cells m (QMem (<[p := v]> (nx m')) (bk m')).
Proof. intros [S1 S2]. split; cbn; [| done]. intros q Hq. by apply insert_some, S1. Qed.
Lemma same_cells_bk m m' p v : same_cells m m' -> same_cells m (QMem (nx m') (<[p := v]> (bk m'))).
Proof. intros [S1 S2]. split; cbn; [done |]. intros q Hq. by apply insert_some, S2. Qed.

Create HintDb queue.
#[export] Hint Resolve same_cells_refl same_cells_nx same_cells_bk : queue.

(** Lookups in memories that have been written to. *)
Ltac lk := cbn [nx bk]; repeat first [rewrite lookup_insert_eq | rewrite lookup_insert_ne by congruence]; try done; try eassumption.
Ltac is_some := cbn [nx bk]; repeat (first [eassumption | apply insert_some]); try (eexists; eassumption).
(** The next access. *)
Ltac acc :=
  match goal with
  | |- context [load ?p ?m] => erewrite (load_eq p _ m) by (by lk)
  | |- context [loadb ?p ?m] => erewrite (loadb_eq p _ m) by (by lk)
  | |- context [store ?p ?v ?m] => rewrite (store_eq p v m) by (by is_some)
  | |- context [storeb ?p ?v ?m] => rewrite (storeb_eq p v m) by (by is_some)
  | |- context [of_option ?w (Some ?x)] => rewrite (of_option_Some w x)
  | |- context [deref (Some ?x)] => change (deref (Some x)) with (Done (next_of x))
  end; rewrite ?Done_bind; cbv beta iota.
Ltac run := cbv beta; repeat acc; (eexists; split; [reflexivity |]).

Section Runs.
Context (fam : family) (H E : list Z).

Lemma holds_at m h l1 l2 : holds fam m h (l1 ++ l2) ->
  nx m !! tcell (first_of h) l1 = Some (head l2) /\ (has_back fam l2 = true -> bk m !! back_cell h l2 = Some (tcell (first_of h) l1)).
Proof.
  intros [H1 H2 H3 _]. rewrite seg_app in H1. destruct H1 as [_ H1]. destruct l2 as [| y l2]; [rewrite app_nil_r in *; auto |].
  destruct H1 as (E1 & E2 & _). auto.
Qed.

(** At the element [y]. *)
Lemma holds_elm m h l1 y l2 : holds fam m h (l1 ++ y :: l2) ->
  nx m !! next_of y = Some (head l2) /\ (has_back fam l2 = true -> bk m !! back_cell h l2 = Some (next_of y)) /\
  (has_prev fam = true -> bk m !! next_of y = Some (tcell (first_of h) l1)) /\ nx m !! tcell (first_of h) l1 = Some (Some y).
Proof.
  intros Hh. destruct (holds_at m h l1 (y :: l2) Hh) as [E1 E2]. rewrite (cons_middle y l1 l2), app_assoc in Hh.
  destruct (holds_at m h (l1 ++ [y]) l2 Hh) as [E3 E4]. rewrite tcell_snoc in E3, E4. auto.
Qed.

Lemma free_not_in A x h l : free A x -> A !! h = Some l -> x ∉ l.
Proof. intros Hf. apply Hf. Qed.

Lemma tcell_ne h l1 x : x ∉ l1 -> tcell (first_of h) l1 <> next_of x.
Proof. intros Hx Ht. destruct (tcell_in (first_of h) l1) as [[E' _] | (y & Hy & E')]; rewrite E' in Ht; [done |]. by simplify_eq. Qed.

Lemma represents_insert m m' A h l1 x l2 : represents fam H E m A -> A !! h = Some (l1 ++ l2) -> free A x -> x ∈ E ->
  same_cells m m' -> spliced fam m m' h l1 [x] l2 -> represents fam H E m' (<[h := l1 ++ x :: l2]> A).
Proof.
  intros Hr Eh Hf Hx Hs Hsp. pose proof (h_nodup _ _ _ _ (rp_holds _ _ _ _ _ Hr _ _ Eh)) as Hnd. pose proof (Hf _ _ Eh) as Hn.
  apply (represents_spliced fam H E m m' A h l1 [] [x] l2); try done.
  - change ([x] ++ l2) with (x :: l2). rewrite <- Permutation_middle. by apply NoDup_cons.
  - intros y ->%list_elem_of_singleton. auto.
Qed.

Lemma represents_remove m m' A h l1 x l2 : represents fam H E m A -> A !! h = Some (l1 ++ x :: l2) ->
  same_cells m m' -> spliced fam m m' h l1 [] l2 -> represents fam H E m' (<[h := l1 ++ l2]> A).
Proof.
  intros Hr Eh Hs Hsp. pose proof (h_nodup _ _ _ _ (rp_holds _ _ _ _ _ Hr _ _ Eh)) as Hnd.
  apply (represents_spliced fam H E m m' A h l1 [x] [] l2); try done.
  - cbn. rewrite <- Permutation_middle in Hnd. by apply NoDup_cons in Hnd as [_ ?].
  - intros y Hy. by apply elem_of_nil in Hy.
Qed.

Lemma represents_replace m m' A h l1 x x2 l2 : represents fam H E m A -> A !! h = Some (l1 ++ x :: l2) -> free A x2 -> x2 ∈ E ->
  same_cells m m' -> spliced fam m m' h l1 [x2] l2 -> represents fam H E m' (<[h := l1 ++ x2 :: l2]> A).
Proof.
  intros Hr Eh Hf Hx Hs Hsp. pose proof (h_nodup _ _ _ _ (rp_holds _ _ _ _ _ Hr _ _ Eh)) as Hnd. pose proof (Hf _ _ Eh) as Hn.
  apply (represents_spliced fam H E m m' A h l1 [x] [x2] l2); try done.
  - change ([x2] ++ l2) with (x2 :: l2). rewrite <- Permutation_middle in *. apply NoDup_cons in Hnd as [_ Hnd]. apply NoDup_cons. set_solver.
  - intros y ->%list_elem_of_singleton. auto.
Qed.
End Runs.

(** What is known of the objects of an operation, then its run, then the cells
    it has written. *)
Lemma not_in_one p x : p ∉ (next_of <$> [x] : list nptr) -> p <> next_of x.
Proof. intros Hp ->. apply Hp. by left. Qed.

Lemma nodup_next (l1 l2 : list Z) x z : NoDup (l1 ++ x :: z :: l2) -> x <> z.
Proof. intros Hnd ->. apply NoDup_app in Hnd as (_ & _ & [Hn _]%NoDup_cons). set_solver. Qed.

Ltac elem x Hr Hx :=
  let O1 := fresh "O" in let O2 := fresh "O" in
  destruct (ob_elems _ _ _ _ (rp_objects _ _ _ _ _ Hr) x Hx) as [O1 O2]; cbn in O2; try specialize (O2 eq_refl).
Ltac hd h Hr Eh :=
  let O1 := fresh "O" in let O2 := fresh "O" in
  destruct (ob_heads _ _ _ _ (rp_objects _ _ _ _ _ Hr) h (proj1 (rp_in _ _ _ _ _ Hr _ _ Eh))) as [O1 O2]; cbn in O2; try specialize (O2 eq_refl).
Ltac known :=
  cbn [has_back has_prev has_last back_cell head] in *;
  repeat match goal with
  | A : true = true -> _ |- _ => specialize (A eq_refl)
  | A : false = true -> _ |- _ => clear A
  end.
Ltac position Hr Eh :=
  let Hh := fresh "Hh" in pose proof (rp_holds _ _ _ _ _ Hr _ _ Eh) as Hh;
  first [destruct (holds_elm _ _ _ _ _ _ Hh) as (? & ? & ? & ?) | destruct (holds_at _ _ _ _ _ Hh) as [? ?]]; known.
Ltac splice :=
  split; rewrite ?tcell_snoc, ?app_nil_r; cbn [has_back has_prev has_last back_cell head seg];
  [ intros p Hc ?%not_in_one; rewrite ?tcell_nil, ?tcell_snoc in Hc; lk | intros p ?%not_in_one Hp; try specialize (Hp eq_refl); lk | split_and!; try done; intros; lk | lk | intros; lk ].

(** For removals, no element is written. *)
Ltac unsplice :=
  split; rewrite ?app_nil_r, ?tcell_nil, ?tcell_snoc; cbn [has_back has_prev has_last back_cell head seg];
  [ intros p Hc _; rewrite ?tcell_nil, ?tcell_snoc in Hc; lk | intros p _ Hp; try specialize (Hp eq_refl); lk | done | lk | intros; lk ].

Section Ops.
Context (H E : list Z) (m : qmem) (A : gmap Z (list Z)) (h : Z).

Section Tailq.
Context (Hr : represents TAILQ H E m A).

Lemma TAILQ_INIT_ok : h ∈ H -> exists m', TQ.TAILQ_INIT h m = Done m' /\ represents TAILQ H E m' (<[h := []]> A).
Proof.
  intros Hh. destruct (ob_heads _ _ _ _ (rp_objects _ _ _ _ _ Hr) h Hh) as [O1 O2]. specialize (O2 eq_refl).
  unfold TQ.TAILQ_INIT. run. apply (represents_init _ _ _ m); try done; [auto with queue | | lk ..]. intros p Hp. split; lk.
Qed.

Lemma TAILQ_INSERT_HEAD_ok l x : A !! h = Some l -> free A x -> x ∈ E ->
  exists m', TQ.TAILQ_INSERT_HEAD h x m = Done m' /\ represents TAILQ H E m' (<[h := x :: l]> A).
Proof.
  intros Eh Hf Hx. elem x Hr Hx. hd h Hr Eh. pose proof (Hf _ _ Eh) as Hn.
  destruct (holds_at _ _ _ [] l (rp_holds _ _ _ _ _ Hr _ _ Eh)) as [B1 B2]. rewrite tcell_nil in B1, B2. unfold TQ.TAILQ_INSERT_HEAD.
  destruct l as [| y l]; known; [| assert (x <> y) by set_solver];
    (run; apply (represents_insert _ _ _ m _ A h []); try done; [auto with queue |]; rewrite ?tcell_nil; splice).
Qed.

Lemma TAILQ_INSERT_TAIL_ok l x : A !! h = Some l -> free A x -> x ∈ E ->
  exists m', TQ.TAILQ_INSERT_TAIL h x m = Done m' /\ represents TAILQ H E m' (<[h := l ++ [x]]> A).
Proof.
  intros Eh Hf Hx. elem x Hr Hx. hd h Hr Eh. pose proof (Hf _ _ Eh) as Hn. rewrite <- (app_nil_r l) in Eh. position Hr Eh.
  assert (tcell (first_of h) l <> next_of x) as N1 by (apply tcell_ne; set_solver).
  unfold TQ.TAILQ_INSERT_TAIL. run. apply (represents_insert _ _ _ m); try done; [auto with queue |]. splice.
Qed.

Lemma TAILQ_INSERT_AFTER_ok l1 y l2 x : A !! h = Some (l1 ++ y :: l2) -> free A x -> x ∈ E ->
  exists m', TQ.TAILQ_INSERT_AFTER h y x m = Done m' /\ represents TAILQ H E m' (<[h := l1 ++ y :: x :: l2]> A).
Proof.
  intros Eh Hf Hx. elem x Hr Hx. hd h Hr Eh. pose proof (Hf _ _ Eh) as Hn. position Hr Eh. assert (x <> y) by set_solver.
  rewrite (cons_middle y l1 l2), app_assoc in Eh. rewrite (cons_middle y l1 (x :: l2)), app_assoc. unfold TQ.TAILQ_INSERT_AFTER.
  destruct l2 as [| z l2]; known; [| assert (x <> z) by set_solver];
    (run; apply (represents_insert _ _ _ m); try done; [auto with queue |]; rewrite ?tcell_snoc; splice).
Qed.

Lemma TAILQ_INSERT_BEFORE_ok l1 y l2 x : A !! h = Some (l1 ++ y :: l2) -> free A x -> x ∈ E ->
  exists m', TQ.TAILQ_INSERT_BEFORE y x m = Done m' /\ represents TAILQ H E m' (<[h := l1 ++ x :: y :: l2]> A).
Proof.
  intros Eh Hf Hx. position Hr Eh. elem x Hr Hx. pose proof (Hf _ _ Eh) as Hn.
  assert (tcell (first_of h) l1 <> next_of x) as N1 by (apply tcell_ne; set_solver). assert (x <> y) as N2 by set_solver.
  unfold TQ.TAILQ_INSERT_BEFORE. run. apply (represents_insert _ _ _ m); try done; [auto with queue |]. splice.
Qed.

Lemma TAILQ_REMOVE_ok l1 x l2 : A !! h = Some (l1 ++ x :: l2) ->
  exists m', TQ.TAILQ_REMOVE h x m = Done m' /\ represents TAILQ H E m' (<[h := l1 ++ l2]> A).
Proof.
  intros Eh. hd h Hr Eh. position Hr Eh. pose proof (h_nodup _ _ _ _ Hh) as Hnd. unfold TQ.TAILQ_REMOVE.
  destruct l2 as [| z l2]; known; [| apply nodup_next in Hnd];
    (run; apply (represents_remove _ _ _ m _ A h l1 x); try done; [auto with queue |]; unsplice).
Qed.

Lemma TAILQ_REPLACE_ok l1 x l2 x2 : A !! h = Some (l1 ++ x :: l2) -> free A x2 -> x2 ∈ E ->
  exists m', TQ.TAILQ_REPLACE h x x2 m = Done m' /\ represents TAILQ H E m' (<[h := l1 ++ x2 :: l2]> A).
Proof.
  intros Eh Hf Hx. elem x2 Hr Hx. hd h Hr Eh. position Hr Eh. pose proof (Hf _ _ Eh) as Hn. pose proof (h_nodup _ _ _ _ Hh) as Hnd.
  assert (tcell (first_of h) l1 <> next_of x2) as N1 by (apply tcell_ne; set_solver). assert (x2 <> x) as N2 by set_solver.
  unfold TQ.TAILQ_REPLACE. destruct l2 as [| z l2]; known; [| apply nodup_next in Hnd; assert (x2 <> z) by set_solver];
    (run; apply (represents_replace _ _ _ m _ A h l1 x); try done; [auto with queue |]; splice).
Qed.
End Tailq.

Section List_.
Context (Hr : represents LIST H E m A).

Lemma LIST_INIT_ok : h ∈ H -> exists m', LI.LIST_INIT h m = Done m' /\ represents LIST H E m' (<[h := []]> A).
Proof.
  intros Hh. destruct (ob_heads _ _ _ _ (rp_objects _ _ _ _ _ Hr) h Hh) as [O1 _].
  unfold LI.LIST_INIT. run. apply (represents_init _ _ _ m); try done; [auto with queue | | lk]. intros p Hp. split; lk.
Qed.

Lemma LIST_INSERT_HEAD_ok l x : A !! h = Some l -> free A x -> x ∈ E ->
  exists m', LI.LIST_INSERT_HEAD h x m = Done m' /\ represents LIST H E m' (<[h := x :: l]> A).
Proof.
  intros Eh Hf Hx. elem x Hr Hx. hd h Hr Eh. pose proof (Hf _ _ Eh) as Hn.
  destruct (holds_at _ _ _ [] l (rp_holds _ _ _ _ _ Hr _ _ Eh)) as [B1 B2]. rewrite tcell_nil in B1, B2. unfold LI.LIST_INSERT_HEAD.
  destruct l as [| y l]; known; [| assert (x <> y) by set_solver];
    (run; apply (represents_insert _ _ _ m _ A h []); try done; [auto with queue |]; rewrite ?tcell_nil; splice).
Qed.

Lemma LIST_INSERT_AFTER_ok l1 y l2 x : A !! h = Some (l1 ++ y :: l2) -> free A x -> x ∈ E ->
  exists m', LI.LIST_INSERT_AFTER y x m = Done m' /\ represents LIST H E m' (<[h := l1 ++ y :: x :: l2]> A).
Proof.
  intros Eh Hf Hx. elem x Hr Hx. pose proof (Hf _ _ Eh) as Hn. position Hr Eh. assert (x <> y) by set_solver.
  rewrite (cons_middle y l1 l2), app_assoc in Eh. rewrite (cons_middle y l1 (x :: l2)), app_assoc. unfold LI.LIST_INSERT_AFTER.
  destruct l2 as [| z l2]; known; [| assert (x <> z) by set_solver];
    (run; apply (represents_insert _ _ _ m); try done; [auto with queue |]; rewrite ?tcell_snoc; splice).
Qed.

Lemma LIST_INSERT_BEFORE_ok l1 y l2 x : A !! h = Some (l1 ++ y :: l2) -> free A x -> x ∈ E ->
  exists m', LI.LIST_INSERT_BEFORE y x m = Done m' /\ represents LIST H E m' (<[h := l1 ++ x :: y :: l2]> A).
Proof.
  intros Eh Hf Hx. position Hr Eh. elem x Hr Hx. pose proof (Hf _ _ Eh) as Hn.
  assert (tcell (first_of h) l1 <> next_of x) as N1 by (apply tcell_ne; set_solver). assert (x <> y) as N2 by set_solver.
  unfold LI.LIST_INSERT_BEFORE. run. apply (represents_insert _ _ _ m); try done; [auto with queue |]. splice.
Qed.

Lemma LIST_REMOVE_ok l1 x l2 : A !! h = Some (l1 ++ x :: l2) ->
  exists m', LI.LIST_REMOVE x m = Done m' /\ represents LIST H E m' (<[h := l1 ++ l2]> A).
Proof.
  intros Eh. position Hr Eh. pose proof (h_nodup _ _ _ _ Hh) as Hnd. unfold LI.LIST_REMOVE.
  destruct l2 as [| z l2]; known; [| apply nodup_next in Hnd];
    (run; apply (represents_remove _ _ _ m _ A h l1 x); try done; [auto with queue |]; unsplice).
Qed.

Lemma LIST_REPLACE_ok l1 x l2 x2 : A !! h = Some (l1 ++ x :: l2) -> free A x2 -> x2 ∈ E ->
  exists m', LI.LIST_REPLACE x x2 m = Done m' /\ represents LIST H E m' (<[h := l1 ++ x2 :: l2]> A).
Proof.
  intros Eh Hf Hx. elem x2 Hr Hx. position Hr Eh. pose proof (Hf _ _ Eh) as Hn. pose proof (h_nodup _ _ _ _ Hh) as Hnd.
  assert (tcell (first_of h) l1 <> next_of x2) as N1 by (apply tcell_ne; set_solver). assert (x2 <> x) as N2 by set_solver.
  unfold LI.LIST_REPLACE. destruct l2 as [| z l2]; known; [| apply nodup_next in Hnd; assert (x2 <> z) by set_solver];
    (run; apply (represents_replace _ _ _ m _ A h l1 x); try done; [auto with queue |]; splice).
Qed.
End List_.

Section Simpleq.
Context (Hr : represents SIMPLEQ H E m A).

Lemma SIMPLEQ_INIT_ok : h ∈ H -> exists m', SQ.SIMPLEQ_INIT h m = Done m' /\ represents SIMPLEQ H E m' (<[h := []]> A).
Proof.
  intros Hh. destruct (ob_heads _ _ _ _ (rp_objects _ _ _ _ _ Hr) h Hh) as [O1 O2]. specialize (O2 eq_refl).
  unfold SQ.SIMPLEQ_INIT. run. apply (represents_init _ _ _ m); try done; [auto with queue | | lk ..]. intros p Hp. split; lk.
Qed.

Lemma SIMPLEQ_INSERT_HEAD_ok l x : A !! h = Some l -> free A x -> x ∈ E ->
  exists m', SQ.SIMPLEQ_INSERT_HEAD h x m = Done m' /\ represents SIMPLEQ H E m' (<[h := x :: l]> A).
Proof.
  intros Eh Hf Hx. elem x Hr Hx. hd h Hr Eh. pose proof (Hf _ _ Eh) as Hn.
  destruct (holds_at _ _ _ [] l (rp_holds _ _ _ _ _ Hr _ _ Eh)) as [B1 B2]. rewrite tcell_nil in B1, B2. unfold SQ.SIMPLEQ_INSERT_HEAD.
  destruct l as [| y l]; known;
    (run; apply (represents_insert _ _ _ m _ A h []); try done; [auto with queue |]; rewrite ?tcell_nil; splice).
Qed.

Lemma SIMPLEQ_INSERT_TAIL_ok l x : A !! h = Some l -> free A x -> x ∈ E ->
  exists m', SQ.SIMPLEQ_INSERT_TAIL h x m = Done m' /\ represents SIMPLEQ H E m' (<[h := l ++ [x]]> A).
Proof.
  intros Eh Hf Hx. elem x Hr Hx. hd h Hr Eh. pose proof (Hf _ _ Eh) as Hn. rewrite <- (app_nil_r l) in Eh. position Hr Eh.
  assert (tcell (first_of h) l <> next_of x) as N1 by (apply tcell_ne; set_solver).
  unfold SQ.SIMPLEQ_INSERT_TAIL. run. apply (represents_insert _ _ _ m); try done; [auto with queue |]. splice.
Qed.

Lemma SIMPLEQ_INSERT_AFTER_ok l1 y l2 x : A !! h = Some (l1 ++ y :: l2) -> free A x -> x ∈ E ->
  exists m', SQ.SIMPLEQ_INSERT_AFTER h y x m = Done m' /\ represents SIMPLEQ H E m' (<[h := l1 ++ y :: x :: l2]> A).
Proof.
  intros Eh Hf Hx. elem x Hr Hx. hd h Hr Eh. pose proof (Hf _ _ Eh) as Hn. position Hr Eh. assert (x <> y) by set_solver.
  rewrite (cons_middle y l1 l2), app_assoc in Eh. rewrite (cons_middle y l1 (x :: l2)), app_assoc. unfold SQ.SIMPLEQ_INSERT_AFTER.
  destruct l2 as [| z l2]; known;
    (run; apply (represents_insert _ _ _ m); try done; [auto with queue |]; rewrite ?tcell_snoc; splice).
Qed.

Lemma SIMPLEQ_REMOVE_HEAD_ok x l : A !! h = Some (x :: l) ->
  exists m', SQ.SIMPLEQ_REMOVE_HEAD h m = Done m' /\ represents SIMPLEQ H E m' (<[h := l]> A).
Proof.
  intros Eh. hd h Hr Eh. destruct (holds_elm _ _ _ [] x l (rp_holds _ _ _ _ _ Hr _ _ Eh)) as (B1 & B2 & _ & B4). rewrite tcell_nil in B4.
  unfold SQ.SIMPLEQ_REMOVE_HEAD.
  destruct l as [| z l]; known;
    (run; apply (represents_remove _ _ _ m _ A h [] x); try done; [auto with queue |]; rewrite ?tcell_nil; unsplice).
Qed.

Lemma SIMPLEQ_REMOVE_AFTER_ok l1 y x l2 : A !! h = Some (l1 ++ y :: x :: l2) ->
  exists m', SQ.SIMPLEQ_REMOVE_AFTER h y m = Done m' /\ represents SIMPLEQ H E m' (<[h := l1 ++ y :: l2]> A).
Proof.
  intros Eh. hd h Hr Eh. rewrite (cons_middle y l1 (x :: l2)), app_assoc in Eh. rewrite (cons_middle y l1 l2), app_assoc. position Hr Eh.
  rewrite tcell_snoc in *. unfold SQ.SIMPLEQ_REMOVE_AFTER.
  destruct l2 as [| z l2]; known;
    (run; apply (represents_remove _ _ _ m _ A h (l1 ++ [y]) x); try done; [auto with queue |]; rewrite ?tcell_snoc; unsplice).
Qed.
End Simpleq.

Section Slist.
Context (Hr : represents SLIST H E m A).

Lemma SLIST_INIT_ok : h ∈ H -> exists m', SL.SLIST_INIT h m = Done m' /\ represents SLIST H E m' (<[h := []]> A).
Proof.
  intros Hh. destruct (ob_heads _ _ _ _ (rp_objects _ _ _ _ _ Hr) h Hh) as [O1 _].
  unfold SL.SLIST_INIT. run. apply (represents_init _ _ _ m); try done; [auto with queue | | lk]. intros p Hp. split; lk.
Qed.

Lemma SLIST_INSERT_HEAD_ok l x : A !! h = Some l -> free A x -> x ∈ E ->
  exists m', SL.SLIST_INSERT_HEAD h x m = Done m' /\ represents SLIST H E m' (<[h := x :: l]> A).
Proof.
  intros Eh Hf Hx. elem x Hr Hx. hd h Hr Eh. destruct (holds_at _ _ _ [] l (rp_holds _ _ _ _ _ Hr _ _ Eh)) as [B1 _]. rewrite tcell_nil in B1.
  unfold SL.SLIST_INSERT_HEAD. run. apply (represents_insert _ _ _ m _ A h []); try done; [auto with queue |]. rewrite ?tcell_nil. destruct l; splice.
Qed.

Lemma SLIST_INSERT_AFTER_ok l1 y l2 x : A !! h = Some (l1 ++ y :: l2) -> free A x -> x ∈ E ->
  exists m', SL.SLIST_INSERT_AFTER y x m = Done m' /\ represents SLIST H E m' (<[h := l1 ++ y :: x :: l2]> A).
Proof.
  intros Eh Hf Hx. elem x Hr Hx. pose proof (Hf _ _ Eh) as Hn. position Hr Eh. assert (x <> y) by set_solver.
  rewrite (cons_middle y l1 l2), app_assoc in Eh. rewrite (cons_middle y l1 (x :: l2)), app_assoc. unfold SL.SLIST_INSERT_AFTER.
  run. apply (represents_insert _ _ _ m); try done; [auto with queue |]. rewrite ?tcell_snoc. destruct l2; splice.
Qed.

Lemma SLIST_REMOVE_HEAD_ok x l : A !! h = Some (x :: l) ->
  exists m', SL.SLIST_REMOVE_HEAD h m = Done m' /\ represents SLIST H E m' (<[h := l]> A).
Proof.
  intros Eh. hd h Hr Eh. destruct (holds_elm _ _ _ [] x l (rp_holds _ _ _ _ _ Hr _ _ Eh)) as (B1 & _ & _ & B4). rewrite tcell_nil in B4.
  unfold SL.SLIST_REMOVE_HEAD. run. apply (represents_remove _ _ _ m _ A h [] x); try done; [auto with queue |]. rewrite ?tcell_nil. destruct l; unsplice.
Qed.

Lemma SLIST_REMOVE_AFTER_ok l1 y x l2 : A !! h = Some (l1 ++ y :: x :: l2) ->
  exists m', SL.SLIST_REMOVE_AFTER y m = Done m' /\ represents SLIST H E m' (<[h := l1 ++ y :: l2]> A).
Proof.
  intros Eh. rewrite (cons_middle y l1 (x :: l2)), app_assoc in Eh. rewrite (cons_middle y l1 l2), app_assoc. position Hr Eh.
  rewrite tcell_snoc in *. unfold SL.SLIST_REMOVE_AFTER, SL.SLIST_NEXT.
  run. apply (represents_remove _ _ _ m _ A h (l1 ++ [y]) x); try done; [auto with queue |]. rewrite ?tcell_snoc. destruct l2; unsplice.
Qed.
End Slist.
End Ops.

(** ** Searching, joining *)
Lemma find_before_seg fam m x : forall l f fuel b, seg fam m (next_of f) (l ++ [x]) b -> (x ∉ l) -> (length l <= fuel)%nat ->
  find_before fuel f x m = Done (default f (last l)).
Proof.
  induction l as [| y l IH]; intros f fuel b (E1 & _ & Hs) Hx Hlen.
  - destruct fuel; cbn [find_before]; rewrite (load_eq _ _ _ E1), Done_bind, decide_True by done; done.
  - destruct fuel as [| fuel]; [cbn in Hlen; lia |]. cbn [find_before]. rewrite (load_eq _ _ _ E1), Done_bind, decide_False by (intros [= ->]; apply Hx; by left).
    cbn [of_option]. rewrite Done_bind, (IH y fuel b Hs); [rewrite last_cons; by destruct (last l) | set_solver | cbn in Hlen; lia].
Qed.

Section Search.
Context (fam : family) (H E : list Z) (m : qmem) (A : gmap Z (list Z)) (h : Z) (Hr : represents fam H E m A).

Lemma list_bound l : A !! h = Some l -> (length l <= length E)%nat.
Proof.
  intros Eh. apply submseteq_length, NoDup_submseteq; [apply (h_nodup _ _ _ _ (rp_holds _ _ _ _ _ Hr _ _ Eh)) |]. apply (rp_in _ _ _ _ _ Hr _ _ Eh).
Qed.

(** The element that is not the first is found behind another. *)
Lemma find_ok l1 x l2 fuel : A !! h = Some (l1 ++ x :: l2) -> (length E <= fuel)%nat -> l1 <> [] ->
  exists f c l0, head (l1 ++ x :: l2) = Some f /\ f <> x /\ l1 = l0 ++ [c] /\ find_before fuel f x m = Done c.
Proof.
  intros Eh Hfuel Hne. pose proof (list_bound _ Eh) as Hlen. rewrite length_app in Hlen.
  pose proof (rp_holds _ _ _ _ _ Hr _ _ Eh) as [Hs _ _ Hnd]. destruct l1 as [| f k]; [done |]. cbn [app] in *. apply NoDup_cons in Hnd as [Hf Hnd].
  exists f. rewrite (cons_middle x k l2), app_assoc in Hs. cbn [seg] in Hs. destruct Hs as (_ & _ & Hs). rewrite seg_app in Hs. destruct Hs as [Hs _].
  apply NoDup_app in Hnd as (_ & Hnd & _). assert (x ∉ k) as Hx by (intros Hx; apply (Hnd x Hx); by left).
  pose proof (find_before_seg fam m x k f fuel _ Hs Hx ltac:(cbn in Hlen; lia)) as Hfind.
  destruct k as [| c k _] using rev_ind; [exists f, [] | exists c, (f :: k)]; (split; [done |]); (split; [set_solver |]); (split; [done |]); [done |].
  by rewrite last_snoc in Hfind.
Qed.
End Search.

Lemma SLIST_REMOVE_ok H E m A h l1 x l2 fuel : represents SLIST H E m A -> A !! h = Some (l1 ++ x :: l2) -> (length E <= fuel)%nat ->
  exists m', SL.SLIST_REMOVE fuel h x m = Done m' /\ represents SLIST H E m' (<[h := l1 ++ l2]> A).
Proof.
  intros Hr Eh Hfuel. destruct (holds_at _ _ _ [] _ (rp_holds _ _ _ _ _ Hr _ _ Eh)) as [B1 _]. rewrite tcell_nil in B1.
  unfold SL.SLIST_REMOVE. rewrite (load_eq _ _ _ B1), Done_bind. destruct (decide (l1 = [])) as [-> | Hne].
  - rewrite decide_True by done. by apply (SLIST_REMOVE_HEAD_ok H E m A h Hr x).
  - destruct (find_ok _ _ _ _ _ _ Hr l1 x l2 fuel Eh Hfuel Hne) as (f & c & l0 & E1 & Hfx & -> & E2). rewrite E1, decide_False by congruence.
    cbn [of_option]. rewrite Done_bind, E2, Done_bind. rewrite <- app_assoc in Eh |- *.
    destruct (SLIST_REMOVE_AFTER_ok H E m A h Hr l0 c x l2 Eh) as (m' & Em & Hm). exists m'. split; [| done]. rewrite <- Em.
    position Hr Eh. unfold SL.SLIST_REMOVE_AFTER, SL.SLIST_NEXT. by rewrite (load_eq _ _ _ H0).
Qed.

Lemma SIMPLEQ_REMOVE_ok H E m A h l1 x l2 fuel : represents SIMPLEQ H E m A -> A !! h = Some (l1 ++ x :: l2) -> (length E <= fuel)%nat ->
  exists m', SQ.SIMPLEQ_REMOVE fuel h x m = Done m' /\ represents SIMPLEQ H E m' (<[h := l1 ++ l2]> A).
Proof.
  intros Hr Eh Hfuel. destruct (holds_at _ _ _ [] _ (rp_holds _ _ _ _ _ Hr _ _ Eh)) as [B1 _]. rewrite tcell_nil in B1.
  unfold SQ.SIMPLEQ_REMOVE. rewrite (load_eq _ _ _ B1), Done_bind. destruct (decide (l1 = [])) as [-> | Hne].
  - rewrite decide_True by done. by apply (SIMPLEQ_REMOVE_HEAD_ok H E m A h Hr x).
  - destruct (find_ok _ _ _ _ _ _ Hr l1 x l2 fuel Eh Hfuel Hne) as (f & c & l0 & E1 & Hfx & -> & E2). rewrite E1, decide_False by congruence.
    cbn [of_option]. rewrite Done_bind, E2, Done_bind. rewrite <- app_assoc in Eh |- *.
    by apply (SIMPLEQ_REMOVE_AFTER_ok H E m A h Hr l0 c x l2 Eh).
Qed.

(** The elements of [h2], which is forgotten, are linked behind those of
    [h1]. *)
Section Concat.
Context (fam : family) (H E : list Z) (m m1 : qmem) (A : gmap Z (list Z)) (h1 h2 : Z) (l1 : list Z) (y : Z) (k : list Z).
Context (Hr : represents fam H E m A) (E1 : A !! h1 = Some l1) (E2 : A !! h2 = Some (y :: k)) (Hne : h1 <> h2) (Hlast : has_last fam = true).
Context (M1 : nx m1 = <[tcell (first_of h1) l1 := Some y]> (nx m))
  (M2 : bk m1 = <[first_of h1 := tcell (first_of h2) (y :: k)]> (if has_prev fam then <[next_of y := tcell (first_of h1) l1]> (bk m) else bk m)).

Lemma concat_disj x : x ∈ l1 -> x ∉ y :: k.
Proof. intros Hx Hx2. apply Hne. by apply (rp_disj _ _ _ _ _ Hr _ _ _ _ x E1 E2). Qed.

Lemma concat_cell x : x ∈ y :: k -> tcell (first_of h1) l1 <> next_of x.
Proof. intros Hx. apply tcell_ne. intros Hx1. by apply (concat_disj x). Qed.

Lemma concat_end h : tcell (first_of h) (y :: k) = tcell (next_of y) k.
Proof. apply tcell_cons. Qed.

Lemma concat_spliced : spliced fam m m1 h1 l1 (y :: k) [].
Proof.
  pose proof (rp_holds _ _ _ _ _ Hr _ _ E2) as [(S1 & S2 & S3) He Hl Hnd]. rewrite concat_end in *.
  assert (forall x, x ∈ y :: k -> nx m1 !! next_of x = nx m !! next_of x) as Hnx.
  { intros x Hx. rewrite M1. apply lookup_insert_ne. by apply concat_cell. }
  assert (tcell (first_of h1) (l1 ++ y :: k) = tcell (next_of y) k) as Et by (by rewrite tcell_app, tcell_cons).
  split; rewrite ?Et; cbn [has_back back_cell head].
  - intros p Hp _. rewrite M1. by apply lookup_insert_ne.
  - intros p Hp Hb. rewrite M2, lookup_insert_ne by (intros <-; by apply Hb). destruct (has_prev fam); [| done]. apply lookup_insert_ne. intros <-. apply Hp. by left.
  - cbn [seg]. split; [by rewrite M1, lookup_insert_eq |]. split.
    + intros Hp. by rewrite M2, Hp, lookup_insert_ne, lookup_insert_eq by done.
    + apply (seg_frame fam m); [| | | done].
      * apply (NoDup_fmap_2 next_of (y :: k)). done.
      * intros p Hp _. change (next_of y :: (next_of <$> k)) with (next_of <$> y :: k) in Hp. apply list_elem_of_fmap in Hp as (x & -> & Hx). by apply Hnx.
      * intros x Hx. rewrite M2, lookup_insert_ne by done. destruct (has_prev fam); [| done]. apply lookup_insert_ne.
        intros [= ->]. by apply NoDup_cons in Hnd as [? _].
  - destruct (tcell_in (next_of y) k) as [[-> ->] | (x & Hx & Ex)]; [rewrite Hnx by set_solver; done |]. rewrite Ex in *. rewrite Hnx by set_solver. done.
  - intros _. by rewrite M2, lookup_insert_eq.
Qed.

Lemma concat_represents : same_cells m m1 -> represents fam H E m1 (<[h1 := l1 ++ y :: k]> (delete h2 A)).
Proof.
  intros Hs. pose proof (represents_delete _ _ _ _ _ h2 Hr) as Hd.
  pose proof (h_nodup _ _ _ _ (rp_holds _ _ _ _ _ Hr _ _ E1)) as Hn1. pose proof (h_nodup _ _ _ _ (rp_holds _ _ _ _ _ Hr _ _ E2)) as Hn2.
  replace (l1 ++ y :: k) with (l1 ++ (y :: k) ++ []) by (by rewrite app_nil_r).
  apply (represents_spliced fam H E m m1 (delete h2 A) h1 l1 [] (y :: k) []); try done.
  - rewrite lookup_delete_ne by done. by rewrite app_nil_r.
  - rewrite app_nil_r. apply NoDup_app. split_and!; try done. apply concat_disj.
  - intros x Hx. split; [by apply (rp_in _ _ _ _ _ Hr _ _ E2) |]. right. intros h l [Hh El]%lookup_delete_Some Hxl.
    apply Hh. by apply (rp_disj _ _ _ _ _ Hr _ _ _ _ x E2 El).
  - apply concat_spliced.
Qed.
End Concat.

Lemma concat_map (A : gmap Z (list Z)) h1 h2 l : h1 <> h2 -> <[h2 := []]> (<[h1 := l]> (delete h2 A)) = <[h2 := []]> (<[h1 := l]> A).
Proof. intros Hne. by rewrite <- delete_insert_ne, insert_delete_eq by done. Qed.

Lemma TAILQ_CONCAT_ok H E m A h1 h2 l1 l2 : represents TAILQ H E m A -> A !! h1 = Some l1 -> A !! h2 = Some l2 -> h1 <> h2 ->
  exists m', TQ.TAILQ_CONCAT h1 h2 m = Done m' /\ represents TAILQ H E m' (<[h2 := []]> (<[h1 := l1 ++ l2]> A)).
Proof.
  intros Hr E1 E2 Hne. hd h1 Hr E1. destruct (holds_at _ _ _ [] _ (rp_holds _ _ _ _ _ Hr _ _ E2)) as [B1 _]. rewrite tcell_nil in B1.
  unfold TQ.TAILQ_CONCAT, TQ.TAILQ_EMPTY, TQ.TAILQ_FIRST. rewrite (load_eq _ _ _ B1), !Done_bind. destruct l2 as [| y k]; cbn [head] in *.
  - rewrite bool_decide_eq_true_2 by done. exists m. split; [done |]. rewrite app_nil_r, (insert_id A h1), insert_id by done. done.
  - rewrite bool_decide_eq_false_2 by done.
    pose proof (rp_holds _ _ _ _ _ Hr _ _ E1) as [_ F1 F2 _]. pose proof (rp_holds _ _ _ _ _ Hr _ _ E2) as [(_ & F3 & _) _ F4 _]. known.
    assert (tcell (first_of h1) l1 <> first_of h2) as N1.
    { intros Ht. destruct (tcell_in (first_of h1) l1) as [[E' _] | (z & _ & E')]; rewrite E' in Ht; congruence. }
    repeat acc. match goal with |- context [TQ.TAILQ_INIT h2 ?mm] => assert (represents TAILQ H E mm (<[h1 := l1 ++ y :: k]> (delete h2 A))) as Hc end.
    { apply (concat_represents TAILQ H E m); try done. auto with queue. }
    destruct (TAILQ_INIT_ok H E _ _ h2 Hc) as (m' & Em & Hm); [apply (rp_in _ _ _ _ _ Hr _ _ E2) |].
    exists m'. split; [exact Em |]. by rewrite concat_map in Hm.
Qed.

Lemma SIMPLEQ_CONCAT_ok H E m A h1 h2 l1 l2 : represents SIMPLEQ H E m A -> A !! h1 = Some l1 -> A !! h2 = Some l2 -> h1 <> h2 ->
  exists m', SQ.SIMPLEQ_CONCAT h1 h2 m = Done m' /\ represents SIMPLEQ H E m' (<[h2 := []]> (<[h1 := l1 ++ l2]> A)).
Proof.
  intros Hr E1 E2 Hne. hd h1 Hr E1. destruct (holds_at _ _ _ [] _ (rp_holds _ _ _ _ _ Hr _ _ E2)) as [B1 _]. rewrite tcell_nil in B1.
  unfold SQ.SIMPLEQ_CONCAT, SQ.SIMPLEQ_EMPTY. rewrite (load_eq _ _ _ B1), !Done_bind. destruct l2 as [| y k]; cbn [head] in *.
  - rewrite bool_decide_eq_true_2 by done. exists m. split; [done |]. rewrite app_nil_r, (insert_id A h1), insert_id by done. done.
  - rewrite bool_decide_eq_false_2 by done.
    pose proof (rp_holds _ _ _ _ _ Hr _ _ E1) as [_ F1 F2 _]. pose proof (rp_holds _ _ _ _ _ Hr _ _ E2) as [_ _ F4 _]. known.
    repeat acc. match goal with |- context [SQ.SIMPLEQ_INIT h2 ?mm] => assert (represents SIMPLEQ H E mm (<[h1 := l1 ++ y :: k]> (delete h2 A))) as Hc end.
    { apply (concat_represents SIMPLEQ H E m); try done. auto with queue. }
    destruct (SIMPLEQ_INIT_ok H E _ _ h2 Hc) as (m' & Em & Hm); [apply (rp_in _ _ _ _ _ Hr _ _ E2) |].
    exists m'. split; [exact Em |]. by rewrite concat_map in Hm.
Qed.

(** ** Looking at a list *)
Section Look.
Context (fam : family) (m : qmem) (h : Z).

Lemma foreach_at l2 : forall l1 fuel, holds fam m h (l1 ++ l2) -> (length l2 <= fuel)%nat -> foreach fuel (head l2) m = Done l2.
Proof.
  induction l2 as [| y l2 IH]; intros l1 fuel Hh Hlen; [by destruct fuel |]. destruct fuel as [| fuel]; [cbn in Hlen; lia |].
  destruct (holds_elm _ _ _ _ _ _ Hh) as (E1 & _). cbn [head foreach]. rewrite (load_eq _ _ _ E1), Done_bind.
  rewrite (cons_middle y l1 l2), app_assoc in Hh. rewrite (IH _ _ Hh) by (cbn in Hlen; lia). done.
Qed.

(** Behind the cell of a position lies the pointer to the cell before. *)
Lemma prev_at l1 l2 : fam = TAILQ -> holds fam m h (l1 ++ l2) -> (p ← loadb (tcell (first_of h) l1) m; load p m) = Done (last l1).
Proof.
  intros -> Hh. destruct l1 as [| z l1 _] using rev_ind.
  - destruct Hh as [_ H2 H3 _]. rewrite tcell_nil, (loadb_eq _ _ _ (H3 eq_refl)), Done_bind. by apply load_eq.
  - rewrite <- app_assoc in Hh. destruct (holds_elm _ _ _ _ _ _ Hh) as (_ & _ & E3 & E4).
    rewrite tcell_snoc, last_snoc, (loadb_eq _ _ _ (E3 eq_refl)), Done_bind. by apply load_eq.
Qed.

Lemma reverse_at l1 : forall l2 fuel, fam = TAILQ -> holds fam m h (l1 ++ l2) -> (length l1 <= fuel)%nat -> TQ.reverse_loop fuel (last l1) m = Done (reverse l1).
Proof.
  induction l1 as [| z l1 IH] using rev_ind; intros l2 fuel Hf Hh Hlen; [by destruct fuel |].
  rewrite length_app in Hlen. cbn in Hlen. destruct fuel as [| fuel]; [lia |]. rewrite last_snoc. cbn [TQ.reverse_loop]. rewrite <- app_assoc in Hh.
  pose proof (prev_at l1 ([z] ++ l2) Hf Hh) as Hp. destruct (holds_elm _ _ _ _ _ _ Hh) as (_ & _ & E3 & _). rewrite Hf in E3.
  unfold TQ.TAILQ_PREV. rewrite (loadb_eq _ _ _ (E3 eq_refl)), Done_bind, Hp, Done_bind, (IH _ _ Hf Hh), Done_bind by lia. by rewrite reverse_snoc.
Qed.
End Look.

(** The safe loop, when the body removes elements. *)
Section Safe.
Context (fam : family) (H E : list Z) (h : Z) (P : Z -> bool) (rm : Z -> qmem -> outcome qmem).
Context (Hrm : forall m A l1 x l2, represents fam H E m A -> A !! h = Some (l1 ++ x :: l2) ->
  exists m', rm x m = Done m' /\ represents fam H E m' (<[h := l1 ++ l2]> A)).

Lemma foreach_safe_ok l2 : forall fuel l1 m A, represents fam H E m A -> A !! h = Some (l1 ++ l2) -> (length l2 <= fuel)%nat ->
  exists m', foreach_safe fuel (fun x m => if P x then rm x m else Done m) (head l2) m = Done m' /\
    represents fam H E m' (<[h := l1 ++ filter (fun x => P x = false) l2]> A).
Proof.
  induction l2 as [| y l2 IH]; intros fuel l1 m A Hr Eh Hlen.
  - exists m. split; [by destruct fuel |]. cbn. by rewrite insert_id.
  - destruct fuel as [| fuel]; [cbn in Hlen; lia |]. destruct (holds_elm _ _ _ _ _ _ (rp_holds _ _ _ _ _ Hr _ _ Eh)) as (E1 & _).
    cbn [head foreach_safe]. rewrite (load_eq _ _ _ E1), Done_bind. destruct (P y) eqn:Ep.
    + destruct (Hrm m A l1 y l2 Hr Eh) as (m1 & -> & Hr1). rewrite Done_bind, filter_cons_False by congruence.
      destruct (IH fuel l1 m1 (<[h := l1 ++ l2]> A) Hr1) as (m' & -> & Hr'); [apply lookup_insert_eq | cbn in Hlen; lia |].
      exists m'. split; [done |]. by rewrite insert_insert_eq in Hr'.
    + rewrite Done_bind, filter_cons_True by done. rewrite (cons_middle y l1 l2), app_assoc in Eh.
      destruct (IH fuel (l1 ++ [y]) m A Hr Eh) as (m' & -> & Hr'); [cbn in Hlen; lia |]. exists m'. split; [done |]. by rewrite <- app_assoc in Hr'.
Qed.
End Safe.

(** ** Operations on lists, and what they mean *)
Inductive qop :=
  | Init (h : Z) | InsertHead (h x : Z) | InsertTail (h x : Z) | InsertAfter (h y x : Z) | InsertBefore (h y x : Z)
  | RemoveHead (h : Z) | RemoveAfter (h y : Z) | Remove (h x : Z) | Replace (h x x2 : Z) | Concat (h1 h2 : Z)
  | RemoveIf (h : Z) (P : Z -> bool).   (** the safe loop, with removals in its body *)

Definition qexec (fam : family) (fuel : nat) (op : qop) (m : qmem) : outcome qmem :=
  match fam, op with
  | SLIST, RemoveIf h P => SL.SLIST_FOREACH_SAFE fuel h (fun x m => if P x then SL.SLIST_REMOVE fuel h x m else Done m) m
  | SLIST, Init h => SL.SLIST_INIT h m
  | SLIST, InsertHead h x => SL.SLIST_INSERT_HEAD h x m
  | SLIST, InsertAfter _ y x => SL.SLIST_INSERT_AFTER y x m
  | SLIST, RemoveHead h => SL.SLIST_REMOVE_HEAD h m
  | SLIST, RemoveAfter _ y => SL.SLIST_REMOVE_AFTER y m
  | SLIST, Remove h x => SL.SLIST_REMOVE fuel h x m
  | LIST, RemoveIf h P => LI.LIST_FOREACH_SAFE fuel h (fun x m => if P x then LI.LIST_REMOVE x m else Done m) m
  | LIST, Init h => LI.LIST_INIT h m
  | LIST, InsertHead h x => LI.LIST_INSERT_HEAD h x m
  | LIST, InsertAfter _ y x => LI.LIST_INSERT_AFTER y x m
  | LIST, InsertBefore _ y x => LI.LIST_INSERT_BEFORE y x m
  | LIST, Remove _ x => LI.LIST_REMOVE x m
  | LIST, Replace _ x x2 => LI.LIST_REPLACE x x2 m
  | SIMPLEQ, RemoveIf h P => SQ.SIMPLEQ_FOREACH_SAFE fuel h (fun x m => if P x then SQ.SIMPLEQ_REMOVE fuel h x m else Done m) m
  | SIMPLEQ, Init h => SQ.SIMPLEQ_INIT h m
  | SIMPLEQ, InsertHead h x => SQ.SIMPLEQ_INSERT_HEAD h x m
  | SIMPLEQ, InsertTail h x => SQ.SIMPLEQ_INSERT_TAIL h x m
  | SIMPLEQ, InsertAfter h y x => SQ.SIMPLEQ_INSERT_AFTER h y x m
  | SIMPLEQ, RemoveHead h => SQ.SIMPLEQ_REMOVE_HEAD h m
  | SIMPLEQ, RemoveAfter h y => SQ.SIMPLEQ_REMOVE_AFTER h y m
  | SIMPLEQ, Remove h x => SQ.SIMPLEQ_REMOVE fuel h x m
  | SIMPLEQ, Concat h1 h2 => SQ.SIMPLEQ_CONCAT h1 h2 m
  | TAILQ, RemoveIf h P => TQ.TAILQ_FOREACH_SAFE fuel h (fun x m => if P x then TQ.TAILQ_REMOVE h x m else Done m) m
  | TAILQ, Init h => TQ.TAILQ_INIT h m
  | TAILQ, InsertHead h x => TQ.TAILQ_INSERT_HEAD h x m
  | TAILQ, InsertTail h x => TQ.TAILQ_INSERT_TAIL h x m
  | TAILQ, InsertAfter h y x => TQ.TAILQ_INSERT_AFTER h y x m
  | TAILQ, InsertBefore _ y x => TQ.TAILQ_INSERT_BEFORE y x m
  | TAILQ, Remove h x => TQ.TAILQ_REMOVE h x m
  | TAILQ, Replace h x x2 => TQ.TAILQ_REPLACE h x x2 m
  | TAILQ, Concat h1 h2 => TQ.TAILQ_CONCAT h1 h2 m
  | _, _ => Undef "the family has no such operation"
  end.
Fixpoint qrun (fam : family) (fuel : nat) (ops : list qop) (m : qmem) : outcome qmem :=
  match ops with [] => Done m | op :: ops => m ← qexec fam fuel op m; qrun fam fuel ops m end.

(** The same on sequences.  An element that is inserted is on no list, and the
    element an operation names is on the list. *)
Section Meaning.
Context (fam : family) (H E : list Z).

Inductive qstep (A : gmap Z (list Z)) : qop -> gmap Z (list Z) -> Prop :=
  | q_init h : h ∈ H -> qstep A (Init h) (<[h := []]> A)
  | q_head h l x : A !! h = Some l -> free A x -> x ∈ E -> qstep A (InsertHead h x) (<[h := x :: l]> A)
  | q_tail h l x : has_last fam = true -> A !! h = Some l -> free A x -> x ∈ E -> qstep A (InsertTail h x) (<[h := l ++ [x]]> A)
  | q_after h l1 y l2 x : A !! h = Some (l1 ++ y :: l2) -> free A x -> x ∈ E -> qstep A (InsertAfter h y x) (<[h := l1 ++ y :: x :: l2]> A)
  | q_before h l1 y l2 x : has_prev fam = true -> A !! h = Some (l1 ++ y :: l2) -> free A x -> x ∈ E ->
      qstep A (InsertBefore h y x) (<[h := l1 ++ x :: y :: l2]> A)
  | q_remove_head h x l : has_prev fam = false -> A !! h = Some (x :: l) -> qstep A (RemoveHead h) (<[h := l]> A)
  | q_remove_after h l1 y x l2 : has_prev fam = false -> A !! h = Some (l1 ++ y :: x :: l2) -> qstep A (RemoveAfter h y) (<[h := l1 ++ y :: l2]> A)
  | q_remove h l1 x l2 : A !! h = Some (l1 ++ x :: l2) -> qstep A (Remove h x) (<[h := l1 ++ l2]> A)
  | q_replace h l1 x l2 x2 : has_prev fam = true -> A !! h = Some (l1 ++ x :: l2) -> free A x2 -> x2 ∈ E ->
      qstep A (Replace h x x2) (<[h := l1 ++ x2 :: l2]> A)
  | q_concat h1 h2 l1 l2 : has_last fam = true -> A !! h1 = Some l1 -> A !! h2 = Some l2 -> h1 <> h2 ->
      qstep A (Concat h1 h2) (<[h2 := []]> (<[h1 := l1 ++ l2]> A))
  | q_remove_if h l P : A !! h = Some l -> qstep A (RemoveIf h P) (<[h := filter (fun x => P x = false) l]> A).

Inductive qsteps : gmap Z (list Z) -> list qop -> gmap Z (list Z) -> Prop :=
  | qs_nil A : qsteps A [] A
  | qs_cons A op A1 ops A2 : qstep A op A1 -> qsteps A1 ops A2 -> qsteps A (op :: ops) A2.

#[local] Hint Resolve SLIST_INIT_ok SLIST_INSERT_HEAD_ok SLIST_INSERT_AFTER_ok SLIST_REMOVE_HEAD_ok SLIST_REMOVE_AFTER_ok SLIST_REMOVE_ok
  LIST_INIT_ok LIST_INSERT_HEAD_ok LIST_INSERT_AFTER_ok LIST_INSERT_BEFORE_ok LIST_REMOVE_ok LIST_REPLACE_ok
  SIMPLEQ_INIT_ok SIMPLEQ_INSERT_HEAD_ok SIMPLEQ_INSERT_TAIL_ok SIMPLEQ_INSERT_AFTER_ok SIMPLEQ_REMOVE_HEAD_ok SIMPLEQ_REMOVE_AFTER_ok
  SIMPLEQ_REMOVE_ok SIMPLEQ_CONCAT_ok TAILQ_INIT_ok TAILQ_INSERT_HEAD_ok TAILQ_INSERT_TAIL_ok TAILQ_INSERT_AFTER_ok TAILQ_INSERT_BEFORE_ok
  TAILQ_REMOVE_ok TAILQ_REPLACE_ok TAILQ_CONCAT_ok : queue.

Lemma remove_if_ok fuel m A h l P : represents fam H E m A -> (length E <= fuel)%nat -> A !! h = Some l ->
  exists m', qexec fam fuel (RemoveIf h P) m = Done m' /\ represents fam H E m' (<[h := filter (fun x => P x = false) l]> A).
Proof.
  intros Hr Hfuel Eh. pose proof (list_bound _ _ _ _ _ _ Hr l Eh) as Hlen.
  destruct (holds_at _ _ _ [] l (rp_holds _ _ _ _ _ Hr _ _ Eh)) as [B1 _]. rewrite tcell_nil in B1.
  assert (forall rm : Z -> qmem -> outcome qmem,
    (forall m A l1 x l2, represents fam H E m A -> A !! h = Some (l1 ++ x :: l2) -> exists m', rm x m = Done m' /\ represents fam H E m' (<[h := l1 ++ l2]> A)) ->
    exists m', (v ← load (first_of h) m; foreach_safe fuel (fun x m => if P x then rm x m else Done m) v m) = Done m' /\
      represents fam H E m' (<[h := filter (fun x => P x = false) l]> A)) as Hgo.
  { intros rm Hrm. rewrite (load_eq _ _ _ B1), Done_bind. apply (foreach_safe_ok fam H E h P rm Hrm l fuel []); [done | done | lia]. }
  destruct fam; apply Hgo; intros; eauto with queue.
Qed.
#[local] Hint Resolve remove_if_ok : queue.

Lemma qexec_ok fuel m A op A' : represents fam H E m A -> (length E <= fuel)%nat -> qstep A op A' ->
  exists m', qexec fam fuel op m = Done m' /\ represents fam H E m' A'.
Proof. intros Hr Hfuel Hs. destruct Hs; try (by apply remove_if_ok); destruct fam; try discriminate; cbn [qexec]; eauto with queue. Qed.

Lemma qrun_ok fuel ops : forall m A A', represents fam H E m A -> (length E <= fuel)%nat -> qsteps A ops A' ->
  exists m', qrun fam fuel ops m = Done m' /\ represents fam H E m' A'.
Proof.
  induction ops as [| op ops IH]; intros m A A' Hr Hfuel Hs; inversion Hs; subst; cbn [qrun]; [eauto |].
  destruct (qexec_ok fuel m A op A1 Hr Hfuel ltac:(done)) as (m1 & -> & Hr1). rewrite Done_bind. by apply (IH m1 A1).
Qed.
End Meaning.

(** The queries of a family. *)
Definition qforeach (fam : family) (fuel : nat) (h : Z) (m : qmem) : outcome (list Z) :=
  match fam with
  | SLIST => SL.SLIST_FOREACH fuel h m | LIST => LI.LIST_FOREACH fuel h m
  | SIMPLEQ => SQ.SIMPLEQ_FOREACH fuel h m | TAILQ => TQ.TAILQ_FOREACH fuel h m
  end.
Definition qempty (fam : family) (h : Z) (m : qmem) : outcome bool :=
  match fam with SLIST => SL.SLIST_EMPTY h m | LIST => LI.LIST_EMPTY h m | SIMPLEQ => SQ.SIMPLEQ_EMPTY h m | TAILQ => TQ.TAILQ_EMPTY h m end.
Definition qlast (fam : family) (h : Z) (m : qmem) : outcome (option Z) :=
  match fam with SIMPLEQ => SQ.SIMPLEQ_LAST h m | TAILQ => TQ.TAILQ_LAST h m | _ => Undef "no last pointer" end.

(** What the queries answer for the list [l]. *)
Record shows (fam : family) (fuel : nat) (m : qmem) (h : Z) (l : list Z) : Prop := {
  sh_foreach : qforeach fam fuel h m = Done l;
  sh_empty : qempty fam h m = Done (bool_decide (l = []));
  sh_last : has_last fam = true -> qlast fam h m = Done (last l);
  sh_next : forall l1 y l2, l = l1 ++ y :: l2 -> load (next_of y) m = Done (head l2);
  sh_prev : fam = TAILQ -> forall l1 y l2, l = l1 ++ y :: l2 -> TQ.TAILQ_PREV y m = Done (last l1);
  sh_reverse : fam = TAILQ -> TQ.TAILQ_FOREACH_REVERSE fuel h m = Done (reverse l)
}.

Lemma holds_shows fam fuel m h l : holds fam m h l -> (length l <= fuel)%nat -> shows fam fuel m h l.
Proof.
  intros Hh Hlen. destruct (holds_at _ _ _ [] l Hh) as [B1 _]. rewrite tcell_nil in B1.
  assert (fam = TAILQ -> TQ.TAILQ_LAST h m = Done (last l)) as Hlast.
  { intros ->. unfold TQ.TAILQ_LAST. rewrite (loadb_eq _ _ _ (h_last _ _ _ _ Hh eq_refl)), Done_bind. apply (prev_at TAILQ m h l []); [done |]. by rewrite app_nil_r. }
  split.
  - assert (forall (o : outcome (option Z)), o = load (first_of h) m -> o ≫= (fun v => foreach fuel v m) = Done l) as Hf
      by (intros o ->; rewrite (load_eq _ _ _ B1), Done_bind; by apply (foreach_at fam m h l [])).
    destruct fam; by apply Hf.
  - assert (forall (o : outcome (option Z)), o = load (first_of h) m -> o ≫= (fun v => Done (bool_decide (v = None))) = Done (bool_decide (l = []))) as Hf
      by (intros o ->; rewrite (load_eq _ _ _ B1), Done_bind; by destruct l).
    destruct fam; by apply Hf.
  - destruct fam; try done; intros Hl; [| by apply Hlast]. cbn [qlast]. unfold SQ.SIMPLEQ_LAST, SQ.SIMPLEQ_EMPTY. rewrite (load_eq _ _ _ B1), !Done_bind.
    destruct l as [| z l _] using rev_ind; [done |]. rewrite bool_decide_eq_false_2 by (by destruct l). 
    rewrite (loadb_eq _ _ _ (h_last _ _ _ _ Hh eq_refl)), Done_bind, tcell_snoc, last_snoc. done.
  - intros l1 y l2 ->. destruct (holds_elm _ _ _ _ _ _ Hh) as (E1 & _). by apply load_eq.
  - intros Hf l1 y l2 ->. pose proof (prev_at _ _ _ l1 (y :: l2) Hf Hh) as Hp. destruct (holds_elm _ _ _ _ _ _ Hh) as (_ & _ & E3 & _). rewrite Hf in E3.
    unfold TQ.TAILQ_PREV. by rewrite (loadb_eq _ _ _ (E3 eq_refl)), Done_bind.
  - intros Hf. unfold TQ.TAILQ_FOREACH_REVERSE. rewrite (Hlast Hf), Done_bind. apply (reverse_at fam m h l []); [done | by rewrite app_nil_r | done].
Qed.

(** C10. The list macros implement sequences: over any number of heads and
    elements, each sequence of operations of a family runs without touching
    memory that does not exist or dereferencing NULL, and then every query
    (loops in both directions, emptiness, last, next and previous element) answers
    as the sequences that the operations describe. *)
Theorem queue_refines fam H E fuel m ops A : objects fam H E m -> (length E <= fuel)%nat -> qsteps fam H E ∅ ops A ->
  exists m', qrun fam fuel ops m = Done m' /\ forall h l, A !! h = Some l -> shows fam fuel m' h l.
Proof.
  intros Ho Hfuel Hs. destruct (qrun_ok fam H E fuel ops m ∅ A) as (m' & E' & Hr); [| done | done |].
  - split; [done | | |]; intros; simplify_map_eq.
  - exists m'. split; [done |]. intros h l El. apply holds_shows; [by apply (rp_holds _ _ _ _ _ Hr) |].
    pose proof (list_bound _ _ _ _ _ _ Hr l El). lia.
Qed.

(** Two queues of 0 and 1, with elements from 10 on: insertions at both ends,
    in the middle, a replacement, removals in a loop, and a concatenation. *)
Definition queue_demo : list qop :=
  [Init 0; Init 1; InsertTail 0 10; InsertTail 0 11; InsertHead 0 12; InsertBefore 0 11 13; InsertTail 1 14; InsertAfter 1 14 15;
   Replace 0 10 16; Remove 0 11; Concat 1 0; RemoveIf 1 Z.odd].
Definition queue_cells : qmem :=
  QMem (list_to_map (((fun h => (first_of h, None)) <$> [0; 1]) ++ ((fun x => (next_of x, None)) <$> seqZ 10 7)))
    (list_to_map (((fun h => (first_of h, first_of 0)) <$> [0; 1]) ++ ((fun x => (next_of x, first_of 0)) <$> seqZ 10 7))).

Local Ltac not_listed :=
  let h := fresh in let l := fresh in let Hl := fresh in intros h l Hl;
  repeat (apply lookup_insert_Some in Hl as [[<- <-] | [_ Hl]]; [set_solver |]); by rewrite lookup_empty in Hl.

Lemma queue_demo_steps : exists A, qsteps TAILQ [0; 1] (seqZ 10 7) ∅ queue_demo A /\ A !! 1 = Some [14; 12; 16] /\ A !! 0 = Some [].
Proof.
  eexists. split.
  - repeat (eapply qs_cons; [first
      [ eapply q_init; set_solver | eapply q_head; [reflexivity | | apply elem_of_seqZ; lia] | eapply q_tail; [reflexivity | reflexivity | | apply elem_of_seqZ; lia]
      | apply (q_before _ _ _ _ 0 [12; 10] 11 []); [reflexivity | reflexivity | | apply elem_of_seqZ; lia]
      | apply (q_after _ _ _ _ 1 [] 14 []); [reflexivity | | apply elem_of_seqZ; lia]
      | apply (q_replace _ _ _ _ 0 [12] 10 [13; 11]); [reflexivity | reflexivity | | apply elem_of_seqZ; lia]
      | apply (q_remove _ _ _ _ 0 [12; 16; 13] 11 []); reflexivity
      | eapply q_concat; [reflexivity | reflexivity | reflexivity | done]
      | eapply q_remove_if; reflexivity ];
      try not_listed |]).
    apply qs_nil.
  - split; reflexivity.
Qed.

Lemma queue_refines_witness : exists m', qrun TAILQ 7 queue_demo queue_cells = Done m' /\ shows TAILQ 7 m' 1 [14; 12; 16].
Proof.
  destruct queue_demo_steps as (A & Hs & Ha & _). destruct (queue_refines TAILQ [0; 1] (seqZ 10 7) 7 queue_cells queue_demo A) as (m' & Er & Hm).
  - split; intros x Hx; (split; [| intros _]); repeat (apply elem_of_cons in Hx as [-> | Hx]; [vm_compute; by eexists |]); by apply elem_of_nil in Hx.
  - vm_compute. lia.
  - exact Hs.
  - exists m'. split; [exact Er |]. by apply Hm.
Defined.

(** [LIST_MOVE] leaves the back pointer of the first element at the old head:
    the loop shows the elements at the new head, but when the first one is
    removed, the old head is written, and the element stays at the new one. *)
Section Move.
Context (H E : list Z) (m : qmem) (A : gmap Z (list Z)) (h1 h2 x : Z) (l : list Z).
Context (Hr : represents LIST H E m A) (E1 : A !! h1 = Some (x :: l)) (Hh2 : h2 ∈ H) (Hne : h1 <> h2).

Theorem list_move_keeps_back_pointer : exists m1, LI.LIST_MOVE h1 h2 m = Done m1 /\ LI.LIST_FIRST h2 m1 = Done (Some x) /\
  exists m2, LI.LIST_REMOVE x m1 = Done m2 /\ LI.LIST_FIRST h2 m2 = Done (Some x) /\ LI.LIST_FIRST h1 m2 = Done (head l).
Proof.
  destruct (ob_heads _ _ _ _ (rp_objects _ _ _ _ _ Hr) h2 Hh2) as [O1 _]. hd h1 Hr E1.
  destruct (holds_elm _ _ _ [] x l (rp_holds _ _ _ _ _ Hr _ _ E1)) as (B1 & B2 & B3 & B4). rewrite tcell_nil in B3, B4. known.
  pose proof (nodup_next []) as Hnd. pose proof (h_nodup _ _ _ _ (rp_holds _ _ _ _ _ Hr _ _ E1)) as Hnd1.
  unfold LI.LIST_MOVE, LI.LIST_INIT, LI.LIST_EMPTY. repeat acc. rewrite bool_decide_eq_false_2 by done. repeat acc.
  unfold LI.LIST_REMOVE, LI.LIST_FIRST. destruct l as [| z k]; known; [| apply Hnd in Hnd1];
    (eexists; split; [reflexivity |]; split; [apply load_eq; lk |]; run; split; apply load_eq; lk).
Qed.
End Move.
