(* ===== verification/Busdev.v ===== *)
(** * The device /dev/xen/xenbus (platform/xen/librumpxen_xendev)

    A process writes requests to the store of the hypervisor to the device and
    reads the answers and the events of its watches from it.  busdev.c keeps
    the buffers, busdev_user.c the requests, watches and transactions; below is
    the client of the store (xenbus.c).  The store and the process are the
    environment: events of a machine.  The calls of the process hold the lock
    of the device and are one event each, save that a read without a message
    releases it and waits ([waiting]): when it goes on is an event of its own,
    and may come before there is a message.  The close of the device is modelled,
    but is not an event of the machine: it fails as soon as there is a watch
    ([close_frees_twice] in BusdevThms.v).
    Identifiers of requests on the ring ([xb_id]), and waiting for a free one
    or for room, are those of the client of the store and not repeated here.

    Objects on the heap are tables; an access to one that has been freed, or
    freeing a part of an object, is undefined.  [xbd_malloc] answers as
    [mallocs] says, and succeeds when that is used up. *)

From S2P Require Import Prelude Xenbus.

Definition ENOMEM : Z := 12.
Definition EINVAL : Z := 22.
Definition EAGAIN : Z := 35.
Definition ERESTART : Z := -3.
Definition INT_MAX : Z := 2 ^ 31 - 1.

(** The types of messages that the code names. *)
Inductive xstype :=
  | XS_DIRECTORY | XS_READ | XS_GET_PERMS | XS_GET_DOMAIN_PATH | XS_IS_DOMAIN_INTRODUCED | XS_WRITE | XS_MKDIR | XS_RM | XS_SET_PERMS
  | XS_TRANSACTION_START | XS_TRANSACTION_END | XS_WATCH | XS_UNWATCH | XS_ERROR.
Global Instance xstype_eq_dec : EqDecision xstype.
Proof. solve_decision. Defined.
Definition xs_all : list xstype :=
  [XS_DIRECTORY; XS_READ; XS_GET_PERMS; XS_GET_DOMAIN_PATH; XS_IS_DOMAIN_INTRODUCED; XS_WRITE; XS_MKDIR; XS_RM; XS_SET_PERMS;
   XS_TRANSACTION_START; XS_TRANSACTION_END; XS_WATCH; XS_UNWATCH; XS_ERROR].

Class XsProto `{XenWire} := {
  xs_code : xstype -> Z;
  XENSTORE_PAYLOAD_MAX : Z;
  xs_code_inj : Inj (=) (=) xs_code;
  payload_max_ok : 2 ^ ring_bits <= XENSTORE_PAYLOAD_MAX;
  xs_code_event : forall x, xs_code x <> XS_WATCH_EVENT;
  sockmsg_of_ok : forall l, length l = msg_size -> sockmsg_ok (sockmsg_of l) }.
Global Existing Instance xs_code_inj.

(** ** State *)
Record dreq := DReq { user_id : Z; req_type : Z; req_u : Z }.
Record dwatch := DWatch { w_path : list Z; w_user_token : list Z; w_visible : bool }.

(** A request of its own, or the [destroy] of a watch or a transaction. *)
Inductive rptr := RQ (a : Z) | RQWatch (w : Z) | RQTrans (t : Z).

Record heap := Heap {
  h_req : gmap Z dreq;
  h_watch : gmap Z dwatch;
  h_trans : gmap Z Z;             (** [tx_id] *)
  h_wdestroy : gmap Z dreq;
  h_tdestroy : gmap Z dreq;
  h_next : Z;
  mallocs : list bool
}.

(** What waits in [du->replies]. *)
Inductive devent := EvReply (r : rptr) (m : message) | EvWatch (w : Z) (path : list Z).

(** A request on its way to the store. *)
Record wreq := WReq { wr_req : rptr; wr_type : Z; wr_tx : Z; wr_data : list Z }.

(** A read that waits: the bytes it was to read and those it still is to. *)
Record rwait := RW { rw_org : Z; rw_resid : Z }.

Record bus := Bus {
  wbuf : list Z;                  (** [wbuf.buffer] up to [wbuf_used] *)
  queued_enomem : bool;
  rmsg : option (list Z);         (** the bytes of the message being read *)
  rmsg_done : Z;
  want_restart : bool;
  outstanding_requests : Z;
  transactions : list Z;
  watches : list Z;
  replies : list devent;
  hp : heap;
  registered : list Z;            (** the watches the client of the store knows *)
  wire : list wreq;
  armed : list Z;                 (** the watches the store has accepted and not ended *)
  waiting : list rwait;           (** the reads asleep in [rumpxenbus_next_event_msg] *)
  asked : list Z;                 (** the process's identifiers of requests taken *)
  given : list message;           (** the messages made for the process *)
  out : list Z                    (** the bytes copied to the process *)
}.

Definition set_wbuf (b : list Z) (s : bus) : bus := Bus b (queued_enomem s) (rmsg s) (rmsg_done s) (want_restart s) (outstanding_requests s) (transactions s) (watches s) (replies s) (hp s) (registered s) (wire s) (armed s) (waiting s) (asked s) (given s) (out s).
Definition set_enomem (b : bool) (s : bus) : bus := Bus (wbuf s) b (rmsg s) (rmsg_done s) (want_restart s) (outstanding_requests s) (transactions s) (watches s) (replies s) (hp s) (registered s) (wire s) (armed s) (waiting s) (asked s) (given s) (out s).
Definition set_rmsg (r : option (list Z)) (d : Z) (s : bus) : bus := Bus (wbuf s) (queued_enomem s) r d (want_restart s) (outstanding_requests s) (transactions s) (watches s) (replies s) (hp s) (registered s) (wire s) (armed s) (waiting s) (asked s) (given s) (out s).
Definition set_count (n : Z) (s : bus) : bus := Bus (wbuf s) (queued_enomem s) (rmsg s) (rmsg_done s) (want_restart s) n (transactions s) (watches s) (replies s) (hp s) (registered s) (wire s) (armed s) (waiting s) (asked s) (given s) (out s).
Definition set_trans (l : list Z) (s : bus) : bus := Bus (wbuf s) (queued_enomem s) (rmsg s) (rmsg_done s) (want_restart s) (outstanding_requests s) l (watches s) (replies s) (hp s) (registered s) (wire s) (armed s) (waiting s) (asked s) (given s) (out s).
Definition put_watches (l r : list Z) (s : bus) : bus := Bus (wbuf s) (queued_enomem s) (rmsg s) (rmsg_done s) (want_restart s) (outstanding_requests s) (transactions s) l (replies s) (hp s) r (wire s) (armed s) (waiting s) (asked s) (given s) (out s).
Definition set_replies (l : list devent) (s : bus) : bus := Bus (wbuf s) (queued_enomem s) (rmsg s) (rmsg_done s) (want_restart s) (outstanding_requests s) (transactions s) (watches s) l (hp s) (registered s) (wire s) (armed s) (waiting s) (asked s) (given s) (out s).
Definition set_heap (h : heap) (s : bus) : bus := Bus (wbuf s) (queued_enomem s) (rmsg s) (rmsg_done s) (want_restart s) (outstanding_requests s) (transactions s) (watches s) (replies s) h (registered s) (wire s) (armed s) (waiting s) (asked s) (given s) (out s).
Definition set_wire (l : list wreq) (a : list Z) (s : bus) : bus := Bus (wbuf s) (queued_enomem s) (rmsg s) (rmsg_done s) (want_restart s) (outstanding_requests s) (transactions s) (watches s) (replies s) (hp s) (registered s) l a (waiting s) (asked s) (given s) (out s).
Definition set_log (l : list Z) (g : list message) (s : bus) : bus := Bus (wbuf s) (queued_enomem s) (rmsg s) (rmsg_done s) (want_restart s) (outstanding_requests s) (transactions s) (watches s) (replies s) (hp s) (registered s) (wire s) (armed s) (waiting s) l g (out s).

Definition set_restart (b : bool) (s : bus) : bus := Bus (wbuf s) (queued_enomem s) (rmsg s) (rmsg_done s) b (outstanding_requests s) (transactions s) (watches s) (replies s) (hp s) (registered s) (wire s) (armed s) (waiting s) (asked s) (given s) (out s).

Definition set_wait (l : list rwait) (o : list Z) (s : bus) : bus := Bus (wbuf s) (queued_enomem s) (rmsg s) (rmsg_done s) (want_restart s) (outstanding_requests s) (transactions s) (watches s) (replies s) (hp s) (registered s) (wire s) (armed s) l (asked s) (given s) o.

Definition put_req (a : Z) (r : dreq) (h : heap) : heap := Heap (<[a := r]> (h_req h)) (h_watch h) (h_trans h) (h_wdestroy h) (h_tdestroy h) (h_next h) (mallocs h).
Definition put_watch (w : Z) (x : dwatch) (h : heap) : heap := Heap (h_req h) (<[w := x]> (h_watch h)) (h_trans h) (h_wdestroy h) (h_tdestroy h) (h_next h) (mallocs h).
Definition put_trans (t x : Z) (h : heap) : heap := Heap (h_req h) (h_watch h) (<[t := x]> (h_trans h)) (h_wdestroy h) (h_tdestroy h) (h_next h) (mallocs h).
Definition free_watch (w : Z) (h : heap) : heap := Heap (h_req h) (delete w (h_watch h)) (h_trans h) (delete w (h_wdestroy h)) (h_tdestroy h) (h_next h) (mallocs h).
Definition free_trans (t : Z) (h : heap) : heap := Heap (h_req h) (h_watch h) (delete t (h_trans h)) (h_wdestroy h) (delete t (h_tdestroy h)) (h_next h) (mallocs h).

Section Busdev.
Context `{P : XsProto}.
(** The token of a watch, ["*%p"] of its address. *)
Context (xb_token : Z -> list Z).

Definition xs_kind (t : Z) : option xstype := head (filter (fun x => xs_code x = t) xs_all).
Definition BUFFER_SIZE : Z := XENSTORE_PAYLOAD_MAX + Z.of_nat msg_size.

Definition xbd_malloc (h : heap) : option Z * heap :=
  (if default true (head (mallocs h)) then Some (h_next h) else None,
   Heap (h_req h) (h_watch h) (h_trans h) (h_wdestroy h) (h_tdestroy h) (h_next h + 1) (tail (mallocs h))).

(** A request pointer is good while the object it lies in is. *)
Definition get_req (r : rptr) (h : heap) : outcome dreq :=
  match r with
  | RQ a => of_option "request" (h_req h !! a)
  | RQWatch w => of_option "request in a watch" (_ ← h_watch h !! w; h_wdestroy h !! w)
  | RQTrans t => of_option "request in a transaction" (_ ← h_trans h !! t; h_tdestroy h !! t)
  end.
Definition free_req (r : rptr) (h : heap) : outcome heap :=
  match r with
  | RQ a => _ ← get_req r h; Done (Heap (delete a (h_req h)) (h_watch h) (h_trans h) (h_wdestroy h) (h_tdestroy h) (h_next h) (mallocs h))
  | _ => Undef "xbd_free of a part of an object"
  end.

Definition wbuf_msg (s : bus) : xsd_sockmsg := sockmsg_of (take msg_size (wbuf s)).

(** ** Requests *)

(** [id] is not used: the identifier is that of the message in the buffer. *)
Fixpoint find_transaction (l : list Z) (h : heap) (tx : Z) : outcome (option Z) :=
  match l with
  | [] => Done None
  | t :: l => x ← of_option "transaction" (h_trans h !! t); if x =? tx then Done (Some t) else find_transaction l h tx
  end.
Fixpoint find_visible_watch (l : list Z) (h : heap) (path token : list Z) : outcome (option Z) :=
  match l with
  | [] => Done None
  | w :: l =>
      x ← of_option "watch" (h_watch h !! w);
      if w_visible x && bool_decide (path = w_path x) && bool_decide (token = w_user_token x) then Done (Some w)
      else find_visible_watch l h path token
  end.

Definition make_request (r : rptr) (tx : Z) (data : list Z) (s : bus) : outcome bus :=
  req ← get_req r (hp s);
  _ ← bmk_assert (outstanding_requests s <? INT_MAX) "du->outstanding_requests < INT_MAX";
  let s := set_count (outstanding_requests s + 1) s in
  _ ← bmk_assert (zlen data + Z.of_nat msg_size <=? XENSTORE_RING_SIZE) "len > XENSTORE_RING_SIZE";
  Done (set_wire (wire s ++ [WReq r (req_type req) tx data]) (armed s) s).

(** The lengths of the strings are those of the two [write_req]. *)
Definition watch_write_req_string (string : list Z) : list Z := string ++ [0].
(** The callers have set [req->u.watch]. *)
Definition make_watch_request (r : rptr) (tx : Z) (w : Z) (s : bus) : outcome bus :=
  x ← of_option "watch" (h_watch (hp s) !! w);
  make_request r tx (watch_write_req_string (w_path x) ++ watch_write_req_string (xb_token w)) s.

(** What is sent is everything in the buffer. *)
Definition forward_request (r : rptr) (s : bus) : outcome bus := make_request r (m_tx_id (wbuf_msg s)) (drop msg_size (wbuf s)) s.

Definition watch_message_parse (s : bus) : option (list Z * list Z) :=
  let body := take (Z.to_nat (m_len (wbuf_msg s))) (drop msg_size (wbuf s)) in
  '(path, rest) ← split_str body;
  '(token, _) ← split_str rest;
  Some (path, token).

(** [rumpxenbus_write_trouble] and the error. *)
Definition WTROUBLE (s : bus) : outcome (Z * bus) := Done (EINVAL, set_wbuf [] s).
Definition log_request (s : bus) : bus := set_log (asked s ++ [m_req_id (wbuf_msg s)]) (given s) s.

Definition request_plain (a : Z) (s : bus) : outcome (Z * bus) :=
  let tx := m_tx_id (wbuf_msg s) in
  found ← (if tx =? 0 then Done true else t ← find_transaction (transactions s) (hp s) tx; Done (bool_decide (is_Some t)));
  if negb found then WTROUBLE s
  else s ← forward_request (RQ a) (log_request s); Done (0, s).

Definition request_start (a : Z) (req : dreq) (s : bus) : outcome (Z * bus) :=
  if negb (m_tx_id (wbuf_msg s) =? 0) then WTROUBLE s
  else
    let '(t, h) := xbd_malloc (hp s) in
    match t with
    | None => Done (ENOMEM, set_heap h s)
    | Some t =>
        let s := set_heap (put_req a (DReq (user_id req) (req_type req) t) (put_trans t 0 h)) s in
        s ← forward_request (RQ a) (log_request s); Done (0, s)
    end.

Definition request_end (a : Z) (req : dreq) (s : bus) : outcome (Z * bus) :=
  let tx := m_tx_id (wbuf_msg s) in
  if tx =? 0 then WTROUBLE s
  else
    t ← find_transaction (transactions s) (hp s) tx;
    match t with
    | None => WTROUBLE s
    | Some t =>
        let s := set_heap (put_req a (DReq (user_id req) (req_type req) t) (hp s)) s in
        let s := set_trans (filter (fun x => x <> t) (transactions s)) s in
        s ← forward_request (RQ a) (log_request s); Done (0, s)
    end.

Definition request_watch (a : Z) (req : dreq) (s : bus) : outcome (Z * bus) :=
  if negb (m_tx_id (wbuf_msg s) =? 0) then WTROUBLE s
  else match watch_message_parse s with
  | None => WTROUBLE s
  | Some (wpath, wtoken) =>
      let '(w, h) := xbd_malloc (hp s) in
      match w with
      | None => Done (ENOMEM, set_heap h s)
      | Some w =>
          let '(p1, h) := xbd_malloc h in
          let '(p2, h) := xbd_malloc h in
          match p1, p2 with
          | Some _, Some _ =>
              let h := put_watch w (DWatch wpath wtoken false) h in
              let h := put_req a (DReq (user_id req) (req_type req) w) h in
              let s := put_watches (w :: watches s) (w :: registered s) (set_heap h s) in
              s ← make_watch_request (RQ a) (m_tx_id (wbuf_msg s)) w (log_request s); Done (0, s)
          | _, _ => Done (ENOMEM, set_heap h s)
          end
      end
  end.

Definition request_unwatch (a : Z) (req : dreq) (s : bus) : outcome (Z * bus) :=
  if negb (m_tx_id (wbuf_msg s) =? 0) then WTROUBLE s
  else match watch_message_parse s with
  | None => WTROUBLE s
  | Some (wpath, wtoken) =>
      w ← find_visible_watch (watches s) (hp s) wpath wtoken;
      match w with
      | None => WTROUBLE s
      | Some w =>
          x ← of_option "watch" (h_watch (hp s) !! w);
          let h := put_watch w (DWatch (w_path x) (w_user_token x) false) (hp s) in
          let h := put_req a (DReq (user_id req) (req_type req) w) h in
          let s := set_heap h s in
          s ← make_watch_request (RQ a) (m_tx_id (wbuf_msg s)) w (log_request s); Done (0, s)
      end
  end.

Definition rumpxenbus_process_request (s : bus) : outcome (Z * bus) :=
  let m := wbuf_msg s in
  let '(a, h) := xbd_malloc (hp s) in
  match a with
  | None => Done (ENOMEM, set_heap h s)
  | Some a =>
      let req := DReq (m_req_id m) (m_type m) 0 in
      let s := set_heap (put_req a req h) s in
      match xs_kind (m_type m) with
      | Some (XS_DIRECTORY | XS_READ | XS_GET_PERMS | XS_GET_DOMAIN_PATH | XS_IS_DOMAIN_INTRODUCED | XS_WRITE | XS_MKDIR | XS_RM | XS_SET_PERMS) =>
          request_plain a s
      | Some XS_TRANSACTION_START => request_start a req s
      | Some XS_TRANSACTION_END => request_end a req s
      | Some XS_WATCH => request_watch a req s
      | Some XS_UNWATCH => request_unwatch a req s
      | Some XS_ERROR | None => WTROUBLE s
      end
  end.

(** The messages in the buffer. *)
Fixpoint process_buffer (fuel : nat) (s : bus) : outcome (Z * bus) :=
  if zlen (wbuf s) <? Z.of_nat msg_size then Done (0, s)
  else if XENSTORE_PAYLOAD_MAX <? m_len (wbuf_msg s) then WTROUBLE s
  else
    let packetlen := m_len (wbuf_msg s) + Z.of_nat msg_size in
    _ ← bmk_assert (packetlen <=? BUFFER_SIZE) "packetlen <= sizeof(dd->wbuf.buffer)";
    if zlen (wbuf s) <? packetlen then Done (0, s)
    else match fuel with
    | O => Undef "no end of messages"
    | S fuel =>
        '(err, s) ← rumpxenbus_process_request s;
        let s := if zlen (wbuf s) =? 0 then s else set_wbuf (drop (Z.to_nat packetlen) (wbuf s)) s in
        if err =? 0 then process_buffer fuel s else Done (err, s)
    end.

(** The bytes of the process; [uiomove] takes as many as there is room for. *)
Fixpoint xenbus_dev_write (fuel : nat) (data : list Z) (s : bus) : outcome (Z * bus) :=
  match data with
  | [] => Done (0, s)
  | _ =>
      let room := Z.to_nat (BUFFER_SIZE - zlen (wbuf s)) in
      let s := set_wbuf (wbuf s ++ take room data) s in
      match fuel with
      | O => Undef "no end of data"
      | S fuel =>
          '(err, s) ← process_buffer (S (length (wbuf s))) s;
          if err =? 0 then xenbus_dev_write fuel (drop room data) s else Done (err, s)
      end
  end.

(** ** Responses and events *)
Definition process_watch_event (w : Z) (path : list Z) (s : bus) : outcome (option message * bus) :=
  x ← of_option "watch" (h_watch (hp s) !! w);
  let body := path ++ [0] ++ w_user_token x ++ [0] in
  let '(r, h) := xbd_malloc (hp s) in
  let s := set_heap h s in
  match r with
  | None => Done (None, set_enomem true s)
  | Some _ =>
      let m := (SockMsg XS_WATCH_EVENT 0 0 (zlen body), body) in
      Done (Some m, set_log (asked s) (given s ++ [m]) s)
  end.

Definition do_unwatch (w : Z) (s : bus) : outcome bus :=
  x ← of_option "watch" (h_watch (hp s) !! w);
  _ ← bmk_assert (negb (w_visible x)) "!watch->visible_to_user";
  _ ← bmk_assert (bool_decide (w ∈ watches s)) "LIST_REMOVE";
  Done (set_heap (free_watch w (hp s)) (put_watches (filter (fun y => y <> w) (watches s)) (filter (fun y => y <> w) (registered s)) s)).

Definition response_effect (req : dreq) (error : bool) (m : message) (s : bus) : outcome bus :=
  match xs_kind (req_type req) with
  | Some XS_TRANSACTION_START =>
      if error then Done s
      else
        _ ← bmk_assert (2 <=? m_len m.1) "msg->len >= 2";
        _ ← bmk_assert (bool_decide (last m.2 = Some 0)) "!((uint8_t*)(msg+1))[msg->len-1]";
        Undef "(char*)&msg + sizeof(*msg)"
  | Some XS_TRANSACTION_END => _ ← of_option "transaction" (h_trans (hp s) !! req_u req); Done (set_heap (free_trans (req_u req) (hp s)) s)
  | Some XS_WATCH =>
      if error then do_unwatch (req_u req) s
      else
        x ← of_option "watch" (h_watch (hp s) !! req_u req);
        Done (set_heap (put_watch (req_u req) (DWatch (w_path x) (w_user_token x) true) (hp s)) s)
  | Some XS_UNWATCH => _ ← bmk_assert (negb error) "!error"; do_unwatch (req_u req) s
  | _ => Done s
  end.

Definition process_response (r : rptr) (m : message) (s : bus) : outcome (option message * bus) :=
  req ← get_req r (hp s);
  let m := (SockMsg (m_type m.1) (user_id req) (m_tx_id m.1) (m_len m.1), m.2) in
  let error := m_type m.1 =? xs_code XS_ERROR in
  _ ← bmk_assert (error || (m_type m.1 =? req_type req)) "error || msg->type == req->req_type";
  s ← response_effect req error m s;
  h ← free_req r (hp s);
  let s := set_heap h s in
  _ ← bmk_assert (0 <? outstanding_requests s) "du->outstanding_requests > 0";
  Done (Some m, set_log (asked s) (given s ++ [m]) (set_count (outstanding_requests s - 1) s)).

Definition process_event (e : devent) (s : bus) : outcome (option message * bus) :=
  match e with EvWatch w path => process_watch_event w path s | EvReply r m => process_response r m s end.

(** [None]: there is no event, and the caller gets [NULL], or waits. *)
Definition rumpxenbus_next_event_msg (s : bus) : outcome (option (option message) * bus) :=
  match replies s with
  | [] => Done (None, s)
  | e :: l => '(m, s) ← process_event e (set_replies l s); Done (Some m, s)
  end.

(** A read ends with an error number, or waits. *)
Inductive rend := REnd (err : Z) | RWait (w : rwait).

(** What follows the assignment to [dd->rmsg]: an end of the read when there is
    no message. *)
Definition read_assign (err_if_block org resid : Z) (m : option message) (s : bus) : option rend * bus :=
  (match m with Some _ => None | None => Some (REnd (if negb (resid =? org) then 0 else err_if_block)) end,
   set_rmsg (msg_bytes <$> m) (rmsg_done s) s).

(** The copy to the process, and what remains to be read. *)
Definition read_copy (resid : Z) (s : bus) : outcome (Z * bus) :=
  bs ← of_option "dd->rmsg" (rmsg s);
  _ ← bmk_assert (zlen bs <? BUFFER_SIZE * 2) "avail < BUFFER_SIZE*2";
  _ ← bmk_assert (0 <? zlen bs) "avail > 0";
  _ ← bmk_assert (rmsg_done s <=? zlen bs) "dd->rmsg_done <= avail";
  let n := Z.min resid (zlen bs - rmsg_done s) in
  let s := set_wait (waiting s) (out s ++ take (Z.to_nat n) (drop (Z.to_nat (rmsg_done s)) bs)) s in
  let done := rmsg_done s + n in
  Done (resid - n, if done =? zlen bs then set_rmsg None 0 s else set_rmsg (Some bs) done s).

(** The loop, up to its end or to a wait, during which the lock is released. *)
Fixpoint xenbus_dev_read (fuel : nat) (nonblock : bool) (org resid : Z) (s : bus) : outcome (rend * bus) :=
  if queued_enomem s then
    if negb (org =? resid) then Done (REnd 0, s) else Done (REnd ENOMEM, set_enomem false s)
  else if resid =? 0 then Done (REnd 0, s)
  else
    let err_if_block := if want_restart s then ERESTART else if nonblock then EAGAIN else 0 in
    '(r, s) ← match rmsg s with
         | Some _ => Done (None, s)
         | None =>
             '(m, s) ← rumpxenbus_next_event_msg s;
             match m with
             | Some m => Done (read_assign err_if_block org resid m s)
             | None => if err_if_block =? 0 then Done (Some (RWait (RW org resid)), s) else Done (read_assign err_if_block org resid None s)
             end
         end;
    match r with
    | Some r => Done (r, s)
    | None =>
        '(resid, s) ← read_copy resid s;
        match fuel with
        | O => Undef "no end of messages"
        | S fuel => xenbus_dev_read fuel nonblock org resid s
        end
    end.

(** A read that was woken and has the lock again: it waits on when there is no
    event; otherwise the message is assigned to [dd->rmsg], whatever is there
    by now, and the loop goes on.  Only a read with [err_if_block] 0 waits. *)
Definition read_resume (fuel : nat) (w : rwait) (s : bus) : outcome (rend * bus) :=
  '(m, s) ← rumpxenbus_next_event_msg s;
  match m with
  | None => Done (RWait w, s)
  | Some m =>
      let '(r, s) := read_assign 0 (rw_org w) (rw_resid w) m s in
      match r with
      | Some r => Done (r, s)
      | None => '(resid, s) ← read_copy (rw_resid w) s; xenbus_dev_read fuel false (rw_org w) resid s
      end
  end.

Definition read_end (x : rend * bus) : bus :=
  match x.1 with REnd _ => x.2 | RWait w => set_wait (waiting x.2 ++ [w]) (out x.2) x.2 end.

Definition POLLIN : Z := 1.
Definition POLLOUT : Z := 4.
Definition POLLRDNORM : Z := 64.
Definition POLLWRNORM : Z := 4.
Definition RBITS : Z := Z.lor POLLIN POLLRDNORM.
Definition WBITS : Z := Z.lor POLLOUT POLLWRNORM.
(** The events that are ready; whether the caller is recorded for a wake-up. *)
Definition xenbus_dev_poll (events : Z) (s : bus) : Z * bool :=
  let revents := Z.land events WBITS in
  let revents := if negb (Z.land events RBITS =? 0) && (bool_decide (is_Some (rmsg s)) || queued_enomem s || want_restart s)
                 then Z.lor revents (Z.land events RBITS) else revents in
  (revents, (revents =? 0) && negb (Z.land events RBITS =? 0)).

Definition xenbus_dev_restart (s : bus) : bus := set_restart true s.

(** ** Closing *)
Fixpoint close_watches (l : list Z) (s : bus) : outcome bus :=
  match l with
  | [] => Done s
  | w :: l =>
      x ← of_option "watch" (h_watch (hp s) !! w);
      s ← (if w_visible x then
             let h := hp s in
             let h := put_watch w (DWatch (w_path x) (w_user_token x) false) h in
             let h := Heap (h_req h) (h_watch h) (h_trans h) (<[w := DReq 0 (xs_code XS_UNWATCH) w]> (h_wdestroy h)) (h_tdestroy h) (h_next h) (mallocs h) in
             make_watch_request (RQWatch w) 0 w (set_heap h s)
           else Done s);
      close_watches l s
  end.
Fixpoint close_transactions (l : list Z) (s : bus) : outcome bus :=
  match l with
  | [] => Done s
  | t :: l =>
      x ← of_option "transaction" (h_trans (hp s) !! t);
      let h := hp s in
      let h := Heap (h_req h) (h_watch h) (h_trans h) (h_wdestroy h) (<[t := DReq 0 (xs_code XS_TRANSACTION_END) t]> (h_tdestroy h)) (h_next h) (mallocs h) in
      let s := set_trans (filter (fun y => y <> t) (transactions s)) (set_heap h s) in
      s ← make_request (RQTrans t) x [70; 0] s;
      close_transactions l s
  end.
(** One round of the loop of [rumpxenbus_dev_user_shutdown]: finished, waiting
    for an event, or to be repeated. *)
Inductive cend := CDone | CWait | CAgain.
Definition rumpxenbus_dev_user_shutdown (s : bus) : outcome (cend * bus) :=
  s ← close_watches (watches s) s;
  s ← close_transactions (transactions s) s;
  _ ← bmk_assert (0 <=? outstanding_requests s) "du->outstanding_requests >= 0";
  if outstanding_requests s =? 0 then
    _ ← bmk_assert (bool_decide (transactions s = [])) "LIST_EMPTY(&du->transactions)";
    _ ← bmk_assert (bool_decide (watches s = [])) "LIST_EMPTY(&du->watches)";
    Done (CDone, s)
  else
    '(m, s) ← rumpxenbus_next_event_msg s;
    match m with
    | None => Done (CWait, s)
    | Some m => _ ← bmk_assert (bool_decide (is_Some m)) "discard"; Done (CAgain, s)
    end.

(** The message being read is dropped; what it lay in is not modelled. *)
Definition xenbus_dev_close (s : bus) : outcome (cend * bus) := rumpxenbus_dev_user_shutdown (set_rmsg None (rmsg_done s) s).

(** ** The machine *)
Inductive bevent :=
  | BWrite (data : list Z)
  | BRead (nonblock : bool) (n : Z)
  | BWake (k : nat)                                (** read [k] of those that wait goes on *)
  | BRestart
  | BReply (k : nat) (type : Z) (body : list Z)    (** the store answers request [k] *)
  | BFire (w : Z) (path : list Z).                 (** the store reports a change *)

(** Which watch a response starts or ends at the store. *)
Definition arm_after (req : dreq) (type : Z) (l : list Z) : list Z :=
  if decide (req_type req = xs_code XS_WATCH) then if type =? xs_code XS_ERROR then l else req_u req :: l
  else if decide (req_type req = xs_code XS_UNWATCH) then filter (fun y => y <> req_u req) l else l.

Definition bus_event (e : bevent) (s : bus) : outcome bus :=
  match e with
  | BWrite data => '(_, s) ← xenbus_dev_write (S (length data)) data s; Done s
  | BRead nonblock n => x ← xenbus_dev_read (S (Z.to_nat n)) nonblock n n s; Done (read_end x)
  | BWake k =>
      match waiting s !! k with
      | None => Done s
      | Some w => x ← read_resume (S (Z.to_nat (rw_resid w))) w (set_wait (delete k (waiting s)) (out s) s); Done (read_end x)
      end
  | BRestart => Done (xenbus_dev_restart s)
  | BReply k type body =>
      match wire s !! k with
      | None => Done s
      | Some q =>
          req ← get_req (wr_req q) (hp s);
          let m := (SockMsg type 0 (wr_tx q) (zlen body), body) in
          Done (set_wire (delete k (wire s)) (arm_after req type (armed s)) (set_replies (replies s ++ [EvReply (wr_req q) m]) s))
      end
  | BFire w path => if decide (w ∈ armed s) then Done (set_replies (replies s ++ [EvWatch w path]) s) else Done s
  end.

Definition bus_open (ms : list bool) : bus :=
  Bus [] false None 0 false 0 [] [] [] (Heap ∅ ∅ ∅ ∅ ∅ 1 ms) [] [] [] [] [] [] [].
End Busdev.
