(* ===== verification/BusdevThms.v ===== *)
(** * Theorems about the device /dev/xen/xenbus

    The requests that are under way, with what they are about, are listed
    beside the state: [ws] are those the store has, [rs] what waits to be
    read.  The last part evaluates runs on which the code fails. *)

From S2P Require Import Prelude Xenbus XenbusSafe Busdev.

(** A response with its request, or an event of a watch. *)
Inductive qev := QReply (a : Z) (req : dreq) (m : message) | QWatch (w : Z) (path : list Z).
Definition qev_ev (q : qev) : devent := match q with QReply a _ m => EvReply (RQ a) m | QWatch w path => EvWatch w path end.
Definition qev_req (q : qev) : option (Z * dreq) := match q with QReply a req _ => Some (a, req) | QWatch _ _ => None end.

Section Inv.
Context `{P : XsProto} (xb_token : Z -> list Z).

Lemma xs_kind_code x : xs_kind (xs_code x) = Some x.
Proof.
  unfold xs_kind. assert (x ∈ filter (fun y => xs_code y = xs_code x) xs_all) as Hx.
  { apply list_elem_of_filter. split; [done |]. unfold xs_all. destruct x; set_solver. }
  destruct (filter _ xs_all) as [| y l] eqn:E; [by apply elem_of_nil in Hx |]. cbn. f_equal.
  assert (y ∈ filter (fun y => xs_code y = xs_code x) xs_all) as Hy by (rewrite E; by left). apply list_elem_of_filter in Hy as [Hy _]. by apply xs_code_inj.
Qed.

Lemma xs_kind_Some t x : xs_kind t = Some x -> t = xs_code x.
Proof.
  unfold xs_kind. intros E. assert (x ∈ filter (fun y => xs_code y = t) xs_all) as Hx by (destruct (filter _ xs_all); simplify_eq/=; by left).
  by apply list_elem_of_filter in Hx as [-> _].
Qed.

Definition about_watch (req : dreq) : Prop := req_type req = xs_code XS_WATCH \/ req_type req = xs_code XS_UNWATCH.
Global Instance about_watch_dec req : Decision (about_watch req).
Proof. unfold about_watch. apply _. Defined.

Definition under_way (ws : list (Z * dreq)) (rs : list qev) : list (Z * dreq) := ws ++ omap qev_req rs.
(** The watches that requests under way are about. *)
Definition wsub (x : Z * dreq) : option Z := if decide (about_watch x.2) then Some (req_u x.2) else None.
(** The watch that a response ends. *)
Definition kills (q : qev) : option Z :=
  match q with
  | QReply _ req m =>
      if decide (req_type req = xs_code XS_UNWATCH \/ (req_type req = xs_code XS_WATCH /\ m_type m.1 = xs_code XS_ERROR)) then Some (req_u req) else None
  | QWatch _ _ => None
  end.

(** Responses that the store may give. *)
Definition reply_ok (req : dreq) (type : Z) (body : list Z) : Prop :=
  zlen body <= XENSTORE_PAYLOAD_MAX /\ (type = req_type req \/ type = xs_code XS_ERROR) /\
  (req_type req = xs_code XS_UNWATCH -> type <> xs_code XS_ERROR) /\
  (req_type req = xs_code XS_TRANSACTION_START -> type = xs_code XS_ERROR).

(** No request that ends a transaction is under way, and no type is that of an
    event of a watch. *)
Definition plain_type (req : dreq) : Prop := req_type req <> xs_code XS_TRANSACTION_END /\ req_type req <> XS_WATCH_EVENT.
Lemma code_plain x req : req_type req = xs_code x -> x <> XS_TRANSACTION_END -> plain_type req.
Proof. intros Ex Hx. split; rewrite Ex; [by intros ?%xs_code_inj | apply xs_code_event]. Qed.

(** The responses among the messages made for the process. *)
Definition responses (l : list message) : list message := filter (fun m => m_type m.1 <> XS_WATCH_EVENT) l.
Definition ids (l : list message) : list Z := m_req_id ∘ fst <$> responses l.

Lemma ids_event l m : m_type m.1 = XS_WATCH_EVENT -> ids (l ++ [m]) = ids l.
Proof. intros E. unfold ids, responses. rewrite filter_app, filter_cons_False by (by intros []). by rewrite app_nil_r. Qed.
Lemma ids_response l m : m_type m.1 <> XS_WATCH_EVENT -> ids (l ++ [m]) = ids l ++ [m_req_id m.1].
Proof. intros E. unfold ids, responses. by rewrite filter_app, filter_cons_True, fmap_app by done. Qed.

(** What only reads change, and the bytes of messages they have not copied. *)
Definition rview (s : bus) : option (list Z) * Z * list rwait * list Z := (rmsg s, rmsg_done s, waiting s, out s).
Definition unread (s : bus) : list Z := match rmsg s with Some bs => drop (Z.to_nat (rmsg_done s)) bs | None => [] end.

Definition rmsg_ok (s : bus) : Prop :=
  match rmsg s with None => rmsg_done s = 0 | Some bs => 0 <= rmsg_done s < zlen bs /\ zlen bs < BUFFER_SIZE * 2 end.

(** Everything under way has its objects; a watch is the matter of one request
    at most, and then the process does not see it; its events come before the
    response that ends it. *)
Record inv (ws : list (Z * dreq)) (rs : list qev) (s : bus) : Prop := {
  v_wire : Forall2 (fun q x => wr_req q = RQ x.1 /\ wr_type q = req_type x.2) (wire s) ws;
  v_replies : replies s = qev_ev <$> rs;
  v_req : Forall (fun x => h_req (hp s) !! x.1 = Some x.2) (under_way ws rs);
  v_nodup : NoDup (under_way ws rs).*1;
  v_count : outstanding_requests s = zlen (under_way ws rs);
  v_trans : transactions s = [] /\ Forall (fun x => plain_type x.2) (under_way ws rs);
  v_sub : NoDup (omap wsub (under_way ws rs)) /\
    forall w, w ∈ omap wsub (under_way ws rs) -> w ∈ watches s /\ exists x, h_watch (hp s) !! w = Some x /\ w_visible x = false;
  v_watches : forall w, w ∈ watches s -> exists x, h_watch (hp s) !! w = Some x /\ zlen (w_user_token x) + 2 <= XENSTORE_PAYLOAD_MAX;
  v_order : forall i w path, rs !! i = Some (QWatch w path) -> w ∈ watches s /\ zlen path <= XENSTORE_PAYLOAD_MAX /\
    forall j q, (j < i)%nat -> rs !! j = Some q -> kills q <> Some w;
  v_armed : forall w, w ∈ armed s -> w ∈ watches s /\ forall q, q ∈ rs -> kills q <> Some w;
  v_new : forall x, x ∈ ws -> req_type x.2 = xs_code XS_WATCH -> req_u x.2 ∉ armed s;
  v_ok : forall a req m, QReply a req m ∈ rs -> reply_ok req (m_type m.1) m.2 /\ m_len m.1 = zlen m.2;
  v_fresh : (forall a, is_Some (h_req (hp s) !! a) -> a < h_next (hp s)) /\ forall w, w ∈ watches s -> w < h_next (hp s);
  v_log : asked s ≡ₚ ids (given s) ++ (user_id ∘ snd <$> under_way ws rs)
}.

(** ** Changes that do not matter *)
Lemma inv_same ws rs s s' : inv ws rs s -> wire s' = wire s -> replies s' = replies s -> h_req (hp s') = h_req (hp s) ->
  h_watch (hp s') = h_watch (hp s) -> h_next (hp s) <= h_next (hp s') -> outstanding_requests s' = outstanding_requests s ->
  transactions s' = transactions s -> watches s' = watches s -> armed s' = armed s -> asked s' = asked s -> given s' = given s -> inv ws rs s'.
Proof.
  intros [] E1 E2 E3 E4 E5 E6 E7 E8 E9 E10 E11. split; rewrite ?E1, ?E2, ?E3, ?E4, ?E6, ?E7, ?E8, ?E9, ?E10, ?E11; try done.
  destruct v_fresh0 as [F1 F2]. split; [intros a Ha; specialize (F1 a Ha); lia | intros w Hw; specialize (F2 w Hw); lia].
Qed.

(** A request that is not under way may be written. *)
Lemma inv_put_req ws rs s a req : inv ws rs s -> (a ∉ (under_way ws rs).*1) -> a < h_next (hp s) ->
  inv ws rs (set_heap (put_req a req (hp s)) s).
Proof.
  intros [] Ha Hlt. split; try done; cbn.
  - apply Forall_forall. intros x Hx. rewrite lookup_insert_ne; [by apply (proj1 (Forall_forall _ _) v_req0) |].
    intros ->. apply Ha. by apply list_elem_of_fmap_2.
  - destruct v_fresh0 as [F1 F2]. split; [| done]. intros b Hb. destruct (decide (b = a)) as [-> | Hne]; [done |]. apply F1. by rewrite lookup_insert_ne in Hb.
Qed.

(** A watch that requests under way are not about may be written. *)
Lemma inv_put_watch ws rs s w x : inv ws rs s -> (w ∉ omap wsub (under_way ws rs) \/ w_visible x = false) -> zlen (w_user_token x) + 2 <= XENSTORE_PAYLOAD_MAX ->
  inv ws rs (set_heap (put_watch w x (hp s)) s).
Proof.
  intros [] Hw Hx. split; try done; cbn.
  - destruct v_sub0 as [V1 V2]. split; [done |]. intros u Hu. destruct (V2 u Hu) as (U1 & y & U2 & U3). split; [done |].
    destruct (decide (u = w)) as [-> | Hne]; [| exists y; by rewrite lookup_insert_ne]. exists x. rewrite lookup_insert_eq. split; [done |]. by destruct Hw.
  - intros u Hu. destruct (decide (u = w)) as [-> | Hne]; [exists x; by rewrite lookup_insert_eq | rewrite lookup_insert_ne by done; auto].
Qed.

Lemma under_way_app ws ws' rs : under_way (ws ++ ws') rs ≡ₚ ws' ++ under_way ws rs.
Proof. unfold under_way. rewrite <- app_assoc. by rewrite Permutation_app_swap_app. Qed.

Global Instance wsubs_perm : Proper ((≡ₚ) ==> (≡ₚ)) (omap wsub : list (Z * dreq) -> list Z).
Proof. intros l1 l2 Hl. by rewrite Hl. Qed.

Lemma omap_wsub_cons x l : omap wsub (x :: l) = option_list (wsub x) ++ omap wsub l.
Proof. cbn. by destruct (wsub x). Qed.

(** ** Submission *)
Section Submit.
Context (ws : list (Z * dreq)) (rs : list qev) (s : bus) (a : Z) (req : dreq) (tx : Z) (data : list Z).
Context (Hi : inv ws rs s) (Ha : h_req (hp s) !! a = Some req) (Hn : a ∉ (under_way ws rs).*1).
Context (Ht : plain_type req).
Context (Hu : about_watch req -> (req_u req ∉ omap wsub (under_way ws rs)) /\ req_u req ∈ watches s /\
  exists x, h_watch (hp s) !! req_u req = Some x /\ w_visible x = false).
Context (Hw : req_type req = xs_code XS_WATCH -> req_u req ∉ armed s).
Context (Hid : user_id req = m_req_id (wbuf_msg s)) (Hmax : outstanding_requests s < INT_MAX) (Hsize : zlen data + Z.of_nat msg_size <= XENSTORE_RING_SIZE).

Lemma inv_submit : exists s', make_request (RQ a) tx data (log_request s) = Done s' /\ inv (ws ++ [(a, req)]) rs s' /\
  outstanding_requests s' = outstanding_requests s + 1 /\ wbuf s' = wbuf s /\ rview s' = rview s /\ given s' = given s.
Proof.
  unfold make_request, get_req. change (hp (log_request s)) with (hp s). change (outstanding_requests (log_request s)) with (outstanding_requests s).
  rewrite Ha. cbn [of_option]. rewrite Done_bind, (proj2 (Z.ltb_lt _ _) Hmax), bmk_assert_true, Done_bind, (proj2 (Z.leb_le _ _) Hsize), bmk_assert_true, Done_bind.
  eexists. split; [reflexivity |]. split; [| done].
  pose proof (under_way_app ws [(a, req)] rs) as Hp. cbn [app] in Hp. destruct Hi. split; cbn; try done.
  - apply Forall2_app; [done |]. by repeat constructor.
  - rewrite Hp. by constructor.
  - rewrite Hp. by apply NoDup_cons.
  - rewrite (Permutation_length Hp), v_count0. cbn. lia.
  - destruct v_trans0 as [V1 V2]. split; [done |]. rewrite Hp. by constructor.
  - assert (omap wsub (under_way (ws ++ [(a, req)]) rs) ≡ₚ option_list (wsub (a, req)) ++ omap wsub (under_way ws rs)) as Ho by (by rewrite Hp, omap_wsub_cons).
    destruct v_sub0 as [V1 V2]. change (wsub (a, req)) with (if decide (about_watch req) then Some (req_u req) else None) in Ho. destruct (decide (about_watch req)) as [Hab | Hab]; cbn [option_list] in Ho.
    + destruct (Hu Hab) as (U1 & U2 & U3). split; [rewrite Ho; by apply NoDup_cons |]. intros w. rewrite Ho. intros [-> | Hin]%elem_of_cons; [done | by apply V2].
    + split; [by rewrite Ho |]. intros w. rewrite Ho. apply V2.
  - intros x [Hx | ->%list_elem_of_singleton]%elem_of_app; [by apply v_new0 | done].
  - rewrite Hp. cbn. rewrite v_log0, Hid. change (m_req_id (wbuf_msg (log_request s))) with (m_req_id (wbuf_msg s)). solve_Permutation.
Qed.
End Submit.

(** ** Allocation *)
Lemma uw_alive ws rs s a : inv ws rs s -> a ∈ (under_way ws rs).*1 -> a < h_next (hp s).
Proof.
  intros Hi (x & -> & Hx)%list_elem_of_fmap. apply (proj1 (v_fresh _ _ _ Hi)). rewrite (proj1 (Forall_forall _ _) (v_req _ _ _ Hi) x Hx). by eexists.
Qed.

Lemma sub_watch ws rs s w : inv ws rs s -> w ∈ omap wsub (under_way ws rs) -> w ∈ watches s /\ w < h_next (hp s).
Proof. intros Hi Hw. destruct (proj2 (v_sub _ _ _ Hi) w Hw) as [? _]. split; [done | by apply (v_fresh _ _ _ Hi)]. Qed.

Lemma inv_malloc ws rs s : inv ws rs s -> exists o h, xbd_malloc (hp s) = (o, h) /\ inv ws rs (set_heap h s) /\ h_next h = h_next (hp s) + 1 /\
  h_req h = h_req (hp s) /\ h_watch h = h_watch (hp s) /\ (forall a, o = Some a -> a = h_next (hp s)).
Proof.
  intros Hi. eexists _, _. split; [reflexivity |]. split; [apply (inv_same _ _ s); try done; cbn; lia |]. split_and!; try done.
  intros a Ha. destruct (default true (head (mallocs (hp s)))); by simplify_eq.
Qed.

Lemma inv_add_watch ws rs s w x r : inv ws rs s -> (w ∉ watches s) -> w < h_next (hp s) -> zlen (w_user_token x) + 2 <= XENSTORE_PAYLOAD_MAX ->
  inv ws rs (put_watches (w :: watches s) r (set_heap (put_watch w x (hp s)) s)).
Proof.
  intros Hi Hw Hlt Hx. assert (w ∉ omap wsub (under_way ws rs)) as Hn by (intros Hn; by destruct (sub_watch _ _ _ _ Hi Hn)).
  pose proof (inv_put_watch _ _ _ w x Hi (or_introl Hn) Hx) as Hi'. destruct Hi'. split; try done; cbn in *.
  - destruct v_sub0 as [V1 V2]. split; [done |]. intros u Hu. destruct (V2 u Hu) as [? ?]. split; [by right | done].
  - intros u [-> | Hu]%elem_of_cons; [exists x; by rewrite lookup_insert_eq | auto].
  - intros i u path Hu. destruct (v_order0 i u path Hu) as (? & ? & ?). split; [by right | done].
  - intros u Hu. destruct (v_armed0 u Hu) as [? ?]. split; [by right | done].
  - destruct v_fresh0 as [F1 F2]. split; [done |]. intros u [-> | Hu]%elem_of_cons; auto.
Qed.

(** ** Requests of the process *)
Definition req_post (rs : list qev) (s : bus) (err : Z) (s' : bus) : Prop :=
  (exists ws', inv ws' rs s') /\ (wbuf s' = wbuf s \/ (wbuf s' = [] /\ err <> 0)) /\ outstanding_requests s' <= outstanding_requests s + 1 /\
  rview s' = rview s /\ given s' = given s.

Lemma trouble_post ws rs s0 s : inv ws rs s -> wbuf s = wbuf s0 -> outstanding_requests s = outstanding_requests s0 -> rview s = rview s0 -> given s = given s0 ->
  exists err s', WTROUBLE s = Done (err, s') /\ req_post rs s0 err s'.
Proof.
  intros Hi E1 E2 E3 E4. do 2 eexists. split; [reflexivity |]. split; [exists ws; by apply (inv_same _ _ s) |]. split; [by right |]. cbn. split_and!; [lia | done | done].
Qed.

Lemma enomem_post ws rs s0 s : inv ws rs s -> wbuf s = wbuf s0 -> outstanding_requests s = outstanding_requests s0 -> rview s = rview s0 -> given s = given s0 ->
  req_post rs s0 ENOMEM s.
Proof. intros Hi E1 E2 E3 E4. split; [by exists ws |]. split; [by left |]. split_and!; [lia | done | done]. Qed.

(** The state in which the kinds of requests are told apart. *)
Record ready (ws : list (Z * dreq)) (rs : list qev) (s0 s : bus) (a : Z) (req : dreq) : Prop := {
  rd_inv : inv ws rs s;
  rd_req : h_req (hp s) !! a = Some req;
  rd_new : a ∉ (under_way ws rs).*1;
  rd_lt : a < h_next (hp s);
  rd_id : user_id req = m_req_id (wbuf_msg s);
  rd_buf : wbuf s = wbuf s0;
  rd_cnt : outstanding_requests s = outstanding_requests s0;
  rd_rmsg : rview s = rview s0;
  rd_done : given s = given s0;
  rd_max : outstanding_requests s0 < INT_MAX
}.

Lemma ready_submit ws rs s0 s a req tx data : ready ws rs s0 s a req -> plain_type req ->
  (about_watch req -> (req_u req ∉ omap wsub (under_way ws rs)) /\ req_u req ∈ watches s /\ exists x, h_watch (hp s) !! req_u req = Some x /\ w_visible x = false) ->
  (req_type req = xs_code XS_WATCH -> req_u req ∉ armed s) -> zlen data + Z.of_nat msg_size <= XENSTORE_RING_SIZE ->
  exists err s', (s ← make_request (RQ a) tx data (log_request s); Done (0, s)) = Done (err, s') /\ req_post rs s0 err s'.
Proof.
  intros [] Ht Hu Hw Hd. destruct (inv_submit ws rs s a req tx data) as (s' & E & Hi & E1 & E2 & E3 & E4); try done; [congruence |].
  rewrite E, Done_bind. do 2 eexists. split; [reflexivity |]. split; [by eexists |]. split; [left; congruence |]. split_and!; [lia | congruence | congruence].
Qed.

(** The request is changed, other objects are allocated. *)
Lemma ready_change ws rs s0 s a req u h : ready ws rs s0 s a req -> inv ws rs (set_heap h s) -> h_next (hp s) <= h_next h ->
  ready ws rs s0 (set_heap (put_req a (DReq (user_id req) (req_type req) u) h) s) a (DReq (user_id req) (req_type req) u).
Proof.
  intros [] Hi Hlt. split; try done.
  - apply (inv_put_req ws rs (set_heap h s)); cbn; [done | done | lia].
  - cbn. by rewrite lookup_insert_eq.
  - cbn. lia.
Qed.

Context (Htok : forall w, zlen (xb_token w) <= 20).

Section Kinds.
Context (ws : list (Z * dreq)) (rs : list qev) (s0 s : bus) (a : Z) (req : dreq) (Hr : ready ws rs s0 s a req).
Context (Hsize : zlen (wbuf s) + 21 <= XENSTORE_RING_SIZE) (Hhdr : Z.of_nat msg_size <= zlen (wbuf s)) (Hpay : m_len (wbuf_msg s) <= XENSTORE_PAYLOAD_MAX).

Lemma forward_size : zlen (drop msg_size (wbuf s)) + Z.of_nat msg_size <= XENSTORE_RING_SIZE.
Proof. rewrite length_drop. lia. Qed.

Lemma hdr_len : 0 <= m_len (wbuf_msg s).
Proof. destruct (sockmsg_of_ok (take msg_size (wbuf s))) as (_ & _ & _ & Hl); [rewrite length_take; lia | unfold u32 in Hl; unfold wbuf_msg; lia]. Qed.

Lemma plain_ok x : req_type req = xs_code x -> x <> XS_TRANSACTION_END -> x <> XS_WATCH -> x <> XS_UNWATCH ->
  exists err s', request_plain a s = Done (err, s') /\ req_post rs s0 err s'.
Proof.
  intros Ex N1 N2 N3. unfold request_plain. rewrite (proj1 (v_trans _ _ _ (rd_inv _ _ _ _ _ _ Hr))).
  destruct (m_tx_id (wbuf_msg s) =? 0); cbn [find_transaction]; rewrite !Done_bind; cbn [negb is_Some].
  - apply (ready_submit ws rs s0 s a req); try done; [| | | by apply forward_size].
    + by apply (code_plain x).
    + intros [E | E]; rewrite Ex in E; apply xs_code_inj in E; done.
    + intros E. rewrite Ex in E. apply xs_code_inj in E. done.
  - rewrite bool_decide_eq_false_2 by (by intros []). destruct Hr. by eapply trouble_post.
Qed.

Lemma start_ok : req_type req = xs_code XS_TRANSACTION_START -> exists err s', request_start a req s = Done (err, s') /\ req_post rs s0 err s'.
Proof.
  intros Ex. unfold request_start. destruct (negb _); [destruct Hr; by eapply trouble_post |].
  destruct (inv_malloc ws rs s (rd_inv _ _ _ _ _ _ Hr)) as (o & h & Eo & Hi & Hn & _ & _ & _). rewrite Eo.
  destruct o as [t |]; [| do 2 eexists; split; [reflexivity |]; destruct Hr; by eapply enomem_post].
  assert (inv ws rs (set_heap (put_trans t 0 h) s)) as Hi2 by (apply (inv_same _ _ (set_heap h s)); try done; cbn; lia).
  pose proof (ready_change ws rs s0 s a req t _ Hr Hi2 ltac:(cbn; lia)) as Hr2.
  assert (forall x, x <> XS_TRANSACTION_START -> req_type req <> xs_code x) as Hne by (intros x Hx E; rewrite Ex in E; apply xs_code_inj in E; congruence).
  apply (ready_submit ws rs s0 _ a _ _ _ Hr2); cbn; [by apply (code_plain XS_TRANSACTION_START) | | by intros ?%Hne | apply forward_size].
  intros [E | E]; cbn in E; by apply Hne in E.
Qed.

Lemma end_ok : exists err s', request_end a req s = Done (err, s') /\ req_post rs s0 err s'.
Proof.
  unfold request_end. destruct (_ =? 0); [destruct Hr; by eapply trouble_post |].
  rewrite (proj1 (v_trans _ _ _ (rd_inv _ _ _ _ _ _ Hr))). cbn [find_transaction]. rewrite Done_bind. destruct Hr. by eapply trouble_post.
Qed.

Lemma split_str_len l x r : split_str l = Some (x, r) -> zlen l = zlen x + 1 + zlen r.
Proof.
  revert x r. induction l as [| b l IH]; intros x r E; cbn in E; [done |]. destruct (b =? 0); [simplify_eq; cbn; lia |].
  destruct (split_str l) as [[y q] |]; simplify_eq/=. specialize (IH _ _ eq_refl). lia.
Qed.

Lemma parse_ok path token : watch_message_parse s = Some (path, token) ->
  zlen path + 1 + Z.of_nat msg_size <= zlen (wbuf s) /\ zlen token + 2 <= XENSTORE_PAYLOAD_MAX.
Proof.
  unfold watch_message_parse. intros E. pose proof hdr_len as Hl. destruct (split_str _) as [[p r] |] eqn:E1; simplify_eq/=.
  destruct (split_str r) as [[tk r2] |] eqn:E2; simplify_eq/=. apply split_str_len in E1, E2.
  rewrite length_take, length_drop in E1. lia.
Qed.

Lemma watch_size w path : zlen path + 1 + Z.of_nat msg_size <= zlen (wbuf s) ->
  zlen (watch_write_req_string path ++ watch_write_req_string (xb_token w)) + Z.of_nat msg_size <= XENSTORE_RING_SIZE.
Proof. intros Hp. unfold watch_write_req_string. rewrite !length_app. cbn [length]. specialize (Htok w). lia. Qed.

Lemma make_watch_eq r tx w x (s1 : bus) : h_watch (hp s1) !! w = Some x ->
  make_watch_request xb_token r tx w s1 = make_request r tx (watch_write_req_string (w_path x) ++ watch_write_req_string (xb_token w)) s1.
Proof. unfold make_watch_request. intros ->. done. Qed.

Lemma watch_ok : req_type req = xs_code XS_WATCH -> exists err s', request_watch xb_token a req s = Done (err, s') /\ req_post rs s0 err s'.
Proof.
  intros Ex. unfold request_watch. destruct (negb _); [destruct Hr; by eapply trouble_post |].
  destruct (watch_message_parse s) as [[path token] |] eqn:Ep; [| destruct Hr; by eapply trouble_post]. destruct (parse_ok _ _ Ep) as [Hpath Htoken].
  pose proof (rd_inv _ _ _ _ _ _ Hr) as Hi.
  destruct (inv_malloc ws rs s Hi) as (o & h1 & Eo & Hi1 & Hn1 & R1 & W1 & F1). rewrite Eo.
  destruct o as [w |]; [| do 2 eexists; split; [reflexivity |]; destruct Hr; by eapply enomem_post]. specialize (F1 w eq_refl).
  destruct (inv_malloc ws rs _ Hi1) as (o1 & h2 & E2 & Hi2 & Hn2 & R2 & W2 & _). cbn in E2. rewrite E2.
  destruct (inv_malloc ws rs _ Hi2) as (o2 & h3 & E3 & Hi3 & Hn3 & R3 & W3 & _). cbn in E3. rewrite E3. cbn in Hn2, Hn3, R2, R3, W2, W3.
  destruct o1 as [p1 |]; [| do 2 eexists; split; [reflexivity |]; destruct Hr; by eapply enomem_post].
  destruct o2 as [p2 |]; [| do 2 eexists; split; [reflexivity |]; destruct Hr; by eapply enomem_post].
  set (x := DWatch path token false). set (rq := DReq (user_id req) (req_type req) w).
  assert (w ∉ watches s) as Hw by (intros Hw; apply (v_fresh _ _ _ Hi) in Hw; lia).
  assert (inv ws rs (put_watches (w :: watches s) (w :: registered s) (set_heap (put_watch w x h3) s))) as Hi4.
  { apply (inv_add_watch ws rs (set_heap h3 s)); cbn; [done | done | lia | done]. }
  rewrite (make_watch_eq _ _ w x) by (cbn; by rewrite lookup_insert_eq).
  set (s1 := put_watches (w :: watches s) (w :: registered s) (set_heap (put_req a rq (put_watch w x h3)) s)).
  assert (ready ws rs s0 s1 a rq) as Hr1.
  { destruct Hr. split; try done.
    - apply (inv_put_req ws rs (put_watches (w :: watches s) (w :: registered s) (set_heap (put_watch w x h3) s)) a rq); cbn; [done | done | lia].
    - cbn. by rewrite lookup_insert_eq.
    - cbn. lia. }
  apply (ready_submit ws rs s0 s1 a rq _ _ Hr1).
  - by apply (code_plain XS_WATCH).
  - intros _. cbn. split; [intros Hin; by destruct (sub_watch _ _ _ _ Hi Hin) |]. split; [by left |]. exists x. by rewrite lookup_insert_eq.
  - intros _. cbn. intros Hin. by destruct (v_armed _ _ _ Hi w Hin).
  - by apply watch_size.
Qed.

Lemma find_visible_ok path token l : (forall w, w ∈ l -> w ∈ watches s) ->
  exists o, find_visible_watch l (hp s) path token = Done o /\
    forall w, o = Some w -> w ∈ watches s /\ exists x, h_watch (hp s) !! w = Some x /\ w_visible x = true /\ w_path x = path.
Proof.
  intros Hl. induction l as [| w l IH]; cbn [find_visible_watch]; [by eexists |].
  destruct (v_watches _ _ _ (rd_inv _ _ _ _ _ _ Hr) w) as (x & Ex & _); [apply Hl; by left |]. rewrite Ex. cbn [of_option]. rewrite Done_bind.
  destruct (w_visible x && _ && _) eqn:E; [| apply IH; intros u Hu; apply Hl; by right].
  apply andb_true_iff in E as [[E1 E2]%andb_true_iff _]. apply bool_decide_eq_true in E2. eexists. split; [reflexivity |]. intros u [= <-].
  split; [apply Hl; by left |]. by exists x.
Qed.

Lemma unwatch_ok : req_type req = xs_code XS_UNWATCH -> exists err s', request_unwatch xb_token a req s = Done (err, s') /\ req_post rs s0 err s'.
Proof.
  intros Ex. unfold request_unwatch. destruct (negb _); [destruct Hr; by eapply trouble_post |].
  destruct (watch_message_parse s) as [[path token] |] eqn:Ep; [| destruct Hr; by eapply trouble_post]. destruct (parse_ok _ _ Ep) as [Hpath _].
  destruct (find_visible_ok path token (watches s) ltac:(done)) as (o & -> & Ho). rewrite Done_bind.
  destruct o as [w |]; [| destruct Hr; by eapply trouble_post]. destruct (Ho w eq_refl) as (Hw & x & Exw & Hv & Hp).
  pose proof (rd_inv _ _ _ _ _ _ Hr) as Hi. rewrite Exw. cbn [of_option]. rewrite Done_bind.
  assert (w ∉ omap wsub (under_way ws rs)) as Hn.
  { intros Hin. destruct (proj2 (v_sub _ _ _ Hi) w Hin) as (_ & y & Ey & Hy). congruence. }
  set (x' := DWatch (w_path x) (w_user_token x) false). set (rq := DReq (user_id req) (req_type req) w).
  destruct (v_watches _ _ _ Hi w Hw) as (y & Ey & Hlen). rewrite Exw in Ey. injection Ey as <-.
  assert (inv ws rs (set_heap (put_watch w x' (hp s)) s)) as Hi2 by (apply inv_put_watch; [done | by left | done]).
  pose proof (ready_change ws rs s0 s a req w _ Hr Hi2 ltac:(cbn; lia)) as Hr2. fold rq in Hr2.
  rewrite (make_watch_eq _ _ w x') by (cbn; by rewrite lookup_insert_eq).
  apply (ready_submit ws rs s0 _ a rq _ _ Hr2).
  - by apply (code_plain XS_UNWATCH).
  - intros _. cbn. split; [done |]. split; [done |]. exists x'. by rewrite lookup_insert_eq.
  - cbn. rewrite Ex. intros E%xs_code_inj. done.
  - apply watch_size. cbn. by rewrite Hp.
Qed.
End Kinds.

Lemma process_request_ok ws rs s : inv ws rs s -> outstanding_requests s < INT_MAX -> zlen (wbuf s) + 21 <= XENSTORE_RING_SIZE ->
  Z.of_nat msg_size <= zlen (wbuf s) -> m_len (wbuf_msg s) <= XENSTORE_PAYLOAD_MAX ->
  exists err s', rumpxenbus_process_request xb_token s = Done (err, s') /\ req_post rs s err s'.
Proof.
  intros Hi Hmax Hsize Hhdr Hpay. unfold rumpxenbus_process_request. destruct (inv_malloc ws rs s Hi) as (o & h & -> & Hi1 & Hn & R1 & W1 & Ho).
  destruct o as [a |]; [| do 2 eexists; split; [reflexivity |]; by eapply enomem_post]. specialize (Ho a eq_refl).
  set (req := DReq (m_req_id (wbuf_msg s)) (m_type (wbuf_msg s)) 0). set (s1 := set_heap (put_req a req h) s).
  assert (a ∉ (under_way ws rs).*1) as Hna by (intros Hin; apply (uw_alive _ _ _ _ Hi) in Hin; lia).
  assert (ready ws rs s s1 a req) as Hr.
  { split; try done.
    - apply (inv_put_req ws rs (set_heap h s)); cbn; [done | done | lia].
    - cbn. by rewrite lookup_insert_eq.
    - cbn. lia. }
  destruct (xs_kind (m_type (wbuf_msg s))) as [x |] eqn:Ex; [| by eapply trouble_post; [apply (rd_inv _ _ _ _ _ _ Hr) | ..]].
  apply xs_kind_Some in Ex. change (m_type (wbuf_msg s)) with (req_type req) in Ex.
  destruct x; try (by eapply plain_ok); [by eapply start_ok | by eapply end_ok | by eapply watch_ok | by eapply unwatch_ok |].
  by eapply trouble_post; [apply (rd_inv _ _ _ _ _ _ Hr) | ..].
Qed.

(** ** Writing *)
Definition write_post (rs : list qev) (s : bus) (n : Z) (s' : bus) : Prop :=
  (exists ws', inv ws' rs s') /\ zlen (wbuf s') <= zlen (wbuf s) + n /\
  outstanding_requests s' + zlen (wbuf s') <= outstanding_requests s + zlen (wbuf s) + n /\ rview s' = rview s /\ given s' = given s.

Lemma process_buffer_ok rs : forall fuel ws s, inv ws rs s -> outstanding_requests s + zlen (wbuf s) <= INT_MAX -> zlen (wbuf s) + 21 <= XENSTORE_RING_SIZE ->
  (length (wbuf s) < fuel)%nat -> exists err s', process_buffer xb_token fuel s = Done (err, s') /\ write_post rs s 0 s'.
Proof.
  induction fuel as [| fuel IH]; intros ws s Hi Hmax Hsize Hfuel; [lia |]. cbn [process_buffer].
  assert (write_post rs s 0 s) as Hid by (split; [by exists ws |]; split_and!; [lia | lia | done | done]).
  destruct (Z.ltb_spec (zlen (wbuf s)) (Z.of_nat msg_size)); [by do 2 eexists |].
  destruct (Z.ltb_spec XENSTORE_PAYLOAD_MAX (m_len (wbuf_msg s))).
  { do 2 eexists. split; [reflexivity |]. split; [exists ws; by apply (inv_same _ _ s) |]. cbn. split_and!; [lia | lia | done | done]. }
  assert (0 <= m_len (wbuf_msg s)) as Hl by (by apply hdr_len). pose proof (proj1 msg_size_ok) as Hms.
  rewrite (proj2 (Z.leb_le _ BUFFER_SIZE)) by (unfold BUFFER_SIZE; lia). rewrite bmk_assert_true, Done_bind.
  destruct (Z.ltb_spec (zlen (wbuf s)) (m_len (wbuf_msg s) + Z.of_nat msg_size)); [by do 2 eexists |].
  destruct (process_request_ok ws rs s Hi) as (err & s1 & -> & (ws1 & Hi1) & Hb & Hc & Hm & Hd); [lia | done | done | done |]. rewrite Done_bind. cbv beta iota.
  set (s2 := if zlen (wbuf s1) =? 0 then s1 else _).
  assert (inv ws1 rs s2 /\ zlen (wbuf s2) < zlen (wbuf s) /\ outstanding_requests s2 = outstanding_requests s1 /\ rview s2 = rview s1 /\ given s2 = given s1) as (Hi2 & L2 & C2 & M2 & D2).
  { unfold s2. destruct (Z.eqb_spec (zlen (wbuf s1)) 0); [split; [done |]; split_and!; [lia | done ..] |].
    split; [by apply (inv_same _ _ s1) |]. split; [| done]. cbn. rewrite length_drop. destruct Hb as [-> | [E _]]; [lia | rewrite E in *; cbn in *; lia]. }
  destruct (err =? 0).
  - destruct (IH ws1 s2 Hi2) as (e & s3 & -> & Hw3 & L3 & C3 & M3 & D3); [lia | lia | lia |]. do 2 eexists. split; [reflexivity |]. split; [done |]. split_and!; [lia | lia | congruence | congruence].
  - do 2 eexists. split; [reflexivity |]. split; [by exists ws1 |]. split_and!; [lia | lia | congruence | congruence].
Qed.

Lemma write_ok rs : forall fuel ws s data, inv ws rs s -> outstanding_requests s + zlen (wbuf s) + zlen data <= INT_MAX ->
  zlen (wbuf s) + zlen data + 21 <= XENSTORE_RING_SIZE -> (length data < fuel)%nat ->
  exists err s', xenbus_dev_write xb_token fuel data s = Done (err, s') /\ (exists ws', inv ws' rs s') /\ rview s' = rview s /\ given s' = given s.
Proof.
  intros [| fuel] ws s data Hi Hmax Hsize Hfuel; [lia |]. pose proof payload_max_ok as Hbuf. fold XENSTORE_RING_SIZE in Hbuf. cbn [xenbus_dev_write]. destruct data as [| b data]; [do 2 eexists; by eauto |].
  set (room := Z.to_nat (BUFFER_SIZE - zlen (wbuf s))). assert (length (b :: data) <= room)%nat as Hroom by (unfold room, BUFFER_SIZE; lia).
  rewrite take_ge, drop_ge by done. set (s1 := set_wbuf (wbuf s ++ b :: data) s). assert (inv ws rs s1) as Hi1 by (by apply (inv_same _ _ s)).
  assert (zlen (wbuf s1) = zlen (wbuf s) + zlen (b :: data)) as L1 by (cbn [s1 set_wbuf wbuf]; rewrite length_app; lia).
  destruct (process_buffer_ok rs (S (length (wbuf s1))) ws s1 Hi1) as (err & s2 & -> & (Hw & L2 & C2 & M2 & D2)); [cbn [s1 set_wbuf outstanding_requests] in *; lia | lia | lia |].
  rewrite Done_bind. cbv beta iota. destruct (err =? 0); [| do 2 eexists; by eauto]. destruct fuel as [| fuel]; cbn [xenbus_dev_write]; do 2 eexists; by eauto.
Qed.

(** ** Events *)
Lemma kills_sub a req m w : kills (QReply a req m) = Some w -> wsub (a, req) = Some w.
Proof. cbn. unfold wsub, about_watch. cbn. destruct (decide _) as [Hk |]; [| done]. intros [= <-]. rewrite decide_True by naive_solver. done. Qed.

Lemma under_way_reply ws a req m rs : under_way ws (QReply a req m :: rs) ≡ₚ (a, req) :: under_way ws rs.
Proof. unfold under_way. cbn. by rewrite <- Permutation_middle. Qed.

Lemma inv_answered ws rs a req m s s' : inv ws (QReply a req m :: rs) s -> replies s' = qev_ev <$> rs -> wire s' = wire s -> armed s' = armed s ->
  transactions s' = transactions s -> asked s' = asked s -> ids (given s') = ids (given s) ++ [user_id req] -> outstanding_requests s' = outstanding_requests s - 1 ->
  h_req (hp s') = delete a (h_req (hp s)) -> h_next (hp s') = h_next (hp s) -> (forall w, w ∈ watches s' -> w ∈ watches s) ->
  (forall w, w ∈ watches s -> kills (QReply a req m) <> Some w ->
    w ∈ watches s' /\ (wsub (a, req) <> Some w -> h_watch (hp s') !! w = h_watch (hp s) !! w)) ->
  (forall w, w ∈ watches s' -> exists x, h_watch (hp s') !! w = Some x /\ zlen (w_user_token x) + 2 <= XENSTORE_PAYLOAD_MAX) -> inv ws rs s'.
Proof.
  intros [] E1 E2 E3 E4 E5 E6 E7 E8 E9 Hsub Hkeep Hw. pose proof (under_way_reply ws a req m rs) as Hp.
  rewrite Hp in v_req0. apply Forall_cons in v_req0 as [Ha Hreq]. rewrite Hp in v_nodup0. apply NoDup_cons in v_nodup0 as [Hna Hnd].
  rewrite (Permutation_length Hp) in v_count0. cbn in v_count0. destruct v_trans0 as [T1 T2]. rewrite Hp in T2. apply Forall_cons in T2 as [_ T2].
  destruct v_sub0 as [S1 S2]. assert (omap wsub (under_way ws (QReply a req m :: rs)) ≡ₚ option_list (wsub (a, req)) ++ omap wsub (under_way ws rs)) as Ho by (by rewrite Hp, omap_wsub_cons).
  rewrite Ho in S1. assert (forall w, w ∈ omap wsub (under_way ws rs) -> wsub (a, req) <> Some w) as Hns.
  { intros w Hin E. rewrite E in S1. cbn in S1. by apply NoDup_cons in S1 as [? _]. }
  split; rewrite ?E2, ?E3, ?E4, ?E5, ?E6, ?E7, ?E8, ?E9; try done.
  - apply Forall_forall. intros x Hx. rewrite lookup_delete_ne; [by apply (proj1 (Forall_forall _ _) Hreq) |]. intros Hax. apply Hna. cbn. rewrite Hax. by apply list_elem_of_fmap_2.
  - rewrite v_count0. lia.
  - split; [by apply NoDup_app in S1 as (_ & _ & ?) |]. intros w Hin. destruct (S2 w) as (W1 & x & W2 & W3); [rewrite Ho; apply elem_of_app; by right |].
    assert (kills (QReply a req m) <> Some w) as Hk by (intros Hk%kills_sub; by apply (Hns w)). destruct (Hkeep w W1 Hk) as [W4 W5].
    split; [done |]. exists x. by rewrite W5 by auto.
  - intros i w path Hi. destruct (v_order0 (S i) w path Hi) as (W1 & W2 & W3). split; [apply Hkeep; [done |]; apply (W3 0%nat); [lia | done] |].
    split; [done |]. intros j q Hj Hq. apply (W3 (S j)); [lia | done].
  - intros w Hin. destruct (v_armed0 w Hin) as [W1 W2]. split; [apply Hkeep; [done |]; apply W2; by left |]. intros q Hq. apply W2. by right.
  - intros b r n Hq. apply (v_ok0 b). by right.
  - destruct v_fresh0 as [F1 F2]. split; [| auto]. intros b Hb. apply F1. destruct Hb as [z Hz]. apply lookup_delete_Some in Hz as [_ Hz]. by eexists.
  - rewrite v_log0, Hp. cbn. by rewrite <- app_assoc.
Qed.

Lemma inv_pop_watch ws rs w path s : inv ws (QWatch w path :: rs) s -> inv ws rs (set_replies (qev_ev <$> rs) s).
Proof.
  intros []. split; try done; cbn.
  - intros i u p Hi. destruct (v_order0 (S i) u p Hi) as (W1 & W2 & W3). split; [done |]. split; [done |]. intros j q Hj Hq. apply (W3 (S j)); [lia | done].
  - intros u Hu. destruct (v_armed0 u Hu) as [W1 W2]. split; [done |]. intros q Hq. apply W2. by right.
  - intros a r m Hq. apply (v_ok0 a). by right.
Qed.

Lemma inv_watch_event ws rs s m : inv ws rs s -> m_type m.1 = XS_WATCH_EVENT -> inv ws rs (set_log (asked s) (given s ++ [m]) s).
Proof. intros [] Em. split; try done. cbn [set_log given asked]. by rewrite ids_event. Qed.

(** A message that the reader gets. *)
Definition fetched (ws : list (Z * dreq)) (s : bus) (o : option message) (s' : bus) : Prop :=
  (exists rs', inv ws rs' s') /\ rview s' = rview s /\ given s' = given s ++ option_list o /\ (forall m, o = Some m -> zlen m.2 <= 2 * XENSTORE_PAYLOAD_MAX).

Lemma watch_event_ok ws rs w path s : inv ws (QWatch w path :: rs) s ->
  exists o s', process_watch_event w path (set_replies (qev_ev <$> rs) s) = Done (o, s') /\ fetched ws s o s'.
Proof.
  intros Hi. destruct (v_order _ _ _ Hi 0%nat w path eq_refl) as (Hw & Hp & _). destruct (v_watches _ _ _ Hi w Hw) as (x & Ex & Hx).
  pose proof (inv_pop_watch _ _ _ _ _ Hi) as Hi1. unfold process_watch_event. cbn [set_replies hp]. rewrite Ex. cbn [of_option]. rewrite Done_bind.
  destruct (inv_malloc _ _ _ Hi1) as (o & h & E & Hi2 & _). cbn [set_replies hp] in E. rewrite E.
  destruct o; (do 2 eexists; split; [reflexivity |]; split; [exists rs |]).
  - by apply (inv_watch_event _ _ _ _ Hi2).
  - split; [done |]. split; [done |]. intros m [= <-]. cbn [snd]. rewrite length_app. cbn [app length]. rewrite length_app. cbn [length]. lia.
  - by apply (inv_same _ _ _ _ Hi2).
  - split; [done |]. split; [by rewrite app_nil_r | done].
Qed.

Section Response.
Context (ws : list (Z * dreq)) (rs : list qev) (a : Z) (req : dreq) (m : message) (s : bus).
Context (Hi : inv ws (QReply a req m :: rs) s).

Lemma reply_watch : about_watch req -> req_u req ∈ watches s /\ exists x, h_watch (hp s) !! req_u req = Some x /\ w_visible x = false /\ zlen (w_user_token x) + 2 <= XENSTORE_PAYLOAD_MAX.
Proof.
  intros Hab. destruct (proj2 (v_sub _ _ _ Hi) (req_u req)) as (W1 & x & W2 & W3).
  { rewrite (under_way_reply ws a req m rs), omap_wsub_cons. unfold wsub at 1. cbn [snd]. rewrite decide_True by done. cbn. by left. }
  split; [done |]. destruct (v_watches _ _ _ Hi _ W1) as (y & Ey & Hy). exists x. rewrite W2 in Ey. by simplify_eq.
Qed.

(** What the response does to the watches, before the request is freed. *)
Definition effect_ok (s' : bus) : Prop :=
  exists l r h, s' = set_heap h (put_watches l r s) /\ h_req h = h_req (hp s) /\ h_next h = h_next (hp s) /\ (forall w, w ∈ l -> w ∈ watches s) /\
  (forall w, w ∈ watches s -> kills (QReply a req m) <> Some w -> w ∈ l /\ (wsub (a, req) <> Some w -> h_watch h !! w = h_watch (hp s) !! w)) /\
  (forall w, w ∈ l -> exists x, h_watch h !! w = Some x /\ zlen (w_user_token x) + 2 <= XENSTORE_PAYLOAD_MAX).

Lemma effect_none : effect_ok s.
Proof. exists (watches s), (registered s), (hp s). split; [by destruct s |]. split_and!; try done. apply (v_watches _ _ _ Hi). Qed.

Lemma effect_unwatch : about_watch req -> kills (QReply a req m) = Some (req_u req) -> exists s', do_unwatch (req_u req) s = Done s' /\ effect_ok s'.
Proof.
  intros Hab Hk. destruct (reply_watch Hab) as (W1 & x & W2 & W3 & W4). unfold do_unwatch. rewrite W2. cbn [of_option]. rewrite Done_bind, W3.
  cbn [negb]. rewrite bmk_assert_true, Done_bind, bool_decide_eq_true_2 by done. rewrite bmk_assert_true, Done_bind. eexists. split; [reflexivity |].
  eexists _, _, _. split; [reflexivity |]. cbn. split; [done |]. split; [done |]. split; [intros w Hw; by apply list_elem_of_filter in Hw as [_ ?] |]. split.
  - intros w Hw Hne. assert (w <> req_u req) as Hn by (intros ->; exact (Hne Hk)). split; [by apply list_elem_of_filter |]. intros _. by rewrite lookup_delete_ne.
  - intros w [Hn Hw]%list_elem_of_filter. rewrite lookup_delete_ne by done. by apply (v_watches _ _ _ Hi).
Qed.

Lemma effect_visible : req_type req = xs_code XS_WATCH -> forall x, h_watch (hp s) !! req_u req = Some x ->
  effect_ok (set_heap (put_watch (req_u req) (DWatch (w_path x) (w_user_token x) true) (hp s)) s).
Proof.
  intros Hab x Ex. destruct (reply_watch (or_introl Hab)) as (W1 & y & W2 & _ & W4). rewrite W2 in Ex. simplify_eq.
  eexists (watches s), (registered s), _. split; [by destruct s |]. cbn. split; [done |]. split; [done |]. split; [done |]. split.
  - intros w Hw _. split; [done |]. unfold wsub, about_watch. cbn [snd]. rewrite decide_True by (by left). intros Hne. rewrite lookup_insert_ne by congruence. done.
  - intros w Hw. destruct (decide (w = req_u req)) as [-> | Hne]; [rewrite lookup_insert_eq; by eexists | rewrite lookup_insert_ne by done; by apply (v_watches _ _ _ Hi)].
Qed.

Lemma effect_step (m' : message) : m_type m'.1 = m_type m.1 ->
  exists s', response_effect req (m_type m.1 =? xs_code XS_ERROR) m' s = Done s' /\ effect_ok s'.
Proof.
  intros Em. destruct (v_ok _ _ _ Hi a req m ltac:(by left)) as [(O1 & O2 & O3 & O4) _]. pose proof effect_none as Hnone.
  unfold response_effect. destruct (xs_kind (req_type req)) as [x |] eqn:Ex; [| by exists s]. apply xs_kind_Some in Ex.
  destruct (Z.eqb_spec (m_type m.1) (xs_code XS_ERROR)) as [Er | Er]; destruct x; try (by exists s).
  - destruct (v_trans _ _ _ Hi) as [_ T]. rewrite (under_way_reply ws a req m rs) in T. by apply Forall_cons in T as [[T _] _].
  - apply effect_unwatch; [by left |]. cbn. by rewrite decide_True by auto.
  - by destruct (O3 Ex).
  - by destruct (Er (O4 Ex)).
  - destruct (v_trans _ _ _ Hi) as [_ T]. rewrite (under_way_reply ws a req m rs) in T. by apply Forall_cons in T as [[T _] _].
  - destruct (reply_watch (or_introl Ex)) as (_ & y & Ey & _). rewrite Ey. cbn [of_option]. rewrite Done_bind. eexists. split; [reflexivity |]. by apply effect_visible.
  - cbn [negb]. rewrite bmk_assert_true, Done_bind. apply effect_unwatch; [by right |]. cbn. by rewrite decide_True by auto.
Qed.
End Response.

(** The queue plays no role in what a response does. *)
Lemma unwatch_replies w q s s' : do_unwatch w s = Done s' -> do_unwatch w (set_replies q s) = Done (set_replies q s').
Proof.
  unfold do_unwatch. cbn [set_replies hp watches]. intros E. apply bind_Done in E as (x & -> & E). rewrite Done_bind.
  apply bind_Done in E as (u & -> & E). rewrite Done_bind. apply bind_Done in E as (v & -> & E). rewrite Done_bind. by injection E as <-.
Qed.

Lemma effect_replies req e m q s s' : response_effect req e m s = Done s' -> response_effect req e m (set_replies q s) = Done (set_replies q s').
Proof.
  unfold response_effect. destruct (xs_kind (req_type req)) as [[] |]; try (intros [= <-]; done).
  - destruct e; [intros [= <-]; done | intros E; outcome_inv].
  - intros E. apply bind_Done in E as (x & E1 & E). cbn [set_replies hp]. rewrite E1, Done_bind. by injection E as <-.
  - destruct e; [apply unwatch_replies |]. intros E. apply bind_Done in E as (x & E1 & E). cbn [set_replies hp]. rewrite E1, Done_bind. by injection E as <-.
  - intros E. apply bind_Done in E as (x & -> & E). rewrite Done_bind. by apply unwatch_replies.
Qed.

Lemma response_ok ws rs a req m s : inv ws (QReply a req m :: rs) s ->
  exists o s', process_response (RQ a) m (set_replies (qev_ev <$> rs) s) = Done (o, s') /\ fetched ws s o s'.
Proof.
  intros Hi. pose proof (v_req _ _ _ Hi) as Hreq. rewrite (under_way_reply ws a req m rs) in Hreq. apply Forall_cons in Hreq as [Ha _]. cbn [fst snd] in Ha.
  destruct (v_ok _ _ _ Hi a req m ltac:(by left)) as [(O1 & O2 & O3 & O4) Hlen].
  pose proof (v_count _ _ _ Hi) as Hcnt. rewrite (Permutation_length (under_way_reply ws a req m rs)) in Hcnt. cbn [length] in Hcnt.
  unfold process_response, get_req. cbn [set_replies hp]. rewrite Ha. cbn [of_option]. rewrite Done_bind. cbn [fst m_type].
  assert ((m_type m.1 =? xs_code XS_ERROR) || (m_type m.1 =? req_type req) = true) as -> by (destruct O2 as [-> | ->]; rewrite Z.eqb_refl; auto using orb_true_r).
  rewrite bmk_assert_true, Done_bind. set (m' := (SockMsg _ _ _ _, m.2)). set (s1 := set_replies (qev_ev <$> rs) s).
  destruct (effect_step ws rs a req m s Hi m' eq_refl) as (s2 & E & l & r & h & -> & H1 & H2 & H3 & H4 & H5).
  apply (effect_replies _ _ _ (qev_ev <$> rs)) in E. fold s1 in E. rewrite E.
  rewrite Done_bind. cbn [free_req get_req set_replies set_heap hp]. rewrite H1, Ha. cbn [of_option]. rewrite !Done_bind.
  cbn [outstanding_requests set_heap put_watches set_replies]. rewrite Hcnt, (proj2 (Z.ltb_lt 0 _)) by lia. rewrite bmk_assert_true, Done_bind.
  do 2 eexists. split; [reflexivity |]. split; [| split; [done | split; [done |]]].
  - exists rs. eapply (inv_answered ws rs a req m s); try done; cbn [set_log set_heap set_count set_replies put_watches given asked hp watches h_req h_next h_watch outstanding_requests]; try congruence.
    rewrite ids_response; [done |]. cbn [m' fst m_type]. destruct (v_trans _ _ _ Hi) as [_ T]. rewrite (under_way_reply ws a req m rs) in T.
    apply Forall_cons in T as [[_ T] _]. destruct O2 as [-> | ->]; [done | apply xs_code_event].
  - intros m2 [= <-]. cbn [snd m']. pose proof payload_max_ok. pose proof (Z.pow_pos_nonneg 2 ring_bits). pose proof ring_bits_ok. lia.
Qed.

Lemma next_event_ok ws rs s : inv ws rs s -> exists o s', rumpxenbus_next_event_msg s = Done (o, s') /\
  (o = None /\ s' = s \/ exists o', o = Some o' /\ fetched ws s o' s').
Proof.
  intros Hi. unfold rumpxenbus_next_event_msg. rewrite (v_replies _ _ _ Hi). destruct rs as [| [a req m | w path] rs]; cbn [fmap list_fmap qev_ev process_event].
  - do 2 eexists. split; [reflexivity |]. by left.
  - destruct (response_ok ws rs a req m s Hi) as (o & s' & -> & H1). rewrite Done_bind. do 2 eexists. split; [reflexivity |]. right. by eexists.
  - destruct (watch_event_ok ws rs w path s Hi) as (o & s' & -> & H1). rewrite Done_bind. do 2 eexists. split; [reflexivity |]. right. by eexists.
Qed.

(** ** Reading *)

(** The messages made for the process are what it has got, in order, and what
    remains of the one being read; at most one read waits, with no message
    under way to it. *)
Record reading (s : bus) : Prop := {
  g_rmsg : rmsg_ok s;
  g_stream : concat (msg_bytes <$> given s) = out s ++ unread s;
  g_wait : waiting s = [] \/ exists w, waiting s = [w] /\ rmsg s = None /\ 0 < rw_resid w
}.

Lemma reading_same s s' : reading s -> rview s' = rview s -> given s' = given s -> reading s'.
Proof.
  intros [] [= E1 E2 E3 E4] E5. unfold rmsg_ok, unread in *. split; unfold rmsg_ok, unread; rewrite ?E1, ?E2, ?E3, ?E4, ?E5; done.
Qed.

Lemma msg_bytes_bound m : zlen m.2 <= 2 * XENSTORE_PAYLOAD_MAX -> 0 < zlen (msg_bytes m) < BUFFER_SIZE * 2.
Proof. intros Hm. unfold msg_bytes, BUFFER_SIZE. rewrite length_app, sockmsg_length. pose proof (proj1 msg_size_ok). lia. Qed.

(** A message is taken while there is none being read. *)
Lemma assign_ok e org resid ws s o s1 : reading s -> waiting s = [] -> rmsg s = None -> fetched ws s o s1 ->
  exists r s2, read_assign e org resid o s1 = (r, s2) /\ (exists rs2, inv ws rs2 s2) /\ reading s2 /\ waiting s2 = [] /\ (r = None -> is_Some (rmsg s2)) /\
    (forall w, r <> Some (RWait w)).
Proof.
  intros [Hrm Hst _] Hw Er ((rs1 & Hi) & [= M1 M2 M3 M4] & Hg & Hm). unfold rmsg_ok, unread in *. rewrite Er in *. unfold read_assign.
  do 2 eexists. split; [reflexivity |]. split; [exists rs1; by apply (inv_same _ _ s1) |]. split; [| split; [cbn; congruence |]; split; [by destruct o; intros; [eexists |] | by destruct o]].
  rewrite app_nil_r in Hst. split; cbn; [| | left; congruence]; destruct o as [m |]; unfold rmsg_ok, unread; cbn.
  - rewrite M2, Hrm. pose proof (msg_bytes_bound m (Hm m eq_refl)). lia.
  - congruence.
  - rewrite M2, M4, Hrm, Hg, fmap_app, concat_app, Hst. cbn. by rewrite app_nil_r.
  - by rewrite M4, Hg, app_nil_r, Hst, app_nil_r.
Qed.

Lemma copy_ok ws rs s resid : inv ws rs s -> reading s -> is_Some (rmsg s) -> 0 < resid ->
  exists resid' s', read_copy resid s = Done (resid', s') /\ inv ws rs s' /\ reading s' /\ waiting s' = waiting s /\ 0 <= resid' < resid.
Proof.
  intros Hi [Hrm Hst Hw] [bs Ebs] Hres. unfold rmsg_ok, unread in *. unfold read_copy. rewrite Ebs in *. destruct Hrm as [Hd Hb]. cbn [of_option]. rewrite Done_bind.
  rewrite (proj2 (Z.ltb_lt (zlen bs) _)) by lia. rewrite (proj2 (Z.ltb_lt 0 _)) by lia. rewrite (proj2 (Z.leb_le (rmsg_done s) _)) by lia.
  rewrite !bmk_assert_true, !Done_bind. set (n := Z.min resid (zlen bs - rmsg_done s)). assert (1 <= n <= resid) as Hn by (unfold n; lia).
  destruct Hw as [Hw | (w & _ & ? & _)]; [| done]. change (rmsg_done (set_wait _ _ s)) with (rmsg_done s).
  set (k := take _ _). assert (k ++ drop (Z.to_nat (rmsg_done s + n)) bs = drop (Z.to_nat (rmsg_done s)) bs) as Hk.
  { unfold k. rewrite Z2Nat.inj_add by lia. rewrite <- drop_drop. apply take_drop. }
  do 2 eexists. split; [reflexivity |]. split; [destruct (_ =? _); by apply (inv_same _ _ s) |]. split; [| split; [by destruct (_ =? _) | lia]].
  destruct (Z.eqb_spec (rmsg_done s + n) (zlen bs)) as [E | E]; split; unfold rmsg_ok, unread; cbn; try (by left); try done; [| unfold n in *; lia |].
  - rewrite Hst, app_nil_r, <- Hk, E, Nat2Z.id, drop_all. by rewrite app_nil_r.
  - by rewrite Hst, <- Hk, <- app_assoc.
Qed.

Lemma read_ok nonblock org : forall fuel ws rs s resid, inv ws rs s -> reading s -> waiting s = [] -> 0 <= resid -> resid < Z.of_nat fuel ->
  exists x, xenbus_dev_read fuel nonblock org resid s = Done x /\ (exists ws' rs', inv ws' rs' (read_end x)) /\ reading (read_end x).
Proof.
  induction fuel as [| fuel IH]; intros ws rs s resid Hi Hg Hwait Hres Hfuel; [lia |]. cbn [xenbus_dev_read].
  destruct (queued_enomem s).
  { destruct (negb _); (eexists; split; [reflexivity |]); (split; [exists ws, rs; by apply (inv_same _ _ s) | by apply (reading_same s)]). }
  destruct (Z.eqb_spec resid 0) as [-> | Hnz]; [eexists; split; [reflexivity |]; split; [by eauto | done] |].
  set (eib := if want_restart s then _ else _). set (fetch := match rmsg s with Some _ => _ | None => _ end).
  assert (exists r s1, fetch = Done (r, s1) /\ (exists rs1, inv ws rs1 s1) /\ reading s1 /\ waiting s1 = [] /\ (r = None -> is_Some (rmsg s1)) /\
    (forall w, r = Some (RWait w) -> rmsg s1 = None /\ 0 < rw_resid w)) as (r & s1 & -> & (rs1 & Hi1) & Hg1 & Hw1 & Hr1 & Hr2).
  { unfold fetch. destruct (rmsg s) as [bs |] eqn:Er; [do 2 eexists; split; [reflexivity |]; split; [by eauto |]; split; [done |]; split; [done |]; split; [by rewrite Er; eauto | done] |].
    destruct (next_event_ok ws rs s Hi) as (o & s1 & -> & Ho). rewrite Done_bind. cbv beta iota. destruct Ho as [[-> ->] | (o' & -> & Hf)].
    - destruct (eib =? 0); [do 2 eexists; split; [reflexivity |]; split; [by eauto |]; split_and!; try done; intros w [= <-]; cbn; split; [done | lia] |].
      do 2 eexists. split; [reflexivity |]. split; [exists rs; by apply (inv_same _ _ s) |]. split; [apply (reading_same s); [done | unfold rview; cbn; by rewrite Er | done] |]. done.
    - destruct (assign_ok eib org resid ws s o' s1 Hg Hwait Er Hf) as (r & s2 & -> & Hi2 & Hg2 & Hw2 & Hr & Hn). do 2 eexists. split; [reflexivity |].
      split_and!; try done. intros w Ew. by destruct (Hn w). }
  rewrite Done_bind. cbv beta iota. destruct r as [[err | w] |].
  - eexists. split; [reflexivity |]. split; [by eauto | done].
  - eexists. split; [reflexivity |]. destruct (Hr2 w eq_refl) as [Er Hw]. unfold read_end. cbn. rewrite Hw1. cbn. split; [exists ws, rs1; by apply (inv_same _ _ s1) |].
    destruct Hg1. split; [done | done |]. right. by exists w.
  - destruct (copy_ok ws rs1 s1 resid Hi1 Hg1 (Hr1 eq_refl)) as (resid' & s2 & -> & Hi2 & Hg2 & Hw2 & Hle); [lia |]. rewrite Done_bind. cbv beta iota.
    apply (IH ws rs1); [done | done | congruence | lia | lia].
Qed.

Lemma resume_ok ws rs s w : inv ws rs s -> reading s -> waiting s = [] -> rmsg s = None -> 0 < rw_resid w ->
  exists x, read_resume (S (Z.to_nat (rw_resid w))) w s = Done x /\ (exists ws' rs', inv ws' rs' (read_end x)) /\ reading (read_end x).
Proof.
  intros Hi Hg Hw Er Hres. unfold read_resume. destruct (next_event_ok ws rs s Hi) as (o & s1 & -> & Ho). rewrite Done_bind. cbv beta iota.
  destruct Ho as [[-> ->] | (o' & -> & Hf)].
  - eexists. split; [reflexivity |]. unfold read_end. cbn. rewrite Hw. cbn. split; [exists ws, rs; by apply (inv_same _ _ s) |].
    destruct Hg. split; [done | done |]. right. by exists w.
  - destruct (assign_ok 0 (rw_org w) (rw_resid w) ws s o' s1 Hg Hw Er Hf) as (r & s2 & -> & (rs2 & Hi2) & Hg2 & Hw2 & Hr & Hn). destruct r as [[err | w'] |].
    + eexists. split; [reflexivity |]. split; [by eauto | done].
    + by destruct (Hn w').
    + destruct (copy_ok ws rs2 s2 (rw_resid w) Hi2 Hg2 (Hr eq_refl) Hres) as (resid' & s3 & -> & Hi3 & Hg3 & Hw3 & Hle). rewrite Done_bind. cbv beta iota.
      apply (read_ok false (rw_org w) _ ws rs2); [done | done | congruence | lia | lia].
Qed.

(** ** The store *)
Lemma sub_of (x : Z * dreq) (l : list (Z * dreq)) : x ∈ l -> about_watch x.2 -> req_u x.2 ∈ omap wsub l.
Proof. intros Hx Ha. apply list_elem_of_omap. exists x. split; [done |]. unfold wsub. by rewrite decide_True. Qed.

Section Reply.
Context (ws : list (Z * dreq)) (rs : list qev) (s : bus) (k : nat) (q : wreq) (a : Z) (req : dreq) (type : Z) (body : list Z).
Context (Hi : inv ws rs s) (Hk : wire s !! k = Some q) (Hx : ws !! k = Some (a, req)) (Hq : wr_req q = RQ a) (Hok : reply_ok req type body).

Definition the_reply : message := (SockMsg type 0 (wr_tx q) (zlen body), body).

Lemma reply_under_way : under_way (delete k ws) (rs ++ [QReply a req the_reply]) ≡ₚ under_way ws rs.
Proof. unfold under_way. rewrite omap_app. cbn. rewrite (delete_Permutation _ _ _ Hx) at 2. solve_Permutation. Qed.

(** The other requests are about other watches. *)
Lemma reply_alone : about_watch req -> req_u req ∉ omap wsub (delete k ws ++ omap qev_req rs).
Proof.
  intros Ha. pose proof (proj1 (v_sub _ _ _ Hi)) as Hnd. assert (under_way ws rs ≡ₚ (a, req) :: (delete k ws ++ omap qev_req rs)) as Hp
    by (unfold under_way; by rewrite (delete_Permutation _ _ _ Hx) at 1).
  rewrite Hp, omap_wsub_cons in Hnd. unfold wsub at 1 in Hnd. cbn [snd] in Hnd. rewrite decide_True in Hnd by done. by apply NoDup_cons in Hnd as [? _].
Qed.

Lemma reply_not_killed e : about_watch req -> e ∈ rs -> kills e <> Some (req_u req).
Proof.
  intros Ha He Hkill. destruct e as [b r m | w path]; [| done]. pose proof (kills_sub _ _ _ _ Hkill) as Hsub.
  apply (reply_alone Ha). apply list_elem_of_omap. exists (b, r). split; [| done]. apply elem_of_app. right. apply list_elem_of_omap. by exists (QReply b r m).
Qed.

Lemma reply_armed w : w ∈ arm_after req type (armed s) ->
  w ∈ watches s /\ (forall e, e ∈ rs -> kills e <> Some w) /\ kills (QReply a req the_reply) <> Some w.
Proof.
  pose proof (v_armed _ _ _ Hi) as Harm. assert (about_watch req -> req_u req ∈ watches s) as Hin.
  { intros Ha. apply (proj2 (v_sub _ _ _ Hi)). apply (sub_of (a, req)); [| done]. apply elem_of_app. left. by apply list_elem_of_lookup_2 with k. }
  assert (xs_code XS_WATCH <> xs_code XS_UNWATCH) as Hne by (intros E%xs_code_inj; done).
  unfold arm_after. cbn [kills]. destruct (decide (req_type req = xs_code XS_WATCH)) as [Hw | Hw].
  - destruct (Z.eqb_spec type (xs_code XS_ERROR)) as [Er | Er].
    + intros Hwa. destruct (Harm w Hwa) as [W1 W2]. split; [done |]. split; [done |]. rewrite decide_True by (right; by cbn). intros [= <-].
      apply (v_new _ _ _ Hi (a, req)); [by apply list_elem_of_lookup_2 with k | done | done].
    + rewrite decide_False by (cbn; intros [? | [_ ?]]; congruence). intros [-> | Hwa]%elem_of_cons; [| destruct (Harm w Hwa); by split_and!].
      split; [apply Hin; by left |]. split; [intros e; apply reply_not_killed; by left | done].
  - destruct (decide (req_type req = xs_code XS_UNWATCH)) as [Hu | Hu].
    + intros [Hn Hwa]%list_elem_of_filter. destruct (Harm w Hwa). rewrite decide_True by (by left). split_and!; [done | done | congruence].
    + intros Hwa. destruct (Harm w Hwa). rewrite decide_False by naive_solver. by split_and!.
Qed.

Lemma inv_reply : inv (delete k ws) (rs ++ [QReply a req the_reply])
  (set_wire (delete k (wire s)) (arm_after req type (armed s)) (set_replies (replies s ++ [EvReply (RQ a) the_reply]) s)).
Proof.
  pose proof reply_under_way as Hp. pose proof reply_armed as Harm. pose proof Hi as Hi'. destruct Hi'. split; cbn; try done.
  - by apply Forall2_delete.
  - by rewrite fmap_app, v_replies0.
  - by rewrite Hp.
  - by rewrite Hp.
  - by rewrite (Permutation_length Hp).
  - destruct v_trans0. split; [done |]. by rewrite Hp.
  - destruct v_sub0 as [V1 V2]. split; [by rewrite Hp |]. intros w. rewrite Hp. apply V2.
  - intros i w path Hiw. assert (rs !! i = Some (QWatch w path)) as Hiw'.
    { apply lookup_app_Some in Hiw as [? | [? Hiw]]; [done |]. by apply list_lookup_singleton_Some in Hiw as [_ ?]. }
    destruct (v_order0 i w path Hiw') as (W1 & W2 & W3). split; [done |]. split; [done |]. intros j e Hj He. apply (W3 j); [done |].
    pose proof (lookup_lt_Some _ _ _ Hiw'). by rewrite lookup_app_l in He by lia.
  - intros w Hw. destruct (Harm w Hw) as (W1 & W2 & W3). split; [done |]. intros e [He | ->%list_elem_of_singleton]%elem_of_app; auto.
  - intros x Hxin Hxw. assert (x ∈ ws) as Hxws by (rewrite (delete_Permutation _ _ _ Hx); by right). specialize (v_new0 x Hxws Hxw).
    unfold arm_after. destruct (decide _) as [Hw | _]; [destruct (_ =? _); [done |] | destruct (decide _); [intros [_ ?]%list_elem_of_filter; done | done]].
    intros [E | ?]%elem_of_cons; [| done]. apply (reply_alone (or_introl Hw)). rewrite <- E. apply sub_of; [set_solver | by left].
  - intros b r m [Hin | Hin%list_elem_of_singleton]%elem_of_app; [by apply (v_ok0 b) |]. simplify_eq. by split.
  - rewrite v_log0. by rewrite Hp.
Qed.
End Reply.

Lemma inv_fire ws rs s w path : inv ws rs s -> w ∈ armed s -> zlen path <= XENSTORE_PAYLOAD_MAX ->
  inv ws (rs ++ [QWatch w path]) (set_replies (replies s ++ [EvWatch w path]) s).
Proof.
  intros Hi Hw Hp. assert (under_way ws (rs ++ [QWatch w path]) = under_way ws rs) as E by (unfold under_way; rewrite omap_app; cbn; by rewrite app_nil_r).
  destruct (v_armed _ _ _ Hi w Hw) as [A1 A2]. destruct Hi. split; cbn; rewrite ?E; try done.
  - by rewrite fmap_app, v_replies0.
  - intros i u p Hi. apply lookup_app_Some in Hi as [Hi | [Hl Hi]].
    + destruct (v_order0 i u p Hi) as (W1 & W2 & W3). split; [done |]. split; [done |]. intros j e Hj He. apply (W3 j); [done |].
      pose proof (lookup_lt_Some _ _ _ Hi). by rewrite lookup_app_l in He by lia.
    + apply list_lookup_singleton_Some in Hi as [Hz [= <- <-]]. split; [done |]. split; [done |]. intros j e Hj He. apply A2.
      rewrite lookup_app_l in He by lia. by apply list_elem_of_lookup_2 with j.
  - intros u Hu. destruct (v_armed0 u Hu) as [W1 W2]. split; [done |]. intros e [He | ->%list_elem_of_singleton]%elem_of_app; [auto | done].
  - intros a r m [Hin | Hin%list_elem_of_singleton]%elem_of_app; [by apply (v_ok0 a) | done].
Qed.

(** ** Runs *)

(** What the environment may do: the process writes less than the ring holds
    and does not read while one of its reads waits, and the store answers by
    the protocol.  What happens otherwise is shown by [long_message_halts],
    [two_readers_halt] and, for a transaction that is granted,
    [transaction_granted]. *)
Definition event_ok (s : bus) (e : bevent) : Prop :=
  match e with
  | BWrite data => zlen (wbuf s) + zlen data + 21 <= XENSTORE_RING_SIZE /\ outstanding_requests s + zlen (wbuf s) + zlen data <= INT_MAX
  | BRead _ n => 0 <= n /\ waiting s = []
  | BWake _ | BRestart => True
  | BReply k type body => forall q req, wire s !! k = Some q -> get_req (wr_req q) (hp s) = Done req -> reply_ok req type body
  | BFire _ path => zlen path <= XENSTORE_PAYLOAD_MAX
  end.

Lemma bus_event_ok ws rs s e : inv ws rs s -> reading s -> event_ok s e ->
  exists s', bus_event xb_token e s = Done s' /\ (exists ws' rs', inv ws' rs' s') /\ reading s'.
Proof.
  intros Hi Hrm Hok. destruct e as [data | nonblock n | k | | k type body | w path]; cbn [bus_event event_ok] in *.
  - destruct Hok as [H1 H2]. destruct (write_ok rs (S (length data)) ws s data Hi) as (err & s' & -> & (ws' & Hi') & M1 & M2); [lia | lia | lia |]. rewrite Done_bind.
    eexists. split; [reflexivity |]. split; [by eauto |]. by apply (reading_same s).
  - destruct Hok as [Hn Hw]. destruct (read_ok nonblock n (S (Z.to_nat n)) ws rs s n Hi Hrm Hw Hn) as (x & -> & H1 & H2); [lia |]. rewrite Done_bind. by eexists.
  - destruct (waiting s !! k) as [w |] eqn:Ek; [| exists s; by eauto]. destruct (g_wait _ Hrm) as [E | (w' & E & Er & Hres)]; [by rewrite E in Ek |].
    rewrite E in *. apply list_lookup_singleton_Some in Ek as [-> ->]. cbn [delete list_delete]. set (s1 := set_wait [] (out s) s).
    destruct (resume_ok ws rs s1 w) as (x & -> & H1 & H2); [by apply (inv_same _ _ s) | | done | done | done | rewrite Done_bind; by eexists].
    destruct Hrm. split; [done | done | by left].
  - eexists. split; [reflexivity |]. split; [exists ws, rs; by apply (inv_same _ _ s) | by apply (reading_same s)].
  - destruct (wire s !! k) as [q |] eqn:Hk; [| exists s; by eauto]. destruct (Forall2_lookup_l _ _ _ _ _ (v_wire _ _ _ Hi) Hk) as ([a req] & Hx & Hq & _). cbn in Hq.
    assert (h_req (hp s) !! a = Some req) as Ha.
    { apply (proj1 (Forall_forall _ _) (v_req _ _ _ Hi) (a, req)). apply elem_of_app. left. by apply list_elem_of_lookup_2 with k. }
    assert (get_req (wr_req q) (hp s) = Done req) as Hg by (rewrite Hq; cbn; by rewrite Ha). rewrite Hg, Done_bind. specialize (Hok q req eq_refl Hg).
    eexists. split; [reflexivity |]. rewrite Hq. split; [| by apply (reading_same s)]. eexists _, _. by eapply inv_reply.
  - destruct (decide (w ∈ armed s)); [| exists s; by eauto]. eexists. split; [reflexivity |]. split; [| by apply (reading_same s)]. eexists _, _. by apply inv_fire.
Qed.

Inductive bus_reach (ms : list bool) : bus -> Prop :=
  | br_open : bus_reach ms (bus_open ms)
  | br_step s e s' : bus_reach ms s -> event_ok s e -> bus_event xb_token e s = Done s' -> bus_reach ms s'.

Lemma open_inv ms : inv [] [] (bus_open ms).
Proof.
  split; cbn; try done; try (by intros x Hx%elem_of_nil); try (by constructor).
  - split; [by constructor |]. by intros w Hw%elem_of_nil.
  - by intros a req m Hq%elem_of_nil.
  - split; [intros a [x Hx]; by rewrite lookup_empty in Hx | by intros w Hw%elem_of_nil].
Qed.

Lemma reach_inv ms s : bus_reach ms s -> (exists ws rs, inv ws rs s) /\ reading s.
Proof.
  induction 1 as [| s e s' Hs ([ws [rs Hi]] & Hrm) Hok E]; [split; [exists [], []; apply open_inv | split; [done | done | by left]] |].
  destruct (bus_event_ok ws rs s e Hi Hrm Hok) as (s2 & E2 & H1 & H2). rewrite E in E2. by simplify_eq.
Qed.

(** ** What the process gets *)

(** The requests under way, as the state has them. *)
Definition ev_req (e : devent) : option rptr := match e with EvReply r _ => Some r | EvWatch _ _ => None end.
Definition pending (s : bus) : list rptr := (wr_req <$> wire s) ++ omap ev_req (replies s).

Lemma ev_req_qev (rs : list qev) : omap ev_req (qev_ev <$> rs) = RQ ∘ fst <$> omap qev_req rs.
Proof. induction rs as [| [a req m | w path] rs IH]; cbn; [done | by rewrite IH | done]. Qed.

Lemma pending_under_way ws rs s : inv ws rs s -> pending s = RQ ∘ fst <$> under_way ws rs.
Proof.
  intros Hi. unfold pending, under_way. rewrite fmap_app, (v_replies _ _ _ Hi), ev_req_qev. f_equal.
  pose proof (v_wire _ _ _ Hi) as Hw. clear Hi. induction Hw as [| q x l k [Hq _] Hw IH]; cbn; [done | by rewrite Hq, IH].
Qed.

Lemma pending_reqs ws rs s : inv ws rs s -> Forall2 (fun r req => get_req r (hp s) = Done req) (pending s) (snd <$> under_way ws rs).
Proof.
  intros Hi. rewrite (pending_under_way _ _ _ Hi). apply Forall2_fmap, Forall_Forall2_diag.
  apply (Forall_impl _ _ _ (v_req _ _ _ Hi)). intros [a req] Ha. cbn in *. by rewrite Ha.
Qed.
End Inv.

(** C40. The device /dev/xen/xenbus is safe and loses no request.  Whatever the
    process writes and reads, however allocations fail, whatever the store
    answers and reports by its protocol, and however long a read waits: no
    check fails, no freed object is used, and reads and writes end or wait;
    every request taken from the process is under way, as one object of its
    own, or answered by one message that bears the process's identifier; the
    bytes that the process has read, with the rest of the message being read,
    are the messages made for it (the responses and the reported changes), one
    after the other; and [outstanding_requests] counts what is under way.
    Assumed ([event_ok]): a write leaves less in the buffer than the ring holds
    less 21 bytes, fewer than [INT_MAX] requests are out, the process does not
    read while one of its reads waits, the store answers with the type of the
    request or an error, but neither with an error to the end of a watch nor
    by granting a transaction; tokens have 20 characters at most; and the
    device is not closed.  Where the code fails otherwise is below. *)
Theorem busdev_safe `{P : XsProto} xb_token ms s : (forall w, zlen (xb_token w) <= 20) -> bus_reach xb_token ms s ->
  (forall e, event_ok s e -> exists s', bus_event xb_token e s = Done s') /\
  NoDup (pending s) /\ outstanding_requests s = zlen (pending s) /\
  (exists reqs, Forall2 (fun r req => get_req r (hp s) = Done req) (pending s) reqs /\
     asked s ≡ₚ (m_req_id ∘ fst <$> responses (given s)) ++ (user_id <$> reqs)) /\
  concat (msg_bytes <$> given s) = out s ++ unread s.
Proof.
  intros Htok Hr. destruct (reach_inv xb_token Htok ms s Hr) as [(ws & rs & Hi) Hrm]. split_and!.
  - intros e He. destruct (bus_event_ok xb_token Htok ws rs s e Hi Hrm He) as (s' & E & _). by exists s'.
  - rewrite (pending_under_way _ _ _ Hi), list_fmap_compose. apply NoDup_fmap_2; [by intros ? ? [=] | apply (v_nodup _ _ _ Hi)].
  - rewrite (pending_under_way _ _ _ Hi), length_fmap. apply (v_count _ _ _ Hi).
  - exists (snd <$> under_way ws rs). split; [by apply pending_reqs |]. rewrite <- list_fmap_compose. apply (v_log _ _ _ Hi).
  - apply (g_stream _ Hrm).
Qed.

(** ** Xen's messages *)
Definition w32 (h : xsd_sockmsg) : xsd_sockmsg :=
  SockMsg (m_type h mod 2 ^ 32) (m_req_id h mod 2 ^ 32) (m_tx_id h mod 2 ^ 32) (m_len h mod 2 ^ 32).

Local Instance xsd_wire : XenWire.
Proof.
  refine {| ring_bits := 10; msg_size := 16; XS_WATCH_EVENT := 15; sockmsg_bytes := xs_bytes; sockmsg_of l := w32 (xs_of l) |}.
  - lia.
  - split; [lia | done].
  - unfold u32. lia.
  - done.
  - intros h Hh. rewrite (xs_roundtrip h Hh). destruct h, Hh as (H1 & H2 & H3 & H4). unfold u32, w32 in *. cbn in *. f_equal; by apply Z.mod_small.
Defined.

Definition xsd_code (x : xstype) : Z :=
  match x with
  | XS_DIRECTORY => 1 | XS_READ => 2 | XS_GET_PERMS => 3 | XS_WATCH => 4 | XS_UNWATCH => 5 | XS_TRANSACTION_START => 6 | XS_TRANSACTION_END => 7
  | XS_GET_DOMAIN_PATH => 10 | XS_WRITE => 11 | XS_MKDIR => 12 | XS_RM => 13 | XS_SET_PERMS => 14 | XS_ERROR => 16 | XS_IS_DOMAIN_INTRODUCED => 17
  end.

Local Instance xsd_proto : XsProto.
Proof.
  refine {| xs_code := xsd_code; XENSTORE_PAYLOAD_MAX := 4096 |}.
  - intros [] []; done.
  - done.
  - by intros [].
  - intros l _. unfold sockmsg_ok, u32. cbn. split_and!; apply Z.mod_pos_bound; lia.
Defined.

(** A process watches "a" with the token "b" and waits for the answer, the
    store accepts and reports "a", and the process ends the watch. *)
Definition xsd_token (w : Z) : list Z := [42].
Definition watch_a_b (type id : Z) : list Z := msg_bytes (SockMsg type id 0 4, [97; 0; 98; 0]).
Definition after (o : outcome bus) : bus := match o with Done s => s | _ => bus_open [] end.
Definition bus_do (e : bevent) (s : bus) : bus := after (bus_event xsd_token e s).
Definition bus_1 : bus := bus_do (BWrite (watch_a_b 4 7)) (bus_open []).
Definition bus_w : bus := bus_do (BRead false 18) bus_1.
Definition bus_2 : bus := bus_do (BRead true 1) (bus_do (BWake 0) (bus_do (BReply 0 4 [79; 75; 0]) bus_w)).
Definition bus_3 : bus := bus_do (BWrite (watch_a_b 5 8)) (bus_do (BFire 2 [97]) bus_2).

Lemma bus_3_reach : bus_reach xsd_token [] bus_3.
Proof.
  unfold bus_3, bus_2, bus_w, bus_1.
  apply (br_step _ _ (bus_do (BFire 2 [97]) bus_2) (BWrite (watch_a_b 5 8))); [| vm_compute; split; done | vm_compute; reflexivity].
  apply (br_step _ _ bus_2 (BFire 2 [97])); [| vm_compute; done | vm_compute; reflexivity].
  apply (br_step _ _ (bus_do (BWake 0) (bus_do (BReply 0 4 [79; 75; 0]) bus_w)) (BRead true 1)); [| vm_compute; done | vm_compute; reflexivity].
  apply (br_step _ _ (bus_do (BReply 0 4 [79; 75; 0]) bus_w) (BWake 0)); [| vm_compute; done | vm_compute; reflexivity].
  apply (br_step _ _ bus_w (BReply 0 4 [79; 75; 0])); [| | vm_compute; reflexivity].
  - apply (br_step _ _ bus_1 (BRead false 18)); [| vm_compute; done | vm_compute; reflexivity].
    apply (br_step _ _ (bus_open []) (BWrite (watch_a_b 4 7))); [apply br_open | vm_compute; split; done | vm_compute; reflexivity].
  - intros q req Hq Hr. vm_compute in Hq. injection Hq as <-. vm_compute in Hr. injection Hr as <-. vm_compute. split_and!; try done. by left.
Qed.

(** The watch is set up and reported, the request to end it is under way, and
    the process has its answer to the first request, for which it waited. *)
Lemma busdev_safe_witness :
  waiting bus_w = [RW 18 18] /\ asked bus_3 = [7; 8] /\ out bus_3 = msg_bytes (SockMsg 4 7 0 3, [79; 75; 0]) /\
  concat (msg_bytes <$> given bus_3) = out bus_3 ++ unread bus_3 /\ outstanding_requests bus_3 = zlen (pending bus_3) /\ zlen (pending bus_3) = 1 /\
  (exists s', bus_event xsd_token (BRead false 1000) bus_3 = Done s').
Proof.
  destruct (busdev_safe xsd_token [] bus_3) as (H1 & _ & H2 & _ & H3).
  - intros w. vm_compute. done.
  - exact bus_3_reach.
  - split; [vm_compute; reflexivity |]. split; [vm_compute; reflexivity |]. split; [vm_compute; reflexivity |]. split; [exact H3 |]. split; [exact H2 |].
    split; [vm_compute; reflexivity |]. apply H1. cbn. split; [lia | vm_compute; reflexivity].
Defined.

(** ** Where the code does not do what it means to *)

(** A transaction that the store grants: the number is looked for behind the
    pointer to the message instead of behind the message. *)
Lemma transaction_granted `{P : XsProto} a req m s :
  h_req (hp s) !! a = Some req -> req_type req = xs_code XS_TRANSACTION_START -> m_type m.1 = xs_code XS_TRANSACTION_START ->
  2 <= m_len m.1 -> last m.2 = Some 0 -> process_response (RQ a) m s = Undef "(char*)&msg + sizeof(*msg)".
Proof.
  intros Ha Ht Hm Hl H0. unfold process_response. cbn [get_req]. rewrite Ha. cbn [of_option fst snd m_type]. rewrite Done_bind, Hm, <- Ht, Z.eqb_refl, orb_true_r, bmk_assert_true, Done_bind.
  assert ((req_type req =? xs_code XS_ERROR) = false) as -> by (apply Z.eqb_neq; rewrite Ht; by intros ?%xs_code_inj).
  unfold response_effect. rewrite Ht, xs_kind_code. cbn [fst snd m_len]. rewrite (proj2 (Z.leb_le 2 _)) by done. by rewrite H0, bmk_assert_true, Done_bind.
Qed.

(** Two reads that wait: the first gets 18 of the 19 bytes of an answer, and
    then the second puts the next answer, of 16 bytes, in its place. *)
Definition two_readers : bus :=
  bus_do (BReply 0 2 []) (bus_do (BWake 0) (bus_do (BReply 0 4 [79; 75; 0]) (bus_do (BRead false 100)
    (bus_do (BRead false 18) (bus_do (BWrite (msg_bytes (SockMsg 2 8 0 2, [97; 0]))) bus_1))))).
Lemma two_readers_halt :
  waiting two_readers = [RW 100 100] /\ rmsg_done two_readers = 18 /\ zlen (replies two_readers) = 1 /\
  bus_event xsd_token (BWake 0) two_readers = Halt "dd->rmsg_done <= avail".
Proof. repeat split; vm_compute; reflexivity. Qed.

(** Two messages in one write: the first is sent with the second behind it. *)
Lemma forward_sends_the_rest :
  wr_data <$> wire (bus_do (BWrite (msg_bytes (SockMsg 2 1 0 2, [97; 0]) ++ msg_bytes (SockMsg 2 2 0 2, [98; 0]))) (bus_open [])) =
    [[97; 0] ++ msg_bytes (SockMsg 2 2 0 2, [98; 0]); [98; 0]].
Proof. vm_compute. reflexivity. Qed.

(** A message that the device takes and the ring has no room for. *)
Lemma long_message_halts :
  bus_event xsd_token (BWrite (msg_bytes (SockMsg 2 1 0 1009, replicate 1009 97))) (bus_open []) = Halt "len > XENSTORE_RING_SIZE".
Proof. vm_compute. reflexivity. Qed.

(** [poll] does not see responses that wait in the queue. *)
Lemma poll_ignores_replies : forall events, Z.land events WBITS = 0 ->
  xenbus_dev_poll events (bus_do (BReply 0 4 [79; 75; 0]) bus_1) = (0, negb (Z.land events RBITS =? 0)).
Proof. intros events He. unfold xenbus_dev_poll. rewrite He. cbn. by rewrite andb_false_r. Qed.

(** Closing with a watch: the response to the request that ends it frees the
    watch, and with it the request. *)
Definition closing : bus := match xenbus_dev_close xsd_token bus_2 with Done (_, s) => s | _ => bus_open [] end.
Lemma close_frees_twice :
  xenbus_dev_close xsd_token bus_2 = Done (CWait, closing) /\
  rumpxenbus_dev_user_shutdown xsd_token (bus_do (BReply 0 5 [79; 75; 0]) closing) = Undef "xbd_free of a part of an object".
Proof. split; vm_compute; reflexivity. Qed.
